(* ===== verification/_CoqProject ===== *)
-Q . S2P
Prelude.v
GoLib.v
Datastore.v
PebbleDB.v
MemStore.v
Etcd.v
Uuid.v
Messages.v
MessageBus.v
StoreLib.v
AgentSchema.v
AgentStore.v
AgentManager.v
Tracker.v
Server.v
CronScript.v
GoNet.v
ServiceCIDR.v
K8sMessages.v
K8sStore.v
K8sHandler.v
K8sAbs.v
K8sProcessors.v
K8sConvert.v
K8sWatchers.v
K8sRun.v
K8sTopic.v
K8sAgent.v
TracepointStore.v
Tracepoint.v
TracepointServer.v
AgentListener.v
AgentService.v
QueryMessages.v
QueryProto.v
ActiveQuery.v
ResultForwarder.v
StreamRun.v
ForwarderRuns.v
QueryFlags.v
PlannerMessages.v
MutationExecutor.v
MutationServer.v
MutationRuns.v
QueryExecutor.v
QueryPrepare.v
PrepareRuns.v
QueryRun.v
QueryServer.v
ServerRuns.v
ScriptSource.v
ConfigMapSource.v
ScriptRunner.v
RunnerSteps.v
ScriptSync.v
SourceFacts.v
ScriptRuns.v
BridgeMessages.v
VizierInfo.v
Bridge.v
BridgeFacts.v
BridgeSteps.v
VizHealth.v
BridgeProto.v
BridgeRuns.v
PTProxy.v
ProxySteps.v
Passthrough.v
PassthroughRuns.v
CloudBridge.v
CloudProxy.v
CloudSteps.v
EndToEnd.v
EndToEndRuns.v
ActiveSet.v
FilterSteps.v
ExportPxl.v
ExportTrigger.v
ExportRuns.v
