(* ===== verification/Prelude.v ===== *)
(** * The Pixie control plane in the cluster

    A model in Rocq of the Go code at the centre of Pixie's in-cluster control
    plane (a "Vizier"), with the theorems that make it correct.

    ** The program

    Agents (PEMs, which collect data, and Kelvins, which process it) register with
    the metadata service over NATS, send heartbeats, and report their tables,
    processes and data.  The metadata service keeps all of this in a key-value
    datastore and streams it to the query broker, which plans queries with its
    copy, launches them on the agents and forwards their results to the client.
    The metadata service also keeps dynamic tracepoints and cron scripts, and it
    watches Kubernetes and sends the agents the updates they need.  All paths below
    are under [src/].

    - [vizier/utils/datastore]: the datastore interface and its implementations
      on Pebble and etcd.
    - [vizier/services/metadata/controllers/agent]: the agent store on the
      datastore, and the agent manager, which tracks deltas for followers.
    - [vizier/services/metadata/controllers/server.go]: the gRPC endpoints.
    - [vizier/services/metadata/controllers/{cronscript,tracepoint,k8smeta}]:
      the other stores, the tracepoint manager, the Kubernetes handler.
    - [vizier/services/metadata/controllers/*_topic_listener.go]: the listeners
      on the message bus, which call the handlers and the managers.
    - [vizier/services/query_broker/tracker]: the query broker's copy.
    - [vizier/services/query_broker/controllers]: the query broker itself.
    - [vizier/services/query_broker/script_runner]: the runner of cron scripts.

    ** The files

    - [Prelude]: errors, crashes (nil dereference, index out of range,
      [log.Fatal]), the state monad [M] of calls that return, fail or crash, and
      its total-correctness rules [wp].
    - [GoLib]: what the sources use of Go's standard library: [strings],
      [path], [strconv], [fmt] and [time], with their laws.  [GoNet]: [net.IP]
      and [net.IPNet].
    - [Datastore]: the datastore interface as the class [Datastore], and
      [DatastoreSpec], what its clients rely on: an ordered map of keys.
    - [PebbleDB]: [pebbledb.go] and [pebbledb_utils.go], with time-to-live
      entries and the reaper.  The Pebble engine is the parameter
      [Pebble] with the laws [PebbleSpec].  [MemStore] is the datastore
      on an engine in memory, on which the theorems that assume
      [DatastoreSpec] are instantiated.
    - [Etcd]: [etcd.go] and [etcd_utils.go]; the etcd client is a parameter.
    - [Uuid]: [utils/uuid.go], [shared/k8s/upid.go] and
      [shared/types/gotypes/types.go]; the UUID library and the generated
      message code ([Proto]) are parameters with their laws.
    - [Messages], [K8sMessages], [QueryMessages]: the protobuf messages as
      records.
    - [StoreLib]: directories of messages in a datastore, shared by the stores.
    - [AgentSchema], [AgentStore]: [agent_store.go].  [AgentSchema] holds the
      computation on the computed schema, [AgentStore] the operations, the
      abstract store [agents_abs] and the interface [AgentStore] with its
      specification [AgentStoreSpec].
    - [AgentManager]: [agent.go], against the interface of the store.  The
      interleaving of writers with the reads of one follower is the step
      relation [mgr_step].
    - [Tracker]: [agents_info.go] and the message loop of [agents.go]; the
      messages the published and the pending state share are in a heap.
    - [Server]: the agent endpoints of [server.go]; the gRPC stream is a
      parameter.
    - [CronScript]: [cronscript/store.go] and [cronscript/server.go].
    - [TracepointStore], [Tracepoint], [TracepointServer]:
      [tracepoint_store.go], [tracepoint.go] and the tracepoint endpoints of
      [server.go].
    - [K8sStore]: [k8s_metadata_store.go].  [ServiceCIDR]: the service CIDR
      that [k8s_metadata_handler.go] infers.  [K8sHandler], [K8sProcessors],
      [K8sAbs], [K8sRun]: the handler and its update processors, the abstract
      log of updates they implement, and the runs with restarts and with keys that
      expire ([hstep]).
    - [MessageBus]: topics and the controller.  [K8sTopic]: the metadata topic
      listener.  [K8sAgent]: how an agent applies the updates, with the missing
      ones it asks for.  [AgentListener], [AgentService]: the agent topic
      listener with its goroutine per agent as a step relation, and its
      composition with the agent store.
    - [QueryProto]: [proto_utils.go], the conversions between the engine's
      messages and the client's.  [ActiveQuery]: the sequential part of
      [query_result_forwarder.go].  [ResultForwarder]: its goroutines (the
      consumer, the producers, the watchdog) as a transition system with its
      invariants.  [StreamRun]: the refinement of the stream the client should
      see.  [ForwarderRuns]: concrete runs.
    - [QueryFlags]: [query_flags.go] and [data_privacy.go].
    - [PlannerMessages]: the planner (C++ code behind the class [Planner]) and the
      interface of the metadata service that the query broker calls,
      [MetadataClient].  [MutationExecutor]: [mutation_executor.go].
      [MutationServer]: the metadata service of [TracepointServer] as an
      implementation of that interface, and the two composed.
      [MutationRuns]: examples.
    - [QueryExecutor]: [query_executor.go] and [launch_query.go].
      [QueryPrepare]: what a prepared script has announced, registered and sent.
      [PrepareRuns]: examples.
    - [QueryRun]: the goroutines of a query (the script and its consumer, under
      the context of an error group) as a step relation; what the script sends,
      and for how long, is left open.  [QueryServer]: the
      result streams and consumers of [query_broker/controllers/server.go].
      [ServerRuns]: examples.
    - [ScriptSource], [ConfigMapSource]: the sources of cron scripts
      ([cloud_source.go], [config_map_source.go], [sources.go] of [script_runner] and
      [shared/scripts/cron_script.go]), with the interface [CronScriptStoreClient]
      of the metadata service they call.  [ScriptRunner]: [script_runner.go].
      [RunnerSteps]: its goroutines as a transition system, the windows and results
      of the runs.  [ScriptSync]: the metadata service of [CronScript] as an
      implementation of the interface, and the agreement of cloud, service and
      runners.  [SourceFacts]: the checksum, the config maps, the recorded status.
      [ScriptRuns]: the results in the service, and examples.
    - [K8sConvert]: the conversions between objects of the Kubernetes API and
      messages ([shared/k8s/proto_utils.go]).  [K8sWatchers]: the informers that feed
      the metadata handler, with their caches, and the order in which they are started
      ([k8s_metadata_utils.go], [k8s_metadata_controller.go]).
    - [BridgeMessages], [VizierInfo], [Bridge], [VizHealth]: the cloud connector
      ([cloud_connector/bridge/vzinfo.go], [bridge/server.go] and
      [vizhealth/checker.go]), whose interfaces [VizierInfo], [VizierOperatorInfo] and
      [VizierHealthChecker] are classes.  [BridgeFacts]: what its operations do.
      [BridgeSteps]: the goroutines of a stream to the cloud as a transition system.
      [BridgeRuns]: the parts as they are deployed, and examples; [BridgeProto]: the
      encodings the examples use.
    - [PTProxy], [ProxySteps]: the passthrough proxy of the query broker
      ([query_broker/ptproxy/pt_proxy.go]) and its goroutines.  [Passthrough]: the
      bridge and the proxy composed; [PassthroughRuns]: examples.
    - [CloudBridge], [CloudSteps]: the cloud end of the bridge ([cloud/vzconn/bridge],
      [cloud/shared/vzshard]) and its goroutines.  [CloudProxy]: the passthrough proxy
      of the cloud ([cloud/api/ptproxy]).  [EndToEnd]: the two proxies and the two ends
      of the bridge composed; [EndToEndRuns]: examples.
    - Adaptive export ([adaptive_export/internal]).  [ActiveSet]: the set of active pods,
      filters and the notifier ([activeset], [streaming/filter.go], [notifier.go]);
      [FilterSteps]: their goroutines.  [ExportPxl]: the identity of anomalies and the
      scripts ([anomaly], [kubescape], [pxl], [buildPxL]).  [ExportTrigger]: the polls of
      the trigger ([trigger/clickhouse.go]).  [ExportRuns]: examples.

    A state is a record, an operation a function in [M] with the name it has in
    the source.  Map iteration, which Go leaves unordered, takes its order as an
    argument; the theorems hold for every order.  Machine integers are [Z] with
    their conversions written out where they can overflow.  A [time.Now], a fresh
    UUID or the conversion of a protobuf duration is an argument.

    ** The theorems

    - Datastore: Pebble implements the interface; a range bound contains exactly
      the keys with a prefix; entries with a time to live go exactly when they
      are due, and the cases in which they leak; etcd's batches.
    - Agent store: it implements its abstract specification; creation, deletion,
      numbering and the computed schema behave as intended on every path.
    - Agent manager, server and tracker: whatever the interleaving, a follower's
      copy with its pending updates equals the store, as long as its reads of the
      store succeed; a batch is sent completely and in order; once a schema has
      been computed, the first round of a stream brings the query broker's
      published state to exactly the agents in the store.
    - Agent listener: one live handler per agent, registration replaces the old
      one, the cases in which it blocks, and standby.
    - Cron scripts: setting the scripts is exact; the results are a ring buffer of
      the last ten.
    - Kubernetes: updates are returned in version order, each once; the updates
      sent to an agent form a chain of versions, also after a restart, and can be
      fetched as long as their keys have not expired; an agent that misses some and
      holds a later one asks for those in between and ends with all of them, if no
      unscoped update gets in between; the service CIDR contains every service
      address.
    - Tracepoints: programs reach exactly the agents their selectors select;
      redeploying replaces or refreshes; the reaper and the status reports.
    - Result forwarder: each run of the goroutines refines the sequential stream;
      a client whose consumer is not cancelled gets every result of a query once
      and in order; at most one live consumer; a cancelled query can end; a query
      stays registered until deleted.
      Plans are cut into chunks that give the plan back, batches are converted
      without loss.
    - Query executor: the tables announced to a client are those the results will
      come under, each with an identifier of its own; a script that fails has
      registered and launched nothing, or its launch failed; a run that returns no
      error has delivered every response that was sent, in order, and all of them if
      it was not cancelled; its goroutines never wait for each other for ever.
    - Mutations: the effect of a script's mutations, on the metadata service they
      are sent to; the executor never panics; when a mutation is ready.
    - Flags and streams: settings are read back from a script and are well typed;
      a confirmed stream of results was forwarded completely; the health check.
    - Script runner: at most one runner of a script is live; the order in which the
      updates of the cloud arrive does not matter, and the runners run the scripts in
      the metadata service, with the race in which they do not; the runners follow the
      config maps; the windows of time the runs ask for and the results they record.
    - Watchers: objects are sent after the synchronised caches of those they depend on,
      and every message is one
      the metadata handler processes; what comes back from a conversion to a message
      and back.
    - Cloud connector: the streams accept the messages for the cloud in order, also
      when they break, and which ones may be lost; a full queue that stops the bridge
      for ever;
      debug logs, registration, heartbeats, updates and the health check.
    - Passthrough requests: from the stream of the cloud through the bridge and the
      proxy and back into the queue of the bridge, each response in order and one
      status; one running request for an ID; cancellation and its race.
    - The whole way of a script, one part after the other and nothing else going on: a
      client of the cloud gets exactly what the query broker of the cluster streams and
      the way it ended; topics and shards of the
      cloud, and the end of a stream that leaves its loop behind.
    - Adaptive export: the filters of the scanners follow the set of active pods; the
      trigger sends every row once, if the times and fingerprints of the rows allow it;
      the scripts select the pods they are made for, names are read back from them, and a
      template is the script it stands for.
    - Conversions: UUID, UPID and kernel-version round trips with their limits.

    Several theorems state how the code departs from what its comments promise;
    they are the findings of the development.

    ** Bounds

    Loops over Go slices are structural.  Loops that are not carry fuel, and the
    theorems show how much is enough: the number of updates plus two for the chunk
    loop of [GetAgentUpdates], the number of keys for the loop that merges
    resource updates, 128 steps to widen a service CIDR (one per bit of an
    address), the length of the version range for the batches of missing
    updates, the length of the plan for its chunks.  Endless loops are modelled
    round by round, or as a transition system whose runs have any length; the
    end of a cancelled query is reached within a fixed number of consumer steps.
    Kubernetes update versions are unbounded integers with the range of [int64] as
    a hypothesis where it matters.

    ** What is not modelled

    NATS itself, the informers of Kubernetes (they are the steps of [K8sWatchers]),
    the rendering of query plans for debugging (the parameter [PlanRenderer]) and
    the durations of timers (a timer may fire at any step).  [DatastoreSpec] speaks
    of single calls: that stored keys expire between calls is a step of [PebbleDB]
    and, for the updates of Kubernetes, of the relation [hstep] of [K8sRun].
    The connections of the cloud connector with their retries, its scraper of metrics
    and the Kubernetes clients are parameters; a registration that is tried again
    within one call of [StartStream] is a new stream, which starts when the writer of
    the old one has ended.  That a stream has accepted a message does not say that it
    was received.  In the passthrough proxy the
    fuel of [sendMessage] is one, because the status it sends again either fits into
    a message of NATS or never does; the fuel of the other loops is any number larger
    than the responses of the stream, and the theorems say so.
    Of the cloud only the way of requests is modelled: the Vizier manager, the durable
    message bus and the tokens are parameters, and the counters of Prometheus are left
    out.
    Of the adaptive export the controller, the writer of batches, the loop of the
    scanner and the access to ClickHouse are not modelled; the reader of PxL literals and
    RE2 are parameters with the laws [LiteralReader] and [RegexMatch].
    The Go maps of query plans are read as the planner makes them; the JOSE
    library and the construction of the servers are left out.
    Logging, metrics, authentication and the dialling and retrying of
    connections are left out, as are the C++ engines, the cloud services, the
    operator, the command line and the user interface. *)

From stdpp Require Export base tactics list gmap strings sorting pretty.
From Stdlib Require Export ZArith Lia.

#[export] Set Warnings "-clear-no-such-hyp".

(** ** Outcomes of Go calls *)

(** Go errors.  A sentinel error is compared by identity in the source, so each
    one has a constructor of its own; every other error is identified by its
    message.  [ErrEOF], [ErrContextCanceled] and [ErrMaxPayload] are [io.EOF],
    [context.Canceled] and [nats.ErrMaxPayload]; [GrpcStatus] is an error made by the
    [status] package of gRPC. *)
Inductive error : Type :=
| ErrMsg (msg : string)
| ErrNoComputedSchemas
| ErrTracepointAlreadyExists
| ErrEOF
| ErrContextCanceled
| ErrMaxPayload
| GrpcStatus (code : Z) (msg : string).

#[export] Instance error_eq_dec : EqDecision error.
Proof. solve_decision. Defined.

(** [codes.Code.String]. *)
Definition code_string (code : Z) : string :=
  match list_find (λ cn, cn.1 = code)
    [(0, "OK"); (1, "Canceled"); (2, "Unknown"); (3, "InvalidArgument"); (4, "DeadlineExceeded");
     (5, "NotFound"); (6, "AlreadyExists"); (7, "PermissionDenied"); (8, "ResourceExhausted");
     (9, "FailedPrecondition"); (10, "Aborted"); (11, "OutOfRange"); (12, "Unimplemented");
     (13, "Internal"); (14, "Unavailable"); (15, "DataLoss"); (16, "Unauthenticated")]%Z with
  | Some (_, (_, name)) => name
  | None => "Code(" +:+ pretty code +:+ ")"
  end.

(** [err.Error()]. *)
Definition error_string (e : error) : string :=
  match e with
  | ErrMsg msg => msg
  | GrpcStatus code msg => "rpc error: code = " +:+ code_string code +:+ " desc = " +:+ msg
  | ErrNoComputedSchemas => "Could not find any computed schemas"
  | ErrTracepointAlreadyExists => "TracepointDeployment already exists"
  | ErrEOF => "EOF"
  | ErrContextCanceled => "context canceled"
  | ErrMaxPayload => "nats: maximum payload exceeded"
  end.

(** What stops the process (or at least the goroutine) instead of returning;
    [PanicMsg] is a panic with a message of its own and [Hang] a loop that does not
    end. *)
Inductive crash : Type :=
| NilDeref
| IndexOutOfRange
| LogFatal
| CloseOfClosedChannel
| PanicMsg (msg : string)
| Hang.

#[export] Instance crash_eq_dec : EqDecision crash.
Proof. solve_decision. Defined.

(** A call returns a value with a nil error, returns a non-nil error, or
    crashes. *)
Inductive outcome (A : Type) : Type :=
| Ret (a : A)
| Err (e : error)
| Crash (c : crash).
Arguments Ret {A} a.
Arguments Err {A} e.
Arguments Crash {A} c.

#[export] Instance outcome_eq_dec `{EqDecision A} : EqDecision (outcome A).
Proof. solve_decision. Defined.

(** ** Stateful calls *)

(** A call reads and writes a state [S]; the state survives errors and crashes
    (a database write that happened before a crash has happened). *)
Definition M (S A : Type) : Type := S → outcome A * S.

#[export] Instance M_ret {S} : MRet (M S) := λ A a s, (Ret a, s).
#[export] Instance M_bind {S} : MBind (M S) := λ A B k m s,
  match m s with
  | (Ret a, s') => k a s'
  | (Err e, s') => (Err e, s')
  | (Crash c, s') => (Crash c, s')
  end.

Definition fail {S A} (e : error) : M S A := λ s, (Err e, s).
Definition panic {S A} (c : crash) : M S A := λ s, (Crash c, s).
Definition get_state {S} : M S S := λ s, (Ret s, s).
Definition put_state {S} (s : S) : M S unit := λ _, (Ret tt, s).
Definition modify {S} (f : S → S) : M S unit := λ s, (Ret tt, f s).

(** [err := f(); if err != nil { ... }] where the caller goes on. *)
Definition try {S A} (m : M S A) : M S (error + A) := λ s,
  match m s with
  | (Ret a, s') => (Ret (inr a), s')
  | (Err e, s') => (Ret (inl e), s')
  | (Crash c, s') => (Crash c, s')
  end.

(** The same where the error is logged and dropped. *)
Definition logged {S} (m : M S unit) : M S unit := try m ≫= λ _, mret tt.

(** Dereferencing a pointer that may be nil. *)
Definition deref {S A} (p : option A) : M S A :=
  match p with Some a => mret a | None => panic NilDeref end.

(** Indexing a slice. *)
Definition index {S A} (l : list A) (i : nat) : M S A :=
  match l !! i with Some a => mret a | None => panic IndexOutOfRange end.

(** A pure fallible computation (an error or a value). *)
Definition lift_sum {S A} (r : error + A) : M S A :=
  match r with inl e => fail e | inr a => mret a end.

(** [for _, x := range l { body }] whose body only fails or goes on. *)
Fixpoint forM_ {S A} (l : list A) (body : A → M S unit) : M S unit :=
  match l with
  | [] => mret tt
  | x :: l => body x ≫= λ _, forM_ l body
  end.

(** Running a call on a component of a larger state. *)
Definition zoom {S T A} (getter : S → T) (setter : T → S → S) (m : M T A) : M S A :=
  λ s, let '(o, t) := m (getter s) in (o, setter t s).

(** ** Total-correctness triples *)

(** [wp m Q s]: run from [s], the call [m] returns with a nil error, and its
    value and final state satisfy [Q]. *)
Definition wp {S A} (m : M S A) (Q : A → S → Prop) (s : S) : Prop :=
  match m s with (Ret a, s') => Q a s' | _ => False end.

(** [fails m s e]: run from [s], [m] returns the error [e]. *)
Definition fails {S A} (m : M S A) (s : S) (e : error) : Prop :=
  (m s).1 = Err e.

Section wp.
Context {S : Type}.
Implicit Types s : S.

Lemma wp_ret {A} (a : A) Q s : Q a s → wp (mret a) Q s.
Proof. done. Qed.

Lemma wp_bind {A B} (m : M S A) (k : A → M S B) Q s :
  wp m (λ a, wp (k a) Q) s → wp (m ≫= k) Q s.
Proof.
  unfold wp, mbind, M_bind. destruct (m s) as [[a|e|c] s']; done.
Qed.

Lemma wp_bind_inv {A B} (m : M S A) (k : A → M S B) Q s :
  wp (m ≫= k) Q s → wp m (λ a, wp (k a) Q) s.
Proof.
  unfold wp, mbind, M_bind. destruct (m s) as [[a|e|c] s']; done.
Qed.

Lemma wp_mono {A} (m : M S A) (P Q : A → S → Prop) s :
  wp m P s → (∀ a s', P a s' → Q a s') → wp m Q s.
Proof. unfold wp. destruct (m s) as [[a|e|c] s']; eauto. Qed.

Lemma wp_conj {A} (m : M S A) (P Q : A → S → Prop) s :
  wp m P s → wp m Q s → wp m (λ a s', P a s' ∧ Q a s') s.
Proof. unfold wp. destruct (m s) as [[a|e|c] s']; eauto. Qed.

Lemma wp_try {A} (m : M S A) Q s :
  wp m (λ a, Q (inr a)) s → wp (try m) Q s.
Proof. unfold wp, try. destruct (m s) as [[a|e|c] s']; eauto; done. Qed.

Lemma wp_try_err {A} (m : M S A) Q s e s' :
  m s = (Err e, s') → Q (inl e) s' → wp (try m) Q s.
Proof. intros Hm. unfold wp, try. by rewrite Hm. Qed.

Lemma wp_logged (m : M S unit) Q s : wp m Q s → wp (logged m) Q s.
Proof. intros H. unfold logged. apply wp_bind, wp_try. eapply wp_mono; [exact H|]. by intros [] s'. Qed.

Lemma wp_get_state Q s : Q s s → wp get_state Q s.
Proof. done. Qed.

Lemma wp_modify (f : S → S) Q s : Q tt (f s) → wp (modify f) Q s.
Proof. done. Qed.

Lemma wp_put_state (s0 : S) Q s : Q tt s0 → wp (put_state s0) Q s.
Proof. done. Qed.

Lemma wp_deref {A} (a : A) Q s : Q a s → wp (deref (Some a)) Q s.
Proof. done. Qed.

Lemma wp_index {A} (l : list A) i a Q s :
  l !! i = Some a → Q a s → wp (index l i) Q s.
Proof. intros Hi. unfold index. by rewrite Hi. Qed.

Lemma wp_lift_inr {A} (a : A) Q s : Q a s → wp (lift_sum (inr a)) Q s.
Proof. done. Qed.

Lemma wp_lift_sum {A} (r : error + A) (a : A) Q s :
  r = inr a → Q a s → wp (lift_sum r) Q s.
Proof. by intros ->. Qed.

(** Loop rule: an invariant indexed by the elements already processed. *)
Lemma wp_forM_ {A} (body : A → M S unit) (I : list A → S → Prop) (l : list A) Q s :
  I [] s →
  (∀ done x rest s', l = done ++ x :: rest → I done s' →
    wp (body x) (λ _, I (done ++ [x])) s') →
  (∀ s', I l s' → Q tt s') →
  wp (forM_ l body) Q s.
Proof.
  intros HI Hstep HQ.
  assert (∀ rest done s', l = done ++ rest → I done s' →
    wp (forM_ rest body) (λ _, I l) s') as Hgo.
  { induction rest as [|x rest IH]; intros done s' Hl Hd; simpl.
    - apply wp_ret. by rewrite Hl, app_nil_r.
    - apply wp_bind. eapply wp_mono; [by eapply Hstep|].
      intros [] s'' Hd'. apply (IH (done ++ [x])); [|done].
      by rewrite Hl, <-app_assoc. }
  eapply wp_mono; [by apply (Hgo l []) |]. intros [] ?; apply HQ.
Qed.

(** A loop whose body implements a step on an abstract value. *)
Lemma wp_forM_fold {X A} (body : X → M S unit) (f : A → X → A) (R : A → S → Prop) (l : list X) a s :
  (∀ x a s, x ∈ l → R a s → wp (body x) (λ _ s', R (f a x) s') s) → R a s →
  wp (forM_ l body) (λ _ s', R (foldl f a l) s') s.
Proof.
  revert a s. induction l as [|x l IH]; intros a s Hb Ha; [done|]. cbn [forM_ foldl]. apply wp_bind.
  eapply wp_mono; [apply Hb; [by left|exact Ha]|]. intros [] s' Hs'. apply IH; [|done].
  intros y b t Hy. apply Hb. by right.
Qed.

Lemma wp_run {A} (m : M S A) Q s :
  wp m Q s ↔ ∃ a s', m s = (Ret a, s') ∧ Q a s'.
Proof.
  unfold wp. destruct (m s) as [[a|e|c] s']; naive_solver.
Qed.
End wp.

Lemma wp_zoom {S T A} (g : S → T) (f : T → S → S) (m : M T A) Q (s : S) :
  wp m (λ a t, Q a (f t s)) (g s) → wp (zoom g f m) Q s.
Proof. unfold wp, zoom. by destruct (m (g s)) as [[a|e|c] t]. Qed.

(** The run itself, for a statement that mentions it again. *)
Lemma wp_with_run {S A} (m : M S A) Q (s : S) : wp m Q s → wp m (λ a s', m s = (Ret a, s') ∧ Q a s') s.
Proof. unfold wp. by destruct (m s) as [[a|e|c] s']. Qed.

Lemma zoom_ret {S T A} (g : S → T) (f : T → S → S) (m : M T A) (s : S) a t :
  m (g s) = (Ret a, t) → zoom g f m s = (Ret a, f t s).
Proof. unfold zoom. by intros ->. Qed.

Lemma filter_all {A} (P : A → Prop) `{∀ x, Decision (P x)} (l : list A) : Forall P l → filter P l = l.
Proof. induction 1 as [|x l Hx _ IH]; [done|]. by rewrite filter_cons_True, IH. Qed.

(** Case analysis on one test among several. *)
Tactic Notation "decide_bool" constr(P) "as" ident(H) :=
  destruct (decide P) as [H|H]; [rewrite ?(bool_decide_eq_true_2 P H)|rewrite ?(bool_decide_eq_false_2 P H)].

Lemma bool_ext (a b : bool) : (a = true ↔ b = true) → a = b.
Proof. destruct a, b; naive_solver. Qed.

(** An error of a call is the error of every sequence that starts with it. *)
Lemma bind_err {S A B} (m : M S A) (k : A → M S B) s e s' :
  m s = (Err e, s') → (m ≫= k) s = (Err e, s').
Proof. intros Hm. unfold mbind, M_bind. by rewrite Hm. Qed.

Lemma bind_ret {S A B} (m : M S A) (k : A → M S B) s a s' :
  m s = (Ret a, s') → (m ≫= k) s = k a s'.
Proof. intros Hm. unfold mbind, M_bind. by rewrite Hm. Qed.

Lemma get_bind {S A} (k : S → M S A) s : (get_state ≫= k) s = k s s.
Proof. done. Qed.

Lemma modify_bind {S A} (f : S → S) (k : unit → M S A) s : (modify f ≫= k) s = k tt (f s).
Proof. done. Qed.

Lemma ret_bind {S A B} (a : A) (k : A → M S B) s : (mret a ≫= k) s = k a s.
Proof. done. Qed.

Lemma deref_bind {S A B} (a : A) (k : A → M S B) s : (deref (Some a) ≫= k) s = k a s.
Proof. done. Qed.

Lemma try_bind_ret {S A B} (m : M S A) (k : error + A → M S B) s a s' :
  m s = (Ret a, s') → (try m ≫= k) s = k (inr a) s'.
Proof. intros Hm. apply bind_ret. unfold try. by rewrite Hm. Qed.

Lemma try_bind_err {S A B} (m : M S A) (k : error + A → M S B) s e s' :
  m s = (Err e, s') → (try m ≫= k) s = k (inl e) s'.
Proof. intros Hm. apply bind_ret. unfold try. by rewrite Hm. Qed.

(** A sequence that returns ran both calls. *)
Lemma bind_Ret_inv {S A B} (m : M S A) (k : A → M S B) s b s' :
  (m ≫= k) s = (Ret b, s') → ∃ a s1, m s = (Ret a, s1) ∧ k a s1 = (Ret b, s').
Proof. unfold mbind, M_bind. destruct (m s) as [[a|e|c] s1]; [eauto|done..]. Qed.

Lemma lift_sum_ret {S A} (r : error + A) a (s : S) : r = inr a → lift_sum r s = (Ret a, s).
Proof. by intros ->. Qed.

Lemma lift_sum_err {S A} (r : error + A) e (s : S) : r = inl e → lift_sum (A := A) r s = (Err e, s).
Proof. by intros ->. Qed.

Lemma try_ret {S A} (m : M S A) s a s' : m s = (Ret a, s') → try m s = (Ret (inr a), s').
Proof. intros Hm. unfold try. by rewrite Hm. Qed.

Lemma try_err {S A} (m : M S A) s e s' : m s = (Err e, s') → try m s = (Ret (inl e), s').
Proof. intros Hm. unfold try. by rewrite Hm. Qed.

(** Run the first call of a sequence, given its result. *)
Ltac run_with E := rewrite (bind_ret _ _ _ _ _ E).
Ltac run_state := match goal with
  |- context [mbind (M := M ?S) ?k get_state ?s] =>
    rewrite (bind_ret (S := S) get_state k s s s eq_refl) end.

(** Run the calls of a sequence that need nothing else. *)
Ltac run_steps := repeat (rewrite ?get_bind, ?modify_bind, ?ret_bind, ?deref_bind; cbn beta iota).

Create HintDb wp.
#[export] Hint Resolve wp_ret wp_get_state wp_modify wp_put_state wp_deref
  wp_lift_inr : wp.

(** One step of symbolic execution: sequence, then an atomic call. *)
Ltac wp_step :=
  match goal with
  | |- wp (mbind _ _) _ _ => apply wp_bind
  | |- wp (mret _) _ _ => apply wp_ret
  | |- wp (modify _) _ _ => apply wp_modify
  | |- wp (put_state _) _ _ => apply wp_put_state
  | |- wp get_state _ _ => apply wp_get_state
  | |- wp (deref (Some _)) _ _ => apply wp_deref
  | |- wp (lift_sum (inr _)) _ _ => apply wp_lift_inr
  | |- wp (try _) _ _ => apply wp_try
  | |- wp (zoom _ _ _) _ _ => apply wp_zoom
  end.
Ltac wp_steps := repeat (wp_step; cbv beta; simpl).
