(* ===== verification/GoLib.v ===== *)
(** * The part of the Go standard library the modelled code calls

    Strings are byte strings, as in Go.  The file defines [strings.Split],
    [strings.HasPrefix], [strings.TrimLeft], [path.Join] (with [path.Clean]),
    decimal formatting and parsing ([strconv.FormatInt], [ParseUint],
    [ParseInt], the [%0Nd] and [%Nd] verbs), the byte order of keys, and the
    binary encoding of [time.Time], and proves the facts the components use. *)

From S2P Require Import Prelude.
From Stdlib Require Import Ascii String.
From stdpp Require Import strings.

Declare Scope go_scope.
Delimit Scope go_scope with go.

(** ** Strings *)

(** [strings.Split(s, sep)] for a one-byte separator. *)
Fixpoint split (sep : ascii) (s : string) : list string :=
  match s with
  | EmptyString => [EmptyString]
  | String a s' =>
    if decide (a = sep) then EmptyString :: split sep s'
    else match split sep s' with
         | [] => [String a EmptyString]
         | w :: ws => String a w :: ws
         end
  end.

(** [strings.Join(l, sep)]. *)
Definition join (sep : string) (l : list string) : string := String.concat sep l.

(** [strings.HasPrefix(s, p)]. *)
Definition HasPrefix (s p : string) : bool := String.prefix p s.

(** [strings.TrimLeft(s, cutset)] for a one-byte cutset. *)
Fixpoint TrimLeft (s : string) (c : ascii) : string :=
  match s with
  | String a s' => if decide (a = c) then TrimLeft s' c else s
  | EmptyString => EmptyString
  end.

(** [s[n:]]. *)
Fixpoint drop_str (n : nat) (s : string) : string :=
  match n, s with
  | O, _ => s
  | Datatypes.S n, String _ s => drop_str n s
  | Datatypes.S _, EmptyString => EmptyString
  end.

Fixpoint repeat_str (c : ascii) (n : nat) : string :=
  match n with O => EmptyString | Datatypes.S n => String c (repeat_str c n) end.

(** ** Paths *)

(** One component pushed on the (reversed) stack of components kept so far. *)
Definition clean_step (rooted : bool) (stack : list string) (c : string) : list string :=
  if decide (c = "") then stack
  else if decide (c = ".") then stack
  else if decide (c = "..") then
    match stack with
    | top :: rest => if decide (top = "..") then ".." :: stack else rest
    | [] => if rooted then [] else [".."]
    end
  else c :: stack.

(** [path.Clean]. *)
Definition path_Clean (p : string) : string :=
  match p with
  | EmptyString => "."
  | String a _ =>
    let rooted := bool_decide (a = "/"%char) in
    let comps := reverse (foldl (clean_step rooted) [] (split "/" p)) in
    if rooted then "/" +:+ join "/" comps
    else match comps with [] => "." | _ => join "/" comps end
  end.

Fixpoint drop_empty (l : list string) : list string :=
  match l with "" :: l => drop_empty l | _ => l end.

(** [path.Join]. *)
Definition path_Join (elems : list string) : string :=
  match drop_empty elems with
  | [] => ""
  | l => path_Clean (join "/" l)
  end.

(** [path.Base]: the last component, trailing slashes dropped. *)
Definition path_Base (p : string) : string :=
  match p with
  | EmptyString => "."
  | _ => default "/" (last (filter (λ c, c ≠ "") (split "/" p)))
  end.

(** ** Decimal numbers *)

Definition digit (d : Z) : ascii := ascii_of_nat (48 + Z.to_nat d).

Definition is_digit (a : ascii) : bool :=
  let n := nat_of_ascii a in (48 <=? n)%nat && (n <=? 57)%nat.

Definition digit_val (a : ascii) : Z := Z.of_nat (nat_of_ascii a) - 48.

#[global] Arguments digit : simpl never.
#[global] Arguments is_digit : simpl never.
#[global] Arguments digit_val : simpl never.

Fixpoint dec_go (fuel : nat) (n : Z) (acc : string) : string :=
  match fuel with
  | O => acc
  | Datatypes.S f =>
    let acc' := String (digit (n mod 10)) acc in
    if (n <? 10)%Z then acc' else dec_go f (n / 10) acc'
  end.

(** The decimal digits of a non-negative number (no leading zeros). *)
Definition FormatUint (n : Z) : string := dec_go (Datatypes.S (Z.to_nat (Z.log2 n))) n "".

(** [strconv.FormatInt(n, 10)], [fmt.Sprint(n)]. *)
Definition FormatInt (n : Z) : string :=
  if (n <? 0)%Z then "-" +:+ FormatUint (- n) else FormatUint n.

Definition pad_left (c : ascii) (w : nat) (s : string) : string :=
  repeat_str c (w - String.length s) +:+ s.

(** [fmt.Sprintf("%0<w>d", n)]: zeros between the sign and the digits. *)
Definition Sprintf_0d (w : nat) (n : Z) : string :=
  if (n <? 0)%Z then "-" +:+ pad_left "0" (w - 1) (FormatUint (- n))
  else pad_left "0" w (FormatUint n).

(** [fmt.Sprintf("%<w>d", n)]: spaces before the number. *)
Definition Sprintf_d (w : nat) (n : Z) : string := pad_left " " w (FormatInt n).

Definition hex_digit (n : N) : ascii :=
  if (n <? 10)%N then ascii_of_N (48 + n) else ascii_of_N (87 + n).

(** [fmt.Sprintf("%x", s)] of a byte string. *)
Fixpoint Sprintf_x (s : string) : string :=
  match s with
  | EmptyString => EmptyString
  | String a s =>
    String (hex_digit (N_of_ascii a / 16)) (String (hex_digit (N_of_ascii a mod 16)) (Sprintf_x s))
  end.

(** The value of a string of decimal digits read after the value [acc]. *)
Fixpoint digits_val (s : string) (acc : Z) : option Z :=
  match s with
  | EmptyString => Some acc
  | String a s' => if is_digit a then digits_val s' (acc * 10 + digit_val a)%Z else None
  end.

Definition ErrSyntax : error := ErrMsg "invalid syntax".
Definition ErrRange : error := ErrMsg "value out of range".

(** [strconv.ParseUint(s, 10, bits)]. *)
Definition ParseUint (s : string) (bits : Z) : error + Z :=
  match s with
  | EmptyString => inl ErrSyntax
  | _ => match digits_val s 0 with
         | None => inl ErrSyntax
         | Some v => if (v <? 2 ^ bits)%Z then inr v else inl ErrRange
         end
  end.

(** [strconv.ParseInt(s, 10, bits)]: an optional sign, then [ParseUint] on 64
    bits, then the range check of the signed type. *)
Definition ParseInt (s : string) (bits : Z) : error + Z :=
  match s with
  | EmptyString => inl ErrSyntax
  | String a s' =>
    let '(neg, body) :=
      if decide (a = "-"%char) then (true, s')
      else if decide (a = "+"%char) then (false, s') else (false, s) in
    match body with
    | EmptyString => inl ErrSyntax
    | _ => match digits_val body 0 with
           | None => inl ErrSyntax
           | Some v =>
             if neg then if (v <=? 2 ^ (bits - 1))%Z then inr (- v)%Z else inl ErrRange
             else if (v <? 2 ^ (bits - 1))%Z then inr v else inl ErrRange
           end
    end
  end.

(** ** Facts on strings *)

Lemma str_app_nil_r (s : string) : s +:+ "" = s.
Proof. induction s as [|a s IH]; [done|]. change (String a (s +:+ "") = String a s). by rewrite IH. Qed.

Lemma str_app_assoc (a b c : string) : (a +:+ b) +:+ c = a +:+ (b +:+ c).
Proof.
  induction a as [|x a IH]; [done|].
  change (String x ((a +:+ b) +:+ c) = String x (a +:+ (b +:+ c))). by rewrite IH.
Qed.

Lemma str_app_cons (x : ascii) (a b : string) : String x a +:+ b = String x (a +:+ b).
Proof. done. Qed.

Lemma str_app_empty (b : string) : EmptyString +:+ b = b.
Proof. done. Qed.

Create Rewrite HintDb str.
#[export] Hint Rewrite str_app_nil_r str_app_assoc str_app_cons str_app_empty : str.

Lemma length_str_app (a b : string) :
  String.length (a +:+ b) = (String.length a + String.length b)%nat.
Proof. induction a as [|x a IH]; [done|]. rewrite str_app_cons. simpl. by rewrite IH. Qed.

Lemma str_app_inj_len (a b c d : string) :
  String.length a = String.length b → a +:+ c = b +:+ d → a = b ∧ c = d.
Proof.
  revert b. induction a as [|x a IH]; intros [|y b] Hl H; simpl in Hl; [done|lia|lia|].
  rewrite !str_app_cons in H. injection H as -> H.
  destruct (IH b) as [-> ->]; [lia|done|done].
Qed.

Lemma length_repeat_str c n : String.length (repeat_str c n) = n.
Proof. induction n; simpl; congruence. Qed.

Lemma drop_str_app (a b : string) : drop_str (String.length a) (a +:+ b) = b.
Proof. induction a as [|x a IH]; [done|]. rewrite str_app_cons. simpl. done. Qed.

(** [p] is a prefix of [s]. *)
Lemma HasPrefix_spec s p : HasPrefix s p = true ↔ ∃ t, s = p +:+ t.
Proof.
  unfold HasPrefix. revert s. induction p as [|x p IH]; intros s.
  - split; [|by destruct s]. intros _. by exists s.
  - destruct s as [|y s]; simpl.
    { split; [done|]. intros [t Ht]. rewrite str_app_cons in Ht. done. }
    case_match.
    + subst. rewrite IH. split; intros [t Ht]; exists t; rewrite str_app_cons in *; congruence.
    + split; [done|]. intros [t Ht]. rewrite str_app_cons in Ht. congruence.
Qed.

Lemma HasPrefix_app p t : HasPrefix (p +:+ t) p = true.
Proof. apply HasPrefix_spec. eauto. Qed.

(** ** The byte order of keys *)

Lemma str_compare_refl s : String.compare s s = Eq.
Proof.
  induction s as [|a s IH]; [done|]. simpl. unfold Ascii.compare.
  by rewrite N.compare_refl.
Qed.

Lemma str_compare_app p s t : String.compare (p +:+ s) (p +:+ t) = String.compare s t.
Proof.
  induction p as [|a p IH]; [done|]. rewrite !str_app_cons. simpl.
  unfold Ascii.compare. by rewrite N.compare_refl.
Qed.

Lemma str_compare_lt_prefix p s : s ≠ "" → String.compare p (p +:+ s) = Lt.
Proof.
  intros Hs. rewrite <-(str_app_nil_r p) at 1. rewrite str_compare_app.
  by destruct s.
Qed.

(** On equal-length heads the heads decide, unless they are equal. *)
Lemma str_compare_app_len a b s t :
  String.length a = String.length b →
  String.compare (a +:+ s) (b +:+ t) =
    match String.compare a b with Eq => String.compare s t | c => c end.
Proof.
  revert b. induction a as [|x a IH]; intros [|y b] Hl; simpl in Hl; [done|lia|lia|].
  rewrite !str_app_cons. simpl. rewrite IH by lia.
  by destruct (Ascii.compare x y).
Qed.

Definition str_ltb := String.ltb.
Definition str_leb := String.leb.

Lemma str_ltb_lt a b : str_ltb a b = true ↔ String.compare a b = Lt.
Proof. unfold str_ltb, String.ltb. by destruct (String.compare a b). Qed.

Lemma str_leb_nlt a b : str_leb a b = negb (str_ltb b a).
Proof.
  unfold str_leb, String.leb, str_ltb, String.ltb.
  rewrite String.compare_antisym. by destruct (String.compare b a).
Qed.

Lemma str_leb_le a b : str_leb a b = true ↔ String.le a b.
Proof. unfold str_leb, String.le. split; [by intros ->|apply Is_true_true_1]. Qed.

Lemma str_ltb_trans a b c : str_ltb a b = true → str_ltb b c = true → str_ltb a c = true.
Proof.
  intros H1 H2. destruct (str_ltb a c) eqn:E; [done|].
  assert (str_leb c a = true) as Hca by (rewrite str_leb_nlt; by rewrite E).
  assert (str_leb b c = true) as Hbc.
  { unfold str_leb, String.leb. apply str_ltb_lt in H2. by rewrite H2. }
  rewrite str_leb_le in *. assert (String.le b a) as Hba by (by etrans).
  apply str_leb_le in Hba. rewrite str_leb_nlt, H1 in Hba. done.
Qed.

Lemma str_leb_ltb_trans a b c : str_leb a b = true → str_ltb b c = true → str_ltb a c = true.
Proof.
  intros H1 H2. destruct (String.compare a b) eqn:E.
  - apply String.compare_eq_iff in E as ->. done.
  - eapply str_ltb_trans; [by apply str_ltb_lt|done].
  - unfold str_leb, String.leb in H1. by rewrite E in H1.
Qed.

Lemma str_ltb_irrefl a : str_ltb a a = false.
Proof. unfold str_ltb, String.ltb. by rewrite str_compare_refl. Qed.

(** ** Facts on [Split] and paths *)

(** A string without the separator. *)
Fixpoint no_sep (sep : ascii) (s : string) : bool :=
  match s with
  | EmptyString => true
  | String a s' => bool_decide (a ≠ sep) && no_sep sep s'
  end.

Lemma split_nonempty sep s : split sep s ≠ [].
Proof. destruct s; simpl; [done|]. case_decide; [done|]. by destruct (split sep s). Qed.

Lemma split_no_sep sep s : no_sep sep s = true → split sep s = [s].
Proof.
  induction s as [|a s IH]; [done|]. simpl. intros [Ha Hs]%andb_true_iff.
  apply bool_decide_eq_true in Ha. rewrite decide_False by done. by rewrite IH.
Qed.

Lemma split_app_sep sep s t :
  split sep (s +:+ String sep t) = split sep s ++ split sep t.
Proof.
  induction s as [|a s IH].
  - rewrite str_app_empty. simpl. by rewrite decide_True.
  - rewrite str_app_cons. simpl. case_decide; [by rewrite IH|].
    rewrite IH. pose proof (split_nonempty sep s).
    by destruct (split sep s).
Qed.

Lemma split_no_sep_app sep s t :
  no_sep sep s = true →
  split sep (s +:+ t) = match split sep t with [] => [s +:+ t] | h :: r => (s +:+ h) :: r end.
Proof.
  intros Hs. induction s as [|c s IH].
  { rewrite str_app_empty. destruct (split sep t) eqn:E; [by apply split_nonempty in E|]. done. }
  simpl in Hs. apply andb_true_iff in Hs as [Hc Hs]. rewrite str_app_cons. simpl.
  apply bool_decide_eq_true in Hc. rewrite decide_False by done. rewrite IH by done.
  by destruct (split sep t).
Qed.

Lemma no_sep_app sep s t : no_sep sep (s +:+ t) = no_sep sep s && no_sep sep t.
Proof.
  induction s as [|a s IH]; [done|]. rewrite str_app_cons. simpl.
  by rewrite IH, andb_assoc.
Qed.

(** A clean path component. *)
Definition good_comp (c : string) : bool :=
  no_sep "/" c && bool_decide (c ≠ "") && bool_decide (c ≠ ".") && bool_decide (c ≠ "..").

Lemma good_comp_spec c :
  good_comp c = true ↔ no_sep "/" c = true ∧ c ≠ "" ∧ c ≠ "." ∧ c ≠ "..".
Proof.
  unfold good_comp. rewrite !andb_true_iff, !bool_decide_eq_true. tauto.
Qed.

Lemma clean_fold_good rooted stack l :
  Forall (λ c, c ≠ "." ∧ c ≠ "..") l →
  foldl (clean_step rooted) stack l = reverse (filter (λ c, c ≠ "") l) ++ stack.
Proof.
  intros Hl. revert stack. induction Hl as [|c l [H1 H2] _ IH]; intros stack; [done|].
  simpl. rewrite IH. unfold clean_step.
  destruct (decide (c = "")) as [->|Hc].
  - by rewrite filter_cons_False by naive_solver.
  - rewrite filter_cons_True, decide_False, decide_False by done.
    by rewrite reverse_cons, <-app_assoc.
Qed.

(** A rooted path without dot components is cleaned by dropping its empty
    components. *)
Lemma path_Clean_rooted s :
  Forall (λ c, c ≠ "." ∧ c ≠ "..") (split "/" (String "/" s)) →
  path_Clean (String "/" s) =
    "/" +:+ join "/" (filter (λ c, c ≠ "") (split "/" s)).
Proof.
  intros Hs. unfold path_Clean. rewrite bool_decide_eq_true_2 by done.
  rewrite clean_fold_good by done. rewrite app_nil_r, reverse_involutive.
  reflexivity.
Qed.

Lemma path_Join_rooted p l :
  path_Join (String "/" p :: l) = path_Clean (join "/" (String "/" p :: l)).
Proof. done. Qed.

Lemma join_cons2 sep a b l : join sep (a :: b :: l) = a +:+ sep +:+ join sep (b :: l).
Proof. done. Qed.

Lemma split_join l : l ≠ [] → split "/" (join "/" l) = l ≫= split "/".
Proof.
  induction l as [|a l IH]; [done|]. intros _. destruct l as [|b l].
  { cbn. by rewrite app_nil_r. }
  rewrite join_cons2, str_app_cons, str_app_empty, split_app_sep, IH by done. done.
Qed.

(** The components a joined path keeps. *)
Definition path_comps (l : list string) : list string := filter (λ c, c ≠ "") (l ≫= split "/").

(** [path.Join] of a rooted path whose components are clean. *)
Lemma path_Join_comps p l :
  Forall (λ c, c ≠ "." ∧ c ≠ "..") (path_comps (String "/" p :: l)) →
  path_Join (String "/" p :: l) = "/" +:+ join "/" (path_comps (String "/" p :: l)).
Proof.
  intros H. rewrite path_Join_rooted.
  assert (∃ s, join "/" (String "/" p :: l) = String "/" s) as [s Hs].
  { destruct l; [by exists p|]. rewrite join_cons2, str_app_cons. by eexists. }
  rewrite Hs, path_Clean_rooted.
  - f_equal. f_equal. unfold path_comps. rewrite <-split_join, Hs by done. done.
  - rewrite <-Hs, split_join by done. apply Forall_forall. intros c Hc.
    destruct (decide (c = "")) as [->|Hne]; [done|].
    apply (proj1 (Forall_forall _ _) H). unfold path_comps. by apply list_elem_of_filter.
Qed.

Lemma split_good c : good_comp c = true → split "/" c = [c].
Proof. intros (H & _)%good_comp_spec. by apply split_no_sep. Qed.

Lemma filter_good c l :
  good_comp c = true → filter (λ c, c ≠ "") (c :: l) = c :: filter (λ c, c ≠ "") l.
Proof. intros (_ & Hne & _)%good_comp_spec. by rewrite filter_cons_True. Qed.

Lemma path_comps_app l k : path_comps (l ++ k) = path_comps l ++ path_comps k.
Proof. unfold path_comps. by rewrite bind_app, filter_app. Qed.

Lemma path_comps_good l : Forall (λ c, good_comp c = true) l → path_comps l = l.
Proof.
  induction 1 as [|c l Hc _ IH]; [done|].
  change (c :: l) with ([c] ++ l). rewrite path_comps_app, IH. f_equal.
  unfold path_comps. cbn. by rewrite app_nil_r, split_good, filter_good.
Qed.

(** The key with the given components. *)
Definition mkkey (cs : list string) : string := "/" +:+ join "/" cs.

Lemma path_Join_dir p dir l :
  path_comps [String "/" p] = dir → Forall (λ c, good_comp c = true) dir →
  Forall (λ c, good_comp c = true) l → path_Join (String "/" p :: l) = mkkey (dir ++ l).
Proof.
  intros Hd Hdir Hl.
  assert (path_comps (String "/" p :: l) = dir ++ l) as E.
  { change (String "/" p :: l) with ([String "/" p] ++ l).
    by rewrite path_comps_app, Hd, path_comps_good. }
  rewrite path_Join_comps; rewrite E; [done|]. apply Forall_app.
  split; eapply Forall_impl; try done; intros c Hc%good_comp_spec; tauto.
Qed.

Lemma split_mkkey cs :
  cs ≠ [] → Forall (λ c, no_sep "/" c = true) cs → split "/" (mkkey cs) = "" :: cs.
Proof.
  intros Hne Hcs. unfold mkkey. change ("/" +:+ join "/" cs) with ("" +:+ String "/" (join "/" cs)).
  rewrite split_app_sep, split_join by done. f_equal.
  clear Hne. induction Hcs as [|c cs Hc _ IH]; [done|]. cbn. rewrite IH. by rewrite split_no_sep.
Qed.

Lemma mkkey_inj cs ds :
  cs ≠ [] → ds ≠ [] → Forall (λ c, no_sep "/" c = true) cs → Forall (λ c, no_sep "/" c = true) ds →
  mkkey cs = mkkey ds → cs = ds.
Proof.
  intros ? ? Hc Hd E%(f_equal (split "/")). rewrite !split_mkkey in E by done. by injection E.
Qed.

Lemma mkkey_cons2 c d cs : mkkey (c :: d :: cs) = "/" +:+ c +:+ mkkey (d :: cs).
Proof. done. Qed.

(** The components of a key that extends another one. *)
Lemma split_prefix k cs c :
  Forall (λ c, no_sep "/" c = true) (cs ++ [c]) → HasPrefix k (mkkey (cs ++ [c])) = true →
  ∃ t ts, split "/" k = "" :: cs ++ (c +:+ t) :: ts.
Proof.
  intros Hcs [t ->]%HasPrefix_spec. unfold mkkey. rewrite !str_app_assoc.
  change ("/" +:+ join "/" (cs ++ [c]) +:+ t) with ("" +:+ String "/" (join "/" (cs ++ [c]) +:+ t)).
  rewrite split_app_sep. change (split "/" "") with [""]. cbn [app].
  induction cs as [|d cs IH].
  - simpl in Hcs. apply Forall_cons in Hcs as [Hc _]. change (join "/" ([] ++ [c])) with c.
    rewrite split_no_sep_app by done.
    destruct (split "/" t) as [|h r] eqn:E; [by apply split_nonempty in E|]. by exists h, r.
  - simpl in Hcs. apply Forall_cons in Hcs as [Hd Hcs].
    destruct (IH Hcs) as (h & r & E). injection E as E.
    destruct (cs ++ [c]) as [|e l] eqn:El; [by destruct cs|].
    exists h, r. cbn [app]. rewrite El, join_cons2, !str_app_assoc.
    change (d +:+ "/" +:+ join "/" (e :: l) +:+ t) with (d +:+ String "/" (join "/" (e :: l) +:+ t)).
    rewrite split_app_sep, (split_no_sep _ d), E by done. done.
Qed.

(** The keys below a directory. *)
Lemma HasPrefix_mkkey c cs d :
  Forall (λ c, no_sep "/" c = true) (c :: cs) → no_sep "/" d = true →
  HasPrefix (mkkey (c :: cs)) ("/" +:+ d +:+ "/") = true ↔ c = d ∧ cs ≠ [].
Proof.
  intros Hc Hd. rewrite HasPrefix_spec. split.
  - intros [t E]. apply (f_equal (split "/")) in E. rewrite split_mkkey in E by done.
    rewrite !str_app_assoc in E.
    change ("/" +:+ d +:+ "/" +:+ t) with ("" +:+ String "/" (d +:+ String "/" t)) in E.
    rewrite !split_app_sep, (split_no_sep _ d) in E by done.
    injection E as <- ->. split; [done|]. apply split_nonempty.
  - intros [<- Hne]. destruct cs as [|d cs]; [done|]. exists (join "/" (d :: cs)).
    rewrite mkkey_cons2. unfold mkkey. by rewrite !str_app_assoc.
Qed.

(** ** Facts on decimal numbers *)

Lemma nat_of_digit d : (0 ≤ d < 10)%Z → nat_of_ascii (digit d) = (48 + Z.to_nat d)%nat.
Proof. intros Hd. unfold digit. apply nat_ascii_embedding. lia. Qed.

Lemma is_digit_digit d : (0 ≤ d < 10)%Z → is_digit (digit d) = true.
Proof.
  intros Hd. unfold is_digit. rewrite nat_of_digit by done.
  apply andb_true_iff. rewrite !Nat.leb_le. lia.
Qed.

Lemma digit_val_digit d : (0 ≤ d < 10)%Z → digit_val (digit d) = d.
Proof. intros Hd. unfold digit_val. rewrite nat_of_digit by done. lia. Qed.

Lemma is_digit_range a : is_digit a = true → (0 ≤ digit_val a < 10)%Z.
Proof.
  unfold is_digit, digit_val. rewrite andb_true_iff, !Nat.leb_le. lia.
Qed.

Lemma digits_val_cons a s acc :
  digits_val (String a s) acc =
    if is_digit a then digits_val s (acc * 10 + digit_val a)%Z else None.
Proof. reflexivity. Qed.

Lemma dec_go_S fuel n acc :
  dec_go (Datatypes.S fuel) n acc =
    if (n <? 10)%Z then String (digit (n mod 10)) acc
    else dec_go fuel (n / 10) (String (digit (n mod 10)) acc).
Proof. reflexivity. Qed.

Lemma length_str_cons a s : String.length (String a s) = Datatypes.S (String.length s).
Proof. reflexivity. Qed.

Lemma digits_val_dec_go fuel n acc a :
  (0 ≤ n < 2 ^ Z.of_nat fuel)%Z →
  ∃ k, digits_val (dec_go fuel n acc) a = digits_val acc (a * 10 ^ Z.of_nat k + n)%Z
     ∧ String.length (dec_go fuel n acc) = (k + String.length acc)%nat
     ∧ (n < 10 ^ Z.of_nat k)%Z
     ∧ (fuel ≠ 0%nat → 0 < k ∧ (n = 0 ∧ k = 1%nat ∨ 10 ^ (Z.of_nat k - 1) ≤ n)%Z).
Proof.
  revert n acc a. induction fuel as [|fuel IH]; intros n acc a Hn.
  { exists 0%nat. simpl. split_and!; [f_equal; lia|lia|lia|done]. }
  rewrite dec_go_S. destruct (Z.ltb_spec n 10) as [H10|H10].
  - exists 1%nat. rewrite Z.mod_small by lia. rewrite digits_val_cons, length_str_cons.
    change (10 ^ Z.of_nat 1)%Z with 10%Z. change (10 ^ (Z.of_nat 1 - 1))%Z with 1%Z.
    rewrite is_digit_digit, digit_val_digit by lia.
    split_and!; [f_equal; lia|lia|lia|]. intros _. split; [lia|].
    destruct (decide (n = 0%Z)); [left|right]; lia.
  - assert (0 ≤ n / 10 < 2 ^ Z.of_nat fuel)%Z as Hq.
    { rewrite Nat2Z.inj_succ, Z.pow_succ_r in Hn by lia.
      split; [apply Z.div_pos; lia|]. apply Z.div_lt_upper_bound; lia. }
    assert (0 < n / 10)%Z as Hq0 by (apply Z.div_str_pos; lia).
    destruct (IH (n / 10)%Z (String (digit (n mod 10)) acc) a Hq) as (k & Hv & Hl & Hb & Hk).
    assert (fuel ≠ 0%nat) as Hf by (intros ->; change (2 ^ Z.of_nat 0)%Z with 1%Z in Hq; lia).
    destruct (Hk Hf) as [Hk0 Hk1].
    pose proof (Z.mod_pos_bound n 10 ltac:(lia)) as Hm.
    pose proof (Z.div_mod n 10 ltac:(lia)) as Hdm.
    exists (Datatypes.S k). rewrite Hv, Hl, digits_val_cons, length_str_cons.
    rewrite is_digit_digit, digit_val_digit by lia.
    rewrite Nat2Z.inj_succ, Z.pow_succ_r by lia.
    split_and!; [f_equal; lia|lia|lia|].
    intros _. split; [lia|]. right. destruct Hk1 as [[? ?]|Hk1]; [lia|].
    replace (Z.succ (Z.of_nat k) - 1)%Z with (Z.succ (Z.of_nat k - 1)) by lia.
    rewrite Z.pow_succ_r by lia. lia.
Qed.

Lemma FormatUint_facts n :
  (0 ≤ n)%Z →
  ∃ k, digits_val (FormatUint n) 0 = Some n
     ∧ String.length (FormatUint n) = k ∧ 0 < k ∧ (n < 10 ^ Z.of_nat k)%Z
     ∧ (n = 0 ∧ k = 1%nat ∨ 10 ^ (Z.of_nat k - 1) ≤ n)%Z.
Proof.
  intros Hn. unfold FormatUint.
  destruct (digits_val_dec_go (Datatypes.S (Z.to_nat (Z.log2 n))) n "" 0) as (k & Hv & Hl & Hb & Hk).
  { destruct (decide (n = 0%Z)) as [->|]; [done|].
    pose proof (Z.log2_spec n ltac:(lia)). pose proof (Z.log2_nonneg n).
    rewrite Nat2Z.inj_succ, Z2Nat.id by done. lia. }
  exists k. destruct Hk as [? ?]; [done|].
  rewrite Hv, Hl. simpl. split_and!; [f_equal; lia|lia|done..].
Qed.

Lemma FormatUint_val n : (0 ≤ n)%Z → digits_val (FormatUint n) 0 = Some n.
Proof. intros Hn. destruct (FormatUint_facts n Hn) as (k & ? & _). done. Qed.

Lemma FormatUint_length_bound n w :
  (0 ≤ n < 10 ^ Z.of_nat w)%Z → 0 < w → String.length (FormatUint n) ≤ w.
Proof.
  intros Hn Hw. destruct (FormatUint_facts n ltac:(lia)) as (k & _ & -> & Hk & Hb & [[-> ->]|Hlow]);
    [lia|].
  destruct (decide (k ≤ w)) as [|Hkw]; [done|].
  assert (10 ^ Z.of_nat w ≤ 10 ^ (Z.of_nat k - 1))%Z by (apply Z.pow_le_mono_r; lia).
  lia.
Qed.

Lemma FormatUint_nonempty n : (0 ≤ n)%Z → FormatUint n ≠ "".
Proof.
  intros Hn He. destruct (FormatUint_facts n Hn) as (k & _ & Hl & Hk & _).
  rewrite He in Hl. simpl in Hl. lia.
Qed.

(** Parsing what was formatted. *)
Lemma ParseUint_FormatUint n bits :
  (0 ≤ n < 2 ^ bits)%Z → ParseUint (FormatUint n) bits = inr n.
Proof.
  intros Hn. unfold ParseUint. rewrite FormatUint_val by lia.
  rewrite (proj2 (Z.ltb_lt _ _)) by lia.
  destruct (FormatUint n) eqn:E; [|done]. by destruct (FormatUint_nonempty n); [lia|].
Qed.

Lemma ParseUint_FormatUint_range n bits :
  (0 ≤ n)%Z → (2 ^ bits ≤ n)%Z → ParseUint (FormatUint n) bits = inl ErrRange.
Proof.
  intros Hn Hb. unfold ParseUint. rewrite FormatUint_val by lia.
  rewrite (proj2 (Z.ltb_ge _ _)) by lia.
  destruct (FormatUint n) eqn:E; [|done]. by destruct (FormatUint_nonempty n).
Qed.

(** Digit strings of the same length compare as the numbers they denote. *)
Lemma digits_compare s t a b x y :
  String.length s = String.length t → (0 ≤ a)%Z → (0 ≤ b)%Z →
  digits_val s a = Some x → digits_val t b = Some y →
  (x ?= y)%Z = match (a ?= b)%Z with Eq => String.compare s t | c => c end.
Proof.
  revert t a b. induction s as [|c s IH]; intros [|d t] a b Hl Ha Hb Hx Hy;
    [|simpl in Hl; lia|simpl in Hl; lia|].
  { injection Hx as ->. injection Hy as ->. by destruct (x ?= y)%Z. }
  rewrite !length_str_cons in Hl. rewrite digits_val_cons in Hx, Hy.
  destruct (is_digit c) eqn:Hc; [|done]. destruct (is_digit d) eqn:Hd; [|done].
  pose proof (is_digit_range _ Hc) as Rc. pose proof (is_digit_range _ Hd) as Rd.
  rewrite (IH t (a * 10 + digit_val c) (b * 10 + digit_val d))%Z; [|lia|lia|lia|done|done].
  change (String.compare (String c s) (String d t)) with
    (match Ascii.compare c d with Eq => String.compare s t | r => r end).
  assert (Ascii.compare c d = (digit_val c ?= digit_val d)%Z) as ->.
  { unfold Ascii.compare, digit_val, nat_of_ascii.
    destruct (N.compare_spec (N_of_ascii c) (N_of_ascii d));
      symmetry; [apply Z.compare_eq_iff|apply Z.compare_lt_iff|apply Z.compare_gt_iff]; lia. }
  destruct (Z.compare_spec a b) as [->|Hab|Hab].
  - by rewrite Zcompare_plus_compat.
  - by rewrite (proj2 (Z.compare_lt_iff _ _)) by lia.
  - by rewrite (proj2 (Z.compare_gt_iff _ _)) by lia.
Qed.

Lemma digits_val_zeros n s : digits_val (repeat_str "0" n +:+ s) 0 = digits_val s 0.
Proof.
  induction n as [|n IH]; [done|]. simpl repeat_str. rewrite str_app_cons, digits_val_cons.
  apply IH.
Qed.

Lemma length_pad_left c w s : String.length s ≤ w → String.length (pad_left c w s) = w.
Proof.
  intros Hl. unfold pad_left. rewrite length_str_app, length_repeat_str. lia.
Qed.

Lemma Sprintf_0d_nonneg w n : (0 ≤ n)%Z → Sprintf_0d w n = pad_left "0" w (FormatUint n).
Proof. intros Hn. unfold Sprintf_0d. by rewrite (proj2 (Z.ltb_ge _ _)) by lia. Qed.

Lemma FormatInt_nonneg n : (0 ≤ n)%Z → FormatInt n = FormatUint n.
Proof. intros Hn. unfold FormatInt. by rewrite (proj2 (Z.ltb_ge _ _)) by lia. Qed.

Section padded.
Context (w : nat) (Hw : 0 < w).

Lemma length_Sprintf_0d n :
  (0 ≤ n < 10 ^ Z.of_nat w)%Z → String.length (Sprintf_0d w n) = w.
Proof.
  intros Hn. rewrite Sprintf_0d_nonneg by lia.
  by apply length_pad_left, FormatUint_length_bound.
Qed.

Lemma Sprintf_0d_val n : (0 ≤ n)%Z → digits_val (Sprintf_0d w n) 0 = Some n.
Proof using Type.
  clear Hw. intros Hn. rewrite Sprintf_0d_nonneg by lia. unfold pad_left.
  by rewrite digits_val_zeros, FormatUint_val.
Qed.

(** Zero-padded keys sort as their numbers. *)
Lemma Sprintf_0d_compare n m :
  (0 ≤ n < 10 ^ Z.of_nat w)%Z → (0 ≤ m < 10 ^ Z.of_nat w)%Z →
  String.compare (Sprintf_0d w n) (Sprintf_0d w m) = (n ?= m)%Z.
Proof.
  intros Hn Hm. symmetry.
  refine (digits_compare _ _ 0 0 n m _ _ _ _ _); [|lia|lia|apply Sprintf_0d_val; lia..].
  by rewrite !length_Sprintf_0d.
Qed.

Lemma FormatUint_shorter n m :
  (0 ≤ n)%Z → (0 ≤ m)%Z →
  String.length (FormatUint n) < String.length (FormatUint m) → (n < m)%Z.
Proof.
  intros Hn Hm Hl.
  destruct (FormatUint_facts n Hn) as (k & _ & Hk & Hk0 & Hk1 & _).
  destruct (FormatUint_facts m Hm) as (l & _ & Hl' & Hl0 & _ & [[-> ->]|Hl1]); [lia|].
  assert (10 ^ Z.of_nat k ≤ 10 ^ (Z.of_nat l - 1))%Z by (apply Z.pow_le_mono_r; lia).
  lia.
Qed.

Lemma space_before_digits j s t :
  0 < j → digits_val t 0 ≠ None → t ≠ "" →
  String.compare (repeat_str " " j +:+ s) t = Lt.
Proof.
  intros Hj Ht Hne. destruct j as [|j]; [lia|]. destruct t as [|c t]; [done|].
  rewrite digits_val_cons in Ht. destruct (is_digit c) eqn:Hc; [|done].
  simpl repeat_str. rewrite str_app_cons.
  change (match Ascii.compare " " c with Eq => String.compare (repeat_str " " j +:+ s) t | r => r end = Lt).
  assert (Ascii.compare " " c = Lt) as ->; [|done].
  unfold Ascii.compare. apply N.compare_lt_iff.
  unfold is_digit, nat_of_ascii in Hc. apply andb_true_iff in Hc as [Hc _].
  apply Nat.leb_le in Hc. change (N_of_ascii " ") with 32%N. lia.
Qed.

Lemma repeat_str_add c i j : repeat_str c (i + j) = repeat_str c i +:+ repeat_str c j.
Proof. induction i as [|i IH]; [done|]. simpl. by rewrite IH. Qed.

(** Space-padded keys sort as their numbers. *)
Lemma Sprintf_d_lt n m :
  (0 ≤ n < 10 ^ Z.of_nat w)%Z → (0 ≤ m < 10 ^ Z.of_nat w)%Z → (n < m)%Z →
  String.compare (Sprintf_d w n) (Sprintf_d w m) = Lt.
Proof.
  intros Hn Hm Hlt. unfold Sprintf_d. rewrite !FormatInt_nonneg by lia. unfold pad_left.
  pose proof (FormatUint_length_bound n w Hn Hw).
  pose proof (FormatUint_length_bound m w Hm Hw).
  destruct (lt_eq_lt_dec (String.length (FormatUint n)) (String.length (FormatUint m)))
    as [[Hl|Hl]|Hl].
  - replace (w - String.length (FormatUint n)) with
      ((w - String.length (FormatUint m)) +
       (String.length (FormatUint m) - String.length (FormatUint n))) by lia.
    rewrite repeat_str_add, str_app_assoc, str_compare_app.
    apply space_before_digits; [lia| |apply FormatUint_nonempty; lia].
    by rewrite FormatUint_val by lia.
  - rewrite Hl, str_compare_app.
    pose proof (digits_compare (FormatUint n) (FormatUint m) 0 0 n m Hl
      ltac:(lia) ltac:(lia) (FormatUint_val n ltac:(lia)) (FormatUint_val m ltac:(lia))) as Hc.
    change (0 ?= 0)%Z with Eq in Hc. cbv iota in Hc. rewrite <-Hc.
    by apply Z.compare_lt_iff.
  - apply FormatUint_shorter in Hl; lia.
Qed.

Lemma Sprintf_d_compare n m :
  (0 ≤ n < 10 ^ Z.of_nat w)%Z → (0 ≤ m < 10 ^ Z.of_nat w)%Z →
  String.compare (Sprintf_d w n) (Sprintf_d w m) = (n ?= m)%Z.
Proof.
  intros Hn Hm. destruct (Z.compare_spec n m) as [->|H|H].
  - apply str_compare_refl.
  - by apply Sprintf_d_lt.
  - rewrite String.compare_antisym. by rewrite Sprintf_d_lt.
Qed.

Lemma length_Sprintf_d n :
  (0 ≤ n < 10 ^ Z.of_nat w)%Z → String.length (Sprintf_d w n) = w.
Proof.
  intros Hn. unfold Sprintf_d. rewrite FormatInt_nonneg by lia.
  by apply length_pad_left, FormatUint_length_bound.
Qed.
End padded.

Lemma digits_val_TrimLeft s : digits_val (TrimLeft s "0") 0 = digits_val s 0.
Proof.
  induction s as [|c s IH]; [done|]. simpl TrimLeft. case_decide as Hc; [|done].
  subst c. rewrite IH. rewrite digits_val_cons. reflexivity.
Qed.

(** A digit string does not start with a sign. *)
Lemma ParseInt_digits s v bits :
  digits_val s 0 = Some v → s ≠ "" → (0 ≤ v < 2 ^ (bits - 1))%Z →
  ParseInt s bits = inr v.
Proof.
  intros Hv Hs Hb. destruct s as [|c s]; [done|]. unfold ParseInt.
  assert (is_digit c = true) as Hc.
  { rewrite digits_val_cons in Hv. by destruct (is_digit c). }
  rewrite decide_False by (by intros ->). rewrite decide_False by (by intros ->).
  rewrite Hv. by rewrite (proj2 (Z.ltb_lt _ _)) by lia.
Qed.

Lemma ParseInt_FormatInt v :
  (- 2 ^ 63 ≤ v < 2 ^ 63)%Z → ParseInt (FormatInt v) 64 = inr v.
Proof.
  intros Hv. unfold FormatInt. destruct (Z.ltb_spec v 0).
  - unfold ParseInt. rewrite str_app_cons, str_app_empty.
    rewrite decide_True by done.
    pose proof (FormatUint_nonempty (- v) ltac:(lia)) as Hne.
    destruct (FormatUint (- v)) eqn:E; [done|]. rewrite <-E, FormatUint_val by lia.
    change (64 - 1)%Z with 63%Z. rewrite (proj2 (Z.leb_le _ _)) by lia. f_equal. lia.
  - apply ParseInt_digits; [apply FormatUint_val; lia|apply FormatUint_nonempty; lia|].
    change (64 - 1)%Z with 63%Z. lia.
Qed.

(** The version part of a resource-update key parses back to the version. *)
Lemma ParseInt_trimmed w v :
  (0 < v < 2 ^ 63)%Z → ParseInt (TrimLeft (Sprintf_0d w v) "0") 64 = inr v.
Proof.
  intros Hv. assert (digits_val (TrimLeft (Sprintf_0d w v) "0") 0 = Some v) as Hd.
  { rewrite digits_val_TrimLeft. apply Sprintf_0d_val. lia. }
  apply ParseInt_digits; [done| |by change (64 - 1)%Z with 63%Z; lia].
  intros He. rewrite He in Hd. injection Hd as <-. lia.
Qed.

Lemma no_sep_digits s v a : digits_val s a = Some v → no_sep "/" s = true.
Proof.
  revert a. induction s as [|c s IH]; intros a Hv; [done|].
  rewrite digits_val_cons in Hv. destruct (is_digit c) eqn:Hc; [|done].
  simpl. rewrite (IH _ Hv), andb_true_r. apply bool_decide_eq_true_2. by intros ->.
Qed.

(** ** Time *)

(** An instant in nanoseconds since the Unix epoch and, unless the location is
    [time.UTC], the zone's offset in seconds east of UTC. *)
Record gotime := mkTime { t_ns : Z; t_zone : option Z }.

Definition nanos : Z := 1000000000.

(** [t.Unix()]. *)
Definition Unix (t : gotime) : Z := t_ns t / nanos.
(** [t.Add(d)]. *)
Definition time_Add (t : gotime) (d : Z) : gotime := mkTime (t_ns t + d) (t_zone t).
(** [t.Before(u)], [t.After(u)]: comparisons of instants. *)
Definition Before (t u : gotime) : bool := (t_ns t <? t_ns u)%Z.
Definition After (t u : gotime) : bool := (t_ns u <? t_ns t)%Z.

(** [n] big-endian bytes of [z] (two's complement). *)
Fixpoint be_bytes (n : nat) (z : Z) : string :=
  match n with
  | O => EmptyString
  | Datatypes.S n =>
    String (ascii_of_N (Z.to_N ((z / 2 ^ (8 * Z.of_nat n)) mod 256))) (be_bytes n z)
  end.

Fixpoint be_val (s : string) (acc : Z) : Z :=
  match s with
  | EmptyString => acc
  | String c s => be_val s (acc * 256 + Z.of_N (N_of_ascii c))
  end.

(** The signed reading of [n] bytes. *)
Definition signed (n : nat) (z : Z) : Z :=
  if (z <? 2 ^ (8 * Z.of_nat n - 1))%Z then z else (z - 2 ^ (8 * Z.of_nat n))%Z.

Definition unixToInternal : Z := 62135596800.

(** [t.MarshalBinary()]: version, seconds since year 1, nanoseconds, offset. *)
Definition time_MarshalBinary (t : gotime) : error + string :=
  let sec := (t_ns t / nanos + unixToInternal)%Z in
  let nsec := (t_ns t mod nanos)%Z in
  match t_zone t with
  | None => inr (be_bytes 1 1 +:+ be_bytes 8 sec +:+ be_bytes 4 nsec +:+ be_bytes 2 (-1))
  | Some off =>
    let m := Z.quot off 60 in
    let r := Z.rem off 60 in
    if ((m <? -32768) || (m =? -1) || (32767 <? m))%Z
    then inl (ErrMsg "Time.MarshalBinary: unexpected zone offset")
    else if (r =? 0)%Z
    then inr (be_bytes 1 1 +:+ be_bytes 8 sec +:+ be_bytes 4 nsec +:+ be_bytes 2 m)
    else inr (be_bytes 1 2 +:+ be_bytes 8 sec +:+ be_bytes 4 nsec +:+ be_bytes 2 m +:+ be_bytes 1 r)
  end.

(** [t.UnmarshalBinary(data)]: the instant it decodes. *)
Definition time_UnmarshalBinary (data : string) : error + Z :=
  match data with
  | EmptyString => inl (ErrMsg "Time.UnmarshalBinary: no data")
  | String v buf =>
    let version := N_of_ascii v in
    if negb ((version =? 1) || (version =? 2))%N
    then inl (ErrMsg "Time.UnmarshalBinary: unsupported version")
    else
      let wantLen := if (version =? 2)%N then 16%nat else 15%nat in
      if negb (String.length data =? wantLen)%nat
      then inl (ErrMsg "Time.UnmarshalBinary: invalid length")
      else
        let sec := signed 8 (be_val (String.substring 0 8 buf) 0) in
        let nsec := signed 4 (be_val (String.substring 8 4 buf) 0) in
        inr ((sec - unixToInternal) * nanos + nsec)%Z
  end.

(** The zone offsets [MarshalBinary] accepts. *)
Definition zone_encodable (t : gotime) : Prop :=
  match t_zone t with
  | None => True
  | Some off => (-32768 ≤ Z.quot off 60 ≤ 32767 ∧ Z.quot off 60 ≠ -1)%Z
  end.

(** Instants whose seconds fit the encoding. *)
Definition time_in_range (t : gotime) : Prop :=
  (- 2 ^ 63 ≤ t_ns t / nanos + unixToInternal < 2 ^ 63)%Z.

Lemma length_be_bytes n z : String.length (be_bytes n z) = n.
Proof. induction n as [|n IH]; [done|]. simpl be_bytes. by rewrite length_str_cons, IH. Qed.

Lemma be_val_app s t acc : be_val (s +:+ t) acc = be_val t (be_val s acc).
Proof.
  revert acc. induction s as [|c s IH]; intros acc; [done|].
  rewrite str_app_cons. simpl. apply IH.
Qed.

Lemma be_val_be_bytes n z acc :
  be_val (be_bytes n z) acc = (acc * 2 ^ (8 * Z.of_nat n) + z mod 2 ^ (8 * Z.of_nat n))%Z.
Proof.
  revert acc. induction n as [|n IH]; intros acc.
  { simpl be_bytes. change (2 ^ (8 * Z.of_nat 0))%Z with 1%Z. rewrite Z.mod_1_r. simpl. lia. }
  change (be_bytes (Datatypes.S n) z) with
    (String (ascii_of_N (Z.to_N ((z / 2 ^ (8 * Z.of_nat n)) mod 256))) (be_bytes n z)).
  set (b := ((z / 2 ^ (8 * Z.of_nat n)) mod 256)%Z).
  assert (0 ≤ b < 256)%Z as Hb by (apply Z.mod_pos_bound; lia).
  change (be_val (String (ascii_of_N (Z.to_N b)) (be_bytes n z)) acc) with
    (be_val (be_bytes n z) (acc * 256 + Z.of_N (N_of_ascii (ascii_of_N (Z.to_N b)))))%Z.
  rewrite IH. rewrite N_ascii_embedding by lia. rewrite Z2N.id by lia.
  replace (8 * Z.of_nat (Datatypes.S n))%Z with (8 * Z.of_nat n + 8)%Z by lia.
  rewrite Z.pow_add_r by lia. change (2 ^ 8)%Z with 256%Z.
  rewrite (Z.rem_mul_r z (2 ^ (8 * Z.of_nat n)) 256) by lia. fold b. lia.
Qed.

Lemma signed_mod n z :
  0 < n → (- 2 ^ (8 * Z.of_nat n - 1) ≤ z < 2 ^ (8 * Z.of_nat n - 1))%Z →
  signed n (z mod 2 ^ (8 * Z.of_nat n)) = z.
Proof.
  intros Hn Hz. unfold signed.
  assert (2 ^ (8 * Z.of_nat n) = 2 * 2 ^ (8 * Z.of_nat n - 1))%Z as Hp.
  { rewrite <-Z.pow_succ_r by lia. f_equal. lia. }
  destruct (decide (0 ≤ z)%Z).
  - rewrite Z.mod_small by lia. by rewrite (proj2 (Z.ltb_lt _ _)) by lia.
  - replace (z mod 2 ^ (8 * Z.of_nat n))%Z with (z + 2 ^ (8 * Z.of_nat n))%Z.
    + rewrite (proj2 (Z.ltb_ge _ _)) by lia. lia.
    + symmetry. rewrite <-(Z.mod_small (z + 2 ^ (8 * Z.of_nat n)) (2 ^ (8 * Z.of_nat n))) by lia.
      by rewrite <-Z.add_mod_idemp_r, Z_mod_same_full, Z.add_0_r by lia.
Qed.

Lemma substring_0_app a b : String.substring 0 (String.length a) (a +:+ b) = a.
Proof. induction a as [|c a IH]; [by destruct b|]. rewrite str_app_cons. simpl. by rewrite IH. Qed.

Lemma substring_skip a b n : String.substring (String.length a) n (a +:+ b) = String.substring 0 n b.
Proof. induction a as [|c a IH]; [done|]. rewrite str_app_cons. simpl. done. Qed.

Lemma time_decode v sec nsec tail :
  (v = 1 ∧ String.length tail = 2%nat ∨ v = 2 ∧ String.length tail = 3%nat)%Z →
  (- 2 ^ 63 ≤ sec < 2 ^ 63)%Z → (0 ≤ nsec < nanos)%Z →
  time_UnmarshalBinary (be_bytes 1 v +:+ be_bytes 8 sec +:+ be_bytes 4 nsec +:+ tail) =
    inr ((sec - unixToInternal) * nanos + nsec)%Z.
Proof.
  intros Hv Hs Hn. set (body := be_bytes 8 sec +:+ be_bytes 4 nsec +:+ tail).
  assert (String.length body = (12 + String.length tail)%nat) as Hl.
  { unfold body. by rewrite !length_str_app, !length_be_bytes. }
  assert (be_bytes 1 v +:+ body = String (ascii_of_N (Z.to_N v)) body) as ->.
  { by destruct Hv as [[-> _]|[-> _]]. }
  assert (String.substring 0 8 body = be_bytes 8 sec) as E1.
  { unfold body. rewrite <-(length_be_bytes 8 sec) at 1. apply substring_0_app. }
  assert (String.substring 8 4 body = be_bytes 4 nsec) as E2.
  { unfold body. rewrite <-(length_be_bytes 8 sec) at 1. rewrite substring_skip.
    rewrite <-(length_be_bytes 4 nsec) at 1. apply substring_0_app. }
  unfold time_UnmarshalBinary. rewrite length_str_cons, Hl, E1, E2, !be_val_be_bytes, !Z.add_0_l.
  unfold nanos in *.
  rewrite !signed_mod; [|lia|split; [lia|]; etrans; [apply Hn|done]|lia|done].
  by destruct Hv as [[-> ->]|[-> ->]].
Qed.

(** Decoding an encoded time gives the same instant. *)
Lemma time_roundtrip t :
  zone_encodable t → time_in_range t →
  ∃ b, time_MarshalBinary t = inr b ∧ time_UnmarshalBinary b = inr (t_ns t).
Proof.
  unfold zone_encodable, time_in_range, time_MarshalBinary. intros Hz Hr.
  assert (0 ≤ t_ns t mod nanos < nanos)%Z as Hm by (apply Z.mod_pos_bound; done).
  assert ((t_ns t / nanos + unixToInternal - unixToInternal) * nanos + t_ns t mod nanos = t_ns t)%Z as E.
  { pose proof (Z.div_mod (t_ns t) nanos ltac:(done)). lia. }
  destruct (t_zone t) as [off|].
  - destruct Hz as [Hz1 Hz2].
    rewrite (proj2 (Z.ltb_ge _ _)), (proj2 (Z.eqb_neq _ _)), (proj2 (Z.ltb_ge 32767 _)) by lia.
    simpl orb. cbv iota.
    destruct (Z.rem off 60 =? 0)%Z; eexists; (split; [reflexivity|]).
    + rewrite time_decode; [by rewrite E|left; by rewrite length_be_bytes|done..].
    + rewrite time_decode; [by rewrite E|right|done..].
      by rewrite length_str_app, !length_be_bytes.
  - eexists; split; [reflexivity|].
    rewrite time_decode; [by rewrite E|left; by rewrite length_be_bytes|done..].
Qed.
