(* ===== verification/Datastore.v ===== *)
(** * The key-value datastore interface of the metadata service

    [src/vizier/utils/datastore/datastore.go] declares the interface every
    store of the metadata service is written against.  [Datastore] is that
    interface, [DatastoreSpec] what its clients rely on: an ordered map from
    keys to values.  The clients' theorems are proved from [DatastoreSpec]; the
    implementations discharge it (see [PebbleDB]). *)

From S2P Require Import Prelude GoLib.
From Stdlib Require Import Ascii.

(** ** Ordered listings of a map *)

(** The keys of a map in byte order. *)
Definition sorted_keys (m : gmap string string) : list string :=
  merge_sort String.le (map_to_list m).*1.

Definition lookup_values (m : gmap string string) (ks : list string) : list string :=
  (λ k, default "" (m !! k)) <$> ks.

Definition in_range (from to k : string) : bool := str_leb from k && str_ltb k to.

(** Keys and values of the half-open range [[from, to)], in key order. *)
Definition kv_range (m : gmap string string) (from to : string)
    : list string * list string :=
  let ks := filter (λ k, in_range from to k = true) (sorted_keys m) in
  (ks, lookup_values m ks).

(** Keys and values whose key has the prefix, in key order. *)
Definition kv_prefix (m : gmap string string) (p : string)
    : list string * list string :=
  let ks := filter (λ k, HasPrefix k p = true) (sorted_keys m) in
  (ks, lookup_values m ks).

(** The keys the services use start with a slash; the ones an implementation
    keeps for itself do not. *)
Definition user_key (k : string) : bool := HasPrefix k "/".

Definition delete_keys (ks : list string) (m : gmap string string) : gmap string string :=
  foldl (λ m k, delete k m) m ks.

Definition delete_prefix (p : string) (m : gmap string string) : gmap string string :=
  filter (λ kv, HasPrefix kv.1 p = false) m.

(** ** The interface *)

Class Datastore (St : Type) := {
  ds_Get : string → M St (option string);
  ds_GetWithRange : string → string → M St (list string * list string);
  ds_GetWithPrefix : string → M St (list string * list string);
  ds_Set : string → string → M St unit;
  ds_SetWithTTL : string → string → Z → M St unit;
  ds_Delete : string → M St unit;
  ds_DeleteAll : list string → M St unit;
  ds_DeleteWithPrefix : string → M St unit;
  ds_Close : M St unit
}.

(** What clients rely on of a call, in states where the store is open and its I/O
    succeeds ([ok]).  [view] is the map of the clients' keys.  [spec_SetWithTTL] is what
    the call itself stores: that a key with a TTL is purged when the TTL has expired
    happens between calls, not in one.  It is a step of the store's own ([tick] of
    [PebbleDB], [expires] of [K8sRun]), and theorems on one call, or on calls between
    which no TTL expires, do not mention it. *)
Class DatastoreSpec (St : Type) `{!Datastore St}
    (view : St → gmap string string) (ok : St → Prop) : Prop := {
  spec_Get s k : ok s → user_key k = true →
    ds_Get k s = (Ret (view s !! k), s);
  spec_GetWithRange s from to : ok s → user_key from = true → user_key to = true →
    ds_GetWithRange from to s = (Ret (kv_range (view s) from to), s);
  spec_GetWithPrefix s p : ok s → user_key p = true →
    ds_GetWithPrefix p s = (Ret (kv_prefix (view s) p), s);
  spec_Set s k v : ok s → user_key k = true →
    ∃ s', ds_Set k v s = (Ret tt, s') ∧ ok s' ∧ view s' = <[k:=v]> (view s);
  spec_SetWithTTL s k v ttl : ok s → user_key k = true →
    ∃ s', ds_SetWithTTL k v ttl s = (Ret tt, s') ∧ ok s' ∧ view s' = <[k:=v]> (view s);
  spec_Delete s k : ok s → user_key k = true →
    ∃ s', ds_Delete k s = (Ret tt, s') ∧ ok s' ∧ view s' = delete k (view s);
  spec_DeleteAll s ks : ok s → Forall (λ k, user_key k = true) ks →
    ∃ s', ds_DeleteAll ks s = (Ret tt, s') ∧ ok s' ∧ view s' = delete_keys ks (view s);
  spec_DeleteWithPrefix s p : ok s → user_key p = true →
    ∃ s', ds_DeleteWithPrefix p s = (Ret tt, s') ∧ ok s' ∧ view s' = delete_prefix p (view s)
}.

(** ** Facts on listings *)

Section listings.
Implicit Types m : gmap string string.

Lemma elem_of_sorted_keys m k : k ∈ sorted_keys m ↔ is_Some (m !! k).
Proof.
  unfold sorted_keys. rewrite merge_sort_Permutation, list_elem_of_fmap. split.
  - intros ([k' v] & -> & H). apply elem_of_map_to_list in H. eauto.
  - intros [v Hv]. exists (k, v). by rewrite elem_of_map_to_list.
Qed.

Lemma NoDup_sorted_keys m : NoDup (sorted_keys m).
Proof. unfold sorted_keys. rewrite merge_sort_Permutation. apply NoDup_fst_map_to_list. Qed.

Lemma Sorted_sorted_keys m : StronglySorted String.le (sorted_keys m).
Proof. apply StronglySorted_merge_sort; apply _. Qed.

Lemma StronglySorted_filter {A} (R : relation A) (P : A → Prop) `{∀ x, Decision (P x)} l :
  StronglySorted R l → StronglySorted R (filter P l).
Proof.
  induction 1 as [|x l Hl IH Hx]; [constructor|].
  destruct (decide (P x)).
  - rewrite filter_cons_True by done. constructor; [done|].
    apply Forall_forall. intros y [_ Hy]%list_elem_of_filter.
    by eapply (proj1 (Forall_forall _ _) Hx).
  - by rewrite filter_cons_False.
Qed.

(** Two duplicate-free sorted lists with the same elements are equal. *)
Lemma sorted_ext (l k : list string) :
  NoDup l → NoDup k → StronglySorted String.le l → StronglySorted String.le k →
  (∀ x, x ∈ l ↔ x ∈ k) → l = k.
Proof.
  intros Hl Hk Sl Sk Hlk.
  apply (Sorted_unique String.le); [by apply StronglySorted_Sorted..|].
  by apply NoDup_Permutation.
Qed.

(** Listing part of a map is listing the map and dropping the rest. *)
Lemma sorted_keys_filter m (P : string → Prop) `{∀ k, Decision (P k)} :
  sorted_keys (filter (λ kv, P kv.1) m) = filter P (sorted_keys m).
Proof.
  apply sorted_ext; [apply NoDup_sorted_keys|by apply NoDup_filter, NoDup_sorted_keys
    |apply Sorted_sorted_keys|by apply StronglySorted_filter, Sorted_sorted_keys|].
  intros k. rewrite elem_of_sorted_keys, list_elem_of_filter, elem_of_sorted_keys. split.
  - intros [v Hv]. apply map_lookup_filter_Some in Hv as [Hv HP]. eauto.
  - intros [HP [v Hv]]. exists v. by apply map_lookup_filter_Some.
Qed.

Lemma sorted_keys_user m :
  sorted_keys (filter (λ kv, user_key kv.1 = true) m) =
    filter (λ k, user_key k = true) (sorted_keys m).
Proof. exact (sorted_keys_filter m (λ k, user_key k = true) (H := λ k, decide_rel eq _ true)). Qed.

Lemma lookup_values_ext m1 m2 ks :
  (∀ k, k ∈ ks → m1 !! k = m2 !! k) → lookup_values m1 ks = lookup_values m2 ks.
Proof.
  intros H. apply list_fmap_ext. intros i k Hi. f_equal. apply H.
  by eapply list_elem_of_lookup_2.
Qed.

Lemma lookup_values_Some m ks i k v :
  ks !! i = Some k → m !! k = Some v → lookup_values m ks !! i = Some v.
Proof. intros Hi Hk. unfold lookup_values. rewrite list_lookup_fmap, Hi. simpl. by rewrite Hk. Qed.

Lemma lookup_delete_keys ks m k :
  delete_keys ks m !! k = if decide (k ∈ ks) then None else m !! k.
Proof.
  unfold delete_keys. revert m. induction ks as [|k' ks IH]; intros m; simpl; [done|].
  rewrite IH. destruct (decide (k ∈ ks)) as [Hin|Hin].
  - by rewrite decide_True by set_solver.
  - destruct (decide (k = k')) as [->|Hne].
    + rewrite decide_True by set_solver. apply lookup_delete_eq.
    + rewrite decide_False by set_solver. by apply lookup_delete_ne.
Qed.

Lemma lookup_delete_prefix p m k :
  delete_prefix p m !! k = if HasPrefix k p then None else m !! k.
Proof.
  unfold delete_prefix. destruct (HasPrefix k p) eqn:E.
  - apply map_lookup_filter_None. right. intros v _. simpl. by rewrite E.
  - destruct (m !! k) as [v|] eqn:Hk.
    + by apply map_lookup_filter_Some.
    + apply map_lookup_filter_None. by left.
Qed.

Lemma length_lookup_values m ks : length (lookup_values m ks) = length ks.
Proof. apply length_fmap. Qed.
End listings.

(** A key of a range between two user keys is a user key. *)
Lemma user_key_cons k : user_key k = true ↔ ∃ s, k = String "/" s.
Proof.
  unfold user_key. rewrite HasPrefix_spec. split; intros [t ->]; exists t; done.
Qed.

Lemma user_key_range from to k :
  user_key from = true → user_key to = true → in_range from to k = true → user_key k = true.
Proof.
  intros [f ->]%user_key_cons [t ->]%user_key_cons H. apply andb_true_iff in H as [H1 H2].
  apply user_key_cons. destruct k as [|c k]; [done|]. exists k. f_equal.
  unfold str_leb, String.leb in H1. unfold str_ltb, String.ltb in H2. simpl in H1, H2.
  rewrite Ascii.compare_antisym in H2.
  destruct (Ascii.compare "/" c) eqn:E; simpl in *; [|done|done].
  by apply Ascii.compare_eq_iff in E.
Qed.

(** ** Client-side rules *)

Section rules.
Context {St : Type} `{!Datastore St} {view : St → gmap string string} {ok : St → Prop}.
Context `{!DatastoreSpec St view ok}.
Implicit Types s : St.

Lemma wp_Get k Q s :
  ok s → user_key k = true → Q (view s !! k) s → wp (ds_Get k) Q s.
Proof. intros. unfold wp. by rewrite spec_Get. Qed.

Lemma wp_GetWithRange from to Q s :
  ok s → user_key from = true → user_key to = true →
  Q (kv_range (view s) from to) s → wp (ds_GetWithRange from to) Q s.
Proof. intros. unfold wp. by rewrite spec_GetWithRange. Qed.

Lemma wp_GetWithPrefix p Q s :
  ok s → user_key p = true →
  Q (kv_prefix (view s) p) s → wp (ds_GetWithPrefix p) Q s.
Proof. intros. unfold wp. by rewrite spec_GetWithPrefix. Qed.

Lemma wp_Set k v Q s :
  ok s → user_key k = true →
  (∀ s', ok s' → view s' = <[k:=v]> (view s) → Q tt s') → wp (ds_Set k v) Q s.
Proof.
  intros Hs Hk HQ. destruct (spec_Set s k v) as (s' & E & ? & ?); [done..|].
  unfold wp. rewrite E. auto.
Qed.

Lemma wp_SetWithTTL k v ttl Q s :
  ok s → user_key k = true →
  (∀ s', ok s' → view s' = <[k:=v]> (view s) → Q tt s') → wp (ds_SetWithTTL k v ttl) Q s.
Proof.
  intros Hs Hk HQ. destruct (spec_SetWithTTL s k v ttl) as (s' & E & ? & ?); [done..|].
  unfold wp. rewrite E. auto.
Qed.

Lemma wp_DeleteAll ks Q s :
  ok s → Forall (λ k, user_key k = true) ks →
  (∀ s', ok s' → view s' = delete_keys ks (view s) → Q tt s') → wp (ds_DeleteAll ks) Q s.
Proof.
  intros Hs Hk HQ. destruct (spec_DeleteAll s ks) as (s' & E & ? & ?); [done..|].
  unfold wp. rewrite E. auto.
Qed.

Lemma wp_DeleteWithPrefix p Q s :
  ok s → user_key p = true →
  (∀ s', ok s' → view s' = delete_prefix p (view s) → Q tt s') →
  wp (ds_DeleteWithPrefix p) Q s.
Proof.
  intros Hs Hk HQ. destruct (spec_DeleteWithPrefix s p) as (s' & E & ? & ?); [done..|].
  unfold wp. rewrite E. auto.
Qed.
End rules.
