(* ===== verification/PebbleDB.v ===== *)
(** * The PebbleDB datastore

    [src/vizier/utils/datastore/pebbledb/pebbledb.go] and [pebbledb_utils.go]:
    the persistent implementation of the datastore interface on top of the
    third-party key-value engine [cockroachdb/pebble].  The engine is the
    parameter [Pebble] with its documented behaviour [PebbleSpec]; the wrapper
    is modelled in full, with the TTL records it writes next to the clients'
    keys and the goroutine that reaps expired keys. *)

From S2P Require Import Prelude GoLib Datastore.
From Stdlib Require Import Ascii.

(** ** The engine *)

(** What [db.Get] returns: [ErrNotFound], another error (then the value and the
    closer are nil), or a value with a closer whose [Close] may fail. *)
Inductive pget : Type :=
| PFound (v : string) (close_err : option error)
| PNotFound
| PGetErr (e : error).

(** An entry of an iterator: what [iter.Error()], [iter.Key()] and
    [iter.Value()] return there. *)
Record ientry := IEntry { ie_err : option error; ie_key : string; ie_value : string }.

Class Pebble := {
  pdb : Type;
  pbatch : Type;
  pdb_Get : string → pdb → pget;
  pdb_Set : string → string → pdb → option error * pdb;
  pdb_Delete : string → pdb → option error * pdb;
  pdb_DeleteRange : string → string → pdb → option error * pdb;
  (** The entries an iterator with these bounds visits, and the error its
      [Close] returns. *)
  pdb_NewIter : string → string → pdb → list ientry * option error;
  pdb_NewBatch : pdb → pbatch;
  batch_Set : string → string → pbatch → error + pbatch;
  batch_Delete : string → pbatch → error + pbatch;
  batch_Commit : pbatch → pdb → option error * pdb;
  pdb_Close : pdb → option error
}.

Inductive batch_op : Type :=
| BSet (k v : string)
| BDelete (k : string).

Definition apply_op (m : gmap string string) (o : batch_op) : gmap string string :=
  match o with BSet k v => <[k:=v]> m | BDelete k => delete k m end.

(** The documented behaviour of a healthy engine: an ordered map with atomic
    batches. *)
Class PebbleSpec (P : Pebble) (contents : pdb → gmap string string)
    (healthy : pdb → Prop) (ops : pbatch → list batch_op) : Prop := {
  pebble_Get d k : healthy d →
    pdb_Get k d = match contents d !! k with Some v => PFound v None | None => PNotFound end;
  pebble_Set d k v : healthy d →
    ∃ d', pdb_Set k v d = (None, d') ∧ healthy d' ∧ contents d' = <[k:=v]> (contents d);
  pebble_Delete d k : healthy d →
    ∃ d', pdb_Delete k d = (None, d') ∧ healthy d' ∧ contents d' = delete k (contents d);
  pebble_DeleteRange d from to : healthy d →
    ∃ d', pdb_DeleteRange from to d = (None, d') ∧ healthy d' ∧
      contents d' = filter (λ kv, in_range from to kv.1 = false) (contents d);
  pebble_NewIter d from to : healthy d →
    pdb_NewIter from to d =
      (zip_with (IEntry None) (kv_range (contents d) from to).1 (kv_range (contents d) from to).2,
       None);
  pebble_NewBatch d : ops (pdb_NewBatch d) = [];
  pebble_batch_Set b k v : ∃ b', batch_Set k v b = inr b' ∧ ops b' = ops b ++ [BSet k v];
  pebble_batch_Delete b k : ∃ b', batch_Delete k b = inr b' ∧ ops b' = ops b ++ [BDelete k];
  pebble_Commit d b : healthy d →
    ∃ d', batch_Commit b d = (None, d') ∧ healthy d' ∧
      contents d' = foldl apply_op (contents d) (ops b)
}.

(** ** [pebbledb_utils.go] *)

Definition byte_succ (a : ascii) : ascii := ascii_of_N ((N_of_ascii a + 1) mod 256).

(** The loop of [KeyUpperBound], from the last byte down; the list holds the
    bytes [end[0..i]] in reverse. *)
Fixpoint KeyUpperBound_loop (rev_end : list ascii) : option (list ascii) :=
  match rev_end with
  | [] => None
  | b :: rest =>
    let b' := byte_succ b in
    if decide (b' = zero) then KeyUpperBound_loop rest
    else Some (reverse (b' :: rest))
  end.

Definition KeyUpperBound (b : string) : option string :=
  String.string_of_list_ascii <$>
    KeyUpperBound_loop (reverse (String.list_ascii_of_string b)).

(** ** [pebbledb.go] *)

Definition ttlByKeyPrefix : string := "___ttl___".
Definition ttlByTimePrefix : string := "___ttl_time___".

Definition getKeyForTTLByKey (key : string) : string :=
  ttlByKeyPrefix +:+ "/" +:+ key.

Definition getKeyForTTLByTime (key : string) (expiresAt : gotime) : string :=
  ttlByTimePrefix +:+ "/" +:+ Sprintf_d 20 (Unix expiresAt) +:+ "/" +:+ key.

Definition getRangeForTTLByTime (now : gotime) : string * string :=
  (ttlByTimePrefix +:+ "/", ttlByTimePrefix +:+ "/" +:+ Sprintf_d 20 (Unix now + 1) +:+ "/").

Definition getKeyToDeleteFromTTLByTime (ttlByTimeKey : string) : error + string :=
  if negb (HasPrefix ttlByTimeKey ttlByTimePrefix)
  then inl (ErrMsg "input key is not a TTLByTime key")
  else
    let prefixLen := String.length (ttlByTimePrefix +:+ "/" +:+ Sprintf_d 20 0 +:+ "/") in
    if (String.length ttlByTimeKey <? prefixLen)%nat
    then inl (ErrMsg "input key is a badly formatted TTLByTime key")
    else inr (drop_str prefixLen ttlByTimeKey).

Section pebble.
Context {P : Pebble}.

(** The wrapper: the engine (nil once closed), whether [done] is closed, and
    the wall clock [time.Now()] reads. *)
Record DataStore := mkDataStore { db : option pdb; done_closed : bool; now : gotime }.

Definition with_db (d : pdb) (w : DataStore) : DataStore :=
  mkDataStore (Some d) (done_closed w) (now w).

(** A write of the engine; the receiver of a closed store is nil. *)
Definition db_write (f : pdb → option error * pdb) : M DataStore unit := λ w,
  match db w with
  | None => (Crash NilDeref, w)
  | Some d => match f d with
              | (None, d') => (Ret tt, with_db d' w)
              | (Some e, d') => (Err e, with_db d' w)
              end
  end.

Definition db_ptr : M DataStore pdb :=
  w ← get_state; deref (db w).

Definition close_result {A} (a : A) (e : option error) : M DataStore A :=
  match e with None => mret a | Some e => fail e end.

Definition Set_ (key value : string) : M DataStore unit :=
  db_write (pdb_Set key value).

Definition SetWithTTL (key value : string) (ttl : Z) : M DataStore unit :=
  d ← db_ptr;
  let batch := pdb_NewBatch d in
  w ← get_state;
  let expiresAt := time_Add (now w) ttl in
  encodedExpiry ← lift_sum (time_MarshalBinary expiresAt);
  batch ← lift_sum (batch_Set key value batch);
  let ttlByKey := getKeyForTTLByKey key in
  let ttlByTime := getKeyForTTLByTime key expiresAt in
  batch ← lift_sum (batch_Set ttlByKey encodedExpiry batch);
  batch ← lift_sum (batch_Set ttlByTime "" batch);
  db_write (batch_Commit batch).

Definition Get (key : string) : M DataStore (option string) :=
  d ← db_ptr;
  match pdb_Get key d with
  | PNotFound => mret None
  | PGetErr _ => panic NilDeref
  | PFound v close_err => close_result (Some v) close_err
  end.

Fixpoint collect (es : list ientry) (keys values : list string)
    : M DataStore (list string * list string) :=
  match es with
  | [] => mret (keys, values)
  | e :: es =>
    match ie_err e with
    | Some err => fail err
    | None => collect es (keys ++ [ie_key e]) (values ++ [ie_value e])
    end
  end.

Definition GetWithRange (from to : string) : M DataStore (list string * list string) :=
  d ← db_ptr;
  let '(es, close_err) := pdb_NewIter from to d in
  kvs ← collect es [] [];
  close_result kvs close_err.

Definition unsupported_prefix (prefix : string) : error :=
  ErrMsg ("unsupported prefix: " +:+ Sprintf_x prefix).

Definition GetWithPrefix (prefix : string) : M DataStore (list string * list string) :=
  match KeyUpperBound prefix with
  | None => fail (unsupported_prefix prefix)
  | Some ub => GetWithRange prefix ub
  end.

Definition Delete (key : string) : M DataStore unit :=
  db_write (pdb_Delete key).

Fixpoint batch_deletes (keys : list string) (batch : pbatch) : M DataStore pbatch :=
  match keys with
  | [] => mret batch
  | key :: keys => batch ← lift_sum (batch_Delete key batch); batch_deletes keys batch
  end.

Definition DeleteAll (keys : list string) : M DataStore unit :=
  d ← db_ptr;
  batch ← batch_deletes keys (pdb_NewBatch d);
  db_write (batch_Commit batch).

Definition DeleteWithPrefix (prefix : string) : M DataStore unit :=
  match KeyUpperBound prefix with
  | None => fail (unsupported_prefix prefix)
  | Some ub => db_write (pdb_DeleteRange prefix ub)
  end.

(** [close(w.done)] runs once; the engine pointer is nil afterwards. *)
Definition Close : M DataStore unit := λ w,
  match db w with
  | None => (Ret tt, mkDataStore None true (now w))
  | Some d =>
    (match pdb_Close d with None => Ret tt | Some e => Err e end,
     mkDataStore None true (now w))
  end.

(** The iteration of the reaper: the keys to delete. *)
Fixpoint reap_keys (now : gotime) (es : list ientry) (deleteKeys : list string)
    : M DataStore (list string) :=
  match es with
  | [] => mret deleteKeys
  | e :: es =>
    match ie_err e with
    | Some _ => mret deleteKeys
    | None =>
      match getKeyToDeleteFromTTLByTime (ie_key e) with
      | inl _ => reap_keys now es deleteKeys
      | inr keyToCheck =>
        let ttlByKey := getKeyForTTLByKey keyToCheck in
        v ← try (Get ttlByKey);
        match v with
        | inl _ => reap_keys now es deleteKeys
        | inr v =>
          match time_UnmarshalBinary (default "" v) with
          | inl _ => reap_keys now es deleteKeys
          | inr expiresAt =>
            if (expiresAt <? t_ns now)%Z
            then reap_keys now es (deleteKeys ++ [ttlByKey; keyToCheck])
            else reap_keys now es deleteKeys
          end
        end
      end
    end
  end.

(** What the reaper does when its ticker fires. *)
Definition ttlWatcher_tick : M DataStore unit :=
  w ← get_state;
  let now := now w in
  let '(from, to) := getRangeForTTLByTime now in
  d ← db_ptr;
  let '(es, _) := pdb_NewIter from to d in
  deleteKeys ← reap_keys now es [];
  r ← try (DeleteAll deleteKeys);
  match r with
  | inl _ => mret tt
  | inr _ => r ← try (db_write (pdb_DeleteRange from to)); mret tt
  end.

(** The goroutine's loop over what its [select] receives. *)
Inductive watcher_event : Type := EvTick (at_ : gotime) | EvDone.

Fixpoint ttlWatcher (evs : list watcher_event) : M DataStore unit :=
  match evs with
  | [] => mret tt
  | EvDone :: _ => mret tt
  | EvTick t :: evs =>
    _ ← modify (λ w, mkDataStore (db w) (done_closed w) t);
    _ ← ttlWatcher_tick;
    ttlWatcher evs
  end.

#[export] Instance PebbleDatastore : Datastore DataStore := {
  ds_Get := Get;
  ds_GetWithRange := GetWithRange;
  ds_GetWithPrefix := GetWithPrefix;
  ds_Set := Set_;
  ds_SetWithTTL := SetWithTTL;
  ds_Delete := Delete;
  ds_DeleteAll := DeleteAll;
  ds_DeleteWithPrefix := DeleteWithPrefix;
  ds_Close := Close
}.
End pebble.

(** ** [KeyUpperBound] bounds exactly the keys with the prefix *)

(** The same function by recursion from the first byte. *)
Fixpoint upper_bound (s : string) : option string :=
  match s with
  | EmptyString => None
  | String a s =>
    match upper_bound s with
    | Some t => Some (String a t)
    | None => if decide (byte_succ a = zero) then None else Some (String (byte_succ a) EmptyString)
    end
  end.

Lemma KeyUpperBound_loop_snoc l a :
  KeyUpperBound_loop (l ++ [a]) =
    match KeyUpperBound_loop l with
    | Some t => Some (a :: t)
    | None => if decide (byte_succ a = zero) then None else Some [byte_succ a]
    end.
Proof.
  induction l as [|b l IH]; [done|].
  change ((b :: l) ++ [a]) with (b :: (l ++ [a])). cbn [KeyUpperBound_loop].
  destruct (decide (byte_succ b = zero)); [exact IH|]. by rewrite app_comm_cons, reverse_snoc.
Qed.

Lemma KeyUpperBound_upper_bound s : KeyUpperBound s = upper_bound s.
Proof.
  unfold KeyUpperBound. induction s as [|a s IH]; [done|].
  simpl. rewrite reverse_cons, KeyUpperBound_loop_snoc, <-IH.
  destruct (KeyUpperBound_loop _); simpl; [done|]. by case_decide.
Qed.

Lemma byte_succ_zero a : byte_succ a = zero ↔ N_of_ascii a = 255%N.
Proof.
  unfold byte_succ. split; [|by intros ->].
  intros E%(f_equal N_of_ascii). pose proof (N_ascii_bounded a).
  rewrite N_ascii_embedding in E by (by apply N.mod_lt).
  change (N_of_ascii zero) with 0%N in E.
  destruct (decide (N_of_ascii a = 255%N)) as [|Hne]; [done|].
  rewrite N.mod_small in E; lia.
Qed.

Lemma N_of_ascii_lt a : (N_of_ascii a < 256)%N.
Proof. apply N_ascii_bounded. Qed.

Lemma byte_succ_N a : byte_succ a ≠ zero → N_of_ascii (byte_succ a) = (N_of_ascii a + 1)%N.
Proof.
  intros Hne. pose proof (N_of_ascii_lt a). unfold byte_succ.
  assert (N_of_ascii a ≠ 255%N) by (by rewrite <-byte_succ_zero).
  rewrite N.mod_small by lia. apply N_ascii_embedding. lia.
Qed.

Lemma N_of_ascii_inj a b : N_of_ascii a = N_of_ascii b → a = b.
Proof. intros E. rewrite <-(ascii_N_embedding a), <-(ascii_N_embedding b). by rewrite E. Qed.

Lemma in_range_compare from to k :
  in_range from to k = true ↔
    String.compare from k ≠ Gt ∧ String.compare k to = Lt.
Proof.
  unfold in_range, str_leb, String.leb, str_ltb, String.ltb.
  destruct (String.compare from k), (String.compare k to); naive_solver.
Qed.

Lemma compare_cons a s b t :
  String.compare (String a s) (String b t) =
    match (N_of_ascii a ?= N_of_ascii b)%N with Eq => String.compare s t | c => c end.
Proof. reflexivity. Qed.

Lemma HasPrefix_cons a p c k :
  HasPrefix (String c k) (String a p) = bool_decide (a = c) && HasPrefix k p.
Proof.
  unfold HasPrefix. simpl. destruct (ascii_dec a c) as [->|Hne].
  - by rewrite bool_decide_eq_true_2.
  - by rewrite bool_decide_eq_false_2.
Qed.

(** A prefix without upper bound is below exactly the keys that extend it. *)
Lemma upper_bound_None p k :
  upper_bound p = None → String.compare p k ≠ Gt ↔ HasPrefix k p = true.
Proof.
  revert k. induction p as [|a p IH]; intros k Hp; [by destruct k|].
  simpl in Hp. destruct (upper_bound p) eqn:E; [done|]. case_decide as Ha; [|done].
  apply byte_succ_zero in Ha. destruct k as [|c k]; [done|].
  rewrite compare_cons, HasPrefix_cons, andb_true_iff, bool_decide_eq_true, Ha.
  pose proof (N_of_ascii_lt c).
  destruct (N.compare_spec 255 (N_of_ascii c)) as [Hc|Hc|Hc].
  - rewrite IH by done. rewrite <-Ha in Hc. apply N_of_ascii_inj in Hc. naive_solver.
  - lia.
  - split; [done|]. intros [-> _]. lia.
Qed.

Lemma upper_bound_Some p u k :
  upper_bound p = Some u → in_range p u k = true ↔ HasPrefix k p = true.
Proof.
  revert u k. induction p as [|a p IH]; intros u k Hp; [done|].
  simpl in Hp. rewrite in_range_compare.
  destruct k as [|c k]; [by split; [intros []|done]|].
  rewrite HasPrefix_cons, andb_true_iff, bool_decide_eq_true, compare_cons.
  destruct (upper_bound p) as [t|] eqn:E.
  - injection Hp as <-. rewrite compare_cons.
    destruct (N.compare_spec (N_of_ascii a) (N_of_ascii c)) as [Hc|Hc|Hc].
    + rewrite Hc, N.compare_refl, <-in_range_compare, IH by done.
      apply N_of_ascii_inj in Hc. naive_solver.
    + rewrite (proj2 (N.compare_gt_iff _ _)) by lia. split; [by intros []|].
      intros [-> _]. lia.
    + split; [by intros []|]. intros [-> _]. lia.
  - case_decide as Ha; [done|]. injection Hp as <-. rewrite compare_cons.
    rewrite byte_succ_N by done.
    destruct (N.compare_spec (N_of_ascii a) (N_of_ascii c)) as [Hc|Hc|Hc].
    + rewrite (proj2 (N.compare_lt_iff (N_of_ascii c) _)) by lia.
      rewrite upper_bound_None by done. apply N_of_ascii_inj in Hc. naive_solver.
    + split; [|intros [-> _]; lia]. intros [_ H].
      destruct (N.compare_spec (N_of_ascii c) (N_of_ascii a + 1)); [|lia|done].
      by destruct k.
    + split; [by intros []|]. intros [-> _]. lia.
Qed.

Lemma KeyUpperBound_range p u k :
  KeyUpperBound p = Some u → in_range p u k = HasPrefix k p.
Proof.
  intros Hu. rewrite KeyUpperBound_upper_bound in Hu.
  apply (upper_bound_Some _ _ k) in Hu.
  destruct (in_range p u k), (HasPrefix k p); naive_solver.
Qed.

(** A key is in [[prefix, KeyUpperBound prefix)] exactly when it has the prefix,
    and a prefix has no upper bound only when it consists of [0xff] bytes. *)
Theorem KeyUpperBound_prefix_range p :
  match KeyUpperBound p with
  | Some u => ∀ k, in_range p u k = HasPrefix k p
  | None => Forall (λ a, N_of_ascii a = 255%N) (String.list_ascii_of_string p)
  end.
Proof.
  destruct (KeyUpperBound p) as [u|] eqn:E; [intros k; by apply KeyUpperBound_range|].
  rewrite KeyUpperBound_upper_bound in E. induction p as [|a p IH]; simpl in *; [done|].
  destruct (upper_bound p); [done|]. case_decide as Ha; [|done].
  constructor; [by apply byte_succ_zero|by apply IH].
Qed.

(** ** The wrapper implements the datastore interface *)

Section refinement.
Context {P : Pebble} {contents : pdb → gmap string string} {healthy : pdb → Prop}
  {ops : pbatch → list batch_op}.
Context `{!PebbleSpec P contents healthy ops}.

(** Everything stored, internal keys included. *)
Definition all_keys (w : DataStore) : gmap string string :=
  match db w with Some d => contents d | None => ∅ end.

(** The clients' keys. *)
Definition pebble_view (w : DataStore) : gmap string string :=
  filter (λ kv, user_key kv.1 = true) (all_keys w).

(** The store is open, the engine is healthy, and the local time zone can be
    encoded. *)
Definition pebble_ok (w : DataStore) : Prop :=
  (∃ d, db w = Some d ∧ healthy d) ∧ zone_encodable (now w).

Implicit Types w : DataStore.

Lemma lookup_view w k : user_key k = true → pebble_view w !! k = all_keys w !! k.
Proof.
  intros Hk. unfold pebble_view. destruct (all_keys w !! k) as [v|] eqn:E.
  - by apply map_lookup_filter_Some.
  - apply map_lookup_filter_None. by left.
Qed.

Lemma lookup_view_internal w k : user_key k = false → pebble_view w !! k = None.
Proof. intros Hk. apply map_lookup_filter_None. right. intros v _. simpl. by rewrite Hk. Qed.

(** The views of states that agree on user keys, stated once. *)
Lemma view_ext w (m : gmap string string) :
  (∀ k, user_key k = true → all_keys w !! k = m !! k) →
  (∀ k, user_key k = false → m !! k = None) → pebble_view w = m.
Proof.
  intros H1 H2. apply map_eq. intros k. destruct (user_key k) eqn:E.
  - by rewrite lookup_view, H1.
  - by rewrite lookup_view_internal, H2.
Qed.

Lemma db_write_spec (f : pdb → option error * pdb) w m :
  pebble_ok w →
  (∀ d, healthy d → contents d = all_keys w →
    ∃ d', f d = (None, d') ∧ healthy d' ∧ contents d' = m) →
  ∃ w', db_write f w = (Ret tt, w') ∧ pebble_ok w' ∧ all_keys w' = m ∧ now w' = now w.
Proof.
  intros [(d & Hd & Hh) Hz] Hf. unfold db_write, all_keys in *. rewrite Hd in *.
  destruct (Hf d Hh eq_refl) as (d' & -> & Hh' & Hm).
  exists (with_db d' w). split_and!; [done| |done|done].
  split; [|done]. exists d'. done.
Qed.

Lemma Get_all w k : pebble_ok w → Get k w = (Ret (all_keys w !! k), w).
Proof.
  intros [(d & Hd & Hh) _]. unfold Get, db_ptr, all_keys.
  unfold mbind, M_bind, get_state, deref, mret, M_ret. rewrite Hd.
  rewrite pebble_Get by done. by destruct (contents d !! k).
Qed.

Lemma collect_zip ks vs keys values w :
  length ks = length vs →
  collect (zip_with (IEntry None) ks vs) keys values w = (Ret (keys ++ ks, values ++ vs), w).
Proof.
  revert vs keys values. induction ks as [|k ks IH]; intros [|v vs] keys values Hl;
    simplify_eq/=.
  - by rewrite !app_nil_r.
  - rewrite IH by done. by rewrite <-!app_assoc.
Qed.

Lemma GetWithRange_all w from to :
  pebble_ok w → GetWithRange from to w = (Ret (kv_range (all_keys w) from to), w).
Proof.
  intros [(d & Hd & Hh) _]. unfold GetWithRange, db_ptr, all_keys.
  unfold mbind at 1, M_bind, mbind, get_state, deref, mret, M_ret. rewrite Hd. simpl.
  rewrite pebble_NewIter by done. simpl.
  rewrite collect_zip by (by rewrite length_lookup_values). done.
Qed.

Lemma kv_range_view w from to :
  user_key from = true → user_key to = true →
  kv_range (pebble_view w) from to = kv_range (all_keys w) from to.
Proof.
  intros Hf Ht. unfold kv_range.
  assert (filter (λ k, in_range from to k = true) (sorted_keys (pebble_view w)) =
          filter (λ k, in_range from to k = true) (sorted_keys (all_keys w))) as ->.
  { unfold pebble_view. rewrite sorted_keys_user.
    rewrite list_filter_filter. apply list_filter_iff. intros k. split; [naive_solver|].
    intros Hr. split; eauto using user_key_range. }
  f_equal. apply lookup_values_ext. intros k [Hk _]%list_elem_of_filter.
  apply lookup_view. eauto using user_key_range.
Qed.

Lemma kv_prefix_range m p u :
  KeyUpperBound p = Some u → kv_range m p u = kv_prefix m p.
Proof.
  intros Hu. unfold kv_range, kv_prefix.
  assert (filter (λ k, in_range p u k = true) (sorted_keys m) =
          filter (λ k, HasPrefix k p = true) (sorted_keys m)) as ->; [|done].
  apply list_filter_iff. intros k. by rewrite (KeyUpperBound_range p u k Hu).
Qed.

Lemma user_key_upper_bound p : user_key p = true → ∃ u, KeyUpperBound p = Some u.
Proof.
  intros [s ->]%user_key_cons. rewrite KeyUpperBound_upper_bound. simpl.
  destruct (upper_bound s); eauto.
Qed.

Lemma prefix_user_key p k : user_key p = true → HasPrefix k p = true → user_key k = true.
Proof.
  intros [s ->]%user_key_cons [t ->]%HasPrefix_spec. apply user_key_cons. by eexists.
Qed.

Lemma kv_prefix_view w p :
  user_key p = true → kv_prefix (pebble_view w) p = kv_prefix (all_keys w) p.
Proof.
  intros Hp. unfold kv_prefix.
  assert (filter (λ k, HasPrefix k p = true) (sorted_keys (pebble_view w)) =
          filter (λ k, HasPrefix k p = true) (sorted_keys (all_keys w))) as ->.
  { unfold pebble_view. rewrite sorted_keys_user.
    rewrite list_filter_filter. apply list_filter_iff. intros k. split; [naive_solver|].
    intros Hr. split; eauto using prefix_user_key. }
  f_equal. apply lookup_values_ext. intros k [Hk _]%list_elem_of_filter.
  apply lookup_view. eauto using prefix_user_key.
Qed.

Lemma batch_deletes_spec keys b w :
  ∃ b', batch_deletes keys b w = (Ret b', w) ∧ ops b' = ops b ++ (BDelete <$> keys).
Proof.
  revert b. induction keys as [|k keys IH]; intros b; simpl.
  { exists b. by rewrite app_nil_r. }
  destruct (pebble_batch_Delete b k) as (b1 & E1 & O1).
  destruct (IH b1) as (b' & E & O). exists b'. rewrite E1. split; [exact E|].
  rewrite O, O1. by rewrite <-app_assoc.
Qed.

Lemma foldl_deletes m keys : foldl apply_op m (BDelete <$> keys) = delete_keys keys m.
Proof. unfold delete_keys. revert m. induction keys; simpl; auto. Qed.

Lemma db_ptr_ok w d : db w = Some d → db_ptr w = (Ret d, w).
Proof. intros Hd. unfold db_ptr, mbind, M_bind, get_state. by rewrite Hd. Qed.

Lemma DeleteAll_all keys w :
  pebble_ok w →
  ∃ w', DeleteAll keys w = (Ret tt, w') ∧ pebble_ok w' ∧
    all_keys w' = delete_keys keys (all_keys w) ∧ now w' = now w.
Proof.
  intros Hok. pose proof Hok as [(d & Hd & Hh) _]. unfold DeleteAll.
  run_with (db_ptr_ok _ _ Hd).
  destruct (batch_deletes_spec keys (pdb_NewBatch d) w) as (b & E & O).
  run_with E. apply db_write_spec; [done|].
  intros d' Hh' Hc. destruct (pebble_Commit d' b Hh') as (d'' & E' & H' & C').
  exists d''. split_and!; [done..|]. rewrite C', O, pebble_NewBatch, Hc. apply foldl_deletes.
Qed.

(** What [SetWithTTL] writes: the value, the expiry by key, and the time
    index. *)
Lemma SetWithTTL_all key value ttl w :
  pebble_ok w →
  ∃ w' enc, SetWithTTL key value ttl w = (Ret tt, w') ∧ pebble_ok w' ∧ now w' = now w ∧
    time_MarshalBinary (time_Add (now w) ttl) = inr enc ∧
    all_keys w' =
      <[getKeyForTTLByTime key (time_Add (now w) ttl) := ""]>
      (<[getKeyForTTLByKey key := enc]> (<[key := value]> (all_keys w))).
Proof.
  intros Hok. pose proof Hok as [(d & Hd & Hh) Hz]. unfold SetWithTTL.
  run_with (db_ptr_ok _ _ Hd). run_state.
  assert (∃ enc, time_MarshalBinary (time_Add (now w) ttl) = inr enc) as [enc Henc].
  { unfold zone_encodable in Hz. unfold time_MarshalBinary. simpl.
    destruct (t_zone (now w)) as [off|]; [|by eexists]. destruct Hz as [Hz1 Hz2].
    rewrite (proj2 (Z.ltb_ge _ _)), (proj2 (Z.eqb_neq _ _)), (proj2 (Z.ltb_ge 32767 _)) by lia.
    simpl. destruct (Z.rem off 60 =? 0)%Z; by eexists. }
  destruct (pebble_batch_Set (pdb_NewBatch d) key value) as (b1 & E1 & O1).
  destruct (pebble_batch_Set b1 (getKeyForTTLByKey key) enc) as (b2 & E2 & O2).
  destruct (pebble_batch_Set b2 (getKeyForTTLByTime key (time_Add (now w) ttl)) "") as (b3 & E3 & O3).
  run_with (lift_sum_ret _ _ w Henc). run_with (lift_sum_ret _ _ w E1).
  run_with (lift_sum_ret _ _ w E2). run_with (lift_sum_ret _ _ w E3).
  destruct (db_write_spec (batch_Commit b3) w
    (<[getKeyForTTLByTime key (time_Add (now w) ttl) := ""]>
      (<[getKeyForTTLByKey key := enc]> (<[key := value]> (all_keys w))))) as (w' & E & ? & ? & ?).
  { done. }
  { intros d' Hh' Hc. destruct (pebble_Commit d' b3 Hh') as (d'' & E' & H' & C').
    exists d''. split_and!; [done..|].
    rewrite C', O3, O2, O1, pebble_NewBatch, Hc. done. }
  exists w', enc. done.
Qed.
End refinement.

Lemma user_key_ttlByKey k : user_key (getKeyForTTLByKey k) = false.
Proof. reflexivity. Qed.

Lemma user_key_ttlByTime k t : user_key (getKeyForTTLByTime k t) = false.
Proof. reflexivity. Qed.

Lemma user_key_ne k k' : user_key k = true → user_key k' = false → k' ≠ k.
Proof. intros H1 H2 ->. congruence. Qed.

Section implementation.
Context {P : Pebble} {contents : pdb → gmap string string} {healthy : pdb → Prop}
  {ops : pbatch → list batch_op}.
Context `{!PebbleSpec P contents healthy ops}.
Abbreviation view := (pebble_view (contents := contents)).
Abbreviation ok := (pebble_ok (healthy := healthy)).
Abbreviation all_keys := (all_keys (contents := contents)).

(** A write that changes the engine's map to [m'] changes the view to the
    user part of [m']. *)
Lemma view_write w (f : pdb → option error * pdb) m v :
  ok w →
  (∀ d, healthy d → contents d = all_keys w →
    ∃ d', f d = (None, d') ∧ healthy d' ∧ contents d' = m) →
  (∀ k, user_key k = true → m !! k = v !! k) → (∀ k, user_key k = false → v !! k = None) →
  ∃ w', db_write f w = (Ret tt, w') ∧ ok w' ∧ view w' = v.
Proof.
  intros Hok Hf H1 H2.
  destruct (db_write_spec f w m Hok Hf) as (w' & E & Hok' & Hm & _).
  exists w'. split_and!; [done..|]. apply view_ext; [|done]. intros k Hk. rewrite Hm. auto.
Qed.

Lemma Set_view w k v :
  ok w → user_key k = true → ∃ w', Set_ k v w = (Ret tt, w') ∧ ok w' ∧ view w' = <[k:=v]> (view w).
Proof.
  intros Hok Hk. apply (view_write _ _ (<[k:=v]> (all_keys w))); [done| | |].
  - intros d Hh <-. by apply pebble_Set.
  - intros k' Hk'. rewrite !lookup_insert. by rewrite lookup_view.
  - intros k' Hk'. rewrite lookup_insert_ne by (intros ->; congruence).
    by apply lookup_view_internal.
Qed.

Lemma SetWithTTL_view w k v ttl :
  ok w → user_key k = true →
  ∃ w', SetWithTTL k v ttl w = (Ret tt, w') ∧ ok w' ∧ view w' = <[k:=v]> (view w).
Proof.
  intros Hok Hk. destruct (SetWithTTL_all (contents := contents) k v ttl w Hok)
    as (w' & enc & E & Hok' & _ & _ & Hm).
  exists w'. split_and!; [done..|]. apply view_ext.
  - intros k' Hk'. rewrite Hm.
    rewrite 2!lookup_insert_ne by (by apply user_key_ne).
    rewrite !lookup_insert. by rewrite lookup_view.
  - intros k' Hk'. rewrite lookup_insert_ne by (intros ->; congruence).
    by apply lookup_view_internal.
Qed.

Lemma Delete_view w k :
  ok w → user_key k = true → ∃ w', Delete k w = (Ret tt, w') ∧ ok w' ∧ view w' = delete k (view w).
Proof.
  intros Hok Hk. apply (view_write _ _ (delete k (all_keys w))); [done| | |].
  - intros d Hh <-. by apply pebble_Delete.
  - intros k' Hk'. rewrite !lookup_delete. by rewrite lookup_view.
  - intros k' Hk'. rewrite lookup_delete_ne by (intros ->; congruence).
    by apply lookup_view_internal.
Qed.

Lemma DeleteAll_view w ks :
  ok w → Forall (λ k, user_key k = true) ks →
  ∃ w', DeleteAll ks w = (Ret tt, w') ∧ ok w' ∧ view w' = delete_keys ks (view w).
Proof.
  intros Hok Hks. destruct (DeleteAll_all (contents := contents) ks w Hok) as (w' & E & Hok' & Hm & _).
  exists w'. split_and!; [done..|]. apply view_ext.
  - intros k Hk. rewrite Hm, !lookup_delete_keys. by rewrite lookup_view.
  - intros k Hk. rewrite lookup_delete_keys. case_decide; [done|]. by apply lookup_view_internal.
Qed.

Lemma DeleteWithPrefix_view w p :
  ok w → user_key p = true →
  ∃ w', DeleteWithPrefix p w = (Ret tt, w') ∧ ok w' ∧ view w' = delete_prefix p (view w).
Proof.
  intros Hok Hp. destruct (user_key_upper_bound p Hp) as [u Hu].
  unfold DeleteWithPrefix. rewrite Hu.
  apply (view_write _ _ (filter (λ kv, in_range p u kv.1 = false) (all_keys w))); [done| | |].
  - intros d Hh <-. by apply pebble_DeleteRange.
  - intros k Hk. rewrite lookup_delete_prefix, lookup_view by done.
    rewrite <-(KeyUpperBound_range p u k Hu).
    destruct (in_range p u k) eqn:E.
    + apply map_lookup_filter_None. right. intros v _. simpl. by rewrite E.
    + destruct (all_keys w !! k) eqn:Ek.
      * by apply map_lookup_filter_Some.
      * apply map_lookup_filter_None. by left.
  - intros k Hk. rewrite lookup_delete_prefix, lookup_view_internal by done.
    by destruct (HasPrefix k p).
Qed.

#[export] Instance pebble_datastore_spec : DatastoreSpec DataStore view ok.
Proof.
  split; intros w; simpl.
  - intros k Hok Hk. rewrite Get_all by done. by rewrite lookup_view.
  - intros from to Hok Hf Ht. rewrite GetWithRange_all by done. by rewrite kv_range_view.
  - intros p Hok Hp. destruct (user_key_upper_bound p Hp) as [u Hu].
    unfold GetWithPrefix. rewrite Hu, GetWithRange_all by done.
    by rewrite (kv_prefix_range _ _ _ Hu), kv_prefix_view.
  - apply Set_view.
  - apply SetWithTTL_view.
  - apply Delete_view.
  - apply DeleteAll_view.
  - apply DeleteWithPrefix_view.
Qed.

(** C37: The wrapper around a healthy engine implements the datastore interface on
    the clients' keys: reads return the stored map in key order, writes change
    exactly the keys they name, whatever TTL records it keeps besides. *)
Theorem pebble_implements_datastore : DatastoreSpec DataStore view ok.
Proof. apply pebble_datastore_spec. Qed.
End implementation.

(** ** The TTL reaper *)

(** Times between the Unix epoch and the end of the [int64] nanosecond range
    (the year 2262). *)
Definition sane_time (t : gotime) : Prop := (0 ≤ t_ns t < 2 ^ 63)%Z.

Lemma sane_Unix t : sane_time t → (0 ≤ Unix t < 10 ^ 10)%Z.
Proof.
  unfold sane_time, Unix, nanos. intros Ht. split; [apply Z.div_pos; lia|].
  apply Z.div_lt_upper_bound; lia.
Qed.

Lemma pad20 n : (0 ≤ n ≤ 10 ^ 19)%Z → (0 ≤ n < 10 ^ Z.of_nat 20)%Z.
Proof. change (10 ^ Z.of_nat 20)%Z with (10 ^ 20)%Z. lia. Qed.

Ltac pad_bounds := first [lia | apply pad20; lia].

Lemma sane_in_range t : sane_time t → time_in_range t.
Proof. intros Ht%sane_Unix. unfold time_in_range, Unix, unixToInternal in *. lia. Qed.

(** A time-index key gives back the key it was made for. *)
Lemma getKeyToDelete_roundtrip k t :
  sane_time t → getKeyToDeleteFromTTLByTime (getKeyForTTLByTime k t) = inr k.
Proof.
  intros Ht%sane_Unix. unfold getKeyToDeleteFromTTLByTime.
  set (head := ttlByTimePrefix +:+ "/" +:+ Sprintf_d 20 (Unix t) +:+ "/").
  assert (getKeyForTTLByTime k t = head +:+ k) as ->.
  { unfold head, getKeyForTTLByTime. by rewrite !str_app_assoc. }
  assert (String.length head =
    String.length (ttlByTimePrefix +:+ "/" +:+ Sprintf_d 20 0 +:+ "/")) as Hl.
  { unfold head. rewrite !length_str_app, !length_Sprintf_d by pad_bounds. done. }
  rewrite <-Hl. assert (HasPrefix (head +:+ k) ttlByTimePrefix = true) as ->.
  { apply HasPrefix_spec. unfold head. eexists. by rewrite !str_app_assoc. }
  simpl negb. cbv iota. rewrite length_str_app, (proj2 (Nat.ltb_ge _ _)) by lia.
  by rewrite drop_str_app.
Qed.

(** The reaper's range holds exactly the index keys of this second or before. *)
Lemma ttl_range k t n :
  sane_time t → sane_time n →
  in_range (getRangeForTTLByTime n).1 (getRangeForTTLByTime n).2 (getKeyForTTLByTime k t)
    = (Unix t <=? Unix n)%Z.
Proof.
  intros Ht%sane_Unix Hn%sane_Unix. apply bool_ext. split; intros H.
  - apply in_range_compare in H as [_ H]. unfold getRangeForTTLByTime, getKeyForTTLByTime in H.
    simpl snd in H. rewrite !str_compare_app in H.
    rewrite str_compare_app_len in H by (by rewrite !length_Sprintf_d by pad_bounds).
    rewrite Sprintf_d_compare in H by pad_bounds. apply Z.leb_le.
    destruct (Z.compare_spec (Unix t) (Unix n + 1)); [|lia|done].
    rewrite <-(str_app_nil_r "/") in H at 2. rewrite str_compare_app in H. by destruct k.
  - apply Z.leb_le in H. apply in_range_compare. split.
    + unfold getRangeForTTLByTime, getKeyForTTLByTime. simpl fst.
      rewrite <-str_app_assoc. rewrite str_compare_lt_prefix; [done|].
      intros E%(f_equal String.length). rewrite length_str_app, length_Sprintf_d in E by pad_bounds.
      simpl in E. lia.
    + unfold getRangeForTTLByTime, getKeyForTTLByTime. simpl snd.
      rewrite !str_compare_app.
      rewrite str_compare_app_len by (by rewrite !length_Sprintf_d by pad_bounds).
      rewrite Sprintf_d_compare by pad_bounds. by rewrite (proj2 (Z.compare_lt_iff _ _)) by lia.
Qed.

(** The instant recorded for a key, when there is one. *)
Definition expiry (m : gmap string string) (k : string) : option Z :=
  match time_UnmarshalBinary (default "" (m !! getKeyForTTLByKey k)) with
  | inl _ => None
  | inr e => Some e
  end.

(** The recorded instant is strictly before [now]. *)
Definition expired (m : gmap string string) (now : gotime) (k : string) : bool :=
  match expiry m k with Some e => (e <? t_ns now)%Z | None => false end.

(** The keys one pass over the index keys [ks] deletes. *)
Definition reaped_by (m : gmap string string) (now : gotime) (K : string) : list string :=
  match getKeyToDeleteFromTTLByTime K with
  | inl _ => []
  | inr k => if expired m now k then [getKeyForTTLByKey k; k] else []
  end.

Definition reaped (m : gmap string string) (now : gotime) (ks : list string) : list string :=
  ks ≫= reaped_by m now.

Lemma elem_of_reaped_user m now ks k :
  user_key k = true →
  k ∈ reaped m now ks ↔
    ∃ K, K ∈ ks ∧ getKeyToDeleteFromTTLByTime K = inr k ∧ expired m now k = true.
Proof.
  intros Hk. unfold reaped. rewrite list_elem_of_bind. unfold reaped_by. split.
  - intros (K & Hin & HK). destruct (getKeyToDeleteFromTTLByTime K) as [|k'] eqn:E; [set_solver|].
    destruct (expired m now k') eqn:Ex; [|set_solver].
    apply elem_of_cons in Hin as [->|Hin]; [done|]. apply list_elem_of_singleton in Hin as ->. eauto.
  - intros (K & HK & E & Ex). exists K. rewrite E, Ex. set_solver.
Qed.

Section reaper.
Context {P : Pebble} {contents : pdb → gmap string string} {healthy : pdb → Prop}
  {ops : pbatch → list batch_op}.
Context `{!PebbleSpec P contents healthy ops}.
Abbreviation view := (pebble_view (contents := contents)).
Abbreviation ok := (pebble_ok (healthy := healthy)).
Abbreviation all_keys := (all_keys (contents := contents)).

Lemma reap_keys_pass w n ks vs acc :
  ok w → length ks = length vs →
  reap_keys n (zip_with (IEntry None) ks vs) acc w = (Ret (acc ++ reaped (all_keys w) n ks), w).
Proof.
  intros Hok. revert vs acc. induction ks as [|K ks IH]; intros [|v vs] acc Hl; simplify_eq/=.
  { by rewrite app_nil_r. }
  change (reaped (all_keys w) n (K :: ks)) with (reaped_by (all_keys w) n K ++ reaped (all_keys w) n ks).
  unfold reaped_by. destruct (getKeyToDeleteFromTTLByTime K) as [|k]; [by apply IH|].
  run_with (try_ret _ _ _ _ (Get_all (contents := contents) w (getKeyForTTLByKey k) Hok)).
  unfold expired, expiry.
  destruct (time_UnmarshalBinary _) as [|e]; [by apply IH|].
  destruct (e <? t_ns n)%Z; rewrite IH by done; [|done]. by rewrite <-app_assoc.
Qed.

(** One tick, on the whole map: delete the reaped keys, then the whole range
    of the time index. *)
Lemma tick_all w :
  ok w →
  ∃ w', ttlWatcher_tick w = (Ret tt, w') ∧ ok w' ∧ now w' = now w ∧
    let '(from, to) := getRangeForTTLByTime (now w) in
    all_keys w' =
      filter (λ kv, in_range from to kv.1 = false)
        (delete_keys (reaped (all_keys w) (now w) (kv_range (all_keys w) from to).1) (all_keys w)).
Proof.
  intros Hok. pose proof Hok as [(d & Hd & Hh) _]. unfold ttlWatcher_tick. run_state.
  destruct (getRangeForTTLByTime (now w)) as [from to] eqn:Er.
  run_with (db_ptr_ok _ _ Hd). rewrite pebble_NewIter by done.
  assert (contents d = all_keys w) as Hc by (unfold PebbleDB.all_keys; by rewrite Hd).
  rewrite Hc.
  assert (length (kv_range (all_keys w) from to).1 = length (kv_range (all_keys w) from to).2) as Hlen.
  { simpl. by rewrite length_lookup_values. }
  run_with (reap_keys_pass w (now w) _ _ [] Hok Hlen). simpl app.
  destruct (DeleteAll_all (contents := contents)
    (reaped (all_keys w) (now w) (kv_range (all_keys w) from to).1) w Hok)
    as (w1 & E1 & Hok1 & Hm1 & Hn1).
  run_with (try_ret _ _ _ _ E1).
  destruct (db_write_spec (contents := contents) (pdb_DeleteRange from to) w1
    (filter (λ kv, in_range from to kv.1 = false) (all_keys w1)) Hok1) as (w2 & E2 & Hok2 & Hm2 & Hn2).
  { intros d' Hh' <-. by apply pebble_DeleteRange. }
  run_with (try_ret _ _ _ _ E2). exists w2.
  split_and!; [done|done|congruence|]. by rewrite Hm2, Hm1.
Qed.

(** The keys due at a tick. *)
Definition due (m : gmap string string) (n : gotime) (k : string) : Prop :=
  expired m n k = true ∧
  ∃ K, is_Some (m !! K) ∧ getKeyToDeleteFromTTLByTime K = inr k ∧
    in_range (getRangeForTTLByTime n).1 (getRangeForTTLByTime n).2 K = true.

Lemma range_not_user n k :
  user_key k = true → in_range (getRangeForTTLByTime n).1 (getRangeForTTLByTime n).2 k = false.
Proof.
  intros [s ->]%user_key_cons. by destruct (in_range _ _ _) eqn:E.
Qed.

Lemma tick_user w :
  ok w →
  ∃ w', ttlWatcher_tick w = (Ret tt, w') ∧ ok w' ∧ now w' = now w ∧
    ∀ k, user_key k = true →
      (due (all_keys w) (now w) k → view w' !! k = None) ∧
      (¬ due (all_keys w) (now w) k → view w' !! k = view w !! k).
Proof.
  intros Hok. destruct (tick_all w Hok) as (w' & E & Hok' & Hn & Hm). exists w'.
  split_and!; [done..|]. intros k Hk.
  destruct (getRangeForTTLByTime (now w)) as [from to] eqn:Er.
  pose proof (range_not_user (now w) k Hk) as Hr. rewrite Er in Hr. simpl in Hr.
  rewrite !lookup_view, Hm by done.
  assert (∀ m : gmap string string, (filter (λ kv, in_range from to kv.1 = false) m : gmap string string) !! k = m !! k) as ->.
  { intros m. destruct (m !! k) eqn:Ek; [by apply map_lookup_filter_Some|].
    apply map_lookup_filter_None. by left. }
  rewrite lookup_delete_keys.
  assert (k ∈ reaped (all_keys w) (now w) (kv_range (all_keys w) from to).1 ↔
    due (all_keys w) (now w) k) as Hdue.
  { rewrite elem_of_reaped_user by done. unfold due. rewrite Er. simpl.
    setoid_rewrite list_elem_of_filter. setoid_rewrite elem_of_sorted_keys. naive_solver. }
  split; intros Hd; [rewrite decide_True|rewrite decide_False]; tauto.
Qed.
End reaper.

Section ttl_theorems.
Context {P : Pebble} {contents : pdb → gmap string string} {healthy : pdb → Prop}
  {ops : pbatch → list batch_op}.
Context `{!PebbleSpec P contents healthy ops}.
Abbreviation view := (pebble_view (contents := contents)).
Abbreviation ok := (pebble_ok (healthy := healthy)).
Abbreviation all_keys := (all_keys (contents := contents)).

(** The wall clock moves. *)
Definition set_clock (t : gotime) (w : DataStore) : DataStore :=
  mkDataStore (db w) (done_closed w) t.

(** No time-index entry names [k]. *)
Definition unindexed (m : gmap string string) (k : string) : Prop :=
  ∀ K, is_Some (m !! K) → getKeyToDeleteFromTTLByTime K ≠ inr k.

Lemma ok_set_clock t w : ok w → zone_encodable t → ok (set_clock t w).
Proof. by intros [? _] ?. Qed.

Lemma ttl_keys_distinct k k' t : getKeyForTTLByKey k ≠ getKeyForTTLByTime k' t.
Proof. discriminate. Qed.

Lemma not_index_user k k' : user_key k = true → getKeyToDeleteFromTTLByTime k ≠ inr k'.
Proof. by intros [s ->]%user_key_cons. Qed.

Lemma not_index_ttlByKey k k' : getKeyToDeleteFromTTLByTime (getKeyForTTLByKey k) ≠ inr k'.
Proof. done. Qed.

(** After [SetWithTTL]: the recorded instant, and the index entry. *)
Lemma SetWithTTL_records k v ttl w :
  ok w → user_key k = true → sane_time (time_Add (now w) ttl) →
  ∃ w', SetWithTTL k v ttl w = (Ret tt, w') ∧ ok w' ∧ view w' !! k = Some v ∧ now w' = now w ∧
    expiry (all_keys w') k = Some (t_ns (time_Add (now w) ttl)) ∧
    is_Some (all_keys w' !! getKeyForTTLByTime k (time_Add (now w) ttl)) ∧
    (unindexed (all_keys w) k → ∀ K, is_Some (all_keys w' !! K) →
      getKeyToDeleteFromTTLByTime K = inr k → K = getKeyForTTLByTime k (time_Add (now w) ttl)).
Proof.
  intros Hok Hk He. pose proof Hok as [_ Hz].
  destruct (SetWithTTL_all (contents := contents) k v ttl w Hok) as (w' & enc & E & Hok' & Hn & Henc & Hm).
  destruct (time_roundtrip (time_Add (now w) ttl)) as (b & Hb & Hd); [done|by apply sane_in_range|].
  rewrite Henc in Hb. injection Hb as <-.
  exists w'. split_and!; [done|done| |done| | |].
  - rewrite lookup_view, Hm by done. rewrite 2!lookup_insert_ne by (by apply user_key_ne).
    apply lookup_insert_eq.
  - unfold expiry. rewrite Hm, lookup_insert_ne, lookup_insert_eq by done. simpl. by rewrite Hd.
  - rewrite Hm, lookup_insert_eq. eauto.
  - intros Hun K HK HKk. rewrite Hm in HK.
    destruct (decide (K = getKeyForTTLByTime k (time_Add (now w) ttl))) as [|Hne]; [done|].
    rewrite lookup_insert_ne in HK by done.
    destruct (decide (K = getKeyForTTLByKey k)) as [->|]; [done|].
    rewrite lookup_insert_ne in HK by done.
    destruct (decide (K = k)) as [->|]; [by apply not_index_user in HKk|].
    rewrite lookup_insert_ne in HK by done. by apply Hun in HK.
Qed.

(** A key written with a TTL survives a tick up to its expiry and is gone at
    the first tick after it. *)
Theorem SetWithTTL_tick k v ttl w n :
  ok w → user_key k = true → sane_time (time_Add (now w) ttl) →
  sane_time n → zone_encodable n →
  ∃ w1 w2, SetWithTTL k v ttl w = (Ret tt, w1) ∧
    ttlWatcher [EvTick n] w1 = (Ret tt, w2) ∧
    view w2 !! k = if (t_ns n <=? t_ns (now w) + ttl)%Z then Some v else None.
Proof.
  intros Hok Hk He Hn Hnz.
  destruct (SetWithTTL_records k v ttl w Hok Hk He) as (w1 & E & Hok1 & Hv & _ & Hexp & Hidx & _).
  destruct (tick_user (contents := contents) (set_clock n w1)) as (w2 & E2 & _ & _ & Hu).
  { by apply ok_set_clock. }
  exists w1, w2. split_and!; [done| |].
  { simpl. unfold mbind, M_bind, modify. fold (set_clock n w1). rewrite E2. done. }
  destruct (Hu k Hk) as [Hdel Hkeep]. change (all_keys (set_clock n w1)) with (all_keys w1) in *.
  change (view (set_clock n w1)) with (view w1) in *. change (now (set_clock n w1)) with n in *.
  simpl in Hexp. destruct (Z.leb_spec (t_ns n) (t_ns (now w) + ttl)).
  - rewrite Hkeep; [done|]. unfold due, expired. rewrite Hexp. intros [Hlt _].
    apply Z.ltb_lt in Hlt. lia.
  - apply Hdel. split.
    + unfold expired. rewrite Hexp. apply Z.ltb_lt. lia.
    + eexists. split; [exact Hidx|]. split; [by apply getKeyToDelete_roundtrip|].
      rewrite ttl_range by done. apply Z.leb_le. unfold Unix. simpl.
      apply Z.div_le_mono; [done|lia].
Qed.

Lemma ticks_keep_unindexed k evs w :
  ok w → user_key k = true → unindexed (all_keys w) k →
  Forall (λ t, zone_encodable t) evs →
  ∃ w', ttlWatcher (EvTick <$> evs) w = (Ret tt, w') ∧ view w' !! k = view w !! k.
Proof.
  intros Hok Hk Hun Hevs. revert w Hok Hun. induction Hevs as [|t evs Ht _ IH]; intros w Hok Hun.
  { by exists w. }
  pose proof (ok_set_clock t w Hok Ht) as Hok1.
  destruct (tick_user (contents := contents) (set_clock t w) Hok1) as (w1 & E1 & Hok2 & _ & Hu).
  destruct (tick_all (contents := contents) (set_clock t w) Hok1) as (w1' & E1' & _ & _ & Hm).
  rewrite E1 in E1'. injection E1' as <-.
  destruct (IH w1) as (w2 & E2 & Hv2); [done| |].
  { intros K HK. apply Hun. destruct (getRangeForTTLByTime (now (set_clock t w))) as [from to].
    rewrite Hm in HK. destruct HK as [x [HK _]%map_lookup_filter_Some].
    rewrite lookup_delete_keys in HK. case_decide; [done|]. eauto. }
  exists w2. split.
  - simpl. unfold mbind, M_bind, modify. fold (set_clock t w). rewrite E1. exact E2.
  - rewrite Hv2. apply (Hu k Hk). intros (_ & K & HK & HKk & _). by apply Hun in HKk.
Qed.

(** The reaper drops the whole time index of the current second, also for keys
    that expire later in that second: such a key is never reaped. *)
Theorem reaper_leaks_same_second k v ttl w n later :
  ok w → user_key k = true → unindexed (all_keys w) k →
  sane_time (time_Add (now w) ttl) → sane_time n → zone_encodable n →
  (t_ns n ≤ t_ns (now w) + ttl)%Z → Unix n = Unix (time_Add (now w) ttl) →
  Forall (λ t, zone_encodable t) later →
  ∃ w1 w2, SetWithTTL k v ttl w = (Ret tt, w1) ∧
    ttlWatcher (EvTick <$> n :: later) w1 = (Ret tt, w2) ∧
    view w2 !! k = Some v.
Proof.
  intros Hok Hk Hun He Hn Hnz Hle Hsec Hlater.
  destruct (SetWithTTL_records k v ttl w Hok Hk He) as (w1 & E & Hok1 & Hv & _ & Hexp & _ & Honly).
  pose proof (ok_set_clock n w1 Hok1 Hnz) as Hokc.
  destruct (tick_user (contents := contents) (set_clock n w1) Hokc) as (w2 & E2 & Hok2 & _ & Hu).
  destruct (tick_all (contents := contents) (set_clock n w1) Hokc) as (w2' & E2' & _ & _ & Hm).
  rewrite E2 in E2'. injection E2' as <-.
  destruct (ticks_keep_unindexed k later w2) as (w3 & E3 & Hv3); [done|done| |done|].
  { intros K HK HKk.
    destruct (getRangeForTTLByTime (now (set_clock n w1))) as [from to] eqn:Er.
    rewrite Hm in HK. destruct HK as [x [HK Hout]%map_lookup_filter_Some].
    rewrite lookup_delete_keys in HK. case_decide; [done|].
    pose proof (Honly Hun K ltac:(eauto) HKk) as ->. simpl in Hout.
    pose proof (ttl_range k (time_Add (now w) ttl) n He Hn) as Hr.
    simpl in Er. rewrite Er in Hr. simpl in Hr. rewrite Hr in Hout.
    apply Z.leb_gt in Hout. lia. }
  exists w1, w3. split_and!; [done| |].
  { simpl. unfold mbind, M_bind, modify. fold (set_clock n w1). rewrite E2. exact E3. }
  rewrite Hv3. destruct (Hu k Hk) as [_ Hkeep]. rewrite Hkeep; [exact Hv|].
  unfold due, expired. simpl in *. change (all_keys (set_clock n w1)) with (all_keys w1).
  rewrite Hexp. intros [Hlt _]. apply Z.ltb_lt in Hlt. lia.
Qed.

(** A plain [Set] of a key that still has a TTL record keeps the record: the
    new value is reaped when the old TTL expires. *)
Theorem Set_keeps_old_ttl k v v' ttl w n :
  ok w → user_key k = true → sane_time (time_Add (now w) ttl) →
  sane_time n → zone_encodable n → (t_ns (now w) + ttl < t_ns n)%Z →
  ∃ w1 w2 w3, SetWithTTL k v ttl w = (Ret tt, w1) ∧ Set_ k v' w1 = (Ret tt, w2) ∧
    view w2 !! k = Some v' ∧
    ttlWatcher [EvTick n] w2 = (Ret tt, w3) ∧ view w3 !! k = None.
Proof.
  intros Hok Hk He Hn Hnz Hlt.
  destruct (SetWithTTL_records k v ttl w Hok Hk He) as (w1 & E & Hok1 & Hv & _ & Hexp & Hidx & _).
  destruct (db_write_spec (contents := contents) (healthy := healthy) (pdb_Set k v') w1 (<[k:=v']> (all_keys w1)))
    as (w2 & E2 & Hok2 & Hm2 & _); [done| |].
  { intros d Hh <-. by apply pebble_Set. }
  destruct (tick_user (contents := contents) (set_clock n w2)) as (w3 & E3 & _ & _ & Hu).
  { by apply ok_set_clock. }
  exists w1, w2, w3. split_and!; [done|done| | |].
  - rewrite lookup_view, Hm2 by done. apply lookup_insert_eq.
  - simpl. unfold mbind, M_bind, modify. fold (set_clock n w2). rewrite E3. done.
  - apply (Hu k Hk). change (all_keys (set_clock n w2)) with (all_keys w2).
    change (now (set_clock n w2)) with n. split.
    + unfold expired, expiry. rewrite Hm2, lookup_insert_ne by (by apply not_eq_sym, user_key_ne).
      unfold expiry in Hexp. simpl in Hexp. destruct (time_UnmarshalBinary _); [done|].
      injection Hexp as ->. apply Z.ltb_lt. lia.
    + exists (getKeyForTTLByTime k (time_Add (now w) ttl)).
      split_and!; [|by apply getKeyToDelete_roundtrip|].
      * rewrite Hm2, lookup_insert_ne by (by apply not_eq_sym, user_key_ne). done.
      * rewrite ttl_range by done. apply Z.leb_le. unfold Unix. simpl.
        apply Z.div_le_mono; [done|lia].
Qed.

(** One tick removes exactly the due keys from the clients' view. *)
Theorem tick_reaps_exactly_due w :
  ok w →
  ∃ w', ttlWatcher_tick w = (Ret tt, w') ∧ ok w' ∧
    ∀ k, user_key k = true →
      (due (all_keys w) (now w) k → view w' !! k = None) ∧
      (¬ due (all_keys w) (now w) k → view w' !! k = view w !! k).
Proof.
  intros Hok. destruct (tick_user (contents := contents) w Hok) as (w' & E & Hok' & _ & H).
  exists w'. done.
Qed.
End ttl_theorems.

(** ** An in-memory engine

    A concrete engine that satisfies [PebbleSpec], on which the theorems above
    are instantiated and the model can be run. *)
Module MemEngine.
#[export] Instance mem_pebble : Pebble := {
  pdb := gmap string string;
  pbatch := list batch_op;
  pdb_Get k m := match m !! k with Some v => PFound v None | None => PNotFound end;
  pdb_Set k v m := (None, <[k:=v]> m);
  pdb_Delete k m := (None, delete k m);
  pdb_DeleteRange from to m := (None, filter (λ kv, in_range from to kv.1 = false) m);
  pdb_NewIter from to m :=
    (zip_with (IEntry None) (kv_range m from to).1 (kv_range m from to).2, None);
  pdb_NewBatch _ := [];
  batch_Set k v b := inr (b ++ [BSet k v]);
  batch_Delete k b := inr (b ++ [BDelete k]);
  batch_Commit b m := (None, foldl apply_op m b);
  pdb_Close _ := None
}.

Definition mem_contents (m : @pdb mem_pebble) : gmap string string := m.
Definition mem_healthy (_ : @pdb mem_pebble) : Prop := True.
Definition mem_ops (b : @pbatch mem_pebble) : list batch_op := b.

#[export] Instance mem_pebble_spec : PebbleSpec mem_pebble mem_contents mem_healthy mem_ops.
Proof. split; intros; try (eexists; split_and!; done); done. Qed.

(** An open store on an empty engine, at one second after the epoch. *)
Definition mem_store : DataStore := mkDataStore (Some (∅ : @pdb mem_pebble)) false (mkTime 1000000000 None).

Lemma mem_store_ok : pebble_ok (healthy := mem_healthy) mem_store.
Proof. split; [|done]. eexists. done. Qed.
End MemEngine.
Import MemEngine.

(** The witnesses run the store at one second, with a TTL of half a second. *)
Lemma pebble_implements_datastore_witness :
  DatastoreSpec DataStore (pebble_view (contents := mem_contents)) (pebble_ok (healthy := mem_healthy)).
Proof. exact (pebble_implements_datastore (ops := mem_ops)). Defined.

Lemma SetWithTTL_tick_witness :
  ∃ w1 w2, SetWithTTL "/k" "v" 500000000 mem_store = (Ret tt, w1) ∧
    ttlWatcher [EvTick (mkTime 1500000001 None)] w1 = (Ret tt, w2) ∧
    pebble_view (contents := mem_contents) w2 !! "/k" = None.
Proof.
  exact (SetWithTTL_tick (contents := mem_contents) (healthy := mem_healthy) (ops := mem_ops)
    "/k" "v" 500000000 mem_store (mkTime 1500000001 None) mem_store_ok eq_refl
    ltac:(unfold sane_time; simpl; lia) ltac:(unfold sane_time; simpl; lia) I).
Defined.

Lemma reaper_leaks_same_second_witness :
  ∃ w1 w2, SetWithTTL "/k" "v" 500000000 mem_store = (Ret tt, w1) ∧
    ttlWatcher (EvTick <$> [mkTime 1200000000 None; mkTime 9000000000 None]) w1 = (Ret tt, w2) ∧
    pebble_view (contents := mem_contents) w2 !! "/k" = Some "v".
Proof.
  apply (reaper_leaks_same_second (contents := mem_contents) (healthy := mem_healthy)
    (ops := mem_ops) "/k" "v" 500000000 mem_store (mkTime 1200000000 None) [mkTime 9000000000 None]
    mem_store_ok eq_refl); [|unfold sane_time; simpl; lia..|done|simpl; lia|done|].
  - intros K [v Hv]. done.
  - by repeat constructor.
Defined.

Lemma Set_keeps_old_ttl_witness :
  ∃ w1 w2 w3, SetWithTTL "/k" "v" 500000000 mem_store = (Ret tt, w1) ∧
    Set_ "/k" "w" w1 = (Ret tt, w2) ∧
    pebble_view (contents := mem_contents) w2 !! "/k" = Some "w" ∧
    ttlWatcher [EvTick (mkTime 1600000000 None)] w2 = (Ret tt, w3) ∧
    pebble_view (contents := mem_contents) w3 !! "/k" = None.
Proof.
  apply (Set_keeps_old_ttl (contents := mem_contents) (healthy := mem_healthy) (ops := mem_ops)
    "/k" "v" "w" 500000000 mem_store (mkTime 1600000000 None) mem_store_ok eq_refl);
    [unfold sane_time; simpl; lia..|done|simpl; lia].
Defined.

Lemma tick_reaps_exactly_due_witness :
  ∃ w', ttlWatcher_tick mem_store = (Ret tt, w') ∧ pebble_ok (healthy := mem_healthy) w'.
Proof.
  destruct (tick_reaps_exactly_due (contents := mem_contents) (healthy := mem_healthy)
    (ops := mem_ops) mem_store mem_store_ok) as (w' & E & Hok & _).
  eauto.
Defined.
