(* ===== verification/MemStore.v ===== *)
(** * A concrete datastore

    The PebbleDB wrapper on the in-memory engine: the store on which the
    theorems about the clients of the datastore are instantiated. *)

From S2P Require Import Prelude GoLib Datastore PebbleDB.
Import MemEngine.

Module Mem.
Definition St : Type := @DataStore mem_pebble.
#[export] Instance datastore : Datastore St := PebbleDatastore.
Definition view : St → gmap string string := pebble_view (contents := mem_contents).
Definition ok : St → Prop := pebble_ok (healthy := mem_healthy).
#[export] Instance datastore_spec : DatastoreSpec St view ok :=
  pebble_datastore_spec (contents := mem_contents) (healthy := mem_healthy) (ops := mem_ops).

(** The open store with the given keys. *)
Definition store (m : gmap string string) : St := mkDataStore (Some (m : @pdb mem_pebble)) false (mkTime 0 None).

Lemma store_ok m : ok (store m).
Proof. split; [|done]. by eexists. Qed.

Lemma view_empty : view (store ∅) = ∅.
Proof. reflexivity. Qed.

(** A store with any keys a client can write. *)
Lemma store_with m : (∀ k, is_Some (m !! k) → user_key k = true) → ∃ s, ok s ∧ view s = m.
Proof.
  induction m as [|k v m Hk IH] using map_ind; intros Hm.
  - exists (store ∅). split; [apply store_ok|apply view_empty].
  - destruct IH as (s & Hs & Hv).
    { intros k' Hk'. apply Hm. rewrite lookup_insert_is_Some'. by right. }
    destruct (spec_Set (view := view) (ok := ok) s k v Hs) as (s' & _ & Hs' & Hv').
    { apply Hm. rewrite lookup_insert_eq. eauto. }
    exists s'. split; [done|]. by rewrite Hv', Hv.
Qed.
End Mem.
