(* ===== verification/Etcd.v ===== *)
(** * The etcd datastore

    [src/vizier/utils/datastore/etcd/etcd.go] and [etcd_utils.go]: the datastore
    interface on an etcd cluster.  The client library is the parameter
    [EtcdClient] with its documented behaviour [EtcdSpec].  Its transactions
    take a bounded number of operations and bytes, so [DeleteAll] goes through
    [createBatches]. *)

From S2P Require Import Prelude GoLib Datastore.

(** ** [etcd_utils.go]: splitting operations into transactions *)

Definition maxTxnOps : nat := 128.
Definition maxNumBytes : Z := 1048576.

Section batches.
Context {Op : Type} (ValueBytes : Op → string).

Definition opBytes (op : Op) : Z := Z.of_nat (String.length (ValueBytes op)).

Definition ErrOpTooLarge : error :=
  ErrMsg "clientv3 operation bytes larger than max request bytes".

(** The loop; [currBatch] is nil exactly when it is empty. *)
Fixpoint createBatches_loop (ops : list Op) (batches : list (list Op))
    (currBatch : list Op) (currBatchBytes : Z) : error + list (list Op) :=
  match ops with
  | [] => inr (match currBatch with [] => batches | _ => batches ++ [currBatch] end)
  | op :: ops =>
    if (maxNumBytes <? opBytes op)%Z then inl ErrOpTooLarge
    else if bool_decide (length currBatch = maxTxnOps)
            || (maxNumBytes <? currBatchBytes + opBytes op)%Z
    then createBatches_loop ops (batches ++ [currBatch]) [op] (opBytes op)
    else createBatches_loop ops batches (currBatch ++ [op]) (currBatchBytes + opBytes op)
  end.

Definition createBatches (ops : list Op) : error + list (list Op) :=
  createBatches_loop ops [] [] 0.

(** Bytes of a batch. *)
Definition batch_bytes (b : list Op) : Z := foldr (λ op n, opBytes op + n)%Z 0%Z b.

(** A batch a transaction can take. *)
Definition batch_fits (b : list Op) : Prop :=
  b ≠ [] ∧ length b ≤ maxTxnOps ∧ (batch_bytes b ≤ maxNumBytes)%Z.

(** The batch cannot take [op] as well. *)
Definition batch_full_for (b : list Op) (op : Op) : Prop :=
  length b = maxTxnOps ∨ (maxNumBytes < batch_bytes b + opBytes op)%Z.

(** No batch could take the first operation of the next one. *)
Definition batches_greedy (bs : list (list Op)) : Prop :=
  ∀ i b b' op, bs !! i = Some b → bs !! Datatypes.S i = Some b' → head b' = Some op →
    batch_full_for b op.

Lemma opBytes_nonneg op : (0 ≤ opBytes op)%Z.
Proof. unfold opBytes. lia. Qed.

Lemma batch_bytes_snoc b op : batch_bytes (b ++ [op]) = (batch_bytes b + opBytes op)%Z.
Proof. induction b as [|o b IH]; simpl; lia. Qed.

Lemma batches_greedy_snoc bs c op :
  batches_greedy (bs ++ [c]) → batch_full_for c op → batches_greedy ((bs ++ [c]) ++ [[op]]).
Proof.
  intros Hg Hf i b b' o Hi Hj Ho.
  assert (i < length (bs ++ [c])).
  { apply lookup_lt_Some in Hj. rewrite !length_app in *. simpl in *. lia. }
  rewrite lookup_app_l in Hi by lia.
  destruct (decide (Datatypes.S i = length (bs ++ [c]))) as [E|].
  - rewrite E, lookup_app_r, Nat.sub_diag in Hj by lia. injection Hj as <-. injection Ho as <-.
    rewrite length_app in E. simpl in E.
    rewrite lookup_app_r in Hi by lia. replace (i - length bs) with 0 in Hi by lia.
    by injection Hi as <-.
  - rewrite lookup_app_l in Hj by lia. eauto.
Qed.

(** Extending the last batch keeps its head, and the others. *)
Lemma batches_greedy_extend bs c op :
  c ≠ [] → batches_greedy (bs ++ [c]) → batches_greedy (bs ++ [c ++ [op]]).
Proof.
  intros Hc Hg i b b' o Hi Hj Ho.
  assert (i < length bs).
  { apply lookup_lt_Some in Hj. rewrite !length_app in *. simpl in *. lia. }
  rewrite lookup_app_l in Hi by lia.
  destruct (decide (Datatypes.S i = length bs)) as [E|].
  - rewrite E, lookup_app_r, Nat.sub_diag in Hj by lia. injection Hj as <-.
    eapply (Hg i b c); [by rewrite lookup_app_l by lia| |].
    + by rewrite E, lookup_app_r, Nat.sub_diag by lia.
    + by destruct c.
  - rewrite lookup_app_l in Hj by lia. eapply (Hg i b b'); [by rewrite lookup_app_l by lia| |done].
    by rewrite lookup_app_l by lia.
Qed.

(** The loop from a batch under construction. *)
Lemma createBatches_loop_spec ops bs c :
  batch_fits c → Forall batch_fits bs → batches_greedy (bs ++ [c]) →
  if existsb (λ op, (maxNumBytes <? opBytes op)%Z) ops
  then createBatches_loop ops bs c (batch_bytes c) = inl ErrOpTooLarge
  else ∃ bs', createBatches_loop ops bs c (batch_bytes c) = inr bs' ∧
    concat bs' = concat bs ++ c ++ ops ∧ Forall batch_fits bs' ∧ batches_greedy bs'.
Proof.
  revert bs c. induction ops as [|op ops IH]; intros bs c Hc Hbs Hg.
  { destruct Hc as (Hne & Hlen & Hb). destruct c as [|o c]; [done|]. simpl.
    eexists. split_and!; [done| | |done].
    - rewrite concat_app. simpl. by rewrite !app_nil_r.
    - apply Forall_app. split; [done|]. apply Forall_singleton. split_and!; done. }
  cbn [existsb createBatches_loop]. destruct (Z.ltb_spec maxNumBytes (opBytes op)) as [|Hop]; [done|].
  simpl orb. pose proof (opBytes_nonneg op). destruct Hc as (Hne & Hlen & Hb).
  destruct (bool_decide (length c = maxTxnOps) || (maxNumBytes <? batch_bytes c + opBytes op)%Z) eqn:E.
  - assert (batch_bytes [op] = opBytes op) as <- by (simpl; lia).
    assert (batch_full_for c op) as Hfull.
    { apply orb_true_iff in E as [E|E]; [left; by apply bool_decide_eq_true in E|right; by apply Z.ltb_lt]. }
    assert (batch_fits [op]) as Hfit by (split_and!; [done|unfold maxTxnOps; simpl; lia|simpl; lia]).
    assert (Forall batch_fits (bs ++ [c])) as Hall.
    { apply Forall_app. split; [done|]. apply Forall_singleton. split_and!; done. }
    specialize (IH (bs ++ [c]) [op] Hfit Hall (batches_greedy_snoc bs c op Hg Hfull)).
    destruct (existsb _ ops); [exact IH|]. destruct IH as (bs' & E' & C & F & G).
    exists bs'. split_and!; [done| |done..].
    rewrite C, concat_app. simpl. by rewrite app_nil_r, <-app_assoc.
  - apply orb_false_iff in E as [E1 E2]. apply bool_decide_eq_false in E1. apply Z.ltb_ge in E2.
    rewrite <-batch_bytes_snoc. specialize (IH bs (c ++ [op])).
    assert (batch_fits (c ++ [op])) as Hf.
    { split_and!; [by destruct c| |by rewrite batch_bytes_snoc]. rewrite length_app. simpl. lia. }
    destruct (existsb _ ops); [by apply IH, batches_greedy_extend|].
    destruct IH as (bs' & E' & C & F & G); [done|done|by apply batches_greedy_extend|].
    exists bs'. split_and!; [done| |done..]. rewrite C. by rewrite <-app_assoc.
Qed.

Lemma createBatches_ok ops :
  if existsb (λ op, (maxNumBytes <? opBytes op)%Z) ops
  then createBatches ops = inl ErrOpTooLarge
  else ∃ bs, createBatches ops = inr bs ∧
    concat bs = ops ∧ Forall batch_fits bs ∧ batches_greedy bs.
Proof.
  destruct ops as [|op ops].
  { simpl. exists []. split_and!; [done..|]. intros i b b' o Hi. by destruct i. }
  unfold createBatches. cbn [existsb createBatches_loop].
  destruct (Z.ltb_spec maxNumBytes (opBytes op)) as [|Hop]; [done|]. pose proof (opBytes_nonneg op).
  rewrite bool_decide_eq_false_2 by done. rewrite (proj2 (Z.ltb_ge maxNumBytes (0 + opBytes op))) by lia.
  simpl orb. cbv iota.
  replace (0 + opBytes op)%Z with (batch_bytes [op]) by (simpl; lia).
  apply (createBatches_loop_spec ops [] [op]).
  - split_and!; [done|unfold maxTxnOps; simpl; lia|simpl; lia].
  - constructor.
  - intros i b b' o Hi Hj. by destruct i.
Qed.

(** The operations of the batches in order are the operations given; every batch
    is non-empty, holds at most [maxTxnOps] operations and [maxNumBytes] value
    bytes, and could not take the first operation of the next one; the call
    fails exactly when some operation alone is larger than a transaction. *)
Theorem createBatches_correct ops :
  if existsb (λ op, (maxNumBytes <? opBytes op)%Z) ops
  then createBatches ops = inl ErrOpTooLarge
  else ∃ bs, createBatches ops = inr bs ∧
    concat bs = ops ∧ Forall batch_fits bs ∧ batches_greedy bs.
Proof. apply createBatches_ok. Qed.
End batches.

(** ** [etcd.go]: the wrapper *)

Class EtcdClient := {
  etcd : Type;
  etcd_Op : Type;
  etcd_Resp : Type;
  OpDelete : string → etcd_Op;
  Op_ValueBytes : etcd_Op → string;
  (** [Put] with the lease to attach, if any. *)
  client_Put : string → string → option Z → etcd → option error * etcd;
  client_Grant : Z → etcd → (error + Z) * etcd;
  (** Serializable reads: one key, a range, the keys with a prefix. *)
  client_Get : string → etcd → error + list (string * string);
  client_GetRange : string → string → etcd → error + list (string * string);
  client_GetPrefix : string → etcd → error + list (string * string);
  client_Delete : string → etcd → option error * etcd;
  client_DeletePrefix : string → etcd → option error * etcd;
  client_Txn : list etcd_Op → etcd → (error + list etcd_Resp) * etcd;
  client_Close : etcd → option error * etcd
}.

(** The documented behaviour of a reachable cluster.  [effect] is what an
    operation does to the map, [op_size] the bytes it takes in a request; a
    transaction is accepted up to [maxTxnOps] operations and 1.5 MiB. *)
Class EtcdSpec (C : EtcdClient) (contents : etcd → gmap string string) (healthy : etcd → Prop)
    (effect : etcd_Op → gmap string string → gmap string string)
    (op_size : etcd_Op → Z) : Prop := {
  etcd_Put_spec c k v lease : healthy c →
    ∃ c', client_Put k v lease c = (None, c') ∧ healthy c' ∧ contents c' = <[k:=v]> (contents c);
  etcd_Grant_spec c secs : healthy c →
    ∃ lease c', client_Grant secs c = (inr lease, c') ∧ healthy c' ∧ contents c' = contents c;
  etcd_Get_spec c k : healthy c →
    client_Get k c = inr (match contents c !! k with Some v => [(k, v)] | None => [] end);
  etcd_GetRange_spec c from to : healthy c →
    client_GetRange from to c =
      inr (zip (kv_range (contents c) from to).1 (kv_range (contents c) from to).2);
  etcd_GetPrefix_spec c p : healthy c →
    client_GetPrefix p c =
      inr (zip (kv_prefix (contents c) p).1 (kv_prefix (contents c) p).2);
  etcd_Delete_spec c k : healthy c →
    ∃ c', client_Delete k c = (None, c') ∧ healthy c' ∧ contents c' = delete k (contents c);
  etcd_DeletePrefix_spec c p : healthy c →
    ∃ c', client_DeletePrefix p c = (None, c') ∧ healthy c' ∧
      contents c' = delete_prefix p (contents c);
  etcd_Txn_spec c ops : healthy c → ops ≠ [] → length ops ≤ 128 →
    (foldr (λ o n, op_size o + n) 0 ops ≤ 1572864)%Z →
    ∃ r c', client_Txn ops c = (inr r, c') ∧ healthy c' ∧
      contents c' = foldl (λ m o, effect o m) (contents c) ops;
  etcd_OpDelete_effect k m : effect (OpDelete k) m = delete k m;
  etcd_OpDelete_value k : Op_ValueBytes (OpDelete k) = "";
  etcd_OpDelete_size k : (op_size (OpDelete k) ≤ Z.of_nat (String.length k) + 64)%Z
}.

Section etcd.
Context {C : EtcdClient}.

(** The wrapper: the client and whether [once] has run. *)
Record EtcdStore := mkEtcdStore { client : etcd; once_done : bool }.

Definition client_call {A} (f : etcd → (error + A) * etcd) : M EtcdStore A := λ w,
  let '(r, c) := f (client w) in
  (match r with inl e => Err e | inr a => Ret a end, mkEtcdStore c (once_done w)).

Definition client_write (f : etcd → option error * etcd) : M EtcdStore unit :=
  client_call (λ c, let '(e, c') := f c in
    (match e with Some e => inl e | None => inr tt end, c')).

Definition client_read {A} (f : etcd → error + A) : M EtcdStore A :=
  client_call (λ c, (f c, c)).

Definition Set_ (key value : string) : M EtcdStore unit :=
  client_write (client_Put key value None).

(** [int64(ttl.Seconds())]: whole seconds, truncated. *)
Definition ttl_seconds (ttl : Z) : Z := Z.quot ttl 1000000000.

Definition SetWithTTL (key value : string) (ttl : Z) : M EtcdStore unit :=
  leaseID ← client_call (client_Grant (ttl_seconds ttl));
  client_write (client_Put key value (Some leaseID)).

Definition Get (key : string) : M EtcdStore (option string) :=
  kvs ← client_read (client_Get key);
  match kvs with
  | [] => mret None
  | kv :: _ => mret (Some kv.2)
  end.

Definition kvsToSlices (kvs : list (string * string)) : list string * list string :=
  (kvs.*1, kvs.*2).

Definition GetWithRange (from to : string) : M EtcdStore (list string * list string) :=
  kvs ← client_read (client_GetRange from to);
  mret (kvsToSlices kvs).

Definition GetWithPrefix (prefix : string) : M EtcdStore (list string * list string) :=
  kvs ← client_read (client_GetPrefix prefix);
  mret (kvsToSlices kvs).

Definition Delete (key : string) : M EtcdStore unit := client_write (client_Delete key).

Fixpoint batchOps_loop (batches : list (list etcd_Op)) (totalOutput : list etcd_Resp)
    : M EtcdStore (list etcd_Resp) :=
  match batches with
  | [] => mret totalOutput
  | batch :: batches =>
    output ← client_call (client_Txn batch);
    batchOps_loop batches (totalOutput ++ output)
  end.

Definition batchOps (ops : list etcd_Op) : M EtcdStore (list etcd_Resp) :=
  batches ← lift_sum (createBatches Op_ValueBytes ops);
  batchOps_loop batches [].

Definition DeleteAll (keys : list string) : M EtcdStore unit :=
  _ ← batchOps (OpDelete <$> keys);
  mret tt.

Definition DeleteWithPrefix (prefix : string) : M EtcdStore unit :=
  client_write (client_DeletePrefix prefix).

(** [once.Do]: only the first [Close] reaches the client. *)
Definition Close : M EtcdStore unit := λ w,
  if once_done w then (Ret tt, w)
  else let '(e, c) := client_Close (client w) in
       (match e with Some e => Err e | None => Ret tt end, mkEtcdStore c true).

#[export] Instance EtcdDatastore : Datastore EtcdStore := {
  ds_Get := Get;
  ds_GetWithRange := GetWithRange;
  ds_GetWithPrefix := GetWithPrefix;
  ds_Set := Set_;
  ds_SetWithTTL := SetWithTTL;
  ds_Delete := Delete;
  ds_DeleteAll := DeleteAll;
  ds_DeleteWithPrefix := DeleteWithPrefix;
  ds_Close := Close
}.
End etcd.

(** ** What the wrapper does on a reachable cluster *)

Section refinement.
Context {C : EtcdClient} {contents : etcd → gmap string string} {healthy : etcd → Prop}
  {effect : etcd_Op → gmap string string → gmap string string} {op_size : etcd_Op → Z}.
Context `{!EtcdSpec C contents healthy effect op_size}.

Definition etcd_view (w : EtcdStore) : gmap string string := contents (client w).
Definition etcd_ok (w : EtcdStore) : Prop := healthy (client w).

Lemma client_call_ret {A} (f : etcd → (error + A) * etcd) w a c :
  f (client w) = (inr a, c) → client_call f w = (Ret a, mkEtcdStore c (once_done w)).
Proof. intros E. unfold client_call. by rewrite E. Qed.

Lemma client_write_spec f w m :
  (∃ c', f (client w) = (None, c') ∧ healthy c' ∧ contents c' = m) →
  ∃ w', client_write f w = (Ret tt, w') ∧ etcd_ok w' ∧ etcd_view w' = m.
Proof.
  intros (c' & E & H & Hm). unfold client_write, client_call. rewrite E. by eexists.
Qed.

Lemma zip_unzip {A B} (l : list A) (k : list B) :
  length l = length k → ((zip l k).*1, (zip l k).*2) = (l, k).
Proof.
  intros H. rewrite fst_zip, snd_zip by lia. done.
Qed.

(** Bytes a transaction of deletes of short keys takes. *)
Lemma deletes_size ks :
  Forall (λ k, String.length k ≤ 4096) ks → length ks ≤ 128 →
  (foldr (λ o n, op_size o + n) 0 (OpDelete <$> ks) ≤ 1572864)%Z.
Proof.
  intros Hks Hlen.
  assert (foldr (λ o n, op_size o + n) 0 (OpDelete <$> ks) ≤ 4160 * Z.of_nat (length ks))%Z; [|lia].
  clear Hlen. induction Hks as [|k ks Hk _ IH]; [done|].
  rewrite fmap_cons. cbn [foldr length]. pose proof (etcd_OpDelete_size k). lia.
Qed.

Lemma foldl_OpDelete m ks :
  foldl (λ m o, effect o m) m (OpDelete <$> ks) = delete_keys ks m.
Proof.
  unfold delete_keys. revert m. induction ks as [|k ks IH]; intros m; simpl; [done|].
  by rewrite etcd_OpDelete_effect.
Qed.

Lemma delete_keys_app ks ks' m : delete_keys (ks ++ ks') m = delete_keys ks' (delete_keys ks m).
Proof. apply foldl_app. Qed.

Definition deletes (ks : list string) : list etcd_Op := OpDelete <$> ks.

Lemma batchOps_loop_deletes (kss : list (list string)) out w :
  etcd_ok w →
  Forall (λ ks, ks ≠ [] ∧ length ks ≤ 128 ∧ Forall (λ k, String.length k ≤ 4096) ks) kss →
  ∃ out' w', batchOps_loop (deletes <$> kss) out w = (Ret out', w') ∧ etcd_ok w' ∧
    etcd_view w' = delete_keys (concat kss) (etcd_view w).
Proof.
  intros Hok Hk. revert out w Hok. induction Hk as [|ks kss (Hne & Hlen & Hks) _ IH]; intros out w Hok.
  { by eexists _, w. }
  destruct (etcd_Txn_spec (client w) (OpDelete <$> ks) Hok) as (r & c' & E & Hh & Hm).
  { by destruct ks. }
  { by rewrite length_fmap. }
  { by apply deletes_size. }
  destruct (IH (out ++ r) (mkEtcdStore c' (once_done w)) Hh) as (out' & w' & E' & Hok' & Hv).
  exists out', w'. split_and!; [|done|].
  - rewrite fmap_cons. cbn [batchOps_loop]. run_with (client_call_ret _ w _ _ E). exact E'.
  - rewrite Hv. simpl concat. rewrite delete_keys_app. unfold etcd_view at 1. simpl.
    by rewrite Hm, foldl_OpDelete.
Qed.

(** Batches of deletes are the deletes of a split of the keys. *)
Lemma batches_of_deletes (bss : list (list etcd_Op)) keys :
  concat bss = OpDelete <$> keys → ∃ kss, bss = deletes <$> kss ∧ concat kss = keys.
Proof.
  revert keys. induction bss as [|b bss IH]; intros keys Hc; simpl in Hc.
  { exists []. by destruct keys. }
  symmetry in Hc. apply fmap_app_inv in Hc as (k1 & k2 & -> & Hc & ->).
  destruct (IH k2) as (kss & -> & <-); [done|]. by exists (k1 :: kss).
Qed.

(** Deleting any number of keys of at most 4096 bytes removes exactly those
    keys, although one transaction takes 128 operations at most. *)
Theorem etcd_DeleteAll_removes_keys keys w :
  etcd_ok w → Forall (λ k, String.length k ≤ 4096) keys →
  ∃ w', DeleteAll keys w = (Ret tt, w') ∧ etcd_ok w' ∧
    etcd_view w' = delete_keys keys (etcd_view w).
Proof.
  intros Hok Hk. pose proof (createBatches_ok Op_ValueBytes (OpDelete <$> keys)) as Hb.
  destruct (existsb _ _) eqn:Ex.
  { apply existsb_exists in Ex as (o & Ho%list_elem_of_In & Hbig).
    apply list_elem_of_fmap in Ho as (k & -> & _).
    unfold opBytes in Hbig. rewrite etcd_OpDelete_value in Hbig. done. }
  destruct Hb as (bs & E & Hc & Hf & _).
  destruct (batches_of_deletes bs keys Hc) as (kss & -> & <-).
  destruct (batchOps_loop_deletes kss [] w Hok) as (out & w' & E' & Hok' & Hv).
  { apply Forall_forall. intros ks Hin. split_and!.
    - apply (list_elem_of_fmap_2 deletes) in Hin.
      destruct (proj1 (Forall_forall _ _) Hf _ Hin) as (Hne & _). by destruct ks.
    - apply (list_elem_of_fmap_2 deletes) in Hin.
      destruct (proj1 (Forall_forall _ _) Hf _ Hin) as (_ & Hl & _). unfold deletes in Hl. by rewrite length_fmap in Hl.
    - apply Forall_forall. intros k Hkin. eapply (proj1 (Forall_forall _ _) Hk).
      apply list_elem_of_In, in_concat. exists ks. by rewrite <-!list_elem_of_In. }
  exists w'. split_and!; [|done..]. unfold DeleteAll, batchOps.
  erewrite bind_ret; [reflexivity|]. run_with (lift_sum_ret _ _ w E). exact E'.
Qed.
End refinement.

(** ** An in-memory cluster *)
Module MemEtcd.
#[export] Instance mem_etcd : EtcdClient := {
  etcd := gmap string string;
  etcd_Op := string;
  etcd_Resp := unit;
  OpDelete k := k;
  Op_ValueBytes _ := "";
  client_Put k v _ m := (None, <[k:=v]> m);
  client_Grant _ m := (inr 1%Z, m);
  client_Get k m := inr (match m !! k with Some v => [(k, v)] | None => [] end);
  client_GetRange from to m := inr (zip (kv_range m from to).1 (kv_range m from to).2);
  client_GetPrefix p m := inr (zip (kv_prefix m p).1 (kv_prefix m p).2);
  client_Delete k m := (None, delete k m);
  client_DeletePrefix p m := (None, delete_prefix p m);
  client_Txn ops m :=
    if (128 <? length ops)%nat then (inl (ErrMsg "etcdserver: too many operations in txn request"), m)
    else (inr [], foldl (λ m k, delete k m) m ops);
  client_Close m := (None, m)
}.

Definition mem_contents (m : @etcd mem_etcd) : gmap string string := m.
Definition mem_healthy (_ : @etcd mem_etcd) : Prop := True.
Definition mem_effect (o : @etcd_Op mem_etcd) (m : gmap string string) : gmap string string := delete o m.
Definition mem_size (o : @etcd_Op mem_etcd) : Z := Z.of_nat (String.length o).

#[export] Instance mem_etcd_spec : EtcdSpec mem_etcd mem_contents mem_healthy mem_effect mem_size.
Proof.
  split; intros; try (eexists; split_and!; done); try done.
  - by eexists 1%Z, _.
  - change (@etcd_Op mem_etcd) with string in *. eexists [], _.
    split_and!; [cbn [client_Txn mem_etcd]; by rewrite (proj2 (Nat.ltb_ge 128 (length ops)))|done|done].
  - unfold mem_size. simpl. lia.
Qed.
End MemEtcd.
Import MemEtcd.

Lemma etcd_DeleteAll_removes_keys_witness :
  ∃ w', DeleteAll ["/a"; "/b"] (mkEtcdStore ({["/a" := "1"; "/c" := "2"]} : @etcd MemEtcd.mem_etcd) false)
      = (Ret tt, w') ∧ etcd_view (contents := MemEtcd.mem_contents) w' !! "/a" = None.
Proof.
  destruct (etcd_DeleteAll_removes_keys (contents := MemEtcd.mem_contents)
    (healthy := MemEtcd.mem_healthy) (effect := MemEtcd.mem_effect) (op_size := MemEtcd.mem_size)
    ["/a"; "/b"] (mkEtcdStore ({["/a" := "1"; "/c" := "2"]} : @etcd MemEtcd.mem_etcd) false) I)
    as (w' & E & _ & Hv).
  - repeat constructor; vm_compute; lia.
  - exists w'. split; [exact E|]. rewrite Hv. vm_compute. reflexivity.
Defined.
