(* ===== verification/Uuid.v ===== *)
(** * Identifiers and protobuf messages

    [src/utils/uuid.go] (conversions between UUIDs and their protobuf form),
    [src/shared/k8s/upid.go] and [src/shared/types/gotypes/types.go] (process
    identifiers), and the two pieces of code that are not in the repository and
    that every store uses: the UUID library [gofrs/uuid] ([UUIDLib]) and the
    generated marshalling code of the messages ([Proto]). *)

From S2P Require Import Prelude GoLib.
From Stdlib Require Import Ascii.

(** ** The UUID library *)

Class UUIDLib := {
  uuid : Type;
  #[global] uuid_eq_dec :: EqDecision uuid;
  #[global] uuid_countable :: Countable uuid;
  uuid_Nil : uuid;
  uuid_Bytes : uuid → string;
  uuid_FromBytes : string → error + uuid;
  uuid_String : uuid → string;
  uuid_FromString : string → error + uuid
}.

(** A lower-case hexadecimal digit or a dash. *)
Definition uuid_char (a : ascii) : bool :=
  let n := N_of_ascii a in
  ((48 <=? n) && (n <=? 57) || (97 <=? n) && (n <=? 102) || (n =? 45))%N.

Fixpoint all_chars (p : ascii → bool) (s : string) : bool :=
  match s with EmptyString => true | String a s => p a && all_chars p s end.

(** Sixteen bytes, and the canonical 36-character form. *)
Class UUIDSpec (U : UUIDLib) : Prop := {
  uuid_Bytes_length u : String.length (uuid_Bytes u) = 16;
  uuid_FromBytes_Bytes u : uuid_FromBytes (uuid_Bytes u) = inr u;
  uuid_FromBytes_16 b : String.length b = 16 → ∃ u, uuid_FromBytes b = inr u ∧ uuid_Bytes u = b;
  uuid_Nil_Bytes : uuid_Bytes uuid_Nil = repeat_str zero 16;
  uuid_String_length u : String.length (uuid_String u) = 36;
  uuid_String_chars u : all_chars uuid_char (uuid_String u) = true;
  uuid_FromString_String u : uuid_FromString (uuid_String u) = inr u
}.

(** ** Generated message code *)

Class Proto (A : Type) := {
  Marshal : A → error + string;
  Unmarshal : string → error + A
}.

(** A message that was marshalled is read back as it was. *)
Class ProtoSpec (A : Type) `{!Proto A} : Prop := {
  proto_roundtrip a : ∃ b, Marshal a = inr b ∧ Unmarshal b = inr a
}.

(** The bytes of a message. *)
Definition enc {X} `{!Proto X} (x : X) : string := match Marshal x with inr b => b | inl _ => "" end.

Lemma Marshal_enc {X} `{!Proto X} `{!ProtoSpec X} (x : X) : Marshal x = inr (enc x).
Proof. unfold enc. by destruct (proto_roundtrip x) as (b & -> & _). Qed.

Lemma Unmarshal_enc {X} `{!Proto X} `{!ProtoSpec X} (x : X) : Unmarshal (enc x) = inr x.
Proof. unfold enc. by destruct (proto_roundtrip x) as (b & -> & E). Qed.

(** ** [utils/uuid.go] *)

(** [uuidpb.UUID]; both halves are [uint64]. *)
Record UUIDpb := mkUUIDpb { HighBits : Z; LowBits : Z }.

#[export] Instance UUIDpb_eq_dec : EqDecision UUIDpb.
Proof. solve_decision. Defined.

Definition uint64 (z : Z) : Prop := (0 ≤ z < 2 ^ 64)%Z.
Definition UUIDpb_wf (pb : UUIDpb) : Prop := uint64 (HighBits pb) ∧ uint64 (LowBits pb).

Section uuid_go.
Context `{U : UUIDLib}.

Definition UUIDFromProto (pb : option UUIDpb) : error + uuid :=
  match pb with
  | None => inl (ErrMsg "nil proto given")
  | Some pb =>
    if negb (HighBits pb =? 0)%Z && negb (LowBits pb =? 0)%Z
    then uuid_FromBytes (be_bytes 8 (HighBits pb) +:+ be_bytes 8 (LowBits pb))
    else inl (ErrMsg "uuid data in proto is nil")
  end.

Definition UUIDFromProtoOrNil (pb : option UUIDpb) : uuid :=
  match UUIDFromProto pb with inr u => u | inl _ => uuid_Nil end.

Definition ProtoFromUUID (u : uuid) : UUIDpb :=
  let data := uuid_Bytes u in
  mkUUIDpb (be_val (String.substring 0 8 data) 0) (be_val (String.substring 8 8 data) 0).

Definition ProtoFromUUIDStrOrNil (s : string) : UUIDpb :=
  ProtoFromUUID (match uuid_FromString s with inr u => u | inl _ => uuid_Nil end).

Definition ProtoToUUIDStr (pb : option UUIDpb) : string := uuid_String (UUIDFromProtoOrNil pb).

Definition IsNilUUID (u : uuid) : bool := bool_decide (u = uuid_Nil).

Definition IsNilUUIDProto (pb : option UUIDpb) : bool :=
  match pb with
  | None => true
  | Some pb => negb (negb (HighBits pb =? 0)%Z && negb (LowBits pb =? 0)%Z)
  end.

Definition AreSameUUID (pb1 pb2 : UUIDpb) : bool :=
  (HighBits pb1 =? HighBits pb2)%Z && (LowBits pb1 =? LowBits pb2)%Z.
End uuid_go.

(** Neither half is zero: the identifiers the conversions keep. *)
Definition good_uuid_pb (pb : UUIDpb) : Prop := HighBits pb ≠ 0%Z ∧ LowBits pb ≠ 0%Z.

Lemma str_split_at n s :
  n ≤ String.length s → ∃ a b, s = a +:+ b ∧ String.length a = n.
Proof.
  revert n. induction s as [|c s IH]; intros n Hn; simpl in Hn.
  - exists "", "". simpl. split; [done|lia].
  - destruct n as [|n]; [by exists "", (String c s)|].
    destruct (IH n) as (a & b & -> & <-); [lia|].
    exists (String c a), b. by rewrite str_app_cons.
Qed.

Lemma substring_all s : String.substring 0 (String.length s) s = s.
Proof. rewrite <-(str_app_nil_r s) at 2. apply substring_0_app. Qed.

Lemma be_val_range s : (0 ≤ be_val s 0 < 2 ^ (8 * Z.of_nat (String.length s)))%Z.
Proof.
  assert (∀ acc, 0 ≤ acc → acc * 2 ^ (8 * Z.of_nat (String.length s)) ≤ be_val s acc
    < (acc + 1) * 2 ^ (8 * Z.of_nat (String.length s)))%Z as H; [|specialize (H 0%Z); lia].
  induction s as [|c s IH]; intros acc Ha; simpl be_val; rewrite ?length_str_cons; [simpl; lia|].
  pose proof (N_ascii_bounded c).
  specialize (IH (acc * 256 + Z.of_N (N_of_ascii c))%Z ltac:(lia)).
  replace (8 * Z.of_nat (Datatypes.S (String.length s)))%Z
    with (8 * Z.of_nat (String.length s) + 8)%Z by lia.
  rewrite Z.pow_add_r by lia. change (2 ^ 8)%Z with 256%Z. nia.
Qed.

Lemma be_val_add s a b :
  be_val s (a + b) = (a * 2 ^ (8 * Z.of_nat (String.length s)) + be_val s b)%Z.
Proof.
  revert a b. induction s as [|c s IH]; intros a b; simpl be_val; rewrite ?length_str_cons; [simpl; lia|].
  replace ((a + b) * 256 + Z.of_N (N_of_ascii c))%Z
    with (a * 256 + (b * 256 + Z.of_N (N_of_ascii c)))%Z by lia.
  rewrite IH. replace (8 * Z.of_nat (Datatypes.S (String.length s)))%Z
    with (8 * Z.of_nat (String.length s) + 8)%Z by lia.
  rewrite Z.pow_add_r by lia. change (2 ^ 8)%Z with 256%Z. lia.
Qed.

(** Bytes are determined by their value. *)
Lemma be_bytes_be_val s : be_bytes (String.length s) (be_val s 0) = s.
Proof.
  assert (∀ acc, 0 ≤ acc → be_bytes (String.length s) (be_val s acc) = s)%Z as H; [|by apply H].
  induction s as [|c s IH]; intros acc Ha; [done|]. rewrite length_str_cons.
  pose proof (N_ascii_bounded c). simpl be_val. cbn [be_bytes]. rewrite IH by lia. f_equal.
  set (w := (acc * 256 + Z.of_N (N_of_ascii c))%Z).
  assert (be_val s w / 2 ^ (8 * Z.of_nat (String.length s)) = w)%Z as ->.
  { rewrite <-(Z.add_0_r w), be_val_add, Z.add_0_r.
    pose proof (be_val_range s). rewrite Z.div_add_l by lia. rewrite Z.div_small by lia. lia. }
  unfold w. replace (acc * 256 + Z.of_N (N_of_ascii c))%Z with (Z.of_N (N_of_ascii c) + acc * 256)%Z by lia.
  rewrite Z.mod_add, Z.mod_small by lia. rewrite N2Z.id. apply ascii_N_embedding.
Qed.

Section uuid_theorems.
Context `{U : UUIDLib} `{!UUIDSpec U}.

(** The two halves of the bytes of a UUID. *)
Lemma uuid_halves u :
  ∃ a b, uuid_Bytes u = a +:+ b ∧ String.length a = 8 ∧ String.length b = 8 ∧
    ProtoFromUUID u = mkUUIDpb (be_val a 0) (be_val b 0).
Proof.
  pose proof (uuid_Bytes_length u) as Hl.
  destruct (str_split_at 8 (uuid_Bytes u)) as (a & b & E & Ha); [lia|].
  rewrite E, length_str_app in Hl. assert (String.length b = 8) as Hb by lia.
  exists a, b. split_and!; [done..|]. unfold ProtoFromUUID. rewrite E. f_equal.
  - by rewrite <-Ha, substring_0_app.
  - rewrite <-Ha at 1. rewrite substring_skip. by rewrite <-Hb, substring_all.
Qed.

Lemma ProtoFromUUID_wf u : UUIDpb_wf (ProtoFromUUID u).
Proof.
  destruct (uuid_halves u) as (a & b & _ & Ha & Hb & ->).
  pose proof (be_val_range a). pose proof (be_val_range b). rewrite Ha, Hb in *. done.
Qed.

Lemma ProtoFromUUID_inj u v : ProtoFromUUID u = ProtoFromUUID v → u = v.
Proof.
  destruct (uuid_halves u) as (a & b & Eu & Ha & Hb & ->).
  destruct (uuid_halves v) as (c & d & Ev & Hc & Hd & ->). intros [= E1 E2].
  assert (a = c) as -> by (by rewrite <-(be_bytes_be_val a), <-(be_bytes_be_val c), E1, Ha, Hc).
  assert (b = d) as -> by (by rewrite <-(be_bytes_be_val b), <-(be_bytes_be_val d), E2, Hb, Hd).
  pose proof (uuid_FromBytes_Bytes u) as H1. rewrite Eu, <-Ev, uuid_FromBytes_Bytes in H1. congruence.
Qed.

Lemma UUIDFromProto_ProtoFromUUID u :
  good_uuid_pb (ProtoFromUUID u) → UUIDFromProto (Some (ProtoFromUUID u)) = inr u.
Proof.
  destruct (uuid_halves u) as (a & b & E & Ha & Hb & ->). intros [H1 H2].
  unfold UUIDFromProto. cbn [HighBits LowBits] in *.
  rewrite (proj2 (Z.eqb_neq _ _) H1), (proj2 (Z.eqb_neq _ _) H2). cbn [negb andb].
  rewrite <-(be_bytes_be_val a), <-(be_bytes_be_val b), Ha, Hb in E.
  rewrite <-E. apply uuid_FromBytes_Bytes.
Qed.

Lemma UUIDFromProto_inr pb u :
  UUIDpb_wf pb → UUIDFromProto (Some pb) = inr u → good_uuid_pb pb ∧ ProtoFromUUID u = pb.
Proof.
  intros [Hh Hl]. unfold UUIDFromProto. destruct pb as [h l]; cbn [HighBits LowBits] in *.
  destruct (Z.eqb_spec h 0) as [|Hh0], (Z.eqb_spec l 0) as [|Hl0]; cbn [negb andb]; try done.
  intros Hu. split; [done|].
  destruct (uuid_FromBytes_16 (be_bytes 8 h +:+ be_bytes 8 l)) as (u' & E & Eb).
  { by rewrite length_str_app, !length_be_bytes. }
  rewrite Hu in E. injection E as <-.
  destruct (uuid_halves u) as (a & b & E & Ha & Hb & ->). rewrite Eb in E.
  apply str_app_inj_len in E as [<- <-]; [|by rewrite length_be_bytes, Ha].
  rewrite !be_val_be_bytes. change (2 ^ (8 * Z.of_nat 8))%Z with (2 ^ 64)%Z.
  unfold uint64 in *. by rewrite !Z.mod_small.
Qed.

Lemma IsNilUUIDProto_good pb : IsNilUUIDProto (Some pb) = false ↔ good_uuid_pb pb.
Proof.
  unfold good_uuid_pb, IsNilUUIDProto.
  destruct (Z.eqb_spec (HighBits pb) 0), (Z.eqb_spec (LowBits pb) 0); naive_solver.
Qed.

Lemma UUIDFromProto_nil pb : IsNilUUIDProto (Some pb) = true → ∃ e, UUIDFromProto (Some pb) = inl e.
Proof. unfold IsNilUUIDProto, UUIDFromProto. destruct (_ && _); [done|eauto]. Qed.

Lemma UUIDFromProto_good pb : IsNilUUIDProto (Some pb) = false → ∃ u, UUIDFromProto (Some pb) = inr u.
Proof.
  unfold IsNilUUIDProto, UUIDFromProto. destruct (_ && _); [|done]. intros _.
  destruct (uuid_FromBytes_16 (be_bytes 8 (HighBits pb) +:+ be_bytes 8 (LowBits pb)))
    as (u & E & _); [|by exists u]. by rewrite length_str_app, !length_be_bytes.
Qed.

(** Converting to the protobuf form and back gives the UUID, and the other way
    round, exactly when both 64-bit halves are non-zero; otherwise the
    conversion back gives the nil UUID. *)
Theorem uuid_proto_roundtrip u pb :
  UUIDpb_wf pb →
  UUIDpb_wf (ProtoFromUUID u) ∧
  UUIDFromProtoOrNil (Some (ProtoFromUUID u)) =
    (if IsNilUUIDProto (Some (ProtoFromUUID u)) then uuid_Nil else u) ∧
  (IsNilUUIDProto (Some pb) = false → ProtoFromUUID (UUIDFromProtoOrNil (Some pb)) = pb).
Proof.
  intros Hpb. split_and!; [apply ProtoFromUUID_wf| |].
  - unfold UUIDFromProtoOrNil. destruct (IsNilUUIDProto _) eqn:E.
    + by destruct (UUIDFromProto_nil _ E) as [e ->].
    + by rewrite UUIDFromProto_ProtoFromUUID by (by apply IsNilUUIDProto_good).
  - intros E. unfold UUIDFromProtoOrNil. destruct (UUIDFromProto (Some pb)) as [|v] eqn:Eu.
    + apply UUIDFromProto_good in E as [v E]. by rewrite Eu in E.
    + by apply UUIDFromProto_inr.
Qed.

Lemma uuid_String_inj u v : uuid_String u = uuid_String v → u = v.
Proof.
  intros E. pose proof (uuid_FromString_String u) as H. rewrite E, uuid_FromString_String in H.
  congruence.
Qed.

Lemma all_chars_no_sep p s sep :
  (∀ a, p a = true → a ≠ sep) → all_chars p s = true → no_sep sep s = true.
Proof.
  intros Hp. induction s as [|a s IH]; simpl; [done|]. intros [Ha Hs]%andb_true_iff.
  rewrite IH by done. by rewrite bool_decide_eq_true_2 by auto.
Qed.

(** The printed UUID is a clean path component. *)
Lemma good_comp_uuid u : good_comp (uuid_String u) = true.
Proof.
  pose proof (uuid_String_length u) as Hl. apply good_comp_spec. split_and!.
  - apply (all_chars_no_sep uuid_char); [|apply uuid_String_chars]. by intros a Ha ->.
  - intros E. by rewrite E in Hl.
  - intros E. by rewrite E in Hl.
  - intros E. by rewrite E in Hl.
Qed.
End uuid_theorems.

Lemma AreSameUUID_eq pb1 pb2 : AreSameUUID pb1 pb2 = bool_decide (pb1 = pb2).
Proof.
  apply bool_ext. unfold AreSameUUID. rewrite andb_true_iff, !Z.eqb_eq, bool_decide_eq_true.
  destruct pb1, pb2; naive_solver.
Qed.

(** ** [gotypes/types.go] and [k8s/upid.go] *)

Record UInt128 := mkUInt128 { High : Z; Low : Z }.

#[export] Instance UInt128_eq_dec : EqDecision UInt128.
Proof. solve_decision. Defined.

Definition UInt128_wf (u : UInt128) : Prop := uint64 (High u) ∧ uint64 (Low u).

Definition UInt128_Equal (u o : UInt128) : bool := (High u =? High o)%Z && (Low u =? Low o)%Z.

Definition UInt128_Compare (u o : UInt128) : Z :=
  if (High o <? High u)%Z then 1
  else if (High u <? High o)%Z then -1
  else if (Low o <? Low u)%Z then 1
  else if (Low u <? Low o)%Z then -1
  else 0.

(** [uint32(x)] and [uint64(x)] keep the low bits. *)
Definition to_uint32 (z : Z) : Z := (z mod 2 ^ 32)%Z.
Definition to_uint64 (z : Z) : Z := (z mod 2 ^ 64)%Z.

Definition ASIDFromUPID (u : UInt128) : Z := to_uint32 (Z.shiftr (High u) 32).
Definition PIDFromUPID (u : UInt128) : Z := to_uint32 (High u).
Definition StartTSFromUPID (u : UInt128) : Z := Low u.

Definition StringFromUPID (u : UInt128) : string :=
  FormatUint (ASIDFromUPID u) +:+ ":" +:+ FormatUint (PIDFromUPID u) +:+ ":" +:+
    FormatUint (StartTSFromUPID u).

Definition UPIDFromString (upidString : string) : error + UInt128 :=
  match split ":" upidString with
  | [s0; s1; s2] =>
    match ParseInt s0 64 with
    | inl e => inl e
    | inr asid =>
      match ParseInt s1 64 with
      | inl e => inl e
      | inr pid =>
        match ParseInt s2 64 with
        | inl e => inl e
        | inr ts =>
          inr (mkUInt128
            (to_uint64 (to_uint64 (Z.shiftl (to_uint64 asid) 32) + to_uint64 pid)) (to_uint64 ts))
        end
      end
    end
  | _ => inl (ErrMsg ("UPID string malformed: '" +:+ upidString +:+ "'"))
  end.

Lemma no_colon_digits s v a : digits_val s a = Some v → no_sep ":" s = true.
Proof.
  revert a. induction s as [|c s IH]; intros a; [done|]. rewrite digits_val_cons.
  destruct (is_digit c) eqn:E; [|done]. intros H%IH. simpl. rewrite H.
  rewrite bool_decide_eq_true_2; [done|]. by intros ->.
Qed.

Lemma no_colon_uint n : (0 ≤ n)%Z → no_sep ":" (FormatUint n) = true.
Proof. intros Hn. eapply no_colon_digits. by apply FormatUint_val. Qed.

Lemma split_StringFromUPID u :
  UInt128_wf u →
  split ":" (StringFromUPID u) =
    [FormatUint (ASIDFromUPID u); FormatUint (PIDFromUPID u); FormatUint (StartTSFromUPID u)].
Proof.
  intros [Hh Hl]. unfold StringFromUPID.
  assert (0 ≤ ASIDFromUPID u ∧ 0 ≤ PIDFromUPID u)%Z as [H1 H2].
  { split; apply Z.mod_pos_bound; lia. }
  rewrite !str_app_cons, !str_app_empty, !split_app_sep.
  rewrite !split_no_sep by (apply no_colon_uint; first [done|apply Hl]). done.
Qed.

Lemma UPID_high u :
  UInt128_wf u → (High u = ASIDFromUPID u * 2 ^ 32 + PIDFromUPID u)%Z.
Proof.
  intros [Hh _]. unfold ASIDFromUPID, PIDFromUPID, to_uint32, uint64 in *.
  rewrite Z.shiftr_div_pow2 by lia.
  rewrite (Z.mod_small (High u / 2 ^ 32)).
  - rewrite Z.mul_comm. apply Z.div_mod. lia.
  - split; [apply Z.div_pos; lia|]. apply Z.div_lt_upper_bound; lia.
Qed.

Lemma StringFromUPID_inj u v :
  UInt128_wf u → UInt128_wf v → StringFromUPID u = StringFromUPID v → u = v.
Proof.
  intros Hu Hv E%(f_equal (split ":")). rewrite !split_StringFromUPID in E by done.
  injection E as E1 E2 E3.
  assert (∀ a b, 0 ≤ a → 0 ≤ b → FormatUint a = FormatUint b → a = b)%Z as Hinj.
  { intros a b Ha Hb Hab. pose proof (FormatUint_val a Ha) as H1.
    rewrite Hab, FormatUint_val in H1 by done. congruence. }
  apply Hinj in E1; [|apply Z.mod_pos_bound; lia..].
  apply Hinj in E2; [|apply Z.mod_pos_bound; lia..].
  apply Hinj in E3; [|apply Hu|apply Hv].
  pose proof (UPID_high u Hu) as Hhu. pose proof (UPID_high v Hv) as Hhv.
  rewrite E1, E2, <-Hhv in Hhu. destruct u, v; simpl in *. by unfold StartTSFromUPID in *; simplify_eq/=.
Qed.

(** A printed process identifier is read back, provided its start timestamp is
    below [2^63]: [UPIDFromString] reads it with [strconv.Atoi]. *)
Theorem UPID_string_roundtrip u :
  UInt128_wf u →
  UPIDFromString (StringFromUPID u) = if (Low u <? 2 ^ 63)%Z then inr u else inl ErrRange.
Proof.
  intros Hwf. unfold UPIDFromString. rewrite split_StringFromUPID by done.
  assert (0 ≤ ASIDFromUPID u < 2 ^ 32 ∧ 0 ≤ PIDFromUPID u < 2 ^ 32)%Z as [H1 H2].
  { split; apply Z.mod_pos_bound; lia. }
  pose proof (UPID_high u Hwf) as Hh. pose proof Hwf as [Hu Hl]. unfold uint64 in *.
  rewrite <-(FormatInt_nonneg (ASIDFromUPID u)), <-(FormatInt_nonneg (PIDFromUPID u)) by lia.
  rewrite !ParseInt_FormatInt by lia.
  unfold StartTSFromUPID. destruct (Z.ltb_spec (Low u) (2 ^ 63)).
  - rewrite <-(FormatInt_nonneg (Low u)), ParseInt_FormatInt by lia.
    f_equal. destruct u as [h l]; simpl in *. unfold to_uint64.
    rewrite Z.shiftl_mul_pow2 by lia. f_equal; [|by rewrite Z.mod_small by lia].
    rewrite !(Z.mod_small (ASIDFromUPID _)), (Z.mod_small (PIDFromUPID _)) by lia.
    rewrite (Z.mod_small (_ * _)) by lia. rewrite <-Hh. by apply Z.mod_small.
  - unfold ParseInt. pose proof (FormatUint_nonempty (Low u) ltac:(lia)) as Hne.
    pose proof (FormatUint_val (Low u) ltac:(lia)) as Hv.
    destruct (FormatUint (Low u)) as [|c s] eqn:E; [done|].
    assert (is_digit c = true) as Hc.
    { rewrite digits_val_cons in Hv. by destruct (is_digit c). }
    rewrite decide_False by (by intros ->). rewrite decide_False by (by intros ->).
    rewrite Hv. change (64 - 1)%Z with 63%Z. by rewrite (proj2 (Z.ltb_ge _ _)) by lia.
Qed.

(** ** Concrete instances

    UUIDs as their sixteen bytes, printed in the canonical form, and messages
    that are strings; the theorems that assume [UUIDSpec] and [ProtoSpec] are
    instantiated on them. *)
Module MemUuid.
Definition mem_uuid : Type := { s : string | (String.length s =? 16)%nat = true }.

Definition unhex_digit (a : ascii) : option N :=
  let n := N_of_ascii a in
  if ((48 <=? n) && (n <=? 57))%N then Some (n - 48)%N
  else if ((97 <=? n) && (n <=? 102))%N then Some (n - 87)%N else None.

Fixpoint unhex (s : string) : option string :=
  match s with
  | String a (String b s) =>
    match unhex_digit a, unhex_digit b, unhex s with
    | Some x, Some y, Some t => Some (String (ascii_of_N (x * 16 + y)) t)
    | _, _, _ => None
    end
  | EmptyString => Some EmptyString
  | _ => None
  end.

Definition dashed (h : string) : string :=
  String.substring 0 8 h +:+ "-" +:+ String.substring 8 4 h +:+ "-" +:+
  String.substring 12 4 h +:+ "-" +:+ String.substring 16 4 h +:+ "-" +:+ String.substring 20 12 h.

Definition undashed (s : string) : string :=
  String.substring 0 8 s +:+ String.substring 9 4 s +:+ String.substring 14 4 s +:+
  String.substring 19 4 s +:+ String.substring 24 12 s.

Definition to_uuid (s : string) : error + mem_uuid :=
  match decide ((String.length s =? 16)%nat = true) with
  | left H => inr (exist _ s H)
  | right _ => inl (ErrMsg "uuid: UUID must be exactly 16 bytes long")
  end.

#[export] Instance mem_uuid_lib : UUIDLib := {
  uuid := mem_uuid;
  uuid_Nil := exist _ (repeat_str zero 16) eq_refl;
  uuid_Bytes u := `u;
  uuid_FromBytes := to_uuid;
  uuid_String u := dashed (Sprintf_x (`u));
  uuid_FromString s :=
    match unhex (undashed s) with
    | Some b => to_uuid b
    | None => inl (ErrMsg "uuid: incorrect UUID format")
    end
}.

Lemma hex_digit_facts n : (n < 16)%N →
  unhex_digit (hex_digit n) = Some n ∧ uuid_char (hex_digit n) = true.
Proof.
  intros Hn.
  assert (n = 0 ∨ n = 1 ∨ n = 2 ∨ n = 3 ∨ n = 4 ∨ n = 5 ∨ n = 6 ∨ n = 7 ∨ n = 8 ∨ n = 9 ∨
    n = 10 ∨ n = 11 ∨ n = 12 ∨ n = 13 ∨ n = 14 ∨ n = 15)%N as H by lia.
  repeat (destruct H as [->|H]; [done|]). by subst.
Qed.

Lemma hex_byte a : (N_of_ascii a / 16 < 16 ∧ N_of_ascii a mod 16 < 16)%N.
Proof.
  pose proof (N_ascii_bounded a). split; [apply N.Div0.div_lt_upper_bound|apply N.mod_lt]; lia.
Qed.

Lemma unhex_Sprintf_x s : unhex (Sprintf_x s) = Some s.
Proof.
  induction s as [|a s IH]; [done|]. cbn [Sprintf_x unhex].
  destruct (hex_byte a) as [H1 H2].
  destruct (hex_digit_facts _ H1) as [-> _], (hex_digit_facts _ H2) as [-> _]. rewrite IH.
  rewrite N.mul_comm, <-N.div_mod by done. by rewrite ascii_N_embedding.
Qed.

(** The sixteen bytes, by name. *)
Lemma sixteen s : String.length s = 16 →
  ∃ a b c d e f g h i j k l m n o p, s =
    String a (String b (String c (String d (String e (String f (String g (String h
    (String i (String j (String k (String l (String m (String n (String o (String p ""))))))))))))))).
Proof.
  intros H. do 16 (destruct s as [|? s]; [done|]). destruct s; [|done].
  repeat eexists.
Qed.

Lemma undashed_dashed s : String.length s = 16 → undashed (dashed (Sprintf_x s)) = Sprintf_x s.
Proof. intros (?&?&?&?&?&?&?&?&?&?&?&?&?&?&?&?&->)%sixteen. reflexivity. Qed.

Lemma length_dashed s : String.length s = 16 → String.length (dashed (Sprintf_x s)) = 36.
Proof. intros (?&?&?&?&?&?&?&?&?&?&?&?&?&?&?&?&->)%sixteen. reflexivity. Qed.

Lemma all_chars_app p s t : all_chars p (s +:+ t) = all_chars p s && all_chars p t.
Proof. induction s as [|a s IH]; [done|]. rewrite str_app_cons. simpl. by rewrite IH, andb_assoc. Qed.

Lemma all_chars_substring p n m s : all_chars p s = true → all_chars p (String.substring n m s) = true.
Proof.
  revert n m. induction s as [|a s IH]; intros n m; simpl; [by destruct n, m|].
  intros [Ha Hs]%andb_true_iff. destruct n, m; simpl; rewrite ?Ha, ?IH by done; done.
Qed.

Lemma all_chars_hex s : all_chars uuid_char (Sprintf_x s) = true.
Proof.
  induction s as [|a s IH]; [done|]. cbn [Sprintf_x all_chars]. destruct (hex_byte a) as [H1 H2].
  destruct (hex_digit_facts _ H1) as [_ ->], (hex_digit_facts _ H2) as [_ ->]. done.
Qed.

Lemma to_uuid_proj (u : mem_uuid) : to_uuid (`u) = inr u.
Proof.
  unfold to_uuid. destruct u as [s H]. simpl. destruct (decide _) as [H'|]; [|done].
  f_equal. by apply (sig_eq_pi _).
Qed.

Lemma mem_uuid_length (u : mem_uuid) : String.length (`u) = 16.
Proof. destruct u as [s H]. exact (proj1 (Nat.eqb_eq _ _) H). Qed.

#[export] Instance mem_uuid_spec : UUIDSpec mem_uuid_lib.
Proof.
  split; simpl.
  - apply mem_uuid_length.
  - apply to_uuid_proj.
  - intros b Hb. apply Nat.eqb_eq in Hb. exists (exist _ b Hb). split; [|done].
    exact (to_uuid_proj (exist _ b Hb)).
  - done.
  - intros u. apply length_dashed, mem_uuid_length.
  - intros u. unfold dashed. rewrite !all_chars_app, !all_chars_substring by apply all_chars_hex. done.
  - intros u. rewrite undashed_dashed by apply mem_uuid_length. rewrite unhex_Sprintf_x.
    apply to_uuid_proj.
Qed.

(** A UUID with no zero half. *)
Definition uuid_1 : @uuid mem_uuid_lib := exist _ (repeat_str "a" 16) eq_refl.
Definition uuid_2 : @uuid mem_uuid_lib := exist _ (repeat_str "b" 16) eq_refl.
End MemUuid.
Import MemUuid.

Lemma uuid_proto_roundtrip_witness :
  UUIDFromProtoOrNil (Some (ProtoFromUUID uuid_1)) = uuid_1 ∧
  ProtoFromUUID (UUIDFromProtoOrNil (Some (mkUUIDpb 7 9))) = mkUUIDpb 7 9.
Proof.
  destruct (uuid_proto_roundtrip uuid_1 (mkUUIDpb 7 9)) as (_ & H1 & H2).
  - by repeat split.
  - split; [exact H1|by apply H2].
Defined.

Lemma UPID_string_roundtrip_witness :
  UPIDFromString (StringFromUPID (mkUInt128 (5 * 2 ^ 32 + 7) 9)) = inr (mkUInt128 (5 * 2 ^ 32 + 7) 9).
Proof. exact (UPID_string_roundtrip (mkUInt128 (5 * 2 ^ 32 + 7) 9) ltac:(by repeat split)). Defined.
