(* ===== verification/Messages.v ===== *)
(** * The messages the metadata service stores and sends

    The protobuf messages of the agent store and the query broker, as records of
    their fields ([agentpb/agent.proto], [storepb/store.proto],
    [shared/k8s/metadatapb/metadata.proto], [messagespb/messages.proto],
    [metadatapb/service.proto], [distributedpb/distributed_plan.proto],
    [common/base/statuspb/status.proto]).  A
    message-typed field of the generated Go struct is a pointer: an [option].
    A nil and an empty map or slice are one value. *)

From S2P Require Import Prelude GoLib Uuid.
From Stdlib Require Import Ascii.

(** ** Agents *)

Record AgentCapabilities := mkAgentCapabilities { CollectsData : bool }.

Record AgentParameters := mkAgentParameters { ProfilerStackTraceSamplePeriodMS : Z }.

Record KernelVersion := mkKernelVersion { kv_Version : Z; kv_MajorRev : Z; kv_MinorRev : Z }.

Record HostInfo := mkHostInfo {
  Hostname : string;
  PodName : string;
  HostIP : string;
  Kernel : option KernelVersion;
  KernelHeadersInstalled : bool
}.

Record AgentInfo := mkAgentInfo {
  ai_AgentID : option UUIDpb;
  ai_HostInfo : option HostInfo;
  ai_IPAddress : string;
  ai_Capabilities : option AgentCapabilities;
  ai_Parameters : option AgentParameters
}.

Record Agent := mkAgent {
  ag_Info : option AgentInfo;
  ag_CreateTimeNS : Z;
  ag_LastHeartbeatNS : Z;
  ag_ASID : Z
}.

(** ** Tables and the computed schema *)

Record ColumnInfo := mkColumnInfo {
  col_Name : string;
  col_DataType : Z;
  col_PatternType : Z;
  col_Desc : string;
  col_SemanticType : Z
}.

Record TableInfo := mkTableInfo {
  ti_Name : string;
  ti_Desc : string;
  ti_StartTimestampNS : Z;
  ti_StopTimestampNS : Z;
  ti_Columns : list ColumnInfo;
  ti_Tabletized : bool;
  ti_TabletizationKey : string
}.

Record ComputedSchema := mkComputedSchema {
  cs_Tables : list TableInfo;
  cs_TableNameToAgentIDs : gmap string (list UUIDpb)
}.

(** ** Statuses *)

(** [statuspb.Status]; the context is a packed message with its type name. *)
Record Status := mkStatus { st_ErrCode : Z; st_Msg : string; st_Context : option (string * string) }.

(** [statuspb.LifeCycleState]. *)
Inductive LifeCycleState : Type :=
| UNKNOWN_STATE | PENDING_STATE | RUNNING_STATE | FAILED_STATE | TERMINATED_STATE.

#[export] Instance LifeCycleState_eq_dec : EqDecision LifeCycleState.
Proof. solve_decision. Defined.

(** ** Data an agent holds *)

Record BloomFilter := mkBloomFilter { bf_Data : string; bf_NumHashes : Z }.

Record MetadataInfo := mkMetadataInfo {
  mi_MetadataFields : list Z;
  mi_Filter : option BloomFilter
}.

Record AgentDataInfo := mkAgentDataInfo { adi_MetadataInfo : option MetadataInfo }.

(** ** Processes *)

Record ProcessInfo := mkProcessInfo {
  pi_Name : string;
  pi_UPID : option UInt128;
  pi_StartTimestampNS : Z;
  pi_StopTimestampNS : Z;
  pi_ProcessArgs : string;
  pi_CID : string
}.

Record ProcessCreated := mkProcessCreated {
  pc_UPID : option UInt128;
  pc_StartTimestampNS : Z;
  pc_Cmdline : string;
  pc_CID : string
}.

Record ProcessTerminated := mkProcessTerminated {
  pt_UPID : option UInt128;
  pt_StopTimestampNS : Z
}.

(** ** Updates *)

Record AgentUpdateInfo := mkAgentUpdateInfo {
  aui_Schema : list TableInfo;
  aui_ProcessCreated : list ProcessCreated;
  aui_ProcessTerminated : list ProcessTerminated;
  aui_DoesUpdateSchema : bool;
  aui_Data : option AgentDataInfo
}.

Inductive agent_update : Type :=
| AgentUpdate_Deleted (deleted : bool)
| AgentUpdate_Agent (agent : Agent)
| AgentUpdate_DataInfo (data_info : AgentDataInfo).

Record AgentUpdate := mkAgentUpdate { au_AgentID : option UUIDpb; au_Update : agent_update }.

(** ** What the query broker is told *)

Record RelationColumn := mkRelationColumn {
  rc_ColumnName : string;
  rc_ColumnType : Z;
  rc_ColumnDesc : string;
  rc_PatternType : Z;
  rc_ColumnSemanticType : Z
}.

Record Relation := mkRelation { rel_Columns : list RelationColumn; rel_Desc : string }.

Record SchemaInfo := mkSchemaInfo {
  si_Name : string;
  si_Relation : Relation;
  si_AgentList : list UUIDpb
}.

(** [table_info] is not set by the code modelled here. *)
Record CarnotInfo := mkCarnotInfo {
  ci_QueryBrokerAddress : string;
  ci_AgentID : option UUIDpb;
  ci_HasGRPCServer : bool;
  ci_GRPCAddress : string;
  ci_HasDataStore : bool;
  ci_ProcessesData : bool;
  ci_AcceptsRemoteSources : bool;
  ci_ASID : Z;
  ci_MetadataInfo : option MetadataInfo;
  ci_SSLTargetName : string
}.

Record AgentUpdatesResponse := mkAgentUpdatesResponse {
  aur_AgentUpdates : list AgentUpdate;
  aur_AgentSchemas : list SchemaInfo;
  aur_AgentSchemasUpdated : bool;
  aur_EndOfVersion : bool
}.

(** ** A concrete encoding

    Every message type is countable, so messages can be numbered and a number
    written as bits: an instance of [Proto] on which the theorems that assume
    [ProtoSpec] are instantiated. *)
Module MemProto.
Ltac record_countable f g := refine (inj_countable' f g _); by intros [].

#[export] Instance UUIDpb_countable : Countable UUIDpb.
Proof. record_countable (λ u, (HighBits u, LowBits u)) (λ '(a, b), mkUUIDpb a b). Defined.
#[export] Instance UInt128_countable : Countable UInt128.
Proof. record_countable (λ u, (High u, Low u)) (λ '(a, b), mkUInt128 a b). Defined.

#[export] Instance AgentCapabilities_eq_dec : EqDecision AgentCapabilities.
Proof. solve_decision. Defined.
#[export] Instance AgentCapabilities_countable : Countable AgentCapabilities.
Proof. record_countable CollectsData mkAgentCapabilities. Defined.
#[export] Instance AgentParameters_eq_dec : EqDecision AgentParameters.
Proof. solve_decision. Defined.
#[export] Instance AgentParameters_countable : Countable AgentParameters.
Proof. record_countable ProfilerStackTraceSamplePeriodMS mkAgentParameters. Defined.
#[export] Instance KernelVersion_eq_dec : EqDecision KernelVersion.
Proof. solve_decision. Defined.
#[export] Instance KernelVersion_countable : Countable KernelVersion.
Proof.
  record_countable (λ k, (kv_Version k, kv_MajorRev k, kv_MinorRev k))
    (λ '(a, b, c), mkKernelVersion a b c).
Defined.
#[export] Instance HostInfo_eq_dec : EqDecision HostInfo.
Proof. solve_decision. Defined.
#[export] Instance HostInfo_countable : Countable HostInfo.
Proof.
  record_countable (λ h, (Hostname h, PodName h, HostIP h, Kernel h, KernelHeadersInstalled h))
    (λ '(a, b, c, d, e), mkHostInfo a b c d e).
Defined.
#[export] Instance AgentInfo_eq_dec : EqDecision AgentInfo.
Proof. solve_decision. Defined.
#[export] Instance AgentInfo_countable : Countable AgentInfo.
Proof.
  record_countable
    (λ i, (ai_AgentID i, ai_HostInfo i, ai_IPAddress i, ai_Capabilities i, ai_Parameters i))
    (λ '(a, b, c, d, e), mkAgentInfo a b c d e).
Defined.
#[export] Instance Agent_eq_dec : EqDecision Agent.
Proof. solve_decision. Defined.
#[export] Instance Agent_countable : Countable Agent.
Proof.
  record_countable (λ a, (ag_Info a, ag_CreateTimeNS a, ag_LastHeartbeatNS a, ag_ASID a))
    (λ '(a, b, c, d), mkAgent a b c d).
Defined.
#[export] Instance ColumnInfo_eq_dec : EqDecision ColumnInfo.
Proof. solve_decision. Defined.
#[export] Instance ColumnInfo_countable : Countable ColumnInfo.
Proof.
  record_countable (λ c, (col_Name c, col_DataType c, col_PatternType c, col_Desc c, col_SemanticType c))
    (λ '(a, b, c, d, e), mkColumnInfo a b c d e).
Defined.
#[export] Instance TableInfo_eq_dec : EqDecision TableInfo.
Proof. solve_decision. Defined.
#[export] Instance TableInfo_countable : Countable TableInfo.
Proof.
  record_countable (λ t, (ti_Name t, ti_Desc t, ti_StartTimestampNS t, ti_StopTimestampNS t,
      ti_Columns t, ti_Tabletized t, ti_TabletizationKey t))
    (λ '(a, b, c, d, e, f, g), mkTableInfo a b c d e f g).
Defined.
#[export] Instance ComputedSchema_eq_dec : EqDecision ComputedSchema.
Proof. solve_decision. Defined.
#[export] Instance ComputedSchema_countable : Countable ComputedSchema.
Proof.
  record_countable (λ c, (cs_Tables c, cs_TableNameToAgentIDs c)) (λ '(a, b), mkComputedSchema a b).
Defined.
#[export] Instance Status_eq_dec : EqDecision Status.
Proof. solve_decision. Defined.
#[export] Instance Status_countable : Countable Status.
Proof. record_countable (λ t, (st_ErrCode t, st_Msg t, st_Context t)) (λ '(a, b, c), mkStatus a b c). Defined.
#[export] Instance LifeCycleState_countable : Countable LifeCycleState.
Proof.
  refine (inj_countable'
    (λ s, match s with UNKNOWN_STATE => 0 | PENDING_STATE => 1 | RUNNING_STATE => 2 | FAILED_STATE => 3
          | TERMINATED_STATE => 4 end)
    (λ n, match n with 0 => UNKNOWN_STATE | 1 => PENDING_STATE | 2 => RUNNING_STATE | 3 => FAILED_STATE
          | _ => TERMINATED_STATE end) _); by intros [].
Defined.
#[export] Instance BloomFilter_eq_dec : EqDecision BloomFilter.
Proof. solve_decision. Defined.
#[export] Instance BloomFilter_countable : Countable BloomFilter.
Proof. record_countable (λ b, (bf_Data b, bf_NumHashes b)) (λ '(a, b), mkBloomFilter a b). Defined.
#[export] Instance MetadataInfo_eq_dec : EqDecision MetadataInfo.
Proof. solve_decision. Defined.
#[export] Instance MetadataInfo_countable : Countable MetadataInfo.
Proof.
  record_countable (λ m, (mi_MetadataFields m, mi_Filter m)) (λ '(a, b), mkMetadataInfo a b).
Defined.
#[export] Instance AgentDataInfo_eq_dec : EqDecision AgentDataInfo.
Proof. solve_decision. Defined.
#[export] Instance AgentDataInfo_countable : Countable AgentDataInfo.
Proof. record_countable adi_MetadataInfo mkAgentDataInfo. Defined.
#[export] Instance ProcessInfo_eq_dec : EqDecision ProcessInfo.
Proof. solve_decision. Defined.
#[export] Instance ProcessInfo_countable : Countable ProcessInfo.
Proof.
  record_countable (λ p, (pi_Name p, pi_UPID p, pi_StartTimestampNS p, pi_StopTimestampNS p,
      pi_ProcessArgs p, pi_CID p))
    (λ '(a, b, c, d, e, f), mkProcessInfo a b c d e f).
Defined.

Fixpoint bits (p : positive) : string :=
  match p with
  | xH => ""
  | xO p => String "0" (bits p)
  | xI p => String "1" (bits p)
  end.

Fixpoint unbits (s : string) : positive :=
  match s with
  | EmptyString => xH
  | String a s => if decide (a = "0"%char) then xO (unbits s) else xI (unbits s)
  end.

Lemma unbits_bits p : unbits (bits p) = p.
Proof. induction p as [p IH|p IH|]; simpl; [..|done]; by rewrite IH. Qed.

Definition count_Unmarshal {A} `{Countable A} (s : string) : error + A :=
  match decode (unbits s) with
  | Some a => inr a
  | None => inl (ErrMsg "proto: cannot parse")
  end.

#[export] Instance count_proto `{Countable A} : Proto A :=
  {| Marshal a := inr (bits (encode a)); Unmarshal := count_Unmarshal |}.

#[export] Instance count_proto_spec `{Countable A} : ProtoSpec A.
Proof.
  split. intros a. eexists. split; [done|]. simpl. unfold count_Unmarshal.
  by rewrite unbits_bits, decode_encode.
Qed.
End MemProto.
