(* ===== verification/MessageBus.v ===== *)
(** * The message bus

    The connection to NATS, a third-party service, and the names of its topics
    ([src/vizier/utils/messagebus/topic.go]). *)

From S2P Require Import Prelude GoLib Uuid.

(** [nats.Conn]. *)
Class NatsConn := {
  nconn : Type;
  nc_Publish : string → string → nconn → option error * nconn
}.

(** [log] is the sequence of messages delivered, with their topics, while the
    connection is up. *)
Class NatsSpec (N : NatsConn) (log : nconn → list (string * string)) (up : nconn → Prop) : Prop := {
  nats_Publish c topic msg : up c →
    ∃ c', nc_Publish topic msg c = (None, c') ∧ up c' ∧ log c' = log c ++ [(topic, msg)]
}.

Definition V2CTopic (topic : string) : string := "v2c." +:+ topic.
Definition C2VTopic (topic : string) : string := "c2v." +:+ topic.

Definition AgentTopic (agentID : string) : string := path_Join ["Agent"; agentID].
Definition AgentUUIDTopic `{U : UUIDLib} (agentID : uuid) : string := AgentTopic (uuid_String agentID).

(** A connection that keeps what is published. *)
Module MemNats.
#[export] Instance mem_conn : NatsConn :=
  {| nconn := list (string * string); nc_Publish t m l := (None, l ++ [(t, m)]) |}.
Definition mem_log (c : @nconn mem_conn) : list (string * string) := c.
Definition mem_up (c : @nconn mem_conn) : Prop := True.
#[export] Instance mem_conn_spec : NatsSpec mem_conn mem_log mem_up.
Proof. split. intros c topic msg _. by eexists. Qed.
End MemNats.
