(* ===== verification/StoreLib.v ===== *)
(** * Directories of messages

    Several stores keep one message per UUID under the keys
    [/<directory>/<uuid>].  [dir_rep] says that a key-value map represents such
    a directory; the lemmas give the effect of the datastore's reads and writes
    on it, once for all stores.  [keyed_rep] is the same for messages under any
    injective family of keys with a common prefix. *)

From S2P Require Import Prelude GoLib Datastore Uuid.
From Stdlib Require Import Ascii.

(** The first component of a key. *)
Definition key_dir (k : string) : string :=
  match split "/" k with _ :: d :: _ => d | _ => "" end.

Lemma key_dir_mkkey d cs :
  Forall (λ c, no_sep "/" c = true) (d :: cs) → key_dir (mkkey (d :: cs)) = d.
Proof. intros H. unfold key_dir. by rewrite split_mkkey. Qed.

Lemma HasPrefix_dir k d :
  no_sep "/" d = true → HasPrefix k ("/" +:+ d +:+ "/") = true → key_dir k = d.
Proof.
  intros Hd [t ->]%HasPrefix_spec. unfold key_dir. rewrite !str_app_assoc.
  change ("/" +:+ d +:+ "/" +:+ t) with ("" +:+ String "/" (d +:+ String "/" t)).
  rewrite !split_app_sep, (split_no_sep _ d) by done. done.
Qed.

Lemma key_dir_ne k k' : key_dir k ≠ key_dir k' → k ≠ k'.
Proof. by intros H ->. Qed.

Lemma user_key_mkkey cs : user_key (mkkey cs) = true.
Proof. apply user_key_cons. by eexists. Qed.

Lemma HasPrefix_refl k : HasPrefix k k = true.
Proof. apply HasPrefix_spec. exists "". by rewrite str_app_nil_r. Qed.

(** Extending a key. *)
Lemma path_Join_mkkey cs l :
  cs ≠ [] → Forall (λ c, good_comp c = true) cs → Forall (λ c, good_comp c = true) l →
  path_Join (mkkey cs :: l) = mkkey (cs ++ l).
Proof.
  intros Hne Hcs Hl. apply path_Join_dir; [|done|done]. unfold path_comps.
  change ([String "/" (join "/" cs)] ≫= split "/") with (split "/" (mkkey cs) ++ []).
  rewrite app_nil_r, split_mkkey; [|done|].
  - rewrite filter_cons_False by (intros H; by apply H). clear Hne. induction Hcs as [|c cs Hc _ IH]; [done|].
    by rewrite filter_good, IH.
  - eapply Forall_impl; [exact Hcs|]. by intros c [H _]%good_comp_spec.
Qed.

(** ** Messages by UUID *)
Section directory.
Context `{U : UUIDLib} `{!UUIDSpec U} {X : Type} `{!Proto X} (dir : string).

Definition dkey (id : uuid) : string := mkkey [dir; uuid_String id].

Definition dir_rep (m : gmap string string) (A : gmap uuid X) : Prop :=
  (∀ id, match A !! id with
         | Some x => ∃ b, m !! dkey id = Some b ∧ Unmarshal b = inr x
         | None => m !! dkey id = None
         end) ∧
  (∀ k, key_dir k = dir → is_Some (m !! k) → ∃ id, k = dkey id).

Hypothesis good_dir : good_comp dir = true.

Lemma dir_no_sep : no_sep "/" dir = true.
Proof using good_dir. by apply good_comp_spec in good_dir as [? _]. Qed.

Lemma uuid_no_sep u : no_sep "/" (uuid_String u) = true.
Proof using Type*. pose proof (good_comp_uuid u) as H. by apply good_comp_spec in H as [? _]. Qed.

Lemma dkey_comps id : Forall (λ c, no_sep "/" c = true) [dir; uuid_String id].
Proof using Type*. repeat constructor; [apply dir_no_sep|apply uuid_no_sep]. Qed.

Lemma split_dkey id : split "/" (dkey id) = [""; dir; uuid_String id].
Proof using Type*. unfold dkey. rewrite split_mkkey by (done || apply dkey_comps). done. Qed.

Lemma key_dir_dkey id : key_dir (dkey id) = dir.
Proof using Type*. unfold key_dir. by rewrite split_dkey. Qed.

Lemma dkey_inj id id' : dkey id = dkey id' → id = id'.
Proof using Type*.
  intros E%(f_equal (split "/")). rewrite !split_dkey in E. injection E as E.
  by apply uuid_String_inj.
Qed.

Lemma HasPrefix_dkey id : HasPrefix (dkey id) ("/" +:+ dir +:+ "/") = true.
Proof using Type*.
  apply HasPrefix_mkkey; [apply dkey_comps|apply dir_no_sep|done].
Qed.

(** ** Reads *)

Lemma dir_lookup m A id :
  dir_rep m A → is_Some (m !! dkey id) ↔ is_Some (A !! id).
Proof using Type.
  intros [H _]. specialize (H id). destruct (A !! id) as [x|].
  - destruct H as (b & -> & _). split; eauto.
  - rewrite H. done.
Qed.

(** What listing the directory returns. *)
Lemma dir_listing m A :
  dir_rep m A →
  ∃ ids, (kv_prefix m ("/" +:+ dir +:+ "/")).1 = dkey <$> ids ∧ NoDup ids ∧
    ∀ id, id ∈ ids ↔ is_Some (A !! id).
Proof using Type*.
  intros Hrep. simpl. set (ks := filter _ (sorted_keys m)).
  assert (∀ k, k ∈ ks → ∃ id, k = dkey id ∧ is_Some (A !! id)) as Hks.
  { intros k [Hp Hk]%list_elem_of_filter. apply elem_of_sorted_keys in Hk.
    destruct (proj2 Hrep k) as [id ->]; [|done|].
    - apply HasPrefix_dir; [apply dir_no_sep|done].
    - exists id. split; [done|]. by eapply dir_lookup. }
  assert (NoDup ks) as Hnd by (apply NoDup_filter, NoDup_sorted_keys).
  assert (∀ id, is_Some (A !! id) → dkey id ∈ ks) as Hin.
  { intros id Hid. apply list_elem_of_filter. split; [apply HasPrefix_dkey|].
    apply elem_of_sorted_keys. by eapply dir_lookup. }
  assert (∃ ids, ks = dkey <$> ids) as [ids Hids].
  { clear Hnd Hin. induction ks as [|k ks IH]; [by exists []|].
    destruct (Hks k) as (id & -> & _); [by left|].
    destruct IH as [ids ->]; [|by exists (id :: ids)]. intros k' Hk'. apply Hks. by right. }
  rewrite Hids in *. exists ids. split; [done|]. split; [by eapply NoDup_fmap_1|].
  intros id. split.
  - intros H. destruct (Hks (dkey id)) as (id' & E & ?); [by apply list_elem_of_fmap_2|].
    by apply dkey_inj in E as ->.
  - intros H. apply Hin in H. apply list_elem_of_fmap in H as (id' & E & H).
    by apply dkey_inj in E as ->.
Qed.

(** ** Writes *)

Lemma dir_rep_insert m A id x b :
  dir_rep m A → Unmarshal b = inr x → dir_rep (<[dkey id := b]> m) (<[id := x]> A).
Proof using Type*.
  intros [H1 H2] Hb. split.
  - intros id'. destruct (decide (id = id')) as [<-|Hne].
    + rewrite !lookup_insert_eq. eauto.
    + rewrite !lookup_insert_ne by (done || by intros ?%dkey_inj). apply H1.
  - intros k Hk. rewrite lookup_insert_is_Some'. intros [<-|?]; eauto.
Qed.

Lemma dir_rep_frame m m' A :
  (∀ k, key_dir k = dir → m' !! k = m !! k) → dir_rep m A → dir_rep m' A.
Proof using Type*.
  intros Hf [H1 H2]. split.
  - intros id. rewrite Hf by apply key_dir_dkey. apply H1.
  - intros k Hk. rewrite Hf by done. auto.
Qed.

Lemma dir_rep_delete m m' A id :
  dir_rep m A → m' !! dkey id = None →
  (∀ k, key_dir k = dir → k ≠ dkey id → m' !! k = m !! k) → dir_rep m' (delete id A).
Proof using Type*.
  intros [H1 H2] Hd Hf. split.
  - intros id'. destruct (decide (id = id')) as [<-|Hne].
    + by rewrite lookup_delete_eq.
    + rewrite lookup_delete_ne by done. rewrite Hf; [apply H1|apply key_dir_dkey|].
      by intros ?%dkey_inj.
  - intros k Hk [v Hv]. apply H2; [done|]. destruct (decide (k = dkey id)) as [->|]; [congruence|].
    rewrite <-Hf by done. eauto.
Qed.

Lemma dir_rep_empty m : (∀ k, key_dir k = dir → m !! k = None) → dir_rep m ∅.
Proof using Type*.
  intros Hm. split.
  - intros id. rewrite lookup_empty. apply Hm, key_dir_dkey.
  - intros k Hk [v Hv]. by rewrite Hm in Hv.
Qed.

Lemma length_dkey id : String.length (dkey id) = String.length dir + 38.
Proof using Type*.
  change (dkey id) with ("/" +:+ dir +:+ "/" +:+ uuid_String id).
  rewrite !length_str_app, uuid_String_length. simpl. lia.
Qed.

(** Only the key of [id] extends it: UUIDs print to strings of one length. *)
Lemma HasPrefix_dkey_inj id id' : HasPrefix (dkey id') (dkey id) = true → id' = id.
Proof using Type*.
  intros [t E]%HasPrefix_spec. apply dkey_inj.
  assert (t = "") as ->; [|by rewrite str_app_nil_r in E].
  apply (f_equal String.length) in E. rewrite length_str_app, !length_dkey in E.
  destruct t; [done|]. simpl in E. lia.
Qed.
End directory.

(** ** Messages under a family of keys *)

(** The slice of the parsed values; an entry that does not parse stays nil. *)
Definition decode_each {X} `{!Proto X} (vals : list string) : list (option X) :=
  (λ val, match Unmarshal val with inr x => Some x | inl _ => None end) <$> vals.

Section keyed.
Context {I : Type} `{Countable I} {X : Type} `{!Proto X} (key : I → string) (p : string).

Definition keyed_rep (m : gmap string string) (A : gmap I X) : Prop :=
  (∀ i, match A !! i with
        | Some x => ∃ b, m !! key i = Some b ∧ Unmarshal b = inr x
        | None => m !! key i = None
        end) ∧
  (∀ k, HasPrefix k p = true → is_Some (m !! k) → ∃ i, k = key i).

Lemma keyed_lookup m A i : keyed_rep m A → is_Some (m !! key i) ↔ is_Some (A !! i).
Proof.
  intros [H1 _]. specialize (H1 i). destruct (A !! i) as [x|].
  - destruct H1 as (b & -> & _). split; eauto.
  - rewrite H1. done.
Qed.

Lemma keyed_Some m A i x : keyed_rep m A → A !! i = Some x → ∃ b, m !! key i = Some b ∧ Unmarshal b = inr x.
Proof. intros [H1 _] Hx. specialize (H1 i). by rewrite Hx in H1. Qed.

Lemma keyed_None m A i : keyed_rep m A → A !! i = None → m !! key i = None.
Proof. intros [H1 _] Hx. specialize (H1 i). by rewrite Hx in H1. Qed.

Hypothesis key_prefix : ∀ i, HasPrefix (key i) p = true.
Context `{!Inj (=) (=) key}.

Lemma keyed_insert m A i x b :
  keyed_rep m A → Unmarshal b = inr x → keyed_rep (<[key i := b]> m) (<[i := x]> A).
Proof.
  intros [H1 H2] Hb. split.
  - intros j. destruct (decide (i = j)) as [<-|Hne]; [rewrite !lookup_insert_eq; eauto|].
    rewrite !lookup_insert_ne by (done || by intros ?%(inj key)). apply H1.
  - intros k Hk. rewrite lookup_insert_is_Some'. intros [<-|?]; eauto.
Qed.

Lemma keyed_frame m m' A :
  (∀ k, HasPrefix k p = true → m' !! k = m !! k) → keyed_rep m A → keyed_rep m' A.
Proof.
  intros Hf [H1 H2]. split.
  - intros i. rewrite Hf by apply key_prefix. apply H1.
  - intros k Hk. rewrite Hf by done. auto.
Qed.

Lemma keyed_delete m m' A i :
  keyed_rep m A → m' !! key i = None →
  (∀ k, HasPrefix k p = true → k ≠ key i → m' !! k = m !! k) → keyed_rep m' (delete i A).
Proof.
  intros [H1 H2] Hd Hf. split.
  - intros j. destruct (decide (i = j)) as [<-|Hne]; [by rewrite lookup_delete_eq|].
    rewrite lookup_delete_ne by done. rewrite Hf; [apply H1|apply key_prefix|]. by intros ?%(inj key).
  - intros k Hk [v Hv]. apply H2; [done|]. destruct (decide (k = key i)) as [->|]; [congruence|].
    rewrite <-Hf by done. eauto.
Qed.

Lemma keyed_empty m : (∀ k, HasPrefix k p = true → m !! k = None) → keyed_rep m ∅.
Proof.
  intros Hm. split.
  - intros i. rewrite lookup_empty. apply Hm, key_prefix.
  - intros k Hk [v Hv]. by rewrite Hm in Hv.
Qed.

Lemma keyed_listing m A :
  keyed_rep m A →
  ∃ js, (kv_prefix m p).1 = key <$> js ∧ NoDup js ∧ ∀ i, i ∈ js ↔ is_Some (A !! i).
Proof.
  intros Hrep. simpl. set (ks := filter _ (sorted_keys m)).
  assert (∀ k, k ∈ ks → ∃ i, k = key i) as Hks.
  { intros k [Hp Hk]%list_elem_of_filter. apply (proj2 Hrep k Hp). by apply elem_of_sorted_keys. }
  assert (∃ js, ks = key <$> js) as [js Hjs].
  { assert (∀ l : list string, (∀ k, k ∈ l → ∃ i, k = key i) → ∃ js, l = key <$> js) as Hl.
    { induction l as [|k l IH]; intros Hl; [by exists []|].
      destruct (Hl k) as [i ->]; [by left|].
      destruct IH as [js ->]; [|by exists (i :: js)]. intros k' Hk'. apply Hl. by right. }
    by apply Hl. }
  assert (NoDup ks) as Hnd by (apply NoDup_filter, NoDup_sorted_keys).
  exists js. split; [done|]. split; [rewrite Hjs in Hnd; by eapply NoDup_fmap_1|]. intros i.
  rewrite <-(keyed_lookup m A i Hrep), <-elem_of_sorted_keys. split.
  - intros Hi. assert (key i ∈ ks) as [_ Hk]%list_elem_of_filter; [|done].
    rewrite Hjs. by apply list_elem_of_fmap_2.
  - intros Hk. assert (key i ∈ ks) as Hin by (apply list_elem_of_filter; split; [apply key_prefix|done]).
    rewrite Hjs in Hin. apply list_elem_of_fmap in Hin as (j & E & Hj). by apply (inj key) in E as ->.
Qed.

(** The values listed parse to the messages, each once. *)
Lemma keyed_decode m A :
  keyed_rep m A →
  ∃ xs, decode_each (kv_prefix m p).2 = Some <$> xs ∧ xs ≡ₚ (map_to_list A).*2.
Proof.
  intros Hrep. destruct (keyed_listing m A Hrep) as (js & Hk & Hnd & Hjs).
  change (kv_prefix m p).2 with (lookup_values m (kv_prefix m p).1). rewrite Hk.
  assert (js ≡ₚ (map_to_list A).*1) as Hperm.
  { apply NoDup_Permutation; [done|apply NoDup_fst_map_to_list|]. intros i. rewrite Hjs, list_elem_of_fmap.
    split; [intros [x Hx]; exists (i, x); by rewrite elem_of_map_to_list|].
    intros ([j x] & -> & Hin%elem_of_map_to_list). eauto. }
  exists (omap (λ i, A !! i) js). split.
  - clear Hnd Hk Hperm. assert (∀ i, i ∈ js → is_Some (A !! i)) as Hin by naive_solver. clear Hjs.
    induction js as [|i js IH]; [done|]. destruct (Hin i) as [x Hx]; [by left|].
    destruct (keyed_Some m A i x Hrep Hx) as (b & Hb & Hu). cbn. rewrite Hb, Hx. cbn. rewrite Hu. f_equal.
    apply IH. intros j Hj. apply Hin. by right.
  - rewrite Hperm. assert (∀ l : list (I * X), (∀ kv, kv ∈ l → A !! kv.1 = Some kv.2) →
      omap (λ i, A !! i) l.*1 = l.*2) as Hl.
    { induction l as [|[i x] l IH]; intros Hl; [done|].
      pose proof (Hl (i, x) ltac:(by left)) as Hx. simpl in *. rewrite Hx. f_equal.
      apply IH. intros kv Hkv. apply Hl. by right. }
    rewrite Hl; [done|]. intros [i x] Hin%elem_of_map_to_list. done.
Qed.
End keyed.
