(* ===== verification/AgentSchema.v ===== *)
(** * The computed schema

    The part of [src/vizier/services/metadata/controllers/agent/agent_store.go]
    that maintains the schema computed from the tables of all agents
    ([deleteTableFromComputed], [deleteAgentFromComputed] and the body of
    [UpdateSchemas]).  The iteration order of a Go map is unspecified: where it
    can be observed, an operation takes the order as an argument ([range_order])
    and the theorems hold for every order. *)

From S2P Require Import Prelude GoLib Uuid Messages.

(** ** Map iteration *)

(** The orders in which one call of [UpdateSchemas] ranges over its two maps. *)
Record range_order := mkRange {
  ro_tables : gmap string TableInfo → list (string * TableInfo);
  ro_tracker : gmap string bool → list (string * bool)
}.

Definition range_ok (r : range_order) : Prop :=
  (∀ m, ro_tables r m ≡ₚ map_to_list m) ∧ (∀ m, ro_tracker r m ≡ₚ map_to_list m).

Definition map_order : range_order := mkRange map_to_list map_to_list.

Lemma map_order_ok : range_ok map_order.
Proof. done. Qed.

(** ** The computed schema *)

(** Remove the element at [idx] by moving the last one there. *)
Definition swap_remove {A} (idx : nat) (l : list A) : list A :=
  match last l with
  | Some x => take (length l - 1) (<[idx := x]> l)
  | None => l
  end.

Fixpoint find_index {A} (p : A → bool) (l : list A) : option nat :=
  match l with
  | [] => None
  | x :: l => if p x then Some 0 else Datatypes.S <$> find_index p l
  end.

Definition with_agents (tnta : gmap string (list UUIDpb)) (cs : ComputedSchema) : ComputedSchema :=
  mkComputedSchema (cs_Tables cs) tnta.

Definition with_tables (ts : list TableInfo) (cs : ComputedSchema) : ComputedSchema :=
  mkComputedSchema ts (cs_TableNameToAgentIDs cs).

Definition deleteTableFromComputed (cs : ComputedSchema) (tableName : string)
    : error + ComputedSchema :=
  match find_index (λ schemaPb, bool_decide (ti_Name schemaPb = tableName)) (cs_Tables cs) with
  | None => inl (ErrMsg "schema name not found, cannot delete")
  | Some idx =>
    inr (mkComputedSchema (swap_remove idx (cs_Tables cs))
      (delete tableName (cs_TableNameToAgentIDs cs)))
  end.

(** The message also prints the agent's identifier. *)
Definition err_not_found (tableName : string) : error :=
  ErrMsg ("Agent marked for deletion not found in list of agents for " +:+ tableName).

Section computed.
Context {St : Type}.

(** Looking up a table without agents gives a nil message, whose list the code
    reads. *)
Definition deleteAgentFromComputed (cs : ComputedSchema) (tableName : string) (agentIDPb : UUIDpb)
    : M St ComputedSchema :=
  agents ← deref (cs_TableNameToAgentIDs cs !! tableName);
  match agents with
  | [a] =>
    if AreSameUUID a agentIDPb then lift_sum (deleteTableFromComputed cs tableName)
    else fail (err_not_found tableName)
  | _ =>
    match find_index (λ a, AreSameUUID a agentIDPb) agents with
    | None => fail (err_not_found tableName)
    | Some idx =>
      mret (with_agents (<[tableName := swap_remove idx agents]> (cs_TableNameToAgentIDs cs)) cs)
    end
  end.

Fixpoint delete_missing (tracker : list (string * bool)) (agentIDPb : UUIDpb) (cs : ComputedSchema)
    : M St ComputedSchema :=
  match tracker with
  | [] => mret cs
  | (tableName, agentHasTable) :: tracker =>
    if (agentHasTable : bool) then delete_missing tracker agentIDPb cs
    else cs ← deleteAgentFromComputed cs tableName agentIDPb;
         delete_missing tracker agentIDPb cs
  end.
End computed.

(** The tables that list the agent, all marked false. *)
Definition initial_tracker (agentIDPb : UUIDpb) (tnta : gmap string (list UUIDpb)) : gmap string bool :=
  (λ _, false) <$> filter (λ kv, existsb (λ a, AreSameUUID a agentIDPb) kv.2 = true) tnta.

Definition initial_tableMap (tables : list TableInfo) : gmap string TableInfo :=
  foldl (λ m t, <[ti_Name t := t]> m) ∅ tables.

(** The body of the loop over the reported schemas; its state is [tableMap],
    [previousAgentTableTracker] and [TableNameToAgentIDs]. *)
Definition schema_step (agentIDPb : UUIDpb)
    (st : gmap string TableInfo * gmap string bool * gmap string (list UUIDpb)) (schemaPb : TableInfo)
    : gmap string TableInfo * gmap string bool * gmap string (list UUIDpb) :=
  let '(tableMap, tracker, tnta) := st in
  let name := ti_Name schemaPb in
  let tableMap := <[name := schemaPb]> tableMap in
  match tracker !! name with
  | Some _ => (tableMap, <[name := true]> tracker, tnta)
  | None =>
    match tnta !! name with
    | Some agents => (tableMap, tracker, <[name := agents ++ [agentIDPb]]> tnta)
    | None => (tableMap, tracker, <[name := [agentIDPb]]> tnta)
    end
  end.

(** Everything [UpdateSchemas] computes between reading and writing the
    schema. *)
Definition update_schema {St} (r : range_order) (agentIDPb : UUIDpb) (schemas : list TableInfo)
    (cs : ComputedSchema) : M St ComputedSchema :=
  let tableMap := initial_tableMap (cs_Tables cs) in
  let tracker := initial_tracker agentIDPb (cs_TableNameToAgentIDs cs) in
  let '(tableMap, tracker, tnta) :=
    foldl (schema_step agentIDPb) (tableMap, tracker, cs_TableNameToAgentIDs cs) schemas in
  delete_missing (ro_tracker r tracker) agentIDPb
    (mkComputedSchema (ro_tables r tableMap).*2 tnta).

(** ** The computed schema: invariant and meaning *)

Lemma find_index_Some {A} (p : A → bool) l i :
  find_index p l = Some i → ∃ x, l !! i = Some x ∧ p x = true.
Proof.
  revert i. induction l as [|x l IH]; intros i; simpl; [done|].
  destruct (p x) eqn:E; [intros [= <-]; by exists x|].
  destruct (find_index p l); simpl; [|done]. intros [= <-]. by apply IH.
Qed.

Lemma find_index_exists {A} (p : A → bool) l x :
  x ∈ l → p x = true → ∃ i, find_index p l = Some i.
Proof.
  induction 1 as [x l|x y l _ IH]; intros Hp; simpl; [rewrite Hp; eauto|].
  destruct (p y); [eauto|]. destruct (IH Hp) as [i ->]. by exists (Datatypes.S i).
Qed.

Lemma swap_remove_perm {A} (l : list A) i x :
  l !! i = Some x → l ≡ₚ x :: swap_remove i l.
Proof.
  intros Hi. unfold swap_remove. destruct (last l) as [y|] eqn:Hl.
  2: { apply last_None in Hl. by subst. }
  apply last_Some in Hl as [k ->]. rewrite length_app. simpl.
  replace (length k + 1 - 1) with (length k) by lia.
  destruct (decide (i < length k)).
  - rewrite lookup_app_l in Hi by done. rewrite insert_app_l by done.
    rewrite take_app_length' by (by rewrite length_insert).
    rewrite insert_take_drop by done. rewrite <-(take_drop_middle k i x) at 1 by done.
    rewrite <-!Permutation_middle, Permutation_app_comm. by constructor.
  - assert (i = length k) as ->.
    { apply lookup_lt_Some in Hi. rewrite length_app in Hi. simpl in Hi. lia. }
    rewrite list_lookup_middle in Hi by done. injection Hi as ->.
    rewrite insert_app_r_alt, Nat.sub_diag by lia. rewrite take_app_length' by done.
    by rewrite Permutation_app_comm.
Qed.

(** The agents listed for a table. *)
Definition agents_of (cs : ComputedSchema) (t : string) : list UUIDpb :=
  default [] (cs_TableNameToAgentIDs cs !! t).

Abbreviation names := (fmap ti_Name).

(** Tables have distinct names, are the tables of the agent mapping, and every
    table has at least one agent, each listed once. *)
Record cs_wf (cs : ComputedSchema) : Prop := {
  wf_names : NoDup (names (cs_Tables cs));
  wf_dom t : t ∈ names (cs_Tables cs) ↔ is_Some (cs_TableNameToAgentIDs cs !! t);
  wf_agents t l : cs_TableNameToAgentIDs cs !! t = Some l → l ≠ [] ∧ NoDup l
}.

Lemma wf_empty : cs_wf (mkComputedSchema [] ∅).
Proof. split; simpl; [constructor| |done]. intros t. split; [set_solver|by intros [? ?]]. Qed.

Lemma agents_of_Some cs t a :
  a ∈ agents_of cs t ↔ ∃ l, cs_TableNameToAgentIDs cs !! t = Some l ∧ a ∈ l.
Proof.
  unfold agents_of. destruct (cs_TableNameToAgentIDs cs !! t) as [l|]; simpl; [naive_solver|].
  split; [by intros ?%not_elem_of_nil|naive_solver].
Qed.

(** Under the invariant a table is present exactly when it has an agent. *)
Lemma wf_table_agent cs t :
  cs_wf cs → t ∈ names (cs_Tables cs) ↔ ∃ a, a ∈ agents_of cs t.
Proof.
  intros Hwf. rewrite (wf_dom cs Hwf). setoid_rewrite agents_of_Some. split.
  - intros [l Hl]. destruct (wf_agents cs Hwf t l Hl) as [Hne _].
    destruct l as [|a l]; [done|]. exists a, (a :: l). split; [done|]. by left.
  - intros (a & l & Hl & _). eauto.
Qed.

(** Deleting a table. *)
Lemma deleteTableFromComputed_spec cs t :
  cs_wf cs → t ∈ names (cs_Tables cs) →
  ∃ cs', deleteTableFromComputed cs t = inr cs' ∧ cs_wf cs' ∧
    cs_TableNameToAgentIDs cs' = delete t (cs_TableNameToAgentIDs cs) ∧
    (∀ ti, ti ∈ cs_Tables cs' ↔ ti ∈ cs_Tables cs ∧ ti_Name ti ≠ t).
Proof.
  intros Hwf Ht. apply list_elem_of_fmap in Ht as (ti & -> & Hti).
  destruct (find_index_exists (λ x, bool_decide (ti_Name x = ti_Name ti)) (cs_Tables cs) ti Hti)
    as [i Hi]; [by apply bool_decide_eq_true|].
  unfold deleteTableFromComputed. rewrite Hi.
  apply find_index_Some in Hi as (x & Hx & Hn%bool_decide_eq_true).
  pose proof (swap_remove_perm _ _ _ Hx) as Hp. set (ts := swap_remove i (cs_Tables cs)) in *.
  pose proof (wf_names cs Hwf) as Hnd. rewrite Hp, fmap_cons, Hn in Hnd.
  apply NoDup_cons in Hnd as [Hnin Hnd].
  assert (∀ ti', ti' ∈ ts ↔ ti' ∈ cs_Tables cs ∧ ti_Name ti' ≠ ti_Name ti) as Hts.
  { intros ti'. rewrite Hp, elem_of_cons. split.
    - intros Hin. split; [by right|]. intros E. apply Hnin. rewrite <-E. by apply list_elem_of_fmap_2.
    - intros [[->|Hin] Hne]; [done|done]. }
  eexists. split; [done|]. split; [|done]. split; simpl; [done| |].
  - intros t. rewrite lookup_delete_is_Some, <-(wf_dom cs Hwf), !list_elem_of_fmap.
    setoid_rewrite Hts. naive_solver.
  - intros t l [_ Hl]%lookup_delete_Some. by apply (wf_agents cs Hwf t).
Qed.

(** Dropping one of several agents of a table. *)
Lemma drop_agent_wf cs t pb l l' :
  cs_wf cs → cs_TableNameToAgentIDs cs !! t = Some l → l ≡ₚ pb :: l' → l' ≠ [] →
  cs_wf (with_agents (<[t := l']> (cs_TableNameToAgentIDs cs)) cs).
Proof.
  intros Hwf Hl Hp Hne. split; simpl.
  - apply (wf_names cs Hwf).
  - intros t'. rewrite (wf_dom cs Hwf), lookup_insert_is_Some'. naive_solver.
  - intros t' k [[<- <-]|[Hn Hk]]%lookup_insert_Some; [|by apply (wf_agents cs Hwf t')].
    split; [done|]. destruct (wf_agents cs Hwf t l Hl) as [_ Hnd].
    rewrite Hp in Hnd. by apply NoDup_cons in Hnd as [_ ?].
Qed.

Section delete_specs.
Context {St : Type}.
Implicit Types s : St.

(** What deleting an agent from one table does. *)
Lemma deleteAgentFromComputed_spec cs t pb s :
  cs_wf cs → pb ∈ agents_of cs t →
  ∃ cs', deleteAgentFromComputed cs t pb s = (Ret cs', s) ∧ cs_wf cs' ∧
    (∀ t' a, a ∈ agents_of cs' t' ↔ a ∈ agents_of cs t' ∧ ¬ (t' = t ∧ a = pb)) ∧
    (∀ ti, ti ∈ cs_Tables cs' ↔ ti ∈ cs_Tables cs ∧ ∃ a, a ∈ agents_of cs' (ti_Name ti)).
Proof.
  intros Hwf Hpb. pose proof Hpb as (l & Hl & Hin)%agents_of_Some.
  unfold deleteAgentFromComputed. rewrite Hl. simpl. unfold mbind, M_bind. simpl.
  destruct (decide (l = [pb])) as [->|Hne].
  - rewrite AreSameUUID_eq, bool_decide_eq_true_2 by done.
    destruct (deleteTableFromComputed_spec cs t) as (cs' & E & Hwf' & Hm & Hts); [done| |].
    { apply wf_table_agent; eauto. }
    exists cs'. rewrite E. split_and!; [done|done| |].
    + intros t' a. rewrite !agents_of_Some, Hm. setoid_rewrite lookup_delete_Some.
      split; [naive_solver|]. intros [(l & Hl' & Ha) Hne]. exists l. split_and!; [|done|done].
      intros <-. rewrite Hl in Hl'. simplify_eq. apply list_elem_of_singleton in Ha. naive_solver.
    + intros ti. rewrite <-(wf_table_agent cs' _ Hwf'). split; [|].
      * intros H. split; [by apply Hts|by apply list_elem_of_fmap_2].
      * intros [H1 H2]. apply Hts. split; [done|]. intros Ht.
        apply list_elem_of_fmap in H2 as (ti' & E' & Hti'). apply Hts in Hti' as [_ ?]. congruence.
  - destruct (find_index_exists (λ a, AreSameUUID a pb) l pb Hin) as [i Hi].
    { rewrite AreSameUUID_eq. by apply bool_decide_eq_true. }
    assert (∃ x, l !! i = Some x ∧ x = pb) as (? & Hx & ->).
    { apply find_index_Some in Hi as (x & Hx & E). exists x. split; [done|].
      rewrite AreSameUUID_eq in E. by apply bool_decide_eq_true in E. }
    pose proof (swap_remove_perm _ _ _ Hx) as Hp.
    assert (swap_remove i l ≠ []) as Hne'.
    { intros E. rewrite E in Hp. by apply Permutation_singleton_r in Hp. }
    exists (with_agents (<[t := swap_remove i l]> (cs_TableNameToAgentIDs cs)) cs).
    pose proof (drop_agent_wf cs t pb l _ Hwf Hl Hp Hne') as Hwf'. split_and!.
    + destruct l as [|a [|b l]]; [done| |by rewrite Hi]. destruct i; [|done]. by simplify_eq/=.
    + done.
    + destruct (wf_agents cs Hwf t l Hl) as [_ Hnd]. rewrite Hp in Hnd.
      apply NoDup_cons in Hnd as [Hnin _]. intros t' a. rewrite !agents_of_Some. simpl.
      setoid_rewrite lookup_insert_Some. split.
      * intros (k & [[<- <-]|[Hn Hk]] & Ha); [|naive_solver]. split; [|by intros [_ ->]].
        exists l. split; [done|]. rewrite Hp. by right.
      * intros [(k & Hk & Ha) Hn]. destruct (decide (t = t')) as [<-|]; [|naive_solver].
        rewrite Hl in Hk. simplify_eq. rewrite Hp, elem_of_cons in Ha. naive_solver.
    + intros ti. rewrite <-(wf_table_agent _ _ Hwf'). simpl. split; [|naive_solver].
      intros H. split; [done|]. by apply list_elem_of_fmap_2.
Qed.

(** The whole deletion loop. *)
Lemma delete_missing_spec L cs pb s :
  cs_wf cs → NoDup L.*1 → (∀ t, (t, false) ∈ L → pb ∈ agents_of cs t) →
  ∃ cs', delete_missing L pb cs s = (Ret cs', s) ∧ cs_wf cs' ∧
    (∀ t a, a ∈ agents_of cs' t ↔ a ∈ agents_of cs t ∧ ¬ (a = pb ∧ (t, false) ∈ L)) ∧
    (∀ ti, ti ∈ cs_Tables cs' ↔ ti ∈ cs_Tables cs ∧ ∃ a, a ∈ agents_of cs' (ti_Name ti)).
Proof.
  revert cs. induction L as [|[t b] L IH]; intros cs Hwf Hnd Hin.
  { exists cs. split_and!; [done|done|set_solver|]. intros ti. rewrite <-wf_table_agent by done.
    split; [|naive_solver]. intros H. split; [done|]. by apply list_elem_of_fmap_2. }
  simpl in Hnd. apply NoDup_cons in Hnd as [Hnin Hnd]. cbn [delete_missing]. destruct b.
  - destruct (IH cs) as (cs' & E & Hwf' & Ha & Ht); [done..|set_solver|].
    exists cs'. split_and!; [done|done| |done]. intros t' a. rewrite Ha. set_solver.
  - destruct (deleteAgentFromComputed_spec cs t pb s) as (cs1 & E1 & Hwf1 & Ha1 & Ht1); [done|set_solver|].
    destruct (IH cs1) as (cs' & E & Hwf' & Ha & Ht); [done..| |].
    { intros t' Ht'. apply Ha1. split; [set_solver|]. intros [-> _]. apply Hnin.
      by apply (list_elem_of_fmap_2' _ _ (t, false)). }
    exists cs'. run_with E1. split_and!; [done|done| |].
    + intros t' a. rewrite Ha, Ha1. set_solver.
    + intros ti. rewrite Ht, Ht1. split; [naive_solver|]. intros [H1 (a & Haa)].
      split_and!; [done| |by exists a]. exists a. by apply Ha in Haa as [? _].
Qed.
End delete_specs.

(** ** [UpdateSchemas] *)

Lemma existsb_agent pb l : existsb (λ a, AreSameUUID a pb) l = bool_decide (pb ∈ l).
Proof.
  apply bool_ext. rewrite bool_decide_eq_true, existsb_exists. setoid_rewrite AreSameUUID_eq.
  setoid_rewrite bool_decide_eq_true. setoid_rewrite <-list_elem_of_In. naive_solver.
Qed.

Lemma lookup_initial_tracker pb cs t :
  initial_tracker pb (cs_TableNameToAgentIDs cs) !! t =
    if bool_decide (pb ∈ agents_of cs t) then Some false else None.
Proof.
  unfold initial_tracker. rewrite lookup_fmap, map_lookup_filter. unfold agents_of.
  destruct (cs_TableNameToAgentIDs cs !! t) as [l|]; simpl; [|done].
  rewrite existsb_agent. destruct (bool_decide (pb ∈ l)) eqn:E.
  - by rewrite option_guard_True.
  - by rewrite option_guard_False.
Qed.

Lemma lookup_initial_tableMap ts t ti :
  NoDup (names ts) → initial_tableMap ts !! t = Some ti ↔ ti ∈ ts ∧ ti_Name ti = t.
Proof.
  unfold initial_tableMap. induction ts as [|x ts IH] using rev_ind.
  { intros _. simpl. rewrite lookup_empty. set_solver. }
  rewrite fmap_app, foldl_app. intros (H1 & H2 & _)%NoDup_app. cbn [foldl].
  rewrite lookup_insert_Some, IH, elem_of_app, list_elem_of_singleton by done. split; [naive_solver|].
  intros [[Hin| ->] <-]; [|by left]. right. split; [|done]. intros E.
  apply (H2 (ti_Name ti)); [by apply list_elem_of_fmap_2|]. rewrite <-E. set_solver.
Qed.

(** The state after the loop over the reported schemas. *)
Record loop_state (pb : UUIDpb) (cs : ComputedSchema) (schemas : list TableInfo)
    (tm : gmap string TableInfo) (tr : gmap string bool) (ta : gmap string (list UUIDpb)) : Prop := {
  loop_new ti : ti ∈ schemas → tm !! ti_Name ti = Some ti;
  loop_old t : t ∉ names schemas → tm !! t = initial_tableMap (cs_Tables cs) !! t;
  loop_tracker t : tr !! t = if bool_decide (pb ∈ agents_of cs t)
                             then Some (bool_decide (t ∈ names schemas)) else None;
  loop_agents t : ta !! t = if bool_decide (t ∈ names schemas ∧ pb ∉ agents_of cs t)
                            then Some (agents_of cs t ++ [pb]) else cs_TableNameToAgentIDs cs !! t
}.

Lemma names_snoc schemas x t :
  t ∈ names (schemas ++ [x]) ↔ t ∈ names schemas ∨ t = ti_Name x.
Proof. rewrite fmap_app, elem_of_app. simpl. by rewrite list_elem_of_singleton. Qed.

Lemma loop_state_nil pb cs :
  loop_state pb cs [] (initial_tableMap (cs_Tables cs))
    (initial_tracker pb (cs_TableNameToAgentIDs cs)) (cs_TableNameToAgentIDs cs).
Proof.
  split.
  - by intros ti ?%not_elem_of_nil.
  - done.
  - intros t. rewrite lookup_initial_tracker.
    by rewrite (bool_decide_eq_false_2 (t ∈ _)) by (apply not_elem_of_nil).
  - intros t. rewrite bool_decide_eq_false_2; [done|]. by intros [?%not_elem_of_nil _].
Qed.

(** Adding a table to the loop's table map. *)
Lemma loop_tables_step pb cs schemas tm tr ta x :
  loop_state pb cs schemas tm tr ta → ti_Name x ∉ names schemas →
  (∀ ti, ti ∈ schemas ++ [x] → <[ti_Name x:=x]> tm !! ti_Name ti = Some ti) ∧
  (∀ t, t ∉ names (schemas ++ [x]) →
    <[ti_Name x:=x]> tm !! t = initial_tableMap (cs_Tables cs) !! t).
Proof.
  intros [Hn Ho _ _] Hx. split.
  - intros ti [Hin| ->%list_elem_of_singleton]%elem_of_app; [|apply lookup_insert_eq].
    rewrite lookup_insert_ne; [by apply Hn|]. intros Eq. apply Hx. rewrite Eq. by apply list_elem_of_fmap_2.
  - intros t Hnt. rewrite names_snoc in Hnt. rewrite lookup_insert_ne by naive_solver. naive_solver.
Qed.

Lemma loop_state_step pb cs schemas tm tr ta x :
  loop_state pb cs schemas tm tr ta → ti_Name x ∉ names schemas →
  let '(tm', tr', ta') := schema_step pb (tm, tr, ta) x in
  loop_state pb cs (schemas ++ [x]) tm' tr' ta'.
Proof.
  intros HL Hx. destruct (loop_tables_step _ _ _ _ _ _ _ HL Hx) as [Hnew Hold].
  destruct HL as [_ _ Ht Ha]. cbn [schema_step]. rewrite Ht.
  rewrite (bool_decide_eq_false_2 (ti_Name x ∈ _)) by done.
  rewrite Ha. rewrite (bool_decide_eq_false_2 (ti_Name x ∈ _ ∧ _)) by naive_solver.
  destruct (decide (pb ∈ agents_of cs (ti_Name x))) as [Hpb|Hpb].
  - rewrite bool_decide_eq_true_2 by done. split; [done|done| |].
    + intros t. destruct (decide (t = ti_Name x)) as [->|Hne].
      * rewrite lookup_insert_eq, !bool_decide_eq_true_2; [done|apply names_snoc; by right|done].
      * rewrite lookup_insert_ne, Ht by done. case_bool_decide; [|done]. f_equal.
        apply bool_decide_ext. rewrite names_snoc. naive_solver.
    + intros t. rewrite Ha. rewrite (bool_decide_ext _ (t ∈ names (schemas ++ [x]) ∧ pb ∉ agents_of cs t)); [done|].
      rewrite names_snoc. naive_solver.
  - rewrite (bool_decide_eq_false_2 (pb ∈ _)) by done.
    assert (∀ t, <[ti_Name x := agents_of cs (ti_Name x) ++ [pb]]> ta !! t =
      if bool_decide (t ∈ names (schemas ++ [x]) ∧ pb ∉ agents_of cs t)
      then Some (agents_of cs t ++ [pb]) else cs_TableNameToAgentIDs cs !! t) as Hins.
    { intros t. destruct (decide (t = ti_Name x)) as [->|Hne].
      - rewrite lookup_insert_eq, bool_decide_eq_true_2; [done|]. rewrite names_snoc. by split; [right|].
      - rewrite lookup_insert_ne, Ha by done.
        rewrite (bool_decide_ext _ (t ∈ names (schemas ++ [x]) ∧ pb ∉ agents_of cs t)); [done|].
        rewrite names_snoc. naive_solver. }
    assert (∀ t, tr !! t = if bool_decide (pb ∈ agents_of cs t)
      then Some (bool_decide (t ∈ names (schemas ++ [x]))) else None) as Htr.
    { intros t. rewrite Ht. destruct (decide (t = ti_Name x)) as [->|Hne].
      - by rewrite (bool_decide_eq_false_2 (pb ∈ _)) by done.
      - case_bool_decide; [|done]. f_equal. apply bool_decide_ext. rewrite names_snoc. naive_solver. }
    unfold agents_of in Hins at 1.
    destruct (cs_TableNameToAgentIDs cs !! ti_Name x) as [l|] eqn:El; by split.
Qed.

Lemma schema_loop pb cs schemas :
  NoDup (names schemas) →
  ∃ tm tr ta,
    foldl (schema_step pb) (initial_tableMap (cs_Tables cs),
      initial_tracker pb (cs_TableNameToAgentIDs cs), cs_TableNameToAgentIDs cs) schemas = (tm, tr, ta) ∧
    loop_state pb cs schemas tm tr ta.
Proof.
  induction schemas as [|x schemas IH] using rev_ind.
  { intros _. eexists _, _, _. split; [done|]. apply loop_state_nil. }
  rewrite fmap_app, foldl_app. intros (H1 & H2 & _)%NoDup_app.
  destruct (IH H1) as (tm & tr & ta & -> & HL). cbn [foldl].
  assert (ti_Name x ∉ names schemas) as Hx.
  { intros Hin. apply (H2 _ Hin). set_solver. }
  pose proof (loop_state_step pb cs schemas tm tr ta x HL Hx) as HS.
  destruct (schema_step pb (tm, tr, ta) x) as [[tm' tr'] ta']. eauto.
Qed.

(** The entries of the table map after the loop. *)
Lemma loop_tm pb cs schemas tm tr ta t ti :
  cs_wf cs → loop_state pb cs schemas tm tr ta →
  tm !! t = Some ti ↔ ti_Name ti = t ∧
    (ti ∈ schemas ∨ (ti ∈ cs_Tables cs ∧ ti_Name ti ∉ names schemas)).
Proof.
  intros Hwf HL. destruct (decide (t ∈ names schemas)) as [Hin|Hin].
  - apply list_elem_of_fmap in Hin as (ti' & -> & Hti').
    rewrite (loop_new _ _ _ _ _ _ HL ti') by done. split; [intros [= ->]; naive_solver|].
    intros [E [Hs|[_ Hs]]]; [|by rewrite E in Hs; destruct Hs; apply list_elem_of_fmap_2].
    pose proof (loop_new _ _ _ _ _ _ HL ti Hs) as H1. rewrite E, (loop_new _ _ _ _ _ _ HL ti') in H1 by done.
    congruence.
  - rewrite (loop_old _ _ _ _ _ _ HL t Hin), lookup_initial_tableMap by apply (wf_names cs Hwf).
    split; [naive_solver|]. intros [<- [Hs|[Hs _]]]; [|done]. destruct Hin. by apply list_elem_of_fmap_2.
Qed.

(** Ranging over a map keyed by name gives tables with distinct names. *)
Lemma range_names r (tm : gmap string TableInfo) :
  range_ok r → (∀ t ti, tm !! t = Some ti → ti_Name ti = t) → NoDup (names ((ro_tables r tm).*2)).
Proof.
  intros [Hr _] Hk.
  assert (names ((ro_tables r tm).*2) = (ro_tables r tm).*1) as ->.
  { rewrite <-list_fmap_compose. apply list_fmap_ext. intros i [t ti] Hi.
    apply list_elem_of_lookup_2 in Hi. rewrite Hr in Hi. by apply elem_of_map_to_list, Hk in Hi. }
  rewrite Hr. apply NoDup_fst_map_to_list.
Qed.

(** The agents after the loop. *)
Lemma loop_agents_of pb cs schemas tm tr ta ts t a :
  loop_state pb cs schemas tm tr ta →
  a ∈ agents_of (mkComputedSchema ts ta) t ↔ a ∈ agents_of cs t ∨ (a = pb ∧ t ∈ names schemas).
Proof.
  intros HL. unfold agents_of at 1. simpl. rewrite (loop_agents _ _ _ _ _ _ HL).
  case_bool_decide as Hb; simpl.
  - rewrite elem_of_app, list_elem_of_singleton. naive_solver.
  - fold (agents_of cs t). destruct (decide (t ∈ names schemas)); [|naive_solver].
    destruct (decide (pb ∈ agents_of cs t)); naive_solver.
Qed.

Lemma loop_agents_nodup pb cs schemas tm tr ta t l :
  cs_wf cs → loop_state pb cs schemas tm tr ta → ta !! t = Some l → l ≠ [] ∧ NoDup l.
Proof.
  intros Hwf HL. rewrite (loop_agents _ _ _ _ _ _ HL).
  case_bool_decide as Hb; [|apply (wf_agents cs Hwf)].
  intros [= <-]. split; [by destruct (agents_of cs t)|]. apply NoDup_app. split_and!.
  - unfold agents_of. destruct (cs_TableNameToAgentIDs cs !! t) eqn:E; simpl; [|constructor].
    by apply (wf_agents cs Hwf t).
  - intros a Ha ->%list_elem_of_singleton. by apply Hb.
  - apply NoDup_singleton.
Qed.

(** The schema between the loop over the reported tables and the deletions. *)
Lemma loop_schema_wf r pb cs schemas tm tr ta :
  range_ok r → cs_wf cs → loop_state pb cs schemas tm tr ta →
  let cs1 := mkComputedSchema (ro_tables r tm).*2 ta in
  cs_wf cs1 ∧
  (∀ ti, ti ∈ cs_Tables cs1 ↔ ti ∈ schemas ∨ (ti ∈ cs_Tables cs ∧ ti_Name ti ∉ names schemas)).
Proof.
  intros Hr Hwf HL cs1.
  assert (∀ ti, ti ∈ (ro_tables r tm).*2 ↔
    ti ∈ schemas ∨ (ti ∈ cs_Tables cs ∧ ti_Name ti ∉ names schemas)) as Hts.
  { intros ti. rewrite (proj1 Hr), list_elem_of_fmap. split.
    - intros ([t ti'] & -> & Hin%elem_of_map_to_list). by eapply loop_tm in Hin as [_ ?].
    - intros H. exists (ti_Name ti, ti). split; [done|]. apply elem_of_map_to_list. by eapply loop_tm. }
  split; [|done]. split; simpl.
  - apply range_names; [done|]. intros t ti H. by eapply loop_tm in H as [? _].
  - intros t. rewrite list_elem_of_fmap. setoid_rewrite Hts. rewrite (loop_agents _ _ _ _ _ _ HL).
    case_bool_decide as Hb.
    + split; [eauto|]. intros _. destruct Hb as [(ti & -> & Hti)%list_elem_of_fmap _]. eauto.
    + rewrite <-(wf_dom cs Hwf). split.
      * intros (ti & -> & [Hs|[Hs _]]); [|by apply list_elem_of_fmap_2].
        apply (wf_table_agent cs _ Hwf). exists pb.
        destruct (decide (pb ∈ agents_of cs (ti_Name ti))); [done|]. destruct Hb.
        split; [by apply list_elem_of_fmap_2|done].
      * intros (ti & -> & Hti)%list_elem_of_fmap.
        destruct (decide (ti_Name ti ∈ names schemas)) as [(ti' & E & ?)%list_elem_of_fmap|]; eauto.
  - intros t l. by eapply loop_agents_nodup.
Qed.

(** Updating the schema: afterwards the agent is listed exactly for the tables
    it reported and every other agent as before; the tables are the reported
    ones and the old ones some other agent still has. *)
Lemma update_schema_spec {St} r pb schemas cs (s : St) :
  range_ok r → cs_wf cs → NoDup (names schemas) →
  ∃ cs', update_schema r pb schemas cs s = (Ret cs', s) ∧ cs_wf cs' ∧
    (∀ t a, a ∈ agents_of cs' t ↔
      if decide (a = pb) then t ∈ names schemas else a ∈ agents_of cs t) ∧
    (∀ ti, ti ∈ cs_Tables cs' ↔ ti ∈ schemas ∨
      (ti ∈ cs_Tables cs ∧ (ti_Name ti ∉ names schemas) ∧ ∃ a, a ≠ pb ∧ a ∈ agents_of cs (ti_Name ti))).
Proof.
  intros Hr Hwf Hnd. unfold update_schema.
  destruct (schema_loop pb cs schemas Hnd) as (tm & tr & ta & -> & HL).
  destruct (loop_schema_wf r pb cs schemas tm tr ta Hr Hwf HL) as [Hwf1 Hts1].
  assert (∀ t, (t, false) ∈ ro_tracker r tr ↔ pb ∈ agents_of cs t ∧ t ∉ names schemas) as Hmiss.
  { intros t. rewrite (proj2 Hr), elem_of_map_to_list, (loop_tracker _ _ _ _ _ _ HL).
    case_bool_decide; [|naive_solver]. rewrite (inj_iff Some), bool_decide_eq_false. naive_solver. }
  destruct (delete_missing_spec (ro_tracker r tr) _ pb s Hwf1) as (cs' & E & Hwf' & Ha & Hts).
  { rewrite (proj2 Hr). apply NoDup_fst_map_to_list. }
  { intros t Ht%Hmiss. eapply loop_agents_of; [done|]. naive_solver. }
  assert (∀ t a, a ∈ agents_of cs' t ↔
      if decide (a = pb) then t ∈ names schemas else a ∈ agents_of cs t) as Hag.
  { intros t a. rewrite Ha, Hmiss, (loop_agents_of _ _ _ _ _ _ _ _ _ HL).
    destruct (decide (a = pb)) as [->|]; [|naive_solver].
    destruct (decide (t ∈ names schemas)); naive_solver. }
  exists cs'. split_and!; [done..|]. intros ti. rewrite Hts, Hts1. setoid_rewrite Hag. split.
  - intros [[?|[H1 H2]] (a & Haa)]; [by left|]. right. destruct (decide (a = pb)); naive_solver.
  - intros [Hs|(H1 & H2 & a & Hne & Haa)].
    + split; [by left|]. exists pb. rewrite decide_True by done. by apply list_elem_of_fmap_2.
    + split; [by right|]. exists a. by rewrite decide_False.
Qed.
