(* ===== verification/AgentStore.v ===== *)
(** * The agent store

    [src/vizier/services/metadata/controllers/agent/agent_store.go]: agents,
    their ASIDs, the data they hold, the schema computed from all agents and the
    processes they report, kept in the datastore.  The operations are written
    against the interface [Datastore] and proved against [DatastoreSpec]. *)

From S2P Require Import Prelude GoLib Datastore MemStore Uuid Messages StoreLib AgentSchema.
From Stdlib Require Import Ascii.

(** ** Keys *)

Record HostnameIPPair := mkHostnameIPPair { hp_Hostname : string; hp_IP : string }.

Definition agentKeyPrefix : string := "/agent/".
Definition agentDataInfoPrefix : string := "/agentDataInfo/".
Definition asidKey : string := "/asid".
Definition computedSchemaKey : string := "/computedSchema".

Section keys.
Context `{U : UUIDLib}.

Definition getAgentKey (agentID : uuid) : string := path_Join [agentKeyPrefix; uuid_String agentID].
Definition getAgentDataInfoKey (agentID : uuid) : string :=
  path_Join [agentDataInfoPrefix; uuid_String agentID].
Definition getHostnamePairAgentKey (pair : HostnameIPPair) : string :=
  path_Join ["/hostnameIP"; hp_Hostname pair +:+ "-" +:+ hp_IP pair; "agent"].
Definition getKelvinAgentKey (agentID : uuid) : string := path_Join ["/kelvin"; uuid_String agentID].
Definition getPodNameToAgentIDKey (podName : string) : string := path_Join ["/podToAgentID"; podName].
Definition getProcessKey (upid : string) : string := path_Join ["/processes"; upid].
End keys.

(** ** The store's operations *)

Section store.
Context {St : Type} `{!Datastore St} `{U : UUIDLib}.
Context `{!Proto Agent} `{!Proto AgentDataInfo} `{!Proto ComputedSchema} `{!Proto ProcessInfo}.

Definition marshal_or {A} `{!Proto A} (msg : string) (a : A) : M St string :=
  match Marshal a with
  | inl e => fail (ErrMsg (msg +:+ error_string e))
  | inr i => mret i
  end.

Definition collects_data (info : AgentInfo) : bool :=
  match ai_Capabilities info with None => true | Some c => CollectsData c end.

(** The pair under which an agent is registered: the hostname is left out for
    agents that collect data. *)
Definition hostname_pair (info : AgentInfo) : M St HostnameIPPair :=
  caps ← deref (ai_Capabilities info);
  hostname ← (if negb (CollectsData caps)
              then hi ← deref (ai_HostInfo info); mret (Hostname hi)
              else mret "");
  hi ← deref (ai_HostInfo info);
  mret (mkHostnameIPPair hostname (HostIP hi)).

Definition CreateAgent (agentID : uuid) (agt : Agent) : M St unit :=
  i ← marshal_or "Unable to marshal agent protobuf: " agt;
  info ← deref (ag_Info agt);
  hnPair ← hostname_pair info;
  _ ← ds_Set (getHostnamePairAgentKey hnPair) (uuid_String agentID);
  _ ← ds_Set (getAgentKey agentID) i;
  hi ← deref (ai_HostInfo info);
  _ ← ds_Set (getPodNameToAgentIDKey (PodName hi)) (uuid_String agentID);
  if negb (collects_data info)
  then ds_Set (getKelvinAgentKey agentID) (uuid_String agentID)
  else mret tt.

Definition GetAgent (agentID : uuid) : M St (option Agent) :=
  resp ← ds_Get (getAgentKey agentID);
  match resp with
  | None => mret None
  | Some resp => aPb ← lift_sum (Unmarshal resp); mret (Some aPb)
  end.

Definition UpdateAgent (agentID : uuid) (agt : Agent) : M St unit :=
  i ← marshal_or "Unable to marshal agent protobuf: " agt;
  ds_Set (getAgentKey agentID) i.

Definition GetComputedSchema : M St ComputedSchema :=
  cSchemas ← ds_Get computedSchemaKey;
  match cSchemas with
  | None => fail ErrNoComputedSchemas
  | Some cSchemas => lift_sum (Unmarshal cSchemas)
  end.

Definition UpdateSchemas (r : range_order) (agentID : uuid) (schemas : list TableInfo) : M St unit :=
  res ← try GetComputedSchema;
  computedSchemaPb ← (match res with
    | inr cs => mret cs
    | inl e => if decide (e = ErrNoComputedSchemas) then mret (mkComputedSchema [] ∅) else fail e
    end);
  computedSchemaPb ← update_schema r (ProtoFromUUID agentID) schemas computedSchemaPb;
  computedSchema ← lift_sum (Marshal computedSchemaPb);
  ds_Set computedSchemaKey computedSchema.

Definition DeleteAgent (r : range_order) (agentID : uuid) : M St unit :=
  resp ← ds_Get (getAgentKey agentID);
  match resp with
  | None => mret tt
  | Some resp =>
    aPb ← lift_sum (Unmarshal (A := Agent) resp);
    info ← deref (ag_Info aPb);
    hnPair ← hostname_pair info;
    hi ← deref (ai_HostInfo info);
    let delKeys := [getAgentKey agentID; getHostnamePairAgentKey hnPair;
                    getPodNameToAgentIDKey (PodName hi)] in
    let delKeys := if negb (collects_data info)
                   then delKeys ++ [getKelvinAgentKey agentID] else delKeys in
    _ ← ds_DeleteAll delKeys;
    _ ← UpdateSchemas r agentID [];
    ds_DeleteWithPrefix (getAgentDataInfoKey agentID)
  end.

(** [for i, key := range keys] over the keys and the values at the same
    indices. *)
Fixpoint collect_agents (keys vals : list string) (agents : list Agent) : M St (list Agent) :=
  match keys with
  | [] => mret agents
  | key :: keys =>
    let '(v, vals) := match vals with [] => (None, []) | v :: vals => (Some v, vals) end in
    if decide (length (split "/" key) = 3) then
      v ← (match v with Some v => mret v | None => panic IndexOutOfRange end);
      pb ← lift_sum (Unmarshal (A := Agent) v);
      match ag_Info pb with
      | Some info =>
        if negb (IsNilUUIDProto (ai_AgentID info)) then collect_agents keys vals (agents ++ [pb])
        else collect_agents keys vals agents
      | None => collect_agents keys vals agents
      end
    else collect_agents keys vals agents
  end.

Definition GetAgents : M St (list Agent) :=
  kvs ← ds_GetWithPrefix agentKeyPrefix;
  collect_agents kvs.1 kvs.2 [].

(** [asidInt + 1] is a [uint64] addition; the mutex serialises the calls. *)
Definition GetASID : M St Z :=
  resp ← ds_Get asidKey;
  let asid := match resp with Some s => s | None => "1" end in
  asidInt ← lift_sum (ParseUint asid 32);
  let updatedAsid := to_uint64 (asidInt + 1) in
  _ ← ds_Set asidKey (FormatUint updatedAsid);
  mret (to_uint32 asidInt).

Definition GetAgentIDFromPodName (podName : string) : M St string :=
  id ← ds_Get (getPodNameToAgentIDKey podName);
  mret (match id with None => "" | Some id => id end).

Fixpoint collect_data_infos (keys vals : list string) (dataInfos : gmap uuid AgentDataInfo)
    : M St (gmap uuid AgentDataInfo) :=
  match keys with
  | [] => mret dataInfos
  | key :: keys =>
    let '(v, vals) := match vals with [] => (None, []) | v :: vals => (Some v, vals) end in
    match split "/" key with
    | [_; _; id] =>
      agentID ← lift_sum (uuid_FromString id);
      v ← (match v with Some v => mret v | None => panic IndexOutOfRange end);
      pb ← lift_sum (Unmarshal v);
      collect_data_infos keys vals (<[agentID := pb]> dataInfos)
    | _ => collect_data_infos keys vals dataInfos
    end
  end.

Definition GetAgentsDataInfo : M St (gmap uuid AgentDataInfo) :=
  kvs ← ds_GetWithPrefix agentDataInfoPrefix;
  collect_data_infos kvs.1 kvs.2 ∅.

Definition UpdateAgentDataInfo (agentID : uuid) (dataInfo : AgentDataInfo) : M St unit :=
  i ← marshal_or "Unable to marshal agent data info protobuf: " dataInfo;
  ds_Set (getAgentDataInfoKey agentID) i.

(** An error of [GetComputedSchema] comes with a nil schema, so every error ends
    the call with a nil error. *)
Definition pruned_schema (existingAgents : gset uuid) (cs : ComputedSchema) : ComputedSchema :=
  let alive agentID := bool_decide (UUIDFromProtoOrNil (Some agentID) ∈ existingAgents) in
  let tableToAgents :=
    omap (λ agentIDs, match filter (λ a, alive a = true) agentIDs with
                      | [] => None
                      | prunedIDs => Some prunedIDs
                      end) (cs_TableNameToAgentIDs cs) in
  mkComputedSchema
    (filter (λ table, bool_decide (is_Some (tableToAgents !! ti_Name table)) = true) (cs_Tables cs))
    tableToAgents.

(** The identifiers of the agents [GetAgents] returned, which all have an
    [Info]. *)
Definition existing_agents (agents : list Agent) : gset uuid :=
  list_to_set ((λ agt, UUIDFromProtoOrNil (info ← ag_Info agt; ai_AgentID info)) <$> agents).

Definition PruneComputedSchema : M St unit :=
  agents ← GetAgents;
  let existingAgents := existing_agents agents in
  res ← try GetComputedSchema;
  match res with
  | inl _ => mret tt
  | inr computedSchemaPb =>
    computedSchema ← lift_sum (Marshal (pruned_schema existingAgents computedSchemaPb));
    ds_Set computedSchemaKey computedSchema
  end.

(** A process that cannot be read back is returned as nil. *)
Fixpoint GetProcesses (upids : list UInt128) : M St (list (option ProcessInfo)) :=
  match upids with
  | [] => mret []
  | upid :: upids =>
    process ← ds_Get (getProcessKey (StringFromUPID upid));
    let p := match process with
             | None => None
             | Some process => match Unmarshal process with inl _ => None | inr pb => Some pb end
             end in
    ps ← GetProcesses upids;
    mret (p :: ps)
  end.

Definition UpdateProcess (expiryDuration : Z) (processPb : ProcessInfo) : M St unit :=
  match Marshal processPb with
  | inl _ => mret tt
  | inr process =>
    upid ← deref (pi_UPID processPb);
    let processKey := getProcessKey (StringFromUPID upid) in
    if (0 <? pi_StopTimestampNS processPb)%Z
    then ds_SetWithTTL processKey process expiryDuration
    else ds_Set processKey process
  end.

Definition UpdateProcesses (expiryDuration : Z) (processes : list ProcessInfo) : M St unit :=
  forM_ processes (UpdateProcess expiryDuration).

Definition GetAgentIDForHostnamePair (hnPair : HostnameIPPair) : M St string :=
  id ← ds_Get (getHostnamePairAgentKey hnPair);
  mret (match id with None => "" | Some id => id end).
End store.

(** ** The store against its abstract state *)

(** Agents and their data by identifier, the next ASID, the computed schema. *)
Record agents_abs `{U : UUIDLib} := mkAbs {
  aa_agents : gmap uuid Agent;
  aa_data : gmap uuid AgentDataInfo;
  aa_asid : Z;
  aa_schema : option ComputedSchema
}.
Arguments mkAbs {_} _ _ _ _.

(** The messages an agent's registration dereferences are there, and its names
    are plain path components. *)
Definition agent_ok (a : Agent) : Prop :=
  ∃ info caps hi, ag_Info a = Some info ∧ ai_Capabilities info = Some caps ∧
    ai_HostInfo info = Some hi ∧ good_comp (PodName hi) = true ∧
    no_sep "/" (Hostname hi) = true ∧ no_sep "/" (HostIP hi) = true.

Definition asid_rep (m : gmap string string) (n : Z) : Prop :=
  (1 ≤ n ≤ 2 ^ 32)%Z ∧
  match m !! asidKey with Some s => s = FormatUint n | None => n = 1%Z end.

Definition schema_rep `{!Proto ComputedSchema} (m : gmap string string) (o : option ComputedSchema) : Prop :=
  match o with
  | Some cs => (∃ b, m !! computedSchemaKey = Some b ∧ Unmarshal b = inr cs) ∧ cs_wf cs
  | None => m !! computedSchemaKey = None
  end.

(** The maps agree on a directory. *)
Definition agrees (d : string) (m m' : gmap string string) : Prop :=
  ∀ k, key_dir k = d → m' !! k = m !! k.

Lemma agrees_refl d m : agrees d m m.
Proof. done. Qed.

Lemma agrees_insert d m m' k v : agrees d m m' → key_dir k ≠ d → agrees d m (<[k := v]> m').
Proof. intros H Hk k' Hk'. rewrite lookup_insert_ne; [by apply H|]. by intros ->. Qed.

Lemma agrees_deletes d m m' ks :
  agrees d m m' → Forall (λ k, key_dir k ≠ d) ks → agrees d m (delete_keys ks m').
Proof.
  intros H Hks k Hk. rewrite lookup_delete_keys. case_decide as Hin; [|by apply H].
  by apply (proj1 (Forall_forall _ _) Hks) in Hin.
Qed.

Create HintDb agrees.
#[export] Hint Resolve agrees_refl agrees_insert agrees_deletes : agrees.

Section key_facts.
Context `{U : UUIDLib} `{!UUIDSpec U}.

Lemma getAgentKey_dkey id : getAgentKey id = dkey "agent" id.
Proof. apply (path_Join_dir "agent/" ["agent"]); [done|by repeat constructor|]. repeat constructor. apply good_comp_uuid. Qed.

Lemma getAgentDataInfoKey_dkey id : getAgentDataInfoKey id = dkey "agentDataInfo" id.
Proof. apply (path_Join_dir "agentDataInfo/" ["agentDataInfo"]); [done|by repeat constructor|]. repeat constructor. apply good_comp_uuid. Qed.

Lemma getKelvinAgentKey_dkey id : getKelvinAgentKey id = dkey "kelvin" id.
Proof. apply (path_Join_dir "kelvin" ["kelvin"]); [done|by repeat constructor|]. repeat constructor. apply good_comp_uuid. Qed.

Lemma getPodNameToAgentIDKey_mkkey pod :
  good_comp pod = true → getPodNameToAgentIDKey pod = mkkey ["podToAgentID"; pod].
Proof. intros Hp. apply (path_Join_dir "podToAgentID" ["podToAgentID"]); [done|by repeat constructor|by repeat constructor]. Qed.

Lemma dashed_good h ip :
  no_sep "/" h = true → no_sep "/" ip = true → good_comp (h +:+ "-" +:+ ip) = true.
Proof.
  intros Hh Hi. apply good_comp_spec. rewrite !no_sep_app, Hh, Hi. split; [done|].
  destruct h as [|c [|d [|e h]]]; repeat split; discriminate || by intros [= ?].
Qed.

Lemma getHostnamePairAgentKey_mkkey p :
  no_sep "/" (hp_Hostname p) = true → no_sep "/" (hp_IP p) = true →
  getHostnamePairAgentKey p = mkkey ["hostnameIP"; hp_Hostname p +:+ "-" +:+ hp_IP p; "agent"].
Proof.
  intros H1 H2. apply (path_Join_dir "hostnameIP" ["hostnameIP"]); [done|by repeat constructor|].
  repeat constructor. by apply dashed_good.
Qed.

Lemma key_dir_pod pod : good_comp pod = true → key_dir (getPodNameToAgentIDKey pod) = "podToAgentID".
Proof.
  intros Hp. rewrite getPodNameToAgentIDKey_mkkey by done. apply key_dir_mkkey.
  apply good_comp_spec in Hp as [? _]. by repeat constructor.
Qed.

Lemma key_dir_hostname p :
  no_sep "/" (hp_Hostname p) = true → no_sep "/" (hp_IP p) = true →
  key_dir (getHostnamePairAgentKey p) = "hostnameIP".
Proof.
  intros H1 H2. rewrite getHostnamePairAgentKey_mkkey by done. apply key_dir_mkkey.
  pose proof (dashed_good _ _ H1 H2) as [? _]%good_comp_spec. by repeat constructor.
Qed.

Lemma key_dir_agent id : key_dir (getAgentKey id) = "agent".
Proof. rewrite getAgentKey_dkey. by apply key_dir_dkey. Qed.
Lemma key_dir_data id : key_dir (getAgentDataInfoKey id) = "agentDataInfo".
Proof. rewrite getAgentDataInfoKey_dkey. by apply key_dir_dkey. Qed.
Lemma key_dir_kelvin id : key_dir (getKelvinAgentKey id) = "kelvin".
Proof. rewrite getKelvinAgentKey_dkey. by apply key_dir_dkey. Qed.

Lemma user_key_agent id : user_key (getAgentKey id) = true.
Proof. rewrite getAgentKey_dkey. apply user_key_mkkey. Qed.
Lemma user_key_data id : user_key (getAgentDataInfoKey id) = true.
Proof. rewrite getAgentDataInfoKey_dkey. apply user_key_mkkey. Qed.
Lemma user_key_kelvin id : user_key (getKelvinAgentKey id) = true.
Proof. rewrite getKelvinAgentKey_dkey. apply user_key_mkkey. Qed.
Lemma user_key_pod pod : good_comp pod = true → user_key (getPodNameToAgentIDKey pod) = true.
Proof. intros H. rewrite getPodNameToAgentIDKey_mkkey by done. apply user_key_mkkey. Qed.
Lemma user_key_hostname p :
  no_sep "/" (hp_Hostname p) = true → no_sep "/" (hp_IP p) = true →
  user_key (getHostnamePairAgentKey p) = true.
Proof. intros. rewrite getHostnamePairAgentKey_mkkey by done. apply user_key_mkkey. Qed.
End key_facts.
#[export] Hint Resolve user_key_agent user_key_data user_key_kelvin user_key_pod user_key_hostname : agrees.

Section store_specs.
Context {St : Type} `{!Datastore St} {view : St → gmap string string} {ok : St → Prop}.
Context `{!DatastoreSpec St view ok} `{U : UUIDLib} `{!UUIDSpec U}.
Context `{!Proto Agent} `{!Proto AgentDataInfo} `{!Proto ComputedSchema} `{!Proto ProcessInfo}.
Context `{!ProtoSpec Agent} `{!ProtoSpec AgentDataInfo} `{!ProtoSpec ComputedSchema} `{!ProtoSpec ProcessInfo}.
Implicit Types (s : St) (A : agents_abs).

Record agents_rep_map (m : gmap string string) A : Prop := {
  rep_agents : dir_rep "agent" m (aa_agents A);
  rep_data : dir_rep "agentDataInfo" m (aa_data A);
  rep_asid : asid_rep m (aa_asid A);
  rep_schema : schema_rep m (aa_schema A);
  rep_ok : map_Forall (λ _ a, agent_ok a) (aa_agents A)
}.

Definition agents_rep s A : Prop := ok s ∧ agents_rep_map (view s) A.

(** Writes elsewhere do not change what is represented. *)
Lemma agents_rep_frame m m' A :
  agents_rep_map m A →
  agrees "agent" m m' → agrees "agentDataInfo" m m' → agrees "asid" m m' → agrees "computedSchema" m m' →
  agents_rep_map m' A.
Proof.
  intros [H1 H2 H3 H4 H5] Ha Hd Hi Hc. split; [..|done].
  - by eapply dir_rep_frame.
  - by eapply dir_rep_frame.
  - unfold asid_rep in *. by rewrite (Hi asidKey) by done.
  - unfold schema_rep in *. by rewrite (Hc computedSchemaKey) by done.
Qed.

Definition set_agent (id : uuid) (a : Agent) A : agents_abs :=
  mkAbs (<[id := a]> (aa_agents A)) (aa_data A) (aa_asid A) (aa_schema A).
Definition set_data (id : uuid) (d : AgentDataInfo) A : agents_abs :=
  mkAbs (aa_agents A) (<[id := d]> (aa_data A)) (aa_asid A) (aa_schema A).
Definition set_asid (n : Z) A : agents_abs := mkAbs (aa_agents A) (aa_data A) n (aa_schema A).
Definition set_schema (cs : ComputedSchema) A : agents_abs :=
  mkAbs (aa_agents A) (aa_data A) (aa_asid A) (Some cs).

(** Writing an agent, a data info, the ASID, the schema. *)
Lemma rep_set_agent m A id a b :
  agents_rep_map m A → agent_ok a → Unmarshal b = inr a →
  agents_rep_map (<[getAgentKey id := b]> m) (set_agent id a A).
Proof.
  intros [H1 H2 H3 H4 H5] Ha Hb.
  assert (∀ d, d ≠ "agent" → agrees d m (<[getAgentKey id := b]> m)) as Hag.
  { intros d Hd. apply agrees_insert; [done|]. rewrite key_dir_agent. done. }
  split; simpl.
  - rewrite getAgentKey_dkey. by apply dir_rep_insert.
  - eapply dir_rep_frame; [done| |done]. by apply Hag.
  - unfold asid_rep in *. by rewrite (Hag "asid" ltac:(done) asidKey).
  - unfold schema_rep in *. by rewrite (Hag "computedSchema" ltac:(done) computedSchemaKey).
  - by apply map_Forall_insert_2.
Qed.

Lemma rep_set_data m A id d b :
  agents_rep_map m A → Unmarshal b = inr d →
  agents_rep_map (<[getAgentDataInfoKey id := b]> m) (set_data id d A).
Proof.
  intros [H1 H2 H3 H4 H5] Hb.
  assert (∀ d, d ≠ "agentDataInfo" → agrees d m (<[getAgentDataInfoKey id := b]> m)) as Hag.
  { intros d' Hd. apply agrees_insert; [done|]. by rewrite key_dir_data. }
  split; simpl; [| | | |done].
  - eapply dir_rep_frame; [done| |done]. by apply Hag.
  - rewrite getAgentDataInfoKey_dkey. by apply dir_rep_insert.
  - unfold asid_rep in *. by rewrite (Hag "asid" ltac:(done) asidKey).
  - unfold schema_rep in *. by rewrite (Hag "computedSchema" ltac:(done) computedSchemaKey).
Qed.

Lemma rep_set_asid m A n :
  agents_rep_map m A → (1 ≤ n ≤ 2 ^ 32)%Z →
  agents_rep_map (<[asidKey := FormatUint n]> m) (set_asid n A).
Proof.
  intros [H1 H2 H3 H4 H5] Hn. split; simpl; [| | | |done].
  - eapply dir_rep_frame; [done| |done]. by apply agrees_insert.
  - eapply dir_rep_frame; [done| |done]. by apply agrees_insert.
  - split; [done|]. by rewrite lookup_insert_eq.
  - unfold schema_rep in *. by rewrite lookup_insert_ne.
Qed.

Lemma rep_set_schema m A cs b :
  agents_rep_map m A → cs_wf cs → Unmarshal b = inr cs →
  agents_rep_map (<[computedSchemaKey := b]> m) (set_schema cs A).
Proof.
  intros [H1 H2 H3 H4 H5] Hcs Hb. split; simpl; [| | | |done].
  - eapply dir_rep_frame; [done| |done]. by apply agrees_insert.
  - eapply dir_rep_frame; [done| |done]. by apply agrees_insert.
  - destruct H3 as [? H3]. split; [done|]. by rewrite lookup_insert_ne.
  - split; [|done]. exists b. by rewrite lookup_insert_eq.
Qed.

(** *** Operations *)

Lemma wp_marshal_or {X} `{!Proto X} `{!ProtoSpec X} msg (x : X) Q s :
  (∀ b, Unmarshal b = inr x → Q b s) → wp (marshal_or msg x) Q s.
Proof using Type.
  intros HQ. destruct (proto_roundtrip x) as (b & E & Hb). unfold marshal_or. rewrite E.
  apply wp_ret. auto.
Qed.

(** The pair an agent is registered under. *)
Definition agent_pair (info : AgentInfo) (hi : HostInfo) : HostnameIPPair :=
  mkHostnameIPPair (if collects_data info then "" else Hostname hi) (HostIP hi).

Lemma hostname_pair_ok info caps hi (s : St) :
  ai_Capabilities info = Some caps → ai_HostInfo info = Some hi →
  hostname_pair info s = (Ret (agent_pair info hi), s).
Proof using Type.
  intros Hc Hh. unfold hostname_pair, agent_pair, collects_data. rewrite Hc, Hh.
  by destruct caps as [[]].
Qed.

Lemma agent_pair_ok info hi :
  no_sep "/" (Hostname hi) = true → no_sep "/" (HostIP hi) = true →
  no_sep "/" (hp_Hostname (agent_pair info hi)) = true ∧ no_sep "/" (hp_IP (agent_pair info hi)) = true.
Proof using Type. intros H1 H2. unfold agent_pair. simpl. by destruct (collects_data info). Qed.

Lemma GetAgent_spec s A id : agents_rep s A → GetAgent id s = (Ret (aa_agents A !! id), s).
Proof.
  intros [Hok HR]. unfold GetAgent.
  run_with (spec_Get s (getAgentKey id) Hok (user_key_agent id)).
  pose proof (proj1 (rep_agents _ _ HR) id) as H. rewrite getAgentKey_dkey.
  destruct (aa_agents A !! id) as [a|].
  - destruct H as (b & -> & Hb). run_with (lift_sum_ret _ _ s Hb). done.
  - by rewrite H.
Qed.

Lemma UpdateAgent_spec s A id a :
  agents_rep s A → agent_ok a → wp (UpdateAgent id a) (λ _ s', agents_rep s' (set_agent id a A)) s.
Proof.
  intros [Hok HR] Ha. unfold UpdateAgent. apply wp_bind, wp_marshal_or. intros b Hb.
  apply wp_Set; [done|apply user_key_agent|]. intros s' Hok' Hv. split; [done|].
  rewrite Hv. by apply rep_set_agent.
Qed.

(** The registration of an agent: the agent, and the three indexes to it. *)
Lemma CreateAgent_spec s A id a info hi :
  agents_rep s A → agent_ok a → ag_Info a = Some info → ai_HostInfo info = Some hi →
  wp (CreateAgent id a) (λ _ s', agents_rep s' (set_agent id a A) ∧
    view s' !! getPodNameToAgentIDKey (PodName hi) = Some (uuid_String id) ∧
    view s' !! getHostnamePairAgentKey (agent_pair info hi) = Some (uuid_String id)) s.
Proof.
  intros [Hok HR] Ha Hinfo Hhi. pose proof Ha as (? & caps & ? & E1 & Hc & E2 & Hpod & Hhn & Hip).
  rewrite Hinfo in E1. injection E1 as <-. rewrite Hhi in E2. injection E2 as <-.
  destruct (agent_pair_ok info hi Hhn Hip) as [Hp1 Hp2].
  pose proof (key_dir_pod _ Hpod) as Dp. pose proof (key_dir_hostname _ Hp1 Hp2) as Dh.
  unfold CreateAgent. apply wp_bind, wp_marshal_or. intros b Hb. rewrite Hinfo. wp_steps.
  unfold wp at 1. rewrite (hostname_pair_ok info caps hi s Hc Hhi). apply wp_bind.
  apply wp_Set; [done|by apply user_key_hostname|]. intros s1 Hok1 Hv1. apply wp_bind.
  apply wp_Set; [done|apply user_key_agent|]. intros s2 Hok2 Hv2. rewrite Hhi. wp_steps.
  apply wp_Set; [done|by apply user_key_pod|]. intros s3 Hok3 Hv3. rewrite Hv2, Hv1 in Hv3.
  assert (agents_rep_map (view s3) (set_agent id a A)) as HR3.
  { rewrite Hv3. eapply agents_rep_frame; [apply rep_set_agent; [|done..]; eapply agents_rep_frame; [done|..]|..];
      apply agrees_insert; try done; by rewrite ?Dp, ?Dh. }
  assert (view s3 !! getPodNameToAgentIDKey (PodName hi) = Some (uuid_String id)) as Hpv.
  { by rewrite Hv3, lookup_insert_eq. }
  assert (view s3 !! getHostnamePairAgentKey (agent_pair info hi) = Some (uuid_String id)) as Hhv.
  { rewrite Hv3, lookup_insert_ne, lookup_insert_ne, lookup_insert_eq; [done|..];
      apply key_dir_ne; rewrite ?Dp, ?Dh, ?key_dir_agent; done. }
  destruct (negb (collects_data info)); [|by apply wp_ret].
  apply wp_Set; [done|apply user_key_kelvin|]. intros s4 Hok4 Hv4. rewrite Hv4. split_and!.
  - split; [done|]. rewrite Hv4. eapply agents_rep_frame; [done|..];
      (apply agrees_insert; [done|by rewrite key_dir_kelvin]).
  - rewrite lookup_insert_ne; [done|]. apply key_dir_ne. by rewrite Dp, key_dir_kelvin.
  - rewrite lookup_insert_ne; [done|]. apply key_dir_ne. by rewrite Dh, key_dir_kelvin.
Qed.

Lemma UpdateAgentDataInfo_spec s A id d :
  agents_rep s A → wp (UpdateAgentDataInfo id d) (λ _ s', agents_rep s' (set_data id d A)) s.
Proof.
  intros [Hok HR]. unfold UpdateAgentDataInfo. apply wp_bind, wp_marshal_or. intros b Hb.
  apply wp_Set; [done|apply user_key_data|]. intros s' Hok' Hv. split; [done|].
  rewrite Hv. by apply rep_set_data.
Qed.

Lemma GetComputedSchema_spec s A :
  agents_rep s A →
  GetComputedSchema s = (match aa_schema A with Some cs => Ret cs | None => Err ErrNoComputedSchemas end, s).
Proof.
  intros [Hok HR]. unfold GetComputedSchema. run_with (spec_Get s computedSchemaKey Hok eq_refl).
  pose proof (rep_schema _ _ HR) as H. destruct (aa_schema A) as [cs|]; simpl in H.
  - destruct H as [(b & -> & Hb) _]. by rewrite Hb.
  - by rewrite H.
Qed.

Definition schema_or_empty (o : option ComputedSchema) : ComputedSchema :=
  default (mkComputedSchema [] ∅) o.

(** How [cs'] relates to [cs] after the agent [pb] reported [schemas]. *)
Definition schema_updated (pb : UUIDpb) (schemas : list TableInfo) (cs cs' : ComputedSchema) : Prop :=
  (∀ t a, a ∈ agents_of cs' t ↔
    if decide (a = pb) then t ∈ names schemas else a ∈ agents_of cs t) ∧
  (∀ ti, ti ∈ cs_Tables cs' ↔ ti ∈ schemas ∨
    (ti ∈ cs_Tables cs ∧ (ti_Name ti ∉ names schemas) ∧ ∃ a, a ≠ pb ∧ a ∈ agents_of cs (ti_Name ti))).

Lemma rep_schema_wf s A : agents_rep s A → cs_wf (schema_or_empty (aa_schema A)).
Proof.
  intros [_ HR]. pose proof (rep_schema _ _ HR) as H.
  destruct (aa_schema A); [by destruct H|apply wf_empty].
Qed.

Lemma UpdateSchemas_spec r s A id schemas :
  range_ok r → agents_rep s A → NoDup (names schemas) →
  ∃ cs s', UpdateSchemas r id schemas s = (Ret tt, s') ∧ agents_rep s' (set_schema cs A) ∧ cs_wf cs ∧
    schema_updated (ProtoFromUUID id) schemas (schema_or_empty (aa_schema A)) cs ∧
    ∃ b, view s' = <[computedSchemaKey := b]> (view s).
Proof.
  intros Hr HR Hnd. pose proof (GetComputedSchema_spec s A HR) as Hg.
  pose proof (rep_schema_wf s A HR) as Hwf.
  destruct (update_schema_spec r (ProtoFromUUID id) schemas _ s Hr Hwf Hnd) as (cs & E & Hwf' & Hag & Hts).
  destruct (proto_roundtrip cs) as (b & Hm & Hu). pose proof HR as [Hok HRm].
  destruct (spec_Set s computedSchemaKey b Hok eq_refl) as (s' & Es & Hok' & Hv).
  exists cs, s'. split_and!; [|split; [done|]|done|done|eauto].
  - unfold UpdateSchemas. destruct (aa_schema A) as [cs0|]; simpl in E.
    + run_with (try_ret _ _ _ _ Hg). unfold mbind at 1, M_bind, mret, M_ret.
      run_with E. run_with (lift_sum_ret _ _ s Hm). exact Es.
    + run_with (try_err _ _ _ _ Hg). rewrite decide_True by done.
      unfold mbind at 1, M_bind, mret, M_ret. run_with E. run_with (lift_sum_ret _ _ s Hm). exact Es.
  - rewrite Hv. by apply rep_set_schema.
Qed.

(** *** Listings *)

Definition valid_agent (a : Agent) : bool :=
  match ag_Info a with Some info => negb (IsNilUUIDProto (ai_AgentID info)) | None => false end.

Lemma collect_agents_listing m (As : gmap uuid Agent) ids acc s :
  dir_rep "agent" m As → (∀ id, id ∈ ids → is_Some (As !! id)) →
  collect_agents (dkey "agent" <$> ids) (lookup_values m (dkey "agent" <$> ids)) acc s =
    (Ret (acc ++ filter (λ a, valid_agent a = true) (omap (λ id, As !! id) ids)), s).
Proof.
  intros HR. revert acc. induction ids as [|id ids IH]; intros acc Hids.
  { simpl. by rewrite app_nil_r. }
  destruct (Hids id) as [a Ha]; [by left|].
  pose proof (proj1 HR id) as Hid. rewrite Ha in Hid. destruct Hid as (b & Hb & Hu).
  rewrite fmap_cons. unfold lookup_values. rewrite fmap_cons. fold (lookup_values m (dkey "agent" <$> ids)).
  cbn [collect_agents]. rewrite split_dkey by done. rewrite decide_True by done. rewrite Hb.
  simpl. unfold mbind at 1, M_bind, mret at 1, M_ret. run_with (lift_sum_ret _ _ s Hu).
  rewrite Ha.
  assert (∀ k : list Agent → M St (list Agent), match ag_Info a with
    | Some info => if negb (IsNilUUIDProto (ai_AgentID info)) then k (acc ++ [a]) else k acc
    | None => k acc end = k (if valid_agent a then acc ++ [a] else acc)) as Hk.
  { intros k. unfold valid_agent. destruct (ag_Info a) as [info|]; [|done]. by destruct (negb _). }
  rewrite (Hk (collect_agents _ _)), IH by set_solver. destruct (valid_agent a) eqn:Ev.
  - rewrite filter_cons_True by done. by rewrite <-app_assoc.
  - by rewrite filter_cons_False by (by rewrite Ev).
Qed.

(** The agents with a valid identifier, each once. *)
Lemma omap_ids_perm {X} (As : gmap uuid X) ids :
  NoDup ids → (∀ id, id ∈ ids ↔ is_Some (As !! id)) →
  omap (λ id, As !! id) ids ≡ₚ (map_to_list As).*2.
Proof using Type.
  intros Hnd Hids.
  assert (ids ≡ₚ (map_to_list As).*1) as ->.
  { apply NoDup_Permutation; [done|apply NoDup_fst_map_to_list|]. intros id. rewrite Hids, list_elem_of_fmap.
    split; [intros [a Ha]; exists (id, a); by rewrite elem_of_map_to_list|].
    intros ([id' a] & -> & H%elem_of_map_to_list). eauto. }
  assert (∀ l : list (uuid * X), (∀ kv, kv ∈ l → As !! kv.1 = Some kv.2) →
    omap (λ id, As !! id) l.*1 = l.*2) as H.
  { induction l as [|[id a] l IH]; intros Hl; [done|]. pose proof (Hl (id, a) ltac:(by left)) as Hx. simpl in *. rewrite Hx.
    f_equal. apply IH. intros kv Hkv. apply Hl. by right. }
  rewrite H; [done|]. intros [id a] Hin%elem_of_map_to_list. done.
Qed.

Lemma GetAgents_spec s A :
  agents_rep s A →
  ∃ l, GetAgents s = (Ret l, s) ∧ l ≡ₚ filter (λ a, valid_agent a = true) (map_to_list (aa_agents A)).*2.
Proof.
  intros [Hok HR]. unfold GetAgents. run_with (spec_GetWithPrefix s agentKeyPrefix Hok eq_refl).
  destruct (dir_listing "agent" eq_refl (view s) (aa_agents A) (rep_agents _ _ HR)) as (ids & Hk & Hnd & Hids).
  change ("/" +:+ "agent" +:+ "/") with agentKeyPrefix in Hk.
  assert ((kv_prefix (view s) agentKeyPrefix).2 = lookup_values (view s) (dkey "agent" <$> ids)) as ->.
  { by rewrite <-Hk. }
  rewrite Hk. rewrite (collect_agents_listing _ (aa_agents A)); [|apply HR|naive_solver].
  eexists. split; [done|]. simpl. by rewrite omap_ids_perm.
Qed.

Lemma collect_data_infos_listing m (D : gmap uuid AgentDataInfo) ids acc s :
  dir_rep "agentDataInfo" m D → (∀ id, id ∈ ids → is_Some (D !! id)) →
  ∃ M, collect_data_infos (dkey "agentDataInfo" <$> ids)
      (lookup_values m (dkey "agentDataInfo" <$> ids)) acc s = (Ret M, s) ∧
    ∀ id, M !! id = if decide (id ∈ ids) then D !! id else acc !! id.
Proof.
  intros HR. revert acc. induction ids as [|id ids IH]; intros acc Hids.
  { exists acc. split; [done|]. intros id. by rewrite decide_False by set_solver. }
  destruct (Hids id) as [d Hd]; [by left|].
  pose proof (proj1 HR id) as Hid. rewrite Hd in Hid. destruct Hid as (b & Hb & Hu).
  rewrite fmap_cons. unfold lookup_values. rewrite fmap_cons. fold (lookup_values m (dkey "agentDataInfo" <$> ids)).
  destruct (IH (<[id:=d]> acc)) as (M' & E & HM); [set_solver|].
  exists M'. split.
  - cbn [collect_data_infos]. rewrite split_dkey by done.
    run_with (lift_sum_ret _ _ s (uuid_FromString_String id)). rewrite Hb. simpl.
    unfold mbind at 1, M_bind, mret at 1, M_ret. run_with (lift_sum_ret _ _ s Hu). exact E.
  - intros id'. rewrite HM. destruct (decide (id' ∈ ids)).
    + by rewrite decide_True by set_solver.
    + destruct (decide (id' = id)) as [->|].
      * by rewrite lookup_insert_eq, decide_True by set_solver.
      * by rewrite lookup_insert_ne, decide_False by set_solver.
Qed.

Lemma GetAgentsDataInfo_spec s A :
  agents_rep s A → GetAgentsDataInfo s = (Ret (aa_data A), s).
Proof.
  intros [Hok HR]. unfold GetAgentsDataInfo. run_with (spec_GetWithPrefix s agentDataInfoPrefix Hok eq_refl).
  destruct (dir_listing "agentDataInfo" eq_refl (view s) (aa_data A) (rep_data _ _ HR)) as (ids & Hk & Hnd & Hids).
  change ("/" +:+ "agentDataInfo" +:+ "/") with agentDataInfoPrefix in Hk.
  assert ((kv_prefix (view s) agentDataInfoPrefix).2 = lookup_values (view s) (dkey "agentDataInfo" <$> ids)) as ->.
  { by rewrite <-Hk. }
  rewrite Hk. destruct (collect_data_infos_listing (view s) (aa_data A) ids ∅ s) as (M' & E & HM);
    [apply HR|naive_solver|].
  rewrite E. do 2 f_equal. apply map_eq. intros id. rewrite HM.
  destruct (decide (id ∈ ids)) as [|Hn]; [done|]. rewrite Hids in Hn.
  apply eq_None_not_Some in Hn. by rewrite Hn.
Qed.

(** *** Identifiers *)

Lemma GetASID_spec s A :
  agents_rep s A →
  if (aa_asid A <? 2 ^ 32)%Z
  then wp GetASID (λ n s', n = aa_asid A ∧ agents_rep s' (set_asid (aa_asid A + 1) A)) s
  else GetASID s = (Err ErrRange, s).
Proof.
  intros [Hok HR]. pose proof (rep_asid _ _ HR) as [Hn Hm]. unfold GetASID.
  assert (match view s !! asidKey with Some s => s | None => "1" end = FormatUint (aa_asid A)) as Hs.
  { destruct (view s !! asidKey); [done|]. by rewrite Hm. }
  destruct (Z.ltb_spec (aa_asid A) (2 ^ 32)).
  - apply wp_bind, wp_Get; [done|done|]. rewrite Hs. apply wp_bind.
    eapply wp_lift_sum; [by apply ParseUint_FormatUint; lia|].
    assert (to_uint64 (aa_asid A + 1) = aa_asid A + 1)%Z as -> by (unfold to_uint64; by rewrite Z.mod_small by lia).
    apply wp_bind, wp_Set; [done|done|]. intros s' Hok' Hv. apply wp_ret. split.
    + unfold to_uint32. by rewrite Z.mod_small by lia.
    + split; [done|]. rewrite Hv. apply rep_set_asid; [done|lia].
  - run_with (spec_Get s asidKey Hok eq_refl). rewrite Hs.
    rewrite ParseUint_FormatUint_range by lia. done.
Qed.

(** *** Deletion *)

Definition remove_agent (id : uuid) (cs : ComputedSchema) A : agents_abs :=
  mkAbs (delete id (aa_agents A)) (delete id (aa_data A)) (aa_asid A) (Some cs).

Lemma agrees_delete_prefix d m id :
  d ≠ "agentDataInfo" → agrees d m (delete_prefix (getAgentDataInfoKey id) m).
Proof.
  intros Hd k Hk. rewrite lookup_delete_prefix. destruct (HasPrefix k _) eqn:E; [|done].
  destruct Hd. rewrite <-Hk. apply HasPrefix_dir; [done|]. rewrite getAgentDataInfoKey_dkey in E.
  apply HasPrefix_spec in E as [t ->]. apply HasPrefix_spec. exists (uuid_String id +:+ t).
  change (dkey "agentDataInfo" id) with ("/" +:+ "agentDataInfo" +:+ "/" +:+ uuid_String id).
  by rewrite !str_app_assoc.
Qed.

(** The map without an agent and the keys that lead to it. *)
Lemma rep_delete_agent m A id ks :
  agents_rep_map m A → getAgentKey id ∈ ks →
  Forall (λ k, k = getAgentKey id ∨
    key_dir k = "hostnameIP" ∨ key_dir k = "podToAgentID" ∨ key_dir k = "kelvin") ks →
  agents_rep_map (delete_keys ks m) (mkAbs (delete id (aa_agents A)) (aa_data A) (aa_asid A) (aa_schema A)).
Proof.
  intros [H1 H2 H3 H4 H5] Hin Hks.
  assert (∀ d, d ≠ "agent" → d ≠ "hostnameIP" → d ≠ "podToAgentID" → d ≠ "kelvin" →
    agrees d m (delete_keys ks m)) as Hag.
  { intros d D1 D2 D3 D4. apply agrees_deletes; [done|]. eapply Forall_impl; [done|].
    intros k [->|[->|[->| ->]]]; [rewrite key_dir_agent|..]; congruence. }
  split; simpl.
  - apply (dir_rep_delete "agent" eq_refl m); [done| |].
    + rewrite lookup_delete_keys, <-getAgentKey_dkey. by rewrite decide_True.
    + intros k Hk Hne. rewrite lookup_delete_keys. case_decide as Hd; [|done].
      apply (proj1 (Forall_forall _ _) Hks) in Hd. rewrite <-getAgentKey_dkey in Hne. naive_solver congruence.
  - eapply dir_rep_frame; [done| |done]. by apply Hag.
  - unfold asid_rep in *. by rewrite (Hag "asid" ltac:(done) ltac:(done) ltac:(done) ltac:(done) asidKey).
  - unfold schema_rep in *.
    by rewrite (Hag "computedSchema" ltac:(done) ltac:(done) ltac:(done) ltac:(done) computedSchemaKey).
  - by apply map_Forall_delete.
Qed.

Lemma rep_delete_data m A id :
  agents_rep_map m A →
  agents_rep_map (delete_prefix (getAgentDataInfoKey id) m)
    (mkAbs (aa_agents A) (delete id (aa_data A)) (aa_asid A) (aa_schema A)).
Proof.
  intros [H1 H2 H3 H4 H5]. split; simpl; [| | | |done].
  - eapply dir_rep_frame; [done| |done]. by apply agrees_delete_prefix.
  - apply (dir_rep_delete "agentDataInfo" eq_refl m); [done| |]; rewrite getAgentDataInfoKey_dkey.
    + rewrite lookup_delete_prefix. by rewrite (proj2 (HasPrefix_spec _ _)) by (exists ""; by rewrite str_app_nil_r).
    + intros k Hk Hne. rewrite lookup_delete_prefix. destruct (HasPrefix k _) eqn:E; [|done].
      symmetry. apply eq_None_not_Some. intros Hs. destruct (proj2 H2 k Hk Hs) as [id' ->].
      apply HasPrefix_dkey_inj in E; [congruence|done].
  - unfold asid_rep in *. by rewrite (agrees_delete_prefix "asid" m id ltac:(done) asidKey).
  - unfold schema_rep in *.
    by rewrite (agrees_delete_prefix "computedSchema" m id ltac:(done) computedSchemaKey).
Qed.

Definition delete_keys_of (id : uuid) (info : AgentInfo) (hi : HostInfo) : list string :=
  let ks := [getAgentKey id; getHostnamePairAgentKey (agent_pair info hi);
             getPodNameToAgentIDKey (PodName hi)] in
  if negb (collects_data info) then ks ++ [getKelvinAgentKey id] else ks.

Lemma delete_keys_of_kinds id info hi :
  good_comp (PodName hi) = true → no_sep "/" (Hostname hi) = true → no_sep "/" (HostIP hi) = true →
  Forall (λ k, k = getAgentKey id ∨
    key_dir k = "hostnameIP" ∨ key_dir k = "podToAgentID" ∨ key_dir k = "kelvin") (delete_keys_of id info hi) ∧
  Forall (λ k, user_key k = true) (delete_keys_of id info hi).
Proof.
  intros Hpod Hhn Hip. destruct (agent_pair_ok info hi Hhn Hip) as [Hp1 Hp2].
  pose proof (key_dir_pod _ Hpod) as Dp. pose proof (key_dir_hostname _ Hp1 Hp2) as Dh.
  unfold delete_keys_of. split.
  - assert (Forall (λ k, k = getAgentKey id ∨ key_dir k = "hostnameIP" ∨ key_dir k = "podToAgentID" ∨
      key_dir k = "kelvin") [getAgentKey id; getHostnamePairAgentKey (agent_pair info hi);
      getPodNameToAgentIDKey (PodName hi)]) as H3 by (repeat constructor; auto).
    destruct (negb _); [|done]. apply Forall_app. split; [done|]. apply Forall_singleton.
    rewrite key_dir_kelvin. auto.
  - assert (Forall (λ k, user_key k = true) [getAgentKey id; getHostnamePairAgentKey (agent_pair info hi);
      getPodNameToAgentIDKey (PodName hi)]) as H3.
    { repeat constructor; [apply user_key_agent|by apply user_key_hostname|by apply user_key_pod]. }
    destruct (negb _); [|done]. apply Forall_app. split; [done|]. apply Forall_singleton.
    apply user_key_kelvin.
Qed.

(** Deleting an agent removes it, its data and its entries in the schema. *)
Lemma DeleteAgent_spec r s A id :
  range_ok r → agents_rep s A →
  match aa_agents A !! id with
  | None => DeleteAgent r id s = (Ret tt, s)
  | Some a => ∃ cs s', DeleteAgent r id s = (Ret tt, s') ∧ agents_rep s' (remove_agent id cs A) ∧ cs_wf cs ∧
      schema_updated (ProtoFromUUID id) [] (schema_or_empty (aa_schema A)) cs ∧
      ∀ info hi, ag_Info a = Some info → ai_HostInfo info = Some hi →
        view s' !! getPodNameToAgentIDKey (PodName hi) = None ∧
        view s' !! getHostnamePairAgentKey (agent_pair info hi) = None
  end.
Proof.
  intros Hr [Hok HR]. unfold DeleteAgent.
  pose proof (spec_Get s (getAgentKey id) Hok (user_key_agent id)) as Hget.
  rewrite (bind_ret _ _ _ _ _ Hget). pose proof (proj1 (rep_agents _ _ HR) id) as H.
  rewrite getAgentKey_dkey. destruct (aa_agents A !! id) as [a|] eqn:Ea; [|by rewrite H].
  destruct H as (b & -> & Hb). run_with (lift_sum_ret _ _ s Hb).
  pose proof (rep_ok _ _ HR id a Ea) as (info & caps & hi & Hi & Hc & Hh & Hpod & Hhn & Hip).
  rewrite Hi. unfold mbind at 1, M_bind at 1. cbn [deref mret M_ret].
  run_with (hostname_pair_ok info caps hi s Hc Hh). rewrite Hh.
  unfold mbind at 1, M_bind at 1. cbn [deref mret M_ret]. rewrite <-getAgentKey_dkey.
  fold (delete_keys_of id info hi). destruct (delete_keys_of_kinds id info hi Hpod Hhn Hip) as [Hkinds Huser].
  destruct (spec_DeleteAll s _ Hok Huser) as (s1 & E1 & Hok1 & Hv1). run_with E1.
  assert (agents_rep s1 (mkAbs (delete id (aa_agents A)) (aa_data A) (aa_asid A) (aa_schema A))) as HR1.
  { split; [done|]. rewrite Hv1. apply rep_delete_agent; [done| |done].
    unfold delete_keys_of. destruct (negb _); set_solver. }
  destruct (UpdateSchemas_spec r s1 _ id [] Hr HR1 ltac:(constructor)) as (cs & s2 & E2 & HR2 & Hwf & Hup & bs & Hv2).
  run_with E2. destruct HR2 as [Hok2 HR2].
  destruct (spec_DeleteWithPrefix s2 (getAgentDataInfoKey id) Hok2 (user_key_data id)) as (s3 & E3 & Hok3 & Hv3).
  exists cs, s3. split_and!; [done| |done|done|].
  - split; [done|]. rewrite Hv3. exact (rep_delete_data _ _ id HR2).
  - intros info' hi' Hi' Hh'. injection Hi' as <-. rewrite Hh in Hh'. injection Hh' as <-.
    destruct (agent_pair_ok info hi Hhn Hip) as [Hp1 Hp2].
    pose proof (key_dir_pod _ Hpod) as Dp. pose proof (key_dir_hostname _ Hp1 Hp2) as Dh.
    assert (∀ k, k ∈ delete_keys_of id info hi → key_dir k ≠ "computedSchema" → view s3 !! k = None) as Hgone.
    { intros k Hk Hd. rewrite Hv3, lookup_delete_prefix. destruct (HasPrefix _ _); [done|].
      rewrite Hv2, lookup_insert_ne by (intros <-; by apply Hd). by rewrite Hv1, lookup_delete_keys, decide_True. }
    split; apply Hgone; rewrite ?Dp, ?Dh; try done; unfold delete_keys_of; destruct (negb _); set_solver.
Qed.

(** *** Pruning *)

Lemma elem_of_existing l u :
  u ∈ existing_agents l ↔
    ∃ a, a ∈ l ∧ u = UUIDFromProtoOrNil (info ← ag_Info a; ai_AgentID info).
Proof. unfold existing_agents. rewrite elem_of_list_to_set, list_elem_of_fmap. naive_solver. Qed.

Lemma pruned_agents live cs t :
  cs_TableNameToAgentIDs (pruned_schema live cs) !! t =
    match filter (λ a, bool_decide (UUIDFromProtoOrNil (Some a) ∈ live) = true) (agents_of cs t) with
    | [] => None
    | l => Some l
    end.
Proof.
  unfold pruned_schema, agents_of. simpl. rewrite lookup_omap.
  by destruct (cs_TableNameToAgentIDs cs !! t).
Qed.

Lemma pruned_agents_of live cs t a :
  a ∈ agents_of (pruned_schema live cs) t ↔
    a ∈ agents_of cs t ∧ UUIDFromProtoOrNil (Some a) ∈ live.
Proof.
  unfold agents_of at 1. rewrite pruned_agents.
  transitivity (a ∈ filter (λ a, bool_decide (UUIDFromProtoOrNil (Some a) ∈ live) = true) (agents_of cs t)).
  { by destruct (filter _ _). }
  rewrite list_elem_of_filter, bool_decide_eq_true. naive_solver.
Qed.

(** Pruning keeps the invariant, the live agents, and the tables that still have
    one. *)
Lemma pruned_schema_spec live cs :
  cs_wf cs →
  cs_wf (pruned_schema live cs) ∧
  (∀ t a, a ∈ agents_of (pruned_schema live cs) t ↔
    a ∈ agents_of cs t ∧ UUIDFromProtoOrNil (Some a) ∈ live) ∧
  (∀ ti, ti ∈ cs_Tables (pruned_schema live cs) ↔
    ti ∈ cs_Tables cs ∧ ∃ a, a ∈ agents_of (pruned_schema live cs) (ti_Name ti)).
Proof.
  intros Hwf. pose proof (pruned_agents_of live cs) as Hag.
  assert (∀ t, is_Some (cs_TableNameToAgentIDs (pruned_schema live cs) !! t) ↔
    ∃ a, a ∈ agents_of (pruned_schema live cs) t) as Hsome.
  { intros t. setoid_rewrite agents_of_Some. rewrite pruned_agents.
    destruct (filter _ _) as [|a l]; [naive_solver|]. split; [|eauto]. intros _.
    exists a, (a :: l). split; [done|by left]. }
  assert (∀ ti, ti ∈ cs_Tables (pruned_schema live cs) ↔
    ti ∈ cs_Tables cs ∧ ∃ a, a ∈ agents_of (pruned_schema live cs) (ti_Name ti)) as Hts.
  { intros ti. rewrite <-Hsome. simpl. rewrite list_elem_of_filter, bool_decide_eq_true. naive_solver. }
  split_and!; [|done|done]. split.
  - simpl. pose proof (wf_names cs Hwf) as Hnd. revert Hnd. generalize (cs_Tables cs). intros ts.
    induction ts as [|ti ts IH]; [done|]. rewrite fmap_cons. intros [Hnin Hnd]%NoDup_cons.
    rewrite filter_cons. destruct (decide _); [|by apply IH]. rewrite fmap_cons. apply NoDup_cons.
    split; [|by apply IH]. intros (ti' & E & [_ Hin]%list_elem_of_filter)%list_elem_of_fmap.
    apply Hnin. rewrite E. by apply list_elem_of_fmap_2.
  - intros t. rewrite Hsome, list_elem_of_fmap. setoid_rewrite Hts. split.
    + intros (ti & -> & _ & ?). done.
    + intros (a & Ha). pose proof (proj1 (Hag t a) Ha) as [Hin _].
      assert (t ∈ names (cs_Tables cs)) as (ti & -> & Hti)%list_elem_of_fmap
        by (apply wf_table_agent; eauto). eauto.
  - intros t l. rewrite pruned_agents. destruct (filter _ _) as [|a k] eqn:E; [done|]. intros [= <-].
    split; [done|]. rewrite <-E. apply NoDup_filter. unfold agents_of.
    destruct (cs_TableNameToAgentIDs cs !! t) eqn:El; simpl; [|constructor].
    by apply (wf_agents cs Hwf t).
Qed.

(** The identifiers of the registered agents. *)
Definition live_ids A : gset uuid :=
  existing_agents (filter (λ a, valid_agent a = true) (map_to_list (aa_agents A)).*2).

Lemma PruneComputedSchema_spec s A cs :
  agents_rep s A → aa_schema A = Some cs →
  wp PruneComputedSchema (λ _ s', agents_rep s' (set_schema (pruned_schema (live_ids A) cs) A)) s.
Proof.
  intros HR Hcs. destruct (GetAgents_spec s A HR) as (l & E & Hl).
  assert (existing_agents l = live_ids A) as Hlive.
  { apply set_eq. intros u. unfold live_ids. rewrite !elem_of_existing. by setoid_rewrite Hl. }
  pose proof (rep_schema_wf s A HR) as Hwf. rewrite Hcs in Hwf. simpl in Hwf.
  destruct (pruned_schema_spec (live_ids A) cs Hwf) as [Hwf' _].
  pose proof (GetComputedSchema_spec s A HR) as Hg. rewrite Hcs in Hg. simpl in Hg.
  unfold PruneComputedSchema. apply wp_bind. unfold wp at 1. rewrite E. apply wp_bind.
  unfold wp at 1. rewrite (try_ret _ _ _ _ Hg). rewrite Hlive.
  destruct (proto_roundtrip (pruned_schema (live_ids A) cs)) as (b & Hm & Hu).
  apply wp_bind. eapply wp_lift_sum; [exact Hm|]. destruct HR as [Hok HR].
  apply wp_Set; [done|done|]. intros s' Hok' Hv. split; [done|]. rewrite Hv. by apply rep_set_schema.
Qed.

(** *** Processes *)

Lemma good_comp_upid u : UInt128_wf u → good_comp (StringFromUPID u) = true.
Proof.
  intros Hu. assert (no_sep "/" (StringFromUPID u) = true) as Hs.
  { unfold StringFromUPID. rewrite !no_sep_app. rewrite !andb_true_iff. split_and!; try done;
      (eapply no_sep_digits; apply FormatUint_val); try (apply Z.mod_pos_bound; lia). apply Hu. }
  apply good_comp_spec. split; [done|]. pose proof (split_StringFromUPID u Hu) as Hsp.
  split_and!; intros E; rewrite E in Hsp; done.
Qed.

Lemma getProcessKey_mkkey u :
  UInt128_wf u → getProcessKey (StringFromUPID u) = mkkey ["processes"; StringFromUPID u].
Proof.
  intros Hu. apply (path_Join_dir "processes" ["processes"]); [done|by repeat constructor|].
  repeat constructor. by apply good_comp_upid.
Qed.

Lemma getProcessKey_inj u v :
  UInt128_wf u → UInt128_wf v →
  getProcessKey (StringFromUPID u) = getProcessKey (StringFromUPID v) → u = v.
Proof.
  intros Hu Hv. rewrite !getProcessKey_mkkey by done. intros E.
  pose proof (good_comp_upid u Hu) as [Gu _]%good_comp_spec.
  pose proof (good_comp_upid v Hv) as [Gv _]%good_comp_spec.
  apply mkkey_inj in E; [|done|done|by repeat constructor|by repeat constructor].
  injection E as E. by apply StringFromUPID_inj in E.
Qed.

Lemma key_dir_process u : UInt128_wf u → key_dir (getProcessKey (StringFromUPID u)) = "processes".
Proof.
  intros Hu. rewrite getProcessKey_mkkey by done. apply key_dir_mkkey.
  pose proof (good_comp_upid u Hu) as [Gu _]%good_comp_spec. by repeat constructor.
Qed.

Definition process_ok (p : ProcessInfo) : Prop := ∃ u, pi_UPID p = Some u ∧ UInt128_wf u.

(** A process is stored under its UPID, nothing else of the store changes. *)
Lemma UpdateProcess_spec expiry s A p u :
  agents_rep s A → pi_UPID p = Some u → UInt128_wf u →
  wp (UpdateProcess expiry p) (λ _ s', agents_rep s' A ∧
    ∃ b, Unmarshal b = inr p ∧ view s' = <[getProcessKey (StringFromUPID u) := b]> (view s)) s.
Proof.
  intros [Hok HR] Hu Hwf. unfold UpdateProcess. destruct (proto_roundtrip p) as (b & -> & Hb).
  rewrite Hu. apply wp_bind, wp_deref.
  assert (user_key (getProcessKey (StringFromUPID u)) = true) as Huk
    by (rewrite getProcessKey_mkkey by done; apply user_key_mkkey).
  assert (∀ s', ok s' → view s' = <[getProcessKey (StringFromUPID u) := b]> (view s) →
    agents_rep s' A ∧ ∃ b, Unmarshal b = inr p ∧ view s' = <[getProcessKey (StringFromUPID u) := b]> (view s)) as HQ.
  { intros s' Hok' Hv. split; [|eauto]. split; [done|]. rewrite Hv.
    eapply agents_rep_frame; [done|..]; (apply agrees_insert; [done|by rewrite key_dir_process]). }
  destruct (0 <? pi_StopTimestampNS p)%Z; [apply wp_SetWithTTL|apply wp_Set]; done.
Qed.

(** What [GetProcesses] returns for one UPID. *)
Definition stored_process (m : gmap string string) (u : UInt128) : option ProcessInfo :=
  b ← m !! getProcessKey (StringFromUPID u);
  match Unmarshal b with inl _ => None | inr p => Some p end.

Lemma GetProcesses_spec s upids :
  ok s → Forall UInt128_wf upids → GetProcesses upids s = (Ret (stored_process (view s) <$> upids), s).
Proof.
  intros Hok Hu. induction Hu as [|u upids Hu _ IH]; [done|]. cbn [GetProcesses].
  run_with (spec_Get s (getProcessKey (StringFromUPID u)) Hok
    ltac:(rewrite getProcessKey_mkkey by done; apply user_key_mkkey)).
  run_with IH. unfold stored_process at 2. rewrite fmap_cons.
  by destruct (view s !! getProcessKey (StringFromUPID u)).
Qed.

(** The last process of the list with this UPID, if any. *)
Definition last_update (ps : list ProcessInfo) (u : UInt128) : option ProcessInfo :=
  last (filter (λ p, pi_UPID p = Some u) ps).

Lemma UpdateProcesses_spec expiry s A ps :
  agents_rep s A → Forall process_ok ps →
  wp (UpdateProcesses expiry ps) (λ _ s', agents_rep s' A ∧
    ∀ u, UInt128_wf u → stored_process (view s') u =
      match last_update ps u with Some p => Some p | None => stored_process (view s) u end) s.
Proof.
  intros HR Hps. unfold UpdateProcesses.
  apply (wp_forM_ _ (λ done s', agents_rep s' A ∧ ∀ u, UInt128_wf u → stored_process (view s') u =
      match last_update done u with Some p => Some p | None => stored_process (view s) u end)); [done| |done].
  intros done p rest s' Hl [HR' Hst].
  assert (process_ok p) as (v & Hv & Hwf).
  { apply (proj1 (Forall_forall _ _) Hps). rewrite Hl. set_solver. }
  eapply wp_mono; [by eapply UpdateProcess_spec|]. intros [] s'' [HR'' (b & Hb & Hview)].
  split; [done|]. intros u Hu. unfold last_update. rewrite filter_app.
  destruct (decide (u = v)) as [->|Hne].
  - rewrite (filter_cons_True _ p) by done. rewrite filter_nil, last_snoc.
    unfold stored_process. rewrite Hview, lookup_insert_eq. simpl. by rewrite Hb.
  - rewrite (filter_cons_False _ p) by congruence. rewrite filter_nil, app_nil_r.
    fold (last_update done u). rewrite <-Hst by done. unfold stored_process.
    rewrite Hview, lookup_insert_ne; [done|]. intros E. apply getProcessKey_inj in E; congruence.
Qed.

(** The agent registered under a pair. *)
Lemma GetAgentIDForHostnamePair_run s A info hi :
  agents_rep s A → no_sep "/" (Hostname hi) = true → no_sep "/" (HostIP hi) = true →
  GetAgentIDForHostnamePair (agent_pair info hi) s =
    (Ret (default "" (view s !! getHostnamePairAgentKey (agent_pair info hi))), s).
Proof.
  intros [Hok _] Hhn Hip. destruct (agent_pair_ok info hi Hhn Hip) as [Hp1 Hp2]. unfold GetAgentIDForHostnamePair.
  run_with (spec_Get s _ Hok (user_key_hostname _ Hp1 Hp2)). by destruct (view s !! _).
Qed.
End store_specs.

(** ** The store interface of the agent manager ([agent.go], [Store]) *)

Class AgentStore (St : Type) `{U : UUIDLib} := {
  st_CreateAgent : uuid → Agent → M St unit;
  st_GetAgent : uuid → M St (option Agent);
  st_UpdateAgent : uuid → Agent → M St unit;
  st_DeleteAgent : range_order → uuid → M St unit;
  st_GetAgents : M St (list Agent);
  st_GetASID : M St Z;
  st_GetAgentIDFromPodName : string → M St string;
  st_GetAgentsDataInfo : M St (gmap uuid AgentDataInfo);
  st_UpdateAgentDataInfo : uuid → AgentDataInfo → M St unit;
  st_GetComputedSchema : M St ComputedSchema;
  st_UpdateSchemas : range_order → uuid → list TableInfo → M St unit;
  st_PruneComputedSchema : M St unit;
  st_GetProcesses : list UInt128 → M St (list (option ProcessInfo));
  st_UpdateProcesses : list ProcessInfo → M St unit;
  st_GetAgentIDForHostnamePair : HostnameIPPair → M St string
}.

(** What the manager relies on, in terms of the abstract state. *)
Class AgentStoreSpec (St : Type) `{U : UUIDLib} `{!AgentStore St}
    (rep : St → agents_abs → Prop) : Prop := {
  store_GetAgent s A id : rep s A → st_GetAgent id s = (Ret (aa_agents A !! id), s);
  store_CreateAgent s A id a : rep s A → agent_ok a →
    wp (st_CreateAgent id a) (λ _ s', rep s' (set_agent id a A) ∧
      ∀ info hi, ag_Info a = Some info → ai_HostInfo info = Some hi →
        st_GetAgentIDForHostnamePair (agent_pair info hi) s' = (Ret (uuid_String id), s')) s;
  store_UpdateAgent s A id a : rep s A → agent_ok a →
    wp (st_UpdateAgent id a) (λ _ s', rep s' (set_agent id a A)) s;
  store_DeleteAgent r s A id : range_ok r → rep s A →
    match aa_agents A !! id with
    | None => st_DeleteAgent r id s = (Ret tt, s)
    | Some _ => ∃ cs s', st_DeleteAgent r id s = (Ret tt, s') ∧ rep s' (remove_agent id cs A) ∧ cs_wf cs ∧
        schema_updated (ProtoFromUUID id) [] (schema_or_empty (aa_schema A)) cs
    end;
  store_GetAgents s A : rep s A →
    ∃ l, st_GetAgents s = (Ret l, s) ∧
      l ≡ₚ filter (λ a, valid_agent a = true) (map_to_list (aa_agents A)).*2;
  store_GetASID s A : rep s A →
    if (aa_asid A <? 2 ^ 32)%Z
    then wp st_GetASID (λ n s', n = aa_asid A ∧ rep s' (set_asid (aa_asid A + 1) A)) s
    else st_GetASID s = (Err ErrRange, s);
  store_GetAgentsDataInfo s A : rep s A → st_GetAgentsDataInfo s = (Ret (aa_data A), s);
  store_UpdateAgentDataInfo s A id d : rep s A →
    wp (st_UpdateAgentDataInfo id d) (λ _ s', rep s' (set_data id d A)) s;
  store_GetComputedSchema s A : rep s A →
    st_GetComputedSchema s =
      (match aa_schema A with Some cs => Ret cs | None => Err ErrNoComputedSchemas end, s);
  store_UpdateSchemas r s A id schemas : range_ok r → rep s A → NoDup (names schemas) →
    ∃ cs s', st_UpdateSchemas r id schemas s = (Ret tt, s') ∧ rep s' (set_schema cs A) ∧ cs_wf cs ∧
      schema_updated (ProtoFromUUID id) schemas (schema_or_empty (aa_schema A)) cs;
  store_GetProcesses s A upids : rep s A → Forall UInt128_wf upids →
    ∃ ps, st_GetProcesses upids s = (Ret ps, s) ∧ length ps = length upids;
  store_UpdateProcesses s A ps : rep s A → Forall process_ok ps →
    wp (st_UpdateProcesses ps) (λ _ s', rep s' A) s;
  store_schema_wf s A cs : rep s A → aa_schema A = Some cs → cs_wf cs
}.

Section implementation.
Context {St : Type} `{!Datastore St} {view : St → gmap string string} {ok : St → Prop}.
Context `{!DatastoreSpec St view ok} `{U : UUIDLib} `{!UUIDSpec U}.
Context `{!Proto Agent} `{!Proto AgentDataInfo} `{!Proto ComputedSchema} `{!Proto ProcessInfo}.
Context `{!ProtoSpec Agent} `{!ProtoSpec AgentDataInfo} `{!ProtoSpec ComputedSchema} `{!ProtoSpec ProcessInfo}.
Context (expiryDuration : Z).
Implicit Types (s : St) (A : agents_abs).
Abbreviation agents_rep := (agents_rep (view := view) (ok := ok)).

(** [NewDatastore]. *)
#[export] Instance NewDatastore : AgentStore St := {
  st_CreateAgent := CreateAgent;
  st_GetAgent := GetAgent;
  st_UpdateAgent := UpdateAgent;
  st_DeleteAgent := DeleteAgent;
  st_GetAgents := GetAgents;
  st_GetASID := GetASID;
  st_GetAgentIDFromPodName := GetAgentIDFromPodName;
  st_GetAgentsDataInfo := GetAgentsDataInfo;
  st_UpdateAgentDataInfo := UpdateAgentDataInfo;
  st_GetComputedSchema := GetComputedSchema;
  st_UpdateSchemas := UpdateSchemas;
  st_PruneComputedSchema := PruneComputedSchema;
  st_GetProcesses := GetProcesses;
  st_UpdateProcesses := UpdateProcesses expiryDuration;
  st_GetAgentIDForHostnamePair := GetAgentIDForHostnamePair
}.

#[export] Instance agent_store_spec : AgentStoreSpec St agents_rep.
Proof.
  split; simpl.
  - intros s A id. apply GetAgent_spec.
  - intros s A id a HR Ha. pose proof Ha as (info & caps & hi & Hi & _ & Hh & _ & Hhn & Hip).
    eapply wp_mono; [by eapply (CreateAgent_spec s A id a info hi)|]. intros [] s' (HR' & _ & Hn). split; [done|].
    intros info' hi' Hi' Hh'. simplify_eq. rewrite (GetAgentIDForHostnamePair_run s' _ _ _ HR' Hhn Hip). by rewrite Hn.
  - intros s A id a. apply UpdateAgent_spec.
  - intros r s A id Hr HR. pose proof (DeleteAgent_spec r s A id Hr HR) as H.
    destruct (aa_agents A !! id); [|done]. destruct H as (cs & s' & ? & ? & ? & ? & _). eauto 10.
  - intros s A. apply GetAgents_spec.
  - intros s A. apply GetASID_spec.
  - intros s A. apply GetAgentsDataInfo_spec.
  - intros s A id d. apply UpdateAgentDataInfo_spec.
  - intros s A. apply GetComputedSchema_spec.
  - intros r s A id schemas Hr HR Hnd.
    destruct (UpdateSchemas_spec r s A id schemas Hr HR Hnd) as (cs & s' & ? & ? & ? & ? & _). eauto 10.
  - intros s A upids HR Hu. eexists. split; [apply GetProcesses_spec; [apply HR|done]|].
    by rewrite length_fmap.
  - intros s A ps HR Hps. eapply wp_mono; [by eapply UpdateProcesses_spec|]. naive_solver.
  - intros s A cs HR Hs. pose proof (rep_schema_wf s A HR) as Hwf. by rewrite Hs in Hwf.
Qed.

(** C38: The agent store on a datastore implements the interface the agent manager
    relies on: agents, data infos, ASIDs and the computed schema behave as the
    abstract state, whatever else the datastore holds. *)
Theorem agent_store_implements_interface : AgentStoreSpec St agents_rep.
Proof. apply agent_store_spec. Qed.

(** A created agent is found by its identifier, by its pod name and by its
    hostname pair, and no other agent is affected. *)
Theorem CreateAgent_registers s A id a info hi :
  agents_rep s A → agent_ok a → ag_Info a = Some info → ai_HostInfo info = Some hi →
  ∃ s', CreateAgent id a s = (Ret tt, s') ∧
    GetAgent id s' = (Ret (Some a), s') ∧
    GetAgentIDFromPodName (PodName hi) s' = (Ret (uuid_String id), s') ∧
    GetAgentIDForHostnamePair (agent_pair info hi) s' = (Ret (uuid_String id), s') ∧
    ∀ id', id' ≠ id → GetAgent id' s' = (Ret (aa_agents A !! id'), s').
Proof.
  intros HR Ha Hi Hh. pose proof Ha as (? & ? & ? & E1 & _ & E2 & Hpod & Hhn & Hip).
  rewrite Hi in E1. injection E1 as <-. rewrite Hh in E2. injection E2 as <-.
  destruct (proj1 (wp_run _ _ _) (CreateAgent_spec s A id a info hi HR Ha Hi Hh))
    as ([] & s' & E & HR' & Hp & Hn).
  exists s'. pose proof HR' as [Hok' _]. split_and!; [done|..].
  - rewrite (GetAgent_spec s' _ id HR'). simpl. by rewrite lookup_insert_eq.
  - unfold GetAgentIDFromPodName. run_with (spec_Get s' _ Hok' (user_key_pod _ Hpod)). by rewrite Hp.
  - rewrite (GetAgentIDForHostnamePair_run s' _ _ _ HR' Hhn Hip). by rewrite Hn.
  - intros id' Hne. rewrite (GetAgent_spec s' _ id' HR'). simpl. by rewrite lookup_insert_ne.
Qed.

(** A deleted agent is found under none of its keys, holds no data and is listed
    for no table; every other agent keeps its data and its tables. *)
Theorem DeleteAgent_forgets r s A id a info hi :
  range_ok r → agents_rep s A → aa_agents A !! id = Some a →
  ag_Info a = Some info → ai_HostInfo info = Some hi →
  ∃ s' cs, DeleteAgent r id s = (Ret tt, s') ∧
    GetAgent id s' = (Ret None, s') ∧
    GetAgentIDFromPodName (PodName hi) s' = (Ret "", s') ∧
    GetAgentIDForHostnamePair (agent_pair info hi) s' = (Ret "", s') ∧
    GetAgentsDataInfo s' = (Ret (delete id (aa_data A)), s') ∧
    GetComputedSchema s' = (Ret cs, s') ∧ cs_wf cs ∧
    (∀ t, ProtoFromUUID id ∉ agents_of cs t) ∧
    (∀ t a', a' ≠ ProtoFromUUID id →
      a' ∈ agents_of cs t ↔ a' ∈ agents_of (schema_or_empty (aa_schema A)) t) ∧
    ∀ id', id' ≠ id → GetAgent id' s' = (Ret (aa_agents A !! id'), s').
Proof.
  intros Hr HR Ha Hi Hh.
  pose proof (rep_ok _ _ (proj2 HR) id a Ha) as (? & ? & ? & E1 & _ & E2 & Hpod & Hhn & Hip).
  rewrite Hi in E1. injection E1 as <-. rewrite Hh in E2. injection E2 as <-.
  pose proof (DeleteAgent_spec r s A id Hr HR) as H. rewrite Ha in H.
  destruct H as (cs & s' & E & HR' & Hwf & [Hag _] & Hgone). destruct (Hgone info hi Hi Hh) as [Hp Hn].
  pose proof HR' as [Hok' _]. exists s', cs. split_and!; [done|..|done| | |].
  - rewrite (GetAgent_spec s' _ id HR'). simpl. by rewrite lookup_delete_eq.
  - unfold GetAgentIDFromPodName. run_with (spec_Get s' _ Hok' (user_key_pod _ Hpod)). by rewrite Hp.
  - rewrite (GetAgentIDForHostnamePair_run s' _ _ _ HR' Hhn Hip). by rewrite Hn.
  - by rewrite (GetAgentsDataInfo_spec s' _ HR').
  - by rewrite (GetComputedSchema_spec s' _ HR').
  - intros t Hin. apply Hag in Hin. rewrite decide_True in Hin by done. by apply not_elem_of_nil in Hin.
  - intros t a' Hne. by rewrite Hag, decide_False.
  - intros id' Hne. rewrite (GetAgent_spec s' _ id' HR'). simpl. by rewrite lookup_delete_ne.
Qed.

(** C21: After an agent reports its tables, the stored schema lists the agent exactly
    for these tables and every other agent as before, contains exactly the
    reported tables and the old tables some other agent still has, and keeps its
    invariant; whatever order Go iterates its maps in. *)
Theorem UpdateSchemas_correct r s A id schemas :
  range_ok r → agents_rep s A → NoDup (names schemas) →
  ∃ s' cs, UpdateSchemas r id schemas s = (Ret tt, s') ∧ GetComputedSchema s' = (Ret cs, s') ∧
    cs_wf cs ∧ schema_updated (ProtoFromUUID id) schemas (schema_or_empty (aa_schema A)) cs.
Proof.
  intros Hr HR Hnd.
  destruct (UpdateSchemas_spec r s A id schemas Hr HR Hnd) as (cs & s' & E & HR' & Hwf & Hup & _).
  exists s', cs. split_and!; [done| |done|done]. by rewrite (GetComputedSchema_spec s' _ HR').
Qed.

(** Pruning leaves in the schema exactly the registered agents and the tables
    that still have one. *)
Theorem PruneComputedSchema_correct s A cs :
  agents_rep s A → aa_schema A = Some cs →
  ∃ s' cs', PruneComputedSchema s = (Ret tt, s') ∧ GetComputedSchema s' = (Ret cs', s') ∧ cs_wf cs' ∧
    (∀ t a, a ∈ agents_of cs' t ↔ a ∈ agents_of cs t ∧
      ∃ id agt info, aa_agents A !! id = Some agt ∧ ag_Info agt = Some info ∧
        IsNilUUIDProto (ai_AgentID info) = false ∧
        UUIDFromProtoOrNil (ai_AgentID info) = UUIDFromProtoOrNil (Some a)) ∧
    (∀ ti, ti ∈ cs_Tables cs' ↔ ti ∈ cs_Tables cs ∧ ∃ a, a ∈ agents_of cs' (ti_Name ti)).
Proof.
  intros HR Hcs. pose proof (rep_schema_wf s A HR) as Hwf. rewrite Hcs in Hwf. simpl in Hwf.
  destruct (pruned_schema_spec (live_ids A) cs Hwf) as (Hwf' & Hag & Hts).
  destruct (proj1 (wp_run _ _ _) (PruneComputedSchema_spec s A cs HR Hcs)) as ([] & s' & E & HR').
  eexists s', _. split_and!; [done|by rewrite (GetComputedSchema_spec s' _ HR')|done| |done].
  intros t a. rewrite Hag. f_equiv. unfold live_ids. rewrite elem_of_existing.
  setoid_rewrite list_elem_of_filter. setoid_rewrite list_elem_of_fmap. unfold valid_agent. split.
  - intros (agt & [Hv ([id agt'] & -> & Hin%elem_of_map_to_list)] & E'). simpl in *.
    destruct (ag_Info agt') as [info|] eqn:Ei; [|done]. apply negb_true_iff in Hv.
    exists id, agt', info. split_and!; done.
  - intros (id & agt & info & Hid & Ei & Hv & E'). exists agt. rewrite Ei, Hv. split; [|done].
    split; [done|]. exists (id, agt). split; [done|]. by apply elem_of_map_to_list.
Qed.

(** Successive calls of [GetASID]. *)
Fixpoint GetASIDs (k : nat) : M St (list Z) :=
  match k with
  | O => mret []
  | Datatypes.S k => n ← GetASID; ns ← GetASIDs k; mret (n :: ns)
  end.

Lemma GetASIDs_spec k s A :
  agents_rep s A → (aa_asid A + Z.of_nat k ≤ 2 ^ 32)%Z →
  wp (GetASIDs k) (λ ns s', ns = (λ i, aa_asid A + Z.of_nat i)%Z <$> seq 0 k ∧
    agents_rep s' (set_asid (aa_asid A + Z.of_nat k) A)) s.
Proof.
  revert s A. induction k as [|k IH]; intros s A HR Hk.
  { apply wp_ret. split; [done|]. destruct A. unfold set_asid. simpl. by rewrite Z.add_0_r. }
  cbn [GetASIDs]. apply wp_bind. pose proof (GetASID_spec s A HR) as H.
  rewrite (proj2 (Z.ltb_lt _ _)) in H by lia. eapply wp_mono; [exact H|].
  intros n s1 [-> HR1]. apply wp_bind. eapply wp_mono; [apply (IH s1 _ HR1); simpl; lia|].
  intros ns s2 [-> HR2]. apply wp_ret. split.
  - cbn [seq]. rewrite fmap_cons, Z.add_0_r. f_equal. rewrite <-fmap_S_seq, <-list_fmap_compose.
    apply list_fmap_ext. intros i x Hx. simpl. lia.
  - destruct A. unfold set_asid in *. simpl in *.
    by replace (aa_asid0 + Z.of_nat (Datatypes.S k))%Z with (aa_asid0 + 1 + Z.of_nat k)%Z by lia.
Qed.

(** Calls of [GetASID] return consecutive, hence distinct, 32-bit numbers; when
    [2^32] is reached every further call fails and changes nothing. *)
Theorem GetASID_consecutive k s A :
  agents_rep s A → (aa_asid A + Z.of_nat k ≤ 2 ^ 32)%Z →
  ∃ ns s', GetASIDs k s = (Ret ns, s') ∧ NoDup ns ∧
    ns = (λ i, aa_asid A + Z.of_nat i)%Z <$> seq 0 k ∧
    (aa_asid A + Z.of_nat k = 2 ^ 32 → GetASID s' = (Err ErrRange, s'))%Z.
Proof.
  intros HR Hk. destruct (proj1 (wp_run _ _ _) (GetASIDs_spec k s A HR Hk)) as (ns & s' & E & -> & HR').
  eexists _, s'. split_and!; [done| |done|].
  - apply NoDup_fmap_2; [|apply NoDup_seq]. intros i j Hij. lia.
  - intros Hmax. pose proof (GetASID_spec s' _ HR') as H. simpl in H.
    by rewrite (proj2 (Z.ltb_ge _ _)) in H by lia.
Qed.

(** After a batch of process updates, reading processes returns for each UPID the
    last update of the batch, or what was stored before. *)
Theorem UpdateProcesses_GetProcesses s A ps upids :
  agents_rep s A → Forall process_ok ps → Forall UInt128_wf upids →
  ∃ s', UpdateProcesses expiryDuration ps s = (Ret tt, s') ∧
    GetProcesses upids s' =
      (Ret ((λ u, match last_update ps u with
                  | Some p => Some p
                  | None => stored_process (view s) u
                  end) <$> upids), s').
Proof.
  intros HR Hps Hu.
  destruct (proj1 (wp_run _ _ _) (UpdateProcesses_spec expiryDuration s A ps HR Hps))
    as ([] & s' & E & [Hok' _] & Hst).
  exists s'. split; [done|]. rewrite (GetProcesses_spec s') by done. do 2 f_equal.
  apply list_fmap_ext. intros i u Hi. apply Hst. by eapply Forall_lookup_1.
Qed.
End implementation.

(** ** Instances on the concrete datastore *)
Module MemAgents.
Export MemStore.Mem MemUuid MemProto.

Definition abs_empty : agents_abs := mkAbs ∅ ∅ 1 None.

Lemma rep_empty : agents_rep (view := view) (ok := ok) (store ∅) abs_empty.
Proof.
  split; [apply store_ok|]. rewrite view_empty. split; simpl; try done.
  - by apply dir_rep_empty.
  - by apply dir_rep_empty.
Qed.

Definition host_1 : HostInfo := mkHostInfo "node-1" "pem-abcd" "10.0.0.1" None true.
Definition info_1 : AgentInfo :=
  mkAgentInfo (Some (ProtoFromUUID uuid_1)) (Some host_1) "10.1.0.1"
    (Some (mkAgentCapabilities true)) None.
Definition agent_1 : Agent := mkAgent (Some info_1) 1 1 1.

Lemma agent_1_ok : agent_ok agent_1.
Proof. by eexists info_1, _, host_1. Qed.

Definition table_1 : TableInfo := mkTableInfo "http_events" "" 0 0 [] false "".

(** A store with one agent. *)
Lemma rep_one : ∃ s, agents_rep (view := view) (ok := ok) s (set_agent uuid_1 agent_1 abs_empty).
Proof.
  destruct (proj1 (wp_run _ _ _) (CreateAgent_spec (view := view) (ok := ok) _ _ uuid_1 agent_1 info_1 host_1
    rep_empty agent_1_ok eq_refl eq_refl)) as ([] & s & _ & HR & _). eauto.
Qed.

(** A store with a schema. *)
Lemma rep_schema_one : ∃ s cs, agents_rep (view := view) (ok := ok) s
  (set_schema cs (set_agent uuid_1 agent_1 abs_empty)).
Proof.
  destruct rep_one as [s HR].
  destruct (UpdateSchemas_spec map_order s _ uuid_1 [table_1] map_order_ok HR
    ltac:(apply NoDup_singleton)) as (cs & s' & _ & HR' & _). eauto.
Qed.
End MemAgents.
Import MemAgents.

Lemma agent_store_implements_interface_witness :
  @AgentStoreSpec Mem.St mem_uuid_lib (NewDatastore 0) (agents_rep (view := Mem.view) (ok := Mem.ok)).
Proof. exact (agent_store_implements_interface (view := Mem.view) (ok := Mem.ok) 0). Defined.

Lemma CreateAgent_registers_witness :
  ∃ s', CreateAgent uuid_1 agent_1 (store ∅) = (Ret tt, s') ∧
    GetAgentIDFromPodName "pem-abcd" s' = (Ret (uuid_String uuid_1), s').
Proof.
  destruct (CreateAgent_registers (view := view) (ok := ok) (store ∅) abs_empty uuid_1 agent_1 info_1 host_1
    rep_empty agent_1_ok eq_refl eq_refl) as (s' & E & _ & Hp & _). by exists s'.
Defined.

Lemma DeleteAgent_forgets_witness :
  ∃ s s', DeleteAgent map_order uuid_1 s = (Ret tt, s') ∧ GetAgent uuid_1 s' = (Ret None, s').
Proof.
  destruct rep_one as [s HR].
  destruct (DeleteAgent_forgets map_order s _ uuid_1 agent_1 info_1 host_1 map_order_ok HR
    eq_refl eq_refl eq_refl) as (s' & cs & E & Hg & _). by exists s, s'.
Defined.

Lemma UpdateSchemas_correct_witness :
  ∃ s' cs, UpdateSchemas map_order uuid_1 [table_1] (store ∅) = (Ret tt, s') ∧
    schema_updated (ProtoFromUUID uuid_1) [table_1] (mkComputedSchema [] ∅) cs.
Proof.
  destruct (UpdateSchemas_correct (view := view) (ok := ok) map_order (store ∅) abs_empty uuid_1 [table_1]
    map_order_ok rep_empty ltac:(apply NoDup_singleton)) as (s' & cs & E & _ & _ & Hup).
  by exists s', cs.
Defined.

Lemma PruneComputedSchema_correct_witness : ∃ s s', PruneComputedSchema s = (Ret tt, s').
Proof.
  destruct rep_schema_one as (s & cs & HR).
  destruct (PruneComputedSchema_correct s _ cs HR eq_refl) as (s' & cs' & E & _). by exists s, s'.
Defined.

Lemma GetASID_consecutive_witness :
  ∃ ns s', GetASIDs 3 (store ∅) = (Ret ns, s') ∧ ns = [1; 2; 3]%Z.
Proof.
  destruct (GetASID_consecutive (view := view) (ok := ok) 3 (store ∅) abs_empty rep_empty
    ltac:(vm_compute; discriminate)) as (ns & s' & E & _ & Hns & _).
  exists ns, s'. split; [exact E|exact Hns].
Defined.

Lemma UpdateProcesses_GetProcesses_witness :
  ∃ s', UpdateProcesses 0 [mkProcessInfo "p" (Some (mkUInt128 1 2)) 3 0 "" ""] (store ∅) = (Ret tt, s') ∧
    GetProcesses [mkUInt128 1 2] s' = (Ret [Some (mkProcessInfo "p" (Some (mkUInt128 1 2)) 3 0 "" "")], s').
Proof.
  apply (UpdateProcesses_GetProcesses (view := view) (ok := ok) 0 (store ∅) abs_empty
    [mkProcessInfo "p" (Some (mkUInt128 1 2)) 3 0 "" ""] [mkUInt128 1 2] rep_empty).
  - apply Forall_singleton. eexists. split; [reflexivity|]. by repeat split.
  - apply Forall_singleton. by repeat split.
Defined.
