(* ===== verification/AgentManager.v ===== *)
(** * The agent manager

    [src/vizier/services/metadata/controllers/agent/agent.go]: registration,
    heartbeats and updates of agents on top of the agent store, and the cursors
    through which a client follows the agents as an initial state and deltas.
    The manager is written against the interface [AgentStore] and proved against
    [AgentStoreSpec].  Its mutex makes every access to the trackers atomic; the
    store accesses around them are not under the mutex, so the interleavings of
    writers and a reader are modelled as a step relation ([mgr_step]). *)

From S2P Require Import Prelude GoLib Datastore MemStore Uuid Messages MessageBus StoreLib AgentSchema AgentStore.
From Stdlib Require Import Ascii.

(** ** State *)

Record agentUpdateTracker := mkTracker {
  tr_updates : list AgentUpdate;
  tr_schemaUpdated : bool;
  tr_hasReadInitialState : bool
}.

Definition newAgentUpdateTracker : agentUpdateTracker := mkTracker [] false false.

Definition clearUpdates (t : agentUpdateTracker) : agentUpdateTracker :=
  mkTracker [] false (tr_hasReadInitialState t).

(** The message of a configuration update, and its marshalling. *)
Record ConfigUpdateRequest := mkConfigUpdateRequest { cu_Key : string; cu_Value : string }.

(** [Update]. *)
Record Update `{U : UUIDLib} := mkUpdate { up_UpdateInfo : AgentUpdateInfo; up_AgentID : uuid }.
Arguments mkUpdate {_} _ _.

Section manager.
Context {St : Type} `{U : UUIDLib} `{!AgentStore St} `{N : NatsConn} `{!Proto ConfigUpdateRequest}.

(** [ManagerImpl]; the Prometheus counter counts registrations by pod name. *)
Record ManagerImpl := mkManager {
  agtStore : St;
  conn : nconn;
  agentUpdateTrackers : gmap uuid agentUpdateTracker;
  agentRegCounter : gmap string Z
}.

Definition st_call {A} (m : M St A) : M ManagerImpl A :=
  zoom agtStore (λ s mg, mkManager s (conn mg) (agentUpdateTrackers mg) (agentRegCounter mg)) m.

Definition with_trackers (ts : gmap uuid agentUpdateTracker) (mg : ManagerImpl) : ManagerImpl :=
  mkManager (agtStore mg) (conn mg) ts (agentRegCounter mg).

Definition Publish (topic msg : string) : M ManagerImpl unit := λ mg,
  let '(e, c) := nc_Publish topic msg (conn mg) in
  (match e with None => Ret tt | Some e => Err e end,
   mkManager (agtStore mg) c (agentUpdateTrackers mg) (agentRegCounter mg)).

(** ** Cursors *)

(** [uuid.NewV4] gives the identifier. *)
Definition NewAgentUpdateCursor (cursor : uuid) : M ManagerImpl uuid :=
  _ ← modify (λ mg, with_trackers (<[cursor := newAgentUpdateTracker]> (agentUpdateTrackers mg)) mg);
  mret cursor.

Definition DeleteAgentUpdateCursor (cursorID : uuid) : M ManagerImpl unit :=
  modify (λ mg, with_trackers (delete cursorID (agentUpdateTrackers mg)) mg).

(** Marking a change across all trackers, under the mutex. *)
Definition append_update (u : AgentUpdate) (t : agentUpdateTracker) : agentUpdateTracker :=
  mkTracker (tr_updates t ++ [u]) (tr_schemaUpdated t) (tr_hasReadInitialState t).

Definition mark_schema (t : agentUpdateTracker) : agentUpdateTracker :=
  mkTracker (tr_updates t) true (tr_hasReadInitialState t).

Definition track (u : AgentUpdate) : M ManagerImpl unit :=
  modify (λ mg, with_trackers (append_update u <$> agentUpdateTrackers mg) mg).

Definition track_schema : M ManagerImpl unit :=
  modify (λ mg, with_trackers (mark_schema <$> agentUpdateTrackers mg) mg).

(** ** Writers: the store first, then the trackers *)

Definition updateAgentSchemaWrapper (r : range_order) (agentID : uuid) (schema : list TableInfo)
    : M ManagerImpl unit :=
  _ ← st_call (st_UpdateSchemas r agentID schema);
  track_schema.

Definition deleted_update (agentID : uuid) : AgentUpdate :=
  mkAgentUpdate (Some (ProtoFromUUID agentID)) (AgentUpdate_Deleted true).
Definition agent_info_update (agentID : uuid) (agentInfo : Agent) : AgentUpdate :=
  mkAgentUpdate (Some (ProtoFromUUID agentID)) (AgentUpdate_Agent agentInfo).
Definition data_info_update (agentID : uuid) (dataInfo : AgentDataInfo) : AgentUpdate :=
  mkAgentUpdate (Some (ProtoFromUUID agentID)) (AgentUpdate_DataInfo dataInfo).

Definition deleteAgentWrapper (r : range_order) (agentID : uuid) : M ManagerImpl unit :=
  _ ← st_call (st_DeleteAgent r agentID);
  track (deleted_update agentID).

Definition createAgentWrapper (agentID : uuid) (agentInfo : Agent) : M ManagerImpl unit :=
  _ ← st_call (st_CreateAgent agentID agentInfo);
  track (agent_info_update agentID agentInfo).

Definition updateAgentWrapper (agentID : uuid) (agentInfo : Agent) : M ManagerImpl unit :=
  _ ← st_call (st_UpdateAgent agentID agentInfo);
  track (agent_info_update agentID agentInfo).

Definition updateAgentDataInfoWrapper (agentID : uuid) (agentDataInfo : AgentDataInfo)
    : M ManagerImpl unit :=
  _ ← st_call (st_UpdateAgentDataInfo agentID agentDataInfo);
  track (data_info_update agentID agentDataInfo).

(** ** Processes *)

Definition process_of_created (p : ProcessCreated) : ProcessInfo :=
  mkProcessInfo "" (pc_UPID p) (pc_StartTimestampNS p) 0 (pc_Cmdline p) (pc_CID p).

Definition handleCreatedProcesses (processes : list ProcessCreated) : M ManagerImpl unit :=
  match processes with
  | [] => mret tt
  | _ => st_call (st_UpdateProcesses (process_of_created <$> processes))
  end.

Fixpoint upids_of (processes : list ProcessTerminated) : M ManagerImpl (list UInt128) :=
  match processes with
  | [] => mret []
  | p :: processes =>
    u ← deref (pt_UPID p);
    us ← upids_of processes;
    mret (u :: us)
  end.

Definition with_stop (t : Z) (p : ProcessInfo) : ProcessInfo :=
  mkProcessInfo (pi_Name p) (pi_UPID p) (pi_StartTimestampNS p) t (pi_ProcessArgs p) (pi_CID p).

(** The processes that were found, with their stop time. *)
Fixpoint stopped_processes (pInfos : list (option ProcessInfo)) (processes : list ProcessTerminated)
    : M ManagerImpl (list ProcessInfo) :=
  match pInfos with
  | [] => mret []
  | p :: pInfos =>
    match p, processes with
    | Some p, t :: processes =>
      ps ← stopped_processes pInfos processes;
      mret (with_stop (pt_StopTimestampNS t) p :: ps)
    | Some p, [] => panic IndexOutOfRange
    | None, _ => stopped_processes pInfos (tail processes)
    end
  end.

Definition handleTerminatedProcesses (processes : list ProcessTerminated) : M ManagerImpl unit :=
  match processes with
  | [] => mret tt
  | _ =>
    upids ← upids_of processes;
    pInfos ← st_call (st_GetProcesses upids);
    updatedProcesses ← stopped_processes pInfos processes;
    st_call (st_UpdateProcesses updatedProcesses)
  end.

(** ** Agents *)

Definition ApplyAgentUpdate (r : range_order) (update : Update) : M ManagerImpl unit :=
  resp ← st_call (st_GetAgent (up_AgentID update));
  match resp with
  | None => mret tt
  | Some _ =>
    let info := up_UpdateInfo update in
    _ ← try (handleCreatedProcesses (aui_ProcessCreated info));
    _ ← try (handleTerminatedProcesses (aui_ProcessTerminated info));
    _ ← (match aui_Data info with
         | Some d => updateAgentDataInfoWrapper (up_AgentID update) d
         | None => mret tt
         end);
    if negb (aui_DoesUpdateSchema info) then mret tt
    else updateAgentSchemaWrapper r (up_AgentID update) (aui_Schema info)
  end.

Definition inc_counter (podName : string) : M ManagerImpl unit :=
  modify (λ mg, mkManager (agtStore mg) (conn mg) (agentUpdateTrackers mg)
    (<[podName := (default 0 (agentRegCounter mg !! podName) + 1)%Z]> (agentRegCounter mg))).

(** [now1] and [now2] are the two readings of the clock. *)
Definition RegisterAgent (now1 now2 : Z) (agent : Agent) : M ManagerImpl Z :=
  info ← deref (ag_Info agent);
  let aUUID := UUIDFromProtoOrNil (ai_AgentID info) in
  hi ← deref (ai_HostInfo info);
  _ ← inc_counter (PodName hi);
  res ← try (st_call (st_GetAgent aUUID));
  match res with
  | inl _ => panic LogFatal
  | inr (Some resp) => mret (ag_ASID resp)
  | inr None =>
    agent ← (if decide (ag_ASID agent = 0%Z)
             then asid ← st_call st_GetASID; mret (mkAgent (ag_Info agent) now1 now2 asid)
             else mret agent);
    _ ← createAgentWrapper aUUID agent;
    mret (ag_ASID agent)
  end.

Definition DeleteAgent (r : range_order) (agentID : uuid) : M ManagerImpl unit :=
  res ← try (deleteAgentWrapper r agentID);
  match res with inl _ => panic LogFatal | inr _ => mret tt end.

Definition UpdateHeartbeat (now : Z) (agentID : uuid) : M ManagerImpl unit :=
  agent ← st_call (st_GetAgent agentID);
  match agent with
  | None => fail (ErrMsg "Agent does not exist")
  | Some agent =>
    updateAgentWrapper agentID (mkAgent (ag_Info agent) (ag_CreateTimeNS agent) now (ag_ASID agent))
  end.

Definition GetActiveAgents : M ManagerImpl (list Agent) := st_call st_GetAgents.

(** ** Messages *)

Fixpoint publish_all (agentIDs : list uuid) (msg : string) (errs : list error)
    : M ManagerImpl (list error) :=
  match agentIDs with
  | [] => mret errs
  | agentID :: agentIDs =>
    res ← try (Publish (AgentUUIDTopic agentID) msg);
    match res with
    | inl e => publish_all agentIDs msg (errs ++ [e])
    | inr _ => publish_all agentIDs msg errs
    end
  end.

Definition MessageAgents (agentIDs : list uuid) (msg : string) : M ManagerImpl unit :=
  errs ← publish_all agentIDs msg [];
  match errs with [] => mret tt | e :: _ => fail e end.

Definition agent_uuid (a : Agent) : uuid := UUIDFromProtoOrNil (info ← ag_Info a; ai_AgentID info).

Definition MessageActiveAgents (msg : string) : M ManagerImpl unit :=
  agents ← GetActiveAgents;
  MessageAgents (agent_uuid <$> agents) msg.

Definition UpdateConfig (ns podName key value : string) : M ManagerImpl unit :=
  res ← try (st_call (st_GetAgentIDFromPodName podName));
  match res with
  | inl _ | inr "" => fail (ErrMsg "Could not find agent with the given name")
  | inr agentID =>
    msg ← lift_sum (Marshal (mkConfigUpdateRequest key value));
    Publish (AgentTopic agentID) msg
  end.

(** ** Following the agents *)

(** What the closure under the mutex pops off a tracker: [schemaUpdated], the
    updates, and whether the initial state had been read. *)
Definition pop_tracker (cursorID : uuid) : M ManagerImpl (bool * list AgentUpdate * bool) :=
  mg ← get_state;
  match agentUpdateTrackers mg !! cursorID with
  | None => fail (ErrMsg ("Agent update cursor " +:+ uuid_String cursorID +:+ " is not present in Manager"))
  | Some tracker =>
    let cleared := clearUpdates tracker in
    _ ← put_state (with_trackers
          (<[cursorID := mkTracker (tr_updates cleared) (tr_schemaUpdated cleared) true]>
            (agentUpdateTrackers mg)) mg);
    mret (tr_schemaUpdated tracker, tr_updates tracker, tr_hasReadInitialState tracker)
  end.

Definition initial_updates (agents : list Agent) (dataInfos : list (uuid * AgentDataInfo))
    : list AgentUpdate :=
  ((λ a, mkAgentUpdate (info ← ag_Info a; ai_AgentID info) (AgentUpdate_Agent a)) <$> agents) ++
  ((λ kv, data_info_update kv.1 kv.2) <$> dataInfos).

(** The rest of [GetAgentUpdates], which reads the store without the mutex;
    [ro] is the order in which the map of data infos is iterated. *)
Definition read_state (ro : gmap uuid AgentDataInfo → list (uuid * AgentDataInfo))
    (schemaUpdated : bool) (updatedAgentsUpdates : list AgentUpdate) (hasReadInitialState : bool)
    : M ManagerImpl (list AgentUpdate * option ComputedSchema) :=
  computedSchema ←
    (if negb hasReadInitialState || schemaUpdated
     then cs ← st_call st_GetComputedSchema; mret (Some cs)
     else mret None);
  if (hasReadInitialState : bool) then mret (updatedAgentsUpdates, computedSchema)
  else
    updatedAgents ← st_call st_GetAgents;
    updatedAgentsDataInfo ← st_call st_GetAgentsDataInfo;
    mret (initial_updates updatedAgents (ro updatedAgentsDataInfo), computedSchema).

Definition GetAgentUpdates (ro : gmap uuid AgentDataInfo → list (uuid * AgentDataInfo)) (cursorID : uuid)
    : M ManagerImpl (list AgentUpdate * option ComputedSchema) :=
  '(schemaUpdated, updates, hasReadInitialState) ← pop_tracker cursorID;
  read_state ro schemaUpdated updates hasReadInitialState.

Definition GetComputedSchema : M ManagerImpl ComputedSchema := st_call st_GetComputedSchema.
Definition GetAgentIDForHostnamePair (hnPair : HostnameIPPair) : M ManagerImpl string :=
  st_call (st_GetAgentIDForHostnamePair hnPair).
End manager.
Arguments ManagerImpl St {U N}.

(** ** Following the agents under interleaving

    A writer is one of the four wrappers: a store operation, then one update
    appended to every tracker; or it stores the schema of an agent and marks every
    tracker.  A follower pops its tracker, reads the computed schema, the agents and
    the data infos, and from then on pops its tracker, and reads the schema when the
    tracker was marked.  A read may fail, that of the schema in particular as long as
    none has been computed: what was popped before is then lost, and the follower has
    failed, although the server may go on to pop its tracker.  Each of these is atomic;
    between them any other writer may run.  Writers of one agent do not overlap
    ([pending] holds at most one of them per agent). *)

Inductive writer : Type :=
| WCreate (a : Agent)
| WUpdate (a : Agent)
| WDelete (r : range_order)
| WData (d : AgentDataInfo).

(** What an update says about the agents: a new value or a deletion. *)
Definition agent_effect `{U : UUIDLib} (u : AgentUpdate) : option (uuid * option Agent) :=
  match UUIDFromProto (au_AgentID u) with
  | inl _ => None
  | inr id =>
    match au_Update u with
    | AgentUpdate_Deleted true => Some (id, None)
    | AgentUpdate_Deleted false => None
    | AgentUpdate_Agent a => Some (id, Some a)
    | AgentUpdate_DataInfo _ => None
    end
  end.

(** The follower's copy of the agents. *)
Definition apply_update `{U : UUIDLib} (c : gmap uuid Agent) (u : AgentUpdate) : gmap uuid Agent :=
  match agent_effect u with
  | Some (id, Some a) => <[id := a]> c
  | Some (id, None) => delete id c
  | None => c
  end.

Inductive phase `{U : UUIDLib} : Type :=
| Idle
| Popped
| HasSchema
| GotAgents (l : list Agent)
| Following (c : gmap uuid Agent)
| PoppedMore (c : gmap uuid Agent) (us : list AgentUpdate)
| Failed.
Arguments phase {_}.

Section interleaving.
Context {St : Type} `{U : UUIDLib} `{!UUIDSpec U} `{!AgentStore St} `{N : NatsConn}.
Context {rep : St → agents_abs → Prop} `{!AgentStoreSpec St rep}.
Implicit Types (mg : ManagerImpl St) (A : agents_abs).

Definition writer_store (id : uuid) (w : writer) : M (ManagerImpl St) unit :=
  match w with
  | WCreate a => st_call (st_CreateAgent id a)
  | WUpdate a => st_call (st_UpdateAgent id a)
  | WDelete r => st_call (st_DeleteAgent r id)
  | WData d => st_call (st_UpdateAgentDataInfo id d)
  end.

Definition writer_update (id : uuid) (w : writer) : AgentUpdate :=
  match w with
  | WCreate a | WUpdate a => agent_info_update id a
  | WDelete _ => deleted_update id
  | WData d => data_info_update id d
  end.

(** The writers are the wrappers. *)
Lemma wrappers_are_writers id w :
  (_ ← writer_store id w; track (writer_update id w)) =
  match w with
  | WCreate a => createAgentWrapper id a
  | WUpdate a => updateAgentWrapper id a
  | WDelete r => deleteAgentWrapper r id
  | WData d => updateAgentDataInfoWrapper id d
  end.
Proof. by destruct w. Qed.

(** An agent stored under its own identifier. *)
Definition agent_for (id : uuid) (a : Agent) : Prop :=
  agent_ok a ∧ (∃ info, ag_Info a = Some info ∧ ai_AgentID info = Some (ProtoFromUUID id)).

Definition writer_ok (id : uuid) (w : writer) : Prop :=
  good_uuid_pb (ProtoFromUUID id) ∧
  match w with
  | WCreate a | WUpdate a => agent_for id a
  | WDelete r => range_ok r
  | WData _ => True
  end.

Record sys := mkSys {
  sy_mgr : ManagerImpl St;
  sy_pending : gmap uuid AgentUpdate;
  sy_phase : phase
}.

Variable cursor : uuid.

Inductive mgr_step : sys → sys → Prop :=
| StepStore mg P ph id w mg' :
    P !! id = None → writer_ok id w → writer_store id w mg = (Ret tt, mg') →
    mgr_step (mkSys mg P ph) (mkSys mg' (<[id := writer_update id w]> P) ph)
| StepTrack mg P ph id u mg' :
    P !! id = Some u → track u mg = (Ret tt, mg') →
    mgr_step (mkSys mg P ph) (mkSys mg' (delete id P) ph)
| StepPopFirst mg P mg' sch us :
    pop_tracker cursor mg = (Ret (sch, us, false), mg') →
    mgr_step (mkSys mg P Idle) (mkSys mg' P Popped)
| StepReadSchemaFirst mg P cs mg' :
    st_call st_GetComputedSchema mg = (Ret cs, mg') →
    mgr_step (mkSys mg P Popped) (mkSys mg' P HasSchema)
| StepReadAgents mg P l mg' :
    st_call st_GetAgents mg = (Ret l, mg') →
    mgr_step (mkSys mg P HasSchema) (mkSys mg' P (GotAgents l))
| StepReadData mg P l D ds mg' :
    st_call st_GetAgentsDataInfo mg = (Ret D, mg') → ds ≡ₚ map_to_list D →
    mgr_step (mkSys mg P (GotAgents l))
      (mkSys mg' P (Following (foldl apply_update ∅ (initial_updates l ds))))
| StepPop mg P c mg' us :
    pop_tracker cursor mg = (Ret (false, us, true), mg') →
    mgr_step (mkSys mg P (Following c)) (mkSys mg' P (Following (foldl apply_update c us)))
| StepPopSchema mg P c mg' us :
    pop_tracker cursor mg = (Ret (true, us, true), mg') →
    mgr_step (mkSys mg P (Following c)) (mkSys mg' P (PoppedMore c us))
| StepReadSchema mg P c us cs mg' :
    st_call st_GetComputedSchema mg = (Ret cs, mg') →
    mgr_step (mkSys mg P (PoppedMore c us)) (mkSys mg' P (Following (foldl apply_update c us)))
| StepReadFails mg P ph mg' :
    (∃ e, (ph = Popped ∨ ∃ c us, ph = PoppedMore c us) ∧ st_call st_GetComputedSchema mg = (Err e, mg') ∨
          ph = HasSchema ∧ st_call st_GetAgents mg = (Err e, mg') ∨
          (∃ l, ph = GotAgents l) ∧ st_call st_GetAgentsDataInfo mg = (Err e, mg')) →
    mgr_step (mkSys mg P ph) (mkSys mg' P Failed)
| StepPopAgain mg P mg' sch us :
    pop_tracker cursor mg = (Ret (sch, us, true), mg') →
    mgr_step (mkSys mg P Failed) (mkSys mg' P Failed)
| StepUpdateSchemas mg P ph r id ts mg' :
    range_ok r → NoDup (names ts) → st_call (st_UpdateSchemas r id ts) mg = (Ret tt, mg') →
    mgr_step (mkSys mg P ph) (mkSys mg' P ph)
| StepMarkSchema mg P ph :
    mgr_step (mkSys mg P ph) (mkSys (with_trackers (mark_schema <$> agentUpdateTrackers mg) mg) P ph).

(** The last value a sequence of updates gives an agent. *)
Definition effect_step (id : uuid) (acc : option (option Agent)) (u : AgentUpdate) : option (option Agent) :=
  match agent_effect u with
  | Some (id', v) => if decide (id' = id) then Some v else acc
  | None => acc
  end.

Definition effect (us : list AgentUpdate) (id : uuid) : option (option Agent) :=
  foldl (effect_step id) None us.

Lemma effect_acc us id acc :
  foldl (effect_step id) acc us = match effect us id with Some v => Some v | None => acc end.
Proof.
  unfold effect. revert acc. induction us as [|u us IH]; intros acc; [done|]. cbn [foldl].
  rewrite (IH (effect_step id acc u)), (IH (effect_step id None u)).
  destruct (foldl _ None us); [done|]. unfold effect_step.
  destruct (agent_effect u) as [[id' v]|]; [|done]. by case_decide.
Qed.

Lemma effect_app us us' id :
  effect (us ++ us') id = match effect us' id with Some v => Some v | None => effect us id end.
Proof. unfold effect at 1. rewrite foldl_app. apply effect_acc. Qed.

Lemma replay_effect us c id :
  foldl apply_update c us !! id = match effect us id with Some v => v | None => c !! id end.
Proof.
  revert c. induction us as [|u us IH]; intros c; [done|].
  change (u :: us) with ([u] ++ us) at 2. rewrite effect_app. cbn [foldl app]. rewrite IH.
  destruct (effect us id); [done|]. unfold effect, effect_step, apply_update. cbn [foldl].
  destruct (agent_effect u) as [[id' [a|]]|]; [..|done]; case_decide; subst;
    rewrite ?lookup_insert_eq, ?lookup_insert_ne, ?lookup_delete_eq, ?lookup_delete_ne by done; done.
Qed.

Lemma replay_none us c :
  (∀ u, u ∈ us → agent_effect u = None) → foldl apply_update c us = c.
Proof.
  revert c. induction us as [|u us IH]; intros c Hus; [done|]. cbn [foldl].
  rewrite IH by (intros; apply Hus; by right). unfold apply_update. by rewrite Hus by (by left).
Qed.

(** ** What one writer does *)

Lemma st_call_inv {B} (m : M St B) mg o mg' :
  st_call m mg = (o, mg') →
  m (agtStore mg) = (o, agtStore mg') ∧ agentUpdateTrackers mg' = agentUpdateTrackers mg.
Proof. unfold st_call, zoom. destruct (m (agtStore mg)). intros [= <- <-]. done. Qed.

Lemma wp_result {S' B} (m : M S' B) Q s a s' : wp m Q s → m s = (Ret a, s') → Q a s'.
Proof. unfold wp. intros H E. by rewrite E in H. Qed.

Lemma agent_effect_of id w :
  good_uuid_pb (ProtoFromUUID id) →
  agent_effect (writer_update id w) =
    match w with
    | WCreate a | WUpdate a => Some (id, Some a)
    | WDelete _ => Some (id, None)
    | WData _ => None
    end.
Proof.
  intros Hg. unfold agent_effect.
  destruct w; cbn [writer_update agent_info_update deleted_update data_info_update au_AgentID au_Update];
    by rewrite UUIDFromProto_ProtoFromUUID.
Qed.

Lemma effect_writer_ne id id' w :
  good_uuid_pb (ProtoFromUUID id) → id' ≠ id → effect [writer_update id w] id' = None.
Proof.
  intros Hg Hne. unfold effect, effect_step. cbn [foldl]. rewrite agent_effect_of by done.
  destruct w; try done; by rewrite decide_False by congruence.
Qed.

(** The agent after a writer's store operation, as its update says. *)
Lemma writer_store_spec id w mg mg' A :
  rep (agtStore mg) A → writer_ok id w → writer_store id w mg = (Ret tt, mg') →
  agentUpdateTrackers mg' = agentUpdateTrackers mg ∧
  ∃ A', rep (agtStore mg') A' ∧
    (∀ id', id' ≠ id → aa_agents A' !! id' = aa_agents A !! id') ∧
    aa_agents A' !! id =
      match effect [writer_update id w] id with Some v => v | None => aa_agents A !! id end.
Proof.
  intros HR [Hg Hw]. unfold effect, effect_step. cbn [foldl]. rewrite agent_effect_of by done.
  destruct w; cbn [writer_store]; intros [E Ht]%st_call_inv; (split; [done|]).
  - exists (set_agent id a A). split; [|simpl; split; [intros; by rewrite lookup_insert_ne|]].
    + exact (proj1 (wp_result _ _ _ _ _ (store_CreateAgent _ A id a HR (proj1 Hw)) E)).
    + by rewrite decide_True, lookup_insert_eq by done.
  - exists (set_agent id a A). split; [|simpl; split; [intros; by rewrite lookup_insert_ne|]].
    + exact (wp_result _ _ _ _ _ (store_UpdateAgent _ A id a HR (proj1 Hw)) E).
    + by rewrite decide_True, lookup_insert_eq by done.
  - rewrite decide_True by done. pose proof (store_DeleteAgent r _ A id Hw HR) as H.
    destruct (aa_agents A !! id) eqn:Ea.
    + destruct H as (cs & s' & E' & HR' & _). rewrite E in E'. injection E' as <-.
      exists (remove_agent id cs A). split; [done|]. simpl.
      split; [intros; by rewrite lookup_delete_ne|]. by rewrite lookup_delete_eq.
    + rewrite E in H. injection H as ->. exists A. done.
  - exists (set_data id d A). split; [|done].
    exact (wp_result _ _ _ _ _ (store_UpdateAgentDataInfo _ A id d HR) E).
Qed.

(** ** The invariant *)

Definition pend (P : gmap uuid AgentUpdate) (id : uuid) : list AgentUpdate :=
  match P !! id with Some u => [u] | None => [] end.

(** The updates a follower has still to pop, and its copy of the agents. *)
Definition phase_updates (ph : phase) (t : agentUpdateTracker) : list AgentUpdate :=
  match ph with Idle | Failed => [] | PoppedMore _ us => us ++ tr_updates t | _ => tr_updates t end.

Definition phase_copy (ph : phase) : option (gmap uuid Agent) :=
  match ph with
  | Idle | Popped | HasSchema | Failed => None
  | GotAgents l => Some (foldl apply_update ∅ (initial_updates l []))
  | Following c | PoppedMore c _ => Some c
  end.

(** Updates not yet popped, then the one in flight, end in the stored agent; an
    agent without such an update is in the follower's copy as stored. *)
Definition synced A (us : list AgentUpdate) P (C : option (gmap uuid Agent)) : Prop :=
  ∀ id, match effect (us ++ pend P id) id with
        | Some v => v = aa_agents A !! id
        | None => ∀ c, C = Some c → c !! id = aa_agents A !! id
        end.

Definition agents_wf A : Prop :=
  ∀ id a, aa_agents A !! id = Some a → agent_for id a ∧ good_uuid_pb (ProtoFromUUID id).

Definition pending_wf (P : gmap uuid AgentUpdate) : Prop :=
  ∀ id u, P !! id = Some u → good_uuid_pb (ProtoFromUUID id) ∧ ∃ w, u = writer_update id w.

Definition sys_inv (y : sys) : Prop :=
  ∃ A t, rep (agtStore (sy_mgr y)) A ∧ agents_wf A ∧ pending_wf (sy_pending y) ∧
    agentUpdateTrackers (sy_mgr y) !! cursor = Some t ∧
    synced A (phase_updates (sy_phase y) t) (sy_pending y) (phase_copy (sy_phase y)).

Lemma inv_step_store mg P ph id w mg' :
  P !! id = None → writer_ok id w → writer_store id w mg = (Ret tt, mg') →
  sys_inv (mkSys mg P ph) → sys_inv (mkSys mg' (<[id := writer_update id w]> P) ph).
Proof.
  intros HP Hw E (A & t & HR & HA & HPw & Ht & Hph). simpl in *.
  destruct (writer_store_spec id w mg mg' A HR Hw E) as (Htr & A' & HR' & Hne & Heq).
  exists A', t. simpl. split_and!; [done| | |by rewrite Htr|].
  - intros id' a Ha. destruct (decide (id' = id)) as [->|Hn]; [|apply HA; by rewrite <-Hne].
    rewrite Heq in Ha. destruct Hw as [Hg Hw]. unfold effect, effect_step in Ha. cbn [foldl] in Ha.
    rewrite agent_effect_of in Ha by done. destruct w; rewrite ?decide_True in Ha by done; simplify_eq; auto.
  - intros id' u [[<- <-]|[_ Hu]]%lookup_insert_Some; [|by apply HPw]. split; [apply Hw|eauto].
  - intros id'. specialize (Hph id'). unfold pend in *. destruct (decide (id' = id)) as [->|Hn].
    + rewrite lookup_insert_eq, effect_app. rewrite HP, app_nil_r in Hph. rewrite Heq.
      by destruct (effect [writer_update id w] id).
    + by rewrite lookup_insert_ne, Hne by done.
Qed.

Lemma inv_step_track mg P ph id u mg' :
  P !! id = Some u → track u mg = (Ret tt, mg') →
  sys_inv (mkSys mg P ph) → sys_inv (mkSys mg' (delete id P) ph).
Proof.
  intros HP E (A & t & HR & HA & HPw & Ht & Hph). injection E as <-. simpl in *.
  destruct (HPw id u HP) as [Hg [w ->]].
  exists A, (append_update (writer_update id w) t). simpl. split_and!; [done|done| | |].
  - intros id' u [_ Hu]%lookup_delete_Some. by apply HPw.
  - by rewrite lookup_fmap, Ht.
  - intros id'. specialize (Hph id'). unfold pend in *. destruct (decide (id' = id)) as [->|Hn].
    + rewrite lookup_delete_eq, app_nil_r. rewrite HP in Hph.
      destruct ph; simpl in *; rewrite ?app_assoc; done.
    + rewrite lookup_delete_ne by done. destruct ph; simpl in *; rewrite ?app_assoc; try done.
      all: rewrite !effect_app in *; rewrite ?effect_app, (effect_writer_ne id id' w) by done; done.
Qed.

(** Popping the tracker. *)
Lemma pop_tracker_inv mg sch us has mg' t :
  agentUpdateTrackers mg !! cursor = Some t → pop_tracker cursor mg = (Ret (sch, us, has), mg') →
  us = tr_updates t ∧ agtStore mg' = agtStore mg ∧
  agentUpdateTrackers mg' !! cursor = Some (mkTracker [] false true).
Proof.
  intros Ht. unfold pop_tracker. run_state. rewrite Ht. unfold mbind, M_bind. simpl.
  intros [= _ <- _ <-]. split_and!; [done|done|]. apply lookup_insert_eq.
Qed.

Lemma inv_step_pop_first mg P mg' sch us :
  pop_tracker cursor mg = (Ret (sch, us, false), mg') →
  sys_inv (mkSys mg P Idle) → sys_inv (mkSys mg' P Popped).
Proof.
  intros E (A & t & HR & HA & HPw & Ht & Hph). simpl in *.
  destruct (pop_tracker_inv _ _ _ _ _ _ Ht E) as (_ & Es & Ht').
  eexists A, _. simpl. rewrite Es. split_and!; done.
Qed.

Lemma inv_step_pop mg P c mg' sch us :
  pop_tracker cursor mg = (Ret (sch, us, true), mg') →
  sys_inv (mkSys mg P (Following c)) → sys_inv (mkSys mg' P (PoppedMore c us)).
Proof.
  intros E (A & t & HR & HA & HPw & Ht & Hph). simpl in *.
  destruct (pop_tracker_inv _ _ _ _ _ _ Ht E) as (-> & Es & Ht').
  exists A, (mkTracker [] false true). simpl. rewrite Es, app_nil_r. by split_and!.
Qed.

(** What was popped is applied. *)
Lemma inv_apply mg P c us :
  sys_inv (mkSys mg P (PoppedMore c us)) → sys_inv (mkSys mg P (Following (foldl apply_update c us))).
Proof.
  intros (A & t & HR & HA & HPw & Ht & Hph). exists A, t. simpl in *. split_and!; [done..|].
  intros id. specialize (Hph id). rewrite <-app_assoc, effect_app in Hph.
  destruct (effect (tr_updates t ++ pend P id) id); [done|]. intros c' [= <-].
  rewrite replay_effect. destruct (effect us id); [done|]. by apply Hph.
Qed.

(** What was popped is lost: nothing is known of the follower's copy. *)
Lemma inv_failed mg P ph : sys_inv (mkSys mg P ph) → sys_inv (mkSys mg P Failed).
Proof.
  intros (A & t & HR & HA & HPw & Ht & Hph). exists A, t. simpl in *. split_and!; [done..|].
  intros id. specialize (Hph id). rewrite effect_app in Hph. simpl. by destruct (effect (pend P id) id).
Qed.

(** The tracker of a follower without a copy is popped. *)
Lemma inv_step_pop_again mg P mg' sch us :
  pop_tracker cursor mg = (Ret (sch, us, true), mg') → sys_inv (mkSys mg P Failed) → sys_inv (mkSys mg' P Failed).
Proof.
  intros E (A & t & HR & HA & HPw & Ht & Hph). simpl in *. destruct (pop_tracker_inv _ _ _ _ _ _ Ht E) as (_ & Es & Ht').
  eexists A, _. simpl. rewrite Es. by split_and!.
Qed.

(** A call of the store that leaves the agents alone. *)
Lemma inv_same_agents mg P ph mg' :
  sys_inv (mkSys mg P ph) → agentUpdateTrackers mg' = agentUpdateTrackers mg →
  (∀ A, rep (agtStore mg) A → ∃ A', rep (agtStore mg') A' ∧ aa_agents A' = aa_agents A) → sys_inv (mkSys mg' P ph).
Proof.
  intros (A & t & HR & HA & HPw & Ht & Hph) Htr Hst. destruct (Hst A HR) as (A' & HR' & EA). exists A', t. simpl in *.
  unfold agents_wf, synced in *. rewrite EA, Htr. by split_and!.
Qed.

Lemma inv_read_schema mg P ph o mg' :
  st_call st_GetComputedSchema mg = (o, mg') → sys_inv (mkSys mg P ph) → sys_inv (mkSys mg' P ph).
Proof.
  intros [E Htr]%st_call_inv Hinv. eapply inv_same_agents; [exact Hinv|done|]. intros A HR. exists A. split; [|done].
  rewrite (store_GetComputedSchema _ A HR) in E. by injection E as _ <-.
Qed.

Lemma inv_update_schemas mg P ph r id ts mg' :
  range_ok r → NoDup (names ts) → st_call (st_UpdateSchemas r id ts) mg = (Ret tt, mg') →
  sys_inv (mkSys mg P ph) → sys_inv (mkSys mg' P ph).
Proof.
  intros Hr Hnd [E Htr]%st_call_inv Hinv. eapply inv_same_agents; [exact Hinv|done|]. intros A HR.
  destruct (store_UpdateSchemas r _ A id ts Hr HR Hnd) as (cs & s' & E' & HR' & _). rewrite E in E'. injection E' as <-. by eexists.
Qed.

Lemma inv_mark_schema mg P ph :
  sys_inv (mkSys mg P ph) → sys_inv (mkSys (with_trackers (mark_schema <$> agentUpdateTrackers mg) mg) P ph).
Proof.
  intros (A & t & HR & HA & HPw & Ht & Hph). exists A, (mark_schema t). simpl in *. rewrite lookup_fmap, Ht.
  split_and!; [done..|]. by destruct ph, t.
Qed.

(** ** The initial state *)

Definition agent_entry (a : Agent) : AgentUpdate :=
  mkAgentUpdate (info ← ag_Info a; ai_AgentID info) (AgentUpdate_Agent a).

Lemma agent_entry_effect id a :
  agent_for id a → good_uuid_pb (ProtoFromUUID id) → agent_effect (agent_entry a) = Some (id, Some a).
Proof.
  intros [_ (info & Hi & Hid)] Hg. unfold agent_effect, agent_entry. cbn [au_AgentID au_Update].
  rewrite Hi. cbn [mbind option_bind]. rewrite Hid. by rewrite UUIDFromProto_ProtoFromUUID.
Qed.

Lemma replay_initial (As c : gmap uuid Agent) l :
  c ⊆ As → (∀ a, a ∈ l → ∃ id, As !! id = Some a ∧ agent_effect (agent_entry a) = Some (id, Some a)) →
  let c' := foldl apply_update c (agent_entry <$> l) in
  c ⊆ c' ∧ c' ⊆ As ∧
  (∀ a id, a ∈ l → agent_effect (agent_entry a) = Some (id, Some a) → c' !! id = Some a).
Proof.
  revert c. induction l as [|a l IH]; intros c Hc Hl; simpl.
  { split_and!; [done|done|]. by intros a id ?%not_elem_of_nil. }
  destruct (Hl a) as (id & Ha & He); [by left|].
  assert (apply_update c (agent_entry a) = <[id := a]> c) as Happ by (unfold apply_update; by rewrite He).
  rewrite Happ. destruct (IH (<[id:=a]> c)) as (H1 & H2 & H3).
  { by apply insert_subseteq_l. }
  { intros a' Ha'. apply Hl. by right. }
  split_and!; [|done|].
  - transitivity (<[id:=a]> c); [|done]. apply map_subseteq_spec. intros id' x Hx.
    destruct (decide (id' = id)) as [->|]; [|by rewrite lookup_insert_ne].
    rewrite lookup_insert_eq. rewrite map_subseteq_spec in Hc. apply Hc in Hx. congruence.
  - intros a' id' [->|Hin]%elem_of_cons He'; [|by apply H3].
    rewrite He in He'. injection He' as <-. rewrite map_subseteq_spec in H1. apply H1, lookup_insert_eq.
Qed.

Lemma initial_copy A l :
  agents_wf A → l ≡ₚ filter (λ a, valid_agent a = true) (map_to_list (aa_agents A)).*2 →
  foldl apply_update ∅ (agent_entry <$> l) = aa_agents A.
Proof.
  intros HA Hl.
  assert (∀ a, a ∈ l ↔ ∃ id, aa_agents A !! id = Some a) as Hin.
  { intros a. rewrite Hl, list_elem_of_filter, list_elem_of_fmap. split.
    - intros [_ ([id a'] & -> & H%elem_of_map_to_list)]. eauto.
    - intros [id Ha]. destruct (HA id a Ha) as [[_ (info & Hi & Hid)] Hg]. split.
      + unfold valid_agent. rewrite Hi, Hid. apply negb_true_iff. by apply IsNilUUIDProto_good.
      + exists (id, a). split; [done|]. by apply elem_of_map_to_list. }
  destruct (replay_initial (aa_agents A) ∅ l) as (_ & H2 & H3).
  - apply map_empty_subseteq.
  - intros a [id Ha]%Hin. exists id. split; [done|]. destruct (HA id a Ha). by apply agent_entry_effect.
  - apply map_subseteq_po; [done|]. apply map_subseteq_spec. intros id a Ha.
    apply H3; [by apply Hin; eauto|]. destruct (HA id a Ha). by apply agent_entry_effect.
Qed.

Lemma initial_updates_replay l ds :
  foldl apply_update ∅ (initial_updates l ds) = foldl apply_update ∅ (agent_entry <$> l).
Proof.
  unfold initial_updates. rewrite foldl_app. apply replay_none.
  intros u ([id d] & -> & _)%list_elem_of_fmap. unfold agent_effect, data_info_update.
  cbn [au_AgentID au_Update]. by destruct (UUIDFromProto _).
Qed.

Lemma inv_step_read_agents mg P l mg' :
  st_call st_GetAgents mg = (Ret l, mg') →
  sys_inv (mkSys mg P HasSchema) → sys_inv (mkSys mg' P (GotAgents l)).
Proof.
  intros [E Htr]%st_call_inv (A & t & HR & HA & HPw & Ht & Hph). simpl in *.
  destruct (store_GetAgents _ A HR) as (l' & E' & Hl). rewrite E in E'. injection E' as <- Es.
  exists A, t. simpl. rewrite Es, Htr. split_and!; [done..|]. intros id. specialize (Hph id).
  destruct (effect _ id); [done|]. intros c [= <-].
  by rewrite initial_updates_replay, (initial_copy A l).
Qed.

Lemma inv_step_read_data mg P l D ds mg' :
  st_call st_GetAgentsDataInfo mg = (Ret D, mg') →
  sys_inv (mkSys mg P (GotAgents l)) →
  sys_inv (mkSys mg' P (Following (foldl apply_update ∅ (initial_updates l ds)))).
Proof.
  intros [E Htr]%st_call_inv (A & t & HR & HA & HPw & Ht & Hph). simpl in *.
  pose proof (store_GetAgentsDataInfo _ A HR) as E'. rewrite E in E'. injection E' as _ Es.
  exists A, t. simpl. rewrite Es, Htr. split_and!; [done..|].
  by rewrite initial_updates_replay, <-(initial_updates_replay l []).
Qed.

Lemma inv_step_fails mg P ph mg' e :
  (ph = Popped ∨ ∃ c us, ph = PoppedMore c us) ∧ st_call st_GetComputedSchema mg = (Err e, mg') ∨
  ph = HasSchema ∧ st_call st_GetAgents mg = (Err e, mg') ∨
  (∃ l, ph = GotAgents l) ∧ st_call st_GetAgentsDataInfo mg = (Err e, mg') →
  sys_inv (mkSys mg P ph) → sys_inv (mkSys mg' P Failed).
Proof.
  intros [[_ E]|[[_ [E _]%st_call_inv]|[_ [E _]%st_call_inv]]] Hinv.
  - by eapply inv_failed, inv_read_schema.
  - destruct Hinv as (A & _ & HR & _). destruct (store_GetAgents _ A HR) as (l & E' & _). simpl in *. by rewrite E in E'.
  - destruct Hinv as (A & _ & HR & _). pose proof (store_GetAgentsDataInfo _ A HR) as E'. simpl in *. by rewrite E in E'.
Qed.

Lemma sys_inv_step y y' : mgr_step y y' → sys_inv y → sys_inv y'.
Proof.
  destruct 1 as [| | | | | | | | |mg P ph mg' [e He]| | |]; eauto using inv_step_store, inv_step_track, inv_step_pop_first,
    inv_step_read_agents, inv_step_read_data, inv_apply, inv_step_pop, inv_read_schema, inv_step_pop_again, inv_step_fails,
    inv_update_schemas, inv_mark_schema.
Qed.

Lemma sys_inv_reachable y y' : rtc mgr_step y y' → sys_inv y → sys_inv y'.
Proof. induction 1; eauto using sys_inv_step. Qed.

Lemma sys_inv_initial mg A :
  rep (agtStore mg) A → agents_wf A →
  agentUpdateTrackers mg !! cursor = Some newAgentUpdateTracker → sys_inv (mkSys mg ∅ Idle).
Proof.
  intros HR HA Ht. exists A, newAgentUpdateTracker. split_and!; [done|done|done|done|].
  intros id. unfold pend. simpl. by rewrite lookup_empty.
Qed.

(** C22: Whatever the interleaving of writers of agents and schemas with the reads of a
    follower: once the follower has read its initial state, and as long as none of its
    reads of the store has failed after a pop, its copy and the updates waiting in its
    tracker give, for every agent without a writer in flight, exactly the stored agent:
    no update is lost. *)
Theorem follower_never_loses_updates mg A mg' P c t :
  rep (agtStore mg) A → agents_wf A →
  agentUpdateTrackers mg !! cursor = Some newAgentUpdateTracker →
  rtc mgr_step (mkSys mg ∅ Idle) (mkSys mg' P (Following c)) →
  agentUpdateTrackers mg' !! cursor = Some t →
  ∀ id, P !! id = None →
    st_GetAgent id (agtStore mg') = (Ret (foldl apply_update c (tr_updates t) !! id), agtStore mg').
Proof.
  intros HR HA Ht Hsteps Ht' id Hid.
  destruct (sys_inv_reachable _ _ Hsteps (sys_inv_initial mg A HR HA Ht)) as (A' & t' & HR' & _ & _ & Ht2 & Hsync).
  simpl in *. rewrite Ht' in Ht2. injection Ht2 as <-. rewrite (store_GetAgent _ A' id HR').
  specialize (Hsync id). unfold pend in Hsync. rewrite Hid, app_nil_r in Hsync.
  do 2 f_equal. rewrite replay_effect. symmetry. destruct (effect (tr_updates t) id); [done|by apply Hsync].
Qed.
End interleaving.

(** ** Registration *)
Section registration.
Context {St : Type} `{U : UUIDLib} `{!UUIDSpec U} `{!AgentStore St} `{N : NatsConn}.
Context {rep : St → agents_abs → Prop} `{!AgentStoreSpec St rep}.
Implicit Types (mg : ManagerImpl St) (A : agents_abs).

Lemma st_call_ret {B} (m : M St B) mg o s' :
  m (agtStore mg) = (o, s') →
  st_call m mg = (o, mkManager s' (conn mg) (agentUpdateTrackers mg) (agentRegCounter mg)).
Proof. intros E. unfold st_call, zoom. by rewrite E. Qed.

(** The parts of a message a registration needs. *)
Definition registers (agent : Agent) (id : uuid) (podName : string) : Prop :=
  ∃ info hi, ag_Info agent = Some info ∧ ai_HostInfo info = Some hi ∧ PodName hi = podName ∧
    UUIDFromProtoOrNil (ai_AgentID info) = id.

Definition counted (podName : string) mg : ManagerImpl St :=
  mkManager (agtStore mg) (conn mg) (agentUpdateTrackers mg)
    (<[podName := (default 0 (agentRegCounter mg !! podName) + 1)%Z]> (agentRegCounter mg)).

(** A known agent keeps its ASID; only the counter changes. *)
Lemma RegisterAgent_known n1 n2 agent mg A id pod a :
  rep (agtStore mg) A → registers agent id pod → aa_agents A !! id = Some a →
  RegisterAgent n1 n2 agent mg = (Ret (ag_ASID a), counted pod mg).
Proof.
  intros HR (info & hi & Hi & Hh & <- & <-) Ha. unfold RegisterAgent. rewrite Hi.
  unfold mbind at 1, M_bind at 1. cbn [deref mret M_ret]. rewrite Hh.
  unfold mbind at 1, M_bind at 1. cbn [deref mret M_ret].
  unfold mbind at 1, M_bind at 1. cbn [inc_counter modify]. fold (counted (PodName hi) mg).
  erewrite bind_ret; [|apply try_ret, st_call_ret; exact (store_GetAgent _ A _ HR)].
  rewrite Ha. by destruct mg.
Qed.

Definition registered (n1 n2 asid : Z) (agent : Agent) : Agent := mkAgent (ag_Info agent) n1 n2 asid.

Lemma registered_ok n1 n2 asid agent : agent_ok agent → agent_ok (registered n1 n2 asid agent).
Proof. done. Qed.

Lemma RegisterAgent_new n1 n2 agent mg A id pod :
  rep (agtStore mg) A → registers agent id pod → agent_ok agent → ag_ASID agent = 0%Z →
  aa_agents A !! id = None → (aa_asid A < 2 ^ 32)%Z →
  ∃ mg', RegisterAgent n1 n2 agent mg = (Ret (aa_asid A), mg') ∧
    rep (agtStore mg') (set_agent id (registered n1 n2 (aa_asid A) agent) (set_asid (aa_asid A + 1) A)) ∧
    agentUpdateTrackers mg' =
      append_update (agent_info_update id (registered n1 n2 (aa_asid A) agent)) <$> agentUpdateTrackers mg ∧
    conn mg' = conn mg ∧
    ∀ info hi, ag_Info agent = Some info → ai_HostInfo info = Some hi →
      st_GetAgentIDForHostnamePair (agent_pair info hi) (agtStore mg') = (Ret (uuid_String id), agtStore mg').
Proof.
  intros HR (info & hi & Hi & Hh & <- & <-) Hok H0 Ha Hlt.
  pose proof (store_GetASID _ A HR) as Hasid. rewrite (proj2 (Z.ltb_lt _ _)) in Hasid by done.
  apply wp_run in Hasid as (n & s1 & E1 & -> & HR1).
  pose proof (store_CreateAgent s1 _ (UUIDFromProtoOrNil (ai_AgentID info))
    (registered n1 n2 (aa_asid A) agent) HR1 Hok) as Hcr.
  apply wp_run in Hcr as ([] & s2 & E2 & HR2 & Hpair).
  eexists. split_and!.
  - unfold RegisterAgent. rewrite Hi.
    unfold mbind at 1, M_bind at 1. cbn [deref mret M_ret]. rewrite Hh.
    unfold mbind at 1, M_bind at 1. cbn [deref mret M_ret].
    unfold mbind at 1, M_bind at 1. cbn [inc_counter modify]. fold (counted (PodName hi) mg).
    erewrite bind_ret; [|apply try_ret, st_call_ret; exact (store_GetAgent _ A _ HR)].
    rewrite Ha. rewrite decide_True by done.
    erewrite bind_ret; [|erewrite bind_ret; [reflexivity|apply st_call_ret; exact E1]].
    unfold createAgentWrapper.
    erewrite bind_ret; [reflexivity|]. rewrite <-Hi. fold (registered n1 n2 (aa_asid A) agent).
    erewrite bind_ret; [reflexivity|]. apply st_call_ret. exact E2.
  - exact HR2.
  - done.
  - done.
  - exact Hpair.
Qed.

(** Registering a new agent gives it an ASID no stored agent has, stores it
    under its identifier and tells every cursor; registering it again returns the
    same ASID and changes neither the store nor the cursors. *)
Theorem RegisterAgent_idempotent n1 n2 n3 n4 agent mg A id pod :
  rep (agtStore mg) A → registers agent id pod → agent_ok agent → ag_ASID agent = 0%Z →
  aa_agents A !! id = None → (aa_asid A < 2 ^ 32)%Z →
  map_Forall (λ _ a, ag_ASID a < aa_asid A)%Z (aa_agents A) →
  ∃ asid mg' mg'', RegisterAgent n1 n2 agent mg = (Ret asid, mg') ∧
    (∀ id' a, aa_agents A !! id' = Some a → ag_ASID a ≠ asid) ∧
    st_GetAgent id (agtStore mg') = (Ret (Some (mkAgent (ag_Info agent) n1 n2 asid)), agtStore mg') ∧
    (∀ c t, agentUpdateTrackers mg !! c = Some t →
      ∃ t', agentUpdateTrackers mg' !! c = Some t' ∧
        tr_updates t' = tr_updates t ++ [agent_info_update id (mkAgent (ag_Info agent) n1 n2 asid)]) ∧
    RegisterAgent n3 n4 agent mg' = (Ret asid, mg'') ∧
    agtStore mg'' = agtStore mg' ∧ agentUpdateTrackers mg'' = agentUpdateTrackers mg'.
Proof.
  intros HR Hreg Hok H0 Ha Hlt Hall.
  destruct (RegisterAgent_new n1 n2 agent mg A id pod HR Hreg Hok H0 Ha Hlt) as (mg' & E & HR' & Ht & _).
  exists (aa_asid A), mg', (counted pod mg'). split_and!; [done|..|done|done].
  - intros id' a Hid E'. apply Hall in Hid. lia.
  - rewrite (store_GetAgent _ _ id HR'). simpl. by rewrite lookup_insert_eq.
  - intros c t Hc. rewrite Ht, lookup_fmap, Hc. eexists. split; [done|]. done.
  - rewrite (RegisterAgent_known n3 n4 agent mg' _ id pod (registered n1 n2 (aa_asid A) agent) HR' Hreg);
      [done|]. simpl.
    by rewrite lookup_insert_eq.
Qed.

(** The first read of a cursor marks the initial state as read before it looks
    for the computed schema: without one it fails, and the next read returns the
    deltas only, so the agents registered before are never reported. *)
Theorem initial_state_lost_without_schema ro mg A cursor t r id ts :
  rep (agtStore mg) A → agentUpdateTrackers mg !! cursor = Some t →
  tr_hasReadInitialState t = false → aa_schema A = None → range_ok r → NoDup (names ts) →
  ∃ mg1 mg2 mg3 cs, GetAgentUpdates ro cursor mg = (Err ErrNoComputedSchemas, mg1) ∧
    updateAgentSchemaWrapper r id ts mg1 = (Ret tt, mg2) ∧
    GetAgentUpdates ro cursor mg2 = (Ret ([], Some cs), mg3).
Proof.
  intros HR Ht Hread Hs Hr Hnd.
  set (mg1 := with_trackers (<[cursor := mkTracker [] false true]> (agentUpdateTrackers mg)) mg).
  assert (pop_tracker cursor mg = (Ret (tr_schemaUpdated t, tr_updates t, false), mg1)) as Epop.
  { unfold pop_tracker. run_state. rewrite Ht, Hread. done. }
  destruct (store_UpdateSchemas r _ A id ts Hr HR Hnd) as (cs & s2 & E2 & HR2 & _).
  set (mg2 := with_trackers (mark_schema <$> agentUpdateTrackers mg1)
    (mkManager s2 (conn mg1) (agentUpdateTrackers mg1) (agentRegCounter mg1))).
  assert (pop_tracker cursor mg2 = (Ret (true, [], true),
    with_trackers (<[cursor := mkTracker [] false true]> (agentUpdateTrackers mg2)) mg2)) as Epop2.
  { unfold pop_tracker. run_state. unfold mg2 at 1. simpl. rewrite lookup_fmap, lookup_insert_eq. done. }
  eexists mg1, mg2, _, cs. split_and!.
  - unfold GetAgentUpdates. rewrite (bind_ret _ _ _ _ _ Epop). unfold read_state.
    apply bind_err. simpl. apply bind_err. erewrite st_call_ret; [|exact (store_GetComputedSchema _ A HR)].
    by rewrite Hs.
  - unfold updateAgentSchemaWrapper.
    by rewrite (bind_ret _ _ _ _ _ (st_call_ret (st_UpdateSchemas r id ts) mg1 (Ret tt) s2 E2)).
  - unfold GetAgentUpdates. rewrite (bind_ret _ _ _ _ _ Epop2). unfold read_state.
    erewrite bind_ret; [reflexivity|]. simpl. erewrite bind_ret; [reflexivity|].
    apply st_call_ret. exact (store_GetComputedSchema _ _ HR2).
Qed.
End registration.

(** ** Instances on the concrete store *)
Module MemManager.
Export MemAgents MemNats.

#[export] Instance mem_agent_store : AgentStore St := NewDatastore 0.

Definition mem_rep : St → agents_abs → Prop := agents_rep (view := view) (ok := ok).
#[export] Instance mem_agent_store_spec : AgentStoreSpec St mem_rep :=
  agent_store_spec (view := view) (ok := ok) 0.

Definition no_msgs : @nconn mem_conn := [].

(** An empty store and one cursor. *)
Definition mgr_0 : ManagerImpl St := mkManager (store ∅) no_msgs {[uuid_2 := newAgentUpdateTracker]} ∅.

Lemma mgr_0_wf : agents_wf abs_empty.
Proof. intros id a Ha. done. Qed.

Lemma good_uuid_1 : good_uuid_pb (ProtoFromUUID uuid_1).
Proof. by split. Qed.

Lemma agent_1_for : agent_for uuid_1 agent_1.
Proof. split; [apply agent_1_ok|]. by exists info_1. Qed.
End MemManager.
Import MemManager.

(** A schema is computed, the follower reads the empty initial state, an agent is
    created, and its update waits in the tracker. *)
Lemma follower_never_loses_updates_witness :
  ∃ mg' c t, rtc (mgr_step uuid_2) (mkSys mgr_0 ∅ Idle) (mkSys mg' ∅ (Following c)) ∧
    agentUpdateTrackers mg' !! uuid_2 = Some t ∧
    foldl apply_update c (tr_updates t) !! uuid_1 = Some agent_1 ∧
    st_GetAgent uuid_1 (agtStore mg') = (Ret (Some agent_1), agtStore mg').
Proof.
  destruct (store_UpdateSchemas (rep := mem_rep) map_order (store ∅) abs_empty uuid_1 [table_1] map_order_ok rep_empty
    (NoDup_singleton _)) as (cs & s0 & E0 & HR0 & _).
  pose proof (store_GetComputedSchema (rep := mem_rep) s0 _ HR0) as Ecs.
  destruct (store_GetAgents (rep := mem_rep) s0 _ HR0) as (l & Eag & Hl). apply Permutation_nil_r in Hl as ->.
  pose proof (store_GetAgentsDataInfo (rep := mem_rep) s0 _ HR0) as Eda.
  destruct (proj1 (wp_run _ _ _) (store_CreateAgent (rep := mem_rep) s0 _ uuid_1 agent_1 HR0 agent_1_ok)) as ([] & s' & E & _ & _).
  set (t1 := mkTracker [] false true). set (u := agent_info_update uuid_1 agent_1).
  set (mg0 := mkManager s0 no_msgs {[uuid_2 := newAgentUpdateTracker]} ∅ : ManagerImpl St).
  set (mg1 := mkManager s0 no_msgs {[uuid_2 := t1]} ∅ : ManagerImpl St).
  set (mg2 := mkManager s' no_msgs {[uuid_2 := t1]} ∅ : ManagerImpl St).
  set (mg3 := mkManager s' no_msgs (append_update u <$> {[uuid_2 := t1]}) ∅ : ManagerImpl St).
  assert (rtc (mgr_step uuid_2) (mkSys mgr_0 ∅ Idle) (mkSys mg3 ∅ (Following ∅))) as Hsteps.
  { eapply rtc_l.
    { apply (StepUpdateSchemas uuid_2 mgr_0 ∅ Idle map_order uuid_1 [table_1] mg0 map_order_ok (NoDup_singleton _)).
      exact (st_call_ret (st_UpdateSchemas map_order uuid_1 [table_1]) mgr_0 _ _ E0). }
    eapply rtc_l. { apply (StepPopFirst uuid_2 mg0 ∅ mg1 false []). reflexivity. }
    eapply rtc_l. { apply (StepReadSchemaFirst uuid_2 mg1 ∅ cs mg1). exact (st_call_ret _ mg1 _ _ Ecs). }
    eapply rtc_l. { apply (StepReadAgents uuid_2 mg1 ∅ [] mg1). exact (st_call_ret _ mg1 _ _ Eag). }
    eapply rtc_l. { apply (StepReadData uuid_2 mg1 ∅ [] ∅ [] mg1); [exact (st_call_ret _ mg1 _ _ Eda)|done]. }
    eapply rtc_l.
    { apply (StepStore uuid_2 mg1 ∅ _ uuid_1 (WCreate agent_1) mg2); [done| |].
      - split; [apply good_uuid_1|apply agent_1_for].
      - exact (st_call_ret (st_CreateAgent uuid_1 agent_1) mg1 _ _ E). }
    eapply rtc_l.
    { apply (StepTrack uuid_2 mg2 _ _ uuid_1 u mg3); [apply lookup_insert_eq|done]. }
    rewrite delete_insert_id by done. apply rtc_refl. }
  pose proof (follower_never_loses_updates (rep := mem_rep) uuid_2 mgr_0 abs_empty mg3 ∅ ∅
    (append_update u t1) rep_empty mgr_0_wf eq_refl Hsteps eq_refl uuid_1 eq_refl) as Hget.
  exists mg3, ∅, (append_update u t1).
  assert (foldl apply_update ∅ (tr_updates (append_update u t1)) !! uuid_1 = Some agent_1) as Hr.
  { vm_compute. reflexivity. }
  split_and!; [exact Hsteps|done|exact Hr|]. rewrite Hr in Hget. exact Hget.
Defined.

Lemma RegisterAgent_idempotent_witness :
  ∃ asid mg' mg'', RegisterAgent 5 6 (mkAgent (Some info_1) 0 0 0) mgr_0 = (Ret asid, mg') ∧
    RegisterAgent 7 8 (mkAgent (Some info_1) 0 0 0) mg' = (Ret asid, mg'').
Proof.
  destruct (RegisterAgent_idempotent (rep := mem_rep) 5 6 7 8 (mkAgent (Some info_1) 0 0 0) mgr_0 abs_empty
    uuid_1 "pem-abcd" rep_empty) as (asid & mg' & mg'' & E1 & _ & _ & _ & E2 & _).
  - exists info_1, host_1. split_and!; [reflexivity..|]. vm_compute. reflexivity.
  - by eexists info_1, _, host_1.
  - reflexivity.
  - reflexivity.
  - vm_compute. reflexivity.
  - apply map_Forall_empty.
  - by exists asid, mg', mg''.
Defined.

Lemma initial_state_lost_without_schema_witness :
  ∃ mg1 mg2 mg3 cs, GetAgentUpdates map_to_list uuid_2 mgr_0 = (Err ErrNoComputedSchemas, mg1) ∧
    updateAgentSchemaWrapper map_order uuid_1 [table_1] mg1 = (Ret tt, mg2) ∧
    GetAgentUpdates map_to_list uuid_2 mg2 = (Ret ([], Some cs), mg3).
Proof.
  apply (initial_state_lost_without_schema (rep := mem_rep) map_to_list mgr_0 abs_empty uuid_2
    newAgentUpdateTracker map_order uuid_1 [table_1] rep_empty eq_refl eq_refl eq_refl map_order_ok).
  apply NoDup_singleton.
Defined.
