(* ===== verification/Tracker.v ===== *)
(** * The query broker's view of the agents

    [src/vizier/services/query_broker/tracker/agents_info.go] and the message
    loop of [agents.go]: the distributed state the query broker plans queries
    with, built from the agent updates of the metadata service.  The state holds
    pointers to [CarnotInfo] messages that are shared between the pending and the
    published version, so the messages live in a heap. *)

From S2P Require Import Prelude GoLib Uuid Messages AgentStore MessageBus AgentManager.

(** ** State *)

Definition loc := nat.

(** [distributedpb.DistributedState]. *)
Record DistributedState := mkDS { ds_SchemaInfo : list SchemaInfo; ds_CarnotInfo : list loc }.

Record AgentsInfoImpl := mkAgentsInfo {
  ai_heap : gmap loc CarnotInfo;
  ai_ds : DistributedState;
  ai_pendingDs : option DistributedState
}.

Definition empty_ds : DistributedState := mkDS [] [].

Definition NewAgentsInfo : AgentsInfoImpl := mkAgentsInfo ∅ empty_ds (Some empty_ds).

Definition with_pending (p : DistributedState) (a : AgentsInfoImpl) : AgentsInfoImpl :=
  mkAgentsInfo (ai_heap a) (ai_ds a) (Some p).
Definition with_heap (h : gmap loc CarnotInfo) (a : AgentsInfoImpl) : AgentsInfoImpl :=
  mkAgentsInfo h (ai_ds a) (ai_pendingDs a).

Definition pending : M AgentsInfoImpl DistributedState :=
  a ← get_state; deref (ai_pendingDs a).

Definition alloc (ci : CarnotInfo) : M AgentsInfoImpl loc :=
  a ← get_state;
  let l := fresh (dom (ai_heap a)) in
  _ ← put_state (with_heap (<[l := ci]> (ai_heap a)) a);
  mret l.

Definition load (l : loc) : M AgentsInfoImpl CarnotInfo :=
  a ← get_state; deref (ai_heap a !! l).

Definition store (l : loc) (ci : CarnotInfo) : M AgentsInfoImpl unit :=
  modify (λ a, with_heap (<[l := ci]> (ai_heap a)) a).

(** ** Operations *)

Section tracker.
Context `{U : UUIDLib} (pod_namespace : string).

Definition ClearPendingState : M AgentsInfoImpl unit := modify (with_pending empty_ds).

Definition makeAgentCarnotInfo (agentID : uuid) (asid : Z) (agentMetadata : option MetadataInfo)
    : CarnotInfo :=
  mkCarnotInfo (uuid_String agentID) (Some (ProtoFromUUID agentID)) false "" true true false asid
    agentMetadata "".

Definition makeKelvinCarnotInfo (agentID : uuid) (grpcAddress : string) (asid : Z) : CarnotInfo :=
  mkCarnotInfo (uuid_String agentID) (Some (ProtoFromUUID agentID)) true grpcAddress false true true asid
    None ("kelvin." +:+ pod_namespace +:+ ".svc").

Definition with_metadata (md : MetadataInfo) (ci : CarnotInfo) : CarnotInfo :=
  mkCarnotInfo (ci_QueryBrokerAddress ci) (ci_AgentID ci) (ci_HasGRPCServer ci) (ci_GRPCAddress ci)
    (ci_HasDataStore ci) (ci_ProcessesData ci) (ci_AcceptsRemoteSources ci) (ci_ASID ci) (Some md)
    (ci_SSLTargetName ci).

Fixpoint carnotInfoMap (ls : list loc) (m : gmap uuid loc) : M AgentsInfoImpl (gmap uuid loc) :=
  match ls with
  | [] => mret m
  | l :: ls =>
    carnotInfo ← load l;
    agentUUID ← lift_sum (UUIDFromProto (ci_AgentID carnotInfo));
    carnotInfoMap ls (<[agentUUID := l]> m)
  end.

Definition is_pem (info : AgentInfo) : bool :=
  match ai_Capabilities info with None => true | Some c => CollectsData c end.

(** The body of the loop over the agent updates. *)
Definition apply_one (m : gmap uuid loc) (agentUpdate : AgentUpdate) : M AgentsInfoImpl (gmap uuid loc) :=
  agentUUID ← lift_sum (UUIDFromProto (au_AgentID agentUpdate));
  match au_Update agentUpdate with
  | AgentUpdate_Agent agent =>
    info ← deref (ag_Info agent);
    if is_pem info then
      metadataInfo ← (match m !! agentUUID with
                      | Some l => carnotInfo ← load l; mret (ci_MetadataInfo carnotInfo)
                      | None => mret None
                      end);
      l ← alloc (makeAgentCarnotInfo agentUUID (ag_ASID agent) metadataInfo);
      mret (<[agentUUID := l]> m)
    else
      l ← alloc (makeKelvinCarnotInfo agentUUID (ai_IPAddress info) (ag_ASID agent));
      mret (<[agentUUID := l]> m)
  | AgentUpdate_DataInfo dataInfo =>
    match m !! agentUUID with
    | None => mret m
    | Some l =>
      match adi_MetadataInfo dataInfo with
      | Some md => carnotInfo ← load l; _ ← store l (with_metadata md carnotInfo); mret m
      | None => mret m
      end
    end
  | AgentUpdate_Deleted deleted => mret (if (deleted : bool) then delete agentUUID m else m)
  end.

Fixpoint apply_all (m : gmap uuid loc) (us : list AgentUpdate) : M AgentsInfoImpl (gmap uuid loc) :=
  match us with
  | [] => mret m
  | u :: us => m ← apply_one m u; apply_all m us
  end.

(** [ro] is the order in which the map of carnot infos is iterated. *)
Definition UpdateAgentsInfo (ro : gmap uuid loc → list (uuid * loc)) (update : AgentUpdatesResponse)
    : M AgentsInfoImpl unit :=
  _ ← (if aur_AgentSchemasUpdated update
       then p ← pending; modify (with_pending (mkDS (aur_AgentSchemas update) (ds_CarnotInfo p)))
       else mret tt);
  p ← pending;
  m ← carnotInfoMap (ds_CarnotInfo p) ∅;
  m ← apply_all m (aur_AgentUpdates update);
  p ← pending;
  _ ← modify (with_pending (mkDS (ds_SchemaInfo p) (ro m).*2));
  if aur_EndOfVersion update
  then modify (λ a, mkAgentsInfo (ai_heap a) (default empty_ds (ai_pendingDs a)) (ai_pendingDs a))
  else mret tt.

(** [agents.go]: one message of the stream; the first one starts from a fresh
    state. *)
Definition updateState (ro : gmap uuid loc → list (uuid * loc)) (update : AgentUpdatesResponse)
    (clearCurrentState : bool) : M AgentsInfoImpl unit :=
  _ ← (if clearCurrentState then ClearPendingState else mret tt);
  UpdateAgentsInfo ro update.

(** The messages of one stream, up to the first error. *)
Fixpoint runStream (ro : gmap uuid loc → list (uuid * loc)) (msgs : list AgentUpdatesResponse)
    (firstMsg : bool) : M AgentsInfoImpl unit :=
  match msgs with
  | [] => mret tt
  | msg :: msgs => _ ← updateState ro msg firstMsg; runStream ro msgs false
  end.
End tracker.

(** What [DistributedState()] gives a client: the messages behind the pointers. *)
Definition published (a : AgentsInfoImpl) : list CarnotInfo :=
  omap (λ l, ai_heap a !! l) (ds_CarnotInfo (ai_ds a)).

(** ** The updates as a function on carnot infos *)

Section abstract.
Context `{U : UUIDLib} `{!UUIDSpec U} (pod_namespace : string).

Definition apply_carnot (c : gmap uuid CarnotInfo) (u : AgentUpdate) : gmap uuid CarnotInfo :=
  match UUIDFromProto (au_AgentID u) with
  | inl _ => c
  | inr id =>
    match au_Update u with
    | AgentUpdate_Agent a =>
      match ag_Info a with
      | None => c
      | Some info =>
        if is_pem info
        then <[id := makeAgentCarnotInfo id (ag_ASID a) (c !! id ≫= ci_MetadataInfo)]> c
        else <[id := makeKelvinCarnotInfo pod_namespace id (ai_IPAddress info) (ag_ASID a)]> c
      end
    | AgentUpdate_DataInfo d =>
      match adi_MetadataInfo d with
      | Some md => alter (with_metadata md) id c
      | None => c
      end
    | AgentUpdate_Deleted b => if b then delete id c else c
    end
  end.

(** An update about a well-formed identifier, whose agent has an [Info]. *)
Definition update_good (u : AgentUpdate) : Prop :=
  (∃ pb, au_AgentID u = Some pb ∧ UUIDpb_wf pb ∧ good_uuid_pb pb) ∧
  match au_Update u with AgentUpdate_Agent a => is_Some (ag_Info a) | _ => True end.

Lemma update_good_id u :
  update_good u →
  ∃ id, UUIDFromProto (au_AgentID u) = inr id ∧ good_uuid_pb (ProtoFromUUID id).
Proof.
  intros [(pb & -> & Hwf & Hg) _].
  destruct (UUIDFromProto_good pb) as [id E]; [by apply IsNilUUIDProto_good|].
  exists id. split; [done|]. by apply UUIDFromProto_inr in E as [_ ->].
Qed.

(** The heap behind a map of pointers. *)
Record map_rep (h : gmap loc CarnotInfo) (m : gmap uuid loc) (c : gmap uuid CarnotInfo) : Prop := {
  rep_entry id l : m !! id = Some l →
    ∃ ci, h !! l = Some ci ∧ c !! id = Some ci ∧ ci_AgentID ci = Some (ProtoFromUUID id) ∧
      good_uuid_pb (ProtoFromUUID id);
  rep_none id : m !! id = None → c !! id = None;
  rep_inj id id' l : m !! id = Some l → m !! id' = Some l → id = id'
}.

Lemma map_rep_empty h : map_rep h ∅ ∅.
Proof. by split. Qed.

(** A new message for [id]. *)
Lemma map_rep_alloc h m c id l ci :
  map_rep h m c → h !! l = None → ci_AgentID ci = Some (ProtoFromUUID id) →
  good_uuid_pb (ProtoFromUUID id) → map_rep (<[l := ci]> h) (<[id := l]> m) (<[id := ci]> c).
Proof.
  intros [He Hn Hi] Hl Hid Hg.
  assert (∀ id' l', m !! id' = Some l' → l' ≠ l) as Hne.
  { intros id' l' H ->. destruct (He id' l H) as (? & ? & _). congruence. }
  split.
  - intros id' l' [[<- <-]|[Hne' H]]%lookup_insert_Some; [rewrite !lookup_insert_eq; eauto|].
    destruct (He id' l' H) as (ci' & H1 & H2 & H3). exists ci'.
    rewrite !lookup_insert_ne; [done|done|]. intros ->. by eapply Hne.
  - intros id' [H1 H2]%lookup_insert_None. rewrite lookup_insert_ne by done. by apply Hn.
  - intros id1 id2 l' [[<- <-]|[? H1]]%lookup_insert_Some [[<- E]|[? H2]]%lookup_insert_Some; try done.
    + by apply Hne in H2.
    + subst l'. by apply Hne in H1.
    + by eapply Hi.
Qed.

(** A field of the message of [id] changed. *)
Lemma map_rep_store h m c id l md ci :
  map_rep h m c → m !! id = Some l → h !! l = Some ci →
  map_rep (<[l := with_metadata md ci]> h) m (alter (with_metadata md) id c).
Proof.
  intros [He Hn Hi] Hl Hci. destruct (He id l Hl) as (ci0 & E & Hc & Hid & Hg).
  rewrite Hci in E. injection E as <-. split; [| |done].
  - intros id' l' H. destruct (decide (id' = id)) as [->|Hne].
    + rewrite Hl in H. injection H as <-. exists (with_metadata md ci).
      rewrite lookup_insert_eq, lookup_alter_eq, Hc. done.
    + destruct (He id' l' H) as (ci' & H1 & H2 & H3). exists ci'.
      assert (l' ≠ l) by (intros ->; by apply Hne; eapply Hi).
      by rewrite lookup_insert_ne, lookup_alter_ne by done.
  - intros id' H. destruct (decide (id' = id)) as [->|Hne]; [congruence|].
    rewrite lookup_alter_ne by done. by apply Hn.
Qed.

Lemma map_rep_delete h m c id : map_rep h m c → map_rep h (delete id m) (delete id c).
Proof.
  intros [He Hn Hi]. split.
  - intros id' l [Hne H]%lookup_delete_Some. rewrite lookup_delete_ne by done. by apply He.
  - intros id'. destruct (decide (id' = id)) as [->|]; [by rewrite !lookup_delete_eq|].
    rewrite !lookup_delete_ne by done. apply Hn.
  - intros id1 id2 l [_ H1]%lookup_delete_Some [_ H2]%lookup_delete_Some. by eapply Hi.
Qed.

Lemma alloc_run ci a :
  let l := fresh (dom (ai_heap a)) in
  alloc ci a = (Ret l, with_heap (<[l := ci]> (ai_heap a)) a) ∧ ai_heap a !! l = None.
Proof. split; [done|]. apply not_elem_of_dom, is_fresh. Qed.

Lemma load_run l ci a : ai_heap a !! l = Some ci → load l a = (Ret ci, a).
Proof. intros H. unfold load. run_state. by rewrite H. Qed.

(** One update, on the heap and on the map of messages. *)
Lemma apply_one_spec m c u a :
  map_rep (ai_heap a) m c → update_good u →
  ∃ m' h', apply_one pod_namespace m u a = (Ret m', with_heap h' a) ∧ map_rep h' m' (apply_carnot c u).
Proof.
  intros HR Hu. destruct (update_good_id u Hu) as (id & Eid & Hg). unfold apply_one, apply_carnot.
  run_with (lift_sum_ret _ _ a Eid). rewrite Eid.
  assert (a = with_heap (ai_heap a) a) as Ha by (by destruct a).
  destruct (au_Update u) as [b|agent|d] eqn:Eu.
  - eexists _, (ai_heap a). split; [by rewrite <-Ha|]. destruct b; [by apply map_rep_delete|done].
  - destruct Hu as [_ Hu]. rewrite Eu in Hu. destruct Hu as [info Hi]. rewrite Hi.
    unfold mbind at 1, M_bind at 1. cbn [deref mret M_ret]. destruct (is_pem info).
    + assert (∀ k : option MetadataInfo → M AgentsInfoImpl (gmap uuid loc),
        (metadataInfo ← (match m !! id with
                         | Some l => carnotInfo ← load l; mret (ci_MetadataInfo carnotInfo)
                         | None => mret None end); k metadataInfo) a = k (c !! id ≫= ci_MetadataInfo) a) as Hmd.
      { intros k. destruct (m !! id) as [l|] eqn:El.
        - destruct (rep_entry _ _ _ HR id l El) as (ci & H1 & -> & _).
          erewrite bind_ret; [|run_with (load_run _ _ a H1); reflexivity]. done.
        - by rewrite (rep_none _ _ _ HR id El). }
      rewrite Hmd. destruct (alloc_run (makeAgentCarnotInfo id (ag_ASID agent) (c !! id ≫= ci_MetadataInfo)) a)
        as [E Hf]. run_with E. eexists _, _. split; [done|]. by apply map_rep_alloc.
    + destruct (alloc_run (makeKelvinCarnotInfo pod_namespace id (ai_IPAddress info) (ag_ASID agent)) a)
        as [E Hf]. run_with E. eexists _, _. split; [done|]. by apply map_rep_alloc.
  - destruct (m !! id) as [l|] eqn:El.
    + destruct (rep_entry _ _ _ HR id l El) as (ci & H1 & H2 & _).
      destruct (adi_MetadataInfo d) as [md|].
      * run_with (load_run _ _ a H1). eexists _, _. split; [reflexivity|]. by apply map_rep_store.
      * eexists _, (ai_heap a). by rewrite <-Ha.
    + eexists _, (ai_heap a). rewrite <-Ha. split; [done|].
      destruct (adi_MetadataInfo d); [|done].
      by rewrite alter_id' by apply (rep_none _ _ _ HR id El).
Qed.

Lemma apply_all_spec us m c a :
  map_rep (ai_heap a) m c → Forall update_good us →
  ∃ m' h', apply_all pod_namespace m us a = (Ret m', with_heap h' a) ∧
    map_rep h' m' (foldl apply_carnot c us).
Proof.
  intros HR Hus. revert m c a HR. induction Hus as [|u us Hu _ IH]; intros m c a HR.
  { exists m, (ai_heap a). split; [by destruct a|done]. }
  destruct (apply_one_spec m c u a HR Hu) as (m1 & h1 & E1 & HR1).
  destruct (IH m1 (apply_carnot c u) (with_heap h1 a) HR1) as (m2 & h2 & E2 & HR2).
  exists m2, h2. split; [|done]. cbn [apply_all]. run_with E1. exact E2.
Qed.

(** Rebuilding the map from the pointers of the pending state. *)
Definition insert_all (kvs : list (uuid * loc)) (m : gmap uuid loc) : gmap uuid loc :=
  foldl (λ m kv, <[kv.1 := kv.2]> m) m kvs.

Lemma lookup_insert_all kvs k v :
  NoDup kvs.*1 → insert_all kvs ∅ !! k = Some v ↔ (k, v) ∈ kvs.
Proof.
  unfold insert_all. induction kvs as [|[k' v'] kvs IH] using rev_ind.
  { intros _. simpl. rewrite lookup_empty. set_solver. }
  rewrite fmap_app, foldl_app. intros (H1 & H2 & _)%NoDup_app. cbn [foldl].
  rewrite lookup_insert_Some, IH, elem_of_app, list_elem_of_singleton by done. simpl.
  split; [naive_solver|]. intros [Hin|[= -> ->]]; [|by left]. right. split; [|done]. intros <-.
  apply (H2 k'); [by apply (list_elem_of_fmap_2' fst _ (k', v))|set_solver].
Qed.

Lemma insert_all_map kvs m : kvs ≡ₚ map_to_list m → insert_all kvs ∅ = m.
Proof.
  intros Hp. apply map_eq. intros k. apply option_eq. intros v.
  rewrite lookup_insert_all, Hp; [apply elem_of_map_to_list|].
  rewrite Hp. apply NoDup_fst_map_to_list.
Qed.

Lemma carnotInfoMap_run kvs acc a :
  (∀ id l, (id, l) ∈ kvs → ∃ ci, ai_heap a !! l = Some ci ∧ ci_AgentID ci = Some (ProtoFromUUID id) ∧
    good_uuid_pb (ProtoFromUUID id)) →
  carnotInfoMap kvs.*2 acc a = (Ret (insert_all kvs acc), a).
Proof.
  revert acc. induction kvs as [|[id l] kvs IH]; intros acc Hk; [done|].
  destruct (Hk id l) as (ci & H1 & H2 & Hg); [by left|]. rewrite fmap_cons. cbn [carnotInfoMap snd].
  run_with (load_run _ _ a H1). rewrite H2.
  run_with (lift_sum_ret _ _ a (UUIDFromProto_ProtoFromUUID id Hg)).
  rewrite IH; [done|]. intros id' l' Hin. apply Hk. by right.
Qed.

(** The pending state represents the schemas and the carnot infos. *)
Definition pending_rep (a : AgentsInfoImpl) (sch : list SchemaInfo) (c : gmap uuid CarnotInfo) : Prop :=
  ∃ p m kvs, ai_pendingDs a = Some p ∧ ds_SchemaInfo p = sch ∧ ds_CarnotInfo p = kvs.*2 ∧
    kvs ≡ₚ map_to_list m ∧ map_rep (ai_heap a) m c.

Lemma pending_rep_map a sch c :
  pending_rep a sch c →
  ∃ p m, ai_pendingDs a = Some p ∧ carnotInfoMap (ds_CarnotInfo p) ∅ a = (Ret m, a) ∧
    map_rep (ai_heap a) m c.
Proof.
  intros (p & m & kvs & Hp & _ & Hl & Hk & HR). exists p, m. split_and!; [done| |done].
  rewrite Hl, carnotInfoMap_run; [by rewrite (insert_all_map kvs m)|].
  intros id l Hin. rewrite Hk in Hin. apply elem_of_map_to_list in Hin.
  destruct (rep_entry _ _ _ HR id l Hin) as (ci & ? & _ & ? & ?). eauto.
Qed.

Lemma run_pending a p : ai_pendingDs a = Some p → pending a = (Ret p, a).
Proof. intros H. unfold pending. run_state. by rewrite H. Qed.

(** One message: the pending state follows the updates, and is published when
    the message ends a version. *)
Lemma UpdateAgentsInfo_spec ro msg a sch c :
  (∀ m, ro m ≡ₚ map_to_list m) → pending_rep a sch c → Forall update_good (aur_AgentUpdates msg) →
  ∃ a', UpdateAgentsInfo pod_namespace ro msg a = (Ret tt, a') ∧
    pending_rep a' (if aur_AgentSchemasUpdated msg then aur_AgentSchemas msg else sch)
      (foldl apply_carnot c (aur_AgentUpdates msg)) ∧
    (aur_EndOfVersion msg = true → ai_pendingDs a' = Some (ai_ds a')).
Proof.
  intros Hro HP Hus.
  set (sch' := if aur_AgentSchemasUpdated msg then aur_AgentSchemas msg else sch).
  assert (∃ a1, (if aur_AgentSchemasUpdated msg
       then p ← pending; modify (with_pending (mkDS (aur_AgentSchemas msg) (ds_CarnotInfo p)))
       else mret tt) a = (Ret tt, a1) ∧ pending_rep a1 sch' c) as (a1 & E1 & HP1).
  { unfold sch'. destruct (aur_AgentSchemasUpdated msg); [|by exists a].
    destruct HP as (p & m & kvs & Hp & Hs & Hl & Hk & HR). run_with (run_pending a p Hp).
    eexists. split; [reflexivity|]. by eexists _, m, kvs. }
  unfold UpdateAgentsInfo. run_with E1.
  destruct (pending_rep_map a1 sch' c HP1) as (p & m & Hp & Em & HR).
  run_with (run_pending a1 p Hp). run_with Em.
  destruct (apply_all_spec (aur_AgentUpdates msg) m c a1 HR Hus) as (m' & h' & Ea & HR').
  run_with Ea. run_with (run_pending (with_heap h' a1) p Hp).
  unfold mbind at 1, M_bind at 1. cbn [modify].
  destruct HP1 as (p0 & m0 & kvs & Hp0 & Hs & _). rewrite Hp in Hp0. injection Hp0 as <-.
  destruct (aur_EndOfVersion msg).
  - eexists. split; [reflexivity|]. split; [|done]. eexists _, m', (ro m'). by split_and!.
  - eexists. split; [reflexivity|]. split; [|done]. eexists _, m', (ro m'). by split_and!.
Qed.

(** A whole stream: its messages one after the other. *)
Lemma runStream_spec ro msgs a sch c :
  (∀ m, ro m ≡ₚ map_to_list m) → pending_rep a sch c →
  Forall (λ msg, Forall update_good (aur_AgentUpdates msg)) msgs →
  ∃ a' sch', runStream pod_namespace ro msgs false a = (Ret tt, a') ∧
    pending_rep a' sch' (foldl apply_carnot c (msgs ≫= aur_AgentUpdates)) ∧
    (from_option aur_EndOfVersion false (last msgs) = true → ai_pendingDs a' = Some (ai_ds a')).
Proof.
  intros Hro HP Hm. revert a sch c HP. induction Hm as [|msg msgs Hu _ IH]; intros a sch c HP.
  { by exists a, sch. }
  destruct (UpdateAgentsInfo_spec ro msg a sch c Hro HP Hu) as (a1 & E1 & HP1 & Hend).
  destruct (IH a1 _ _ HP1) as (a2 & sch2 & E2 & HP2 & Hend2).
  exists a2, sch2. split_and!.
  - cbn [runStream]. unfold updateState. unfold mbind at 2, M_bind at 2. cbn [mret M_ret].
    run_with E1. exact E2.
  - cbn. by rewrite foldl_app.
  - destruct msgs as [|msg' msgs]; [|done]. simpl. intros He. simpl in E2. injection E2 as <-. by apply Hend.
Qed.

Lemma ClearPending_rep a : pending_rep (with_pending empty_ds a) [] ∅.
Proof.
  exists empty_ds, ∅, []. split_and!; [done|done|done|by rewrite map_to_list_empty|apply map_rep_empty].
Qed.

Lemma published_rep a m kvs c :
  ds_CarnotInfo (ai_ds a) = kvs.*2 → kvs ≡ₚ map_to_list m → map_rep (ai_heap a) m c →
  published a ≡ₚ (map_to_list c).*2.
Proof.
  intros Hl Hk HR. unfold published. rewrite Hl.
  assert (omap (λ l, ai_heap a !! l) kvs.*2 = omap (λ kv, c !! kv.1) kvs) as ->.
  { assert (∀ id l, (id, l) ∈ kvs → ai_heap a !! l = c !! id) as H.
    { intros id l Hin. rewrite Hk in Hin. apply elem_of_map_to_list in Hin.
      by destruct (rep_entry _ _ _ HR id l Hin) as (ci & -> & -> & _). }
    clear Hl Hk. induction kvs as [|[id l] kvs IH]; [done|]. simpl. rewrite (H id l) by (by left).
    assert (omap (λ l, ai_heap a !! l) kvs.*2 = omap (λ kv, c !! kv.1) kvs) as E.
    { apply IH. intros id' l' Hin. apply H. by right. }
    destruct (c !! id); [f_equal|]; exact E. }
  assert (omap (λ kv : uuid * loc, c !! kv.1) kvs = omap (λ id, c !! id) kvs.*1) as ->.
  { clear. induction kvs as [|[id l] kvs IH]; [done|]. simpl. destruct (c !! id); [f_equal|]; exact IH. }
  apply (omap_ids_perm c); [rewrite Hk; apply NoDup_fst_map_to_list|].
  intros id. rewrite Hk, list_elem_of_fmap. split.
  - intros ([id' l] & -> & Hin%elem_of_map_to_list).
    destruct (rep_entry _ _ _ HR id' l Hin) as (ci & _ & Hci & _). simpl. rewrite Hci. eauto.
  - intros [ci Hci]. destruct (m !! id) as [l|] eqn:El.
    + exists (id, l). split; [done|]. by apply elem_of_map_to_list.
    + rewrite (rep_none _ _ _ HR id El) in Hci. done.
Qed.

Lemma published_pending a sch c :
  pending_rep a sch c → ai_pendingDs a = Some (ai_ds a) → published a ≡ₚ (map_to_list c).*2.
Proof.
  intros (p & m & kvs & Hp & _ & Hl & Hk & HR) Hds. rewrite Hp in Hds. injection Hds as ->.
  by eapply published_rep.
Qed.

(** ** Against the agents *)

(** The planner's description of an agent. *)
Definition carnot_of (a : Agent) (ci : CarnotInfo) : Prop :=
  ∃ info, ag_Info a = Some info ∧ ci_ASID ci = ag_ASID a ∧
    ci_HasDataStore ci = is_pem info ∧ ci_HasGRPCServer ci = negb (is_pem info) ∧
    (is_pem info = false → ci_GRPCAddress ci = ai_IPAddress info).

Definition describes (c : gmap uuid CarnotInfo) (As : gmap uuid Agent) : Prop :=
  ∀ id, match As !! id, c !! id with
        | Some a, Some ci => carnot_of a ci ∧ ci_AgentID ci = Some (ProtoFromUUID id)
        | None, None => True
        | _, _ => False
        end.

Lemma describes_step c As u :
  describes c As → update_good u → describes (apply_carnot c u) (apply_update As u).
Proof.
  intros HD Hu. destruct (update_good_id u Hu) as (id & Eid & _). destruct Hu as [_ Hu].
  unfold apply_carnot, apply_update, agent_effect. rewrite Eid.
  intros id'. specialize (HD id'). destruct (au_Update u) as [[]|a|d].
  - destruct (decide (id' = id)) as [->|]; [by rewrite !lookup_delete_eq|]. by rewrite !lookup_delete_ne.
  - done.
  - destruct Hu as [info Hi]. rewrite Hi. destruct (is_pem info) eqn:Ep.
    + destruct (decide (id' = id)) as [->|]; [|by rewrite !lookup_insert_ne].
      rewrite !lookup_insert_eq. split; [|done]. exists info. rewrite Ep. by split_and!.
    + destruct (decide (id' = id)) as [->|]; [|by rewrite !lookup_insert_ne].
      rewrite !lookup_insert_eq. split; [|done]. exists info. rewrite Ep. by split_and!.
  - destruct (adi_MetadataInfo d) as [md|]; [|done].
    destruct (decide (id' = id)) as [->|]; [|by rewrite lookup_alter_ne].
    rewrite lookup_alter_eq. destruct (As !! id), (c !! id); done.
Qed.

Lemma describes_replay us c As :
  describes c As → Forall update_good us →
  describes (foldl apply_carnot c us) (foldl apply_update As us).
Proof.
  intros HD Hus. revert c As HD. induction Hus as [|u us Hu _ IH]; intros c As HD; [done|].
  cbn [foldl]. apply IH. by apply describes_step.
Qed.

(** A stream of updates that starts fresh and ends a version publishes exactly
    one description per agent the updates leave, with the agent's ASID and role,
    whatever the broker knew before and however the updates were split into
    messages. *)
Theorem stream_publishes_agents ro msgs a :
  (∀ m, ro m ≡ₚ map_to_list m) → Forall (λ msg, Forall update_good (aur_AgentUpdates msg)) msgs →
  from_option aur_EndOfVersion false (last msgs) = true →
  ∃ a' c, runStream pod_namespace ro msgs true a = (Ret tt, a') ∧
    published a' ≡ₚ (map_to_list c).*2 ∧
    describes c (foldl apply_update ∅ (msgs ≫= aur_AgentUpdates)).
Proof.
  intros Hro Hm Hlast. destruct msgs as [|msg msgs]; [done|].
  destruct (runStream_spec ro (msg :: msgs) _ _ _ Hro (ClearPending_rep a) Hm) as (a' & sch & E & HP & Hend).
  eexists a', _. split_and!.
  - cbn [runStream] in *. unfold updateState in *. exact E.
  - eapply published_pending; [exact HP|by apply Hend].
  - apply describes_replay; [|].
    + intros id. by rewrite !lookup_empty.
    + clear -Hm. induction Hm; [constructor|]. cbn. by apply Forall_app.
Qed.

Lemma apply_carnot_idemp c u : apply_carnot (apply_carnot c u) u = apply_carnot c u.
Proof.
  unfold apply_carnot. destruct (UUIDFromProto (au_AgentID u)) as [|id]; [done|].
  destruct (au_Update u) as [[]|a|d]; [apply delete_delete_eq|done| |].
  - destruct (ag_Info a) as [info|]; [|done]. destruct (is_pem info).
    + rewrite lookup_insert_eq, insert_insert_eq. done.
    + by rewrite insert_insert_eq.
  - destruct (adi_MetadataInfo d) as [md|]; [|done]. apply map_eq. intros id'.
    destruct (decide (id' = id)) as [->|]; [|by rewrite !lookup_alter_ne].
    rewrite !lookup_alter_eq. by destruct (c !! id).
Qed.

(** Receiving an update twice in a row gives the same pending state as receiving
    it once. *)
Theorem duplicate_update_harmless ro msg1 msg2 u us1 us2 a sch c :
  (∀ m, ro m ≡ₚ map_to_list m) → pending_rep a sch c → Forall update_good (us1 ++ u :: us2) →
  aur_AgentUpdates msg1 = us1 ++ u :: us2 → aur_AgentUpdates msg2 = us1 ++ u :: u :: us2 →
  aur_AgentSchemasUpdated msg1 = false → aur_AgentSchemasUpdated msg2 = false →
  ∃ a1 a2 c', UpdateAgentsInfo pod_namespace ro msg1 a = (Ret tt, a1) ∧
    UpdateAgentsInfo pod_namespace ro msg2 a = (Ret tt, a2) ∧
    pending_rep a1 sch c' ∧ pending_rep a2 sch c'.
Proof.
  intros Hro HP Hus E1 E2 S1 S2.
  assert (Forall update_good (us1 ++ u :: u :: us2)) as Hus2.
  { apply Forall_app in Hus as [? Hu]. apply Forall_cons in Hu as [? ?]. apply Forall_app.
    split; [done|]. apply Forall_cons. split; [done|]. by apply Forall_cons. }
  destruct (UpdateAgentsInfo_spec ro msg1 a sch c Hro HP ltac:(by rewrite E1)) as (a1 & R1 & P1 & _).
  destruct (UpdateAgentsInfo_spec ro msg2 a sch c Hro HP ltac:(by rewrite E2)) as (a2 & R2 & P2 & _).
  rewrite S1, E1 in P1. rewrite S2, E2, foldl_app in P2. cbn [foldl] in P2.
  rewrite apply_carnot_idemp in P2. rewrite foldl_app in P1. eauto 10.
Qed.

(** The published state shares its messages with the pending one: a data info of
    the next version is visible to clients before that version ends. *)
Theorem data_info_visible_before_end_of_version ro a sch c id ci d md :
  (∀ m, ro m ≡ₚ map_to_list m) → pending_rep a sch c → ai_pendingDs a = Some (ai_ds a) →
  c !! id = Some ci → good_uuid_pb (ProtoFromUUID id) → adi_MetadataInfo d = Some md →
  ∃ a', UpdateAgentsInfo pod_namespace ro
      (mkAgentUpdatesResponse [data_info_update id d] [] false false) a = (Ret tt, a') ∧
    published a ≡ₚ (map_to_list c).*2 ∧
    published a' ≡ₚ (map_to_list (<[id := with_metadata md ci]> c)).*2.
Proof.
  intros Hro HP Hds Hci Hg Hmd. pose proof (published_pending a sch c HP Hds) as Hpub.
  destruct HP as (p & m & kvs & Hp & Hs & Hl & Hk & HR).
  assert (p = ai_ds a) as -> by congruence.
  destruct (m !! id) as [l|] eqn:El; [|by rewrite (rep_none _ _ _ HR id El) in Hci].
  destruct (rep_entry _ _ _ HR id l El) as (ci' & Hh & Hc & _).
  rewrite Hci in Hc. injection Hc as <-.
  set (h' := <[l := with_metadata md ci]> (ai_heap a)).
  exists (with_pending (mkDS (ds_SchemaInfo (ai_ds a)) (ro m).*2) (with_heap h' a)). split_and!; [|done|].
  - unfold UpdateAgentsInfo. cbn [aur_AgentSchemasUpdated aur_AgentUpdates aur_EndOfVersion].
    unfold mbind at 1, M_bind at 1. cbn [mret M_ret]. run_with (run_pending a _ Hp).
    rewrite Hl. erewrite bind_ret; [|apply carnotInfoMap_run].
    2: { intros id' l' Hin. rewrite Hk in Hin. apply elem_of_map_to_list in Hin.
         destruct (rep_entry _ _ _ HR id' l' Hin) as (? & ? & _ & ? & ?). eauto. }
    rewrite (insert_all_map kvs m Hk).
    erewrite bind_ret; [|cbn [apply_all]; erewrite bind_ret; [reflexivity|unfold apply_one]].
    2: { cbn [au_AgentID au_Update data_info_update].
         run_with (lift_sum_ret _ _ a (UUIDFromProto_ProtoFromUUID id Hg)). rewrite El, Hmd.
         run_with (load_run l ci a Hh). reflexivity. }
    run_with (run_pending (with_heap h' a) _ Hp). done.
  - assert (<[id := with_metadata md ci]> c = alter (with_metadata md) id c) as ->.
    { apply map_eq. intros id'. destruct (decide (id' = id)) as [->|].
      - by rewrite lookup_insert_eq, lookup_alter_eq, Hci.
      - by rewrite lookup_insert_ne, lookup_alter_ne. }
    eapply published_rep; [exact Hl|exact Hk|]. by apply map_rep_store.
Qed.
End abstract.

(** ** Instances *)
Module MemTracker.
Export MemManager.

(** A broker that learnt of one agent. *)
Definition update_1 : AgentUpdate := agent_info_update uuid_1 agent_1.

Definition metadata_1 : MetadataInfo := mkMetadataInfo [] None.

Definition carnot_1 : CarnotInfo := makeAgentCarnotInfo uuid_1 (ag_ASID agent_1) None.

Definition broker_1 : AgentsInfoImpl := mkAgentsInfo {[0 := carnot_1]} (mkDS [] [0]) (Some (mkDS [] [0])).

Lemma update_1_good : update_good update_1.
Proof.
  split; [|by eexists]. eexists. split; [done|]. split; [apply ProtoFromUUID_wf|apply good_uuid_1].
Qed.

Lemma broker_1_rep : pending_rep broker_1 [] {[uuid_1 := carnot_1]}.
Proof.
  exists (mkDS [] [0]), {[uuid_1 := 0]}, [(uuid_1, 0)].
  split_and!; [done|done|done|by rewrite map_to_list_singleton|]. split.
  - intros id l [<- <-]%lookup_singleton_Some. exists carnot_1.
    split_and!; [done|apply lookup_singleton_eq|done|apply good_uuid_1].
  - intros id H%lookup_singleton_None. by apply lookup_singleton_None.
  - by intros id id' l [<- <-]%lookup_singleton_Some [<- _]%lookup_singleton_Some.
Qed.
End MemTracker.
Import MemTracker.

Lemma stream_publishes_agents_witness :
  ∃ a' c, runStream "pl" map_to_list [mkAgentUpdatesResponse [update_1] [] false false;
      mkAgentUpdatesResponse [update_1] [] false true] true broker_1 = (Ret tt, a') ∧
    published a' ≡ₚ (map_to_list c).*2 ∧
    describes c (foldl apply_update ∅ [update_1; update_1]).
Proof.
  apply (stream_publishes_agents "pl" map_to_list [mkAgentUpdatesResponse [update_1] [] false false;
    mkAgentUpdatesResponse [update_1] [] false true] broker_1); [done| |done].
  apply Forall_cons. split; [|apply Forall_singleton]; apply Forall_singleton, update_1_good.
Defined.

Lemma duplicate_update_harmless_witness :
  ∃ a1 a2 c', UpdateAgentsInfo "pl" map_to_list (mkAgentUpdatesResponse [update_1] [] false true) broker_1
      = (Ret tt, a1) ∧
    UpdateAgentsInfo "pl" map_to_list (mkAgentUpdatesResponse [update_1; update_1] [] false true) broker_1
      = (Ret tt, a2) ∧
    pending_rep a1 [] c' ∧ pending_rep a2 [] c'.
Proof.
  apply (duplicate_update_harmless "pl" map_to_list _ _ update_1 [] [] broker_1 [] {[uuid_1 := carnot_1]});
    [done|apply broker_1_rep|apply Forall_singleton, update_1_good|done..].
Defined.

Lemma data_info_visible_before_end_of_version_witness :
  ∃ a', UpdateAgentsInfo "pl" map_to_list (mkAgentUpdatesResponse
      [data_info_update uuid_1 (mkAgentDataInfo (Some metadata_1))] [] false false) broker_1 = (Ret tt, a') ∧
    published a' ≡ₚ [with_metadata metadata_1 carnot_1].
Proof.
  destruct (data_info_visible_before_end_of_version "pl" map_to_list broker_1 [] {[uuid_1 := carnot_1]}
    uuid_1 carnot_1 (mkAgentDataInfo (Some metadata_1)) metadata_1) as (a' & E & _ & H);
    [done|apply broker_1_rep|done|apply lookup_singleton_eq|apply good_uuid_1|done|].
  exists a'. split; [exact E|]. rewrite H. by rewrite insert_singleton_eq, map_to_list_singleton.
Defined.
