(* ===== verification/Server.v ===== *)
(** * The metadata server's agent endpoints

    [src/vizier/services/metadata/controllers/server.go]: the conversions of the
    computed schema, [GetSchemas], [GetAgentInfo], and [GetAgentUpdates], which
    streams the updates of one cursor in bounded messages.  The gRPC stream is
    the parameter [UpdateStream]. *)

From S2P Require Import Prelude GoLib Uuid Messages AgentSchema AgentStore MessageBus AgentManager Tracker.

(** ** Schemas *)

Definition convert_column (c : ColumnInfo) : RelationColumn :=
  mkRelationColumn (col_Name c) (col_DataType c) (col_Desc c) (col_PatternType c) (col_SemanticType c).

Definition convertToRelationMap (cs : ComputedSchema) : gmap string Relation :=
  foldl (λ m schema, <[ti_Name schema := mkRelation (convert_column <$> ti_Columns schema) (ti_Desc schema)]> m)
    ∅ (cs_Tables cs).

Fixpoint schema_infos (tnta : gmap string (list UUIDpb)) (tables : list TableInfo)
    : error + list SchemaInfo :=
  match tables with
  | [] => inr []
  | schema :: tables =>
    match tnta !! ti_Name schema with
    | None => inl (ErrMsg ("Can't find agentIDs for schema " +:+ ti_Name schema))
    | Some agentIDs =>
      match schema_infos tnta tables with
      | inl e => inl e
      | inr infos =>
        inr (mkSchemaInfo (ti_Name schema)
               (mkRelation (convert_column <$> ti_Columns schema) "") agentIDs :: infos)
      end
    end
  end.

Definition convertToSchemaInfo (cs : ComputedSchema) : error + list SchemaInfo :=
  schema_infos (cs_TableNameToAgentIDs cs) (cs_Tables cs).

(** ** Agents *)

Inductive AgentState : Type := AGENT_STATE_HEALTHY | AGENT_STATE_UNRESPONSIVE.

Record AgentMetadata := mkAgentMetadata {
  am_Agent : Agent;
  am_NSSinceLastHeartbeat : Z;
  am_State : AgentState
}.

(** [UnhealthyAgentThreshold], 30 seconds. *)
Definition UnhealthyAgentThreshold : Z := 30 * 1000000000.

(** Times are far from the ends of the [int64] range, where [Sub] saturates. *)
Definition agent_metadata (currentTime : Z) (agt : Agent) : AgentMetadata :=
  let timeSinceLastHb := (currentTime - ag_LastHeartbeatNS agt)%Z in
  mkAgentMetadata agt timeSinceLastHb
    (if (UnhealthyAgentThreshold <? timeSinceLastHb)%Z
     then AGENT_STATE_UNRESPONSIVE else AGENT_STATE_HEALTHY).

(** ** The stream *)

Class UpdateStream := {
  stream : Type;
  srv_Send : AgentUpdatesResponse → stream → option error * stream;
  srv_Done : stream → bool
}.

(** A stream whose client stays connected. *)
Class StreamSpec (SS : UpdateStream) (sent : stream → list AgentUpdatesResponse)
    (open : stream → Prop) : Prop := {
  stream_open s : open s → srv_Done s = false;
  stream_Send r s : open s → ∃ s', srv_Send r s = (None, s') ∧ sent s' = sent s ++ [r] ∧ open s'
}.

Section server.
Context {St : Type} `{U : UUIDLib} `{!AgentStore St} `{N : NatsConn} `{SS : UpdateStream}.

(** [Server], with the stream of the call. *)
Record Server := mkServer {
  agtMgr : ManagerImpl St;
  getAgentsCursor : uuid;
  srv : stream
}.

Definition mgr_call {B} (m : M (ManagerImpl St) B) : M Server B :=
  zoom agtMgr (λ mg s, mkServer mg (getAgentsCursor s) (srv s)) m.

Definition Send (r : AgentUpdatesResponse) : M Server unit := λ s,
  let '(e, st) := srv_Send r (srv s) in
  (match e with None => Ret tt | Some e => Err e end, mkServer (agtMgr s) (getAgentsCursor s) st).

Definition GetSchemas : M Server (gmap string Relation) :=
  computedSchema ← mgr_call GetComputedSchema;
  mret (convertToRelationMap computedSchema).

Definition GetAgentInfo (now : Z) : M Server (list AgentMetadata) :=
  agents ← mgr_call GetActiveAgents;
  mret (agent_metadata now <$> agents).

(** The inner loop: the updates of one response, and whether the end of the
    updates was reached. *)
Definition chunk_step (updates : list AgentUpdate) (st : list AgentUpdate * bool) (idx : Z)
    : list AgentUpdate * bool :=
  let '(acc, finished) := st in
  if (idx <? Z.of_nat (length updates))%Z
  then match updates !! Z.to_nat idx with
       | Some u => (acc ++ [u], finished)
       | None => (acc, finished)
       end
  else (acc, true).

Definition chunk (updates : list AgentUpdate) (currentIdx chunkSize : Z) (finished : bool)
    : list AgentUpdate * bool :=
  foldl (chunk_step updates) ([], finished) (seqZ currentIdx chunkSize).

(** The loop that sends one batch; [Some true] when the client closed its
    context, [Some false] when the batch is sent, [None] when the fuel is used
    up. *)
Fixpoint send_batch (fuel : nat) (agentChunkSize : Z) (updates : list AgentUpdate)
    (newComputedSchema : option ComputedSchema) (currentIdx : Z)
    (finishedUpdates finishedSchema : bool) : M Server (option bool) :=
  match fuel with
  | O => mret None
  | Datatypes.S fuel =>
    if finishedUpdates && finishedSchema then mret (Some false)
    else
      s ← get_state;
      if srv_Done (srv s) then mret (Some true)
      else
        let '(us, finishedUpdates) := chunk updates currentIdx agentChunkSize finishedUpdates in
        let send_schema := finishedUpdates && negb finishedSchema in
        schemas ← (if send_schema
                   then cs ← deref newComputedSchema; lift_sum (convertToSchemaInfo cs)
                   else mret []);
        let finishedSchema := finishedSchema || send_schema in
        _ ← Send (mkAgentUpdatesResponse us schemas send_schema (finishedSchema && finishedUpdates));
        send_batch fuel agentChunkSize updates newComputedSchema (currentIdx + agentChunkSize)
          finishedUpdates finishedSchema
  end.

(** One iteration of the loop of [GetAgentUpdates]: [Some true] to go on,
    [Some false] to return. *)
Definition updates_round (fuel : nat) (ro : gmap uuid AgentDataInfo → list (uuid * AgentDataInfo))
    (agentChunkSize : Z) (cursor : uuid) : M Server (option bool) :=
  s ← get_state;
  if negb (bool_decide (cursor = getAgentsCursor s)) then mret (Some false)
  else
    res ← try (mgr_call (GetAgentUpdates ro cursor));
    match res with
    | inl e => if decide (e = ErrNoComputedSchemas) then mret (Some true) else fail e
    | inr (updates, newComputedSchema) =>
      let finishedUpdates := bool_decide (length updates = 0) in
      let finishedSchema := match newComputedSchema with None => true | Some _ => false end in
      if finishedSchema && finishedUpdates then
        s ← get_state;
        if srv_Done (srv s) then mret (Some false)
        else _ ← Send (mkAgentUpdatesResponse [] [] false false); mret (Some true)
      else
        r ← send_batch fuel agentChunkSize updates newComputedSchema 0 finishedUpdates finishedSchema;
        mret (match r with None => None | Some closed => Some (negb closed) end)
    end.

Fixpoint updates_loop (rounds fuel : nat)
    (ro : gmap uuid AgentDataInfo → list (uuid * AgentDataInfo)) (agentChunkSize : Z) (cursor : uuid)
    : M Server (option bool) :=
  match rounds with
  | O => mret None
  | Datatypes.S rounds =>
    r ← updates_round fuel ro agentChunkSize cursor;
    match r with
    | Some true => updates_loop rounds fuel ro agentChunkSize cursor
    | Some false => mret (Some false)
    | None => mret None
    end
  end.

Definition ErrInvalidArgument (msg : string) : error := GrpcStatus 3 msg.
Definition ErrInternal (msg : string) : error := GrpcStatus 13 msg.

(** The endpoint, for as many rounds as given; [cursor] is the new cursor's
    identifier, [maxUpdateInterval] the request's interval with the result of its
    conversion to a duration.  The cursor is deleted when the call returns. *)
Definition GetAgentUpdates (rounds fuel : nat)
    (ro : gmap uuid AgentDataInfo → list (uuid * AgentDataInfo)) (cursor : uuid)
    (maxUpdatesPerResponse : Z) (maxUpdateInterval : option (error + Z)) : M Server (option bool) :=
  if (maxUpdatesPerResponse =? 0)%Z
  then fail (ErrInvalidArgument "Max updates per agent should be specified in AgentUpdatesRequest")
  else match maxUpdateInterval with
  | None => fail (ErrInvalidArgument "Max update interval should be specified in AgentUpdatesRequest")
  | Some (inl e) => fail (ErrInternal ("Failed to parse duration: " +:+ error_string e))
  | Some (inr agentUpdatePeriod) =>
    _ ← mgr_call (NewAgentUpdateCursor cursor);
    _ ← modify (λ s, mkServer (agtMgr s) cursor (srv s));
    res ← try (updates_loop rounds fuel ro maxUpdatesPerResponse cursor);
    match res with
    | inr None => mret None
    | _ => _ ← mgr_call (DeleteAgentUpdateCursor cursor); lift_sum res
    end
  end.
End server.
Arguments Server St {U N SS}.

(** ** The conversion of a well-formed schema *)

Lemma schema_infos_total tnta tables :
  (∀ ti, ti ∈ tables → is_Some (tnta !! ti_Name ti)) →
  ∃ infos, schema_infos tnta tables = inr infos ∧
    (λ si, (si_Name si, si_AgentList si)) <$> infos =
      (λ ti, (ti_Name ti, default [] (tnta !! ti_Name ti))) <$> tables.
Proof.
  induction tables as [|ti tables IH]; intros H; [by exists []|].
  destruct (H ti) as [l Hl]; [by left|].
  destruct IH as (infos & E & Hi); [intros; apply H; by right|].
  simpl. rewrite Hl, E. eexists. split; [done|]. rewrite fmap_cons, Hi. done.
Qed.

(** A schema that satisfies the store's invariant always converts: one entry per
    table, with the table's agents. *)
Theorem convertToSchemaInfo_total cs :
  cs_wf cs →
  ∃ infos, convertToSchemaInfo cs = inr infos ∧
    (λ si, (si_Name si, si_AgentList si)) <$> infos =
      (λ ti, (ti_Name ti, agents_of cs (ti_Name ti))) <$> cs_Tables cs.
Proof.
  intros Hwf. apply schema_infos_total. intros ti Hti. apply (wf_dom cs Hwf). by apply list_elem_of_fmap_2.
Qed.

(** ** Chunks *)

Lemma chunk_take updates i n :
  i ≤ length updates →
  chunk updates (Z.of_nat i) (Z.of_nat n) false =
    (take n (drop i updates), bool_decide (length updates < i + n)).
Proof.
  intros Hi. unfold chunk. induction n as [|n IH].
  { simpl. f_equal. symmetry. apply bool_decide_eq_false. lia. }
  replace (Z.of_nat (Datatypes.S n)) with (Z.of_nat n + 1)%Z by lia.
  rewrite seqZ_app by lia. rewrite foldl_app, IH.
  change (seqZ (Z.of_nat i + Z.of_nat n) 1) with [(0 + (Z.of_nat i + Z.of_nat n))%Z].
  cbn [foldl]. rewrite Z.add_0_l. unfold chunk_step.
  destruct (Z.ltb_spec (Z.of_nat i + Z.of_nat n) (Z.of_nat (length updates))).
  - replace (Z.to_nat (Z.of_nat i + Z.of_nat n)) with (i + n) by lia.
    destruct (lookup_lt_is_Some_2 updates (i + n)) as [u Hu]; [lia|]. rewrite Hu.
    f_equal; [|rewrite !bool_decide_eq_false_2 by lia; done].
    symmetry. apply take_S_r. rewrite lookup_drop. done.
  - rewrite bool_decide_eq_true_2 by lia. f_equal.
    rewrite !take_ge by (rewrite length_drop; lia). done.
Qed.

Section batch.
Context {St : Type} `{U : UUIDLib} `{!AgentStore St} `{N : NatsConn} `{SS : UpdateStream}.
Context {sent : stream → list AgentUpdatesResponse} {open : stream → Prop} `{!StreamSpec SS sent open}.
Implicit Types s : Server St.

(** The same server, its stream apart. *)
Definition same_server s s' : Prop :=
  agtMgr s' = agtMgr s ∧ getAgentsCursor s' = getAgentsCursor s.

Lemma Send_run r s :
  open (srv s) →
  ∃ s', Send r s = (Ret tt, s') ∧ sent (srv s') = sent (srv s) ++ [r] ∧ open (srv s') ∧ same_server s s'.
Proof.
  intros Ho. destruct (stream_Send r (srv s) Ho) as (st & E & Hs & Ho'). unfold Send. rewrite E.
  by eexists.
Qed.

(** The responses of one batch from index [i] on. *)
Definition batch_responses (n : nat) (us : list AgentUpdate) (schemas : option (list SchemaInfo))
    (rs : list AgentUpdatesResponse) : Prop :=
  rs ≫= aur_AgentUpdates = us ∧
  Forall (λ r, length (aur_AgentUpdates r) ≤ n) rs ∧
  ∃ rs' r, rs = rs' ++ [r] ∧
    Forall (λ r, aur_EndOfVersion r = false ∧ aur_AgentSchemasUpdated r = false) rs' ∧
    aur_EndOfVersion r = true ∧
    match schemas with
    | Some infos => aur_AgentSchemasUpdated r = true ∧ aur_AgentSchemas r = infos
    | None => aur_AgentSchemasUpdated r = false
    end.

Definition schema_of (o : option ComputedSchema) (schemas : option (list SchemaInfo)) : Prop :=
  match o, schemas with
  | None, None => True
  | Some cs, Some infos => convertToSchemaInfo cs = inr infos
  | _, _ => False
  end.

Lemma send_batch_from fuel n updates o schemas i s :
  0 < n → i ≤ length updates → length updates - i + 1 < fuel → open (srv s) → schema_of o schemas →
  ∃ s' rs, send_batch fuel (Z.of_nat n) updates o (Z.of_nat i) false
      (match o with None => true | Some _ => false end) s = (Ret (Some false), s') ∧
    sent (srv s') = sent (srv s) ++ rs ∧ open (srv s') ∧ same_server s s' ∧
    batch_responses n (drop i updates) schemas rs.
Proof.
  intros Hn. revert i s. induction fuel as [|fuel IH]; intros i s Hi Hf Ho Hsch; [lia|].
  cbn [send_batch andb]. run_state. rewrite (stream_open _ Ho). rewrite chunk_take by done.
  destruct (decide (length updates < i + n)) as [Hlast|Hmore].
  - rewrite bool_decide_eq_true_2 by done. rewrite take_ge by (rewrite length_drop; lia).
    assert (∃ infos, (if true && negb (match o with None => true | Some _ => false end)
      then cs ← deref o; lift_sum (convertToSchemaInfo cs) else mret []) s = (Ret infos, s) ∧
      match schemas with Some i => infos = i | None => infos = [] end) as (infos & Ec & Hinfos).
    { destruct o as [cs|], schemas as [infos|]; try done; [|by exists []].
      exists infos. split; [|done]. simpl in Hsch. simpl. unfold mbind, M_bind. simpl. by rewrite Hsch. }
    run_with Ec.
    destruct (Send_run (mkAgentUpdatesResponse (drop i updates) infos
      (true && negb (match o with None => true | Some _ => false end))
      ((match o with None => true | Some _ => false end ||
        (true && negb (match o with None => true | Some _ => false end))) && true)) s Ho) as (s1 & E1 & Hs1 & Ho1 & Hsm).
    run_with E1. destruct fuel as [|fuel]; [lia|].
    eexists s1, _. split_and!; [by destruct o|exact Hs1|done|done|].
    split_and!.
    + cbn. by rewrite app_nil_r.
    + apply Forall_singleton. simpl. rewrite length_drop. lia.
    + eexists [], _. split_and!; [done|constructor|by destruct o|].
      by destruct o, schemas.
  - rewrite bool_decide_eq_false_2 by done. cbn [andb]. unfold mbind at 1, M_bind at 1. cbn [mret M_ret].
    destruct (Send_run (mkAgentUpdatesResponse (take n (drop i updates)) [] false
      ((match o with None => true | Some _ => false end || false) && false)) s Ho) as (s1 & E1 & Hs1 & Ho1 & Hsm1).
    run_with E1. rewrite orb_false_r. replace (Z.of_nat i + Z.of_nat n)%Z with (Z.of_nat (i + n)) by lia.
    destruct (IH (i + n) s1) as (s2 & rs & E2 & Hs2 & Ho2 & Hsm2 & Hc & Hlen & rs' & r & -> & Hr' & Hr);
      [lia|lia|done|done|].
    eexists s2, (_ :: rs' ++ [r]). split_and!; [exact E2| |done| |].
    + rewrite Hs2, Hs1, <-app_assoc. done.
    + destruct Hsm1, Hsm2. split; congruence.
    + split_and!.
      * cbn. rewrite Hc, <-drop_drop. apply take_drop.
      * apply Forall_cons. split; [simpl; rewrite length_take; lia|done].
      * eexists (_ :: rs'), r. split_and!; [done| |apply Hr|apply Hr].
        apply Forall_cons. split; [|done]. simpl. by rewrite andb_false_r.
Qed.

Lemma chunk_finished updates i n :
  chunk updates (Z.of_nat (length updates + i)) (Z.of_nat n) true = ([], true).
Proof.
  unfold chunk. induction n as [|n IH]; [done|].
  replace (Z.of_nat (Datatypes.S n)) with (Z.of_nat n + 1)%Z by lia.
  rewrite seqZ_app by lia. rewrite foldl_app, IH.
  change (seqZ (Z.of_nat (length updates + i) + Z.of_nat n) 1)
    with [(0 + (Z.of_nat (length updates + i) + Z.of_nat n))%Z].
  cbn [foldl]. unfold chunk_step. by rewrite (proj2 (Z.ltb_ge _ _)) by lia.
Qed.

(** Starting with the updates marked finished, when there are none. *)
Lemma send_batch_no_updates fuel n cs s :
  0 < n →
  send_batch fuel (Z.of_nat n) [] (Some cs) 0 true false s =
    send_batch fuel (Z.of_nat n) [] (Some cs) 0 false false s.
Proof.
  intros Hn. destruct fuel as [|fuel]; [done|]. cbn [send_batch andb].
  assert (chunk [] 0 (Z.of_nat n) true = chunk [] 0 (Z.of_nat n) false) as ->; [|done].
  transitivity (@nil AgentUpdate, true); [exact (chunk_finished [] 0 n)|].
  pose proof (chunk_take [] 0 n ltac:(simpl; lia)) as H2.
  rewrite drop_nil, take_nil, bool_decide_eq_true_2 in H2 by (simpl; lia). by symmetry.
Qed.

(** C32: A batch is sent completely: with a positive chunk size the loop ends, the
    responses hold the updates in order, at most the chunk size each, the schema
    comes with the last response and only this one ends the version. *)
Theorem send_batch_complete fuel n updates o schemas s :
  0 < n → length updates + 1 < fuel → open (srv s) → schema_of o schemas →
  (updates ≠ [] ∨ o ≠ None) →
  ∃ s' rs, send_batch fuel (Z.of_nat n) updates o 0 (bool_decide (length updates = 0))
      (match o with None => true | Some _ => false end) s = (Ret (Some false), s') ∧
    sent (srv s') = sent (srv s) ++ rs ∧
    rs ≫= aur_AgentUpdates = updates ∧ Forall (λ r, length (aur_AgentUpdates r) ≤ n) rs ∧
    ∃ rs' r, rs = rs' ++ [r] ∧
      Forall (λ r, aur_EndOfVersion r = false ∧ aur_AgentSchemasUpdated r = false) rs' ∧
      aur_EndOfVersion r = true ∧
      match schemas with
      | Some infos => aur_AgentSchemasUpdated r = true ∧ aur_AgentSchemas r = infos
      | None => aur_AgentSchemasUpdated r = false
      end.
Proof.
  intros Hn Hf Ho Hsch Hne.
  destruct (send_batch_from fuel n updates o schemas 0 s) as (s' & rs & E & Hs & _ & _ & Hb);
    [done|lia|lia|done|done|]. rewrite drop_0 in Hb.
  exists s', rs. split; [|by split]. simpl in E. destruct updates as [|u us].
  - destruct o as [cs|]; [|naive_solver]. rewrite bool_decide_eq_true_2 by done.
    by rewrite send_batch_no_updates.
  - by rewrite bool_decide_eq_false_2 by done.
Qed.

(** With a negative chunk size, which the request check lets through, the loop
    sends empty responses for ever. *)
Theorem negative_chunk_size_never_ends fuel sz updates o i fs s :
  (sz < 0)%Z → open (srv s) →
  ∃ s', send_batch fuel sz updates o i false fs s = (Ret None, s') ∧
    sent (srv s') = sent (srv s) ++ replicate fuel (mkAgentUpdatesResponse [] [] false false).
Proof.
  intros Hsz. revert i s. induction fuel as [|fuel IH]; intros i s Ho.
  { exists s. by rewrite app_nil_r. }
  cbn [send_batch andb]. run_state. rewrite (stream_open _ Ho).
  assert (chunk updates i sz false = ([], false)) as ->.
  { unfold chunk, seqZ. by replace (Z.to_nat sz) with 0 by lia. }
  cbn [andb]. unfold mbind at 1, M_bind at 1. cbn [mret M_ret].
  destruct (Send_run (mkAgentUpdatesResponse [] [] false ((fs || false) && false)) s Ho)
    as (s1 & E1 & Hs1 & Ho1 & _).
  run_with E1. rewrite orb_false_r. destruct (IH (i + sz)%Z s1 Ho1) as (s2 & E2 & Hs2).
  exists s2. split; [exact E2|]. rewrite Hs2, Hs1, <-app_assoc. by rewrite andb_false_r.
Qed.
End batch.

(** ** From the store to the query broker *)
Section end_to_end.
Context {St : Type} `{U : UUIDLib} `{!UUIDSpec U} `{!AgentStore St} `{N : NatsConn} `{SS : UpdateStream}.
Context {rep : St → agents_abs → Prop} `{!AgentStoreSpec St rep}.
Context {sent : stream → list AgentUpdatesResponse} {open : stream → Prop} `{!StreamSpec SS sent open}.
Implicit Types s : Server St.

(** The first read of a fresh cursor returns the stored agents and data infos. *)
Lemma first_read ro mg A cs cursor :
  rep (agtStore mg) A → aa_schema A = Some cs → (∀ D, ro D ≡ₚ map_to_list D) →
  agentUpdateTrackers mg !! cursor = Some newAgentUpdateTracker →
  ∃ l mg', AgentManager.GetAgentUpdates ro cursor mg =
      (Ret (initial_updates l (ro (aa_data A)), Some cs), mg') ∧
    l ≡ₚ filter (λ a, valid_agent a = true) (map_to_list (aa_agents A)).*2.
Proof.
  intros HR Hs Hro Ht. destruct (store_GetAgents _ A HR) as (l & El & Hl).
  pose proof (store_GetComputedSchema _ A HR) as Es. rewrite Hs in Es.
  eexists l, _. split; [|done]. unfold AgentManager.GetAgentUpdates.
  erewrite bind_ret; [|unfold pop_tracker; run_state; rewrite Ht; reflexivity].
  cbn [read_state newAgentUpdateTracker tr_schemaUpdated tr_updates tr_hasReadInitialState].
  unfold read_state. cbn [negb orb].
  erewrite bind_ret; [|erewrite bind_ret; [reflexivity|apply st_call_ret; exact Es]].
  erewrite bind_ret; [|apply st_call_ret; exact El].
  erewrite bind_ret; [|apply st_call_ret; exact (store_GetAgentsDataInfo _ A HR)]. reflexivity.
Qed.

Lemma initial_updates_good A l ds :
  agents_wf A → (∀ id d, aa_data A !! id = Some d → good_uuid_pb (ProtoFromUUID id)) →
  l ≡ₚ filter (λ a, valid_agent a = true) (map_to_list (aa_agents A)).*2 → ds ≡ₚ map_to_list (aa_data A) →
  Forall update_good (initial_updates l ds).
Proof.
  intros HA HD Hl Hds. unfold initial_updates. apply Forall_app. split; apply Forall_fmap, Forall_forall.
  - intros a Hin. rewrite Hl in Hin.
    apply list_elem_of_filter in Hin as [_ ([id a'] & -> & Hin)%list_elem_of_fmap].
    apply elem_of_map_to_list in Hin. destruct (HA id a' Hin) as [[_ (info & Hi & Hid)] Hg].
    split; simpl; rewrite Hi; [|eauto]. simpl. rewrite Hid. eexists. split; [done|].
    split; [apply ProtoFromUUID_wf|done].
  - intros [id d] Hin. rewrite Hds in Hin. apply elem_of_map_to_list in Hin. split; [|done].
    eexists. split; [done|]. split; [apply ProtoFromUUID_wf|by eapply HD].
Qed.

(** C23: If a schema has been computed when the first round of a stream starts, the round
    informs the query broker completely: whatever it knew before, after the responses of
    that round its published state describes exactly the agents in the store. *)
Theorem first_round_informs_broker s A cs cursor n ro ro' pod_namespace broker :
  rep (agtStore (agtMgr s)) A → agents_wf A →
  (∀ id d, aa_data A !! id = Some d → good_uuid_pb (ProtoFromUUID id)) →
  aa_schema A = Some cs → 0 < n →
  (∀ D, ro D ≡ₚ map_to_list D) → (∀ m, ro' m ≡ₚ map_to_list m) →
  agentUpdateTrackers (agtMgr s) !! cursor = Some newAgentUpdateTracker →
  getAgentsCursor s = cursor → open (srv s) → sent (srv s) = [] →
  ∃ fuel s' broker' c, updates_round fuel ro (Z.of_nat n) cursor s = (Ret (Some true), s') ∧
    runStream pod_namespace ro' (sent (srv s')) true broker = (Ret tt, broker') ∧
    published broker' ≡ₚ (map_to_list c).*2 ∧ describes c (aa_agents A).
Proof.
  intros HR HA HD Hs Hn Hro Hro' Ht Hcur Ho Hsent. pose proof (store_schema_wf _ A cs HR Hs) as Hcs.
  destruct (first_read ro (agtMgr s) A cs cursor HR Hs Hro Ht) as (l & mg' & Eg & Hl).
  set (us := initial_updates l (ro (aa_data A))) in *.
  set (s1 := mkServer mg' (getAgentsCursor s) (srv s)).
  destruct (schema_infos_total (cs_TableNameToAgentIDs cs) (cs_Tables cs)) as (infos & Ei & _).
  { intros ti Hti. apply (wf_dom cs Hcs). by apply list_elem_of_fmap_2. }
  destruct (send_batch_from (length us + 2) n us (Some cs) (Some infos) 0 s1)
    as (s2 & rs & E2 & Hs2 & _ & _ & Hc & _ & rs' & r & -> & _ & Hend & _); [done|lia|lia|done|done|].
  change (srv s1) with (srv s) in Hs2. rewrite Hsent in Hs2. rewrite drop_0 in Hc.
  assert (Forall update_good us) as Hgood by (by eapply initial_updates_good).
  assert (Forall (λ msg, Forall update_good (aur_AgentUpdates msg)) (rs' ++ [r])) as Hmsgs.
  { apply Forall_forall. intros msg Hin. apply Forall_forall. intros u Hu.
    eapply (proj1 (Forall_forall _ _) Hgood). rewrite <-Hc. apply list_elem_of_bind. eauto. }
  assert (∃ broker' c, runStream pod_namespace ro' (rs' ++ [r]) true broker = (Ret tt, broker') ∧
    published broker' ≡ₚ (map_to_list c).*2 ∧
    describes c (foldl apply_update ∅ ((rs' ++ [r]) ≫= aur_AgentUpdates)))
    as (broker' & c & Eb & Hp & Hdesc).
  { destruct (runStream_spec pod_namespace ro' (rs' ++ [r]) _ _ _ Hro' (ClearPending_rep broker) Hmsgs)
      as (b' & sch & Eb & HP & Hend').
    eexists b', _. split_and!.
    - destruct rs'; exact Eb.
    - eapply published_pending; [exact HP|]. apply Hend'. by rewrite last_snoc.
    - apply describes_replay; [intros id; by rewrite !lookup_empty|]. by rewrite Hc. }
  exists (length us + 2), s2, broker', c. split_and!; [|by rewrite Hs2|done|].
  - unfold updates_round. run_state. rewrite bool_decide_eq_true_2 by done. cbn [negb].
    erewrite bind_ret; [|apply try_ret; unfold mgr_call, zoom; rewrite Eg; reflexivity].
    cbn [andb]. fold us. fold s1.
    assert (send_batch (length us + 2) (Z.of_nat n) us (Some cs) 0 (bool_decide (length us = 0)) false s1
      = (Ret (Some false), s2)) as E3; [|by run_with E3].
    destruct us as [|u us']; [rewrite bool_decide_eq_true_2 by done; by rewrite send_batch_no_updates|].
    by rewrite bool_decide_eq_false_2 by done.
  - rewrite Hc in Hdesc. unfold us in Hdesc. rewrite initial_updates_replay, (initial_copy A l) in Hdesc; done.
Qed.
End end_to_end.

(** ** Instances *)
Module MemServer.
Export MemTracker.

#[export] Instance mem_stream : UpdateStream :=
  {| stream := list AgentUpdatesResponse; srv_Send r l := (None, l ++ [r]); srv_Done _ := false |}.

Definition no_responses : @stream mem_stream := [].

Definition responses (l : @stream mem_stream) : list AgentUpdatesResponse := l.
Definition connected (l : @stream mem_stream) : Prop := True.

#[export] Instance mem_stream_spec : StreamSpec mem_stream responses connected.
Proof. split; [done|]. intros r s _. by eexists. Qed.

Definition schema_1 : ComputedSchema :=
  mkComputedSchema [table_1] {["http_events" := [ProtoFromUUID uuid_1]]}.

Lemma schema_1_wf : cs_wf schema_1.
Proof.
  split; simpl.
  - apply NoDup_singleton.
  - intros t. rewrite list_elem_of_singleton. split.
    + intros ->. rewrite lookup_singleton_eq. eauto.
    + intros [l [<- _]%lookup_singleton_Some]. done.
  - intros t l [_ <-]%lookup_singleton_Some. split; [done|apply NoDup_singleton].
Qed.

Definition server_0 : Server St := mkServer mgr_0 uuid_2 no_responses.
End MemServer.
Import MemServer.

Lemma convertToSchemaInfo_total_witness :
  ∃ infos, convertToSchemaInfo schema_1 = inr infos ∧
    (λ si, (si_Name si, si_AgentList si)) <$> infos = [("http_events", [ProtoFromUUID uuid_1])].
Proof. exact (convertToSchemaInfo_total schema_1 schema_1_wf). Defined.

Lemma send_batch_complete_witness :
  ∃ s' rs, send_batch 5 2 [update_1; update_1; update_1] None 0 false true server_0 = (Ret (Some false), s') ∧
    responses (srv s') = rs ∧ rs ≫= aur_AgentUpdates = [update_1; update_1; update_1] ∧
    Forall (λ r, length (aur_AgentUpdates r) ≤ 2) rs.
Proof.
  destruct (send_batch_complete (sent := responses) (open := connected) 5 2 [update_1; update_1; update_1]
    None None server_0) as (s' & rs & E & H1 & H2 & H3 & _); [lia|simpl; lia|done|done|by left|].
  exists s', rs. by split_and!.
Defined.

Lemma negative_chunk_size_never_ends_witness :
  ∃ s', send_batch 3 (-1) [update_1] None 0 false true server_0 = (Ret None, s') ∧
    responses (srv s') = replicate 3 (mkAgentUpdatesResponse [] [] false false).
Proof.
  apply (negative_chunk_size_never_ends (sent := responses) (open := connected) 3 (-1) [update_1] None 0 true
    server_0); [lia|done].
Defined.

Lemma first_round_informs_broker_witness :
  ∃ st fuel s' broker' c,
    updates_round fuel map_to_list 1 uuid_2 (mkServer (mkManager st no_msgs {[uuid_2 := newAgentUpdateTracker]} ∅)
      uuid_2 no_responses) = (Ret (Some true), s') ∧
    runStream "pl" map_to_list (responses (srv s')) true broker_1 = (Ret tt, broker') ∧
    published broker' ≡ₚ (map_to_list c).*2 ∧ describes c {[uuid_1 := agent_1]}.
Proof.
  destruct rep_schema_one as (st & cs & HR). exists st.
  apply (first_round_informs_broker (rep := mem_rep) (sent := responses) (open := connected)
    (mkServer (mkManager st no_msgs {[uuid_2 := newAgentUpdateTracker]} ∅) uuid_2 no_responses)
    (set_schema cs (set_agent uuid_1 agent_1 abs_empty)) cs uuid_2 1 map_to_list map_to_list "pl" broker_1 HR);
    try done; [|lia].
  intros id a Ha. simpl in Ha. rewrite insert_empty in Ha. apply lookup_singleton_Some in Ha as [<- <-].
  split; [apply agent_1_for|apply good_uuid_1].
Defined.
