(* ===== verification/CronScript.v ===== *)
(** * Cron scripts

    [controllers/cronscript/store.go]: the scripts of the cluster and, per
    script, a ring buffer of the results of its last runs; [server.go]: the
    service on top of it. *)

From S2P Require Import Prelude GoLib Datastore Uuid Messages StoreLib MemStore.
From Stdlib Require Import Ascii.

(** ** Messages *)

Record CronScript := mkCronScript {
  cr_ID : option UUIDpb;
  cr_Script : string;
  cr_CronExpression : string;
  cr_Configs : string;
  cr_FrequencyS : Z
}.

Record Timestamp := mkTimestamp { ts_Seconds : Z; ts_Nanos : Z }.

Record CronScriptResult := mkCronScriptResult {
  cres_ScriptID : option UUIDpb;
  cres_Timestamp : option Timestamp;
  cres_Error : option Status;
  cres_ExecutionTimeNs : Z;
  cres_CompilationTimeNs : Z;
  cres_BytesProcessed : Z;
  cres_RecordsProcessed : Z
}.

Record ExecutionStats := mkExecutionStats {
  es_ExecutionTimeNs : Z;
  es_CompilationTimeNs : Z;
  es_BytesProcessed : Z;
  es_RecordsProcessed : Z
}.

(** The [result] oneof of a request and of a response. *)
Inductive ExecutionOutcome : Type :=
| OutcomeUnset
| OutcomeError (e : option Status)
| OutcomeStats (s : option ExecutionStats).

Record RecordExecutionResultRequest := mkRecordRequest {
  rr_ScriptID : option UUIDpb;
  rr_Timestamp : option Timestamp;
  rr_Result : ExecutionOutcome
}.

Record ExecutionResult := mkExecutionResult {
  er_ScriptID : option UUIDpb;
  er_Timestamp : option Timestamp;
  er_Result : ExecutionOutcome
}.

(** ** Keys *)

Definition cronScriptPrefix : string := "/cronScript/".
Definition scriptResultsPrefix : string := "/cronScriptResults".
Definition maxResultsPerCronScript : Z := 10.

(** [int64] arithmetic wraps around. *)
Definition to_int64 (z : Z) : Z := ((z + 2 ^ 63) mod 2 ^ 64 - 2 ^ 63)%Z.

Section store.
Context {St : Type} `{!Datastore St} `{U : UUIDLib} `{!Proto CronScript} `{!Proto CronScriptResult}.

Definition getCronScriptKey (scriptID : uuid) : string :=
  path_Join [cronScriptPrefix; uuid_String scriptID].
Definition getCronScriptResultsKey (scriptID : uuid) : string :=
  path_Join [scriptResultsPrefix; uuid_String scriptID; "results"].
Definition getCronScriptSpecificResultKey (scriptID : uuid) (index : Z) : string :=
  path_Join [getCronScriptResultsKey scriptID; Sprintf_0d 4 index].
Definition getCronScriptResultsIndexKey (scriptID : uuid) : string :=
  path_Join [scriptResultsPrefix; uuid_String scriptID; "index"].

(** ** Scripts *)

Definition script_id (s : CronScript) : uuid := UUIDFromProtoOrNil (cr_ID s).

Definition GetCronScripts : M St (list (option CronScript)) :=
  kvs ← ds_GetWithPrefix cronScriptPrefix;
  mret (decode_each kvs.2).

Definition UpsertCronScript (script : CronScript) : M St unit :=
  val ← lift_sum (Marshal script);
  let sID := script_id script in
  ds_Set (getCronScriptKey sID) val.

Definition DeleteCronScript (id : uuid) : M St unit :=
  _ ← ds_DeleteWithPrefix (getCronScriptKey id);
  ds_DeleteWithPrefix (getCronScriptResultsKey id).

(** The loop over the new scripts: the last error, and the scripts not seen. *)
Fixpoint upsert_all (scripts : list CronScript) (lastError : option error) (removedScriptIDs : gset uuid)
    : M St (option error * gset uuid) :=
  match scripts with
  | [] => mret (lastError, removedScriptIDs)
  | s :: scripts =>
    r ← try (UpsertCronScript s);
    upsert_all scripts (match r with inl e => Some e | inr _ => lastError end)
      (removedScriptIDs ∖ {[script_id s]})
  end.

Fixpoint delete_all (ids : list uuid) (lastError : option error) : M St (option error) :=
  match ids with
  | [] => mret lastError
  | k :: ids =>
    r ← try (DeleteCronScript k);
    delete_all ids (match r with inl e => Some e | inr _ => lastError end)
  end.

Definition return_error (e : option error) : M St unit :=
  match e with Some e => fail e | None => mret tt end.

(** [ro] is the iteration order of the map of removed scripts. *)
Definition SetCronScripts (ro : gset uuid → list uuid) (scripts : list CronScript) : M St unit :=
  existingScripts ← GetCronScripts;
  let removedScriptIDs := list_to_set (omap (fmap script_id) existingScripts) in
  res ← upsert_all scripts None removedScriptIDs;
  match res.1 with
  | Some e => fail e
  | None => lastError ← delete_all (ro res.2) None; return_error lastError
  end.

(** ** Results *)

Definition GetCronScriptResults (id : uuid) : M St (list (option CronScriptResult)) :=
  kvs ← ds_GetWithPrefix (getCronScriptResultsKey id);
  mret (decode_each kvs.2).

Definition getCronScriptResultsIndex (scriptID : uuid) : M St Z :=
  val ← ds_Get (getCronScriptResultsIndexKey scriptID);
  mret (match val with
        | None | Some "" => 0
        | Some v => match ParseInt v 64 with inr i => i | inl _ => 0 end
        end%Z).

Definition RecordCronScriptResult (result : CronScriptResult) : M St unit :=
  let scriptID := UUIDFromProtoOrNil (cres_ScriptID result) in
  idx ← getCronScriptResultsIndex scriptID;
  val ← lift_sum (Marshal result);
  _ ← ds_Set (getCronScriptSpecificResultKey scriptID idx) val;
  ds_Set (getCronScriptResultsIndexKey scriptID)
    (FormatInt (Z.rem (to_int64 (idx + 1)) maxResultsPerCronScript)).

Fixpoint collect_results (keys vals : list string) (results : list CronScriptResult)
    : M St (list CronScriptResult) :=
  match keys with
  | [] => mret results
  | k :: keys =>
    let '(v, vals) := match vals with [] => (None, []) | v :: vals => (Some v, vals) end in
    if decide (path_Base k = "index") then collect_results keys vals results
    else
      v ← (match v with Some v => mret v | None => panic IndexOutOfRange end);
      newResult ← lift_sum (Unmarshal v);
      collect_results keys vals (results ++ [newResult])
  end.

Definition GetAllCronScriptResults : M St (list CronScriptResult) :=
  kvs ← ds_GetWithPrefix scriptResultsPrefix;
  collect_results kvs.1 kvs.2 [].

(** ** The service *)

Fixpoint script_map (scripts : list (option CronScript)) (scMap : gmap string CronScript)
    : M St (gmap string CronScript) :=
  match scripts with
  | [] => mret scMap
  | s :: scripts =>
    s ← deref s;
    script_map scripts (<[uuid_String (script_id s) := s]> scMap)
  end.

Definition GetScripts : M St (gmap string CronScript) :=
  scripts ← GetCronScripts;
  script_map scripts ∅.

Definition AddOrUpdateScript (script : CronScript) : M St unit := UpsertCronScript script.

Definition DeleteScript (scriptID : option UUIDpb) : M St unit :=
  DeleteCronScript (UUIDFromProtoOrNil scriptID).

(** [mo] is the iteration order of the request's map. *)
Definition SetScripts (ro : gset uuid → list uuid) (mo : gmap string CronScript → list (string * CronScript))
    (scripts : gmap string CronScript) : M St unit :=
  SetCronScripts ro (mo scripts).*2.

Definition result_of (req : RecordExecutionResultRequest) : CronScriptResult :=
  let '(err, execStats) :=
    match rr_Result req with
    | OutcomeError e => (e, None)
    | OutcomeStats s => (None, s)
    | OutcomeUnset => (None, None)
    end in
  match execStats with
  | Some es => mkCronScriptResult (rr_ScriptID req) (rr_Timestamp req) err (es_ExecutionTimeNs es)
      (es_CompilationTimeNs es) (es_BytesProcessed es) (es_RecordsProcessed es)
  | None => mkCronScriptResult (rr_ScriptID req) (rr_Timestamp req) err 0 0 0 0
  end.

Definition RecordExecutionResult (req : RecordExecutionResultRequest) : M St unit :=
  RecordCronScriptResult (result_of req).

Definition execution_result (res : CronScriptResult) : ExecutionResult :=
  mkExecutionResult (cres_ScriptID res) (cres_Timestamp res)
    (match cres_Error res with
     | Some e => OutcomeError (Some e)
     | None => OutcomeStats (Some (mkExecutionStats (cres_ExecutionTimeNs res) (cres_CompilationTimeNs res)
         (cres_BytesProcessed res) (cres_RecordsProcessed res)))
     end).

Definition GetAllExecutionResults : M St (list ExecutionResult) :=
  results ← GetAllCronScriptResults;
  mret (execution_result <$> results).
End store.

(** ** Facts on the keys *)
Section keys.
Context `{U : UUIDLib} `{!UUIDSpec U}.
Implicit Types id : uuid.

Lemma getCronScriptKey_dkey id : getCronScriptKey id = dkey "cronScript" id.
Proof.
  apply (path_Join_dir "cronScript/" ["cronScript"]); [done|by repeat constructor|].
  repeat constructor. apply good_comp_uuid.
Qed.

Lemma getCronScriptResultsKey_mkkey id :
  getCronScriptResultsKey id = mkkey ["cronScriptResults"; uuid_String id; "results"].
Proof.
  apply (path_Join_dir "cronScriptResults" ["cronScriptResults"]); [done|by repeat constructor|].
  repeat constructor. apply good_comp_uuid.
Qed.

Lemma getCronScriptResultsIndexKey_mkkey id :
  getCronScriptResultsIndexKey id = mkkey ["cronScriptResults"; uuid_String id; "index"].
Proof.
  apply (path_Join_dir "cronScriptResults" ["cronScriptResults"]); [done|by repeat constructor|].
  repeat constructor. apply good_comp_uuid.
Qed.

Definition slot (i : nat) : string := Sprintf_0d 4 (Z.of_nat i).

Lemma slot_val i : digits_val (slot i) 0 = Some (Z.of_nat i).
Proof. apply Sprintf_0d_val. lia. Qed.

Lemma slot_inj i j : slot i = slot j → i = j.
Proof. intros E%(f_equal (λ s, digits_val s 0)). rewrite !slot_val in E. injection E. lia. Qed.

Lemma slot_good i : good_comp (slot i) = true.
Proof.
  apply good_comp_spec. pose proof (slot_val i) as E. split; [by eapply no_sep_digits|].
  assert (∃ c s, slot i = String c s) as (c & s & Es).
  { pose proof (FormatUint_nonempty (Z.of_nat i) ltac:(lia)) as Hne. unfold slot, Sprintf_0d, pad_left.
    rewrite (proj2 (Z.ltb_ge _ _)) by lia. destruct (repeat_str _ _); [|by eexists _, _].
    destruct (FormatUint (Z.of_nat i)); [done|by eexists _, _]. }
  rewrite Es in *. split_and!; [done|intros [= -> ->]; done..].
Qed.

Definition slot_comps id i : list string := ["cronScriptResults"; uuid_String id; "results"; slot i].

Lemma slot_comps_no_sep id i : Forall (λ c, no_sep "/" c = true) (slot_comps id i).
Proof.
  apply Forall_cons. split; [done|]. apply Forall_cons. split; [apply uuid_no_sep|].
  apply Forall_cons. split; [done|]. apply Forall_singleton. by eapply no_sep_digits, slot_val.
Qed.

Lemma slot_key_mkkey id i :
  getCronScriptSpecificResultKey id (Z.of_nat i) = mkkey (slot_comps id i).
Proof.
  unfold getCronScriptSpecificResultKey. rewrite getCronScriptResultsKey_mkkey.
  apply (path_Join_mkkey ["cronScriptResults"; uuid_String id; "results"] [slot i]); [done|..].
  - repeat constructor. apply good_comp_uuid.
  - repeat constructor. apply slot_good.
Qed.

Lemma split_slot_key id i :
  split "/" (getCronScriptSpecificResultKey id (Z.of_nat i)) = "" :: slot_comps id i.
Proof. rewrite slot_key_mkkey, split_mkkey; [done|done|apply slot_comps_no_sep]. Qed.

#[export] Instance slot_key_inj id : Inj (=) (=) (λ i, getCronScriptSpecificResultKey id (Z.of_nat i)).
Proof.
  intros i j E%(f_equal (split "/")). rewrite !split_slot_key in E. injection E as E. by apply slot_inj.
Qed.

Lemma slot_key_prefix id i :
  HasPrefix (getCronScriptSpecificResultKey id (Z.of_nat i)) (getCronScriptResultsKey id) = true.
Proof.
  rewrite slot_key_mkkey, getCronScriptResultsKey_mkkey. apply HasPrefix_spec. exists ("/" +:+ slot i).
  unfold mkkey, slot_comps. rewrite !join_cons2, !str_app_assoc. done.
Qed.

(** The components of a key below the results of a script. *)
Lemma split_results_key k id :
  HasPrefix k (getCronScriptResultsKey id) = true →
  ∃ t ts, split "/" k = "" :: "cronScriptResults" :: uuid_String id :: ("results" +:+ t) :: ts.
Proof.
  rewrite getCronScriptResultsKey_mkkey. intros Hp.
  destruct (split_prefix k ["cronScriptResults"; uuid_String id] "results") as (t & ts & E); [|done|by exists t, ts].
  pose proof (slot_comps_no_sep id 0) as H.
  change (slot_comps id 0) with ((["cronScriptResults"; uuid_String id] ++ ["results"]) ++ [slot 0]) in H.
  by apply Forall_app in H as [H _].
Qed.

Lemma split_index_key id :
  split "/" (getCronScriptResultsIndexKey id) = [""; "cronScriptResults"; uuid_String id; "index"].
Proof.
  rewrite getCronScriptResultsIndexKey_mkkey, split_mkkey; [done|done|].
  apply Forall_cons. split; [done|]. apply Forall_cons. split; [apply uuid_no_sep|by apply Forall_singleton].
Qed.

Lemma results_key_dir k id :
  HasPrefix k (getCronScriptResultsKey id) = true → key_dir k = "cronScriptResults".
Proof. intros (t & ts & E)%split_results_key. unfold key_dir. by rewrite E. Qed.

Lemma results_key_id k id id' :
  HasPrefix k (getCronScriptResultsKey id) = true → HasPrefix k (getCronScriptResultsKey id') = true → id = id'.
Proof.
  intros (t & ts & E)%split_results_key (t' & ts' & E')%split_results_key.
  rewrite E in E'. injection E' as E' _ _. by apply uuid_String_inj.
Qed.

Lemma index_not_result id id' :
  HasPrefix (getCronScriptResultsIndexKey id') (getCronScriptResultsKey id) = false.
Proof.
  apply not_true_is_false. intros (t & ts & E)%split_results_key. rewrite split_index_key in E.
  discriminate E.
Qed.

Lemma index_key_inj id id' : getCronScriptResultsIndexKey id = getCronScriptResultsIndexKey id' → id = id'.
Proof.
  intros E%(f_equal (split "/")). rewrite !split_index_key in E. injection E as E. by apply uuid_String_inj.
Qed.

#[export] Instance script_key_inj : Inj (=) (=) (dkey "cronScript").
Proof. intros id id'. by apply dkey_inj. Qed.

Lemma user_key_results id : user_key (getCronScriptResultsKey id) = true.
Proof. rewrite getCronScriptResultsKey_mkkey. apply user_key_mkkey. Qed.
Lemma user_key_index id : user_key (getCronScriptResultsIndexKey id) = true.
Proof. rewrite getCronScriptResultsIndexKey_mkkey. apply user_key_mkkey. Qed.
Lemma user_key_slot id i : user_key (getCronScriptSpecificResultKey id (Z.of_nat i)) = true.
Proof. rewrite slot_key_mkkey. apply user_key_mkkey. Qed.
End keys.

(** ** The ring buffer *)

Definition ring_step {X} (st : gmap nat X * nat) (x : X) : gmap nat X * nat :=
  (<[st.2 := x]> st.1, (st.2 + 1) mod 10).

Lemma mod10_window a n : n ≤ 10 → NoDup ((λ j, j mod 10) <$> seq a n).
Proof.
  intros Hn. apply NoDup_fmap_2_strong; [|apply NoDup_seq].
  intros i j [? ?]%elem_of_seq [? ?]%elem_of_seq E.
  pose proof (Nat.div_mod_eq i 10). pose proof (Nat.div_mod_eq j 10). lia.
Qed.

(** After any number of writes the ring holds the last ten values. *)
Lemma ring_window {X} (i0 : nat) (xs : list X) :
  i0 < 10 →
  ∃ L, foldl ring_step (∅, i0) xs = (list_to_map L, (i0 + length xs) mod 10) ∧
    L.*1 = (λ j, j mod 10) <$> seq (i0 + (length xs - 10)) (length xs `min` 10) ∧
    L.*2 = drop (length xs - 10) xs.
Proof.
  intros Hi. induction xs as [|x xs IH] using rev_ind.
  { exists []. split_and!; [|done|done]. cbn [foldl length]. by rewrite Nat.add_0_r, Nat.mod_small. }
  destruct IH as (L & E & H1 & H2). rewrite foldl_app, E. cbn [foldl]. unfold ring_step at 1. cbn [fst snd].
  rewrite length_app. cbn [length]. set (n := length xs) in *. set (k := (i0 + n) mod 10).
  assert (((k + 1) mod 10) = (i0 + (n + 1)) mod 10) as ->.
  { unfold k. rewrite Nat.Div0.add_mod_idemp_l. f_equal. lia. }
  destruct (decide (n < 10)) as [Hn|Hn].
  - replace (n - 10) with 0 in * by lia. replace (n + 1 - 10) with 0 by lia.
    rewrite !Nat.min_l in * by lia. rewrite Nat.add_0_r in *.
    assert ((L ++ [(k, x)]).*1 = (λ j, j mod 10) <$> seq i0 (n + 1)) as Hk.
    { by rewrite fmap_app, H1, seq_app, fmap_app. }
    exists (L ++ [(k, x)]). split_and!; [|done|by rewrite fmap_app, H2].
    rewrite list_to_map_snoc; [done|]. pose proof (mod10_window i0 (n + 1) ltac:(lia)) as Hnd.
    rewrite <-Hk, fmap_app in Hnd. apply NoDup_app in Hnd as (_ & Hnd & _).
    intros Hin. by eapply Hnd; [exact Hin|left].
  - rewrite !Nat.min_r in * by lia.
    destruct L as [|[k' y] L]; [discriminate H1|].
    change (seq (i0 + (n - 10)) 10) with ([i0 + (n - 10)] ++ seq (Datatypes.S (i0 + (n - 10))) 9) in H1.
    rewrite fmap_cons, fmap_app in H1. injection H1 as Hk' H1. cbn [fst] in Hk'.
    assert (k' = k) as ->.
    { rewrite Hk'. unfold k. replace (i0 + n) with (i0 + (n - 10) + 1 * 10) by lia.
      by rewrite Nat.Div0.mod_add. }
    assert ((L ++ [(k, x)]).*1 = (λ j, j mod 10) <$> seq (i0 + (n + 1 - 10)) 10) as Hk.
    { rewrite fmap_app, H1. replace (i0 + (n + 1 - 10)) with (Datatypes.S (i0 + (n - 10))) by lia.
      rewrite (seq_app 9 1), fmap_app. f_equal. unfold k. 
      change ((λ j, j mod 10) <$> seq (Datatypes.S (i0 + (n - 10)) + 9) 1)
        with [(Datatypes.S (i0 + (n - 10)) + 9) mod 10].
      cbn [fmap list_fmap fst]. do 2 f_equal. lia. }
    exists (L ++ [(k, x)]). split_and!; [|done|].
    + rewrite list_to_map_snoc; [by rewrite list_to_map_cons, insert_insert_eq|].
      pose proof (mod10_window (i0 + (n + 1 - 10)) 10 ltac:(lia)) as Hnd.
      rewrite <-Hk, fmap_app in Hnd. apply NoDup_app in Hnd as (_ & Hnd & _).
      intros Hin. by eapply Hnd; [exact Hin|left].
    + rewrite fmap_app. rewrite fmap_cons in H2. replace (n + 1 - 10) with (Datatypes.S (n - 10)) by lia.
      rewrite drop_app_le by lia. f_equal. rewrite <-Nat.add_1_r, <-drop_drop, <-H2. done.
Qed.

Lemma ring_values {X} (i0 : nat) (xs : list X) :
  i0 < 10 → (map_to_list (foldl ring_step (∅, i0) xs).1).*2 ≡ₚ drop (length xs - 10) xs.
Proof.
  intros Hi. destruct (ring_window i0 xs Hi) as (L & -> & H1 & <-). cbn [fst].
  rewrite map_to_list_to_map; [done|]. rewrite H1. apply mod10_window. lia.
Qed.

(** ** The operations *)
Section facts.
Context {St : Type} `{!Datastore St} {view : St → gmap string string} {ok : St → Prop}.
Context `{!DatastoreSpec St view ok} `{U : UUIDLib} `{!UUIDSpec U}.
Context `{!Proto CronScript} `{!Proto CronScriptResult} `{!ProtoSpec CronScript} `{!ProtoSpec CronScriptResult}.
Implicit Types (s : St) (id : uuid) (m : gmap string string).

(** The scripts of a map, each under its own identifier. *)
Definition scripts_rep m (S : gmap uuid CronScript) : Prop :=
  keyed_rep (dkey "cronScript") cronScriptPrefix m S ∧ map_Forall (λ id c, script_id c = id) S.

(** The results of one script, by slot, and the slot written next. *)
Definition slots_rep m id (R : gmap nat CronScriptResult) : Prop :=
  keyed_rep (λ i, getCronScriptSpecificResultKey id (Z.of_nat i)) (getCronScriptResultsKey id) m R.

Definition index_is m id (idx : nat) : Prop :=
  match m !! getCronScriptResultsIndexKey id with
  | None => idx = 0
  | Some v => v = FormatInt (Z.of_nat idx)
  end.

Lemma script_key_prefix id : HasPrefix (dkey "cronScript" id) cronScriptPrefix = true.
Proof. by apply (HasPrefix_dkey "cronScript"). Qed.

Lemma script_prefix_dir k : HasPrefix k cronScriptPrefix = true → key_dir k = "cronScript".
Proof. by apply (HasPrefix_dir k "cronScript"). Qed.

Lemma GetCronScripts_spec s S :
  ok s → scripts_rep (view s) S →
  ∃ l, GetCronScripts s = (Ret (Some <$> l), s) ∧ l ≡ₚ (map_to_list S).*2.
Proof.
  intros Hok [HS _]. unfold GetCronScripts. run_with (spec_GetWithPrefix s cronScriptPrefix Hok eq_refl).
  destruct (keyed_decode _ _ script_key_prefix (view s) S HS) as (l & -> & Hl). by exists l.
Qed.

Lemma GetCronScriptResults_spec s id R :
  ok s → slots_rep (view s) id R →
  ∃ l, GetCronScriptResults id s = (Ret (Some <$> l), s) ∧ l ≡ₚ (map_to_list R).*2.
Proof.
  intros Hok HR. unfold GetCronScriptResults. run_with (spec_GetWithPrefix s _ Hok (user_key_results id)).
  destruct (keyed_decode _ _ (slot_key_prefix id) (view s) R HR) as (l & -> & Hl). by exists l.
Qed.

(** Listing a script's results depends only on the keys below it. *)
Lemma GetCronScriptResults_view s id :
  ok s → GetCronScriptResults id s =
    (Ret (decode_each (kv_prefix (view s) (getCronScriptResultsKey id)).2), s).
Proof.
  intros Hok. unfold GetCronScriptResults. by run_with (spec_GetWithPrefix s _ Hok (user_key_results id)).
Qed.

Lemma kv_prefix_ext m m' p :
  (∀ k, HasPrefix k p = true → m' !! k = m !! k) → kv_prefix m' p = kv_prefix m p.
Proof.
  intros Hf. unfold kv_prefix.
  assert (filter (λ k, HasPrefix k p = true) (sorted_keys m') =
    filter (λ k, HasPrefix k p = true) (sorted_keys m)) as ->.
  { apply sorted_ext; [by apply NoDup_filter, NoDup_sorted_keys|by apply NoDup_filter, NoDup_sorted_keys
      |by apply StronglySorted_filter, Sorted_sorted_keys|by apply StronglySorted_filter, Sorted_sorted_keys|].
    intros k. rewrite !list_elem_of_filter, !elem_of_sorted_keys. split; intros [Hp Hk]; (split; [done|]).
    - by rewrite <-Hf.
    - by rewrite Hf. }
  f_equal. apply lookup_values_ext. intros k [Hp _]%list_elem_of_filter. by apply Hf.
Qed.

Lemma UpsertCronScript_spec s S c :
  ok s → scripts_rep (view s) S →
  wp (UpsertCronScript c) (λ _ s', ok s' ∧ scripts_rep (view s') (<[script_id c := c]> S) ∧
    ∀ k, key_dir k ≠ "cronScript" → view s' !! k = view s !! k) s.
Proof.
  intros Hok [HS Hid]. unfold UpsertCronScript. destruct (proto_roundtrip c) as (b & -> & Hb).
  wp_steps. rewrite getCronScriptKey_dkey. apply wp_Set; [done|apply user_key_mkkey|].
  intros s' Hok' Hv. rewrite Hv. split_and!; [done| |].
  - split; [apply keyed_insert; [apply script_key_inj|done|done]|]. by apply map_Forall_insert_2.
  - intros k Hk. apply lookup_insert_ne. intros <-. apply Hk. by apply key_dir_dkey.
Qed.

Lemma DeleteCronScript_spec s S id :
  ok s → scripts_rep (view s) S →
  wp (DeleteCronScript id) (λ _ s', ok s' ∧ scripts_rep (view s') (delete id S) ∧
    slots_rep (view s') id ∅ ∧
    (∀ id' k, id' ≠ id → HasPrefix k (getCronScriptResultsKey id') = true → view s' !! k = view s !! k)) s.
Proof.
  intros Hok [HS Hid]. unfold DeleteCronScript. wp_steps. rewrite getCronScriptKey_dkey.
  apply wp_DeleteWithPrefix; [done|apply user_key_mkkey|]. intros s1 Hok1 Hv1.
  apply wp_DeleteWithPrefix; [done|apply user_key_results|]. intros s2 Hok2 Hv2.
  assert (∀ k, view s2 !! k = if HasPrefix k (getCronScriptResultsKey id) then None
    else if HasPrefix k (dkey "cronScript" id) then None else view s !! k) as Hv.
  { intros k. by rewrite Hv2, lookup_delete_prefix, Hv1, lookup_delete_prefix. }
  split_and!; [done|split| |].
  - eapply keyed_delete; [apply script_key_prefix|apply script_key_inj|exact HS|..].
    + rewrite Hv, HasPrefix_refl. by destruct (HasPrefix _ _).
    + intros k Hk Hne. rewrite Hv. pose proof (script_prefix_dir k Hk) as Hdir.
      destruct (HasPrefix k (getCronScriptResultsKey id)) eqn:E1.
      { apply results_key_dir in E1. congruence. }
      destruct (HasPrefix k (dkey "cronScript" id)) eqn:E2; [|done].
      destruct (view s !! k) eqn:Ek; [|done]. exfalso.
      destruct (proj2 HS k Hk) as [id' ->]; [eauto|]. by apply HasPrefix_dkey_inj in E2 as ->.
  - by apply map_Forall_delete.
  - apply keyed_empty; [apply slot_key_prefix|]. intros k Hk. by rewrite Hv, Hk.
  - intros id' k Hne Hk. rewrite Hv. destruct (HasPrefix k (getCronScriptResultsKey id)) eqn:E1.
    { by apply (results_key_id k id' id) in E1. }
    destruct (HasPrefix k (dkey "cronScript" id)) eqn:E2; [|done]. exfalso.
    assert (HasPrefix k cronScriptPrefix = true) as E3%script_prefix_dir.
    { apply HasPrefix_spec in E2 as [t ->].
      apply HasPrefix_spec. exists (uuid_String id +:+ t). unfold dkey, mkkey. rewrite join_cons2.
      by rewrite !str_app_assoc. }
    apply results_key_dir in Hk. congruence.
Qed.

Definition set_all (scripts : list CronScript) (S : gmap uuid CronScript) : gmap uuid CronScript :=
  foldl (λ S c, <[script_id c := c]> S) S scripts.

Lemma upsert_all_spec scripts s S removed :
  ok s → scripts_rep (view s) S →
  wp (upsert_all scripts None removed) (λ r s', r = (None, removed ∖ list_to_set (script_id <$> scripts)) ∧
    ok s' ∧ scripts_rep (view s') (set_all scripts S) ∧
    ∀ k, key_dir k ≠ "cronScript" → view s' !! k = view s !! k) s.
Proof.
  revert s S removed. induction scripts as [|c scripts IH]; intros s S removed Hok HS; cbn [upsert_all].
  { apply wp_ret. split_and!; [f_equal; set_solver|done|done|done]. }
  apply wp_bind, wp_try. eapply wp_mono; [by apply UpsertCronScript_spec|].
  intros [] s1 (Hok1 & HS1 & Hf1). eapply wp_mono; [by apply IH|].
  intros r s2 (-> & Hok2 & HS2 & Hf2). split_and!; [|done|done|].
  - f_equal. simpl. set_solver.
  - intros k Hk. rewrite Hf2 by done. by apply Hf1.
Qed.

Lemma delete_all_spec ids s S :
  ok s → scripts_rep (view s) S →
  wp (delete_all ids None) (λ r s', r = None ∧ ok s' ∧
    scripts_rep (view s') (filter (λ kv, kv.1 ∉ ids) S) ∧
    (∀ id, id ∈ ids → slots_rep (view s') id ∅) ∧
    (∀ id k, id ∉ ids → HasPrefix k (getCronScriptResultsKey id) = true → view s' !! k = view s !! k)) s.
Proof.
  revert s S. induction ids as [|id ids IH]; intros s S Hok HS; cbn [delete_all].
  { apply wp_ret. split_and!; [done|done| |set_solver|done].
    rewrite map_filter_id; [done|]. intros i x _. simpl. set_solver. }
  apply wp_bind, wp_try. eapply wp_mono; [by apply DeleteCronScript_spec|].
  intros [] s1 (Hok1 & HS1 & HR1 & Hf1). eapply wp_mono; [by apply IH|].
  intros r s2 (-> & Hok2 & HS2 & HR2 & Hf2). split_and!; [done|done| | |].
  - replace (filter (λ kv, kv.1 ∉ id :: ids) S) with (filter (λ kv, kv.1 ∉ ids) (delete id S)); [done|].
    apply map_eq. intros j. apply option_eq. intros x.
    rewrite !map_lookup_filter_Some, lookup_delete_Some. simpl. set_solver.
  - intros j [->|Hj]%elem_of_cons; [|by apply HR2]. destruct (decide (id ∈ ids)); [by apply HR2|].
    eapply keyed_frame; [apply slot_key_prefix| |exact HR1]. intros k Hk. by eapply Hf2.
  - intros j k [Hne Hj]%not_elem_of_cons Hk. rewrite (Hf2 j k) by done. by eapply Hf1.
Qed.

Lemma set_all_lookup scripts S id :
  NoDup (script_id <$> scripts) →
  set_all scripts S !! id = match list_find (λ c, script_id c = id) scripts with
                            | Some (_, c) => Some c | None => S !! id end.
Proof.
  unfold set_all. revert S. induction scripts as [|c scripts IH]; intros S Hnd; [done|].
  rewrite fmap_cons in Hnd. apply NoDup_cons in Hnd as [Hc Hnd].
  cbn [foldl list_find]. rewrite IH by done. destruct (decide (script_id c = id)) as [<-|Hne].
  - assert (list_find (λ c', script_id c' = script_id c) scripts = None) as ->.
    { apply list_find_None, Forall_forall. intros c' Hc' E. apply Hc. rewrite <-E. by apply list_elem_of_fmap_2. }
    by rewrite lookup_insert_eq.
  - rewrite lookup_insert_ne by done. by destruct (list_find _ scripts) as [[]|].
Qed.

Lemma set_all_fresh scripts :
  NoDup (script_id <$> scripts) → (map_to_list (set_all scripts ∅)).*2 ≡ₚ scripts.
Proof.
  intros Hnd. assert (set_all scripts ∅ = list_to_map ((λ c, (script_id c, c)) <$> scripts)) as ->.
  { apply map_eq. intros id. rewrite set_all_lookup by done. clear Hnd.
    induction scripts as [|c scripts IH]; [done|]. cbn [list_find].
    rewrite fmap_cons, list_to_map_cons. destruct (decide (script_id c = id)) as [<-|Hne]; [by rewrite lookup_insert_eq|].
    rewrite lookup_insert_ne by done. rewrite <-IH. by destruct (list_find _ scripts) as [[]|]. }
  rewrite map_to_list_to_map; rewrite <-list_fmap_compose.
  - by rewrite list_fmap_id.
  - done.
Qed.

(** Without the scripts that are gone, the scripts are the new ones. *)
Lemma set_all_restrict scripts S (gone : list uuid) :
  NoDup (script_id <$> scripts) → (∀ id, id ∈ gone ↔ is_Some (S !! id) ∧ id ∉ script_id <$> scripts) →
  filter (λ kv, kv.1 ∉ gone) (set_all scripts S) = set_all scripts ∅.
Proof.
  intros Hnd Hgone. apply map_eq. intros id. apply option_eq. intros c. rewrite map_lookup_filter_Some. simpl.
  rewrite Hgone, !set_all_lookup by done.
  destruct (list_find (λ c, script_id c = id) scripts) as [[i c']|] eqn:Ef.
  - apply list_find_Some in Ef as (Hi & Hc' & _). split; [by intros [? _]|]. intros E. split; [done|].
    intros [_ Hn]. apply Hn. rewrite <-Hc'. apply list_elem_of_fmap_2. by eapply list_elem_of_lookup_2.
  - apply list_find_None in Ef. rewrite lookup_empty. split; [|done]. intros [Hc Hn]. exfalso. apply Hn.
    split; [eauto|]. intros (c' & E & Hin)%list_elem_of_fmap.
    by apply (proj1 (Forall_forall _ _) Ef c' Hin).
Qed.

Lemma SetCronScripts_run ro scripts s S :
  ok s → scripts_rep (view s) S → (∀ X, ro X ≡ₚ elements X) → NoDup (script_id <$> scripts) →
  wp (SetCronScripts ro scripts) (λ _ s', ok s' ∧ scripts_rep (view s') (set_all scripts ∅) ∧
    (∀ id, is_Some (S !! id) → id ∉ script_id <$> scripts → slots_rep (view s') id ∅) ∧
    (∀ id k, S !! id = None ∨ id ∈ script_id <$> scripts → HasPrefix k (getCronScriptResultsKey id) = true →
      view s' !! k = view s !! k)) s.
Proof.
  intros Hok HS Hro Hnd. destruct (GetCronScripts_spec s S Hok HS) as (l0 & E0 & Hl0).
  assert (omap (fmap script_id) (Some <$> l0) = script_id <$> l0) as Eids.
  { clear. induction l0 as [|c l0 IH]; [done|]. cbn. by rewrite IH. }
  set (removed := list_to_set (script_id <$> l0) : gset uuid).
  assert (∀ id, id ∈ removed ↔ is_Some (S !! id)) as Hrem.
  { intros id. unfold removed. rewrite elem_of_list_to_set, Hl0, list_elem_of_fmap. split.
    - intros (c & -> & ([id' c'] & -> & Hin%elem_of_map_to_list)%list_elem_of_fmap).
      simpl. rewrite (proj2 HS _ _ Hin). eauto.
    - intros [c Hc]. exists c. split; [by rewrite (proj2 HS _ _ Hc)|].
      apply list_elem_of_fmap. exists (id, c). split; [done|]. by apply elem_of_map_to_list. }
  destruct (proj1 (wp_run _ _ _) (upsert_all_spec scripts s S removed Hok HS))
    as (r & s1 & E1 & -> & Hok1 & HS1 & Hf1).
  set (gone := removed ∖ list_to_set (script_id <$> scripts)).
  destruct (proj1 (wp_run _ _ _) (delete_all_spec (ro gone) s1 _ Hok1 HS1))
    as (r & s2 & E2 & -> & Hok2 & HS2 & HR2 & Hf2).
  assert (∀ id, id ∈ ro gone ↔ is_Some (S !! id) ∧ id ∉ script_id <$> scripts) as Hgone.
  { intros id. rewrite Hro, elem_of_elements. unfold gone.
    by rewrite elem_of_difference, elem_of_list_to_set, Hrem. }
  rewrite (set_all_restrict scripts S (ro gone)) in HS2 by done.
  apply wp_run. exists tt, s2. split_and!; [|done|done| |].
  - unfold SetCronScripts. run_with E0. rewrite Eids. run_with E1. cbn [fst snd]. by run_with E2.
  - intros id Hid Hn. apply HR2. by apply Hgone.
  - intros id k Hid Hk. rewrite (Hf2 id k); [|rewrite Hgone; intros [[c Hc] Hn]; destruct Hid; [congruence|done]|done].
    apply Hf1. rewrite (results_key_dir k id Hk). done.
Qed.

(** Setting the scripts replaces them: the store then lists exactly the new
    scripts, the results of the removed ones are gone and the results of all
    other identifiers are kept, for every iteration order of the map of removed
    scripts. *)
Theorem SetCronScripts_exact ro scripts s S :
  ok s → scripts_rep (view s) S → (∀ X, ro X ≡ₚ elements X) → NoDup (script_id <$> scripts) →
  ∃ s' l, SetCronScripts ro scripts s = (Ret tt, s') ∧
    GetCronScripts s' = (Ret (Some <$> l), s') ∧ l ≡ₚ scripts ∧
    (∀ id, is_Some (S !! id) → id ∉ script_id <$> scripts → GetCronScriptResults id s' = (Ret [], s')) ∧
    (∀ id, S !! id = None ∨ id ∈ script_id <$> scripts →
      (GetCronScriptResults id s').1 = (GetCronScriptResults id s).1).
Proof.
  intros Hok HS Hro Hnd.
  destruct (proj1 (wp_run _ _ _) (SetCronScripts_run ro scripts s S Hok HS Hro Hnd)) as ([] & s' & E & Hok' & HS' & Hgone & Hkept).
  destruct (GetCronScripts_spec s' _ Hok' HS') as (l & El & Hl).
  exists s', l. split_and!; [done|done|by rewrite Hl, set_all_fresh| |].
  - intros id Hid Hn. destruct (GetCronScriptResults_spec s' id ∅ Hok') as (l' & -> & Hl'); [by apply Hgone|].
    rewrite map_to_list_empty in Hl'. apply Permutation_nil_r in Hl' as ->. done.
  - intros id Hid. rewrite !GetCronScriptResults_view by done. cbn [fst]. do 3 f_equal. apply kv_prefix_ext.
    intros k Hk. by eapply Hkept.
Qed.

(** ** Recording results *)

Lemma getCronScriptResultsIndex_spec s id idx :
  ok s → index_is (view s) id idx → (Z.of_nat idx < 2 ^ 63)%Z →
  getCronScriptResultsIndex id s = (Ret (Z.of_nat idx), s).
Proof.
  intros Hok Hi Hb. unfold getCronScriptResultsIndex. run_with (spec_Get s _ Hok (user_key_index id)).
  unfold index_is in Hi. destruct (view s !! getCronScriptResultsIndexKey id) as [v|]; [|by rewrite Hi].
  pose proof (ParseInt_FormatInt (Z.of_nat idx) ltac:(lia)) as E. rewrite <-Hi in E.
  destruct v; [|by rewrite E]. done.
Qed.

Lemma RecordCronScriptResult_spec s r R idx :
  let id := UUIDFromProtoOrNil (cres_ScriptID r) in
  ok s → slots_rep (view s) id R → index_is (view s) id idx → idx < 10 →
  wp (RecordCronScriptResult r) (λ _ s', ok s' ∧
    slots_rep (view s') id (ring_step (R, idx) r).1 ∧ index_is (view s') id (ring_step (R, idx) r).2) s.
Proof.
  intros id Hok HR Hi Hidx. unfold RecordCronScriptResult. fold id.
  apply wp_bind. unfold wp at 1. rewrite (getCronScriptResultsIndex_spec s id idx) by (done || lia).
  destruct (proto_roundtrip r) as (b & -> & Hb). apply wp_bind, wp_lift_inr, wp_bind.
  apply wp_Set; [done|apply user_key_slot|]. intros s1 Hok1 Hv1.
  apply wp_Set; [done|apply user_key_index|]. intros s2 Hok2 Hv2.
  unfold ring_step. cbn [fst snd]. split_and!; [done| |].
  - rewrite Hv2. eapply keyed_frame; [apply slot_key_prefix| |].
    + intros k Hk. apply lookup_insert_ne. intros <-. by rewrite index_not_result in Hk.
    + rewrite Hv1. apply (keyed_insert (λ i, getCronScriptSpecificResultKey id (Z.of_nat i))); [|done|done].
      apply slot_key_inj.
  - unfold index_is. rewrite Hv2, lookup_insert_eq. f_equal.
    assert (to_int64 (Z.of_nat idx + 1) = Z.of_nat (idx + 1)) as ->.
    { unfold to_int64. rewrite Z.mod_small by lia. lia. }
    unfold maxResultsPerCronScript. rewrite Z.rem_mod_nonneg by lia. by rewrite Nat2Z.inj_mod.
Qed.

Fixpoint record_all (rs : list CronScriptResult) : M St unit :=
  match rs with [] => mret tt | r :: rs => _ ← RecordCronScriptResult r; record_all rs end.

Lemma record_all_spec id rs s R idx :
  ok s → slots_rep (view s) id R → index_is (view s) id idx → idx < 10 →
  Forall (λ r, UUIDFromProtoOrNil (cres_ScriptID r) = id) rs →
  wp (record_all rs) (λ _ s', ok s' ∧ slots_rep (view s') id (foldl ring_step (R, idx) rs).1) s.
Proof.
  intros Hok HR Hi Hidx Hrs. revert s R idx Hok HR Hi Hidx.
  induction Hrs as [|r rs Hr _ IH]; intros s R idx Hok HR Hi Hidx; cbn [record_all]; [by apply wp_ret|].
  apply wp_bind. subst id. eapply wp_mono; [by eapply RecordCronScriptResult_spec|].
  intros [] s1 (Hok1 & HR1 & Hi1). cbn [foldl]. rewrite (surjective_pairing (ring_step (R, idx) r)).
  apply IH; [done..|]. apply Nat.mod_upper_bound. lia.
Qed.

(** However many results of a script are recorded, from any position of the
    ring, its stored results are the last ten recorded. *)
Theorem results_keep_last_ten id rs s idx :
  ok s → slots_rep (view s) id ∅ → index_is (view s) id idx → idx < 10 →
  Forall (λ r, UUIDFromProtoOrNil (cres_ScriptID r) = id) rs →
  ∃ s' l, record_all rs s = (Ret tt, s') ∧ GetCronScriptResults id s' = (Ret (Some <$> l), s') ∧
    l ≡ₚ drop (length rs - 10) rs.
Proof.
  intros Hok HR Hi Hidx Hrs.
  destruct (proj1 (wp_run _ _ _) (record_all_spec id rs s ∅ idx Hok HR Hi Hidx Hrs))
    as ([] & s' & E & Hok' & HR').
  destruct (GetCronScriptResults_spec s' id _ Hok' HR') as (l & El & Hl).
  exists s', l. split_and!; [done|done|]. by rewrite Hl, ring_values.
Qed.
End facts.

(** What the service records it reports. *)
Lemma execution_result_of req :
  (match rr_Result req with OutcomeError (Some _) | OutcomeStats (Some _) => True | _ => False end) →
  execution_result (result_of req) = mkExecutionResult (rr_ScriptID req) (rr_Timestamp req) (rr_Result req).
Proof.
  destruct req as [id ts res]. unfold execution_result, result_of. cbn [rr_Result rr_ScriptID rr_Timestamp].
  destruct res as [|[]|[[]|]]; done.
Qed.

(** ** Instances on the concrete datastore *)
Module MemCron.
Export MemStore.Mem MemUuid MemProto.

#[export] Instance CronScript_eq_dec : EqDecision CronScript.
Proof. solve_decision. Defined.
#[export] Instance CronScript_countable : Countable CronScript.
Proof.
  record_countable (λ c, (cr_ID c, cr_Script c, cr_CronExpression c, cr_Configs c, cr_FrequencyS c))
    (λ '(a, b, c, d, e), mkCronScript a b c d e).
Defined.
#[export] Instance Timestamp_eq_dec : EqDecision Timestamp.
Proof. solve_decision. Defined.
#[export] Instance Timestamp_countable : Countable Timestamp.
Proof. record_countable (λ t, (ts_Seconds t, ts_Nanos t)) (λ '(a, b), mkTimestamp a b). Defined.
#[export] Instance CronScriptResult_eq_dec : EqDecision CronScriptResult.
Proof. solve_decision. Defined.
#[export] Instance CronScriptResult_countable : Countable CronScriptResult.
Proof.
  record_countable (λ r, (cres_ScriptID r, cres_Timestamp r, cres_Error r, cres_ExecutionTimeNs r,
      cres_CompilationTimeNs r, cres_BytesProcessed r, cres_RecordsProcessed r))
    (λ '(a, b, c, d, e, f, g), mkCronScriptResult a b c d e f g).
Defined.

Definition script_1 : CronScript := mkCronScript (Some (ProtoFromUUID uuid_1)) "px.display()" "" "" 10.
Definition script_2 : CronScript := mkCronScript (Some (ProtoFromUUID uuid_2)) "px.display()" "" "" 60.
Definition run_at (t : Z) : CronScriptResult :=
  mkCronScriptResult (Some (ProtoFromUUID uuid_1)) (Some (mkTimestamp t 0)) None 1 1 1 1.

Lemma scripts_empty : scripts_rep (view (store ∅)) ∅.
Proof.
  split; [|apply map_Forall_empty]. apply keyed_empty; [apply script_key_prefix|].
  intros k _. by rewrite view_empty.
Qed.

Lemma slots_empty : slots_rep (view (store ∅)) uuid_1 ∅.
Proof. apply keyed_empty; [apply slot_key_prefix|]. intros k _. by rewrite view_empty. Qed.

Lemma index_empty : index_is (view (store ∅)) uuid_1 0.
Proof. unfold index_is. by rewrite view_empty. Qed.
End MemCron.
Import MemCron.

Lemma SetCronScripts_exact_witness :
  ∃ s' l, SetCronScripts elements [script_1; script_2] (store ∅) = (Ret tt, s') ∧
    GetCronScripts s' = (Ret (Some <$> l), s') ∧ l ≡ₚ [script_1; script_2].
Proof.
  destruct (SetCronScripts_exact (view := view) (ok := ok) elements [script_1; script_2] (store ∅) ∅
    (store_ok ∅) scripts_empty) as (s' & l & E & El & Hl & _); [done| |by exists s', l].
  apply (bool_decide_unpack _). vm_compute. done.
Defined.

Lemma results_keep_last_ten_witness :
  ∃ s' l, record_all (run_at <$> [0; 1; 2; 3; 4; 5; 6; 7; 8; 9; 10; 11]%Z) (store ∅) = (Ret tt, s') ∧
    GetCronScriptResults uuid_1 s' = (Ret (Some <$> l), s') ∧
    l ≡ₚ run_at <$> [2; 3; 4; 5; 6; 7; 8; 9; 10; 11]%Z.
Proof.
  destruct (results_keep_last_ten (view := view) (ok := ok) uuid_1
    (run_at <$> [0; 1; 2; 3; 4; 5; 6; 7; 8; 9; 10; 11]%Z) (store ∅) 0
    (store_ok ∅) slots_empty index_empty) as (s' & l & E & El & Hl); [lia| |].
  - apply Forall_fmap, Forall_forall. intros t _. vm_compute. done.
  - exists s', l. split_and!; [exact E|exact El|]. rewrite Hl. vm_compute. done.
Defined.
