(* ===== verification/GoNet.v ===== *)
(** * IP addresses and networks

    What the metadata service uses of Go's package [net]: addresses, masks,
    networks, their parsing and printing.  A [net.IP] or [net.IPMask] is a byte
    slice of length 4 or 16, written here as the big-endian number of its bytes,
    or nil. *)

From S2P Require Import Prelude GoLib.
From Stdlib Require Import Ascii.

Inductive IP : Type := IPnil | IP4 (v : Z) | IP16 (v : Z).
Inductive IPMask : Type := MaskNil | Mask4 (v : Z) | Mask16 (v : Z).

#[export] Instance IP_eq_dec : EqDecision IP.
Proof. solve_decision. Defined.
#[export] Instance IPMask_eq_dec : EqDecision IPMask.
Proof. solve_decision. Defined.

(** [net.IPNet]. *)
Record IPNet := mkIPNet { net_IP : IP; net_Mask : IPMask }.

#[export] Instance IPNet_eq_dec : EqDecision IPNet.
Proof. solve_decision. Defined.

(** The first twelve bytes of an IPv4 address in sixteen bytes, as a number. *)
Definition v4InV6Prefix : Z := 65535.

Definition is_v4 (v : Z) : bool := (Z.shiftr v 32 =? v4InV6Prefix)%Z.

Definition To4 (ip : IP) : IP :=
  match ip with
  | IP4 v => IP4 v
  | IP16 v => if is_v4 v then IP4 (v mod 2 ^ 32) else IPnil
  | IPnil => IPnil
  end.

Definition To16 (ip : IP) : IP :=
  match ip with
  | IP4 v => IP16 (v4InV6Prefix * 2 ^ 32 + v)
  | IP16 v => IP16 v
  | IPnil => IPnil
  end.

(** [ones] one bits and then zeros, [bits] in all. *)
Definition ones_mask (ones bits : Z) : Z := Z.shiftl (Z.ones ones) (bits - ones).

Definition CIDRMask (ones bits : Z) : IPMask :=
  if ((ones <? 0) || (bits <? ones))%Z then MaskNil
  else if (bits =? 32)%Z then Mask4 (ones_mask ones bits)
  else if (bits =? 128)%Z then Mask16 (ones_mask ones bits)
  else MaskNil.

(** The number of leading ones of the [n] low bits. *)
Fixpoint leading_ones (n : nat) (v : Z) : Z :=
  match n with
  | O => 0
  | Datatypes.S n => if Z.testbit v (Z.of_nat n) then 1 + leading_ones n v else 0
  end.

Definition simpleMaskLength (n : nat) (v : Z) : Z :=
  let l := leading_ones n v in
  if (v =? ones_mask l (Z.of_nat n))%Z then l else -1.

(** [IPMask.Size]. *)
Definition Mask_Size (m : IPMask) : Z * Z :=
  match m with
  | MaskNil => (0, 0)%Z
  | Mask4 v => let l := simpleMaskLength 32 v in if (l =? -1)%Z then (0, 0)%Z else (l, 32%Z)
  | Mask16 v => let l := simpleMaskLength 128 v in if (l =? -1)%Z then (0, 0)%Z else (l, 128%Z)
  end.

(** [IP.Mask]. *)
Definition IP_Mask (ip : IP) (mask : IPMask) : IP :=
  match ip, mask with
  | IP4 v, Mask4 m => IP4 (Z.land v m)
  | IP16 v, Mask16 m => IP16 (Z.land v m)
  | IP4 v, Mask16 m => if (Z.shiftr m 32 =? Z.ones 96)%Z then IP4 (Z.land v (m mod 2 ^ 32)) else IPnil
  | IP16 v, Mask4 m => if is_v4 v then IP4 (Z.land (v mod 2 ^ 32) m) else IPnil
  | _, _ => IPnil
  end.

Definition networkNumberAndMask (n : IPNet) : IP * IPMask :=
  let ip := match To4 (net_IP n) with IPnil => net_IP n | ip => ip end in
  match ip, net_Mask n with
  | IPnil, _ => (IPnil, MaskNil)
  | IP4 v, Mask16 m => (IP4 v, Mask4 (m mod 2 ^ 32))
  | IP16 _, Mask4 _ => (IPnil, MaskNil)
  | _, MaskNil => (IPnil, MaskNil)
  | ip, m => (ip, m)
  end.

(** [IPNet.Contains]. *)
Definition Contains (n : IPNet) (ip : IP) : bool :=
  let '(nn, m) := networkNumberAndMask n in
  let ip := match To4 ip with IPnil => ip | x => x end in
  match nn, m, ip with
  | IPnil, _, IPnil => true
  | IP4 a, Mask4 m, IP4 b => (Z.land a m =? Z.land b m)%Z
  | IP16 a, Mask16 m, IP16 b => (Z.land a m =? Z.land b m)%Z
  | _, _, _ => false
  end.

(** ** Parsing *)

(** A decimal field of an IPv4 address: digits, no leading zero, at most 255. *)
Definition parse_octet (s : string) : option Z :=
  match s with
  | "" => None
  | String "0" (String _ _) => None
  | _ => match digits_val s 0 with
         | Some v => if (v <=? 255)%Z then Some v else None
         | None => None
         end
  end.

Definition parseIPv4 (s : string) : option Z :=
  match parse_octet <$> split "." s with
  | [Some a; Some b; Some c; Some d] => Some (((a * 256 + b) * 256 + c) * 256 + d)%Z
  | _ => None
  end.

Definition hex_val (c : ascii) : option Z :=
  let n := Z.of_nat (nat_of_ascii c) in
  if is_digit c then Some (digit_val c)
  else if ((97 <=? n) && (n <=? 102))%Z then Some (n - 87)%Z
  else if ((65 <=? n) && (n <=? 70))%Z then Some (n - 55)%Z
  else None.

(** The hexadecimal digits [s] starts with: how many, their value, and the rest. *)
Fixpoint take_hex (s : string) (off : nat) (acc : Z) : nat * Z * string :=
  match s with
  | "" => (off, acc, "")
  | String c s' =>
    match hex_val c with
    | Some d => take_hex s' (Datatypes.S off) (acc * 16 + d)
    | None => (off, acc, s)
    end
  end.

(** The groups parsed so far, and how many of them come before the ellipsis. *)
Record v6_state := mkV6 { v6_rest : string; v6_groups : list Z; v6_ellipsis : option nat }.

(** The loop over the groups; [fuel] is the number of groups there is room for. *)
Fixpoint parse_groups (fuel : nat) (s : string) (acc : list Z) (ell : option nat) : option v6_state :=
  match fuel with
  | O => Some (mkV6 s acc ell)
  | Datatypes.S fuel =>
    let '(off, v, rest) := take_hex s 0 0 in
    if (Nat.eqb off 0 || Nat.ltb 4 off)%bool then None
    else match rest with
    | String "." _ =>
      if (bool_decide (ell = None) && negb (Nat.eqb (length acc) 6))%bool then None
      else match fuel with
      | O => None
      | Datatypes.S _ =>
        match parseIPv4 s with
        | Some w => Some (mkV6 "" (acc ++ [w / 65536; w mod 65536])%Z ell)
        | None => None
        end
      end
    | "" => Some (mkV6 "" (acc ++ [v]) ell)
    | String ":" "" => None
    | String ":" (String ":" s') =>
      if bool_decide (ell = None) then
        match s' with
        | "" => Some (mkV6 "" (acc ++ [v]) (Some (Datatypes.S (length acc))))
        | _ => parse_groups fuel s' (acc ++ [v]) (Some (Datatypes.S (length acc)))
        end
      else None
    | String ":" s' => parse_groups fuel s' (acc ++ [v]) ell
    | _ => None
    end
  end.

Definition groups_val (l : list Z) : Z := foldl (λ acc g, acc * 65536 + g)%Z 0%Z l.

Definition parseIPv6 (s : string) : option Z :=
  let start := match s with
    | String ":" (String ":" "") => Some (mkV6 "" [] (Some 0))
    | String ":" (String ":" s') => parse_groups 8 s' [] (Some 0)
    | _ => parse_groups 8 s [] None
    end in
  match start with
  | Some (mkV6 "" gs ell) =>
    match ell with
    | None => if Nat.eqb (length gs) 8 then Some (groups_val gs) else None
    | Some e =>
      if Nat.ltb (length gs) 8
      then Some (groups_val (take e gs ++ replicate (8 - length gs) 0%Z ++ drop e gs))
      else None
    end
  | _ => None
  end.

(** [net.ParseIP]: which parser depends on the first separator; an address with a
    zone is refused. *)
Fixpoint ParseIP_scan (whole s : string) : IP :=
  match s with
  | "" => IPnil
  | String "." _ => match parseIPv4 whole with Some v => To16 (IP4 v) | None => IPnil end
  | String ":" _ => match parseIPv6 whole with Some v => IP16 v | None => IPnil end
  | String "%" _ => IPnil
  | String _ s => ParseIP_scan whole s
  end.

Definition ParseIP (s : string) : IP := ParseIP_scan s s.

(** ** Printing *)

Definition ipv4_string (v : Z) : string :=
  join "." (FormatUint <$> [v / 2 ^ 24; (v / 2 ^ 16) mod 256; (v / 2 ^ 8) mod 256; v mod 256]%Z).

Definition group (v : Z) (i : nat) : Z := ((v / 2 ^ (16 * (7 - Z.of_nat i))) mod 65536)%Z.

(** The length of the run of zero groups at the head. *)
Fixpoint zero_run (l : list Z) : nat :=
  match l with 0%Z :: l => Datatypes.S (zero_run l) | _ => 0 end.

(** The first of the longest runs of at least two zero groups: start and end. *)
Definition longest_zeros (gs : list Z) : option (nat * nat) :=
  foldl (λ best i,
    let l := zero_run (drop i gs) in
    if Nat.ltb 1 l && Nat.ltb (match best with Some (a, b) => b - a | None => 0 end) l
    then Some (i, i + l) else best) None (seq 0 8).

(** A group in hexadecimal, without leading zeros. *)
Definition hex_group (g : Z) : string :=
  match TrimLeft (Sprintf_x (be_bytes 2 g)) "0" with "" => "0" | s => s end.

Definition ipv6_string (v : Z) : string :=
  let gs := group v <$> seq 0 8 in
  match longest_zeros gs with
  | None => join ":" (hex_group <$> gs)
  | Some (a, b) => join ":" (hex_group <$> take a gs) +:+ "::" +:+ join ":" (hex_group <$> drop b gs)
  end.

Definition IP_String (ip : IP) : string :=
  match To4 ip, ip with
  | IP4 v, _ => ipv4_string v
  | _, IP16 v => ipv6_string v
  | _, _ => "<nil>"
  end.

(** [IPNet.String]; a mask that is not ones and then zeros is printed in
    hexadecimal. *)
Definition IPNet_String (n : IPNet) : string :=
  match networkNumberAndMask n with
  | (IPnil, _) | (_, MaskNil) => "<nil>"
  | (nn, Mask4 m) =>
    let l := simpleMaskLength 32 m in
    IP_String nn +:+ "/" +:+ (if (l =? -1)%Z then Sprintf_x (be_bytes 4 m) else FormatInt l)
  | (nn, Mask16 m) =>
    let l := simpleMaskLength 128 m in
    IP_String nn +:+ "/" +:+ (if (l =? -1)%Z then Sprintf_x (be_bytes 16 m) else FormatInt l)
  end.

Example ParseIP_v4 : IP_String (ParseIP "10.96.0.1") = "10.96.0.1".
Proof. vm_compute. reflexivity. Qed.
Example ParseIP_v6 : IP_String (ParseIP "fd00:0:0::1:a") = "fd00::1:a".
Proof. vm_compute. reflexivity. Qed.
Example ParseIP_mapped : IP_String (ParseIP "::ffff:10.0.0.7") = "10.0.0.7".
Proof. vm_compute. reflexivity. Qed.
Example ParseIP_bad : ParseIP <$> ["None"; ""; "10.0.0"; "10.0.0.01"; "1::2::3"; "10.0.0.256"; "fe80::1%eth0"; "1:2:3:4:5:6:7"]
  = replicate 8 IPnil.
Proof. vm_compute. reflexivity. Qed.
