(* ===== verification/ServiceCIDR.v ===== *)
(** * The service CIDR

    The range of service addresses, inferred from the services seen
    ([updateServiceCIDR] of [controllers/k8smeta/k8s_metadata_handler.go]): the
    network is widened one bit at a time until it contains the address. *)

From S2P Require Import Prelude GoLib GoNet.

(** One iteration of the loop. *)
Definition widen_step (n : IPNet) : IPNet :=
  let '(ones, bits) := Mask_Size (net_Mask n) in
  let mask := CIDRMask (ones - 1) bits in
  mkIPNet (IP_Mask (net_IP n) mask) mask.

(** The loop; [None] when [fuel] iterations are not enough. *)
Fixpoint widen (fuel : nat) (n : IPNet) (ip : IP) : option IPNet :=
  if Contains n ip then Some n
  else match fuel with
  | O => None
  | Datatypes.S fuel => widen fuel (widen_step n) ip
  end.

(** A mask has at most 128 ones to lose. *)
Definition widen_fuel : nat := 128.

(** [updateServiceCIDR] on the inferred range; [None] when the loop does not end. *)
Definition add_service_ip (cidr : option IPNet) (ip : IP) : option (option IPNet) :=
  match ip with
  | IPnil => Some cidr
  | _ =>
    match cidr with
    | None => Some (Some (mkIPNet ip (CIDRMask 128 128)))
    | Some n => Some <$> widen widen_fuel n ip
    end
  end.

(** Several services one after the other. *)
Definition add_service_ips (cidr : option IPNet) (ips : list IP) : option (option IPNet) :=
  foldl (λ c ip, c ← c; add_service_ip c ip) (Some cidr) ips.

(** ** Networks of a prefix *)

(** The network of the first [k] bits of a 16-byte address. *)
Definition net_of (v k : Z) : IPNet :=
  mkIPNet (IP16 (Z.land v (ones_mask k 128))) (Mask16 (ones_mask k 128)).

Definition addr16 (v : Z) : Prop := (0 ≤ v < 2 ^ 128)%Z.

(** The first [k] of the 128 bits. *)
Definition top_bits (v k : Z) : Z := Z.shiftr v (128 - k).

Lemma CIDRMask_128 k : (0 ≤ k ≤ 128)%Z → CIDRMask k 128 = Mask16 (ones_mask k 128).
Proof. intros Hk. unfold CIDRMask. by replace ((k <? 0) || (128 <? k))%Z with false by lia. Qed.

Lemma Size_ones_mask k : (0 ≤ k ≤ 128)%Z → Mask_Size (Mask16 (ones_mask k 128)) = (k, 128%Z).
Proof.
  intros Hk. assert (forallb (λ k, bool_decide (Mask_Size (Mask16 (ones_mask k 128)) = (k, 128%Z))) (seqZ 0 129) = true)
    as H by (vm_compute; reflexivity).
  rewrite forallb_forall in H. specialize (H k). apply bool_decide_eq_true in H; [done|].
  apply list_elem_of_In, elem_of_seqZ. lia.
Qed.

Lemma land_ones_mask v k n :
  (0 ≤ k ≤ n)%Z → (0 ≤ v < 2 ^ n)%Z → Z.land v (ones_mask k n) = Z.shiftl (Z.shiftr v (n - k)) (n - k).
Proof.
  intros Hk Hv. unfold ones_mask. apply Z.bits_inj'. intros i Hi.
  rewrite Z.land_spec, !Z.shiftl_spec by done. destruct (Z.ltb_spec i (n - k)) as [Hlt|Hge].
  - rewrite !(Z.testbit_neg_r _ (i - (n - k))) by lia. by rewrite andb_false_r.
  - rewrite Z.shiftr_spec by lia. replace (i - (n - k) + (n - k))%Z with i by lia.
    destruct (Z.ltb_spec i n).
    + rewrite Z.ones_spec_low by lia. by rewrite andb_true_r.
    + destruct (decide (v = 0%Z)) as [->|]; [by rewrite Z.bits_0|]. rewrite (Z.bits_above_log2 v i); [done|lia|].
      apply Z.log2_lt_pow2; [lia|]. apply Z.lt_le_trans with (2 ^ n)%Z; [lia|]. apply Z.pow_le_mono_r; lia.
Qed.

Lemma land_mask_div v k :
  (0 ≤ k ≤ 128)%Z → addr16 v → Z.land v (ones_mask k 128) = (v / 2 ^ (128 - k) * 2 ^ (128 - k))%Z.
Proof. intros Hk Hv. rewrite land_ones_mask by done. by rewrite Z.shiftl_mul_pow2, Z.shiftr_div_pow2 by lia. Qed.

Lemma top_bits_div v k : (k ≤ 128)%Z → top_bits v k = (v / 2 ^ (128 - k))%Z.
Proof. intros Hk. unfold top_bits. by rewrite Z.shiftr_div_pow2 by lia. Qed.

(** Agreeing on more bits is stronger. *)
Lemma top_bits_less v w k j :
  (0 ≤ j ≤ k)%Z → (k ≤ 128)%Z → top_bits v k = top_bits w k → top_bits v j = top_bits w j.
Proof.
  unfold top_bits. intros Hj Hk E. replace (128 - j)%Z with ((128 - k) + (k - j))%Z by lia.
  rewrite <-!Z.shiftr_shiftr by lia. by rewrite E.
Qed.

Lemma ones_mask_land k j : (0 ≤ j ≤ k)%Z → (k ≤ 128)%Z → Z.land (ones_mask k 128) (ones_mask j 128) = ones_mask j 128.
Proof.
  intros Hj Hk. apply Z.bits_inj'. intros i Hi. unfold ones_mask.
  rewrite Z.land_spec, !Z.shiftl_spec by done.
  destruct (Z.ltb_spec i (128 - j)).
  - rewrite !(Z.testbit_neg_r _ (i - (128 - j))) by lia. by rewrite andb_false_r.
  - destruct (Z.ltb_spec i 128).
    + by rewrite !Z.ones_spec_low by lia.
    + rewrite !Z.ones_spec_high by lia. done.
Qed.

Lemma widen_step_net v k : (0 < k ≤ 128)%Z → widen_step (net_of v k) = net_of v (k - 1).
Proof.
  intros Hk. unfold widen_step, net_of at 1. cbn [net_Mask net_IP]. rewrite Size_ones_mask by lia.
  rewrite CIDRMask_128 by lia. unfold net_of. cbn [IP_Mask net_IP]. do 2 f_equal.
  rewrite <-Z.land_assoc. f_equal. apply ones_mask_land; lia.
Qed.

(** An address is IPv4 when its first 96 bits are the prefix of IPv4 addresses. *)
Lemma is_v4_div v : is_v4 v = (v / 2 ^ 32 =? v4InV6Prefix)%Z.
Proof. unfold is_v4. by rewrite Z.shiftr_div_pow2 by lia. Qed.

Lemma addr4 v : addr16 v → is_v4 v = true → v = (v4InV6Prefix * 2 ^ 32 + v mod 2 ^ 32)%Z.
Proof. intros _ E. rewrite is_v4_div in E. apply Z.eqb_eq in E. rewrite <-E, Z.mul_comm. apply Z.div_mod. lia. Qed.

(** Masking keeps the family: IPv6 always, IPv4 down to 96 bits. *)
Lemma masked_v6 v k :
  (0 ≤ k ≤ 128)%Z → addr16 v → is_v4 v = false → is_v4 (Z.land v (ones_mask k 128)) = false.
Proof.
  intros Hk Hv E. rewrite is_v4_div in *. apply Z.eqb_neq in E. apply Z.eqb_neq. rewrite land_mask_div by done.
  destruct (Z.le_gt_cases 96 k) as [H|H].
  - intros Hm. apply E. rewrite <-Hm. replace (2 ^ 32)%Z with (2 ^ (128 - k) * 2 ^ (k - 96))%Z
      by (rewrite <-Z.pow_add_r by lia; f_equal; lia).
    rewrite <-!Z.div_div by (try apply Z.pow_nonzero; try apply Z.pow_pos_nonneg; lia).
    by rewrite Z.div_mul by (apply Z.pow_nonzero; lia).
  - replace (128 - k)%Z with ((96 - k - 1) + 1 + 32)%Z by lia. rewrite !Z.pow_add_r by lia.
    rewrite !Z.mul_assoc, Z.div_mul by (apply Z.pow_nonzero; lia). unfold v4InV6Prefix. intros Hm.
    apply (f_equal Z.odd) in Hm. rewrite !Z.odd_mul in Hm. cbn in Hm. by rewrite andb_false_r in Hm.
Qed.

Lemma masked_v4 v k :
  (96 ≤ k ≤ 128)%Z → addr16 v → is_v4 v = true →
  is_v4 (Z.land v (ones_mask k 128)) = true ∧
  (Z.land v (ones_mask k 128) mod 2 ^ 32 = (v mod 2 ^ 32) / 2 ^ (128 - k) * 2 ^ (128 - k))%Z.
Proof.
  intros Hk Hv E. pose proof (addr4 v Hv E) as Ev. rewrite is_v4_div, land_mask_div by (done || lia).
  set (w := (v mod 2 ^ 32)%Z) in *. assert (0 ≤ w < 2 ^ 32)%Z as Hw by (apply Z.mod_pos_bound; lia).
  assert (2 ^ 32 = 2 ^ (k - 96) * 2 ^ (128 - k))%Z as E32 by (rewrite <-Z.pow_add_r by lia; f_equal; lia).
  assert (0 < 2 ^ (128 - k))%Z as Hp by (apply Z.pow_pos_nonneg; lia).
  assert (v / 2 ^ (128 - k) = v4InV6Prefix * 2 ^ (k - 96) + w / 2 ^ (128 - k))%Z as ->.
  { rewrite Ev at 1. rewrite E32 at 1. rewrite Z.mul_assoc, Z.add_comm, Z.div_add by lia. lia. }
  rewrite Z.mul_add_distr_r, <-Z.mul_assoc, <-E32.
  assert (0 ≤ w / 2 ^ (128 - k) * 2 ^ (128 - k) < 2 ^ 32)%Z as Hb.
  { pose proof (Z.mul_div_le w (2 ^ (128 - k)) Hp). split; [|lia].
    apply Z.mul_nonneg_nonneg; [apply Z.div_pos; lia|lia]. }
  rewrite (Z.add_comm (_ * 2 ^ 32)). rewrite Z.div_add, Z.mod_add by lia.
  rewrite Z.div_small, Z.mod_small by done. done.
Qed.

(** Within one family the network of a prefix contains the addresses with that
    prefix. *)
Definition same_family (v w : Z) : Prop := is_v4 v = is_v4 w.

(** The shortest prefix the loop can reach. *)
Definition min_prefix (v : Z) : Z := if is_v4 v then 96 else 0.

Lemma Contains_net v w k :
  (min_prefix v ≤ k ≤ 128)%Z → addr16 v → addr16 w → same_family v w →
  Contains (net_of v k) (IP16 w) = (top_bits v k =? top_bits w k)%Z.
Proof.
  unfold same_family, min_prefix. intros Hk Hv Hw Hf.
  assert (0 < 2 ^ (128 - k))%Z as Hp by (apply Z.pow_pos_nonneg; destruct (is_v4 v); lia).
  assert (∀ a b : Z, (a * 2 ^ (128 - k) =? b * 2 ^ (128 - k))%Z = (a =? b)%Z) as Hmul.
  { intros a b. apply bool_ext. rewrite !Z.eqb_eq. rewrite Z.mul_cancel_r by lia. done. }
  unfold Contains, networkNumberAndMask, net_of. cbn [net_IP net_Mask To4].
  destruct (is_v4 v) eqn:E; rewrite <-Hf.
  - destruct (masked_v4 v k) as [-> Em]; [lia|done|done|]. rewrite Em.
    assert (ones_mask k 128 mod 2 ^ 32 = ones_mask (k - 96) 32)%Z as ->.
    { unfold ones_mask. replace (32 - (k - 96))%Z with (128 - k)%Z by lia.
      rewrite <-Z.land_ones by lia. apply Z.bits_inj'. intros i Hi.
      rewrite Z.land_spec, !Z.shiftl_spec by done. destruct (Z.ltb_spec i (128 - k)).
      { rewrite !(Z.testbit_neg_r _ (i - (128 - k))) by lia. done. }
      destruct (Z.ltb_spec i 32).
      - by rewrite !Z.ones_spec_low by lia.
      - rewrite (Z.ones_spec_high 32 i), (Z.ones_spec_high (k - 96)) by lia. by rewrite andb_false_r. }
    set (a := (v mod 2 ^ 32)%Z). set (b := (w mod 2 ^ 32)%Z).
    assert (0 ≤ a < 2 ^ 32 ∧ 0 ≤ b < 2 ^ 32)%Z as [Ha Hb] by (split; apply Z.mod_pos_bound; lia).
    assert (0 ≤ a / 2 ^ (128 - k) * 2 ^ (128 - k) < 2 ^ 32)%Z.
    { pose proof (Z.mul_div_le a (2 ^ (128 - k)) Hp). split; [|lia].
      apply Z.mul_nonneg_nonneg; [apply Z.div_pos; lia|lia]. }
    rewrite !land_ones_mask by (done || lia). replace (32 - (k - 96))%Z with (128 - k)%Z by lia.
    rewrite !Z.shiftl_mul_pow2, !Z.shiftr_div_pow2, Z.div_mul, Hmul by lia.
    rewrite !top_bits_div by lia. rewrite (addr4 v Hv E) , (addr4 w Hw (eq_sym Hf)). fold a b.
    replace (2 ^ 32)%Z with (2 ^ (k - 96) * 2 ^ (128 - k))%Z by (rewrite <-Z.pow_add_r by lia; f_equal; lia).
    rewrite !Z.mul_assoc, !(Z.add_comm (_ * 2 ^ (128 - k))%Z), !Z.div_add by lia.
    apply bool_ext. rewrite !Z.eqb_eq. lia.
  - rewrite masked_v6 by done. rewrite <-Z.land_assoc, Z.land_diag, !land_mask_div, Hmul by (done || lia).
    by rewrite !top_bits_div by lia.
Qed.

(** ** The loop ends, at the longest common prefix *)

Lemma min_prefix_agrees v w :
  addr16 v → addr16 w → same_family v w → top_bits v (min_prefix v) = top_bits w (min_prefix v).
Proof.
  unfold same_family, min_prefix, top_bits. intros Hv Hw Hf. destruct (is_v4 v) eqn:E.
  - unfold is_v4 in *. apply Z.eqb_eq in E. symmetry in Hf. apply Z.eqb_eq in Hf.
    change (128 - 96)%Z with 32%Z. by rewrite E, Hf.
  - change (128 - 0)%Z with 128%Z. rewrite !Z.shiftr_div_pow2 by lia.
    unfold addr16 in *. by rewrite !Z.div_small by done.
Qed.

Lemma min_prefix_range v : (0 ≤ min_prefix v ≤ 96)%Z.
Proof. unfold min_prefix. destruct (is_v4 v); lia. Qed.

Lemma widen_ends fuel v w k :
  addr16 v → addr16 w → same_family v w → (min_prefix v ≤ k ≤ 128)%Z → (k - min_prefix v ≤ Z.of_nat fuel)%Z →
  ∃ j, widen fuel (net_of v k) (IP16 w) = Some (net_of v j) ∧ (min_prefix v ≤ j ≤ k)%Z ∧
    top_bits v j = top_bits w j ∧ ∀ i, (j < i ≤ k)%Z → top_bits v i ≠ top_bits w i.
Proof.
  intros Hv Hw Hf. revert k. induction fuel as [|fuel IH]; intros k Hk Hfuel.
  - assert (k = min_prefix v) as -> by lia. exists (min_prefix v). cbn [widen].
    rewrite Contains_net by (done || lia). rewrite (proj2 (Z.eqb_eq _ _) (min_prefix_agrees v w Hv Hw Hf)).
    split_and!; [done|lia|lia|by apply min_prefix_agrees|intros; lia].
  - cbn [widen]. rewrite Contains_net by (done || lia). destruct (Z.eqb_spec (top_bits v k) (top_bits w k)) as [E|E].
    { exists k. split_and!; [done|lia|lia|done|intros; lia]. }
    assert (k ≠ min_prefix v) as Hne. { intros ->. by apply E, min_prefix_agrees. }
    pose proof (min_prefix_range v). rewrite widen_step_net by lia.
    destruct (IH (k - 1)%Z) as (j & Ej & Hj & Ht & Hi); [lia|lia|]. exists j.
    split_and!; [done|lia|lia|done|]. intros i Hi'. destruct (decide (i = k)) as [->|]; [done|]. apply Hi. lia.
Qed.

(** The network of [k] bits is the longest prefix of [v] all [seen] addresses have. *)
Definition least_net (v k : Z) (seen : list Z) : Prop :=
  (min_prefix v ≤ k ≤ 128)%Z ∧ (∀ w, w ∈ seen → top_bits v k = top_bits w k) ∧
  ∀ j, (k < j ≤ 128)%Z → ∃ w, w ∈ seen ∧ top_bits v j ≠ top_bits w j.

Lemma add_service_ip_least v k seen w :
  addr16 v → addr16 w → same_family v w → least_net v k seen →
  ∃ j, add_service_ip (Some (net_of v k)) (IP16 w) = Some (Some (net_of v j)) ∧ least_net v j (w :: seen).
Proof.
  intros Hv Hw Hf (Hk & Hall & Hmax). pose proof (min_prefix_range v).
  destruct (widen_ends widen_fuel v w k Hv Hw Hf Hk) as (j & E & Hj & Ht & Hi); [unfold widen_fuel; lia|].
  exists j. cbn [add_service_ip]. rewrite E. split; [done|]. split_and!; [lia|lia| |].
  - intros x [->|Hx]%elem_of_cons; [done|]. apply top_bits_less with k; [lia|lia|by apply Hall].
  - intros i Hi'. destruct (Z.le_gt_cases i k).
    + exists w. split; [by left|]. apply Hi. lia.
    + destruct (Hmax i) as (x & Hx & Hne); [lia|]. exists x. split; [by right|done].
Qed.

(** The addresses of the services that have one. *)
Definition ip_values (ips : list IP) : list Z := omap (λ ip, match ip with IP16 v => Some v | _ => None end) ips.

(** Parsed addresses are nil or of 16 bytes. *)
Definition parsed (fam : bool) (ip : IP) : Prop :=
  match ip with IPnil => True | IP4 _ => False | IP16 v => addr16 v ∧ is_v4 v = fam end.

Lemma add_service_ips_from v k seen ips :
  addr16 v → Forall (parsed (is_v4 v)) ips → least_net v k seen →
  ∃ j seen', add_service_ips (Some (net_of v k)) ips = Some (Some (net_of v j)) ∧ least_net v j seen' ∧
    ∀ w, w ∈ seen' ↔ w ∈ seen ∨ w ∈ ip_values ips.
Proof.
  intros Hv Hips. revert k seen. induction Hips as [|ip ips Hip Hips IH]; intros k seen Hl.
  { exists k, seen. split_and!; [done|done|]. intros w. rewrite elem_of_nil. tauto. }
  destruct ip as [|a|a]; [|done|].
  - destruct (IH k seen Hl) as (j & seen' & E & Hj & Hin). by exists j, seen'.
  - destruct Hip as [Ha Hf]. destruct (add_service_ip_least v k seen a Hv Ha) as (j & E & Hj); [done|done|].
    destruct (IH j (a :: seen) Hj) as (j' & seen' & E' & Hj' & Hin). exists j', seen'.
    split_and!; [|done|].
    + unfold add_service_ips in *. cbn [foldl]. change (Some (Some (net_of v k)) ≫= λ c, add_service_ip c (IP16 a))
        with (add_service_ip (Some (net_of v k)) (IP16 a)). by rewrite E.
    + intros w. rewrite Hin. cbn. rewrite !elem_of_cons. tauto.
Qed.

Lemma net_of_host v : addr16 v → mkIPNet (IP16 v) (CIDRMask 128 128) = net_of v 128.
Proof.
  intros Hv. rewrite CIDRMask_128 by lia. unfold net_of. rewrite land_mask_div by (done || lia).
  by rewrite Z.div_1_r, Z.mul_1_r.
Qed.

(** C36: When all service addresses are of one family, the inferred range contains
    every one of them, the loop of every update ends, and no longer prefix of the
    first address contains them all. *)
Theorem service_cidr_least v ips :
  addr16 v → Forall (parsed (is_v4 v)) ips →
  ∃ k, add_service_ips None (IP16 v :: ips) = Some (Some (net_of v k)) ∧ (0 ≤ k ≤ 128)%Z ∧
    (∀ w, w ∈ v :: ip_values ips → Contains (net_of v k) (IP16 w) = true) ∧
    ∀ j, (k < j ≤ 128)%Z → ∃ w, w ∈ v :: ip_values ips ∧ Contains (net_of v j) (IP16 w) = false.
Proof.
  intros Hv Hips. pose proof (min_prefix_range v).
  assert (least_net v 128 [v]) as H0.
  { split_and!; [lia|lia| |intros; lia]. by intros w ->%list_elem_of_singleton. }
  destruct (add_service_ips_from v 128 [v] ips Hv Hips H0) as (k & seen & E & (Hk & Hall & Hmax) & Hin).
  assert (∀ w, w ∈ seen ↔ w ∈ v :: ip_values ips) as Hin'.
  { intros w. rewrite Hin, list_elem_of_singleton, elem_of_cons. tauto. }
  assert (∀ w, w ∈ v :: ip_values ips → addr16 w ∧ same_family v w) as Hfam.
  { intros w [->|Hw]%elem_of_cons; [done|]. apply list_elem_of_omap in Hw as ([|a|a] & Ha & [= ->]).
    pose proof (proj1 (Forall_forall _ _) Hips _ Ha) as [? ?]. by split. }
  exists k. split_and!; [|lia|lia| |].
  - unfold add_service_ips in *. cbn [foldl]. change (Some None ≫= λ c, add_service_ip c (IP16 v))
      with (Some (Some (mkIPNet (IP16 v) (CIDRMask 128 128)))). by rewrite net_of_host.
  - intros w Hw. destruct (Hfam w Hw). rewrite Contains_net by done. by apply Z.eqb_eq, Hall, Hin'.
  - intros j Hj. destruct (Hmax j Hj) as (w & Hw%Hin' & Hne). destruct (Hfam w Hw). exists w. split; [done|].
    rewrite Contains_net by (done || lia). by apply Z.eqb_neq.
Qed.

(** ** Mixed families *)

(** Once the range is an IPv6 one, the loop never ends for an IPv4 address: the
    mask runs out of ones, the network becomes nil, and a nil network contains
    nothing. *)
Lemma nil_net_hangs fuel w : is_v4 w = true → widen fuel (mkIPNet IPnil MaskNil) (IP16 w) = None.
Proof.
  intros Hw. induction fuel as [|fuel IH]; cbn [widen];
    (replace (Contains _ _) with false by (unfold Contains; cbn; by rewrite Hw)); [done|exact IH].
Qed.

Lemma v6_net_hangs fuel v w k :
  addr16 v → is_v4 v = false → is_v4 w = true → (0 ≤ k ≤ 128)%Z → widen fuel (net_of v k) (IP16 w) = None.
Proof.
  intros Hv Ev Ew. revert k. induction fuel as [|fuel IH]; intros k Hk; cbn [widen];
    (replace (Contains _ _) with false; [|unfold Contains, networkNumberAndMask, net_of; cbn [net_IP net_Mask To4];
       rewrite masked_v6 by done; by rewrite Ew]); [done|].
  destruct (decide (k = 0%Z)) as [->|].
  - change (widen_step (net_of v 0)) with (mkIPNet IPnil MaskNil). by apply nil_net_hangs.
  - rewrite widen_step_net by lia. apply IH. lia.
Qed.

(** The addresses 10.96.0.1, 10.96.0.10 and 10.97.3.4. *)
Lemma service_cidr_least_witness :
  let v := 281470855806977%Z in
  let ips := [IP16 281470855806986; IPnil; IP16 281470855873284] in
  addr16 v ∧ Forall (parsed (is_v4 v)) ips ∧
  add_service_ips None (IP16 v :: ips) = Some (Some (net_of v 111)) ∧
  ∃ k, add_service_ips None (IP16 v :: ips) = Some (Some (net_of v k)) ∧
    (∀ w, w ∈ v :: ip_values ips → Contains (net_of v k) (IP16 w) = true).
Proof.
  intros v ips. assert (addr16 v) as Hv by (unfold addr16, v; lia).
  assert (Forall (parsed (is_v4 v)) ips) as Hips.
  { repeat constructor; unfold addr16; lia. }
  split; [done|]. split; [done|]. split; [by vm_compute|].
  destruct (service_cidr_least v ips Hv Hips) as (k & E & _ & Hin & _). exists k. split; [exact E|exact Hin].
Defined.
