(* ===== verification/K8sMessages.v ===== *)
(** * Kubernetes metadata messages

    The messages of [shared/k8s/metadatapb/metadata.proto], with the resources the
    store keeps ([storepb/store.proto]) and what is sent to the agents
    ([messagespb/messages.proto]), as records of their fields.  A message-typed
    field of the generated Go struct is a pointer: an [option].  Enumerations the
    code does not look into are numbers. *)

From S2P Require Import Prelude GoLib Uuid Messages.
From Stdlib Require Import Ascii.
Import MemProto.

(** ** Resources *)

(** [metadatapb.PodPhase]. *)
Inductive PodPhase : Type :=
| PHASE_UNKNOWN | PENDING | RUNNING | SUCCEEDED | FAILED | TERMINATED.

#[export] Instance PodPhase_eq_dec : EqDecision PodPhase.
Proof. solve_decision. Defined.

(** [metadatapb.ContainerState]. *)
Inductive ContainerState : Type :=
| CONTAINER_STATE_UNKNOWN | CONTAINER_STATE_RUNNING | CONTAINER_STATE_TERMINATED | CONTAINER_STATE_WAITING.

#[export] Instance ContainerState_eq_dec : EqDecision ContainerState.
Proof. solve_decision. Defined.

(** [metadatapb.ContainerType]. *)
Inductive ContainerType : Type :=
| CONTAINER_TYPE_UNKNOWN | CONTAINER_TYPE_DOCKER | CONTAINER_TYPE_CRIO | CONTAINER_TYPE_CONTAINERD.

#[export] Instance ContainerType_eq_dec : EqDecision ContainerType.
Proof. solve_decision. Defined.

(** [metadatapb.NodeAddressType]. *)
Inductive NodeAddressType : Type :=
| NODE_ADDR_TYPE_UNKNOWN | NODE_ADDR_TYPE_HOSTNAME | NODE_ADDR_TYPE_EXTERNAL_IP | NODE_ADDR_TYPE_INTERNAL_IP | NODE_ADDR_TYPE_EXTERNAL_DNS | NODE_ADDR_TYPE_INTERNAL_DNS.

#[export] Instance NodeAddressType_eq_dec : EqDecision NodeAddressType.
Proof. solve_decision. Defined.

Record OwnerReference := mkOwnerReference {
  or_Kind : string;
  or_Name : string;
  or_UID : string
}.

#[export] Instance OwnerReference_eq_dec : EqDecision OwnerReference.
Proof. solve_decision. Defined.

(** A nil and an empty map of labels are told apart by the code. *)
Record ObjectMetadata := mkObjectMetadata {
  md_Name : string;
  md_Namespace : string;
  md_UID : string;
  md_ResourceVersion : string;
  md_CreationTimestampNS : Z;
  md_DeletionTimestampNS : Z;
  md_Labels : option (gmap string string);
  md_OwnerReferences : list OwnerReference;
  md_Annotations : option (gmap string string)
}.

#[export] Instance ObjectMetadata_eq_dec : EqDecision ObjectMetadata.
Proof. solve_decision. Defined.

Record Namespace := mkNamespace {
  ns_Metadata : option ObjectMetadata
}.

#[export] Instance Namespace_eq_dec : EqDecision Namespace.
Proof. solve_decision. Defined.

Record PodSpec := mkPodSpec {
  ps_DNSPolicy : Z;
  ps_NodeSelector : gmap string string;
  ps_NodeName : string;
  ps_Hostname : string;
  ps_Subdomain : string;
  ps_PriorityClassName : string;
  ps_Priority : Z
}.

#[export] Instance PodSpec_eq_dec : EqDecision PodSpec.
Proof. solve_decision. Defined.

Record ContainerStatus := mkContainerStatus {
  cst_Name : string;
  cst_ContainerID : string;
  cst_ContainerState : ContainerState;
  cst_StartTimestampNS : Z;
  cst_StopTimestampNS : Z;
  cst_Message : string;
  cst_Reason : string;
  cst_RestartCount : Z
}.

#[export] Instance ContainerStatus_eq_dec : EqDecision ContainerStatus.
Proof. solve_decision. Defined.

Record PodCondition := mkPodCondition {
  pcd_Type : Z;
  pcd_Status : Z
}.

#[export] Instance PodCondition_eq_dec : EqDecision PodCondition.
Proof. solve_decision. Defined.

(** [created_at] and [events] are not set or read by the metadata service. *)
Record PodStatus := mkPodStatus {
  pst_Phase : PodPhase;
  pst_Conditions : list PodCondition;
  pst_Message : string;
  pst_Reason : string;
  pst_HostIP : string;
  pst_PodIP : string;
  pst_QOSClass : Z;
  pst_ContainerStatuses : list ContainerStatus;
  pst_RestartCount : Z
}.

#[export] Instance PodStatus_eq_dec : EqDecision PodStatus.
Proof. solve_decision. Defined.

Record Pod := mkPod {
  pod_Metadata : option ObjectMetadata;
  pod_Spec : option PodSpec;
  pod_Status : option PodStatus
}.

#[export] Instance Pod_eq_dec : EqDecision Pod.
Proof. solve_decision. Defined.

Record ObjectReference := mkObjectReference {
  ref_Kind : string;
  ref_Namespace : string;
  ref_Name : string;
  ref_UID : string;
  ref_ResourceVersion : string
}.

#[export] Instance ObjectReference_eq_dec : EqDecision ObjectReference.
Proof. solve_decision. Defined.

Record EndpointAddress := mkEndpointAddress {
  ea_IP : string;
  ea_Hostname : string;
  ea_NodeName : string;
  ea_TargetRef : option ObjectReference
}.

#[export] Instance EndpointAddress_eq_dec : EqDecision EndpointAddress.
Proof. solve_decision. Defined.

Record EndpointPort := mkEndpointPort {
  ept_Name : string;
  ept_Port : Z;
  ept_Protocol : Z
}.

#[export] Instance EndpointPort_eq_dec : EqDecision EndpointPort.
Proof. solve_decision. Defined.

Record EndpointSubset := mkEndpointSubset {
  es_Addresses : list EndpointAddress;
  es_NotReadyAddresses : list EndpointAddress;
  es_Ports : list EndpointPort
}.

#[export] Instance EndpointSubset_eq_dec : EqDecision EndpointSubset.
Proof. solve_decision. Defined.

Record Endpoints := mkEndpoints {
  ep_Metadata : option ObjectMetadata;
  ep_Subsets : list EndpointSubset
}.

#[export] Instance Endpoints_eq_dec : EqDecision Endpoints.
Proof. solve_decision. Defined.

Record ServicePort := mkServicePort {
  svp_Name : string;
  svp_Protocol : Z;
  svp_Port : Z;
  svp_NodePort : Z
}.

#[export] Instance ServicePort_eq_dec : EqDecision ServicePort.
Proof. solve_decision. Defined.

Record ServiceSpec := mkServiceSpec {
  ss_Ports : list ServicePort;
  ss_ClusterIP : string;
  ss_Type : Z;
  ss_ExternalIPs : list string;
  ss_LoadBalancerIP : string;
  ss_ExternalName : string;
  ss_ExternalTrafficPolicy : Z
}.

#[export] Instance ServiceSpec_eq_dec : EqDecision ServiceSpec.
Proof. solve_decision. Defined.

Record Service := mkService {
  svc_Metadata : option ObjectMetadata;
  svc_Spec : option ServiceSpec
}.

#[export] Instance Service_eq_dec : EqDecision Service.
Proof. solve_decision. Defined.

Record NodeSpec := mkNodeSpec {
  nsp_PodCIDRs : list string;
  nsp_PodCIDR : string
}.

#[export] Instance NodeSpec_eq_dec : EqDecision NodeSpec.
Proof. solve_decision. Defined.

Record NodeAddress := mkNodeAddress {
  na_Type : NodeAddressType;
  na_Address : string
}.

#[export] Instance NodeAddress_eq_dec : EqDecision NodeAddress.
Proof. solve_decision. Defined.

Record NodeCondition := mkNodeCondition {
  nc_Type : Z;
  nc_Status : Z
}.

#[export] Instance NodeCondition_eq_dec : EqDecision NodeCondition.
Proof. solve_decision. Defined.

Record NodeStatus := mkNodeStatus {
  nst_Phase : Z;
  nst_Addresses : list NodeAddress;
  nst_Conditions : list NodeCondition
}.

#[export] Instance NodeStatus_eq_dec : EqDecision NodeStatus.
Proof. solve_decision. Defined.

Record Node := mkNode {
  node_Metadata : option ObjectMetadata;
  node_Spec : option NodeSpec;
  node_Status : option NodeStatus
}.

#[export] Instance Node_eq_dec : EqDecision Node.
Proof. solve_decision. Defined.

Record LabelSelectorRequirement := mkLabelSelectorRequirement {
  lsr_Key : string;
  lsr_Operator : string;
  lsr_Values : list string
}.

#[export] Instance LabelSelectorRequirement_eq_dec : EqDecision LabelSelectorRequirement.
Proof. solve_decision. Defined.

Record LabelSelector := mkLabelSelector {
  ls_MatchLabels : gmap string string;
  ls_MatchExpressions : list LabelSelectorRequirement
}.

#[export] Instance LabelSelector_eq_dec : EqDecision LabelSelector.
Proof. solve_decision. Defined.

Record PodTemplateSpec := mkPodTemplateSpec {
  pts_Metadata : option ObjectMetadata;
  pts_Spec : option PodSpec
}.

#[export] Instance PodTemplateSpec_eq_dec : EqDecision PodTemplateSpec.
Proof. solve_decision. Defined.

Record ReplicaSetCondition := mkReplicaSetCondition {
  rsc_Type : string;
  rsc_Status : Z
}.

#[export] Instance ReplicaSetCondition_eq_dec : EqDecision ReplicaSetCondition.
Proof. solve_decision. Defined.

Record ReplicaSetSpec := mkReplicaSetSpec {
  rsp_Replicas : Z;
  rsp_MinReadySeconds : Z;
  rsp_Selector : option LabelSelector;
  rsp_Template : option PodTemplateSpec
}.

#[export] Instance ReplicaSetSpec_eq_dec : EqDecision ReplicaSetSpec.
Proof. solve_decision. Defined.

Record ReplicaSetStatus := mkReplicaSetStatus {
  rst_Replicas : Z;
  rst_FullyLabeledReplicas : Z;
  rst_ReadyReplicas : Z;
  rst_AvailableReplicas : Z;
  rst_ObservedGeneration : Z;
  rst_Conditions : list ReplicaSetCondition
}.

#[export] Instance ReplicaSetStatus_eq_dec : EqDecision ReplicaSetStatus.
Proof. solve_decision. Defined.

Record ReplicaSet := mkReplicaSet {
  rs_Metadata : option ObjectMetadata;
  rs_Spec : option ReplicaSetSpec;
  rs_Status : option ReplicaSetStatus
}.

#[export] Instance ReplicaSet_eq_dec : EqDecision ReplicaSet.
Proof. solve_decision. Defined.

Record RollingUpdateDeployment := mkRollingUpdateDeployment {
  rud_MaxUnavailable : string;
  rud_MaxSurge : string
}.

#[export] Instance RollingUpdateDeployment_eq_dec : EqDecision RollingUpdateDeployment.
Proof. solve_decision. Defined.

Record DeploymentStrategy := mkDeploymentStrategy {
  dsy_Type : Z;
  dsy_RollingUpdate : option RollingUpdateDeployment
}.

#[export] Instance DeploymentStrategy_eq_dec : EqDecision DeploymentStrategy.
Proof. solve_decision. Defined.

Record DeploymentCondition := mkDeploymentCondition {
  dc_Type : Z;
  dc_Status : Z;
  dc_LastUpdateTimeNS : Z;
  dc_LastTransitionTimeNS : Z;
  dc_Reason : string;
  dc_Message : string
}.

#[export] Instance DeploymentCondition_eq_dec : EqDecision DeploymentCondition.
Proof. solve_decision. Defined.

Record DeploymentSpec := mkDeploymentSpec {
  dsp_Replicas : Z;
  dsp_Selector : option LabelSelector;
  dsp_Template : option PodTemplateSpec;
  dsp_Strategy : option DeploymentStrategy;
  dsp_MinReadySeconds : Z;
  dsp_RevisionHistoryLimit : Z;
  dsp_Paused : bool;
  dsp_ProgressDeadlineSeconds : Z
}.

#[export] Instance DeploymentSpec_eq_dec : EqDecision DeploymentSpec.
Proof. solve_decision. Defined.

Record DeploymentStatus := mkDeploymentStatus {
  dst_ObservedGeneration : Z;
  dst_Replicas : Z;
  dst_UpdatedReplicas : Z;
  dst_ReadyReplicas : Z;
  dst_AvailableReplicas : Z;
  dst_UnavailableReplicas : Z;
  dst_Conditions : list DeploymentCondition;
  dst_CollisionCount : Z
}.

#[export] Instance DeploymentStatus_eq_dec : EqDecision DeploymentStatus.
Proof. solve_decision. Defined.

Record Deployment := mkDeployment {
  dep_Metadata : option ObjectMetadata;
  dep_Spec : option DeploymentSpec;
  dep_Status : option DeploymentStatus
}.

#[export] Instance Deployment_eq_dec : EqDecision Deployment.
Proof. solve_decision. Defined.

(** ** Updates *)

Record PodUpdate := mkPodUpdate {
  pu_UID : string;
  pu_Name : string;
  pu_Namespace : string;
  pu_StartTimestampNS : Z;
  pu_StopTimestampNS : Z;
  pu_ContainerIDs : list string;
  pu_ContainerNames : list string;
  pu_QOSClass : Z;
  pu_Phase : PodPhase;
  pu_Conditions : list PodCondition;
  pu_NodeName : string;
  pu_Hostname : string;
  pu_PodIP : string;
  pu_HostIP : string;
  pu_Message : string;
  pu_Reason : string;
  pu_Labels : string;
  pu_OwnerReferences : list OwnerReference
}.

#[export] Instance PodUpdate_eq_dec : EqDecision PodUpdate.
Proof. solve_decision. Defined.

Record ContainerUpdate := mkContainerUpdate {
  cu_CID : string;
  cu_Name : string;
  cu_StartTimestampNS : Z;
  cu_StopTimestampNS : Z;
  cu_Namespace : string;
  cu_PodID : string;
  cu_PodName : string;
  cu_ContainerState : ContainerState;
  cu_Message : string;
  cu_Reason : string;
  cu_ContainerType : ContainerType
}.

#[export] Instance ContainerUpdate_eq_dec : EqDecision ContainerUpdate.
Proof. solve_decision. Defined.

Record ServiceUpdate := mkServiceUpdate {
  su_UID : string;
  su_Name : string;
  su_Namespace : string;
  su_StartTimestampNS : Z;
  su_StopTimestampNS : Z;
  su_PodIDs : list string;
  su_PodNames : list string;
  su_ExternalIPs : list string;
  su_ClusterIP : string
}.

#[export] Instance ServiceUpdate_eq_dec : EqDecision ServiceUpdate.
Proof. solve_decision. Defined.

Record NamespaceUpdate := mkNamespaceUpdate {
  nsu_UID : string;
  nsu_Name : string;
  nsu_StartTimestampNS : Z;
  nsu_StopTimestampNS : Z
}.

#[export] Instance NamespaceUpdate_eq_dec : EqDecision NamespaceUpdate.
Proof. solve_decision. Defined.

Record NodeUpdate := mkNodeUpdate {
  nu_UID : string;
  nu_Name : string;
  nu_StartTimestampNS : Z;
  nu_StopTimestampNS : Z;
  nu_Phase : Z;
  nu_PodCIDR : string;
  nu_PodCIDRs : list string;
  nu_Conditions : list NodeCondition
}.

#[export] Instance NodeUpdate_eq_dec : EqDecision NodeUpdate.
Proof. solve_decision. Defined.

Record ReplicaSetUpdate := mkReplicaSetUpdate {
  rsu_UID : string;
  rsu_Name : string;
  rsu_StartTimestampNS : Z;
  rsu_StopTimestampNS : Z;
  rsu_Namespace : string;
  rsu_Replicas : Z;
  rsu_FullyLabeledReplicas : Z;
  rsu_ReadyReplicas : Z;
  rsu_AvailableReplicas : Z;
  rsu_ObservedGeneration : Z;
  rsu_RequestedReplicas : Z;
  rsu_Conditions : list ReplicaSetCondition;
  rsu_OwnerReferences : list OwnerReference
}.

#[export] Instance ReplicaSetUpdate_eq_dec : EqDecision ReplicaSetUpdate.
Proof. solve_decision. Defined.

Record DeploymentUpdate := mkDeploymentUpdate {
  du_UID : string;
  du_Name : string;
  du_StartTimestampNS : Z;
  du_StopTimestampNS : Z;
  du_Namespace : string;
  du_ObservedGeneration : Z;
  du_Replicas : Z;
  du_UpdatedReplicas : Z;
  du_ReadyReplicas : Z;
  du_AvailableReplicas : Z;
  du_UnavailableReplicas : Z;
  du_RequestedReplicas : Z;
  du_Conditions : list DeploymentCondition
}.

#[export] Instance DeploymentUpdate_eq_dec : EqDecision DeploymentUpdate.
Proof. solve_decision. Defined.

(** The [oneof] of [metadatapb.ResourceUpdate]. *)
Inductive resource_update : Type :=
| ResourceUpdate_PodUpdate (x : PodUpdate)
| ResourceUpdate_ContainerUpdate (x : ContainerUpdate)
| ResourceUpdate_ServiceUpdate (x : ServiceUpdate)
| ResourceUpdate_NamespaceUpdate (x : NamespaceUpdate)
| ResourceUpdate_NodeUpdate (x : NodeUpdate)
| ResourceUpdate_ReplicaSetUpdate (x : ReplicaSetUpdate)
| ResourceUpdate_DeploymentUpdate (x : DeploymentUpdate).

#[export] Instance resource_update_eq_dec : EqDecision resource_update.
Proof. solve_decision. Defined.

Record ResourceUpdate := mkResourceUpdate {
  ru_Update : resource_update;
  ru_UpdateVersion : Z;
  ru_PrevUpdateVersion : Z
}.

#[export] Instance ResourceUpdate_eq_dec : EqDecision ResourceUpdate.
Proof. solve_decision. Defined.

(** [storepb.K8SResource], a [oneof]. *)
Inductive K8SResource : Type :=
| K8SResource_Pod (x : Pod)
| K8SResource_Container (x : ContainerUpdate)
| K8SResource_Service (x : Service)
| K8SResource_Endpoints (x : Endpoints)
| K8SResource_Namespace (x : Namespace)
| K8SResource_Node (x : Node)
| K8SResource_ReplicaSet (x : ReplicaSet)
| K8SResource_Deployment (x : Deployment).

#[export] Instance K8SResource_eq_dec : EqDecision K8SResource.
Proof. solve_decision. Defined.

Record K8SResourceUpdate := mkK8SResourceUpdate {
  kru_Update : option ResourceUpdate
}.

#[export] Instance K8SResourceUpdate_eq_dec : EqDecision K8SResourceUpdate.
Proof. solve_decision. Defined.

Record MissingK8SMetadataRequest := mkMissingK8SMetadataRequest {
  mreq_FromUpdateVersion : Z;
  mreq_ToUpdateVersion : Z;
  mreq_Selector : string;
  mreq_CustomTopic : string
}.

#[export] Instance MissingK8SMetadataRequest_eq_dec : EqDecision MissingK8SMetadataRequest.
Proof. solve_decision. Defined.

Record MissingK8SMetadataResponse := mkMissingK8SMetadataResponse {
  mresp_Updates : list ResourceUpdate;
  mresp_FirstUpdateAvailable : Z;
  mresp_LastUpdateAvailable : Z
}.

#[export] Instance MissingK8SMetadataResponse_eq_dec : EqDecision MissingK8SMetadataResponse.
Proof. solve_decision. Defined.

(** [messagespb.K8SMetadataMessage], a [oneof]. *)
Inductive K8SMetadataMessage : Type :=
| K8SMetadataUpdate (x : ResourceUpdate)
| MissingK8SMetadataRequestMsg (x : MissingK8SMetadataRequest)
| MissingK8SMetadataResponseMsg (x : MissingK8SMetadataResponse).

#[export] Instance K8SMetadataMessage_eq_dec : EqDecision K8SMetadataMessage.
Proof. solve_decision. Defined.

(** ** A concrete encoding of the messages *)
Module MemK8sProto.

#[export] Instance PodPhase_countable : Countable PodPhase.
Proof. record_countable (λ x, match x with PHASE_UNKNOWN => 0 | PENDING => 1 | RUNNING => 2 | SUCCEEDED => 3 | FAILED => 4 | TERMINATED => 5 end)%nat
  (λ n, match n with 0 => PHASE_UNKNOWN | 1 => PENDING | 2 => RUNNING | 3 => SUCCEEDED | 4 => FAILED | _ => TERMINATED end)%nat. Defined.
#[export] Instance ContainerState_countable : Countable ContainerState.
Proof. record_countable (λ x, match x with CONTAINER_STATE_UNKNOWN => 0 | CONTAINER_STATE_RUNNING => 1 | CONTAINER_STATE_TERMINATED => 2 | CONTAINER_STATE_WAITING => 3 end)%nat
  (λ n, match n with 0 => CONTAINER_STATE_UNKNOWN | 1 => CONTAINER_STATE_RUNNING | 2 => CONTAINER_STATE_TERMINATED | _ => CONTAINER_STATE_WAITING end)%nat. Defined.
#[export] Instance ContainerType_countable : Countable ContainerType.
Proof. record_countable (λ x, match x with CONTAINER_TYPE_UNKNOWN => 0 | CONTAINER_TYPE_DOCKER => 1 | CONTAINER_TYPE_CRIO => 2 | CONTAINER_TYPE_CONTAINERD => 3 end)%nat
  (λ n, match n with 0 => CONTAINER_TYPE_UNKNOWN | 1 => CONTAINER_TYPE_DOCKER | 2 => CONTAINER_TYPE_CRIO | _ => CONTAINER_TYPE_CONTAINERD end)%nat. Defined.
#[export] Instance NodeAddressType_countable : Countable NodeAddressType.
Proof. record_countable (λ x, match x with NODE_ADDR_TYPE_UNKNOWN => 0 | NODE_ADDR_TYPE_HOSTNAME => 1 | NODE_ADDR_TYPE_EXTERNAL_IP => 2 | NODE_ADDR_TYPE_INTERNAL_IP => 3 | NODE_ADDR_TYPE_EXTERNAL_DNS => 4 | NODE_ADDR_TYPE_INTERNAL_DNS => 5 end)%nat
  (λ n, match n with 0 => NODE_ADDR_TYPE_UNKNOWN | 1 => NODE_ADDR_TYPE_HOSTNAME | 2 => NODE_ADDR_TYPE_EXTERNAL_IP | 3 => NODE_ADDR_TYPE_INTERNAL_IP | 4 => NODE_ADDR_TYPE_EXTERNAL_DNS | _ => NODE_ADDR_TYPE_INTERNAL_DNS end)%nat. Defined.
#[export] Instance OwnerReference_countable : Countable OwnerReference.
Proof.
  record_countable (λ x, (or_Kind x, or_Name x, or_UID x))
    (λ '(a, b, c), mkOwnerReference a b c).
Defined.
#[export] Instance ObjectMetadata_countable : Countable ObjectMetadata.
Proof.
  record_countable (λ x, (md_Name x, md_Namespace x, md_UID x, md_ResourceVersion x, md_CreationTimestampNS x, md_DeletionTimestampNS x, md_Labels x, md_OwnerReferences x, md_Annotations x))
    (λ '(a, b, c, d, e, f, g, h, i), mkObjectMetadata a b c d e f g h i).
Defined.
#[export] Instance Namespace_countable : Countable Namespace.
Proof. record_countable ns_Metadata mkNamespace. Defined.
#[export] Instance PodSpec_countable : Countable PodSpec.
Proof.
  record_countable (λ x, (ps_DNSPolicy x, ps_NodeSelector x, ps_NodeName x, ps_Hostname x, ps_Subdomain x, ps_PriorityClassName x, ps_Priority x))
    (λ '(a, b, c, d, e, f, g), mkPodSpec a b c d e f g).
Defined.
#[export] Instance ContainerStatus_countable : Countable ContainerStatus.
Proof.
  record_countable (λ x, (cst_Name x, cst_ContainerID x, cst_ContainerState x, cst_StartTimestampNS x, cst_StopTimestampNS x, cst_Message x, cst_Reason x, cst_RestartCount x))
    (λ '(a, b, c, d, e, f, g, h), mkContainerStatus a b c d e f g h).
Defined.
#[export] Instance PodCondition_countable : Countable PodCondition.
Proof.
  record_countable (λ x, (pcd_Type x, pcd_Status x))
    (λ '(a, b), mkPodCondition a b).
Defined.
#[export] Instance PodStatus_countable : Countable PodStatus.
Proof.
  record_countable (λ x, (pst_Phase x, pst_Conditions x, pst_Message x, pst_Reason x, pst_HostIP x, pst_PodIP x, pst_QOSClass x, pst_ContainerStatuses x, pst_RestartCount x))
    (λ '(a, b, c, d, e, f, g, h, i), mkPodStatus a b c d e f g h i).
Defined.
#[export] Instance Pod_countable : Countable Pod.
Proof.
  record_countable (λ x, (pod_Metadata x, pod_Spec x, pod_Status x))
    (λ '(a, b, c), mkPod a b c).
Defined.
#[export] Instance ObjectReference_countable : Countable ObjectReference.
Proof.
  record_countable (λ x, (ref_Kind x, ref_Namespace x, ref_Name x, ref_UID x, ref_ResourceVersion x))
    (λ '(a, b, c, d, e), mkObjectReference a b c d e).
Defined.
#[export] Instance EndpointAddress_countable : Countable EndpointAddress.
Proof.
  record_countable (λ x, (ea_IP x, ea_Hostname x, ea_NodeName x, ea_TargetRef x))
    (λ '(a, b, c, d), mkEndpointAddress a b c d).
Defined.
#[export] Instance EndpointPort_countable : Countable EndpointPort.
Proof.
  record_countable (λ x, (ept_Name x, ept_Port x, ept_Protocol x))
    (λ '(a, b, c), mkEndpointPort a b c).
Defined.
#[export] Instance EndpointSubset_countable : Countable EndpointSubset.
Proof.
  record_countable (λ x, (es_Addresses x, es_NotReadyAddresses x, es_Ports x))
    (λ '(a, b, c), mkEndpointSubset a b c).
Defined.
#[export] Instance Endpoints_countable : Countable Endpoints.
Proof.
  record_countable (λ x, (ep_Metadata x, ep_Subsets x))
    (λ '(a, b), mkEndpoints a b).
Defined.
#[export] Instance ServicePort_countable : Countable ServicePort.
Proof.
  record_countable (λ x, (svp_Name x, svp_Protocol x, svp_Port x, svp_NodePort x))
    (λ '(a, b, c, d), mkServicePort a b c d).
Defined.
#[export] Instance ServiceSpec_countable : Countable ServiceSpec.
Proof.
  record_countable (λ x, (ss_Ports x, ss_ClusterIP x, ss_Type x, ss_ExternalIPs x, ss_LoadBalancerIP x, ss_ExternalName x, ss_ExternalTrafficPolicy x))
    (λ '(a, b, c, d, e, f, g), mkServiceSpec a b c d e f g).
Defined.
#[export] Instance Service_countable : Countable Service.
Proof.
  record_countable (λ x, (svc_Metadata x, svc_Spec x))
    (λ '(a, b), mkService a b).
Defined.
#[export] Instance NodeSpec_countable : Countable NodeSpec.
Proof.
  record_countable (λ x, (nsp_PodCIDRs x, nsp_PodCIDR x))
    (λ '(a, b), mkNodeSpec a b).
Defined.
#[export] Instance NodeAddress_countable : Countable NodeAddress.
Proof.
  record_countable (λ x, (na_Type x, na_Address x))
    (λ '(a, b), mkNodeAddress a b).
Defined.
#[export] Instance NodeCondition_countable : Countable NodeCondition.
Proof.
  record_countable (λ x, (nc_Type x, nc_Status x))
    (λ '(a, b), mkNodeCondition a b).
Defined.
#[export] Instance NodeStatus_countable : Countable NodeStatus.
Proof.
  record_countable (λ x, (nst_Phase x, nst_Addresses x, nst_Conditions x))
    (λ '(a, b, c), mkNodeStatus a b c).
Defined.
#[export] Instance Node_countable : Countable Node.
Proof.
  record_countable (λ x, (node_Metadata x, node_Spec x, node_Status x))
    (λ '(a, b, c), mkNode a b c).
Defined.
#[export] Instance LabelSelectorRequirement_countable : Countable LabelSelectorRequirement.
Proof.
  record_countable (λ x, (lsr_Key x, lsr_Operator x, lsr_Values x))
    (λ '(a, b, c), mkLabelSelectorRequirement a b c).
Defined.
#[export] Instance LabelSelector_countable : Countable LabelSelector.
Proof.
  record_countable (λ x, (ls_MatchLabels x, ls_MatchExpressions x))
    (λ '(a, b), mkLabelSelector a b).
Defined.
#[export] Instance PodTemplateSpec_countable : Countable PodTemplateSpec.
Proof.
  record_countable (λ x, (pts_Metadata x, pts_Spec x))
    (λ '(a, b), mkPodTemplateSpec a b).
Defined.
#[export] Instance ReplicaSetCondition_countable : Countable ReplicaSetCondition.
Proof.
  record_countable (λ x, (rsc_Type x, rsc_Status x))
    (λ '(a, b), mkReplicaSetCondition a b).
Defined.
#[export] Instance ReplicaSetSpec_countable : Countable ReplicaSetSpec.
Proof.
  record_countable (λ x, (rsp_Replicas x, rsp_MinReadySeconds x, rsp_Selector x, rsp_Template x))
    (λ '(a, b, c, d), mkReplicaSetSpec a b c d).
Defined.
#[export] Instance ReplicaSetStatus_countable : Countable ReplicaSetStatus.
Proof.
  record_countable (λ x, (rst_Replicas x, rst_FullyLabeledReplicas x, rst_ReadyReplicas x, rst_AvailableReplicas x, rst_ObservedGeneration x, rst_Conditions x))
    (λ '(a, b, c, d, e, f), mkReplicaSetStatus a b c d e f).
Defined.
#[export] Instance ReplicaSet_countable : Countable ReplicaSet.
Proof.
  record_countable (λ x, (rs_Metadata x, rs_Spec x, rs_Status x))
    (λ '(a, b, c), mkReplicaSet a b c).
Defined.
#[export] Instance RollingUpdateDeployment_countable : Countable RollingUpdateDeployment.
Proof.
  record_countable (λ x, (rud_MaxUnavailable x, rud_MaxSurge x))
    (λ '(a, b), mkRollingUpdateDeployment a b).
Defined.
#[export] Instance DeploymentStrategy_countable : Countable DeploymentStrategy.
Proof.
  record_countable (λ x, (dsy_Type x, dsy_RollingUpdate x))
    (λ '(a, b), mkDeploymentStrategy a b).
Defined.
#[export] Instance DeploymentCondition_countable : Countable DeploymentCondition.
Proof.
  record_countable (λ x, (dc_Type x, dc_Status x, dc_LastUpdateTimeNS x, dc_LastTransitionTimeNS x, dc_Reason x, dc_Message x))
    (λ '(a, b, c, d, e, f), mkDeploymentCondition a b c d e f).
Defined.
#[export] Instance DeploymentSpec_countable : Countable DeploymentSpec.
Proof.
  record_countable (λ x, (dsp_Replicas x, dsp_Selector x, dsp_Template x, dsp_Strategy x, dsp_MinReadySeconds x, dsp_RevisionHistoryLimit x, dsp_Paused x, dsp_ProgressDeadlineSeconds x))
    (λ '(a, b, c, d, e, f, g, h), mkDeploymentSpec a b c d e f g h).
Defined.
#[export] Instance DeploymentStatus_countable : Countable DeploymentStatus.
Proof.
  record_countable (λ x, (dst_ObservedGeneration x, dst_Replicas x, dst_UpdatedReplicas x, dst_ReadyReplicas x, dst_AvailableReplicas x, dst_UnavailableReplicas x, dst_Conditions x, dst_CollisionCount x))
    (λ '(a, b, c, d, e, f, g, h), mkDeploymentStatus a b c d e f g h).
Defined.
#[export] Instance Deployment_countable : Countable Deployment.
Proof.
  record_countable (λ x, (dep_Metadata x, dep_Spec x, dep_Status x))
    (λ '(a, b, c), mkDeployment a b c).
Defined.
#[export] Instance PodUpdate_countable : Countable PodUpdate.
Proof.
  record_countable (λ x, (pu_UID x, pu_Name x, pu_Namespace x, pu_StartTimestampNS x, pu_StopTimestampNS x, pu_ContainerIDs x, pu_ContainerNames x, pu_QOSClass x, pu_Phase x, pu_Conditions x, pu_NodeName x, pu_Hostname x, pu_PodIP x, pu_HostIP x, pu_Message x, pu_Reason x, pu_Labels x, pu_OwnerReferences x))
    (λ '(a, b, c, d, e, f, g, h, i, j, k, l, m, n, o, p, q, r), mkPodUpdate a b c d e f g h i j k l m n o p q r).
Defined.
#[export] Instance ContainerUpdate_countable : Countable ContainerUpdate.
Proof.
  record_countable (λ x, (cu_CID x, cu_Name x, cu_StartTimestampNS x, cu_StopTimestampNS x, cu_Namespace x, cu_PodID x, cu_PodName x, cu_ContainerState x, cu_Message x, cu_Reason x, cu_ContainerType x))
    (λ '(a, b, c, d, e, f, g, h, i, j, k), mkContainerUpdate a b c d e f g h i j k).
Defined.
#[export] Instance ServiceUpdate_countable : Countable ServiceUpdate.
Proof.
  record_countable (λ x, (su_UID x, su_Name x, su_Namespace x, su_StartTimestampNS x, su_StopTimestampNS x, su_PodIDs x, su_PodNames x, su_ExternalIPs x, su_ClusterIP x))
    (λ '(a, b, c, d, e, f, g, h, i), mkServiceUpdate a b c d e f g h i).
Defined.
#[export] Instance NamespaceUpdate_countable : Countable NamespaceUpdate.
Proof.
  record_countable (λ x, (nsu_UID x, nsu_Name x, nsu_StartTimestampNS x, nsu_StopTimestampNS x))
    (λ '(a, b, c, d), mkNamespaceUpdate a b c d).
Defined.
#[export] Instance NodeUpdate_countable : Countable NodeUpdate.
Proof.
  record_countable (λ x, (nu_UID x, nu_Name x, nu_StartTimestampNS x, nu_StopTimestampNS x, nu_Phase x, nu_PodCIDR x, nu_PodCIDRs x, nu_Conditions x))
    (λ '(a, b, c, d, e, f, g, h), mkNodeUpdate a b c d e f g h).
Defined.
#[export] Instance ReplicaSetUpdate_countable : Countable ReplicaSetUpdate.
Proof.
  record_countable (λ x, (rsu_UID x, rsu_Name x, rsu_StartTimestampNS x, rsu_StopTimestampNS x, rsu_Namespace x, rsu_Replicas x, rsu_FullyLabeledReplicas x, rsu_ReadyReplicas x, rsu_AvailableReplicas x, rsu_ObservedGeneration x, rsu_RequestedReplicas x, rsu_Conditions x, rsu_OwnerReferences x))
    (λ '(a, b, c, d, e, f, g, h, i, j, k, l, m), mkReplicaSetUpdate a b c d e f g h i j k l m).
Defined.
#[export] Instance DeploymentUpdate_countable : Countable DeploymentUpdate.
Proof.
  record_countable (λ x, (du_UID x, du_Name x, du_StartTimestampNS x, du_StopTimestampNS x, du_Namespace x, du_ObservedGeneration x, du_Replicas x, du_UpdatedReplicas x, du_ReadyReplicas x, du_AvailableReplicas x, du_UnavailableReplicas x, du_RequestedReplicas x, du_Conditions x))
    (λ '(a, b, c, d, e, f, g, h, i, j, k, l, m), mkDeploymentUpdate a b c d e f g h i j k l m).
Defined.
#[export] Instance resource_update_countable : Countable resource_update.
Proof.
  record_countable (λ x, match x with ResourceUpdate_PodUpdate x => inl x | ResourceUpdate_ContainerUpdate x => inr (inl x) | ResourceUpdate_ServiceUpdate x => inr (inr (inl x)) | ResourceUpdate_NamespaceUpdate x => inr (inr (inr (inl x))) | ResourceUpdate_NodeUpdate x => inr (inr (inr (inr (inl x)))) | ResourceUpdate_ReplicaSetUpdate x => inr (inr (inr (inr (inr (inl x))))) | ResourceUpdate_DeploymentUpdate x => inr (inr (inr (inr (inr (inr (x)))))) end)
    (λ x, match x with inl x => ResourceUpdate_PodUpdate x | inr (inl x) => ResourceUpdate_ContainerUpdate x | inr (inr (inl x)) => ResourceUpdate_ServiceUpdate x | inr (inr (inr (inl x))) => ResourceUpdate_NamespaceUpdate x | inr (inr (inr (inr (inl x)))) => ResourceUpdate_NodeUpdate x | inr (inr (inr (inr (inr (inl x))))) => ResourceUpdate_ReplicaSetUpdate x | inr (inr (inr (inr (inr (inr (x)))))) => ResourceUpdate_DeploymentUpdate x end).
Defined.
#[export] Instance ResourceUpdate_countable : Countable ResourceUpdate.
Proof.
  record_countable (λ x, (ru_Update x, ru_UpdateVersion x, ru_PrevUpdateVersion x))
    (λ '(a, b, c), mkResourceUpdate a b c).
Defined.
#[export] Instance K8SResource_countable : Countable K8SResource.
Proof.
  record_countable (λ x, match x with K8SResource_Pod x => inl x | K8SResource_Container x => inr (inl x) | K8SResource_Service x => inr (inr (inl x)) | K8SResource_Endpoints x => inr (inr (inr (inl x))) | K8SResource_Namespace x => inr (inr (inr (inr (inl x)))) | K8SResource_Node x => inr (inr (inr (inr (inr (inl x))))) | K8SResource_ReplicaSet x => inr (inr (inr (inr (inr (inr (inl x)))))) | K8SResource_Deployment x => inr (inr (inr (inr (inr (inr (inr (x))))))) end)
    (λ x, match x with inl x => K8SResource_Pod x | inr (inl x) => K8SResource_Container x | inr (inr (inl x)) => K8SResource_Service x | inr (inr (inr (inl x))) => K8SResource_Endpoints x | inr (inr (inr (inr (inl x)))) => K8SResource_Namespace x | inr (inr (inr (inr (inr (inl x))))) => K8SResource_Node x | inr (inr (inr (inr (inr (inr (inl x)))))) => K8SResource_ReplicaSet x | inr (inr (inr (inr (inr (inr (inr (x))))))) => K8SResource_Deployment x end).
Defined.
#[export] Instance K8SResourceUpdate_countable : Countable K8SResourceUpdate.
Proof. record_countable kru_Update mkK8SResourceUpdate. Defined.
#[export] Instance MissingK8SMetadataRequest_countable : Countable MissingK8SMetadataRequest.
Proof.
  record_countable (λ x, (mreq_FromUpdateVersion x, mreq_ToUpdateVersion x, mreq_Selector x, mreq_CustomTopic x))
    (λ '(a, b, c, d), mkMissingK8SMetadataRequest a b c d).
Defined.
#[export] Instance MissingK8SMetadataResponse_countable : Countable MissingK8SMetadataResponse.
Proof.
  record_countable (λ x, (mresp_Updates x, mresp_FirstUpdateAvailable x, mresp_LastUpdateAvailable x))
    (λ '(a, b, c), mkMissingK8SMetadataResponse a b c).
Defined.
#[export] Instance K8SMetadataMessage_countable : Countable K8SMetadataMessage.
Proof.
  record_countable (λ x, match x with K8SMetadataUpdate x => inl x | MissingK8SMetadataRequestMsg x => inr (inl x) | MissingK8SMetadataResponseMsg x => inr (inr (x)) end)
    (λ x, match x with inl x => K8SMetadataUpdate x | inr (inl x) => MissingK8SMetadataRequestMsg x | inr (inr (x)) => MissingK8SMetadataResponseMsg x end).
Defined.
End MemK8sProto.
