(* ===== verification/K8sStore.v ===== *)
(** * The store of Kubernetes metadata

    [controllers/k8smeta/k8s_metadata_store.go]: the resource updates every agent
    is sent, in the order of their versions, and the labels of pods.  What a
    resource update contains does not matter here: the message types are
    parameters. *)

From S2P Require Import Prelude GoLib Datastore Uuid StoreLib MemStore Messages.
From Stdlib Require Import Ascii.

Definition fullResourceUpdatePrefix : string := "/fullResourceUpdate".
Definition topicResourceUpdatePrefix : string := "/resourceUpdate".
Definition topicVersionPrefix : string := "/topicVersion".
Definition labelPodUpdatePrefix : string := "/labelPodUpdate".
Definition podLabelUpdatePrefix : string := "/podLabelUpdate".
Definition unscopedTopic : string := "unscoped".

(** 24 hours. *)
Definition resourceUpdateTTL : Z := 24 * 3600 * nanos.

Definition getFullResourceUpdateKey (version : Z) : string :=
  path_Join [fullResourceUpdatePrefix; Sprintf_0d 20 version].
Definition getTopicResourceUpdateKey (topic : string) (version : Z) : string :=
  path_Join [topicResourceUpdatePrefix; topic; Sprintf_0d 20 version].
Definition getTopicVersionKey (topic : string) : string := path_Join [topicVersionPrefix; topic].
Definition getNSLabelPodUpdateKey (namespace labelKey podName : string) : string :=
  path_Join [labelPodUpdatePrefix; namespace; labelKey; podName].
Definition getNSLabelPrefixKey (namespace labelKey : string) : string :=
  path_Join [labelPodUpdatePrefix; namespace; labelKey].
Definition getNSPodUpdateKey (namespace podName : string) : string :=
  path_Join [podLabelUpdatePrefix; namespace; podName].

(** [strings.Split] never returns an empty slice. *)
Definition labelPodUpdateKeyToPodName (updateKey : string) : string :=
  default "" (last (split "/" updateKey)).

Definition resourceUpdateKeyToUpdateVersion (key : string) : error + Z :=
  match split "/" key with
  | [_; _; _; v] => ParseInt (TrimLeft v "0") 64
  | _ => inl (ErrMsg "Invalid key")
  end.

Section store.
Context {St : Type} `{!Datastore St}.
Context {K8SResourceUpdate K8SResource : Type} `{!Proto K8SResourceUpdate} `{!Proto K8SResource}.
(** The JSON encoding of a set of label keys, a map from strings to [true]. *)
Context {J : Proto (gmap string bool)}.

(** ** Resource updates *)

Definition AddResourceUpdateForTopic (updateVersion : Z) (topic : string) (resource : K8SResourceUpdate)
    : M St unit :=
  val ← lift_sum (Marshal resource);
  ds_SetWithTTL (getTopicResourceUpdateKey topic updateVersion) val resourceUpdateTTL.

Definition AddResourceUpdate (updateVersion : Z) (resource : K8SResourceUpdate) : M St unit :=
  AddResourceUpdateForTopic updateVersion unscopedTopic resource.

Definition AddFullResourceUpdate (updateVersion : Z) (resource : K8SResource) : M St unit :=
  val ← lift_sum (Marshal resource);
  ds_SetWithTTL (getFullResourceUpdateKey updateVersion) val resourceUpdateTTL.

(** The merge loop, on the keys and values not yet consumed.  Every iteration
    consumes one of them, so their number bounds the iterations; [None] when the
    bound is reached before the end. *)
Fixpoint merge_updates (fuel : nat) (t u : list (string * string)) (updates : list K8SResourceUpdate)
    : option (list K8SResourceUpdate) :=
  let append (bytes : string) :=
    match Unmarshal (A := K8SResourceUpdate) bytes with inl _ => updates | inr pb => updates ++ [pb] end in
  match t, u with
  | [], [] => Some updates
  | _, _ =>
    match fuel with
    | O => None
    | Datatypes.S fuel =>
      match match t with [] => inr (-1)%Z | kv :: _ => resourceUpdateKeyToUpdateVersion kv.1 end with
      | inl _ => merge_updates fuel (tail t) u updates
      | inr tVersion =>
        match match u with [] => inr (-1)%Z | kv :: _ => resourceUpdateKeyToUpdateVersion kv.1 end with
        | inl _ => merge_updates fuel t (tail u) updates
        | inr uVersion =>
          if ((tVersion =? -1) || negb (uVersion =? -1) && (uVersion <? tVersion))%Z then
            match u with
            | (_, v) :: u => merge_updates fuel t u (append v)
            | [] => None
            end
          else if ((uVersion =? -1) || (tVersion <? uVersion))%Z then
            match t with
            | (_, v) :: t => merge_updates fuel t u (append v)
            | [] => None
            end
          else
            match t with
            | (_, v) :: t => merge_updates fuel t (tail u) (append v)
            | [] => None
            end
        end
      end
    end
  end.

Definition FetchResourceUpdates (topic : string) (from to : Z) : M St (list K8SResourceUpdate) :=
  tkv ← ds_GetWithRange (getTopicResourceUpdateKey topic from) (getTopicResourceUpdateKey topic to);
  ukv ← ds_GetWithRange (getTopicResourceUpdateKey unscopedTopic from) (getTopicResourceUpdateKey unscopedTopic to);
  match merge_updates (length tkv.1 + length ukv.1) (zip tkv.1 tkv.2) (zip ukv.1 ukv.2) [] with
  | Some updates => mret updates
  | None => panic IndexOutOfRange
  end.

Definition FetchFullResourceUpdates (from to : Z) : M St (list K8SResource) :=
  kvs ← ds_GetWithRange (getFullResourceUpdateKey from) (getFullResourceUpdateKey to);
  mret (omap (λ u, match Unmarshal (A := K8SResource) u with inl _ => None | inr pb => Some pb end) kvs.2).

Definition GetUpdateVersion (topic : string) : M St Z :=
  val ← ds_Get (getTopicVersionKey topic);
  match val with
  | None | Some "" => mret 0%Z
  | Some v => lift_sum (ParseInt v 64)
  end.

Definition SetUpdateVersion (topic : string) (uv : Z) : M St unit :=
  ds_Set (getTopicVersionKey topic) (FormatInt uv).

(** ** Pod labels *)

Definition label_keys (b : option string) : M St (gmap string bool) :=
  match b with None => mret ∅ | Some b => lift_sum (Unmarshal b) end.

Fixpoint set_labels (namespace podName : string) (labels : list (string * string)) : M St unit :=
  match labels with
  | [] => mret tt
  | (k, v) :: labels =>
    _ ← ds_SetWithTTL (getNSLabelPodUpdateKey namespace k podName) v resourceUpdateTTL;
    set_labels namespace podName labels
  end.

(** [lo] and [ko] are the iteration orders of the maps of labels and keys. *)
Definition SetPodLabels (lo : gmap string string → list (string * string))
    (ko : gmap string bool → list (string * bool)) (namespace podName : string) (labels : gmap string string)
    : M St unit :=
  let nsPodKey := getNSPodUpdateKey namespace podName in
  b ← ds_Get nsPodKey;
  existingKeys ← label_keys b;
  _ ← set_labels namespace podName (lo labels);
  let keys : gmap string bool := (λ _, true) <$> labels in
  let keysToDelete := (λ kv, getNSLabelPodUpdateKey namespace kv.1 podName) <$>
    filter (λ kv, default false (keys !! kv.1) = false) (ko existingKeys) in
  _ ← (match keysToDelete with [] => mret tt | _ => ds_DeleteAll keysToDelete end);
  b ← lift_sum (Marshal keys);
  ds_SetWithTTL nsPodKey b resourceUpdateTTL.

Definition DeletePodLabels (ko : gmap string bool → list (string * bool)) (namespace podName : string)
    : M St unit :=
  let nsPodKey := getNSPodUpdateKey namespace podName in
  b ← ds_Get nsPodKey;
  match b with
  | None => mret tt
  | Some b =>
    labelKeys ← lift_sum (Unmarshal (A := gmap string bool) b);
    ds_DeleteAll (((λ kv, getNSLabelPodUpdateKey namespace kv.1 podName) <$> ko labelKeys) ++ [nsPodKey])
  end.

Definition FetchPodsWithLabelKey (namespace key : string) : M St (list string) :=
  kvs ← ds_GetWithPrefix (getNSLabelPrefixKey namespace key);
  mret (labelPodUpdateKeyToPodName <$> kvs.1).

Definition count_pods (lv : string) (kvs : list (string * string)) (pods : gmap string Z) : gmap string Z :=
  foldl (λ pods kv,
    if decide (lv ≠ kv.2) then pods
    else let podName := labelPodUpdateKeyToPodName kv.1 in
         <[podName := (default 0 (pods !! podName) + 1)%Z]> pods) pods kvs.

Fixpoint match_labels (namespace : string) (labels : list (string * string)) (pods : gmap string Z)
    : M St (gmap string Z) :=
  match labels with
  | [] => mret pods
  | (lk, lv) :: labels =>
    kvs ← ds_GetWithPrefix (getNSLabelPrefixKey namespace lk);
    match_labels namespace labels (count_pods lv (zip kvs.1 kvs.2) pods)
  end.

(** [lo] and [po] are the iteration orders of the labels and of the counted
    pods. *)
Definition FetchPodsWithLabels (lo : gmap string string → list (string * string))
    (po : gmap string Z → list (string * Z)) (namespace : string) (labels : gmap string string)
    : M St (list string) :=
  pods ← match_labels namespace (lo labels) ∅;
  mret (filter (λ kv, kv.2 = Z.of_nat (size labels)) (po pods)).*1.

Definition GetWithPrefix (prefix : string) : M St (list string * list string) := ds_GetWithPrefix prefix.
End store.

(** ** Keys in version order *)

(** A string between two strings with a common prefix has that prefix. *)
Lemma between_prefix p a b k :
  String.compare (p +:+ a) k ≠ Gt → String.compare k (p +:+ b) = Lt →
  ∃ c, k = p +:+ c ∧ String.compare a c ≠ Gt ∧ String.compare c b = Lt.
Proof.
  revert k. induction p as [|x p IH]; intros k H1 H2; [by exists k|].
  rewrite str_app_cons in H1, H2. destruct k as [|y k]; [done|]. simpl in H1, H2.
  destruct (Ascii.compare x y) eqn:E; [|by rewrite Ascii.compare_antisym, E in H2|done].
  rewrite Ascii.compare_antisym, E in H2. apply Ascii.compare_eq_iff in E as ->.
  destruct (IH k H1 H2) as (c & -> & Hc). by exists c.
Qed.

Lemma StronglySorted_fmap_inv {A B} (f : A → B) (R : relation A) (R' : relation B) l :
  (∀ x y, x ∈ l → y ∈ l → R' (f x) (f y) → R x y) → StronglySorted R' (f <$> l) → StronglySorted R l.
Proof.
  induction l as [|x l IH]; intros HR Hs; [constructor|]. rewrite fmap_cons in Hs.
  apply StronglySorted_inv in Hs as [Hs Hx]. constructor.
  - apply IH; [|done]. intros y z Hy Hz. apply HR; by right.
  - apply Forall_forall. intros y Hy. apply HR; [by left|by right|].
    by apply (proj1 (Forall_forall _ _) Hx), list_elem_of_fmap_2.
Qed.

Section versions.
Context (topic : string) (good_topic : good_comp topic = true).

Definition version_prefix : string := "/resourceUpdate/" +:+ topic +:+ "/".

Definition version_ok (v : Z) : Prop := (0 ≤ v ≤ 2 ^ 63)%Z.

Lemma version_key v :
  version_ok v → getTopicResourceUpdateKey topic v = version_prefix +:+ Sprintf_0d 20 v.
Proof using good_topic.
  intros Hv. unfold getTopicResourceUpdateKey, version_ok in *.
  assert (good_comp (Sprintf_0d 20 v) = true) as Hg.
  { pose proof (Sprintf_0d_val 20 v ltac:(lia)) as Ev. apply good_comp_spec.
    pose proof (length_Sprintf_0d 20 ltac:(lia) v ltac:(lia)) as Hl.
    split; [by eapply no_sep_digits|]. split_and!; intros E; rewrite E in Hl; done. }
  transitivity (mkkey (["resourceUpdate"] ++ [topic; Sprintf_0d 20 v])).
  - apply (path_Join_dir "resourceUpdate" ["resourceUpdate"]); [done|by repeat constructor|].
    apply Forall_cons. split; [done|by apply Forall_singleton].
  - unfold mkkey, version_prefix. cbn [app]. rewrite !join_cons2, !str_app_assoc. done.
Qed.

Lemma version_key_compare v w :
  version_ok v → version_ok w →
  String.compare (getTopicResourceUpdateKey topic v) (getTopicResourceUpdateKey topic w) = (v ?= w)%Z.
Proof using good_topic.
  intros Hv Hw. rewrite !version_key by done. rewrite str_compare_app.
  unfold version_ok in *. apply Sprintf_0d_compare; lia.
Qed.

Lemma version_of_key v :
  (0 < v < 2 ^ 63)%Z → resourceUpdateKeyToUpdateVersion (getTopicResourceUpdateKey topic v) = inr v.
Proof using good_topic.
  intros Hv. unfold resourceUpdateKeyToUpdateVersion.
  assert (no_sep "/" (Sprintf_0d 20 v) = true) as Hd by (eapply no_sep_digits, Sprintf_0d_val; lia).
  assert (no_sep "/" topic = true) as Ht by (by apply good_comp_spec in good_topic as [? _]).
  rewrite version_key by (unfold version_ok; lia). unfold version_prefix. rewrite !str_app_assoc.
  change ("/resourceUpdate/" +:+ topic +:+ "/" +:+ Sprintf_0d 20 v)
    with ("" +:+ String "/" ("resourceUpdate" +:+ String "/" (topic +:+ String "/" (Sprintf_0d 20 v)))).
  rewrite !split_app_sep, (split_no_sep _ topic), (split_no_sep _ (Sprintf_0d 20 v)) by done.
  change (split "/" "") with [""]. change (split "/" "resourceUpdate") with ["resourceUpdate"]. cbn [app].
  by apply ParseInt_trimmed.
Qed.
End versions.

(** ** Merging *)
Section merge.
Context {X : Type} `{!Proto X}.
Implicit Types (T U : gmap positive X) (vs ws zs : list positive).

(** Entries of the store for the versions [vs]. *)
Definition entries_ok T (e : positive → string * string) vs : Prop :=
  ∀ v, v ∈ vs → resourceUpdateKeyToUpdateVersion (e v).1 = inr (Zpos v) ∧
    ∃ x, T !! v = Some x ∧ Unmarshal (e v).2 = inr x.

Lemma entries_tail T e v vs : entries_ok T e (v :: vs) → entries_ok T e vs.
Proof. intros H w Hw. apply H. by right. Qed.

Lemma StronglySorted_lt_head v vs w : StronglySorted Pos.lt (v :: vs) → w ∈ vs → (v < w)%positive.
Proof. intros [_ H]%StronglySorted_inv Hw. by apply (proj1 (Forall_forall _ _) H). Qed.

Lemma StronglySorted_cons v vs :
  StronglySorted Pos.lt vs → (∀ w, w ∈ vs → (v < w)%positive) → StronglySorted Pos.lt (v :: vs).
Proof. intros Hs Hv. constructor; [done|]. by apply Forall_forall. Qed.

(** The result of the merge: all versions of both lists in order, an update of
    the topic before an unscoped one of the same version. *)
Definition merged T U vs ws (r : option (list X)) (acc : list X) : Prop :=
  ∃ zs, StronglySorted Pos.lt zs ∧ (∀ z, z ∈ zs ↔ z ∈ vs ∨ z ∈ ws) ∧
    r = Some (acc ++ omap (λ z, (T ∪ U) !! z) zs).

Lemma merged_cons T U vs ws vs' ws' z x r acc :
  merged T U vs' ws' r (acc ++ [x]) → (T ∪ U) !! z = Some x →
  (∀ w, w ∈ vs' ∨ w ∈ ws' → (z < w)%positive) → (∀ w, w ∈ vs ∨ w ∈ ws ↔ w = z ∨ w ∈ vs' ∨ w ∈ ws') →
  merged T U vs ws r acc.
Proof.
  intros (zs & Hs & Hz & ->) Hx Hlt Hin. exists (z :: zs). split_and!.
  - apply StronglySorted_cons; [done|]. intros w Hw. apply Hlt. by apply Hz.
  - intros w. rewrite elem_of_cons, Hin, Hz. done.
  - cbn. rewrite Hx. by rewrite <-app_assoc.
Qed.

(** What [merge_updates] does with some fuel. *)
Definition merges (fuel : nat) T U (et eu : positive → string * string) : Prop :=
  ∀ vs ws acc, length vs + length ws ≤ fuel → entries_ok T et vs → entries_ok U eu ws →
    StronglySorted Pos.lt vs → StronglySorted Pos.lt ws → (∀ w, w ∈ ws → w ∉ vs → T !! w = None) →
    merged T U vs ws (merge_updates fuel (et <$> vs) (eu <$> ws) acc) acc.

(** One step that takes an update of the topic: the unscoped updates are all
    later, but for one of the same version, which is dropped. *)
Lemma merges_take_topic fuel T U et eu v vs ws ws' x acc :
  merges fuel T U et eu → T !! v = Some x →
  (ws = ws' ∨ ws = v :: ws') → (∀ w, w ∈ ws' → (v < w)%positive) →
  length (v :: vs) + length ws' ≤ Datatypes.S fuel → entries_ok T et (v :: vs) → entries_ok U eu ws' →
  StronglySorted Pos.lt (v :: vs) → StronglySorted Pos.lt ws' → (∀ w, w ∈ ws → w ∉ v :: vs → T !! w = None) →
  merged T U (v :: vs) ws (merge_updates fuel (et <$> vs) (eu <$> ws') (acc ++ [x])) acc.
Proof.
  intros IH Hx Hws Hlt Hf Ht Hu Svs Sws Hd. eapply (merged_cons T U (v :: vs) ws vs ws' v x).
  - apply IH; [simpl in *; lia|by eapply entries_tail|done|by apply StronglySorted_inv in Svs as [? _]|done|].
    intros z Hz Hn. apply Hd; [destruct Hws as [->| ->]; [done|by right]|].
    intros [->|?]%elem_of_cons; [|done]. apply Hlt in Hz. lia.
  - by apply lookup_union_Some_l.
  - intros z [Hz|Hz]; [exact (StronglySorted_lt_head _ _ _ Svs Hz)|by apply Hlt].
  - intros z. destruct Hws as [->| ->]; rewrite ?elem_of_cons; tauto.
Qed.

(** One step that takes an unscoped update, earlier than all of the topic. *)
Lemma merges_take_unscoped fuel T U et eu w vs ws y acc :
  merges fuel T U et eu → U !! w = Some y → (∀ v, v ∈ vs → (w < v)%positive) →
  length vs + length (w :: ws) ≤ Datatypes.S fuel → entries_ok T et vs → entries_ok U eu (w :: ws) →
  StronglySorted Pos.lt vs → StronglySorted Pos.lt (w :: ws) → (∀ z, z ∈ w :: ws → z ∉ vs → T !! z = None) →
  merged T U vs (w :: ws) (merge_updates fuel (et <$> vs) (eu <$> ws) (acc ++ [y])) acc.
Proof.
  intros IH Hy Hlt Hf Ht Hu Svs Sws Hd. eapply (merged_cons T U vs (w :: ws) vs ws w y).
  - apply IH; [simpl in *; lia|done|by eapply entries_tail|done|by apply StronglySorted_inv in Sws as [? _]|].
    intros z Hz. apply Hd. by right.
  - rewrite lookup_union_r; [done|]. apply Hd; [by left|]. intros Hin. apply Hlt in Hin. lia.
  - intros z [Hz|Hz]; [by apply Hlt|exact (StronglySorted_lt_head _ _ _ Sws Hz)].
  - intros z. rewrite elem_of_cons. tauto.
Qed.

Lemma merge_updates_spec fuel T U et eu : merges fuel T U et eu.
Proof.
  induction fuel as [|fuel IH]; intros vs ws acc Hf Ht Hu Svs Sws Hd;
    (destruct vs as [|v vs]; [destruct ws as [|w ws];
      [exists []; split_and!; [constructor|set_solver|cbn; by rewrite app_nil_r]|]|]); [simpl in Hf; lia..| |].
  - destruct (Hu w ltac:(by left)) as (Ew & x & Hx & Eb). rewrite fmap_nil, fmap_cons. cbn [merge_updates].
    rewrite Ew. cbn [Z.eqb orb]. destruct (eu w) as [kw bw] eqn:Eeu. cbn [fst snd] in *. rewrite Eb.
    apply (merges_take_unscoped fuel T U et eu w []); try done. by intros z ?%not_elem_of_nil.
  - destruct (Ht v ltac:(by left)) as (Ev & x & Hx & Eb).
    rewrite fmap_cons. cbn [merge_updates]. rewrite Ev. destruct (et v) as [kv bv] eqn:Eet. cbn [fst snd] in *.
    destruct ws as [|w ws].
    { rewrite fmap_nil. cbn [Z.eqb negb andb orb]. rewrite Eb.
      apply (merges_take_topic fuel T U et eu v vs [] []); try done; [by left|by intros z ?%not_elem_of_nil]. }
    destruct (Hu w ltac:(by left)) as (Ew & y & Hy & Eby). rewrite fmap_cons, Ew.
    cbn [Z.eqb negb andb orb]. destruct (eu w) as [kw bw] eqn:Eeu. cbn [fst snd] in *.
    assert (∀ z, z ∈ ws → (w < z)%positive) as Hwz by (intros z; exact (StronglySorted_lt_head _ _ _ Sws)).
    assert (∀ z, z ∈ vs → (v < z)%positive) as Hvz by (intros z; exact (StronglySorted_lt_head _ _ _ Svs)).
    destruct (Z.ltb_spec (Zpos w) (Zpos v)) as [Hlt|Hge].
    + rewrite Eby, <-Eet, <-fmap_cons. apply merges_take_unscoped; try done.
      intros z [->|Hz%Hvz]%elem_of_cons; lia.
    + destruct (Z.ltb_spec (Zpos v) (Zpos w)) as [Hlt|Hge']; rewrite Eb.
      * rewrite <-Eeu, <-fmap_cons. apply merges_take_topic; try done; [by left|].
        intros z [->|Hz%Hwz]%elem_of_cons; lia.
      * assert (w = v) as -> by lia. apply merges_take_topic; try done.
        -- by right.
        -- simpl in *. lia.
        -- by eapply entries_tail.
        -- by apply StronglySorted_inv in Sws as [? _].
Qed.
End merge.

(** ** The store *)
Section facts.
Context {St : Type} `{!Datastore St} {view : St → gmap string string} {ok : St → Prop}.
Context `{!DatastoreSpec St view ok}.
Context {K8SResourceUpdate : Type} `{!Proto K8SResourceUpdate} `{!ProtoSpec K8SResourceUpdate}.
Implicit Types (s : St) (T U : gmap positive K8SResourceUpdate) (m : gmap string string).

(** The updates of a topic, by version. *)
Definition updates_rep m (topic : string) T : Prop :=
  (∀ v, (Zpos v < 2 ^ 63)%Z →
    match T !! v with
    | Some x => ∃ b, m !! getTopicResourceUpdateKey topic (Zpos v) = Some b ∧ Unmarshal b = inr x
    | None => m !! getTopicResourceUpdateKey topic (Zpos v) = None
    end) ∧
  (∀ k, HasPrefix k (version_prefix topic) = true → is_Some (m !! k) →
    ∃ v, (Zpos v < 2 ^ 63)%Z ∧ k = getTopicResourceUpdateKey topic (Zpos v)).

Lemma version_ok_pos v : (Zpos v < 2 ^ 63)%Z → version_ok (Zpos v).
Proof. unfold version_ok. lia. Qed.

Lemma key_in_range topic v from to :
  good_comp topic = true → (Zpos v < 2 ^ 63)%Z → version_ok from → version_ok to →
  in_range (getTopicResourceUpdateKey topic from) (getTopicResourceUpdateKey topic to)
    (getTopicResourceUpdateKey topic (Zpos v)) = true ↔ (from ≤ Zpos v < to)%Z.
Proof.
  intros Hg Hv Hf Ht. apply version_ok_pos in Hv. unfold in_range, str_leb, str_ltb, String.leb, String.ltb.
  rewrite !version_key_compare by done. rewrite andb_true_iff.
  destruct (Z.compare_spec from (Zpos v)), (Z.compare_spec (Zpos v) to); split; intros [? ?]; split; done || lia.
Qed.

(** The versions a range read lists, in order. *)
Lemma range_listing m topic T from to :
  good_comp topic = true → updates_rep m topic T → version_ok from → version_ok to →
  ∃ vs, (kv_range m (getTopicResourceUpdateKey topic from) (getTopicResourceUpdateKey topic to)).1 =
      (λ v, getTopicResourceUpdateKey topic (Zpos v)) <$> vs ∧
    StronglySorted Pos.lt vs ∧
    (∀ v, v ∈ vs ↔ (Zpos v < 2 ^ 63 ∧ from ≤ Zpos v < to)%Z ∧ is_Some (T !! v)).
Proof.
  intros Hg [H1 H2] Hf Ht. simpl. set (key := λ v, getTopicResourceUpdateKey topic (Zpos v)).
  set (ks := filter _ (sorted_keys m)).
  assert (∀ k, k ∈ ks → ∃ v, (Zpos v < 2 ^ 63 ∧ from ≤ Zpos v < to)%Z ∧ is_Some (T !! v) ∧ k = key v) as Hks.
  { intros k [Hr Hk]%list_elem_of_filter. apply elem_of_sorted_keys in Hk. pose proof Hr as Hr'.
    unfold in_range, str_leb, str_ltb, String.leb, String.ltb in Hr'. apply andb_true_iff in Hr' as [Ha Hb].
    rewrite !version_key in Ha, Hb by done.
    destruct (between_prefix (version_prefix topic) (Sprintf_0d 20 from) (Sprintf_0d 20 to) k) as (c & -> & _).
    { intros E. by rewrite E in Ha. }
    { destruct (String.compare k _); done. }
    destruct (H2 _ (HasPrefix_app _ _) Hk) as (v & Hv & E). exists v. rewrite E in Hr, Hk.
    apply key_in_range in Hr; [|done..]. split_and!; [done|lia|lia| |done].
    specialize (H1 v Hv). destruct (T !! v); [eauto|]. rewrite H1 in Hk. by destruct Hk. }
  assert (∃ vs, ks = key <$> vs ∧ ∀ v, v ∈ vs → (Zpos v < 2 ^ 63 ∧ from ≤ Zpos v < to)%Z ∧ is_Some (T !! v))
    as (vs & Hvs & Hin).
  { clear H1 H2. clearbody ks. induction ks as [|k ks IH]; [exists []; split; [done|by intros v ?%not_elem_of_nil]|].
    destruct (Hks k ltac:(by left)) as (v & Hv & HT & ->).
    destruct IH as (vs & -> & Hin); [intros k' Hk'; apply Hks; by right|].
    exists (v :: vs). split; [done|]. intros w [->|Hw]%elem_of_cons; auto. }
  exists vs. split; [done|]. split.
  - assert (StronglySorted String.le (key <$> vs)) as Hs.
    { rewrite <-Hvs. apply StronglySorted_filter, Sorted_sorted_keys. }
    assert (NoDup (key <$> vs)) as Hnd by (rewrite <-Hvs; apply NoDup_filter, NoDup_sorted_keys).
    assert (StronglySorted Pos.le vs) as Hle.
    { eapply StronglySorted_fmap_inv; [|exact Hs]. intros x y Hx%Hin Hy%Hin Hxy%str_leb_le.
      unfold str_leb, String.leb, key in Hxy. rewrite version_key_compare in Hxy by (done || apply version_ok_pos; lia).
      destruct (Z.compare_spec (Zpos x) (Zpos y)); [lia|lia|done]. }
    apply NoDup_fmap_1 in Hnd. clear -Hle Hnd.
    induction Hle as [|v vs Hs IH Hv]; [constructor|]. apply NoDup_cons in Hnd as [Hn Hnd].
    apply StronglySorted_cons; [by apply IH|]. intros w Hw. pose proof (proj1 (Forall_forall _ _) Hv w Hw).
    assert (v ≠ w) by (by intros ->). lia.
  - intros v. split; [apply Hin|]. intros ([Hb Hr] & HT).
    assert (key v ∈ ks) as Hk.
    { apply list_elem_of_filter. split; [by apply key_in_range|]. apply elem_of_sorted_keys.
      specialize (H1 v Hb). destruct HT as [x Hx]. rewrite Hx in H1. destruct H1 as (b & E & _).
      exists b. exact E. }
    rewrite Hvs in Hk. apply list_elem_of_fmap in Hk as (w & E & Hw). pose proof (Hin w Hw) as [[Hw' _] _].
    unfold key in E. assert (Zpos v = Zpos w) as [= ->]; [|done]. apply Z.compare_eq_iff.
    rewrite <-(version_key_compare topic) by (done || by apply version_ok_pos). rewrite E. apply str_compare_refl.
Qed.

Lemma range_entries m topic T from to :
  good_comp topic = true → updates_rep m topic T → version_ok from → version_ok to →
  ∃ vs e, let r := kv_range m (getTopicResourceUpdateKey topic from) (getTopicResourceUpdateKey topic to) in
    zip r.1 r.2 = e <$> vs ∧ length r.1 = length vs ∧ entries_ok T e vs ∧ StronglySorted Pos.lt vs ∧
    (∀ v, v ∈ vs ↔ (Zpos v < 2 ^ 63 ∧ from ≤ Zpos v < to)%Z ∧ is_Some (T !! v)).
Proof.
  intros Hg HT Hf Ht. destruct (range_listing m topic T from to Hg HT Hf Ht) as (vs & Hk & Hs & Hin).
  set (key := λ v, getTopicResourceUpdateKey topic (Zpos v)) in *.
  exists vs, (λ v, (key v, default "" (m !! key v))). cbv zeta.
  assert (∀ a b, (kv_range m a b).2 = lookup_values m (kv_range m a b).1) as -> by done.
  rewrite Hk. split; [|split; [by rewrite length_fmap|split; [|by split]]].
  - clear. induction vs as [|v vs IH]; [done|]. cbn. f_equal. exact IH.
  - intros v Hv. apply Hin in Hv as [[Hb _] [x Hx]]. split; [exact (version_of_key topic Hg (Zpos v) ltac:(lia))|]. exists x. split; [done|].
    pose proof (proj1 HT v Hb) as H. rewrite Hx in H. destruct H as (b & E & Hu). unfold key. cbn [snd]. by rewrite E.
Qed.

(** Fetching the updates of a topic returns the updates of the topic and the
    unscoped ones with versions from [from] up to, not including, [to], in the
    order of their versions, each version once; where both have an update of one
    version, the topic's. *)
Theorem FetchResourceUpdates_in_order s topic T U from to :
  ok s → good_comp topic = true → updates_rep (view s) topic T → updates_rep (view s) unscopedTopic U →
  (0 ≤ from ≤ 2 ^ 63)%Z → (0 ≤ to ≤ 2 ^ 63)%Z →
  ∃ vs, FetchResourceUpdates topic from to s = (Ret (omap (λ v, (T ∪ U) !! v) vs), s) ∧
    StronglySorted Pos.lt vs ∧
    ∀ v, v ∈ vs ↔ (Zpos v < 2 ^ 63 ∧ from ≤ Zpos v < to)%Z ∧ is_Some ((T ∪ U) !! v).
Proof.
  intros Hok Hg HT HU Hf Ht.
  assert (∀ t v, good_comp t = true → version_ok v → user_key (getTopicResourceUpdateKey t v) = true) as Huser.
  { intros t v Hgt Hv. rewrite version_key by done. apply user_key_cons. by eexists. }
  destruct (range_entries (view s) topic T from to Hg HT Hf Ht) as (vs & et & Evs & Lvs & Het & Svs & Hvs).
  destruct (range_entries (view s) unscopedTopic U from to eq_refl HU Hf Ht) as (ws & eu & Ews & Lws & Heu & Sws & Hws).
  assert (∀ z, is_Some ((T ∪ U) !! z) ↔ is_Some (T !! z) ∨ is_Some (U !! z)) as Hun.
  { intros z. rewrite lookup_union. destruct (T !! z), (U !! z); cbn; split; intros H; eauto; by destruct H. }
  destruct (merge_updates_spec (length vs + length ws) T U et eu vs ws []) as (zs & Szs & Hzs & E); try done.
  { intros w Hw Hn. apply Hws in Hw as [Hr _]. destruct (T !! w) as [x|] eqn:Ex; [|done].
    exfalso. apply Hn, Hvs. split; [done|]. by rewrite Ex. }
  exists zs. split_and!; [|done|intros z; rewrite Hzs, Hvs, Hws, Hun; tauto].
  unfold FetchResourceUpdates.
  run_with (spec_GetWithRange s _ _ Hok (Huser topic from Hg Hf) (Huser topic to Hg Ht)).
  run_with (spec_GetWithRange s _ _ Hok (Huser unscopedTopic from eq_refl Hf) (Huser unscopedTopic to eq_refl Ht)).
  cbv zeta in Evs, Lvs, Ews, Lws. rewrite Evs, Ews, Lvs, Lws, E. done.
Qed.

(** Adding an update. *)
Lemma updates_rep_insert m topic T v x b :
  good_comp topic = true → (Zpos v < 2 ^ 63)%Z → Unmarshal b = inr x → updates_rep m topic T →
  updates_rep (<[getTopicResourceUpdateKey topic (Zpos v) := b]> m) topic (<[v := x]> T).
Proof.
  intros Hg Hv Hb [H1 H2]. split.
  - intros w Hw. destruct (decide (w = v)) as [->|Hne]; [rewrite !lookup_insert_eq; eauto|].
    rewrite !lookup_insert_ne; [by apply H1| |done]. intros E. apply Hne.
    assert (Zpos v = Zpos w) as [= ->]; [|done]. apply Z.compare_eq_iff.
    rewrite <-(version_key_compare topic) by (done || by apply version_ok_pos). rewrite E. apply str_compare_refl.
  - intros k Hk. rewrite lookup_insert_is_Some'. intros [<-|Hs]; [eauto|]. by apply H2.
Qed.

Lemma AddResourceUpdateForTopic_spec s topic T v x :
  ok s → good_comp topic = true → updates_rep (view s) topic T → (Zpos v < 2 ^ 63)%Z →
  wp (AddResourceUpdateForTopic (Zpos v) topic x)
    (λ _ s', ok s' ∧ updates_rep (view s') topic (<[v := x]> T)) s.
Proof.
  intros Hok Hg HT Hv. unfold AddResourceUpdateForTopic. destruct (proto_roundtrip x) as (b & -> & Hb).
  apply wp_bind, wp_lift_inr. apply wp_SetWithTTL; [done| |].
  { rewrite version_key by (done || by apply version_ok_pos). apply user_key_cons. by eexists. }
  intros s' Hok' Hview. split; [done|]. rewrite Hview. by apply updates_rep_insert.
Qed.
End facts.

(** ** Labels *)
Section labels.
Context {St : Type} `{!Datastore St} {view : St → gmap string string} {ok : St → Prop}.
Context `{!DatastoreSpec St view ok}.
Implicit Types s : St.

Lemma label_prefix_mkkey ns k :
  good_comp ns = true → good_comp k = true → getNSLabelPrefixKey ns k = mkkey ["labelPodUpdate"; ns; k].
Proof. intros Hn Hk. apply (path_Join_dir "labelPodUpdate" ["labelPodUpdate"]); by repeat constructor. Qed.

Lemma label_key_mkkey ns k pod :
  good_comp ns = true → good_comp k = true → good_comp pod = true →
  getNSLabelPodUpdateKey ns k pod = mkkey ["labelPodUpdate"; ns; k; pod].
Proof. intros Hn Hk Hp. apply (path_Join_dir "labelPodUpdate" ["labelPodUpdate"]); by repeat constructor. Qed.

Lemma pod_of_label_key ns k pod :
  good_comp ns = true → good_comp k = true → good_comp pod = true →
  labelPodUpdateKeyToPodName (getNSLabelPodUpdateKey ns k pod) = pod.
Proof.
  intros Hn Hk Hp. rewrite label_key_mkkey by done. unfold labelPodUpdateKeyToPodName.
  rewrite split_mkkey; [done|done|].
  apply Forall_cons. split; [done|]. repeat (apply Forall_cons; split); [..|constructor];
    by eapply good_comp_spec.
Qed.

(** The prefix of a label key has no trailing slash: a pod whose label key only
    starts with the requested one is found for it. *)
Theorem longer_label_key_matches s lo po ns k t pod v :
  ok s → good_comp ns = true → good_comp k = true → good_comp (k +:+ t) = true → good_comp pod = true →
  (∀ m, lo m ≡ₚ map_to_list m) → (∀ m, po m ≡ₚ map_to_list m) →
  view s = {[getNSLabelPodUpdateKey ns (k +:+ t) pod := v]} →
  FetchPodsWithLabels lo po ns {[k := v]} s = (Ret [pod], s).
Proof.
  intros Hok Hn Hk Hkt Hp Hlo Hpo Hv. unfold FetchPodsWithLabels.
  specialize (Hlo {[k := v]}). rewrite map_to_list_singleton in Hlo. apply Permutation_singleton_r in Hlo as ->.
  set (key := getNSLabelPodUpdateKey ns (k +:+ t) pod) in *.
  assert (kv_prefix (view s) (getNSLabelPrefixKey ns k) = ([key], [v])) as Ekv.
  { unfold kv_prefix. rewrite Hv. unfold sorted_keys. rewrite map_to_list_singleton.
    change (merge_sort String.le [(key, v)].*1) with [key]. rewrite filter_cons_True.
    - rewrite filter_nil. unfold lookup_values. rewrite fmap_cons, lookup_singleton_eq. done.
    - unfold key. rewrite label_key_mkkey, label_prefix_mkkey by done. apply HasPrefix_spec.
      exists (t +:+ "/" +:+ pod). unfold mkkey. rewrite !join_cons2, !str_app_assoc. done. }
  assert (match_labels ns [(k, v)] ∅ s = (Ret {[pod := 1%Z]}, s)) as E.
  { cbn [match_labels]. rewrite (bind_ret _ _ _ _ _ (spec_GetWithPrefix s (getNSLabelPrefixKey ns k) Hok
      ltac:(rewrite label_prefix_mkkey by done; apply user_key_mkkey))).
    rewrite Ekv. cbn [fst snd zip zip_with count_pods foldl]. rewrite decide_False by (by intros H).
    unfold key. by rewrite pod_of_label_key. }
  run_with E. specialize (Hpo {[pod := 1%Z]}). rewrite map_to_list_singleton in Hpo.
  apply Permutation_singleton_r in Hpo as ->. rewrite map_size_singleton. done.
Qed.
End labels.

(** ** Instances on the concrete datastore *)
Module MemK8s.
Export MemStore.Mem MemUuid MemProto.

(** Updates that are strings. *)
Lemma no_updates_rep (topic : string) : updates_rep (K8SResourceUpdate := string) (view (store ∅)) topic ∅.
Proof.
  rewrite view_empty. split; [done|]. intros k _ [? ?]. done.
Qed.
End MemK8s.
Import MemK8s.

Lemma FetchResourceUpdates_in_order_witness :
  ∃ (s : St) vs, FetchResourceUpdates (K8SResourceUpdate := string) "10.0.0.1" 0 9 s =
      (Ret (omap (λ v, ({[3%positive := "pod"]} : gmap positive string) !! v) vs), s) ∧
    ∀ v, v ∈ vs ↔ v = 3%positive.
Proof.
  destruct (proj1 (wp_run _ _ _) (AddResourceUpdateForTopic_spec (view := view) (ok := ok) (store ∅) "10.0.0.1"
    ∅ 3 "pod" (store_ok ∅) eq_refl (no_updates_rep _) ltac:(lia))) as ([] & s & E & Hok & HT).
  assert (updates_rep (K8SResourceUpdate := string) (view s) unscopedTopic ∅) as HU.
  { unfold AddResourceUpdateForTopic in E. cbn [Marshal count_proto lift_sum] in E.
    destruct (spec_SetWithTTL (view := view) (ok := ok) (store ∅) (getTopicResourceUpdateKey "10.0.0.1" 3)
      (MemProto.bits (encode "pod")) resourceUpdateTTL (store_ok ∅) eq_refl) as (s' & E' & _ & Hv).
    change (ds_SetWithTTL (getTopicResourceUpdateKey "10.0.0.1" 3) (MemProto.bits (encode "pod")) resourceUpdateTTL (store ∅)
      = (Ret tt, s)) in E. rewrite E' in E. injection E as ->. rewrite Hv, view_empty, insert_empty. split.
    - intros v Hv3. rewrite lookup_empty. apply lookup_singleton_None. rewrite !version_key by
        (done || unfold version_ok; lia). done.
    - intros k Hk [b [<- _]%lookup_singleton_Some]. vm_compute in Hk. done. }
  destruct (FetchResourceUpdates_in_order (view := view) (ok := ok) s "10.0.0.1" (<[3%positive := "pod"]> ∅) ∅ 0 9
    Hok eq_refl HT HU) as (vs & Ef & _ & Hvs); [lia|lia|].
  rewrite map_union_empty, insert_empty in *. exists s, vs. split; [exact Ef|].
  intros v. rewrite Hvs. split.
  - intros [_ [x [<- _]%lookup_singleton_Some]]. done.
  - intros ->. split; [lia|]. by rewrite lookup_singleton_eq.
Defined.

Lemma longer_label_key_matches_witness :
  ∃ s : St, FetchPodsWithLabels map_to_list map_to_list "default" {["app" := "web"]} s = (Ret ["pod-1"], s).
Proof.
  destruct (spec_Set (view := view) (ok := ok) (store ∅) (getNSLabelPodUpdateKey "default" "app2" "pod-1") "web"
    (store_ok ∅) eq_refl) as (s & _ & Hok & Hv). exists s.
  apply (longer_label_key_matches (view := view) (ok := ok) s map_to_list map_to_list "default" "app" "2" "pod-1" "web");
    [done..|]. by rewrite Hv, view_empty, insert_empty.
Defined.
