(* ===== verification/K8sHandler.v ===== *)
(** * The Kubernetes metadata handler

    [controllers/k8smeta/k8s_metadata_handler.go]: every resource event becomes
    one or more updates with consecutive versions, which are stored and sent to
    Kelvin and to the agents concerned.  One processor per type of resource
    decides what is valid, stored and sent.

    A message and what it points to is passed by value: an operation that changes
    it returns the changed message.  [now] and [now'] are the readings of the
    clock of one event. *)

From S2P Require Import Prelude GoLib Datastore Uuid Messages MessageBus StoreLib GoNet ServiceCIDR K8sMessages K8sStore.
From Stdlib Require Import Ascii.

Definition KelvinUpdateTopic : string := "all".
Definition K8sMetadataUpdateChannel : string := "K8sUpdates".

Definition getK8sUpdateChannel (topic : string) : string :=
  let topic := if decide (topic = "") then KelvinUpdateTopic else topic in
  path_Join [K8sMetadataUpdateChannel; topic].

Definition MetadataUpdatesTopic : string := V2CTopic "DurableMetadataUpdates".

(** [watch.EventType]. *)
Definition watch_Added : string := "ADDED".
Definition watch_Modified : string := "MODIFIED".
Definition watch_Deleted : string := "DELETED".

(** [Object] is [None] for a nil object and for one with no resource set: the
    getters return nil for both. *)
Record K8sResourceMessage := mkK8sResourceMessage {
  Object : option K8SResource;
  ObjectType : string;
  EventType : string
}.

Record OutgoingUpdate := mkOutgoingUpdate { ou_Update : ResourceUpdate; ou_Topics : list string }.

Record StoredUpdate := mkStoredUpdate { sup_Update : K8SResource; sup_UpdateVersion : Z }.

(** What is sent to the cloud, packed in a [V2CMessage]. *)
Inductive V2CMessage : Type :=
| V2C_ResourceUpdate (u : ResourceUpdate)
| V2C_MissingResponse (r : MissingK8SMetadataResponse).

Record ProcessorState := mkProcessorState {
  LeaderMsgs : gmap string Endpoints;
  ServiceCIDR : option IPNet;
  PodCIDRs : list string;
  NodeToIP : gmap string string;
  PodToIP : gmap string string
}.

Definition with_LeaderMsgs x st := mkProcessorState x (ServiceCIDR st) (PodCIDRs st) (NodeToIP st) (PodToIP st).
Definition with_ServiceCIDR x st := mkProcessorState (LeaderMsgs st) x (PodCIDRs st) (NodeToIP st) (PodToIP st).
Definition with_PodCIDRs x st := mkProcessorState (LeaderMsgs st) (ServiceCIDR st) x (NodeToIP st) (PodToIP st).
Definition with_NodeToIP x st := mkProcessorState (LeaderMsgs st) (ServiceCIDR st) (PodCIDRs st) x (PodToIP st).
Definition with_PodToIP x st := mkProcessorState (LeaderMsgs st) (ServiceCIDR st) (PodCIDRs st) (NodeToIP st) x.

(** The interface of the processors. *)
Record UpdateProcessor := mkUpdateProcessor {
  SetDeleted : Z → Z → option K8SResource → M ProcessorState (option K8SResource);
  ValidateUpdate : option K8SResource → M ProcessorState (bool * option K8SResource);
  GetStoredProtos : option K8SResource → M ProcessorState (list K8SResource);
  IsNodeScoped : bool;
  GetUpdatesToSend : list StoredUpdate → M ProcessorState (list OutgoingUpdate)
}.

(** The getters of the [oneof] of a resource. *)
Definition GetEndpoints (r : option K8SResource) : option Endpoints :=
  match r with Some (K8SResource_Endpoints x) => Some x | _ => None end.
Definition GetService (r : option K8SResource) : option Service :=
  match r with Some (K8SResource_Service x) => Some x | _ => None end.
Definition GetPod (r : option K8SResource) : option Pod :=
  match r with Some (K8SResource_Pod x) => Some x | _ => None end.
Definition GetContainer (r : option K8SResource) : option ContainerUpdate :=
  match r with Some (K8SResource_Container x) => Some x | _ => None end.
Definition GetNode (r : option K8SResource) : option Node :=
  match r with Some (K8SResource_Node x) => Some x | _ => None end.
Definition GetNamespace (r : option K8SResource) : option Namespace :=
  match r with Some (K8SResource_Namespace x) => Some x | _ => None end.
Definition GetReplicaSet (r : option K8SResource) : option ReplicaSet :=
  match r with Some (K8SResource_ReplicaSet x) => Some x | _ => None end.
Definition GetDeployment (r : option K8SResource) : option Deployment :=
  match r with Some (K8SResource_Deployment x) => Some x | _ => None end.

(** [int32] of an [int64]. *)
Definition to_int32 (z : Z) : Z := ((z + 2 ^ 31) mod 2 ^ 32 - 2 ^ 31)%Z.

Definition setDeleted (now : Z) (objMeta : ObjectMetadata) : ObjectMetadata :=
  if (md_DeletionTimestampNS objMeta =? 0)%Z
  then mkObjectMetadata (md_Name objMeta) (md_Namespace objMeta) (md_UID objMeta) (md_ResourceVersion objMeta)
    (md_CreationTimestampNS objMeta) now (md_Labels objMeta) (md_OwnerReferences objMeta) (md_Annotations objMeta)
  else objMeta.

(** [setDeleted] through the pointer of an object. *)
Definition setDeletedPtr {S} (now : Z) (p : option ObjectMetadata) : M S (option ObjectMetadata) :=
  m ← deref p; mret (Some (setDeleted now m)).

(** ** Containers *)

(** [strings.SplitN(cid, "://", 2)]. *)
Fixpoint splitScheme (cid : string) : option (string * string) :=
  match cid with
  | String ":" (String "/" (String "/" rest)) => Some ("", rest)
  | "" => None
  | String c cid => match splitScheme cid with Some (a, b) => Some (String c a, b) | None => None end
  end.

Definition formatContainerID (cid : string) : ContainerType * string :=
  match splitScheme cid with
  | None => (CONTAINER_TYPE_UNKNOWN, cid)
  | Some (scheme, id) =>
    (if decide (scheme = "cri-o") then CONTAINER_TYPE_CRIO
     else if decide (scheme = "docker") then CONTAINER_TYPE_DOCKER
     else if decide (scheme = "containerd") then CONTAINER_TYPE_CONTAINERD
     else CONTAINER_TYPE_DOCKER, id)
  end.

Definition GetContainerUpdatesFromPod {S} (pod : Pod) : M S (list ContainerUpdate) :=
  status ← deref (pod_Status pod);
  match pst_ContainerStatuses status with
  | [] => mret []
  | statuses =>
    md ← deref (pod_Metadata pod);
    mret ((λ s, let '(cType, cID) := formatContainerID (cst_ContainerID s) in
      mkContainerUpdate cID (cst_Name s) (cst_StartTimestampNS s) (cst_StopTimestampNS s) (md_Namespace md)
        (md_UID md) (md_Name md) (cst_ContainerState s) (cst_Message s) (cst_Reason s) cType) <$> statuses)
  end.

(** ** What is sent for a resource *)

Definition getResourceUpdateFromNamespace {S} (ns : Namespace) (uv : Z) : M S ResourceUpdate :=
  md ← deref (ns_Metadata ns);
  mret (mkResourceUpdate (ResourceUpdate_NamespaceUpdate
    (mkNamespaceUpdate (md_UID md) (md_Name md) (md_CreationTimestampNS md) (md_DeletionTimestampNS md))) uv 0).

Definition getServiceResourceUpdateFromEndpoint {S} (ep : Endpoints) (uv : Z) (podIDs podNames : list string)
    : M S ResourceUpdate :=
  md ← deref (ep_Metadata ep);
  mret (mkResourceUpdate (ResourceUpdate_ServiceUpdate
    (mkServiceUpdate (md_UID md) (md_Name md) (md_Namespace md) (md_CreationTimestampNS md)
      (md_DeletionTimestampNS md) podIDs podNames [] "")) uv 0).

(** [json_labels] is the JSON encoding of the labels. *)
Definition getResourceUpdateFromPod {S} (json_labels : gmap string string → string) (pod : Pod) (uv : Z)
    : M S ResourceUpdate :=
  status ← deref (pod_Status pod);
  md ← deref (pod_Metadata pod);
  let containerIDs := (λ s, (formatContainerID (cst_ContainerID s)).2) <$> pst_ContainerStatuses status in
  let containerNames := cst_Name <$> pst_ContainerStatuses status in
  let '(podName, hostname) :=
    match pod_Spec pod with Some spec => (ps_NodeName spec, ps_Hostname spec) | None => ("", "") end in
  let podLabels := match md_Labels md with Some labels => json_labels labels | None => "" end in
  mret (mkResourceUpdate (ResourceUpdate_PodUpdate
    (mkPodUpdate (md_UID md) (md_Name md) (md_Namespace md) (md_CreationTimestampNS md) (md_DeletionTimestampNS md)
      containerIDs containerNames (pst_QOSClass status) (pst_Phase status) (pst_Conditions status) podName hostname
      (pst_PodIP status) (pst_HostIP status) (pst_Message status) (pst_Reason status) podLabels
      (md_OwnerReferences md))) uv 0).

Definition getResourceUpdateFromNode {S} (node : Node) (uv : Z) : M S ResourceUpdate :=
  md ← deref (node_Metadata node);
  status ← deref (node_Status node);
  spec ← deref (node_Spec node);
  mret (mkResourceUpdate (ResourceUpdate_NodeUpdate
    (mkNodeUpdate (md_UID md) (md_Name md) (md_CreationTimestampNS md) (md_DeletionTimestampNS md)
      (nst_Phase status) (nsp_PodCIDR spec) (nsp_PodCIDRs spec) (nst_Conditions status))) uv 0).

Definition getResourceUpdateFromReplicaSet {S} (rs : ReplicaSet) (uv : Z) : M S ResourceUpdate :=
  md ← deref (rs_Metadata rs);
  status ← deref (rs_Status rs);
  spec ← deref (rs_Spec rs);
  mret (mkResourceUpdate (ResourceUpdate_ReplicaSetUpdate
    (mkReplicaSetUpdate (md_UID md) (md_Name md) (md_CreationTimestampNS md) (md_DeletionTimestampNS md)
      (md_Namespace md) (rst_Replicas status) (rst_FullyLabeledReplicas status) (rst_ReadyReplicas status)
      (rst_AvailableReplicas status) (to_int32 (rst_ObservedGeneration status)) (rsp_Replicas spec)
      (rst_Conditions status) (md_OwnerReferences md))) uv 0).

Definition getResourceUpdateFromDeployment {S} (dep : Deployment) (uv : Z) : M S ResourceUpdate :=
  md ← deref (dep_Metadata dep);
  status ← deref (dep_Status dep);
  spec ← deref (dep_Spec dep);
  mret (mkResourceUpdate (ResourceUpdate_DeploymentUpdate
    (mkDeploymentUpdate (md_UID md) (md_Name md) (md_CreationTimestampNS md) (md_DeletionTimestampNS md)
      (md_Namespace md) (to_int32 (dst_ObservedGeneration status)) (dst_Replicas status) (dst_UpdatedReplicas status)
      (dst_ReadyReplicas status) (dst_AvailableReplicas status) (dst_UnavailableReplicas status)
      (dsp_Replicas spec) (dst_Conditions status))) uv 0).

(** ** Endpoints *)
Module EndpointsUpdateProcessor.
Section processor.
(** The order in which a map is ranged over. *)
Context (ip_order : gmap string (list string) → list (string * list string)).

Definition SetDeleted (now now' : Z) (obj : option K8SResource) : M ProcessorState (option K8SResource) :=
  match GetEndpoints obj with
  | None => mret obj
  | Some e =>
    md ← setDeletedPtr now (ep_Metadata e);
    mret (Some (K8SResource_Endpoints (mkEndpoints md (ep_Subsets e))))
  end.

Definition leaderAnnotation : string := "control-plane.alpha.kubernetes.io/leader".

(** The annotation is deleted and the resource version reset. *)
Definition strip_leader (md : ObjectMetadata) (annotations : gmap string string) : ObjectMetadata :=
  mkObjectMetadata (md_Name md) (md_Namespace md) (md_UID md) "0" (md_CreationTimestampNS md)
    (md_DeletionTimestampNS md) (md_Labels md) (md_OwnerReferences md) (Some (delete leaderAnnotation annotations)).

(** There is a first address, and it has a node. *)
Definition has_node (e : Endpoints) : bool :=
  match ep_Subsets e with
  | subset :: _ =>
    match es_Addresses subset with
    | addr :: _ => negb (bool_decide (ea_NodeName addr = ""))
    | [] => false
    end
  | [] => false
  end.

Definition ValidateUpdate (obj : option K8SResource) : M ProcessorState (bool * option K8SResource) :=
  match GetEndpoints obj with
  | None => mret (false, obj)
  | Some e =>
    md ← deref (ep_Metadata e);
    let leader := match md_Annotations md with
      | Some annotations => if decide (is_Some (annotations !! leaderAnnotation)) then Some annotations else None
      | None => None
      end in
    match leader with
    | None => mret (has_node e, obj)
    | Some annotations =>
      let e := mkEndpoints (Some (strip_leader md annotations)) (ep_Subsets e) in
      let obj := Some (K8SResource_Endpoints e) in
      st ← get_state;
      match LeaderMsgs st !! md_UID md with
      | Some storedMsg =>
        if decide (e = storedMsg) then mret (false, obj) else mret (has_node e, obj)
      | None =>
        _ ← modify (with_LeaderMsgs (<[md_UID md := e]> (LeaderMsgs st)));
        mret (has_node e, obj)
      end
    end
  end.

Definition GetStoredProtos (obj : option K8SResource) : M ProcessorState (list K8SResource) :=
  mret (option_list obj).

(** The references to pods among the addresses, in order. *)
Definition pod_refs (pb : Endpoints) : list ObjectReference :=
  filter (λ r, ref_Kind r = "Pod") (omap ea_TargetRef (ep_Subsets pb ≫= es_Addresses)).

(** A map of slices with one more element under a key. *)
Definition append_at (ip x : string) (m : gmap string (list string)) : gmap string (list string) :=
  <[ip := default [] (m !! ip) ++ [x]]> m.

(** The loop over the addresses: the maps from IPs to the names and to the UIDs of
    the pods whose IP is known. *)
Fixpoint group_by_ip (podToIP : gmap string string) (refs : list ObjectReference)
    (names uids : gmap string (list string)) : gmap string (list string) * gmap string (list string) :=
  match refs with
  | [] => (names, uids)
  | r :: refs =>
    match podToIP !! (ref_Namespace r +:+ "/" +:+ ref_Name r) with
    | None => group_by_ip podToIP refs names uids
    | Some ip => group_by_ip podToIP refs (append_at ip (ref_Name r) names) (append_at ip (ref_UID r) uids)
    end
  end.

Fixpoint ip_updates (pb : Endpoints) (rv : Z) (uids : gmap string (list string))
    (ips : list (string * list string)) : M ProcessorState (list OutgoingUpdate) :=
  match ips with
  | [] => mret []
  | (ip, names) :: ips =>
    u ← getServiceResourceUpdateFromEndpoint pb rv (default [] (uids !! ip)) names;
    us ← ip_updates pb rv uids ips;
    mret (mkOutgoingUpdate u [ip] :: us)
  end.

Definition GetUpdatesToSend (storedUpdates : list StoredUpdate) : M ProcessorState (list OutgoingUpdate) :=
  match storedUpdates with
  | [] => mret []
  | u :: _ =>
    let rv := sup_UpdateVersion u in
    pb ← deref (GetEndpoints (Some (sup_Update u)));
    st ← get_state;
    let refs := pod_refs pb in
    let '(ipToPodNames, ipToPodUIDs) := group_by_ip (PodToIP st) refs ∅ ∅ in
    updates ← ip_updates pb rv ipToPodUIDs (ip_order ipToPodNames);
    kelvin ← getServiceResourceUpdateFromEndpoint pb rv (ref_UID <$> refs) (ref_Name <$> refs);
    mret (updates ++ [mkOutgoingUpdate kelvin [KelvinUpdateTopic]])
  end.

Definition processor : UpdateProcessor :=
  mkUpdateProcessor SetDeleted ValidateUpdate GetStoredProtos true GetUpdatesToSend.
End processor.
End EndpointsUpdateProcessor.

(** ** Services *)
Module ServiceUpdateProcessor.
Definition SetDeleted (now now' : Z) (obj : option K8SResource) : M ProcessorState (option K8SResource) :=
  match GetService obj with
  | None => mret obj
  | Some e =>
    md ← setDeletedPtr now (svc_Metadata e);
    mret (Some (K8SResource_Service (mkService md (svc_Spec e))))
  end.

Definition updateServiceCIDR (svc : Service) : M ProcessorState unit :=
  spec ← deref (svc_Spec svc);
  st ← get_state;
  match add_service_ip (ServiceCIDR st) (To16 (ParseIP (ss_ClusterIP spec))) with
  | Some cidr => modify (with_ServiceCIDR cidr)
  | None => panic Hang
  end.

Definition ValidateUpdate (obj : option K8SResource) : M ProcessorState (bool * option K8SResource) :=
  match GetService obj with
  | None => mret (false, obj)
  | Some e => _ ← updateServiceCIDR e; mret (true, obj)
  end.

Definition GetStoredProtos (obj : option K8SResource) : M ProcessorState (list K8SResource) :=
  mret (option_list obj).

Definition GetUpdatesToSend (storedUpdates : list StoredUpdate) : M ProcessorState (list OutgoingUpdate) :=
  match storedUpdates with
  | [] => mret []
  | u :: _ =>
    service ← deref (GetService (Some (sup_Update u)));
    md ← deref (svc_Metadata service);
    spec ← deref (svc_Spec service);
    mret [mkOutgoingUpdate (mkResourceUpdate (ResourceUpdate_ServiceUpdate
      (mkServiceUpdate (md_UID md) (md_Name md) (md_Namespace md) 0 0 [] [] (ss_ExternalIPs spec) (ss_ClusterIP spec)))
      (sup_UpdateVersion u) 0) [KelvinUpdateTopic]]
  end.

Definition processor : UpdateProcessor :=
  mkUpdateProcessor SetDeleted ValidateUpdate GetStoredProtos false GetUpdatesToSend.
End ServiceUpdateProcessor.

(** ** Pods *)
Module PodUpdateProcessor.
Section processor.
(** [cidrman.MergeCIDRs], a third-party function, and the JSON encoding of labels. *)
Context (MergeCIDRs : list string → error + list string) (json_labels : gmap string string → string).

(** The time at which every container of the pod stopped. *)
Definition stop_containers (now : Z) (status : PodStatus) : PodStatus :=
  mkPodStatus (pst_Phase status) (pst_Conditions status) (pst_Message status) (pst_Reason status) (pst_HostIP status)
    (pst_PodIP status) (pst_QOSClass status)
    ((λ s, mkContainerStatus (cst_Name s) (cst_ContainerID s) (cst_ContainerState s) (cst_StartTimestampNS s) now
      (cst_Message s) (cst_Reason s) (cst_RestartCount s)) <$> pst_ContainerStatuses status)
    (pst_RestartCount status).

Definition SetDeleted (now now' : Z) (obj : option K8SResource) : M ProcessorState (option K8SResource) :=
  match GetPod obj with
  | None => mret obj
  | Some e =>
    md ← setDeletedPtr now (pod_Metadata e);
    status ← deref (pod_Status e);
    mret (Some (K8SResource_Pod (mkPod md (pod_Spec e) (Some (stop_containers now' status)))))
  end.

Definition updatePodCIDR (pod : Pod) : M ProcessorState unit :=
  status ← deref (pod_Status pod);
  if decide (pst_PodIP status = "") then mret tt
  else
    st ← get_state;
    match MergeCIDRs (PodCIDRs st ++ [pst_PodIP status +:+ "/32"]) with
    | inl _ => mret tt
    | inr mergedCIDRs => modify (with_PodCIDRs mergedCIDRs)
    end.

Definition ValidateUpdate (obj : option K8SResource) : M ProcessorState (bool * option K8SResource) :=
  match GetPod obj with
  | None => mret (false, obj)
  | Some e =>
    _ ← updatePodCIDR e;
    md ← deref (pod_Metadata e);
    let podName := md_Namespace md +:+ "/" +:+ md_Name md in
    _ ← (if negb (md_DeletionTimestampNS md =? 0)%Z
         then modify (λ st, with_PodToIP (delete podName (PodToIP st)) st)
         else
           status ← deref (pod_Status e);
           modify (λ st, with_PodToIP (<[podName := pst_HostIP status]> (PodToIP st)) st));
    mret (true, obj)
  end.

Definition GetStoredProtos (obj : option K8SResource) : M ProcessorState (list K8SResource) :=
  pb ← deref (GetPod obj);
  containerUpdates ← GetContainerUpdatesFromPod pb;
  mret ((K8SResource_Container <$> containerUpdates) ++ option_list obj).

Fixpoint pod_updates (topics : list string) (storedUpdates : list StoredUpdate)
    : M ProcessorState (list OutgoingUpdate) :=
  match storedUpdates with
  | [] => mret []
  | u :: us =>
    match GetContainer (Some (sup_Update u)) with
    | Some containerUpdate =>
      rest ← pod_updates topics us;
      mret (mkOutgoingUpdate (mkResourceUpdate (ResourceUpdate_ContainerUpdate containerUpdate)
        (sup_UpdateVersion u) 0) topics :: rest)
    | None =>
      match GetPod (Some (sup_Update u)) with
      | Some podUpdate =>
        ru ← getResourceUpdateFromPod json_labels podUpdate (sup_UpdateVersion u);
        rest ← pod_updates topics us;
        mret (mkOutgoingUpdate ru topics :: rest)
      | None => pod_updates topics us
      end
    end
  end.

Definition GetUpdatesToSend (storedUpdates : list StoredUpdate) : M ProcessorState (list OutgoingUpdate) :=
  match last storedUpdates with
  | None => mret []
  | Some u =>
    topics ← match GetPod (Some (sup_Update u)) with
      | Some pod => status ← deref (pod_Status pod); mret [KelvinUpdateTopic; pst_HostIP status]
      | None => mret [KelvinUpdateTopic]
      end;
    pod_updates topics storedUpdates
  end.

Definition processor : UpdateProcessor :=
  mkUpdateProcessor SetDeleted ValidateUpdate GetStoredProtos true GetUpdatesToSend.
End processor.
End PodUpdateProcessor.

(** ** Nodes *)
Module NodeUpdateProcessor.
Definition SetDeleted (now now' : Z) (obj : option K8SResource) : M ProcessorState (option K8SResource) :=
  match GetNode obj with
  | None => mret obj
  | Some e =>
    md ← setDeletedPtr now (node_Metadata e);
    mret (Some (K8SResource_Node (mkNode md (node_Spec e) (node_Status e))))
  end.

(** The first internal address. *)
Fixpoint internal_ip (addrs : list NodeAddress) : option string :=
  match addrs with
  | [] => None
  | addr :: addrs => if decide (na_Type addr = NODE_ADDR_TYPE_INTERNAL_IP) then Some (na_Address addr) else internal_ip addrs
  end.

Definition ValidateUpdate (obj : option K8SResource) : M ProcessorState (bool * option K8SResource) :=
  match GetNode obj with
  | None => mret (false, obj)
  | Some n =>
    md ← deref (node_Metadata n);
    if negb (md_DeletionTimestampNS md =? 0)%Z then
      _ ← modify (λ st, with_NodeToIP (delete (md_Name md) (NodeToIP st)) st);
      mret (true, obj)
    else
      status ← deref (node_Status n);
      match internal_ip (nst_Addresses status) with
      | Some ip =>
        _ ← modify (λ st, with_NodeToIP (<[md_Name md := ip]> (NodeToIP st)) st);
        mret (true, obj)
      | None => mret (true, obj)
      end
  end.

Definition GetStoredProtos (obj : option K8SResource) : M ProcessorState (list K8SResource) :=
  mret (option_list obj).

Definition GetUpdatesToSend (updates : list StoredUpdate) : M ProcessorState (list OutgoingUpdate) :=
  match updates with
  | [] => mret []
  | u :: _ =>
    node ← deref (GetNode (Some (sup_Update u)));
    md ← deref (node_Metadata node);
    st ← get_state;
    let agents := KelvinUpdateTopic :: option_list (NodeToIP st !! md_Name md) in
    ru ← getResourceUpdateFromNode node (sup_UpdateVersion u);
    mret [mkOutgoingUpdate ru agents]
  end.

Definition processor : UpdateProcessor :=
  mkUpdateProcessor SetDeleted ValidateUpdate GetStoredProtos true GetUpdatesToSend.
End NodeUpdateProcessor.

(** Kelvin and every node, in the order the map of nodes is ranged over. *)
Definition all_agents (node_order : gmap string string → list (string * string)) (st : ProcessorState) : list string :=
  KelvinUpdateTopic :: (node_order (NodeToIP st)).*2.

(** ** Namespaces *)
Module NamespaceUpdateProcessor.
Section processor.
Context (node_order : gmap string string → list (string * string)).

Definition SetDeleted (now now' : Z) (obj : option K8SResource) : M ProcessorState (option K8SResource) :=
  match GetNamespace obj with
  | None => mret obj
  | Some e => md ← setDeletedPtr now (ns_Metadata e); mret (Some (K8SResource_Namespace (mkNamespace md)))
  end.

Definition ValidateUpdate (obj : option K8SResource) : M ProcessorState (bool * option K8SResource) :=
  match GetNamespace obj with None => mret (false, obj) | Some _ => mret (true, obj) end.

Definition GetStoredProtos (obj : option K8SResource) : M ProcessorState (list K8SResource) :=
  mret (option_list obj).

Definition GetUpdatesToSend (storedUpdates : list StoredUpdate) : M ProcessorState (list OutgoingUpdate) :=
  match storedUpdates with
  | [] => mret []
  | u :: _ =>
    st ← get_state;
    pb ← deref (GetNamespace (Some (sup_Update u)));
    ru ← getResourceUpdateFromNamespace pb (sup_UpdateVersion u);
    mret [mkOutgoingUpdate ru (all_agents node_order st)]
  end.

Definition processor : UpdateProcessor :=
  mkUpdateProcessor SetDeleted ValidateUpdate GetStoredProtos false GetUpdatesToSend.
End processor.
End NamespaceUpdateProcessor.

(** ** Replica sets *)
Module ReplicaSetUpdateProcessor.
Section processor.
Context (node_order : gmap string string → list (string * string)).

Definition SetDeleted (now now' : Z) (obj : option K8SResource) : M ProcessorState (option K8SResource) :=
  match GetReplicaSet obj with
  | None => mret obj
  | Some rs =>
    md ← setDeletedPtr now (rs_Metadata rs);
    mret (Some (K8SResource_ReplicaSet (mkReplicaSet md (rs_Spec rs) (rs_Status rs))))
  end.

Definition ValidateUpdate (obj : option K8SResource) : M ProcessorState (bool * option K8SResource) :=
  match GetReplicaSet obj with None => mret (false, obj) | Some _ => mret (true, obj) end.

Definition GetStoredProtos (obj : option K8SResource) : M ProcessorState (list K8SResource) :=
  mret (option_list obj).

Definition GetUpdatesToSend (updates : list StoredUpdate) : M ProcessorState (list OutgoingUpdate) :=
  match updates with
  | [] => mret []
  | u :: _ =>
    st ← get_state;
    rs ← deref (GetReplicaSet (Some (sup_Update u)));
    ru ← getResourceUpdateFromReplicaSet rs (sup_UpdateVersion u);
    mret [mkOutgoingUpdate ru (all_agents node_order st)]
  end.

Definition processor : UpdateProcessor :=
  mkUpdateProcessor SetDeleted ValidateUpdate GetStoredProtos false GetUpdatesToSend.
End processor.
End ReplicaSetUpdateProcessor.

(** ** Deployments *)
Module DeploymentUpdateProcessor.
Section processor.
Context (node_order : gmap string string → list (string * string)).

Definition SetDeleted (now now' : Z) (obj : option K8SResource) : M ProcessorState (option K8SResource) :=
  match GetDeployment obj with
  | None => mret obj
  | Some dep =>
    md ← setDeletedPtr now (dep_Metadata dep);
    mret (Some (K8SResource_Deployment (mkDeployment md (dep_Spec dep) (dep_Status dep))))
  end.

Definition ValidateUpdate (obj : option K8SResource) : M ProcessorState (bool * option K8SResource) :=
  match GetDeployment obj with None => mret (false, obj) | Some _ => mret (true, obj) end.

Definition GetStoredProtos (obj : option K8SResource) : M ProcessorState (list K8SResource) :=
  mret (option_list obj).

Definition GetUpdatesToSend (updates : list StoredUpdate) : M ProcessorState (list OutgoingUpdate) :=
  match updates with
  | [] => mret []
  | u :: _ =>
    st ← get_state;
    dep ← deref (GetDeployment (Some (sup_Update u)));
    ru ← getResourceUpdateFromDeployment dep (sup_UpdateVersion u);
    mret [mkOutgoingUpdate ru (all_agents node_order st)]
  end.

Definition processor : UpdateProcessor :=
  mkUpdateProcessor SetDeleted ValidateUpdate GetStoredProtos false GetUpdatesToSend.
End processor.
End DeploymentUpdateProcessor.

(** ** The handler *)

Section handler.
Context {St : Type} `{!Datastore St} `{N : NatsConn}.
Context `{!Proto K8SResource} `{!Proto K8SResourceUpdate} `{!Proto K8SMetadataMessage} `{!Proto V2CMessage}.
Context {J : Proto (gmap string bool)}.
Context (MergeCIDRs : list string → error + list string) (json_labels : gmap string string → string).
(** The orders in which maps are ranged over: IPs of an endpoints object, nodes,
    labels, and stored label keys. *)
Context (ip_order : gmap string (list string) → list (string * list string))
  (node_order : gmap string string → list (string * string))
  (lo : gmap string string → list (string * string)) (ko : gmap string bool → list (string * bool)).

(** [Handler]; both stores are the same datastore, and [currUV] is the variable of
    the loop of [processUpdates]. *)
Record Handler := mkHandler {
  mds : St;
  hconn : nconn;
  state : ProcessorState;
  currUV : Z
}.

Definition mds_call {A} (m : M St A) : M Handler A :=
  zoom mds (λ s h, mkHandler s (hconn h) (state h) (currUV h)) m.
Definition state_call {A} (m : M ProcessorState A) : M Handler A :=
  zoom state (λ st h, mkHandler (mds h) (hconn h) st (currUV h)) m.
Definition nats_call (topic msg : string) : M Handler unit := λ h,
  let '(e, c) := nc_Publish topic msg (hconn h) in
  (match e with None => Ret tt | Some e => Err e end, mkHandler (mds h) c (state h) (currUV h)).
Definition set_currUV (v : Z) : M Handler unit := modify (λ h, mkHandler (mds h) (hconn h) (state h) v).

Definition processHandlerMap (objectType : string) : option UpdateProcessor :=
  if decide (objectType = "endpoints") then Some (EndpointsUpdateProcessor.processor ip_order)
  else if decide (objectType = "services") then Some ServiceUpdateProcessor.processor
  else if decide (objectType = "pods") then Some (PodUpdateProcessor.processor MergeCIDRs json_labels)
  else if decide (objectType = "nodes") then Some NodeUpdateProcessor.processor
  else if decide (objectType = "namespaces") then Some (NamespaceUpdateProcessor.processor node_order)
  else if decide (objectType = "replicasets") then Some (ReplicaSetUpdateProcessor.processor node_order)
  else if decide (objectType = "deployments") then Some (DeploymentUpdateProcessor.processor node_order)
  else None.

(** [NewHandler], with the version the loop starts from. *)
Definition NewHandler (s : St) (c : nconn) (uv : Z) : Handler := mkHandler s c (mkProcessorState ∅ None [] ∅ ∅) uv.

(** The version read until it can be read; [retries] is how often the backoff lets
    it be read again. *)
Fixpoint mustGetCurrentUpdateVersion (retries : nat) : M St Z :=
  r ← try (GetUpdateVersion KelvinUpdateTopic);
  match r with
  | inr currRV => mret currRV
  | inl _ =>
    match retries with
    | O => panic LogFatal
    | Datatypes.S retries => mustGetCurrentUpdateVersion retries
    end
  end.

Definition UpdatePodLabelStore (update : option K8SResource) : M St unit :=
  let p := GetPod update in
  let md := p ≫= pod_Metadata in
  let namespace := match default "" (md_Namespace <$> md) with "" => "default" | ns => ns end in
  let podName := default "" (md_Name <$> md) in
  match default PHASE_UNKNOWN (pst_Phase <$> (p ≫= pod_Status)) with
  | RUNNING => SetPodLabels lo ko namespace podName (default ∅ (md ≫= md_Labels))
  | PHASE_UNKNOWN | SUCCEEDED | FAILED | TERMINATED => DeletePodLabels ko namespace podName
  | PENDING => mret tt
  end.

Definition sendUpdate (update : ResourceUpdate) (topic : string) : M Handler unit :=
  b ← lift_sum (Marshal (K8SMetadataUpdate update));
  _ ← nats_call (getK8sUpdateChannel topic) b;
  if decide (topic = KelvinUpdateTopic) then
    b ← lift_sum (Marshal (V2C_ResourceUpdate update));
    nats_call MetadataUpdatesTopic b
  else mret tt.

Definition with_prev (prev : Z) (u : ResourceUpdate) : ResourceUpdate :=
  mkResourceUpdate (ru_Update u) (ru_UpdateVersion u) prev.

(** One iteration of the loop over the topics of an update. *)
Definition send_on_topic (u : ResourceUpdate) (t : string) : M Handler unit :=
  r ← try (mds_call (GetUpdateVersion t));
  let prevUV := match r with
    | inl _ => ru_UpdateVersion u
    | inr v => if (v =? 0)%Z then ru_UpdateVersion u else v
    end in
  let updateToSend := with_prev prevUV u in
  _ ← logged (mds_call (SetUpdateVersion t (ru_UpdateVersion updateToSend)));
  logged (sendUpdate updateToSend t).

(** One iteration of the loop over the updates to send. *)
Definition send_outgoing (scoped : bool) (u : OutgoingUpdate) : M Handler unit :=
  let update := with_prev 0 (ou_Update u) in
  let storedUpdate := mkK8SResourceUpdate (Some update) in
  _ ← (if scoped
       then forM_ (ou_Topics u) (λ t,
         logged (mds_call (AddResourceUpdateForTopic (ru_UpdateVersion update) t storedUpdate)))
       else logged (mds_call (AddResourceUpdate (ru_UpdateVersion update) storedUpdate)));
  forM_ (ou_Topics u) (send_on_topic update).

(** The loop that numbers and stores the updates. *)
Fixpoint store_updates (updates : list K8SResource) : M Handler (list StoredUpdate) :=
  match updates with
  | [] => mret []
  | u :: updates =>
    h ← get_state;
    let uv := (currUV h + 1)%Z in
    _ ← set_currUV uv;
    _ ← logged (mds_call (AddFullResourceUpdate uv u));
    rest ← store_updates updates;
    mret (mkStoredUpdate u uv :: rest)
  end.

(** The body of the loop of [processUpdates] for one message. *)
Definition processUpdate (now now' : Z) (msg : K8sResourceMessage) : M Handler unit :=
  match processHandlerMap (ObjectType msg) with
  | None => mret tt
  | Some processor =>
    update ← (if decide (EventType msg = watch_Deleted)
              then state_call (SetDeleted processor now now' (Object msg)) else mret (Object msg));
    v ← state_call (ValidateUpdate processor update);
    let '(valid, update) := v in
    if negb valid then mret tt else
    _ ← (if decide (ObjectType msg = "pods") then logged (mds_call (UpdatePodLabelStore update)) else mret tt);
    updates ← state_call (GetStoredProtos processor update);
    match updates with
    | [] => mret tt
    | _ =>
      storedProtos ← store_updates updates;
      out ← state_call (GetUpdatesToSend processor storedProtos);
      forM_ out (send_outgoing (IsNodeScoped processor))
    end
  end.

(** The loop until [Stop], on the messages received and their clock readings. *)
Definition processUpdates (msgs : list (Z * Z * K8sResourceMessage)) : M Handler unit :=
  forM_ msgs (λ '(now, now', msg), processUpdate now now' msg).

(** ** Requests for updates *)

(** Every update gets the version of the one before it. *)
Fixpoint chain_updates (currVersion : Z) (allUpdates : list K8SResourceUpdate) : M Handler (list ResourceUpdate) :=
  match allUpdates with
  | [] => mret []
  | u :: us =>
    update ← deref (kru_Update u);
    rest ← chain_updates (ru_UpdateVersion update) us;
    mret (with_prev currVersion update :: rest)
  end.

Definition GetUpdatesForIP (ip : string) (from to : Z) : M Handler (list ResourceUpdate) :=
  let ip := if decide (ip = "") then KelvinUpdateTopic else ip in
  to ← (if (to =? 0)%Z
        then lastUpdate ← mds_call (GetUpdateVersion KelvinUpdateTopic); mret (lastUpdate + 1)%Z
        else mret to);
  allUpdates ← mds_call (FetchResourceUpdates ip from to);
  chain_updates 0 allUpdates.

Definition GetServiceCIDR (h : Handler) : string :=
  match ServiceCIDR (state h) with Some n => IPNet_String n | None => "" end.

Definition GetPodCIDRs (h : Handler) : list string := PodCIDRs (state h).
End handler.
