(* ===== verification/K8sAbs.v ===== *)
(** * What the metadata handler stores and sends, abstractly

    The updates stored for every topic by version, the last version of every
    topic, and the messages sent so far; the steps of the handler on this abstract
    state, and that the handler of [K8sHandler] with the store of [K8sStore]
    implements them. *)

From S2P Require Import Prelude GoLib Datastore Uuid Messages MessageBus StoreLib GoNet ServiceCIDR K8sMessages K8sStore K8sHandler.
From Stdlib Require Import Ascii.

(** ** Keys *)

Lemma split_comps sep s c : c ∈ split sep s → no_sep sep c = true.
Proof.
  revert c. induction s as [|a s IH]; intros c; cbn [split].
  { by intros ->%list_elem_of_singleton. }
  destruct (decide (a = sep)) as [E|E].
  - intros [->|Hc]%elem_of_cons; [done|by apply IH].
  - destruct (split sep s) as [|h t] eqn:Es; [by apply split_nonempty in Es|].
    intros [->|Hc]%elem_of_cons.
    + cbn [no_sep]. rewrite bool_decide_eq_true_2 by done. apply IH. by left.
    + apply IH. by right.
Qed.

Lemma path_comps_no_sep l : Forall (λ c, no_sep "/" c = true) (path_comps l).
Proof.
  apply Forall_forall. intros c [_ Hc]%list_elem_of_filter.
  apply list_elem_of_bind in Hc as (s & Hc & _). by eapply split_comps.
Qed.

(** No component of the path goes up, or stays. *)
Definition clean (l : list string) : Prop := Forall (λ c, c ≠ "." ∧ c ≠ "..") (path_comps l).

(** A key below a directory. *)
Lemma join_key d l :
  good_comp d = true → clean l → path_Join (("/" +:+ d) :: l) = mkkey (d :: path_comps l).
Proof.
  intros Hd Hl. change ("/" +:+ d) with (String "/" d).
  assert (path_comps (String "/" d :: l) = d :: path_comps l) as E.
  { change (String "/" d :: l) with ([String "/" d] ++ l). rewrite path_comps_app.
    unfold path_comps at 1. change ([String "/" d] ≫= split "/") with (("" :: split "/" d) ++ []).
    rewrite app_nil_r, split_good by done. rewrite filter_cons_False by (intros H; by apply H).
    by rewrite filter_good. }
  rewrite path_Join_comps; rewrite E; [done|]. apply Forall_cons. split; [|done].
  apply good_comp_spec in Hd. tauto.
Qed.

Lemma join_key_dir d l : good_comp d = true → clean l → key_dir (path_Join (("/" +:+ d) :: l)) = d.
Proof.
  intros Hd Hl. rewrite join_key by done. apply key_dir_mkkey. apply Forall_cons.
  split; [by apply good_comp_spec in Hd as [? _]|apply path_comps_no_sep].
Qed.

Lemma clean_good l : Forall (λ c, good_comp c = true) l → clean l.
Proof.
  intros H. unfold clean. rewrite path_comps_good by done. eapply Forall_impl; [exact H|].
  intros c Hc%good_comp_spec. tauto.
Qed.

Lemma clean_cons a l : clean [a] → clean l → clean (a :: l).
Proof. intros Ha Hl. unfold clean. change (a :: l) with ([a] ++ l). rewrite path_comps_app. by apply Forall_app. Qed.

(** Topics are IP addresses or "all"; the topic of a pod that is not scheduled is
    the empty string. *)
Definition topic_ok (t : string) : Prop := good_comp t = true ∨ t = "".

Lemma topic_clean t : topic_ok t → clean [t].
Proof. intros [H| ->]; [apply clean_good; by constructor|constructor]. Qed.

Lemma topic_comps t : topic_ok t → path_comps [t] = if decide (t = "") then [] else [t].
Proof.
  intros [H| ->]; [|done]. rewrite path_comps_good by (by constructor).
  rewrite decide_False; [done|]. intros ->. done.
Qed.

Lemma version_good v : version_ok v → good_comp (Sprintf_0d 20 v) = true.
Proof.
  unfold version_ok. intros Hv. pose proof (Sprintf_0d_val 20 v ltac:(lia)) as Ev. apply good_comp_spec.
  pose proof (length_Sprintf_0d 20 ltac:(lia) v ltac:(lia)) as Hl.
  split; [by eapply no_sep_digits|]. split_and!; intros E; rewrite E in Hl; done.
Qed.

Lemma topic_version_key t : topic_ok t → getTopicVersionKey t = mkkey ("topicVersion" :: path_comps [t]).
Proof. intros Ht. apply (join_key "topicVersion" [t] eq_refl). by apply topic_clean. Qed.

Lemma topic_version_key_inj t t' :
  topic_ok t → topic_ok t' → getTopicVersionKey t = getTopicVersionKey t' → t = t'.
Proof.
  intros Ht Ht' E. rewrite !topic_version_key in E by done.
  apply mkkey_inj in E; [|done|done|by apply Forall_cons; split; [done|apply path_comps_no_sep]..].
  injection E as E. rewrite !topic_comps in E by done. repeat case_decide; congruence.
Qed.

Lemma update_key_comps t v :
  topic_ok t → version_ok v →
  getTopicResourceUpdateKey t v = mkkey ("resourceUpdate" :: path_comps [t] ++ [Sprintf_0d 20 v]).
Proof.
  intros Ht Hv. unfold getTopicResourceUpdateKey.
  assert (clean [Sprintf_0d 20 v]) as Hc by (apply clean_good; constructor; [by apply version_good|done]).
  etransitivity; [apply (join_key "resourceUpdate" [t; Sprintf_0d 20 v] eq_refl)|].
  - apply clean_cons; [by apply topic_clean|done].
  - do 2 f_equal. change [t; Sprintf_0d 20 v] with ([t] ++ [Sprintf_0d 20 v]). rewrite path_comps_app. f_equal.
    apply path_comps_good. constructor; [by apply version_good|done].
Qed.

(** The keys of a topic's updates are found under that topic only. *)
Lemma update_key_prefix t t' v :
  good_comp t = true → topic_ok t' → version_ok v →
  HasPrefix (getTopicResourceUpdateKey t' v) (version_prefix t) = true → t' = t.
Proof.
  intros Ht Ht' Hv [r E]%HasPrefix_spec. rewrite update_key_comps in E by done.
  apply (f_equal (split "/")) in E. rewrite split_mkkey in E; [|done|].
  2: { apply Forall_cons. split; [done|]. apply Forall_app. split; [apply path_comps_no_sep|].
       apply Forall_singleton. by apply good_comp_spec, version_good. }
  unfold version_prefix in E. rewrite !str_app_assoc in E.
  change ("/resourceUpdate/" +:+ t +:+ "/" +:+ r)
    with ("" +:+ String "/" ("resourceUpdate" +:+ String "/" (t +:+ String "/" r))) in E.
  rewrite !split_app_sep, (split_good t) in E by done.
  change (split "/" "") with [""] in E. change (split "/" "resourceUpdate") with ["resourceUpdate"] in E.
  cbn [app] in E. injection E as E. rewrite topic_comps in E by done. case_decide; cbn [app] in E.
  - injection E as _ E. symmetry in E. by apply split_nonempty in E.
  - by injection E.
Qed.

Lemma update_key_dir t v : topic_ok t → version_ok v → key_dir (getTopicResourceUpdateKey t v) = "resourceUpdate".
Proof.
  intros Ht Hv. rewrite update_key_comps by done. apply key_dir_mkkey. apply Forall_cons. split; [done|].
  apply Forall_app. split; [apply path_comps_no_sep|]. apply Forall_singleton. by apply good_comp_spec, version_good.
Qed.

Lemma topic_version_dir t : topic_ok t → key_dir (getTopicVersionKey t) = "topicVersion".
Proof. intros Ht. apply (join_key_dir "topicVersion" [t] eq_refl). by apply topic_clean. Qed.

Lemma full_key_dir v : version_ok v → key_dir (getFullResourceUpdateKey v) = "fullResourceUpdate".
Proof.
  intros Hv. apply (join_key_dir "fullResourceUpdate" _ eq_refl). apply clean_good.
  constructor; [by apply version_good|done].
Qed.

Lemma version_prefix_dir t k :
  good_comp t = true → HasPrefix k (version_prefix t) = true → key_dir k = "resourceUpdate".
Proof.
  intros Ht [r ->]%HasPrefix_spec. apply HasPrefix_dir; [done|]. apply HasPrefix_spec. unfold version_prefix.
  exists (t +:+ "/" +:+ r). by rewrite !str_app_assoc.
Qed.

Lemma user_key_join d l : good_comp d = true → clean l → user_key (path_Join (("/" +:+ d) :: l)) = true.
Proof. intros. rewrite join_key by done. apply user_key_mkkey. Qed.

(** ** The abstract state *)

(** The updates stored by topic and version, the versions of the topics, what was sent,
    and the keys that have been purged since because their TTL had expired. *)
Record k8s_abs := mkK8sAbs {
  a_updates : string → gmap positive K8SResourceUpdate;
  a_versions : gmap string Z;
  a_sent : list (string * ResourceUpdate);
  a_expired : gset string
}.

(** An update is stored under a topic. *)
Definition abs_add (v : Z) (x : K8SResourceUpdate) (t : string) (A : k8s_abs) : k8s_abs :=
  mkK8sAbs (λ t', if decide (t' = t) then <[Z.to_pos v := x]> (a_updates A t') else a_updates A t')
    (a_versions A) (a_sent A) (a_expired A).

(** An update is sent on a topic, with the version of the one before it. *)
Definition abs_send (u : ResourceUpdate) (t : string) (A : k8s_abs) : k8s_abs :=
  mkK8sAbs (a_updates A) (<[t := ru_UpdateVersion u]> (a_versions A))
    (a_sent A ++ [(t, with_prev (default (ru_UpdateVersion u) (a_versions A !! t)) u)]) (a_expired A).

(** The update stored and sent on every topic. *)
Definition abs_outgoing (scoped : bool) (o : OutgoingUpdate) (A : k8s_abs) : k8s_abs :=
  let u := with_prev 0 (ou_Update o) in
  let x := mkK8SResourceUpdate (Some u) in
  let A := if scoped then foldl (λ A t, abs_add (ru_UpdateVersion u) x t A) A (ou_Topics o)
           else abs_add (ru_UpdateVersion u) x unscopedTopic A in
  foldl (λ A t, abs_send u t A) A (ou_Topics o).

Definition abs_outgoings (scoped : bool) (os : list OutgoingUpdate) (A : k8s_abs) : k8s_abs :=
  foldl (λ A o, abs_outgoing scoped o A) A os.

Lemma abs_outgoings_expired scoped os A : a_expired (abs_outgoings scoped os A) = a_expired A.
Proof.
  assert (∀ v x ts A, a_expired (foldl (λ A t, abs_add v x t A) A ts) = a_expired A) as Hadd.
  { intros v x ts. induction ts as [|t ts IH]; intros A'; [done|]. cbn. by rewrite IH. }
  assert (∀ u ts A, a_expired (foldl (λ A t, abs_send u t A) A ts) = a_expired A) as Hsend.
  { intros u ts. induction ts as [|t ts IH]; intros A'; [done|]. cbn. by rewrite IH. }
  unfold abs_outgoings. revert A. induction os as [|o os IH]; intros A; [done|]. cbn [foldl]. rewrite IH. unfold abs_outgoing.
  rewrite Hsend. destruct scoped; [apply Hadd|done].
Qed.

(** The keys [X] are purged. *)
Definition abs_expire (X : gset string) (A : k8s_abs) : k8s_abs :=
  mkK8sAbs (λ t, filter (λ px, getTopicResourceUpdateKey t (Zpos px.1) ∉ X) (a_updates A t)) (a_versions A) (a_sent A)
    (X ∪ a_expired A).

(** Versions fit [int64]. *)
Definition uv_ok (v : Z) : Prop := (0 < v < 2 ^ 63)%Z.
Definition versions_ok (A : k8s_abs) : Prop := ∀ t v, a_versions A !! t = Some v → uv_ok v.

Lemma abs_send_versions_ok u t A : versions_ok A → uv_ok (ru_UpdateVersion u) → versions_ok (abs_send u t A).
Proof.
  intros H Hu t' v. cbn. destruct (decide (t' = t)) as [->|]; [rewrite lookup_insert_eq|rewrite lookup_insert_ne by done; apply H].
  by intros [= <-].
Qed.

Section rep.
Context {St : Type} `{!Datastore St} {view : St → gmap string string} {ok : St → Prop}.
Context `{!DatastoreSpec St view ok}.
Context `{N : NatsConn} {log : nconn → list (string * string)} {up : nconn → Prop} `{!NatsSpec N log up}.
Context `{!Proto K8SResource} `{!Proto K8SResourceUpdate} `{!Proto K8SMetadataMessage} `{!Proto V2CMessage}.
Context `{!ProtoSpec K8SResource} `{!ProtoSpec K8SResourceUpdate} `{!ProtoSpec K8SMetadataMessage} `{!ProtoSpec V2CMessage}.
Context {J : Proto (gmap string bool)} {JS : @ProtoSpec _ J}.
Implicit Types (h : Handler (St := St)) (A : k8s_abs) (m : gmap string string) (u : ResourceUpdate).

(** The stored sets of label keys can be read, and their keys are paths. *)
Definition labels_ok m : Prop :=
  ∀ k b, key_dir k = "podLabelUpdate" → m !! k = Some b →
    ∃ keys : gmap string bool, Unmarshal b = inr keys ∧ ∀ x, is_Some (keys !! x) → clean [x].

Definition store_rep m A : Prop :=
  (∀ t, good_comp t = true → updates_rep m t (a_updates A t)) ∧
  (∀ t, topic_ok t → m !! getTopicVersionKey t = FormatInt <$> a_versions A !! t) ∧
  labels_ok m.

(** What is published for an update sent on a topic. *)
Definition wire (tu : string * ResourceUpdate) : list (string * string) :=
  (getK8sUpdateChannel tu.1, enc (K8SMetadataUpdate tu.2)) ::
  (if decide (tu.1 = KelvinUpdateTopic) then [(MetadataUpdatesTopic, enc (V2C_ResourceUpdate tu.2))] else []).

(** [l0] is what was published before. *)
Definition hrep l0 h A : Prop :=
  ok (mds h) ∧ up (hconn h) ∧ store_rep (view (mds h)) A ∧ log (hconn h) = l0 ++ (a_sent A ≫= wire).

(** The handler's other fields are left alone. *)
Definition same_rest h h' : Prop := state h' = state h ∧ currUV h' = currUV h.

Lemma store_rep_frame m m' A :
  (∀ k, key_dir k = "resourceUpdate" ∨ key_dir k = "topicVersion" ∨ key_dir k = "podLabelUpdate" → m' !! k = m !! k) →
  store_rep m A → store_rep m' A.
Proof.
  intros Hf (Hu & Hv & Hl). split_and!.
  - intros t Ht. destruct (Hu t Ht) as [H1 H2]. split.
    + intros v Hv'. rewrite Hf; [by apply H1|]. left. apply update_key_dir; [by left|by apply version_ok_pos].
    + intros k Hk. rewrite Hf; [by apply H2|]. left. by eapply version_prefix_dir.
  - intros t Ht. rewrite Hf; [by apply Hv|]. right. left. by apply topic_version_dir.
  - intros k b Hk Hb. rewrite Hf in Hb by auto. by eapply Hl.
Qed.

Lemma store_rep_insert m A k b :
  key_dir k ≠ "resourceUpdate" → key_dir k ≠ "topicVersion" → key_dir k ≠ "podLabelUpdate" →
  store_rep m A → store_rep (<[k := b]> m) A.
Proof.
  intros H1 H2 H3. apply store_rep_frame. intros k' Hk'. apply lookup_insert_ne. intros <-. naive_solver.
Qed.

(** Keys other than the versions of the topics are purged. *)
Lemma store_rep_expire m A (X : gset string) :
  (∀ k, k ∈ X → key_dir k ≠ "topicVersion") → store_rep m A → store_rep (filter (λ kv, kv.1 ∉ X) m) (abs_expire X A).
Proof.
  intros HX (Hu & Hv & Hl). split_and!.
  - intros t Ht. destruct (Hu t Ht) as [H1 H2]. split; cbn [abs_expire a_updates].
    + intros v Hvv. specialize (H1 v Hvv). destruct (decide (getTopicResourceUpdateKey t (Zpos v) ∈ X)) as [Hx|Hx].
      * rewrite !map_lookup_filter_None_2; [done|right; intros x _; cbn; by intros []..].
      * destruct (a_updates A t !! v) as [x|] eqn:Ex.
        -- rewrite (map_lookup_filter_Some_2 _ _ _ x) by done. destruct H1 as (b & Hb & Hd). exists b. split; [|done].
           by apply map_lookup_filter_Some_2.
        -- rewrite !map_lookup_filter_None_2; [done|by left..].
    + intros k Hk [b Hb]. apply map_lookup_filter_Some in Hb as [Hb _]. apply H2; [done|by exists b].
  - intros t Ht. cbn [abs_expire a_versions]. rewrite <-Hv by done.
    assert (getTopicVersionKey t ∉ X) as Hn by (intros Hx; by apply HX in Hx; rewrite topic_version_dir in Hx).
    destruct (m !! getTopicVersionKey t) as [b|] eqn:E; [by apply map_lookup_filter_Some_2|apply map_lookup_filter_None_2; by left].
  - intros k b Hk Hb. apply map_lookup_filter_Some in Hb as [Hb _]. by eapply Hl.
Qed.

(** A topic's updates after an update of the store at another topic. *)
Lemma updates_rep_frame m m' t (T : gmap positive K8SResourceUpdate) :
  good_comp t = true → (∀ k, HasPrefix k (version_prefix t) = true → m' !! k = m !! k) →
  updates_rep m t T → updates_rep m' t T.
Proof.
  intros Ht Hf [H1 H2]. split.
  - intros v Hv. rewrite Hf; [by apply H1|]. rewrite version_key by (done || by apply version_ok_pos). apply HasPrefix_app.
  - intros k Hk. rewrite Hf by done. by apply H2.
Qed.

Lemma store_rep_add m A t v x b :
  topic_ok t → uv_ok v → Unmarshal b = inr x → store_rep m A →
  store_rep (<[getTopicResourceUpdateKey t v := b]> m) (abs_add v x t A).
Proof.
  intros Ht Hv Hb (Hu & Hvs & Hl). unfold uv_ok in Hv.
  assert (version_ok v) as Hvo by (unfold version_ok; lia).
  pose proof (update_key_dir t v Ht Hvo) as Hd. split_and!.
  - intros t' Ht'. cbn [abs_add a_updates]. case_decide as E.
    + subst t'. replace v with (Zpos (Z.to_pos v)) at 1 by (apply Z2Pos.id; lia).
      apply updates_rep_insert; [done|rewrite Z2Pos.id; lia|done|by apply Hu].
    + apply updates_rep_frame with m; [done| |by apply Hu]. intros k Hk. apply lookup_insert_ne. intros <-.
      apply E. symmetry. by eapply update_key_prefix.
  - intros t' Ht'. cbn [abs_add a_versions]. rewrite lookup_insert_ne; [by apply Hvs|]. apply key_dir_ne.
    rewrite Hd, topic_version_dir by done. done.
  - intros k b' Hk. rewrite lookup_insert_ne; [by apply Hl|]. apply key_dir_ne. by rewrite Hd, Hk.
Qed.

Lemma store_rep_send m A u t :
  topic_ok t → store_rep m A →
  store_rep (<[getTopicVersionKey t := FormatInt (ru_UpdateVersion u)]> m) (abs_send u t A).
Proof.
  intros Ht (Hu & Hvs & Hl). pose proof (topic_version_dir t Ht) as Hd. split_and!.
  - intros t' Ht'. apply updates_rep_frame with m; [done| |by apply Hu]. intros k Hk. apply lookup_insert_ne.
    apply key_dir_ne. rewrite Hd. erewrite version_prefix_dir; [done|exact Ht'|done].
  - intros t' Ht'. cbn [abs_send a_versions]. destruct (decide (t' = t)) as [->|Hne]; [by rewrite !lookup_insert_eq|].
    rewrite !lookup_insert_ne; [by apply Hvs|done|]. intros E. apply Hne. by apply topic_version_key_inj.
  - intros k b' Hk. rewrite lookup_insert_ne; [by apply Hl|]. apply key_dir_ne. by rewrite Hd, Hk.
Qed.

(** ** The steps of the handler *)

Lemma wp_mds_call {X} (c : M St X) Q h :
  wp c (λ x s', Q x (mkHandler s' (hconn h) (state h) (currUV h))) (mds h) → wp (mds_call c) Q h.
Proof. intros H. by apply wp_zoom. Qed.

Lemma version_user_key t v : topic_ok t → version_ok v → user_key (getTopicResourceUpdateKey t v) = true.
Proof. intros. rewrite update_key_comps by done. apply user_key_mkkey. Qed.

Lemma wp_AddResourceUpdateForTopic l0 h A t v (x : K8SResourceUpdate) :
  hrep l0 h A → topic_ok t → uv_ok v →
  wp (logged (mds_call (AddResourceUpdateForTopic v t x)))
    (λ _ h', hrep l0 h' (abs_add v x t A) ∧ same_rest h h') h.
Proof.
  intros (Hok & Hup & Hrep & Hlog) Ht Hv. apply wp_logged, wp_mds_call. unfold AddResourceUpdateForTopic.
  destruct (proto_roundtrip x) as (b & -> & Hb). apply wp_bind, wp_lift_inr.
  apply wp_SetWithTTL; [done|apply version_user_key; [done|unfold version_ok, uv_ok in *; lia]|].
  intros s' Hok' Hview. split; [|done]. split_and!; [done|done| |done]. cbn [mds].
  rewrite Hview. by apply store_rep_add.
Qed.

Lemma wp_AddFullResourceUpdate l0 h A v (x : K8SResource) :
  hrep l0 h A → uv_ok v →
  wp (logged (mds_call (AddFullResourceUpdate v x))) (λ _ h', hrep l0 h' A ∧ same_rest h h') h.
Proof.
  intros (Hok & Hup & Hrep & Hlog) Hv. apply wp_logged, wp_mds_call. unfold AddFullResourceUpdate.
  assert (version_ok v) as Hvo by (unfold version_ok, uv_ok in *; lia).
  destruct (proto_roundtrip x) as (b & -> & Hb). apply wp_bind, wp_lift_inr.
  pose proof (full_key_dir v Hvo) as Hd.
  apply wp_SetWithTTL; [done|apply (user_key_join "fullResourceUpdate" _ eq_refl), clean_good; constructor; [by apply version_good|done]|].
  intros s' Hok' Hview. split; [|done]. split_and!; [done|done| |done]. cbn [mds].
  rewrite Hview. apply store_rep_insert; rewrite ?Hd; done.
Qed.

(** The version of a topic, 0 when there is none. *)
Lemma GetUpdateVersion_run s A t :
  ok s → store_rep (view s) A → versions_ok A → topic_ok t →
  GetUpdateVersion t s = (Ret (default 0%Z (a_versions A !! t)), s).
Proof.
  intros Hok (_ & Hv & _) HA Ht. unfold GetUpdateVersion.
  assert (user_key (getTopicVersionKey t) = true) as Hk by (rewrite topic_version_key by done; apply user_key_mkkey).
  run_with (spec_Get s _ Hok Hk). rewrite Hv by done. destruct (a_versions A !! t) as [v|] eqn:E; [|done].
  pose proof (HA t v E) as Hr. unfold uv_ok in Hr. cbn [fmap option_fmap option_map default from_option id].
  pose proof (FormatUint_nonempty v ltac:(lia)) as Hne. rewrite <-(FormatInt_nonneg v) in Hne by lia.
  pose proof (ParseInt_FormatInt v) as HP. destruct (FormatInt v) eqn:Ef; [done|]. rewrite HP by lia. done.
Qed.

Lemma wp_nats_call h topic msg (Q : unit → Handler → Prop) :
  up (hconn h) →
  (∀ c, up c → log c = log (hconn h) ++ [(topic, msg)] → Q tt (mkHandler (mds h) c (state h) (currUV h))) →
  wp (nats_call topic msg) Q h.
Proof.
  intros Hup HQ. destruct (nats_Publish (hconn h) topic msg Hup) as (c & E & Hc & Hl).
  unfold wp, nats_call. rewrite E. by apply HQ.
Qed.

(** [sendUpdate] publishes the update. *)
Lemma wp_sendUpdate h u t (Q : unit → Handler → Prop) :
  up (hconn h) →
  (∀ c, up c → log c = log (hconn h) ++ wire (t, u) → Q tt (mkHandler (mds h) c (state h) (currUV h))) →
  wp (sendUpdate u t) Q h.
Proof.
  intros Hup HQ. unfold sendUpdate. rewrite (Marshal_enc (K8SMetadataUpdate u)). apply wp_bind, wp_lift_inr, wp_bind.
  apply wp_nats_call; [done|]. intros c Hc Hl. unfold wire in HQ. cbn [fst snd] in HQ.
  case_decide.
  - rewrite (Marshal_enc (V2C_ResourceUpdate u)). apply wp_bind, wp_lift_inr.
    apply wp_nats_call; [done|]. cbn [hconn mds state currUV]. intros c' Hc' Hl'.
    apply HQ; [done|]. by rewrite Hl', Hl, <-app_assoc.
  - by apply wp_ret, HQ.
Qed.

Lemma wp_send_on_topic l0 h A u t :
  hrep l0 h A → versions_ok A → topic_ok t → uv_ok (ru_UpdateVersion u) →
  wp (send_on_topic u t) (λ _ h', hrep l0 h' (abs_send u t A) ∧ same_rest h h') h.
Proof.
  intros (Hok & Hup & Hrep & Hlog) HA Ht Hu. unfold send_on_topic. apply wp_bind, wp_try, wp_mds_call.
  unfold wp at 1. rewrite (GetUpdateVersion_run (mds h) A t) by done.
  cbv beta iota zeta. set (prev := if (default 0%Z _ =? 0)%Z then _ else _).
  assert (prev = default (ru_UpdateVersion u) (a_versions A !! t)) as Hprev.
  { unfold prev. destruct (a_versions A !! t) as [v|] eqn:E; [|done]. pose proof (HA t v E) as Hr. unfold uv_ok in Hr.
    simpl. destruct (Z.eqb_spec v 0); [lia|done]. }
  clearbody prev. cbn [with_prev ru_UpdateVersion]. apply wp_bind, wp_logged, wp_mds_call. unfold SetUpdateVersion.
  assert (user_key (getTopicVersionKey t) = true) as Hk by (rewrite topic_version_key by done; apply user_key_mkkey).
  apply wp_Set; [done|done|]. intros s' Hok' Hview. apply wp_logged, wp_sendUpdate; [done|].
  cbn [hconn mds state currUV]. intros c Hc Hl. split; [|done]. split_and!; [done|done| |].
  - cbn [mds]. rewrite Hview. by apply store_rep_send.
  - cbn [hconn abs_send a_sent]. rewrite Hl, Hlog, bind_app, <-app_assoc. cbn [mbind list_bind].
    by rewrite app_nil_r, Hprev.
Qed.

(** What is sent keeps the versions in range. *)
Lemma abs_sends_versions_ok u ts A :
  versions_ok A → uv_ok (ru_UpdateVersion u) → versions_ok (foldl (λ A t, abs_send u t A) A ts).
Proof. revert A. induction ts as [|t ts IH]; intros A HA Hu; [done|]. apply IH; [by apply abs_send_versions_ok|done]. Qed.

Lemma abs_adds_versions v x ts A : a_versions (foldl (λ A t, abs_add v x t A) A ts) = a_versions A.
Proof. revert A. induction ts as [|t ts IH]; intros A; [done|]. cbn [foldl]. by rewrite IH. Qed.

Lemma abs_outgoing_versions_ok scoped o A :
  versions_ok A → uv_ok (ru_UpdateVersion (ou_Update o)) → versions_ok (abs_outgoing scoped o A).
Proof.
  intros HA Hu. unfold abs_outgoing. apply abs_sends_versions_ok; [|done]. destruct scoped; [|done].
  intros t v. rewrite abs_adds_versions. apply HA.
Qed.

(** An outgoing update the handler can store and send. *)
Definition outgoing_ok (o : OutgoingUpdate) : Prop :=
  uv_ok (ru_UpdateVersion (ou_Update o)) ∧ Forall topic_ok (ou_Topics o).

Lemma wp_send_outgoing l0 h A scoped o :
  hrep l0 h A → versions_ok A → outgoing_ok o →
  wp (send_outgoing scoped o) (λ _ h', hrep l0 h' (abs_outgoing scoped o A) ∧ same_rest h h') h.
Proof.
  intros Hrep HA [Hu Hts]. rewrite Forall_forall in Hts. unfold send_outgoing, abs_outgoing. apply wp_bind.
  set (u := with_prev 0 (ou_Update o)). set (x := mkK8SResourceUpdate (Some u)).
  set (A1 := (if scoped then foldl _ A _ else abs_add _ _ _ A) : k8s_abs).
  apply (wp_mono _ (λ _ h', (hrep l0 h' A1 ∧ versions_ok A1) ∧ same_rest h h')).
  - destruct scoped.
    + eapply wp_mono; [apply (wp_forM_fold _ (λ A t, abs_add (ru_UpdateVersion u) x t A)
        (λ A h', hrep l0 h' A ∧ same_rest h h'))|].
      * intros t A' h' Ht [HR [Es Ec]]. eapply wp_mono; [apply wp_AddResourceUpdateForTopic; [exact HR|by apply Hts|done]|].
        intros [] h'' [HR' [Es' Ec']]. split; [done|split; congruence].
      * by split.
      * intros [] h' [HR Hr]. split; [split; [done|]|done]. intros t v. unfold A1. rewrite abs_adds_versions. apply HA.
    + eapply wp_mono; [apply wp_AddResourceUpdateForTopic; [done|by left|done]|].
      intros [] h' [HR Hr]. split; [split; [done|exact HA]|done].
  - clearbody A1. intros [] h1 [[HR1 HA1] Hr1].
    eapply wp_mono; [apply (wp_forM_fold _ (λ A t, abs_send u t A)
      (λ A h', (hrep l0 h' A ∧ versions_ok A) ∧ same_rest h h'))|by intros [] h' [[HR _] Hr]].
    + intros t A' h' Ht [[HR Hv] [Es Ec]]. eapply wp_mono; [apply wp_send_on_topic; [exact HR|done|by apply Hts|done]|].
      intros [] h'' [HR' [Es' Ec']]. split; [split; [done|by apply abs_send_versions_ok]|split; congruence].
    + done.
Qed.

Lemma wp_send_outgoings l0 h A scoped os :
  hrep l0 h A → versions_ok A → Forall outgoing_ok os →
  wp (forM_ os (send_outgoing scoped))
    (λ _ h', (hrep l0 h' (abs_outgoings scoped os A) ∧ versions_ok (abs_outgoings scoped os A)) ∧ same_rest h h') h.
Proof.
  intros Hrep HA Hos. rewrite Forall_forall in Hos.
  apply (wp_forM_fold _ (λ A o, abs_outgoing scoped o A) (λ A h', (hrep l0 h' A ∧ versions_ok A) ∧ same_rest h h')); [|done].
  intros o A' h' Ho [[HR Hv] [Es Ec]]. eapply wp_mono; [apply wp_send_outgoing; [exact HR|done|by apply Hos]|].
  intros [] h'' [HR' [Es' Ec']]. split; [split; [done|apply abs_outgoing_versions_ok; [done|by apply Hos]]|].
  split; congruence.
Qed.

(** The versions given to the updates of an event. *)
Fixpoint number (uv : Z) (updates : list K8SResource) : list StoredUpdate :=
  match updates with
  | [] => []
  | u :: updates => mkStoredUpdate u (uv + 1) :: number (uv + 1) updates
  end.

Lemma wp_store_updates l0 h A updates :
  hrep l0 h A → (0 ≤ currUV h)%Z → (currUV h + Z.of_nat (length updates) < 2 ^ 63)%Z →
  wp (store_updates updates)
    (λ sps h', sps = number (currUV h) updates ∧ hrep l0 h' A ∧ state h' = state h ∧
      currUV h' = (currUV h + Z.of_nat (length updates))%Z) h.
Proof.
  revert h. induction updates as [|x updates IH]; intros h HR H0 Hb.
  { apply wp_ret. split_and!; [done|done|done|simpl; lia]. }
  cbn [store_updates length] in *. apply wp_bind, wp_get_state, wp_bind, wp_modify, wp_bind.
  set (h1 := mkHandler (mds h) (hconn h) (state h) (currUV h + 1)%Z).
  eapply wp_mono; [apply (wp_AddFullResourceUpdate l0 h1 A (currUV h + 1) x); [exact HR|unfold uv_ok; lia]|].
  intros [] h2 [HR2 [Es Ec]]. cbn [h1 state currUV] in Es, Ec. apply wp_bind.
  eapply wp_mono; [apply IH; [exact HR2|rewrite Ec; lia|rewrite Ec; lia]|].
  intros sps h3 (-> & HR3 & Es3 & Ec3). apply wp_ret. cbn [number]. rewrite Ec.
  split_and!; [done|done|congruence|lia].
Qed.

(** ** Pod labels are kept apart *)

Definition label_dir (k : string) : Prop := key_dir k = "labelPodUpdate" ∨ key_dir k = "podLabelUpdate".

Lemma store_rep_delete m A ks : Forall label_dir ks → store_rep m A → store_rep (delete_keys ks m) A.
Proof.
  intros Hks. assert (∀ k, key_dir k = "resourceUpdate" ∨ key_dir k = "topicVersion" → delete_keys ks m !! k = m !! k) as Hf.
  { intros k Hk. rewrite lookup_delete_keys. destruct (decide (k ∈ ks)) as [Hin|]; [|done].
    apply (proj1 (Forall_forall _ _) Hks) in Hin as [E|E]; destruct Hk as [Hk|Hk]; by rewrite E in Hk. }
  intros (Hu & Hv & Hl). split_and!.
  - intros t Ht. apply updates_rep_frame with m; [done| |by apply Hu]. intros k Hk. apply Hf. left.
    by eapply version_prefix_dir.
  - intros t Ht. rewrite Hf; [by apply Hv|]. right. by apply topic_version_dir.
  - intros k b Hk. rewrite lookup_delete_keys. destruct (decide (k ∈ ks)); [done|]. by apply Hl.
Qed.

Lemma store_rep_label_keys m A k b (keys : gmap string bool) :
  key_dir k = "podLabelUpdate" → Unmarshal b = inr keys → (∀ x, is_Some (keys !! x) → clean [x]) →
  store_rep m A → store_rep (<[k := b]> m) A.
Proof.
  intros Hk Hb Hkeys (Hu & Hv & Hl). split_and!.
  - intros t Ht. apply updates_rep_frame with m; [done| |by apply Hu]. intros k' Hk'. apply lookup_insert_ne, key_dir_ne.
    rewrite Hk. erewrite version_prefix_dir; [done|exact Ht|done].
  - intros t Ht. rewrite lookup_insert_ne; [by apply Hv|]. apply key_dir_ne. by rewrite Hk, topic_version_dir.
  - intros k' b' Hk'. rewrite lookup_insert_Some. intros [[<- <-]|[_ H]]; [by exists keys|by eapply Hl].
Qed.

Context (lo : gmap string string → list (string * string)) (ko : gmap string bool → list (string * bool)).
Context (lo_perm : ∀ x, lo x ≡ₚ map_to_list x) (ko_perm : ∀ x, ko x ≡ₚ map_to_list x).

Lemma ko_keys (keys : gmap string bool) kv : kv ∈ ko keys → is_Some (keys !! kv.1).
Proof using ko_perm. rewrite ko_perm. destruct kv as [k v]. rewrite elem_of_map_to_list. eauto. Qed.

Lemma label_key_dir ns k pod :
  clean [ns] → clean [k] → clean [pod] → key_dir (getNSLabelPodUpdateKey ns k pod) = "labelPodUpdate".
Proof. intros. apply (join_key_dir "labelPodUpdate" _ eq_refl). apply clean_cons; [done|]. by apply clean_cons. Qed.

Lemma label_user_key ns k pod :
  clean [ns] → clean [k] → clean [pod] → user_key (getNSLabelPodUpdateKey ns k pod) = true.
Proof. intros. apply (user_key_join "labelPodUpdate" _ eq_refl). apply clean_cons; [done|]. by apply clean_cons. Qed.

Lemma pod_key_dir ns pod : clean [ns] → clean [pod] → key_dir (getNSPodUpdateKey ns pod) = "podLabelUpdate".
Proof. intros. apply (join_key_dir "podLabelUpdate" _ eq_refl). by apply clean_cons. Qed.

Lemma pod_user_key ns pod : clean [ns] → clean [pod] → user_key (getNSPodUpdateKey ns pod) = true.
Proof. intros. apply (user_key_join "podLabelUpdate" _ eq_refl). by apply clean_cons. Qed.

Definition kept A (s : St) : Prop := ok s ∧ store_rep (view s) A.

Lemma wp_set_labels A s ns pod labels :
  kept A s → clean [ns] → clean [pod] → Forall (λ kv : string * string, clean [kv.1]) labels →
  wp (set_labels ns pod labels) (λ _, kept A) s.
Proof.
  intros Hs Hns Hpod. revert s Hs. induction labels as [|[k v] labels IH]; intros s [Hok Hrep] Hl; [by apply wp_ret|].
  apply Forall_cons in Hl as [Hk Hl]. cbn [set_labels]. apply wp_bind. apply wp_SetWithTTL; [done|by apply label_user_key|].
  intros s' Hok' Hv. apply IH; [|done]. split; [done|]. rewrite Hv.
  apply store_rep_insert; rewrite ?label_key_dir; done.
Qed.

Lemma wp_DeleteAll_labels A s ks :
  kept A s → Forall label_dir ks → Forall (λ k, user_key k = true) ks → wp (ds_DeleteAll ks) (λ _, kept A) s.
Proof.
  intros [Hok Hrep] Hd Hk. apply wp_DeleteAll; [done|done|]. intros s' Hok' Hv. split; [done|].
  rewrite Hv. by apply store_rep_delete.
Qed.

(** The keys of a pod's labels. *)
Lemma label_keys_ok ns pod (kvs : list (string * bool)) :
  clean [ns] → clean [pod] → (∀ kv, kv ∈ kvs → clean [kv.1]) →
  Forall label_dir ((λ kv, getNSLabelPodUpdateKey ns kv.1 pod) <$> kvs) ∧
  Forall (λ k, user_key k = true) ((λ kv, getNSLabelPodUpdateKey ns kv.1 pod) <$> kvs).
Proof.
  intros Hns Hpod Hk. split; apply Forall_fmap, Forall_forall; intros kv Hkv.
  - left. apply label_key_dir; auto.
  - change (user_key (getNSLabelPodUpdateKey ns kv.1 pod) = true). apply label_user_key; auto.
Qed.

Lemma wp_SetPodLabels A s ns pod labels :
  kept A s → clean [ns] → clean [pod] → (∀ k, is_Some (labels !! k) → clean [k]) →
  wp (SetPodLabels lo ko ns pod labels) (λ _, kept A) s.
Proof using JS lo_perm ko_perm DatastoreSpec0.
  intros [Hok Hrep] Hns Hpod Hl. unfold SetPodLabels. apply wp_bind, wp_Get; [done|by apply pod_user_key|].
  apply wp_bind. apply (wp_mono _ (λ keys s', s' = s ∧ ∀ x, is_Some (keys !! x) → clean [x])).
  { destruct (view s !! _) as [b|] eqn:E; cbn [label_keys].
    - destruct Hrep as (_ & _ & Hlab). destruct (Hlab _ b (pod_key_dir ns pod Hns Hpod) E) as (keys & -> & Hk).
      by apply wp_lift_inr.
    - apply wp_ret. split; [done|]. by intros x [? ?]. }
  intros existing s1 [-> Hex]. apply wp_bind. eapply wp_mono.
  { apply (wp_set_labels A s ns pod (lo labels)); [done|done|done|]. apply Forall_forall. intros [k v] Hkv.
    rewrite lo_perm in Hkv. apply elem_of_map_to_list in Hkv. apply Hl. eauto. }
  intros [] s2 Hs2. cbv zeta. apply wp_bind.
  set (kvs := filter _ (ko existing)).
  destruct (label_keys_ok ns pod kvs Hns Hpod) as [Hd Hu].
  { intros kv [_ Hkv]%list_elem_of_filter. by apply Hex, ko_keys. }
  apply (wp_mono _ (λ _, kept A)).
  { destruct ((λ kv, _) <$> kvs) eqn:E; [by apply wp_ret|]. by apply wp_DeleteAll_labels. }
  intros [] s3 [Hok3 Hrep3]. set (keys := (λ _, true) <$> labels : gmap string bool).
  destruct (proto_roundtrip keys) as (b & -> & Hb). apply wp_bind, wp_lift_inr.
  apply wp_SetWithTTL; [done|by apply pod_user_key|]. intros s4 Hok4 Hv. split; [done|]. rewrite Hv.
  apply (store_rep_label_keys _ _ _ _ keys); [by apply pod_key_dir|done| |done].
  intros x. unfold keys. rewrite lookup_fmap, fmap_is_Some. apply Hl.
Qed.

Lemma wp_DeletePodLabels A s ns pod :
  kept A s → clean [ns] → clean [pod] → wp (DeletePodLabels ko ns pod) (λ _, kept A) s.
Proof using ko_perm DatastoreSpec0.
  intros [Hok Hrep] Hns Hpod. unfold DeletePodLabels. apply wp_bind, wp_Get; [done|by apply pod_user_key|].
  destruct (view s !! _) as [b|] eqn:E; [|by apply wp_ret].
  destruct Hrep as (Hu & Hv & Hlab). destruct (Hlab _ b (pod_key_dir ns pod Hns Hpod) E) as (keys & -> & Hk).
  apply wp_bind, wp_lift_inr. destruct (label_keys_ok ns pod (ko keys) Hns Hpod) as [Hd Huk].
  { intros kv Hkv. by apply Hk, ko_keys. }
  apply wp_DeleteAll_labels; [done|..]; apply Forall_app; (split; [done|]); apply Forall_singleton.
  - right. by apply pod_key_dir.
  - by apply pod_user_key.
Qed.

(** The names of a pod and its labels are paths. *)
Definition pod_paths_ok (p : option Pod) : Prop :=
  ∀ md, p ≫= pod_Metadata = Some md →
    clean [md_Namespace md] ∧ clean [md_Name md] ∧
    ∀ labels k, md_Labels md = Some labels → is_Some (labels !! k) → clean [k].

Lemma wp_UpdatePodLabelStore l0 h A update :
  hrep l0 h A → pod_paths_ok (GetPod update) →
  wp (logged (mds_call (UpdatePodLabelStore lo ko update))) (λ _ h', hrep l0 h' A ∧ same_rest h h') h.
Proof using JS lo_perm ko_perm DatastoreSpec0.
  intros (Hok & Hup & Hrep & Hlog) Hp. apply wp_logged, wp_mds_call.
  assert (wp (UpdatePodLabelStore lo ko update) (λ _, kept A) (mds h)) as Hw.
  { unfold UpdatePodLabelStore. unfold pod_paths_ok in Hp. set (md := GetPod update ≫= pod_Metadata) in *.
    set (ns := match default "" (md_Namespace <$> md) with "" => "default" | ns => ns end).
    assert (clean [ns] ∧ clean [default "" (md_Name <$> md)] ∧
      ∀ k, is_Some (default ∅ (md ≫= md_Labels) !! k) → clean [k]) as (Hns & Hname & Hl).
    { unfold ns. destruct md as [md|]; cbn.
      - destruct (Hp md eq_refl) as (H1 & H2 & H3). split_and!; [|done|].
        + destruct (md_Namespace md) eqn:E; [by apply clean_good; constructor|done].
        + intros k. destruct (md_Labels md) as [labels|] eqn:E; [by apply H3|]. by intros [? ?].
      - split_and!; [by apply clean_good; constructor|constructor|]. by intros k [? ?]. }
    destruct (default PHASE_UNKNOWN _); [by apply wp_DeletePodLabels|by apply wp_ret|by apply wp_SetPodLabels|
      by apply wp_DeletePodLabels..]. }
  eapply wp_mono; [exact Hw|]. intros [] s' [Hok' Hrep']. split; [|done]. by split_and!.
Qed.
End rep.
