(* ===== verification/K8sProcessors.v ===== *)
(** * What the processors promise the handler

    For every type of resource: a processor neither crashes nor hangs on a
    well-formed resource, keeps the shared state well formed, and hands the handler
    updates that are ordered by version and end with one for Kelvin. *)

From S2P Require Import Prelude GoLib Uuid Messages MessageBus GoNet ServiceCIDR K8sMessages K8sStore K8sHandler K8sAbs.
From Stdlib Require Import Ascii.

(** ** Well-formed resources and state *)

(** The IP of a node, or the empty string for a pod that is not scheduled. *)
Definition ip_ok (ip : string) : Prop :=
  (good_comp ip = true ∧ ip ≠ KelvinUpdateTopic ∧ ip ≠ unscopedTopic) ∨ ip = "".

Lemma ip_topic_ok ip : ip_ok ip → topic_ok ip.
Proof. intros [[H _]| ->]; [by left|by right]. Qed.

(** What the conversion from the API objects guarantees, with all service
    addresses of the family [fam]. *)
Definition res_ok (fam : bool) (r : K8SResource) : Prop :=
  match r with
  | K8SResource_Pod p =>
    is_Some (pod_Metadata p) ∧ (∃ st, pod_Status p = Some st ∧ ip_ok (pst_HostIP st)) ∧ pod_paths_ok (Some p)
  | K8SResource_Container _ => True
  | K8SResource_Service s =>
    is_Some (svc_Metadata s) ∧ ∃ spec, svc_Spec s = Some spec ∧ parsed fam (To16 (ParseIP (ss_ClusterIP spec)))
  | K8SResource_Endpoints e => is_Some (ep_Metadata e)
  | K8SResource_Namespace n => is_Some (ns_Metadata n)
  | K8SResource_Node n =>
    is_Some (node_Metadata n) ∧ is_Some (node_Spec n) ∧
    ∃ st, node_Status n = Some st ∧ ∀ a, a ∈ nst_Addresses st → ip_ok (na_Address a)
  | K8SResource_ReplicaSet r => is_Some (rs_Metadata r) ∧ is_Some (rs_Spec r) ∧ is_Some (rs_Status r)
  | K8SResource_Deployment d => is_Some (dep_Metadata d) ∧ is_Some (dep_Spec d) ∧ is_Some (dep_Status d)
  end.

Definition obj_ok (fam : bool) (obj : option K8SResource) : Prop :=
  match obj with Some r => res_ok fam r | None => True end.

(** How many updates a resource takes: a pod one more than it has containers. *)
Definition obj_cost (obj : option K8SResource) : nat :=
  match obj with
  | Some (K8SResource_Pod p) =>
    Datatypes.S (match pod_Status p with Some st => length (pst_ContainerStatuses st) | None => 0 end)
  | _ => 1
  end.

Definition cidr_ok (fam : bool) (c : option IPNet) : Prop :=
  match c with
  | None => True
  | Some n => ∃ v k seen, addr16 v ∧ is_v4 v = fam ∧ least_net v k seen ∧ n = net_of v k
  end.

Definition ps_ok (fam : bool) (st : ProcessorState) : Prop :=
  (∀ n ip, NodeToIP st !! n = Some ip → ip_ok ip) ∧ (∀ p ip, PodToIP st !! p = Some ip → ip_ok ip) ∧
  cidr_ok fam (ServiceCIDR st).

(** ** The updates of one event *)

Definition ou_version (o : OutgoingUpdate) : Z := ru_UpdateVersion (ou_Update o).

(** The updates of an event that takes the [n] versions after [uv]; updates stored
    under one topic and version are the same. *)
Record event_out (scoped : bool) (uv : Z) (n : nat) (os : list OutgoingUpdate) : Prop := mkEventOut {
  eo_range : ∀ o, o ∈ os → (uv < ou_version o ≤ uv + Z.of_nat n)%Z;
  eo_sorted : StronglySorted (λ o o', (ou_version o ≤ ou_version o')%Z) os;
  eo_topics : ∀ o t, o ∈ os → t ∈ ou_Topics o → topic_ok t ∧ t ≠ unscopedTopic;
  eo_kelvin : ∃ o os', os = os' ++ [o] ∧ ou_version o = (uv + Z.of_nat n)%Z ∧ KelvinUpdateTopic ∈ ou_Topics o;
  eo_agree : ∀ o o', o ∈ os → o' ∈ os → (scoped = true → ∃ t, t ∈ ou_Topics o ∧ t ∈ ou_Topics o') →
    ou_version o = ou_version o' → ou_Update o = ou_Update o'
}.

Lemma kelvin_topic_ok : topic_ok KelvinUpdateTopic ∧ KelvinUpdateTopic ≠ unscopedTopic.
Proof. split; [by left|done]. Qed.

Lemma ip_topic ip : ip_ok ip → topic_ok ip ∧ ip ≠ unscopedTopic.
Proof. intros H. split; [by apply ip_topic_ok|]. destruct H as [(_ & _ & H)| ->]; done. Qed.

Lemma event_out_one scoped uv u ts :
  ru_UpdateVersion u = (uv + 1)%Z → KelvinUpdateTopic ∈ ts → (∀ t, t ∈ ts → topic_ok t ∧ t ≠ unscopedTopic) →
  event_out scoped uv 1 [mkOutgoingUpdate u ts].
Proof.
  intros Hu Hk Hts. split.
  - intros o ->%list_elem_of_singleton. unfold ou_version. simpl. lia.
  - repeat constructor.
  - intros o t ->%list_elem_of_singleton. apply Hts.
  - by exists (mkOutgoingUpdate u ts), [].
  - by intros o o' ->%list_elem_of_singleton ->%list_elem_of_singleton.
Qed.

(** ** The interface *)

(** [acc] are the resources the processor accepts. *)
Class ProcessorSpec (fam : bool) (p : UpdateProcessor) (acc : K8SResource → Prop) : Prop := {
  proc_SetDeleted now now' obj st : obj_ok fam obj →
    wp (SetDeleted p now now' obj) (λ obj' st', st' = st ∧ obj_ok fam obj' ∧ obj_cost obj' = obj_cost obj) st;
  proc_ValidateUpdate obj st : obj_ok fam obj → ps_ok fam st →
    wp (ValidateUpdate p obj) (λ r st', ps_ok fam st' ∧ obj_ok fam r.2 ∧ obj_cost r.2 = obj_cost obj ∧
      (r.1 = true → ∃ x, r.2 = Some x ∧ acc x)) st;
  proc_updates x st uv : acc x → res_ok fam x → ps_ok fam st →
    wp (GetStoredProtos p (Some x)) (λ updates st', st' = st ∧ length updates = obj_cost (Some x) ∧
      wp (GetUpdatesToSend p (number uv updates)) (λ os st'', st'' = st ∧
        event_out (IsNodeScoped p) uv (length updates) os) st) st
}.

(** The objects of another type, and those accepted as they are. *)
Section shared.
Context (fam : bool).

Lemma wp_same (obj : option K8SResource) (st : ProcessorState) :
  obj_ok fam obj → wp (mret obj) (λ obj' st', st' = st ∧ obj_ok fam obj' ∧ obj_cost obj' = obj_cost obj) st.
Proof. intros H. apply wp_ret. exact (conj eq_refl (conj H eq_refl)). Qed.

Lemma wp_verdict (valid : bool) obj (acc : K8SResource → Prop) st :
  obj_ok fam obj → ps_ok fam st → (valid = true → ∃ x, obj = Some x ∧ acc x) →
  wp (mret (valid, obj)) (λ r st', ps_ok fam st' ∧ obj_ok fam r.2 ∧ obj_cost r.2 = obj_cost obj ∧
      (r.1 = true → ∃ x, r.2 = Some x ∧ acc x)) st.
Proof. intros H Hst Hv. apply wp_ret. exact (conj Hst (conj H (conj eq_refl Hv))). Qed.

Lemma wp_reject obj (acc : K8SResource → Prop) st :
  obj_ok fam obj → ps_ok fam st →
  wp (mret (false, obj)) (λ r st', ps_ok fam st' ∧ obj_ok fam r.2 ∧ obj_cost r.2 = obj_cost obj ∧
      (r.1 = true → ∃ x, r.2 = Some x ∧ acc x)) st.
Proof. intros H Hst. by apply wp_verdict. Qed.
End shared.

Lemma wp_setDeletedPtr {S} now md (Q : option ObjectMetadata → S → Prop) s :
  Q (Some (setDeleted now md)) s → wp (setDeletedPtr now (Some md)) Q s.
Proof. intros H. unfold setDeletedPtr. by apply wp_bind, wp_deref, wp_ret. Qed.

Lemma setDeleted_names now md :
  md_Namespace (setDeleted now md) = md_Namespace md ∧ md_Name (setDeleted now md) = md_Name md ∧
  md_Labels (setDeleted now md) = md_Labels md.
Proof. unfold setDeleted. by destruct (_ =? _)%Z. Qed.

Section simple.
Context (fam : bool) (node_order : gmap string string → list (string * string)).
Context (node_order_perm : ∀ m, node_order m ≡ₚ map_to_list m).

Lemma all_agents_ok st t :
  ps_ok fam st → t ∈ all_agents node_order st → topic_ok t ∧ t ≠ unscopedTopic.
Proof using node_order_perm.
  intros (Hn & _) [->|Ht]%elem_of_cons; [apply kelvin_topic_ok|].
  rewrite node_order_perm in Ht. apply list_elem_of_fmap in Ht as ([n ip] & -> & Hip%elem_of_map_to_list).
  by eapply ip_topic, Hn.
Qed.

Definition is_namespace (x : K8SResource) : Prop := is_Some (GetNamespace (Some x)).
Definition is_replicaset (x : K8SResource) : Prop := is_Some (GetReplicaSet (Some x)).
Definition is_deployment (x : K8SResource) : Prop := is_Some (GetDeployment (Some x)).
Definition is_node (x : K8SResource) : Prop := is_Some (GetNode (Some x)).
Definition is_service (x : K8SResource) : Prop := is_Some (GetService (Some x)).
Definition is_endpoints (x : K8SResource) : Prop := is_Some (GetEndpoints (Some x)).
Definition is_pod (x : K8SResource) : Prop := is_Some (GetPod (Some x)).

(** One object stored as it is and sent as one update. *)
Lemma proc_one scoped (send : list StoredUpdate → M ProcessorState (list OutgoingUpdate)) x st uv :
  obj_cost (Some x) = 1 →
  wp (send [mkStoredUpdate x (uv + 1)]) (λ os st', st' = st ∧ ∃ u ts, os = [mkOutgoingUpdate u ts] ∧
    ru_UpdateVersion u = (uv + 1)%Z ∧ KelvinUpdateTopic ∈ ts ∧ ∀ t, t ∈ ts → topic_ok t ∧ t ≠ unscopedTopic) st →
  wp (mret (option_list (Some x))) (λ updates st', st' = st ∧ length updates = obj_cost (Some x) ∧
    wp (send (number uv updates)) (λ os st'', st'' = st ∧ event_out scoped uv (length updates) os) st) st.
Proof.
  intros Hc H. apply wp_ret. refine (conj eq_refl (conj (eq_sym Hc) _)). eapply wp_mono; [exact H|].
  intros os st' (-> & u & ts & -> & Hu & Hk & Hts). split; [done|]. by apply event_out_one.
Qed.

#[export] Instance namespace_spec : ProcessorSpec fam (NamespaceUpdateProcessor.processor node_order) is_namespace.
Proof using node_order_perm.
  split.
  - intros now now' [[]|] st Hobj; try by apply wp_same. destruct Hobj as [md E].
    unfold SetDeleted, NamespaceUpdateProcessor.processor, NamespaceUpdateProcessor.SetDeleted. cbn [GetNamespace].
    rewrite E. apply wp_bind, wp_setDeletedPtr, wp_ret. split_and!; simpl; eauto.
  - intros [[]|] st Hobj Hst; try by apply wp_reject. apply wp_verdict; [done|done|]. unfold is_namespace. eauto.
  - intros x st uv [n Hx] Hres Hst. destruct x; try done. destruct Hres as [md E]. apply proc_one; [done|].
    unfold GetUpdatesToSend, NamespaceUpdateProcessor.processor, NamespaceUpdateProcessor.GetUpdatesToSend, getResourceUpdateFromNamespace.
    cbn [GetNamespace sup_Update sup_UpdateVersion]. repeat (rewrite ?E; wp_step). cbv beta. split; [done|].
    do 2 eexists. split; [done|]. split_and!; [done|by left|]. intros t. by apply all_agents_ok.
Qed.

#[export] Instance replicaset_spec : ProcessorSpec fam (ReplicaSetUpdateProcessor.processor node_order) is_replicaset.
Proof using node_order_perm.
  split.
  - intros now now' [[]|] st Hobj; try by apply wp_same. destruct Hobj as ([md E] & Hrest).
    unfold SetDeleted, ReplicaSetUpdateProcessor.processor, ReplicaSetUpdateProcessor.SetDeleted. cbn [GetReplicaSet].
    rewrite E. apply wp_bind, wp_setDeletedPtr, wp_ret. split_and!; simpl; eauto; tauto.
  - intros [[]|] st Hobj Hst; try by apply wp_reject. apply wp_verdict; [done|done|]. unfold is_replicaset. eauto.
  - intros x st uv [n Hx] Hres Hst. destruct x; try done. destruct Hres as ([md E] & [spec Es] & [status Et]).
    apply proc_one; [done|].
    unfold GetUpdatesToSend, ReplicaSetUpdateProcessor.processor, ReplicaSetUpdateProcessor.GetUpdatesToSend, getResourceUpdateFromReplicaSet.
    cbn [GetReplicaSet sup_Update sup_UpdateVersion]. repeat (rewrite ?E, ?Es, ?Et; wp_step). cbv beta. split; [done|].
    do 2 eexists. split; [done|]. split_and!; [done|by left|]. intros t. by apply all_agents_ok.
Qed.

#[export] Instance deployment_spec : ProcessorSpec fam (DeploymentUpdateProcessor.processor node_order) is_deployment.
Proof using node_order_perm.
  split.
  - intros now now' [[]|] st Hobj; try by apply wp_same. destruct Hobj as ([md E] & Hrest).
    unfold SetDeleted, DeploymentUpdateProcessor.processor, DeploymentUpdateProcessor.SetDeleted. cbn [GetDeployment].
    rewrite E. apply wp_bind, wp_setDeletedPtr, wp_ret. split_and!; simpl; eauto; tauto.
  - intros [[]|] st Hobj Hst; try by apply wp_reject. apply wp_verdict; [done|done|]. unfold is_deployment. eauto.
  - intros x st uv [n Hx] Hres Hst. destruct x; try done. destruct Hres as ([md E] & [spec Es] & [status Et]).
    apply proc_one; [done|].
    unfold GetUpdatesToSend, DeploymentUpdateProcessor.processor, DeploymentUpdateProcessor.GetUpdatesToSend, getResourceUpdateFromDeployment.
    cbn [GetDeployment sup_Update sup_UpdateVersion]. repeat (rewrite ?E, ?Es, ?Et; wp_step). cbv beta. split; [done|].
    do 2 eexists. split; [done|]. split_and!; [done|by left|]. intros t. by apply all_agents_ok.
Qed.

Lemma internal_ip_in addrs ip :
  NodeUpdateProcessor.internal_ip addrs = Some ip → ∃ a, a ∈ addrs ∧ na_Address a = ip.
Proof.
  induction addrs as [|a addrs IH]; [done|]. cbn. case_decide.
  - intros [= <-]. exists a. split; [by left|done].
  - intros H'. destruct (IH H') as (b & ? & ?). exists b. split; [by right|done].
Qed.

#[export] Instance node_spec : ProcessorSpec fam NodeUpdateProcessor.processor is_node.
Proof.
  split.
  - intros now now' [[]|] st Hobj; try by apply wp_same. destruct Hobj as ([md E] & Hrest).
    unfold SetDeleted, NodeUpdateProcessor.processor, NodeUpdateProcessor.SetDeleted. cbn [GetNode].
    rewrite E. apply wp_bind, wp_setDeletedPtr, wp_ret. split_and!; simpl; eauto; tauto.
  - intros [[]|] st Hobj Hst; try by apply wp_reject. pose proof Hobj as ([md E] & _ & status & Es & Hips).
    unfold ValidateUpdate, NodeUpdateProcessor.processor, NodeUpdateProcessor.ValidateUpdate. cbn [GetNode].
    assert (∃ y, Some (K8SResource_Node x) = Some y ∧ is_node y) as Hacc by (unfold is_node; eauto).
    rewrite E. apply wp_bind, wp_deref. destruct Hst as (Hn & Hp & Hc). destruct (negb _).
    + apply wp_bind, wp_modify, wp_verdict; [done| |done]. split_and!; [|done|done].
      intros n ip. cbn. rewrite lookup_delete_Some. intros [_ ?]. by eapply Hn.
    + rewrite Es. apply wp_bind, wp_deref. destruct (NodeUpdateProcessor.internal_ip _) as [ip|] eqn:Ei.
      * apply wp_bind, wp_modify, wp_verdict; [done| |done]. split_and!; [|done|done].
        intros n ip'. cbn. rewrite lookup_insert_Some. intros [[_ <-]|[_ ?]]; [|by eapply Hn].
        destruct (internal_ip_in _ _ Ei) as (a & Ha & <-). by apply Hips.
      * by apply wp_verdict.
  - intros x st uv [n Hx] Hres Hst. destruct x; try done. destruct Hres as ([md E] & [spec Es] & status & Et & _).
    apply proc_one; [done|]. unfold GetUpdatesToSend, NodeUpdateProcessor.processor, NodeUpdateProcessor.GetUpdatesToSend, getResourceUpdateFromNode.
    cbn [GetNode sup_Update sup_UpdateVersion]. repeat (rewrite ?E, ?Es, ?Et; wp_step). cbv beta. split; [done|].
    do 2 eexists. split; [done|]. split_and!; [done|by left|]. intros t [->|Ht]%elem_of_cons; [apply kelvin_topic_ok|].
    destruct Hst as (Hn & _). destruct (NodeToIP st !! md_Name md) as [ip|] eqn:Ei; simpl in Ht; [|by apply not_elem_of_nil in Ht].
    apply list_elem_of_singleton in Ht as ->. by eapply ip_topic, Hn.
Qed.

#[export] Instance service_spec : ProcessorSpec fam ServiceUpdateProcessor.processor is_service.
Proof.
  split.
  - intros now now' [[]|] st Hobj; try by apply wp_same. destruct Hobj as ([md E] & Hrest).
    unfold SetDeleted, ServiceUpdateProcessor.processor, ServiceUpdateProcessor.SetDeleted. cbn [GetService].
    rewrite E. apply wp_bind, wp_setDeletedPtr, wp_ret. split_and!; simpl; eauto; tauto.
  - intros [[]|] st Hobj Hst; try by apply wp_reject. pose proof Hobj as ([md E] & spec & Es & Hip).
    unfold ValidateUpdate, ServiceUpdateProcessor.processor, ServiceUpdateProcessor.ValidateUpdate. cbn [GetService].
    assert (∃ y, Some (K8SResource_Service x) = Some y ∧ is_service y) as Hacc by (unfold is_service; eauto).
    unfold ServiceUpdateProcessor.updateServiceCIDR. rewrite Es. apply wp_bind, wp_bind, wp_deref, wp_bind, wp_get_state.
    destruct Hst as (Hn & Hp & Hc).
    assert (∃ c, add_service_ip (ServiceCIDR st) (To16 (ParseIP (ss_ClusterIP spec))) = Some c ∧ cidr_ok fam c) as (c & -> & Hc').
    { destruct (To16 _) as [|a|a]; [by eexists|done|]. destruct Hip as [Ha Hf].
      destruct (ServiceCIDR st) as [n|].
      - destruct Hc as (v & k & seen & Hv & Hfam & Hl & ->).
        destruct (add_service_ip_least v k seen a) as (j & -> & Hj); [done|done|by unfold same_family; congruence|done|].
        eexists. split; [done|]. by exists v, j, (a :: seen).
      - eexists. split; [done|]. exists a, 128%Z, [a]. split_and!; [done|done| |by apply net_of_host].
        pose proof (min_prefix_range a). split_and!; [lia|lia| |intros; lia]. by intros w ->%list_elem_of_singleton. }
    apply wp_modify, wp_verdict; [done| |done]. by split_and!.
  - intros x st uv [n Hx] Hres Hst. destruct x; try done. destruct Hres as ([md E] & spec & Es & _).
    apply proc_one; [done|]. unfold GetUpdatesToSend, ServiceUpdateProcessor.processor, ServiceUpdateProcessor.GetUpdatesToSend.
    cbn [GetService sup_Update sup_UpdateVersion]. repeat (rewrite ?E, ?Es; wp_step). cbv beta. split; [done|].
    do 2 eexists. split; [done|]. split_and!; [done|by left|]. intros t ->%list_elem_of_singleton. apply kelvin_topic_ok.
Qed.
End simple.

(** ** Endpoints *)
Section endpoints.
Import EndpointsUpdateProcessor.
Context (fam : bool) (ip_order : gmap string (list string) → list (string * list string)).
Context (ip_order_perm : ∀ m, ip_order m ≡ₚ map_to_list m).

(** The node of a pod. *)
Definition pod_ip (podToIP : gmap string string) (r : ObjectReference) : option string :=
  podToIP !! (ref_Namespace r +:+ "/" +:+ ref_Name r).

Lemma lookup_append_at ip ip' x m :
  default [] (append_at ip' x m !! ip) = default [] (m !! ip) ++ (if decide (ip = ip') then [x] else []).
Proof.
  unfold append_at. destruct (decide (ip = ip')) as [->|Hne].
  - by rewrite lookup_insert_eq.
  - rewrite lookup_insert_ne by done. by rewrite app_nil_r.
Qed.

(** The pods grouped under an IP are those on that node, in order. *)
Lemma group_by_ip_spec podToIP refs names uids ip :
  let r := group_by_ip podToIP refs names uids in
  let here := filter (λ x, pod_ip podToIP x = Some ip) refs in
  default [] (r.1 !! ip) = default [] (names !! ip) ++ (ref_Name <$> here) ∧
  default [] (r.2 !! ip) = default [] (uids !! ip) ++ (ref_UID <$> here) ∧
  (is_Some (r.1 !! ip) ↔ is_Some (names !! ip) ∨ here ≠ []).
Proof.
  cbv zeta. revert names uids. induction refs as [|x refs IH]; intros names uids.
  { cbn. rewrite !app_nil_r. naive_solver. }
  cbn [group_by_ip]. fold (pod_ip podToIP x). rewrite filter_cons. destruct (pod_ip podToIP x) as [ip'|] eqn:E.
  - destruct (IH (append_at ip' (ref_Name x) names) (append_at ip' (ref_UID x) uids)) as (IH1 & IH2 & IH3).
    rewrite IH1, IH2, IH3, !lookup_append_at. destruct (decide (ip = ip')) as [->|Hne].
    + rewrite decide_True by done. rewrite <-!app_assoc. split_and!; [done|done|].
      split; [by right|]. left. unfold append_at. rewrite lookup_insert_eq. eauto.
    + rewrite decide_False by congruence. rewrite !app_nil_r. split_and!; [done|done|].
      unfold append_at. by rewrite lookup_insert_ne.
  - rewrite decide_False by done. apply IH.
Qed.

(** The update for some pods of the endpoints. *)
Definition service_update (pb : Endpoints) (md : ObjectMetadata) (rv : Z) (uids names : list string) : ResourceUpdate :=
  mkResourceUpdate (ResourceUpdate_ServiceUpdate (mkServiceUpdate (md_UID md) (md_Name md) (md_Namespace md)
    (md_CreationTimestampNS md) (md_DeletionTimestampNS md) uids names [] "")) rv 0.

Lemma ip_updates_run pb md rv uids ips (st : ProcessorState) :
  ep_Metadata pb = Some md →
  ip_updates pb rv uids ips st = (Ret ((λ p, mkOutgoingUpdate
    (service_update pb md rv (default [] (uids !! p.1)) p.2) [p.1]) <$> ips), st).
Proof.
  intros E. induction ips as [|[ip names] ips IH]; [done|]. cbn [ip_updates]. unfold getServiceResourceUpdateFromEndpoint.
  rewrite E. erewrite bind_ret; [|reflexivity]. erewrite bind_ret; [|exact IH]. done.
Qed.

(** What is sent for an endpoints object. *)
Lemma endpoints_run pb md uv st :
  ep_Metadata pb = Some md →
  let g := group_by_ip (PodToIP st) (pod_refs pb) ∅ ∅ in
  EndpointsUpdateProcessor.GetUpdatesToSend ip_order [mkStoredUpdate (K8SResource_Endpoints pb) uv] st =
    (Ret (((λ p, mkOutgoingUpdate (service_update pb md uv (default [] (g.2 !! p.1)) p.2) [p.1]) <$> ip_order g.1)
      ++ [mkOutgoingUpdate (service_update pb md uv (ref_UID <$> pod_refs pb) (ref_Name <$> pod_refs pb))
           [KelvinUpdateTopic]]), st).
Proof.
  intros E. unfold EndpointsUpdateProcessor.GetUpdatesToSend. cbn [GetEndpoints sup_Update sup_UpdateVersion].
  erewrite bind_ret; [|reflexivity]. run_state. destruct (group_by_ip _ _ _ _) as [names uids] eqn:Eg. cbn [fst snd].
  erewrite bind_ret; [|by apply ip_updates_run]. unfold getServiceResourceUpdateFromEndpoint. rewrite E.
  erewrite bind_ret; [|reflexivity]. done.
Qed.

(** Updates of one version, the last one for Kelvin. *)
Lemma event_out_flat uv os k :
  (∀ o, o ∈ os ++ [k] → ou_version o = (uv + 1)%Z) → KelvinUpdateTopic ∈ ou_Topics k →
  (∀ o t, o ∈ os ++ [k] → t ∈ ou_Topics o → topic_ok t ∧ t ≠ unscopedTopic) →
  (∀ o o' t, o ∈ os ++ [k] → o' ∈ os ++ [k] → t ∈ ou_Topics o → t ∈ ou_Topics o' → ou_Update o = ou_Update o') →
  event_out true uv 1 (os ++ [k]).
Proof.
  intros Hv Hk Ht Ha. assert (k ∈ os ++ [k]) as Hin by (apply elem_of_app; right; by left). split; [|clear Hin| |exists k, os|]; eauto.
  - intros o Ho. rewrite Hv by done. simpl. lia.
  - generalize (os ++ [k]) Hv. intros l Hl. clear -Hl. induction l as [|o l IH]; [constructor|].
    constructor; [apply IH; intros o' ?; apply Hl; by right|].
    apply Forall_forall. intros o' Ho'. rewrite !Hl; [lia|by right|by left].
  - intros o o' Ho Ho' Hs _. destruct (Hs eq_refl) as (t & ? & ?). eauto.
Qed.

(** The updates sent are those of the IPs of known pods, and Kelvin's. *)
Lemma endpoints_outs st pb (f : string * list string → OutgoingUpdate) k o :
  ps_ok fam st → let g := group_by_ip (PodToIP st) (pod_refs pb) ∅ ∅ in
  o ∈ (f <$> ip_order g.1) ++ [k] → o = k ∨ ∃ p, o = f p ∧ g.1 !! p.1 = Some p.2 ∧ ip_ok p.1.
Proof using ip_order_perm.
  intros Hst g [Ho|Ho]%elem_of_app; [|left; by apply list_elem_of_singleton in Ho].
  right. apply list_elem_of_fmap in Ho as (p & -> & Hp). exists p. split; [done|].
  rewrite ip_order_perm in Hp. destruct p as [ip names]. apply elem_of_map_to_list in Hp. split; [done|]. cbn [fst snd] in *.
  destruct (group_by_ip_spec (PodToIP st) (pod_refs pb) ∅ ∅ ip) as (_ & _ & H3). fold g in H3.
  assert (is_Some (g.1 !! ip)) as Hs by (rewrite Hp; eauto). apply H3 in Hs as [[? ?]|Hne]; [done|].
  destruct (filter _ _) as [|r rs] eqn:Ef; [done|].
  assert (r ∈ filter (λ x, pod_ip (PodToIP st) x = Some ip) (pod_refs pb)) as [Hr _]%list_elem_of_filter
    by (rewrite Ef; by left). destruct Hst as (_ & Hpods & _). by eapply Hpods.
Qed.

#[export] Instance endpoints_spec : ProcessorSpec fam (processor ip_order) is_endpoints.
Proof using ip_order_perm.
  split.
  - intros now now' [[]|] st Hobj; try by apply wp_same. destruct Hobj as [md E].
    unfold K8sHandler.SetDeleted, processor, SetDeleted. cbn [GetEndpoints].
    rewrite E. apply wp_bind, wp_setDeletedPtr, wp_ret. split_and!; simpl; eauto.
  - intros [[]|] st Hobj Hst; try by apply wp_reject. pose proof Hobj as [md E].
    unfold K8sHandler.ValidateUpdate, processor, ValidateUpdate. cbn [GetEndpoints]. rewrite E. apply wp_bind, wp_deref.
    assert (∀ e, ∃ y, Some (K8SResource_Endpoints e) = Some y ∧ is_endpoints y) as Hacc by (unfold is_endpoints; eauto).
    destruct (match md_Annotations md with Some _ => _ | None => _ end) as [annotations|]; [|by apply wp_verdict].
    set (e := mkEndpoints (Some (strip_leader md annotations)) (ep_Subsets x)).
    assert (obj_ok fam (Some (K8SResource_Endpoints e))) as He by (by eexists).
    apply wp_bind, wp_get_state. destruct Hst as (Hn & Hp & Hc). destruct (LeaderMsgs st !! md_UID md).
    + case_decide; by apply (wp_verdict fam _ (Some (K8SResource_Endpoints e))).
    + apply wp_bind, wp_modify. by apply (wp_verdict fam _ (Some (K8SResource_Endpoints e))).
  - intros x st uv [pb Hx] Hres Hst. destruct x as [| | |e| | | |]; try done. injection Hx as ->. destruct Hres as [md E].
    apply wp_ret. refine (conj eq_refl (conj eq_refl _)).
    change (number uv (option_list (Some (K8SResource_Endpoints pb)))) with [mkStoredUpdate (K8SResource_Endpoints pb) (uv + 1)].
    unfold wp. pose proof (endpoints_run pb md (uv + 1) st E) as Er. cbv zeta in Er.
    change (K8sHandler.GetUpdatesToSend (processor ip_order)) with (GetUpdatesToSend ip_order). rewrite Er. clear Er.
    split; [done|]. set (f := λ p : string * list string, mkOutgoingUpdate _ [p.1]).
    set (k := mkOutgoingUpdate _ [KelvinUpdateTopic]).
    pose proof (λ o, endpoints_outs st pb f k o Hst) as Hos. cbv zeta in Hos. apply event_out_flat; [|by left| |].
    + intros o Ho. by destruct (Hos o Ho) as [->|(p & -> & _)].
    + intros o t Ho. destruct (Hos o Ho) as [->|(p & -> & _ & Hip)]; intros ->%list_elem_of_singleton;
        [apply kelvin_topic_ok|by apply ip_topic].
    + intros o o' t Ho Ho'. destruct (Hos o Ho) as [->|(p & -> & Hp & Hip)], (Hos o' Ho') as [->|(p' & -> & Hp' & Hip')];
        intros ->%list_elem_of_singleton Et%list_elem_of_singleton; [done| | |].
      * rewrite <-Et in Hip'. destruct Hip' as [(_ & ? & _)|?]; done.
      * rewrite Et in Hip. destruct Hip as [(_ & ? & _)|?]; done.
      * destruct p as [a b], p' as [a' b']. cbn [fst snd] in *. subst a'. rewrite Hp in Hp'. by injection Hp' as ->.
Qed.

(** What the endpoints processor sends: to every node with pods of the endpoints
    one update with exactly those pods, in order, to Kelvin one with all of them,
    and nothing to other nodes. *)
Theorem endpoints_reach_their_nodes pb md uv st :
  ep_Metadata pb = Some md →
  ∃ os, EndpointsUpdateProcessor.GetUpdatesToSend ip_order [mkStoredUpdate (K8SResource_Endpoints pb) uv] st =
      (Ret (os ++ [mkOutgoingUpdate (service_update pb md uv (ref_UID <$> pod_refs pb) (ref_Name <$> pod_refs pb))
        [KelvinUpdateTopic]]), st) ∧
    NoDup (ou_Topics <$> os) ∧
    ∀ o, o ∈ os ↔ ∃ ip, let here := filter (λ r, pod_ip (PodToIP st) r = Some ip) (pod_refs pb) in
      here ≠ [] ∧ o = mkOutgoingUpdate (service_update pb md uv (ref_UID <$> here) (ref_Name <$> here)) [ip].
Proof using ip_order_perm.
  intros E. eexists. split; [exact (endpoints_run pb md uv st E)|]. set (g := group_by_ip _ _ _ _).
  assert (∀ p, p ∈ ip_order g.1 ↔ g.1 !! p.1 = Some p.2) as Hin.
  { intros [ip names]. rewrite ip_order_perm. apply elem_of_map_to_list. }
  split.
  - rewrite <-list_fmap_compose. rewrite (ip_order_perm g.1).
    apply NoDup_fmap_2_strong; [|apply NoDup_map_to_list].
    intros [i b] [i' b'] Hi%elem_of_map_to_list Hi'%elem_of_map_to_list Ei. cbn in Ei. injection Ei as <-.
    rewrite Hi in Hi'. by injection Hi' as ->.
  - intros o. rewrite list_elem_of_fmap. split.
    + intros ([ip names] & -> & Hp%Hin). cbn [fst snd] in *. exists ip. cbv zeta.
      destruct (group_by_ip_spec (PodToIP st) (pod_refs pb) ∅ ∅ ip) as (H1 & H2 & H3). fold g in H1, H2, H3.
      rewrite Hp in H1, H3. cbn in H1, H2. rewrite H2. subst names. split; [|done].
      destruct H3 as [H3 _]. destruct (H3 ltac:(eauto)) as [[? ?]|?]; done.
    + intros (ip & Hne & ->). destruct (group_by_ip_spec (PodToIP st) (pod_refs pb) ∅ ∅ ip) as (H1 & H2 & H3).
      fold g in H1, H2, H3. destruct (proj2 H3 (or_intror Hne)) as [names Hn]. exists (ip, names). rewrite Hin.
      rewrite Hn in H1. cbn in H1, H2 |- *. rewrite H2. subst names. split; [done|exact Hn].
Qed.

(** The endpoints without their leader annotation. *)
Definition without_leader (md : ObjectMetadata) (annotations : gmap string string) (ss : list EndpointSubset) : Endpoints :=
  mkEndpoints (Some (strip_leader md annotations)) ss.

(** An endpoints object with a leader annotation is compared with the first one
    seen of its UID, not with the last one: going back to the first content is
    dropped, although another content was sent in between. *)
Theorem leader_change_back_dropped (md1 md2 : ObjectMetadata) annotations1 annotations2 ss1 ss2 st :
  md_UID md2 = md_UID md1 → LeaderMsgs st !! md_UID md1 = None →
  md_Annotations md1 = Some annotations1 → is_Some (annotations1 !! leaderAnnotation) →
  md_Annotations md2 = Some annotations2 → is_Some (annotations2 !! leaderAnnotation) →
  let e1 := mkEndpoints (Some md1) ss1 in let e2 := mkEndpoints (Some md2) ss2 in
  let r1 := without_leader md1 annotations1 ss1 in let r2 := without_leader md2 annotations2 ss2 in
  r1 ≠ r2 → has_node e1 = true → has_node e2 = true →
  ∃ st', EndpointsUpdateProcessor.ValidateUpdate (Some (K8SResource_Endpoints e1)) st =
      (Ret (true, Some (K8SResource_Endpoints r1)), st') ∧
    EndpointsUpdateProcessor.ValidateUpdate (Some (K8SResource_Endpoints e2)) st' =
      (Ret (true, Some (K8SResource_Endpoints r2)), st') ∧
    EndpointsUpdateProcessor.ValidateUpdate (Some (K8SResource_Endpoints e1)) st' =
      (Ret (false, Some (K8SResource_Endpoints r1)), st').
Proof.
  intros Huid Hnone Ha1 Hl1 Ha2 Hl2 e1 e2 r1 r2 Hne Hn1 Hn2.
  exists (with_LeaderMsgs (<[md_UID md1 := r1]> (LeaderMsgs st)) st).
  unfold EndpointsUpdateProcessor.ValidateUpdate. cbn [GetEndpoints e1 e2 ep_Metadata ep_Subsets].
  split_and!; (erewrite bind_ret; [|reflexivity]); rewrite ?Ha1, ?Ha2, decide_True by done; run_state.
  - rewrite Hnone. erewrite bind_ret; [|reflexivity]. replace (has_node _) with true by (symmetry; exact Hn1). done.
  - cbn [with_LeaderMsgs LeaderMsgs]. rewrite Huid, lookup_insert_eq, decide_False by (intros E; by apply Hne).
    replace (has_node _) with true by (symmetry; exact Hn2). done.
  - cbn [with_LeaderMsgs LeaderMsgs]. rewrite lookup_insert_eq, decide_True by done. done.
Qed.
End endpoints.

(** ** Pods *)

Lemma number_versions uv updates :
  sup_UpdateVersion <$> number uv updates = seqZ (uv + 1) (Z.of_nat (length updates)).
Proof.
  revert uv. induction updates as [|x updates IH]; intros uv; [done|]. cbn [number fmap list_fmap length].
  rewrite Nat2Z.inj_succ, seqZ_cons by lia. cbn [sup_UpdateVersion]. f_equal. rewrite Z.pred_succ.
  replace (Z.succ (uv + 1)) with (uv + 1 + 1)%Z by lia. apply IH.
Qed.

Lemma number_updates uv updates : sup_Update <$> number uv updates = updates.
Proof. revert uv. induction updates as [|x updates IH]; intros uv; [done|]. cbn. f_equal. apply IH. Qed.

Lemma seqZ_sorted i n : StronglySorted Z.le (seqZ i n).
Proof.
  unfold seqZ. generalize (Z.to_nat n) as k. intros k. generalize 0 as o.
  induction k as [|k IH]; intros o; [constructor|]. cbn. constructor; [apply IH|].
  apply Forall_forall. intros z (j & -> & Hj)%list_elem_of_fmap. apply elem_of_seq in Hj. lia.
Qed.

Lemma NoDup_fmap_elem {A B} (f : A → B) (l : list A) x y :
  NoDup (f <$> l) → x ∈ l → y ∈ l → f x = f y → x = y.
Proof.
  induction l as [|z l IH]; [by intros _ ?%not_elem_of_nil|]. rewrite fmap_cons, NoDup_cons. intros [Hz Hnd].
  intros [->|Hx]%elem_of_cons [->|Hy]%elem_of_cons E; [done| | |by apply IH].
  - exfalso. apply Hz. rewrite E. by apply list_elem_of_fmap_2.
  - exfalso. apply Hz. rewrite <-E. by apply list_elem_of_fmap_2.
Qed.

(** Updates that take consecutive versions, all to the same topics. *)
Lemma event_out_numbered scoped uv n os ts :
  0 < n → ou_version <$> os = seqZ (uv + 1) (Z.of_nat n) → (∀ o, o ∈ os → ou_Topics o = ts) →
  KelvinUpdateTopic ∈ ts → (∀ t, t ∈ ts → topic_ok t ∧ t ≠ unscopedTopic) → event_out scoped uv n os.
Proof.
  intros Hn Hv Hts Hk Htop. split.
  - intros o Ho. apply (list_elem_of_fmap_2 ou_version) in Ho. rewrite Hv, elem_of_seqZ in Ho. lia.
  - apply (StronglySorted_fmap_inv ou_version _ Z.le); [done|]. rewrite Hv. apply seqZ_sorted.
  - intros o t Ho. rewrite (Hts o Ho). apply Htop.
  - destruct os as [|o os _] using rev_ind.
    { apply (f_equal length) in Hv. rewrite length_seqZ in Hv. cbn [fmap list_fmap length] in Hv. lia. }
    exists o, os. rewrite fmap_app in Hv. replace (Z.of_nat n) with (Z.of_nat (n - 1) + 1)%Z in Hv by lia.
    rewrite seqZ_app in Hv by lia. apply app_inj_tail in Hv as [_ Hv]. split_and!; [done|rewrite Hv; lia|].
    rewrite Hts; [done|]. apply elem_of_app. right. by left.
  - intros o o' Ho Ho' _ E. f_equal. apply (NoDup_fmap_elem ou_version os); [|done..].
    rewrite Hv. apply NoDup_seqZ.
Qed.

Section pods.
Import PodUpdateProcessor.
Context (fam : bool) (MergeCIDRs : list string → error + list string) (json_labels : gmap string string → string).

(** A stored update that can be sent. *)
Definition pod_or_container (x : K8SResource) : Prop :=
  match x with
  | K8SResource_Container _ => True
  | K8SResource_Pod p => is_Some (pod_Metadata p) ∧ is_Some (pod_Status p)
  | _ => False
  end.

Lemma pod_updates_run ts sps (st : ProcessorState) :
  (∀ sp, sp ∈ sps → pod_or_container (sup_Update sp)) →
  ∃ os, pod_updates json_labels ts sps st = (Ret os, st) ∧ ou_version <$> os = sup_UpdateVersion <$> sps ∧
    ∀ o, o ∈ os → ou_Topics o = ts.
Proof.
  induction sps as [|sp sps IH]; intros Hsp; [exists []; split_and!; [done|done|by intros o ?%not_elem_of_nil]|].
  destruct IH as (os & E & Hv & Ht); [intros sp' ?; apply Hsp; by right|].
  pose proof (Hsp sp ltac:(by left)) as Hx. cbn [pod_updates]. destruct (sup_Update sp) as [p|c| | | | | |]; try done.
  - destruct Hx as [[md Em] [status Es]]. cbn [GetContainer GetPod]. unfold getResourceUpdateFromPod. rewrite Em, Es.
    destruct (match pod_Spec p with Some _ => _ | None => _ end) as [nn hn] eqn:En.
    eexists. split.
    { erewrite bind_ret; [|erewrite bind_ret; [|reflexivity]; erewrite bind_ret; [|reflexivity]; reflexivity].
      erewrite bind_ret; [|exact E]. reflexivity. }
    split; [by rewrite !fmap_cons, Hv|]. by intros o [->|Ho]%elem_of_cons; [|by apply Ht].
  - cbn [GetContainer]. eexists. split; [erewrite bind_ret; [|exact E]; reflexivity|].
    split; [by rewrite !fmap_cons, Hv|]. by intros o [->|Ho]%elem_of_cons; [|by apply Ht].
Qed.

(** What is stored for a pod: its containers, then the pod. *)
Lemma pod_stored_run p status (st : ProcessorState) :
  is_Some (pod_Metadata p) → pod_Status p = Some status →
  ∃ cs, GetStoredProtos (Some (K8SResource_Pod p)) st =
      (Ret ((K8SResource_Container <$> cs) ++ [K8SResource_Pod p]), st) ∧
    length cs = length (pst_ContainerStatuses status) ∧
    cu_CID <$> cs = (λ s, (formatContainerID (cst_ContainerID s)).2) <$> pst_ContainerStatuses status.
Proof.
  intros [md Em] Es. unfold GetStoredProtos, GetContainerUpdatesFromPod. cbn [GetPod].
  destruct (pst_ContainerStatuses status) as [|s ss] eqn:Ec.
  - exists []. split_and!; [|done|done]. erewrite bind_ret; [|reflexivity].
    erewrite bind_ret; [|rewrite Es; erewrite bind_ret; [|reflexivity]; rewrite Ec; reflexivity]. done.
  - eexists. split_and!.
    + erewrite bind_ret; [|reflexivity]. erewrite bind_ret; [reflexivity|].
      rewrite Es. erewrite bind_ret; [|reflexivity]. rewrite Ec, Em. erewrite bind_ret; reflexivity.
    + by rewrite length_fmap.
    + rewrite <-list_fmap_compose. apply list_fmap_ext. intros i x _. cbn. by destruct (formatContainerID _).
Qed.

#[export] Instance pod_spec : ProcessorSpec fam (processor MergeCIDRs json_labels) is_pod.
Proof.
  split.
  - intros now now' [[]|] st Hobj; try by apply wp_same. destruct Hobj as ([md E] & (status & Es & Hip) & Hp).
    unfold K8sHandler.SetDeleted, processor, SetDeleted. cbn [GetPod].
    rewrite E, Es. apply wp_bind, wp_setDeletedPtr, wp_bind, wp_deref, wp_ret.
    refine (conj eq_refl (conj (conj _ (conj _ _)) _)); [by eexists|by eexists| |simpl; by rewrite Es, length_fmap].
    unfold pod_paths_ok in *. cbn in *.
    intros md' [= <-]. destruct (setDeleted_names now md) as (-> & -> & ->). by apply Hp.
  - intros [[]|] st Hobj Hst; try by apply wp_reject. pose proof Hobj as ([md E] & (status & Es & Hip) & Hp).
    assert (∃ y, Some (K8SResource_Pod x) = Some y ∧ is_pod y) as Hacc by (unfold is_pod; eauto).
    unfold K8sHandler.ValidateUpdate, processor, ValidateUpdate, updatePodCIDR. cbn [GetPod]. rewrite E, Es.
    apply wp_bind. apply (wp_mono _ (λ _, ps_ok fam)).
    { apply wp_bind, wp_deref. case_decide; [by apply wp_ret|]. apply wp_bind, wp_get_state.
      destruct (MergeCIDRs _); [by apply wp_ret|]. apply wp_modify. destruct Hst as (? & ? & ?). by split_and!. }
    intros [] st1 (Hn & Hpods & Hc). apply wp_bind, wp_deref, wp_bind. apply (wp_mono _ (λ _, ps_ok fam)).
    { destruct (negb _).
      - apply wp_modify. split_and!; [done| |done]. intros n ip. cbn. rewrite lookup_delete_Some. intros [_ ?]. by eapply Hpods.
      - apply wp_bind, wp_deref, wp_modify. split_and!; [done| |done]. intros n ip. cbn.
        rewrite lookup_insert_Some. intros [[_ <-]|[_ ?]]; [done|by eapply Hpods]. }
    intros [] st2 Hst2. by apply wp_verdict.
  - intros x st uv [p Hx] Hres Hst. destruct x; try done. injection Hx as ->. destruct Hres as (Hm & (status & Es & Hip) & _).
    destruct (pod_stored_run p status st Hm Es) as (cs & Er & Hl & _). unfold wp at 1.
    change (K8sHandler.GetStoredProtos (processor MergeCIDRs json_labels)) with GetStoredProtos. rewrite Er.
    set (updates := _ ++ _). assert (length updates = obj_cost (Some (K8SResource_Pod p))) as Hlen.
    { unfold updates. rewrite length_app, length_fmap, Hl. simpl. rewrite Es. lia. }
    refine (conj eq_refl (conj Hlen _)). unfold wp, K8sHandler.GetUpdatesToSend, processor, GetUpdatesToSend.
    assert (last (sup_Update <$> number uv updates) = Some (K8SResource_Pod p)) as Hlast.
    { rewrite number_updates. apply last_snoc. }
    rewrite fmap_last in Hlast. destruct (last (number uv updates)) as [[y vy]|] eqn:El; [|done]. injection Hlast as Hy.
    cbn [sup_Update] in *. rewrite Hy. cbn [GetPod]. rewrite Es.
    destruct (pod_updates_run [KelvinUpdateTopic; pst_HostIP status] (number uv updates) st) as (os & Eo & Hv & Ht).
    { intros sp Hsp. apply (list_elem_of_fmap_2 sup_Update) in Hsp. rewrite number_updates in Hsp.
      apply elem_of_app in Hsp as [(c & -> & _)%list_elem_of_fmap| ->%list_elem_of_singleton]; [done|]. split; [done|by eexists]. }
    erewrite bind_ret; [|erewrite bind_ret; reflexivity]. rewrite Eo. split; [done|].
    apply (event_out_numbered _ uv _ os [KelvinUpdateTopic; pst_HostIP status]); [rewrite Hlen; simpl; lia| |done|by left|].
    + by rewrite Hv, number_versions.
    + intros t [->| ->%list_elem_of_singleton]%elem_of_cons; [apply kelvin_topic_ok|by apply ip_topic].
Qed.
End pods.

(** Once the services seen have an IPv6 range, a service with an IPv4 address makes
    the handler loop for ever. *)
Theorem mixed_families_hang svc spec n w st :
  cidr_ok false (ServiceCIDR st) → ServiceCIDR st = Some n →
  svc_Spec svc = Some spec → To16 (ParseIP (ss_ClusterIP spec)) = IP16 w → is_v4 w = true →
  (∀ fuel, widen fuel n (IP16 w) = None) ∧
  ServiceUpdateProcessor.ValidateUpdate (Some (K8SResource_Service svc)) st = (Crash Hang, st).
Proof.
  intros Hc Hst Hs Hip Hw. rewrite Hst in Hc. destruct Hc as (v & k & seen & Hv & Ev & (Hk & _) & ->).
  pose proof (min_prefix_range v).
  assert (∀ fuel, widen fuel (net_of v k) (IP16 w) = None) as Hh by (intros fuel; apply v6_net_hangs; [done|done|done|lia]).
  split; [done|].
  unfold ServiceUpdateProcessor.ValidateUpdate, ServiceUpdateProcessor.updateServiceCIDR. cbn [GetService].
  unfold mbind, M_bind. rewrite Hs. cbn [deref mret M_ret get_state]. rewrite Hip, Hst. cbn [add_service_ip].
  by rewrite Hh.
Qed.

Module SampleEndpoints.
Definition state_0 : ProcessorState := mkProcessorState ∅ None [] ∅ {["ns/a" := "10.0.0.1"; "ns/b" := "10.0.0.2"]}.
Definition ref_of (name : string) : ObjectReference := mkObjectReference "Pod" "ns" name ("uid-" +:+ name) "1".
Definition subset_of (names : list string) : EndpointSubset :=
  mkEndpointSubset ((λ n, mkEndpointAddress "10.1.0.1" n "node" (Some (ref_of n))) <$> names) [] [].
Definition meta_of (m : gmap string string) : ObjectMetadata := mkObjectMetadata "svc" "ns" "uid-svc" "7" 10 0 None [] (Some m).
End SampleEndpoints.
Import SampleEndpoints.
Import EndpointsUpdateProcessor (leaderAnnotation, strip_leader).

Lemma endpoints_reach_their_nodes_witness :
  let pb := mkEndpoints (Some (meta_of ∅)) [subset_of ["a"; "b"; "c"]] in
  ∃ os, EndpointsUpdateProcessor.GetUpdatesToSend map_to_list [mkStoredUpdate (K8SResource_Endpoints pb) 4] state_0 =
      (Ret (os ++ [mkOutgoingUpdate (service_update pb (meta_of ∅) 4 ["uid-a"; "uid-b"; "uid-c"] ["a"; "b"; "c"])
        [KelvinUpdateTopic]]), state_0) ∧
    mkOutgoingUpdate (service_update pb (meta_of ∅) 4 ["uid-a"] ["a"]) ["10.0.0.1"] ∈ os.
Proof.
  intros pb.
  destruct (endpoints_reach_their_nodes map_to_list (λ _, reflexivity _) pb (meta_of ∅) 4 state_0 eq_refl) as (os & E & _ & Hin).
  exists os. split; [exact E|]. apply Hin. exists "10.0.0.1". split; [vm_compute; discriminate|vm_compute; reflexivity].
Defined.

Lemma leader_change_back_dropped_witness :
  let md := meta_of {[leaderAnnotation := "x"]} in
  let e ns := mkEndpoints (Some md) [subset_of ns] in
  let r ns := without_leader md {[leaderAnnotation := "x"]} [subset_of ns] in
  ∃ st', EndpointsUpdateProcessor.ValidateUpdate (Some (K8SResource_Endpoints (e ["a"]))) state_0 =
      (Ret (true, Some (K8SResource_Endpoints (r ["a"]))), st') ∧
    EndpointsUpdateProcessor.ValidateUpdate (Some (K8SResource_Endpoints (e ["b"]))) st' =
      (Ret (true, Some (K8SResource_Endpoints (r ["b"]))), st') ∧
    EndpointsUpdateProcessor.ValidateUpdate (Some (K8SResource_Endpoints (e ["a"]))) st' =
      (Ret (false, Some (K8SResource_Endpoints (r ["a"]))), st').
Proof.
  intros md e r. apply (leader_change_back_dropped md md {[leaderAnnotation := "x"]} {[leaderAnnotation := "x"]}
    [subset_of ["a"]] [subset_of ["b"]] state_0); done.
Defined.

(** Services at fd00::1 and then at 10.96.0.1. *)
Lemma mixed_families_hang_witness :
  let v := 336294682933583715844663186250927177729%Z in
  let st := mkProcessorState ∅ (Some (net_of v 128)) [] ∅ ∅ in
  let svc := mkService None (Some (mkServiceSpec [] "10.96.0.1" 2 [] "" "" 0)) in
  ParseIP "fd00::1" = IP16 v ∧
  ServiceUpdateProcessor.ValidateUpdate (Some (K8SResource_Service svc)) st = (Crash Hang, st).
Proof.
  intros v st svc. split; [by vm_compute|].
  apply (mixed_families_hang svc (mkServiceSpec [] "10.96.0.1" 2 [] "" "" 0) (net_of v 128) 281470855806977 st);
    [|done|done|by vm_compute|by vm_compute].
  exists v, 128%Z, [v]. assert (addr16 v) by (unfold addr16, v; lia). split_and!; [done|by vm_compute| |done].
  split_and!; [by vm_compute|done| |intros; lia]. intros w ->%list_elem_of_singleton. done.
Defined.
