(* ===== verification/K8sConvert.v ===== *)
(** * From the objects of the Kubernetes API to messages and back

    [shared/k8s/proto_utils.go]: the conversions of pods, services, endpoints,
    nodes, namespaces, replica sets and deployments.  The objects of the API are
    records of the fields the code reads or sets; their enumerations have the
    constants the code names, and all other strings. *)

From S2P Require Import Prelude GoLib Uuid Messages K8sMessages.

(** ** Objects of the API *)

(** A [metav1.Time] is its nanoseconds since 1970; the zero [Time] is in the year 1. *)
Definition zero_time : Z := (- unixToInternal * nanos)%Z.

Definition int64 (z : Z) : Z := ((z + 2 ^ 63) mod 2 ^ 64 - 2 ^ 63)%Z.
Definition in_int64 (z : Z) : Prop := (- 2 ^ 63 ≤ z < 2 ^ 63)%Z.

(** [Time.UnixNano] is computed in [int64]. *)
Definition UnixNano (t : Z) : Z := int64 t.

Module metav1.
Record OwnerReference := mkOwnerReference { Kind : string; Name : string; UID : string }.

Record ObjectMeta := mkObjectMeta {
  om_Name : string;
  om_Namespace : string;
  om_UID : string;
  om_ResourceVersion : string;
  om_Labels : option (gmap string string);
  om_CreationTimestamp : Z;
  om_DeletionTimestamp : option Z;
  om_OwnerReferences : list OwnerReference;
  om_Annotations : option (gmap string string)
}.

Record LabelSelectorRequirement := mkRequirement { Key : string; Operator : string; Values : list string }.
Record LabelSelector := mkLabelSelector {
  MatchLabels : gmap string string;
  MatchExpressions : list LabelSelectorRequirement
}.
End metav1.

Module v1.
Inductive DNSPolicy : Type :=
| DNSDefault | DNSNone | DNSClusterFirst | DNSClusterFirstWithHostNet | OtherDNSPolicy (s : string).
Inductive PodPhase : Type :=
| PodPending | PodRunning | PodSucceeded | PodFailed | PodUnknown | OtherPodPhase (s : string).
Inductive PodConditionType : Type :=
| ContainersReady | PodInitialized | PodReady | PodScheduled | OtherPodCondition (s : string).
Inductive Protocol : Type := ProtocolTCP | ProtocolUDP | ProtocolSCTP | OtherProtocol (s : string).
Inductive ServiceType : Type :=
| ServiceTypeClusterIP | ServiceTypeNodePort | ServiceTypeLoadBalancer | ServiceTypeExternalName | OtherServiceType (s : string).
Inductive ExternalTrafficPolicy : Type :=
| ServiceExternalTrafficPolicyTypeLocal | ServiceExternalTrafficPolicyTypeCluster | OtherTrafficPolicy (s : string).
Inductive PodQOSClass : Type := PodQOSGuaranteed | PodQOSBurstable | PodQOSBestEffort | OtherQOSClass (s : string).
Inductive NodePhase : Type := NodePending | NodeRunning | NodeTerminated | OtherNodePhase (s : string).
Inductive NodeAddressType : Type :=
| NodeHostName | NodeExternalIP | NodeInternalIP | NodeExternalDNS | NodeInternalDNS | OtherAddressType (s : string).
Inductive ConditionStatus : Type := ConditionTrue | ConditionFalse | ConditionUnknown | OtherConditionStatus (s : string).
Inductive NodeConditionType : Type :=
| NodeReady | NodeMemoryPressure | NodeDiskPressure | NodePIDPressure | NodeNetworkUnavailable | OtherNodeCondition (s : string).

#[global] Instance PodPhase_eq_dec : EqDecision PodPhase.
Proof. solve_decision. Defined.

Record PodSpec := mkPodSpec {
  ps_NodeSelector : gmap string string;
  ps_NodeName : string;
  ps_Hostname : string;
  ps_Subdomain : string;
  ps_PriorityClassName : string;
  ps_DNSPolicy : DNSPolicy;
  ps_Priority : option Z
}.

Record PodCondition := mkPodCondition { pc_Type : PodConditionType; pc_Status : ConditionStatus }.

Record Waiting := mkWaiting { w_Reason : string; w_Message : string }.
Record Running := mkRunning { r_StartedAt : Z }.
Record Terminated := mkTerminated { t_StartedAt : Z; t_FinishedAt : Z; t_Reason : string; t_Message : string }.
Record ContainerState := mkContainerState {
  cs_Waiting : option Waiting; cs_Running : option Running; cs_Terminated : option Terminated
}.
Record ContainerStatus := mkContainerStatus {
  cst_Name : string; cst_ContainerID : string; cst_RestartCount : Z; cst_State : ContainerState
}.

Record PodStatus := mkPodStatus {
  pst_Message : string;
  pst_Reason : string;
  pst_HostIP : string;
  pst_PodIP : string;
  pst_Phase : PodPhase;
  pst_Conditions : list PodCondition;
  pst_QOSClass : PodQOSClass;
  pst_ContainerStatuses : list ContainerStatus
}.

Record Pod := mkPod { pod_Meta : metav1.ObjectMeta; pod_Spec : PodSpec; pod_Status : PodStatus }.
Record Namespace := mkNamespace { ns_Meta : metav1.ObjectMeta }.

Record ObjectReference := mkObjectReference {
  ref_Kind : string; ref_Namespace : string; ref_Name : string; ref_UID : string; ref_ResourceVersion : string
}.
Record EndpointPort := mkEndpointPort { ept_Name : string; ept_Port : Z; ept_Protocol : Protocol }.
Record EndpointAddress := mkEndpointAddress {
  ea_IP : string; ea_Hostname : string; ea_NodeName : option string; ea_TargetRef : option ObjectReference
}.
Record EndpointSubset := mkEndpointSubset {
  es_Addresses : list EndpointAddress; es_NotReadyAddresses : list EndpointAddress; es_Ports : list EndpointPort
}.
Record Endpoints := mkEndpoints { ep_Meta : metav1.ObjectMeta; ep_Subsets : list EndpointSubset }.

Record ServicePort := mkServicePort { svp_Name : string; svp_Port : Z; svp_Protocol : Protocol; svp_NodePort : Z }.
Record ServiceSpec := mkServiceSpec {
  ss_ClusterIP : string;
  ss_ExternalIPs : list string;
  ss_LoadBalancerIP : string;
  ss_ExternalName : string;
  ss_ExternalTrafficPolicy : ExternalTrafficPolicy;
  ss_Ports : list ServicePort;
  ss_Type : ServiceType
}.
Record Service := mkService { svc_Meta : metav1.ObjectMeta; svc_Spec : ServiceSpec }.

Record NodeAddress := mkNodeAddress { na_Type : NodeAddressType; na_Address : string }.
Record NodeCondition := mkNodeCondition { nc_Type : NodeConditionType; nc_Status : ConditionStatus }.
Record NodeStatus := mkNodeStatus { nst_Phase : NodePhase; nst_Addresses : list NodeAddress; nst_Conditions : list NodeCondition }.
Record NodeSpec := mkNodeSpec { nsp_PodCIDRs : list string; nsp_PodCIDR : string }.
Record Node := mkNode { node_Meta : metav1.ObjectMeta; node_Spec : NodeSpec; node_Status : NodeStatus }.

Record PodTemplateSpec := mkPodTemplateSpec { pts_Meta : metav1.ObjectMeta; pts_Spec : PodSpec }.
End v1.

(** [intstr.IntOrString]. *)
Record IntOrString := mkIntOrString { ios_Type : Z; IntVal : Z; StrVal : string }.

Module apps.
Record ReplicaSetCondition := mkReplicaSetCondition { rsc_Type : string; rsc_Status : v1.ConditionStatus }.
Record ReplicaSetStatus := mkReplicaSetStatus {
  rst_Replicas : Z; rst_FullyLabeledReplicas : Z; rst_ReadyReplicas : Z; rst_AvailableReplicas : Z;
  rst_ObservedGeneration : Z; rst_Conditions : list ReplicaSetCondition
}.
Record ReplicaSetSpec := mkReplicaSetSpec {
  rsp_Replicas : option Z; rsp_MinReadySeconds : Z; rsp_Selector : option metav1.LabelSelector;
  rsp_Template : v1.PodTemplateSpec
}.
Record ReplicaSet := mkReplicaSet { rs_Meta : metav1.ObjectMeta; rs_Spec : ReplicaSetSpec; rs_Status : ReplicaSetStatus }.

Record RollingUpdate := mkRollingUpdate { MaxUnavailable : option IntOrString; MaxSurge : option IntOrString }.
Record DeploymentStrategy := mkDeploymentStrategy { dsy_Type : string; dsy_RollingUpdate : option RollingUpdate }.
Record DeploymentSpec := mkDeploymentSpec {
  dsp_Replicas : option Z; dsp_Selector : option metav1.LabelSelector; dsp_Template : v1.PodTemplateSpec;
  dsp_Strategy : DeploymentStrategy; dsp_MinReadySeconds : Z; dsp_RevisionHistoryLimit : option Z;
  dsp_Paused : bool; dsp_ProgressDeadlineSeconds : option Z
}.
Record DeploymentCondition := mkDeploymentCondition {
  dc_Type : string; dc_Status : v1.ConditionStatus; dc_LastUpdateTime : Z; dc_LastTransitionTime : Z;
  dc_Reason : string; dc_Message : string
}.
Record DeploymentStatus := mkDeploymentStatus {
  dst_ObservedGeneration : Z; dst_Replicas : Z; dst_UpdatedReplicas : Z; dst_ReadyReplicas : Z;
  dst_AvailableReplicas : Z; dst_UnavailableReplicas : Z; dst_Conditions : list DeploymentCondition;
  dst_CollisionCount : option Z
}.
Record Deployment := mkDeployment { dep_Meta : metav1.ObjectMeta; dep_Spec : DeploymentSpec; dep_Status : DeploymentStatus }.
End apps.

(** ** Enumerations of the messages *)

Module metadatapb.
Definition DEFAULT : Z := 0.
Definition NONE : Z := 1.
Definition CLUSTER_FIRST : Z := 2.
Definition CLUSTER_FIRST_WITH_HOST_NET : Z := 3.

Definition POD_SCHEDULED : Z := 1.
Definition READY : Z := 2.
Definition INITIALIZED : Z := 3.
Definition CONTAINERS_READY : Z := 5.

Definition TCP : Z := 1.
Definition UDP : Z := 2.
Definition SCTP : Z := 3.

Definition EXTERNAL_NAME : Z := 1.
Definition CLUSTER_IP : Z := 2.
Definition NODE_PORT : Z := 3.
Definition LOAD_BALANCER : Z := 4.

Definition TRAFFIC_LOCAL : Z := 1.
Definition TRAFFIC_CLUSTER : Z := 2.

Definition QOS_CLASS_GUARANTEED : Z := 1.
Definition QOS_CLASS_BURSTABLE : Z := 2.
Definition QOS_CLASS_BEST_EFFORT : Z := 3.

Definition NODE_PHASE_PENDING : Z := 1.
Definition NODE_PHASE_RUNNING : Z := 2.
Definition NODE_PHASE_TERMINATED : Z := 3.

Definition CONDITION_STATUS_UNKNOWN : Z := 0.
Definition CONDITION_STATUS_TRUE : Z := 1.
Definition CONDITION_STATUS_FALSE : Z := 2.

Definition NODE_CONDITION_READY : Z := 1.
Definition NODE_CONDITION_MEMORY_PRESSURE : Z := 2.
Definition NODE_CONDITION_DISK_PRESSURE : Z := 3.
Definition NODE_CONDITION_PID_PRESSURE : Z := 4.
Definition NODE_CONDITION_NETWORK_UNAVAILABLE : Z := 5.

Definition DEPLOYMENT_STRATEGY_UNKNOWN : Z := 0.
Definition DEPLOYMENT_STRATEGY_RECREATE : Z := 1.
Definition DEPLOYMENT_STRATEGY_ROLLING_UPDATE : Z := 2.

Definition DEPLOYMENT_CONDITION_TYPE_UNKNOWN : Z := 0.
Definition DEPLOYMENT_CONDITION_AVAILABLE : Z := 1.
Definition DEPLOYMENT_CONDITION_PROGRESSING : Z := 2.
Definition DEPLOYMENT_CONDITION_REPLICA_FAILURE : Z := 3.
End metadatapb.
Import metadatapb.

(** ** The tables

    A key that is not in a Go map gives the zero value. *)

Definition dnsPolicyObjToPbMap (p : v1.DNSPolicy) : Z :=
  match p with
  | v1.DNSDefault => DEFAULT | v1.DNSNone => NONE | v1.DNSClusterFirst => CLUSTER_FIRST
  | v1.DNSClusterFirstWithHostNet => CLUSTER_FIRST_WITH_HOST_NET | v1.OtherDNSPolicy _ => 0
  end.

Definition dnsPolicyPbToObjMap (p : Z) : v1.DNSPolicy :=
  if decide (p = DEFAULT) then v1.DNSDefault
  else if decide (p = NONE) then v1.DNSNone
  else if decide (p = CLUSTER_FIRST) then v1.DNSClusterFirst
  else if decide (p = CLUSTER_FIRST_WITH_HOST_NET) then v1.DNSClusterFirstWithHostNet
  else v1.OtherDNSPolicy "".

Definition podPhaseObjToPbMap (p : v1.PodPhase) : PodPhase :=
  match p with
  | v1.PodPending => PENDING | v1.PodRunning => RUNNING | v1.PodSucceeded => SUCCEEDED
  | v1.PodFailed => FAILED | v1.PodUnknown => PHASE_UNKNOWN | v1.OtherPodPhase _ => PHASE_UNKNOWN
  end.

Definition podPhasePbToObjMap (p : PodPhase) : v1.PodPhase :=
  match p with
  | PENDING => v1.PodPending | RUNNING => v1.PodRunning | SUCCEEDED => v1.PodSucceeded
  | FAILED => v1.PodFailed | PHASE_UNKNOWN => v1.PodUnknown | TERMINATED => v1.PodUnknown
  end.

Definition podConditionTypeObjToPbMap (t : v1.PodConditionType) : Z :=
  match t with
  | v1.ContainersReady => CONTAINERS_READY | v1.PodInitialized => INITIALIZED | v1.PodReady => READY
  | v1.PodScheduled => POD_SCHEDULED | v1.OtherPodCondition _ => 0
  end.

Definition podConditionTypePbToObjMap (t : Z) : v1.PodConditionType :=
  if decide (t = CONTAINERS_READY) then v1.ContainersReady
  else if decide (t = INITIALIZED) then v1.PodInitialized
  else if decide (t = READY) then v1.PodReady
  else if decide (t = POD_SCHEDULED) then v1.PodScheduled
  else v1.OtherPodCondition "".

Definition ipProtocolObjToPbMap (p : v1.Protocol) : Z :=
  match p with
  | v1.ProtocolTCP => TCP | v1.ProtocolUDP => UDP | v1.ProtocolSCTP => SCTP | v1.OtherProtocol _ => 0
  end.

Definition ipProtocolPbToObjMap (p : Z) : v1.Protocol :=
  if decide (p = TCP) then v1.ProtocolTCP
  else if decide (p = UDP) then v1.ProtocolUDP
  else if decide (p = SCTP) then v1.ProtocolSCTP
  else v1.OtherProtocol "".

Definition serviceTypeObjToPbMap (t : v1.ServiceType) : Z :=
  match t with
  | v1.ServiceTypeClusterIP => CLUSTER_IP | v1.ServiceTypeNodePort => NODE_PORT
  | v1.ServiceTypeLoadBalancer => LOAD_BALANCER | v1.ServiceTypeExternalName => EXTERNAL_NAME
  | v1.OtherServiceType _ => 0
  end.

Definition serviceTypePbToObjMap (t : Z) : v1.ServiceType :=
  if decide (t = CLUSTER_IP) then v1.ServiceTypeClusterIP
  else if decide (t = NODE_PORT) then v1.ServiceTypeNodePort
  else if decide (t = LOAD_BALANCER) then v1.ServiceTypeLoadBalancer
  else if decide (t = EXTERNAL_NAME) then v1.ServiceTypeExternalName
  else v1.OtherServiceType "".

Definition externalPolicyObjToPbMap (p : v1.ExternalTrafficPolicy) : Z :=
  match p with
  | v1.ServiceExternalTrafficPolicyTypeLocal => TRAFFIC_LOCAL
  | v1.ServiceExternalTrafficPolicyTypeCluster => TRAFFIC_CLUSTER
  | v1.OtherTrafficPolicy _ => 0
  end.

Definition externalPolicyPbToObjMap (p : Z) : v1.ExternalTrafficPolicy :=
  if decide (p = TRAFFIC_LOCAL) then v1.ServiceExternalTrafficPolicyTypeLocal
  else if decide (p = TRAFFIC_CLUSTER) then v1.ServiceExternalTrafficPolicyTypeCluster
  else v1.OtherTrafficPolicy "".

Definition qosClassObjToPbMap (c : v1.PodQOSClass) : Z :=
  match c with
  | v1.PodQOSGuaranteed => QOS_CLASS_GUARANTEED | v1.PodQOSBurstable => QOS_CLASS_BURSTABLE
  | v1.PodQOSBestEffort => QOS_CLASS_BEST_EFFORT | v1.OtherQOSClass _ => 0
  end.

Definition qosClassPbToObjMap (c : Z) : v1.PodQOSClass :=
  if decide (c = QOS_CLASS_GUARANTEED) then v1.PodQOSGuaranteed
  else if decide (c = QOS_CLASS_BURSTABLE) then v1.PodQOSBurstable
  else if decide (c = QOS_CLASS_BEST_EFFORT) then v1.PodQOSBestEffort
  else v1.OtherQOSClass "".

Definition nodePhaseToPbMap (p : v1.NodePhase) : Z :=
  match p with
  | v1.NodePending => NODE_PHASE_PENDING | v1.NodeRunning => NODE_PHASE_RUNNING
  | v1.NodeTerminated => NODE_PHASE_TERMINATED | v1.OtherNodePhase _ => 0
  end.

Definition nodeAddressTypeToPbMap (t : v1.NodeAddressType) : NodeAddressType :=
  match t with
  | v1.NodeHostName => NODE_ADDR_TYPE_HOSTNAME | v1.NodeExternalIP => NODE_ADDR_TYPE_EXTERNAL_IP
  | v1.NodeInternalIP => NODE_ADDR_TYPE_INTERNAL_IP | v1.NodeExternalDNS => NODE_ADDR_TYPE_EXTERNAL_DNS
  | v1.NodeInternalDNS => NODE_ADDR_TYPE_INTERNAL_DNS | v1.OtherAddressType _ => NODE_ADDR_TYPE_UNKNOWN
  end.

Definition conditionStatusObjToPbMap (s : v1.ConditionStatus) : Z :=
  match s with
  | v1.ConditionTrue => CONDITION_STATUS_TRUE | v1.ConditionFalse => CONDITION_STATUS_FALSE
  | v1.ConditionUnknown => CONDITION_STATUS_UNKNOWN | v1.OtherConditionStatus _ => 0
  end.

Definition conditionStatusPbToObjMap (s : Z) : v1.ConditionStatus :=
  if decide (s = CONDITION_STATUS_TRUE) then v1.ConditionTrue
  else if decide (s = CONDITION_STATUS_FALSE) then v1.ConditionFalse
  else if decide (s = CONDITION_STATUS_UNKNOWN) then v1.ConditionUnknown
  else v1.OtherConditionStatus "".

Definition conditionTypeToPbMap (t : v1.NodeConditionType) : Z :=
  match t with
  | v1.NodeReady => NODE_CONDITION_READY | v1.NodeMemoryPressure => NODE_CONDITION_MEMORY_PRESSURE
  | v1.NodeDiskPressure => NODE_CONDITION_DISK_PRESSURE | v1.NodePIDPressure => NODE_CONDITION_PID_PRESSURE
  | v1.NodeNetworkUnavailable => NODE_CONDITION_NETWORK_UNAVAILABLE | v1.OtherNodeCondition _ => 0
  end.

(** ** Metadata *)

Definition OwnerReferenceToProto (o : metav1.OwnerReference) : OwnerReference :=
  mkOwnerReference (metav1.Kind o) (metav1.Name o) (metav1.UID o).

Definition OwnerReferenceFromProto (pb : OwnerReference) : metav1.OwnerReference :=
  metav1.mkOwnerReference (or_Kind pb) (or_Name pb) (or_UID pb).

Definition ObjectMetadataToProto (o : metav1.ObjectMeta) : ObjectMetadata :=
  mkObjectMetadata (metav1.om_Name o) (metav1.om_Namespace o) (metav1.om_UID o) (metav1.om_ResourceVersion o)
    (UnixNano (metav1.om_CreationTimestamp o))
    (match metav1.om_DeletionTimestamp o with Some t => UnixNano t | None => 0 end)
    (metav1.om_Labels o) (OwnerReferenceToProto <$> metav1.om_OwnerReferences o) (metav1.om_Annotations o).

Definition ObjectMetadataFromProto {S} (pb : option ObjectMetadata) : M S metav1.ObjectMeta :=
  pb ← deref pb;
  let delTime := if negb (md_DeletionTimestampNS pb =? 0)%Z then md_DeletionTimestampNS pb else zero_time in
  let creationTime := if negb (md_CreationTimestampNS pb =? 0)%Z then md_CreationTimestampNS pb else zero_time in
  mret (metav1.mkObjectMeta (md_Name pb) (md_Namespace pb) (md_UID pb) (md_ResourceVersion pb) (md_Labels pb)
          creationTime (Some delTime) (OwnerReferenceFromProto <$> md_OwnerReferences pb) None).

(** ** Pods *)

Definition PodSpecToProto (ps : v1.PodSpec) : PodSpec :=
  mkPodSpec (dnsPolicyObjToPbMap (v1.ps_DNSPolicy ps)) (v1.ps_NodeSelector ps) (v1.ps_NodeName ps)
    (v1.ps_Hostname ps) (v1.ps_Subdomain ps) (v1.ps_PriorityClassName ps)
    (match v1.ps_Priority ps with Some p => p | None => 0 end).

Definition PodSpecFromProto {S} (pb : option PodSpec) : M S v1.PodSpec :=
  pb ← deref pb;
  mret (v1.mkPodSpec (ps_NodeSelector pb) (ps_NodeName pb) (ps_Hostname pb) (ps_Subdomain pb)
          (ps_PriorityClassName pb) (dnsPolicyPbToObjMap (ps_DNSPolicy pb)) (Some (ps_Priority pb))).

Definition ContainerStatusToProto (c : v1.ContainerStatus) : ContainerStatus :=
  let st := v1.cst_State c in
  match v1.cs_Waiting st, v1.cs_Running st, v1.cs_Terminated st with
  | Some w, _, _ =>
    mkContainerStatus (v1.cst_Name c) (v1.cst_ContainerID c) CONTAINER_STATE_WAITING 0 0
      (v1.w_Message w) (v1.w_Reason w) (v1.cst_RestartCount c)
  | None, Some r, _ =>
    mkContainerStatus (v1.cst_Name c) (v1.cst_ContainerID c) CONTAINER_STATE_RUNNING (UnixNano (v1.r_StartedAt r)) 0
      "" "" (v1.cst_RestartCount c)
  | None, None, Some t =>
    mkContainerStatus (v1.cst_Name c) (v1.cst_ContainerID c) CONTAINER_STATE_TERMINATED
      (UnixNano (v1.t_StartedAt t)) (UnixNano (v1.t_FinishedAt t)) (v1.t_Message t) (v1.t_Reason t)
      (v1.cst_RestartCount c)
  | None, None, None =>
    mkContainerStatus (v1.cst_Name c) (v1.cst_ContainerID c) CONTAINER_STATE_UNKNOWN 0 0 "" "" (v1.cst_RestartCount c)
  end.

(** The loop over the containers keeps the largest number of restarts. *)
Fixpoint podRestartCount (cs : list v1.ContainerStatus) (n : Z) : Z :=
  match cs with
  | [] => n
  | c :: cs => podRestartCount cs (if (n <? v1.cst_RestartCount c)%Z then v1.cst_RestartCount c else n)
  end.

Definition PodStatusToProto (ps : v1.PodStatus) : PodStatus :=
  mkPodStatus (podPhaseObjToPbMap (v1.pst_Phase ps))
    ((λ c, mkPodCondition (podConditionTypeObjToPbMap (v1.pc_Type c)) (conditionStatusObjToPbMap (v1.pc_Status c)))
       <$> v1.pst_Conditions ps)
    (v1.pst_Message ps) (v1.pst_Reason ps) (v1.pst_HostIP ps) (v1.pst_PodIP ps)
    (qosClassObjToPbMap (v1.pst_QOSClass ps)) (ContainerStatusToProto <$> v1.pst_ContainerStatuses ps)
    (podRestartCount (v1.pst_ContainerStatuses ps) 0).

Definition PodStatusFromProto {S} (pb : option PodStatus) : M S v1.PodStatus :=
  pb ← deref pb;
  mret (v1.mkPodStatus (pst_Message pb) (pst_Reason pb) (pst_HostIP pb) (pst_PodIP pb)
          (podPhasePbToObjMap (pst_Phase pb))
          ((λ c, v1.mkPodCondition (podConditionTypePbToObjMap (pcd_Type c)) (conditionStatusPbToObjMap (pcd_Status c)))
             <$> pst_Conditions pb)
          (qosClassPbToObjMap (pst_QOSClass pb)) []).

Definition set_phase (p : PodPhase) (s : PodStatus) : PodStatus :=
  mkPodStatus p (pst_Conditions s) (pst_Message s) (pst_Reason s) (pst_HostIP s) (pst_PodIP s) (pst_QOSClass s)
    (pst_ContainerStatuses s) (pst_RestartCount s).

Definition PodToProto (p : v1.Pod) : Pod :=
  let objMeta := ObjectMetadataToProto (v1.pod_Meta p) in
  let status := PodStatusToProto (v1.pod_Status p) in
  let status :=
    if decide ((pst_Phase status ≠ FAILED ∧ pst_Phase status ≠ SUCCEEDED) ∧ md_DeletionTimestampNS objMeta ≠ 0%Z)
    then set_phase TERMINATED status else status in
  mkPod (Some objMeta) (Some (PodSpecToProto (v1.pod_Spec p))) (Some status).

Definition PodFromProto {S} (pb : Pod) : M S v1.Pod :=
  objMeta ← ObjectMetadataFromProto (pod_Metadata pb);
  spec ← PodSpecFromProto (pod_Spec pb);
  status ← PodStatusFromProto (pod_Status pb);
  mret (v1.mkPod objMeta spec status).

Definition NamespaceToProto (n : v1.Namespace) : Namespace := mkNamespace (Some (ObjectMetadataToProto (v1.ns_Meta n))).

(** ** Endpoints *)

Definition ObjectReferenceToProto (o : v1.ObjectReference) : ObjectReference :=
  mkObjectReference (v1.ref_Kind o) (v1.ref_Namespace o) (v1.ref_Name o) (v1.ref_UID o) (v1.ref_ResourceVersion o).

Definition ObjectReferenceFromProto (pb : ObjectReference) : v1.ObjectReference :=
  v1.mkObjectReference (ref_Kind pb) (ref_Namespace pb) (ref_Name pb) (ref_UID pb) (ref_ResourceVersion pb).

Definition EndpointPortToProto (e : v1.EndpointPort) : EndpointPort :=
  mkEndpointPort (v1.ept_Name e) (v1.ept_Port e) (ipProtocolObjToPbMap (v1.ept_Protocol e)).

Definition EndpointPortFromProto (pb : EndpointPort) : v1.EndpointPort :=
  v1.mkEndpointPort (ept_Name pb) (ept_Port pb) (ipProtocolPbToObjMap (ept_Protocol pb)).

Definition EndpointAddressToProto (e : v1.EndpointAddress) : EndpointAddress :=
  mkEndpointAddress (v1.ea_IP e) (v1.ea_Hostname e) (match v1.ea_NodeName e with Some n => n | None => "" end)
    (ObjectReferenceToProto <$> v1.ea_TargetRef e).

Definition EndpointAddressFromProto (pb : EndpointAddress) : v1.EndpointAddress :=
  v1.mkEndpointAddress (ea_IP pb) (ea_Hostname pb) (Some (ea_NodeName pb)) (ObjectReferenceFromProto <$> ea_TargetRef pb).

Definition EndpointSubsetToProto (e : v1.EndpointSubset) : EndpointSubset :=
  mkEndpointSubset (EndpointAddressToProto <$> v1.es_Addresses e) (EndpointAddressToProto <$> v1.es_NotReadyAddresses e)
    (EndpointPortToProto <$> v1.es_Ports e).

Definition EndpointSubsetFromProto (pb : EndpointSubset) : v1.EndpointSubset :=
  v1.mkEndpointSubset (EndpointAddressFromProto <$> es_Addresses pb) (EndpointAddressFromProto <$> es_NotReadyAddresses pb)
    (EndpointPortFromProto <$> es_Ports pb).

Definition EndpointsToProto (e : v1.Endpoints) : Endpoints :=
  mkEndpoints (Some (ObjectMetadataToProto (v1.ep_Meta e))) (EndpointSubsetToProto <$> v1.ep_Subsets e).

Definition EndpointsFromProto {S} (pb : Endpoints) : M S v1.Endpoints :=
  let subsets := EndpointSubsetFromProto <$> ep_Subsets pb in
  objMeta ← ObjectMetadataFromProto (ep_Metadata pb);
  mret (v1.mkEndpoints objMeta subsets).

(** ** Services *)

Definition ServicePortToProto (e : v1.ServicePort) : ServicePort :=
  mkServicePort (v1.svp_Name e) (ipProtocolObjToPbMap (v1.svp_Protocol e)) (v1.svp_Port e) (v1.svp_NodePort e).

Definition ServicePortFromProto (pb : ServicePort) : v1.ServicePort :=
  v1.mkServicePort (svp_Name pb) (svp_Port pb) (ipProtocolPbToObjMap (svp_Protocol pb)) (svp_NodePort pb).

Definition ServiceSpecToProto (s : v1.ServiceSpec) : ServiceSpec :=
  mkServiceSpec (ServicePortToProto <$> v1.ss_Ports s) (v1.ss_ClusterIP s) (serviceTypeObjToPbMap (v1.ss_Type s))
    (v1.ss_ExternalIPs s) (v1.ss_LoadBalancerIP s) (v1.ss_ExternalName s)
    (externalPolicyObjToPbMap (v1.ss_ExternalTrafficPolicy s)).

Definition ServiceSpecFromProto {S} (pb : option ServiceSpec) : M S v1.ServiceSpec :=
  pb ← deref pb;
  mret (v1.mkServiceSpec (ss_ClusterIP pb) (ss_ExternalIPs pb) (ss_LoadBalancerIP pb) (ss_ExternalName pb)
          (externalPolicyPbToObjMap (ss_ExternalTrafficPolicy pb)) (ServicePortFromProto <$> ss_Ports pb)
          (serviceTypePbToObjMap (ss_Type pb))).

Definition ServiceToProto (s : v1.Service) : Service :=
  mkService (Some (ObjectMetadataToProto (v1.svc_Meta s))) (Some (ServiceSpecToProto (v1.svc_Spec s))).

Definition ServiceFromProto {S} (pb : Service) : M S v1.Service :=
  objMeta ← ObjectMetadataFromProto (svc_Metadata pb);
  spec ← ServiceSpecFromProto (svc_Spec pb);
  mret (v1.mkService objMeta spec).

(** ** Nodes *)

Definition NodeStatusToProto (n : v1.NodeStatus) : NodeStatus :=
  mkNodeStatus (nodePhaseToPbMap (v1.nst_Phase n))
    ((λ a, mkNodeAddress (nodeAddressTypeToPbMap (v1.na_Type a)) (v1.na_Address a)) <$> v1.nst_Addresses n)
    ((λ c, mkNodeCondition (conditionTypeToPbMap (v1.nc_Type c)) (conditionStatusObjToPbMap (v1.nc_Status c)))
       <$> v1.nst_Conditions n).

Definition NodeSpecToProto (n : v1.NodeSpec) : NodeSpec := mkNodeSpec (v1.nsp_PodCIDRs n) (v1.nsp_PodCIDR n).

Definition NodeToProto (n : v1.Node) : Node :=
  mkNode (Some (ObjectMetadataToProto (v1.node_Meta n))) (Some (NodeSpecToProto (v1.node_Spec n)))
    (Some (NodeStatusToProto (v1.node_Status n))).

(** ** Replica sets and deployments *)

Definition LabelSelectorToProto {S} (ls : option metav1.LabelSelector) : M S LabelSelector :=
  ls ← deref ls;
  mret (mkLabelSelector (metav1.MatchLabels ls)
          ((λ me, mkLabelSelectorRequirement (metav1.Key me) (metav1.Operator me) (metav1.Values me))
             <$> metav1.MatchExpressions ls)).

Definition PodTemplateSpecToProto (ts : v1.PodTemplateSpec) : PodTemplateSpec :=
  mkPodTemplateSpec (Some (ObjectMetadataToProto (v1.pts_Meta ts))) (Some (PodSpecToProto (v1.pts_Spec ts))).

Definition ReplicaSetStatusToProto (rss : apps.ReplicaSetStatus) : ReplicaSetStatus :=
  mkReplicaSetStatus (apps.rst_Replicas rss) (apps.rst_FullyLabeledReplicas rss) (apps.rst_ReadyReplicas rss)
    (apps.rst_AvailableReplicas rss) (apps.rst_ObservedGeneration rss)
    ((λ c, mkReplicaSetCondition (apps.rsc_Type c) (conditionStatusObjToPbMap (apps.rsc_Status c)))
       <$> apps.rst_Conditions rss).

Definition ReplicaSetSpecToProto {S} (rs : apps.ReplicaSetSpec) : M S ReplicaSetSpec :=
  let replicas := match apps.rsp_Replicas rs with None => 1%Z | Some r => r end in
  selector ← LabelSelectorToProto (apps.rsp_Selector rs);
  mret (mkReplicaSetSpec replicas (apps.rsp_MinReadySeconds rs) (Some selector)
          (Some (PodTemplateSpecToProto (apps.rsp_Template rs)))).

Definition ReplicaSetToProto {S} (rs : apps.ReplicaSet) : M S ReplicaSet :=
  spec ← ReplicaSetSpecToProto (apps.rs_Spec rs);
  mret (mkReplicaSet (Some (ObjectMetadataToProto (apps.rs_Meta rs))) (Some spec)
          (Some (ReplicaSetStatusToProto (apps.rs_Status rs)))).

Definition IntOrStringToString {S} (v : option IntOrString) : M S string :=
  v ← deref v;
  mret (if decide (ios_Type v = 0%Z) then FormatInt (IntVal v) else StrVal v).

Definition DeploymentSpecToProto {S} (d : apps.DeploymentSpec) : M S DeploymentSpec :=
  let strategy := apps.dsp_Strategy d in
  let sType :=
    if decide (apps.dsy_Type strategy = "Recreate") then DEPLOYMENT_STRATEGY_RECREATE
    else if decide (apps.dsy_Type strategy = "RollingUpdate") then DEPLOYMENT_STRATEGY_ROLLING_UPDATE
    else DEPLOYMENT_STRATEGY_UNKNOWN in
  rollingUpdate ← (if decide (apps.dsy_Type strategy = "RollingUpdate") then
      ru ← deref (apps.dsy_RollingUpdate strategy);
      maxUnavailable ← IntOrStringToString (apps.MaxUnavailable ru);
      maxSurge ← IntOrStringToString (apps.MaxSurge ru);
      mret (Some (mkRollingUpdateDeployment maxUnavailable maxSurge))
    else mret None);
  selector ← LabelSelectorToProto (apps.dsp_Selector d);
  mret (mkDeploymentSpec (default 0%Z (apps.dsp_Replicas d)) (Some selector)
          (Some (PodTemplateSpecToProto (apps.dsp_Template d))) (Some (mkDeploymentStrategy sType rollingUpdate))
          (apps.dsp_MinReadySeconds d) (default 0%Z (apps.dsp_RevisionHistoryLimit d)) (apps.dsp_Paused d)
          (default 0%Z (apps.dsp_ProgressDeadlineSeconds d))).

Definition DeploymentConditionToProto (d : apps.DeploymentCondition) : DeploymentCondition :=
  let dType :=
    if decide (apps.dc_Type d = "Available") then DEPLOYMENT_CONDITION_AVAILABLE
    else if decide (apps.dc_Type d = "Progressing") then DEPLOYMENT_CONDITION_PROGRESSING
    else if decide (apps.dc_Type d = "ReplicaFailure") then DEPLOYMENT_CONDITION_REPLICA_FAILURE
    else DEPLOYMENT_CONDITION_TYPE_UNKNOWN in
  mkDeploymentCondition dType (conditionStatusObjToPbMap (apps.dc_Status d)) (UnixNano (apps.dc_LastUpdateTime d))
    (UnixNano (apps.dc_LastTransitionTime d)) (apps.dc_Reason d) (apps.dc_Message d).

Definition DeploymentStatusToProto (d : apps.DeploymentStatus) : DeploymentStatus :=
  mkDeploymentStatus (apps.dst_ObservedGeneration d) (apps.dst_Replicas d) (apps.dst_UpdatedReplicas d)
    (apps.dst_ReadyReplicas d) (apps.dst_AvailableReplicas d) (apps.dst_UnavailableReplicas d)
    (DeploymentConditionToProto <$> apps.dst_Conditions d) (default 0%Z (apps.dst_CollisionCount d)).

Definition DeploymentToProto {S} (d : apps.Deployment) : M S Deployment :=
  spec ← DeploymentSpecToProto (apps.dep_Spec d);
  mret (mkDeployment (Some (ObjectMetadataToProto (apps.dep_Meta d))) (Some spec)
          (Some (DeploymentStatusToProto (apps.dep_Status d)))).

(** ** Times *)

Lemma int64_id z : in_int64 z → int64 z = z.
Proof. unfold in_int64, int64. intros H. rewrite Z.mod_small; lia. Qed.

Lemma zero_time_nano : UnixNano zero_time = (-6795364578871345152)%Z.
Proof. reflexivity. Qed.

(** ** What survives a round trip *)

(** The values of the enumerations that have a counterpart in the messages. *)
Definition known_protocol (p : v1.Protocol) : Prop := match p with v1.OtherProtocol s => s = "" | _ => True end.
Definition known_service_type (t : v1.ServiceType) : Prop := match t with v1.OtherServiceType s => s = "" | _ => True end.
Definition known_policy (p : v1.ExternalTrafficPolicy) : Prop := match p with v1.OtherTrafficPolicy s => s = "" | _ => True end.
Definition known_qos (c : v1.PodQOSClass) : Prop := match c with v1.OtherQOSClass s => s = "" | _ => True end.
Definition known_dns (p : v1.DNSPolicy) : Prop := match p with v1.OtherDNSPolicy _ => False | _ => True end.
Definition known_phase (p : v1.PodPhase) : Prop := match p with v1.OtherPodPhase _ => False | _ => True end.
Definition known_condition (c : v1.PodCondition) : Prop :=
  match v1.pc_Type c with v1.OtherPodCondition s => s = "" | _ => True end ∧
  match v1.pc_Status c with v1.OtherConditionStatus _ => False | _ => True end.

Ltac table := match goal with |- ?P ?p → _ => destruct p; cbn; intros; simplify_eq; first [done|reflexivity] end.

Lemma protocol_roundtrip p : known_protocol p → ipProtocolPbToObjMap (ipProtocolObjToPbMap p) = p.
Proof. table. Qed.
Lemma service_type_roundtrip t : known_service_type t → serviceTypePbToObjMap (serviceTypeObjToPbMap t) = t.
Proof. table. Qed.
Lemma policy_roundtrip p : known_policy p → externalPolicyPbToObjMap (externalPolicyObjToPbMap p) = p.
Proof. table. Qed.
Lemma qos_roundtrip c : known_qos c → qosClassPbToObjMap (qosClassObjToPbMap c) = c.
Proof. table. Qed.
Lemma dns_roundtrip p : known_dns p → dnsPolicyPbToObjMap (dnsPolicyObjToPbMap p) = p.
Proof. table. Qed.
Lemma phase_roundtrip p : known_phase p → podPhasePbToObjMap (podPhaseObjToPbMap p) = p.
Proof. table. Qed.
Lemma condition_roundtrip c : known_condition c →
  v1.mkPodCondition (podConditionTypePbToObjMap (podConditionTypeObjToPbMap (v1.pc_Type c)))
    (conditionStatusPbToObjMap (conditionStatusObjToPbMap (v1.pc_Status c))) = c.
Proof.
  destruct c as [t s]. unfold known_condition. cbn. intros [Ht Hs].
  f_equal; [destruct t|destruct s]; cbn in *; simplify_eq; done || reflexivity.
Qed.

Lemma fmap_id_ext {A B} (f : A → B) (g : B → A) (l : list A) :
  (∀ x, x ∈ l → g (f x) = x) → g <$> (f <$> l) = l.
Proof. intros H. rewrite <- list_fmap_compose. rewrite <- (list_fmap_id l) at 2. apply list_fmap_ext. intros i x Hx. apply H. by apply list_elem_of_lookup_2 in Hx. Qed.

Lemma owner_roundtrip o : OwnerReferenceFromProto (OwnerReferenceToProto o) = o.
Proof. by destruct o. Qed.
Lemma reference_roundtrip o : ObjectReferenceFromProto (ObjectReferenceToProto o) = o.
Proof. by destruct o. Qed.

(** The times of an object whose metadata can be given back. *)
Definition times_kept (o : metav1.ObjectMeta) : Prop :=
  in_int64 (metav1.om_CreationTimestamp o) ∧ metav1.om_CreationTimestamp o ≠ 0%Z ∧
  match metav1.om_DeletionTimestamp o with Some t => in_int64 t ∧ t ≠ 0%Z | None => True end.

(** Annotations are not given back, and an object that was not deleted gets a
    pointer to the zero time. *)
Definition meta_back (o : metav1.ObjectMeta) : metav1.ObjectMeta :=
  metav1.mkObjectMeta (metav1.om_Name o) (metav1.om_Namespace o) (metav1.om_UID o) (metav1.om_ResourceVersion o)
    (metav1.om_Labels o) (metav1.om_CreationTimestamp o) (Some (default zero_time (metav1.om_DeletionTimestamp o)))
    (metav1.om_OwnerReferences o) None.

Lemma meta_roundtrip {S} o (s : S) : times_kept o →
  ObjectMetadataFromProto (Some (ObjectMetadataToProto o)) s = (Ret (meta_back o), s).
Proof.
  destruct o as [n ns uid rv ls c d refs an]. unfold times_kept. cbn. intros (Hc & Hc0 & Hd).
  unfold ObjectMetadataFromProto, ObjectMetadataToProto, meta_back, UnixNano. run_steps. cbn.
  rewrite (int64_id c), (proj2 (Z.eqb_neq c 0)) by done.
  rewrite (fmap_id_ext OwnerReferenceToProto OwnerReferenceFromProto refs) by (intros; apply owner_roundtrip).
  destruct d as [t|]; [|done]. destruct Hd as [Hd Hd0]. rewrite (int64_id t) by done.
  by rewrite (proj2 (Z.eqb_neq t 0)).
Qed.

Definition service_known (s : v1.Service) : Prop :=
  times_kept (v1.svc_Meta s) ∧ known_service_type (v1.ss_Type (v1.svc_Spec s)) ∧
  known_policy (v1.ss_ExternalTrafficPolicy (v1.svc_Spec s)) ∧
  Forall (λ p, known_protocol (v1.svp_Protocol p)) (v1.ss_Ports (v1.svc_Spec s)).

Lemma service_spec_roundtrip {St} (sp : v1.ServiceSpec) (σ : St) :
  known_service_type (v1.ss_Type sp) → known_policy (v1.ss_ExternalTrafficPolicy sp) →
  Forall (λ p, known_protocol (v1.svp_Protocol p)) (v1.ss_Ports sp) →
  ServiceSpecFromProto (Some (ServiceSpecToProto sp)) σ = (Ret sp, σ).
Proof.
  destruct sp as [cip eips lb en pol ports ty]. cbn. intros Ht Hp Hports.
  unfold ServiceSpecFromProto, ServiceSpecToProto. run_steps. cbn. rewrite policy_roundtrip, service_type_roundtrip by done.
  rewrite (fmap_id_ext ServicePortToProto ServicePortFromProto ports); [done|].
  intros [n po pr np] Hin. unfold ServicePortFromProto, ServicePortToProto. cbn.
  rewrite Forall_forall in Hports. by rewrite protocol_roundtrip by exact (Hports _ Hin).
Qed.

Lemma service_roundtrip {St} (s : v1.Service) (σ : St) : service_known s →
  ServiceFromProto (ServiceToProto s) σ = (Ret (v1.mkService (meta_back (v1.svc_Meta s)) (v1.svc_Spec s)), σ).
Proof.
  destruct s as [md sp]. intros (Hm & Ht & Hp & Hports). cbn [v1.svc_Meta v1.svc_Spec] in *.
  unfold ServiceFromProto, ServiceToProto. cbn [svc_Metadata svc_Spec v1.svc_Meta v1.svc_Spec].
  run_with (meta_roundtrip md σ Hm). by run_with (service_spec_roundtrip sp σ Ht Hp Hports).
Qed.

(** A nil node name is given back as a pointer to the empty name. *)
Definition address_back (a : v1.EndpointAddress) : v1.EndpointAddress :=
  v1.mkEndpointAddress (v1.ea_IP a) (v1.ea_Hostname a) (Some (default "" (v1.ea_NodeName a))) (v1.ea_TargetRef a).
Definition subset_back (s : v1.EndpointSubset) : v1.EndpointSubset :=
  v1.mkEndpointSubset (address_back <$> v1.es_Addresses s) (address_back <$> v1.es_NotReadyAddresses s) (v1.es_Ports s).

Lemma address_roundtrip a : EndpointAddressFromProto (EndpointAddressToProto a) = address_back a.
Proof.
  destruct a as [ip h n [r|]]; unfold EndpointAddressFromProto, EndpointAddressToProto, address_back; cbn; [|by destruct n].
  rewrite reference_roundtrip. by destruct n.
Qed.

Lemma addresses_roundtrip (l : list v1.EndpointAddress) : EndpointAddressFromProto <$> (EndpointAddressToProto <$> l) = address_back <$> l.
Proof. rewrite <- list_fmap_compose. apply list_fmap_ext. intros. apply address_roundtrip. Qed.

Definition endpoints_known (e : v1.Endpoints) : Prop :=
  times_kept (v1.ep_Meta e) ∧
  Forall (λ s, Forall (λ p, known_protocol (v1.ept_Protocol p)) (v1.es_Ports s)) (v1.ep_Subsets e).

Lemma subset_roundtrip s : Forall (λ p, known_protocol (v1.ept_Protocol p)) (v1.es_Ports s) →
  EndpointSubsetFromProto (EndpointSubsetToProto s) = subset_back s.
Proof.
  destruct s as [as_ ns ports]. cbn. intros Hp. unfold EndpointSubsetFromProto, EndpointSubsetToProto, subset_back. cbn.
  rewrite !addresses_roundtrip. f_equal. apply fmap_id_ext. intros [n po pr] Hin.
  unfold EndpointPortFromProto, EndpointPortToProto. cbn. rewrite Forall_forall in Hp.
  by rewrite protocol_roundtrip by exact (Hp _ Hin).
Qed.

Lemma endpoints_roundtrip {St} (e : v1.Endpoints) (σ : St) : endpoints_known e →
  EndpointsFromProto (EndpointsToProto e) σ =
    (Ret (v1.mkEndpoints (meta_back (v1.ep_Meta e)) (subset_back <$> v1.ep_Subsets e)), σ).
Proof.
  destruct e as [md subs]. intros [Hm Hs]. cbn [v1.ep_Meta v1.ep_Subsets] in *.
  unfold EndpointsFromProto, EndpointsToProto. cbn [ep_Metadata ep_Subsets v1.ep_Meta v1.ep_Subsets].
  run_with (meta_roundtrip md σ Hm). rewrite <- list_fmap_compose.
  rewrite (list_fmap_ext (EndpointSubsetFromProto ∘ EndpointSubsetToProto) subset_back subs); [done|].
  intros i s Hi. apply subset_roundtrip. rewrite Forall_forall in Hs. exact (Hs _ (list_elem_of_lookup_2 _ _ _ Hi)).
Qed.

(** ** Pods *)

Lemma podRestartCount_spec cs n :
  (n ≤ podRestartCount cs n)%Z ∧ (∀ c, c ∈ cs → v1.cst_RestartCount c ≤ podRestartCount cs n)%Z ∧
  (podRestartCount cs n = n ∨ ∃ c, c ∈ cs ∧ podRestartCount cs n = v1.cst_RestartCount c).
Proof.
  revert n. induction cs as [|c cs IH]; intros n; cbn.
  { split_and!; [lia|set_solver|by left]. }
  destruct (IH (if (n <? v1.cst_RestartCount c)%Z then v1.cst_RestartCount c else n)) as (H1 & H2 & H3).
  destruct (Z.ltb_spec n (v1.cst_RestartCount c)).
  - split_and!; [lia| |set_solver]. intros c' [->|Hc']%elem_of_cons; [lia|auto].
  - split_and!; [lia| |set_solver]. intros c' [->|Hc']%elem_of_cons; [lia|auto].
Qed.

Definition pod_known (p : v1.Pod) : Prop :=
  times_kept (v1.pod_Meta p) ∧ known_dns (v1.ps_DNSPolicy (v1.pod_Spec p)) ∧
  known_phase (v1.pst_Phase (v1.pod_Status p)) ∧ known_qos (v1.pst_QOSClass (v1.pod_Status p)) ∧
  Forall known_condition (v1.pst_Conditions (v1.pod_Status p)).

(** What is given back of a pod: no containers, a pointer to its priority, and the
    phase [Unknown] if it was terminated. *)
Definition pod_spec_back (ps : v1.PodSpec) : v1.PodSpec :=
  v1.mkPodSpec (v1.ps_NodeSelector ps) (v1.ps_NodeName ps) (v1.ps_Hostname ps) (v1.ps_Subdomain ps)
    (v1.ps_PriorityClassName ps) (v1.ps_DNSPolicy ps) (Some (default 0%Z (v1.ps_Priority ps))).

Definition ended (p : v1.PodPhase) : bool := match p with v1.PodFailed | v1.PodSucceeded => true | _ => false end.

Definition pod_status_back (deleted : bool) (ps : v1.PodStatus) : v1.PodStatus :=
  v1.mkPodStatus (v1.pst_Message ps) (v1.pst_Reason ps) (v1.pst_HostIP ps) (v1.pst_PodIP ps)
    (if deleted && negb (ended (v1.pst_Phase ps)) then v1.PodUnknown else v1.pst_Phase ps)
    (v1.pst_Conditions ps) (v1.pst_QOSClass ps) [].

Lemma conditions_roundtrip l : Forall known_condition l →
  (λ c, v1.mkPodCondition (podConditionTypePbToObjMap (pcd_Type c)) (conditionStatusPbToObjMap (pcd_Status c))) <$>
    ((λ c, mkPodCondition (podConditionTypeObjToPbMap (v1.pc_Type c)) (conditionStatusObjToPbMap (v1.pc_Status c))) <$> l) = l.
Proof. intros H. apply fmap_id_ext. intros c Hc. apply condition_roundtrip. rewrite Forall_forall in H. exact (H _ Hc). Qed.

(** The status in the message, given the time of deletion. *)
Definition status_in_message (del : Z) (st : v1.PodStatus) : PodStatus :=
  let status := PodStatusToProto st in
  if negb (ended (v1.pst_Phase st)) && negb (del =? 0)%Z then set_phase TERMINATED status else status.

Lemma pod_status_in_message p : pod_Status (PodToProto p) =
  Some (status_in_message (md_DeletionTimestampNS (ObjectMetadataToProto (v1.pod_Meta p))) (v1.pod_Status p)).
Proof.
  destruct p as [md sp [msg rs hip pip ph cs q cts]]. unfold PodToProto, status_in_message.
  cbn [pod_Status v1.pod_Meta v1.pod_Status v1.pst_Phase]. f_equal.
  set (d := md_DeletionTimestampNS (ObjectMetadataToProto md)).
  destruct (Z.eqb_spec d 0); case_decide as H; destruct ph; cbn in *; try done; tauto || (destruct H; split_and!; done).
Qed.

Lemma pod_status_roundtrip {St} del st (σ : St) :
  known_phase (v1.pst_Phase st) → known_qos (v1.pst_QOSClass st) → Forall known_condition (v1.pst_Conditions st) →
  PodStatusFromProto (Some (status_in_message del st)) σ = (Ret (pod_status_back (negb (del =? 0)%Z) st), σ).
Proof.
  destruct st as [msg rs hip pip ph cs q cts]. cbn. intros Hp Hq Hc.
  unfold PodStatusFromProto, status_in_message, pod_status_back. run_steps. cbn.
  destruct (ended ph) eqn:E, (del =? 0)%Z; cbn; by rewrite conditions_roundtrip, qos_roundtrip, ?phase_roundtrip.
Qed.

Lemma pod_spec_roundtrip {St} sp (σ : St) : known_dns (v1.ps_DNSPolicy sp) →
  PodSpecFromProto (Some (PodSpecToProto sp)) σ = (Ret (pod_spec_back sp), σ).
Proof.
  destruct sp as [sel nn h sub pcn dns pr]. cbn. intros Hd.
  unfold PodSpecFromProto, PodSpecToProto, pod_spec_back. run_steps. cbn. rewrite dns_roundtrip by done. by destruct pr.
Qed.

Lemma deletion_kept o : times_kept o →
  negb (md_DeletionTimestampNS (ObjectMetadataToProto o) =? 0)%Z = bool_decide (is_Some (metav1.om_DeletionTimestamp o)).
Proof.
  destruct o as [n ns uid rv ls c [t|] refs an]; intros (_ & _ & H); cbn in *; [|done].
  destruct H as [Ht Ht0]. unfold UnixNano. rewrite int64_id by done. by rewrite (proj2 (Z.eqb_neq t 0)).
Qed.

Lemma pod_roundtrip {St} (p : v1.Pod) (σ : St) : pod_known p →
  PodFromProto (PodToProto p) σ =
    (Ret (v1.mkPod (meta_back (v1.pod_Meta p)) (pod_spec_back (v1.pod_Spec p))
            (pod_status_back (bool_decide (is_Some (metav1.om_DeletionTimestamp (v1.pod_Meta p)))) (v1.pod_Status p))), σ).
Proof.
  intros (Hm & Hd & Hph & Hq & Hc). unfold PodFromProto. rewrite pod_status_in_message. cbn [PodToProto pod_Metadata pod_Spec].
  run_with (meta_roundtrip (v1.pod_Meta p) σ Hm). run_with (pod_spec_roundtrip (v1.pod_Spec p) σ Hd).
  rewrite <- (deletion_kept _ Hm). by run_with (pod_status_roundtrip (md_DeletionTimestampNS (ObjectMetadataToProto (v1.pod_Meta p))) (v1.pod_Status p) σ Hph Hq Hc).
Qed.

(** The other direction: a message of a pod that was not deleted comes back as one
    of a pod terminated in the year 1754. *)
Lemma live_pod_comes_back_terminated {St} (pb : Pod) md sp st (σ : St) :
  pod_Metadata pb = Some md → pod_Spec pb = Some sp → pod_Status pb = Some st →
  md_DeletionTimestampNS md = 0%Z → pst_Phase st ≠ FAILED → pst_Phase st ≠ SUCCEEDED →
  wp (p ← PodFromProto pb; mret (PodToProto p))
    (λ pb' _, (md_DeletionTimestampNS <$> pod_Metadata pb') = Some (-6795364578871345152)%Z ∧
              (pst_Phase <$> pod_Status pb') = Some TERMINATED) σ.
Proof.
  destruct pb as [m s t]. cbn. intros -> -> -> Hdel Hf Hs. unfold PodFromProto, ObjectMetadataFromProto, PodSpecFromProto, PodStatusFromProto.
  wp_steps. rewrite Hdel. cbn. split; [done|]. destruct (pst_Phase st); done.
Qed.
