(* ===== verification/K8sWatchers.v ===== *)
(** * The watchers of the Kubernetes API

    [k8smeta/k8s_metadata_utils.go] and [k8s_metadata_controller.go]: the event
    handlers of the informers, which convert an object and send it to the metadata
    handler, and the goroutine that starts the informers.  Informers are
    third-party code: an informer that runs synchronises its cache with the API
    server, changes it from then on, and may call its handlers with any event,
    between any two steps of that goroutine. *)

From S2P Require Import Prelude GoLib Uuid Messages GoNet ServiceCIDR K8sMessages K8sStore K8sHandler K8sAbs K8sProcessors K8sConvert.

(** ** Converters *)

(** An object handed to a handler.  [cache.DeletedFinalStateUnknown] is what an
    informer passes to [DeleteFunc] for an object whose deletion it missed. *)
Inductive api_object : Type :=
| ObjNode (n : v1.Node)
| ObjNamespace (n : v1.Namespace)
| ObjPod (p : v1.Pod)
| ObjEndpoints (e : v1.Endpoints)
| ObjService (s : v1.Service)
| ObjReplicaSet (r : apps.ReplicaSet)
| ObjDeployment (d : apps.Deployment)
| DeletedFinalStateUnknown (key : string) (obj : api_object).

(** The panic of a type assertion. *)
Definition interface_conversion {S A} : M S A := panic (PanicMsg "interface conversion").

Definition new_message (ty : string) (r : K8SResource) : option K8sResourceMessage :=
  Some (mkK8sResourceMessage (Some r) ty "").

Definition podConverter {S} (obj : api_object) : M S (option K8sResourceMessage) :=
  match obj with
  | ObjPod p => mret (new_message "pods" (K8SResource_Pod (PodToProto p)))
  | _ => interface_conversion
  end.

Definition serviceConverter {S} (obj : api_object) : M S (option K8sResourceMessage) :=
  match obj with
  | ObjService s => mret (new_message "services" (K8SResource_Service (ServiceToProto s)))
  | _ => interface_conversion
  end.

Definition namespaceConverter {S} (obj : api_object) : M S (option K8sResourceMessage) :=
  match obj with
  | ObjNamespace n => mret (new_message "namespaces" (K8SResource_Namespace (NamespaceToProto n)))
  | _ => interface_conversion
  end.

Definition endpointsConverter {S} (obj : api_object) : M S (option K8sResourceMessage) :=
  match obj with
  | ObjEndpoints e => mret (new_message "endpoints" (K8SResource_Endpoints (EndpointsToProto e)))
  | _ => interface_conversion
  end.

Definition nodeConverter {S} (obj : api_object) : M S (option K8sResourceMessage) :=
  match obj with
  | ObjNode n => mret (new_message "nodes" (K8SResource_Node (NodeToProto n)))
  | _ => interface_conversion
  end.

Definition replicaSetConverter {S} (obj : api_object) : M S (option K8sResourceMessage) :=
  match obj with
  | ObjReplicaSet r => pb ← ReplicaSetToProto r; mret (new_message "replicasets" (K8SResource_ReplicaSet pb))
  | _ => interface_conversion
  end.

Definition deploymentConverter {S} (obj : api_object) : M S (option K8sResourceMessage) :=
  match obj with
  | ObjDeployment d => pb ← DeploymentToProto d; mret (new_message "deployments" (K8SResource_Deployment pb))
  | _ => interface_conversion
  end.

(** ** Handlers *)

Inductive informer_event : Type :=
| AddFunc (obj : api_object)
| UpdateFunc (oldObj newObj : api_object)
| DeleteFunc (obj : api_object).

(** The messages sent so far; the metadata handler takes them in this order. *)
Definition update_ch : Type := list K8sResourceMessage.

Definition send_as (eventType : string) (msg : option K8sResourceMessage) : M update_ch unit :=
  match msg with
  | Some m => modify (λ ch, ch ++ [mkK8sResourceMessage (Object m) (ObjectType m) eventType])
  | None => mret tt
  end.

Definition createHandlers (convert : api_object → M update_ch (option K8sResourceMessage)) (e : informer_event)
    : M update_ch unit :=
  match e with
  | AddFunc obj => msg ← convert obj; send_as watch_Added msg
  | UpdateFunc _ newObj => msg ← convert newObj; send_as watch_Modified msg
  | DeleteFunc obj => msg ← convert obj; send_as watch_Deleted msg
  end.

(** ** The controller *)

Inductive kind : Type := Nodes | Namespaces | Pods | EndpointsKind | Services | ReplicaSets | Deployments.
#[export] Instance kind_eq_dec : EqDecision kind.
Proof. solve_decision. Defined.

Definition converter {S} (k : kind) : api_object → M S (option K8sResourceMessage) :=
  match k with
  | Nodes => nodeConverter | Namespaces => namespaceConverter | Pods => podConverter
  | EndpointsKind => endpointsConverter | Services => serviceConverter | ReplicaSets => replicaSetConverter
  | Deployments => deploymentConverter
  end.

(** The calls of the goroutine that starts the watchers: [AddEventHandler] and
    [Run] of an informer, [WaitForCacheSync], the listing of the cache with the
    messages for what is listed, and one such message.  A factory is known by its
    namespace; the factory of the nodes and namespaces has none. *)
Inductive action : Type :=
| RunInformer (k : kind) (factory : option string)
| WaitForCacheSync (k : kind) (factory : option string)
| ListCache (k : kind) (factory : option string)
| SendAdded (k : kind) (obj : api_object).

Definition startNodeWatcher : list action := [RunInformer Nodes None; WaitForCacheSync Nodes None; ListCache Nodes None].
Definition startNamespaceWatcher : list action := [RunInformer Namespaces None].
Definition startPodWatcher (factories : list string) : list action :=
  factories ≫= λ f, [RunInformer Pods (Some f); WaitForCacheSync Pods (Some f); ListCache Pods (Some f)].
Definition startEndpointsWatcher (factories : list string) : list action := (λ f, RunInformer EndpointsKind (Some f)) <$> factories.
Definition startServiceWatcher (factories : list string) : list action := (λ f, RunInformer Services (Some f)) <$> factories.
Definition startReplicaSetWatcher (factories : list string) : list action := (λ f, RunInformer ReplicaSets (Some f)) <$> factories.
Definition startDeploymentWatcher (factories : list string) : list action := (λ f, RunInformer Deployments (Some f)) <$> factories.

Definition startWithClientSet (namespaces : list string) : list action :=
  startNodeWatcher ++ startNamespaceWatcher ++ startPodWatcher namespaces ++ startEndpointsWatcher namespaces ++
  startServiceWatcher namespaces ++ startReplicaSetWatcher namespaces ++ startDeploymentWatcher namespaces.

(** An informer.  Of the informers: the objects of the initial list of each, which the
    cache of a synchronised informer was filled with; what the caches hold; what they
    have held and no longer do; and whether the listing of a cache has failed. *)
Abbreviation watcher := (kind * option string)%type.
Record informers := mkInformers {
  initial : list (watcher * list api_object); cached : list (watcher * api_object);
  gone : list (watcher * api_object); list_failed : bool
}.

(** [HasSynced]. *)
Definition synced (w : watcher) (x : informers) : Prop := ∃ objs, (w, objs) ∈ initial x.

Definition cache_of (w : watcher) (x : informers) : list api_object := (filter (λ y, y.1 = w) (cached x)).*2.

(** [quitCh] and [updateCh], the informers that run, what the starting goroutine has
    left to do, and the state of the informers; [crashed] is a panic. *)
Record Controller := mkController {
  quit : bool; ch : update_ch; running : list watcher; todo : list action;
  infs : informers; crashed : option crash
}.

Definition NewControllerWithClientSet (namespaces : list string) : Controller :=
  mkController false [] [] (startWithClientSet namespaces) (mkInformers [] [] [] false) None.

(** [once.Do(close(quitCh))]. *)
Definition Stop (c : Controller) : Controller := mkController true (ch c) (running c) (todo c) (infs c) (crashed c).

(** Sends to the channel, or panics. *)
Definition on_ch (m : M update_ch unit) (c : Controller) : Controller :=
  match m (ch c) with
  | (Crash e, ch') => mkController (quit c) ch' (running c) (todo c) (infs c) (Some e)
  | (_, ch') => mkController (quit c) ch' (running c) (todo c) (infs c) None
  end.

Definition with_todo (l : list action) (c : Controller) : Controller :=
  mkController (quit c) (ch c) (running c) l (infs c) (crashed c).

Definition with_infs (x : informers) (c : Controller) : Controller :=
  mkController (quit c) (ch c) (running c) (todo c) x (crashed c).

Definition obj_kind (obj : api_object) : option kind :=
  match obj with
  | ObjNode _ => Some Nodes | ObjNamespace _ => Some Namespaces | ObjPod _ => Some Pods
  | ObjEndpoints _ => Some EndpointsKind | ObjService _ => Some Services | ObjReplicaSet _ => Some ReplicaSets
  | ObjDeployment _ => Some Deployments | DeletedFinalStateUnknown _ _ => None
  end.

(** What an informer of kind [k] passes to its handlers. *)
Inductive event_of (k : kind) : informer_event → Prop :=
| ev_add obj : obj_kind obj = Some k → event_of k (AddFunc obj)
| ev_update old new : obj_kind old = Some k → obj_kind new = Some k → event_of k (UpdateFunc old new)
| ev_delete obj : obj_kind obj = Some k → event_of k (DeleteFunc obj)
| ev_tombstone key obj : obj_kind obj = Some k → event_of k (DeleteFunc (DeletedFinalStateUnknown key obj)).

Section steps.
(** Which events the informers deliver and which objects their caches hold. *)
Context (delivered : informer_event → Prop) (object : api_object → Prop).

(** [WaitForCacheSync] returns when the informer has synchronised, or [quitCh] is
    closed.  The listing of a cache gives its objects in some order; one that fails
    gives none.  An informer that runs fills its cache from the API server once, then
    adds objects to it and removes or replaces them.  The informers end when [quitCh]
    is closed. *)
Inductive cstep : Controller → Controller → Prop :=
| step_run c k f l : crashed c = None → todo c = RunInformer k f :: l →
    cstep c (mkController (quit c) (ch c) (running c ++ [(k, f)]) l (infs c) None)
| step_sync c k f l : crashed c = None → todo c = WaitForCacheSync k f :: l → synced (k, f) (infs c) ∨ quit c = true →
    cstep c (with_todo l c)
| step_list c k f objs l : crashed c = None → todo c = ListCache k f :: l → objs ≡ₚ cache_of (k, f) (infs c) →
    cstep c (with_todo ((SendAdded k <$> objs) ++ l) c)
| step_list_fails c k f l : crashed c = None → todo c = ListCache k f :: l →
    cstep c (with_infs (mkInformers (initial (infs c)) (cached (infs c)) (gone (infs c)) true) (with_todo l c))
| step_synced c w objs : crashed c = None → quit c = false → w ∈ running c → (¬ synced w (infs c)) →
    Forall (λ obj, obj_kind obj = Some w.1 ∧ object obj) objs →
    cstep c (with_infs (mkInformers ((w, objs) :: initial (infs c)) ((pair w <$> objs) ++ cached (infs c)) (gone (infs c)) (list_failed (infs c))) c)
| step_cached c w obj : crashed c = None → quit c = false → w ∈ running c → synced w (infs c) →
    obj_kind obj = Some w.1 → object obj →
    cstep c (with_infs (mkInformers (initial (infs c)) ((w, obj) :: cached (infs c)) (gone (infs c)) (list_failed (infs c))) c)
| step_uncached c w obj l1 l2 : crashed c = None → quit c = false → w ∈ running c → cached (infs c) = l1 ++ (w, obj) :: l2 →
    cstep c (with_infs (mkInformers (initial (infs c)) (l1 ++ l2) ((w, obj) :: gone (infs c)) (list_failed (infs c))) c)
| step_send c k obj l : crashed c = None → todo c = SendAdded k obj :: l →
    cstep c (on_ch (msg ← converter k obj; send_as watch_Added msg) (with_todo l c))
| step_event c k f e : crashed c = None → quit c = false → (k, f) ∈ running c → event_of k e → delivered e →
    cstep c (on_ch (createHandlers (converter k) e) c)
| step_stop c : crashed c = None → cstep c (Stop c).
End steps.

Lemma send_as_run ty m ch : send_as ty (Some m) ch = (Ret tt, ch ++ [mkK8sResourceMessage (Object m) (ObjectType m) ty]).
Proof. done. Qed.

(** ** What can be converted *)

(** An object without the nil pointers the conversion follows; the API server
    requires the selectors and fills in the rest. *)
Definition complete (obj : api_object) : Prop :=
  match obj with
  | ObjReplicaSet r => is_Some (apps.rsp_Selector (apps.rs_Spec r))
  | ObjDeployment d =>
    is_Some (apps.dsp_Selector (apps.dep_Spec d)) ∧
    (apps.dsy_Type (apps.dsp_Strategy (apps.dep_Spec d)) = "RollingUpdate" →
     ∃ ru, apps.dsy_RollingUpdate (apps.dsp_Strategy (apps.dep_Spec d)) = Some ru ∧
           is_Some (apps.MaxUnavailable ru) ∧ is_Some (apps.MaxSurge ru))
  | DeletedFinalStateUnknown _ _ => False
  | _ => True
  end.

(** A complete object whose addresses and names the metadata handler can store, with
    the service addresses of the family [fam]. *)
Definition api_ok (fam : bool) (obj : api_object) : Prop :=
  complete obj ∧
  match obj with
  | ObjPod p =>
    ip_ok (v1.pst_HostIP (v1.pod_Status p)) ∧
    clean [metav1.om_Namespace (v1.pod_Meta p)] ∧ clean [metav1.om_Name (v1.pod_Meta p)] ∧
    ∀ labels k, metav1.om_Labels (v1.pod_Meta p) = Some labels → is_Some (labels !! k) → clean [k]
  | ObjService s => parsed fam (To16 (ParseIP (v1.ss_ClusterIP (v1.svc_Spec s))))
  | ObjNode n => ∀ a, a ∈ v1.nst_Addresses (v1.node_Status n) → ip_ok (v1.na_Address a)
  | _ => True
  end.

(** What an object is converted to. *)
Definition converted (k : kind) (obj : api_object) (m : K8sResourceMessage) : Prop :=
  (∀ (ch : update_ch), converter k obj ch = (Ret (Some m), ch)) ∧ EventType m = "".

Definition typename (k : kind) : string :=
  match k with
  | Nodes => "nodes" | Namespaces => "namespaces" | Pods => "pods" | EndpointsKind => "endpoints"
  | Services => "services" | ReplicaSets => "replicasets" | Deployments => "deployments"
  end.

Lemma replica_set_converts {S} (r : apps.ReplicaSet) : is_Some (apps.rsp_Selector (apps.rs_Spec r)) →
  ∃ pb, (∀ s : S, ReplicaSetToProto r s = (Ret pb, s)) ∧ is_Some (rs_Metadata pb) ∧ is_Some (rs_Spec pb) ∧ is_Some (rs_Status pb).
Proof.
  destruct r as [md [rep mrs sel tmpl] st]. cbn. intros [ls ->].
  eexists. split; [intros s; unfold ReplicaSetToProto, ReplicaSetSpecToProto, LabelSelectorToProto; reflexivity|].
  by split_and!; eexists.
Qed.

Lemma deployment_converts {S} (d : apps.Deployment) : complete (ObjDeployment d) →
  ∃ pb, (∀ s : S, DeploymentToProto d s = (Ret pb, s)) ∧ is_Some (dep_Metadata pb) ∧ is_Some (dep_Spec pb) ∧ is_Some (dep_Status pb).
Proof.
  destruct d as [md [rep sel tmpl [ty ru] mrs rhl pa pds] st]. cbn. intros [[ls ->] Hru].
  unfold DeploymentToProto, DeploymentSpecToProto, IntOrStringToString, LabelSelectorToProto.
  cbn [apps.dep_Spec apps.dsp_Strategy apps.dsy_Type apps.dsy_RollingUpdate apps.dsp_Selector].
  destruct (decide (ty = "RollingUpdate")) as [->|Hty].
  - destruct (Hru eq_refl) as ([mu' ms'] & -> & [mu Hmu] & [ms Hms]). cbn in Hmu, Hms. subst.
    eexists. split; [intros s; reflexivity|]. by split_and!; eexists.
  - eexists. split; [intros s; reflexivity|]. by split_and!; eexists.
Qed.

(** A complete object of its kind is converted to a message of its type. *)
Lemma complete_converts k obj : obj_kind obj = Some k → complete obj →
  ∃ m, converted k obj m ∧ ObjectType m = typename k.
Proof.
  destruct obj; cbn; intros [= <-] Hc; try (by eexists; split; [split|]).
  - destruct (replica_set_converts (S := update_ch) r Hc) as (pb & E & _).
    eexists. split; [split; [intros ch; cbn; by run_with (E ch)|done]|done].
  - destruct (deployment_converts (S := update_ch) d Hc) as (pb & E & _).
    eexists. split; [split; [intros ch; cbn; by run_with (E ch)|done]|done].
Qed.



(** ** Order *)

(** The metadata handler needs the nodes before anything else, and the pods before
    the resources that refer to them. *)
Definition precedes (k k' : kind) : bool :=
  match k, k' with
  | Nodes, Nodes => false
  | Nodes, _ => true
  | Pods, (EndpointsKind | Services | ReplicaSets | Deployments) => true
  | _, _ => false
  end.

Definition added (k : kind) (obj : api_object) (l : update_ch) : Prop :=
  ∃ m, converted k obj m ∧ mkK8sResourceMessage (Object m) (ObjectType m) watch_Added ∈ l.

(** Nothing that precedes the kind [k] is left to be listed or sent. *)
Definition past (k : kind) (l : list action) : Prop :=
  ∀ k1, precedes k1 k = true → (∀ f, ListCache k1 f ∉ l) ∧ (∀ obj, SendAdded k1 obj ∉ l).

Definition action_kind (a : action) : kind :=
  match a with RunInformer k _ | WaitForCacheSync k _ | ListCache k _ | SendAdded k _ => k end.

Fixpoint in_order (l : list action) : Prop :=
  match l with [] => True | a :: l => past (action_kind a) l ∧ in_order l end.

Definition action_ok (a : action) : Prop :=
  match a with
  | ListCache k _ => k = Nodes ∨ k = Pods
  | SendAdded k obj => obj_kind obj = Some k ∧ complete obj
  | _ => True
  end.

(** The informers whose caches the starting goroutine lists. *)
Definition listed_watcher (ns : list string) (w : watcher) : Prop :=
  w = (Nodes, None) ∨ ∃ f, f ∈ ns ∧ w = (Pods, Some f).

(** The informer [w] has synchronised, and every object of its initial list satisfies
    [P] or is no longer in its cache. *)
Definition covers (x : informers) (w : watcher) (P : api_object → Prop) : Prop :=
  synced w x ∧ ∀ objs obj, (w, objs) ∈ initial x → obj ∈ objs → P obj ∨ (w, obj) ∈ gone x.

(** The controller has not been stopped and no listing has failed. *)
Definition undisturbed (c : Controller) : Prop := quit c = false ∧ list_failed (infs c) = false.

(** Each wait is for a cache that is listed later. *)
Fixpoint waits_listed (l : list action) : Prop :=
  match l with
  | [] => True
  | WaitForCacheSync k f :: l => ListCache k f ∈ l ∧ waits_listed l
  | _ :: l => waits_listed l
  end.

Definition to_send (c : Controller) (k : kind) (obj : api_object) : Prop := SendAdded k obj ∈ todo c ∨ added k obj (ch c).

Definition sent_before (ns : list string) (c : Controller) : Prop :=
  ∀ pre m post w k', ch c = pre ++ m :: post → ObjectType m = typename k' → precedes w.1 k' = true →
    listed_watcher ns w → undisturbed c → covers (infs c) w (λ obj, added w.1 obj pre).

Record ctl_inv (ns : list string) (c : Controller) : Prop := mkCtlInv {
  ci_order : in_order (todo c);
  ci_ok : Forall action_ok (todo c);
  ci_running : ∀ k f, (k, f) ∈ running c → past k (todo c);
  ci_ch : ∀ m, m ∈ ch c → ∃ k, ObjectType m = typename k ∧ past k (todo c);
  ci_waits : waits_listed (todo c);
  ci_cached : ∀ w obj, (w, obj) ∈ cached (infs c) → obj_kind obj = Some w.1;
  ci_initial : ∀ w objs obj, (w, objs) ∈ initial (infs c) → obj ∈ objs → (w, obj) ∈ cached (infs c) ∨ (w, obj) ∈ gone (infs c);
  ci_synced : ∀ w, listed_watcher ns w → WaitForCacheSync w.1 w.2 ∉ todo c → quit c = false → synced w (infs c);
  ci_sent : ∀ w, listed_watcher ns w → ListCache w.1 w.2 ∉ todo c → undisturbed c → covers (infs c) w (to_send c w.1);
  ci_before : sent_before ns c
}.

Lemma waits_listed_elem l k f : waits_listed l → WaitForCacheSync k f ∈ l → ListCache k f ∈ l.
Proof.
  induction l as [|a l IH]; intros Hl Hin; [set_solver|].
  apply elem_of_cons in Hin as [<-|Hin]; [right; apply Hl|]. right. apply IH; [|done]. by destruct a; [|destruct Hl|..].
Qed.

Lemma waits_listed_tail a l : waits_listed (a :: l) → waits_listed l.
Proof. by destruct a; [|intros []|..]. Qed.

Lemma waits_listed_app l1 l2 : waits_listed l1 → waits_listed l2 → waits_listed (l1 ++ l2).
Proof. intros H1 H2. induction l1 as [|a l1 IH]; [done|]. destruct a; cbn in *; [auto| |auto..]. destruct H1. split; [set_solver|auto]. Qed.

Lemma covers_mono x x' w (P P' : api_object → Prop) :
  covers x w P → (∀ objs, (w, objs) ∈ initial x' ↔ (w, objs) ∈ initial x) → (∀ y, y ∈ gone x → y ∈ gone x') →
  (∀ obj, P obj → P' obj) → covers x' w P'.
Proof.
  intros [[objs Hs] Hc] Hi Hg HP. split; [exists objs; by apply Hi|]. intros objs' obj Ho Hin. apply Hi in Ho.
  destruct (Hc _ _ Ho Hin); auto.
Qed.

Lemma typename_inj k k' : typename k = typename k' → k = k'.
Proof. by destruct k, k'. Qed.

Lemma past_suffix k l1 l2 : past k (l1 ++ l2) → past k l2.
Proof. intros H k1 Hk. destruct (H k1 Hk). set_solver. Qed.

Lemma past_cons k a l : past k (a :: l) → past k l.
Proof. apply (past_suffix k [a]). Qed.

Lemma added_app k obj l l' : added k obj l → added k obj (l ++ l').
Proof. intros (m & ? & ?). exists m. set_solver. Qed.

(** All messages of a listing come after what precedes its kind. *)
Lemma past_sends k k' objs l : past k l → precedes k' k = false → past k ((SendAdded k' <$> objs) ++ l).
Proof.
  intros H Hk k1 Hk1. destruct (H k1 Hk1) as [H1 H2]. split; intros x [Hx|Hx]%elem_of_app; [|by eapply H1| |by eapply H2].
  - apply list_elem_of_fmap in Hx as (? & ? & _). done.
  - apply list_elem_of_fmap in Hx as (? & [= -> _] & _). congruence.
Qed.

Lemma precedes_irrefl k : precedes k k = false.
Proof. by destruct k. Qed.

Lemma in_order_sends k objs l : past k l → in_order l → in_order ((SendAdded k <$> objs) ++ l).
Proof. intros Hp Ho. induction objs as [|o objs IH]; [done|]. cbn. split; [|done]. by apply past_sends; [|apply precedes_irrefl]. Qed.

Lemma snoc_split {A} (l pre post : list A) x m :
  l ++ [x] = pre ++ m :: post → (pre = l ∧ m = x) ∨ ∃ post', l = pre ++ m :: post'.
Proof.
  destruct post as [|y post _] using rev_ind; intros E.
  - apply app_inj_tail in E as [-> ->]. by left.
  - right. exists post. rewrite app_comm_cons, app_assoc in E. by apply app_inj_tail in E as [-> _].
Qed.

(** Sending a message of a kind whose predecessors are done. *)
Lemma inv_send ns c k m0 :
  ctl_inv ns c → past k (todo c) → ObjectType m0 = typename k →
  ctl_inv ns (mkController (quit c) (ch c ++ [m0]) (running c) (todo c) (infs c) None).
Proof.
  intros [Ho Hok Hr Hc Hw Hca Hi Hsy Hse Hb] Hp Hms. split; cbn; try done.
  - intros m [Hm|Hm]%elem_of_app; [by apply Hc|]. apply list_elem_of_singleton in Hm as ->. by exists k.
  - intros w Hwl Hl Hu. eapply covers_mono; [by apply Hse|done..|]. intros obj [H|H]; [by left|right; by apply added_app].
  - intros pre m post w k' E Hty Hpr Hwl Hu. cbn in *. apply snoc_split in E as [[-> ->]|[post' E]]; [|by eapply Hb].
    rewrite Hms in Hty. apply typename_inj in Hty as <-. destruct (Hp w.1 Hpr) as [H1 H2].
    eapply covers_mono; [by apply (Hse w)|done..|]. intros obj [H|H]; [by apply H2 in H|done].
Qed.

(** A call that sends at most one message of its kind, or panics. *)
Lemma inv_on_ch ns c k (m : M update_ch unit) :
  ctl_inv ns c → past k (todo c) →
  (∀ l, (∃ m0, m l = (Ret tt, l ++ [m0]) ∧ ObjectType m0 = typename k) ∨ ∃ e, m l = (Crash e, l)) →
  ctl_inv ns (on_ch m c).
Proof.
  intros Hinv Hp Hm. unfold on_ch. destruct (Hm (ch c)) as [(m0 & -> & Ht)|(e & ->)]; [by eapply inv_send|].
  destruct Hinv. by split.
Qed.

Lemma converter_shape k obj (l : update_ch) :
  (∃ m, converter k obj l = (Ret (Some m), l) ∧ ObjectType m = typename k) ∨ ∃ e, converter k obj l = (Crash e, l).
Proof.
  destruct k, obj; cbn; try (by right; eexists); try (by left; eexists).
  - destruct r as [md [rep mrs [ls|] tmpl] st]; [left|right]; eexists; [split|]; reflexivity.
  - destruct d as [md [rep [ls|] tmpl [ty ru] mrs rhl pa pds] st];
      unfold DeploymentToProto, DeploymentSpecToProto, IntOrStringToString, LabelSelectorToProto, new_message;
      cbn [apps.dep_Spec apps.dsp_Strategy apps.dsy_Type apps.dsy_RollingUpdate apps.dsp_Selector];
      destruct (decide (ty = "RollingUpdate")); try destruct ru as [[[mu|] [ms|]]|];
      (by left; eexists; split; reflexivity) || (by right; eexists; reflexivity).
Qed.

Lemma handler_shape k e (l : update_ch) :
  (∃ m, createHandlers (converter k) e l = (Ret tt, l ++ [m]) ∧ ObjectType m = typename k) ∨
  ∃ c, createHandlers (converter k) e l = (Crash c, l).
Proof.
  destruct e as [obj|? obj|obj]; cbn; unfold mbind, M_bind;
    destruct (converter_shape k obj l) as [(m & -> & Ht)|(c & ->)]; (by right; eexists) || (left; eexists; by split).
Qed.

Lemma send_shape k obj (l : update_ch) :
  (∃ m, (msg ← converter k obj; send_as watch_Added msg) l = (Ret tt, l ++ [m]) ∧ ObjectType m = typename k) ∨
  ∃ c, (msg ← converter k obj; send_as watch_Added msg) l = (Crash c, l).
Proof. apply (handler_shape k (AddFunc obj)). Qed.

Lemma past_app k l1 l2 : past k l1 → past k l2 → past k (l1 ++ l2).
Proof. intros H1 H2 k1 Hk. destruct (H1 k1 Hk), (H2 k1 Hk). set_solver. Qed.

(** Calls that neither list nor send, and the listing of pods. *)
Lemma past_runs k k' (fs : list string) : past k ((λ f, RunInformer k' (Some f)) <$> fs).
Proof. intros k1 _. split; intros x Hx; apply list_elem_of_fmap in Hx as (? & ? & _); done. Qed.

Lemma past_pods k fs : precedes Pods k = false → past k (startPodWatcher fs).
Proof.
  intros Hk k1 Hk1. split; intros x Hx; apply list_elem_of_bind in Hx as (f & Hx & _);
    rewrite !elem_of_cons, elem_of_nil in Hx; destruct Hx as [?|[?|[?|?]]]; simplify_eq; congruence.
Qed.

Lemma in_order_app l1 l2 :
  in_order l1 → in_order l2 → (∀ a, a ∈ l1 → past (action_kind a) l2) → in_order (l1 ++ l2).
Proof.
  induction l1 as [|a l1 IH]; [done|]. cbn. intros [Ha H1] H2 H. split; [apply past_app; [done|apply H; by left]|].
  apply IH; [done..|]. intros a' Ha'. apply H. by right.
Qed.

Lemma in_order_runs k (fs : list string) : in_order ((λ f, RunInformer k (Some f)) <$> fs).
Proof. induction fs as [|f fs IH]; [done|]. cbn. split; [apply past_runs|done]. Qed.

Lemma in_order_pods fs : in_order (startPodWatcher fs).
Proof.
  induction fs as [|f fs IH]; [done|].
  change (in_order ([RunInformer Pods (Some f); WaitForCacheSync Pods (Some f); ListCache Pods (Some f)] ++ startPodWatcher fs)).
  apply in_order_app; [|done|].
  - cbn. split_and!; try done; intros k1 Hk1; split; intros x Hx; rewrite ?elem_of_cons, ?elem_of_nil in Hx;
      destruct_or?; simplify_eq; done.
  - intros a Ha. rewrite !elem_of_cons, elem_of_nil in Ha. destruct Ha as [->|[->|[->|[]]]]; by apply past_pods.
Qed.

Lemma past_rest k fs : past k (startEndpointsWatcher fs ++ startServiceWatcher fs ++ startReplicaSetWatcher fs ++ startDeploymentWatcher fs).
Proof. repeat apply past_app; apply past_runs. Qed.

Lemma start_in_order ns : in_order (startWithClientSet ns).
Proof.
  unfold startWithClientSet.
  assert (Hpast : ∀ k, precedes Pods k = false → past k (startPodWatcher ns ++ startEndpointsWatcher ns ++ startServiceWatcher ns ++ startReplicaSetWatcher ns ++ startDeploymentWatcher ns)).
  { intros k Hk. apply past_app; [by apply past_pods|apply past_rest]. }
  assert (Hns : past Nodes startNamespaceWatcher ∧ past Namespaces startNamespaceWatcher).
  { split; intros k1 _; split; intros x Hx; apply list_elem_of_singleton in Hx; done. }
  apply in_order_app; [..|intros a Ha; unfold startNodeWatcher in Ha; rewrite !elem_of_cons, elem_of_nil in Ha;
    destruct Ha as [->|[->|[->|[]]]]; (apply past_app; [apply Hns|by apply Hpast])].
  - cbn. split_and!; try done; intros k1 Hk1; split; intros x Hx; rewrite ?elem_of_cons, ?elem_of_nil in Hx;
      destruct_or?; simplify_eq; done.
  - apply in_order_app; [cbn; split; [intros k1 _; split; set_solver|done]| |].
    + repeat (apply in_order_app; [apply in_order_pods || apply in_order_runs| |intros a Ha]);
        [apply in_order_runs|repeat apply past_app; apply past_runs..].
    + intros a Ha. apply list_elem_of_singleton in Ha as ->. by apply Hpast.
Qed.

Definition start_action (a : action) : Prop :=
  match a with ListCache k _ => k = Nodes ∨ k = Pods | SendAdded _ _ => False | _ => True end.

Lemma start_actions ns : Forall start_action (startWithClientSet ns).
Proof.
  unfold startWithClientSet. rewrite !Forall_app. split_and!; try (apply Forall_fmap, Forall_true; done).
  - repeat constructor; by left.
  - repeat constructor.
  - apply Forall_forall. intros a (f & Ha & _)%list_elem_of_bind. rewrite !elem_of_cons, elem_of_nil in Ha.
    destruct Ha as [->|[->|[->|[]]]]; cbn; try done. by right.
Qed.

Lemma start_ok ns : Forall action_ok (startWithClientSet ns).
Proof. eapply Forall_impl; [apply start_actions|]. by intros []. Qed.

Lemma start_waits ns : waits_listed (startWithClientSet ns).
Proof.
  unfold startWithClientSet. repeat apply waits_listed_app; try (by induction ns).
  - cbn. split; [by left|done].
  - induction ns as [|f ns IH]; [done|]. cbn. split; [by left|done].
Qed.

Lemma start_lists ns w : listed_watcher ns w →
  WaitForCacheSync w.1 w.2 ∈ startWithClientSet ns ∧ ListCache w.1 w.2 ∈ startWithClientSet ns.
Proof.
  unfold startWithClientSet, startNodeWatcher. intros [->|(f & Hf & ->)]; [set_solver|].
  assert (∀ a, a ∈ [RunInformer Pods (Some f); WaitForCacheSync Pods (Some f); ListCache Pods (Some f)] → a ∈ startPodWatcher ns) as H.
  { intros a Ha. apply list_elem_of_bind. by exists f. }
  split; apply elem_of_app; right; apply elem_of_app; right; apply elem_of_app; left; apply H; set_solver.
Qed.

Lemma inv_start ns : ctl_inv ns (NewControllerWithClientSet ns).
Proof.
  split; cbn; [apply start_in_order|apply start_ok|set_solver..|apply start_waits|set_solver|set_solver| | |].
  - intros w Hw H. destruct H. by apply start_lists.
  - intros w Hw H. destruct H. by apply start_lists.
  - intros pre m post w k' E. cbn in E. by destruct pre.
Qed.

(** The first call is done, and it was not the listing of a cache. *)
Lemma inv_next ns c a l :
  ctl_inv ns c → todo c = a :: l → (∀ k obj, a = SendAdded k obj → added k obj (ch c)) →
  (∀ k f, a = WaitForCacheSync k f → synced (k, f) (infs c) ∨ quit c = true) → (∀ k f, a ≠ ListCache k f) →
  ctl_inv ns (with_todo l c).
Proof.
  intros [Ho Hok Hr Hc Hw Hca Hi Hsy Hse Hb] Et Ha Hwait Hnl. rewrite Et in *. cbn in Ho. apply Forall_cons in Hok as [_ Hok].
  split; cbn; [by destruct Ho|done| | |by eapply waits_listed_tail|done|done| | |done].
  - intros k f H. eapply past_cons. by eapply Hr.
  - intros m H. destruct (Hc m H) as (k & ? & ?). exists k. split; [done|]. by eapply past_cons.
  - intros [k f] Hwl Hn Hq. cbn in *. assert (a = WaitForCacheSync k f ∨ a ≠ WaitForCacheSync k f) as [->|Hne].
    { destruct a as [|k' f'| |]; try (by right). destruct (decide ((k', f') = (k, f))) as [[= -> ->]|]; [by left|right; congruence]. }
    + by destruct (Hwait k f eq_refl) as [|]; [|congruence].
    + apply Hsy; [done| |done]. intros [E|E]%elem_of_cons; [by destruct Hne|done].
  - intros w Hwl Hn Hu. eapply covers_mono; [apply (Hse w); [done| |done]|done..|].
    + intros [E|E]%elem_of_cons; [by apply (Hnl w.1 w.2)|done].
    + unfold to_send. cbn. intros obj [H|H]; [|by right]. rewrite Et in H. apply elem_of_cons in H as [E|H]; [right; by apply Ha|by left].
Qed.

(** The state of the informers changes, without a new initial list. *)
Lemma inv_infs ns c x :
  ctl_inv ns c → initial x = initial (infs c) → list_failed x = list_failed (infs c) →
  (∀ y, y ∈ gone (infs c) → y ∈ gone x) → (∀ y, y ∈ cached (infs c) → y ∈ cached x ∨ y ∈ gone x) →
  (∀ w obj, (w, obj) ∈ cached x → obj_kind obj = Some w.1) → ctl_inv ns (with_infs x c).
Proof.
  intros [Ho Hok Hr Hc Hw Hca Hi Hsy Hse Hb] Ei Ef Hg Hcg Hk. unfold undisturbed, synced in *. split; cbn; try done.
  - intros w objs obj. rewrite Ei. intros H1 H2. destruct (Hi _ _ _ H1 H2) as [H|H]; [by apply Hcg|right; by apply Hg].
  - intros w. unfold synced. rewrite Ei. apply Hsy.
  - intros w Hwl Hl Hu. unfold undisturbed in Hu. cbn in Hu. rewrite Ef in Hu.
    eapply covers_mono; [by apply Hse|by rewrite Ei|done|done].
  - intros pre m post w k' E Hty Hpr Hwl Hu. unfold undisturbed in Hu. cbn in *. rewrite Ef in Hu.
    eapply covers_mono; [by eapply Hb|by rewrite Ei|done|done].
Qed.

Ltac each_step Hs :=
  destruct Hs as [c k f l Hcr Et|c k f l Hcr Et Hsync|c k f objs l Hcr Et Hobjs|c k f l Hcr Et|c w objs Hcr Hq Hrun Hns Hobjs
    |c w obj Hcr Hq Hrun Hsy Hk Hob|c w obj l1 l2 Hcr Hq Hrun Ec|c k obj l Hcr Et|c k f e Hcr Hq Hrun He Hd|c Hcr].

Section runs.
Context (delivered : informer_event → Prop) (object : api_object → Prop).
Abbreviation step := (cstep delivered object).

Lemma elem_cache_of w obj x : obj ∈ cache_of w x ↔ (w, obj) ∈ cached x.
Proof.
  unfold cache_of. rewrite list_elem_of_fmap. split.
  - intros ([w' o] & -> & [Hw H]%list_elem_of_filter). cbn in *. by subst.
  - intros H. exists (w, obj). split; [done|]. by apply list_elem_of_filter.
Qed.

Lemma waits_sends k objs l : waits_listed l → waits_listed ((SendAdded k <$> objs) ++ l).
Proof. intros H. by induction objs. Qed.

(** The cache of an informer is listed. *)
Lemma inv_list ns c k f objs l :
  ctl_inv ns c → todo c = ListCache k f :: l → objs ≡ₚ cache_of (k, f) (infs c) →
  ctl_inv ns (with_todo ((SendAdded k <$> objs) ++ l) c).
Proof.
  intros [Ho Hok Hr Hc Hw Hca Hi Hsy Hse Hb] Et Hobjs.
  assert (Hnot : ∀ k', past k' (todo c) → precedes k k' = false).
  { intros k' Hp. destruct (precedes k k') eqn:E; [|done]. destruct (Hp k E) as [H _]. destruct (H f). rewrite Et. by left. }
  assert (Hsend : ∀ a, a ∉ l → (∀ o, a ≠ SendAdded k o) → a ∉ (SendAdded k <$> objs) ++ l).
  { intros a Ha Hne [H|H]%elem_of_app; [|done]. apply list_elem_of_fmap in H as (o & -> & _). by apply (Hne o). }
  assert (Hobj : ∀ o, o ∈ objs ↔ ((k, f), o) ∈ cached (infs c)) by (intros o; by rewrite Hobjs, elem_cache_of).
  rewrite Et in Ho, Hok, Hw. destruct Ho as [Hk Ho]. apply Forall_cons in Hok as [Hkind Hok]. cbn in Hk, Hkind, Hw.
  split; cbn; try done.
  - by apply in_order_sends.
  - apply Forall_app; split; [|done]. apply Forall_fmap, Forall_forall. intros o Ho'. apply Hobj in Ho'. apply Hca in Ho'.
    split; [done|]. destruct Hkind as [-> | ->]; by destruct o.
  - intros k' f' H. pose proof (Hr _ _ H) as Hp. apply past_sends; [rewrite Et in Hp; by eapply past_cons|by apply Hnot].
  - intros m H. destruct (Hc m H) as (k' & ? & Hp). exists k'. split; [done|].
    apply past_sends; [rewrite Et in Hp; by eapply past_cons|by apply Hnot].
  - by apply waits_sends.
  - intros w Hwl Hn Hq. apply Hsy; [done| |done]. rewrite Et. intros [E|E]%elem_of_cons; [done|]. apply Hn, elem_of_app. by right.
  - intros w Hwl Hn Hu. destruct (decide (w = (k, f))) as [->|Hne]; cbn in *.
    + assert (ListCache k f ∉ l) as Hnl by (intros H; apply Hn, elem_of_app; by right). split.
      * apply Hsy; [done| |apply Hu]. rewrite Et. intros [E|E]%elem_of_cons; [done|]. by apply Hnl, waits_listed_elem.
      * intros objs' o H1 H2. destruct (Hi _ _ _ H1 H2) as [H|H]; [|by right]. left. left. apply elem_of_app. left.
        apply list_elem_of_fmap_2, Hobj. done.
    + eapply covers_mono; [apply (Hse w); [done| |done]|done..|].
      * rewrite Et. intros [E|E]%elem_of_cons; [|apply Hn, elem_of_app; by right]. destruct w. by injection E as -> ->.
      * intros o [H|H]; [|by right]. rewrite Et in H. apply elem_of_cons in H as [E|H]; [done|]. left. apply elem_of_app. by right.
Qed.

Lemma inv_step ns c c' : ctl_inv ns c → step c c' → ctl_inv ns c'.
Proof.
  intros Hinv Hs. each_step Hs.
  - pose proof (inv_next ns c _ l Hinv Et ltac:(done) ltac:(done) ltac:(done)) as [Ho Hok Hr Hc Hw Hca Hi Hsy Hse Hb].
    split; cbn in *; try done. intros k' f' [H|H]%elem_of_app; [by eapply Hr|].
    apply list_elem_of_singleton in H as [= -> ->]. pose proof (ci_order _ _ Hinv) as H. rewrite Et in H. apply H.
  - eapply inv_next; [done..| |done]. by intros ? ? [= <- <-].
  - by eapply inv_list.
  - destruct Hinv as [Ho Hok Hr Hc Hw Hca Hi Hsy Hse Hb]. rewrite Et in *. destruct Ho as [_ Ho]. apply Forall_cons in Hok as [_ Hok].
    split; cbn; try done.
    + intros k' f' H. eapply past_cons. by eapply Hr.
    + intros m H. destruct (Hc m H) as (k' & ? & ?). exists k'. split; [done|]. by eapply past_cons.
    + intros w Hwl Hn Hq. apply Hsy; [done| |done]. by intros [E|E]%elem_of_cons.
    + by intros w _ _ [_ ?].
    + by intros ? ? ? ? ? ? ? ? ? [_ ?].
  - destruct Hinv as [Ho Hok Hr Hc Hw Hca Hi Hsy Hse Hb].
    set (x := mkInformers _ _ _ _). assert (∀ w' P, covers (infs c) w' P → covers x w' P) as Hcov.
    { intros w' P Hc'. eapply covers_mono; [exact Hc'| |done|done]. intros objs'. cbn. rewrite elem_of_cons. split; [|auto].
      intros [[= -> ->]|?]; [|done]. destruct Hns. apply Hc'. }
    split; cbn; try done.
    + intros w' o [H|H]%elem_of_app; [|by apply Hca]. apply list_elem_of_fmap in H as (o' & [= -> ->] & H).
      rewrite Forall_forall in Hobjs. by apply Hobjs.
    + intros w' objs' o [[= -> ->]|H]%elem_of_cons Ho'; [left; apply elem_of_app; left; by apply list_elem_of_fmap_2|].
      destruct (Hi _ _ _ H Ho'); [left; apply elem_of_app; by right|by right].
    + intros w' Hwl Hn Hq'. destruct (Hsy w' Hwl Hn Hq') as [o Ho']. exists o. by right.
    + intros w' Hwl Hn Hu. apply Hcov. by apply (Hse w').
    + intros pre m post w' k' E Hty Hpr Hwl Hu. apply Hcov. by eapply Hb.
  - apply inv_infs; cbn; try done; [set_solver|]. intros w' o [[= -> ->]|H]%elem_of_cons; [done|]. by apply (ci_cached _ _ Hinv).
  - apply inv_infs; cbn; try done; [set_solver|rewrite Ec; set_solver|].
    intros w' o H. apply (ci_cached _ _ Hinv). rewrite Ec. set_solver.
  - pose proof (ci_order _ _ Hinv) as Hk. pose proof (ci_ok _ _ Hinv) as Hok. rewrite Et in Hk, Hok. destruct Hk as [Hk _].
    apply Forall_cons in Hok as [[Hko Hcomp] _]. destruct (complete_converts k obj Hko Hcomp) as (m & Hm & Hty).
    unfold on_ch. cbn [ch with_todo]. destruct Hm as [Hm Hev]. rewrite (bind_ret _ _ _ _ _ (Hm (ch c))), send_as_run.
    eapply (inv_next ns (mkController (quit c) (ch c ++ [mkK8sResourceMessage (Object m) (ObjectType m) watch_Added]) (running c) (todo c) (infs c) None) _ l); try done.
    + eapply inv_send; [done| |exact Hty]. rewrite Et.
      apply (past_sends k k [obj] l Hk), precedes_irrefl.
    + intros ? ? [= <- <-]. exists m. split; [done|]. apply elem_of_app. right. by left.
  - eapply inv_on_ch; [done| |intros l; apply handler_shape]. by eapply (ci_running _ _ Hinv).
  - destruct Hinv as [Ho Hok Hr Hc Hw Hca Hi Hsy Hse Hb]. split; cbn; try done.
    + by intros w _ _ [? _].
    + by intros ? ? ? ? ? ? ? ? ? [? _].
Qed.

Lemma inv_reachable ns c : rtc step (NewControllerWithClientSet ns) c → ctl_inv ns c.
Proof.
  intros H. assert (∀ c0, rtc step c0 c → ctl_inv ns c0 → ctl_inv ns c) as Hgen; [|eapply Hgen; [done|apply inv_start]].
  clear H. intros c0 Hr. induction Hr as [|c1 c2 c3 Hs _ IH]; [done|]. intros H1. apply IH. by eapply inv_step.
Qed.

(** C17: However the informers interleave with the start of the controller: as long as it
    is not stopped and no listing of a cache fails, when there is a message about
    anything but a node, the informer of the nodes has synchronised its cache and every
    node of its initial list that is still in the cache was sent as added before; and
    the same holds of the pods of every watched namespace when there is a message about
    an endpoint, a service, a replica set or a deployment. *)
Theorem cached_sent_first ns c pre m post w k' :
  rtc step (NewControllerWithClientSet ns) c → ch c = pre ++ m :: post → ObjectType m = typename k' →
  precedes w.1 k' = true → listed_watcher ns w → undisturbed c →
  synced w (infs c) ∧
  ∀ objs obj, (w, objs) ∈ initial (infs c) → obj ∈ objs → added w.1 obj pre ∨ (w, obj) ∈ gone (infs c).
Proof. intros Hr E Ht Hp Hl Hu. exact (ci_before _ _ (inv_reachable ns c Hr) _ _ _ _ _ E Ht Hp Hl Hu). Qed.
End runs.

(** ** What is sent is well formed *)

Section well_formed.
Context (fam : bool).

Definition event_ok (e : informer_event) : Prop :=
  match e with AddFunc obj | UpdateFunc _ obj | DeleteFunc obj => api_ok fam obj end.



End well_formed.

(** ** What goes wrong *)

(** An informer that missed a deletion passes its handler a
    [cache.DeletedFinalStateUnknown], on which the type assertion of every converter
    panics. *)
Theorem missed_deletion_panics k key obj c :
  crashed (on_ch (createHandlers (converter k) (DeleteFunc (DeletedFinalStateUnknown key obj))) c)
    = Some (PanicMsg "interface conversion").
Proof. by destruct k. Qed.

Lemma on_ch_infs m c : infs (on_ch m c) = infs c.
Proof. unfold on_ch. by destruct (m (ch c)) as [[] ?]. Qed.

(** The next call of the starting goroutine, and the synchronisation of an informer. *)
Ltac main_step := eapply rtc_l; [first
  [ eapply step_run; reflexivity | eapply step_sync; [reflexivity..|left; eexists; by left] | eapply step_send; reflexivity ]|]; cbn.
Ltac list_step objs := eapply rtc_l; [eapply (step_list _ _ _ _ _ objs);
  [reflexivity..|unfold cache_of; rewrite ?on_ch_infs; cbn; rewrite ?decide_True by done; reflexivity]|]; cbn.
Ltac sync_step w objs := eapply rtc_l; [eapply (step_synced _ _ _ w objs);
  [reflexivity..|cbn; set_solver
  |intros [? H]; rewrite ?on_ch_infs in H; cbn in H; rewrite ?elem_of_cons, ?elem_of_nil in H; destruct_or?; simplify_eq
  |rewrite ?Forall_cons, ?Forall_nil; auto]|]; cbn.

(** A pod that is deleted between the listing of the cache and the message for it is
    sent as deleted and then as added, with nothing to correct it. *)
Lemma deleted_pod_sent_as_added ns (p : v1.Pod) :
  ∃ c, rtc (cstep (λ _, True) (λ _, True)) (NewControllerWithClientSet [ns]) c ∧ todo c = [] ∧
    (∃ pre, ch c = pre ++ [mkK8sResourceMessage (Some (K8SResource_Pod (PodToProto p))) "pods" watch_Deleted;
                           mkK8sResourceMessage (Some (K8SResource_Pod (PodToProto p))) "pods" watch_Added]).
Proof.
  eexists. split; [|split].
  - unfold NewControllerWithClientSet, startWithClientSet. cbn. main_step. sync_step (Nodes, @None string) (@nil api_object).
    main_step. list_step (@nil api_object). do 2 main_step. sync_step (Pods, Some ns) [ObjPod p]. main_step. list_step [ObjPod p].
    eapply rtc_l; [eapply (step_event _ _ _ Pods (Some ns) (DeleteFunc (ObjPod p))); [reflexivity..| |by constructor|done]|].
    { cbn. set_solver. }
    do 5 main_step. apply rtc_refl.
  - reflexivity.
  - by exists [].
Qed.

(** ** A cluster *)

Module WatcherRuns.
Definition meta_1 (name : string) : metav1.ObjectMeta := metav1.mkObjectMeta name "ns" name "1" None 7 None [] None.
Definition node_1 : v1.Node :=
  v1.mkNode (meta_1 "node") (v1.mkNodeSpec [] "") (v1.mkNodeStatus v1.NodeRunning [v1.mkNodeAddress v1.NodeInternalIP "10.0.0.1"] []).
Definition pod_1 : v1.Pod :=
  v1.mkPod (meta_1 "pod") (v1.mkPodSpec ∅ "node" "" "" "" v1.DNSClusterFirst None)
    (v1.mkPodStatus "" "" "10.0.0.1" "10.1.0.1" v1.PodRunning [] v1.PodQOSBurstable []).
Definition endpoints_1 : v1.Endpoints := v1.mkEndpoints (meta_1 "ep") [].

Definition added_1 (ty : string) (r : K8SResource) : K8sResourceMessage := mkK8sResourceMessage (Some r) ty watch_Added.

(** The caches are filled with a node and a pod, which are listed, and then endpoints
    are created. *)
Definition c_1 : Controller :=
  mkController false
    [added_1 "nodes" (K8SResource_Node (NodeToProto node_1)); added_1 "pods" (K8SResource_Pod (PodToProto pod_1));
     added_1 "endpoints" (K8SResource_Endpoints (EndpointsToProto endpoints_1))]
    [(Nodes, None); (Namespaces, None); (Pods, Some "ns"); (EndpointsKind, Some "ns")]
    [RunInformer Services (Some "ns"); RunInformer ReplicaSets (Some "ns"); RunInformer Deployments (Some "ns")]
    (mkInformers [((Pods, Some "ns"), [ObjPod pod_1]); ((Nodes, None), [ObjNode node_1])]
       [((Pods, Some "ns"), ObjPod pod_1); ((Nodes, None), ObjNode node_1)] [] false) None.

Lemma ip_1_ok : ip_ok "10.0.0.1".
Proof. left. split_and!; done. Qed.

Lemma ok_1 fam : api_ok fam (ObjNode node_1) ∧ api_ok fam (ObjPod pod_1) ∧ api_ok fam (ObjEndpoints endpoints_1).
Proof.
  split_and!; (split; [done|]); cbn; [|split_and!|done].
  - intros a ->%list_elem_of_singleton. apply ip_1_ok.
  - apply ip_1_ok.
  - apply clean_good. by repeat constructor.
  - apply clean_good. by repeat constructor.
  - done.
Qed.

Lemma reach_1 fam : rtc (cstep (event_ok fam) (api_ok fam)) (NewControllerWithClientSet ["ns"]) c_1.
Proof.
  destruct (ok_1 fam) as (Hn & Hp & He). unfold NewControllerWithClientSet, startWithClientSet. cbn.
  main_step. sync_step (Nodes, @None string) [ObjNode node_1]. main_step. list_step [ObjNode node_1]. do 3 main_step.
  sync_step (Pods, Some "ns") [ObjPod pod_1]. main_step. list_step [ObjPod pod_1]. do 2 main_step.
  eapply rtc_l; [eapply (step_event _ _ _ EndpointsKind (Some "ns") (AddFunc (ObjEndpoints endpoints_1))); [reflexivity..| |by constructor|done]|].
  { cbn. set_solver. }
  apply rtc_refl.
Qed.

Lemma cached_sent_first_witness :
  synced (Pods, Some "ns") (infs c_1) ∧ added Pods (ObjPod pod_1) (take 2 (ch c_1)).
Proof.
  destruct (cached_sent_first (event_ok true) (api_ok true) ["ns"] c_1 (take 2 (ch c_1))
    (added_1 "endpoints" (K8SResource_Endpoints (EndpointsToProto endpoints_1))) [] (Pods, Some "ns") EndpointsKind) as [Hs Ha].
  - apply reach_1.
  - reflexivity.
  - reflexivity.
  - reflexivity.
  - right. exists "ns". split; [by left|done].
  - split; reflexivity.
  - split; [exact Hs|]. destruct (Ha [ObjPod pod_1] (ObjPod pod_1)) as [H|H]; [by left|by left|exact H|]. cbn in H. set_solver.
Defined.

End WatcherRuns.
