(* ===== verification/K8sRun.v ===== *)
(** * The history of updates

    What holds after any sequence of resource events: the updates sent on a topic
    form a chain, everything sent can be fetched again, and the version of Kelvin's
    topic is the last version given, so that a restart goes on from it. *)

From S2P Require Import Prelude GoLib Datastore MemStore Uuid Messages MessageBus StoreLib GoNet ServiceCIDR K8sMessages K8sStore K8sHandler K8sAbs K8sProcessors.
From Stdlib Require Import Ascii.

(** ** Chains *)

Abbreviation ver := ru_UpdateVersion.
Abbreviation strip := (with_prev 0).

(** Every update names the version of the one before it on its topic, [last] for
    the first one; the first update of a topic names itself. *)
Fixpoint chain (last : option Z) (us : list ResourceUpdate) : Prop :=
  match us with
  | [] => True
  | u :: us =>
    ru_PrevUpdateVersion u = default (ver u) last ∧ (∀ l, last = Some l → (l ≤ ver u)%Z) ∧ chain (Some (ver u)) us
  end.

(** The version a chain ends with. *)
Definition chain_end (last0 : option Z) (us : list ResourceUpdate) : option Z :=
  match last us with Some u => Some (ver u) | None => last0 end.

Lemma chain_snoc last0 us u :
  chain last0 us → ru_PrevUpdateVersion u = default (ver u) (chain_end last0 us) →
  (∀ l, chain_end last0 us = Some l → (l ≤ ver u)%Z) → chain last0 (us ++ [u]).
Proof.
  revert last0. induction us as [|v us IH]; intros last0; [done|]. cbn [chain app]. intros (H1 & H2 & H3) Hp Hl.
  split_and!; [done|done|]. assert (chain_end (Some (ver v)) us = chain_end last0 (v :: us)) as E.
  { unfold chain_end. destruct us as [|w us]; [done|]. change (last (v :: w :: us)) with (last (w :: us)).
    by destruct (last (w :: us)) eqn:Ew; [|apply last_None in Ew]. }
  apply IH; rewrite ?E; done.
Qed.

Lemma chain_end_snoc last0 us u : chain_end last0 (us ++ [u]) = Some (ver u).
Proof. unfold chain_end. by rewrite last_snoc. Qed.

(** The updates sent on a topic. *)
Definition topic_log (A : k8s_abs) (t : string) : list ResourceUpdate := (filter (λ tu, tu.1 = t) (a_sent A)).*2.

(** What is fetched for a version of a topic. *)
Definition stored (A : k8s_abs) (t : string) (v : Z) : option K8SResourceUpdate :=
  (a_updates A t ∪ a_updates A unscopedTopic) !! Z.to_pos v.

(** An update is stored under its version, with no version before it. *)
Definition stored_ok (p : positive) (x : K8SResourceUpdate) : Prop :=
  ∃ u, x = mkK8SResourceUpdate (Some u) ∧ ver u = Zpos p ∧ ru_PrevUpdateVersion u = 0%Z.

(** ** The invariant *)

(** [V0] are the versions when the handler started; all versions given so far are
    at most [hi]. *)
(** The keys under which the update of a version of a topic is stored have not been
    purged. *)
Definition unexpired (E : gset string) (t : string) (v : Z) : Prop :=
  (getTopicResourceUpdateKey t v ∉ E) ∧ (getTopicResourceUpdateKey unscopedTopic v ∉ E).

Record log_inv (V0 : gmap string Z) (A : k8s_abs) (hi : Z) : Prop := mkLogInv {
  li_versions : ∀ t v, a_versions A !! t = Some v → (0 < v ≤ hi)%Z;
  li_stored : ∀ t p x, a_updates A t !! p = Some x → (Zpos p ≤ hi)%Z ∧ stored_ok p x;
  li_chain : ∀ t, chain (V0 !! t) (topic_log A t) ∧ chain_end (V0 !! t) (topic_log A t) = a_versions A !! t;
  li_sent : ∀ t u, (t, u) ∈ a_sent A →
    (0 < ver u ≤ hi)%Z ∧
    (unexpired (a_expired A) t (ver u) → stored A t (ver u) = Some (mkK8SResourceUpdate (Some (strip u))))
}.

(** The version of Kelvin's topic is the last one given. *)
Definition kelvin_current (A : k8s_abs) (cur : Z) : Prop :=
  default 0%Z (a_versions A !! KelvinUpdateTopic) = cur.

Lemma log_inv_mono V0 A hi hi' : (hi ≤ hi')%Z → log_inv V0 A hi → log_inv V0 A hi'.
Proof.
  intros Hle [H1 H2 H3 H4]. split; [|intros t p x Hp; destruct (H2 t p x Hp); split; [lia|done]|done|].
  - intros t v Hv. specialize (H1 t v Hv). lia.
  - intros t u Hu. destruct (H4 t u Hu). split; [lia|done].
Qed.

Lemma topic_log_send u t A t' :
  topic_log (abs_send u t A) t' =
    topic_log A t' ++ (if decide (t = t') then [with_prev (default (ver u) (a_versions A !! t)) u] else []).
Proof.
  unfold topic_log. cbn [abs_send a_sent]. rewrite filter_app, fmap_app. f_equal. rewrite filter_cons. cbn [fst].
  by case_decide.
Qed.

(** One send, of an update stored for its topic and not older than the last one. *)
Lemma log_inv_send V0 A hi u t :
  log_inv V0 A hi → (0 < ver u ≤ hi)%Z → (∀ v, a_versions A !! t = Some v → (v ≤ ver u)%Z) →
  stored A t (ver u) = Some (mkK8SResourceUpdate (Some (strip u))) →
  log_inv V0 (abs_send u t A) hi.
Proof.
  intros [H1 H2 H3 H4] Hu Hle Hst. split.
  - intros t' v. cbn. rewrite lookup_insert_Some. intros [[_ <-]|[_ ?]]; [done|by eapply H1].
  - exact H2.
  - intros t'. rewrite topic_log_send. destruct (H3 t') as [Hc He]. cbn [abs_send a_versions]. case_decide as E.
    + subst t'. rewrite lookup_insert_eq, chain_end_snoc. split; [|done].
      apply chain_snoc; [done| |]; cbn [with_prev ru_PrevUpdateVersion ru_UpdateVersion]; rewrite He; [done|]. exact Hle.
    + rewrite app_nil_r, lookup_insert_ne by done. done.
  - intros t' u'. cbn [abs_send a_sent]. rewrite elem_of_app, list_elem_of_singleton. intros [Hin|[= -> ->]]; [by apply H4|].
    split; [done|]. intros _. exact Hst.
Qed.

Lemma stored_add v x t A t' v' :
  (0 < v)%Z → (0 < v')%Z →
  stored (abs_add v x t A) t' v' =
    if decide (v' = v ∧ t' = t) then Some x
    else if decide (v' = v ∧ t = unscopedTopic) then
      (match a_updates A t' !! Z.to_pos v with Some y => Some y | None => Some x end)
    else stored A t' v'.
Proof.
  intros Hv Hv'. unfold stored. rewrite !lookup_union. cbn [abs_add a_updates].
  destruct (decide (v' = v)) as [->|Hne].
  - destruct (decide (t' = t)) as [->|Ht].
    + rewrite (decide_True (P := v = v ∧ t = t)), lookup_insert_eq by done.
      by destruct ((if decide (unscopedTopic = t) then _ else _) !! _).
    + rewrite (decide_False (P := v = v ∧ t' = t)) by (intros [? ?]; congruence).
      destruct (decide (unscopedTopic = t)) as [<-|Hu].
      * rewrite decide_True, lookup_insert_eq by done. by destruct (a_updates A t' !! _).
      * rewrite decide_False by (intros [_ ?]; congruence). done.
  - rewrite (decide_False (P := v' = v ∧ t' = t)), (decide_False (P := v' = v ∧ t = unscopedTopic))
      by (intros [? ?]; congruence). assert (Z.to_pos v ≠ Z.to_pos v') as Hp.
    { intros E. apply Hne. symmetry. by apply Z2Pos.inj. }
    assert (∀ t'' : string, (if decide (t'' = t) then <[Z.to_pos v:=x]> (a_updates A t'') else a_updates A t'') !! Z.to_pos v' =
      a_updates A t'' !! Z.to_pos v') as Hl by (intros t''; case_decide; [by rewrite lookup_insert_ne|done]).
    by rewrite !Hl.
Qed.

(** Storing an update under a version, consistently with what was sent. *)
Lemma log_inv_add V0 A hi v w t :
  log_inv V0 A hi → (0 < v ≤ hi)%Z → ver w = v → ru_PrevUpdateVersion w = 0%Z →
  (∀ t' u, (t', u) ∈ a_sent A → ver u = v → t' = t ∨ t = unscopedTopic → strip u = w) →
  log_inv V0 (abs_add v (mkK8SResourceUpdate (Some w)) t A) hi.
Proof.
  intros [H1 H2 H3 H4] Hv Hwv Hwp Hw. split; [exact H1| |exact H3|].
  - intros t' p x. cbn [abs_add a_updates]. case_decide; [|apply H2]. rewrite lookup_insert_Some.
    intros [[<- <-]|[_ ?]]; [|by eapply H2]. rewrite Z2Pos.id by lia. split; [lia|]. exists w.
    rewrite Z2Pos.id by lia. done.
  - intros t' u Hin. destruct (H4 t' u Hin) as [Hu Hst]. split; [done|]. intros Hx. specialize (Hst Hx). rewrite stored_add by lia.
    case_decide as E1; [destruct E1 as [E ->]; f_equal; f_equal; f_equal; symmetry; apply (Hw t u); auto|].
    case_decide as E2; [|done]. destruct E2 as [E ->]. unfold stored in Hst. rewrite lookup_union, E in Hst.
    destruct (a_updates A t' !! Z.to_pos v); [by destruct (a_updates A unscopedTopic !! _)|].
    f_equal. f_equal. f_equal. symmetry. apply (Hw t' u); auto.
Qed.

(** Keys are purged. *)
Lemma log_inv_expire V0 A hi X : log_inv V0 A hi → log_inv V0 (abs_expire X A) hi.
Proof.
  intros [H1 H2 H3 H4]. split; [exact H1| |exact H3|].
  - intros t p x [Hx _]%map_lookup_filter_Some. by apply (H2 t).
  - intros t u Hin. destruct (H4 t u Hin) as [Hu Hst]. split; [done|]. intros [Hx1 Hx2]. cbn [abs_expire a_expired] in Hx1, Hx2.
    rewrite not_elem_of_union in Hx1, Hx2. specialize (Hst (conj (proj2 Hx1) (proj2 Hx2))).
    assert (∀ t', getTopicResourceUpdateKey t' (ver u) ∉ X →
      a_updates (abs_expire X A) t' !! Z.to_pos (ver u) = a_updates A t' !! Z.to_pos (ver u)) as Hf.
    { intros t' Ht'. cbn [abs_expire a_updates]. destruct (a_updates A t' !! _) as [x|] eqn:E.
      - apply map_lookup_filter_Some_2; [done|]. cbn [fst]. by rewrite Z2Pos.id by lia.
      - apply map_lookup_filter_None_2. by left. }
    unfold stored in *. rewrite lookup_union in *. rewrite !Hf by (apply Hx1 || apply Hx2). exact Hst.
Qed.

(** ** One event *)
Section event.
Context (V0 : gmap string Z) (scoped : bool) (cur : Z) (n : nat) (os : list OutgoingUpdate).
Context (Hcur : (0 ≤ cur)%Z) (Hev : event_out scoped cur n os).

(** While the updates [os] are sent: those sent so far with a new version are among
    them, and no topic has an update of a new version when they are unscoped. *)
Record mid (A : k8s_abs) (at_ : Z) : Prop := mkMid {
  mid_inv : log_inv V0 A (cur + Z.of_nat n);
  mid_sent : ∀ t u, (t, u) ∈ a_sent A → (cur < ver u)%Z →
    ∃ o, o ∈ os ∧ t ∈ ou_Topics o ∧ strip u = strip (ou_Update o);
  mid_fresh : scoped = false → ∀ t p, t ≠ unscopedTopic → (cur < Zpos p)%Z → a_updates A t !! p = None;
  mid_at : ∀ t v, a_versions A !! t = Some v → (v ≤ at_)%Z
}.

Lemma strip_version u u' : strip u = strip u' → ver u = ver u'.
Proof. by intros [= _ E]. Qed.

(** What is stored for an update of the event agrees with what was sent. *)
Lemma mid_add A at_ o t :
  mid A at_ → o ∈ os → (scoped = true → t ∈ ou_Topics o) → (scoped = false → t = unscopedTopic) →
  mid (abs_add (ou_version o) (mkK8SResourceUpdate (Some (strip (ou_Update o)))) t A) at_.
Proof using Hcur Hev.
  intros [Hi Hs Hf Ha] Ho Ht1 Ht2. destruct Hev as [Hr _ Htop _ Hag]. pose proof (Hr o Ho) as Hro. split; [|done| |done].
  - apply log_inv_add; [done|lia|done|done|]. intros t' u Hin Hu Htt.
    destruct (Hs t' u Hin) as (o' & Ho' & Ht' & E); [lia|]. rewrite E. f_equal.
    apply Hag; [done|done| |].
    + intros Es. exists t'. split; [done|]. specialize (Ht1 Es).
      destruct Htt as [->| ->]; [done|]. by destruct (Htop o unscopedTopic Ho Ht1).
    + unfold ou_version in *. by apply strip_version in E as <-.
  - intros Es t' p Hne Hp. cbn [abs_add a_updates]. rewrite (Ht2 Es), decide_False by done. by apply Hf.
Qed.

Lemma mid_adds A at_ o ts :
  mid A at_ → o ∈ os → scoped = true → (∀ t, t ∈ ts → t ∈ ou_Topics o) →
  let x := mkK8SResourceUpdate (Some (strip (ou_Update o))) in
  let A' := foldl (λ A t, abs_add (ou_version o) x t A) A ts in
  mid A' at_ ∧ ∀ t, t ∈ ts → a_updates A' t !! Z.to_pos (ou_version o) = Some x.
Proof using Hcur Hev.
  intros Hm Ho Es Hts x A'. unfold A'. clear A'. revert A Hm. induction ts as [|t ts IH] using rev_ind; intros A Hm.
  { split; [done|]. by intros t ?%not_elem_of_nil. }
  rewrite foldl_snoc. destruct (IH ltac:(intros t' ?; apply Hts, elem_of_app; by left) A Hm) as [Hm' Hl].
  split; [apply mid_add; [done|done|intros _; apply Hts, elem_of_app; right; by left|by rewrite Es]|].
  intros t' Ht'. cbn [abs_add a_updates]. case_decide; [by rewrite lookup_insert_eq|].
  apply Hl. apply elem_of_app in Ht' as [?|?%list_elem_of_singleton]; done.
Qed.

Lemma abs_sends_versions u ts A t :
  a_versions (foldl (λ A t, abs_send u t A) A ts) !! t = if decide (t ∈ ts) then Some (ver u) else a_versions A !! t.
Proof.
  induction ts as [|t' ts IH] using rev_ind; [by rewrite decide_False by apply not_elem_of_nil|].
  rewrite foldl_snoc. cbn [abs_send a_versions]. destruct (decide (t = t')) as [->|Hne].
  - rewrite lookup_insert_eq, decide_True; [done|]. apply elem_of_app. right. by left.
  - rewrite lookup_insert_ne, IH by done. destruct (decide (t ∈ ts)).
    + rewrite decide_True; [done|]. apply elem_of_app. by left.
    + rewrite decide_False; [done|]. by intros [?|?%list_elem_of_singleton]%elem_of_app.
Qed.

Lemma mid_sends A o ts :
  mid A (ou_version o) → o ∈ os → (∀ t, t ∈ ts → t ∈ ou_Topics o) →
  (∀ t, t ∈ ts → stored A t (ou_version o) = Some (mkK8SResourceUpdate (Some (strip (ou_Update o))))) →
  mid (foldl (λ A t, abs_send (strip (ou_Update o)) t A) A ts) (ou_version o).
Proof using Hcur Hev.
  intros Hm Ho Hts Hst. pose proof (eo_range _ _ _ _ Hev o Ho) as Hr.
  assert (∀ ts, a_updates (foldl (λ A t, abs_send (strip (ou_Update o)) t A) A ts) = a_updates A) as Hup.
  { induction ts0 as [|t ts0 IH] using rev_ind; [done|]. by rewrite foldl_snoc. }
  induction ts as [|t ts IH] using rev_ind; [done|]. rewrite foldl_snoc.
  destruct IH as [Hi Hs Hf Ha]; [intros t' ?; apply Hts, elem_of_app; by left|intros t' ?; apply Hst, elem_of_app; by left|].
  assert (t ∈ ts ++ [t]) as Hin by (apply elem_of_app; right; by left). split.
  - apply log_inv_send; [done|exact ltac:(cbn; unfold ou_version in Hr; lia)|apply Ha|].
    unfold stored in *. rewrite Hup. by apply Hst.
  - intros t' u. cbn [abs_send a_sent]. rewrite elem_of_app, list_elem_of_singleton. intros [Hu|[= -> ->]]; [by apply Hs|].
    intros _. exists o. split_and!; [done|by apply Hts|done].
  - exact Hf.
  - intros t' v. cbn [abs_send a_versions]. rewrite lookup_insert_Some. intros [[_ <-]|[_ ?]]; [done|by eapply Ha].
Qed.

Lemma mid_outgoing A at_ o :
  mid A at_ → (at_ ≤ ou_version o)%Z → o ∈ os → mid (abs_outgoing scoped o A) (ou_version o).
Proof using Hcur Hev.
  intros Hm Hat Ho. assert (mid A (ou_version o)) as Hm'.
  { destruct Hm as [? ? ? Ha]. split; [done|done|done|]. intros t v Hv. specialize (Ha t v Hv). lia. }
  pose proof (eo_range _ _ _ _ Hev o Ho) as Hr. unfold abs_outgoing.
  change (ver (strip (ou_Update o))) with (ou_version o). cbv zeta.
  assert (scoped = true ∨ scoped = false) as [Es|Es] by (clear; destruct scoped; auto).
  - match goal with |- context [if scoped then ?a else ?b] => replace (if scoped then a else b) with a by (by rewrite Es) end.
    destruct (mid_adds A (ou_version o) o (ou_Topics o)) as [Hm2 Hl]; [done|done|done|done|].
    apply mid_sends; [done|done|done|]. intros t Ht. unfold stored. rewrite lookup_union. rewrite Hl by done.
    by destruct (_ !! _).
  - match goal with |- context [if scoped then ?a else ?b] => replace (if scoped then a else b) with b by (by rewrite Es) end.
    apply mid_sends; [by apply mid_add; [|done|rewrite Es|]|done|done|]. intros t Ht.
    rewrite stored_add by lia. destruct (eo_topics _ _ _ _ Hev o t Ho Ht) as [_ Hne].
    rewrite decide_False by (intros [? ?]; congruence). rewrite decide_True by done.
    destruct Hm' as [_ _ Hf _]. rewrite Hf; [done|done|done|rewrite Z2Pos.id; lia].
Qed.

Lemma mid_outgoings done_ rest A at_ :
  os = done_ ++ rest → mid A at_ → (∀ o, o ∈ rest → (at_ ≤ ou_version o)%Z) →
  mid (abs_outgoings scoped rest A) (cur + Z.of_nat n).
Proof using Hcur Hev.
  revert done_ A at_. induction rest as [|o rest IH]; intros done_ A at_ Hos Hm Hle.
  - destruct Hm as [? ? ? Ha]. split; [done|done|done|]. intros t v Hv. destruct (li_versions _ _ _ mid_inv0 t v Hv). lia.
  - cbn [abs_outgoings foldl]. apply (IH (done_ ++ [o]) _ (ou_version o)).
    + by rewrite Hos, <-app_assoc.
    + eapply mid_outgoing; [done|apply Hle; by left|rewrite Hos; apply elem_of_app; right; by left].
    + intros o' Ho'. pose proof (eo_sorted _ _ _ _ Hev) as Hsort. rewrite Hos in Hsort.
      clear -Hsort Ho'. induction done_ as [|d done_ IH]; cbn [app] in Hsort;
        apply StronglySorted_inv in Hsort as [Hs Hd]; [by apply (proj1 (Forall_forall _ _) Hd)|by apply IH].
Qed.

(** An event keeps the invariant, and Kelvin's topic has its last version. *)
Lemma event_inv A :
  log_inv V0 A cur →
  log_inv V0 (abs_outgoings scoped os A) (cur + Z.of_nat n) ∧
  kelvin_current (abs_outgoings scoped os A) (cur + Z.of_nat n).
Proof using Hcur Hev.
  intros Hinv. assert (mid A cur) as Hm.
  { split; [apply log_inv_mono with cur; [lia|done]| | |].
    - intros t u Hu Hlt. destruct (li_sent _ _ _ Hinv t u Hu). lia.
    - intros _ t p _ Hp. apply eq_None_not_Some. intros [x Hs]. apply (li_stored _ _ _ Hinv) in Hs as [Hs _]. lia.
    - intros t v Hv. apply (li_versions _ _ _ Hinv) in Hv. lia. }
  split; [eapply mid_inv, (mid_outgoings []); [done|exact Hm|]|].
  { intros o Ho. pose proof (eo_range _ _ _ _ Hev o Ho). lia. }
  destruct (eo_kelvin _ _ _ _ Hev) as (o & os' & Hos & Hv & Hk). unfold kelvin_current, abs_outgoings.
  rewrite Hos, foldl_snoc. cbv beta. unfold abs_outgoing at 1. rewrite abs_sends_versions, decide_True by done.
  exact Hv.
Qed.
End event.

(** ** The handler *)
Section handler.
Context {St : Type} `{!Datastore St} {view : St → gmap string string} {ok : St → Prop}.
Context `{!DatastoreSpec St view ok}.
Context `{N : NatsConn} {log : nconn → list (string * string)} {up : nconn → Prop} `{!NatsSpec N log up}.
Context `{!Proto K8SResource} `{!Proto K8SResourceUpdate} `{!Proto K8SMetadataMessage} `{!Proto V2CMessage}.
Context `{!ProtoSpec K8SResource} `{!ProtoSpec K8SResourceUpdate} `{!ProtoSpec K8SMetadataMessage} `{!ProtoSpec V2CMessage}.
Context {J : Proto (gmap string bool)} {JS : @ProtoSpec _ J}.
Context (MergeCIDRs : list string → error + list string) (json_labels : gmap string string → string).
Context (ip_order : gmap string (list string) → list (string * list string))
  (node_order : gmap string string → list (string * string))
  (lo : gmap string string → list (string * string)) (ko : gmap string bool → list (string * bool)).
Context (ip_order_perm : ∀ x, ip_order x ≡ₚ map_to_list x) (node_order_perm : ∀ x, node_order x ≡ₚ map_to_list x)
  (lo_perm : ∀ x, lo x ≡ₚ map_to_list x) (ko_perm : ∀ x, ko x ≡ₚ map_to_list x).
Implicit Types (h : Handler (St := St)) (A : k8s_abs).

Abbreviation process := (processUpdate MergeCIDRs json_labels ip_order node_order lo ko).
Abbreviation process_all := (processUpdates MergeCIDRs json_labels ip_order node_order lo ko).
Abbreviation rep := (hrep (view := view) (ok := ok) (log := log) (up := up)).

(** The handler, its store and what it has sent, with all service addresses of the
    family [fam]; [l0] was published and [V0] were the versions when it started. *)
Record hinv (l0 : list (string * string)) (V0 : gmap string Z) (fam : bool) h A : Prop := mkHinv {
  hi_rep : rep l0 h A;
  hi_log : log_inv V0 A (currUV h);
  hi_kelvin : kelvin_current A (currUV h);
  hi_state : ps_ok fam (state h);
  hi_range : (0 ≤ currUV h < 2 ^ 63)%Z
}.

Lemma hinv_versions l0 V0 fam h A : hinv l0 V0 fam h A → versions_ok A.
Proof. intros [_ Hl _ _ Hr] t v Hv. apply (li_versions _ _ _ Hl) in Hv. unfold uv_ok. lia. Qed.

Lemma processor_spec fam ty p :
  processHandlerMap MergeCIDRs json_labels ip_order node_order ty = Some p → ∃ acc, ProcessorSpec fam p acc.
Proof using ip_order_perm node_order_perm.
  unfold processHandlerMap. intros E. repeat case_decide; simplify_eq; eexists; typeclasses eauto with typeclass_instances.
Qed.

Lemma wp_state_call {X} (c : M ProcessorState X) (Q : X → Handler → Prop) h :
  wp c (λ x st', Q x (mkHandler (mds h) (hconn h) st' (currUV h))) (state h) → wp (state_call c) Q h.
Proof. intros H. by apply wp_zoom. Qed.

Lemma wp_set_deleted fam p acc now now' (deleted : Prop) `{!Decision deleted} obj h :
  ProcessorSpec fam p acc → obj_ok fam obj →
  wp (if decide deleted then state_call (SetDeleted p now now' obj) else mret obj)
    (λ obj' h', h' = h ∧ obj_ok fam obj' ∧ obj_cost obj' = obj_cost obj) h.
Proof.
  intros Hp Hobj. case_decide; [|by apply wp_ret]. apply wp_state_call.
  eapply wp_mono; [by apply proc_SetDeleted|]. intros obj' st' (-> & ? & ?). by destruct h.
Qed.

(** An event that is accepted takes as many versions as the resource needs; one
    that is not changes only the state of the processors. *)
Lemma wp_processUpdate l0 V0 fam h A now now' msg :
  hinv l0 V0 fam h A → obj_ok fam (Object msg) →
  (currUV h + Z.of_nat (obj_cost (Object msg)) < 2 ^ 63)%Z →
  wp (process now now' msg) (λ _ h', ∃ A', hinv l0 V0 fam h' A' ∧ a_expired A' = a_expired A ∧
    (currUV h ≤ currUV h' ≤ currUV h + Z.of_nat (obj_cost (Object msg)))%Z) h.
Proof using All.
  intros Hinv Hobj Hb. pose proof (hinv_versions _ _ _ _ _ Hinv) as Hvs. pose proof Hinv as [Hrep Hlog Hkel Hst Hr].
  unfold process. destruct (processHandlerMap _ _ _ _ (ObjectType msg)) as [p|] eqn:Ep.
  2: { apply wp_ret. exists A. split_and!; [done|done|lia..]. }
  destruct (processor_spec fam _ p Ep) as [acc Hp].
  apply wp_bind. eapply wp_mono; [by eapply wp_set_deleted|]. intros obj h1 (-> & Hobj1 & Hc1).
  apply wp_bind, wp_state_call. eapply wp_mono; [by apply proc_ValidateUpdate|].
  intros [valid obj2] st2 (Hst2 & Hobj2 & Hc2 & Hacc). cbn [fst snd] in *. destruct valid; cbn [negb].
  2: { apply wp_ret. exists A. split_and!; [by split|done|cbn; lia..]. }
  destruct (Hacc eq_refl) as (x & -> & Hx). clear Hacc.
  set (h2 := mkHandler (mds h) (hconn h) st2 (currUV h)). apply wp_bind.
  apply (wp_mono _ (λ _ h', rep l0 h' A ∧ same_rest h2 h')).
  { case_decide; [|by apply wp_ret]. apply wp_UpdatePodLabelStore; [done|done|exact Hrep|].
    destruct x; cbn [GetPod]; try by intros md ?. apply Hobj2. }
  intros [] h3 [Hrep3 [Es3 Ec3]]. cbn [state currUV h2] in Es3, Ec3. apply wp_bind, wp_state_call. rewrite Es3.
  eapply wp_mono; [by apply (proc_updates x st2 (currUV h))|]. intros updates st4 (-> & Hlen & Hsend).
  rewrite Hc1 in Hc2. rewrite Hc2 in Hlen. rewrite <-Es3. replace (mkHandler (mds h3) (hconn h3) (state h3) (currUV h3)) with h3
    by (by destruct h3). destruct updates as [|y us]; [by destruct (Object msg) as [[]|]|]. set (l := y :: us) in *. clearbody l.
  apply wp_bind. eapply wp_mono; [apply (wp_store_updates l0 h3 A l Hrep3); rewrite Ec3; [lia|rewrite Hlen; lia]|].
  intros sps h5 (-> & Hrep5 & Es5 & Ec5). rewrite Ec3 in Ec5 |- *. apply wp_bind, wp_state_call. rewrite Es5, Es3.
  eapply wp_mono; [exact Hsend|]. intros os st6 [-> Hev]. rewrite <-Es3, <-Es5.
  replace (mkHandler (mds h5) (hconn h5) (state h5) (currUV h5)) with h5 by (by destruct h5).
  destruct (event_inv V0 _ (currUV h) _ os (proj1 Hr) Hev A Hlog) as [Hlog' Hkel'].
  eapply wp_mono; [apply (wp_send_outgoings l0 h5 A _ os Hrep5 Hvs)|].
  { apply Forall_forall. intros o Ho. pose proof (eo_range _ _ _ _ Hev o Ho) as Hro. rewrite Hlen in Hro. split.
    - unfold uv_ok, ou_version in *. lia.
    - apply Forall_forall. intros t Ht. by apply (eo_topics _ _ _ _ Hev o t). }
  intros [] h' [[Hrep' _] [Es' Ec']]. eexists. rewrite Ec', Ec5, Hlen. split; [|split; [apply abs_outgoings_expired|lia]].
  rewrite Hlen in Hlog', Hkel'. split; rewrite ?Es', ?Es5, ?Es3, ?Ec', ?Ec5, ?Hlen; [done|done|done|done|lia].
Qed.

(** How many versions a sequence of events can take. *)
Definition total_cost (msgs : list (Z * Z * K8sResourceMessage)) : nat :=
  sum_list_with (λ m, obj_cost (Object m.2)) msgs.

(** After any events the invariant holds. *)
Lemma wp_processUpdates l0 V0 fam h A msgs :
  hinv l0 V0 fam h A → Forall (λ m, obj_ok fam (Object m.2)) msgs →
  (currUV h + Z.of_nat (total_cost msgs) < 2 ^ 63)%Z →
  wp (process_all msgs) (λ _ h', ∃ A', hinv l0 V0 fam h' A' ∧ a_expired A' = a_expired A ∧ (currUV h ≤ currUV h')%Z) h.
Proof using All.
  revert h A. induction msgs as [|[[now now'] msg] msgs IH]; intros h A Hinv Hok Hb.
  { apply wp_ret. exists A. split_and!; [done|done|lia]. }
  apply Forall_cons in Hok as [Hm Hok]. cbn [total_cost sum_list_with snd] in Hb, Hm. cbn [processUpdates forM_].
  apply wp_bind. eapply wp_mono; [apply (wp_processUpdate l0 V0 fam h A); [done|done|unfold total_cost in *; lia]|].
  intros [] h1 (A1 & Hinv1 & Hx1 & Hc1). eapply wp_mono; [apply (IH h1 A1 Hinv1 Hok); unfold total_cost in *; lia|].
  intros [] h2 (A2 & Hinv2 & Hx2 & Hc2). exists A2. split_and!; [done|congruence|lia].
Qed.

(** The TTL of the keys [X] of the store has expired, and they are purged: keys of
    updates and labels.  The versions of the topics are stored without a TTL. *)
Definition expires (X : gset string) h h' : Prop :=
  ok (mds h') ∧ view (mds h') = filter (λ kv, kv.1 ∉ X) (view (mds h)) ∧
  (∀ k, k ∈ X → is_Some (view (mds h) !! k) ∧ key_dir k ≠ "topicVersion") ∧
  hconn h' = hconn h ∧ state h' = state h ∧ currUV h' = currUV h.

Lemma hinv_expires l0 V0 fam h A X h' :
  hinv l0 V0 fam h A → expires X h h' → hinv l0 V0 fam h' (abs_expire X A).
Proof.
  intros [(Hok & Hup & Hrep & Hl) Hlog Hkel Hst Hr] (Hok' & Hv & HX & Hc & Hs & Hu).
  split; rewrite ?Hs, ?Hu; [|by apply log_inv_expire|done|done|done]. split_and!; rewrite ?Hc, ?Hv; [done|done| |done].
  apply store_rep_expire; [|done]. intros k Hk. by apply HX.
Qed.
End handler.

(** ** Requests *)
Section requests.
Context {St : Type} `{!Datastore St} {view : St → gmap string string} {ok : St → Prop}.
Context `{!DatastoreSpec St view ok}.
Context `{N : NatsConn} {log : nconn → list (string * string)} {up : nconn → Prop}.
Context `{!Proto K8SResourceUpdate} `{!ProtoSpec K8SResourceUpdate} `{!Proto K8SMetadataMessage} `{!Proto V2CMessage}.
Context {J : Proto (gmap string bool)}.
Implicit Types (h : Handler (St := St)) (A : k8s_abs).

Abbreviation hinv := (hinv (view := view) (ok := ok) (log := log) (up := up)).

(** Updates with the version of the one before each, [v0] for the first. *)
Fixpoint relink (v0 : Z) (us : list ResourceUpdate) : list ResourceUpdate :=
  match us with [] => [] | u :: us => with_prev v0 u :: relink (ver u) us end.

Lemma chain_updates_run v0 us h :
  chain_updates v0 ((λ u, mkK8SResourceUpdate (Some u)) <$> us) h = (Ret (relink v0 us), h).
Proof.
  revert v0. induction us as [|u us IH]; intros v0; [done|]. cbn [chain_updates fmap list_fmap kru_Update].
  erewrite bind_ret; [|reflexivity]. erewrite bind_ret; [|apply IH]. done.
Qed.

Lemma relink_chain v0 us :
  StronglySorted Z.lt (v0 :: (ver <$> us)) → chain (Some v0) (relink v0 us).
Proof.
  revert v0. induction us as [|u us IH]; intros v0 Hs; [done|]. cbn [relink chain].
  apply StronglySorted_inv in Hs as [Hs Hv]. rewrite fmap_cons in Hs, Hv. apply Forall_cons in Hv as [Hlt _].
  split_and!; [done| |by apply IH]. intros l [= <-]. cbn. lia.
Qed.

Lemma relink_strip v0 us u : u ∈ us → ∃ u', u' ∈ relink v0 us ∧ strip u' = strip u.
Proof.
  revert v0. induction us as [|w us IH]; intros v0; [by intros ?%not_elem_of_nil|].
  intros [->|Hu]%elem_of_cons; cbn [relink].
  - eexists. split; [by left|done].
  - destruct (IH (ver w) Hu) as (u' & Hin & E). exists u'. split; [by right|done].
Qed.

(** The updates of a topic with versions in a range, in the order of versions. *)
Definition in_fetch A (t : string) (from to : Z) (us : list ResourceUpdate) : Prop :=
  StronglySorted Z.lt (ver <$> us) ∧
  ∀ u, u ∈ us ↔ (from ≤ ver u < to)%Z ∧ (0 < ver u)%Z ∧ stored A t (ver u) = Some (mkK8SResourceUpdate (Some u)).

(** The stored updates, listed by version. *)
Lemma fetch_updates l0 V0 fam h A t from to :
  hinv l0 V0 fam h A → good_comp t = true → (0 ≤ from ≤ 2 ^ 63)%Z → (0 ≤ to ≤ 2 ^ 63)%Z →
  ∃ us, FetchResourceUpdates t from to (mds h) =
      (Ret ((λ u, mkK8SResourceUpdate (Some u)) <$> us), mds h) ∧ in_fetch A t from to us.
Proof using DatastoreSpec0 ProtoSpec0.
  intros [(Hok & _ & (Hu & _) & _) Hlog _ _ Hr] Ht Hf Hto.
  destruct (FetchResourceUpdates_in_order (view := view) (ok := ok) (mds h) t (a_updates A t) (a_updates A unscopedTopic)
    from to Hok Ht (Hu t Ht) (Hu unscopedTopic eq_refl) Hf Hto) as (vs & E & Hs & Hin).
  set (T := a_updates A t ∪ a_updates A unscopedTopic) in *.
  assert (∀ v x, T !! v = Some x → (Zpos v ≤ currUV h)%Z ∧ stored_ok v x) as HT.
  { intros v x [Hx|[_ Hx]]%lookup_union_Some_raw; by eapply (li_stored _ _ _ Hlog). }
  assert (∃ us, omap (λ v, T !! v) vs = (λ u, mkK8SResourceUpdate (Some u)) <$> us ∧ ver <$> us = Zpos <$> vs ∧
    ∀ u, u ∈ us → T !! Z.to_pos (ver u) = Some (mkK8SResourceUpdate (Some u))) as (us & Eus & Hv & Hus).
  { assert (∀ v, v ∈ vs → is_Some (T !! v)) as Hvs by (intros v Hv; by apply Hin in Hv as [_ ?]). clear -HT Hvs.
    induction vs as [|v vs IH]; [exists []; split_and!; [done|done|by intros u ?%not_elem_of_nil]|].
    destruct (Hvs v ltac:(by left)) as [x Hx]. destruct (HT v x Hx) as [_ (u & -> & Hu & _)].
    destruct IH as (us & E & Hv & Hus); [intros w ?; apply Hvs; by right|].
    exists (u :: us). cbn. rewrite Hx, E, Hv, Hu. split_and!; [done|done|].
    intros w [->|Hw]%elem_of_cons; [|by apply Hus]. by rewrite Hu. }
  exists us. rewrite E, Eus. split; [done|]. split.
  - rewrite Hv. clear -Hs. induction Hs as [|v vs Hs IH Hv]; [constructor|]. cbn. constructor; [done|].
    apply Forall_fmap. eapply Forall_impl; [exact Hv|]. intros w Hw. cbn. lia.
  - intros u. split.
    + intros Hu'. pose proof (Hus u Hu') as Hx. apply (list_elem_of_fmap_2 ru_UpdateVersion) in Hu'. rewrite Hv in Hu'.
      apply list_elem_of_fmap in Hu' as (v & Ev & Hv'). apply Hin in Hv' as [[_ ?] _]. rewrite Ev in *. split_and!; [lia|lia|lia|done].
    + intros (Hru & Hpos & Hx). unfold stored in Hx. fold T in Hx. destruct (HT _ _ Hx) as [Hle _]. rewrite Z2Pos.id in Hle by lia.
      assert (Z.to_pos (ver u) ∈ vs) as Hv'. { apply Hin. rewrite Z2Pos.id by lia. split; [lia|eauto]. }
      apply (list_elem_of_fmap_2 Zpos) in Hv'. rewrite <-Hv in Hv'. apply list_elem_of_fmap in Hv' as (u' & Ev & Hu').
      pose proof (Hus u' Hu') as Hx'. rewrite <-Ev, Z2Pos.id in Hx' by lia. rewrite Z2Pos.id in Ev by lia.
      rewrite Hx in Hx'. by injection Hx' as ->.
Qed.

Lemma in_fetch_sorted A t from to us : in_fetch A t from to us → StronglySorted Z.lt (0%Z :: (ver <$> us)).
Proof.
  intros [Hs Hin]. constructor; [done|]. apply Forall_fmap, Forall_forall. intros u Hu. apply Hin in Hu as (_ & ? & _). cbn. lia.
Qed.

(** The topic a request is about, and the end of its range. *)
Definition request_topic (ip : string) : string := if decide (ip = "") then KelvinUpdateTopic else ip.
Definition request_to h (to : Z) : Z := if (to =? 0)%Z then (currUV h + 1)%Z else to.

Lemma GetUpdatesForIP_run l0 V0 fam h A ip from to :
  hinv l0 V0 fam h A → good_comp (request_topic ip) = true → (0 ≤ from ≤ 2 ^ 63)%Z → (0 ≤ to ≤ 2 ^ 63)%Z →
  ∃ us, GetUpdatesForIP ip from to h = (Ret (relink 0 us), h) ∧ in_fetch A (request_topic ip) from (request_to h to) us.
Proof using DatastoreSpec0 ProtoSpec0.
  intros Hinv Ht Hf Hto. unfold GetUpdatesForIP. fold (request_topic ip).
  pose proof (hinv_versions _ _ _ _ _ Hinv) as Hvs. pose proof Hinv as [(Hok & Hup & Hrep & Hl) Hlog Hkel Hst Hr].
  destruct (fetch_updates l0 V0 fam h A (request_topic ip) from (request_to h to) Hinv Ht Hf) as (us & E & Hin).
  { unfold request_to. destruct (_ =? _)%Z; lia. }
  exists us. split; [|done].
  assert ((if (to =? 0)%Z then lastUpdate ← mds_call (GetUpdateVersion KelvinUpdateTopic); mret (lastUpdate + 1)%Z else mret to)
    h = (Ret (request_to h to), h)) as Eto.
  { unfold request_to. destruct (_ =? _)%Z; [|done]. erewrite bind_ret; [|unfold mds_call, zoom;
      rewrite (GetUpdateVersion_run (mds h) A KelvinUpdateTopic Hok Hrep Hvs (or_introl eq_refl)); reflexivity].
    unfold kelvin_current in Hkel. rewrite Hkel. by destruct h. }
  rewrite (bind_ret _ _ _ _ _ Eto). erewrite bind_ret; [|unfold mds_call, zoom; rewrite E; reflexivity].
  rewrite chain_updates_run. by destruct h.
Qed.
End requests.

(** ** Claims on the whole run *)
Section claims.
Context {St : Type} `{!Datastore St} {view : St → gmap string string} {ok : St → Prop}.
Context `{!DatastoreSpec St view ok}.
Context `{N : NatsConn} {log : nconn → list (string * string)} {up : nconn → Prop} `{!NatsSpec N log up}.
Context `{!Proto K8SResource} `{!Proto K8SResourceUpdate} `{!Proto K8SMetadataMessage} `{!Proto V2CMessage}.
Context `{!ProtoSpec K8SResource} `{!ProtoSpec K8SResourceUpdate} `{!ProtoSpec K8SMetadataMessage} `{!ProtoSpec V2CMessage}.
Context {J : Proto (gmap string bool)} {JS : @ProtoSpec _ J}.
Context (MergeCIDRs : list string → error + list string) (json_labels : gmap string string → string).
Context (ip_order : gmap string (list string) → list (string * list string))
  (node_order : gmap string string → list (string * string))
  (lo : gmap string string → list (string * string)) (ko : gmap string bool → list (string * bool)).
Context (ip_order_perm : ∀ x, ip_order x ≡ₚ map_to_list x) (node_order_perm : ∀ x, node_order x ≡ₚ map_to_list x)
  (lo_perm : ∀ x, lo x ≡ₚ map_to_list x) (ko_perm : ∀ x, ko x ≡ₚ map_to_list x).
Implicit Types (h : Handler (St := St)) (A : k8s_abs).

Abbreviation process_all := (processUpdates MergeCIDRs json_labels ip_order node_order lo ko).
Abbreviation hinv := (hinv (view := view) (ok := ok) (log := log) (up := up)).

(** The events can be processed: the resources are well formed and the versions do
    not run out. *)
Definition events_ok (fam : bool) h (msgs : list (Z * Z * K8sResourceMessage)) : Prop :=
  Forall (λ m, obj_ok fam (Object m.2)) msgs ∧ (currUV h + Z.of_nat (total_cost msgs) < 2 ^ 63)%Z.

(** C7: Whatever the events, the messages published are the updates of the topics, and
    the updates of every topic form a chain that goes on from the version the topic
    had when the handler started: each one names the version of the one sent before
    it. *)
Theorem updates_form_chains l0 V0 fam h A msgs :
  hinv l0 V0 fam h A → events_ok fam h msgs →
  ∃ h' A', process_all msgs h = (Ret tt, h') ∧ log (hconn h') = l0 ++ (a_sent A' ≫= wire) ∧
    ∀ t, chain (V0 !! t) (topic_log A' t) ∧ chain_end (V0 !! t) (topic_log A' t) = a_versions A' !! t.
Proof using All.
  intros Hinv [Hok Hb].
  destruct (proj1 (wp_run _ _ _) (wp_processUpdates MergeCIDRs json_labels ip_order node_order lo ko ip_order_perm
    node_order_perm lo_perm ko_perm l0 V0 fam h A msgs Hinv Hok Hb)) as ([] & h' & E & A' & Hinv' & _).
  exists h', A'. split; [exact E|]. split; [apply Hinv'|]. apply (li_chain _ _ _ (hi_log _ _ _ _ _ Hinv')).
Qed.

(** Events are processed, and keys of the store expire; the keys that have expired are
    recorded. *)
Inductive hstep (fam : bool) : Handler * gset string → Handler * gset string → Prop :=
| hs_events h E msgs o h' : events_ok fam h msgs → process_all msgs h = (o, h') → hstep fam (h, E) (h', E)
| hs_expire h E X h' : expires (view := view) (ok := ok) X h h' → hstep fam (h, E) (h', X ∪ E).

Lemma hinv_steps l0 V0 fam x y A :
  hinv l0 V0 fam x.1 A → a_expired A = x.2 → rtc (hstep fam) x y → ∃ A', hinv l0 V0 fam y.1 A' ∧ a_expired A' = y.2.
Proof using All.
  intros Hinv Hx Hr. revert A Hinv Hx. induction Hr as [x|x y z Hs _ IH]; intros A Hinv Hx; [by exists A|].
  destruct Hs as [h E msgs o h' [Hok Hb] Ep|h E X h' HX]; cbn in *.
  - destruct (proj1 (wp_run _ _ _) (wp_processUpdates MergeCIDRs json_labels ip_order node_order lo ko ip_order_perm
      node_order_perm lo_perm ko_perm l0 V0 fam h A msgs Hinv Hok Hb)) as ([] & h1 & E1 & A1 & Hinv1 & Hx1 & _).
    rewrite Ep in E1. injection E1 as -> ->. apply (IH A1 Hinv1). congruence.
  - apply (IH (abs_expire X A)); [by eapply hinv_expires|]. cbn. by rewrite Hx.
Qed.

(** C20: However the processing of events and the expiry of stored keys interleave, an
    update that was sent on a topic is in the answer to every later request for a range
    with its version, as long as the keys it is stored under have not expired; and the
    answer is a chain. *)
Theorem sent_updates_can_be_fetched l0 V0 fam h A h' E :
  hinv l0 V0 fam h A → a_expired A = ∅ → rtc (hstep fam) (h, ∅) (h', E) →
  ∃ A', log (hconn h') = l0 ++ (a_sent A' ≫= wire) ∧
    ∀ ip u from to, (request_topic ip, u) ∈ a_sent A' → good_comp (request_topic ip) = true →
      (0 ≤ from ≤ ver u)%Z → to = 0%Z ∨ (ver u < to ≤ 2 ^ 63)%Z → unexpired E (request_topic ip) (ver u) →
      ∃ us, GetUpdatesForIP ip from to h' = (Ret us, h') ∧ chain (Some 0%Z) us ∧
        ∃ u', u' ∈ us ∧ strip u' = strip u.
Proof using All.
  intros Hinv HA Hr. destruct (hinv_steps l0 V0 fam (h, ∅) (h', E) A Hinv HA Hr) as (A' & Hinv' & HE). cbn in *.
  exists A'. split; [apply Hinv'|]. intros ip u from to Hu Hg Hf Hto Hx. rewrite <-HE in Hx.
  destruct (li_sent _ _ _ (hi_log _ _ _ _ _ Hinv') _ _ Hu) as [Hv Hst]. pose proof (hi_range _ _ _ _ _ Hinv') as Hrange.
  destruct (GetUpdatesForIP_run l0 V0 fam h' A' ip from to Hinv' Hg) as (us & Eu & Hin); [lia|destruct Hto; lia|].
  eexists. split; [exact Eu|]. split; [by eapply relink_chain, in_fetch_sorted|].
  apply (relink_strip 0 us (strip u)). apply Hin. cbn [with_prev ru_UpdateVersion]. split; [|split; [lia|exact (Hst Hx)]].
  unfold request_to. destruct (Z.eqb_spec to 0); destruct Hto; lia.
Qed.

(** Whatever the events, a handler started on the store reads the version of the
    last update from it, and is in a state from which all this holds again: no
    version is used twice. *)
Theorem restart_resumes l0 V0 fam h A msgs retries c :
  hinv l0 V0 fam h A → events_ok fam h msgs → up c →
  ∃ h' A', process_all msgs h = (Ret tt, h') ∧
    mustGetCurrentUpdateVersion retries (mds h') = (Ret (currUV h'), mds h') ∧
    hinv (log c) (a_versions A') fam (NewHandler (mds h') c (currUV h')) (mkK8sAbs (a_updates A') (a_versions A') [] ∅).
Proof using All.
  intros Hinv [Hok Hb] Hc.
  destruct (proj1 (wp_run _ _ _) (wp_processUpdates MergeCIDRs json_labels ip_order node_order lo ko ip_order_perm
    node_order_perm lo_perm ko_perm l0 V0 fam h A msgs Hinv Hok Hb)) as ([] & h' & E & A' & Hinv' & _).
  exists h', A'. split; [exact E|]. pose proof (hinv_versions _ _ _ _ _ Hinv') as Hvs.
  destruct Hinv' as [(Hok' & Hup & Hrep & Hl) [H1 H2 H3 H4] Hkel Hst Hr]. split.
  - pose proof (GetUpdateVersion_run (mds h') A' KelvinUpdateTopic Hok' Hrep Hvs (or_introl eq_refl)) as Eg.
    destruct retries; cbn [mustGetCurrentUpdateVersion]; unfold mbind, M_bind, try; rewrite Eg, Hkel; done.
  - split; [split_and!; [done|done|done|by rewrite app_nil_r]| |done| |done].
    + split; [done|done| |by intros t u ?%not_elem_of_nil]. intros t. by split.
    + by split_and!.
Qed.
End claims.

(** A handler that starts on an empty store. *)
Lemma hinv_empty {St} `{!Datastore St} {view ok} `{N : NatsConn} {log up}
    `{!Proto K8SResourceUpdate} `{!Proto K8SMetadataMessage} `{!Proto V2CMessage} {J : Proto (gmap string bool)}
    fam (s : St) (c : nconn) :
  ok s → view s = ∅ → up c →
  hinv (view := view) (ok := ok) (log := log) (up := up) (log c) ∅ fam (NewHandler s c 0) (mkK8sAbs (λ _, ∅) ∅ [] ∅).
Proof.
  intros Hok Hv Hc. split; [|split|done| |done].
  - split_and!; [done|done| |by rewrite app_nil_r]. cbn [mds NewHandler]. rewrite Hv. split_and!.
    + intros t _. split; [intros v _; by rewrite !lookup_empty|]. intros k _ [? ?]. done.
    + intros t _. cbn. by rewrite !lookup_empty.
    + intros k b _ ?. done.
  - intros t v. cbn. by rewrite lookup_empty.
  - intros t p x. cbn. by rewrite lookup_empty.
  - intros t. split; [done|]. cbn. by rewrite !lookup_empty.
  - by intros t u ?%not_elem_of_nil.
  - split_and!; [intros n ip; cbn; by rewrite lookup_empty|intros n ip; cbn; by rewrite lookup_empty|done].
Qed.

(** ** Instances on the concrete datastore and connection *)
Module MemHandler.
Export MemK8s MemNats MemK8sProto.

#[export] Instance V2CMessage_eq_dec : EqDecision V2CMessage.
Proof. solve_decision. Defined.
#[export] Instance V2CMessage_countable : Countable V2CMessage.
Proof.
  refine (inj_countable' (λ x, match x with V2C_ResourceUpdate u => inl u | V2C_MissingResponse r => inr r end)
    (λ x, match x with inl u => V2C_ResourceUpdate u | inr r => V2C_MissingResponse r end) _); by intros [].
Defined.

Definition h_0 : Handler (St := St) := NewHandler (N := mem_conn) (store ∅) ([] : list (string * string)) 0.

Definition A_0 : k8s_abs := mkK8sAbs (λ _, ∅) ∅ [] ∅.

Definition mem_hinv := hinv (view := view) (ok := ok) (N := mem_conn) (log := mem_log) (up := mem_up).

Lemma h_0_inv fam : mem_hinv [] ∅ fam h_0 A_0.
Proof. apply (hinv_empty (log := mem_log) (up := mem_up)); [apply store_ok|apply view_empty|done]. Qed.

(** A node, a namespace and a service. *)
Definition meta_1 : ObjectMetadata := mkObjectMetadata "one" "ns" "uid-1" "1" 10 0 None [] None.
Definition node_1 : K8SResource := K8SResource_Node (mkNode (Some meta_1) (Some (mkNodeSpec [] ""))
  (Some (mkNodeStatus 0 [mkNodeAddress NODE_ADDR_TYPE_INTERNAL_IP "10.0.0.1"] []))).
Definition ns_1 : K8SResource := K8SResource_Namespace (mkNamespace (Some meta_1)).
Definition service_1 : K8SResource := K8SResource_Service (mkService (Some meta_1)
  (Some (mkServiceSpec [] "10.96.0.1" 2 [] "" "" 0))).

Definition events_1 : list (Z * Z * K8sResourceMessage) :=
  [(5%Z, 6%Z, mkK8sResourceMessage (Some node_1) "nodes" watch_Added);
   (7%Z, 8%Z, mkK8sResourceMessage (Some service_1) "services" watch_Added);
   (9%Z, 9%Z, mkK8sResourceMessage (Some ns_1) "namespaces" watch_Deleted)].

Lemma events_1_ok : events_ok true h_0 events_1.
Proof.
  split; [|done]. repeat (apply Forall_cons; split); [..|constructor].
  - split_and!; [by eexists..|]. eexists. split; [done|]. intros a ->%list_elem_of_singleton. by left.
  - split; [by eexists|]. eexists. split; [done|]. vm_compute. done.
  - by eexists.
Qed.

(** A handler on a store in which the topics of Kelvin and of one node have the
    version 3, and the node's updates of versions 1 and 2 are stored. *)
Definition update_of (v : Z) : ResourceUpdate :=
  mkResourceUpdate (ResourceUpdate_NamespaceUpdate (mkNamespaceUpdate "uid-1" "ns" 10 0)) v 0.

Definition A_3 : k8s_abs :=
  let A := abs_add 2 (mkK8SResourceUpdate (Some (update_of 2))) "10.0.0.1" A_0 in
  let A := abs_add 1 (mkK8SResourceUpdate (Some (update_of 1))) "10.0.0.1" A in
  let A := abs_send (update_of 3) "10.0.0.1" (abs_send (update_of 3) KelvinUpdateTopic A) in
  mkK8sAbs (a_updates A) (a_versions A) [] ∅.

Definition keys_3 : gmap string string :=
  <[getTopicVersionKey "10.0.0.1" := FormatInt 3]> (<[getTopicVersionKey KelvinUpdateTopic := FormatInt 3]>
    (<[getTopicResourceUpdateKey "10.0.0.1" 1 := enc (mkK8SResourceUpdate (Some (update_of 1)))]>
      (<[getTopicResourceUpdateKey "10.0.0.1" 2 := enc (mkK8SResourceUpdate (Some (update_of 2)))]> ∅))).

Lemma store_rep_3 : store_rep (J := count_proto) keys_3 A_3.
Proof.
  assert (store_rep (J := count_proto) ∅ A_0) as H.
  { pose proof (h_0_inv true) as [(_ & _ & H & _) _ _ _ _]. exact H. }
  assert (topic_ok "10.0.0.1") as Ht by (by left). assert (topic_ok KelvinUpdateTopic) as Hk by (by left).
  assert (uv_ok 1 ∧ uv_ok 2) as [H1 H2] by (unfold uv_ok; lia).
  pose proof (store_rep_add (J := count_proto) _ _ _ _ _ _ Ht H2 (Unmarshal_enc (mkK8SResourceUpdate (Some (update_of 2)))) H) as HA.
  pose proof (store_rep_add (J := count_proto) _ _ _ _ _ _ Ht H1 (Unmarshal_enc (mkK8SResourceUpdate (Some (update_of 1)))) HA) as HB.
  exact (store_rep_send (J := count_proto) _ _ (update_of 3) _ Ht (store_rep_send (J := count_proto) _ _ (update_of 3) _ Hk HB)).
Qed.

Lemma log_inv_3 : log_inv (a_versions A_3) A_3 3.
Proof.
  split.
  - intros t v. cbn [A_3 A_0 a_versions abs_send abs_add]. rewrite !lookup_insert_Some, lookup_empty. cbn. intros [[_ <-]|[_ [[_ <-]|[_ ?]]]]; done.
  - intros t p x. cbn [A_3 a_updates abs_send abs_add A_0]. case_decide; [|by rewrite lookup_empty].
    rewrite !lookup_insert_Some, lookup_empty. intros [[<- <-]|[_ [[<- <-]|[_ ?]]]]; [..|done]; (split; [done|]); by eexists.
  - intros t. split; [done|]. unfold chain_end. cbn. by destruct (_ !! t).
  - by intros t u ?%not_elem_of_nil.
Qed.

Lemma h_3 : ∃ h, mem_hinv [] (a_versions A_3) true h A_3 ∧ a_sent A_3 = [] ∧ currUV h = 3%Z.
Proof.
  destruct (store_with keys_3) as (s & Hs & Hv).
  { intros k. unfold keys_3. rewrite !lookup_insert_is_Some', lookup_empty.
    intros [<-|[<-|[<-|[<-|[? ?]]]]]; [reflexivity..|done]. }
  exists (NewHandler (N := mem_conn) s ([] : list (string * string)) 3). split; [|done]. split; [|exact log_inv_3|done|done|done].
  split_and!; [done|done| |done]. cbn [mds NewHandler]. rewrite Hv. exact store_rep_3.
Qed.

Abbreviation process_1 := (processUpdates (J := count_proto) (λ l, inr l) (λ _, "") map_to_list map_to_list map_to_list map_to_list).
End MemHandler.
Import MemHandler.

Lemma updates_form_chains_witness :
  ∃ h' A', process_1 events_1 h_0 = (Ret tt, h') ∧ mem_log (hconn h') = a_sent A' ≫= wire ∧ ∀ t, chain None (topic_log A' t).
Proof.
  destruct (updates_form_chains (view := view) (ok := ok) (log := mem_log) (up := mem_up) (J := count_proto) (λ l, inr l) (λ _, "")
    map_to_list map_to_list map_to_list map_to_list (λ _, reflexivity _) (λ _, reflexivity _) (λ _, reflexivity _)
    (λ _, reflexivity _) [] ∅ true h_0 A_0 events_1 (h_0_inv true) events_1_ok) as (h' & A' & E & Hl & Hc).
  exists h', A'. split; [exact E|]. split; [exact Hl|]. intros t. exact (proj1 (Hc t)).
Defined.

(** The events are processed, and then the key of the update of version 1 on Kelvin's
    topic expires; the updates of version 2 can be fetched. *)
Lemma sent_updates_can_be_fetched_witness :
  ∃ h1 h2 X A', process_1 events_1 h_0 = (Ret tt, h1) ∧ expires (view := view) (ok := ok) X h1 h2 ∧
    mem_log (hconn h2) = a_sent A' ≫= wire ∧
    ∀ u, (KelvinUpdateTopic, u) ∈ a_sent A' → ver u = 2%Z →
      ∃ us, GetUpdatesForIP "" 0 0 h2 = (Ret us, h2) ∧ chain (Some 0%Z) us ∧ ∃ u', u' ∈ us ∧ strip u' = strip u.
Proof.
  destruct events_1_ok as [Hok Hb].
  destruct (proj1 (wp_run _ _ _) (wp_processUpdates (view := view) (ok := ok) (log := mem_log) (up := mem_up) (J := count_proto)
    (λ l, inr l) (λ _, "") map_to_list map_to_list map_to_list map_to_list (λ _, reflexivity _) (λ _, reflexivity _)
    (λ _, reflexivity _) (λ _, reflexivity _) [] ∅ true h_0 A_0 events_1 (h_0_inv true) Hok Hb)) as ([] & h1 & E & _ & _).
  set (k1 := getTopicResourceUpdateKey KelvinUpdateTopic 1).
  set (X := filter (λ k, k = k1) (dom (view (mds h1))) : gset string).
  destruct (store_with (filter (λ kv, kv.1 ∉ X) (view (mds h1)))) as (s2 & Hs2 & Hv2).
  { intros k [b [Hk _]%map_lookup_filter_Some]. destruct (user_key k) eqn:Eu; [done|].
    unfold view in Hk. by rewrite PebbleDB.lookup_view_internal in Hk. }
  set (h2 := mkHandler (N := mem_conn) s2 (hconn h1) (state h1) (currUV h1)).
  assert (expires (view := view) (ok := ok) X h1 h2) as HX.
  { split; [exact Hs2|]. split; [exact Hv2|]. split; [|split_and!; reflexivity].
    intros k [-> Hk]%elem_of_filter. split; [by apply elem_of_dom in Hk|]. unfold k1. vm_compute. discriminate. }
  destruct (sent_updates_can_be_fetched (view := view) (ok := ok) (log := mem_log) (up := mem_up) (J := count_proto) (λ l, inr l)
    (λ _, "") map_to_list map_to_list map_to_list map_to_list (λ _, reflexivity _) (λ _, reflexivity _) (λ _, reflexivity _)
    (λ _, reflexivity _) [] ∅ true h_0 A_0 h2 (X ∪ ∅) (h_0_inv true) eq_refl) as (A' & Hl & Hf).
  { eapply rtc_l; [eapply hs_events; [exact events_1_ok|exact E]|]. by apply rtc_once, hs_expire. }
  exists h1, h2, X, A'. split_and!; [exact E|exact HX|exact Hl|]. intros u Hu Hv.
  apply (Hf "" u 0%Z 0%Z Hu eq_refl); [lia|by left|]. rewrite Hv.
  split; (intros [[Hk _]%elem_of_filter|Hk]%elem_of_union; [by vm_compute in Hk|by apply not_elem_of_empty in Hk]).
Defined.

Lemma restart_resumes_witness :
  ∃ h' A', process_1 events_1 h_0 = (Ret tt, h') ∧
    mustGetCurrentUpdateVersion 3 (mds h') = (Ret (currUV h'), mds h') ∧
    mem_hinv [] (a_versions A') true (NewHandler (N := mem_conn) (mds h') ([] : list (string * string)) (currUV h'))
      (mkK8sAbs (a_updates A') (a_versions A') [] ∅).
Proof.
  exact (restart_resumes (view := view) (ok := ok) (log := mem_log) (up := mem_up) (J := count_proto) (λ l, inr l)
    (λ _, "") map_to_list map_to_list map_to_list map_to_list (λ _, reflexivity _) (λ _, reflexivity _) (λ _, reflexivity _)
    (λ _, reflexivity _) [] ∅ true h_0 A_0 events_1 3 ([] : list (string * string)) (h_0_inv true) events_1_ok I).
Defined.
