(* ===== verification/K8sTopic.v ===== *)
(** * Requests for missing updates

    [controllers/k8smeta/metadata_topic_listener.go]: agents and the cloud ask for
    ranges of updates, and are answered in batches. *)

From S2P Require Import Prelude GoLib Datastore Uuid Messages MessageBus StoreLib GoNet ServiceCIDR K8sMessages K8sStore K8sHandler K8sAbs K8sProcessors K8sRun.
From Stdlib Require Import Ascii.

Definition MetadataRequestSubscribeTopic : string := C2VTopic "MetadataRequest".
Definition metadataResponseTopic : string := "MetadataResponse".
Definition MissingMetadataRequestTopic : string := "MissingMetadataRequests".
Definition batchSize : nat := 128.

(** [nats.Msg]. *)
Record nats_Msg := mkNatsMsg { Subject : string; Data : string }.

(** What is read from the bytes of a message: the Kubernetes metadata message in a
    [VizierMessage], [None] when it holds another one, and the request packed in a
    [C2VMessage]. *)
Class RequestProto := {
  vz_Unmarshal : string → error + option K8SMetadataMessage;
  c2v_Unmarshal : string → error + MissingK8SMetadataRequest
}.

Section listener.
Context {St : Type} `{!Datastore St} `{N : NatsConn} `{!RequestProto}.
Context `{!Proto K8SResourceUpdate} `{!Proto K8SMetadataMessage} `{!Proto V2CMessage}.

(** [make([][]*ResourceUpdate, 0)] and the loop over the batches; the number of
    updates bounds the iterations. *)
Fixpoint batch_loop (fuel : nat) (updates : list ResourceUpdate) (batch : nat) : list (list ResourceUpdate) :=
  match fuel with
  | O => []
  | Datatypes.S fuel =>
    if Nat.ltb (batch * batchSize) (length updates) then
      take (Nat.min ((batch + 1) * batchSize) (length updates) - batch * batchSize) (drop (batch * batchSize) updates)
        :: batch_loop fuel updates (batch + 1)
    else []
  end.

Definition getUpdatesInBatches (from to : Z) (selector : string)
    : M (Handler (St := St)) (list (list ResourceUpdate) * Z * Z) :=
  updates ← GetUpdatesForIP selector from to;
  match updates with
  | [] => mret ([], 0%Z, 0%Z)
  | _ =>
    let batches := batch_loop (length updates) updates 0 in
    b0 ← index batches 0;
    first ← index b0 0;
    lastBatch ← index batches (length batches - 1);
    last ← index lastBatch (length lastBatch - 1);
    mret (batches, ru_UpdateVersion first, ru_UpdateVersion last)
  end.

Definition processAgentMessage (msg : nats_Msg) : M (Handler (St := St)) unit :=
  vzMsg ← lift_sum (vz_Unmarshal (Data msg));
  match vzMsg with
  | Some (MissingK8SMetadataRequestMsg req) =>
    r ← getUpdatesInBatches (mreq_FromUpdateVersion req) (mreq_ToUpdateVersion req) (mreq_Selector req);
    let '(batches, firstAvailable, lastAvailable) := r in
    forM_ batches (λ batch,
      b ← lift_sum (Marshal (MissingK8SMetadataResponseMsg (mkMissingK8SMetadataResponse batch firstAvailable lastAvailable)));
      nats_call (getK8sUpdateChannel (mreq_Selector req)) b)
  | _ => mret tt
  end.

Definition processCloudMessage (msg : nats_Msg) : M (Handler (St := St)) unit :=
  req ← lift_sum (c2v_Unmarshal (Data msg));
  r ← getUpdatesInBatches (mreq_FromUpdateVersion req) (mreq_ToUpdateVersion req) (mreq_Selector req);
  let '(batches, firstAvailable, lastAvailable) := r in
  forM_ batches (λ batch,
    b ← lift_sum (Marshal (V2C_MissingResponse (mkMissingK8SMetadataResponse batch firstAvailable lastAvailable)));
    nats_call (V2CTopic (metadataResponseTopic +:+ ":" +:+ mreq_CustomTopic req)) b).

Definition ProcessMessage (msg : nats_Msg) : M (Handler (St := St)) unit :=
  if decide (Subject msg = MissingMetadataRequestTopic) then processAgentMessage msg
  else if decide (Subject msg = MetadataRequestSubscribeTopic) then processCloudMessage msg
  else mret tt.

(** The loop over the channel: an error is logged. *)
Definition processMessages (msgs : list nats_Msg) : M (Handler (St := St)) unit :=
  forM_ msgs (λ msg, logged (ProcessMessage msg)).
End listener.

(** ** Batches *)

Lemma batch_loop_spec fuel updates batch :
  length updates - batch * batchSize ≤ fuel →
  concat (batch_loop fuel updates batch) = drop (batch * batchSize) updates ∧
  Forall (λ b, b ≠ [] ∧ length b ≤ batchSize) (batch_loop fuel updates batch).
Proof.
  revert batch. induction fuel as [|fuel IH]; intros batch Hf; cbn [batch_loop].
  { split; [|constructor]. by rewrite drop_ge by lia. }
  destruct (Nat.ltb_spec (batch * batchSize) (length updates)) as [Hlt|Hge].
  2: { split; [by rewrite drop_ge|constructor]. }
  destruct (IH (batch + 1)) as [Hc Hb]; [unfold batchSize in *; lia|].
  set (k := Nat.min _ _ - _). assert (0 < k ≤ batchSize) as Hk by (unfold k, batchSize in *; lia).
  split.
  - cbn [concat]. rewrite Hc. replace (drop ((batch + 1) * batchSize) updates) with (drop k (drop (batch * batchSize) updates)).
    { apply take_drop. }
    rewrite drop_drop. unfold k. destruct (decide ((batch + 1) * batchSize ≤ length updates)).
    + f_equal. lia.
    + rewrite !drop_ge by lia. done.
  - constructor; [|done]. split.
    + intros E. apply (f_equal length) in E. rewrite length_take, length_drop in E. simpl in E. lia.
    + rewrite length_take. lia.
Qed.

Section facts.
Context {St : Type} `{!Datastore St} {view : St → gmap string string} {ok : St → Prop}.
Context `{!DatastoreSpec St view ok}.
Context `{N : NatsConn} {log : nconn → list (string * string)} {up : nconn → Prop} `{!NatsSpec N log up}.
Context `{!Proto K8SResourceUpdate} `{!ProtoSpec K8SResourceUpdate} `{!Proto K8SMetadataMessage} `{!ProtoSpec K8SMetadataMessage}.
Context `{!Proto V2CMessage} {J : Proto (gmap string bool)} `{!RequestProto}.
Implicit Types (h : Handler (St := St)) (A : k8s_abs).

Abbreviation hinv := (hinv (view := view) (ok := ok) (log := log) (up := up)).

(** The first and last versions of non-empty updates. *)
Definition first_version (us : list ResourceUpdate) : Z := match head us with Some u => ver u | None => 0 end.
Definition last_version (us : list ResourceUpdate) : Z := match last us with Some u => ver u | None => 0 end.

Lemma getUpdatesInBatches_run h from to selector us :
  GetUpdatesForIP selector from to h = (Ret us, h) →
  ∃ bs, getUpdatesInBatches from to selector h = (Ret (bs, first_version us, last_version us), h) ∧
    concat bs = us ∧ Forall (λ b, b ≠ [] ∧ length b ≤ batchSize) bs.
Proof.
  intros E. unfold getUpdatesInBatches. rewrite (bind_ret _ _ _ _ _ E). destruct us as [|u us]; [by exists []|].
  set (l := u :: us) in *. destruct (batch_loop_spec (length l) l 0) as [Hc Hb]; [lia|]. rewrite drop_0 in Hc.
  set (bs := batch_loop (length l) l 0) in *. exists bs. split; [|done].
  destruct bs as [|b0 bs0]; [done|]. pose proof (Forall_inv Hb) as [Hb0 _]. destruct b0 as [|x b0]; [done|].
  set (bs := (x :: b0) :: bs0) in *. cbn [concat] in Hc.
  assert (x = u) as -> by (by injection Hc).
  destruct (last bs) as [lb|] eqn:El; [|by apply last_None in El].
  assert (bs !! (length bs - 1) = Some lb) as Elb by (rewrite <-El, last_lookup; f_equal; unfold bs; simpl; lia).
  assert (lb ∈ bs) as Hlb by (by eapply list_elem_of_lookup_2). pose proof (proj1 (Forall_forall _ _) Hb lb Hlb) as [Hne _].
  destruct (last lb) as [y|] eqn:Ey; [|by apply last_None in Ey].
  assert (lb !! (length lb - 1) = Some y) as Ely.
  { rewrite <-Ey, last_lookup. f_equal. destruct lb; [done|]. simpl. lia. }
  assert (last l = Some y) as Elast.
  { rewrite <-Hc. apply last_Some in El as [bs' Ebs]. change ((u :: b0) ++ concat bs0) with (concat bs).
    rewrite Ebs, concat_app. cbn [concat]. rewrite app_nil_r.
    apply last_Some in Ey as [lb' ->]. by rewrite app_assoc, last_snoc. }
  cbv zeta. erewrite bind_ret; [|reflexivity]. erewrite bind_ret; [|reflexivity].
  erewrite bind_ret; [|unfold index; rewrite Elb; reflexivity]. erewrite bind_ret; [|unfold index; rewrite Ely; reflexivity].
  unfold first_version, last_version. rewrite Elast. done.
Qed.

(** Publishing one message per batch. *)
Lemma wp_publish_batches l0 V0 fam h A topic (msg_of : list ResourceUpdate → K8SMetadataMessage) bs :
  hinv l0 V0 fam h A →
  wp (forM_ bs (λ batch, b ← lift_sum (Marshal (msg_of batch)); nats_call topic b))
    (λ _ h', mds h' = mds h ∧ state h' = state h ∧ currUV h' = currUV h ∧ up (hconn h') ∧
      log (hconn h') = log (hconn h) ++ ((λ b, (topic, enc (msg_of b))) <$> bs)) h.
Proof using NatsSpec0 ProtoSpec1.
  intros [(_ & Hup & _) _ _ _ _].
  apply (wp_forM_ _ (λ done h', mds h' = mds h ∧ state h' = state h ∧ currUV h' = currUV h ∧ up (hconn h') ∧
      log (hconn h') = log (hconn h) ++ ((λ b, (topic, enc (msg_of b))) <$> done))); [by rewrite app_nil_r| |done].
  intros done x rest h' _ (H1 & H2 & H3 & Hup' & Hl). rewrite (Marshal_enc (msg_of x)). apply wp_bind, wp_lift_inr.
  apply (wp_nats_call (log := log) (up := up)); [exact Hup'|]. intros c Hc Hlc. cbn [mds state currUV hconn].
  split_and!; [done|done|done|done|]. by rewrite Hlc, Hl, fmap_app, <-app_assoc.
Qed.

(** A request for a range is answered with all stored updates of its topic in the
    range, in the order of their versions and each naming the one before it, in
    batches of at most 128; every answer carries the first and the last version of
    the whole range.  When there are none, nothing is sent. *)
Theorem request_answered_in_batches l0 V0 fam h A msg req :
  hinv l0 V0 fam h A → Subject msg = MissingMetadataRequestTopic →
  vz_Unmarshal (Data msg) = inr (Some (MissingK8SMetadataRequestMsg req)) →
  good_comp (request_topic (mreq_Selector req)) = true →
  (0 ≤ mreq_FromUpdateVersion req ≤ 2 ^ 63)%Z → (0 ≤ mreq_ToUpdateVersion req ≤ 2 ^ 63)%Z →
  ∃ us bs h', ProcessMessage msg h = (Ret tt, h') ∧ mds h' = mds h ∧
    in_fetch A (request_topic (mreq_Selector req)) (mreq_FromUpdateVersion req) (request_to h (mreq_ToUpdateVersion req)) us ∧
    log (hconn h') = log (hconn h) ++ ((λ b, (getK8sUpdateChannel (mreq_Selector req),
      enc (MissingK8SMetadataResponseMsg (mkMissingK8SMetadataResponse b (first_version us) (last_version us))))) <$> bs) ∧
    concat bs = relink 0 us ∧ Forall (λ b, b ≠ [] ∧ length b ≤ batchSize) bs.
Proof using All.
  intros Hinv Hs Hu Hg Hf Ht.
  destruct (GetUpdatesForIP_run l0 V0 fam h A _ _ _ Hinv Hg Hf Ht) as (us & E & Hin).
  destruct (getUpdatesInBatches_run h _ _ _ _ E) as (bs & Eb & Hc & Hb).
  assert (first_version (relink 0 us) = first_version us) as Hfirst by (by destruct us).
  assert (last_version (relink 0 us) = last_version us) as Hlast.
  { assert (∀ v, ver <$> relink v us = ver <$> us) as Hv.
    { clear. induction us as [|u us IH]; intros v; [done|]. cbn [relink]. rewrite !fmap_cons. f_equal. apply IH. }
    specialize (Hv 0%Z). apply (f_equal last) in Hv. rewrite !fmap_last in Hv. unfold last_version.
    destruct (last (relink 0 us)), (last us); simplify_eq/=; done. }
  rewrite Hfirst, Hlast in Eb.
  destruct (proj1 (wp_run _ _ _) (wp_publish_batches l0 V0 fam h A (getK8sUpdateChannel (mreq_Selector req))
    (λ b, MissingK8SMetadataResponseMsg (mkMissingK8SMetadataResponse b (first_version us) (last_version us))) bs Hinv))
    as ([] & h' & Er & Hm & _ & _ & _ & Hl).
  exists us, bs, h'. split; [|by split_and!]. unfold ProcessMessage, processAgentMessage. rewrite decide_True by done.
  rewrite Hu. erewrite bind_ret; [|reflexivity]. cbv beta iota. rewrite (bind_ret _ _ _ _ _ Eb). exact Er.
Qed.
End facts.

Module MemRequests.
Export MemHandler.

#[export] Instance mem_requests : RequestProto := {|
  vz_Unmarshal b := match Unmarshal b with inl e => inl e | inr m => inr (Some m) end;
  c2v_Unmarshal b := Unmarshal b
|}.

Definition msg_of (req : MissingK8SMetadataRequest) : nats_Msg :=
  mkNatsMsg MissingMetadataRequestTopic (enc (MissingK8SMetadataRequestMsg req)).

Lemma msg_of_unmarshal req : vz_Unmarshal (Data (msg_of req)) = inr (Some (MissingK8SMetadataRequestMsg req)).
Proof. cbn [vz_Unmarshal mem_requests msg_of Data]. by rewrite Unmarshal_enc. Qed.
End MemRequests.
Import MemRequests.

Lemma request_answered_in_batches_witness :
  let req := mkMissingK8SMetadataRequest 1 3 "10.0.0.1" "" in
  ∃ h us bs h', ProcessMessage (msg_of req) h = (Ret tt, h') ∧ in_fetch A_3 "10.0.0.1" 1 3 us ∧ concat bs = relink 0 us.
Proof.
  intros req. destruct h_3 as (h & Hinv & _).
  destruct (request_answered_in_batches (view := view) (ok := ok) (log := mem_log) (up := mem_up) (J := count_proto)
    [] (a_versions A_3) true h A_3 (msg_of req) req Hinv eq_refl (msg_of_unmarshal req) eq_refl) as (us & bs & h' & E & _ & Hin & _ & Hc & _).
  { cbn. lia. } { cbn. lia. }
  exists h, us, bs, h'. split; [exact E|]. split; [exact Hin|exact Hc].
Defined.
