(* ===== verification/K8sAgent.v ===== *)
(** * The agents' side of the metadata updates

    [src/vizier/services/agent/shared/manager/k8s_update.cc]: an agent applies the
    updates of its topic in the order of their chain, keeps those that come too
    early, and asks the metadata service for what it misses. *)

From S2P Require Import Prelude GoLib Datastore Uuid Messages MessageBus StoreLib GoNet ServiceCIDR K8sMessages K8sStore K8sHandler K8sAbs K8sProcessors K8sRun K8sTopic.
From Stdlib Require Import Ascii.

(** [K8sUpdateHandler].  The backlog is a priority queue with the smallest version
    at the top: a list in the order of versions.  [mds_updates] are the updates
    handed to the metadata state, which takes every one; [requests] are those
    published. *)
Record K8sUpdateHandler := mkK8sUpdateHandler {
  update_selector : string;
  max_update_queue_size : nat;
  current_update_version : Z;
  update_backlog : list ResourceUpdate;
  initial_metadata_received : bool;
  timer_enabled : bool;
  mds_updates : list ResourceUpdate;
  requests : list MissingK8SMetadataRequest
}.
Implicit Types (a : K8sUpdateHandler) (u : ResourceUpdate).

(** The state after construction, before the timer goes off. *)
Definition new_agent (selector : string) (max : nat) : K8sUpdateHandler :=
  mkK8sUpdateHandler selector max 0 [] false true [] [].

Definition set_current (v : Z) a := mkK8sUpdateHandler (update_selector a) (max_update_queue_size a) v (update_backlog a)
  (initial_metadata_received a) (timer_enabled a) (mds_updates a) (requests a).
Definition set_backlog (q : list ResourceUpdate) a := mkK8sUpdateHandler (update_selector a) (max_update_queue_size a)
  (current_update_version a) q (initial_metadata_received a) (timer_enabled a) (mds_updates a) (requests a).
Definition set_received (b : bool) a := mkK8sUpdateHandler (update_selector a) (max_update_queue_size a)
  (current_update_version a) (update_backlog a) b (timer_enabled a) (mds_updates a) (requests a).
Definition set_timer (b : bool) a := mkK8sUpdateHandler (update_selector a) (max_update_queue_size a)
  (current_update_version a) (update_backlog a) (initial_metadata_received a) b (mds_updates a) (requests a).

Fixpoint push (u : ResourceUpdate) (q : list ResourceUpdate) : list ResourceUpdate :=
  match q with
  | [] => [u]
  | v :: q => if (ver u <? ver v)%Z then u :: v :: q else v :: push u q
  end.

Definition AddK8sUpdate u a : K8sUpdateHandler :=
  mkK8sUpdateHandler (update_selector a) (max_update_queue_size a) (ver u) (update_backlog a)
    (initial_metadata_received a) (timer_enabled a) (mds_updates a ++ [u]) (requests a).

Definition RequestMissingMetadata a : K8sUpdateHandler :=
  match update_backlog a, initial_metadata_received a with
  | [], true => a
  | q, _ =>
    let from := if (current_update_version a =? 0)%Z then 0%Z else (current_update_version a + 1)%Z in
    let to := match q with [] => 0%Z | top :: _ => ver top end in
    mkK8sUpdateHandler (update_selector a) (max_update_queue_size a) (current_update_version a) q
      (initial_metadata_received a) true (mds_updates a)
      (requests a ++ [mkMissingK8SMetadataRequest from to (update_selector a) ""])
  end.

Definition HandleK8sUpdate u a : K8sUpdateHandler :=
  if (current_update_version a =? ru_PrevUpdateVersion u)%Z then AddK8sUpdate u a
  else if (ru_PrevUpdateVersion u <? current_update_version a)%Z then a
  else
    let q := push u (update_backlog a) in
    let q := if Nat.ltb (max_update_queue_size a) (length q) then tail q else q in
    let a := set_backlog q a in
    if timer_enabled a then a else RequestMissingMetadata a.

Definition HandleK8sUpdates (us : list ResourceUpdate) a : K8sUpdateHandler := foldl (λ a u, HandleK8sUpdate u a) a us.

(** The loop that flushes the backlog [q]. *)
Fixpoint flush_backlog (q : list ResourceUpdate) a : K8sUpdateHandler :=
  match q with
  | [] => set_backlog [] a
  | next :: q' =>
    if (current_update_version a <? ru_PrevUpdateVersion next)%Z then set_backlog q a
    else if (current_update_version a =? ru_PrevUpdateVersion next)%Z then flush_backlog q' (AddK8sUpdate next a)
    else flush_backlog q' a
  end.

Definition HandleMissingK8sMetadataResponse (resp : MissingK8SMetadataResponse) a : K8sUpdateHandler :=
  let a := match mresp_Updates resp with
    | first_update :: _ =>
      if ((current_update_version a <? ver first_update) && (ver first_update =? mresp_FirstUpdateAvailable resp))%Z
      then set_current (ru_PrevUpdateVersion first_update) a else a
    | [] =>
      match update_backlog a with
      | top :: _ =>
        if (ver top <=? mresp_FirstUpdateAvailable resp)%Z then set_current (ru_PrevUpdateVersion top) a else a
      | [] => a
      end
    end in
  let a := HandleK8sUpdates (mresp_Updates resp) a in
  let a := flush_backlog (update_backlog a) a in
  let a := if negb (initial_metadata_received a) && (mresp_LastUpdateAvailable resp <=? current_update_version a)%Z
    then set_received true a else a in
  if initial_metadata_received a && bool_decide (update_backlog a = []) then set_timer false a else a.

(** ** Applying a chain *)

(** An agent that has the version before a chain applies all of it, in order. *)
Lemma HandleK8sUpdates_chain us a :
  chain (Some (current_update_version a)) us →
  HandleK8sUpdates us a =
    mkK8sUpdateHandler (update_selector a) (max_update_queue_size a)
      (default (current_update_version a) (chain_end (Some (current_update_version a)) us)) (update_backlog a)
      (initial_metadata_received a) (timer_enabled a) (mds_updates a ++ us) (requests a).
Proof.
  revert a. induction us as [|u us IH]; intros a Hc.
  { unfold HandleK8sUpdates. cbn. rewrite app_nil_r. by destruct a. }
  destruct Hc as (Hp & _ & Hc). simpl in Hp. unfold HandleK8sUpdates. cbn [foldl]. fold (HandleK8sUpdates us (HandleK8sUpdate u a)).
  unfold HandleK8sUpdate at 1. rewrite (proj2 (Z.eqb_eq _ _) (eq_sym Hp)). rewrite IH by done.
  cbn [AddK8sUpdate update_selector max_update_queue_size current_update_version update_backlog initial_metadata_received
    timer_enabled mds_updates requests]. f_equal; [|by rewrite <-app_assoc].
  unfold chain_end. destruct us as [|w us]; [done|]. change (last (u :: w :: us)) with (last (w :: us)).
  by destruct (last (w :: us)) eqn:Ew; [|apply last_None in Ew].
Qed.

(** ** Filling a gap *)

(** The fields an agent's progress is read from. *)
Definition agent_at a (cur : Z) (q ups : list ResourceUpdate) : Prop :=
  current_update_version a = cur ∧ update_backlog a = q ∧ mds_updates a = ups.

(** The end of [HandleMissingK8sMetadataResponse] only concerns the timer. *)
Lemma finish_response (resp : MissingK8SMetadataResponse) a cur q ups :
  agent_at a cur q ups →
  let a1 := if negb (initial_metadata_received a) && (mresp_LastUpdateAvailable resp <=? current_update_version a)%Z
    then set_received true a else a in
  agent_at (if initial_metadata_received a1 && bool_decide (update_backlog a1 = []) then set_timer false a1 else a1) cur q ups.
Proof. intros Ha. cbv zeta. by destruct (negb _ && _), (_ && _). Qed.

(** One batch of an answer, which continues where the agent is or starts the
    answer. *)
Lemma response_step resp a q b :
  mresp_Updates resp = b → update_backlog a = q → b ≠ [] → chain (Some (default 0%Z (ru_PrevUpdateVersion <$> head b))) b →
  (first_version b = mresp_FirstUpdateAvailable resp ∧ (current_update_version a < first_version b)%Z) ∨
  (first_version b ≠ mresp_FirstUpdateAvailable resp ∧ Some (current_update_version a) = ru_PrevUpdateVersion <$> head b) →
  let a1 := mkK8sUpdateHandler (update_selector a) (max_update_queue_size a) (last_version b) q
    (initial_metadata_received a) (timer_enabled a) (mds_updates a ++ b) (requests a) in
  ∀ cur q' ups, agent_at (flush_backlog q a1) cur q' ups → agent_at (HandleMissingK8sMetadataResponse resp a) cur q' ups.
Proof.
  intros Hb Hq Hne Hc Hor a1 cur q' ups Hfl. unfold HandleMissingK8sMetadataResponse. rewrite Hb.
  destruct b as [|w b]; [done|]. 
  set (a0 := if ((current_update_version a <? ver w) && (ver w =? mresp_FirstUpdateAvailable resp))%Z
    then set_current (ru_PrevUpdateVersion w) a else a).
  assert (a0 = set_current (ru_PrevUpdateVersion w) a) as Ea0.
  { unfold a0. cbn in Hor. destruct Hor as [[E Hlt]|[E Heq]].
    - rewrite (proj2 (Z.ltb_lt _ _) Hlt), (proj2 (Z.eqb_eq _ _) E). done.
    - rewrite (proj2 (Z.eqb_neq _ _) E), andb_false_r. injection Heq as <-. by destruct a. }
  clearbody a0. subst a0. rewrite HandleK8sUpdates_chain by exact Hc. apply finish_response.
  cbn [update_backlog update_selector max_update_queue_size current_update_version initial_metadata_received
    timer_enabled mds_updates requests set_current]. rewrite Hq.
  replace (default _ (chain_end _ (w :: b))) with (last_version (w :: b)); [exact Hfl|].
  unfold chain_end, last_version. by destruct (last (w :: b)) eqn:E; [|apply last_None in E].
Qed.

(** The answer to a request arrives while one update waits: when the answer reaches
    the update before it, the agent applies the answer and then the update. *)
Lemma batch_then_backlog resp a u b :
  mresp_Updates resp = b → update_backlog a = [u] → b ≠ [] → chain (Some (default 0%Z (ru_PrevUpdateVersion <$> head b))) b →
  (first_version b = mresp_FirstUpdateAvailable resp ∧ (current_update_version a < first_version b)%Z) ∨
  (first_version b ≠ mresp_FirstUpdateAvailable resp ∧ Some (current_update_version a) = ru_PrevUpdateVersion <$> head b) →
  agent_at (HandleMissingK8sMetadataResponse resp a)
    (if (last_version b =? ru_PrevUpdateVersion u)%Z then ver u else last_version b)
    (if (last_version b <? ru_PrevUpdateVersion u)%Z then [u] else [])
    (mds_updates a ++ b ++ (if (last_version b =? ru_PrevUpdateVersion u)%Z then [u] else [])).
Proof.
  intros Hb Hq Hne Hc Hor. eapply response_step; [exact Hb|exact Hq|exact Hne|exact Hc|exact Hor|].
  cbn [flush_backlog current_update_version].
  destruct (Z.ltb_spec (last_version b) (ru_PrevUpdateVersion u)), (Z.eqb_spec (last_version b) (ru_PrevUpdateVersion u)); try lia.
  - split_and!; [done|done|]. cbn. by rewrite app_nil_r.
  - split_and!; [done|done|]. cbn. by rewrite <-app_assoc.
  - split_and!; [done|done|]. cbn. by rewrite app_nil_r.
Qed.

Lemma relink_app v0 us1 us2 :
  us1 ≠ [] → relink v0 (us1 ++ us2) = relink v0 us1 ++ relink (last_version us1) us2.
Proof.
  revert v0. induction us1 as [|u us1 IH]; intros v0 Hne; [done|]. cbn [app relink]. f_equal.
  destruct us1 as [|w us1]; [done|]. rewrite IH by done. done.
Qed.

Lemma relink_split v0 us b c :
  relink v0 us = b ++ c → b ≠ [] →
  ∃ us1 us2, us = us1 ++ us2 ∧ us1 ≠ [] ∧ b = relink v0 us1 ∧ c = relink (last_version us1) us2.
Proof.
  intros E Hne. assert (∀ l v, length (relink v l) = length l) as Hlen.
  { induction l as [|x l IH]; intros v; [done|]. cbn. by rewrite IH. }
  assert (length b ≤ length us) as Hle by (rewrite <-(Hlen us v0), E, length_app; lia).
  assert (take (length b) us ≠ []) as Hne'. { destruct b, us; simpl in *; done || lia. }
  exists (take (length b) us), (drop (length b) us). split_and!; [by rewrite take_drop|done|..];
    rewrite <-(take_drop (length b) us), relink_app in E by done;
    apply app_inj_1 in E as [E1 E2]; try done; rewrite Hlen, length_take; lia.
Qed.

Lemma last_version_relink v0 us : us ≠ [] → last_version (relink v0 us) = last_version us.
Proof.
  intros Hne. assert (∀ v, ver <$> relink v us = ver <$> us) as Hv.
  { clear. induction us as [|u us IH]; intros v; [done|]. cbn [relink]. rewrite !fmap_cons. f_equal. apply IH. }
  specialize (Hv v0). apply (f_equal last) in Hv. rewrite !fmap_last in Hv. unfold last_version.
  destruct (last (relink v0 us)), (last us); by simplify_eq/=.
Qed.

Lemma sorted_tail v0 us1 us2 :
  us1 ≠ [] → StronglySorted Z.lt (v0 :: (ver <$> us1 ++ us2)) → StronglySorted Z.lt (last_version us1 :: (ver <$> us2)).
Proof.
  revert v0. induction us1 as [|u us1 IH]; intros v0 Hne Hs; [done|].
  cbn [app fmap list_fmap] in Hs. apply StronglySorted_inv in Hs as [Hs _]. destruct us1 as [|w us1]; [done|].
  by apply (IH (ver u)).
Qed.

Lemma sorted_last v us : us ≠ [] → StronglySorted Z.lt (v :: (ver <$> us)) → (v < last_version us)%Z.
Proof.
  intros Hne [_ Hv]%StronglySorted_inv. unfold last_version. destruct (last us) as [u|] eqn:E; [|by apply last_None in E].
  apply last_Some in E as [us' ->]. rewrite fmap_app in Hv. apply Forall_app in Hv as [_ Hv]. by apply Forall_cons in Hv as [? _].
Qed.

Lemma sorted_first v us : us ≠ [] → StronglySorted Z.lt (v :: (ver <$> us)) → (v < first_version us)%Z.
Proof. intros Hne [_ Hv]%StronglySorted_inv. destruct us as [|u us]; [done|]. by apply Forall_cons in Hv as [? _]. Qed.

Lemma sorted_prefix v us1 us2 :
  StronglySorted Z.lt (v :: (ver <$> us1 ++ us2)) → StronglySorted Z.lt (v :: (ver <$> us1)).
Proof.
  rewrite fmap_app. change (v :: (ver <$> us1) ++ (ver <$> us2)) with ((v :: (ver <$> us1)) ++ (ver <$> us2)).
  generalize (v :: (ver <$> us1)) as l. intros l. induction l as [|x l IH]; [constructor|]. cbn [app].
  intros [Hs Hx]%StronglySorted_inv. apply Forall_app in Hx as [Hx _]. constructor; [by apply IH|done].
Qed.

(** The last version is the largest, and is that of an update. *)
Lemma sorted_le_last us x : StronglySorted Z.lt (ver <$> us) → x ∈ us → (ver x ≤ last_version us)%Z.
Proof.
  intros Hs Hx. unfold last_version. destruct (last us) as [y|] eqn:Ey; [|by apply last_None in Ey as ->; apply not_elem_of_nil in Hx].
  apply last_Some in Ey as [l ->]. apply elem_of_app in Hx as [Hx|Hx%list_elem_of_singleton]; [|by subst].
  rewrite fmap_app in Hs. induction l as [|z l IH]; [by apply not_elem_of_nil in Hx|].
  cbn [app fmap list_fmap] in Hs. apply StronglySorted_inv in Hs as [Hs Hz].
  apply elem_of_cons in Hx as [->|Hx]; [|by apply IH]. apply Forall_app in Hz as [_ Hz]. apply Forall_cons in Hz as [? _]. lia.
Qed.

Lemma last_version_elem us : us ≠ [] → ∃ y, y ∈ us ∧ ver y = last_version us.
Proof.
  intros Hne. unfold last_version. destruct (last us) as [y|] eqn:Ey; [|by apply last_None in Ey].
  exists y. split; [|done]. apply last_Some in Ey as [l ->]. apply elem_of_app. right. by left.
Qed.

Definition handle_answer (f l : Z) (bs : list (list ResourceUpdate)) a : K8sUpdateHandler :=
  foldl (λ a b, HandleMissingK8sMetadataResponse (mkMissingK8SMetadataResponse b f l) a) a bs.

Lemma batches_then_backlog bs a v0 f l u us :
  us ≠ [] → Forall (λ b, b ≠ []) bs → concat bs = relink v0 us → StronglySorted Z.lt (v0 :: (ver <$> us)) →
  update_backlog a = [u] → last_version us = ru_PrevUpdateVersion u →
  (first_version us = f ∧ (current_update_version a < f)%Z) ∨ ((f ≤ v0)%Z ∧ current_update_version a = v0) →
  agent_at (handle_answer f l bs a) (ver u) [] (mds_updates a ++ relink v0 us ++ [u]).
Proof.
  revert a v0 us. induction bs as [|b bs IH]; intros a v0 us Hne Hbs Hc Hs Hq Hl Hor.
  { by destruct us. }
  apply Forall_cons in Hbs as [Hb Hbs]. cbn [concat] in Hc. symmetry in Hc.
  destruct (relink_split v0 us b (concat bs) Hc Hb) as (us1 & us2 & -> & Hne1 & -> & Hc2).
  unfold handle_answer. cbn [foldl]. set (resp := mkMissingK8SMetadataResponse _ _ _).
  assert (ru_PrevUpdateVersion <$> head (relink v0 us1) = Some v0) as Hhead by (by destruct us1).
  assert (first_version (relink v0 us1) = first_version (us1 ++ us2)) as Hfirst by (by destruct us1).
  destruct (batch_then_backlog resp a u (relink v0 us1)) as (Hcur & Hq' & Hups).
  { done. } { done. } { done. }
  { rewrite Hhead. apply relink_chain. by eapply sorted_prefix. }
  { rewrite Hhead, Hfirst. cbn [resp mresp_FirstUpdateAvailable]. destruct Hor as [[E Hlt]|[Hle Ev]]; [left; lia|right].
    pose proof (sorted_first v0 (us1 ++ us2) Hne Hs). split; [lia|by rewrite Ev]. }
  rewrite last_version_relink in Hcur, Hq', Hups by done.
  destruct us2 as [|w us2].
  - rewrite app_nil_r in *. rewrite Hl, Z.eqb_refl in Hcur, Hups. rewrite Hl, Z.ltb_irrefl in Hq'.
    destruct bs as [|b' bs]; [by split_and!|]. apply Forall_cons in Hbs as [? _]. cbn [relink concat] in Hc2. by destruct b'.
  - pose proof (sorted_tail v0 us1 (w :: us2) Hne1 Hs) as Hs2.
    assert (last_version (us1 ++ w :: us2) = last_version (w :: us2)) as El.
    { unfold last_version. rewrite last_app. by destruct (last (w :: us2)) eqn:E; [|apply last_None in E]. }
    rewrite El in Hl. pose proof (sorted_last _ (w :: us2) ltac:(done) Hs2) as Hlt. rewrite Hl in Hlt.
    rewrite (proj2 (Z.eqb_neq _ _)) in Hcur, Hups by lia. rewrite (proj2 (Z.ltb_lt _ _)) in Hq' by lia.
    rewrite app_nil_r in Hups. rewrite relink_app, <-app_assoc by done. rewrite app_assoc, <-Hups.
    apply IH; [done|done|done|done|done|done|]. right. split; [|done].
    pose proof (sorted_last v0 us1 Hne1 (sorted_prefix _ _ _ Hs)) as H1. destruct Hor as [[E Hlt']|[Hle Ev]]; [|lia].
    assert (first_version (us1 ++ w :: us2) ≤ last_version us1)%Z; [|lia].
    destruct us1 as [|x us1]; [done|]. cbn [app] in *. unfold first_version. cbn [head].
    destruct us1 as [|y us1]; [done|]. apply StronglySorted_inv in Hs as [Hs _]. cbn [fmap list_fmap] in Hs.
    pose proof (sorted_last (ver x) (y :: us1) ltac:(done) (sorted_prefix _ (y :: us1) (w :: us2) Hs)).
    change (last_version (x :: y :: us1)) with (last_version (y :: us1)). lia.
Qed.

(** ** Handler and agent together *)
Section together.
Context {St : Type} `{!Datastore St} {view : St → gmap string string} {ok : St → Prop}.
Context `{!DatastoreSpec St view ok}.
Context `{N : NatsConn} {log : nconn → list (string * string)} {up : nconn → Prop} `{!NatsSpec N log up}.
Context `{!Proto K8SResource} `{!Proto K8SResourceUpdate} `{!Proto K8SMetadataMessage} `{!Proto V2CMessage}.
Context `{!ProtoSpec K8SResource} `{!ProtoSpec K8SResourceUpdate} `{!ProtoSpec K8SMetadataMessage} `{!ProtoSpec V2CMessage}.
Context {J : Proto (gmap string bool)} {JS : @ProtoSpec _ J} `{!RequestProto}.
Implicit Types (h : Handler (St := St)) (A : k8s_abs).

Abbreviation hinv := (hinv (view := view) (ok := ok) (log := log) (up := up)).

(** An agent that has the last version of its topic when the handler starts, and
    gets the messages of its topic in order, applies exactly the updates sent to it,
    whatever the events, and ends with the last version of the topic. *)
Theorem agent_applies_live_updates (MergeCIDRs : list string → error + list string)
    (json_labels : gmap string string → string) (ip_order : gmap string (list string) → list (string * list string))
    (node_order lo : gmap string string → list (string * string)) (ko : gmap string bool → list (string * bool))
    l0 V0 fam h A msgs t a :
  (∀ x, ip_order x ≡ₚ map_to_list x) → (∀ x, node_order x ≡ₚ map_to_list x) →
  (∀ x, lo x ≡ₚ map_to_list x) → (∀ x, ko x ≡ₚ map_to_list x) →
  hinv l0 V0 fam h A → a_sent A = [] → events_ok fam h msgs → V0 !! t = Some (current_update_version a) →
  ∃ h' A', processUpdates MergeCIDRs json_labels ip_order node_order lo ko msgs h = (Ret tt, h') ∧
    log (hconn h') = l0 ++ (a_sent A' ≫= wire) ∧
    mds_updates (HandleK8sUpdates (topic_log A' t) a) = mds_updates a ++ topic_log A' t ∧
    a_versions A' !! t = Some (current_update_version (HandleK8sUpdates (topic_log A' t) a)).
Proof using All.
  intros Hio Hno Hlo Hko Hinv Hsent [Hok Hb] HV0.
  destruct (proj1 (wp_run _ _ _) (wp_processUpdates MergeCIDRs json_labels ip_order node_order lo ko Hio Hno Hlo Hko
    l0 V0 fam h A msgs Hinv Hok Hb)) as ([] & h' & E & A' & Hinv' & _).
  exists h', A'. split; [exact E|]. split; [apply Hinv'|].
  destruct (li_chain _ _ _ (hi_log _ _ _ _ _ Hinv') t) as [Hc He]. rewrite HV0 in Hc, He.
  rewrite HandleK8sUpdates_chain by done. cbn [mds_updates current_update_version]. split; [done|]. rewrite <-He.
  unfold chain_end. by destruct (last _).
Qed.

(** C19: An agent that missed updates and holds exactly one later one asks for those in
    between; the answer of the metadata service, in however many batches, makes it apply
    all the stored ones in order and then the one it held: provided that the update
    before the held one is stored, and no update, not even one stored for all topics, is
    stored with a version between these two. *)
Theorem gap_recovered l0 V0 fam h A a u req msg :
  hinv l0 V0 fam h A → update_backlog a = [u] → (0 < current_update_version a)%Z →
  last (requests (RequestMissingMetadata a)) = Some req → Subject msg = MissingMetadataRequestTopic →
  vz_Unmarshal (Data msg) = inr (Some (MissingK8SMetadataRequestMsg req)) →
  good_comp (update_selector a) = true → (ver u ≤ 2 ^ 63)%Z →
  (current_update_version a < ru_PrevUpdateVersion u < ver u)%Z →
  is_Some (stored A (update_selector a) (ru_PrevUpdateVersion u)) →
  (∀ v, (ru_PrevUpdateVersion u < v < ver u)%Z → stored A (update_selector a) v = None) →
  ∃ us bs h', ProcessMessage msg h = (Ret tt, h') ∧
    in_fetch A (update_selector a) (current_update_version a + 1) (ver u) us ∧
    log (hconn h') = log (hconn h) ++ ((λ b, (getK8sUpdateChannel (update_selector a),
      enc (MissingK8SMetadataResponseMsg (mkMissingK8SMetadataResponse b (first_version us) (last_version us))))) <$> bs) ∧
    agent_at (handle_answer (first_version us) (last_version us) bs a) (ver u) [] (mds_updates a ++ relink 0 us ++ [u]).
Proof using All.
  intros Hinv Hq Hcur Hreq Hsub Hdec Hg Hu Hprev Hst Hnone.
  assert (req = mkMissingK8SMetadataRequest (current_update_version a + 1) (ver u) (update_selector a) "") as Ereq.
  { unfold RequestMissingMetadata in Hreq. rewrite Hq in Hreq. cbn [requests] in Hreq. rewrite last_snoc in Hreq.
    injection Hreq as <-. by rewrite (proj2 (Z.eqb_neq _ _)) by lia. }
  assert (request_topic (update_selector a) = update_selector a) as Etop.
  { unfold request_topic. rewrite decide_False; [done|]. intros E. by rewrite E in Hg. }
  destruct (request_answered_in_batches l0 V0 fam h A msg req Hinv Hsub Hdec) as (us & bs & h' & E & _ & Hin & Hl & Hc & Hb);
    rewrite ?Ereq; cbn [mreq_Selector mreq_FromUpdateVersion mreq_ToUpdateVersion]; [by rewrite Etop|lia|lia|].
  rewrite Ereq in Hin, Hl. cbn [mreq_Selector mreq_FromUpdateVersion mreq_ToUpdateVersion] in Hin, Hl. rewrite Etop in Hin.
  replace (request_to h (ver u)) with (ver u) in Hin
    by (unfold request_to; by rewrite (proj2 (Z.eqb_neq _ _)) by lia).
  exists us, bs, h'. split; [exact E|]. split; [done|]. split; [exact Hl|].
  pose proof (in_fetch_sorted _ _ _ _ _ Hin) as Hsort. destruct Hin as [_ Hin].
  destruct Hst as [x Hx].
  assert (∃ w, w ∈ us ∧ ver w = ru_PrevUpdateVersion u) as (w & Hw & Ew).
  { unfold stored in Hx. apply lookup_union_Some_raw in Hx as Hx'.
    assert (stored_ok (Z.to_pos (ru_PrevUpdateVersion u)) x) as (w & -> & Hv & _).
    { destruct Hx' as [Hx'|[_ Hx']]; by apply (li_stored _ _ _ (hi_log _ _ _ _ _ Hinv)) in Hx' as [_ ?]. }
    rewrite Z2Pos.id in Hv by lia. exists w. split; [|done]. apply Hin. rewrite Hv. split_and!; [lia|lia|lia|done]. }
  assert (us ≠ []) as Hne by (by intros ->; apply not_elem_of_nil in Hw).
  apply batches_then_backlog; [done|by eapply Forall_impl; [exact Hb|]; intros b [? _]|done|done|done| |].
  - apply StronglySorted_inv in Hsort as [Hsort _]. pose proof (sorted_le_last us w Hsort Hw) as Hle.
    destruct (last_version_elem us Hne) as (y & Hy & Ey). pose proof (proj1 (Hin y) Hy) as (Hry & _ & Hsy).
    destruct (Z.le_gt_cases (ver y) (ru_PrevUpdateVersion u)) as [?|Hgt]; [lia|]. rewrite Hnone in Hsy by lia. done.
  - left. split; [done|]. destruct us as [|y us]; [done|]. pose proof (proj1 (Hin y) ltac:(by left)). cbn. lia.
Qed.
End together.

(** An update that is stored for every topic but sent to Kelvin only, as service
    updates are, hides the next update from an agent that fetched it: the agent is
    then ahead of the version its topic's next update names, and takes that update
    for a duplicate. *)
Theorem unscoped_update_hides_next V0 A cur t p u w n us :
  log_inv V0 A cur → (0 < p)%Z → a_versions A !! t = Some p → t ≠ KelvinUpdateTopic → t ≠ unscopedTopic →
  ver u = (cur + 1)%Z → ver w = (cur + 2)%Z →
  let A1 := abs_outgoing false (mkOutgoingUpdate u [KelvinUpdateTopic]) A in
  in_fetch A1 t 0 (cur + 2) us →
  let a := HandleMissingK8sMetadataResponse (mkMissingK8SMetadataResponse (relink 0 us) (first_version us) (last_version us))
    (new_agent t n) in
  strip u ∈ us ∧ current_update_version a = (cur + 1)%Z ∧
  ∃ w', last (a_sent (abs_send w t A1)) = Some (t, w') ∧ strip w' = strip w ∧ HandleK8sUpdate w' a = a.
Proof.
  intros Hlog Hp Ht Htk Htu Hu Hw A1 Hin a. pose proof (li_versions _ _ _ Hlog t p Ht) as Hpc.
  assert (strip u ∈ us) as Huin.
  { apply Hin. cbn [with_prev ru_UpdateVersion]. split_and!; [lia|lia|lia|]. unfold A1, abs_outgoing. cbn [ou_Topics ou_Update foldl].
    transitivity (stored (abs_add (ver u) (mkK8SResourceUpdate (Some (strip u))) unscopedTopic A) t (ver u)); [done|].
    rewrite stored_add by lia. rewrite decide_False by (intros [_ ?]; congruence). rewrite decide_True by done.
    destruct (a_updates A t !! Z.to_pos (ver u)) as [x|] eqn:E; [|done].
    apply (li_stored _ _ _ Hlog) in E as [E _]. rewrite Z2Pos.id in E by lia. lia. }
  pose proof (in_fetch_sorted _ _ _ _ _ Hin) as Hsort.
  assert (us ≠ []) as Hne by (by intros E; rewrite E in Huin; apply not_elem_of_nil in Huin).
  assert (last_version us = (cur + 1)%Z) as Hlast.
  { pose proof Hsort as [Hs' _]%StronglySorted_inv. pose proof (sorted_le_last us _ Hs' Huin) as Hle. cbn in Hle.
    destruct (last_version_elem us Hne) as (y & Hy & Ey). pose proof (proj1 (proj2 Hin y) Hy) as (Hry & _ & _). lia. }
  split; [done|].
  assert (current_update_version a = (cur + 1)%Z) as Ha.
  { destruct (response_step (mkMissingK8SMetadataResponse (relink 0 us) (first_version us) (last_version us)) (new_agent t n) []
      (relink 0 us)) with (cur := last_version us) (q' := @nil ResourceUpdate) (ups := relink 0 us) as (E & _); try done.
    - by destruct us.
    - replace (default 0%Z (ru_PrevUpdateVersion <$> head (relink 0 us))) with 0%Z by (by destruct us). by apply relink_chain.
    - left. assert (first_version (relink 0 us) = first_version us) as -> by (by destruct us). split; [done|].
      cbn. by apply sorted_first.
    - split_and!; [cbn; by apply last_version_relink|done|done].
    - fold a in E. by rewrite E, Hlast. }
  split; [done|]. eexists. cbn [abs_send a_sent]. rewrite last_snoc. split; [done|]. split; [done|].
  assert (a_versions A1 !! t = Some p) as ->.
  { unfold A1, abs_outgoing. cbn [ou_Topics ou_Update foldl abs_send a_versions abs_add]. by rewrite lookup_insert_ne. }
  unfold HandleK8sUpdate. cbn [with_prev ru_PrevUpdateVersion default from_option id]. rewrite Ha.
  rewrite (proj2 (Z.eqb_neq _ _)) by lia. by rewrite (proj2 (Z.ltb_lt _ _)) by lia.
Qed.

Import MemRequests.

(** An agent of the node of [A_3] that has applied the version 1 and holds the
    update of version 3. *)
Definition agent_1 : K8sUpdateHandler := mkK8sUpdateHandler "10.0.0.1" 10 1 [with_prev 2 (update_of 3)] true false [] [].
Definition agent_3 : K8sUpdateHandler := mkK8sUpdateHandler "10.0.0.1" 10 3 [] true false [] [].

Lemma agent_applies_live_updates_witness :
  ∃ h h' A', process_1 events_1 h = (Ret tt, h') ∧
    mds_updates (HandleK8sUpdates (topic_log A' "10.0.0.1") agent_3) = topic_log A' "10.0.0.1" ∧
    a_versions A' !! "10.0.0.1" = Some (current_update_version (HandleK8sUpdates (topic_log A' "10.0.0.1") agent_3)).
Proof.
  destruct h_3 as (h & Hinv & Hsent & Hc).
  assert (events_ok true h events_1) as Hev.
  { split; [exact (proj1 events_1_ok)|]. rewrite Hc. reflexivity. }
  destruct (agent_applies_live_updates (view := view) (ok := ok) (log := mem_log) (up := mem_up) (J := count_proto) (λ l, inr l)
    (λ _, "") map_to_list map_to_list map_to_list map_to_list [] (a_versions A_3) true h A_3 events_1 "10.0.0.1" agent_3
    (λ _, reflexivity _) (λ _, reflexivity _) (λ _, reflexivity _) (λ _, reflexivity _) Hinv Hsent Hev eq_refl)
    as (h' & A' & E & _ & Hu & Hv).
  exists h, h', A'. split; [exact E|]. split; [exact Hu|exact Hv].
Defined.

Lemma gap_recovered_witness :
  ∃ h us bs h', ProcessMessage (msg_of (mkMissingK8SMetadataRequest 2 3 "10.0.0.1" "")) h = (Ret tt, h') ∧
    in_fetch A_3 "10.0.0.1" 2 3 us ∧
    agent_at (handle_answer (first_version us) (last_version us) bs agent_1) 3 [] (relink 0 us ++ [with_prev 2 (update_of 3)]).
Proof.
  destruct h_3 as (h & Hinv & _ & _).
  destruct (gap_recovered (view := view) (ok := ok) (log := mem_log) (up := mem_up) (J := count_proto)
    [] (a_versions A_3) true h A_3 agent_1 (with_prev 2 (update_of 3)) (mkMissingK8SMetadataRequest 2 3 "10.0.0.1" "")
    (msg_of (mkMissingK8SMetadataRequest 2 3 "10.0.0.1" "")) Hinv eq_refl) as (us & bs & h' & E & Hin & _ & Ha);
    [done|done|done|apply msg_of_unmarshal|done|done|done|by eexists|intros v; cbn; lia|].
  exists h, us, bs, h'. split; [exact E|]. split; [exact Hin|exact Ha].
Defined.

Lemma unscoped_update_hides_next_witness :
  let A1 := abs_outgoing false (mkOutgoingUpdate (update_of 4) [KelvinUpdateTopic]) A_3 in
  let us := [update_of 1; update_of 2; update_of 4] in
  let a := HandleMissingK8sMetadataResponse (mkMissingK8SMetadataResponse (relink 0 us) 1 4) (new_agent "10.0.0.1" 10) in
  current_update_version a = 4%Z ∧
  ∃ w', last (a_sent (abs_send (update_of 5) "10.0.0.1" A1)) = Some ("10.0.0.1", w') ∧ HandleK8sUpdate w' a = a.
Proof.
  intros A1 us a. assert (in_fetch A1 "10.0.0.1" 0 5 us) as Hin.
  { split; [cbn; repeat constructor|]. intros u. unfold stored, A1, us. split.
    - rewrite !elem_of_cons. intros [->|[->|[->|?%not_elem_of_nil]]]; split_and!; done.
    - intros (Hr & Hp & E). destruct u as [x v p]. cbn [ru_UpdateVersion] in *.
      assert (v = 1 ∨ v = 2 ∨ v = 3 ∨ v = 4)%Z as Hv by lia. rewrite !elem_of_cons.
      destruct Hv as [->|[->|[->| ->]]]; vm_compute in E; simplify_eq; eauto. }
  destruct (unscoped_update_hides_next (a_versions A_3) A_3 3 "10.0.0.1" 3 (update_of 4) (update_of 5) 10 us log_inv_3
    eq_refl eq_refl ltac:(done) ltac:(done) eq_refl eq_refl Hin) as (_ & Hc & w' & Hl & _ & Hw).
  split; [exact Hc|]. exists w'. split; [exact Hl|exact Hw].
Defined.
