(* ===== verification/TracepointStore.v ===== *)
(** * The tracepoint store

    [controllers/tracepoint/tracepoint_store.go]: dynamic tracepoints, the names
    that refer to them, their times to live and the states the agents report,
    all kept in the datastore. *)

From S2P Require Import Prelude GoLib Datastore Uuid Messages StoreLib.
From Stdlib Require Import Ascii.

(** ** Messages *)

Inductive SelectorType : Type := NO_CONDITION | MAX_KERNEL | MIN_KERNEL | HOST_NAME.

Record TracepointSelector := mkTracepointSelector { sel_SelectorType : SelectorType; sel_Value : string }.

(** The program text is only compared and forwarded here: it is the wire form of
    the [TracepointSpec] or [BPFTrace] message. *)
Record TracepointProgram := mkTracepointProgram {
  tpp_TableName : string;
  tpp_Spec : option string;
  tpp_BPFTrace : option string;
  tpp_Selectors : list TracepointSelector
}.

Record LabelSelector := mkLabelSelector {
  ls_Labels : gmap string string;
  ls_Namespace : string;
  ls_Container : string;
  ls_Process : string
}.

(** The target oneof of [DeploymentSpec]; the wire form of the targets that are
    only forwarded. *)
Inductive DeploymentSpec : Type :=
| TargetUnset
| TargetUPID (upid : string)
| TargetSharedObject (so : string)
| TargetPodProcess (pods : list string) (container process : string)
| TargetLabelSelector (ls : LabelSelector).

Record TracepointDeployment := mkTracepointDeployment {
  td_Name : string;
  td_TTL : option (Z * Z);
  td_DeploymentSpec : option DeploymentSpec;
  td_Programs : list (option TracepointProgram)
}.

Record TracepointInfo := mkTracepointInfo {
  tp_ID : option UUIDpb;
  tp_Tracepoint : option TracepointDeployment;
  tp_Name : string;
  tp_ExpectedState : LifeCycleState
}.

Record AgentTracepointStatus := mkAgentTracepointStatus {
  ats_State : LifeCycleState;
  ats_Status : option Status;
  ats_ID : option UUIDpb;
  ats_AgentID : option UUIDpb
}.

#[export] Instance SelectorType_eq_dec : EqDecision SelectorType.
Proof. solve_decision. Defined.
#[export] Instance TracepointSelector_eq_dec : EqDecision TracepointSelector.
Proof. solve_decision. Defined.
#[export] Instance TracepointProgram_eq_dec : EqDecision TracepointProgram.
Proof. solve_decision. Defined.

(** ** Operations *)

Definition tracepointsPrefix : string := "/tracepoint/".
Definition tracepointStatesPrefix : string := "/tracepointStates/".
Definition tracepointTTLsPrefix : string := "/tracepointTTL/".
Definition tracepointNamesPrefix : string := "/tracepointName/".

(** Thirty days, the expiry assumed for a value that is not a time. *)
Definition defaultExpiry : Z := 30 * 24 * 3600 * nanos.

Section store.
Context {St : Type} `{!Datastore St} `{U : UUIDLib}.
Context `{!Proto TracepointInfo} `{!Proto AgentTracepointStatus} `{!Proto UUIDpb}.

Definition getTracepointWithNameKey (tracepointName : string) : string :=
  path_Join [tracepointNamesPrefix; tracepointName].
Definition getTracepointKey (tracepointID : uuid) : string :=
  path_Join [tracepointsPrefix; uuid_String tracepointID].
Definition getTracepointStatesKey (tracepointID : uuid) : string :=
  path_Join [tracepointStatesPrefix; uuid_String tracepointID].
Definition getTracepointStateKey (tracepointID agentID : uuid) : string :=
  path_Join [tracepointStatesPrefix; uuid_String tracepointID; uuid_String agentID].
Definition getTracepointTTLKey (tracepointID : uuid) : string :=
  path_Join [tracepointTTLsPrefix; uuid_String tracepointID].

(** One goroutine of the error group per key: each reads and parses a value.  The
    reads are independent, so they are taken in order; the first error ends the
    group. *)
Fixpoint get_each {X} `{!Proto X} (keys : list string) : M St (list (option X)) :=
  match keys with
  | [] => mret []
  | k :: keys =>
    val ← ds_Get k;
    x ← (match val with
         | None => mret None
         | Some v => x ← lift_sum (Unmarshal v); mret (Some x)
         end);
    xs ← get_each keys;
    mret (x :: xs)
  end.

Definition ids_of (pbs : list (option UUIDpb)) : list (option uuid) :=
  option_map (λ pb, UUIDFromProtoOrNil (Some pb)) <$> pbs.

Definition GetTracepointsWithNames (tracepointNames : list string) : M St (list (option uuid)) :=
  pbs ← get_each (X := UUIDpb) (getTracepointWithNameKey <$> tracepointNames);
  mret (ids_of pbs).

Definition SetTracepointWithName (tracepointName : string) (tracepointID : uuid) : M St unit :=
  val ← lift_sum (Marshal (ProtoFromUUID tracepointID));
  ds_Set (getTracepointWithNameKey tracepointName) val.

Definition UpsertTracepoint (tracepointID : uuid) (tracepointInfo : TracepointInfo) : M St unit :=
  val ← lift_sum (Marshal tracepointInfo);
  ds_Set (getTracepointKey tracepointID) val.

Definition DeleteTracepoint (tracepointID : uuid) : M St unit :=
  _ ← ds_DeleteAll [getTracepointKey tracepointID];
  ds_DeleteWithPrefix (getTracepointStatesKey tracepointID).

Definition GetTracepoint (tracepointID : uuid) : M St (option TracepointInfo) :=
  resp ← ds_Get (getTracepointKey tracepointID);
  match resp with
  | None => mret None
  | Some v => tp ← lift_sum (Unmarshal v); mret (Some tp)
  end.

Definition GetTracepoints : M St (list (option TracepointInfo)) :=
  kvs ← ds_GetWithPrefix tracepointsPrefix;
  mret (decode_each kvs.2).

Definition GetTracepointsForIDs (ids : list uuid) : M St (list (option TracepointInfo)) :=
  get_each (getTracepointKey <$> ids).

Definition UpdateTracepointState (state : AgentTracepointStatus) : M St unit :=
  val ← lift_sum (Marshal state);
  let tpID := UUIDFromProtoOrNil (ats_ID state) in
  ds_Set (getTracepointStateKey tpID (UUIDFromProtoOrNil (ats_AgentID state))) val.

Definition GetTracepointStates (tracepointID : uuid) : M St (list (option AgentTracepointStatus)) :=
  kvs ← ds_GetWithPrefix (getTracepointStatesKey tracepointID);
  mret (decode_each kvs.2).

Definition SetTracepointTTL (now : gotime) (tracepointID : uuid) (ttl : Z) : M St unit :=
  let expiresAt := time_Add now ttl in
  encodedExpiry ← lift_sum (time_MarshalBinary expiresAt);
  ds_SetWithTTL (getTracepointTTLKey tracepointID) encodedExpiry ttl.

Definition DeleteTracepointTTLs (ids : list uuid) : M St unit :=
  ds_DeleteAll (getTracepointTTLKey <$> ids).

(** The keys of the loop; an entry that did not parse is a nil pointer. *)
Fixpoint state_keys (tps : list (option TracepointInfo)) (agentID : uuid) : M St (list string) :=
  match tps with
  | [] => mret []
  | tp :: tps =>
    tp ← deref tp;
    ks ← state_keys tps agentID;
    mret (getTracepointStateKey (UUIDFromProtoOrNil (tp_ID tp)) agentID :: ks)
  end.

Definition DeleteTracepointsForAgent (agentID : uuid) : M St unit :=
  tps ← GetTracepoints;
  delKeys ← state_keys tps agentID;
  ds_DeleteAll delKeys.

(** The identifiers and expiry times (in nanoseconds) of the TTL keys. *)
Fixpoint collect_ttls (now : gotime) (keys vals : list string) : M St (list (uuid * Z)) :=
  match keys with
  | [] => mret []
  | k :: keys =>
    let '(v, vals) := match vals with [] => (None, []) | v :: vals => (Some v, vals) end in
    match split "/" k with
    | [_; _; part] =>
      match uuid_FromString part with
      | inl _ => collect_ttls now keys vals
      | inr id =>
        v ← (match v with Some v => mret v | None => panic IndexOutOfRange end);
        let expiresAt := match time_UnmarshalBinary v with
                         | inr t => t
                         | inl _ => t_ns (time_Add now defaultExpiry)
                         end in
        rest ← collect_ttls now keys vals;
        mret ((id, expiresAt) :: rest)
      end
    | _ => collect_ttls now keys vals
    end
  end.

Definition GetTracepointTTLs (now : gotime) : M St (list (uuid * Z)) :=
  kvs ← ds_GetWithPrefix tracepointTTLsPrefix;
  collect_ttls now kvs.1 kvs.2.
End store.

(** ** Keys *)
Section keys.
Context `{U : UUIDLib} `{!UUIDSpec U}.
Implicit Types id : uuid.

Lemma getTracepointKey_dkey id : getTracepointKey id = dkey "tracepoint" id.
Proof.
  apply (path_Join_dir "tracepoint/" ["tracepoint"]); [done|by repeat constructor|].
  repeat constructor. apply good_comp_uuid.
Qed.

Lemma getTracepointTTLKey_dkey id : getTracepointTTLKey id = dkey "tracepointTTL" id.
Proof.
  apply (path_Join_dir "tracepointTTL/" ["tracepointTTL"]); [done|by repeat constructor|].
  repeat constructor. apply good_comp_uuid.
Qed.

Lemma getTracepointStatesKey_dkey id : getTracepointStatesKey id = dkey "tracepointStates" id.
Proof.
  apply (path_Join_dir "tracepointStates/" ["tracepointStates"]); [done|by repeat constructor|].
  repeat constructor. apply good_comp_uuid.
Qed.

Lemma getTracepointStateKey_mkkey id a :
  getTracepointStateKey id a = mkkey ["tracepointStates"; uuid_String id; uuid_String a].
Proof.
  apply (path_Join_dir "tracepointStates/" ["tracepointStates"]); [done|by repeat constructor|].
  repeat constructor; apply good_comp_uuid.
Qed.

Lemma getTracepointWithNameKey_mkkey name :
  good_comp name = true → getTracepointWithNameKey name = mkkey ["tracepointName"; name].
Proof. intros Hn. apply (path_Join_dir "tracepointName/" ["tracepointName"]); by repeat constructor. Qed.

Lemma split_state_key id a :
  split "/" (getTracepointStateKey id a) = [""; "tracepointStates"; uuid_String id; uuid_String a].
Proof.
  rewrite getTracepointStateKey_mkkey, split_mkkey; [done|done|].
  apply Forall_cons. split; [done|]. apply Forall_cons. split; [apply uuid_no_sep|].
  apply Forall_singleton, uuid_no_sep.
Qed.

Lemma state_key_inj id id' a a' :
  getTracepointStateKey id a = getTracepointStateKey id' a' → id = id' ∧ a = a'.
Proof.
  intros E%(f_equal (split "/")). rewrite !split_state_key in E. injection E as E1 E2.
  split; by apply uuid_String_inj.
Qed.

#[export] Instance state_key_inj_agent id : Inj (=) (=) (getTracepointStateKey id).
Proof. intros a a' E. by apply state_key_inj in E as [_ ?]. Qed.

Lemma state_key_prefix id a : HasPrefix (getTracepointStateKey id a) (getTracepointStatesKey id) = true.
Proof.
  rewrite getTracepointStateKey_mkkey, getTracepointStatesKey_dkey. apply HasPrefix_spec.
  exists ("/" +:+ uuid_String a). unfold dkey, mkkey. rewrite !join_cons2, !str_app_assoc. done.
Qed.

(** A key below the states of a tracepoint: its directory, and whose states. *)
Lemma states_prefix_split k id :
  HasPrefix k (getTracepointStatesKey id) = true →
  ∃ t ts, split "/" k = "" :: "tracepointStates" :: (uuid_String id +:+ t) :: ts.
Proof.
  rewrite getTracepointStatesKey_dkey. intros Hp.
  destruct (split_prefix k ["tracepointStates"] (uuid_String id)) as (t & ts & E); [|done|by exists t, ts].
  by apply dkey_comps.
Qed.

Lemma states_prefix_dir k id :
  HasPrefix k (getTracepointStatesKey id) = true → key_dir k = "tracepointStates".
Proof. intros (t & ts & E)%states_prefix_split. unfold key_dir. by rewrite E. Qed.

Lemma states_prefix_inj id id' a :
  HasPrefix (getTracepointStateKey id a) (getTracepointStatesKey id') = true → id = id'.
Proof.
  intros (t & ts & E)%states_prefix_split. rewrite split_state_key in E. injection E as E _.
  apply uuid_String_inj. rewrite E. apply (f_equal String.length) in E.
  rewrite length_str_app, !uuid_String_length in E. destruct t; [by rewrite str_app_nil_r|simpl in E; lia].
Qed.

Lemma user_key_states id : user_key (getTracepointStatesKey id) = true.
Proof. rewrite getTracepointStatesKey_dkey. apply user_key_mkkey. Qed.

Lemma key_dir_name name : good_comp name = true → key_dir (getTracepointWithNameKey name) = "tracepointName".
Proof.
  intros Hn. rewrite getTracepointWithNameKey_mkkey by done. apply key_dir_mkkey.
  apply Forall_cons. split; [done|]. apply Forall_singleton. by apply good_comp_spec in Hn as [? _].
Qed.

Lemma name_key_inj n n' :
  good_comp n = true → good_comp n' = true → getTracepointWithNameKey n = getTracepointWithNameKey n' → n = n'.
Proof.
  intros Hn Hn'. rewrite !getTracepointWithNameKey_mkkey by done. intros E.
  apply mkkey_inj in E; [by injection E|done|done|..];
    (apply Forall_cons; split; [done|]; apply Forall_singleton).
  - by apply good_comp_spec in Hn as [? _].
  - by apply good_comp_spec in Hn' as [? _].
Qed.
End keys.

(** ** What the store holds *)

(** The expiry of a TTL entry. *)
Definition time_proto : Proto Z :=
  {| Marshal t := time_MarshalBinary (mkTime t None); Unmarshal := time_UnmarshalBinary |}.

Record tp_abs `{U : UUIDLib} := mkTpAbs {
  ta_tps : gmap uuid TracepointInfo;
  ta_names : gmap string uuid;
  ta_ttls : gmap uuid Z;
  ta_states : gmap uuid (gmap uuid AgentTracepointStatus)
}.
Arguments mkTpAbs {U} _ _ _ _.

Section rep.
Context {St : Type} `{!Datastore St} {view : St → gmap string string} {ok : St → Prop}.
Context `{!DatastoreSpec St view ok} `{U : UUIDLib} `{!UUIDSpec U}.
Context `{!Proto TracepointInfo} `{!Proto AgentTracepointStatus} `{!Proto UUIDpb}.
Context `{!ProtoSpec TracepointInfo} `{!ProtoSpec AgentTracepointStatus} `{!ProtoSpec UUIDpb}.
Implicit Types (s : St) (id : uuid) (m : gmap string string) (A : tp_abs).

Definition states_of A id : gmap uuid AgentTracepointStatus := default ∅ (ta_states A !! id).

(** A stored tracepoint carries its own identifier, and a deployment. *)
Definition info_ok id (tp : TracepointInfo) : Prop :=
  tp_ID tp = Some (ProtoFromUUID id) ∧ good_uuid_pb (ProtoFromUUID id) ∧ is_Some (tp_Tracepoint tp).

Definition tps_rep m (T : gmap uuid TracepointInfo) : Prop :=
  keyed_rep (dkey "tracepoint") tracepointsPrefix m T ∧ map_Forall info_ok T.

Definition names_rep m (N : gmap string uuid) : Prop :=
  ∀ name, good_comp name = true →
    match N !! name with
    | Some id => good_uuid_pb (ProtoFromUUID id) ∧ ∃ b, m !! getTracepointWithNameKey name = Some b ∧
        Unmarshal b = inr (ProtoFromUUID id)
    | None => m !! getTracepointWithNameKey name = None
    end.

Definition ttls_rep m (T : gmap uuid Z) : Prop :=
  @keyed_rep uuid _ _ Z time_proto (dkey "tracepointTTL") tracepointTTLsPrefix m T.

Definition states_rep m A : Prop :=
  ∀ id, keyed_rep (getTracepointStateKey id) (getTracepointStatesKey id) m (states_of A id).

Record tp_rep_map m A : Prop := {
  rep_tps : tps_rep m (ta_tps A);
  rep_names : names_rep m (ta_names A);
  rep_ttls : ttls_rep m (ta_ttls A);
  rep_states : states_rep m A
}.

Definition tp_rep s A : Prop := ok s ∧ tp_rep_map (view s) A.

(** Agreement on one directory. *)
Definition agree (d : string) m m' : Prop := ∀ k, key_dir k = d → m' !! k = m !! k.

Lemma tps_key_prefix id : HasPrefix (dkey "tracepoint" id) tracepointsPrefix = true.
Proof. by apply (HasPrefix_dkey "tracepoint"). Qed.
Lemma ttl_key_prefix id : HasPrefix (dkey "tracepointTTL" id) tracepointTTLsPrefix = true.
Proof. by apply (HasPrefix_dkey "tracepointTTL"). Qed.
Lemma dkey_Inj d : good_comp d = true → Inj (=) (=) (dkey d).
Proof. intros Hd id id'. by apply dkey_inj. Qed.

Lemma tps_frame m m' T : agree "tracepoint" m m' → tps_rep m T → tps_rep m' T.
Proof.
  intros Hf [HT Hok]. split; [|done]. eapply keyed_frame; [apply tps_key_prefix| |exact HT].
  intros k Hk. apply Hf. by apply (HasPrefix_dir k "tracepoint").
Qed.

Lemma names_frame m m' N : agree "tracepointName" m m' → names_rep m N → names_rep m' N.
Proof. intros Hf HN name Hn. rewrite Hf by (by apply key_dir_name). by apply HN. Qed.

Lemma ttls_frame m m' T : agree "tracepointTTL" m m' → ttls_rep m T → ttls_rep m' T.
Proof.
  intros Hf HT. eapply keyed_frame; [apply ttl_key_prefix| |exact HT].
  intros k Hk. apply Hf. by apply (HasPrefix_dir k "tracepointTTL").
Qed.

Lemma states_frame m m' A : agree "tracepointStates" m m' → states_rep m A → states_rep m' A.
Proof.
  intros Hf HS id. eapply keyed_frame; [apply state_key_prefix| |exact (HS id)].
  intros k Hk. apply Hf. by eapply states_prefix_dir.
Qed.

Lemma agree_insert d k v m : key_dir k ≠ d → agree d m (<[k := v]> m).
Proof. intros Hk k' <-. apply lookup_insert_ne. by intros <-. Qed.

(** ** Abstract updates *)

Definition set_tp id tp A : tp_abs := mkTpAbs (<[id := tp]> (ta_tps A)) (ta_names A) (ta_ttls A) (ta_states A).
Definition set_name (name : string) id A : tp_abs :=
  mkTpAbs (ta_tps A) (<[name := id]> (ta_names A)) (ta_ttls A) (ta_states A).
Definition set_ttl id (t : Z) A : tp_abs :=
  mkTpAbs (ta_tps A) (ta_names A) (<[id := t]> (ta_ttls A)) (ta_states A).
Definition drop_ttls (ids : list uuid) A : tp_abs :=
  mkTpAbs (ta_tps A) (ta_names A) (foldl (λ T id, delete id T) (ta_ttls A) ids) (ta_states A).
Definition set_state id agent st A : tp_abs :=
  mkTpAbs (ta_tps A) (ta_names A) (ta_ttls A) (<[id := <[agent := st]> (states_of A id)]> (ta_states A)).
Definition remove_tp id A : tp_abs :=
  mkTpAbs (delete id (ta_tps A)) (ta_names A) (ta_ttls A) (delete id (ta_states A)).

(** ** Reads *)

Lemma GetTracepoint_spec s A id : tp_rep s A → GetTracepoint id s = (Ret (ta_tps A !! id), s).
Proof.
  intros [Hok HR]. unfold GetTracepoint. rewrite getTracepointKey_dkey.
  run_with (spec_Get s (dkey "tracepoint" id) Hok (user_key_mkkey _)).
  destruct (rep_tps _ _ HR) as [HT _]. destruct (ta_tps A !! id) as [tp|] eqn:E.
  - destruct (keyed_Some _ _ _ _ _ _ HT E) as (b & -> & Hb). by run_with (lift_sum_ret _ _ s Hb).
  - by rewrite (keyed_None _ _ _ _ _ HT E).
Qed.

Lemma GetTracepoints_spec s A :
  tp_rep s A → ∃ l, GetTracepoints s = (Ret (Some <$> l), s) ∧ l ≡ₚ (map_to_list (ta_tps A)).*2.
Proof.
  intros [Hok HR]. unfold GetTracepoints. run_with (spec_GetWithPrefix s tracepointsPrefix Hok eq_refl).
  destruct (rep_tps _ _ HR) as [HT _].
  destruct (keyed_decode _ _ tps_key_prefix (Inj0 := dkey_Inj "tracepoint" eq_refl) (view s) _ HT)
    as (l & -> & Hl). by exists l.
Qed.

Lemma GetTracepointStates_spec s A id :
  tp_rep s A →
  ∃ l, GetTracepointStates id s = (Ret (Some <$> l), s) ∧ l ≡ₚ (map_to_list (states_of A id)).*2.
Proof.
  intros [Hok HR]. unfold GetTracepointStates.
  run_with (spec_GetWithPrefix s _ Hok (user_key_states id)).
  destruct (keyed_decode _ _ (state_key_prefix id) (view s) _ (rep_states _ _ HR id)) as (l & -> & Hl).
  by exists l.
Qed.

Lemma GetTracepointsWithNames_spec s A names :
  tp_rep s A → Forall (λ n, good_comp n = true) names →
  GetTracepointsWithNames names s = (Ret ((λ n, ta_names A !! n) <$> names), s).
Proof.
  intros [Hok HR] Hn. unfold GetTracepointsWithNames.
  assert (∃ pbs, get_each (X := UUIDpb) (getTracepointWithNameKey <$> names) s = (Ret pbs, s) ∧
    ids_of pbs = (λ n, ta_names A !! n) <$> names) as (pbs & E & <-); [|by run_with E].
  induction Hn as [|n names Hg _ (pbs & IH & Hids)]; [by exists []|].
  pose proof (rep_names _ _ HR n Hg) as HN. rewrite fmap_cons. cbn [get_each].
  rewrite (bind_ret _ _ _ _ _ (spec_Get s (getTracepointWithNameKey n) Hok
    ltac:(rewrite getTracepointWithNameKey_mkkey by done; apply user_key_mkkey))).
  destruct (ta_names A !! n) as [id|] eqn:En.
  - destruct HN as (Hgood & b & -> & Hb). exists (Some (ProtoFromUUID id) :: pbs). split.
    + run_with (bind_ret (lift_sum (Unmarshal (A := UUIDpb) b)) (λ x, mret (Some x)) s (ProtoFromUUID id) s
        (lift_sum_ret _ _ s Hb)). by run_with IH.
    + unfold ids_of. rewrite fmap_cons. fold (ids_of pbs). rewrite Hids, fmap_cons, En. f_equal. simpl.
      unfold UUIDFromProtoOrNil. by rewrite UUIDFromProto_ProtoFromUUID.
  - rewrite HN. exists (None :: pbs). split.
    { rewrite (bind_ret (mret None) _ s None s eq_refl). by run_with IH. }
    unfold ids_of. rewrite fmap_cons. fold (ids_of pbs). by rewrite Hids, fmap_cons, En.
Qed.

Lemma collect_ttls_spec now m (T : gmap uuid Z) ids s :
  ttls_rep m T → (∀ id, id ∈ ids → is_Some (T !! id)) →
  collect_ttls now (dkey "tracepointTTL" <$> ids) (lookup_values m (dkey "tracepointTTL" <$> ids)) s =
    (Ret (omap (λ id, pair id <$> T !! id) ids), s).
Proof.
  intros HT. induction ids as [|id ids IH]; intros Hids; [done|].
  destruct (Hids id) as [t Ht]; [by left|].
  destruct (keyed_Some (H := uuid_countable) _ _ _ _ _ _ HT Ht) as (b & Hb & Hu).
  rewrite fmap_cons. unfold lookup_values. rewrite fmap_cons.
  fold (lookup_values m (dkey "tracepointTTL" <$> ids)).
  cbn [collect_ttls]. rewrite split_dkey by done. rewrite uuid_FromString_String, Hb. cbn [default from_option Datatypes.id].
  rewrite (bind_ret (mret b) _ s b s eq_refl). change (time_UnmarshalBinary b = inr t) in Hu. rewrite Hu.
  erewrite bind_ret; [|apply IH; intros j Hj; apply Hids; by right]. cbn. by rewrite Ht.
Qed.

Lemma GetTracepointTTLs_spec s A now :
  tp_rep s A → ∃ l, GetTracepointTTLs now s = (Ret l, s) ∧ l ≡ₚ map_to_list (ta_ttls A).
Proof.
  intros [Hok HR]. unfold GetTracepointTTLs.
  run_with (spec_GetWithPrefix s tracepointTTLsPrefix Hok eq_refl).
  pose proof (rep_ttls _ _ HR) as HT.
  destruct (keyed_listing _ _ ttl_key_prefix (Inj0 := dkey_Inj "tracepointTTL" eq_refl) (view s) _ HT)
    as (ids & Hk & Hnd & Hids).
  change ((kv_prefix (view s) tracepointTTLsPrefix).2)
    with (lookup_values (view s) (kv_prefix (view s) tracepointTTLsPrefix).1).
  rewrite Hk, (collect_ttls_spec now (view s) (ta_ttls A)) by naive_solver.
  eexists. split; [done|]. apply NoDup_Permutation; [|apply NoDup_map_to_list|].
  - assert (∀ l, NoDup l → NoDup (omap (λ id, pair id <$> ta_ttls A !! id) l)) as H; [|by apply H].
    induction 1 as [|id l Hid _ IH]; [constructor|]. simpl. destruct (ta_ttls A !! id) eqn:E; [|done].
    apply NoDup_cons. split; [|done]. rewrite list_elem_of_omap. intros (id' & Hin & Hid').
    destruct (ta_ttls A !! id'); [|done]. by injection Hid' as -> _.
  - intros [id t]. rewrite list_elem_of_omap, elem_of_map_to_list. split.
    + intros (id' & _ & Hid'). destruct (ta_ttls A !! id') eqn:E; [|done]. by injection Hid' as -> ->.
    + intros Ht. exists id. split; [apply Hids; eauto|]. by rewrite Ht.
Qed.

(** ** Writes *)

Ltac dirs := first [done | by rewrite key_dir_dkey | by rewrite key_dir_name].

Lemma UpsertTracepoint_spec s A id tp :
  tp_rep s A → info_ok id tp → wp (UpsertTracepoint id tp) (λ _ s', tp_rep s' (set_tp id tp A)) s.
Proof.
  intros [Hok HR] Htp. unfold UpsertTracepoint. destruct (proto_roundtrip tp) as (b & -> & Hb).
  wp_steps. rewrite getTracepointKey_dkey. apply wp_Set; [done|apply user_key_mkkey|].
  intros s' Hok' Hv. split; [done|]. rewrite Hv. destruct HR as [[HT HTok] HN HL HS].
  split; cbn [ta_tps ta_names ta_ttls set_tp].
  - split; [|by apply map_Forall_insert_2]. apply keyed_insert; [by apply dkey_Inj|done|done].
  - eapply names_frame; [apply agree_insert; dirs|done].
  - eapply ttls_frame; [apply agree_insert; dirs|done].
  - eapply states_frame; [apply agree_insert; dirs|done].
Qed.

Lemma SetTracepointWithName_spec s A name id :
  tp_rep s A → good_comp name = true → good_uuid_pb (ProtoFromUUID id) →
  wp (SetTracepointWithName name id) (λ _ s', tp_rep s' (set_name name id A)) s.
Proof.
  intros [Hok HR] Hn Hg. unfold SetTracepointWithName.
  destruct (proto_roundtrip (ProtoFromUUID id)) as (b & -> & Hb). wp_steps.
  apply wp_Set; [done|rewrite getTracepointWithNameKey_mkkey by done; apply user_key_mkkey|].
  intros s' Hok' Hv. split; [done|]. rewrite Hv. destruct HR as [HT HN HL HS]. split; cbn [ta_tps ta_names ta_ttls set_name set_ttl].
  - eapply tps_frame; [apply agree_insert; dirs|done].
  - intros n Hgn. destruct (decide (n = name)) as [->|Hne]; [rewrite !lookup_insert_eq; eauto|].
    rewrite !lookup_insert_ne by (done || by intros ?%name_key_inj). by apply HN.
  - eapply ttls_frame; [apply agree_insert; dirs|done].
  - eapply states_frame; [apply agree_insert; dirs|done].
Qed.

Lemma SetTracepointTTL_spec s A now id ttl :
  tp_rep s A → zone_encodable now → time_in_range (time_Add now ttl) →
  wp (SetTracepointTTL now id ttl) (λ _ s', tp_rep s' (set_ttl id (t_ns now + ttl) A)) s.
Proof.
  intros [Hok HR] Hz Hr. unfold SetTracepointTTL.
  destruct (time_roundtrip (time_Add now ttl)) as (b & -> & Hb); [exact Hz|done|]. wp_steps.
  rewrite getTracepointTTLKey_dkey. apply wp_SetWithTTL; [done|apply user_key_mkkey|].
  intros s' Hok' Hv. split; [done|]. rewrite Hv. destruct HR as [HT HN HL HS]. split; cbn [ta_tps ta_names ta_ttls set_name set_ttl].
  - eapply tps_frame; [apply agree_insert; dirs|done].
  - eapply names_frame; [apply agree_insert; dirs|done].
  - apply (keyed_insert (Proto0 := time_proto) (H := uuid_countable)); [by apply dkey_Inj|done|done].
  - eapply states_frame; [apply agree_insert; dirs|done].
Qed.

Lemma agree_delete_keys d ks m : Forall (λ k, key_dir k ≠ d) ks → agree d m (delete_keys ks m).
Proof.
  intros Hks k Hk. rewrite lookup_delete_keys. destruct (decide (k ∈ ks)) as [Hin|]; [|done].
  by apply (proj1 (Forall_forall _ _) Hks k Hin) in Hk.
Qed.

Lemma lookup_drop_ttls ids (T : gmap uuid Z) id :
  foldl (λ T id, delete id T) T ids !! id = if decide (id ∈ ids) then None else T !! id.
Proof.
  revert T. induction ids as [|j ids IH]; intros T; [done|]. cbn [foldl]. rewrite IH.
  destruct (decide (id ∈ ids)); [by rewrite decide_True by set_solver|].
  destruct (decide (id = j)) as [->|].
  - by rewrite decide_True, lookup_delete_eq by set_solver.
  - by rewrite decide_False, lookup_delete_ne by set_solver.
Qed.

Lemma DeleteTracepointTTLs_spec s A ids :
  tp_rep s A → wp (DeleteTracepointTTLs ids) (λ _ s', tp_rep s' (drop_ttls ids A)) s.
Proof.
  intros [Hok HR]. unfold DeleteTracepointTTLs.
  assert (getTracepointTTLKey <$> ids = dkey "tracepointTTL" <$> ids) as ->.
  { apply list_fmap_ext. intros _ id _. apply getTracepointTTLKey_dkey. }
  apply wp_DeleteAll; [done|apply Forall_fmap, Forall_forall; intros id _; apply user_key_mkkey|].
  intros s' Hok' Hv. split; [done|]. rewrite Hv. destruct HR as [HT HN HL HS].
  assert (∀ d, "tracepointTTL" ≠ d → agree d (view s) (delete_keys (dkey "tracepointTTL" <$> ids) (view s))) as Hag.
  { intros d Hd. apply agree_delete_keys, Forall_fmap, Forall_forall. intros id _. simpl.
    by rewrite key_dir_dkey. }
  split; cbn [ta_tps ta_names ta_ttls drop_ttls].
  - eapply tps_frame; [by apply Hag|done].
  - eapply names_frame; [by apply Hag|done].
  - split.
    + intros id. rewrite lookup_drop_ttls, lookup_delete_keys. destruct (decide (id ∈ ids)) as [Hin|Hn].
      * by rewrite decide_True by (by apply list_elem_of_fmap_2).
      * rewrite decide_False; [apply (proj1 HL)|]. intros (j & E & Hj)%list_elem_of_fmap.
        by apply (dkey_inj "tracepointTTL" eq_refl) in E as ->.
    + intros k Hk. rewrite lookup_delete_keys. destruct (decide _); [by intros [? ?]|]. by apply (proj2 HL).
  - eapply states_frame; [by apply Hag|done].
Qed.

Lemma states_of_insert A id S id' :
  states_of (mkTpAbs (ta_tps A) (ta_names A) (ta_ttls A) (<[id := S]> (ta_states A))) id' =
    if decide (id' = id) then S else states_of A id'.
Proof.
  unfold states_of. simpl. destruct (decide (id' = id)) as [->|]; [by rewrite lookup_insert_eq|].
  by rewrite lookup_insert_ne.
Qed.

Lemma UpdateTracepointState_spec s A st id agent :
  tp_rep s A → UUIDFromProtoOrNil (ats_ID st) = id → UUIDFromProtoOrNil (ats_AgentID st) = agent →
  wp (UpdateTracepointState st) (λ _ s', tp_rep s' (set_state id agent st A)) s.
Proof.
  intros [Hok HR] Hid Hag. unfold UpdateTracepointState. rewrite Hid, Hag.
  destruct (proto_roundtrip st) as (b & -> & Hb). apply wp_bind, wp_lift_inr.
  assert (key_dir (getTracepointStateKey id agent) = "tracepointStates") as Hdir.
  { unfold key_dir. by rewrite split_state_key. }
  apply wp_Set; [done|rewrite getTracepointStateKey_mkkey; apply user_key_mkkey|].
  intros s' Hok' Hv. split; [done|]. rewrite Hv. destruct HR as [HT HN HL HS].
  split; cbn [ta_tps ta_names ta_ttls set_state].
  - eapply tps_frame; [apply agree_insert; by rewrite Hdir|done].
  - eapply names_frame; [apply agree_insert; by rewrite Hdir|done].
  - eapply ttls_frame; [apply agree_insert; by rewrite Hdir|done].
  - intros id'. unfold set_state. rewrite states_of_insert. destruct (decide (id' = id)) as [->|Hne].
    + apply keyed_insert; [apply state_key_inj_agent|apply HS|done].
    + eapply keyed_frame; [apply state_key_prefix| |apply HS]. intros k Hk. apply lookup_insert_ne.
      intros <-. by apply states_prefix_inj in Hk.
Qed.

Lemma DeleteTracepoint_spec s A id :
  tp_rep s A → wp (DeleteTracepoint id) (λ _ s', tp_rep s' (remove_tp id A)) s.
Proof.
  intros [Hok HR]. unfold DeleteTracepoint. apply wp_bind. rewrite getTracepointKey_dkey.
  apply wp_DeleteAll; [done|apply Forall_singleton, user_key_mkkey|]. intros s1 Hok1 Hv1.
  apply wp_DeleteWithPrefix; [done|apply user_key_states|]. intros s2 Hok2 Hv2. split; [done|].
  assert (∀ k, view s2 !! k = if HasPrefix k (getTracepointStatesKey id) then None
    else if decide (k = dkey "tracepoint" id) then None else view s !! k) as Hv.
  { intros k. rewrite Hv2, lookup_delete_prefix, Hv1, lookup_delete_keys.
    destruct (HasPrefix _ _); [done|]. destruct (decide (k = dkey "tracepoint" id)) as [->|].
    - by rewrite decide_True by (by left).
    - by rewrite decide_False by (by intros ->%list_elem_of_singleton). }
  assert (∀ d, d ≠ "tracepointStates" → d ≠ "tracepoint" → agree d (view s) (view s2)) as Hag.
  { intros d H1 H2 k Hk. rewrite Hv. destruct (HasPrefix k _) eqn:E; [by apply states_prefix_dir in E; congruence|].
    rewrite decide_False; [done|]. intros ->. rewrite key_dir_dkey in Hk by done. congruence. }
  destruct HR as [[HT HTok] HN HL HS]. split; cbn [ta_tps ta_names ta_ttls remove_tp].
  - split; [|by apply map_Forall_delete].
    eapply keyed_delete; [apply tps_key_prefix|by apply dkey_Inj|exact HT|..].
    + rewrite Hv, decide_True by done. by destruct (HasPrefix _ _).
    + intros k Hk Hne. rewrite Hv, decide_False by done. destruct (HasPrefix k (getTracepointStatesKey id)) eqn:E; [|done].
      apply states_prefix_dir in E. apply (HasPrefix_dir k "tracepoint" eq_refl) in Hk. congruence.
  - eapply names_frame; [by apply Hag|done].
  - eapply ttls_frame; [by apply Hag|done].
  - intros id'. unfold states_of. cbn [ta_states remove_tp].
    destruct (decide (id' = id)) as [->|Hne].
    + rewrite lookup_delete_eq. apply keyed_empty; [apply state_key_prefix|]. intros k Hk. by rewrite Hv, Hk.
    + rewrite lookup_delete_ne by done.
      assert (∀ k, HasPrefix k (getTracepointStatesKey id') = true → view s !! k ≠ None → view s2 !! k = view s !! k) as Hk.
      { intros k Hk Hs. destruct (proj2 (HS id') k Hk) as [a ->]; [by apply not_eq_None_Some|].
        rewrite Hv. destruct (HasPrefix _ (getTracepointStatesKey id)) eqn:E; [by apply states_prefix_inj in E|].
        rewrite decide_False; [done|]. intros E'. apply states_prefix_dir in Hk. rewrite E' in Hk.
        by rewrite key_dir_dkey in Hk. }
      eapply keyed_frame; [apply state_key_prefix| |exact (HS id')]. intros k Hp.
      destruct (view s !! k) eqn:E; [rewrite Hk; [done|done|by rewrite E]|].
      rewrite Hv, E. by repeat case_match.
Qed.
End rep.
