(* ===== verification/Tracepoint.v ===== *)
(** * The tracepoint manager

    [controllers/tracepoint/tracepoint.go]: creating, expiring and removing
    dynamic tracepoints, and sending their programs to the agents that match
    the programs' selectors.  The agent manager appears as the messenger the
    source declares ([agentMessenger]). *)

From S2P Require Import Prelude GoLib Datastore Uuid Messages StoreLib TracepointStore MemStore.
From Stdlib Require Import Ascii.

(** ** Messages to the agents *)

Inductive TracepointMessage : Type :=
| RemoveTracepointRequest (id : UUIDpb)
| RegisterTracepointRequest (deployment : TracepointDeployment) (id : UUIDpb).

Class AgentMessenger `{U : UUIDLib} (Ag : Type) := {
  am_MessageAgents : list uuid → string → Ag → option error * Ag;
  am_MessageActiveAgents : string → Ag → option error * Ag
}.

(** ** [fmt.Sscanf] of unsigned numbers *)

(** ASCII white space; the input is read as bytes, and a byte above 127 is not
    white space. *)
Definition is_space (a : ascii) : bool :=
  let n := N_of_ascii a in ((n =? 32) || (9 <=? n) && (n <=? 13))%N.

Definition ErrUnexpectedNewline : error := ErrMsg "unexpected newline".
Definition ErrUnexpectedEOF : error := ErrMsg "unexpected EOF".
Definition ErrNoMatch : error := ErrMsg "input does not match format".

(** White space is skipped, but a line end is an error. *)
Fixpoint SkipSpace (s : string) : error + string :=
  match s with
  | EmptyString => inr EmptyString
  | String a s' =>
    if decide (a = "010"%char) then inl ErrUnexpectedNewline
    else if decide (a = "013"%char) then
      match s' with
      | String b s'' => if decide (b = "010"%char) then SkipSpace s'' else SkipSpace s'
      | EmptyString => SkipSpace s'
      end
    else if is_space a then SkipSpace s' else inr s
  end.

(** The longest prefix of digits, and the rest. *)
Fixpoint span_digits (s : string) : string * string :=
  match s with
  | EmptyString => (EmptyString, EmptyString)
  | String a s' =>
    if is_digit a then let '(d, r) := span_digits s' in (String a d, r) else (EmptyString, s)
  end.

(** The verb [%d] for a [uint32]. *)
Definition scan_uint32 (s : string) : error + (Z * string) :=
  match SkipSpace s with
  | inl e => inl e
  | inr EmptyString => inl ErrUnexpectedEOF
  | inr s =>
    let '(tok, rest) := span_digits s in
    match tok with
    | EmptyString => inl (ErrMsg "expected integer")
    | _ =>
      match ParseUint tok 64 with
      | inl e => inl e
      | inr i => if (i <? 2 ^ 32)%Z then inr (i, rest)
                 else inl (ErrMsg ("unsigned integer overflow on token " +:+ tok))
      end
    end
  end.

(** [fmt.Sscanf(s, "%d.%d...")] with [n] verbs: a dot must match; at the end of
    the input the remaining variables keep their value, zero. *)
Fixpoint Sscanf_dots (n : nat) (s : string) : error + list Z :=
  match n with
  | O => inr []
  | Datatypes.S n =>
    match scan_uint32 s with
    | inl e => inl e
    | inr (v, rest) =>
      match n, rest with
      | O, _ => inr [v]
      | _, EmptyString => inr (v :: replicate n 0%Z)
      | _, String a rest =>
        if decide (a = "."%char) then
          match Sscanf_dots n rest with inl e => inl e | inr vs => inr (v :: vs) end
        else inl ErrNoMatch
      end
    end
  end.

Definition parseKernelVersion (versionStr : string) : error + (Z * Z * Z) :=
  let parts := split "." versionStr in
  match length parts with
  | 1 => match Sscanf_dots 1 versionStr with inr [v] => inr (v, 0, 0)%Z | inr _ => inr (0, 0, 0)%Z | inl e => inl e end
  | 2 => match Sscanf_dots 2 versionStr with inr [v; j] => inr (v, j, 0)%Z | inr _ => inr (0, 0, 0)%Z | inl e => inl e end
  | 3 => match Sscanf_dots 3 versionStr with inr [v; j; n] => inr (v, j, n) | inr _ => inr (0, 0, 0)%Z | inl e => inl e end
  | _ => inl (ErrMsg ("Invalid kernel version string: " +:+ versionStr))
  end.

(** ** The manager *)
Section manager.
Context {St : Type} `{!Datastore St} `{U : UUIDLib} {Ag : Type} `{!AgentMessenger Ag}.
Context `{!Proto TracepointInfo} `{!Proto AgentTracepointStatus} `{!Proto UUIDpb} `{!Proto TracepointMessage}.
(** [crypto/sha256.Sum256] with the hexadecimal encoding of its result. *)
Context (sha256_hex : string → string).

Record Manager := mkTpManager { ts : St; agtMgr : Ag }.

Definition ts_call {B} (m : M St B) : M Manager B := zoom ts (λ s mg, mkTpManager s (agtMgr mg)) m.

Definition msg_call (f : Ag → option error * Ag) : M Manager unit := λ mg,
  let '(e, ag) := f (agtMgr mg) in
  (match e with None => Ret tt | Some e => Err e end, mkTpManager (ts mg) ag).

Definition with_state (st : LifeCycleState) (tp : TracepointInfo) : TracepointInfo :=
  mkTracepointInfo (tp_ID tp) (tp_Tracepoint tp) (tp_Name tp) st.

Definition terminateTracepoint (id : uuid) : M Manager unit :=
  tp ← ts_call (GetTracepoint id);
  match tp with
  | None => mret tt
  | Some tp =>
    _ ← ts_call (UpsertTracepoint id (with_state TERMINATED_STATE tp));
    msg ← lift_sum (Marshal (RemoveTracepointRequest (ProtoFromUUID id)));
    msg_call (am_MessageActiveAgents msg)
  end.

(** The loop over the tracepoints; errors are logged. *)
Fixpoint terminate_each (tpActive : gmap uuid bool) (tps : list (option TracepointInfo)) : M Manager unit :=
  match tps with
  | [] => mret tt
  | tp :: tps =>
    tp ← deref tp;
    let tpID := UUIDFromProtoOrNil (tp_ID tp) in
    _ ← (if default false (tpActive !! tpID) then mret tt
         else if decide (tp_ExpectedState tp = TERMINATED_STATE) then mret tt
         else _ ← try (terminateTracepoint tpID); mret tt);
    terminate_each tpActive tps
  end.

(** [now1] is read when a TTL value is not a time, [now] for the comparison. *)
Definition terminateExpiredTracepoints (now1 now : gotime) : M Manager unit :=
  tps ← try (ts_call GetTracepoints);
  match tps with
  | inl _ => mret tt
  | inr tps =>
    ttls ← try (ts_call (GetTracepointTTLs now1));
    match ttls with
    | inl _ => mret tt
    | inr ttls =>
      let tpActive := foldl (λ m kv, <[kv.1 := (t_ns now <? kv.2)%Z]> m) (∅ : gmap uuid bool) ttls in
      terminate_each tpActive tps
    end
  end.

Definition deleteTracepoint (id : uuid) : M Manager unit := ts_call (DeleteTracepoint id).

(** The comparison of the programs, in order. *)
Definition all_same (prev new : list (option TracepointProgram)) : bool :=
  bool_decide (length prev = length new) &&
  forallb (λ pn, match pn.2 with None => true | Some _ => bool_decide (pn.2 = pn.1) end) (zip prev new).

(** [newV4] is the result of [uuid.NewV4].  The value and the error the source
    returns together are a pair here. *)
Definition CreateTracepoint (now : gotime) (newV4 : error + uuid) (tracepointName : string)
    (tracepointDeployment : TracepointDeployment) (ttl : Z) : M Manager (uuid * option error) :=
  resp ← ts_call (GetTracepointsWithNames [tracepointName]);
  prevTracepointID ← (match resp with
                      | [p] => mret p
                      | _ => fail (ErrMsg "Could not fetch tracepoint")
                      end);
  let create :=
    tpID ← lift_sum newV4;
    let newTracepoint := mkTracepointInfo (Some (ProtoFromUUID tpID)) (Some tracepointDeployment)
      tracepointName RUNNING_STATE in
    _ ← ts_call (UpsertTracepoint tpID newTracepoint);
    _ ← ts_call (SetTracepointTTL now tpID ttl);
    _ ← ts_call (SetTracepointWithName tracepointName tpID);
    mret (tpID, None) in
  match prevTracepointID with
  | None => create
  | Some prevID =>
    prevTracepoint ← ts_call (GetTracepoint prevID);
    match prevTracepoint with
    | None => create
    | Some prev =>
      if decide (tp_ExpectedState prev = TERMINATED_STATE) then create
      else
        prevDeployment ← deref (tp_Tracepoint prev);
        if all_same (td_Programs prevDeployment) (td_Programs tracepointDeployment) then
          _ ← ts_call (SetTracepointTTL now prevID ttl);
          mret (prevID, Some ErrTracepointAlreadyExists)
        else
          _ ← ts_call (DeleteTracepointTTLs [prevID]);
          create
    end
  end.

Definition GetAllTracepoints : M Manager (list (option TracepointInfo)) := ts_call GetTracepoints.

(** Whether every other agent reported that the tracepoint is terminated. *)
Fixpoint all_terminated (agentID : option UUIDpb) (states : list (option AgentTracepointStatus))
    : M Manager bool :=
  match states with
  | [] => mret true
  | s :: states =>
    s ← deref s;
    if negb (bool_decide (ats_State s = TERMINATED_STATE)) && negb (bool_decide (ats_AgentID s = agentID))
    then mret false
    else all_terminated agentID states
  end.

Definition UpdateAgentTracepointStatus (tracepointID agentID : option UUIDpb) (state : LifeCycleState)
    (status : option Status) : M Manager unit :=
  let store := ts_call (UpdateTracepointState (mkAgentTracepointStatus state status tracepointID agentID)) in
  if decide (state = TERMINATED_STATE) then
    let tID := UUIDFromProtoOrNil tracepointID in
    states ← ts_call (GetTracepointStates tID);
    allTerminated ← all_terminated agentID states;
    if (allTerminated : bool) then deleteTracepoint tID else store
  else store.

(** ** Selecting agents *)

Definition host_info (agent : Agent) : M Manager HostInfo :=
  info ← deref (ag_Info agent); deref (ai_HostInfo info).

Fixpoint filter_hosts (p : HostInfo → bool) (agents : list Agent) : M Manager (list Agent) :=
  match agents with
  | [] => mret []
  | agent :: agents =>
    hi ← host_info agent;
    rest ← filter_hosts p agents;
    mret (if p hi then agent :: rest else rest)
  end.

Definition filterByHostName (agents : list Agent) (hostname : string) : M Manager (list Agent) :=
  filter_hosts (λ hi, bool_decide (Hostname hi = hostname)) agents.

Definition min_kernel (v : Z * Z * Z) (hi : HostInfo) : bool :=
  match Kernel hi with
  | None => false
  | Some kv =>
    let '(version, major, minor) := v in
    ((version <? kv_Version kv) || (kv_Version kv =? version) && (major <? kv_MajorRev kv) ||
     (kv_Version kv =? version) && (kv_MajorRev kv =? major) && (minor <=? kv_MinorRev kv))%Z
  end.

Definition max_kernel (v : Z * Z * Z) (hi : HostInfo) : bool :=
  match Kernel hi with
  | None => false
  | Some kv =>
    let '(version, major, minor) := v in
    ((kv_Version kv <? version) || (kv_Version kv =? version) && (kv_MajorRev kv <? major) ||
     (kv_Version kv =? version) && (kv_MajorRev kv =? major) && (kv_MinorRev kv <=? minor))%Z
  end.

(** A version that does not parse selects no agent. *)
Definition filterByMinKernel (agents : list Agent) (versionStr : string) : M Manager (list Agent) :=
  match parseKernelVersion versionStr with
  | inl _ => mret []
  | inr v => filter_hosts (min_kernel v) agents
  end.

Definition filterByMaxKernel (agents : list Agent) (versionStr : string) : M Manager (list Agent) :=
  match parseKernelVersion versionStr with
  | inl _ => mret []
  | inr v => filter_hosts (max_kernel v) agents
  end.

Definition FilterAgentsBySelector (agents : list Agent) (selector : TracepointSelector)
    : M Manager (list Agent) :=
  match sel_SelectorType selector with
  | MIN_KERNEL => filterByMinKernel agents (sel_Value selector)
  | MAX_KERNEL => filterByMaxKernel agents (sel_Value selector)
  | HOST_NAME => filterByHostName agents (sel_Value selector)
  | NO_CONDITION => mret agents
  end.

(** ** Registering *)

Definition uuid_le (a b : uuid) : Prop := String.le (uuid_String a) (uuid_String b).
#[export] Instance uuid_le_dec : RelDecision uuid_le.
Proof. intros a b. unfold uuid_le. apply _. Defined.

(** [utils.HashUUIDs]; it sorts its argument in place, so the sorted list is
    returned too. *)
Definition HashUUIDs (ids : list uuid) : string * list uuid :=
  let sorted := merge_sort uuid_le ids in
  (sha256_hex (join "" (uuid_String <$> sorted)), sorted).

Fixpoint select_agents (agents : list Agent) (selectors : list TracepointSelector) : M Manager (list Agent) :=
  match selectors with
  | [] => mret agents
  | sel :: selectors =>
    agents ← FilterAgentsBySelector agents sel;
    select_agents agents selectors
  end.

Fixpoint agent_ids (agents : list Agent) : M Manager (list uuid) :=
  match agents with
  | [] => mret []
  | agt :: agents =>
    info ← deref (ag_Info agt);
    ids ← agent_ids agents;
    mret (UUIDFromProtoOrNil (ai_AgentID info) :: ids)
  end.

(** The grouping loop: programs and agents by the hash of the agents. *)
Fixpoint group_programs (agents : list Agent) (programs : list (option TracepointProgram))
    (hashToPrograms : gmap string (list (option TracepointProgram)))
    (hashToAgents : gmap string (list Agent * list uuid))
    : M Manager (gmap string (list (option TracepointProgram)) * gmap string (list Agent * list uuid)) :=
  match programs with
  | [] => mret (hashToPrograms, hashToAgents)
  | prgm :: programs =>
    p ← deref prgm;
    validAgents ← select_agents agents (tpp_Selectors p);
    agentIDs ← agent_ids validAgents;
    let '(hash, agentIDs) := HashUUIDs agentIDs in
    group_programs agents programs
      (<[hash := default [] (hashToPrograms !! hash) ++ [prgm]]> hashToPrograms)
      (<[hash := (validAgents, agentIDs)]> hashToAgents)
  end.

Fixpoint send_groups (tracepointID : uuid) (tracepointDeployment : TracepointDeployment)
    (hashToPrograms : gmap string (list (option TracepointProgram)))
    (groups : list (string * (list Agent * list uuid))) : M Manager unit :=
  match groups with
  | [] => mret tt
  | (hash, (_, agentIDs)) :: groups =>
    let newDeployment := mkTracepointDeployment (td_Name tracepointDeployment) (td_TTL tracepointDeployment)
      (td_DeploymentSpec tracepointDeployment) (default [] (hashToPrograms !! hash)) in
    msg ← lift_sum (Marshal (RegisterTracepointRequest newDeployment (ProtoFromUUID tracepointID)));
    _ ← msg_call (am_MessageAgents agentIDs msg);
    send_groups tracepointID tracepointDeployment hashToPrograms groups
  end.

(** [ro] is the iteration order of the map of groups. *)
Definition RegisterTracepoint
    (ro : gmap string (list Agent * list uuid) → list (string * (list Agent * list uuid)))
    (agents : list Agent) (tracepointID : uuid) (tracepointDeployment : TracepointDeployment) : M Manager unit :=
  gs ← group_programs agents (td_Programs tracepointDeployment) ∅ ∅;
  send_groups tracepointID tracepointDeployment gs.1 (ro gs.2).

Definition GetTracepointInfo (tracepointID : uuid) : M Manager (option TracepointInfo) :=
  ts_call (GetTracepoint tracepointID).

Fixpoint resolve_names (names : list string) (tpIDs : list (option uuid)) : M Manager (list uuid) :=
  match names, tpIDs with
  | name :: names, tpID :: tpIDs =>
    match tpID with
    | None => fail (ErrMsg ("Could not find tracepoint for given name: " +:+ name))
    | Some id => ids ← resolve_names names tpIDs; mret (id :: ids)
    end
  | _, _ => mret []
  end.

Definition RemoveTracepoints (names : list string) : M Manager unit :=
  tpIDs ← ts_call (GetTracepointsWithNames names);
  ids ← resolve_names names tpIDs;
  ts_call (DeleteTracepointTTLs ids).

Definition DeleteAgent (agentID : uuid) : M Manager unit := ts_call (DeleteTracepointsForAgent agentID).
End manager.
Arguments Manager : clear implicits.

(** ** Facts *)

(** A messenger that accepts every message; [log] is what it was given, with the
    recipients or, for all active agents, [None]. *)
Class MessengerSpec `{U : UUIDLib} (Ag : Type) `{!AgentMessenger Ag}
    (log : Ag → list (option (list uuid) * string)) : Prop := {
  msg_agents ids m ag : ∃ ag', am_MessageAgents ids m ag = (None, ag') ∧ log ag' = log ag ++ [(Some ids, m)];
  msg_active m ag : ∃ ag', am_MessageActiveAgents m ag = (None, ag') ∧ log ag' = log ag ++ [(None, m)]
}.

Section facts.
Context {St : Type} `{!Datastore St} {view : St → gmap string string} {ok : St → Prop}.
Context `{!DatastoreSpec St view ok} `{U : UUIDLib} `{!UUIDSpec U}.
Context {Ag : Type} `{!AgentMessenger Ag} {log : Ag → list (option (list uuid) * string)}.
Context `{!MessengerSpec Ag log}.
Context `{!Proto TracepointInfo} `{!Proto AgentTracepointStatus} `{!Proto UUIDpb} `{!Proto TracepointMessage}.
Context `{!ProtoSpec TracepointInfo} `{!ProtoSpec AgentTracepointStatus} `{!ProtoSpec UUIDpb}.
Context `{!ProtoSpec TracepointMessage}.
Abbreviation tp_rep := (tp_rep (view := view) (ok := ok)).
Implicit Types (mg : Manager St Ag) (id : uuid) (A : tp_abs).

Lemma ts_call_ret {B} (m : M St B) mg r s : m (ts mg) = (r, s) → ts_call m mg = (r, mkTpManager s (agtMgr mg)).
Proof. intros E. unfold ts_call, zoom. by rewrite E. Qed.

Lemma ts_call_wp {B} (m : M St B) Q mg :
  wp m (λ b s, Q b (mkTpManager s (agtMgr mg))) (ts mg) → wp (ts_call m) Q mg.
Proof. apply (wp_zoom ts (λ s mg, mkTpManager s (agtMgr mg))). Qed.

Lemma ts_call_read {B} (m : M St B) mg b : m (ts mg) = (Ret b, ts mg) → ts_call m mg = (Ret b, mg).
Proof. intros E. rewrite (ts_call_ret _ _ _ _ E). by destruct mg. Qed.

Lemma with_state_ok st id tp : info_ok id tp → info_ok id (with_state st tp).
Proof. done. Qed.

(** The request that removes a tracepoint. *)
Definition removal id : string :=
  match Marshal (RemoveTracepointRequest (ProtoFromUUID id)) with inr b => b | inl _ => "" end.

Lemma terminateTracepoint_spec mg A id tp :
  tp_rep (ts mg) A → ta_tps A !! id = Some tp →
  wp (terminateTracepoint id) (λ _ mg', tp_rep (ts mg') (set_tp id (with_state TERMINATED_STATE tp) A) ∧
    log (agtMgr mg') = log (agtMgr mg) ++ [(None, removal id)]) mg.
Proof.
  intros HR Htp. unfold terminateTracepoint. apply wp_bind.
  unfold wp at 1. rewrite (ts_call_read _ _ _ (GetTracepoint_spec _ _ id HR)), Htp.
  assert (info_ok id tp) as Hok by (by apply (proj2 (rep_tps _ _ (proj2 HR)) id)).
  apply wp_bind, ts_call_wp. eapply wp_mono; [by apply UpsertTracepoint_spec|].
  intros [] s' HR'. apply wp_bind.
  destruct (proto_roundtrip (RemoveTracepointRequest (ProtoFromUUID id))) as (b & Eb & _).
  rewrite Eb. apply wp_lift_inr. unfold wp, msg_call. cbn [agtMgr ts].
  destruct (msg_active b (agtMgr mg)) as (ag' & -> & Hlog). split; [done|]. cbn [agtMgr]. rewrite Hlog.
  unfold removal. by rewrite Eb.
Qed.

(** ** Expiry *)

Definition expired (act : gmap uuid bool) (kv : uuid * TracepointInfo) : bool :=
  negb (default false (act !! kv.1)) && negb (bool_decide (tp_ExpectedState kv.2 = TERMINATED_STATE)).

Definition expire_one (act : gmap uuid bool) (T : gmap uuid TracepointInfo) (kv : uuid * TracepointInfo)
    : gmap uuid TracepointInfo :=
  if expired act kv then <[kv.1 := with_state TERMINATED_STATE kv.2]> T else T.

Definition with_tps (T : gmap uuid TracepointInfo) A : tp_abs := mkTpAbs T (ta_names A) (ta_ttls A) (ta_states A).

Lemma terminate_each_spec act kvs mg A :
  tp_rep (ts mg) A → NoDup kvs.*1 → (∀ kv, kv ∈ kvs → ta_tps A !! kv.1 = Some kv.2) →
  wp (terminate_each act (Some <$> kvs.*2)) (λ _ mg',
    tp_rep (ts mg') (with_tps (foldl (expire_one act) (ta_tps A) kvs) A) ∧
    log (agtMgr mg') = log (agtMgr mg) ++ ((λ kv, (None, removal kv.1)) <$> filter (λ kv, expired act kv = true) kvs)) mg.
Proof.
  revert mg A. induction kvs as [|[id tp] kvs IH]; intros mg A HR Hnd Hkv.
  { apply wp_ret. split; [by destruct A|]. by rewrite app_nil_r. }
  rewrite fmap_cons in Hnd. apply NoDup_cons in Hnd as [Hnew Hnd].
  pose proof (Hkv (id, tp) ltac:(by left)) as Htp. cbn [fst snd] in Htp, Hnew.
  destruct (proj2 (rep_tps _ _ (proj2 HR)) id tp Htp) as (Hid & Hg & _).
  cbn [fmap list_fmap terminate_each snd]. apply wp_bind, wp_deref.
  assert (UUIDFromProtoOrNil (tp_ID tp) = id) as ->.
  { unfold UUIDFromProtoOrNil. by rewrite Hid, UUIDFromProto_ProtoFromUUID. }
  apply wp_bind. cbn [foldl]. unfold expire_one at 2.
  assert (∀ T A', ta_tps A' = T → with_tps (foldl (expire_one act) T kvs) A' =
    with_tps (foldl (expire_one act) (ta_tps A') kvs) A') as Hsame by (by intros T A' <-).
  destruct (expired act (id, tp)) eqn:Ee.
  - rewrite filter_cons_True by done.
    apply andb_true_iff in Ee as [E1%negb_true_iff E2%negb_true_iff]. cbn [fst snd] in E1, E2.
    apply bool_decide_eq_false in E2. rewrite E1, decide_False by done.
    apply wp_bind, wp_try. eapply wp_mono; [by apply terminateTracepoint_spec|].
    intros [] mg1 (HR1 & Hl1). apply wp_ret. eapply wp_mono; [apply IH; [exact HR1|done|]|].
    + intros [id' tp'] Hin. cbn [ta_tps set_tp fst snd]. rewrite lookup_insert_ne; [by apply (Hkv (id', tp')); right|].
      intros <-. apply Hnew. by apply (list_elem_of_fmap_2 fst) in Hin.
    + intros [] mg2 (HR2 & Hl2). split; [exact HR2|]. rewrite Hl2, Hl1, <-app_assoc. done.
  - rewrite filter_cons_False by (by rewrite Ee).
    assert (∀ Q : unit → Manager St Ag → Prop, Q tt mg →
      wp (if default false (act !! id) then mret tt
          else if decide (tp_ExpectedState tp = TERMINATED_STATE) then mret tt
          else _ ← try (terminateTracepoint id); mret tt) Q mg) as Hskip.
    { intros Q HQ. destruct (default false (act !! id)) eqn:E1; [by apply wp_ret|].
      destruct (decide (tp_ExpectedState tp = TERMINATED_STATE)) as [E2|E2]; [by apply wp_ret|].
      unfold expired in Ee. cbn [fst snd] in Ee. by rewrite E1, bool_decide_eq_false_2 in Ee. }
    apply Hskip. apply IH; [done|done|]. intros kv Hin. apply Hkv. by right.
Qed.

(** What expiry does to one tracepoint. *)
Definition after_expiry (live : bool) (tp : TracepointInfo) : TracepointInfo :=
  if live then tp else with_state TERMINATED_STATE tp.

Lemma lookup_expire act kvs (T : gmap uuid TracepointInfo) id :
  NoDup kvs.*1 → (∀ kv, kv ∈ kvs → T !! kv.1 = Some kv.2) →
  foldl (expire_one act) T kvs !! id =
    if decide (id ∈ kvs.*1) then after_expiry (default false (act !! id)) <$> T !! id else T !! id.
Proof.
  revert T. induction kvs as [|[j tp] kvs IH]; intros T Hnd Hkv; [done|].
  rewrite fmap_cons in Hnd. apply NoDup_cons in Hnd as [Hnew Hnd]. cbn [fst] in Hnew.
  pose proof (Hkv (j, tp) ltac:(by left)) as Htp. cbn [fst snd] in Htp.
  assert (∀ id, expire_one act T (j, tp) !! id =
    if decide (id = j) then after_expiry (default false (act !! j)) <$> T !! id else T !! id) as Hone.
  { intros i. unfold expire_one, expired, after_expiry. cbn [fst snd].
    destruct (decide (i = j)) as [->|Hne].
    - rewrite Htp. cbn [fmap option_fmap option_map]. destruct (default false (act !! j)); [done|].
      cbn [negb andb]. destruct (bool_decide_reflect (tp_ExpectedState tp = TERMINATED_STATE)) as [E|E].
      + cbn [negb]. rewrite Htp. f_equal. destruct tp. simpl in E. by subst.
      + cbn [negb]. by rewrite lookup_insert_eq.
    - destruct (_ && _); [by rewrite lookup_insert_ne|done]. }
  cbn [foldl]. rewrite IH; [|done|].
  - rewrite Hone. destruct (decide (id = j)) as [->|Hne].
    + rewrite decide_False by done. by rewrite decide_True by (by left).
    + destruct (decide (id ∈ kvs.*1)); [by rewrite decide_True by (by right)|].
      rewrite decide_False; [done|]. rewrite fmap_cons. set_solver.
  - intros [i tp'] Hin. rewrite Hone. cbn [fst snd]. rewrite decide_False; [by apply (Hkv (i, tp')); right|].
    intros ->. apply Hnew. by apply (list_elem_of_fmap_2 fst) in Hin.
Qed.

(** The map of live tracepoints the reaper builds. *)
Lemma lookup_active (f : Z → bool) (l : list (uuid * Z)) (m : gmap uuid bool) id :
  NoDup l.*1 →
  foldl (λ m kv, <[kv.1 := f kv.2]> m) m l !! id =
    match (list_to_map l : gmap uuid Z) !! id with Some t => Some (f t) | None => m !! id end.
Proof.
  revert m. induction l as [|[j t] l IH]; intros m Hnd; [done|].
  rewrite fmap_cons in Hnd. apply NoDup_cons in Hnd as [Hj Hnd]. cbn [foldl fst snd]. rewrite IH by done.
  rewrite list_to_map_cons. destruct (decide (id = j)) as [->|Hne].
  - rewrite (not_elem_of_list_to_map_1 l) by done. by rewrite !lookup_insert_eq.
  - rewrite !lookup_insert_ne by done. done.
Qed.

(** A tracepoint's TTL entry lies in the future. *)
Definition live (now : gotime) A id : bool :=
  match ta_ttls A !! id with Some t => (t_ns now <? t)%Z | None => false end.

Lemma terminateExpired_spec now1 now mg A :
  tp_rep (ts mg) A →
  wp (terminateExpiredTracepoints now1 now) (λ _ mg', ∃ T ids,
    tp_rep (ts mg') (with_tps T A) ∧
    (∀ id, T !! id = after_expiry (live now A id) <$> ta_tps A !! id) ∧
    log (agtMgr mg') = log (agtMgr mg) ++ ((λ id, (None, removal id)) <$> ids) ∧ NoDup ids ∧
    ∀ id, id ∈ ids ↔ ∃ tp, ta_tps A !! id = Some tp ∧ live now A id = false ∧
      tp_ExpectedState tp ≠ TERMINATED_STATE) mg.
Proof.
  intros HR. destruct (GetTracepoints_spec _ _ HR) as (l & El & Hl).
  destruct (GetTracepointTTLs_spec _ _ now1 HR) as (ttls & Et & Ht).
  unfold terminateExpiredTracepoints. apply wp_bind, wp_try. unfold wp at 1.
  rewrite (ts_call_read _ _ _ El). apply wp_bind, wp_try. unfold wp at 1. rewrite (ts_call_read _ _ _ Et).
  set (act := foldl _ _ ttls).
  assert (∀ id, default false (act !! id) = live now A id) as Hact.
  { intros id. unfold act. rewrite (lookup_active (λ t, (t_ns now <? t)%Z)).
    - assert ((list_to_map ttls : gmap uuid Z) = ta_ttls A) as ->.
      { rewrite <-(list_to_map_to_list (ta_ttls A)). apply list_to_map_proper; [|done].
        rewrite Ht. apply NoDup_fst_map_to_list. }
      unfold live. by destruct (ta_ttls A !! id).
    - rewrite Ht. apply NoDup_fst_map_to_list. }
  apply Permutation_map_inv in Hl as (kvs & -> & Hkvs).
  change (map snd kvs) with (kvs.*2). symmetry in Hkvs.
  assert (NoDup kvs.*1) as Hnd by (rewrite Hkvs; apply NoDup_fst_map_to_list).
  assert (∀ kv, kv ∈ kvs → ta_tps A !! kv.1 = Some kv.2) as Hin.
  { intros [i tp] Hi. rewrite Hkvs in Hi. by apply elem_of_map_to_list in Hi. }
  eapply wp_mono; [by apply terminate_each_spec|]. intros [] mg' (HR' & Hlog).
  eexists _, (filter (λ kv, expired act kv = true) kvs).*1. split_and!; [exact HR'| | | |].
  - intros id. rewrite lookup_expire by done. rewrite Hact.
    destruct (decide (id ∈ kvs.*1)) as [_|Hn]; [done|].
    destruct (ta_tps A !! id) as [tp|] eqn:E; [|done]. exfalso. apply Hn.
    apply list_elem_of_fmap. exists (id, tp). split; [done|]. rewrite Hkvs. by apply elem_of_map_to_list.
  - rewrite Hlog, <-list_fmap_compose. done.
  - eapply sublist_NoDup; [exact Hnd|]. apply fmap_sublist, sublist_filter.
  - intros id. rewrite list_elem_of_fmap. split.
    + intros ([i tp] & -> & [He Hi]%list_elem_of_filter). exists tp. cbn [fst]. split; [by apply (Hin (i, tp))|].
      unfold expired in He. rewrite Hact in He. apply andb_true_iff in He as [H1 H2]. split.
      * by apply negb_true_iff in H1.
      * by apply negb_true_iff, bool_decide_eq_false in H2.
    + intros (tp & Htp & Hlive & Hst). exists (id, tp). split; [done|]. apply list_elem_of_filter. split.
      * unfold expired. rewrite Hact. cbn [fst snd]. by rewrite Hlive, bool_decide_eq_false_2.
      * rewrite Hkvs. by apply elem_of_map_to_list.
Qed.

(** One pass of the reaper terminates exactly the tracepoints without a TTL in
    the future, and asks the agents once to remove each that was not terminated
    before; every other tracepoint is as before. *)
Theorem expired_tracepoints_terminated now1 now mg A :
  tp_rep (ts mg) A →
  ∃ mg' ids, terminateExpiredTracepoints now1 now mg = (Ret tt, mg') ∧
    (∀ id, GetTracepoint id (ts mg') =
      (Ret (after_expiry (live now A id) <$> ta_tps A !! id), ts mg')) ∧
    log (agtMgr mg') = log (agtMgr mg) ++ ((λ id, (None, removal id)) <$> ids) ∧ NoDup ids ∧
    ∀ id, id ∈ ids ↔ ∃ tp, ta_tps A !! id = Some tp ∧ live now A id = false ∧
      tp_ExpectedState tp ≠ TERMINATED_STATE.
Proof.
  intros HR. destruct (proj1 (wp_run _ _ _) (terminateExpired_spec now1 now mg A HR))
    as ([] & mg' & E & T & ids & HR' & HT & Hlog & Hnd & Hids).
  exists mg', ids. split_and!; [done| |done|done|done]. intros id.
  rewrite (GetTracepoint_spec _ _ id HR'). cbn [ta_tps with_tps]. by rewrite HT.
Qed.

(** ** Creation *)

Definition new_info id (name : string) (dep : TracepointDeployment) : TracepointInfo :=
  mkTracepointInfo (Some (ProtoFromUUID id)) (Some dep) name RUNNING_STATE.

Definition created id name dep (t : Z) A : tp_abs :=
  set_name name id (set_ttl id t (set_tp id (new_info id name dep) A)).

Lemma create_spec mg A now id name dep ttl :
  tp_rep (ts mg) A → good_comp name = true → good_uuid_pb (ProtoFromUUID id) →
  zone_encodable now → time_in_range (time_Add now ttl) →
  wp (tpID ← lift_sum (inr id);
      _ ← ts_call (UpsertTracepoint tpID (mkTracepointInfo (Some (ProtoFromUUID tpID)) (Some dep) name RUNNING_STATE));
      _ ← ts_call (SetTracepointTTL now tpID ttl);
      _ ← ts_call (SetTracepointWithName name tpID);
      mret (tpID, None : option error))
    (λ r mg', r = (id, None) ∧ tp_rep (ts mg') (created id name dep (t_ns now + ttl) A) ∧
      agtMgr mg' = agtMgr mg) mg.
Proof.
  intros HR Hn Hg Hz Ht. apply wp_bind, wp_lift_inr, wp_bind, ts_call_wp.
  eapply wp_mono; [apply UpsertTracepoint_spec; [exact HR|by split_and!]|]. intros [] s1 HR1.
  apply wp_bind, ts_call_wp. eapply wp_mono; [by apply (SetTracepointTTL_spec _ _ now id ttl HR1)|].
  intros [] s2 HR2. apply wp_bind, ts_call_wp.
  eapply wp_mono; [by apply (SetTracepointWithName_spec _ _ name id HR2)|]. intros [] s3 HR3.
  apply wp_ret. done.
Qed.

(** The tracepoint a name refers to while it runs. *)
Definition running A (name : string) (prevID : uuid) (dep : TracepointDeployment) : Prop :=
  ta_names A !! name = Some prevID ∧
  ∃ prev, ta_tps A !! prevID = Some prev ∧ tp_ExpectedState prev ≠ TERMINATED_STATE ∧ tp_Tracepoint prev = Some dep.

Lemma CreateTracepoint_existing mg A now new name dep ttl prevID prevDep :
  tp_rep (ts mg) A → good_comp name = true → zone_encodable now → time_in_range (time_Add now ttl) →
  running A name prevID prevDep → all_same (td_Programs prevDep) (td_Programs dep) = true →
  wp (CreateTracepoint now new name dep ttl) (λ r mg', r = (prevID, Some ErrTracepointAlreadyExists) ∧
    tp_rep (ts mg') (set_ttl prevID (t_ns now + ttl) A) ∧ agtMgr mg' = agtMgr mg) mg.
Proof.
  intros HR Hn Hz Ht (Hname & prev & Hprev & Hst & Hdep) Hsame. unfold CreateTracepoint.
  apply wp_bind. unfold wp at 1.
  rewrite (ts_call_read _ _ _ (GetTracepointsWithNames_spec _ _ [name] HR ltac:(by apply Forall_singleton))).
  cbn [fmap list_fmap]. rewrite Hname. apply wp_bind, wp_ret, wp_bind. unfold wp at 1.
  rewrite (ts_call_read _ _ _ (GetTracepoint_spec _ _ prevID HR)), Hprev, decide_False by done.
  rewrite Hdep. apply wp_bind, wp_deref. rewrite Hsame. apply wp_bind, ts_call_wp.
  eapply wp_mono; [by apply (SetTracepointTTL_spec _ _ now prevID ttl HR)|]. intros [] s1 HR1. by apply wp_ret.
Qed.

Lemma CreateTracepoint_changed mg A now id name dep ttl prevID prevDep :
  tp_rep (ts mg) A → good_comp name = true → good_uuid_pb (ProtoFromUUID id) →
  zone_encodable now → time_in_range (time_Add now ttl) →
  running A name prevID prevDep → all_same (td_Programs prevDep) (td_Programs dep) = false →
  wp (CreateTracepoint now (inr id) name dep ttl) (λ r mg', r = (id, None) ∧
    tp_rep (ts mg') (created id name dep (t_ns now + ttl) (drop_ttls [prevID] A)) ∧ agtMgr mg' = agtMgr mg) mg.
Proof.
  intros HR Hn Hg Hz Ht (Hname & prev & Hprev & Hst & Hdep) Hsame. unfold CreateTracepoint.
  apply wp_bind. unfold wp at 1.
  rewrite (ts_call_read _ _ _ (GetTracepointsWithNames_spec _ _ [name] HR ltac:(by apply Forall_singleton))).
  cbn [fmap list_fmap]. rewrite Hname. apply wp_bind, wp_ret, wp_bind. unfold wp at 1.
  rewrite (ts_call_read _ _ _ (GetTracepoint_spec _ _ prevID HR)), Hprev, decide_False by done.
  rewrite Hdep. apply wp_bind, wp_deref. rewrite Hsame. apply wp_bind, ts_call_wp.
  eapply wp_mono; [by apply (DeleteTracepointTTLs_spec _ _ [prevID] HR)|]. intros [] s1 HR1.
  by apply (create_spec (mkTpManager s1 (agtMgr mg))).
Qed.

(** Redeploying a running tracepoint under its name with the same programs
    creates nothing: it reports the existing one and moves its expiry. *)
Theorem redeploy_unchanged_refreshes mg A now new name dep ttl prevID prevDep :
  tp_rep (ts mg) A → good_comp name = true → zone_encodable now → time_in_range (time_Add now ttl) →
  running A name prevID prevDep → all_same (td_Programs prevDep) (td_Programs dep) = true →
  ∃ mg', CreateTracepoint now new name dep ttl mg = (Ret (prevID, Some ErrTracepointAlreadyExists), mg') ∧
    agtMgr mg' = agtMgr mg ∧
    (∀ id, GetTracepoint id (ts mg') = (Ret (ta_tps A !! id), ts mg')) ∧
    GetTracepointsWithNames [name] (ts mg') = (Ret [Some prevID], ts mg') ∧
    ∃ l, GetTracepointTTLs now (ts mg') = (Ret l, ts mg') ∧
      l ≡ₚ map_to_list (<[prevID := (t_ns now + ttl)%Z]> (ta_ttls A)).
Proof.
  intros HR Hn Hz Ht Hrun Hsame.
  destruct (proj1 (wp_run _ _ _) (CreateTracepoint_existing mg A now new name dep ttl prevID prevDep
    HR Hn Hz Ht Hrun Hsame)) as (r & mg' & E & -> & HR' & Hag).
  exists mg'. split_and!; [done|done| | |].
  - intros id. by rewrite (GetTracepoint_spec _ _ id HR').
  - rewrite (GetTracepointsWithNames_spec _ _ [name] HR') by (by apply Forall_singleton).
    cbn [fmap list_fmap ta_names set_ttl]. by rewrite (proj1 Hrun).
  - exact (GetTracepointTTLs_spec _ _ now HR').
Qed.

(** Redeploying with different programs replaces the running tracepoint: the name
    refers to the new one, and the next pass of the reaper before the new one
    expires terminates the old one and leaves the new one running. *)
Theorem redeploy_changed_replaces mg A now id name dep ttl prevID prevDep now1 now2 :
  tp_rep (ts mg) A → good_comp name = true → good_uuid_pb (ProtoFromUUID id) →
  zone_encodable now → time_in_range (time_Add now ttl) →
  running A name prevID prevDep → all_same (td_Programs prevDep) (td_Programs dep) = false →
  id ≠ prevID → (t_ns now2 < t_ns now + ttl)%Z →
  ∃ mg1 mg2 prev, CreateTracepoint now (inr id) name dep ttl mg = (Ret (id, None), mg1) ∧
    GetTracepointsWithNames [name] (ts mg1) = (Ret [Some id], ts mg1) ∧
    terminateExpiredTracepoints now1 now2 mg1 = (Ret tt, mg2) ∧
    GetTracepoint id (ts mg2) = (Ret (Some (new_info id name dep)), ts mg2) ∧
    GetTracepoint prevID (ts mg2) = (Ret (Some (with_state TERMINATED_STATE prev)), ts mg2) ∧
    (None, removal prevID) ∈ log (agtMgr mg2).
Proof.
  intros HR Hn Hg Hz Ht Hrun Hsame Hne Hlt.
  destruct (proj1 (wp_run _ _ _) (CreateTracepoint_changed mg A now id name dep ttl prevID prevDep
    HR Hn Hg Hz Ht Hrun Hsame)) as (r & mg1 & E1 & -> & HR1 & Hag).
  destruct (proj1 (wp_run _ _ _) (terminateExpired_spec now1 now2 mg1 _ HR1))
    as ([] & mg2 & E2 & T & ids & HR2 & HT & Hlog & _ & Hids).
  destruct Hrun as (Hname & prev & Hprev & Hst & Hdep).
  assert (∀ i, i ≠ id → ta_ttls (created id name dep (t_ns now + ttl) (drop_ttls [prevID] A)) !! i =
    if decide (i = prevID) then None else ta_ttls A !! i) as Httl.
  { intros i Hi. cbn [ta_ttls created set_name set_ttl set_tp drop_ttls foldl]. rewrite lookup_insert_ne by done.
    destruct (decide (i = prevID)) as [->|]; [apply lookup_delete_eq|by apply lookup_delete_ne]. }
  exists mg1, mg2, prev. split_and!; [done| |done| | |].
  - rewrite (GetTracepointsWithNames_spec _ _ [name] HR1) by (by apply Forall_singleton).
    cbn [fmap list_fmap ta_names created set_name]. by rewrite lookup_insert_eq.
  - rewrite (GetTracepoint_spec _ _ id HR2). cbn [ta_tps with_tps]. rewrite HT. unfold live.
    cbn [ta_tps ta_ttls created set_name set_ttl set_tp]. rewrite !lookup_insert_eq.
    by rewrite (proj2 (Z.ltb_lt _ _) Hlt).
  - rewrite (GetTracepoint_spec _ _ prevID HR2). cbn [ta_tps with_tps]. rewrite HT. unfold live.
    rewrite Httl, decide_True by done. cbn [ta_tps created set_name set_ttl set_tp drop_ttls].
    by rewrite lookup_insert_ne, Hprev by done.
  - rewrite Hlog. apply elem_of_app. right. apply list_elem_of_fmap. exists prevID. split; [done|].
    apply Hids. exists prev. split_and!; [|unfold live; by rewrite Httl, decide_True by done|done].
    cbn [ta_tps created set_name set_ttl set_tp drop_ttls]. by rewrite lookup_insert_ne.
Qed.

(** ** Agent statuses *)

Definition others_terminated (agentID : option UUIDpb) (sts : list AgentTracepointStatus) : bool :=
  forallb (λ s, bool_decide (ats_State s = TERMINATED_STATE) || bool_decide (ats_AgentID s = agentID)) sts.

Lemma all_terminated_run agentID sts mg :
  all_terminated agentID (Some <$> sts) mg = (Ret (others_terminated agentID sts), mg).
Proof.
  unfold others_terminated. induction sts as [|s sts IH]; [done|].
  cbn [fmap list_fmap all_terminated forallb]. rewrite (bind_ret (deref (Some s)) _ mg s mg eq_refl).
  rewrite <-negb_orb. destruct (_ || _) eqn:E; [|done]. exact IH.
Qed.

Lemma others_terminated_perm agentID l k :
  l ≡ₚ k → others_terminated agentID l = others_terminated agentID k.
Proof.
  intros Hp. apply bool_ext. unfold others_terminated. rewrite !forallb_forall. split; intros H x Hx; apply H.
  - by rewrite Hp.
  - by rewrite <-Hp.
Qed.

(** A report that a tracepoint terminated on an agent deletes the tracepoint with
    all its states exactly when every other agent that reported has terminated
    it; otherwise, and for any other state, the report is stored as the agent's
    state and nothing else changes. *)
Theorem status_report_effect mg A id agent state status :
  tp_rep (ts mg) A → good_uuid_pb (ProtoFromUUID id) → good_uuid_pb (ProtoFromUUID agent) →
  let report := mkAgentTracepointStatus state status (Some (ProtoFromUUID id)) (Some (ProtoFromUUID agent)) in
  ∃ mg', UpdateAgentTracepointStatus (Some (ProtoFromUUID id)) (Some (ProtoFromUUID agent)) state status mg
      = (Ret tt, mg') ∧
    tp_rep (ts mg')
      (if bool_decide (state = TERMINATED_STATE) &&
          others_terminated (Some (ProtoFromUUID agent)) (map_to_list (states_of A id)).*2
       then remove_tp id A else set_state id agent report A).
Proof.
  intros HR Hg Hga report.
  assert (∀ u, good_uuid_pb (ProtoFromUUID u) → UUIDFromProtoOrNil (Some (ProtoFromUUID u)) = u) as Hid.
  { intros u Hu. unfold UUIDFromProtoOrNil. by rewrite UUIDFromProto_ProtoFromUUID. }
  destruct (proj1 (wp_run _ _ _) (UpdateTracepointState_spec (ts mg) A report id agent HR (Hid id Hg) (Hid agent Hga)))
    as ([] & s1 & E1 & HR1).
  unfold UpdateAgentTracepointStatus. fold report.
  destruct (decide (state = TERMINATED_STATE)) as [Hs|Hs].
  - rewrite bool_decide_eq_true_2 by done. rewrite (Hid id Hg).
    destruct (GetTracepointStates_spec _ _ id HR) as (l & El & Hl).
    rewrite (bind_ret _ _ _ _ _ (ts_call_read _ _ _ El)), (bind_ret _ _ _ _ _ (all_terminated_run _ l mg)).
    rewrite (others_terminated_perm _ _ _ Hl). cbn [andb]. destruct (others_terminated _ _).
    + destruct (proj1 (wp_run _ _ _) (DeleteTracepoint_spec (ts mg) A id HR)) as ([] & s2 & E2 & HR2).
      eexists. split; [exact (ts_call_ret _ _ _ _ E2)|done].
    + eexists. split; [exact (ts_call_ret _ _ _ _ E1)|done].
  - rewrite bool_decide_eq_false_2 by done. eexists. split; [exact (ts_call_ret _ _ _ _ E1)|done].
Qed.
End facts.

(** ** Registering programs with agents *)

(** Concatenations of strings of one length are equal only if the strings are. *)
Lemma join_fixed_inj n (l k : list string) :
  0 < n → Forall (λ s, String.length s = n) l → Forall (λ s, String.length s = n) k →
  join "" l = join "" k → l = k.
Proof.
  intros Hn Hl. revert k.
  assert (∀ c (r : list string), join "" (c :: r) = c +:+ join "" r) as Hj.
  { intros c [|d r]; [by rewrite str_app_nil_r|by rewrite join_cons2, str_app_empty]. }
  induction Hl as [|c l Hc Hl IH]; intros [|d k] Hk E; [done|..].
  - apply Forall_cons in Hk as [Hd _]. rewrite Hj in E. apply (f_equal String.length) in E.
    rewrite length_str_app in E. simpl in E. lia.
  - rewrite Hj in E. apply (f_equal String.length) in E. rewrite length_str_app in E. simpl in E. lia.
  - apply Forall_cons in Hk as [Hd Hk]. rewrite !Hj in E.
    apply str_app_inj_len in E as [-> E]; [|congruence]. f_equal. by apply IH.
Qed.

(** Grouping a list by a key loses nothing. *)
Lemma group_perm {X K} `{EqDecision K} (f : X → K) (xs : list X) (ks : list K) :
  NoDup ks → (∀ x, x ∈ xs → f x ∈ ks) → (ks ≫= λ k, filter (λ x, f x = k) xs) ≡ₚ xs.
Proof.
  intros Hnd. induction xs as [|x xs IH]; intros Hks.
  { clear. induction ks as [|k ks IH]; [done|exact IH]. }
  assert (f x ∈ ks) as (k1 & k2 & ->)%list_elem_of_split by (apply Hks; by left).
  apply NoDup_app in Hnd as (_ & H12 & [H2 _]%NoDup_cons).
  assert (∀ ks', f x ∉ ks' → (ks' ≫= λ k, filter (λ x, f x = k) (x :: xs)) =
    (ks' ≫= λ k, filter (λ x, f x = k) xs)) as Hrest.
  { induction ks' as [|k ks' IH']; intros Hn; [done|]. apply not_elem_of_cons in Hn as [Hk Hn].
    cbn [mbind list_bind]. rewrite IH' by done. by rewrite filter_cons_False. }
  rewrite bind_app. cbn [mbind list_bind]. rewrite filter_cons_True by done.
  rewrite !Hrest; [|done|]. 2: { intros Hin. eapply H12; [exact Hin|by left]. }
  cbn [app]. rewrite <-Permutation_middle. apply perm_skip.
  etrans; [|apply IH; intros y Hy; apply Hks; by right]. by rewrite bind_app.
Qed.

Lemma filter_none {X} (P : X → Prop) `{∀ x, Decision (P x)} (l : list X) : (∀ x, x ∈ l → ¬ P x) → filter P l = [].
Proof.
  induction l as [|x l IH]; intros Hl; [done|].
  rewrite filter_cons_False by (apply Hl; by left). apply IH. intros y Hy. apply Hl. by right.
Qed.

Lemma filter_ext_in {X} (P Q : X → Prop) `{∀ x, Decision (P x)} `{∀ x, Decision (Q x)} (l : list X) :
  (∀ x, x ∈ l → P x ↔ Q x) → filter P l = filter Q l.
Proof.
  induction l as [|x l IH]; intros Hl; [done|].
  assert (filter P l = filter Q l) as E by (apply IH; intros y Hy; apply Hl; by right).
  destruct (decide (P x)) as [HP|HP].
  - rewrite !filter_cons_True by (done || by apply Hl; [left|]). by rewrite E.
  - rewrite !filter_cons_False; [done| |done]. intros HQ. apply HP. apply Hl; [by left|done].
Qed.

Section register.
Context {St : Type} `{!Datastore St} `{U : UUIDLib} `{!UUIDSpec U}.
Context {Ag : Type} `{!AgentMessenger Ag} {log : Ag → list (option (list uuid) * string)}.
Context `{!MessengerSpec Ag log} `{!Proto TracepointMessage} `{!ProtoSpec TracepointMessage}.
Context (sha256_hex : string → string).
Implicit Types (mg : Manager St Ag) (a : Agent) (p : TracepointProgram).

Definition host_of a : option HostInfo := ag_Info a ≫= ai_HostInfo.

(** An agent satisfies a selector. *)
Definition matches (sel : TracepointSelector) a : bool :=
  match host_of a with
  | None => false
  | Some hi =>
    match sel_SelectorType sel with
    | NO_CONDITION => true
    | HOST_NAME => bool_decide (Hostname hi = sel_Value sel)
    | MIN_KERNEL => match parseKernelVersion (sel_Value sel) with inl _ => false | inr v => min_kernel v hi end
    | MAX_KERNEL => match parseKernelVersion (sel_Value sel) with inl _ => false | inr v => max_kernel v hi end
    end
  end.

Definition selected p a : bool := forallb (λ sel, matches sel a) (tpp_Selectors p).

Abbreviation has_host := (λ a, is_Some (host_of a)).

Lemma filter_hosts_run (f : HostInfo → bool) agents mg :
  Forall has_host agents →
  filter_hosts f agents mg = (Ret (filter (λ a, from_option f false (host_of a) = true) agents), mg).
Proof.
  induction 1 as [|a agents [hi Hhi] _ IH]; [done|]. cbn [filter_hosts].
  assert (host_info a mg = (Ret hi, mg)) as E.
  { unfold host_of in Hhi. unfold host_info. destruct (ag_Info a) as [info|]; [|done]. simpl in Hhi.
    unfold mbind, M_bind. simpl. by rewrite Hhi. }
  run_with E. run_with IH. destruct (f hi) eqn:Ef.
  - by rewrite filter_cons_True by (by rewrite Hhi).
  - by rewrite filter_cons_False by (by rewrite Hhi; simpl; rewrite Ef).
Qed.

Lemma FilterAgentsBySelector_run agents sel mg :
  Forall has_host agents →
  FilterAgentsBySelector agents sel mg = (Ret (filter (λ a, matches sel a = true) agents), mg).
Proof.
  intros Hh. unfold FilterAgentsBySelector, filterByMinKernel, filterByMaxKernel, filterByHostName.
  assert (∀ f : HostInfo → bool, (∀ a hi, host_of a = Some hi → matches sel a = f hi) →
    filter (λ a, from_option f false (host_of a) = true) agents = filter (λ a, matches sel a = true) agents) as Hf.
  { intros f Hf. apply filter_ext_in. intros a Ha. destruct (proj1 (Forall_forall _ _) Hh a Ha) as [hi Hhi].
    rewrite (Hf a hi Hhi), Hhi. done. }
  destruct (sel_SelectorType sel) eqn:Es; unfold matches in *; rewrite ?Es in *.
  - unfold mret, M_ret. do 2 f_equal. clear Hf.
    induction Hh as [|a agents [hi Hhi] _ IH]; [done|]. rewrite filter_cons_True by (by rewrite Hhi).
    f_equal. exact IH.
  - destruct (parseKernelVersion (sel_Value sel)) as [e|v].
    + rewrite filter_none; [done|]. intros a Ha. by destruct (host_of a).
    + rewrite filter_hosts_run by done. rewrite Hf; [done|]. by intros a hi ->.
  - destruct (parseKernelVersion (sel_Value sel)) as [e|v].
    + rewrite filter_none; [done|]. intros a Ha. by destruct (host_of a).
    + rewrite filter_hosts_run by done. rewrite Hf; [done|]. by intros a hi ->.
  - rewrite filter_hosts_run by done. rewrite Hf; [done|]. by intros a hi ->.
Qed.

Lemma select_agents_run sels agents mg :
  Forall has_host agents →
  select_agents agents sels mg =
    (Ret (filter (λ a, forallb (λ sel, matches sel a) sels = true) agents), mg).
Proof.
  revert agents. induction sels as [|sel sels IH]; intros agents Hh; cbn [select_agents].
  { unfold mret, M_ret. do 2 f_equal. induction Hh as [|a agents _ _ IH]; [done|].
    rewrite filter_cons_True by done. f_equal. exact IH. }
  run_with (FilterAgentsBySelector_run agents sel mg Hh). rewrite IH.
  - do 2 f_equal. rewrite list_filter_filter. apply filter_ext_in. intros a _. cbn [forallb].
    rewrite andb_true_iff. tauto.
  - apply Forall_forall. intros a [_ Ha]%list_elem_of_filter. by apply (proj1 (Forall_forall _ _) Hh).
Qed.

Definition agent_id a : uuid := UUIDFromProtoOrNil (ag_Info a ≫= ai_AgentID).

Lemma agent_ids_run agents mg : Forall has_host agents → agent_ids agents mg = (Ret (agent_id <$> agents), mg).
Proof.
  induction 1 as [|a agents [hi Hhi] _ IH]; [done|]. cbn [agent_ids]. unfold host_of in Hhi.
  unfold agent_id. destruct (ag_Info a) as [info|] eqn:Ei; [|done].
  rewrite (bind_ret (deref (Some info)) _ mg info mg eq_refl). run_with IH. rewrite fmap_cons. by rewrite Ei.
Qed.

(** The agents of a program, in the order they are messaged, and their hash. *)
Definition targets agents p : list uuid :=
  merge_sort uuid_le (agent_id <$> filter (λ a, selected p a = true) agents).

Definition target_hash agents p : string := sha256_hex (join "" (uuid_String <$> targets agents p)).

(** The hash tells the agent lists of the programs apart. *)
Definition no_collision agents (ps : list TracepointProgram) : Prop :=
  ∀ p q, p ∈ ps → q ∈ ps → target_hash agents p = target_hash agents q →
    join "" (uuid_String <$> targets agents p) = join "" (uuid_String <$> targets agents q).

Lemma same_targets agents ps p q :
  no_collision agents ps → p ∈ ps → q ∈ ps → target_hash agents p = target_hash agents q →
  targets agents p = targets agents q.
Proof.
  intros Hc Hp Hq E. apply Hc in E; [|done|done].
  apply (join_fixed_inj 36) in E; [|lia|apply Forall_fmap, Forall_forall; intros; apply uuid_String_length..].
  assert (Inj (=) (=) uuid_String) as Hinj by (intros u v; apply uuid_String_inj).
  by apply (inj (fmap uuid_String)) in E.
Qed.

(** The two maps after the programs [ps]. *)
Definition grouped agents (ps : list TracepointProgram) (P : gmap string (list (option TracepointProgram)))
    (G : gmap string (list Agent * list uuid)) : Prop :=
  (∀ h, default [] (P !! h) = Some <$> filter (λ p, target_hash agents p = h) ps) ∧
  (∀ h, is_Some (G !! h) ↔ ∃ p, p ∈ ps ∧ target_hash agents p = h) ∧
  (∀ h g, G !! h = Some g → ∃ p, p ∈ ps ∧ target_hash agents p = h ∧ g.2 = targets agents p).

Lemma group_programs_run agents ps qs P G mg :
  Forall (λ a, is_Some (host_of a)) agents → grouped agents qs P G →
  ∃ P' G', group_programs sha256_hex agents (Some <$> ps) P G mg = (Ret (P', G'), mg) ∧
    grouped agents (qs ++ ps) P' G'.
Proof.
  intros Hh. revert qs P G. induction ps as [|p ps IH]; intros qs P G HG.
  { exists P, G. by rewrite app_nil_r. }
  set (h := target_hash agents p). set (valid := filter (λ a, selected p a = true) agents).
  destruct (IH (qs ++ [p]) (<[h := default [] (P !! h) ++ [Some p]]> P) (<[h := (valid, targets agents p)]> G))
    as (P' & G' & E & HG').
  { destruct HG as (H1 & H2 & H3). split_and!.
    - intros h'. rewrite filter_app, fmap_app. destruct (decide (h = h')) as [<-|Hne].
      + rewrite lookup_insert_eq. cbn [default from_option Datatypes.id]. rewrite H1. f_equal.
        by rewrite filter_cons_True.
      + rewrite lookup_insert_ne, H1 by done. rewrite filter_cons_False by done. by rewrite app_nil_r.
    - intros h'. rewrite lookup_insert_is_Some'. setoid_rewrite elem_of_app.
      setoid_rewrite list_elem_of_singleton. rewrite H2. split.
      + intros [<-|(q & Hq & Eq)]; [exists p; auto|exists q; auto].
      + intros (q & [Hq| ->] & Eq); [right; eauto|by left].
    - intros h' g [[<- <-]|[Hne Hg]]%lookup_insert_Some.
      + exists p. split_and!; [apply elem_of_app; right; by left|done|done].
      + destruct (H3 h' g Hg) as (q & Hq & Eq & Hids). exists q. split_and!; [|done|done].
        apply elem_of_app. by left. }
  exists P', G'. split; [|by rewrite <-app_assoc in HG'].
  rewrite fmap_cons. cbn [group_programs]. rewrite (bind_ret (deref (Some p)) _ mg p mg eq_refl).
  run_with (select_agents_run (tpp_Selectors p) agents mg Hh).
  assert (Forall (λ a, is_Some (host_of a)) valid) as Hv.
  { apply Forall_forall. intros a [_ Ha]%list_elem_of_filter. by apply (proj1 (Forall_forall _ _) Hh). }
  rewrite (bind_ret _ _ _ _ _ (agent_ids_run valid mg Hv)). exact E.
Qed.

(** The message with the programs [ps]. *)
Definition registration (tpID : uuid) (dep : TracepointDeployment) (ps : list TracepointProgram) : string :=
  match Marshal (RegisterTracepointRequest (mkTracepointDeployment (td_Name dep) (td_TTL dep)
    (td_DeploymentSpec dep) (Some <$> ps)) (ProtoFromUUID tpID)) with inr b => b | inl _ => "" end.

Lemma send_groups_run tpID dep (P : gmap string (list (option TracepointProgram))) groups
    (f : string → list TracepointProgram) mg :
  (∀ h, default [] (P !! h) = Some <$> f h) →
  wp (send_groups tpID dep P groups) (λ _ mg',
    log (agtMgr mg') = log (agtMgr mg) ++
      ((λ g, (Some g.2.2, registration tpID dep (f g.1))) <$> groups)) mg.
Proof.
  intros HP. revert mg. induction groups as [|[h [ags ids]] groups IH]; intros mg; cbn [send_groups].
  { apply wp_ret. by rewrite app_nil_r. }
  rewrite HP.
  destruct (proto_roundtrip (RegisterTracepointRequest (mkTracepointDeployment (td_Name dep) (td_TTL dep)
    (td_DeploymentSpec dep) (Some <$> f h)) (ProtoFromUUID tpID))) as (b & Eb & _).
  assert (registration tpID dep (f h) = b) as Hreg by (unfold registration; by rewrite Eb).
  rewrite Eb. apply wp_bind, wp_lift_inr, wp_bind. unfold wp at 1, msg_call.
  destruct (msg_agents ids b (agtMgr mg)) as (ag' & -> & Hlog).
  eapply wp_mono; [apply IH|]. intros [] mg' ->. cbn [agtMgr]. rewrite Hlog, <-app_assoc, fmap_cons.
  cbn [fst snd]. by rewrite Hreg.
Qed.

(** C35: Every program reaches exactly the agents that satisfy all its selectors: the
    messages partition the programs, and an agent is among the recipients of a
    message with a program exactly when it is selected by it, for every
    iteration order of the map of groups. *)
Theorem programs_reach_selected_agents ro agents tpID dep ps mg :
  Forall (λ a, is_Some (host_of a)) agents → td_Programs dep = Some <$> ps →
  no_collision agents ps → (∀ G, ro G ≡ₚ map_to_list G) →
  ∃ mg' sends, RegisterTracepoint sha256_hex ro agents tpID dep mg = (Ret tt, mg') ∧
    log (agtMgr mg') = log (agtMgr mg) ++ ((λ s, (Some s.1, registration tpID dep s.2)) <$> sends) ∧
    sends ≫= snd ≡ₚ ps ∧
    ∀ p id, p ∈ ps →
      (∃ s, s ∈ sends ∧ p ∈ s.2 ∧ id ∈ s.1) ↔ ∃ a, a ∈ agents ∧ selected p a = true ∧ agent_id a = id.
Proof.
  intros Hh Hps Hc Hro.
  destruct (group_programs_run agents ps [] ∅ ∅ mg Hh) as (P & G & E & HP & HG & Hg).
  { split_and!; [done| |done]. intros h. split; [by intros [? ?]|]. by intros (p & Hp%not_elem_of_nil & _). }
  cbn [app] in HP, HG, Hg. set (f := λ h, filter (λ p, target_hash agents p = h) ps) in HP.
  destruct (proj1 (wp_run _ _ _) (send_groups_run tpID dep P (ro G) f mg HP)) as ([] & mg' & E' & Hlog).
  exists mg', ((λ g, (g.2.2, f g.1)) <$> ro G). split_and!.
  - unfold RegisterTracepoint. rewrite Hps. run_with E. exact E'.
  - by rewrite Hlog, <-list_fmap_compose.
  - rewrite list_fmap_bind. transitivity ((ro G).*1 ≫= f).
    { by rewrite list_fmap_bind. }
    apply group_perm; [rewrite Hro; apply NoDup_fst_map_to_list|].
    intros p Hp. rewrite Hro, list_elem_of_fmap.
    destruct (proj2 (HG (target_hash agents p))) as [g Eg]; [eauto|].
    exists (target_hash agents p, g). split; [done|]. by apply elem_of_map_to_list.
  - intros p id Hp.
    assert (∀ g, G !! target_hash agents p = Some g → g.2 = targets agents p) as Hsame.
    { intros g (q & Hq & Eq & ->)%Hg. by apply (same_targets agents ps). }
    assert (id ∈ targets agents p ↔ ∃ a, a ∈ agents ∧ selected p a = true ∧ agent_id a = id) as <-.
    { unfold targets. rewrite merge_sort_Permutation, list_elem_of_fmap. setoid_rewrite list_elem_of_filter.
      naive_solver. }
    split.
    + intros (s & Hs & Hf & Hid). apply list_elem_of_fmap in Hs as ([h g] & -> & Hin).
      cbn [fst snd] in *. apply list_elem_of_filter in Hf as [Ehp _]. rewrite Hro in Hin. apply elem_of_map_to_list in Hin. rewrite <-Ehp in Hin.
      by rewrite (Hsame g Hin) in Hid.
    + intros Hid. destruct (proj2 (HG (target_hash agents p))) as [g Eg]; [eauto|].
      exists (g.2, f (target_hash agents p)). split_and!.
      * apply list_elem_of_fmap. exists (target_hash agents p, g). split; [done|].
        rewrite Hro. by apply elem_of_map_to_list.
      * apply list_elem_of_filter. done.
      * cbn [fst]. by rewrite (Hsame g Eg).
Qed.
End register.

(** ** Kernel versions *)

(** The lexicographic order of versions. *)
Definition version_leb (v w : Z * Z * Z) : bool :=
  let '(a, b, c) := v in
  let '(a', b', c') := w in
  ((a <? a') || (a =? a') && ((b <? b') || (b =? b') && (c <=? c')))%Z.

Definition version_string (v : Z * Z * Z) : string :=
  let '(a, b, c) := v in FormatUint a +:+ "." +:+ FormatUint b +:+ "." +:+ FormatUint c.

Definition kernel_version (kv : KernelVersion) : Z * Z * Z := (kv_Version kv, kv_MajorRev kv, kv_MinorRev kv).

Lemma no_dot_digits s v a : digits_val s a = Some v → no_sep "." s = true.
Proof.
  revert a. induction s as [|c s IH]; intros a Hv; [done|].
  rewrite digits_val_cons in Hv. destruct (is_digit c) eqn:Hc; [|done].
  simpl. rewrite (IH _ Hv), andb_true_r. apply bool_decide_eq_true_2. by intros ->.
Qed.

Lemma span_digits_app s v a rest :
  digits_val s a = Some v → (rest = "" ∨ ∃ r, rest = String "." r) → span_digits (s +:+ rest) = (s, rest).
Proof.
  intros Hv Hr. revert a Hv. induction s as [|c s IH]; intros a Hv.
  - rewrite str_app_empty. by destruct Hr as [->|[r ->]].
  - rewrite digits_val_cons in Hv. destruct (is_digit c) eqn:Hc; [|done]. rewrite str_app_cons.
    cbn [span_digits]. by rewrite Hc, (IH _ Hv).
Qed.

Lemma digit_not_space c : is_digit c = true → c ≠ "010"%char ∧ c ≠ "013"%char ∧ is_space c = false.
Proof. destruct c as [[] [] [] [] [] [] [] []]; vm_compute; done. Qed.

Lemma scan_uint32_FormatUint n rest :
  (0 ≤ n < 2 ^ 32)%Z → (rest = "" ∨ ∃ r, rest = String "." r) →
  scan_uint32 (FormatUint n +:+ rest) = inr (n, rest).
Proof.
  intros Hn Hr. pose proof (FormatUint_val n ltac:(lia)) as Hv. pose proof (FormatUint_nonempty n ltac:(lia)) as Hne.
  pose proof (span_digits_app _ _ _ rest Hv Hr) as Hspan. pose proof (ParseUint_FormatUint n 64 ltac:(lia)) as Hp.
  destruct (FormatUint n) as [|c s] eqn:E; [done|]. rewrite str_app_cons in *.
  assert (is_digit c = true) as Hc by (rewrite digits_val_cons in Hv; by destruct (is_digit c)).
  destruct (digit_not_space c Hc) as (H1 & H2 & H3).
  assert (SkipSpace (String c (s +:+ rest)) = inr (String c (s +:+ rest))) as Hs.
  { cbn [SkipSpace]. by rewrite !decide_False, H3 by done. }
  unfold scan_uint32. rewrite Hs, Hspan, Hp. by rewrite (proj2 (Z.ltb_lt _ _)) by lia.
Qed.

Lemma Sscanf_dots_S n s v r :
  scan_uint32 s = inr (v, String "." r) →
  Sscanf_dots (2 + n) s = match Sscanf_dots (1 + n) r with inl e => inl e | inr vs => inr (v :: vs) end.
Proof. intros E. cbn [Sscanf_dots Nat.add]. rewrite E. by rewrite decide_True. Qed.

Definition uint32 (n : Z) : Prop := (0 ≤ n < 2 ^ 32)%Z.

Lemma parseKernelVersion_string a b c :
  uint32 a → uint32 b → uint32 c → parseKernelVersion (version_string (a, b, c)) = inr (a, b, c).
Proof.
  intros Ha Hb Hc. unfold parseKernelVersion, version_string.
  assert (∀ n, uint32 n → no_sep "." (FormatUint n) = true) as Hdot.
  { intros n Hn. eapply no_dot_digits, FormatUint_val. unfold uint32 in Hn. lia. }
  set (sc := FormatUint c). set (sb := FormatUint b +:+ "." +:+ sc).
  assert (split "." (FormatUint a +:+ "." +:+ sb) = [FormatUint a; FormatUint b; sc]) as ->.
  { change (FormatUint a +:+ "." +:+ sb) with (FormatUint a +:+ String "." (FormatUint b +:+ String "." sc)).
    rewrite !split_app_sep, !split_no_sep by (by apply Hdot). done. }
  cbn [length].
  assert (Sscanf_dots 3 (FormatUint a +:+ "." +:+ sb) = inr [a; b; c]) as ->; [|done].
  rewrite (Sscanf_dots_S 1 _ a sb) by (apply scan_uint32_FormatUint; [done|right; by eexists]).
  rewrite (Sscanf_dots_S 0 _ b sc) by (apply scan_uint32_FormatUint; [done|right; by eexists]).
  assert (scan_uint32 sc = inr (c, "")) as E.
  { pose proof (scan_uint32_FormatUint c "" Hc ltac:(by left)) as E. by rewrite str_app_nil_r in E. }
  cbn [Sscanf_dots Nat.add]. by rewrite E.
Qed.

Lemma min_kernel_leb v hi kv :
  Kernel hi = Some kv → min_kernel v hi = version_leb v (kernel_version kv).
Proof.
  intros Hk. unfold min_kernel. rewrite Hk. destruct v as [[a b] c]. unfold version_leb, kernel_version.
  apply bool_ext. rewrite !orb_true_iff, !andb_true_iff, !orb_true_iff, !andb_true_iff, !Z.ltb_lt, !Z.eqb_eq, !Z.leb_le. lia.
Qed.

Lemma max_kernel_leb v hi kv :
  Kernel hi = Some kv → max_kernel v hi = version_leb (kernel_version kv) v.
Proof.
  intros Hk. unfold max_kernel. rewrite Hk. destruct v as [[a b] c]. unfold version_leb, kernel_version.
  apply bool_ext. rewrite !orb_true_iff, !andb_true_iff, !orb_true_iff, !andb_true_iff, !Z.ltb_lt, !Z.eqb_eq, !Z.leb_le. lia.
Qed.

(** The kernel selectors compare versions lexicographically: a printed version
    is read back, and the selector keeps the agents with a known kernel at least
    (at most) as new as it. *)
Theorem kernel_selectors_lexicographic {St : Type} {Ag : Type} a b c agents (mg : Manager St Ag) :
  uint32 a → uint32 b → uint32 c → Forall (λ ag, is_Some (host_of ag)) agents →
  let keep := λ (test : Z * Z * Z → bool) ag,
    match host_of ag ≫= Kernel with Some kv => test (kernel_version kv) | None => false end in
  filterByMinKernel agents (version_string (a, b, c)) mg =
    (Ret (filter (λ ag, keep (version_leb (a, b, c)) ag = true) agents), mg) ∧
  filterByMaxKernel agents (version_string (a, b, c)) mg =
    (Ret (filter (λ ag, keep (λ v, version_leb v (a, b, c)) ag = true) agents), mg).
Proof.
  intros Ha Hb Hc Hh keep. unfold filterByMinKernel, filterByMaxKernel.
  rewrite parseKernelVersion_string by done. rewrite !filter_hosts_run by done.
  split; do 2 f_equal; apply filter_ext_in; intros ag Hag; unfold keep;
    destruct (proj1 (Forall_forall _ _) Hh ag Hag) as [hi Hhi]; rewrite Hhi;
    cbn [from_option mbind option_bind].
  - destruct (Kernel hi) as [kv|] eqn:Ek; [by rewrite (min_kernel_leb _ _ kv)|].
    unfold min_kernel. by rewrite Ek.
  - destruct (Kernel hi) as [kv|] eqn:Ek; [by rewrite (max_kernel_leb _ _ kv)|].
    unfold max_kernel. by rewrite Ek.
Qed.

(** ** Instances on the concrete datastore *)
Module MemTracepoint.
Export MemStore.Mem MemUuid MemProto.

#[export] Instance SelectorType_countable : Countable SelectorType.
Proof.
  refine (inj_countable'
    (λ s, match s with NO_CONDITION => 0 | MAX_KERNEL => 1 | MIN_KERNEL => 2 | HOST_NAME => 3 end)
    (λ n, match n with 0 => NO_CONDITION | 1 => MAX_KERNEL | 2 => MIN_KERNEL | _ => HOST_NAME end) _);
    by intros [].
Defined.
#[export] Instance TracepointSelector_countable : Countable TracepointSelector.
Proof.
  record_countable (λ s, (sel_SelectorType s, sel_Value s)) (λ '(a, b), mkTracepointSelector a b).
Defined.
#[export] Instance TracepointProgram_countable : Countable TracepointProgram.
Proof.
  record_countable (λ p, (tpp_TableName p, tpp_Spec p, tpp_BPFTrace p, tpp_Selectors p))
    (λ '(a, b, c, d), mkTracepointProgram a b c d).
Defined.
#[export] Instance LabelSelector_eq_dec : EqDecision LabelSelector.
Proof. solve_decision. Defined.
#[export] Instance LabelSelector_countable : Countable LabelSelector.
Proof.
  record_countable (λ l, (ls_Labels l, ls_Namespace l, ls_Container l, ls_Process l))
    (λ '(a, b, c, d), mkLabelSelector a b c d).
Defined.
#[export] Instance DeploymentSpec_eq_dec : EqDecision DeploymentSpec.
Proof. solve_decision. Defined.
#[export] Instance DeploymentSpec_countable : Countable DeploymentSpec.
Proof.
  refine (inj_countable'
    (λ d, match d with
          | TargetUnset => inl None
          | TargetUPID u => inl (Some (inl u))
          | TargetSharedObject o => inl (Some (inr o))
          | TargetPodProcess p c r => inr (inl (p, c, r))
          | TargetLabelSelector l => inr (inr l)
          end)
    (λ n, match n with
          | inl None => TargetUnset
          | inl (Some (inl u)) => TargetUPID u
          | inl (Some (inr o)) => TargetSharedObject o
          | inr (inl (p, c, r)) => TargetPodProcess p c r
          | inr (inr l) => TargetLabelSelector l
          end) _); by intros [].
Defined.
#[export] Instance TracepointDeployment_eq_dec : EqDecision TracepointDeployment.
Proof. solve_decision. Defined.
#[export] Instance TracepointDeployment_countable : Countable TracepointDeployment.
Proof.
  record_countable (λ d, (td_Name d, td_TTL d, td_DeploymentSpec d, td_Programs d))
    (λ '(a, b, c, d), mkTracepointDeployment a b c d).
Defined.
#[export] Instance TracepointInfo_eq_dec : EqDecision TracepointInfo.
Proof. solve_decision. Defined.
#[export] Instance TracepointInfo_countable : Countable TracepointInfo.
Proof.
  record_countable (λ t, (tp_ID t, tp_Tracepoint t, tp_Name t, tp_ExpectedState t))
    (λ '(a, b, c, d), mkTracepointInfo a b c d).
Defined.
#[export] Instance AgentTracepointStatus_eq_dec : EqDecision AgentTracepointStatus.
Proof. solve_decision. Defined.
#[export] Instance AgentTracepointStatus_countable : Countable AgentTracepointStatus.
Proof.
  record_countable (λ t, (ats_State t, ats_Status t, ats_ID t, ats_AgentID t))
    (λ '(a, b, c, d), mkAgentTracepointStatus a b c d).
Defined.
#[export] Instance TracepointMessage_eq_dec : EqDecision TracepointMessage.
Proof. solve_decision. Defined.
#[export] Instance TracepointMessage_countable : Countable TracepointMessage.
Proof.
  refine (inj_countable'
    (λ m, match m with RemoveTracepointRequest i => inl i | RegisterTracepointRequest d i => inr (d, i) end)
    (λ n, match n with inl i => RemoveTracepointRequest i | inr (d, i) => RegisterTracepointRequest d i end) _);
    by intros [].
Defined.

(** A messenger that keeps its messages. *)
Definition outbox : Type := list (option (list (@uuid mem_uuid_lib)) * string).
#[export] Instance mem_messenger : AgentMessenger outbox :=
  {| am_MessageAgents ids m l := (None, l ++ [(Some ids, m)]); am_MessageActiveAgents m l := (None, l ++ [(None, m)]) |}.
Definition outbox_log (l : outbox) : list (option (list (@uuid mem_uuid_lib)) * string) := l.
#[export] Instance mem_messenger_spec : MessengerSpec outbox outbox_log.
Proof. split; intros; by eexists. Qed.

Definition abs_none : tp_abs := mkTpAbs ∅ ∅ ∅ ∅.

Lemma none_rep : tp_rep (view := view) (ok := ok) (store ∅) abs_none.
Proof.
  split; [apply store_ok|]. rewrite view_empty. split; cbn [abs_none ta_tps ta_names ta_ttls].
  - split; [|apply map_Forall_empty]. by apply keyed_empty; [apply tps_key_prefix|].
  - by intros name Hn.
  - by apply (keyed_empty (Proto0 := time_proto) (H := uuid_countable)); [apply ttl_key_prefix|].
  - intros id. unfold states_of. cbn [abs_none ta_states]. rewrite lookup_empty.
    by apply keyed_empty; [apply state_key_prefix|].
Qed.

Definition program (spec : string) (sels : list TracepointSelector) : TracepointProgram :=
  mkTracepointProgram "table" (Some spec) None sels.
Definition deployment (ps : list TracepointProgram) : TracepointDeployment :=
  mkTracepointDeployment "tp" None None (Some <$> ps).
Definition dep_1 : TracepointDeployment := deployment [program "p1" []].
Definition dep_2 : TracepointDeployment := deployment [program "p2" []].
Definition noon : gotime := mkTime 0 None.

(** A running tracepoint. *)
Definition abs_one : tp_abs := created uuid_1 "tp" dep_1 (t_ns noon + 60) abs_none.

Lemma good_1 : good_uuid_pb (ProtoFromUUID uuid_1).
Proof. by split. Qed.
Lemma good_2 : good_uuid_pb (ProtoFromUUID uuid_2).
Proof. by split. Qed.
Lemma in_range t : (0 ≤ t < 1000)%Z → time_in_range (time_Add noon t).
Proof. intros Ht. unfold time_in_range. cbn [t_ns time_Add noon]. rewrite Z.div_small; unfold nanos, unixToInternal; lia. Qed.

Lemma one_rep : ∃ mg : Manager St outbox, tp_rep (view := view) (ok := ok) (ts mg) abs_one.
Proof.
  destruct (proj1 (wp_run _ _ _) (create_spec (view := view) (ok := ok) (mkTpManager (store ∅) ([] : outbox))
    abs_none noon uuid_1 "tp" dep_1 60 none_rep eq_refl good_1 I (in_range 60 ltac:(lia))))
    as (r & mg & _ & _ & HR & _). by exists mg.
Qed.

Lemma one_running : running abs_one "tp" uuid_1 dep_1.
Proof. split; [done|]. by exists (new_info uuid_1 "tp" dep_1). Qed.
End MemTracepoint.
Import MemTracepoint.

Lemma expired_tracepoints_terminated_witness :
  ∃ (mg mg' : Manager St outbox), terminateExpiredTracepoints noon (mkTime 100 None) mg = (Ret tt, mg') ∧
    GetTracepoint uuid_1 (ts mg') =
      (Ret (Some (with_state TERMINATED_STATE (new_info uuid_1 "tp" dep_1))), ts mg').
Proof.
  destruct one_rep as [mg HR]. exists mg.
  destruct (expired_tracepoints_terminated (view := view) (ok := ok) noon (mkTime 100 None) mg abs_one HR)
    as (mg' & ids & E & Hget & _). exists mg'. split; [exact E|]. rewrite Hget.
  assert (ta_tps abs_one !! uuid_1 = Some (new_info uuid_1 "tp" dep_1)) as -> by apply lookup_insert_eq.
  assert (live (mkTime 100 None) abs_one uuid_1 = false) as -> by (unfold live, abs_one, created; cbn [ta_ttls set_name set_ttl]; by rewrite lookup_insert_eq).
  reflexivity.
Defined.

Lemma redeploy_unchanged_refreshes_witness :
  ∃ (mg mg' : Manager St outbox),
    CreateTracepoint noon (inr uuid_2) "tp" dep_1 90 mg = (Ret (uuid_1, Some ErrTracepointAlreadyExists), mg').
Proof.
  destruct one_rep as [mg HR]. exists mg.
  destruct (redeploy_unchanged_refreshes (view := view) (ok := ok) mg abs_one noon (inr uuid_2) "tp" dep_1 90 uuid_1 dep_1
    HR eq_refl I (in_range 90 ltac:(lia)) one_running) as (mg' & E & _); [vm_compute; done|]. by exists mg'.
Defined.

Lemma redeploy_changed_replaces_witness :
  ∃ (mg mg1 mg2 : Manager St outbox) prev,
    CreateTracepoint noon (inr uuid_2) "tp" dep_2 90 mg = (Ret (uuid_2, None), mg1) ∧
    terminateExpiredTracepoints noon (mkTime 30 None) mg1 = (Ret tt, mg2) ∧
    GetTracepoint uuid_2 (ts mg2) = (Ret (Some (new_info uuid_2 "tp" dep_2)), ts mg2) ∧
    GetTracepoint uuid_1 (ts mg2) = (Ret (Some (with_state TERMINATED_STATE prev)), ts mg2).
Proof.
  destruct one_rep as [mg HR]. exists mg.
  destruct (redeploy_changed_replaces (view := view) (ok := ok) mg abs_one noon uuid_2 "tp" dep_2 90 uuid_1 dep_1
    noon (mkTime 30 None) HR eq_refl good_2 I (in_range 90 ltac:(lia)) one_running)
    as (mg1 & mg2 & prev & E1 & _ & E2 & E3 & E4 & _); [vm_compute; done|done|vm_compute; done|].
  by exists mg1, mg2, prev.
Defined.

Lemma status_report_effect_witness :
  ∃ (mg mg' : Manager St outbox),
    UpdateAgentTracepointStatus (Some (ProtoFromUUID uuid_1)) (Some (ProtoFromUUID uuid_2)) TERMINATED_STATE None mg
      = (Ret tt, mg') ∧
    tp_rep (view := view) (ok := ok) (ts mg') (remove_tp uuid_1 abs_one).
Proof.
  destruct one_rep as [mg HR]. exists mg.
  exact (status_report_effect (view := view) (ok := ok) mg abs_one uuid_1 uuid_2 TERMINATED_STATE None HR good_1 good_2).
Defined.

(** Two agents, and two programs for different ones of them. *)
Definition agent_on (u : @uuid mem_uuid_lib) (host : string) (kv : option KernelVersion) : Agent :=
  mkAgent (Some (mkAgentInfo (Some (ProtoFromUUID u)) (Some (mkHostInfo host "pod" "ip" kv true)) "" None None)) 0 0 0.
Definition two_agents : list Agent :=
  [agent_on uuid_1 "node-1" (Some (mkKernelVersion 5 4 0)); agent_on uuid_2 "node-2" (Some (mkKernelVersion 4 14 9))].
Definition two_programs : list TracepointProgram :=
  [program "p1" [mkTracepointSelector MIN_KERNEL "5.2.0"]; program "p2" []].

Lemma programs_reach_selected_agents_witness :
  ∃ (mg' : Manager St outbox) (sends : list (list (@uuid mem_uuid_lib) * list TracepointProgram)),
    RegisterTracepoint (λ s, s) map_to_list two_agents uuid_1 (deployment two_programs)
      (mkTpManager (store ∅) ([] : outbox)) = (Ret tt, mg') ∧
    (∀ p id, p ∈ two_programs →
      (∃ s, s ∈ sends ∧ p ∈ s.2 ∧ id ∈ s.1) ↔
        ∃ a, a ∈ two_agents ∧ selected p a = true ∧ agent_id a = id).
Proof.
  destruct (programs_reach_selected_agents (log := outbox_log) (λ s, s) map_to_list two_agents uuid_1
    (deployment two_programs) two_programs (mkTpManager (store ∅) ([] : outbox)))
    as (mg' & sends & E & _ & _ & H);
    [|reflexivity| |intros G; reflexivity|exists mg', sends; split; [exact E|exact H]].
  - apply Forall_cons. split; [by eexists|]. apply Forall_singleton. by eexists.
  - intros p q _ _ E. exact E.
Defined.

Lemma kernel_selectors_lexicographic_witness :
  filterByMinKernel two_agents "5.2.0" (mkTpManager (store ∅) ([] : outbox)) =
    (Ret [agent_on uuid_1 "node-1" (Some (mkKernelVersion 5 4 0))], mkTpManager (store ∅) ([] : outbox)).
Proof.
  destruct (kernel_selectors_lexicographic 5 2 0 two_agents (mkTpManager (store ∅) ([] : outbox)))
    as [E _]; [vm_compute; done..| |exact E].
  apply Forall_cons. split; [by eexists|]. apply Forall_singleton. by eexists.
Defined.
