(* ===== verification/TracepointServer.v ===== *)
(** * The metadata server's tracepoint endpoints

    The rest of [controllers/server.go]: registering, inspecting and removing
    tracepoints, with the conversion of label selectors to pods, and the update
    of an agent's configuration.  The stores share one datastore, as in the
    service. *)

From S2P Require Import Prelude GoLib Datastore Uuid Messages StoreLib K8sStore TracepointStore Tracepoint.
From Stdlib Require Import Ascii.

(** Codes of [statuspb.Code] the server uses. *)
Definition code_OK : Z := 0.
Definition code_NOT_FOUND : Z := 5.
Definition code_ALREADY_EXISTS : Z := 6.
Definition code_FAILED_PRECONDITION : Z := 13.

(** What the server uses of the agent manager, besides its messenger part. *)
Class AgentManagerAPI `{U : UUIDLib} (Ag : Type) `{!AgentMessenger Ag} := {
  ag_GetActiveAgents : Ag → (error + list Agent) * Ag;
  ag_UpdateConfig : string → string → string → string → Ag → option error * Ag
}.

(** One request of [RegisterTracepointRequest]; the TTL with the result of its
    conversion to a duration. *)
Record TracepointRequest := mkTracepointRequest {
  trq_TracepointDeployment : TracepointDeployment;
  trq_Name : string;
  trq_TTL : error + Z
}.

Record RegisterStatus := mkRegisterStatus { rs_ID : UUIDpb; rs_ErrCode : Z; rs_Name : string }.

Record TracepointState := mkTracepointState {
  tst_ID : option UUIDpb;
  tst_State : LifeCycleState;
  tst_Statuses : list (option Status);
  tst_Name : string;
  tst_ExpectedState : LifeCycleState;
  tst_SchemaNames : list string
}.

Section server.
Context {St : Type} `{!Datastore St} `{U : UUIDLib} {Ag : Type} `{!AgentMessenger Ag} `{!AgentManagerAPI Ag}.
Context `{!Proto TracepointInfo} `{!Proto AgentTracepointStatus} `{!Proto UUIDpb} `{!Proto TracepointMessage}.
Context (sha256_hex : string → string).

(** Iteration orders of the maps the endpoints range over. *)
Context (lo : gmap string string → list (string * string)) (po : gmap string Z → list (string * Z)).
Context (ro : gmap string (list Agent * list uuid) → list (string * (list Agent * list uuid))).

Definition ConvertLabelsToPods (tp : TracepointDeployment) : M (Manager St Ag) TracepointDeployment :=
  match td_DeploymentSpec tp with
  | Some (TargetLabelSelector ls) =>
    if decide (ls_Labels ls = ∅) then mret tp
    else
      let namespace := ls_Namespace ls in
      pods ← ts_call (FetchPodsWithLabels lo po namespace (ls_Labels ls));
      match pods with
      | [] => mret tp
      | _ =>
        let pods := (λ pod, namespace +:+ "/" +:+ pod) <$> pods in
        mret (mkTracepointDeployment (td_Name tp) (td_TTL tp)
          (Some (TargetPodProcess pods (ls_Container ls) (ls_Process ls))) (td_Programs tp))
      end
  | _ => mret tp
  end.

Definition agent_call (f : Ag → (error + list Agent) * Ag) : M (Manager St Ag) (list Agent) := λ mg,
  let '(r, ag) := f (agtMgr mg) in
  (match r with inr l => Ret l | inl e => Err e end, mkTpManager (ts mg) ag).

(** [news] are the times and fresh identifiers of the requests. *)
Fixpoint RegisterTracepoints (reqs : list TracepointRequest) (news : list (gotime * (error + uuid)))
    : M (Manager St Ag) (list RegisterStatus) :=
  match reqs, news with
  | tp :: reqs, (now, newV4) :: news =>
    ttl ← lift_sum (trq_TTL tp);
    dep ← ConvertLabelsToPods (trq_TracepointDeployment tp);
    res ← CreateTracepoint now newV4 (trq_Name tp) dep ttl;
    match res with
    | (tracepointID, Some _) =>
      rest ← RegisterTracepoints reqs news;
      mret (mkRegisterStatus (ProtoFromUUID tracepointID) code_ALREADY_EXISTS (trq_Name tp) :: rest)
    | (tracepointID, None) =>
      agents ← agent_call ag_GetActiveAgents;
      _ ← RegisterTracepoint sha256_hex ro agents tracepointID dep;
      rest ← RegisterTracepoints reqs news;
      mret (mkRegisterStatus (ProtoFromUUID tracepointID) code_OK (trq_Name tp) :: rest)
    end
  | _, _ => mret []
  end.

(** The counters of the loop and the collected failure statuses. *)
Record state_counts := mkCounts {
  numFailed : nat; numTerminated : nat; numPending : nat; numRunning : nat; failures : list (option Status)
}.

Fixpoint count_states (agentStates : list (option AgentTracepointStatus)) (c : state_counts)
    : M (Manager St Ag) state_counts :=
  match agentStates with
  | [] => mret c
  | s :: agentStates =>
    s ← deref s;
    match ats_State s with
    | TERMINATED_STATE =>
      count_states agentStates (mkCounts (numFailed c) (numTerminated c + 1) (numPending c) (numRunning c) (failures c))
    | FAILED_STATE =>
      status ← deref (ats_Status s);
      let failures := if ((st_ErrCode status =? code_FAILED_PRECONDITION) || (st_ErrCode status =? code_OK))%Z
                      then failures c else failures c ++ [Some status] in
      count_states agentStates (mkCounts (numFailed c + 1) (numTerminated c) (numPending c) (numRunning c) failures)
    | PENDING_STATE =>
      count_states agentStates (mkCounts (numFailed c) (numTerminated c) (numPending c + 1) (numRunning c) (failures c))
    | RUNNING_STATE =>
      count_states agentStates (mkCounts (numFailed c) (numTerminated c) (numPending c) (numRunning c + 1) (failures c))
    | UNKNOWN_STATE => count_states agentStates c
    end
  end.

Definition getTracepointStateFromAgentTracepointStates (agentStates : list (option AgentTracepointStatus))
    : M (Manager St Ag) (LifeCycleState * list (option Status)) :=
  match agentStates with
  | [] => mret (PENDING_STATE, [])
  | first :: _ =>
    c ← count_states agentStates (mkCounts 0 0 0 0 []);
    if 0 <? numTerminated c then mret (TERMINATED_STATE, [])
    else if 0 <? numRunning c then mret (RUNNING_STATE, [])
    else if 0 <? numPending c then mret (PENDING_STATE, [])
    else if 0 <? numFailed c then
      match failures c with
      | [] => first ← deref first; mret (FAILED_STATE, [ats_Status first])
      | l => mret (FAILED_STATE, l)
      end
    else mret (UNKNOWN_STATE, [])
  end.

Fixpoint table_names (programs : list (option TracepointProgram)) : M (Manager St Ag) (list string) :=
  match programs with
  | [] => mret []
  | t :: programs => t ← deref t; rest ← table_names programs; mret (tpp_TableName t :: rest)
  end.

(** The loop over the infos; [i] is the index into the requested identifiers. *)
Fixpoint tracepoint_states (reqIDs : list (option UUIDpb)) (i : nat) (infos : list (option TracepointInfo))
    : M (Manager St Ag) (list TracepointState) :=
  match infos with
  | [] => mret []
  | None :: infos =>
    id ← index reqIDs i;
    rest ← tracepoint_states reqIDs (i + 1) infos;
    mret (mkTracepointState id UNKNOWN_STATE [Some (mkStatus code_NOT_FOUND "" None)] "" UNKNOWN_STATE [] :: rest)
  | Some tp :: infos =>
    let tUUID := UUIDFromProtoOrNil (tp_ID tp) in
    states ← ts_call (GetTracepointStates tUUID);
    st ← getTracepointStateFromAgentTracepointStates states;
    dep ← deref (tp_Tracepoint tp);
    schemas ← table_names (td_Programs dep);
    rest ← tracepoint_states reqIDs (i + 1) infos;
    mret (mkTracepointState (tp_ID tp) st.1 st.2 (tp_Name tp) (tp_ExpectedState tp) schemas :: rest)
  end.

Definition GetTracepointInfos (reqIDs : list (option UUIDpb)) : M (Manager St Ag) (list TracepointState) :=
  infos ← (match reqIDs with
           | [] => GetAllTracepoints
           | _ => ts_call (GetTracepointsForIDs (UUIDFromProtoOrNil <$> reqIDs))
           end);
  tracepoint_states reqIDs 0 infos.

Definition RemoveTracepoint (names : list string) : M (Manager St Ag) Z :=
  _ ← RemoveTracepoints names;
  mret code_OK.

Definition UpdateConfig (agentPodName key value : string) : M (Manager St Ag) Z :=
  match split "/" agentPodName with
  | [ns; pod] => _ ← msg_call (ag_UpdateConfig ns pod key value); mret code_OK
  | _ => fail (ErrMsg "Incorrectly formatted pod name. Must be of the form '<ns>/<podName>'")
  end.
End server.

(** ** The state of a tracepoint *)
Section aggregate.
Context {St : Type} `{U : UUIDLib} {Ag : Type}.
Implicit Types (mg : Manager St Ag) (l : list AgentTracepointStatus).

Definition in_state (st : LifeCycleState) l : list AgentTracepointStatus := filter (λ s, ats_State s = st) l.

(** A failure that carries information of its own. *)
Definition real_failure (s : AgentTracepointStatus) : bool :=
  bool_decide (ats_State s = FAILED_STATE) &&
  match ats_Status s with
  | Some status => negb ((st_ErrCode status =? code_FAILED_PRECONDITION) || (st_ErrCode status =? code_OK))%Z
  | None => false
  end.

Definition failed_have_status l : Prop := ∀ s, s ∈ l → ats_State s = FAILED_STATE → is_Some (ats_Status s).

Lemma length_in_state_cons st s l :
  length (in_state st (s :: l)) = (if decide (ats_State s = st) then 1 else 0) + length (in_state st l).
Proof. unfold in_state. rewrite filter_cons. by destruct (decide (ats_State s = st)). Qed.

Lemma real_failures_cons s l :
  filter (λ s, real_failure s = true) (s :: l) =
    (if real_failure s then [s] else []) ++ filter (λ s, real_failure s = true) l.
Proof.
  destruct (real_failure s) eqn:E; [by rewrite filter_cons_True|]. by rewrite filter_cons_False by (by rewrite E).
Qed.

Lemma count_states_run l c mg :
  failed_have_status l →
  count_states (Some <$> l) c mg = (Ret (mkCounts (numFailed c + length (in_state FAILED_STATE l))
    (numTerminated c + length (in_state TERMINATED_STATE l)) (numPending c + length (in_state PENDING_STATE l))
    (numRunning c + length (in_state RUNNING_STATE l)) (failures c ++ (ats_Status <$> filter (λ s, real_failure s = true) l))), mg).
Proof.
  revert c. induction l as [|s l IH]; intros c Hl.
  { destruct c. cbn. by rewrite !Nat.add_0_r, app_nil_r. }
  assert (failed_have_status l) as Hl' by (intros s' Hs'; apply Hl; by right).
  rewrite fmap_cons. cbn [count_states]. rewrite (bind_ret (deref (Some s)) _ mg s mg eq_refl).
  rewrite !length_in_state_cons, real_failures_cons, fmap_app.
  assert (ats_State s ≠ FAILED_STATE → real_failure s = false) as Hreal.
  { intros Hs. unfold real_failure. by rewrite bool_decide_eq_false_2. }
  assert (∀ status, ats_State s = FAILED_STATE → ats_Status s = Some status → real_failure s =
    negb ((st_ErrCode status =? code_FAILED_PRECONDITION) || (st_ErrCode status =? code_OK))%Z) as Hfail.
  { intros status Hs Hst. unfold real_failure. by rewrite bool_decide_eq_true_2, Hst. }
  pose proof (Hl s ltac:(by left)) as Hst. clear Hl. destruct (ats_State s);
    try (rewrite (Hreal ltac:(done)), IH by done;
         cbn [numFailed numTerminated numPending numRunning failures fmap list_fmap app];
         repeat case_decide; try done; do 2 f_equal; f_equal; lia).
  destruct (Hst eq_refl) as [status Est]. rewrite (Hfail status eq_refl Est), Est.
  rewrite (bind_ret (deref (Some status)) _ mg status mg eq_refl). rewrite IH by done.
  cbn [numFailed numTerminated numPending numRunning failures].
  destruct (_ || _); cbn [negb fmap list_fmap app]; repeat case_decide; try done; do 2 f_equal; f_equal; try lia.
  by rewrite <-app_assoc, Est.
Qed.

(** The first of the states that some agent reports, in the order terminated,
    running, pending, failed. *)
Definition overall l : LifeCycleState :=
  default UNKNOWN_STATE (head (filter (λ st, in_state st l ≠ [])
    [TERMINATED_STATE; RUNNING_STATE; PENDING_STATE; FAILED_STATE])).

(** The state reported for a tracepoint with agent states is the overall one; a
    failed tracepoint comes with the agents' failures that are not mere unmet
    preconditions, or with the first agent's status if there are none, and any
    other with no status.  Without agent states it is pending. *)
Theorem tracepoint_state_priority l mg :
  failed_have_status l →
  getTracepointStateFromAgentTracepointStates (Some <$> l) mg =
    (Ret (match l with
          | [] => (PENDING_STATE, [])
          | s :: _ =>
            (overall l,
             if decide (overall l = FAILED_STATE) then
               match filter (λ s, real_failure s = true) l with
               | [] => [ats_Status s]
               | fs => ats_Status <$> fs
               end
             else [])
          end), mg).
Proof.
  intros Hl. destruct l as [|s l']; [done|]. set (l := s :: l') in *. unfold getTracepointStateFromAgentTracepointStates.
  change (Some <$> l) with (Some s :: (Some <$> l')). cbv beta iota.
  change (Some s :: (Some <$> l')) with (Some <$> l).
  run_with (count_states_run l (mkCounts 0 0 0 0 []) mg Hl). cbn [numFailed numTerminated numPending numRunning failures].
  rewrite !Nat.add_0_l, app_nil_l. set (fs := filter (λ s, real_failure s = true) l). unfold overall.
  assert (∀ st, (0 <? length (in_state st l)) = negb (bool_decide (in_state st l = []))) as Hlen.
  { intros st. by destruct (in_state st l). }
  rewrite !Hlen, !filter_cons, filter_nil.
  destruct (in_state TERMINATED_STATE l) eqn:E1; [|done].
  destruct (in_state RUNNING_STATE l) eqn:E2; [|done].
  destruct (in_state PENDING_STATE l) eqn:E3; [|done].
  destruct (in_state FAILED_STATE l) eqn:E4; [done|].
  clearbody fs. cbn. by destruct fs.
Qed.
End aggregate.

Lemma tracepoint_state_priority_witness :
  getTracepointStateFromAgentTracepointStates (Some <$> [mkAgentTracepointStatus FAILED_STATE (Some (mkStatus 9 "x" None)) None None;
      mkAgentTracepointStatus RUNNING_STATE None None None]) (mkTpManager tt tt)
    = (Ret (RUNNING_STATE, []), mkTpManager tt tt).
Proof.
  apply (tracepoint_state_priority [mkAgentTracepointStatus FAILED_STATE (Some (mkStatus 9 "x" None)) None None;
    mkAgentTracepointStatus RUNNING_STATE None None None] (mkTpManager tt tt)).
  intros s [->|[->|?%not_elem_of_nil]%elem_of_cons]%elem_of_cons; [by eexists|done|done].
Defined.
