(* ===== verification/AgentListener.v ===== *)
(** * The listener for messages of the agents

    [controllers/agent_topic_listener.go] and the dispatch of
    [controllers/message_bus.go].  Every agent has a handler with a queue and a
    goroutine of its own, which registers the agent, answers its heartbeats and
    deletes it when it is silent for a minute; the goroutine of the message bus puts
    the messages into the queues.  The goroutines and what they block on are a
    transition system; the calls on the two managers are atomic in it. *)

From S2P Require Import Prelude GoLib Datastore Uuid Messages MessageBus StoreLib AgentSchema AgentStore AgentManager TracepointStore Tracepoint.
From Stdlib Require Import Ascii.

(** ** Messages *)

Record Heartbeat := mkHeartbeat {
  hb_AgentID : option UUIDpb;
  hb_Time : Z;
  hb_UpdateInfo : option AgentUpdateInfo;
  hb_SequenceNumber : Z
}.

Record RegisterAgentRequest := mkRegisterAgentRequest { rar_Info : option AgentInfo; rar_ASID : Z }.

Record TracepointInfoUpdate := mkTracepointInfoUpdate {
  tiu_ID : option UUIDpb;
  tiu_State : LifeCycleState;
  tiu_Status : option Status;
  tiu_AgentID : option UUIDpb
}.

(** What an agent sends: the oneof of [VizierMessage], with the oneof of
    [TracepointMessage]; the types the listener does not handle are one case. *)
Inductive tracepoint_message : Type :=
| TracepointMessage_TracepointInfoUpdate (m : TracepointInfoUpdate)
| TracepointMessage_other.

Inductive vizier_message : Type :=
| VizierMessage_Heartbeat (m : Heartbeat)
| VizierMessage_RegisterAgentRequest (m : RegisterAgentRequest)
| VizierMessage_TracepointMessage (m : option tracepoint_message)
| VizierMessage_other.

(** What the listener sends. *)
Inductive agent_reply : Type :=
| HeartbeatNack (reregister : bool)
| HeartbeatAck (time sequence_number : Z) (service_cidr : string) (pod_cidrs : list string)
| RegisterAgentResponse (asid : Z).

(** Reading a message; one without a type is [None]. *)
Class VizierProto := { vm_Unmarshal : string → error + option vizier_message }.

(** ** The managers *)

(** The interface [agent.Manager], as far as the listener uses it, the methods it
    calls on the tracepoint manager, and [SendMessageFn]. *)
Class MetadataService `{U : UUIDLib} (W : Type) := {
  ms_GetActiveAgents : M W (list Agent);
  ms_DeleteAgent : range_order → uuid → M W unit;
  ms_GetAgentIDForHostnamePair : HostnameIPPair → M W string;
  ms_RegisterAgent : Z → Z → Agent → M W Z;
  ms_UpdateHeartbeat : Z → uuid → M W unit;
  ms_ApplyAgentUpdate : range_order → Update → M W unit;
  ms_GetServiceCIDR : W → string;
  ms_GetPodCIDRs : W → list string;
  ms_UpdateAgentTracepointStatus : option UUIDpb → option UUIDpb → LifeCycleState → option Status → M W unit;
  ms_GetAllTracepoints : M W (list (option TracepointInfo));
  ms_RegisterTracepoint : list Agent → uuid → TracepointDeployment → M W unit;
  ms_DeleteTracepointsForAgent : uuid → M W unit;
  ms_sendMessage : string → string → M W unit
}.

(** ** The goroutines *)

(** Where the goroutine of a handler is: not started; at the first [select] of its
    loop; at the second; in [Stop] of the handler [q] for a registration; in the
    three calls of its deferred function; ended. *)
Inductive handler_pc : Type :=
| HStart | HLoop | HSelect | HStopping (m : RegisterAgentRequest) (q : nat)
| HDeleteAgent | HDeleteHandler | HDeleteTracepoints | HDone.

(** [wg.Wait] does not block: the counter is raised when the goroutine runs. *)
Definition wg_zero (pc : handler_pc) : bool :=
  match pc with HStart | HDone => true | _ => false end.

(** The goroutine of the message bus waits for a message, or for room in the queue
    of a handler. *)
Inductive bus_pc : Type := BReceive | BSend (q : nat) (data : string).

(** The goroutine that closes the listener. *)
Inductive closer_pc : Type := CIdle | CStop (qs : list nat) | CWait (q : nat) (qs : list nat).

Definition queue_size : nat := 10.
Definition agentExpirationTimeout : Z := 60 * 1000000000.
Definition updateAgentTopic : string := "UpdateAgent".

Section listener.
Context `{U : UUIDLib} {W : Type} `{!MetadataService W} `{!VizierProto} `{!Proto agent_reply}.

Record AgentHandler := mkAgentHandler {
  ah_id : uuid;
  ah_MsgChannel : list string;
  ah_quit : bool;
  ah_deadline : Z;
  ah_pc : handler_pc
}.

(** The listener with the managers, the handlers by address, the goroutines that
    register the tracepoints on a new agent, and the clock. *)
Record AgentTopicListener := mkListener {
  world : W;
  agentMap : gmap uuid nat;
  ahandlers : list AgentHandler;
  bus : bus_pc;
  wasLeader : bool;
  closer : closer_pc;
  tasks : list Agent;
  clock : Z
}.
Implicit Types (l : AgentTopicListener) (h : AgentHandler).

Definition set_world (w : W) l := mkListener w (agentMap l) (ahandlers l) (bus l) (wasLeader l) (closer l) (tasks l) (clock l).
Definition set_map x l := mkListener (world l) x (ahandlers l) (bus l) (wasLeader l) (closer l) (tasks l) (clock l).
Definition set_handlers x l := mkListener (world l) (agentMap l) x (bus l) (wasLeader l) (closer l) (tasks l) (clock l).
Definition set_bus x l := mkListener (world l) (agentMap l) (ahandlers l) x (wasLeader l) (closer l) (tasks l) (clock l).
Definition set_wasLeader x l := mkListener (world l) (agentMap l) (ahandlers l) (bus l) x (closer l) (tasks l) (clock l).
Definition set_closer x l := mkListener (world l) (agentMap l) (ahandlers l) (bus l) (wasLeader l) x (tasks l) (clock l).
Definition set_tasks x l := mkListener (world l) (agentMap l) (ahandlers l) (bus l) (wasLeader l) (closer l) x (clock l).
Definition set_clock x l := mkListener (world l) (agentMap l) (ahandlers l) (bus l) (wasLeader l) (closer l) (tasks l) x.

Definition with_pc pc h := mkAgentHandler (ah_id h) (ah_MsgChannel h) (ah_quit h) (ah_deadline h) pc.
Definition with_queue q h := mkAgentHandler (ah_id h) q (ah_quit h) (ah_deadline h) (ah_pc h).
Definition with_quit h := mkAgentHandler (ah_id h) (ah_MsgChannel h) true (ah_deadline h) (ah_pc h).
Definition with_deadline t h := mkAgentHandler (ah_id h) (ah_MsgChannel h) (ah_quit h) t (ah_pc h).

(** Changing the handler at an address. *)
Definition upd (p : nat) (f : AgentHandler → AgentHandler) l := set_handlers (alter f p (ahandlers l)) l.

Definition w_call {A} (m : M W A) : M AgentTopicListener A := zoom world set_world m.

(** ** The listener *)

Definition SendMessageToAgent (agentID : uuid) (msg : agent_reply) : M AgentTopicListener unit :=
  b ← lift_sum (Marshal msg);
  w_call (ms_sendMessage (AgentUUIDTopic agentID) b).

Definition createAgentHandler (agentID : uuid) : M AgentTopicListener nat :=
  l ← get_state;
  match agentMap l !! agentID with
  | Some ah => mret ah
  | None =>
    let p := length (ahandlers l) in
    _ ← put_state (set_map (<[agentID := p]> (agentMap l))
          (set_handlers (ahandlers l ++ [mkAgentHandler agentID [] false 0 HStart]) l));
    mret p
  end.

Fixpoint create_handlers (agents : list Agent) : M AgentTopicListener unit :=
  match agents with
  | [] => mret tt
  | agt :: agents =>
    info ← deref (ag_Info agt);
    agentID ← lift_sum (UUIDFromProto (ai_AgentID info));
    _ ← createAgentHandler agentID;
    create_handlers agents
  end.

Definition Initialize : M AgentTopicListener unit :=
  agents ← w_call ms_GetActiveAgents;
  create_handlers agents.

(** The handler a message is to be sent to, if any. *)
Definition forwardAgentHeartBeat (m : Heartbeat) : M AgentTopicListener (option nat) :=
  match UUIDFromProto (hb_AgentID m) with
  | inl _ => mret None
  | inr agentID =>
    l ← get_state;
    match agentMap l !! agentID with
    | Some agentHandler => mret (Some agentHandler)
    | None => _ ← logged (SendMessageToAgent agentID (HeartbeatNack true)); mret None
    end
  end.

Definition forwardAgentRegisterRequest (m : RegisterAgentRequest) : M AgentTopicListener (option nat) :=
  info ← deref (rar_Info m);
  match UUIDFromProto (ai_AgentID info) with
  | inl _ => mret None
  | inr agentID =>
    l ← get_state;
    match agentMap l !! agentID with
    | Some agentHandler => mret (Some agentHandler)
    | None => agentHandler ← createAgentHandler agentID; mret (Some agentHandler)
    end
  end.

(** The default case of the switch prints the dynamic type of the oneof, which
    panics for a nil one. *)
Definition onAgentTracepointMessage (pbMessage : option tracepoint_message) : M AgentTopicListener unit :=
  match pbMessage with
  | None => panic NilDeref
  | Some (TracepointMessage_TracepointInfoUpdate m) =>
    logged (w_call (ms_UpdateAgentTracepointStatus (tiu_ID m) (tiu_AgentID m) (tiu_State m) (tiu_Status m)))
  | Some TracepointMessage_other => mret tt
  end.

Definition HandleMessage (data : string) : M AgentTopicListener (option nat) :=
  match vm_Unmarshal data with
  | inl _ | inr None => mret None
  | inr (Some pb) =>
    match pb with
    | VizierMessage_Heartbeat m => forwardAgentHeartBeat m
    | VizierMessage_RegisterAgentRequest m => forwardAgentRegisterRequest m
    | VizierMessage_TracepointMessage m => _ ← onAgentTracepointMessage m; mret None
    | VizierMessage_other => mret None
    end
  end.

(** One round of [handleMessages] of the message bus; the metadata listener has a
    queue of its own and does not touch this state. *)
Definition handleMessages (isLeader : bool) (subject data : string) : M AgentTopicListener (option nat) :=
  l ← get_state;
  _ ← (if negb (wasLeader l) && isLeader then logged Initialize else mret tt);
  _ ← modify (set_wasLeader isLeader);
  if negb isLeader then mret None
  else if decide (subject = updateAgentTopic) then HandleMessage data else mret None.

Definition deleteAgent (agentID : uuid) : M AgentTopicListener unit :=
  _ ← logged (SendMessageToAgent agentID (HeartbeatNack false));
  modify (λ l, set_map (delete agentID (agentMap l)) l).

(** ** A handler *)

Definition onAgentHeartbeat (r : range_order) (now1 now2 : Z) (agentID : uuid) (m : Heartbeat) : M AgentTopicListener unit :=
  res ← try (w_call (ms_UpdateHeartbeat now1 agentID));
  match res with
  | inl _ => logged (SendMessageToAgent agentID (HeartbeatNack true))
  | inr _ =>
    l ← get_state;
    _ ← logged (SendMessageToAgent agentID
          (HeartbeatAck now2 (hb_SequenceNumber m) (ms_GetServiceCIDR (world l)) (ms_GetPodCIDRs (world l))));
    match hb_UpdateInfo m with
    | Some info => logged (w_call (ms_ApplyAgentUpdate r (mkUpdate info agentID)))
    | None => mret tt
    end
  end.

(** [onAgentRegisterRequest] up to [StopAgent]: the handler to be stopped, if any;
    its channel is closed. *)
Definition register_begin (m : RegisterAgentRequest) : M AgentTopicListener (option nat) :=
  info ← deref (rar_Info m);
  caps ← deref (ai_Capabilities info);
  hostname ← (if CollectsData caps then mret "" else hi ← deref (ai_HostInfo info); mret (Hostname hi));
  hi ← deref (ai_HostInfo info);
  res ← try (w_call (ms_GetAgentIDForHostnamePair (mkHostnameIPPair hostname (HostIP hi))));
  let hostnameAgID := match res with inl _ => "" | inr s => s end in
  if decide (hostnameAgID = "") then mret None
  else
    match uuid_FromString hostnameAgID with
    | inl _ => mret None
    | inr delAgID =>
      l ← get_state;
      match agentMap l !! delAgID with
      | None => mret None
      | Some q => _ ← put_state (upd q with_quit l); mret (Some q)
      end
    end.

(** The rest of it, with the readings of the clock. *)
Definition register_finish (now1 now2 now3 now4 : Z) (agentID : uuid) (m : RegisterAgentRequest)
    : M AgentTopicListener unit :=
  info ← deref (rar_Info m);
  let info := mkAgentInfo (Some (ProtoFromUUID agentID)) (ai_HostInfo info) (ai_IPAddress info)
    (ai_Capabilities info) (ai_Parameters info) in
  let agentInfo := mkAgent (Some info) now2 now1 (rar_ASID m) in
  res ← try (w_call (ms_RegisterAgent now3 now4 agentInfo));
  match res with
  | inl _ => mret tt
  | inr asid =>
    sent ← try (SendMessageToAgent agentID (RegisterAgentResponse asid));
    match sent with
    | inl _ => mret tt
    | inr _ => modify (λ l, set_tasks (tasks l ++ [agentInfo]) l)
    end
  end.

(** The goroutine that registers all tracepoints on a new agent. *)
Fixpoint register_tracepoints (agent : Agent) (tracepoints : list (option TracepointInfo)) : M AgentTopicListener unit :=
  match tracepoints with
  | [] => mret tt
  | tp :: tracepoints =>
    tp ← deref tp;
    _ ← (if decide (tp_ExpectedState tp = TERMINATED_STATE) then mret tt
         else logged (dep ← deref (tp_Tracepoint tp);
           w_call (ms_RegisterTracepoint [agent] (UUIDFromProtoOrNil (tp_ID tp)) dep)));
    register_tracepoints agent tracepoints
  end.

Definition run_task (agent : Agent) : M AgentTopicListener unit :=
  res ← try (w_call ms_GetAllTracepoints);
  match res with inl _ => mret tt | inr tracepoints => register_tracepoints agent tracepoints end.

(** [timer.Reset] and the next round of the loop. *)
Definition next_round (p : nat) : M AgentTopicListener unit :=
  modify (λ l, upd p (λ h, with_pc HLoop (with_deadline (clock l + agentExpirationTimeout) h)) l).

(** The readings of the clock of one round. *)
Record nows := mkNows { now1 : Z; now2 : Z; now3 : Z; now4 : Z }.

(** A message in the second [select]; a message that cannot be read does not reset
    the timer. *)
Definition handle_one (r : range_order) (t : nows) (p : nat) (id : uuid) (data : string) : M AgentTopicListener unit :=
  match vm_Unmarshal data with
  | inl _ => modify (upd p (with_pc HLoop))
  | inr None => panic NilDeref
  | inr (Some (VizierMessage_Heartbeat m)) =>
    _ ← onAgentHeartbeat r (now1 t) (now2 t) id m;
    next_round p
  | inr (Some (VizierMessage_RegisterAgentRequest m)) =>
    target ← register_begin m;
    match target with
    | Some q => modify (upd p (with_pc (HStopping m q)))
    | None => _ ← register_finish (now1 t) (now2 t) (now3 t) (now4 t) id m; next_round p
    end
  | inr (Some _) => next_round p
  end.

(** The deferred function, call by call. *)
Definition cleanup (r : range_order) (p : nat) (h : AgentHandler) : M AgentTopicListener unit :=
  match ah_pc h with
  | HDeleteAgent =>
    _ ← logged (w_call (ms_DeleteAgent r (ah_id h)));
    modify (upd p (with_pc HDeleteHandler))
  | HDeleteHandler =>
    _ ← deleteAgent (ah_id h);
    modify (upd p (with_pc HDeleteTracepoints))
  | HDeleteTracepoints =>
    _ ← logged (w_call (ms_DeleteTracepointsForAgent (ah_id h)));
    modify (upd p (with_pc HDone))
  | _ => mret tt
  end.

Definition cleaning (pc : handler_pc) : bool :=
  match pc with HDeleteAgent | HDeleteHandler | HDeleteTracepoints => true | _ => false end.

(** ** Transitions *)

Definition pc_at l (p : nat) : option handler_pc := ah_pc <$> ahandlers l !! p.

Inductive lstep : AgentTopicListener → AgentTopicListener → Prop :=
(* The message bus. *)
| step_receive l isLeader subject data target l' :
    bus l = BReceive → handleMessages isLeader subject data l = (Ret target, l') →
    lstep l (set_bus (match target with Some q => BSend q data | None => BReceive end) l')
| step_send l q data h :
    bus l = BSend q data → ahandlers l !! q = Some h → length (ah_MsgChannel h) < queue_size →
    lstep l (set_bus BReceive (upd q (λ h, with_queue (ah_MsgChannel h ++ [data]) h) l))
(* The goroutine of a handler. *)
| step_start l p h :
    ahandlers l !! p = Some h → ah_pc h = HStart →
    lstep l (upd p (λ h, with_pc HLoop (with_deadline (clock l + agentExpirationTimeout) h)) l)
| step_loop l p h :
    ahandlers l !! p = Some h → ah_pc h = HLoop →
    lstep l (upd p (with_pc (if ah_quit h then HDeleteAgent else HSelect)) l)
| step_quit l p h :
    ahandlers l !! p = Some h → ah_pc h = HSelect → ah_quit h = true →
    lstep l (upd p (with_pc HDeleteAgent) l)
| step_expire l p h :
    ahandlers l !! p = Some h → ah_pc h = HSelect → (ah_deadline h ≤ clock l)%Z →
    lstep l (upd p (with_pc HDeleteAgent) l)
| step_message l p h data rest r t l' :
    ahandlers l !! p = Some h → ah_pc h = HSelect → ah_MsgChannel h = data :: rest →
    handle_one r t p (ah_id h) data (upd p (with_queue rest) l) = (Ret tt, l') →
    lstep l l'
| step_stopped l p h m q t l' :
    ahandlers l !! p = Some h → ah_pc h = HStopping m q → wg_zero <$> pc_at l q = Some true →
    (_ ← register_finish (now1 t) (now2 t) (now3 t) (now4 t) (ah_id h) m; next_round p) l = (Ret tt, l') →
    lstep l l'
| step_cleanup l p h r l' :
    ahandlers l !! p = Some h → cleaning (ah_pc h) = true → cleanup r p h l = (Ret tt, l') →
    lstep l l'
(* The other goroutines and the clock. *)
| step_task l a ts l' :
    tasks l = a :: ts → run_task a (set_tasks ts l) = (Ret tt, l') → lstep l l'
| step_tick l t : (clock l ≤ t)%Z → lstep l (set_clock t l)
(* [Stop] of the listener. *)
| step_close l qs :
    closer l = CIdle → qs ≡ₚ (map_to_list (agentMap l)).*2 → lstep l (set_closer (CStop qs) l)
| step_close_one l q qs :
    closer l = CStop (q :: qs) → lstep l (set_closer (CWait q qs) (upd q with_quit l))
| step_closed_one l q qs :
    closer l = CWait q qs → wg_zero <$> pc_at l q = Some true → lstep l (set_closer (CStop qs) l).

(** A new listener, before [Initialize]. *)
Definition new_listener (w : W) (isLeader : bool) (now : Z) : AgentTopicListener :=
  mkListener w ∅ [] BReceive isLeader CIdle [] now.

Definition NewAgentTopicListener (w : W) (isLeader : bool) (now : Z) : outcome AgentTopicListener :=
  match Initialize (new_listener w isLeader now) with
  | (Ret _, l) => Ret l
  | (Err e, _) => Err e
  | (Crash c, _) => Crash c
  end.
End listener.
Arguments AgentTopicListener {U} W.

(** ** Calls that leave the goroutines alone *)
Section frames.
Context `{U : UUIDLib} {W : Type} `{!MetadataService W} `{!VizierProto} `{!Proto agent_reply}.
Implicit Types (l : AgentTopicListener W).

(** Only the managers and the new goroutines differ. *)
Definition same_goroutines l l' : Prop :=
  agentMap l' = agentMap l ∧ ahandlers l' = ahandlers l ∧ bus l' = bus l ∧ wasLeader l' = wasLeader l ∧
  closer l' = closer l ∧ clock l' = clock l.

#[export] Instance same_goroutines_preorder : PreOrder same_goroutines.
Proof.
  split; [by intros l|]. intros l1 l2 l3 (? & ? & ? & ? & ? & ?) (? & ? & ? & ? & ? & ?). split_and!; congruence.
Qed.

Class Frames {A} (m : M (AgentTopicListener W) A) : Prop := frames l : same_goroutines l (m l).2.

#[export] Instance Frames_ret {A} (a : A) : Frames (mret a).
Proof. by intros l. Qed.
#[export] Instance Frames_bind {A B} (m : M (AgentTopicListener W) A) (k : A → M (AgentTopicListener W) B) :
  Frames m → (∀ a, Frames (k a)) → Frames (m ≫= k).
Proof.
  intros Hm Hk l. unfold mbind, M_bind. specialize (Hm l). destruct (m l) as [[a|e|c] l']; [|done..].
  etransitivity; [exact Hm|]. apply Hk.
Qed.
#[export] Instance Frames_try {A} (m : M (AgentTopicListener W) A) : Frames m → Frames (try m).
Proof. intros Hm l. unfold try. specialize (Hm l). by destruct (m l) as [[]]. Qed.
#[export] Instance Frames_logged (m : M (AgentTopicListener W) unit) : Frames m → Frames (logged m).
Proof. unfold logged. apply _. Qed.
#[export] Instance Frames_w_call {A} (m : M W A) : Frames (w_call m).
Proof. intros l. unfold w_call, zoom. by destruct (m (world l)) as [[]]. Qed.
#[export] Instance Frames_get_state : Frames get_state.
Proof. by intros l. Qed.
#[export] Instance Frames_deref {A} (x : option A) : Frames (deref x).
Proof. by destruct x. Qed.
#[export] Instance Frames_panic {A} c : Frames (A := A) (panic c).
Proof. by intros l. Qed.
#[export] Instance Frames_lift_sum {A} (x : error + A) : Frames (lift_sum x).
Proof. by destruct x. Qed.
#[export] Instance Frames_if {A} (b : bool) (m1 m2 : M (AgentTopicListener W) A) :
  Frames m1 → Frames m2 → Frames (if b then m1 else m2).
Proof. by destruct b. Qed.
#[export] Instance Frames_tasks f : Frames (modify (λ l, set_tasks (f l) l)).
Proof. by intros l. Qed.

#[export] Instance Frames_Send id msg : Frames (SendMessageToAgent id msg).
Proof. apply _. Qed.
#[export] Instance Frames_heartbeat r n1 n2 id m : Frames (onAgentHeartbeat r n1 n2 id m).
Proof. unfold onAgentHeartbeat. apply Frames_bind; [apply _|]. intros []; [apply _|]. destruct (hb_UpdateInfo m); apply _. Qed.
#[export] Instance Frames_finish n1 n2 n3 n4 id m : Frames (register_finish n1 n2 n3 n4 id m).
Proof.
  unfold register_finish. apply Frames_bind; [apply _|]. intros info. cbv zeta. apply Frames_bind; [apply _|].
  intros []; [apply _|]. apply Frames_bind; [apply _|]. intros []; apply _.
Qed.
#[export] Instance Frames_register_tracepoints a tps : Frames (register_tracepoints a tps).
Proof.
  induction tps as [|tp tps IH]; [apply _|]. cbn [register_tracepoints]. apply Frames_bind; [apply _|]. intros tp'.
  apply Frames_bind; [|done]. case_decide; apply _.
Qed.
#[export] Instance Frames_task a : Frames (run_task a).
Proof. unfold run_task. apply Frames_bind; [apply _|]. intros []; apply _. Qed.
#[export] Instance Frames_tracepoint m : Frames (onAgentTracepointMessage m).
Proof. destruct m as [[]|]; apply _. Qed.

Lemma frames_run {A} (m : M (AgentTopicListener W) A) `{!Frames m} l o l' : m l = (o, l') → same_goroutines l l'.
Proof. intros E. pose proof (frames (m := m) l) as Hf. by rewrite E in Hf. Qed.
End frames.

(** ** The invariant *)
Section invariant.
Context `{U : UUIDLib} {W : Type} `{!MetadataService W} `{!VizierProto} `{!Proto agent_reply}.
Implicit Types (l : AgentTopicListener W) (h : AgentHandler).

(** The handler is in the map until its deferred function removed it. *)
Definition live h : bool := match ah_pc h with HDeleteTracepoints | HDone => false | _ => true end.

(** The request or the message is of the agent. *)
Definition request_of (id : uuid) (m : RegisterAgentRequest) : Prop :=
  ∃ info, rar_Info m = Some info ∧ UUIDFromProto (ai_AgentID info) = inr id.

Definition message_of (id : uuid) (data : string) : Prop :=
  (∃ m, vm_Unmarshal data = inr (Some (VizierMessage_Heartbeat m)) ∧ UUIDFromProto (hb_AgentID m) = inr id) ∨
  (∃ m, vm_Unmarshal data = inr (Some (VizierMessage_RegisterAgentRequest m)) ∧ request_of id m).

(** A handler has messages of its own agent only. *)
Definition handler_ok h : Prop :=
  Forall (message_of (ah_id h)) (ah_MsgChannel h) ∧ length (ah_MsgChannel h) ≤ queue_size ∧
  match ah_pc h with HStopping m _ => request_of (ah_id h) m | _ => True end.

Record linv l : Prop := mkLinv {
  li_map : ∀ id p, agentMap l !! id = Some p → ∃ h, ahandlers l !! p = Some h ∧ ah_id h = id ∧ live h = true;
  li_live : ∀ p h, ahandlers l !! p = Some h → live h = true → agentMap l !! ah_id h = Some p;
  li_handlers : ∀ p h, ahandlers l !! p = Some h → handler_ok h;
  li_bus : match bus l with
    | BSend q data => ∃ h, ahandlers l !! q = Some h ∧ message_of (ah_id h) data
    | BReceive => True
    end
}.

Lemma lookup_upd p f l q h :
  ahandlers (upd p f l) !! q = Some h ↔
    ∃ h0, ahandlers l !! q = Some h0 ∧ h = if decide (q = p) then f h0 else h0.
Proof.
  cbn [upd set_handlers ahandlers]. destruct (decide (q = p)) as [->|Hne].
  - rewrite list_lookup_alter_eq, fmap_Some. naive_solver.
  - rewrite list_lookup_alter_ne by done. naive_solver.
Qed.

(** Updates of a handler that keep its agent and its place in the map. *)
Lemma linv_upd p f l :
  linv l → (∀ h, ahandlers l !! p = Some h → ah_id (f h) = ah_id h ∧ live (f h) = live h ∧ (handler_ok h → handler_ok (f h))) →
  linv (upd p f l).
Proof.
  intros [Hm Hl Hh Hb] Hf. split.
  - intros id q Hq. destruct (Hm id q Hq) as (h & Hh' & Hid & Hlive). exists (if decide (q = p) then f h else h).
    rewrite lookup_upd. split; [eauto|]. case_decide; [|done]. subst q. destruct (Hf h Hh') as (-> & -> & _). done.
  - intros q h (h0 & Hq & ->)%lookup_upd Hlive. cbn [upd set_handlers agentMap]. case_decide; [|by apply Hl]. subst q.
    destruct (Hf h0 Hq) as (Eid & El & _). rewrite Eid. apply Hl; [done|]. by rewrite <-El.
  - intros q h (h0 & Hq & ->)%lookup_upd. case_decide; [|by eapply Hh]. subst q. apply (Hf h0 Hq). by eapply Hh.
  - cbn [upd set_handlers bus]. destruct (bus l) as [|q data]; [done|]. destruct Hb as (h & Hq & Hmsg).
    exists (if decide (q = p) then f h else h). split; [apply lookup_upd; eauto|]. case_decide; [|done]. subst q.
    by destruct (Hf h Hq) as (-> & _).
Qed.

Lemma linv_same l l' : same_goroutines l l' → linv l → linv l'.
Proof. intros (E1 & E2 & E3 & _) [H1 H2 H3 H4]. split; rewrite ?E1, ?E2, ?E3; done. Qed.

Lemma createAgentHandler_run id l :
  ∃ p l', createAgentHandler id l = (Ret p, l') ∧ agentMap l' !! id = Some p ∧ bus l' = bus l ∧
    (linv l → linv l' ∧ ∀ q h, ahandlers l !! q = Some h → ahandlers l' !! q = Some h).
Proof.
  unfold createAgentHandler. run_state. destruct (agentMap l !! id) as [p|] eqn:E.
  { exists p, l. done. }
  erewrite bind_ret; [|reflexivity]. eexists _, _. split; [reflexivity|].
  split; [cbn [set_map set_handlers agentMap ahandlers]; apply lookup_insert_eq|]. split; [done|]. intros [Hm Hl Hh Hb].
  assert (∀ q h, ahandlers l !! q = Some h → (ahandlers l ++ [mkAgentHandler id [] false 0 HStart]) !! q = Some h) as Happ.
  { intros q h Hq. by apply lookup_app_l_Some. }
  split; [|exact Happ]. split; cbn [set_map set_handlers agentMap ahandlers bus].
  - intros id' q. rewrite lookup_insert_Some. intros [[<- <-]|[Hne Hq]].
    + eexists. rewrite lookup_app_r, Nat.sub_diag by done. done.
    + destruct (Hm id' q Hq) as (h & ? & ?). exists h. split; [by apply Happ|done].
  - intros q h [Hq|[Hge Hq]]%lookup_app_Some Hlive.
    + rewrite lookup_insert_ne; [by apply Hl|]. intros Eq. by rewrite Eq, (Hl q h Hq Hlive) in E.
    + destruct (q - length (ahandlers l)) as [|k] eqn:Ek; [|done]. cbn in Hq. injection Hq as <-. cbn.
      rewrite lookup_insert_eq. f_equal. lia.
  - intros q h [Hq|[Hge Hq]]%lookup_app_Some; [by eapply Hh|].
    destruct (q - length (ahandlers l)) as [|k]; [|done]. cbn in Hq. injection Hq as <-. split_and!; [constructor|cbn; lia|done].
  - destruct (bus l) as [|q data]; [done|]. destruct Hb as (h & Hq & Hmsg). exists h. split; [by apply Happ|done].
Qed.

(** The handlers there are stay as they are, and so does the goroutine of the
    message bus. *)
Definition extends l l' : Prop :=
  bus l' = bus l ∧ ∀ q h, ahandlers l !! q = Some h → ahandlers l' !! q = Some h.

#[export] Instance extends_preorder : PreOrder extends.
Proof. split; [by intros l|]. intros l1 l2 l3 [E1 H1] [E2 H2]. split; [congruence|auto]. Qed.

Lemma same_extends l l' : same_goroutines l l' → extends l l'.
Proof. intros (_ & E & Eb & _). split; [done|]. intros q h. by rewrite E. Qed.

(** Calls that keep the invariant. *)
Class Keeps {A} (m : M (AgentTopicListener W) A) : Prop :=
  keeps l : linv l → linv (m l).2 ∧ extends l (m l).2.

#[export] Instance Keeps_frames {A} (m : M (AgentTopicListener W) A) : Frames m → Keeps m | 10.
Proof.
  intros Hm l Hl. specialize (Hm l). split; [by eapply linv_same|by apply same_extends].
Qed.
#[export] Instance Keeps_bind {A B} (m : M (AgentTopicListener W) A) (k : A → M (AgentTopicListener W) B) :
  Keeps m → (∀ a, Keeps (k a)) → Keeps (m ≫= k).
Proof.
  intros Hm Hk l Hl. unfold mbind, M_bind. destruct (Hm l Hl) as [H1 H2]. destruct (m l) as [[a|e|c] l']; [|done..].
  destruct (Hk a l' H1) as [H3 H4]. split; [done|by etransitivity].
Qed.
#[export] Instance Keeps_logged (m : M (AgentTopicListener W) unit) : Keeps m → Keeps (logged m).
Proof.
  intros Hm l Hl. unfold logged, try, mbind, M_bind. specialize (Hm l Hl). by destruct (m l) as [[]].
Qed.
#[export] Instance Keeps_create id : Keeps (createAgentHandler id).
Proof.
  intros l Hl. destruct (createAgentHandler_run id l) as (p & l' & E & _ & Hb & Hi). rewrite E. cbn.
  destruct (Hi Hl). by split_and!.
Qed.
#[export] Instance Keeps_create_all agents : Keeps (create_handlers agents).
Proof. induction agents as [|a agents IH]; [apply _|]. cbn [create_handlers]. apply _. Qed.
#[export] Instance Keeps_Initialize : Keeps Initialize.
Proof. unfold Initialize. apply _. Qed.
#[export] Instance Keeps_wasLeader b : Keeps (modify (set_wasLeader b)).
Proof. intros l [H1 H2 H3 H4]. by split_and!. Qed.

Lemma keeps_run {A} (m : M (AgentTopicListener W) A) `{!Keeps m} l o l' :
  m l = (o, l') → linv l → linv l' ∧ extends l l'.
Proof. intros E Hl. pose proof (keeps (m := m) l Hl) as Hk. by rewrite E in Hk. Qed.

(** A message goes to the handler of its agent. *)
Lemma HandleMessage_inv data l target l' :
  HandleMessage data l = (Ret target, l') → linv l →
  linv l' ∧ extends l l' ∧
  match target with Some q => ∃ h, ahandlers l' !! q = Some h ∧ message_of (ah_id h) data | None => True end.
Proof.
  intros E Hl. unfold HandleMessage in E. destruct (vm_Unmarshal data) as [|[pb|]] eqn:Ed; [by injection E as <- <-| |by injection E as <- <-].
  destruct pb as [m|m|m|].
  - unfold forwardAgentHeartBeat in E. destruct (UUIDFromProto (hb_AgentID m)) as [|id] eqn:Eid; [by injection E as <- <-|].
    revert E. run_state. destruct (agentMap l !! id) as [q|] eqn:Eq; intros E.
    + injection E as <- <-. split; [done|]. split; [done|]. destruct (li_map _ Hl id q Eq) as (h & Hq & <- & _). exists h.
      split; [done|]. left. eauto.
    + assert (target = None) as -> by (revert E; unfold mbind, M_bind; destruct (logged _ l) as [[]]; by intros [= ?]).
      destruct (keeps_run _ _ _ _ E Hl) as [? ?]. done.
  - unfold forwardAgentRegisterRequest in E. destruct (rar_Info m) as [info|] eqn:Ei; [|done].
    revert E. erewrite bind_ret; [|reflexivity]. destruct (UUIDFromProto (ai_AgentID info)) as [|id] eqn:Eid; [by intros [= <- <-]|].
    run_state. assert (∀ q l', linv l' → agentMap l' !! id = Some q →
      ∃ h, ahandlers l' !! q = Some h ∧ message_of (ah_id h) data) as Hsome.
    { intros q l'' Hl'' Hq. destruct (li_map _ Hl'' id q Hq) as (h & Hh & <- & _). exists h. split; [done|]. right.
      exists m. split; [done|]. by exists info. }
    destruct (agentMap l !! id) as [q|] eqn:Eq; [intros [= <- <-]; split_and!; [done|done|by apply Hsome]|].
    destruct (createAgentHandler_run id l) as (p & l'' & Ec & Hp & Hb & Hi). rewrite (bind_ret _ _ _ _ _ Ec). intros [= <- <-].
    destruct (Hi Hl) as [Hl'' Hx]. split_and!; [done|by split|by apply Hsome].
  - assert (target = None) as -> by (revert E; unfold mbind, M_bind; destruct (onAgentTracepointMessage m l) as [[]]; by intros [= ?]).
    destruct (keeps_run _ _ _ _ E Hl). done.
  - by injection E as <- <-.
Qed.

(** The lookup of the agent to be replaced. *)
Definition lookup_pair (m : RegisterAgentRequest) : M (AgentTopicListener W) string :=
  info ← deref (rar_Info m);
  caps ← deref (ai_Capabilities info);
  hostname ← (if CollectsData caps then mret "" else hi ← deref (ai_HostInfo info); mret (Hostname hi));
  hi ← deref (ai_HostInfo info);
  res ← try (w_call (ms_GetAgentIDForHostnamePair (mkHostnameIPPair hostname (HostIP hi))));
  mret (match res with inl _ => "" | inr s => s end).

Instance Frames_lookup_pair m : Frames (lookup_pair m).
Proof. unfold lookup_pair. repeat (apply Frames_bind; [apply _|intros ?]). apply _. Qed.

Lemma register_begin_lookup m l :
  register_begin m l = (hostnameAgID ← lookup_pair m;
    if decide (hostnameAgID = "") then mret None
    else match uuid_FromString hostnameAgID with
      | inl _ => mret None
      | inr delAgID =>
        l ← get_state;
        match agentMap l !! delAgID with
        | None => mret None
        | Some q => _ ← put_state (upd q with_quit l); mret (Some q)
        end
      end) l.
Proof.
  unfold register_begin, lookup_pair, mbind, M_bind. destruct (rar_Info m) as [info|]; [|done].
  cbn [deref mret M_ret]. destruct (ai_Capabilities info) as [caps|]; [|done]. cbn [deref mret M_ret].
  destruct (CollectsData caps), (ai_HostInfo info) as [hi|]; cbn [deref mret M_ret panic]; try done;
    by destruct (try _ l) as [[]].
Qed.

(** It changes at most one handler, whose channel it closes. *)
Lemma register_begin_run m l target l' :
  register_begin m l = (Ret target, l') →
  ∃ l1, same_goroutines l l1 ∧
    ((target = None ∧ l' = l1) ∨ ∃ id q, target = Some q ∧ agentMap l !! id = Some q ∧ l' = upd q with_quit l1).
Proof.
  rewrite register_begin_lookup. intros E. destruct (lookup_pair m l) as [o l1] eqn:El.
  pose proof (frames_run _ _ _ _ El) as Hs. exists l1. split; [done|]. unfold mbind, M_bind in E. rewrite El in E.
  destruct o as [s|e|c]; [|done..]. case_decide; [injection E as <- <-; by left|].
  destruct (uuid_FromString s) as [|del]; [injection E as <- <-; by left|]. cbn in E.
  destruct (agentMap l1 !! del) as [q|] eqn:Eq; injection E as <- <-; [|by left]. right. exists del, q.
  destruct Hs as (<- & _). done.
Qed.

Lemma linv_quit q l : linv l → linv (upd q with_quit l).
Proof. intros Hl. apply linv_upd; [done|]. by intros h _. Qed.

(** A goroutine goes on to another place where its handler is still in the map. *)
Lemma linv_pc p pc l h :
  linv l → ahandlers l !! p = Some h → live h = true → live (with_pc pc h) = true →
  (∀ m q, pc = HStopping m q → request_of (ah_id h) m) → linv (upd p (with_pc pc) l).
Proof.
  intros Hl Hp Hlive Hpc Hm. apply linv_upd; [done|]. intros h' Hh'. rewrite Hp in Hh'. injection Hh' as <-.
  split; [done|]. split; [by rewrite Hpc, Hlive|]. intros (H1 & H2 & _). split; [done|]. split; [done|].
  cbn. destruct pc; try done. by eapply Hm.
Qed.

Lemma linv_round p l h t :
  linv l → ahandlers l !! p = Some h → live h = true → linv (upd p (λ h, with_pc HLoop (with_deadline t h)) l).
Proof.
  intros Hl Hp Hlive. apply linv_upd; [done|]. intros h' Hh'. rewrite Hp in Hh'. injection Hh' as <-.
  split; [done|]. split; [by rewrite Hlive|]. by intros (H1 & H2 & _).
Qed.

Lemma linv_handle_one r t p id data l h l' :
  linv l → ahandlers l !! p = Some h → ah_id h = id → live h = true → message_of id data →
  handle_one r t p id data l = (Ret tt, l') → linv l'.
Proof.
  intros Hl Hp Hid Hlive Hmsg E. unfold handle_one in E.
  destruct Hmsg as [(m & Ed & Em)|(m & Ed & Em)]; rewrite Ed in E.
  - apply bind_Ret_inv in E as ([] & l1 & Eh & E). injection E as <-. pose proof (frames_run _ _ _ _ Eh) as Hs.
    eapply linv_round; [by eapply linv_same| |done]. by destruct Hs as (_ & -> & _).
  - apply bind_Ret_inv in E as (target & l1 & Eb & E).
    destruct (register_begin_run m l target l1 Eb) as (l2 & Hs & Hor). pose proof (linv_same _ _ Hs Hl) as Hl2.
    assert (ahandlers l2 !! p = Some h) as Hp2 by (by destruct Hs as (_ & -> & _)).
    destruct Hor as [[-> ->]|(id' & q & -> & _ & ->)].
    + apply bind_Ret_inv in E as ([] & l3 & Ef & E). injection E as <-.
      pose proof (frames_run _ _ _ _ Ef) as Hs3. eapply linv_round; [by eapply linv_same| |done]. by destruct Hs3 as (_ & -> & _).
    + injection E as <-. eapply (linv_pc p _ _ (if decide (p = q) then with_quit h else h)).
      * by apply linv_quit.
      * apply lookup_upd. eauto.
      * by case_decide.
      * by case_decide.
      * intros m' q' [= -> ->]. subst id. by case_decide.
Qed.

(** The deferred function removes the handler from the map. *)
Lemma linv_cleanup r p h l l' :
  linv l → ahandlers l !! p = Some h → cleaning (ah_pc h) = true → cleanup r p h l = (Ret tt, l') → linv l'.
Proof.
  intros Hl Hp Hc E. unfold cleanup in E. destruct (ah_pc h) eqn:Epc; try done.
  - apply bind_Ret_inv in E as ([] & l1 & E1 & E). injection E as <-.
    pose proof (frames_run _ _ _ _ E1) as Hs. eapply linv_pc; [by eapply linv_same|destruct Hs as (_ & -> & _); exact Hp| |done|done].
    unfold live. by rewrite Epc.
  - apply bind_Ret_inv in E as ([] & l2 & E1 & E). apply bind_Ret_inv in E1 as ([] & l1 & E1 & E2).
    injection E as <-. injection E2 as <-. pose proof (frames_run _ _ _ _ E1) as Hs. pose proof (linv_same _ _ Hs Hl) as [Hm Hlv Hh Hb].
    assert (ahandlers l1 !! p = Some h) as Hp1 by (by destruct Hs as (_ & -> & _)).
    assert (agentMap l1 !! ah_id h = Some p) as Hmp by (apply Hlv; [done|unfold live; by rewrite Epc]). split.
    + intros id q. cbn [upd set_map set_handlers agentMap ahandlers]. rewrite lookup_delete_Some. intros [Hne Hq].
      destruct (Hm id q Hq) as (h' & Hh' & Hid & Hlive). exists h'. split; [|done]. rewrite list_lookup_alter_ne; [done|].
      intros <-. rewrite Hp1 in Hh'. by simplify_eq.
    + intros q h' (h0 & Hq & ->)%lookup_upd Hlive. cbn [set_map ahandlers] in Hq. case_decide; [done|].
      cbn [upd set_map set_handlers agentMap]. rewrite lookup_delete_ne; [by apply Hlv|].
      intros Eid. pose proof (Hlv q h0 Hq Hlive) as Hq'. rewrite <-Eid, Hmp in Hq'. by injection Hq' as ->.
    + intros q h' (h0 & Hq & ->)%lookup_upd. cbn [set_map ahandlers] in Hq. pose proof (Hh q h0 Hq) as (H1 & H2 & H3).
      case_decide; [|done]. by split_and!.
    + cbn [upd set_map set_handlers bus]. destruct (bus l1) as [|q data]; [done|]. destruct Hb as (h' & Hq & Hmsg).
      exists (if decide (q = p) then with_pc HDeleteTracepoints h' else h'). split; [|by case_decide].
      cbn. destruct (decide (q = p)) as [->|]; [by rewrite list_lookup_alter_eq, Hq|by rewrite list_lookup_alter_ne].
  - apply bind_Ret_inv in E as ([] & l1 & E1 & E). injection E as <-.
    pose proof (frames_run _ _ _ _ E1) as Hs. apply linv_upd; [by eapply linv_same|]. intros h' Hh'.
    destruct Hs as (_ & Es & _). rewrite Es, Hp in Hh'. injection Hh' as <-. split; [done|].
    split; [by cbn; unfold live; rewrite Epc|]. by intros (H1 & H2 & _).
Qed.

Lemma linv_bus b l :
  linv l → match b with BSend q data => ∃ h, ahandlers l !! q = Some h ∧ message_of (ah_id h) data | BReceive => True end →
  linv (set_bus b l).
Proof. intros [H1 H2 H3 _] Hb. by split. Qed.

Lemma handleMessages_inv isLeader subject data l target l' :
  handleMessages isLeader subject data l = (Ret target, l') → linv l →
  linv (set_bus (match target with Some q => BSend q data | None => BReceive end) l') ∧ extends l l'.
Proof.
  unfold handleMessages. run_state. intros E Hl. apply bind_Ret_inv in E as ([] & l1 & E1 & E).
  assert (linv l1 ∧ extends l l1) as [Hl1 Hx1].
  { destruct (negb (wasLeader l) && isLeader); [by apply (keeps_run _ _ _ _ E1 Hl)|by injection E1 as <-]. }
  apply bind_Ret_inv in E as ([] & l2 & E2 & E). destruct (keeps_run _ _ _ _ E2 Hl1) as [Hl2 Hx2].
  assert (extends l l2) as Hx by (by transitivity l1).
  destruct (negb isLeader); [injection E as <- <-; split; [by apply linv_bus|done]|].
  case_decide; [|injection E as <- <-; split; [by apply linv_bus|done]].
  destruct (HandleMessage_inv data l2 target l' E Hl2) as (Hl' & Hx' & Ht). split; [|by transitivity l2].
  apply linv_bus; [done|]. by destruct target.
Qed.

Lemma linv_step l l' : lstep l l' → linv l → linv l'.
Proof.
  intros Hstep Hl. destruct Hstep as [l b subj data target l' Hb E|l q data h Hb Hq Hlen|l p h Hp Hpc|l p h Hp Hpc|l p h Hp Hpc Hquit
    |l p h Hp Hpc Ht|l p h data rest r t l' Hp Hpc Hq E|l p h m q t l' Hp Hpc Hw E|l p h r l' Hp Hpc E|l a ts l' Ht E|l t Ht
    |l qs Hc Hqs|l q qs Hc|l q qs Hc Hw].
  - by destruct (handleMessages_inv b subj data l target l' E Hl).
  - apply linv_bus; [|done]. apply linv_upd; [done|]. intros h' Hh'. split; [done|]. split; [done|]. intros (H1 & H2 & H3).
    pose proof (li_bus _ Hl) as Hm. rewrite Hb, Hh' in Hm. destruct Hm as (h0 & [= <-] & Hm). rewrite Hq in Hh'. injection Hh' as <-.
    split; [apply Forall_app; split; [done|by apply Forall_singleton]|]. split; [|done].
    cbn. rewrite length_app. simpl. lia.
  - eapply linv_round; [done|done|]. unfold live. by rewrite Hpc.
  - eapply linv_pc; [done|done|unfold live; by rewrite Hpc|by destruct (ah_quit h)|by destruct (ah_quit h)].
  - eapply linv_pc; [done|done|unfold live; by rewrite Hpc|done|done].
  - eapply linv_pc; [done|done|unfold live; by rewrite Hpc|done|done].
  - destruct (li_handlers _ Hl p h Hp) as (Hf & Hlen & _). rewrite Hq in Hf. apply Forall_cons in Hf as [Hd Hf].
    eapply (linv_handle_one r t p (ah_id h) data _ (with_queue rest h)); [|apply lookup_upd; exists h; by rewrite decide_True| | |done|done].
    + apply linv_upd; [done|]. intros h' Hh'. rewrite Hp in Hh'. injection Hh' as <-. split_and!; [done|done|].
      intros (H1 & H2 & H3). split_and!; [done| |done]. rewrite Hq in H2. cbn in *. lia.
    + done.
    + unfold live. cbn. by rewrite Hpc.
  - apply bind_Ret_inv in E as ([] & l1 & Ef & E). injection E as <-. pose proof (frames_run _ _ _ _ Ef) as Hs.
    eapply linv_round; [by eapply linv_same|destruct Hs as (_ & -> & _); done|]. unfold live. by rewrite Hpc.
  - by eapply linv_cleanup.
  - apply (linv_same l); [|done]. apply frames_run in E; [|apply _]. destruct E as (? & ? & ? & ? & ? & ?). by split_and!.
  - by destruct Hl.
  - by destruct Hl.
  - destruct (linv_quit q l Hl). by split.
  - by destruct Hl.
Qed.
End invariant.

(** ** Claims *)
Section claims.
Context `{U : UUIDLib} {W : Type} `{!MetadataService W} `{!VizierProto} `{!Proto agent_reply}.
Implicit Types (l : AgentTopicListener W) (h : AgentHandler).

Lemma linv_new w isLeader now l : NewAgentTopicListener w isLeader now = Ret l → linv l.
Proof.
  unfold NewAgentTopicListener. destruct (Initialize _) as [[[]|e|c] l'] eqn:E; [|done..]. intros [= <-].
  apply keeps_run in E; [by destruct E|apply _|]. by split.
Qed.

Lemma linv_reachable l l' : rtc lstep l l' → linv l → linv l'.
Proof. induction 1 as [|l1 l2 l3 Hs _ IH]; [done|]. intros Hl. apply IH. by eapply linv_step. Qed.

(** C8: However the goroutines interleave, the map holds for every agent exactly the
    one handler that has not ended, and a handler only ever gets messages of its
    own agent, at most ten at a time. *)
Theorem one_handler_per_agent w isLeader now l0 l :
  NewAgentTopicListener w isLeader now = Ret l0 → rtc lstep l0 l →
  (∀ id p, agentMap l !! id = Some p ↔ ∃ h, ahandlers l !! p = Some h ∧ ah_id h = id ∧ live h = true) ∧
  ∀ p h, ahandlers l !! p = Some h → Forall (message_of (ah_id h)) (ah_MsgChannel h) ∧ length (ah_MsgChannel h) ≤ queue_size.
Proof.
  intros E Hr. pose proof (linv_reachable _ _ Hr (linv_new _ _ _ _ E)) as [Hm Hl Hh _]. split.
  - intros id p. split; [apply Hm|]. intros (h & Hp & <- & Hlive). by apply Hl.
  - intros p h Hp. destruct (Hh p h Hp) as (? & ? & _). done.
Qed.

(** *** A handler that waits for itself *)

Definition self_stopping l (p : nat) (m : RegisterAgentRequest) h : Prop :=
  ahandlers l !! p = Some h ∧ ah_pc h = HStopping m p.

(** What other goroutines do to a waiting handler. *)
Definition waits_on l' (p : nat) h : Prop :=
  ∃ h', ahandlers l' !! p = Some h' ∧ ah_pc h' = ah_pc h ∧ ah_MsgChannel h `prefix_of` ah_MsgChannel h'.

Lemma waits_same l l' p h : same_goroutines l l' → ahandlers l !! p = Some h → waits_on l' p h.
Proof. intros (_ & E & _) Hp. exists h. by rewrite E. Qed.

Lemma waits_upd l p h q f :
  ahandlers l !! p = Some h →
  (q = p → ah_pc (f h) = ah_pc h ∧ ah_MsgChannel h `prefix_of` ah_MsgChannel (f h)) → waits_on (upd q f l) p h.
Proof.
  intros Hp Hf. exists (if decide (p = q) then f h else h). split; [apply lookup_upd; eauto|].
  case_decide; [subst; by apply Hf|done].
Qed.

Lemma waits_trans l1 l2 p h :
  waits_on l1 p h → (∀ h', ahandlers l1 !! p = Some h' → ah_pc h' = ah_pc h → waits_on l2 p h') → waits_on l2 p h.
Proof.
  intros (h1 & Hp1 & Epc & Hpre) Hn. destruct (Hn h1 Hp1 Epc) as (h2 & Hp2 & Epc2 & Hpre2). exists h2.
  split; [done|]. split; [congruence|]. by etrans.
Qed.

(** A message of another agent does not touch the handler, except for closing its
    channel. *)
Lemma waits_handle_one r t q id data l l' p h :
  ahandlers l !! p = Some h → q ≠ p → handle_one r t q id data l = (Ret tt, l') → waits_on l' p h ∧ bus l' = bus l.
Proof.
  intros Hp Hne E. unfold handle_one in E.
  assert (∀ (f : AgentHandler → AgentHandler) l1, same_goroutines l l1 → waits_on (upd q f l1) p h ∧ bus (upd q f l1) = bus l) as Hupd.
  { intros f l1 (_ & Eh & Eb & _). split; [|done]. apply waits_upd; [by rewrite Eh|done]. }
  assert (∀ l1 l2, same_goroutines l l1 → next_round q l1 = (Ret tt, l2) → waits_on l2 p h ∧ bus l2 = bus l) as Hnext.
  { intros l1 l2 Hs [= <-]. by apply Hupd. }
  destruct (vm_Unmarshal data) as [|[[m|m|m|]|]]; [injection E as <-; by apply Hupd| | |by eapply (Hnext l)|by eapply (Hnext l)|done].
  - apply bind_Ret_inv in E as ([] & l1 & Eh & E). eapply Hnext; [exact (frames_run _ _ _ _ Eh)|exact E].
  - apply bind_Ret_inv in E as (target & l1 & Eb & E).
    destruct (register_begin_run m l target l1 Eb) as (l2 & Hs & Hor). destruct Hor as [[-> ->]|(id' & q' & -> & _ & ->)].
    + apply bind_Ret_inv in E as ([] & l3 & Ef & E). eapply Hnext; [etransitivity; [exact Hs|exact (frames_run _ _ _ _ Ef)]|exact E].
    + injection E as <-. destruct Hs as (_ & Eh & Ebus & _). split; [|done].
      apply (waits_trans (upd q' with_quit l2)); [apply waits_upd; [by rewrite Eh|done]|].
      intros h' Hh' _. apply waits_upd; [done|]. done.
Qed.

Lemma waits_cleanup r q hq l l' p h :
  ahandlers l !! p = Some h → q ≠ p → cleanup r q hq l = (Ret tt, l') → waits_on l' p h ∧ bus l' = bus l.
Proof.
  intros Hp Hne E. unfold cleanup in E. destruct (ah_pc hq); try (injection E as <-; split; [by exists h|done]).
  - apply bind_Ret_inv in E as ([] & l1 & E1 & E). injection E as <-.
    destruct (frames_run _ _ _ _ E1) as (_ & Eh & Eb & _). split; [apply waits_upd; [by rewrite Eh|done]|done].
  - apply bind_Ret_inv in E as ([] & l2 & E1 & E). apply bind_Ret_inv in E1 as ([] & l1 & E1 & E2). injection E as <-. injection E2 as <-.
    destruct (frames_run _ _ _ _ E1) as (_ & Eh & Eb & _). split; [|done]. apply waits_upd; [cbn; by rewrite Eh|done].
  - apply bind_Ret_inv in E as ([] & l1 & E1 & E). injection E as <-.
    destruct (frames_run _ _ _ _ E1) as (_ & Eh & Eb & _). split; [apply waits_upd; [by rewrite Eh|done]|done].
Qed.

(** No step wakes a handler that waits for itself, and none takes a message from
    its queue; nor does the message bus go on when the queue is full. *)
Lemma self_stopping_step l l' p m h :
  lstep l l' → linv l → self_stopping l p m h →
  waits_on l' p h ∧
  (∀ d, bus l = BSend p d → length (ah_MsgChannel h) = queue_size → bus l' = BSend p d).
Proof.
  intros Hstep Hl [Hp Hm]. destruct Hstep as [l b subj data target l' Hb E|l q data hq Hb Hq Hlen|l q hq Hq Hpc|l q hq Hq Hpc
    |l q hq Hq Hpc Hquit|l q hq Hq Hpc Ht|l q hq data rest r t l' Hq Hpc Hd E|l q hq m' q' t l' Hq Hpc Hw E|l q hq r l' Hq Hpc E
    |l a ts l' Ht E|l t Ht|l qs Hc Hqs|l q qs Hc|l q qs Hc Hw].
  - destruct (handleMessages_inv b subj data l target l' E Hl) as [_ [_ Hx]]. split; [|by rewrite Hb]. exists h.
    split; [by apply Hx|done].
  - split.
    + apply waits_upd; [done|]. intros _. split; [done|]. by apply prefix_app_r.
    + intros d Hd Hfull. rewrite Hb in Hd. injection Hd as -> ->. rewrite Hp in Hq. injection Hq as <-. lia.
  - assert (q ≠ p) as Hne by (intros ->; congruence). split; [by apply waits_upd|done].
  - assert (q ≠ p) as Hne by (intros ->; congruence). split; [by apply waits_upd|done].
  - assert (q ≠ p) as Hne by (intros ->; congruence). split; [by apply waits_upd|done].
  - assert (q ≠ p) as Hne by (intros ->; congruence). split; [by apply waits_upd|done].
  - assert (q ≠ p) as Hne by (intros ->; congruence).
    destruct (waits_handle_one r t q (ah_id hq) data _ l' p h ltac:(apply lookup_upd; exists h; by rewrite decide_False) Hne E) as [Hwt Eb].
    split; [done|]. intros d Hd' _. rewrite Eb. exact Hd'.
  - assert (q ≠ p) as Hne.
    { intros ->. rewrite Hp in Hq. injection Hq as <-. rewrite Hm in Hpc. injection Hpc as <- <-.
      unfold pc_at in Hw. by rewrite Hp in Hw; cbn in Hw; rewrite Hm in Hw. }
    apply bind_Ret_inv in E as ([] & l1 & Ef & E). injection E as <-. destruct (frames_run _ _ _ _ Ef) as (_ & Eh & Eb & _).
    split; [apply waits_upd; [by rewrite Eh|done]|]. intros d Hd _. cbn. by rewrite Eb.
  - assert (q ≠ p) as Hne by (intros ->; rewrite Hp in Hq; injection Hq as <-; by rewrite Hm in Hpc).
    destruct (waits_cleanup r q hq l l' p h Hp Hne E) as [Hwt Eb]. split; [done|]. intros d Hd _. by rewrite Eb.
  - apply frames_run in E as (_ & Eh & Eb & _); [|apply _]. split; [exists h; by rewrite Eh|]. intros d Hd _. by rewrite Eb.
  - split; [by exists h|done].
  - split; [by exists h|done].
  - split; [by apply waits_upd|done].
  - split; [by exists h|done].
Qed.

Lemma self_stopping_forever l l' p m h :
  rtc lstep l l' → linv l → self_stopping l p m h →
  ∃ h', self_stopping l' p m h' ∧ ah_MsgChannel h `prefix_of` ah_MsgChannel h' ∧
    (∀ d, bus l = BSend p d → length (ah_MsgChannel h) = queue_size → bus l' = BSend p d).
Proof.
  intros Hr. revert h. induction Hr as [l|l1 l2 l3 Hs _ IH]; intros h Hl Hw; [by exists h|].
  destruct (self_stopping_step l1 l2 p m h Hs Hl Hw) as [(h2 & Hp2 & Epc & Hpre) Hbus]. destruct Hw as [_ Hm].
  assert (linv l2) as Hl2 by (by eapply linv_step).
  destruct (IH h2 Hl2 (conj Hp2 (eq_trans Epc Hm))) as (h3 & Hw3 & Hpre3 & Hbus3). exists h3. split; [done|].
  split; [by etrans|]. intros d Hd Hlen. apply Hbus3; [by apply Hbus|].
  pose proof (prefix_length _ _ Hpre). pose proof (li_handlers _ Hl2 p h2 Hp2) as (_ & Hle & _). lia.
Qed.

Lemma receive_heartbeat l p h d hb :
  linv l → ahandlers l !! p = Some h → live h = true → wasLeader l = true →
  vm_Unmarshal d = inr (Some (VizierMessage_Heartbeat hb)) → UUIDFromProto (hb_AgentID hb) = inr (ah_id h) →
  handleMessages true updateAgentTopic d l = (Ret (Some p), set_wasLeader true l).
Proof.
  intros Hl Hp Hlive Hw Hd Hid. unfold handleMessages. run_state. rewrite Hw. cbn [negb andb].
  erewrite bind_ret; [|reflexivity]. erewrite bind_ret; [|reflexivity]. rewrite decide_True by done.
  unfold HandleMessage. rewrite Hd. unfold forwardAgentHeartBeat. rewrite Hid. run_state. cbn [set_wasLeader agentMap].
  by rewrite (li_live _ Hl p h Hp Hlive).
Qed.

(** Heartbeats fill the queue of a waiting handler, and then block the bus. *)
Lemma heartbeats_block_bus l p m h d hb :
  linv l → self_stopping l p m h → bus l = BReceive → wasLeader l = true →
  vm_Unmarshal d = inr (Some (VizierMessage_Heartbeat hb)) → UUIDFromProto (hb_AgentID hb) = inr (ah_id h) →
  ∃ l' h', rtc lstep l l' ∧ self_stopping l' p m h' ∧ bus l' = BSend p d ∧ length (ah_MsgChannel h') = queue_size.
Proof.
  remember (queue_size - length (ah_MsgChannel h)) as n eqn:En. revert l h En.
  induction n as [|n IH]; intros l h En Hl [Hp Hpc] Hb Hw Hd Hid;
    pose proof (li_handlers _ Hl p h Hp) as (_ & Hle & _);
    assert (live h = true) as Hlive by (unfold live; by rewrite Hpc);
    pose proof (step_receive l true updateAgentTopic d _ _ Hb (receive_heartbeat l p h d hb Hl Hp Hlive Hw Hd Hid)) as Hs1;
    pose proof (linv_step _ _ Hs1 Hl) as Hl1.
  - eexists _, h. split; [by apply rtc_once|]. split; [by split|]. split; [done|lia].
  - set (l1 := set_bus (BSend p d) (set_wasLeader true l)) in *.
    pose proof (step_send l1 p d h eq_refl Hp ltac:(lia)) as Hs2. pose proof (linv_step _ _ Hs2 Hl1) as Hl2.
    set (l2 := set_bus BReceive _) in *. set (h2 := with_queue (ah_MsgChannel h ++ [d]) h).
    destruct (IH l2 h2) as (l' & h' & Hr & Hrest); try done.
    + cbn [h2 with_queue ah_MsgChannel]. rewrite length_app. cbn [length]. lia.
    + split; [|done]. change (ahandlers l2) with (ahandlers (upd p (λ h, with_queue (ah_MsgChannel h ++ [d]) h) l1)).
      apply lookup_upd. exists h. by rewrite decide_True.
    + exists l', h'. split; [|done]. eapply rtc_l; [exact Hs1|]. by eapply rtc_l.
Qed.

(** A registration under the pair of the agent itself makes its handler wait for its
    own end. *)
Lemma reregistration_step `{!UUIDSpec U} l p h data rest m r t :
  linv l → ahandlers l !! p = Some h → ah_pc h = HSelect → ah_MsgChannel h = data :: rest →
  vm_Unmarshal data = inr (Some (VizierMessage_RegisterAgentRequest m)) →
  (∀ l0, world l0 = world l → (lookup_pair m l0).1 = Ret (uuid_String (ah_id h))) →
  ∃ l1 h1, handle_one r t p (ah_id h) data (upd p (with_queue rest) l) = (Ret tt, l1) ∧ lstep l l1 ∧ linv l1 ∧
    self_stopping l1 p m h1 ∧ ah_id h1 = ah_id h ∧ bus l1 = bus l ∧ wasLeader l1 = wasLeader l.
Proof.
  intros Hl Hp Hpc Hq Hd Hlook. set (l0 := upd p (with_queue rest) l). set (h0 := with_queue rest h).
  assert (live h = true) as Hlive by (unfold live; by rewrite Hpc).
  assert (ahandlers l0 !! p = Some h0) as Hp0 by (apply lookup_upd; exists h; by rewrite decide_True).
  destruct (lookup_pair m l0) as [o l1] eqn:El. pose proof (Hlook l0 eq_refl) as Ho. rewrite El in Ho. cbn in Ho. subst o.
  pose proof (frames_run _ _ _ _ El) as (Em & Eh & Eb & Ew & _).
  assert (handle_one r t p (ah_id h) data l0 = (Ret tt, upd p (with_pc (HStopping m p)) (upd p with_quit l1))) as E.
  { unfold handle_one. rewrite Hd. rewrite (bind_ret (register_begin m) _ l0 (Some p) (upd p with_quit l1)); [done|].
    rewrite register_begin_lookup, (bind_ret _ _ _ _ _ El).
    rewrite decide_False. 2: { intros Es. pose proof (uuid_String_length (ah_id h)) as Hlen. by rewrite Es in Hlen. }
    rewrite uuid_FromString_String. run_state. rewrite Em. change (agentMap l0) with (agentMap l).
    rewrite (li_live _ Hl p h Hp Hlive). done. }
  eexists _, (with_pc (HStopping m p) (with_quit h0)). split; [exact E|].
  pose proof (step_message l p h data rest r t _ Hp Hpc Hq E) as Hs. split; [exact Hs|]. split; [by eapply linv_step|].
  split; [|by split_and!]. split; [|done]. apply lookup_upd. exists (with_quit h0). rewrite decide_True by done. split; [|done].
  apply lookup_upd. exists h0. rewrite decide_True by done. by rewrite Eh.
Qed.

(** What follows: the handler never does anything again, and its agent can block the
    message bus. *)
Definition stuck_for_ever l (p : nat) (m : RegisterAgentRequest) (id : uuid) : Prop :=
  (∀ l', rtc lstep l l' → pc_at l' p = Some (HStopping m p)) ∧
  ∀ d hb, bus l = BReceive → wasLeader l = true → vm_Unmarshal d = inr (Some (VizierMessage_Heartbeat hb)) →
    UUIDFromProto (hb_AgentID hb) = inr id → ∃ l', rtc lstep l l' ∧ ∀ l'', rtc lstep l' l'' → bus l'' = BSend p d.

Lemma self_stopping_stuck l p m h : linv l → self_stopping l p m h → stuck_for_ever l p m (ah_id h).
Proof.
  intros Hl Hw. split.
  - intros l3 Hr. destruct (self_stopping_forever l l3 p m h Hr Hl Hw) as (h3 & [Hp3 Hpc3] & _). unfold pc_at. rewrite Hp3. cbn.
    by rewrite Hpc3.
  - intros d hb Hbus Hlead Hdec Hid.
    destruct (heartbeats_block_bus l p m h d hb Hl Hw Hbus Hlead Hdec Hid) as (l3 & h3 & Hr & Hw3 & Hb3 & Hlen3).
    exists l3. split; [done|]. intros l4 Hr4.
    destruct (self_stopping_forever l3 l4 p m h3 Hr4 (linv_reachable _ _ Hr Hl) Hw3) as (_ & _ & _ & Hbus4). by apply Hbus4.
Qed.

(** *** A replica that is not the leader *)

Definition standby_step l l' : Prop := lstep l l' ∧ wasLeader l' = false.

(** No handler has a message or handles one. *)
Definition idle h : Prop := ah_MsgChannel h = [] ∧ match ah_pc h with HStopping _ _ => False | _ => True end.
Definition standby l : Prop := wasLeader l = false ∧ bus l = BReceive ∧ ∀ p h, ahandlers l !! p = Some h → idle h.

Lemma standby_upd p f l :
  standby l → (∀ h, ahandlers l !! p = Some h → idle h → idle (f h)) → standby (upd p f l).
Proof.
  intros (Hw & Hb & Hi) Hf. split_and!; [done|done|]. intros q h (h0 & Hq & ->)%lookup_upd.
  case_decide; [|by eapply Hi]. subst q. apply Hf; [done|]. by eapply Hi.
Qed.

Lemma standby_same l l' : same_goroutines l l' → standby l → standby l'.
Proof. intros (_ & Eh & Eb & Ew & _) (Hw & Hb & Hi). unfold standby. rewrite Eh, Eb, Ew. by split_and!. Qed.

Lemma standby_next l l' : standby_step l l' → standby l → standby l'.
Proof.
  intros [Hstep Hw'] Hst. pose proof Hst as (Hw & Hb & Hi).
  destruct Hstep as [l b subj data target l' Hb' E|l q data hq Hb' Hq Hlen|l q hq Hq Hpc|l q hq Hq Hpc
    |l q hq Hq Hpc Hquit|l q hq Hq Hpc Ht|l q hq data rest r t l' Hq Hpc Hd E|l q hq m' q' t l' Hq Hpc Hw0 E|l q hq r l' Hq Hpc E
    |l a ts l' Ht E|l t Ht|l qs Hc Hqs|l q qs Hc|l q qs Hc Hw0].
  - unfold handleMessages in E. revert E. run_state. rewrite Hw. cbn [negb andb]. destruct b.
    + intros E. apply bind_Ret_inv in E as ([] & l1 & _ & E). apply bind_Ret_inv in E as ([] & l2 & E2 & E).
      injection E2 as <-. exfalso. cbn [negb set_bus wasLeader] in *.
      assert (wasLeader l' = true); [|congruence]. case_decide; [|by injection E as <- <-].
      revert E. unfold HandleMessage. destruct (vm_Unmarshal data) as [|[[m|m|m|]|]]; try (by intros [= <- <-]).
      * unfold forwardAgentHeartBeat. destruct (UUIDFromProto _); [by intros [= <- <-]|]. run_state.
        destruct (agentMap _ !! _); [by intros [= <- <-]|]. intros E. by apply frames_run in E as (_ & _ & _ & -> & _); [|apply _].
      * unfold forwardAgentRegisterRequest. intros E. apply bind_Ret_inv in E as (info & l3 & E3 & E).
        destruct (rar_Info m); [|done]. injection E3 as <- <-. revert E. destruct (UUIDFromProto _); [by intros [= <- <-]|]. run_state.
        destruct (agentMap _ !! _) eqn:Em; [by intros [= <- <-]|]. unfold createAgentHandler. intros E.
        apply bind_Ret_inv in E as (p & l4 & E4 & E). injection E as <- <-. revert E4. run_state. rewrite Em.
        by intros [= <- <-].
      * intros E. by apply frames_run in E as (_ & _ & _ & -> & _); [|apply _].
    + erewrite bind_ret; [|reflexivity]. erewrite bind_ret; [|reflexivity]. intros [= <- <-]. by split_and!.
  - by rewrite Hb in Hb'.
  - apply standby_upd; [done|]. by intros h _ [? _].
  - apply standby_upd; [done|]. intros h _ [? _]. split; [done|]. by destruct (ah_quit hq).
  - apply standby_upd; [done|]. by intros h _ [? _].
  - apply standby_upd; [done|]. by intros h _ [? _].
  - destruct (Hi q hq Hq) as [Hnil _]. by rewrite Hnil in Hd.
  - destruct (Hi q hq Hq) as [_ Hno]. by rewrite Hpc in Hno.
  - unfold cleanup in E. destruct (ah_pc hq); try done.
    + apply bind_Ret_inv in E as ([] & l1 & E1 & E). injection E as <-.
      apply standby_upd; [by apply (standby_same l); [exact (frames_run _ _ _ _ E1)|]|]. by intros h _ [? _].
    + apply bind_Ret_inv in E as ([] & l2 & E1 & E). apply bind_Ret_inv in E1 as ([] & l1 & E1 & E2). injection E as <-. injection E2 as <-.
      apply standby_upd; [|by intros h _ [? _]]. apply frames_run in E1; [|apply _]. by apply (standby_same _ _ E1) in Hst as (? & ? & ?).
    + apply bind_Ret_inv in E as ([] & l1 & E1 & E). injection E as <-.
      apply standby_upd; [by apply (standby_same l); [exact (frames_run _ _ _ _ E1)|]|]. by intros h _ [? _].
  - apply frames_run in E; [|apply _]. by apply (standby_same (set_tasks ts l)).
  - done.
  - done.
  - destruct (standby_upd q with_quit l Hst) as (? & ? & ?); [by intros h _|]. by split_and!.
  - done.
Qed.

Lemma standby_reachable l l' : rtc standby_step l l' → standby l → standby l'.
Proof. induction 1 as [|l1 l2 l3 Hs _ IH]; [done|]. intros Hst. apply IH. by eapply standby_next. Qed.
End claims.
