(* ===== verification/AgentService.v ===== *)
(** * The listener on the managers

    The agent manager and the tracepoint manager behind the listener of
    [AgentListener]: registration from the message of the agent to the store and the
    answer, and what happens when an agent registers a second time. *)

From S2P Require Import Prelude GoLib Datastore Uuid Messages MessageBus StoreLib AgentSchema AgentStore AgentManager TracepointStore Tracepoint AgentListener.
From Stdlib Require Import Ascii.

(** The two managers share the datastore; the CIDR provider is asked for what it
    currently has. *)
Record service (St : Type) `{U : UUIDLib} `{N : NatsConn} := mkService {
  sv_mgr : ManagerImpl St;
  sv_ServiceCIDR : string;
  sv_PodCIDRs : list string
}.
Arguments mkService {St U N} _ _ _.
Arguments sv_mgr {St U N} _.
Arguments sv_ServiceCIDR {St U N} _.
Arguments sv_PodCIDRs {St U N} _.

Section instance.
Context {St : Type} `{!Datastore St} `{U : UUIDLib} `{!AgentStore St} `{N : NatsConn}.
Context `{!Proto TracepointInfo} `{!Proto AgentTracepointStatus} `{!Proto UUIDpb} `{!Proto TracepointMessage}.
Context (sha256_hex : string → string)
  (ro : gmap string (list Agent * list uuid) → list (string * (list Agent * list uuid))).

(** The error of a call of the agent manager by the tracepoint manager. *)
Definition call_error (r : outcome unit * ManagerImpl St) : option error * ManagerImpl St :=
  match r with
  | (Ret _, mg) => (None, mg)
  | (Err e, mg) => (Some e, mg)
  | (Crash _, mg) => (Some (ErrMsg "panic"), mg)
  end.

#[export] Instance manager_messenger : AgentMessenger (ManagerImpl St) := {
  am_MessageAgents ids msg mg := call_error (MessageAgents ids msg mg);
  am_MessageActiveAgents msg mg := call_error (MessageActiveAgents msg mg)
}.

Definition mgr_call {A} (m : M (ManagerImpl St) A) : M (service St) A :=
  zoom sv_mgr (λ mg w, mkService mg (sv_ServiceCIDR w) (sv_PodCIDRs w)) m.

(** The tracepoint manager works on the store of the agent manager, which passes its
    messages on. *)
Definition tp_call {A} (m : M (Manager St (ManagerImpl St)) A) : M (service St) A :=
  mgr_call (λ mg,
    let '(o, tm) := m (mkTpManager (agtStore mg) mg) in
    (o, mkManager (ts tm) (conn (agtMgr tm)) (agentUpdateTrackers mg) (agentRegCounter mg))).

#[local] Instance metadata_service : MetadataService (service St) := {
  ms_GetActiveAgents := mgr_call GetActiveAgents;
  ms_DeleteAgent r id := mgr_call (AgentManager.DeleteAgent r id);
  ms_GetAgentIDForHostnamePair pair := mgr_call (AgentManager.GetAgentIDForHostnamePair pair);
  ms_RegisterAgent n1 n2 a := mgr_call (RegisterAgent n1 n2 a);
  ms_UpdateHeartbeat now id := mgr_call (UpdateHeartbeat now id);
  ms_ApplyAgentUpdate r u := mgr_call (ApplyAgentUpdate r u);
  ms_GetServiceCIDR := sv_ServiceCIDR;
  ms_GetPodCIDRs := sv_PodCIDRs;
  ms_UpdateAgentTracepointStatus id agent state status := tp_call (UpdateAgentTracepointStatus id agent state status);
  ms_GetAllTracepoints := tp_call GetAllTracepoints;
  ms_RegisterTracepoint agents id dep := tp_call (RegisterTracepoint sha256_hex ro agents id dep);
  ms_DeleteTracepointsForAgent id := tp_call (Tracepoint.DeleteAgent id);
  ms_sendMessage topic msg := mgr_call (Publish topic msg)
}.
End instance.

(** ** Registration *)
Section registration.
Context {St : Type} `{!Datastore St} `{U : UUIDLib} `{!UUIDSpec U} `{!AgentStore St}.
Context {rep : St → agents_abs → Prop} `{!AgentStoreSpec St rep}.
Context `{N : NatsConn} {log : nconn → list (string * string)} {up : nconn → Prop} `{!NatsSpec N log up}.
Context `{!Proto TracepointInfo} `{!Proto AgentTracepointStatus} `{!Proto UUIDpb} `{!Proto TracepointMessage}.
Context `{!VizierProto} `{!Proto agent_reply} `{!ProtoSpec agent_reply}.
Context (sha256_hex : string → string)
  (ro : gmap string (list Agent * list uuid) → list (string * (list Agent * list uuid))).
#[local] Instance svc : MetadataService (service St) := metadata_service sha256_hex ro.
Implicit Types (l : AgentTopicListener (service St)) (h : AgentHandler).

Abbreviation store_of l := (agtStore (sv_mgr (world l))).
Abbreviation conn_of l := (conn (sv_mgr (world l))).

(** The lookup of the pair only reads the store. *)
Lemma lookup_pair_run m info caps hi l s :
  rar_Info m = Some info → ai_Capabilities info = Some caps → ai_HostInfo info = Some hi →
  st_GetAgentIDForHostnamePair (agent_pair info hi) (store_of l) = (Ret s, store_of l) →
  lookup_pair m l = (Ret s, l).
Proof.
  intros Hi Hc Hh E. unfold lookup_pair. rewrite Hi. erewrite bind_ret; [|reflexivity]. rewrite Hc.
  erewrite bind_ret; [|reflexivity]. rewrite (bind_ret _ _ l (if CollectsData caps then "" else Hostname hi) l).
  2: { destruct (CollectsData caps); [done|]. by rewrite Hh. }
  rewrite Hh. erewrite bind_ret; [|reflexivity].
  rewrite (bind_ret _ _ l (inr s) l); [done|]. apply try_ret. unfold agent_pair, collects_data in E. rewrite Hc in E.
  unfold w_call, zoom. cbn [ms_GetAgentIDForHostnamePair svc metadata_service]. unfold mgr_call, zoom, AgentManager.GetAgentIDForHostnamePair, st_call, zoom.
  rewrite E. by destruct l as [[[] ? ?]].
Qed.

(** A message that was received is put into the empty queue of its handler, which
    takes it. *)
Lemma send_and_select l p h d :
  linv l → bus l = BSend p d → ahandlers l !! p = Some h → ah_pc h = HLoop → ah_quit h = false → ah_MsgChannel h = [] →
  ∃ l', rtc lstep l l' ∧ linv l' ∧ world l' = world l ∧ bus l' = BReceive ∧ wasLeader l' = wasLeader l ∧
    ahandlers l' !! p = Some (mkAgentHandler (ah_id h) [d] false (ah_deadline h) HSelect).
Proof.
  intros Hl Hb Hp Hpc Hquit Hq.
  pose proof (step_send l p d h Hb Hp ltac:(rewrite Hq; unfold queue_size; simpl; lia)) as Hs1.
  pose proof (linv_step _ _ Hs1 Hl) as Hl1. set (l1 := set_bus BReceive _) in *.
  assert (ahandlers l1 !! p = Some (with_queue [d] h)) as Hp1.
  { change (ahandlers l1) with (ahandlers (upd p (λ h, with_queue (ah_MsgChannel h ++ [d]) h) l)). apply lookup_upd.
    exists h. rewrite decide_True by done. by rewrite Hq. }
  pose proof (step_loop l1 p _ Hp1 Hpc) as Hs2. pose proof (linv_step _ _ Hs2 Hl1) as Hl2.
  eexists. split; [eapply rtc_l; [exact Hs1|by apply rtc_once]|]. split; [exact Hl2|]. split_and!; [done|done|done|].
  apply lookup_upd. exists (with_queue [d] h). split; [done|]. rewrite decide_True by done. cbn [with_queue ah_quit]. rewrite Hquit.
  by unfold with_pc; cbn; rewrite Hquit.
Qed.

(** The request, of the agent [id] that is not registered yet. *)
Definition new_request (m : RegisterAgentRequest) (id : uuid) (info : AgentInfo) (caps : AgentCapabilities) (hi : HostInfo)
    (A : agents_abs) : Prop :=
  rar_Info m = Some info ∧ UUIDFromProto (ai_AgentID info) = inr id ∧ rar_ASID m = 0%Z ∧
  ai_Capabilities info = Some caps ∧ ai_HostInfo info = Some hi ∧ good_comp (PodName hi) = true ∧
  no_sep "/" (Hostname hi) = true ∧ no_sep "/" (HostIP hi) = true ∧
  aa_agents A !! id = None ∧ (aa_asid A < 2 ^ 32)%Z ∧ UUIDFromProto (Some (ProtoFromUUID id)) = inr id.

(** The agent as it is registered. *)
Definition registered_agent (t : nows) (id : uuid) (info : AgentInfo) (asid : Z) : Agent :=
  mkAgent (Some (mkAgentInfo (Some (ProtoFromUUID id)) (ai_HostInfo info) (ai_IPAddress info) (ai_Capabilities info)
    (ai_Parameters info))) (now3 t) (now4 t) asid.

Lemma register_finish_run t id m info caps hi l A :
  new_request m id info caps hi A → rep (store_of l) A → up (conn_of l) →
  ∃ l', register_finish (now1 t) (now2 t) (now3 t) (now4 t) id m l = (Ret tt, l') ∧
    rep (store_of l') (set_agent id (registered_agent t id info (aa_asid A)) (set_asid (aa_asid A + 1) A)) ∧
    up (conn_of l') ∧ log (conn_of l') = log (conn_of l) ++ [(AgentUUIDTopic id, enc (RegisterAgentResponse (aa_asid A)))] ∧
    st_GetAgentIDForHostnamePair (agent_pair info hi) (store_of l') = (Ret (uuid_String id), store_of l').
Proof.
  intros (Hi & Hid & H0 & Hc & Hh & Hpod & Hhn & Hip & Hnew & Hasid & Hrt) HR Hup.
  unfold register_finish. rewrite Hi. erewrite bind_ret; [|reflexivity]. cbv zeta.
  set (info' := mkAgentInfo _ _ _ _ _). set (a := mkAgent (Some info') _ _ _).
  destruct (RegisterAgent_new (rep := rep) (now3 t) (now4 t) a (sv_mgr (world l)) A id (PodName hi) HR) as (mg' & E & HR' & _ & Ec & Hpair).
  { exists info', hi. split_and!; [done|done|done|]. unfold UUIDFromProtoOrNil. cbn [info' ai_AgentID]. by rewrite Hrt. }
  { exists info', caps, hi. by split_and!. } { done. } { done. } { done. }
  set (l1 := set_world (mkService mg' (sv_ServiceCIDR (world l)) (sv_PodCIDRs (world l))) l).
  rewrite (bind_ret _ _ l (inr (aa_asid A)) l1).
  2: { apply try_ret. unfold w_call, zoom. cbn [ms_RegisterAgent svc metadata_service]. unfold mgr_call, zoom. by rewrite E. }
  destruct (nats_Publish (conn mg') (AgentUUIDTopic id) (enc (RegisterAgentResponse (aa_asid A)))) as (c & Ep & Hup' & Hlog);
    [by rewrite Ec|]. rewrite Ec in Hlog.
  set (mg2 := mkManager (agtStore mg') c (agentUpdateTrackers mg') (agentRegCounter mg')).
  set (l2 := set_world (mkService mg2 (sv_ServiceCIDR (world l)) (sv_PodCIDRs (world l))) l).
  rewrite (bind_ret _ _ l1 (inr tt) l2).
  2: { apply try_ret. unfold SendMessageToAgent. rewrite (Marshal_enc (RegisterAgentResponse (aa_asid A))).
       erewrite bind_ret; [|reflexivity]. unfold w_call, zoom. cbn [ms_sendMessage svc metadata_service]. unfold mgr_call, zoom, Publish.
       cbn [l1 set_world world sv_mgr]. by rewrite Ep. }
  eexists. split; [reflexivity|]. split_and!; [exact HR'|done|done|]. exact (Hpair info' hi eq_refl Hh).
Qed.

(** The message bus finds the handler of a registration, or makes one. *)
Lemma receive_registration l d m id :
  linv l → bus l = BReceive → wasLeader l = true →
  vm_Unmarshal d = inr (Some (VizierMessage_RegisterAgentRequest m)) → request_of id m →
  ∃ l' p, lstep l l' ∧ linv l' ∧ bus l' = BSend p d ∧ world l' = world l ∧ wasLeader l' = true ∧ agentMap l' !! id = Some p ∧
    match agentMap l !! id with
    | Some q => p = q ∧ ahandlers l' = ahandlers l
    | None => ahandlers l' !! p = Some (mkAgentHandler id [] false 0 HStart)
    end.
Proof.
  intros Hl Hb Hw Hd (info & Hi & Hid).
  assert (∃ l1 p, handleMessages true updateAgentTopic d l = (Ret (Some p), l1) ∧ world l1 = world l ∧ wasLeader l1 = true ∧
    agentMap l1 !! id = Some p ∧
    match agentMap l !! id with
    | Some q => p = q ∧ ahandlers l1 = ahandlers l
    | None => ahandlers l1 !! p = Some (mkAgentHandler id [] false 0 HStart)
    end) as (l1 & p & E & Hw1 & Hl1 & Hm & Hmatch).
  { unfold handleMessages. run_state. rewrite Hw. cbn [negb andb]. erewrite bind_ret; [|reflexivity]. erewrite bind_ret; [|reflexivity].
    rewrite decide_True by done. unfold HandleMessage. rewrite Hd. unfold forwardAgentRegisterRequest. rewrite Hi.
    erewrite bind_ret; [|reflexivity]. rewrite Hid. run_state. cbn [set_wasLeader agentMap].
    destruct (agentMap l !! id) as [q|] eqn:Eq.
    - eexists _, q. split; [reflexivity|]. by split_and!.
    - unfold createAgentHandler. erewrite bind_ret; [|run_state; cbn [set_wasLeader agentMap]; rewrite Eq;
        erewrite bind_ret; [|reflexivity]; reflexivity].
      eexists _, _. split; [reflexivity|]. split; [done|]. split; [done|]. cbn [set_map set_handlers set_wasLeader agentMap ahandlers].
      split; [apply lookup_insert_eq|]. by rewrite lookup_app_r, Nat.sub_diag by done. }
  pose proof (step_receive l true updateAgentTopic d _ _ Hb E) as Hs.
  eexists _, p. split; [exact Hs|]. split; [by eapply linv_step|]. by split_and!.
Qed.

(** The handler of the agent is ready for the next message. *)
Definition ready l (p : nat) (id : uuid) : Prop :=
  agentMap l !! id = Some p ∧
  ∃ h, ahandlers l !! p = Some h ∧ ah_id h = id ∧ ah_pc h = HLoop ∧ ah_quit h = false ∧ ah_MsgChannel h = [].

(** The handler handles a registration of its agent under a pair nobody has. *)
Lemma registers_new l p d m id info caps hi A t dl :
  linv l → ahandlers l !! p = Some (mkAgentHandler id [d] false dl HSelect) → bus l = BReceive →
  vm_Unmarshal d = inr (Some (VizierMessage_RegisterAgentRequest m)) → new_request m id info caps hi A →
  rep (store_of l) A → up (conn_of l) →
  st_GetAgentIDForHostnamePair (agent_pair info hi) (store_of l) = (Ret "", store_of l) →
  ∃ l', lstep l l' ∧ linv l' ∧ ready l' p id ∧ bus l' = BReceive ∧ wasLeader l' = wasLeader l ∧
    rep (store_of l') (set_agent id (registered_agent t id info (aa_asid A)) (set_asid (aa_asid A + 1) A)) ∧ up (conn_of l') ∧
    log (conn_of l') = log (conn_of l) ++ [(AgentUUIDTopic id, enc (RegisterAgentResponse (aa_asid A)))] ∧
    st_GetAgentIDForHostnamePair (agent_pair info hi) (store_of l') = (Ret (uuid_String id), store_of l').
Proof using All.
  intros Hl Hp Hb Hd Hreq HR Hup Hpair. pose proof Hreq as (Hi & Hid & _ & Hc & Hh & _).
  set (l0 := upd p (with_queue []) l).
  destruct (register_finish_run t id m info caps hi l0 A Hreq HR Hup) as (l1 & Ef & HR1 & Hup1 & Hlog1 & Hpair1).
  pose proof (frames_run _ _ _ _ Ef) as (Em & Eh & Eb & Ew & _ & Ecl).
  assert (handle_one map_order t p id d l0 = (Ret tt, (next_round p l1).2)) as E.
  { unfold handle_one. rewrite Hd. rewrite (bind_ret _ _ l0 None l0).
    2: { rewrite register_begin_lookup, (bind_ret _ _ _ _ _ (lookup_pair_run m info caps hi l0 "" Hi Hc Hh Hpair)). done. }
    by rewrite (bind_ret _ _ _ _ _ Ef). }
  pose proof (step_message l p _ d [] map_order t _ Hp eq_refl eq_refl E) as Hs. pose proof (linv_step _ _ Hs Hl) as Hl'.
  eexists. split; [exact Hs|]. split; [exact Hl'|]. cbn [next_round modify snd].
  set (h0 := mkAgentHandler id [] false dl HSelect).
  assert (ahandlers l1 !! p = Some h0) as Hp1.
  { rewrite Eh. apply lookup_upd. eexists. split; [exact Hp|]. by rewrite decide_True. }
  split_and!; [|by rewrite <-Hb; exact Eb|exact Ew|exact HR1|exact Hup1|exact Hlog1|exact Hpair1]. split.
  - transitivity (agentMap l1 !! id); [done|]. rewrite Em.
    exact (li_live _ Hl p _ Hp eq_refl).
  - exists (with_pc HLoop (with_deadline (clock l1 + agentExpirationTimeout) h0)). split; [|done].
    apply lookup_upd. exists h0. by rewrite decide_True.
Qed.

Lemma registration_run l d m id info caps hi A t :
  linv l → bus l = BReceive → wasLeader l = true → agentMap l !! id = None →
  vm_Unmarshal d = inr (Some (VizierMessage_RegisterAgentRequest m)) → new_request m id info caps hi A →
  rep (store_of l) A → up (conn_of l) →
  st_GetAgentIDForHostnamePair (agent_pair info hi) (store_of l) = (Ret "", store_of l) →
  ∃ l' p, rtc lstep l l' ∧ linv l' ∧ ready l' p id ∧ bus l' = BReceive ∧ wasLeader l' = true ∧
    rep (store_of l') (set_agent id (registered_agent t id info (aa_asid A)) (set_asid (aa_asid A + 1) A)) ∧
    log (conn_of l') = log (conn_of l) ++ [(AgentUUIDTopic id, enc (RegisterAgentResponse (aa_asid A)))] ∧
    st_GetAgentIDForHostnamePair (agent_pair info hi) (store_of l') = (Ret (uuid_String id), store_of l').
Proof using All.
  intros Hl Hb Hw Hnone Hd Hreq HR Hup Hpair. pose proof Hreq as (Hi & Hid & _).
  destruct (receive_registration l d m id Hl Hb Hw Hd) as (l1 & p & Hs1 & Hl1 & Hb1 & Hw1 & Hlead1 & Hm1 & Hp1);
    [by exists info|]. rewrite Hnone in Hp1.
  pose proof (step_start l1 p _ Hp1 eq_refl) as Hs2. pose proof (linv_step _ _ Hs2 Hl1) as Hl2.
  set (l2 := upd p _ l1) in *. set (h2 := mkAgentHandler id [] false (clock l1 + agentExpirationTimeout) HLoop).
  assert (ahandlers l2 !! p = Some h2) as Hp2.
  { apply lookup_upd. eexists. split; [exact Hp1|]. by rewrite decide_True. }
  destruct (send_and_select l2 p h2 d Hl2 Hb1 Hp2 eq_refl eq_refl eq_refl) as (l3 & Hr3 & Hl3 & Hw3 & Hb3 & Hlead3 & Hp3).
  assert (world l3 = world l) as Ew by (rewrite Hw3; exact Hw1).
  destruct (registers_new l3 p d m id info caps hi A t _ Hl3 Hp3 Hb3 Hd Hreq) as (l4 & Hs4 & Hl4 & Hready & Hb4 & Hlead4 & HR4 & Hup4 & Hlog4 & Hpair4);
    [by rewrite Ew..|]. exists l4, p. split.
  { eapply rtc_l; [exact Hs1|]. eapply rtc_l; [exact Hs2|]. eapply rtc_r; [exact Hr3|exact Hs4]. }
  rewrite Ew in Hlog4. split_and!; try done. by rewrite Hlead4, Hlead3.
Qed.

(** C24: A new agent that asks for registration can be answered: when the listener is the
    leader, is waiting for a message, knows no handler of the agent, and no other agent
    is stored for its host, there is a run after which the agent is stored under a new
    ASID, the ASID was sent as the answer on its topic, the agent is found under its
    host, and its handler is ready for the next message. *)
Theorem registration_answered l d m id info caps hi A t :
  linv l → bus l = BReceive → wasLeader l = true → agentMap l !! id = None →
  vm_Unmarshal d = inr (Some (VizierMessage_RegisterAgentRequest m)) → new_request m id info caps hi A →
  rep (store_of l) A → up (conn_of l) →
  st_GetAgentIDForHostnamePair (agent_pair info hi) (store_of l) = (Ret "", store_of l) →
  ∃ l' p, rtc lstep l l' ∧ ready l' p id ∧
    st_GetAgent id (store_of l') = (Ret (Some (registered_agent t id info (aa_asid A))), store_of l') ∧
    log (conn_of l') = log (conn_of l) ++ [(AgentUUIDTopic id, enc (RegisterAgentResponse (aa_asid A)))] ∧
    st_GetAgentIDForHostnamePair (agent_pair info hi) (store_of l') = (Ret (uuid_String id), store_of l').
Proof using All.
  intros Hl Hb Hw Hnone Hd Hreq HR Hup Hpair.
  destruct (registration_run l d m id info caps hi A t Hl Hb Hw Hnone Hd Hreq HR Hup Hpair)
    as (l' & p & Hr & _ & Hready & _ & _ & HR' & Hlog & Hpair'). exists l', p. split_and!; try done.
  rewrite (store_GetAgent _ _ id HR'). cbn. by rewrite lookup_insert_eq.
Qed.

(** An agent that sends its registration twice makes its handler wait for its own
    end: the handler never does anything again, and eleven heartbeats of that agent
    block the message bus, and with it the messages of all agents, for ever. *)
Theorem registering_twice_deadlocks l d m id info caps hi A :
  linv l → bus l = BReceive → wasLeader l = true → agentMap l !! id = None →
  vm_Unmarshal d = inr (Some (VizierMessage_RegisterAgentRequest m)) → new_request m id info caps hi A →
  rep (store_of l) A → up (conn_of l) →
  st_GetAgentIDForHostnamePair (agent_pair info hi) (store_of l) = (Ret "", store_of l) →
  ∃ l' p, rtc lstep l l' ∧ bus l' = BReceive ∧ wasLeader l' = true ∧ agentMap l' !! id = Some p ∧ stuck_for_ever l' p m id.
Proof using All.
  intros Hl Hb Hw Hnone Hd Hreq HR Hup Hpair. pose proof Hreq as (Hi & Hid & _ & Hc & Hh & _).
  destruct (registration_run l d m id info caps hi A (mkNows 0 0 0 0) Hl Hb Hw Hnone Hd Hreq HR Hup Hpair)
    as (l1 & p & Hr1 & Hl1 & [Hm1 (h & Hp1 & <- & Hpc & Hquit & Hq)] & Hb1 & Hlead1 & HR1 & _ & Hpair1).
  destruct (receive_registration l1 d m (ah_id h) Hl1 Hb1 Hlead1 Hd) as (l2 & q & Hs2 & Hl2 & Hb2 & Hw2 & Hlead2 & Hm2 & Hp2);
    [by exists info|]. rewrite Hm1 in Hp2. destruct Hp2 as [-> Eh2].
  destruct (send_and_select l2 p h d Hl2 Hb2 ltac:(by rewrite Eh2) Hpc Hquit Hq) as (l3 & Hr3 & Hl3 & Hw3 & Hb3 & Hlead3 & Hp3).
  destruct (reregistration_step l3 p _ d [] m map_order (mkNows 0 0 0 0) Hl3 Hp3 eq_refl eq_refl Hd)
    as (l4 & h4 & E4 & Hs4 & Hl4 & Hw4 & Hid4 & Hb4 & Hlead4).
  { intros l0 Hw0. rewrite (lookup_pair_run m info caps hi l0 (uuid_String (ah_id h)) Hi Hc Hh); [done|].
    by rewrite Hw0, Hw3, Hw2. }
  exists l4, p. cbn [ah_id] in Hid4. split_and!; [|by rewrite Hb4|by rewrite Hlead4, Hlead3| |].
  - etrans; [exact Hr1|]. eapply rtc_l; [exact Hs2|]. eapply rtc_r; [exact Hr3|exact Hs4].
  - destruct Hw4 as [Hp4 Hpc4]. rewrite <-Hid4. apply (li_live _ Hl4); [done|]. unfold live. by rewrite Hpc4.
  - rewrite <-Hid4. by apply self_stopping_stuck.
Qed.

(** *** A replica that is not the leader *)

(** A handler that was just made. *)
Definition fresh l : Prop := ∀ p h, ahandlers l !! p = Some h → h = mkAgentHandler (ah_id h) [] false 0 HStart.

Lemma create_handlers_fresh agents l o l' :
  create_handlers agents l = (o, l') → fresh l →
  fresh l' ∧ world l' = world l ∧ bus l' = bus l ∧ wasLeader l' = wasLeader l.
Proof.
  revert l. induction agents as [|a agents IH]; intros l E Hf; [by injection E as <- <-|]. cbn [create_handlers] in E.
  unfold mbind, M_bind in E. destruct (ag_Info a) as [info|]; [|by injection E as <- <-]. cbn [deref mret M_ret] in E.
  destruct (UUIDFromProto (ai_AgentID info)) as [e|id]; [by injection E as <- <-|]. cbn [lift_sum mret M_ret] in E.
  unfold createAgentHandler, mbind, M_bind in E. cbn [get_state] in E.
  destruct (agentMap l !! id) as [q|]; cbn [mret M_ret put_state] in E; [by apply IH|].
  apply IH in E; [done|]. intros p h [Hp|[_ Hp]]%lookup_app_Some; [by eapply Hf|].
  destruct (p - length (ahandlers l)) as [|k]; [|done]. by injection Hp as <-.
Qed.

Lemma Initialize_fresh w now l A :
  rep (agtStore (sv_mgr w)) A → NewAgentTopicListener w false now = Ret l → fresh l ∧ world l = w ∧ standby l.
Proof using All.
  intros HR. unfold NewAgentTopicListener, Initialize. destruct (store_GetAgents _ A HR) as (agents & E & _).
  rewrite (bind_ret _ _ _ agents (new_listener w false now)).
  2: { unfold w_call, zoom. cbn [ms_GetActiveAgents svc metadata_service new_listener world]. unfold mgr_call, zoom, GetActiveAgents, st_call, zoom.
       rewrite E. by destruct w as [[] ? ?]. }
  destruct (create_handlers agents _) as [[[]|e|c] l'] eqn:Ec; [|done..]. intros [= <-].
  destruct (create_handlers_fresh _ _ _ _ Ec) as (Hf & Hw & Hb & Hl); [by intros p h ?|].
  split; [done|]. split; [done|]. split_and!; [done|done|]. intros p h Hp. rewrite (Hf p h Hp). by split.
Qed.

(** The deferred function deletes the agent, then tells it to stop. *)
Lemma cleanup_deletes_agent l p h A a :
  ah_pc h = HDeleteAgent → rep (store_of l) A → aa_agents A !! ah_id h = Some a →
  ∃ cs l', cleanup map_order p h l = (Ret tt, upd p (with_pc HDeleteHandler) l') ∧ same_goroutines l l' ∧
    rep (store_of l') (remove_agent (ah_id h) cs A) ∧ conn_of l' = conn_of l.
Proof using All.
  intros Hpc HR Ha. pose proof (store_DeleteAgent map_order _ A (ah_id h) map_order_ok HR) as Hdel. rewrite Ha in Hdel.
  destruct Hdel as (cs & s' & Ed & HR' & _). set (mg := sv_mgr (world l)).
  set (mg1 := mkManager s' (conn mg) (append_update (deleted_update (ah_id h)) <$> agentUpdateTrackers mg) (agentRegCounter mg)).
  set (l' := set_world (mkService mg1 (sv_ServiceCIDR (world l)) (sv_PodCIDRs (world l))) l).
  exists cs, l'. split; [|by split_and!]. unfold cleanup. rewrite Hpc. rewrite (bind_ret _ _ l tt l'); [done|].
  unfold logged. rewrite (bind_ret _ _ l (inr tt) l'); [done|]. apply try_ret.
  unfold w_call, zoom. cbn [ms_DeleteAgent svc metadata_service]. unfold mgr_call, zoom. fold mg.
  unfold AgentManager.DeleteAgent, deleteAgentWrapper. rewrite (bind_ret _ _ mg (inr tt) mg1); [done|]. apply try_ret.
  erewrite bind_ret; [|apply st_call_ret; exact Ed]. done.
Qed.

Lemma cleanup_sends_nack l p h :
  ah_pc h = HDeleteHandler → up (conn_of l) →
  ∃ l', cleanup map_order p h l = (Ret tt, upd p (with_pc HDeleteTracepoints) (set_map (delete (ah_id h) (agentMap l')) l')) ∧
    same_goroutines l l' ∧ store_of l' = store_of l ∧
    log (conn_of l') = log (conn_of l) ++ [(AgentUUIDTopic (ah_id h), enc (HeartbeatNack false))].
Proof using All.
  intros Hpc Hup. set (mg := sv_mgr (world l)).
  destruct (nats_Publish (conn mg) (AgentUUIDTopic (ah_id h)) (enc (HeartbeatNack false)) Hup) as (c & Ep & Hup' & Hlog).
  set (mg2 := mkManager (agtStore mg) c (agentUpdateTrackers mg) (agentRegCounter mg)).
  set (l' := set_world (mkService mg2 (sv_ServiceCIDR (world l)) (sv_PodCIDRs (world l))) l).
  exists l'. split; [|by split_and!]. unfold cleanup. rewrite Hpc.
  rewrite (bind_ret _ _ l tt (set_map (delete (ah_id h) (agentMap l')) l')); [done|].
  unfold deleteAgent. rewrite (bind_ret _ _ l tt l'); [done|]. unfold logged. rewrite (bind_ret _ _ l (inr tt) l'); [done|].
  apply try_ret. unfold SendMessageToAgent. rewrite (Marshal_enc (HeartbeatNack false)). erewrite bind_ret; [|reflexivity].
  unfold w_call, zoom. cbn [ms_sendMessage svc metadata_service]. unfold mgr_call, zoom, Publish. fold mg. by rewrite Ep.
Qed.

(** The steps of an expired handler. *)
Lemma expire_run l p id dl A a :
  standby l → ahandlers l !! p = Some (mkAgentHandler id [] false dl HLoop) →
  rep (store_of l) A → up (conn_of l) → aa_agents A !! id = Some a →
  ∃ l' cs, rtc standby_step l l' ∧ rep (store_of l') (remove_agent id cs A) ∧
    log (conn_of l') = log (conn_of l) ++ [(AgentUUIDTopic id, enc (HeartbeatNack false))].
Proof using All.
  intros (Hw & _) Hp HR Hup Ha.
  pose proof (step_loop l p _ Hp eq_refl) as Hs1. set (l1 := upd p _ l) in *.
  pose proof (step_tick l1 (Z.max (clock l) dl) ltac:(cbn; lia)) as Hs2. set (l2 := set_clock _ l1) in *.
  assert (ahandlers l2 !! p = Some (mkAgentHandler id [] false dl HSelect)) as Hp2.
  { change (ahandlers l2) with (ahandlers l1). apply lookup_upd. eexists. split; [exact Hp|]. by rewrite decide_True. }
  pose proof (step_expire l2 p _ Hp2 eq_refl ltac:(cbn; lia)) as Hs3. set (l3 := upd p _ l2) in *.
  set (h3 := mkAgentHandler id [] false dl HDeleteAgent).
  assert (ahandlers l3 !! p = Some h3) as Hp3 by (apply lookup_upd; eexists; split; [exact Hp2|by rewrite decide_True]).
  destruct (cleanup_deletes_agent l3 p h3 A a eq_refl HR Ha) as (cs & l4 & E4 & (_ & Eh4 & _ & Ew4 & _) & HR4 & Ec4).
  pose proof (step_cleanup l3 p h3 map_order _ Hp3 eq_refl E4) as Hs4. set (l5 := upd p _ l4) in *.
  set (h5 := mkAgentHandler id [] false dl HDeleteHandler).
  assert (ahandlers l5 !! p = Some h5) as Hp5 by (apply lookup_upd; exists h3; rewrite Eh4, decide_True by done; done).
  destruct (cleanup_sends_nack l5 p h5 eq_refl) as (l6 & E6 & (_ & _ & _ & Ew6 & _) & Es6 & Hlog6).
  { change (conn_of l5) with (conn_of l4). by rewrite Ec4. }
  pose proof (step_cleanup l5 p h5 map_order _ Hp5 eq_refl E6) as Hs6.
  eexists _, cs. split.
  - eapply rtc_l; [split; [exact Hs1|done]|]. eapply rtc_l; [split; [exact Hs2|done]|]. eapply rtc_l; [split; [exact Hs3|done]|].
    eapply rtc_l; [split; [exact Hs4|cbn; by rewrite Ew4]|]. apply rtc_once. split; [exact Hs6|]. cbn. rewrite Ew6. cbn. by rewrite Ew4.
  - split; [change (rep (store_of l6) (remove_agent id cs A)); rewrite Es6; exact HR4|].
    transitivity (log (conn_of l6)); [done|]. rewrite Hlog6. change (conn_of l5) with (conn_of l4). by rewrite Ec4.
Qed.

(** The store no longer has the agent. *)
Definition forgotten l (id : uuid) : Prop := st_GetAgent id (store_of l) = (Ret None, store_of l).

(** A metadata service that is not the leader makes handlers for the agents in the
    store, gives them no message, and so deletes from the store every agent it found
    there and tells it to stop, however healthy the agent is. *)
Theorem standby_deletes_agents w now l A id p a :
  rep (agtStore (sv_mgr w)) A → up (conn (sv_mgr w)) → NewAgentTopicListener w false now = Ret l →
  agentMap l !! id = Some p → aa_agents A !! id = Some a →
  (∀ l', rtc standby_step l l' → ∀ q h, ahandlers l' !! q = Some h → ah_MsgChannel h = []) ∧
  ∃ l', rtc standby_step l l' ∧ forgotten l' id ∧
    log (conn_of l') = log (conn (sv_mgr w)) ++ [(AgentUUIDTopic id, enc (HeartbeatNack false))].
Proof using All.
  intros HR Hup E Hm Ha. destruct (Initialize_fresh w now l A HR E) as (Hf & Hw & Hst). split.
  { intros l' Hr q h Hq. destruct (standby_reachable _ _ Hr Hst) as (_ & _ & Hi). by destruct (Hi q h Hq). }
  pose proof (linv_new _ _ _ _ E) as Hl. destruct (li_map _ Hl id p Hm) as (h & Hp & Hid & _).
  rewrite (Hf p h Hp), Hid in Hp. pose proof (step_start l p _ Hp eq_refl) as Hs. set (l1 := upd p _ l) in *.
  assert (standby_step l l1) as Hs1 by (split; [exact Hs|apply Hst]).
  destruct (expire_run l1 p id (clock l + agentExpirationTimeout) A a) as (l' & cs & Hr & HR' & Hlog).
  { by eapply standby_next. }
  { apply lookup_upd. eexists. split; [exact Hp|]. by rewrite decide_True. }
  { change (world l1) with (world l). by rewrite Hw. } { change (world l1) with (world l). by rewrite Hw. } { done. }
  exists l'. split; [by eapply rtc_l|]. split.
  - unfold forgotten. rewrite (store_GetAgent _ _ id HR'). cbn. by rewrite lookup_delete_eq.
  - rewrite Hlog. change (world l1) with (world l). by rewrite Hw.
Qed.
End registration.

(** ** Instances *)
Module MemListener.
Export MemManager MemTracepoint MemNats.

#[export] Instance agent_reply_eq_dec : EqDecision agent_reply.
Proof. solve_decision. Defined.
#[export] Instance agent_reply_countable : Countable agent_reply.
Proof.
  refine (inj_countable' (λ x, match x with
    | HeartbeatNack b => inl b
    | HeartbeatAck t n c ps => inr (inl (t, n, c, ps))
    | RegisterAgentResponse a => inr (inr a)
    end) (λ y, match y with
    | inl b => HeartbeatNack b
    | inr (inl (t, n, c, ps)) => HeartbeatAck t n c ps
    | inr (inr a) => RegisterAgentResponse a
    end) _); by intros [].
Defined.

(** Two messages: the registration of an agent and its heartbeat. *)
Definition request_1 : RegisterAgentRequest := mkRegisterAgentRequest (Some info_1) 0.
Definition heartbeat_1 : Heartbeat := mkHeartbeat (Some (ProtoFromUUID uuid_1)) 0 None 1.
#[export] Instance mem_vizier_proto : VizierProto := {|
  vm_Unmarshal d :=
    if decide (d = "register") then inr (Some (VizierMessage_RegisterAgentRequest request_1))
    else if decide (d = "heartbeat") then inr (Some (VizierMessage_Heartbeat heartbeat_1))
    else inl (ErrMsg "unexpected EOF")
|}.

#[export] Instance mem_service : MetadataService (service St) := metadata_service (λ s, s) map_to_list.
Definition service_0 : service St := mkService (mkManager (store ∅) no_msgs ∅ ∅) "" [].
Definition listener_0 : AgentTopicListener (service St) := new_listener service_0 true 0.

Lemma listener_0_new : NewAgentTopicListener service_0 true 0 = Ret listener_0.
Proof.
  destruct (store_GetAgents (rep := mem_rep) (store ∅) abs_empty rep_empty) as (agents & E & Hp).
  apply Permutation_nil_r in Hp as ->. unfold NewAgentTopicListener, Initialize.
  rewrite (bind_ret _ _ _ [] listener_0); [done|]. unfold w_call, zoom.
  cbn [ms_GetActiveAgents mem_service metadata_service]. unfold mgr_call, zoom, GetActiveAgents, st_call, zoom.
  change (agtStore (sv_mgr (world (new_listener service_0 true 0)))) with (store ∅). by rewrite E.
Qed.

Lemma listener_0_inv : linv listener_0.
Proof. exact (linv_new _ _ _ _ listener_0_new). Qed.

Lemma request_1_new : new_request request_1 uuid_1 info_1 (mkAgentCapabilities true) host_1 abs_empty.
Proof. split_and!; by vm_compute. Qed.
End MemListener.
Import MemListener.

Lemma one_handler_per_agent_witness :
  ∃ l p, rtc lstep listener_0 l ∧ bus l = BSend p "register" ∧ agentMap l !! uuid_1 = Some p ∧
    ∃ h, ahandlers l !! p = Some h ∧ ah_id h = uuid_1 ∧ live h = true.
Proof.
  destruct (receive_registration (λ s, s) map_to_list listener_0 "register" request_1 uuid_1 listener_0_inv eq_refl eq_refl eq_refl)
    as (l & p & Hs & _ & Hb & _ & _ & Hm & _).
  { exists info_1. split; [done|by vm_compute]. }
  exists l, p. split; [by apply rtc_once|]. split; [done|]. split; [done|].
  destruct (one_handler_per_agent service_0 true 0 listener_0 l listener_0_new (rtc_once _ _ Hs)) as [Hmap _].
  exact (proj1 (Hmap uuid_1 p) Hm).
Defined.

Lemma pair_1_unknown : st_GetAgentIDForHostnamePair (agent_pair info_1 host_1) (store ∅) = (Ret "", store ∅).
Proof. exact (GetAgentIDForHostnamePair_run (view := view) (ok := ok) (store ∅) abs_empty info_1 host_1 rep_empty eq_refl eq_refl). Qed.

Lemma registration_answered_witness :
  ∃ l p, rtc lstep listener_0 l ∧ ready l p uuid_1 ∧
    mem_log (conn (sv_mgr (world l))) = [(AgentUUIDTopic uuid_1, enc (RegisterAgentResponse 1))].
Proof.
  destruct (registration_answered (rep := mem_rep) (log := mem_log) (up := mem_up) (λ s, s) map_to_list listener_0 "register" request_1
    uuid_1 info_1 (mkAgentCapabilities true) host_1 abs_empty (mkNows 1 2 3 4) listener_0_inv eq_refl eq_refl eq_refl eq_refl
    request_1_new rep_empty I pair_1_unknown) as (l & p & Hr & Hready & _ & Hlog & _).
  exists l, p. split; [exact Hr|]. split; [exact Hready|exact Hlog].
Defined.

Lemma registering_twice_deadlocks_witness :
  ∃ l p, rtc lstep listener_0 l ∧ stuck_for_ever l p request_1 uuid_1 ∧
    ∃ l', rtc lstep l l' ∧ ∀ l'', rtc lstep l' l'' → bus l'' = BSend p "heartbeat".
Proof.
  destruct (registering_twice_deadlocks (rep := mem_rep) (log := mem_log) (up := mem_up) (λ s, s) map_to_list listener_0 "register" request_1
    uuid_1 info_1 (mkAgentCapabilities true) host_1 abs_empty listener_0_inv eq_refl eq_refl eq_refl eq_refl
    request_1_new rep_empty I pair_1_unknown) as (l & p & Hr & Hb & Hw & _ & Hstuck).
  exists l, p. split; [exact Hr|]. split; [exact Hstuck|]. apply (proj2 Hstuck "heartbeat" heartbeat_1 Hb Hw eq_refl). by vm_compute.
Defined.

Lemma standby_deletes_agents_witness :
  ∃ w l l', NewAgentTopicListener w false 0 = Ret l ∧ rtc standby_step l l' ∧ forgotten l' uuid_1.
Proof.
  destruct rep_one as (s & HR). set (w := mkService (mkManager s no_msgs ∅ ∅) "" [] : service St).
  destruct (store_GetAgents (rep := mem_rep) s _ HR) as (agents & E & Hp). cbn [set_agent aa_agents abs_empty] in Hp.
  rewrite insert_empty, map_to_list_singleton in Hp. cbn in Hp. apply Permutation_singleton_r in Hp as ->.
  set (l := mkListener w {[uuid_1 := 0]} [mkAgentHandler uuid_1 [] false 0 HStart] BReceive false CIdle [] 0).
  assert (NewAgentTopicListener w false 0 = Ret l) as El.
  { unfold NewAgentTopicListener, Initialize. rewrite (bind_ret _ _ _ [agent_1] (new_listener w false 0)).
    - cbn [create_handlers]. erewrite bind_ret; [|reflexivity].
      rewrite (bind_ret _ _ _ uuid_1 (new_listener w false 0)) by (by apply lift_sum_ret; vm_compute). done.
    - unfold w_call, zoom. cbn [ms_GetActiveAgents mem_service metadata_service]. unfold mgr_call, zoom, GetActiveAgents, st_call, zoom.
      change (agtStore (sv_mgr (world (new_listener w false 0)))) with s. by rewrite E. }
  destruct (standby_deletes_agents (rep := mem_rep) (log := mem_log) (up := mem_up) (λ s, s) map_to_list w 0 l _ uuid_1 0 agent_1 HR I El
    eq_refl) as (_ & l' & Hr & Hg & _); [apply lookup_insert_eq|].
  exists w, l, l'. split; [exact El|]. split; [exact Hr|exact Hg].
Defined.
