(* ===== verification/QueryMessages.v ===== *)
(** * The messages of a query

    What the query broker receives from the agents ([carnotpb/carnot.proto],
    [schemapb/schema.proto], [queryresultspb/query_results.proto]), gets from the
    planner ([planpb/plan.proto], [distributedpb/distributed_plan.proto],
    [plannerpb/service.proto]) and sends to its clients
    ([api/proto/vizierpb/vizierapi.proto]), with the enums as the numbers they are
    on the wire.  A module holds one Go package.  A message field that may be
    absent is an [option]; elements of repeated fields and the contents of a set
    oneof are present, as the generated decoder makes them. *)

From S2P Require Import Prelude GoLib Uuid Messages.

(** ** Enums *)

Module typespb.
Definition DATA_TYPE_UNKNOWN : Z := 0.
Definition BOOLEAN : Z := 1.
Definition INT64 : Z := 2.
Definition UINT128 : Z := 3.
Definition FLOAT64 : Z := 4.
Definition STRING : Z := 5.
Definition TIME64NS : Z := 6.

(** [DataType_name], the declared values. *)
Definition DataTypes : list Z := [DATA_TYPE_UNKNOWN; BOOLEAN; INT64; UINT128; FLOAT64; STRING; TIME64NS].

Definition ST_UNSPECIFIED : Z := 0.
Definition ST_NONE : Z := 1.
Definition ST_TIME_NS : Z := 2.
Definition ST_AGENT_UID : Z := 100.
Definition ST_ASID : Z := 101.
Definition ST_UPID : Z := 200.
Definition ST_SERVICE_NAME : Z := 300.
Definition ST_POD_NAME : Z := 400.
Definition ST_POD_PHASE : Z := 401.
Definition ST_POD_STATUS : Z := 402.
Definition ST_NODE_NAME : Z := 500.
Definition ST_CONTAINER_NAME : Z := 600.
Definition ST_CONTAINER_STATE : Z := 601.
Definition ST_CONTAINER_STATUS : Z := 602.
Definition ST_NAMESPACE_NAME : Z := 700.
Definition ST_BYTES : Z := 800.
Definition ST_PERCENT : Z := 900.
Definition ST_DURATION_NS : Z := 901.
Definition ST_THROUGHPUT_PER_NS : Z := 902.
Definition ST_THROUGHPUT_BYTES_PER_NS : Z := 903.
Definition ST_QUANTILES : Z := 1000.
Definition ST_DURATION_NS_QUANTILES : Z := 1001.
Definition ST_IP_ADDRESS : Z := 1100.
Definition ST_PORT : Z := 1200.
Definition ST_HTTP_REQ_METHOD : Z := 1300.
Definition ST_HTTP_RESP_STATUS : Z := 1400.
Definition ST_HTTP_RESP_MESSAGE : Z := 1500.
Definition ST_SCRIPT_REFERENCE : Z := 3000.

(** [SemanticType_name]. *)
Definition SemanticTypes : list Z :=
  [ST_UNSPECIFIED; ST_NONE; ST_TIME_NS; ST_AGENT_UID; ST_ASID; ST_UPID; ST_SERVICE_NAME; ST_POD_NAME;
   ST_POD_PHASE; ST_POD_STATUS; ST_NODE_NAME; ST_CONTAINER_NAME; ST_CONTAINER_STATE; ST_CONTAINER_STATUS;
   ST_NAMESPACE_NAME; ST_BYTES; ST_PERCENT; ST_DURATION_NS; ST_THROUGHPUT_PER_NS;
   ST_THROUGHPUT_BYTES_PER_NS; ST_QUANTILES; ST_DURATION_NS_QUANTILES; ST_IP_ADDRESS; ST_PORT;
   ST_HTTP_REQ_METHOD; ST_HTTP_RESP_STATUS; ST_HTTP_RESP_MESSAGE; ST_SCRIPT_REFERENCE].
End typespb.

Module statuspb.
Definition OK : Z := 0.
Definition CANCELLED : Z := 1.
Definition UNKNOWN : Z := 2.
Definition INVALID_ARGUMENT : Z := 3.
Definition DEADLINE_EXCEEDED : Z := 4.
Definition NOT_FOUND : Z := 5.
Definition ALREADY_EXISTS : Z := 6.
Definition PERMISSION_DENIED : Z := 7.
Definition UNAUTHENTICATED : Z := 8.
Definition INTERNAL : Z := 9.
Definition UNIMPLEMENTED : Z := 10.
Definition RESOURCE_UNAVAILABLE : Z := 11.
Definition SYSTEM : Z := 12.
Definition FAILED_PRECONDITION : Z := 13.
Definition DO_NOT_USE_ : Z := 100.

(** [Code_name]. *)
Definition Codes : list Z :=
  [OK; CANCELLED; UNKNOWN; INVALID_ARGUMENT; DEADLINE_EXCEEDED; NOT_FOUND; ALREADY_EXISTS;
   PERMISSION_DENIED; UNAUTHENTICATED; INTERNAL; UNIMPLEMENTED; RESOURCE_UNAVAILABLE; SYSTEM;
   FAILED_PRECONDITION; DO_NOT_USE_].
End statuspb.

(** The codes of gRPC. *)
Module codes.
Definition OK : Z := 0.
Definition Canceled : Z := 1.
Definition Unknown : Z := 2.
Definition InvalidArgument : Z := 3.
Definition DeadlineExceeded : Z := 4.
Definition NotFound : Z := 5.
Definition AlreadyExists : Z := 6.
Definition PermissionDenied : Z := 7.
Definition ResourceExhausted : Z := 8.
Definition FailedPrecondition : Z := 9.
Definition Internal : Z := 13.
Definition Unavailable : Z := 14.
Definition Unauthenticated : Z := 16.
End codes.

(** ** Results, from the agents *)

(** A float is its bit pattern. *)
Module schemapb.
Inductive col_data : Type :=
| BooleanData (data : list bool)
| Int64Data (data : list Z)
| Uint128Data (data : list UInt128)
| Time64NsData (data : list Z)
| Float64Data (data : list Z)
| StringData (data : list string).

Record Column := mkColumn { ColData : option col_data }.

Record RowBatchData := mkRowBatchData { Cols : list Column; NumRows : Z; Eow : bool; Eos : bool }.

Record Table := mkTable { Relation : option Messages.Relation; Name : string }.
End schemapb.

Module queryresultspb.
Record QueryTimingInfo := mkQueryTimingInfo { ExecutionTimeNs : Z; CompilationTimeNs : Z }.

Record QueryExecutionStats := mkQueryExecutionStats {
  Timing : option QueryTimingInfo;
  BytesProcessed : Z;
  RecordsProcessed : Z
}.

Record OperatorExecutionStats := mkOperatorExecutionStats {
  NodeId : Z;
  BytesOutput : Z;
  RecordsOutput : Z;
  TotalExecutionTimeNs : Z;
  SelfExecutionTimeNs : Z;
  ExtraMetrics : gmap string Z;
  ExtraInfo : gmap string string
}.

Record AgentExecutionStats := mkAgentExecutionStats {
  AgentID : option UUIDpb;
  OperatorExecStats : list OperatorExecutionStats;
  AgentExecutionTimeNs : Z
}.
End queryresultspb.

Module carnotpb.
Inductive destination : Type := GRPCSourceID (id : Z) | TableName (name : string).

Record SinkResult := mkSinkResult { RowBatch : option schemapb.RowBatchData; Destination : option destination }.

(** [GetTableName]. *)
Definition GetTableName (r : SinkResult) : string :=
  match Destination r with Some (TableName name) => name | _ => "" end.

Record QueryExecutionAndTimingInfo := mkExecInfo {
  ExecutionStats : option queryresultspb.QueryExecutionStats;
  AgentExecutionStats : list queryresultspb.AgentExecutionStats
}.

Inductive result : Type :=
| QueryResult (r : SinkResult)
| ExecutionAndTimingInfo (i : QueryExecutionAndTimingInfo)
| ExecutionError (s : Status)
| InitiateConn.

Record TransferResultChunkRequest := mkTransferResultChunkRequest {
  Address : string;
  QueryID : option UUIDpb;
  Result : option result
}.
End carnotpb.

(** ** Plans, from the planner *)

Module planpb.
Definition MEMORY_SOURCE_OPERATOR : Z := 1000.
Definition GRPC_SOURCE_OPERATOR : Z := 1100.
Definition MEMORY_SINK_OPERATOR : Z := 9000.
Definition GRPC_SINK_OPERATOR : Z := 9100.

Record ResultTable := mkResultTable {
  TableName : string;
  ColumnTypes : list Z;
  ColumnNames : list string;
  ColumnSemanticTypes : list Z
}.

Inductive sink_destination : Type := GRPCSourceID (id : Z) | OutputTable (t : ResultTable).

(** The oneof of an operator, of which the broker reads the sinks. *)
Inductive op : Type := GRPCSinkOp (d : option sink_destination) | other_op.

Record Operator := mkOperator { OpType : Z; Op : option op }.

(** [GetGRPCSinkOp().GetOutputTable()] and [GetGRPCSinkOp().GetGRPCSourceID()]. *)
Definition GetOutputTable (o : Operator) : option ResultTable :=
  match Op o with Some (GRPCSinkOp (Some (OutputTable t))) => Some t | _ => None end.

Definition GetGRPCSourceID (o : Operator) : Z :=
  match Op o with Some (GRPCSinkOp (Some (GRPCSourceID id))) => id | _ => 0%Z end.

Record DAGNode := mkDAGNode { dag_Id : Z; SortedChildren : list Z }.

Record PlanNode := mkPlanNode { Id : Z; NodeOp : option Operator }.

Record PlanFragment := mkPlanFragment { Dag : option (list DAGNode); FragmentNodes : list PlanNode }.

Record Plan := mkPlan { Nodes : list PlanFragment }.

Record PlanOptions := mkPlanOptions { Explain : bool; Analyze : bool; MaxOutputRowsPerTable : Z }.
End planpb.

Module distributedpb.
Record DistributedPlan := mkDistributedPlan {
  QbAddressToPlan : gmap string (option planpb.Plan);
  QbAddressToDagId : gmap string Z;
  Dag : option (list planpb.DAGNode)
}.

Record RedactionOptions := mkRedactionOptions { UseFullRedaction : bool; UsePxRedactPiiBestEffort : bool }.

Record OTelEndpointConfig := mkOTelEndpointConfig {
  URL : string; Headers : gmap string string; Insecure : bool; Timeout : Z
}.

Record PluginConfig := mkPluginConfig { StartTimeNs : Z; EndTimeNs : Z }.
End distributedpb.

Module compilerpb.
Record LineColError := mkLineColError { Line : Z; Column : Z; Message : string }.

(** A compiler error has a position or is empty. *)
Record CompilerErrorGroup := mkCompilerErrorGroup { Errors : list (option LineColError) }.
End compilerpb.

(** ** Requests and responses of clients *)

Module vizierpb.
Inductive col_data : Type :=
| BooleanData (data : list bool)
| Int64Data (data : list Z)
| Uint128Data (data : list UInt128)
| Time64NsData (data : list Z)
| Float64Data (data : list Z)
| StringData (data : list string).

Record RowBatchData := mkRowBatchData {
  TableID : string; Cols : list col_data; NumRows : Z; Eow : bool; Eos : bool
}.

Record ColumnInfo := mkColumnInfo {
  ColumnName : string; ColumnType : Z; ColumnDesc : string; ColumnSemanticType : Z
}.

Record QueryMetadata := mkQueryMetadata { Relation : list ColumnInfo; Name : string; ID : string }.

Record QueryTimingInfo := mkQueryTimingInfo { ExecutionTimeNs : Z; CompilationTimeNs : Z }.

Record QueryExecutionStats := mkQueryExecutionStats {
  Timing : QueryTimingInfo; BytesProcessed : Z; RecordsProcessed : Z
}.

Record QueryData := mkQueryData {
  Batch : option RowBatchData; EncryptedBatch : string; ExecutionStats : option QueryExecutionStats
}.

Record CompilerError := mkCompilerError { Line : Z; Column : Z; Message : string }.

Record Status := mkStatus { Code : Z; StatusMessage : string; ErrorDetails : list CompilerError }.

Record MutationState := mkMutationState { StateID : string; State : LifeCycleState; StateName : string }.

Record MutationInfo := mkMutationInfo { MutationStatus : Status; States : list MutationState }.

Inductive result : Type := Data (d : QueryData) | MetaData (m : QueryMetadata).

Record ExecuteScriptResponse := mkResponse {
  QueryID : string;
  ResponseStatus : option Status;
  Result : option result;
  ResponseMutationInfo : option MutationInfo
}.

Record FuncToExecute := mkFuncToExecute {
  FuncName : string; ArgValues : list (string * string); OutputTablePrefix : string
}.

Record OTelEndpointConfig := mkOTelEndpointConfig {
  URL : string; Headers : gmap string string; Insecure : bool; Timeout : Z
}.

Record PluginConfig := mkPluginConfig { StartTimeNs : Z; EndTimeNs : Z }.

Record Configs := mkConfigs { OTel : option OTelEndpointConfig; Plugin : option PluginConfig }.

Record ExecuteScriptRequest := mkRequest {
  QueryStr : string;
  ExecFuncs : list FuncToExecute;
  Mutation : bool;
  RequestQueryID : string;
  RequestConfigs : option Configs;
  QueryName : string
}.
End vizierpb.

(** The planner's own copy of the functions to execute and of the configuration. *)
Module plannerpb.
Record FuncToExecute := mkFuncToExecute {
  FuncName : string; ArgValues : list (string * string); OutputTablePrefix : string
}.

Record OTelEndpointConfig := mkOTelEndpointConfig {
  URL : string; Headers : gmap string string; Insecure : bool; Timeout : Z
}.

Record PluginConfig := mkPluginConfig { StartTimeNs : Z; EndTimeNs : Z }.

Record Configs := mkConfigs { OTel : option OTelEndpointConfig; Plugin : option PluginConfig }.
End plannerpb.

(** ** Errors of gRPC *)

(** [status.Error]: no error for the code OK. *)
Definition status_Error (code : Z) (msg : string) : option error :=
  if (code =? codes.OK)%Z then None else Some (GrpcStatus code msg).

(** [status.FromError]: the status of no error, or of an error of gRPC. *)
Definition status_FromError (err : option error) : option (Z * string) :=
  match err with
  | None => Some (codes.OK, "")
  | Some (GrpcStatus code msg) => Some (code, msg)
  | Some _ => None
  end.
