(* ===== verification/QueryProto.v ===== *)
(** * The query broker's conversions

    [query_broker/controllers/proto_utils.go]: from the messages of the agents and
    of the planner to the responses of clients.  The rendering of a plan by
    GraphViz ([query_plan_debug.go]) is an argument of [QueryPlanResponse]. *)

From S2P Require Import Prelude GoLib Uuid Messages QueryMessages.
From Stdlib Require Import Ascii.

(** Reading a Go map of enum values: the zero value where there is no entry. *)
Definition enum_map (l : list (Z * Z)) (k : Z) : Z := default 0%Z ((list_to_map l : gmap Z Z) !! k).

Definition dataTypeToVizierDataType : Z → Z := enum_map
  [(typespb.DATA_TYPE_UNKNOWN, typespb.DATA_TYPE_UNKNOWN);
   (typespb.BOOLEAN, typespb.BOOLEAN);
   (typespb.INT64, typespb.INT64);
   (typespb.UINT128, typespb.UINT128);
   (typespb.FLOAT64, typespb.FLOAT64);
   (typespb.STRING, typespb.STRING);
   (typespb.TIME64NS, typespb.TIME64NS)].

(** The values of [vizierpb.SemanticType] have the numbers of [typespb.SemanticType]. *)
Definition semanticTypeToVizierSemanticType : Z → Z := enum_map
  [(typespb.ST_UNSPECIFIED, typespb.ST_UNSPECIFIED);
   (typespb.ST_NONE, typespb.ST_NONE);
   (typespb.ST_TIME_NS, typespb.ST_TIME_NS);
   (typespb.ST_AGENT_UID, typespb.ST_AGENT_UID);
   (typespb.ST_ASID, typespb.ST_ASID);
   (typespb.ST_UPID, typespb.ST_UPID);
   (typespb.ST_SERVICE_NAME, typespb.ST_SERVICE_NAME);
   (typespb.ST_POD_NAME, typespb.ST_POD_NAME);
   (typespb.ST_POD_PHASE, typespb.ST_POD_PHASE);
   (typespb.ST_POD_STATUS, typespb.ST_POD_STATUS);
   (typespb.ST_NODE_NAME, typespb.ST_NODE_NAME);
   (typespb.ST_CONTAINER_NAME, typespb.ST_CONTAINER_NAME);
   (typespb.ST_CONTAINER_STATE, typespb.ST_CONTAINER_STATE);
   (typespb.ST_CONTAINER_STATUS, typespb.ST_CONTAINER_STATUS);
   (typespb.ST_NAMESPACE_NAME, typespb.ST_NAMESPACE_NAME);
   (typespb.ST_BYTES, typespb.ST_BYTES);
   (typespb.ST_PERCENT, typespb.ST_PERCENT);
   (typespb.ST_DURATION_NS, typespb.ST_DURATION_NS);
   (typespb.ST_THROUGHPUT_PER_NS, typespb.ST_THROUGHPUT_PER_NS);
   (typespb.ST_THROUGHPUT_BYTES_PER_NS, typespb.ST_THROUGHPUT_BYTES_PER_NS);
   (typespb.ST_QUANTILES, typespb.ST_QUANTILES);
   (typespb.ST_DURATION_NS_QUANTILES, typespb.ST_DURATION_NS_QUANTILES);
   (typespb.ST_IP_ADDRESS, typespb.ST_IP_ADDRESS);
   (typespb.ST_PORT, typespb.ST_PORT);
   (typespb.ST_HTTP_REQ_METHOD, typespb.ST_HTTP_REQ_METHOD);
   (typespb.ST_HTTP_RESP_STATUS, typespb.ST_HTTP_RESP_STATUS);
   (typespb.ST_HTTP_RESP_MESSAGE, typespb.ST_HTTP_RESP_MESSAGE);
   (typespb.ST_SCRIPT_REFERENCE, typespb.ST_SCRIPT_REFERENCE)].

Definition statusCodeToGRPCCode : Z → Z := enum_map
  [(statuspb.OK, codes.OK);
   (statuspb.CANCELLED, codes.Canceled);
   (statuspb.UNKNOWN, codes.Unknown);
   (statuspb.INVALID_ARGUMENT, codes.InvalidArgument);
   (statuspb.DEADLINE_EXCEEDED, codes.DeadlineExceeded);
   (statuspb.NOT_FOUND, codes.NotFound);
   (statuspb.ALREADY_EXISTS, codes.AlreadyExists);
   (statuspb.PERMISSION_DENIED, codes.PermissionDenied);
   (statuspb.UNAUTHENTICATED, codes.Unauthenticated);
   (statuspb.INTERNAL, codes.Internal);
   (statuspb.RESOURCE_UNAVAILABLE, codes.Unavailable);
   (statuspb.SYSTEM, codes.Internal)].

Definition convertLifeCycleStateToVizierLifeCycleState (state : LifeCycleState) : LifeCycleState :=
  match state with
  | UNKNOWN_STATE => UNKNOWN_STATE
  | PENDING_STATE => PENDING_STATE
  | RUNNING_STATE => RUNNING_STATE
  | TERMINATED_STATE => TERMINATED_STATE
  | FAILED_STATE => FAILED_STATE
  end.

(** ** Requests *)

Definition convertExecFuncs (inputFuncs : list vizierpb.FuncToExecute) : list plannerpb.FuncToExecute :=
  (λ f, plannerpb.mkFuncToExecute (vizierpb.FuncName f) ((λ a, (a.1, a.2)) <$> vizierpb.ArgValues f)
          (vizierpb.OutputTablePrefix f)) <$> inputFuncs.

Definition convertConfigs (config : option vizierpb.Configs) : option plannerpb.Configs :=
  c ← config;
  Some (plannerpb.mkConfigs
    (o ← vizierpb.OTel c;
     Some (plannerpb.mkOTelEndpointConfig (vizierpb.URL o) (vizierpb.Headers o) (vizierpb.Insecure o)
             (vizierpb.Timeout o)))
    (p ← vizierpb.Plugin c;
     Some (plannerpb.mkPluginConfig (vizierpb.StartTimeNs p) (vizierpb.EndTimeNs p)))).

(** The request for the planner, without the state it is given later; the requests
    for queries and for mutations have the same fields. *)
Record PlannerRequest := mkPlannerRequest {
  pr_QueryStr : string;
  pr_ExecFuncs : list plannerpb.FuncToExecute;
  pr_Configs : option plannerpb.Configs
}.

Definition VizierQueryRequestToPlannerQueryRequest (vpb : vizierpb.ExecuteScriptRequest) : PlannerRequest :=
  mkPlannerRequest (vizierpb.QueryStr vpb) (convertExecFuncs (vizierpb.ExecFuncs vpb))
    (convertConfigs (vizierpb.RequestConfigs vpb)).

Definition VizierQueryRequestToPlannerMutationRequest (vpb : vizierpb.ExecuteScriptRequest) : PlannerRequest :=
  mkPlannerRequest (vizierpb.QueryStr vpb) (convertExecFuncs (vizierpb.ExecFuncs vpb))
    (convertConfigs (vizierpb.RequestConfigs vpb)).

(** ** Statuses *)

Definition ErrToVizierStatus (err : option error) : vizierpb.Status :=
  match status_FromError err with
  | Some (code, msg) => vizierpb.mkStatus code msg []
  | None => vizierpb.mkStatus codes.Unknown (from_option error_string "" err) []
  end.

Definition StatusToError (s : Status) : option error := status_Error (to_uint32 (st_ErrCode s)) (st_Msg s).

Definition VizierStatusToError (s : vizierpb.Status) : option error :=
  status_Error (to_uint32 (vizierpb.Code s)) (vizierpb.StatusMessage s).

(** The conversion of a row batch *)

Definition UInt128ToVizierUInt128 (i : UInt128) : UInt128 := mkUInt128 (High i) (Low i).

Definition colToVizierCol (col : schemapb.Column) : error + vizierpb.col_data :=
  match schemapb.ColData col with
  | Some (schemapb.BooleanData d) => inr (vizierpb.BooleanData d)
  | Some (schemapb.Int64Data d) => inr (vizierpb.Int64Data d)
  | Some (schemapb.Uint128Data d) => inr (vizierpb.Uint128Data (UInt128ToVizierUInt128 <$> d))
  | Some (schemapb.Time64NsData d) => inr (vizierpb.Time64NsData d)
  | Some (schemapb.Float64Data d) => inr (vizierpb.Float64Data d)
  | Some (schemapb.StringData d) => inr (vizierpb.StringData d)
  | None => inl (ErrMsg "Could not get column type")
  end.

Fixpoint cols_to_vizier (cols : list schemapb.Column) : error + list vizierpb.col_data :=
  match cols with
  | [] => inr []
  | col :: cols =>
    match colToVizierCol col with
    | inl e => inl e
    | inr c => match cols_to_vizier cols with inl e => inl e | inr cs => inr (c :: cs) end
    end
  end.

Definition RowBatchToVizierRowBatch (rb : schemapb.RowBatchData) (tableID : string) : error + vizierpb.RowBatchData :=
  match cols_to_vizier (schemapb.Cols rb) with
  | inl e => inl e
  | inr cols =>
    inr (vizierpb.mkRowBatchData tableID cols (schemapb.NumRows rb) (schemapb.Eow rb) (schemapb.Eos rb))
  end.

(** ** Relations *)

Definition vizier_column (c : RelationColumn) : vizierpb.ColumnInfo :=
  vizierpb.mkColumnInfo (rc_ColumnName c) (dataTypeToVizierDataType (rc_ColumnType c)) (rc_ColumnDesc c)
    (semanticTypeToVizierSemanticType (rc_ColumnSemanticType c)).

Definition AgentRelationToVizierRelation (relation : Relation) : list vizierpb.ColumnInfo :=
  vizier_column <$> rel_Columns relation.

Definition err_no_result : error :=
  ErrMsg "error in ForwardQueryResult: Expected TransferResultChunkRequest to have init message, row batch, exec stats, exec error".

(** ** Responses *)

Section responses.
Context {S : Type} `{U : UUIDLib} `{!Proto compilerpb.CompilerErrorGroup}.

Definition RelationFromTable (table : schemapb.Table) : M S vizierpb.QueryMetadata :=
  relation ← deref (schemapb.Relation table);
  mret (vizierpb.mkQueryMetadata (vizier_column <$> rel_Columns relation) (schemapb.Name table) "").

Fixpoint error_details (errors : list (option compilerpb.LineColError)) : M S (list vizierpb.CompilerError) :=
  match errors with
  | [] => mret []
  | e :: errors =>
    lcErr ← deref e;
    rest ← error_details errors;
    mret (vizierpb.mkCompilerError (compilerpb.Line lcErr) (compilerpb.Column lcErr) (compilerpb.Message lcErr) :: rest)
  end.

(** [proto.MessageName] of the group. *)
Definition CompilerErrorGroup_name : string := "px.carnot.planner.compilerpb.CompilerErrorGroup".

Definition getErrorsFromStatusContext (ctx : option (string * string)) : M S (list vizierpb.CompilerError) :=
  match ctx with
  | None => mret []
  | Some (name, data) =>
    if negb (bool_decide (name = CompilerErrorGroup_name)) then mret []
    else
      match Unmarshal (A := compilerpb.CompilerErrorGroup) data with
      | inl _ => mret []
      | inr errorPB => error_details (compilerpb.Errors errorPB)
      end
  end.

Definition StatusToVizierStatus (s : Status) : M S vizierpb.Status :=
  details ← getErrorsFromStatusContext (st_Context s);
  mret (vizierpb.mkStatus (statusCodeToGRPCCode (st_ErrCode s)) (st_Msg s) details).

Definition StatusToVizierResponse (id : uuid) (s : Status) : M S vizierpb.ExecuteScriptResponse :=
  st ← StatusToVizierStatus s;
  mret (vizierpb.mkResponse (uuid_String id) (Some st) None None).

Definition ErrToVizierResponse (id : uuid) (err : option error) : vizierpb.ExecuteScriptResponse :=
  vizierpb.mkResponse (uuid_String id) (Some (ErrToVizierStatus err)) None None.

Definition QueryResultStatsToVizierStats (e : option queryresultspb.QueryExecutionStats) (compilationTimeNs : Z)
    : M S vizierpb.QueryExecutionStats :=
  e ← deref e;
  timing ← deref (queryresultspb.Timing e);
  mret (vizierpb.mkQueryExecutionStats
    (vizierpb.mkQueryTimingInfo (queryresultspb.ExecutionTimeNs timing) compilationTimeNs)
    (queryresultspb.BytesProcessed e) (queryresultspb.RecordsProcessed e)).

Definition data_response (queryID : string) (batch : option vizierpb.RowBatchData)
    (stats : option vizierpb.QueryExecutionStats) : vizierpb.ExecuteScriptResponse :=
  vizierpb.mkResponse queryID None (Some (vizierpb.Data (vizierpb.mkQueryData batch "" stats))) None.

Definition BuildExecuteScriptResponse (r : carnotpb.TransferResultChunkRequest) (tableIDMap : gmap string string)
    (compilationTimeNs : Z) : M S (option vizierpb.ExecuteScriptResponse) :=
  let queryID := uuid_String (UUIDFromProtoOrNil (carnotpb.QueryID r)) in
  match carnotpb.Result r with
  | Some (carnotpb.ExecutionAndTimingInfo execStats) =>
    stats ← QueryResultStatsToVizierStats (carnotpb.ExecutionStats execStats) compilationTimeNs;
    mret (Some (data_response queryID None (Some stats)))
  | Some carnotpb.InitiateConn => mret None
  | Some (carnotpb.QueryResult queryResult) =>
    let tableName := carnotpb.GetTableName queryResult in
    match tableIDMap !! tableName with
    | None => fail (ErrMsg ("table " +:+ tableName +:+ " does not have an ID in the table ID map"))
    | Some tableID =>
      match carnotpb.RowBatch queryResult with
      | None => fail (ErrMsg "BuildExecuteScriptResponse expected a non-nil row batch")
      | Some rb =>
        batch ← lift_sum (RowBatchToVizierRowBatch rb tableID);
        mret (Some (data_response queryID (Some batch) None))
      end
    end
  | Some (carnotpb.ExecutionError execError) =>
    st ← StatusToVizierStatus execError;
    mret (Some (vizierpb.mkResponse queryID (Some st) None None))
  | None => fail err_no_result
  end.

(** The loop over the plan: [i] counts the bytes that are done, [queryPlan] is
    [queryPlan[i:]]; it does not end for a size below one. *)
Fixpoint plan_chunks (fuel : nat) (queryPlan : string) (max : Z) : M S (list (string * bool)) :=
  match fuel with
  | 0 => panic Hang
  | Datatypes.S fuel =>
    if bool_decide (queryPlan = "") then mret []
    else
      let len := Z.of_nat (String.length queryPlan) in
      let end' := if (len <? max)%Z then len else max in
      let last := (end' =? len)%Z in
      rest ← plan_chunks fuel (drop_str (Z.to_nat end') queryPlan) max;
      mret ((String.substring 0 (Z.to_nat end') queryPlan, last) :: rest)
  end.

Definition plan_response (queryID : uuid) (planTableID : string) (c : string * bool) : vizierpb.ExecuteScriptResponse :=
  data_response (uuid_String queryID)
    (Some (vizierpb.mkRowBatchData planTableID [vizierpb.StringData [c.1]] 1 c.2 c.2)) None.

Definition QueryPlanResponse (queryPlan : error + string) (queryID : uuid) (planTableID : string)
    (maxQueryPlanStringSizeBytes : Z) : M S (list vizierpb.ExecuteScriptResponse) :=
  queryPlan ← lift_sum queryPlan;
  chunks ← plan_chunks (Datatypes.S (String.length queryPlan)) queryPlan maxQueryPlanStringSizeBytes;
  mret (plan_response queryID planTableID <$> chunks).

Definition QueryPlanRelationResponse (queryID : uuid) (planTableID : string) : vizierpb.ExecuteScriptResponse :=
  vizierpb.mkResponse (uuid_String queryID) None
    (Some (vizierpb.MetaData (vizierpb.mkQueryMetadata
       [vizierpb.mkColumnInfo "query_plan" typespb.STRING "The query plan" typespb.ST_UNSPECIFIED]
       "__query_plan__" planTableID))) None.

(** ** Output tables of a plan *)

Fixpoint sink_columns (i : nat) (names : list string) (t : planpb.ResultTable) : M S (list RelationColumn) :=
  match names with
  | [] => mret []
  | colName :: names =>
    ty ← index (planpb.ColumnTypes t) i;
    st ← index (planpb.ColumnSemanticTypes t) i;
    rest ← sink_columns (i + 1) names t;
    mret (mkRelationColumn colName ty "" 0 st :: rest)
  end.

Fixpoint schema_of_nodes (nodes : list planpb.PlanNode) (out : gmap string Relation) : M S (gmap string Relation) :=
  match nodes with
  | [] => mret out
  | node :: nodes =>
    op ← deref (planpb.NodeOp node);
    if negb (planpb.OpType op =? planpb.GRPC_SINK_OPERATOR)%Z then schema_of_nodes nodes out
    else
      match planpb.GetOutputTable op with
      | None => schema_of_nodes nodes out
      | Some t =>
        cols ← sink_columns 0 (planpb.ColumnNames t) t;
        schema_of_nodes nodes (<[planpb.TableName t := mkRelation cols ""]> out)
      end
  end.

Fixpoint schema_of_fragments (fragments : list planpb.PlanFragment) (out : gmap string Relation)
    : M S (gmap string Relation) :=
  match fragments with
  | [] => mret out
  | f :: fragments => out ← schema_of_nodes (planpb.FragmentNodes f) out; schema_of_fragments fragments out
  end.

Fixpoint schema_of_plans (plans : list (uuid * option planpb.Plan)) (out : gmap string Relation)
    : M S (gmap string Relation) :=
  match plans with
  | [] => mret out
  | (_, plan) :: plans =>
    plan ← deref plan;
    out ← schema_of_fragments (planpb.Nodes plan) out;
    schema_of_plans plans out
  end.

(** [po] and [so] are the orders in which the maps are ranged over. *)
Definition OutputSchemaFromPlan (po : gmap uuid (option planpb.Plan) → list (uuid * option planpb.Plan))
    (planMap : gmap uuid (option planpb.Plan)) : M S (gmap string Relation) :=
  schema_of_plans (po planMap) ∅.

Fixpoint relation_responses (queryID : uuid) (tableIDMap : gmap string string) (schemas : list (string * Relation))
    : error + list vizierpb.ExecuteScriptResponse :=
  match schemas with
  | [] => inr []
  | (tableName, schema) :: schemas =>
    match tableIDMap !! tableName with
    | None => inl (ErrMsg ("Table ID for table name " +:+ tableName +:+ " not found in table map"))
    | Some tableID =>
      match relation_responses queryID tableIDMap schemas with
      | inl e => inl e
      | inr rs =>
        inr (vizierpb.mkResponse (uuid_String queryID) None
          (Some (vizierpb.MetaData (vizierpb.mkQueryMetadata (AgentRelationToVizierRelation schema) tableName tableID)))
          None :: rs)
      end
    end
  end.

Definition TableRelationResponses (po : gmap uuid (option planpb.Plan) → list (uuid * option planpb.Plan))
    (so : gmap string Relation → list (string * Relation))
    (queryID : uuid) (tableIDMap : gmap string string) (planMap : gmap uuid (option planpb.Plan))
    : M S (list vizierpb.ExecuteScriptResponse) :=
  schemas ← OutputSchemaFromPlan po planMap;
  lift_sum (relation_responses queryID tableIDMap (so schemas)).
End responses.

(** ** What the conversions keep *)

Lemma enum_map_notin l k : k ∉ l.*1 → enum_map l k = 0%Z.
Proof. intros Hk. unfold enum_map. by rewrite not_elem_of_list_to_map_1. Qed.

(** The declared types keep their number; any other number becomes the unspecified one. *)
Lemma dataType_identity k : dataTypeToVizierDataType k = if decide (k ∈ typespb.DataTypes) then k else 0%Z.
Proof.
  case_decide as Hk; [|by apply enum_map_notin].
  assert (Forall (λ k, dataTypeToVizierDataType k = k) typespb.DataTypes) as Hall by (repeat constructor).
  rewrite Forall_forall in Hall. by apply Hall.
Qed.

Lemma semanticType_identity k :
  semanticTypeToVizierSemanticType k = if decide (k ∈ typespb.SemanticTypes) then k else 0%Z.
Proof.
  case_decide as Hk; [|by apply enum_map_notin].
  assert (Forall (λ k, semanticTypeToVizierSemanticType k = k) typespb.SemanticTypes) as Hall by (repeat constructor).
  rewrite Forall_forall in Hall. by apply Hall.
Qed.

(** The inverse of the conversion of a batch. *)
Definition col_of_vizier (c : vizierpb.col_data) : schemapb.Column :=
  schemapb.mkColumn (Some
    match c with
    | vizierpb.BooleanData d => schemapb.BooleanData d
    | vizierpb.Int64Data d => schemapb.Int64Data d
    | vizierpb.Uint128Data d => schemapb.Uint128Data d
    | vizierpb.Time64NsData d => schemapb.Time64NsData d
    | vizierpb.Float64Data d => schemapb.Float64Data d
    | vizierpb.StringData d => schemapb.StringData d
    end).

Definition batch_of_vizier (b : vizierpb.RowBatchData) : schemapb.RowBatchData :=
  schemapb.mkRowBatchData (col_of_vizier <$> vizierpb.Cols b) (vizierpb.NumRows b) (vizierpb.Eow b) (vizierpb.Eos b).

Lemma UInt128ToVizierUInt128_id i : UInt128ToVizierUInt128 i = i.
Proof. by destruct i. Qed.

Lemma colToVizierCol_spec col c : colToVizierCol col = inr c ↔ col = col_of_vizier c.
Proof.
  assert (∀ d : list UInt128, UInt128ToVizierUInt128 <$> d = d) as Hid.
  { intros d. rewrite <-(list_fmap_id d) at 2. apply list_fmap_ext. intros. apply UInt128ToVizierUInt128_id. }
  unfold colToVizierCol, col_of_vizier. split.
  - destruct col as [[[]|]]; cbn; intros [= <-]; by rewrite ?Hid.
  - intros ->. destruct c; cbn; by rewrite ?Hid.
Qed.

Lemma cols_to_vizier_spec cols cs : cols_to_vizier cols = inr cs ↔ cols = col_of_vizier <$> cs.
Proof.
  revert cs. induction cols as [|col cols IH]; intros cs.
  { cbn. split; [by intros [= <-]|]. intros E. symmetry in E. apply fmap_nil_inv in E. by subst. }
  cbn. split.
  - destruct (colToVizierCol col) as [|c] eqn:Ec; [done|]. destruct (cols_to_vizier cols) as [|cs'] eqn:Ecs; [done|].
    intros [= <-]. cbn. f_equal; [by apply colToVizierCol_spec|by apply IH].
  - destruct cs as [|c cs]; [done|]. cbn. intros [= Ec Ecs]. apply colToVizierCol_spec in Ec. rewrite Ec.
    apply IH in Ecs. by rewrite Ecs.
Qed.

Lemma RowBatch_spec rb tableID b :
  RowBatchToVizierRowBatch rb tableID = inr b ↔ vizierpb.TableID b = tableID ∧ rb = batch_of_vizier b.
Proof.
  unfold RowBatchToVizierRowBatch, batch_of_vizier. split.
  - destruct (cols_to_vizier (schemapb.Cols rb)) as [|cs] eqn:E; [done|]. apply cols_to_vizier_spec in E.
    intros [= <-]. split; [done|]. cbn. rewrite <-E. by destruct rb.
  - intros [<- ->]. cbn. rewrite (proj2 (cols_to_vizier_spec _ (vizierpb.Cols b)) eq_refl). by destruct b.
Qed.

Lemma cols_to_vizier_total cols :
  (∃ col, col ∈ cols ∧ schemapb.ColData col = None) ∨ ∃ cs, cols_to_vizier cols = inr cs.
Proof.
  induction cols as [|col cols IH]; [right; by exists []|].
  destruct (schemapb.ColData col) as [d|] eqn:Ed; [|left; exists col; split; [left|done]].
  destruct IH as [(col' & Hin & H')|[cs Hcs]]; [left; exists col'; split; [by right|done]|].
  right. cbn. rewrite Hcs. unfold colToVizierCol. rewrite Ed. destruct d; eauto.
Qed.

(** ** The chunks of a plan *)

Lemma drop_str_length n s : (n ≤ String.length s)%nat → String.length (drop_str n s) = (String.length s - n)%nat.
Proof. revert n. induction s as [|a s IH]; intros [|n]; cbn; intros; try lia. rewrite IH; lia. Qed.

Lemma substring_drop n s : (n ≤ String.length s)%nat → String.substring 0 n s +:+ drop_str n s = s.
Proof.
  revert n. induction s as [|a s IH]; intros [|n]; cbn; intros H; try done; try lia.
  rewrite str_app_cons, IH by lia. done.
Qed.

Lemma length_substring n s : (n ≤ String.length s)%nat → String.length (String.substring 0 n s) = n.
Proof. revert n. induction s as [|a s IH]; intros [|n]; cbn; intros; try lia. by rewrite IH by lia. Qed.

Definition concat_str (l : list string) : string := foldr String.append "" l.

(** The flags: only the last chunk is marked. *)
Fixpoint last_flags (n : nat) : list bool :=
  match n with 0 => [] | 1 => [true] | Datatypes.S n => false :: last_flags n end.

Lemma plan_chunks_run {S} fuel plan max (s : S) :
  (0 < max)%Z → (String.length plan < fuel)%nat →
  ∃ cs, plan_chunks fuel plan max s = (Ret cs, s) ∧ concat_str cs.*1 = plan ∧
    Forall (λ c : string * bool, (0 < Z.of_nat (String.length c.1) ≤ max)%Z) cs ∧ cs.*2 = last_flags (length cs).
Proof.
  intros Hmax. revert plan. induction fuel as [|fuel IH]; [lia|]. intros plan Hf. cbn [plan_chunks].
  case_bool_decide as Hp; [exists []; by subst|].
  set (len := Z.of_nat (String.length plan)). set (e := if (len <? max)%Z then len else max).
  assert (0 < String.length plan)%nat as Hlen by (destruct plan; [done|cbn; lia]).
  assert (0 < e ≤ len ∧ e ≤ max)%Z as (He & Hemax) by (subst e; destruct (Z.ltb_spec len max); lia).
  destruct (IH (drop_str (Z.to_nat e) plan)) as (cs & Hrun & Hcat & Hall & Hfl).
  { rewrite drop_str_length; lia. }
  assert (drop_str (Z.to_nat e) plan = "" ↔ e = len) as Hend.
  { pose proof (drop_str_length (Z.to_nat e) plan ltac:(lia)) as L. split; intros E.
    - rewrite E in L. cbn in L. lia.
    - destruct (drop_str (Z.to_nat e) plan); [done|]. cbn in L. lia. }
  eexists. rewrite (bind_ret _ _ s cs s Hrun). split_and!; [done|..]; cbn [fmap list_fmap fst snd].
  - cbn. fold (concat_str cs.*1). rewrite Hcat. apply substring_drop. lia.
  - constructor; [|done]. cbn [fst]. rewrite length_substring by lia. lia.
  - cbn [length]. destruct (Z.eqb_spec e len) as [E|E].
    + apply Hend in E. rewrite E in Hcat. destruct cs as [|c cs]; [done|].
      apply Forall_cons in Hall as [Hc _]. apply (f_equal String.length) in Hcat.
      cbn in Hcat. rewrite length_str_app in Hcat. lia.
    + destruct cs as [|c cs]; [|by rewrite Hfl]. exfalso. apply E, Hend. by rewrite <-Hcat.
Qed.

(** The string a plan response carries. *)
Definition plan_text (r : vizierpb.ExecuteScriptResponse) : string :=
  match vizierpb.Result r with
  | Some (vizierpb.Data (vizierpb.mkQueryData (Some b) _ _)) =>
    match vizierpb.Cols b with [vizierpb.StringData [s]] => s | _ => "" end
  | _ => ""
  end.

(** A response with a chunk of the plan: one row of a table, and whether it ends the stream. *)
Definition plan_row `{U : UUIDLib} (queryID : uuid) (tableID : string) (eos : bool) (r : vizierpb.ExecuteScriptResponse) : Prop :=
  r = plan_response queryID tableID (plan_text r, eos).

Lemma plan_text_response `{U : UUIDLib} queryID tableID c : plan_text (plan_response queryID tableID c) = c.1.
Proof. by destruct c. Qed.

Lemma plan_rows `{U : UUIDLib} queryID tableID cs fl :
  cs.*2 = fl → Forall2 (plan_row queryID tableID) fl (plan_response queryID tableID <$> cs).
Proof.
  intros <-. induction cs as [|c cs IH]; cbn; constructor; [|done]. unfold plan_row.
  rewrite plan_text_response. by destruct c.
Qed.

(** C39: the responses that carry the query plan put it together again: their texts,
    in order, are the plan; each is not empty and at most the given size; each is one
    row of the plan's table, and only the last one ends the stream.  With a
    positive size the loop always ends. *)
Theorem query_plan_chunks {S} `{U : UUIDLib} plan queryID tableID max (s : S) :
  (0 < max)%Z →
  ∃ rs, QueryPlanResponse (inr plan) queryID tableID max s = (Ret rs, s) ∧
    concat_str (plan_text <$> rs) = plan ∧
    Forall (λ r, (0 < Z.of_nat (String.length (plan_text r)) ≤ max)%Z) rs ∧
    Forall2 (plan_row queryID tableID) (last_flags (length rs)) rs.
Proof.
  intros Hmax. destruct (plan_chunks_run (Datatypes.S (String.length plan)) plan max s Hmax ltac:(lia))
    as (cs & Hrun & Hcat & Hall & Hfl).
  exists (plan_response queryID tableID <$> cs). unfold QueryPlanResponse.
  rewrite (bind_ret (lift_sum (inr plan)) _ s plan s eq_refl), (bind_ret _ _ s cs s Hrun). split_and!; [done|..].
  - rewrite <-Hcat. f_equal. rewrite <-list_fmap_compose. apply list_fmap_ext. intros i c _. apply plan_text_response.
  - apply Forall_fmap. apply (Forall_impl _ _ _ Hall). intros c. unfold compose. cbv beta. by rewrite plan_text_response.
  - apply plan_rows. by rewrite length_fmap.
Qed.

(** a batch of a table with an identifier becomes a response that holds the
    whole batch under that identifier: the batch is read back from it.  A batch with
    a column of no type, or for a table without an identifier, is an error. *)
Theorem batch_response_roundtrip {S} `{U : UUIDLib} `{!Proto compilerpb.CompilerErrorGroup}
    addr queryID res rb tableIDMap comp (s : S) :
  carnotpb.RowBatch res = Some rb →
  let build := BuildExecuteScriptResponse
    (carnotpb.mkTransferResultChunkRequest addr queryID (Some (carnotpb.QueryResult res))) tableIDMap comp s in
  (∃ tableID b, tableIDMap !! carnotpb.GetTableName res = Some tableID ∧
     build = (Ret (Some (data_response (uuid_String (UUIDFromProtoOrNil queryID)) (Some b) None)), s) ∧
     vizierpb.TableID b = tableID ∧ batch_of_vizier b = rb) ∨
  ((tableIDMap !! carnotpb.GetTableName res = None ∨ ∃ col, col ∈ schemapb.Cols rb ∧ schemapb.ColData col = None) ∧
   ∃ e, build = (Err e, s)).
Proof.
  intros Hrb. cbv zeta. unfold BuildExecuteScriptResponse. cbn [carnotpb.Result carnotpb.QueryID].
  destruct (tableIDMap !! carnotpb.GetTableName res) as [tableID|] eqn:Et; [|right; split; [by left|by eexists]].
  rewrite Hrb. destruct (RowBatchToVizierRowBatch rb tableID) as [e|b] eqn:Eb.
  - right. split; [right|by eexists]. destruct (cols_to_vizier_total (schemapb.Cols rb)) as [|[cs Hcs]]; [done|].
    unfold RowBatchToVizierRowBatch in Eb. by rewrite Hcs in Eb.
  - left. apply RowBatch_spec in Eb as [<- ->]. by exists (vizierpb.TableID b), b.
Qed.

(** The codes that become the code of success: two of the declared error codes are
    among them, a call that is not implemented and a precondition that failed. *)
Lemma execution_error_codes k :
  k ∈ statuspb.Codes → k ≠ statuspb.DO_NOT_USE_ →
  (statusCodeToGRPCCode k = codes.OK ↔
   k = statuspb.OK ∨ k = statuspb.UNIMPLEMENTED ∨ k = statuspb.FAILED_PRECONDITION).
Proof.
  unfold statuspb.Codes. rewrite !elem_of_cons, elem_of_nil. intros Hk Hd. cbv in Hd.
  repeat destruct Hk as [->|Hk]; try done; vm_compute; intuition (try done; try lia).
Qed.

Lemma statusCode_uint32 k : to_uint32 (statusCodeToGRPCCode k) = statusCodeToGRPCCode k.
Proof.
  unfold to_uint32. apply Z.mod_small. unfold statusCodeToGRPCCode, enum_map. destruct (_ !! k) as [v|] eqn:E; [|done].
  apply elem_of_list_to_map_2 in E. revert E. rewrite !elem_of_cons, elem_of_nil. cbn [default].
  intros E. repeat destruct E as [[= _ ->]|E]; done.
Qed.

(** The two conversions of a status to an error agree on the codes whose number is
    the same in both enums, and on no other declared code. *)
Lemma status_errors_agree s k msg ctx :
  s = mkStatus k msg ctx → k ∈ statuspb.Codes →
  (StatusToError s = status_Error (statusCodeToGRPCCode k) msg ↔ (k ≤ statuspb.PERMISSION_DENIED)%Z).
Proof.
  intros ->. unfold statuspb.Codes. rewrite !elem_of_cons, elem_of_nil. intros Hk.
  repeat destruct Hk as [->|Hk]; try done; vm_compute; intuition (try done; try congruence).
Qed.
