(* ===== verification/ActiveQuery.v ===== *)
(** * An active query

    The part of [query_broker/controllers/query_result_forwarder.go] that one
    consumer runs on the messages of the agents: the state of the result tables,
    [updateQueryState], [queryComplete] and [handleRequest], here for a consumer
    whose context is not cancelled.  The channels, the watchdog and cancellation
    are in [ResultForwarder]. *)

From S2P Require Import Prelude GoLib Uuid Messages QueryMessages QueryProto.
From Stdlib Require Import Ascii.

Abbreviation msg := carnotpb.TransferResultChunkRequest.
Abbreviation response := vizierpb.ExecuteScriptResponse.

(** ** The set of table names *)

Module concurrentSet.
Abbreviation t := (gset string).
Definition add (key : string) (s : t) : t := {[key]} ∪ s.
Definition exists_ (key : string) (s : t) : bool := bool_decide (key ∈ s).
Definition remove (key : string) (s : t) : t := s ∖ {[key]}.
Definition size_ (s : t) : nat := size s.

(** [order] is the order in which the map is ranged over. *)
Definition values (order : t → list string) (s : t) : list string := order s.
End concurrentSet.

(** ** State *)

Record QueryPlanOpts `{U : UUIDLib} := mkQueryPlanOpts {
  qpo_TableID : string;
  qpo_Plan : distributedpb.DistributedPlan;
  qpo_PlanMap : gmap uuid (option planpb.Plan)
}.

(** What stays as it was registered. *)
Record query_info `{U : UUIDLib} := mkQueryInfo {
  tableIDMap : gmap string string;
  compilationTimeNs : Z;
  queryPlanOpts : option QueryPlanOpts;
  queryName : string
}.

Arguments mkQueryPlanOpts {U}.
Arguments mkQueryInfo {U}.

(** What the messages change; the channel [allTablesConnectedCh] is whether it is closed. *)
Record query_state := mkQueryState {
  uninitializedTables : concurrentSet.t;
  allTablesConnectedCh : bool;
  remainingTableEos : concurrentSet.t;
  gotFinalExecStats : bool;
  agentExecStats : option (list queryresultspb.AgentExecutionStats)
}.

Definition set_uninitialized x a :=
  mkQueryState x (allTablesConnectedCh a) (remainingTableEos a) (gotFinalExecStats a) (agentExecStats a).
Definition set_connected a :=
  mkQueryState (uninitializedTables a) true (remainingTableEos a) (gotFinalExecStats a) (agentExecStats a).
Definition set_remaining x a :=
  mkQueryState (uninitializedTables a) (allTablesConnectedCh a) x (gotFinalExecStats a) (agentExecStats a).
Definition set_gotStats a :=
  mkQueryState (uninitializedTables a) (allTablesConnectedCh a) (remainingTableEos a) true (agentExecStats a).
Definition set_agentStats x a :=
  mkQueryState (uninitializedTables a) (allTablesConnectedCh a) (remainingTableEos a) (gotFinalExecStats a) (Some x).

(** The rendering of a plan. *)
Class PlanRenderer `{U : UUIDLib} := {
  GetQueryPlanAsDotString : distributedpb.DistributedPlan → gmap uuid (option planpb.Plan) →
    option (list queryresultspb.AgentExecutionStats) → error + string
}.

Definition maxQueryPlanBufferSize : Z := 64 * 1024.
Definition maxQueryPlanStringSize : Z := 1024 * 1024 - maxQueryPlanBufferSize.

(** A call that does not touch the state. *)
Definition pure_call {S A} (m : M unit A) : M S A := λ s, ((m tt).1, s).

Section query.
Context `{U : UUIDLib} `{!Proto compilerpb.CompilerErrorGroup} `{!PlanRenderer}.
Implicit Types (m : msg) (a : query_state) (q : query_info).

Definition init_state (tableIDMap : gmap string string) : query_state :=
  foldr (λ tableName a,
      set_remaining (concurrentSet.add tableName (remainingTableEos a))
        (set_uninitialized (concurrentSet.add tableName (uninitializedTables a)) a))
    (mkQueryState ∅ false ∅ false None) (map_to_list tableIDMap).*1.

(** Closing a channel. *)
Definition close_connected : M query_state unit :=
  a ← get_state;
  if allTablesConnectedCh a then panic CloseOfClosedChannel else put_state (set_connected a).

Definition err_stats_twice m : error :=
  ErrMsg ("already received exec stats for query " +:+ uuid_String (UUIDFromProtoOrNil (carnotpb.QueryID m))).

Definition err_eos_twice m (tableName : string) : error :=
  ErrMsg ("received multiple EOS for table name '" +:+ tableName +:+ "' for query ID " +:+
          uuid_String (UUIDFromProtoOrNil (carnotpb.QueryID m))).

(** A batch of a table that was not initialized. *)
Definition table_connected (tableName : string) : M query_state unit :=
  a ← get_state;
  if concurrentSet.exists_ tableName (uninitializedTables a) then
    _ ← modify (λ a, set_uninitialized (concurrentSet.remove tableName (uninitializedTables a)) a);
    a ← get_state;
    if concurrentSet.size_ (uninitializedTables a) =? 0 then close_connected else mret tt
  else mret tt.

(** The last batch of a table. *)
Definition table_ended m (tableName : string) (eos : bool) : M query_state unit :=
  if negb eos then mret tt
  else
    a ← get_state;
    if negb (concurrentSet.exists_ tableName (remainingTableEos a)) then fail (err_eos_twice m tableName)
    else modify (λ a, set_remaining (concurrentSet.remove tableName (remainingTableEos a)) a).

Definition updateQueryState m : M query_state unit :=
  match carnotpb.Result m with
  | Some carnotpb.InitiateConn => mret tt
  | Some (carnotpb.ExecutionAndTimingInfo _) =>
    a ← get_state;
    if gotFinalExecStats a then fail (err_stats_twice m) else modify set_gotStats
  | Some (carnotpb.QueryResult queryResult) =>
    let tableName := carnotpb.GetTableName queryResult in
    match carnotpb.RowBatch queryResult with
    | Some rb =>
      _ ← table_connected tableName;
      table_ended m tableName (schemapb.Eos rb)
    | None => fail err_no_result
    end
  | Some (carnotpb.ExecutionError _) => mret tt
  | None => fail err_no_result
  end.

Definition queryComplete a : bool :=
  (concurrentSet.size_ (uninitializedTables a) =? 0) && (concurrentSet.size_ (remainingTableEos a) =? 0) &&
  gotFinalExecStats a.

(** The query plan, sent before the final statistics. *)
Definition plan_responses q (queryID : uuid) (stats : option (list queryresultspb.AgentExecutionStats))
    : M unit (list response) :=
  match queryPlanOpts q with
  | None => mret []
  | Some o =>
    QueryPlanResponse (GetQueryPlanAsDotString (qpo_Plan o) (qpo_PlanMap o) stats) queryID (qpo_TableID o)
      maxQueryPlanStringSize
  end.

(** The statistics of a message are kept for the plan. *)
Definition keep_stats m a : query_state :=
  match carnotpb.Result m with
  | Some (carnotpb.ExecutionAndTimingInfo execStats) => set_agentStats (carnotpb.AgentExecutionStats execStats) a
  | _ => a
  end.

Definition plan_to_send q (queryID : uuid) a : M unit (list response) :=
  if queryComplete a then plan_responses q queryID (agentExecStats a) else mret [].

(** The error a sent response stands for. *)
Definition response_error (r : response) : option error :=
  match vizierpb.ResponseStatus r with
  | Some status => if (vizierpb.Code status =? 0)%Z then None else VizierStatusToError status
  | None => None
  end.

(** The state with what was sent to the client. *)
Record stream := mkStream { s_query : query_state; s_out : list response }.

Definition on_query {A} (c : M query_state A) : M stream A := zoom s_query (λ a s, mkStream a (s_out s)) c.
Definition send (rs : list response) : M stream unit := modify (λ s, mkStream (s_query s) (s_out s ++ rs)).

Definition handleRequest q (queryID : uuid) m : M stream unit :=
  _ ← on_query (updateQueryState m);
  _ ← on_query (modify (keep_stats m));
  s ← get_state;
  rs ← pure_call (plan_to_send q queryID (s_query s));
  _ ← send rs;
  resp ← pure_call (BuildExecuteScriptResponse m (tableIDMap q) (compilationTimeNs q));
  match resp with
  | None => mret tt
  | Some resp =>
    _ ← send [resp];
    match response_error resp with Some e => fail e | None => mret tt end
  end.

(** The loop of [StreamResults] on the messages of the channel: whether the query is
    complete after them, with the messages that were not needed. *)
Fixpoint stream_loop q (queryID : uuid) (ms : list msg) : M stream (option (list msg)) :=
  match ms with
  | [] => mret None
  | m :: ms =>
    _ ← handleRequest q queryID m;
    s ← get_state;
    if queryComplete (s_query s) then mret (Some ms) else stream_loop q queryID ms
  end.
End query.

(** ** What the messages have said *)

(** The table of a batch and whether it is the last one. *)
Definition batch_of (m : msg) : option (string * bool) :=
  match carnotpb.Result m with
  | Some (carnotpb.QueryResult r) => rb ← carnotpb.RowBatch r; Some (carnotpb.GetTableName r, schemapb.Eos rb)
  | _ => None
  end.

Definition stats_of (m : msg) : option carnotpb.QueryExecutionAndTimingInfo :=
  match carnotpb.Result m with Some (carnotpb.ExecutionAndTimingInfo i) => Some i | _ => None end.

(** The tables with a batch, the tables with their last batch, and whether there
    were statistics. *)
Definition connected (ms : list msg) : gset string := list_to_set (omap batch_of ms).*1.
Definition ended (ms : list msg) : gset string := list_to_set (filter (λ b : string * bool, b.2 = true) (omap batch_of ms)).*1.
Definition has_stats (ms : list msg) : bool := negb (bool_decide (omap stats_of ms = [])).

(** A message that fits the ones before it: it has a content, and is neither a second
    end of a table, nor the end of a table the query does not have, nor a second
    report of statistics. *)
Definition fits (T : gset string) (ms : list msg) (m : msg) : bool :=
  match carnotpb.Result m with
  | Some (carnotpb.QueryResult r) =>
    match batch_of m with
    | Some (t, true) => bool_decide (t ∈ T ∖ ended ms)
    | Some (_, false) => true
    | None => false
    end
  | Some (carnotpb.ExecutionAndTimingInfo _) => negb (has_stats ms)
  | Some _ => true
  | None => false
  end.

(** The state after the messages [ms] of a query with the tables [T]. *)
Record tracks (T : gset string) (ms : list msg) (a : query_state) : Prop := {
  tracks_uninitialized : uninitializedTables a = T ∖ connected ms;
  tracks_connected : allTablesConnectedCh a = bool_decide (T ≠ ∅ ∧ T ⊆ connected ms);
  tracks_remaining : remainingTableEos a = T ∖ ended ms;
  tracks_stats : gotFinalExecStats a = has_stats ms
}.

Lemma connected_snoc ms m : connected (ms ++ [m]) = connected ms ∪ match batch_of m with Some b => {[b.1]} | None => ∅ end.
Proof.
  unfold connected. rewrite omap_app, fmap_app, list_to_set_app_L. f_equal. cbn.
  destruct (batch_of m) as [b|]; cbn; set_solver.
Qed.

Lemma ended_app ms ms' : ended (ms ++ ms') = ended ms ∪ ended ms'.
Proof. unfold ended. by rewrite omap_app, filter_app, fmap_app, list_to_set_app_L. Qed.

Lemma ended_snoc ms m :
  ended (ms ++ [m]) = ended ms ∪ match batch_of m with Some (t, true) => {[t]} | _ => ∅ end.
Proof. rewrite ended_app. f_equal. unfold ended. cbn. destruct (batch_of m) as [[t [|]]|]; cbn; set_solver. Qed.

Lemma has_stats_app ms ms' : has_stats (ms ++ ms') = has_stats ms || has_stats ms'.
Proof. unfold has_stats. rewrite omap_app. by destruct (omap stats_of ms), (omap stats_of ms'). Qed.

Lemma has_stats_snoc ms m : has_stats (ms ++ [m]) = has_stats ms || from_option (λ _, true) false (stats_of m).
Proof. rewrite has_stats_app. f_equal. unfold has_stats. cbn. by destruct (stats_of m). Qed.

Lemma init_state_eq tm : init_state tm = mkQueryState (dom tm) false (dom tm) false None.
Proof.
  unfold init_state. assert (∀ l : list string, foldr (λ tableName a,
      set_remaining (concurrentSet.add tableName (remainingTableEos a))
        (set_uninitialized (concurrentSet.add tableName (uninitializedTables a)) a))
    (mkQueryState ∅ false ∅ false None) l = mkQueryState (list_to_set l) false (list_to_set l) false None) as ->.
  { induction l as [|t l IH]; [done|]. cbn. by rewrite IH. }
  by rewrite (leibniz_equiv _ _ (dom_alt (D := gset string) tm)).
Qed.

Lemma tracks_init tm : tracks (dom tm) [] (init_state tm).
Proof. rewrite init_state_eq. split; cbn; [set_solver|..|set_solver|done]. symmetry. apply bool_decide_eq_false. set_solver. Qed.

(** ** [updateQueryState] *)
Section update.
Context `{U : UUIDLib}.
Implicit Types (m : msg) (a : query_state).

Lemma size_zero (s : gset string) : (size s =? 0) = bool_decide (s = ∅).
Proof.
  apply bool_ext. rewrite Nat.eqb_eq, bool_decide_eq_true. split; intros H.
  - by apply size_empty_inv, leibniz_equiv in H.
  - by rewrite H, size_empty.
Qed.

(** The first batch of a table; the channel is closed with the last such table. *)
Lemma table_connected_run T C t a :
  uninitializedTables a = T ∖ C → allTablesConnectedCh a = bool_decide (T ≠ ∅ ∧ T ⊆ C) →
  table_connected t a = (Ret tt, mkQueryState (T ∖ (C ∪ {[t]})) (bool_decide (T ≠ ∅ ∧ T ⊆ C ∪ {[t]}))
    (remainingTableEos a) (gotFinalExecStats a) (agentExecStats a)).
Proof.
  intros Hu Hc. unfold table_connected, concurrentSet.exists_, concurrentSet.remove, concurrentSet.size_.
  rewrite get_bind, Hu.
  decide_bool (t ∈ T ∖ C) as Ht.
  - rewrite modify_bind, get_bind. cbn [uninitializedTables set_uninitialized]. rewrite Hu, size_zero.
    decide_bool (T ∖ C ∖ {[t]} = ∅) as He; cbn.
    + unfold close_connected. rewrite get_bind. cbn [allTablesConnectedCh set_uninitialized].
      rewrite Hc, (bool_decide_eq_false_2 (T ≠ ∅ ∧ T ⊆ C)) by set_solver. cbn. unfold set_connected. cbn.
      rewrite bool_decide_eq_true_2; [unfold put_state; do 2 f_equal; set_solver|]. split; [set_solver|].
      intros x Hx. destruct (decide (x ∈ C)); [set_solver|]. destruct (decide (x = t)); set_solver.
    + unfold set_uninitialized. rewrite Hc, !bool_decide_eq_false_2; [do 2 f_equal; set_solver| |set_solver].
      intros [_ Hsub]. apply He. set_solver.
  - rewrite (bool_decide_ext (T ≠ ∅ ∧ T ⊆ C ∪ {[t]}) (T ≠ ∅ ∧ T ⊆ C)), <-Hc.
    + replace (T ∖ (C ∪ {[t]})) with (T ∖ C) by set_solver. rewrite <-Hu. by destruct a.
    + split; intros [? Hsub]; (split; [done|]); set_solver.
Qed.

(** The messages [ms] lead from a new query to a state; then the next message is
    accepted exactly if it fits, and the state follows; there is no panic. *)
Lemma updateQueryState_tracks T ms m a :
  tracks T ms a →
  if fits T ms m
  then ∃ a', updateQueryState m a = (Ret tt, a') ∧ tracks T (ms ++ [m]) a' ∧ agentExecStats a' = agentExecStats a
  else ∃ e a', updateQueryState m a = (Err e, a').
Proof.
  intros [Hu Hc Hr Hs].
  assert (batch_of m = None → stats_of m = None → tracks T (ms ++ [m]) a) as Hsame.
  { intros Hb Hst. split; rewrite ?connected_snoc, ?ended_snoc, ?has_stats_snoc, ?Hb, ?Hst, ?union_empty_r_L; try done.
    by rewrite orb_false_r. }
  unfold fits, updateQueryState. unfold batch_of, stats_of in Hsame.
  destruct (carnotpb.Result m) as [[r|i|st|]|] eqn:Em; [| |by exists a; auto..|by do 2 eexists].
  - unfold batch_of. rewrite Em. destruct (carnotpb.RowBatch r) as [rb|] eqn:Erb; cbn [mbind option_bind]; [|by do 2 eexists].
    assert (batch_of m = Some (carnotpb.GetTableName r, schemapb.Eos rb)) as Hb by (unfold batch_of; by rewrite Em, Erb).
    assert (stats_of m = None) as Hst by (unfold stats_of; by rewrite Em).
    set (t := carnotpb.GetTableName r) in *.
    rewrite (bind_ret _ _ a tt _ (table_connected_run T (connected ms) t a Hu Hc)).
    unfold table_ended. destruct (schemapb.Eos rb) eqn:Eeos; cbn [negb].
    + rewrite get_bind. cbn [remainingTableEos]. unfold concurrentSet.exists_. rewrite Hr.
      decide_bool (t ∈ T ∖ ended ms) as Ht; cbn; [|by do 2 eexists].
      eexists. split; [done|]. split; [|done]. unfold set_remaining, concurrentSet.remove. cbn.
      split; cbn; rewrite ?connected_snoc, ?ended_snoc, ?has_stats_snoc, ?Hb, ?Hst, ?Hr, ?Hs; try done; [set_solver|].
      by rewrite orb_false_r.
    + eexists. split; [done|]. split; [|done].
      split; cbn; rewrite ?connected_snoc, ?ended_snoc, ?has_stats_snoc, ?Hb, ?Hst, ?Hr, ?Hs; try done; [set_solver|].
      by rewrite orb_false_r.
  - rewrite get_bind, Hs. destruct (has_stats ms) eqn:Eh; cbn; [by do 2 eexists|]. eexists. split; [done|]. split; [|done].
    assert (batch_of m = None ∧ stats_of m = Some i) as [Hb Hst] by (unfold batch_of, stats_of; by rewrite Em).
    split; cbn; rewrite ?connected_snoc, ?ended_snoc, ?has_stats_snoc, ?Hb, ?Hst, ?union_empty_r_L; try done.
    by rewrite orb_true_r.
Qed.

(** A query is complete when every table has had its last batch and the statistics
    have come. *)
Lemma queryComplete_tracks T ms a :
  tracks T ms a → queryComplete a = bool_decide (T ⊆ ended ms) && has_stats ms.
Proof.
  intros [Hu _ Hr Hs]. unfold queryComplete, concurrentSet.size_. rewrite !size_zero, Hu, Hr, Hs.
  assert (ended ms ⊆ connected ms) as Hsub.
  { unfold ended, connected. intros t Ht. apply elem_of_list_to_set in Ht. apply elem_of_list_to_set.
    apply list_elem_of_fmap in Ht as (b & -> & Hb). apply list_elem_of_filter in Hb as [_ Hb].
    apply list_elem_of_fmap. by exists b. }
  f_equal. apply bool_ext. rewrite andb_true_iff, !bool_decide_eq_true. split; [|set_solver].
  intros [_ He]. intros t Ht. destruct (decide (t ∈ ended ms)); set_solver.
Qed.
End update.

(** ** The stream of responses *)
Section streaming.
Context `{U : UUIDLib} `{!Proto compilerpb.CompilerErrorGroup} `{!PlanRenderer}.
Context (q : query_info) (queryID : uuid).
Implicit Types (m : msg) (ms : list msg) (a : query_state) (s : stream).

Abbreviation T := (dom (tableIDMap q)).

(** Every table has ended and the statistics have come. *)
Definition complete ms : bool := bool_decide (T ⊆ ended ms) && has_stats ms.

Definition build m : outcome (option response) :=
  (BuildExecuteScriptResponse (S := unit) m (tableIDMap q) (compilationTimeNs q) tt).1.

(** The responses to a message: at most one. *)
Definition answers m : list response :=
  match build m with Ret (Some r) => [r] | _ => [] end.

(** The plan, with the statistics of the last message that has any. *)
Definition agent_stats ms : option (list queryresultspb.AgentExecutionStats) :=
  carnotpb.AgentExecutionStats <$> last (omap stats_of ms).

(** A message that is handled without an error. *)
Definition handled ms m : Prop :=
  fits T ms m = true ∧ ∃ o, build m = Ret o ∧ ∀ r, o = Some r → response_error r = None.

Fixpoint all_handled (pre ms : list msg) : Prop :=
  match ms with [] => True | m :: ms => handled pre m ∧ all_handled (pre ++ [m]) ms end.

(** The state after some messages that did not complete the query. *)
Record after ms s : Prop := {
  after_tracks : tracks T ms (s_query s);
  after_stats : agentExecStats (s_query s) = agent_stats ms
}.

Lemma after_init : after [] (mkStream (init_state (tableIDMap q)) []).
Proof. split; cbn; [apply tracks_init|by rewrite init_state_eq]. Qed.

Lemma keep_stats_after ms m a :
  tracks T (ms ++ [m]) a → agentExecStats a = agent_stats ms →
  tracks T (ms ++ [m]) (keep_stats m a) ∧ agentExecStats (keep_stats m a) = agent_stats (ms ++ [m]).
Proof.
  intros [Hu Hc Hr Hs] Ha. unfold keep_stats, agent_stats. rewrite omap_app, last_app. cbn.
  unfold stats_of at 1. destruct (carnotpb.Result m) as [[]|]; cbn; by split.
Qed.

Lemma complete_tracks ms a : tracks T ms a → queryComplete a = complete ms.
Proof. apply queryComplete_tracks. Qed.

Lemma complete_mono ms ms' : complete (ms ++ ms') = false → complete ms = false.
Proof.
  unfold complete. rewrite !andb_false_iff, !bool_decide_eq_false. intros [Hc|Hc].
  - left. intros Hsub. apply Hc. rewrite ended_app. set_solver.
  - right. rewrite has_stats_app in Hc. by apply orb_false_iff in Hc as [? _].
Qed.

(** One request, from the state after the ones before it. *)
Lemma handleRequest_run ms m s rs o :
  after ms s → fits T ms m = true →
  (if complete (ms ++ [m]) then plan_responses q queryID (agent_stats (ms ++ [m])) else mret []) tt = (Ret rs, tt) →
  build m = Ret o →
  ∃ a', after (ms ++ [m]) (mkStream a' []) ∧
    handleRequest q queryID m s =
      (match o ≫= response_error with Some e => Err e | None => Ret tt end,
       mkStream a' (s_out s ++ rs ++ option_list o)).
Proof.
  intros [Ht Ha] Hf Hrs Ho. pose proof (updateQueryState_tracks T ms m _ Ht) as Hu. rewrite Hf in Hu.
  destruct Hu as (a1 & Hu & Ht1 & Hst). rewrite <-Hst in Ha.
  destruct (keep_stats_after ms m a1 Ht1 Ha) as [Ht2 Ha2]. exists (keep_stats m a1). split; [by split|].
  unfold handleRequest. rewrite (bind_ret (on_query (updateQueryState m)) _ s tt (mkStream a1 (s_out s)))
    by (unfold on_query, zoom; by rewrite Hu).
  rewrite (bind_ret (on_query (modify (keep_stats m))) _ (mkStream a1 (s_out s)) tt (mkStream (keep_stats m a1) (s_out s)) eq_refl), get_bind.
  cbn [s_query]. rewrite (bind_ret (pure_call _) _ _ rs (mkStream (keep_stats m a1) (s_out s))).
  2: { unfold pure_call, plan_to_send. rewrite (complete_tracks _ _ Ht2), Ha2. by rewrite Hrs. }
  rewrite (bind_ret (send rs) _ (mkStream (keep_stats m a1) (s_out s)) tt (mkStream (keep_stats m a1) (s_out s ++ rs)) eq_refl).
  rewrite (bind_ret (pure_call _) _ _ o (mkStream (keep_stats m a1) (s_out s ++ rs))).
  2: { unfold pure_call. unfold build in Ho. by rewrite Ho. }
  destruct o as [r|]; cbn; [|by rewrite !app_nil_r].
  unfold send. rewrite modify_bind. cbn. rewrite <-!app_assoc. by destruct (response_error r).
Qed.

(** Messages that do not complete the query. *)
Lemma stream_loop_incomplete pre ms s rest :
  after pre s → all_handled pre ms → complete (pre ++ ms) = false →
  ∃ s', stream_loop q queryID (ms ++ rest) s = stream_loop q queryID rest s' ∧
    after (pre ++ ms) s' ∧ s_out s' = s_out s ++ (ms ≫= answers).
Proof.
  revert pre s. induction ms as [|m ms IH]; intros pre s Ha Hms Hc.
  { exists s. by rewrite !app_nil_r. }
  destruct Hms as [[Hf (o & Ho & Hr)] Hms]. rewrite cons_middle, app_assoc in Hc.
  assert (complete (pre ++ [m]) = false) as Hc1 by exact (complete_mono _ _ Hc).
  destruct (handleRequest_run pre m s [] o Ha Hf) as (a' & Ha' & Hrun); [by rewrite Hc1|done|].
  assert (o ≫= response_error = None) as Hno by (destruct o; cbn; auto). rewrite Hno in Hrun.
  destruct Ha' as [Ht' Hs']. cbn [s_query] in Ht', Hs'.
  destruct (IH (pre ++ [m]) (mkStream a' (s_out s ++ [] ++ option_list o))) as (s' & Hloop & Hafter & Hout); [done..|].
  exists s'. cbn [stream_loop app]. rewrite (bind_ret _ _ s tt _ Hrun), get_bind. cbn [s_query].
  rewrite (complete_tracks _ _ Ht'), Hc1. split_and!; [done|by rewrite cons_middle, app_assoc|].
  rewrite Hout. cbn. rewrite <-app_assoc. do 2 f_equal. unfold answers. rewrite Ho. by destruct o.
Qed.

Lemma all_handled_app pre ms ms' : all_handled pre (ms ++ ms') ↔ all_handled pre ms ∧ all_handled (pre ++ ms) ms'.
Proof.
  revert pre. induction ms as [|m ms IH]; intros pre; cbn; [rewrite app_nil_r; tauto|].
  rewrite IH, <-app_assoc. cbn. tauto.
Qed.

(** the messages of a query are answered one by one and in order, and the stream
    ends with the message that completes the query: the one after which every
    table has ended and the statistics have come.  The query plan, if it was asked
    for, comes just before the last response.  Messages after that are not
    read. *)
Theorem stream_results_exact ms m rest plan :
  all_handled [] (ms ++ [m]) → complete ms = false → complete (ms ++ [m]) = true →
  plan_responses q queryID (agent_stats (ms ++ [m])) tt = (Ret plan, tt) →
  ∃ a, stream_loop q queryID (ms ++ m :: rest) (mkStream (init_state (tableIDMap q)) []) =
    (Ret (Some rest), mkStream a ((ms ≫= answers) ++ plan ++ answers m)).
Proof.
  intros Hms Hc Hcm Hplan. apply all_handled_app in Hms as [Hms [[Hf (o & Ho & Hr)] _]].
  destruct (stream_loop_incomplete [] ms _ (m :: rest) after_init Hms Hc) as (s & Hloop & Ha & Hout).
  destruct (handleRequest_run ms m s plan o Ha Hf) as (a' & [Ht' _] & Hrun); [by rewrite Hcm|done|].
  assert (o ≫= response_error = None) as Hno by (destruct o; cbn; auto). rewrite Hno, Hout in Hrun.
  cbn [s_query s_out app] in Ht', Hrun.
  exists a'. rewrite Hloop. cbn [stream_loop]. rewrite (bind_ret _ _ s tt _ Hrun), get_bind. cbn [s_query s_out].
  rewrite (complete_tracks _ _ Ht'), Hcm.
  assert (answers m = option_list o) as -> by (unfold answers; rewrite Ho; by destruct o). done.
Qed.

(** an execution error of an agent is sent to the client, and ends the stream
    with an error unless its code is one of two: an agent that reports an
    unimplemented operation or a failed precondition is taken to have succeeded,
    and the stream goes on. *)
Theorem execution_error_ends_stream ms s addr qid k text ctx details :
  after ms s → k ∈ statuspb.Codes → k ≠ statuspb.DO_NOT_USE_ → k ≠ statuspb.OK → complete ms = false →
  getErrorsFromStatusContext ctx tt = (Ret details, tt) →
  let m := carnotpb.mkTransferResultChunkRequest addr qid (Some (carnotpb.ExecutionError (mkStatus k text ctx))) in
  let r := vizierpb.mkResponse (uuid_String (UUIDFromProtoOrNil qid))
    (Some (vizierpb.mkStatus (statusCodeToGRPCCode k) text details)) None None in
  ∃ a, handleRequest q queryID m s =
    (if decide (k = statuspb.UNIMPLEMENTED ∨ k = statuspb.FAILED_PRECONDITION) then Ret tt
     else Err (GrpcStatus (statusCodeToGRPCCode k) text), mkStream a (s_out s ++ [r])).
Proof.
  intros Ha Hk Hd Hok Hc Hdet m r.
  assert (build m = Ret (Some r)) as Ho.
  { unfold build. cbn. unfold StatusToVizierStatus. cbn. unfold mbind, M_bind. rewrite Hdet. done. }
  assert (complete (ms ++ [m]) = false) as Hcm.
  { unfold complete. rewrite ended_snoc, has_stats_snoc. cbn. by rewrite orb_false_r, union_empty_r_L. }
  destruct (handleRequest_run ms m s [] (Some r) Ha eq_refl) as (a & _ & Hrun); [by rewrite Hcm|done|].
  exists a. rewrite Hrun. cbn. f_equal. unfold response_error. cbn.
  pose proof (execution_error_codes k Hk Hd) as Hcode. unfold codes.OK in Hcode.
  case_decide as Hdec.
  - by rewrite (proj2 (Z.eqb_eq _ _) (proj2 Hcode (or_intror Hdec))).
  - assert (statusCodeToGRPCCode k ≠ 0%Z) as Hne by (rewrite Hcode; naive_solver).
    rewrite (proj2 (Z.eqb_neq _ _) Hne). unfold VizierStatusToError, status_Error, codes.OK. cbn.
    rewrite (statusCode_uint32 k).
    by rewrite (proj2 (Z.eqb_neq _ _) Hne).
Qed.
End streaming.

(** ** The steps of [updateQueryState]

    Each access to the state is atomic, the whole is not: this matters when two
    consumers run at the same time. *)

Inductive update_pc : Type :=
| UStart | UStats | URemove (t : string) (eos : bool) | USize (t : string) (eos : bool)
| UClose (t : string) (eos : bool) | UEos (t : string) (eos : bool) | UEosRemove (t : string) | UDone.

#[export] Instance update_pc_eq_dec : EqDecision update_pc.
Proof. solve_decision. Defined.

Section steps.
Context `{U : UUIDLib}.
Implicit Types (m : msg) (a : query_state) (p : update_pc).

Definition update_step m p : M query_state update_pc :=
  match p with
  | UStart =>
    match carnotpb.Result m with
    | Some carnotpb.InitiateConn | Some (carnotpb.ExecutionError _) => mret UDone
    | Some (carnotpb.ExecutionAndTimingInfo _) =>
      a ← get_state;
      if gotFinalExecStats a then fail (err_stats_twice m) else mret UStats
    | Some (carnotpb.QueryResult r) =>
      match carnotpb.RowBatch r with
      | Some rb =>
        a ← get_state;
        mret ((if concurrentSet.exists_ (carnotpb.GetTableName r) (uninitializedTables a) then URemove else UEos)
                (carnotpb.GetTableName r) (schemapb.Eos rb))
      | None => fail err_no_result
      end
    | None => fail err_no_result
    end
  | UStats => _ ← modify set_gotStats; mret UDone
  | URemove t eos =>
    _ ← modify (λ a, set_uninitialized (concurrentSet.remove t (uninitializedTables a)) a);
    mret (USize t eos)
  | USize t eos =>
    a ← get_state;
    mret ((if concurrentSet.size_ (uninitializedTables a) =? 0 then UClose else UEos) t eos)
  | UClose t eos => _ ← close_connected; mret (UEos t eos)
  | UEos t eos =>
    if negb eos then mret UDone
    else
      a ← get_state;
      if negb (concurrentSet.exists_ t (remainingTableEos a)) then fail (err_eos_twice m t) else mret (UEosRemove t)
  | UEosRemove t =>
    _ ← modify (λ a, set_remaining (concurrentSet.remove t (remainingTableEos a)) a);
    mret UDone
  | UDone => mret UDone
  end.

(** The steps from a point to the end. *)
Fixpoint update_from (fuel : nat) m p : M query_state unit :=
  match p with
  | UDone => mret tt
  | _ => match fuel with 0 => panic Hang | S fuel => p' ← update_step m p; update_from fuel m p' end
  end.

Lemma update_from_S fuel m p a :
  p ≠ UDone → update_from (S fuel) m p a = (p' ← update_step m p; update_from fuel m p') a.
Proof. by destruct p. Qed.

Lemma update_from_step fuel m p a p' a' :
  p ≠ UDone → update_step m p a = (Ret p', a') → update_from (S fuel) m p a = update_from fuel m p' a'.
Proof. intros Hp E. rewrite update_from_S by done. exact (bind_ret _ _ _ _ _ E). Qed.

Lemma update_from_eos fuel m t eos a : update_from (S (S fuel)) m (UEos t eos) a = table_ended m t eos a.
Proof.
  rewrite update_from_S by done. unfold table_ended. destruct eos; [|by destruct fuel]. cbn [update_step negb].
  unfold mbind, M_bind, get_state. cbn beta iota. destruct (concurrentSet.exists_ t _); [|done]. by destruct fuel.
Qed.

Lemma update_from_connect fuel m t eos a :
  concurrentSet.exists_ t (uninitializedTables a) = true →
  update_from (5 + fuel) m (URemove t eos) a = (_ ← table_connected t; table_ended m t eos) a.
Proof.
  intros E. cbn [Nat.add]. set (a' := set_uninitialized (concurrentSet.remove t (uninitializedTables a)) a).
  rewrite (update_from_step _ m (URemove t eos) a (USize t eos) a') by done.
  rewrite (update_from_step _ m (USize t eos) a'
    ((if concurrentSet.size_ (uninitializedTables a') =? 0 then UClose else UEos) t eos) a') by done.
  assert (table_connected t a =
    (if concurrentSet.size_ (uninitializedTables a') =? 0 then close_connected else mret tt) a') as Hc.
  { unfold table_connected. rewrite get_bind, E. done. }
  unfold mbind, M_bind. rewrite Hc. destruct (concurrentSet.size_ (uninitializedTables a') =? 0).
  - unfold close_connected. rewrite get_bind. destruct (allTablesConnectedCh a') eqn:Ec.
    + rewrite update_from_S by done. cbn [update_step]. unfold mbind, M_bind, close_connected. rewrite get_bind.
      by rewrite Ec.
    + rewrite (update_from_step _ m (UClose t eos) a' (UEos t eos) (set_connected a')); [|done|].
      * by rewrite update_from_eos.
      * cbn [update_step]. unfold mbind, M_bind, close_connected. rewrite get_bind. by rewrite Ec.
  - by rewrite update_from_eos.
Qed.

Lemma update_steps_run m a : update_from 6 m UStart a = updateQueryState m a.
Proof.
  rewrite update_from_S by done. unfold updateQueryState. cbn [update_step].
  destruct (carnotpb.Result m) as [[r|i|st|]|]; [| |done..].
  - destruct (carnotpb.RowBatch r) as [rb|]; [|done]. set (t := carnotpb.GetTableName r).
    unfold mbind at 1, M_bind at 1. rewrite get_bind. cbn beta iota.
    destruct (concurrentSet.exists_ t (uninitializedTables a)) eqn:E; [by apply (update_from_connect 0)|].
    transitivity (table_ended m t (schemapb.Eos rb) a); [exact (update_from_eos 3 _ _ _ _)|].
    unfold mbind, M_bind, table_connected. rewrite get_bind. by rewrite E.
  - unfold mbind, M_bind, get_state. by destruct (gotFinalExecStats a).
Qed.

Lemma table_connected_never_hangs t a : (table_connected t a).1 ≠ Crash Hang.
Proof.
  unfold table_connected. rewrite get_bind. destruct (concurrentSet.exists_ _ _); [|done]. rewrite modify_bind, get_bind.
  destruct (_ =? 0); [|done]. unfold close_connected. rewrite get_bind. by destruct (allTablesConnectedCh _).
Qed.

Lemma table_ended_never_hangs m t eos a : (table_ended m t eos a).1 ≠ Crash Hang.
Proof. unfold table_ended. destruct eos; [|done]. cbn [negb]. rewrite get_bind. by destruct (concurrentSet.exists_ _ _). Qed.

Lemma updateQueryState_never_hangs m a : (updateQueryState m a).1 ≠ Crash Hang.
Proof.
  unfold updateQueryState. destruct (carnotpb.Result m) as [[r|i|st|]|]; [| |done..].
  - destruct (carnotpb.RowBatch r) as [rb|]; [|done].
    pose proof (table_connected_never_hangs (carnotpb.GetTableName r) a) as Hc. unfold mbind, M_bind.
    destruct (table_connected _ a) as [[[]|e|k] a']; [apply table_ended_never_hangs|done|]. cbn in *. congruence.
  - rewrite get_bind. by destruct (gotFinalExecStats a).
Qed.

(** the atomic steps of [updateQueryState], run one after the other, do what the
    function does; six of them are always enough. *)
Theorem update_steps_equivalent m a : update_from 6 m UStart a = updateQueryState m a.
Proof. apply update_steps_run. Qed.
End steps.
