(* ===== verification/ResultForwarder.v ===== *)
(** * The query result forwarder

    The concurrent part of [query_broker/controllers/query_result_forwarder.go]:
    queries with their channels and watchdogs, the consumers in [StreamResults]
    (with the goroutine each starts), and the producers in [ForwardQueryResult].
    Every goroutine is a program counter; [exec] is one step of one goroutine, and
    an [action] names the goroutine and the case its [select] takes.  The timers
    may fire at any time. *)

From S2P Require Import Prelude GoLib Uuid Messages QueryMessages QueryProto ActiveQuery.
From Stdlib Require Import Ascii.

Definition activeQueryBufferSize : nat := 1024.

(** Where the watchdog is, with the consumer whose cancel function it holds: in its
    loop, before [deleteQuery], before [cancelConsumer], ended. *)
Inductive watchdog_pc : Type :=
| WLoop (consumer : option nat) | WDelete (consumer : option nat) | WCancel (consumer : option nat) | WExited.

(** Where a consumer is: in [registerConsumer]; at the [select] of the loop; in
    [consumerHealthcheck]; in [handleRequest], step by step; after it; returned. *)
Inductive consumer_pc : Type :=
| CRegister | CLoop | CHealth (m : msg) | CUpdate (m : msg) (p : update_pc) | CAfter (m : msg)
| CPlan (m : msg) (rs : list response) | CSend (r : response) | CCheck | CReturned (err : option error).

(** Where a producer is: at the [select]; in [producerHealthcheck]; returned. *)
Inductive producer_pc : Type := PSelect | PHealth | PReturned (err : option error).

(** The cases of the [select]s. *)
Inductive wait_case : Type := WaitCtx | WaitConnected | WaitTimeout.
Inductive watchdog_case : Type := ConsumerTimeout | ProducerTimeout | WatchdogStep.
Inductive select_case : Type := SelProducerCtx | SelCtx | SelSend | SelDefault.

Section forwarder.
Context `{U : UUIDLib} `{!Proto compilerpb.CompilerErrorGroup} `{!PlanRenderer}.
Context (values_order : concurrentSet.t → list string).

(** A query.  [aq_cancelled] is whether the watchdog's context is cancelled,
    [producerDone] whether [producerCtx] is.  [aq_accepted] and [aq_taken] are
    history: the messages put into the channel and taken out of it. *)
Record activeQuery := mkActiveQuery {
  aq_id : uuid;
  aq_info : query_info;
  aq_state : query_state;
  queryResultCh : list msg;
  aq_cancelled : bool;
  cancelQueryError : option error;
  producerDone : bool;
  aq_watchdog : watchdog_pc;
  aq_accepted : list msg;
  aq_taken : list msg
}.

(** A call of [StreamResults]: the address of its query, whether its context is
    cancelled, whether the goroutine that waits for the tables runs, and what it has
    put into [resultCh]. *)
Record consumer := mkConsumer {
  c_query : nat;
  c_cancelled : bool;
  c_pc : consumer_pc;
  c_waiting : bool;
  c_out : list response
}.

(** A call of [ForwardQueryResult]. *)
Record producer := mkProducer { p_query : nat; p_msg : msg; p_cancelled : bool; p_pc : producer_pc }.

(** A panic in any goroutine ends the process. *)
Record QueryResultForwarder := mkForwarder {
  activeQueries : gmap uuid nat;
  aqueries : list activeQuery;
  consumers : list consumer;
  producers : list producer;
  crashed : option crash
}.
Implicit Types (f : QueryResultForwarder) (a : activeQuery) (c : consumer) (p : producer).

Definition with_state x a := mkActiveQuery (aq_id a) (aq_info a) x (queryResultCh a) (aq_cancelled a)
  (cancelQueryError a) (producerDone a) (aq_watchdog a) (aq_accepted a) (aq_taken a).
Definition with_watchdog x a := mkActiveQuery (aq_id a) (aq_info a) (aq_state a) (queryResultCh a) (aq_cancelled a)
  (cancelQueryError a) (producerDone a) x (aq_accepted a) (aq_taken a).
Definition with_error x a := mkActiveQuery (aq_id a) (aq_info a) (aq_state a) (queryResultCh a) (aq_cancelled a)
  x (producerDone a) (aq_watchdog a) (aq_accepted a) (aq_taken a).
Definition with_producers_done a := mkActiveQuery (aq_id a) (aq_info a) (aq_state a) (queryResultCh a) (aq_cancelled a)
  (cancelQueryError a) true (aq_watchdog a) (aq_accepted a) (aq_taken a).
Definition enqueue m a := mkActiveQuery (aq_id a) (aq_info a) (aq_state a) (queryResultCh a ++ [m]) (aq_cancelled a)
  (cancelQueryError a) (producerDone a) (aq_watchdog a) (aq_accepted a ++ [m]) (aq_taken a).
Definition dequeue m rest a := mkActiveQuery (aq_id a) (aq_info a) (aq_state a) rest (aq_cancelled a)
  (cancelQueryError a) (producerDone a) (aq_watchdog a) (aq_accepted a) (aq_taken a ++ [m]).

(** [cancelQuery]. *)
Definition cancelQuery (err : option error) a := mkActiveQuery (aq_id a) (aq_info a) (aq_state a) (queryResultCh a) true
  err (producerDone a) (aq_watchdog a) (aq_accepted a) (aq_taken a).

Definition with_pc x c := mkConsumer (c_query c) (c_cancelled c) x (c_waiting c) (c_out c).
Definition with_waiting x c := mkConsumer (c_query c) (c_cancelled c) (c_pc c) x (c_out c).
Definition emit r c := mkConsumer (c_query c) (c_cancelled c) (c_pc c) (c_waiting c) (c_out c ++ [r]).

(** Cancelling the context of a consumer; one that has returned has cancelled it itself. *)
Definition cancel_ctx c :=
  match c_pc c with
  | CReturned _ => c
  | _ => mkConsumer (c_query c) true (c_pc c) (c_waiting c) (c_out c)
  end.

Definition with_ppc x p := mkProducer (p_query p) (p_msg p) (p_cancelled p) x.

Definition upd_query (n : nat) (g : activeQuery → activeQuery) f :=
  mkForwarder (activeQueries f) (alter g n (aqueries f)) (consumers f) (producers f) (crashed f).
Definition upd_consumer (i : nat) (g : consumer → consumer) f :=
  mkForwarder (activeQueries f) (aqueries f) (alter g i (consumers f)) (producers f) (crashed f).
Definition upd_producer (i : nat) (g : producer → producer) f :=
  mkForwarder (activeQueries f) (aqueries f) (consumers f) (alter g i (producers f)) (crashed f).
Definition set_active x f := mkForwarder x (aqueries f) (consumers f) (producers f) (crashed f).

(** ** Registering a query *)

Definition newActiveQuery (queryID : uuid) (info : query_info) : activeQuery :=
  mkActiveQuery queryID info (init_state (tableIDMap info)) [] false None false (WLoop None) [] [].

(** The bytes of an identifier, as [%d] prints them. *)
Fixpoint bytes_d (s : string) : list string :=
  match s with EmptyString => [] | String b s => FormatUint (Z.of_N (N_of_ascii b)) :: bytes_d s end.

Definition RegisterQuery (queryID : uuid) (info : query_info) : M QueryResultForwarder unit :=
  f ← get_state;
  match activeQueries f !! queryID with
  | Some _ => fail (ErrMsg ("Query [" +:+ join " " (bytes_d (uuid_Bytes queryID)) +:+ "] already registered"))
  | None =>
    put_state (mkForwarder (<[queryID := length (aqueries f)]> (activeQueries f))
      (aqueries f ++ [newActiveQuery queryID info]) (consumers f) (producers f) (crashed f))
  end.

(** ** Consumers *)

(** The lookup of [StreamResults]; the rest of it is the program of the consumer. *)
Definition StreamResults (queryID : uuid) : M QueryResultForwarder nat :=
  f ← get_state;
  match activeQueries f !! queryID with
  | None => fail (ErrMsg ("error in StreamResults: Query " +:+ uuid_String queryID +:+ " not registered in query forwarder"))
  | Some n =>
    _ ← put_state (mkForwarder (activeQueries f) (aqueries f)
          (consumers f ++ [mkConsumer n false CRegister false []]) (producers f) (crashed f));
    mret (length (consumers f))
  end.

Definition err_register : error := ErrMsg "timedout trying to register consumer".

(** [registerConsumer]: the watchdog takes the cancel function and cancels the
    consumer it had; then the goroutine that waits for the tables is started. *)
Definition registerConsumer (i : nat) f : option QueryResultForwarder :=
  c ← consumers f !! i;
  a ← aqueries f !! c_query c;
  match c_pc c, aq_watchdog a with
  | CRegister, WLoop old =>
    let f := match old with Some j => upd_consumer j cancel_ctx f | None => f end in
    Some (upd_consumer i (λ c, with_waiting true (with_pc CLoop c))
           (upd_query (c_query c) (with_watchdog (WLoop (Some i))) f))
  | _, _ => None
  end.

Definition register_timeout (i : nat) f : option QueryResultForwarder :=
  c ← consumers f !! i;
  match c_pc c with
  | CRegister => Some (upd_consumer i (with_pc (CReturned (Some err_register))) f)
  | _ => None
  end.

Definition finish (err : option error) a c : activeQuery * consumer :=
  (cancelQuery err a, with_pc (CReturned err) c).

Definition outcome_step {A} (o : outcome A) (k : A → activeQuery * consumer) a c
    : option (outcome (activeQuery * consumer)) :=
  Some match o with
       | Ret x => Ret (k x)
       | Err e => Ret (finish (Some e) a c)
       | Crash k => Crash k
       end.

(** One step of a consumer on its query; [done] is whether the [select] takes the
    case of its context. *)
Definition consumer_step (done : bool) a c : option (outcome (activeQuery * consumer)) :=
  if done && negb (c_cancelled c) then None
  else
    match c_pc c with
    | CLoop =>
      if done then Some (Ret (a, with_pc (CReturned (cancelQueryError a)) c))
      else
        match queryResultCh a with
        | [] => None
        | m :: rest => Some (Ret (dequeue m rest a, with_pc (CHealth m) c))
        end
    | CHealth m =>
      match done, aq_watchdog a with
      | true, _ | false, WLoop _ => Some (Ret (a, with_pc (CUpdate m UStart) c))
      | _, _ => None
      end
    | CUpdate m UDone => Some (Ret (a, with_pc (CAfter m) c))
    | CUpdate m u =>
      let '(o, s) := update_step m u (aq_state a) in
      outcome_step o (λ u, (with_state s a, with_pc (CUpdate m u) c)) (with_state s a) c
    | CAfter m =>
      let a := with_state (keep_stats m (aq_state a)) a in
      outcome_step (plan_to_send (aq_info a) (aq_id a) (aq_state a) tt).1 (λ rs, (a, with_pc (CPlan m rs) c)) a c
    | CPlan m (r :: rs) =>
      Some (Ret (a, if done then with_pc CCheck c else with_pc (CPlan m rs) (emit r c)))
    | CPlan m [] =>
      outcome_step (BuildExecuteScriptResponse m (tableIDMap (aq_info a)) (compilationTimeNs (aq_info a)) tt).1
        (λ o, (a, match o with None => with_pc CCheck c | Some r => with_pc (CSend r) c end)) a c
    | CSend r =>
      Some (Ret (if done then (a, with_pc CCheck c)
                 else match response_error r with
                      | Some e => finish (Some e) a (emit r c)
                      | None => (a, with_pc CCheck (emit r c))
                      end))
    | CCheck => Some (Ret (if queryComplete (aq_state a) then finish None a c else (a, with_pc CLoop c)))
    | CRegister | CReturned _ => None
    end.

Definition err_not_connected (queryID : uuid) (missing : list string) : error :=
  ErrMsg ("Query " +:+ uuid_String queryID +:+ " failed to initialize all result tables within the deadline, missing: " +:+
          join ", " missing).

(** The goroutine that waits for the result tables. *)
Definition wait_step (w : wait_case) a c : option (activeQuery * consumer) :=
  if negb (c_waiting c) then None
  else
    match w with
    | WaitCtx =>
      if c_cancelled c || match c_pc c with CReturned _ => true | _ => false end
      then Some (a, with_waiting false c) else None
    | WaitConnected => if allTablesConnectedCh (aq_state a) then Some (a, with_waiting false c) else None
    | WaitTimeout =>
      let missingSinks := concurrentSet.values values_order (uninitializedTables (aq_state a)) in
      Some (cancelQuery (Some (err_not_connected (aq_id a) missingSinks)) a, with_waiting false c)
    end.

(** ** The watchdog *)

Definition watchdog_step (w : watchdog_case) (n : nat) f : option QueryResultForwarder :=
  a ← aqueries f !! n;
  let name := uuid_String (aq_id a) in
  match aq_watchdog a, w with
  | WLoop c, ConsumerTimeout =>
    Some (upd_query n (λ a, with_watchdog (WDelete c)
      (with_error (Some (ErrMsg ("Query " +:+ name +:+ " timedout waiting for consumer"))) a)) f)
  | WLoop c, ProducerTimeout =>
    Some (upd_query n (λ a, with_watchdog (WDelete c)
      (with_error (Some (ErrMsg ("Query " +:+ name +:+ " timedout waiting for producers"))) a)) f)
  | WLoop c, WatchdogStep => if aq_cancelled a then Some (upd_query n (with_watchdog (WDelete c)) f) else None
  | WDelete c, WatchdogStep =>
    Some (set_active (delete (aq_id a) (activeQueries f))
      (upd_query n (λ a, with_watchdog (WCancel c) (with_producers_done a)) f))
  | WCancel c, WatchdogStep =>
    Some (upd_query n (with_watchdog WExited) (match c with Some i => upd_consumer i cancel_ctx f | None => f end))
  | _, _ => None
  end.

(** ** Producers *)

Definition GetProducerCtx (queryID : uuid) : M QueryResultForwarder bool :=
  f ← get_state;
  match activeQueries f !! queryID ≫= (aqueries f !!.) with
  | None => fail (ErrMsg ("error in GetProducerCtx: Query " +:+ uuid_String queryID +:+ " is not registered in query forwarder"))
  | Some a => mret (producerDone a)
  end.

(** The lookup of [ForwardQueryResult]. *)
Definition ForwardQueryResult (m : msg) : M QueryResultForwarder nat :=
  let queryID := UUIDFromProtoOrNil (carnotpb.QueryID m) in
  f ← get_state;
  match activeQueries f !! queryID with
  | None => fail (ErrMsg ("error in ForwardQueryResult: Query " +:+ uuid_String queryID +:+ " is not registered in query forwarder"))
  | Some n =>
    _ ← put_state (mkForwarder (activeQueries f) (aqueries f) (consumers f)
          (producers f ++ [mkProducer n m false PSelect]) (crashed f));
    mret (length (producers f))
  end.

(** The default case is taken when no other one is ready. *)
Definition producer_step (s : select_case) a p : option (activeQuery * producer) :=
  let room := length (queryResultCh a) <? activeQueryBufferSize in
  match p_pc p, s with
  | PSelect, SelProducerCtx => if producerDone a then Some (a, with_ppc (PReturned (cancelQueryError a)) p) else None
  | PSelect, SelCtx => if p_cancelled p then Some (a, with_ppc (PReturned (cancelQueryError a)) p) else None
  | PSelect, SelSend => if room then Some (enqueue (p_msg p) a, with_ppc PHealth p) else None
  | PSelect, SelDefault =>
    if producerDone a || p_cancelled p || room then None
    else
      let err := ErrMsg ("error in ForwardQueryResult: Query " +:+ uuid_String (UUIDFromProtoOrNil (carnotpb.QueryID (p_msg p)))
                         +:+ " can not accept more data, consumer likely died") in
      Some (cancelQuery (Some err) a, with_ppc (PReturned (Some err)) p)
  | PHealth, SelCtx => if p_cancelled p then Some (a, with_ppc (PReturned None) p) else None
  | PHealth, SelProducerCtx => if producerDone a then Some (a, with_ppc (PReturned None) p) else None
  | PHealth, SelSend => match aq_watchdog a with WLoop _ => Some (a, with_ppc (PReturned None) p) | _ => None end
  | _, _ => None
  end.

Definition ProducerCancelStream (queryID : uuid) (err : option error) : M QueryResultForwarder unit :=
  f ← get_state;
  match activeQueries f !! queryID with
  | None => mret tt
  | Some n => put_state (upd_query n (cancelQuery err) f)
  end.

(** ** The whole *)

Inductive action : Type :=
| ARegisterQuery (queryID : uuid) (info : query_info)
| AStreamResults (queryID : uuid)
| ARegisterConsumer (i : nat)
| ARegisterTimeout (i : nat)
| ACancelClient (i : nat)
| AConsumer (i : nat) (done : bool)
| AWait (i : nat) (w : wait_case)
| AWatchdog (n : nat) (w : watchdog_case)
| AForwardQueryResult (m : msg)
| ACancelAgent (j : nat)
| AProducer (j : nat) (s : select_case)
| AProducerCancelStream (queryID : uuid) (err : option error).

Definition on_consumer (i : nat) (step : activeQuery → consumer → option (outcome (activeQuery * consumer))) f
    : option QueryResultForwarder :=
  c ← consumers f !! i;
  a ← aqueries f !! c_query c;
  o ← step a c;
  match o with
  | Ret (a', c') => Some (upd_consumer i (λ _, c') (upd_query (c_query c) (λ _, a') f))
  | Crash k => Some (mkForwarder (activeQueries f) (aqueries f) (consumers f) (producers f) (Some k))
  | Err _ => None
  end.

Definition exec (act : action) f : option QueryResultForwarder :=
  match crashed f with
  | Some _ => None
  | None =>
    match act with
    | ARegisterQuery queryID info => Some (RegisterQuery queryID info f).2
    | AStreamResults queryID => Some (StreamResults queryID f).2
    | ARegisterConsumer i => registerConsumer i f
    | ARegisterTimeout i => register_timeout i f
    | ACancelClient i => Some (upd_consumer i cancel_ctx f)
    | AConsumer i done => on_consumer i (consumer_step done) f
    | AWait i w => on_consumer i (λ a c, Ret <$> wait_step w a c) f
    | AWatchdog n w => watchdog_step w n f
    | AForwardQueryResult m => Some (ForwardQueryResult m f).2
    | ACancelAgent j => Some (upd_producer j (λ p, mkProducer (p_query p) (p_msg p) true (p_pc p)) f)
    | AProducer j s =>
      p ← producers f !! j;
      a ← aqueries f !! p_query p;
      '(a', p') ← producer_step s a p;
      Some (upd_producer j (λ _, p') (upd_query (p_query p) (λ _, a') f))
    | AProducerCancelStream queryID err => Some (ProducerCancelStream queryID err f).2
    end
  end.

(** [NewQueryResultForwarder]. *)
Definition NewQueryResultForwarder : QueryResultForwarder := mkForwarder ∅ [] [] [] None.

Fixpoint run (acts : list action) f : option QueryResultForwarder :=
  match acts with [] => Some f | act :: acts => f' ← exec act f; run acts f' end.

Inductive reachable : QueryResultForwarder → Prop :=
| reachable_new : reachable NewQueryResultForwarder
| reachable_step f act f' : reachable f → exec act f = Some f' → reachable f'.

Lemma reachable_run acts f f' : reachable f → run acts f = Some f' → reachable f'.
Proof.
  revert f. induction acts as [|act acts IH]; intros f Hf; cbn; [by intros [= <-]|].
  destruct (exec act f) as [f1|] eqn:E; cbn; [|done]. apply IH. by eapply reachable_step.
Qed.
End forwarder.
Arguments QueryResultForwarder {U}.
Arguments activeQuery {U}.

(** ** Invariants *)

Definition live (w : watchdog_pc) : bool := match w with WLoop _ | WDelete _ => true | _ => false end.

(** The consumer a watchdog will cancel. *)
Definition held (w : watchdog_pc) : option nat :=
  match w with WLoop c | WDelete c | WCancel c => c | WExited => None end.

(** Between its registration and its return. *)
Definition streaming (c : consumer) : bool :=
  match c_pc c with CRegister | CReturned _ => false | _ => true end.

Section invariants.
Context `{U : UUIDLib} `{!Proto compilerpb.CompilerErrorGroup} `{!PlanRenderer}.
Context (values_order : concurrentSet.t → list string).
Implicit Types (f : QueryResultForwarder) (a : activeQuery) (c : consumer) (p : producer).

(** The channel holds what was accepted and not taken, within its size. *)
Definition channel_ok a : Prop :=
  aq_accepted a = aq_taken a ++ queryResultCh a ∧ length (queryResultCh a) ≤ activeQueryBufferSize.

Record finv f : Prop := {
  inv_active qid n :
    activeQueries f !! qid = Some n ↔ ∃ a, aqueries f !! n = Some a ∧ aq_id a = qid ∧ live (aq_watchdog a) = true;
  inv_query n a : aqueries f !! n = Some a → producerDone a = negb (live (aq_watchdog a)) ∧ channel_ok a;
  inv_consumer i c : consumers f !! i = Some c → ∃ a, aqueries f !! c_query c = Some a ∧
    (streaming c = true → c_cancelled c = false → held (aq_watchdog a) = Some i)
}.

Lemma lookup_upd_query n g f k : aqueries (upd_query n g f) !! k = if decide (n = k) then g <$> aqueries f !! k else aqueries f !! k.
Proof.
  cbn. case_decide as E; [subst; by rewrite list_lookup_alter_eq|by rewrite list_lookup_alter_ne].
Qed.

Lemma lookup_upd_consumer i g f k :
  consumers (upd_consumer i g f) !! k = if decide (i = k) then g <$> consumers f !! k else consumers f !! k.
Proof.
  cbn. case_decide as E; [subst; by rewrite list_lookup_alter_eq|by rewrite list_lookup_alter_ne].
Qed.

(** A change of a query that leaves its watchdog alone. *)
Definition query_frame a a' : Prop :=
  aq_id a' = aq_id a ∧ aq_watchdog a' = aq_watchdog a ∧ producerDone a' = producerDone a ∧ (channel_ok a → channel_ok a').

Lemma finv_upd_query n g f :
  finv f → (∀ a, aqueries f !! n = Some a → query_frame a (g a)) → finv (upd_query n g f).
Proof.
  intros [Hact Hq Hc] Hg. split.
  - intros qid k. cbn [activeQueries upd_query]. rewrite Hact, lookup_upd_query. case_decide as E; [subst k|done].
    destruct (aqueries f !! n) as [a|] eqn:Ea; cbn; [|naive_solver].
    destruct (Hg a eq_refl) as (H1 & H2 & _). split; intros (a' & [= <-] & H3 & H4).
    + exists (g a). by rewrite H1, H2.
    + exists a. by rewrite <-H1, <-H2.
  - intros k a'. rewrite lookup_upd_query. case_decide as E; [subst k|apply Hq].
    intros (a & Ha & ->)%fmap_Some. destruct (Hg a Ha) as (_ & H2 & H3 & H4). destruct (Hq n a Ha) as [H5 H6].
    rewrite H2, H3. auto.
  - intros i c Hi. destruct (Hc i c Hi) as (a & Ha & Hh). rewrite lookup_upd_query. case_decide as E; [|by exists a].
    subst n. exists (g a). rewrite Ha. split; [done|]. by rewrite (proj1 (proj2 (Hg a Ha))).
Qed.

(** A change of a consumer; if it makes it stream, the watchdog holds it. *)
Lemma finv_upd_consumer i g f :
  finv f → (∀ c a, consumers f !! i = Some c → aqueries f !! c_query c = Some a → c_query (g c) = c_query c ∧
    (streaming (g c) = true → c_cancelled (g c) = false →
     (streaming c = true ∧ c_cancelled c = false) ∨ held (aq_watchdog a) = Some i)) →
  finv (upd_consumer i g f).
Proof.
  intros [Hact Hq Hc] Hg. split; [done..|]. intros k c. rewrite lookup_upd_consumer.
  case_decide as E; [subst k|apply Hc]. intros (c0 & Hi & ->)%fmap_Some.
  destruct (Hc i c0 Hi) as (a & Ha & Hh). destruct (Hg c0 a Hi Ha) as [H1 H2]. exists a. rewrite H1. split; [done|].
  intros Hs Hcc. destruct (H2 Hs Hcc) as [[? ?]|?]; auto.
Qed.

Lemma finv_cancel i f : finv f → finv (upd_consumer i cancel_ctx f).
Proof.
  intros Hf. apply finv_upd_consumer; [done|]. intros c a _ _. unfold cancel_ctx, streaming. destruct (c_pc c) eqn:E; cbn; rewrite ?E; done.
Qed.

Lemma finv_RegisterQuery qid info f : finv f → finv (RegisterQuery qid info f).2.
Proof.
  intros [Hact Hq Hc]. unfold RegisterQuery. rewrite get_bind. destruct (activeQueries f !! qid) as [n|] eqn:E; [by split|].
  cbn. split; cbn.
  - intros qid' k. rewrite lookup_insert. case_decide as Eq.
    + subst qid'. split.
      * intros [= <-]. exists (newActiveQuery qid info). by rewrite lookup_app_r, Nat.sub_diag by lia.
      * intros (a & Ha & Hid & Hl). apply lookup_app_Some in Ha as [Ha|[Hge Ha]].
        -- assert (activeQueries f !! qid = Some k) as Hdup by (apply Hact; eauto). congruence.
        -- apply list_lookup_singleton_Some in Ha as [? _]. f_equal. lia.
    + rewrite Hact. split; intros (a & Ha & Hid & Hl).
      * exists a. rewrite lookup_app_l by (by eapply lookup_lt_Some). done.
      * apply lookup_app_Some in Ha as [Ha|[Hge Ha]]; [by exists a|].
        apply list_lookup_singleton_Some in Ha as [_ <-]. by cbn in Hid.
  - intros k a [Ha|[_ Ha]]%lookup_app_Some; [by eapply Hq|].
    apply list_lookup_singleton_Some in Ha as [_ <-]. split; [done|]. split; [done|]. cbn. lia.
  - intros i c Hi. destruct (Hc i c Hi) as (a & Ha & Hh). exists a. split; [|done].
    by rewrite lookup_app_l by (by eapply lookup_lt_Some).
Qed.

Lemma finv_StreamResults qid f : finv f → finv (StreamResults qid f).2.
Proof.
  intros [Hact Hq Hc]. unfold StreamResults. rewrite get_bind. destruct (activeQueries f !! qid) as [n|] eqn:E; [|by split].
  cbn. split; cbn; [done..|]. intros i c [Hi|[_ Hi]]%lookup_app_Some; [by eapply Hc|].
  apply list_lookup_singleton_Some in Hi as [_ <-]. apply Hact in E as (a & Ha & _). by exists a.
Qed.

Lemma finv_ForwardQueryResult m f : finv f → finv (ForwardQueryResult m f).2.
Proof. intros [Hact Hq Hc]. unfold ForwardQueryResult. rewrite get_bind. by case_match. Qed.

(** A step of the watchdog that does not end the query, for which it must hold all
    consumers that stream. *)
Lemma finv_set_watchdog n g w f :
  finv f →
  (∀ a, aqueries f !! n = Some a → aq_id (g a) = aq_id a ∧ aq_watchdog (g a) = w ∧ live w = live (aq_watchdog a) ∧
    producerDone (g a) = producerDone a ∧ (channel_ok a → channel_ok (g a))) →
  (∀ k c, consumers f !! k = Some c → c_query c = n → streaming c = true → c_cancelled c = false → held w = Some k) →
  finv (upd_query n g f).
Proof.
  intros [Hact Hq Hc] Hg Hh. split.
  - intros qid k. cbn [activeQueries upd_query]. rewrite Hact, lookup_upd_query. case_decide as E; [subst k|done].
    destruct (aqueries f !! n) as [a|] eqn:Ea; cbn; [|naive_solver]. destruct (Hg a eq_refl) as (H1 & H2 & H3 & _).
    split; intros (a' & [= <-] & H4 & H5); [exists (g a)|exists a]; by rewrite H1, H2, H3 in *.
  - intros k a'. rewrite lookup_upd_query. case_decide as E; [subst k|apply Hq].
    intros (a & Ha & ->)%fmap_Some. destruct (Hq n a Ha) as [H5 H6]. destruct (Hg a Ha) as (_ & H2 & H3 & H4 & H7).
    rewrite H2, H3, H4. auto.
  - intros k c Hk. destruct (Hc k c Hk) as (a & Ha & Ho). rewrite lookup_upd_query. case_decide as E; [|by exists a].
    subst n. exists (g a). rewrite Ha. split; [done|]. destruct (Hg a Ha) as (_ & -> & _). by apply Hh.
Qed.

(** After the held consumer is cancelled, none streams. *)
Lemma cancel_held f n a k c :
  finv f → aqueries f !! n = Some a →
  consumers (match held (aq_watchdog a) with Some i => upd_consumer i cancel_ctx f | None => f end) !! k = Some c →
  c_query c = n → streaming c = true → c_cancelled c = true.
Proof.
  intros [_ _ Hc] Ha Hk Hn Hs. destruct (c_cancelled c) eqn:Ecc; [done|]. exfalso. destruct (held _) as [i|] eqn:Eh.
  - rewrite lookup_upd_consumer in Hk. case_decide as Ei.
    + apply fmap_Some in Hk as (c0 & _ & ->). revert Ecc Hs. unfold cancel_ctx, streaming. by destruct (c_pc c0) eqn:E; cbn; rewrite ?E.
    + destruct (Hc k c Hk) as (a' & Ha' & Ho). specialize (Ho Hs Ecc). rewrite Hn, Ha in Ha'. injection Ha' as <-. congruence.
  - destruct (Hc k c Hk) as (a' & Ha' & Ho). specialize (Ho Hs Ecc). rewrite Hn, Ha in Ha'. injection Ha' as <-. congruence.
Qed.

Lemma finv_cancel_held f o : finv f → finv (match o with Some i => upd_consumer i cancel_ctx f | None => f end).
Proof. destruct o; [apply finv_cancel|done]. Qed.

Lemma finv_registerConsumer i f f' : finv f → registerConsumer i f = Some f' → finv f'.
Proof.
  intros Hf. unfold registerConsumer. destruct (consumers f !! i) as [c|] eqn:Ec; [|done]. cbn.
  destruct (aqueries f !! c_query c) as [a|] eqn:Ea; [|done]. cbn.
  destruct (c_pc c) eqn:Epc, (aq_watchdog a) as [old| | |] eqn:Ew; try done. intros [= <-].
  pose proof (λ k ck, cancel_held f (c_query c) a k ck Hf Ea) as Hnone. rewrite Ew in Hnone. cbn [held] in Hnone.
  pose proof (finv_cancel_held f old Hf) as Hf1.
  set (f1 := match old with Some j => _ | None => _ end) in *.
  assert (aqueries f1 = aqueries f) as Eq1 by (subst f1; by destruct old).
  apply finv_upd_consumer.
  - apply finv_set_watchdog with (WLoop (Some i)); [done|..].
    + intros a' Ha'. rewrite Eq1, Ea in Ha'. injection Ha' as <-. by rewrite Ew.
    + intros k ck Hk Hn Hs Hcc. rewrite (Hnone k ck Hk Hn Hs) in Hcc. done.
  - intros c1 a1 Hc1 Ha1. split; [done|]. intros _ _. right.
    assert (c_query c1 = c_query c) as Eqc.
    { cbn in Hc1. subst f1. destruct old as [j|]; [|congruence]. rewrite lookup_upd_consumer, Ec in Hc1.
      case_decide; [|congruence]. cbn in Hc1. injection Hc1 as <-. unfold cancel_ctx. by rewrite Epc. }
    rewrite lookup_upd_query, Eqc, decide_True in Ha1 by done. apply fmap_Some in Ha1 as (? & _ & ->). done.
Qed.

(** [deleteQuery]. *)
Lemma finv_delete n a o f :
  finv f → aqueries f !! n = Some a → aq_watchdog a = WDelete o →
  finv (set_active (delete (aq_id a) (activeQueries f))
    (upd_query n (λ a, with_watchdog (WCancel o) (with_producers_done a)) f)).
Proof.
  intros [Hact Hq Hc] Ea Ew.
  assert (activeQueries f !! aq_id a = Some n) as Hn by (apply Hact; exists a; by rewrite Ew).
  split.
  - intros qid k. cbn [activeQueries set_active]. change (aqueries (set_active ?x ?y)) with (aqueries y).
    rewrite lookup_delete, lookup_upd_query. case_decide as E1; case_decide as E2.
    + subst. rewrite Ea. cbn. naive_solver.
    + subst. split; [done|]. intros (a' & Ha' & Hid & Hl).
      assert (activeQueries f !! aq_id a = Some k) as Hk by (apply Hact; eauto). congruence.
    + subst. rewrite Ea. cbn. rewrite Hact. split; [|naive_solver]. intros (a' & Ha' & Hid & Hl). congruence.
    + apply Hact.
  - intros k a'. change (aqueries (set_active ?x ?y)) with (aqueries y). rewrite lookup_upd_query.
    case_decide as E; [subst k|apply Hq]. rewrite Ea. intros [= <-]. destruct (Hq n a Ea) as [_ Hch]. done.
  - intros k c Hk. change (aqueries (set_active ?x ?y)) with (aqueries y). rewrite lookup_upd_query.
    destruct (Hc k c Hk) as (a' & Ha' & Ho). case_decide as E; [|by exists a'].
    rewrite <-E, Ea in *. injection Ha' as <-. eexists. split; [done|]. cbn. by rewrite Ew in Ho.
Qed.

Lemma finv_watchdog_step w n f f' : finv f → watchdog_step w n f = Some f' → finv f'.
Proof.
  intros Hf. unfold watchdog_step. destruct (aqueries f !! n) as [a|] eqn:Ea; [|done]. cbn.
  assert (∀ o g, aq_watchdog a = WLoop o →
    (∀ a, aq_id (g a) = aq_id a ∧ aq_watchdog (g a) = WDelete o ∧ producerDone (g a) = producerDone a ∧
      (channel_ok a → channel_ok (g a))) → finv (upd_query n g f)) as Hdel.
  { intros o g Ew Hg. apply finv_set_watchdog with (WDelete o); [done|..].
    - intros a' Ha'. rewrite Ea in Ha'. injection Ha' as <-. destruct (Hg a) as (? & ? & ? & ?). by rewrite Ew.
    - intros k c Hk Hn Hs Hcc. destruct (inv_consumer f Hf k c Hk) as (a' & Ha' & Ho). rewrite Hn, Ea in Ha'.
      injection Ha' as <-. rewrite Ew in Ho. auto. }
  destruct (aq_watchdog a) as [o|o|o|] eqn:Ew; destruct w; try done.
  - intros [= <-]. by apply (Hdel o).
  - intros [= <-]. by apply (Hdel o).
  - destruct (aq_cancelled a); [|done]. intros [= <-]. by apply (Hdel o).
  - intros [= <-]. by apply (finv_delete n a o).
  - intros [= <-]. pose proof (λ k ck, cancel_held f n a k ck Hf Ea) as Hnone. rewrite Ew in Hnone. cbn [held] in Hnone.
    pose proof (finv_cancel_held f o Hf) as Hf1. set (f1 := match o with Some j => _ | None => _ end) in *.
    assert (aqueries f1 = aqueries f) as Eq1 by (subst f1; by destruct o).
    apply finv_set_watchdog with WExited; [done|..].
    + intros a' Ha'. rewrite Eq1, Ea in Ha'. injection Ha' as <-. by rewrite Ew.
    + intros k ck Hk Hn Hs Hcc. rewrite (Hnone k ck Hk Hn Hs) in Hcc. done.
Qed.
(** What a step of a consumer leaves as it was. *)
Definition consumer_frame c c' : Prop :=
  c_query c' = c_query c ∧
  (streaming c' = true → c_cancelled c' = false → streaming c = true ∧ c_cancelled c = false).

Lemma consumer_step_frame done a c a' c' :
  consumer_step done a c = Some (Ret (a', c')) → query_frame a a' ∧ c_query c' = c_query c ∧
    c_cancelled c' = c_cancelled c ∧ streaming c = true.
Proof.
  assert (query_frame a a) as Hrefl by done.
  assert (∀ s, query_frame a (with_state s a)) as Hst by done.
  assert (∀ s e, query_frame a (cancelQuery e (with_state s a))) as Hfin by done.
  assert (∀ e, query_frame a (cancelQuery e a)) as Hfin' by done.
  unfold consumer_step, streaming. destruct (done && negb (c_cancelled c)); [done|].
  destruct (c_pc c) as [| |m|m u|m|m [|r rs]|r| |]; try done; unfold outcome_step, finish.
  - destruct done; [by intros [= <- <-]|]. destruct (queryResultCh a) as [|m rest] eqn:Eq; [done|]. intros [= <- <-].
    split; [|done]. repeat split; try done; cbn in *; destruct H0 as [H1 H2]; rewrite Eq in *; cbn in *; [|lia].
    by rewrite H1, <-app_assoc.
  - destruct done; [by intros [= <- <-]|]. destruct (aq_watchdog a); by intros [= <- <-].
  - destruct u; try (destruct (update_step m _ (aq_state a)) as [[u'|e|k] s]); by intros [= <- <-].
  - destruct (plan_to_send _ _ _ _).1; by intros [= <- <-].
  - destruct (BuildExecuteScriptResponse _ _ _ _).1 as [[r|]|e|k]; by intros [= <- <-].
  - destruct done; by intros [= <- <-].
  - destruct done; [by intros [= <- <-]|]. destruct (response_error r); by intros [= <- <-].
  - destruct (queryComplete (aq_state a)); by intros [= <- <-].
Qed.

Lemma wait_step_frame w a c a' c' :
  wait_step values_order w a c = Some (a', c') → query_frame a a' ∧ c' = with_waiting false c.
Proof.
  unfold wait_step. destruct (c_waiting c); [|done]. cbn. destruct w.
  - destruct (_ || _); [|done]. by intros [= <- <-].
  - destruct (allTablesConnectedCh _); [|done]. by intros [= <- <-].
  - by intros [= <- <-].
Qed.

Lemma producer_step_frame s a p a' p' :
  producer_step s a p = Some (a', p') → query_frame a a' ∧ p_query p' = p_query p.
Proof.
  assert (query_frame a a) as Hrefl by done.
  unfold producer_step. destruct (p_pc p), s; try done; repeat (case_match; try done); intros [= <- <-]; try done.
  split; [|done]. repeat split; try done; destruct H1 as [Hacc Hlen]; cbn; [by rewrite Hacc, app_assoc|].
  rewrite length_app. cbn. apply Nat.ltb_lt in H0. lia.
Qed.

Lemma finv_on_consumer i step f f' :
  finv f →
  (∀ a c a' c', step a c = Some (Ret (a', c')) → query_frame a a' ∧ consumer_frame c c') →
  on_consumer i step f = Some f' → finv f'.
Proof.
  intros Hf Hstep. unfold on_consumer. destruct (consumers f !! i) as [c|] eqn:Ec; [|done]. cbn.
  destruct (aqueries f !! c_query c) as [a|] eqn:Ea; [|done]. cbn.
  destruct (step a c) as [[[a' c']|e|k]|] eqn:Es; try done; cbn; intros [= <-].
  - destruct (Hstep _ _ _ _ Es) as [Hq [Hcq Hs]]. apply finv_upd_consumer.
    + apply finv_upd_query; [done|]. intros a0 Ha0. rewrite Ea in Ha0. by injection Ha0 as <-.
    + intros c0 a0 Hc0 _. cbn in Hc0. rewrite Ec in Hc0. injection Hc0 as <-. split; [done|]. auto.
  - by destruct Hf.
Qed.

Lemma finv_exec act f f' : finv f → exec values_order act f = Some f' → finv f'.
Proof.
  intros Hf. unfold exec. destruct (crashed f); [done|]. destruct act.
  - intros [= <-]. by apply finv_RegisterQuery.
  - intros [= <-]. by apply finv_StreamResults.
  - by apply finv_registerConsumer.
  - unfold register_timeout. destruct (consumers f !! i) as [c|] eqn:Ec; [|done]. cbn. destruct (c_pc c); try done.
    intros [= <-]. by apply finv_upd_consumer.
  - intros [= <-]. by apply finv_cancel.
  - apply finv_on_consumer; [done|]. intros a c a' c' Hs. apply consumer_step_frame in Hs as (? & ? & Hcc & ?).
    split; [done|]. split; [done|]. by rewrite Hcc.
  - apply finv_on_consumer; [done|]. intros a c a' c' Hs. apply fmap_Some in Hs as ([a1 c1] & Hs & [= <- <-]).
    apply wait_step_frame in Hs as [? ->]. done.
  - by apply finv_watchdog_step.
  - intros [= <-]. by apply finv_ForwardQueryResult.
  - intros [= <-]. by destruct Hf.
  - destruct (producers f !! j) as [p|]; [|done]. cbn. destruct (aqueries f !! p_query p) as [a|] eqn:Ea; [|done]. cbn.
    destruct (producer_step s a p) as [[a' p']|] eqn:Es; [|done]. cbn. intros [= <-].
    apply producer_step_frame in Es as [Hq _]. destruct (finv_upd_query (p_query p) (λ _, a') f Hf); [|done].
    intros a0 Ha0. rewrite Ea in Ha0. by injection Ha0 as <-.
  - intros [= <-]. unfold ProducerCancelStream. rewrite get_bind. destruct (activeQueries f !! queryID) as [n|]; [|done].
    apply finv_upd_query; [done|]. by intros a _.
Qed.

Lemma reachable_finv f : reachable values_order f → finv f.
Proof.
  induction 1 as [|f act f' _ IH E]; [|by eapply finv_exec]. split; cbn; try done. intros qid n. split; [done|].
  by intros (a & ? & _).
Qed.
End invariants.

(** ** What holds in every state *)
Section safety.
Context `{U : UUIDLib} `{!Proto compilerpb.CompilerErrorGroup} `{!PlanRenderer}.
Context (values_order : concurrentSet.t → list string).
Implicit Types (f : QueryResultForwarder) (a : activeQuery) (c : consumer).

(** C3: a query is registered exactly as long as its watchdog has not deleted it, so
    that an identifier has at most one live query; as soon as it is deleted its
    producers are told to stop; and its channel holds, within its size, exactly the
    messages that were accepted and not yet taken. *)
Theorem registered_until_deleted f :
  reachable values_order f →
  (∀ qid n, activeQueries f !! qid = Some n ↔ ∃ a, aqueries f !! n = Some a ∧ aq_id a = qid ∧ live (aq_watchdog a) = true) ∧
  (∀ n a, aqueries f !! n = Some a → producerDone a = negb (live (aq_watchdog a)) ∧
     aq_accepted a = aq_taken a ++ queryResultCh a ∧ length (queryResultCh a) ≤ activeQueryBufferSize).
Proof. intros [Hact Hq _]%reachable_finv. by split. Qed.

(** C9: however the calls are interleaved, at most one consumer of a query streams
    with a context that is not cancelled, and it is the one the watchdog will
    cancel when the query ends. *)
Theorem one_live_consumer f i j ci cj :
  reachable values_order f → consumers f !! i = Some ci → consumers f !! j = Some cj → c_query ci = c_query cj →
  streaming ci = true → streaming cj = true → c_cancelled ci = false → c_cancelled cj = false →
  i = j ∧ ∃ a, aqueries f !! c_query ci = Some a ∧ held (aq_watchdog a) = Some i.
Proof.
  intros [_ _ Hc]%reachable_finv Hi Hj Hq Hsi Hsj Hci Hcj.
  destruct (Hc i ci Hi) as (a & Ha & Hhi). destruct (Hc j cj Hj) as (a' & Ha' & Hhj).
  specialize (Hhi Hsi Hci). specialize (Hhj Hsj Hcj). split; [congruence|by exists a].
Qed.

(** ** The end of a query *)

(** The steps a point of [updateQueryState] is away from its end. *)
Definition update_rank (u : update_pc) : nat :=
  match u with
  | UStart => 6 | URemove _ _ => 5 | USize _ _ => 4 | UClose _ _ => 3 | UEos _ _ => 2 | UEosRemove _ | UStats => 1
  | UDone => 0
  end.

(** The steps of a cancelled consumer to its return. *)
Definition consumer_rank (pc : consumer_pc) : nat :=
  match pc with
  | CRegister | CReturned _ => 0 | CLoop => 1 | CCheck => 2 | CSend _ => 3 | CPlan _ _ => 4 | CAfter _ => 5
  | CUpdate _ u => 6 + update_rank u | CHealth _ => 13
  end.

Lemma update_step_rank m u st u' st' : update_step m u st = (Ret u', st') → u ≠ UDone → update_rank u' < update_rank u.
Proof.
  destruct u; cbn [update_step]; try done; intros E _; unfold mbind, M_bind, get_state, modify, close_connected, put_state in E;
    repeat (case_match; simplify_eq/=; try done); injection E as <- <-; cbn; lia.
Qed.

(** A cancelled consumer that streams has a step, which brings it nearer to its
    return, unless it panics. *)
Lemma cancelled_consumer_step a c :
  c_cancelled c = true → streaming c = true →
  match consumer_step true a c with
  | Some (Ret (a', c')) => consumer_rank (c_pc c') < consumer_rank (c_pc c) ∧ c_cancelled c' = true ∧ c_query c' = c_query c ∧
      c_pc c' ≠ CRegister
  | Some (Crash _) => True
  | _ => False
  end.
Proof.
  intros Hcc Hs. unfold consumer_step, streaming in *. rewrite Hcc. cbn [negb andb]. unfold outcome_step, finish.
  destruct (c_pc c) as [| |m|m u|m|m [|r rs]|r| |] eqn:Epc; try done; cbn; rewrite ?Hcc; try (split_and!; [lia|done..]).
  - destruct u; try (destruct (update_step m _ (aq_state a)) as [[u'|e|k] st] eqn:Es); try done; cbn;
      (split_and!; [|done..]); try lia; apply update_step_rank in Es; cbn in *; try done; lia.
  - destruct (plan_to_send _ _ _ _).1; [| |done]; cbn; (split_and!; [lia|done..]).
  - destruct (BuildExecuteScriptResponse _ _ _ _).1 as [[r|]|e|k]; try done; cbn; (split_and!; [lia|done..]).
  - destruct (queryComplete (aq_state a)); cbn; (split_and!; [lia|done..]).
Qed.

Definition returned f (i : nat) : Prop := ∃ c err, consumers f !! i = Some c ∧ c_pc c = CReturned err.

Lemma cancelled_consumer_returns k f i c :
  finv f → crashed f = None → consumers f !! i = Some c → c_cancelled c = true → streaming c = true →
  consumer_rank (c_pc c) ≤ k →
  ∃ acts f', run values_order acts f = Some f' ∧ Forall (λ act, act = AConsumer i true) acts ∧ length acts ≤ k ∧
    (is_Some (crashed f') ∨ returned f' i).
Proof.
  revert f c. induction k as [|k IH]; intros f c Hf Hcr Hi Hcc Hs Hk.
  { unfold streaming in Hs. destruct (c_pc c); cbn in Hk; try done; lia. }
  destruct (inv_consumer f Hf i c Hi) as (a & Ha & _). pose proof (cancelled_consumer_step a c Hcc Hs) as Hstep.
  destruct (consumer_step true a c) as [[[a' c']|e|kk]|] eqn:Es; try done.
  - destruct Hstep as (Hr & Hcc' & Hq' & Hreg).
    set (f1 := upd_consumer i (λ _, c') (upd_query (c_query c) (λ _, a') f)).
    assert (exec values_order (AConsumer i true) f = Some f1) as E1.
    { unfold exec. rewrite Hcr. unfold on_consumer. rewrite Hi. cbn. rewrite Ha. cbn. by rewrite Es. }
    assert (consumers f1 !! i = Some c') as Hi1.
    { unfold f1. rewrite lookup_upd_consumer, decide_True by done. cbn. by rewrite Hi. }
    destruct (streaming c') eqn:Es'.
    + destruct (IH f1 c') as (acts & f' & Hrun & Hall & Hlen & Hend); [by eapply finv_exec|done..|lia|].
      exists (AConsumer i true :: acts), f'. cbn [run]. rewrite E1. split_and!; [done|by constructor|cbn; lia|done].
    + exists [AConsumer i true], f1. cbn [run]. rewrite E1. split_and!; [done|by constructor|cbn; lia|].
      right. unfold streaming in Es'. exists c'. destruct (c_pc c'); try done. eauto.
  - eexists [AConsumer i true], _. cbn [run]. unfold exec. rewrite Hcr. unfold on_consumer. rewrite Hi. cbn. rewrite Ha. cbn.
    rewrite Es. cbn. split_and!; [done|by constructor|lia|]. left. cbn. by eexists.
Qed.

(** The watchdog's context is cancelled, or it has left its loop. *)
Definition ending a : bool := match aq_watchdog a with WLoop _ => aq_cancelled a | _ => true end.

Definition watchdog_rank (w : watchdog_pc) : nat :=
  match w with WLoop _ => 3 | WDelete _ => 2 | WCancel _ => 1 | WExited => 0 end.

Lemma watchdog_one_step f n a :
  crashed f = None → aqueries f !! n = Some a → ending a = true → aq_watchdog a ≠ WExited →
  ∃ f' a', exec values_order (AWatchdog n WatchdogStep) f = Some f' ∧ aqueries f' !! n = Some a' ∧ aq_id a' = aq_id a ∧
    ending a' = true ∧ S (watchdog_rank (aq_watchdog a')) = watchdog_rank (aq_watchdog a) ∧ crashed f' = None.
Proof.
  intros Hcr Ha He Hw. unfold exec. rewrite Hcr. unfold watchdog_step. rewrite Ha. cbn. unfold ending in He.
  destruct (aq_watchdog a) as [o|o|o|] eqn:Ew; [| | |done].
  - rewrite He. exists (upd_query n (with_watchdog (WDelete o)) f), (with_watchdog (WDelete o) a).
    by rewrite lookup_upd_query, decide_True, Ha by done.
  - eexists _, (with_watchdog (WCancel o) (with_producers_done a)). split; [done|].
    change (aqueries (set_active ?x ?y)) with (aqueries y). by rewrite lookup_upd_query, decide_True, Ha by done.
  - eexists _, (with_watchdog WExited a). split; [done|]. rewrite lookup_upd_query, decide_True by done.
    destruct o; cbn; by rewrite Ha.
Qed.

Lemma watchdog_exits k f n a :
  crashed f = None → aqueries f !! n = Some a → ending a = true → watchdog_rank (aq_watchdog a) = k →
  ∃ f' a', run values_order (replicate k (AWatchdog n WatchdogStep)) f = Some f' ∧
    aqueries f' !! n = Some a' ∧ aq_id a' = aq_id a ∧ aq_watchdog a' = WExited ∧ crashed f' = None.
Proof.
  revert f a. induction k as [|k IH]; intros f a Hcr Ha He Hk.
  { exists f, a. split_and!; [done..| |done]. by destruct (aq_watchdog a). }
  destruct (watchdog_one_step f n a Hcr Ha He) as (f1 & a1 & E1 & Ha1 & Hid1 & He1 & Hk1 & Hcr1).
  { intros Hw. by rewrite Hw in Hk. }
  destruct (IH f1 a1 Hcr1 Ha1 He1 ltac:(lia)) as (f2 & a2 & E2 & Ha2 & Hid2 & Hw2 & Hcr2).
  exists f2, a2. cbn [replicate run]. rewrite E1. cbn. split_and!; [done..|congruence|done|done].
Qed.

(** C25: a query whose watchdog is told to stop ends: at most three steps of the
    watchdog lead to a state in which the query is not registered, its producers are
    told to stop and every consumer that is still streaming is cancelled; and each of
    these then has a run of at most thirteen steps of its own, taking the cancelled case
    of its selects, after which it has returned or the process has panicked. *)
Theorem cancelled_query_ends f n a :
  reachable values_order f → crashed f = None → aqueries f !! n = Some a → ending a = true →
  ∃ k f' a', k ≤ 3 ∧ run values_order (replicate k (AWatchdog n WatchdogStep)) f = Some f' ∧
    activeQueries f' !! aq_id a ≠ Some n ∧ aqueries f' !! n = Some a' ∧ producerDone a' = true ∧
    ∀ i c, consumers f' !! i = Some c → c_query c = n → streaming c = true →
      c_cancelled c = true ∧
      ∃ acts f'', length acts ≤ 13 ∧ Forall (λ act, act = AConsumer i true) acts ∧
        run values_order acts f' = Some f'' ∧ (is_Some (crashed f'') ∨ returned f'' i).
Proof.
  intros Hr Hcr Ha He.
  destruct (watchdog_exits _ f n a Hcr Ha He eq_refl) as (f' & a' & Hrun & Ha' & Hid & Hw & Hcr').
  pose proof (reachable_finv _ _ (reachable_run _ _ _ _ Hr Hrun)) as Hf'.
  exists (watchdog_rank (aq_watchdog a)), f', a'. split_and!; [destruct (aq_watchdog a); cbn; lia|done|..].
  - intros Hn. apply (inv_active f' Hf') in Hn as (a0 & Ha0 & _ & Hl). rewrite Ha' in Ha0. injection Ha0 as <-.
    by rewrite Hw in Hl.
  - done.
  - destruct (inv_query f' Hf' n a' Ha') as [Hp _]. by rewrite Hp, Hw.
  - intros i c Hi Hq Hs. destruct (inv_consumer f' Hf' i c Hi) as (a0 & Ha0 & Hh). rewrite Hq, Ha' in Ha0.
    injection Ha0 as <-. rewrite Hw in Hh. destruct (c_cancelled c) eqn:Hcc; [|by specialize (Hh Hs eq_refl)].
    split; [done|]. destruct (cancelled_consumer_returns 13 f' i c Hf' Hcr' Hi Hcc Hs) as (acts & f'' & ? & ? & ? & ?).
    { destruct (c_pc c) as [| |m|m []|m|m rs|r| |]; cbn; lia. }
    eauto 10.
Qed.
End safety.
