(* ===== verification/StreamRun.v ===== *)
(** * One consumer of a query

    What [StreamResults] sends to a client that is the only one of its query and
    whose context is not cancelled: the concurrent program of [ResultForwarder]
    does what the sequential loop of [ActiveQuery] does on the messages that the
    agents have sent. *)

From S2P Require Import Prelude GoLib Uuid Messages QueryMessages QueryProto ActiveQuery ResultForwarder.
From Stdlib Require Import Ascii.

Section refinement.
Context `{U : UUIDLib} `{!Proto compilerpb.CompilerErrorGroup} `{!PlanRenderer}.
Context (values_order : concurrentSet.t → list string).
Implicit Types (f : QueryResultForwarder) (a : activeQuery) (c : consumer) (m : msg) (s : stream) (st : query_state).

(** ** The sequential loop *)

Definition start (q : query_info) : stream := mkStream (init_state (tableIDMap q)) [].

Lemma stream_loop_app q id ms rest s s' :
  stream_loop q id ms s = (Ret None, s') → stream_loop q id (ms ++ rest) s = stream_loop q id rest s'.
Proof.
  revert s. induction ms as [|m ms IH]; intros s; cbn [app stream_loop].
  { intros E. injection E as <-. done. }
  intros E. apply bind_Ret_inv in E as (x & s1 & H1 & E). rewrite get_bind in E. rewrite (bind_ret _ _ _ _ _ H1), get_bind.
  destruct (queryComplete (s_query s1)); [by injection E|]. by apply IH.
Qed.

Lemma handleRequest_error q id m s e st1 :
  updateQueryState m (s_query s) = (Err e, st1) → handleRequest q id m s = (Err e, mkStream st1 (s_out s)).
Proof.
  intros Hu. unfold handleRequest. apply bind_err. unfold on_query, zoom. by rewrite Hu.
Qed.

(** The rest of a request, after the state is updated. *)
Definition request_rest (q : query_info) (id : uuid) m st1 (out : list response) : outcome unit * stream :=
  let st2 := keep_stats m st1 in
  match (plan_to_send q id st2 tt).1 with
  | Ret rs =>
    match build q m with
    | Ret None => (Ret tt, mkStream st2 (out ++ rs))
    | Ret (Some r) =>
      (match response_error r with Some e => Err e | None => Ret tt end, mkStream st2 ((out ++ rs) ++ [r]))
    | Err e => (Err e, mkStream st2 (out ++ rs))
    | Crash k => (Crash k, mkStream st2 (out ++ rs))
    end
  | Err e => (Err e, mkStream st2 out)
  | Crash k => (Crash k, mkStream st2 out)
  end.

Lemma handleRequest_eq q id m s st1 :
  updateQueryState m (s_query s) = (Ret tt, st1) → handleRequest q id m s = request_rest q id m st1 (s_out s).
Proof.
  intros Hu. unfold handleRequest, request_rest.
  rewrite (bind_ret (on_query (updateQueryState m)) _ s tt (mkStream st1 (s_out s)))
    by (unfold on_query, zoom; by rewrite Hu).
  rewrite (bind_ret (on_query (modify (keep_stats m))) _ (mkStream st1 (s_out s)) tt
    (mkStream (keep_stats m st1) (s_out s)) eq_refl), get_bind. cbn [s_query].
  unfold mbind, M_bind, pure_call. destruct (plan_to_send q id (keep_stats m st1) tt).1 as [rs|e|k]; [|done..].
  cbn. fold (build q m). destruct (build q m) as [[r|]|e|k]; [|done..]. cbn. by destruct (response_error r).
Qed.

(** ** The state of the consumer and of its query *)

Definition fresh a : Prop := aq_state a = init_state (tableIDMap (aq_info a)) ∧ aq_taken a = [].

(** The loop has handled [ms]. *)
Definition handled_by a (ms : list msg) s : Prop :=
  stream_loop (aq_info a) (aq_id a) ms (start (aq_info a)) = (Ret None, s).

(** In the middle of the request [m], which began at [s]. *)
Definition in_request a c m s : Prop :=
  match c_pc c with
  | CHealth m' => m' = m ∧ aq_state a = s_query s ∧ c_out c = s_out s
  | CUpdate m' p =>
    m' = m ∧ c_out c = s_out s ∧ ∃ k, update_from k m p (aq_state a) = updateQueryState m (s_query s)
  | CAfter m' => m' = m ∧ c_out c = s_out s ∧ updateQueryState m (s_query s) = (Ret tt, aq_state a)
  | CPlan m' rs =>
    m' = m ∧ ∃ st1 sent, updateQueryState m (s_query s) = (Ret tt, st1) ∧ aq_state a = keep_stats m st1 ∧
      (plan_to_send (aq_info a) (aq_id a) (keep_stats m st1) tt).1 = Ret (sent ++ rs) ∧ c_out c = s_out s ++ sent
  | CSend r =>
    ∃ st1 plan, updateQueryState m (s_query s) = (Ret tt, st1) ∧ aq_state a = keep_stats m st1 ∧
      (plan_to_send (aq_info a) (aq_id a) (keep_stats m st1) tt).1 = Ret plan ∧ c_out c = s_out s ++ plan ∧
      build (aq_info a) m = Ret (Some r)
  | CCheck =>
    ∃ s', handleRequest (aq_info a) (aq_id a) m s = (Ret tt, s') ∧ aq_state a = s_query s' ∧ c_out c = s_out s'
  | _ => False
  end.

Definition run_at a c : Prop :=
  match c_pc c with
  | CRegister => fresh a ∧ c_out c = []
  | CLoop => ∃ s, handled_by a (aq_taken a) s ∧ aq_state a = s_query s ∧ c_out c = s_out s
  | CReturned None =>
    ∃ s, stream_loop (aq_info a) (aq_id a) (aq_taken a) (start (aq_info a)) = (Ret (Some []), s) ∧ c_out c = s_out s
  | CReturned (Some e) =>
    (fresh a ∧ c_out c = [] ∧ e = err_register) ∨
    ∃ s, stream_loop (aq_info a) (aq_id a) (aq_taken a) (start (aq_info a)) = (Err e, s) ∧ c_out c = s_out s
  | _ => ∃ ms m s, aq_taken a = ms ++ [m] ∧ handled_by a ms s ∧ in_request a c m s
  end.

(** The loop on one more message. *)
Lemma stream_loop_snoc q id ms m s :
  stream_loop q id ms (start q) = (Ret None, s) →
  stream_loop q id (ms ++ [m]) (start q) =
    (_ ← handleRequest q id m; s ← get_state; if queryComplete (s_query s) then mret (Some []) else mret None) s.
Proof. intros E. by rewrite (stream_loop_app _ _ _ _ _ _ E). Qed.

(** An error in a request. *)
Lemma run_at_error a c ms m s e s' :
  aq_taken a = ms ++ [m] → handled_by a ms s → handleRequest (aq_info a) (aq_id a) m s = (Err e, s') →
  c_out c = s_out s' → run_at (cancelQuery (Some e) a) (with_pc (CReturned (Some e)) c).
Proof.
  intros Ht Hh Hreq Ho. unfold run_at. cbn. right. exists s'. rewrite Ht. split; [|done].
  rewrite (stream_loop_snoc _ _ _ _ _ Hh). by apply bind_err.
Qed.

Lemma run_at_check a c ms m s s' :
  aq_taken a = ms ++ [m] → handled_by a ms s → handleRequest (aq_info a) (aq_id a) m s = (Ret tt, s') →
  aq_state a = s_query s' → c_out c = s_out s' → run_at a (with_pc CCheck c).
Proof. intros. unfold run_at. cbn. exists ms, m, s. split_and!; [done..|]. unfold in_request. cbn. by exists s'. Qed.

(** A step of the consumer itself. *)
Lemma run_at_update a c ms m s u o st :
  aq_taken a = ms ++ [m] → handled_by a ms s → c_pc c = CUpdate m u → u ≠ UDone → c_out c = s_out s →
  (∃ k, update_from k m u (aq_state a) = updateQueryState m (s_query s)) →
  update_step m u (aq_state a) = (o, st) →
  match o with
  | Ret u' => run_at (with_state st a) (with_pc (CUpdate m u') c)
  | Err e => run_at (cancelQuery (Some e) (with_state st a)) (with_pc (CReturned (Some e)) c)
  | Crash _ => True
  end.
Proof.
  intros Ht Hh Hpc Hu Ho (k & Hk) Hs.
  assert (∃ k', update_from k m u (aq_state a) = (p' ← update_step m u; update_from k' m p') (aq_state a)
    ∨ k = 0) as (k' & [Hk'|Hk']).
  { destruct k as [|k]; [by exists 0; right|]. exists k. left. by apply update_from_S. }
  2: { subst k. destruct (updateQueryState_never_hangs m (s_query s)). rewrite <-Hk. by destruct u. }
  rewrite Hk in Hk'. unfold mbind, M_bind in Hk'. rewrite Hs in Hk'. destruct o as [u'|e|kk]; [| |done].
  - unfold run_at. cbn. exists ms, m, s. split_and!; [done..|]. by exists k'.
  - eapply run_at_error; [done|done|by eapply handleRequest_error|done].
Qed.

Lemma run_at_step a c a' c' :
  c_cancelled c = false → run_at a c → consumer_step false a c = Some (Ret (a', c')) → run_at a' c'.
Proof.
  intros Hcc Hr. unfold consumer_step. cbn [andb]. unfold outcome_step, finish.
  destruct (c_pc c) as [| |m'|m' u|m'|m' [|r rs]|r| |] eqn:Epc; unfold run_at in Hr; rewrite Epc in Hr; try done.
  all: try (destruct Hr as (ms & m & s & Ht & Hh & Hin); unfold in_request in Hin; rewrite Epc in Hin).
  - destruct Hr as (s & Hh & Hst & Ho). destruct (queryResultCh a) as [|m rest] eqn:Eq; [done|].
    intros [= <- <-]. unfold run_at. cbn. exists (aq_taken a), m, s. by split_and!.
  - destruct Hin as (-> & Hst & Ho). destruct (aq_watchdog a); [|done..]. intros [= <- <-].
    unfold run_at. cbn. exists ms, m, s. split_and!; [done..|].
    exists 6. rewrite Hst. apply update_steps_run.
  - destruct Hin as (-> & Ho & Hk).
    destruct (decide (u = UDone)) as [->|Hu].
    + intros [= <- <-]. unfold run_at. cbn. exists ms, m, s. split_and!; [done..|].
      destruct Hk as (k & <-). by destruct k.
    + destruct (update_step m u (aq_state a)) as [o st] eqn:Es.
      pose proof (run_at_update a c ms m s u o st Ht Hh Epc Hu Ho Hk Es) as Hnext.
      destruct u; try done; destruct o; try done; by intros [= <- <-].
  - destruct Hin as (-> & Ho & Hu). pose proof (handleRequest_eq (aq_info a) (aq_id a) m s _ Hu) as Hreq.
    unfold request_rest in Hreq. cbn [aq_info aq_id aq_state with_state].
    destruct (plan_to_send (aq_info a) (aq_id a) (keep_stats m (aq_state a)) tt).1 as [plan|e|k] eqn:Ep; [..|done];
      intros [= <- <-].
    + unfold run_at. cbn. exists ms, m, s. split_and!; [done..|]. exists (aq_state a), [].
      split_and!; [done..|]. by rewrite app_nil_r.
    + by eapply run_at_error.
  - destruct Hin as (-> & st1 & sent & Hu & Hst & Hp & Ho). rewrite app_nil_r in Hp.
    pose proof (handleRequest_eq (aq_info a) (aq_id a) m s _ Hu) as Hreq. unfold request_rest in Hreq. rewrite Hp in Hreq.
    fold (build (aq_info a) m). destruct (build (aq_info a) m) as [[r|]|e|k] eqn:Eb; [..|done]; intros [= <- <-].
    + unfold run_at. cbn. exists ms, m, s. split_and!; [done..|]. unfold in_request. cbn. by exists st1, sent.
    + by eapply run_at_check.
    + by eapply run_at_error.
  - destruct Hin as (-> & st1 & sent & Hu & Hst & Hp & Ho). intros [= <- <-].
    unfold run_at. cbn. exists ms, m, s. split_and!; [done..|]. exists st1, (sent ++ [r]).
    split_and!; [done..|by rewrite <-app_assoc|by rewrite Ho, app_assoc].
  - destruct Hin as (st1 & plan & Hu & Hst & Hp & Ho & Eb).
    pose proof (handleRequest_eq (aq_info a) (aq_id a) m s _ Hu) as Hreq. unfold request_rest in Hreq. rewrite Hp, Eb in Hreq.
    destruct (response_error r) as [e|]; intros [= <- <-].
    + eapply run_at_error; [done..|]. cbn. by rewrite Ho.
    + eapply run_at_check; [done..|]. cbn. by rewrite Ho.
  - destruct Hin as (s' & Hreq & Hst & Ho). pose proof (stream_loop_snoc _ _ _ m _ Hh) as Hloop.
    rewrite (bind_ret _ _ _ _ _ Hreq), get_bind, <-Hst, <-Ht in Hloop.
    destruct (queryComplete (aq_state a)); intros [= <- <-]; unfold run_at; cbn; by exists s'.
Qed.

(** ** All steps *)

(** The only call of [StreamResults] there has been for a query. *)
Definition sole f (n i : nat) : Prop := ∀ j c, consumers f !! j = Some c → c_query c = n → j = i.

Definition unused f (n : nat) : Prop := ∀ j c, consumers f !! j = Some c → c_query c ≠ n.

Record sinv f : Prop := {
  sinv_unused n a : aqueries f !! n = Some a → unused f n → fresh a;
  sinv_sole i c a : consumers f !! i = Some c → aqueries f !! c_query c = Some a → sole f (c_query c) i →
    c_cancelled c = false → run_at a c
}.

(** What [run_at] reads of a query. *)
Definition same_core a a' : Prop :=
  aq_id a' = aq_id a ∧ aq_info a' = aq_info a ∧ aq_state a' = aq_state a ∧ aq_taken a' = aq_taken a.

Lemma run_at_core a a' c c' :
  same_core a a' → c_pc c' = c_pc c → c_out c' = c_out c → run_at a c → run_at a' c'.
Proof.
  intros (H1 & H2 & H3 & H4) Hpc Ho. unfold run_at, in_request, handled_by, fresh. by rewrite H1, H2, H3, H4, Hpc, Ho.
Qed.

(** A consumer that was at most cancelled. *)
Definition consumer_kept c c' : Prop :=
  c_query c' = c_query c ∧ c_pc c' = c_pc c ∧ c_out c' = c_out c ∧ (c_cancelled c' = false → c_cancelled c = false).

(** Steps that change neither the program counter of a consumer nor what it reads. *)
Definition same_streams f f' : Prop :=
  (∀ n a', aqueries f' !! n = Some a' → ∃ a, aqueries f !! n = Some a ∧ same_core a a') ∧
  length (consumers f') = length (consumers f) ∧
  (∀ i c c', consumers f !! i = Some c → consumers f' !! i = Some c' → consumer_kept c c').

Lemma same_streams_consumer f f' i c' :
  same_streams f f' → consumers f' !! i = Some c' → ∃ c, consumers f !! i = Some c ∧ consumer_kept c c'.
Proof.
  intros (_ & Hlen & Hc) Hi. destruct (lookup_lt_is_Some_2 (consumers f) i) as [c E].
  { rewrite <-Hlen. by eapply lookup_lt_Some. }
  exists c. split; [done|]. by eapply Hc.
Qed.

Lemma same_streams_back f f' i c :
  same_streams f f' → consumers f !! i = Some c → ∃ c', consumers f' !! i = Some c' ∧ consumer_kept c c'.
Proof.
  intros (_ & Hlen & Hc) Hi. destruct (lookup_lt_is_Some_2 (consumers f') i) as [c' E].
  { rewrite Hlen. by eapply lookup_lt_Some. }
  exists c'. split; [done|]. by eapply Hc.
Qed.

Lemma sinv_frame f f' : same_streams f f' → sinv f → sinv f'.
Proof.
  intros Hs [Hu Hr]. split.
  - intros n a' Ha' Hun. destruct Hs as [Hq Hs']. destruct (Hq n a' Ha') as (a & Ha & (_ & H2 & H3 & H4)).
    destruct (Hu n a Ha) as [Hi Ht]; [|split; congruence].
    intros j c Hj Hn. destruct (same_streams_back f f' j c (conj Hq Hs') Hj) as (c' & Hj' & Hcq & _). apply (Hun j c' Hj'). congruence.
  - intros i c' a' Hi' Ha' Hsole Hcc. destruct (same_streams_consumer f f' i c' Hs Hi') as (c & Hi & Hcq & Hpc & Ho & Hcc0). destruct (proj1 Hs _ _ Ha') as (a & Ha & Hcore). rewrite Hcq in Ha, Hsole.
    apply (run_at_core a a' c c' Hcore Hpc Ho). apply (Hr i c a Hi Ha); [|by apply Hcc0].
    intros j cj Hj Hjn. destruct (same_streams_back f f' j cj Hs Hj) as (cj' & Hj' & Hjq & _). apply (Hsole j cj' Hj'). congruence.
Qed.

(** A step of one consumer and its query. *)
Lemma sinv_pair f i c a a' c' :
  sinv f → consumers f !! i = Some c → aqueries f !! c_query c = Some a → c_query c' = c_query c →
  (c_cancelled c' = false → c_cancelled c = false ∧ (run_at a c → run_at a' c')) →
  sinv (upd_consumer i (λ _, c') (upd_query (c_query c) (λ _, a') f)).
Proof.
  intros [Hu Hr] Hi Ha Hcq Hstep.
  assert (∀ j cj, consumers f !! j = Some cj → ∃ cj',
    consumers (upd_consumer i (λ _, c') (upd_query (c_query c) (λ _, a') f)) !! j = Some cj' ∧ c_query cj' = c_query cj) as Hback.
  { intros j cj Hj. rewrite lookup_upd_consumer. cbn [consumers upd_query]. rewrite Hj. case_decide as E; [subst j|by exists cj].
    exists c'. split; [done|]. rewrite Hi in Hj. injection Hj as <-. done. }
  split.
  - intros n x Hx Hun. change (aqueries (upd_consumer _ _ ?y)) with (aqueries y) in Hx. rewrite lookup_upd_query in Hx.
    case_decide as E.
    + destruct (Hback i c Hi) as (ci & Hci & Hq). destruct (Hun i ci Hci). congruence.
    + apply (Hu n x Hx). intros j cj Hj Hn. destruct (Hback j cj Hj) as (cj' & Hj' & Hq). apply (Hun j cj' Hj'). congruence.
  - intros k ck x Hk Hx Hsole Hcc. change (aqueries (upd_consumer _ _ ?y)) with (aqueries y) in Hx.
    assert (sole f (c_query ck) k) as Hsole0.
    { intros j cj Hj Hn. destruct (Hback j cj Hj) as (cj' & Hj' & Hq). apply (Hsole j cj' Hj'). congruence. }
    rewrite lookup_upd_consumer in Hk. rewrite lookup_upd_query in Hx. cbn [consumers upd_query] in Hk.
    destruct (decide (i = k)) as [Ek|Ek]; [subst k|].
    + rewrite Hi in Hk. injection Hk as <-. rewrite Hcq, decide_True in Hx by done. rewrite Ha in Hx. injection Hx as <-.
      destruct (Hstep Hcc) as [Hcc0 Hrun]. apply Hrun. rewrite Hcq in Hsole0. by apply (Hr i c a).
    + destruct (decide (c_query c = c_query ck)) as [En|En]; [|by apply (Hr k ck x)].
      destruct Ek. by apply (Hsole0 i c Hi).
Qed.

Lemma same_streams_upd_query n g f :
  (∀ a, aqueries f !! n = Some a → same_core a (g a)) → same_streams f (upd_query n g f).
Proof.
  intros Hg. split_and!; [|done|intros i c c' H1 H2; cbn in H2; by rewrite H1 in H2; injection H2 as <-].
  intros k a'. rewrite lookup_upd_query. case_decide; [subst|by exists a'].
  intros (a & Ha & ->)%fmap_Some. exists a. auto.
Qed.

Lemma same_streams_upd_consumer i g f :
  (∀ c, consumers f !! i = Some c → consumer_kept c (g c)) → same_streams f (upd_consumer i g f).
Proof.
  intros Hg. split_and!; [by intros n a Ha; exists a|cbn; by rewrite length_alter|].
  intros k c c' Hk. rewrite lookup_upd_consumer, Hk. case_decide; [subst|by intros [= <-]]. intros [= <-]. auto.
Qed.

Lemma same_streams_cancel i f : same_streams f (upd_consumer i cancel_ctx f).
Proof. apply same_streams_upd_consumer. intros c _. unfold cancel_ctx. by destruct (c_pc c) eqn:E; cbn; rewrite ?E. Qed.

Lemma same_streams_trans f1 f2 f3 : same_streams f1 f2 → same_streams f2 f3 → same_streams f1 f3.
Proof.
  intros H12 H23. split_and!.
  - intros n a3 Ha3. destruct (proj1 H23 _ _ Ha3) as (a2 & Ha2 & (? & ? & ? & ?)).
    destruct (proj1 H12 _ _ Ha2) as (a1 & Ha1 & (? & ? & ? & ?)). exists a1. split; [done|]. split_and!; congruence.
  - destruct H12 as (_ & ? & _), H23 as (_ & ? & _). congruence.
  - intros i c1 c3 Hc1 Hc3. destruct (same_streams_consumer _ _ _ _ H23 Hc3) as (c2 & Hc2 & ? & ? & ? & ?).
    destruct (proj2 (proj2 H12) i c1 c2 Hc1 Hc2) as (? & ? & ? & ?). split_and!; [congruence..|auto].
Qed.

Lemma same_streams_cancel_held o f :
  same_streams f (match o with Some i => upd_consumer i cancel_ctx f | None => f end).
Proof. destruct o; [apply same_streams_cancel|]. split_and!; [by intros n a; exists a|done|]. intros; simplify_eq; done. Qed.

Lemma watchdog_same_streams w n f f' : watchdog_step w n f = Some f' → same_streams f f'.
Proof.
  unfold watchdog_step. destruct (aqueries f !! n) as [a|]; [|done]. cbn.
  destruct (aq_watchdog a), w; try done.
  - intros [= <-]. by apply same_streams_upd_query.
  - intros [= <-]. by apply same_streams_upd_query.
  - destruct (aq_cancelled a); [|done]. intros [= <-]. by apply same_streams_upd_query.
  - intros [= <-]. by apply (same_streams_upd_query n).
  - intros [= <-]. eapply same_streams_trans; [apply same_streams_cancel_held|]. by apply same_streams_upd_query.
Qed.

Lemma sinv_RegisterQuery qid info f : finv f → sinv f → sinv (RegisterQuery qid info f).2.
Proof.
  intros Hf [Hu Hr]. unfold RegisterQuery. rewrite get_bind. destruct (activeQueries f !! qid); [by split|]. cbn. split; cbn.
  - intros n a [Ha|[_ Ha]]%lookup_app_Some; [by apply Hu|]. apply list_lookup_singleton_Some in Ha as [_ <-]. by intros _.
  - intros i c a Hi Ha Hsole Hcc. destruct (inv_consumer f Hf i c Hi) as (a0 & Ha0 & _).
    rewrite lookup_app_l in Ha by (by eapply lookup_lt_Some). by apply (Hr i c a).
Qed.

Lemma sinv_StreamResults qid f : sinv f → sinv (StreamResults qid f).2.
Proof.
  intros [Hu Hr]. unfold StreamResults. rewrite get_bind. destruct (activeQueries f !! qid) as [n|]; [|by split]. cbn.
  assert (∀ j cj, consumers f !! j = Some cj → (consumers f ++ [mkConsumer n false CRegister false []]) !! j = Some cj) as Hback.
  { intros j cj Hj. by rewrite lookup_app_l by (by eapply lookup_lt_Some). }
  split; cbn.
  - intros k a Ha Hun. apply (Hu k a Ha). intros j cj Hj. by apply (Hun j cj), Hback.
  - intros i c a Hi Ha Hsole Hcc.
    apply lookup_app_Some in Hi as [Hi|[Hge Hi]].
    + apply (Hr i c a); [done..| |done]. intros j cj Hj. by apply Hsole, Hback.
    + apply list_lookup_singleton_Some in Hi as [Hi <-]. unfold run_at. cbn. split; [|done]. apply (Hu _ a Ha).
      intros j cj Hj Hn. pose proof (Hsole j cj (Hback j cj Hj) Hn). apply lookup_lt_Some in Hj. lia.
Qed.

Lemma upd_consumer_const i g f c : consumers f !! i = Some c → upd_consumer i g f = upd_consumer i (λ _, g c) f.
Proof.
  intros Hc. unfold upd_consumer. f_equal. apply list_eq. intros k.
  destruct (decide (i = k)) as [->|Hne]; [by rewrite !list_lookup_alter_eq, Hc|by rewrite !list_lookup_alter_ne].
Qed.

Lemma upd_query_same n f a : aqueries f !! n = Some a → upd_query n (λ _, a) f = f.
Proof.
  intros Ha. destruct f as [act qs cs ps cr]. unfold upd_query. cbn in *. f_equal. apply list_eq. intros k.
  destruct (decide (n = k)) as [->|Hne]; [by rewrite list_lookup_alter_eq, Ha|by rewrite list_lookup_alter_ne].
Qed.

(** A change of one consumer. *)
Lemma sinv_consumer f i g c a :
  sinv f → consumers f !! i = Some c → aqueries f !! c_query c = Some a → c_query (g c) = c_query c →
  (c_cancelled (g c) = false → c_cancelled c = false ∧ (run_at a c → run_at a (g c))) → sinv (upd_consumer i g f).
Proof.
  intros Hs Hi Ha Hq Hstep. rewrite (upd_consumer_const _ _ _ _ Hi).
  rewrite <-(upd_query_same _ _ _ Ha). by apply (sinv_pair f i c a a).
Qed.

Lemma producer_step_core sel a p a' p' : producer_step sel a p = Some (a', p') → same_core a a'.
Proof.
  unfold producer_step. destruct (p_pc p), sel; try done; repeat (case_match; try done); by intros [= <- <-].
Qed.

Lemma wait_step_core w a c a' c' : wait_step values_order w a c = Some (a', c') → same_core a a'.
Proof.
  unfold wait_step. destruct (c_waiting c); [|done]. cbn. destruct w; try (case_match; [|done]); by intros [= <- <-].
Qed.

Lemma sinv_registerConsumer i f f' : sinv f → registerConsumer i f = Some f' → sinv f'.
Proof.
  intros Hs. unfold registerConsumer. destruct (consumers f !! i) as [c|] eqn:Ec; [|done]. cbn.
  destruct (aqueries f !! c_query c) as [a|] eqn:Ea; [|done]. cbn.
  destruct (c_pc c) eqn:Epc, (aq_watchdog a) as [old| | |] eqn:Ew; try done. intros [= <-].
  pose proof (same_streams_cancel_held old f) as H1.
  set (f1 := match old with Some j => _ | None => _ end) in *.
  assert (aqueries f1 = aqueries f) as Eq1 by (subst f1; by destruct old).
  pose proof (same_streams_trans f f1 _ H1
    (same_streams_upd_query (c_query c) (with_watchdog (WLoop (Some i))) f1 ltac:(done))) as H2.
  destruct (same_streams_back _ _ i c H2 Ec) as (c2 & Hc2 & Hq2 & Hpc & _).
  apply (sinv_consumer _ i _ c2 (with_watchdog (WLoop (Some i)) a)); [by apply (sinv_frame f)|done|..].
  - by rewrite Hq2, lookup_upd_query, decide_True, Eq1, Ea by done.
  - done.
  - intros Hcc. split; [done|]. intros Hr. unfold run_at in Hr. rewrite Hpc, Epc in Hr. destruct Hr as [[Hst Ht] Ho].
    unfold run_at. cbn. exists (start (aq_info a)). unfold handled_by. cbn in *. by rewrite Ht, Hst, Ho.
Qed.

Lemma sinv_exec act f f' : finv f → sinv f → exec values_order act f = Some f' → sinv f'.
Proof.
  intros Hf Hs. unfold exec. destruct (crashed f); [done|]. destruct act.
  - intros [= <-]. by apply sinv_RegisterQuery.
  - intros [= <-]. by apply sinv_StreamResults.
  - by apply sinv_registerConsumer.
  - unfold register_timeout. destruct (consumers f !! i) as [c|] eqn:Ec; [|done]. cbn. destruct (c_pc c) eqn:Epc; try done.
    intros [= <-]. destruct (inv_consumer f Hf i c Ec) as (a & Ha & _). apply (sinv_consumer f i _ c a); [done..|].
    intros Hcc. split; [done|]. unfold run_at. rewrite Epc. cbn. intros [? ?]. by left.
  - intros [= <-]. apply (sinv_frame f); [apply same_streams_cancel|done].
  - unfold on_consumer. destruct (consumers f !! i) as [c|] eqn:Ec; [|done]. cbn.
    destruct (aqueries f !! c_query c) as [a|] eqn:Ea; [|done]. cbn.
    destruct (consumer_step done a c) as [[[a' c']|e|k]|] eqn:Es; try done; cbn; intros [= <-]; [|by destruct Hs].
    destruct (consumer_step_frame _ _ _ _ _ Es) as (_ & Hq & Hcc & _). apply (sinv_pair f i c a); [done..|].
    rewrite Hcc. intros Hcf. split; [done|]. intros Hr. destruct done.
    + unfold consumer_step in Es. by rewrite Hcf in Es.
    + by eapply run_at_step.
  - unfold on_consumer. destruct (consumers f !! i) as [c|] eqn:Ec; [|done]. cbn.
    destruct (aqueries f !! c_query c) as [a|] eqn:Ea; [|done]. cbn.
    destruct (wait_step values_order w a c) as [[a' c']|] eqn:Es; [|done]. cbn. intros [= <-].
    pose proof (wait_step_core _ _ _ _ _ Es) as Hcore. apply wait_step_frame in Es as [_ ->].
    apply (sinv_pair f i c a); [done..|]. intros Hcc. split; [done|]. by apply run_at_core.
  - intros E. apply (sinv_frame f); [by eapply watchdog_same_streams|done].
  - intros [= <-]. unfold ForwardQueryResult. rewrite get_bind. case_match; [|done]. by destruct Hs.
  - intros [= <-]. by destruct Hs.
  - destruct (producers f !! j) as [p|]; [|done]. cbn. destruct (aqueries f !! p_query p) as [a|] eqn:Ea; [|done]. cbn.
    destruct (producer_step s a p) as [[a' p']|] eqn:Es; [|done]. cbn. intros [= <-].
    destruct (sinv_frame f (upd_query (p_query p) (λ _, a') f)); [|done|done].
    apply same_streams_upd_query. intros a0 Ha0. rewrite Ea in Ha0. injection Ha0 as <-. by eapply producer_step_core.
  - intros [= <-]. unfold ProducerCancelStream. rewrite get_bind. destruct (activeQueries f !! queryID) as [n|]; [|done].
    apply (sinv_frame f); [|done]. by apply same_streams_upd_query.
Qed.

Lemma reachable_sinv f : reachable values_order f → sinv f.
Proof.
  induction 1 as [|f act f' Hr IH E]; [by split|]. eapply sinv_exec; [by eapply reachable_finv|done..].
Qed.
End refinement.

(** ** Queries without result tables

    A script that only exports its data has no result table, so that there is no
    batch whose arrival closes the channel the goroutine of its consumer waits
    for. *)
Section no_tables.
Context `{U : UUIDLib} `{!Proto compilerpb.CompilerErrorGroup} `{!PlanRenderer}.
Context (values_order : concurrentSet.t → list string).
Implicit Types (f : QueryResultForwarder) (a : activeQuery) (c : consumer).

Definition no_result_tables a : Prop := tableIDMap (aq_info a) = ∅.

Definition quiet (st : query_state) : Prop := uninitializedTables st = ∅ ∧ allTablesConnectedCh st = false.

(** Not in the middle of the first batch of a table. *)
Definition quiet_pc (pc : consumer_pc) : Prop :=
  match pc with CUpdate _ (URemove _ _ | USize _ _ | UClose _ _) => False | _ => True end.

Definition ninv f : Prop :=
  ∀ n a, aqueries f !! n = Some a → tableIDMap (aq_info a) = ∅ →
    quiet (aq_state a) ∧ ∀ i c, consumers f !! i = Some c → c_query c = n → quiet_pc (c_pc c).

Lemma ninv_frame f f' : same_streams f f' → ninv f → ninv f'.
Proof.
  intros Hs Hn n a' Ha' Hnone. destruct (proj1 Hs n a' Ha') as (a & Ha & (_ & H2 & H3 & _)). rewrite H2 in Hnone. rewrite H3.
  destruct (Hn n a Ha Hnone) as [Hq Hc]. split; [done|]. intros i c' Hi' Hcq.
  destruct (same_streams_consumer f f' i c' Hs Hi') as (c & Hi & Hq' & Hpc & _). rewrite Hpc. apply (Hc i c Hi). congruence.
Qed.

Lemma ninv_pair f i c a a' c' :
  ninv f → consumers f !! i = Some c → aqueries f !! c_query c = Some a → c_query c' = c_query c → aq_info a' = aq_info a →
  (quiet (aq_state a) → quiet_pc (c_pc c) → quiet (aq_state a') ∧ quiet_pc (c_pc c')) →
  ninv (upd_consumer i (λ _, c') (upd_query (c_query c) (λ _, a') f)).
Proof.
  intros Hn Hi Ha Hcq Hinfo Hstep n x Hx Hnone. change (aqueries (upd_consumer _ _ ?y)) with (aqueries y) in Hx.
  rewrite lookup_upd_query in Hx. destruct (decide (c_query c = n)) as [E|E].
  - subst n. rewrite Ha in Hx. cbn in Hx. injection Hx as <-. rewrite Hinfo in Hnone.
    destruct (Hn _ a Ha Hnone) as [Hq Hc]. destruct (Hstep Hq (Hc i c Hi eq_refl)) as [Hq' Hpc']. split; [done|].
    intros k ck Hk. rewrite lookup_upd_consumer in Hk. cbn [consumers upd_query] in Hk.
    case_decide; [subst k; rewrite Hi in Hk; by injection Hk as <-|by eapply Hc].
  - destruct (Hn n x Hx Hnone) as [Hq Hc]. split; [done|]. intros k ck Hk Hkn. rewrite lookup_upd_consumer in Hk.
    cbn [consumers upd_query] in Hk. case_decide; [|by eapply Hc].
    subst k. rewrite Hi in Hk. injection Hk as <-. congruence.
Qed.

Lemma quiet_update m u st u' st' :
  quiet st → quiet_pc (CUpdate m u) → update_step m u st = (Ret u', st') → quiet st' ∧ quiet_pc (CUpdate m u').
Proof.
  intros [Hu Hc] Hpc. destruct u; try done; cbn [update_step].
  - destruct (carnotpb.Result m) as [[r|i|s|]|]; try done; try by (intros E; injection E as <- <-).
    + destruct (carnotpb.RowBatch r) as [rb|]; [|done]. unfold concurrentSet.exists_. rewrite get_bind, Hu.
      rewrite bool_decide_eq_false_2 by set_solver. intros E. by injection E as <- <-.
    + rewrite get_bind. destruct (gotFinalExecStats st); [done|]. intros E. by injection E as <- <-.
  - intros E. injection E as <- <-. done.
  - destruct eos; cbn [negb]; [|intros E; by injection E as <- <-]. rewrite get_bind.
    destruct (concurrentSet.exists_ _ _); [|done]. intros E. by injection E as <- <-.
  - intros E. injection E as <- <-. done.
  - intros E. injection E as <- <-. done.
Qed.

Lemma quiet_update_err m u st e st' : quiet st → quiet_pc (CUpdate m u) → update_step m u st = (Err e, st') → quiet st'.
Proof.
  intros Hq Hpc. destruct u; try done; cbn [update_step].
  - destruct (carnotpb.Result m) as [[r|i|s|]|]; try done.
    + destruct (carnotpb.RowBatch r); [done|]. intros E. by injection E as <- <-.
    + rewrite get_bind. destruct (gotFinalExecStats st); [|done]. intros E. by injection E as <- <-.
    + intros E. by injection E as <- <-.
  - destruct eos; cbn [negb]; [|done]. rewrite get_bind.
    destruct (concurrentSet.exists_ _ _); [done|]. intros E. by injection E as <- <-.
Qed.

Lemma quiet_keep_stats m st : quiet st → quiet (keep_stats m st).
Proof. intros [? ?]. unfold keep_stats. by destruct (carnotpb.Result m) as [[]|]. Qed.

Lemma quiet_step done a c a' c' :
  consumer_step done a c = Some (Ret (a', c')) → aq_info a' = aq_info a ∧
    (quiet (aq_state a) → quiet_pc (c_pc c) → quiet (aq_state a') ∧ quiet_pc (c_pc c')).
Proof.
  unfold consumer_step. destruct (done && negb (c_cancelled c)); [done|]. unfold outcome_step, finish.
  destruct (c_pc c) as [| |m|m u|m|m [|r rs]|r| |] eqn:Epc; try done.
  - destruct done; [by intros [= <- <-]|]. destruct (queryResultCh a); [done|]. by intros [= <- <-].
  - destruct done; [by intros [= <- <-]|]. destruct (aq_watchdog a); by intros [= <- <-].
  - destruct (decide (u = UDone)) as [->|Hu]; [by intros [= <- <-]|].
    destruct (update_step m u (aq_state a)) as [o st] eqn:Es. intros E.
    assert (match o with
            | Ret u' => (a', c') = (with_state st a, with_pc (CUpdate m u') c)
            | Err e => (a', c') = (cancelQuery (Some e) (with_state st a), with_pc (CReturned (Some e)) c)
            | Crash _ => False
            end) as Ho by (destruct u; try done; destruct o; simplify_eq; done).
    destruct o as [u'|e|k]; [..|done]; injection Ho as -> ->; (split; [done|]); intros Hq Hpc.
    + by apply (quiet_update m u (aq_state a)).
    + split; [|done]. by apply (quiet_update_err m u (aq_state a) e).
  - destruct (plan_to_send _ _ _ _).1; intros [= <- <-]; (split; [done|]); intros Hq _; (split; [|done]);
      by apply quiet_keep_stats.
  - destruct (BuildExecuteScriptResponse _ _ _ _).1 as [[r|]|e|k]; by intros [= <- <-].
  - destruct done; by intros [= <- <-].
  - destruct done; [by intros [= <- <-]|]. destruct (response_error r); by intros [= <- <-].
  - destruct (queryComplete (aq_state a)); by intros [= <- <-].
Qed.

Lemma ninv_consumer f i g c a :
  ninv f → consumers f !! i = Some c → aqueries f !! c_query c = Some a → c_query (g c) = c_query c →
  quiet_pc (c_pc (g c)) → ninv (upd_consumer i g f).
Proof.
  intros Hn Hi Ha Hq Hpc. rewrite (upd_consumer_const _ _ _ _ Hi), <-(upd_query_same _ _ _ Ha).
  by apply (ninv_pair f i c a a).
Qed.

Lemma ninv_registerConsumer i f f' : ninv f → registerConsumer i f = Some f' → ninv f'.
Proof.
  intros Hn. unfold registerConsumer. destruct (consumers f !! i) as [c|] eqn:Ec; [|done]. cbn.
  destruct (aqueries f !! c_query c) as [a|] eqn:Ea; [|done]. cbn.
  destruct (c_pc c) eqn:Epc, (aq_watchdog a) as [old| | |] eqn:Ew; try done. intros [= <-].
  pose proof (same_streams_cancel_held old f) as H1.
  set (f1 := match old with Some j => _ | None => _ end) in *.
  assert (aqueries f1 = aqueries f) as Eq1 by (subst f1; by destruct old).
  pose proof (same_streams_trans f f1 _ H1
    (same_streams_upd_query (c_query c) (with_watchdog (WLoop (Some i))) f1 ltac:(done))) as H2.
  destruct (same_streams_back _ _ i c H2 Ec) as (c2 & Hc2 & Hq2 & _).
  apply (ninv_consumer _ i _ c2 (with_watchdog (WLoop (Some i)) a)); [by apply (ninv_frame f)|done| |done..].
  by rewrite Hq2, lookup_upd_query, decide_True, Eq1, Ea by done.
Qed.

Lemma ninv_RegisterQuery qid info f : finv f → ninv f → ninv (RegisterQuery qid info f).2.
Proof.
  intros Hf Hn. unfold RegisterQuery. rewrite get_bind. destruct (activeQueries f !! qid); [done|]. cbn.
  intros n a Ha Hnone. cbn in *. apply lookup_app_Some in Ha as [Ha|[Hge Ha]]; [by apply Hn|].
  apply list_lookup_singleton_Some in Ha as [Hk <-]. cbn in Hnone. split.
  - cbn. rewrite init_state_eq, Hnone. split; [|done]. cbn. by rewrite dom_empty_L.
  - intros i c Hi Hq. destruct (inv_consumer f Hf i c Hi) as (a0 & Ha0 & _). apply lookup_lt_Some in Ha0. lia.
Qed.

Lemma ninv_StreamResults qid f : ninv f → ninv (StreamResults qid f).2.
Proof.
  intros Hn. unfold StreamResults. rewrite get_bind. destruct (activeQueries f !! qid) as [k|]; [|done]. cbn.
  intros n a Ha Hnone. destruct (Hn n a Ha Hnone) as [Hq Hc]. split; [done|]. cbn.
  intros i c [Hi|[_ Hi]]%lookup_app_Some; [by apply (Hc i c)|]. by apply list_lookup_singleton_Some in Hi as [_ <-].
Qed.

Lemma ninv_exec act f f' : finv f → ninv f → exec values_order act f = Some f' → ninv f'.
Proof.
  intros Hf Hn. unfold exec. destruct (crashed f); [done|]. destruct act.
  - intros [= <-]. by apply ninv_RegisterQuery.
  - intros [= <-]. by apply ninv_StreamResults.
  - by apply ninv_registerConsumer.
  - unfold register_timeout. destruct (consumers f !! i) as [c|] eqn:Ec; [|done]. cbn. destruct (c_pc c) eqn:Epc; try done.
    intros [= <-]. destruct (inv_consumer f Hf i c Ec) as (a & Ha & _). by apply (ninv_consumer f i _ c a).
  - intros [= <-]. apply (ninv_frame f); [apply same_streams_cancel|done].
  - unfold on_consumer. destruct (consumers f !! i) as [c|] eqn:Ec; [|done]. cbn.
    destruct (aqueries f !! c_query c) as [a|] eqn:Ea; [|done]. cbn.
    destruct (consumer_step done a c) as [[[a' c']|e|k]|] eqn:Es; try done; cbn; intros [= <-]; [|done].
    destruct (consumer_step_frame _ _ _ _ _ Es) as (_ & Hq & _ & _). destruct (quiet_step _ _ _ _ _ Es) as [Hinfo Hquiet].
    by apply (ninv_pair f i c a).
  - unfold on_consumer. destruct (consumers f !! i) as [c|] eqn:Ec; [|done]. cbn.
    destruct (aqueries f !! c_query c) as [a|] eqn:Ea; [|done]. cbn.
    destruct (wait_step values_order w a c) as [[a' c']|] eqn:Es; [|done]. cbn. intros [= <-].
    pose proof (wait_step_core _ _ _ _ _ _ Es) as (_ & H2 & H3 & _). apply wait_step_frame in Es as [_ ->].
    apply (ninv_pair f i c a); [done..|]. by rewrite H3.
  - intros E. apply (ninv_frame f); [by eapply watchdog_same_streams|done].
  - intros [= <-]. unfold ForwardQueryResult. rewrite get_bind. by case_match.
  - intros [= <-]. done.
  - destruct (producers f !! j) as [p|]; [|done]. cbn. destruct (aqueries f !! p_query p) as [a|] eqn:Ea; [|done]. cbn.
    destruct (producer_step s a p) as [[a' p']|] eqn:Es; [|done]. cbn. intros [= <-].
    apply (ninv_frame f (upd_query (p_query p) (λ _, a') f)); [|done].
    apply same_streams_upd_query. intros a0 Ha0. rewrite Ea in Ha0. injection Ha0 as <-. by eapply producer_step_core.
  - intros [= <-]. unfold ProducerCancelStream. rewrite get_bind. destruct (activeQueries f !! queryID) as [n|]; [|done].
    apply (ninv_frame f); [|done]. by apply same_streams_upd_query.
Qed.

Lemma reachable_ninv f : reachable values_order f → ninv f.
Proof.
  induction 1 as [|f act f' Hr IH E]; [by intros n a|]. eapply ninv_exec; [by eapply reachable_finv|done..].
Qed.

(** a query without result tables is cancelled by its own client if it runs
    longer than the time its tables have to connect: the goroutine that waits for
    the tables never sees the channel closed, so that, unless the consumer has ended
    before, it ends by cancelling the query because of an empty list of missing
    tables. *)
Theorem query_without_tables_times_out f i c a :
  reachable values_order f → values_order ∅ = [] → crashed f = None →
  consumers f !! i = Some c → aqueries f !! c_query c = Some a →
  no_result_tables a → c_waiting c = true →
  exec values_order (AWait i WaitConnected) f = None ∧
  ∃ f' a', exec values_order (AWait i WaitTimeout) f = Some f' ∧ aqueries f' !! c_query c = Some a' ∧
    aq_cancelled a' = true ∧ cancelQueryError a' = Some (err_not_connected (aq_id a) []).
Proof.
  intros Hr Hvo Hcr Hi Ha Hnone Hw. destruct (reachable_ninv f Hr _ a Ha Hnone) as [[Hu Hc] _].
  unfold exec, on_consumer. rewrite Hcr, Hi. cbn. rewrite Ha. cbn. unfold wait_step. rewrite Hw, Hc, Hu. cbn.
  split; [done|]. eexists _, _. split; [done|].
  change (aqueries (upd_consumer _ _ ?y)) with (aqueries y). rewrite lookup_upd_query, decide_True, Ha by done. split; [done|].
  split; [done|]. cbn. unfold concurrentSet.values. by rewrite Hvo.
Qed.
End no_tables.

(** ** What a client gets *)
Section client.
Context `{U : UUIDLib} `{!Proto compilerpb.CompilerErrorGroup} `{!PlanRenderer}.
Context (values_order : concurrentSet.t → list string).
Implicit Types (f : QueryResultForwarder) (a : activeQuery) (c : consumer) (m : msg) (ms : list msg) (s : stream).

(** The plan that is sent with the last of the messages [ms]. *)
Definition plan_sent (q : query_info) (id : uuid) ms (plan : list response) : Prop :=
  (if complete q ms then plan_responses q id (agent_stats ms) else mret []) tt = (Ret plan, tt).

Lemma handleRequest_inv q id ms m s s' :
  after q ms s → handleRequest q id m s = (Ret tt, s') →
  handled q ms m ∧ after q (ms ++ [m]) s' ∧ ∃ plan, plan_sent q id (ms ++ [m]) plan ∧ s_out s' = s_out s ++ plan ++ answers q m.
Proof.
  intros Ha Hreq. pose proof (updateQueryState_tracks (dom (tableIDMap q)) ms m _ (after_tracks _ _ _ Ha)) as Hu.
  destruct (fits (dom (tableIDMap q)) ms m) eqn:Ef.
  2: { destruct Hu as (e & st & Hu). by rewrite (handleRequest_error _ _ _ _ _ _ Hu) in Hreq. }
  destruct Hu as (st & Hu & Ht & Hst). pose proof (handleRequest_eq q id m s st Hu) as Heq.
  destruct (keep_stats_after q ms m st Ht) as [Ht2 Ha2]; [rewrite Hst; apply Ha|].
  unfold request_rest, plan_to_send in Heq. rewrite (complete_tracks q _ _ Ht2), Ha2 in Heq. unfold plan_sent.
  destruct ((if complete q (ms ++ [m]) then plan_responses q id (agent_stats (ms ++ [m])) else mret []) tt)
    as [[plan|e|k] []] eqn:Ep; cbn in Heq; rewrite Heq in Hreq; [|done..].
  destruct (build q m) as [[r|]|e|k] eqn:Eb; [..|done|done].
  - destruct (response_error r) eqn:Er; [done|]. injection Hreq as <-. split_and!; [|by split|].
    + split; [done|]. exists (Some r). split; [done|]. by intros ? [= <-].
    + exists plan. unfold answers. rewrite Eb. by rewrite <-app_assoc.
  - injection Hreq as <-. split_and!; [|by split|].
    + split; [done|]. by exists None.
    + exists plan. unfold answers. rewrite Eb. by rewrite app_nil_r.
Qed.

Lemma plan_sent_incomplete q id ms plan : complete q ms = false → plan_sent q id ms plan → plan = [].
Proof. unfold plan_sent. intros ->. by intros [= <-]. Qed.

(** A run of the loop, from the state after the messages [pre]. *)
Lemma stream_loop_inv q id pre ms s o s' :
  after q pre s → complete q pre = false → stream_loop q id ms s = (Ret o, s') →
  match o with
  | None => all_handled q pre ms ∧ complete q (pre ++ ms) = false ∧ s_out s' = s_out s ++ (ms ≫= answers q)
  | Some rest => ∃ ms1 m plan, ms = ms1 ++ m :: rest ∧ all_handled q pre (ms1 ++ [m]) ∧
      complete q (pre ++ ms1) = false ∧ complete q (pre ++ ms1 ++ [m]) = true ∧
      plan_sent q id (pre ++ ms1 ++ [m]) plan ∧ s_out s' = s_out s ++ (ms1 ≫= answers q) ++ plan ++ answers q m
  end.
Proof.
  revert pre s. induction ms as [|m ms IH]; intros pre s Ha Hc E; cbn [stream_loop] in E.
  { injection E as <- <-. rewrite !app_nil_r. by split_and!. }
  apply bind_Ret_inv in E as ([] & s1 & H1 & E). rewrite get_bind in E.
  destruct (handleRequest_inv q id pre m s s1 Ha H1) as (Hh & Ha1 & plan & Hp & Ho1).
  rewrite (complete_tracks q _ _ (after_tracks _ _ _ Ha1)) in E. destruct (complete q (pre ++ [m])) eqn:Ec.
  - injection E as <- <-. exists [], m, plan. cbn. by rewrite app_nil_r.
  - specialize (IH _ _ Ha1 Ec E). apply (plan_sent_incomplete _ _ _ _ Ec) in Hp as ->. rewrite Ho1 in IH. cbn in IH.
    destruct o as [rest|].
    + destruct IH as (ms1 & m' & plan & -> & Hall & Hc1 & Hc2 & Hp & Ho). exists (m :: ms1), m', plan.
      rewrite <-!app_assoc in *. cbn in *. split_and!; [done..|]. rewrite Ho. by rewrite <-!app_assoc.
    + destruct IH as (Hall & Hc1 & Ho). rewrite <-!app_assoc in *. by split_and!.
Qed.

(** C2: As long as the only consumer of a query is not cancelled (by its client, by the
    watchdog or by a further consumer), whatever the agents, the watchdog and other
    queries do meanwhile, it is where the sequential loop is after the messages it has
    taken from the channel: it has sent what the loop sends, it returns without an
    error exactly when the loop finds the query complete, and with the error on which
    the loop ends; or it could not register in time, and has returned that error
    before it took or sent anything. *)
Theorem forwarder_refines_stream f i c a :
  reachable values_order f → consumers f !! i = Some c → aqueries f !! c_query c = Some a →
  sole f (c_query c) i → c_cancelled c = false →
  let loop := stream_loop (aq_info a) (aq_id a) (aq_taken a) (start (aq_info a)) in
  match c_pc c with
  | CLoop => ∃ s, loop = (Ret None, s) ∧ aq_state a = s_query s ∧ c_out c = s_out s
  | CReturned None => ∃ s, loop = (Ret (Some []), s) ∧ c_out c = s_out s
  | CReturned (Some e) =>
    (aq_taken a = [] ∧ c_out c = [] ∧ e = err_register) ∨ ∃ s, loop = (Err e, s) ∧ c_out c = s_out s
  | _ => True
  end.
Proof.
  intros Hr Hi Ha Hs Hcc. pose proof (sinv_sole f (reachable_sinv _ f Hr) i c a Hi Ha Hs Hcc) as Hrun.
  unfold run_at, handled_by in Hrun. cbv zeta. destruct (c_pc c) as [| | | | | | | |[e|]]; try done.
  destruct Hrun as [([_ ?] & ? & ?)|?]; auto.
Qed.

(** C1: if the only consumer of a query ends without an error and without having been
    cancelled, its client has got every result: of the messages the agents have sent,
    those up to the one with which every table had ended and the statistics had come
    were answered one by one, in their order, with the query plan before the last
    answer.  (A consumer that is cancelled returns the error of the query, which may be
    nil.) *)
Theorem client_gets_every_result f i c a :
  reachable values_order f → consumers f !! i = Some c → aqueries f !! c_query c = Some a →
  sole f (c_query c) i → c_cancelled c = false → c_pc c = CReturned None →
  ∃ ms m plan, aq_accepted a = ms ++ m :: queryResultCh a ∧
    complete (aq_info a) ms = false ∧ complete (aq_info a) (ms ++ [m]) = true ∧
    plan_sent (aq_info a) (aq_id a) (ms ++ [m]) plan ∧
    c_out c = (ms ≫= answers (aq_info a)) ++ plan ++ answers (aq_info a) m.
Proof.
  intros Hr Hi Ha Hs Hcc Hpc. pose proof (sinv_sole f (reachable_sinv _ f Hr) i c a Hi Ha Hs Hcc) as Hrun.
  unfold run_at in Hrun. rewrite Hpc in Hrun. destruct Hrun as (s & Hloop & Ho).
  destruct (inv_query f (reachable_finv _ f Hr) _ a Ha) as [_ [Hacc _]].
  apply (stream_loop_inv _ _ []) in Hloop as (ms & m & plan & Ht & _ & Hc & Hcm & Hp & Hout); [|apply after_init|].
  2: { unfold complete. by rewrite andb_false_r. }
  exists ms, m, plan. cbn in *. rewrite Hacc, Ht, Ho, Hout. split_and!; [|done..]. by rewrite <-app_assoc.
Qed.
End client.
