(* ===== verification/ForwarderRuns.v ===== *)
(** * Runs of the result forwarder

    Concrete runs: a query that completes, one whose consumer is replaced, one
    without result tables, and the run in which two consumers close a channel
    twice. *)

From S2P Require Import Prelude GoLib Uuid Messages QueryMessages QueryProto ActiveQuery ResultForwarder StreamRun.
From Stdlib Require Import Ascii.
Import MemUuid MemProto.

Module Runs.

#[export] Instance LineColError_eq_dec : EqDecision compilerpb.LineColError.
Proof. solve_decision. Defined.
#[export] Instance LineColError_countable : Countable compilerpb.LineColError.
Proof.
  apply (inj_countable' (λ e, (compilerpb.Line e, compilerpb.Column e, compilerpb.Message e))
    (λ '(l, c, m), compilerpb.mkLineColError l c m)). by intros [].
Defined.
#[export] Instance CompilerErrorGroup_eq_dec : EqDecision compilerpb.CompilerErrorGroup.
Proof. solve_decision. Defined.
#[export] Instance CompilerErrorGroup_countable : Countable compilerpb.CompilerErrorGroup.
Proof. apply (inj_countable' compilerpb.Errors compilerpb.mkCompilerErrorGroup). by intros []. Defined.

(** Any rendering will do. *)
#[export] Instance renderer : PlanRenderer := {| GetQueryPlanAsDotString _ _ _ := inr "digraph {}" |}.

Definition order : concurrentSet.t → list string := elements.

Definition of_query (r : carnotpb.result) : msg :=
  carnotpb.mkTransferResultChunkRequest "" (Some (ProtoFromUUID uuid_1)) (Some r).

Definition batch (t : string) (eos : bool) : msg :=
  of_query (carnotpb.QueryResult (carnotpb.mkSinkResult
    (Some (schemapb.mkRowBatchData [schemapb.mkColumn (Some (schemapb.Int64Data [7]%Z))] 1 eos eos))
    (Some (carnotpb.TableName t)))).

Definition stats : msg :=
  of_query (carnotpb.ExecutionAndTimingInfo (carnotpb.mkExecInfo
    (Some (queryresultspb.mkQueryExecutionStats (Some (queryresultspb.mkQueryTimingInfo 5 0)) 8 1)) [])).

Definition info (tables : list string) : query_info :=
  mkQueryInfo (list_to_map ((λ t, (t, t +:+ "-id")) <$> tables)) 3 None "script".

(** An agent sends a message. *)
Definition sends (j : nat) (m : msg) : list action :=
  [AForwardQueryResult m; AProducer j SelSend; AProducer j SelSend].

Definition goes (i n : nat) : list action := replicate n (AConsumer i false).

Definition after_run (acts : list action) : QueryResultForwarder :=
  default NewQueryResultForwarder (run order acts NewQueryResultForwarder).

(** A query of one table whose results all arrive. *)
Definition completing : list action :=
  [ARegisterQuery uuid_1 (info ["t"]); AStreamResults uuid_1; ARegisterConsumer 0] ++
  sends 0 (batch "t" true) ++ sends 1 stats ++ goes 0 22.

(** Two consumers, one of them cancelled, in the first batches of the last two
    tables. *)
Definition racing : list action :=
  [ARegisterQuery uuid_1 (info ["t1"; "t2"]); AStreamResults uuid_1; ARegisterConsumer 0] ++
  sends 0 (batch "t1" false) ++ sends 1 (batch "t2" false) ++ goes 0 4 ++
  [AStreamResults uuid_1; ARegisterConsumer 1] ++ goes 1 6 ++ goes 0 2.

(** A consumer that is replaced while it holds a response. *)
Definition resuming : list action :=
  [ARegisterQuery uuid_1 (info ["t"]); AStreamResults uuid_1; ARegisterConsumer 0] ++
  sends 0 (batch "t" true) ++ sends 1 stats ++ goes 0 11 ++
  [AStreamResults uuid_1; ARegisterConsumer 1] ++ [AConsumer 0 true; AConsumer 0 false; AConsumer 0 true] ++ goes 1 9.

(** A query of an export script that is still running. *)
Definition exporting : list action :=
  [ARegisterQuery uuid_1 (info []); AStreamResults uuid_1; ARegisterConsumer 0].

(** The same query, after the time its tables have to connect. *)
Definition timed_out : list action := exporting ++ [AWait 0 WaitTimeout].

Lemma reachable_after acts :
  is_Some (run order acts NewQueryResultForwarder) → reachable order (after_run acts).
Proof.
  intros [f E]. unfold after_run. rewrite E. exact (reachable_run _ _ _ _ (reachable_new _) E).
Qed.

Definition has_run (acts : list action) : bool :=
  match run order acts NewQueryResultForwarder with Some _ => true | None => false end.

Lemma has_run_is_Some acts : has_run acts = true → is_Some (run order acts NewQueryResultForwarder).
Proof. unfold has_run. destruct (run _ _ _); [eauto|done]. Qed.

Ltac runs := apply reachable_after, has_run_is_Some; vm_compute; reflexivity.

(** two consumers of one query can close the channel of its tables twice, which
    ends the query broker with a panic: a client that resumes its query cancels
    the consumer it had, but that one may still be between removing its table and
    asking how many are left. *)
Theorem two_consumers_can_panic : ∃ f, reachable order f ∧ crashed f = Some CloseOfClosedChannel.
Proof. exists (after_run racing). split; [runs|vm_compute; reflexivity]. Qed.

(** a client that resumes its query can lose results without an error: the
    consumer it had drops the response it holds and returns without an error, and
    the new one finds the query complete and returns without an error, having
    sent the statistics only. *)
Theorem resumed_query_can_lose_results :
  ∃ f, reachable order f ∧ aq_accepted <$> aqueries f = [[batch "t" true; stats]] ∧
    (λ c, (c_query c, c_pc c, c_out c)) <$> consumers f =
      [(0, CReturned None, []); (0, CReturned None, answers (info ["t"]) stats)].
Proof. exists (after_run resuming). split; [runs|]. split; vm_compute; reflexivity. Qed.

(** ** Instances of the theorems *)

Lemma query_plan_chunks_witness :
  ∃ rs, QueryPlanResponse (inr "digraph {}") uuid_1 "plan" 4 tt = (Ret rs, tt) ∧ length rs = 3.
Proof.
  pose proof (query_plan_chunks "digraph {}" uuid_1 "plan" 4 tt ltac:(lia)) as (rs & H & _).
  exists rs. split; [exact H|]. vm_compute in H. by injection H as <-.
Defined.

Definition batch_1 : schemapb.RowBatchData :=
  schemapb.mkRowBatchData [schemapb.mkColumn (Some (schemapb.StringData ["a"; "b"]))] 2 false true.

Lemma batch_response_roundtrip_witness :
  ∃ b, batch_of_vizier b = batch_1 ∧ vizierpb.TableID b = "t-id".
Proof.
  pose proof (batch_response_roundtrip "" None (carnotpb.mkSinkResult (Some batch_1) (Some (carnotpb.TableName "t")))
    batch_1 (tableIDMap (info ["t"])) 0 tt eq_refl) as [(tid & b & Ht & _ & H1 & H2)|[[H|(col & H & H')] _]].
  - exists b. split; [exact H2|]. vm_compute in Ht. injection Ht as <-. exact H1.
  - by vm_compute in H.
  - apply list_elem_of_singleton in H as ->. done.
Defined.

(** A test for [handled]. *)
Definition handled_by_test (q : query_info) (ms : list msg) (m : msg) : bool :=
  fits (dom (tableIDMap q)) ms m &&
  match build q m with
  | Ret (Some r) => match response_error r with None => true | Some _ => false end
  | Ret None => true
  | _ => false
  end.

Lemma handled_test q ms m : handled_by_test q ms m = true → handled q ms m.
Proof.
  unfold handled_by_test. intros [Hf Hb]%andb_true_iff. split; [done|].
  destruct (build q m) as [[r|]|e|k]; try done; eexists; (split; [done|]); [|done].
  intros r' [= <-]. by destruct (response_error r).
Qed.

Lemma stream_results_exact_witness :
  ∃ a, stream_loop (info ["t"]) uuid_1 ([batch "t" true] ++ stats :: []) (mkStream (init_state (tableIDMap (info ["t"]))) []) =
    (Ret (Some []), mkStream a (([batch "t" true] ≫= answers (info ["t"])) ++ [] ++ answers (info ["t"]) stats)).
Proof.
  apply (stream_results_exact (info ["t"]) uuid_1 [batch "t" true] stats [] []);
    [|vm_compute; reflexivity|vm_compute; reflexivity|reflexivity].
  split; [|split; [|done]]; apply handled_test; vm_compute; reflexivity.
Defined.

Lemma execution_error_ends_stream_witness :
  ∃ a r, handleRequest (info ["t"]) uuid_1 (of_query (carnotpb.ExecutionError (mkStatus statuspb.FAILED_PRECONDITION "no" None)))
    (mkStream (init_state (tableIDMap (info ["t"]))) []) = (Ret tt, mkStream a [r]).
Proof.
  destruct (execution_error_ends_stream (info ["t"]) uuid_1 [] _ "" (Some (ProtoFromUUID uuid_1)) statuspb.FAILED_PRECONDITION
    "no" None [] (after_init (info ["t"]))) as [a H]; [|done|done|vm_compute; reflexivity|done|].
  - vm_compute. repeat constructor.
  - exists a. eexists. exact H.
Defined.

Definition forwarder_1 : QueryResultForwarder := after_run completing.

Lemma forwarder_1_reachable : reachable order forwarder_1.
Proof. runs. Qed.

(** The first consumer and the first query of a state, with a test of them. *)
Definition first_test (P : consumer → activeQuery → bool) (f : QueryResultForwarder) : bool :=
  match consumers f, aqueries f with c :: _, a :: _ => P c a | _, _ => false end.

Lemma first_test_spec P f :
  first_test P f = true → ∃ c a, consumers f !! 0 = Some c ∧ aqueries f !! 0 = Some a ∧ P c a = true.
Proof. unfold first_test. destruct (consumers f) as [|c ?], (aqueries f) as [|a ?]; try done. by exists c, a. Qed.

Definition sole_test (n i : nat) (f : QueryResultForwarder) : bool :=
  bool_decide (Forall (λ jc : nat * consumer, c_query jc.2 = n → jc.1 = i) (imap pair (consumers f))).

Lemma sole_test_spec n i f : sole_test n i f = true → sole f n i.
Proof.
  unfold sole_test. rewrite bool_decide_eq_true, Forall_lookup. intros H j c Hj.
  apply (H j (j, c)). by rewrite list_lookup_imap, Hj.
Qed.

Lemma registered_until_deleted_witness :
  ∃ n a, activeQueries forwarder_1 !! uuid_1 = Some n ∧ aqueries forwarder_1 !! n = Some a ∧ aq_id a = uuid_1.
Proof.
  pose proof (registered_until_deleted order forwarder_1 forwarder_1_reachable) as [H _].
  assert (activeQueries forwarder_1 !! uuid_1 = Some 0) as E by (vm_compute; reflexivity).
  exists 0. destruct (proj1 (H uuid_1 0) E) as (a & Ha & Hid & _). exists a. split; [exact E|]. by split.
Defined.

Lemma one_live_consumer_witness :
  ∃ c a, consumers (after_run timed_out) !! 0 = Some c ∧ aqueries (after_run timed_out) !! c_query c = Some a ∧
    held (aq_watchdog a) = Some 0.
Proof.
  destruct (first_test_spec (λ c _, (c_query c =? 0) && streaming c && negb (c_cancelled c)) (after_run timed_out))
    as (c & _ & Hc & _ & Ht); [vm_compute; reflexivity|].
  apply andb_true_iff in Ht as [[_ Hs]%andb_true_iff Hcc%negb_true_iff].
  destruct (one_live_consumer order (after_run timed_out) 0 0 c c ltac:(runs) Hc Hc eq_refl Hs Hs Hcc Hcc)
    as (_ & a & Ha & Hh).
  exists c, a. by split_and!.
Defined.

Lemma cancelled_query_ends_witness :
  ∃ k f', k ≤ 3 ∧ run order (replicate k (AWatchdog 0 WatchdogStep)) (after_run timed_out) = Some f' ∧
    activeQueries f' !! uuid_1 ≠ Some 0.
Proof.
  destruct (first_test_spec (λ _ a, ending a && bool_decide (aq_id a = uuid_1)) (after_run timed_out))
    as (_ & a & _ & Ha & [Ht Hid%bool_decide_eq_true]%andb_true_iff); [vm_compute; reflexivity|].
  destruct (cancelled_query_ends order (after_run timed_out) 0 a ltac:(runs) ltac:(vm_compute; reflexivity) Ha Ht)
    as (k & f' & a' & Hk & Hrun & Hact & _).
  exists k, f'. rewrite Hid in Hact. by split_and!.
Defined.

Lemma query_without_tables_times_out_witness :
  ∃ f' a', exec order (AWait 0 WaitTimeout) (after_run exporting) = Some f' ∧ aqueries f' !! 0 = Some a' ∧
    aq_cancelled a' = true.
Proof.
  destruct (first_test_spec (λ c a, (c_query c =? 0) && c_waiting c && bool_decide (tableIDMap (aq_info a) = ∅))
    (after_run exporting)) as (c & a & Hc & Ha & Ht); [vm_compute; reflexivity|].
  apply andb_true_iff in Ht as [[Hq%Nat.eqb_eq Hw]%andb_true_iff Hn%bool_decide_eq_true].
  destruct (query_without_tables_times_out order (after_run exporting) 0 c a ltac:(runs) eq_refl ltac:(vm_compute; reflexivity) Hc)
    as (_ & f' & a' & E & Ha' & Hca & _); [by rewrite Hq|done|done|].
  exists f', a'. rewrite Hq in Ha'. by split_and!.
Defined.

Definition ended_test (c : consumer) (a : activeQuery) : bool :=
  (c_query c =? 0) && negb (c_cancelled c) && match c_pc c with CReturned None => true | _ => false end.

Lemma ended_test_spec :
  ∃ c a, consumers forwarder_1 !! 0 = Some c ∧ c_query c = 0 ∧ aqueries forwarder_1 !! 0 = Some a ∧
    c_cancelled c = false ∧ c_pc c = CReturned None ∧ sole forwarder_1 0 0.
Proof.
  destruct (first_test_spec ended_test forwarder_1) as (c & a & Hc & Ha & Ht); [vm_compute; reflexivity|].
  apply andb_true_iff in Ht as [[Hq%Nat.eqb_eq Hcc%negb_true_iff]%andb_true_iff Hpc].
  exists c, a. split_and!; [done..| |apply sole_test_spec; vm_compute; reflexivity].
  by destruct (c_pc c) as [| | | | | | | |[]].
Qed.

Lemma forwarder_refines_stream_witness :
  ∃ a s, aqueries forwarder_1 !! 0 = Some a ∧
    stream_loop (aq_info a) (aq_id a) (aq_taken a) (start (aq_info a)) = (Ret (Some []), s).
Proof.
  destruct ended_test_spec as (c & a & Hc & Hq & Ha & Hcc & Hpc & Hs).
  pose proof (forwarder_refines_stream order forwarder_1 0 c a forwarder_1_reachable Hc) as H. rewrite Hq in H.
  specialize (H Ha Hs Hcc). rewrite Hpc in H. destruct H as (s & H & _). exists a, s. split; [exact Ha|exact H].
Defined.

Lemma client_gets_every_result_witness :
  ∃ c a ms m, consumers forwarder_1 !! 0 = Some c ∧ aqueries forwarder_1 !! 0 = Some a ∧
    aq_accepted a = ms ++ m :: queryResultCh a.
Proof.
  destruct ended_test_spec as (c & a & Hc & Hq & Ha & Hcc & Hpc & Hs).
  pose proof (client_gets_every_result order forwarder_1 0 c a forwarder_1_reachable Hc) as H. rewrite Hq in H.
  destruct (H Ha Hs Hcc Hpc) as (ms & m & plan & Hacc & _).
  exists c, a, ms, m. split; [exact Hc|]. split; [exact Ha|exact Hacc].
Defined.
End Runs.
