(* ===== verification/QueryFlags.v ===== *)
(** * Flags of a script and the privacy level

    [query_broker/controllers/query_flags.go]: the lines [#px:set flag=value] of a
    script, and the planner's options they give.
    [query_broker/controllers/data_privacy.go]: the redaction the planner is
    asked for. *)

From S2P Require Import Prelude GoLib QueryMessages.
From Stdlib Require Import Ascii.

Definition newline : ascii := "010".
Definition newline_str : string := String newline EmptyString.

(** ** The standard library *)

(** [strings.TrimSuffix(s, suffix)] for a suffix of one byte. *)
Fixpoint TrimSuffix (s : string) (c : ascii) : string :=
  match s with
  | EmptyString => EmptyString
  | String a EmptyString => if decide (a = c) then EmptyString else s
  | String a s' => String a (TrimSuffix s' c)
  end.

(** [strconv.ParseBool]. *)
Definition ParseBool (str : string) : error + bool :=
  if bool_decide (str ∈ ["1"; "t"; "T"; "true"; "TRUE"; "True"]) then inr true
  else if bool_decide (str ∈ ["0"; "f"; "F"; "false"; "FALSE"; "False"]) then inr false
  else inl ErrSyntax.

(** ** Flags *)

(** The dynamic types a flag may have; a float is its bit pattern. *)
Inductive flag_value : Type :=
| VInt (z : Z)
| VInt64 (z : Z)
| VFloat64 (bits : Z)
| VString (s : string)
| VBool (b : bool).

(** The [cast] package, and [strconv.ParseFloat], which no flag needs. *)
Class CastLib := {
  ToInt64 : option flag_value → Z;
  ToBool : option flag_value → bool;
  ToString : option flag_value → string;
  ToFloat64 : option flag_value → Z;
  ParseFloat : string → error + Z
}.

(** What the flags rely on: a value of the type asked for is returned as it is. *)
Class CastSpec `{!CastLib} : Prop := {
  ToInt64_int z : ToInt64 (Some (VInt z)) = z;
  ToInt64_int64 z : ToInt64 (Some (VInt64 z)) = z;
  ToBool_bool b : ToBool (Some (VBool b)) = b
}.

Definition plConfigPrefix : string := "#px:set ".

Definition defaultQueryFlags : gmap string flag_value :=
  {["explain" := VBool false; "analyze" := VBool false; "max_output_rows_per_table" := VInt 10000]}.

(** A value of type [interface{}] may be nil. *)
Record QueryFlags := mkQueryFlags { flags : gmap string (option flag_value) }.

Definition newQueryFlags : QueryFlags := mkQueryFlags ∅.

Definition err_malformed : error := ErrMsg "Config setting is malformed".
Definition err_invalid_flag (key : string) : error := ErrMsg (key +:+ " is not a valid flag").

Section flags.
Context `{!CastLib}.
Implicit Types f : QueryFlags.

Definition get (key : string) f : option flag_value :=
  match flags f !! key with
  | Some val => val
  | None => defaultQueryFlags !! key
  end.

Definition GetInt64 (key : string) f : Z := ToInt64 (get key f).
Definition GetBool (key : string) f : bool := ToBool (get key f).
Definition GetString (key : string) f : string := ToString (get key f).
Definition GetFloat64 (key : string) f : Z := ToFloat64 (get key f).

(** The switch on the type of the default; an [int64] matches no case, which leaves
    the value nil without an error. *)
Definition typed_value (defVal : flag_value) (value : string) : error + option flag_value :=
  match defVal with
  | VInt _ => sum_map id (λ z, Some (VInt64 z)) (ParseInt value 64)
  | VFloat64 _ => sum_map id (λ z, Some (VFloat64 z)) (ParseFloat value)
  | VString _ => inr (Some (VString value))
  | VBool _ => sum_map id (λ b, Some (VBool b)) (ParseBool value)
  | VInt64 _ => inr None
  end.

Definition set (key value : string) f : error + QueryFlags :=
  match defaultQueryFlags !! key with
  | Some defVal =>
    match typed_value defVal value with
    | inl err => inl err
    | inr typedVal => inr (mkQueryFlags (<[key := typedVal]> (flags f)))
    end
  | None => inl (err_invalid_flag key)
  end.

Definition GetPlanOptions f : planpb.PlanOptions :=
  planpb.mkPlanOptions (GetBool "explain" f) (GetBool "analyze" f) (GetInt64 "max_output_rows_per_table" f).

(** The body of the loop over the lines. *)
Definition parse_line (line : string) (qf : QueryFlags) : error + QueryFlags :=
  if HasPrefix line plConfigPrefix then
    match split " " line with
    | [_; component] =>
      match split "=" component with
      | [key; val] => set key val qf
      | _ => inl err_malformed
      end
    | _ => inl err_malformed
    end
  else inr qf.

Fixpoint parse_lines (lines : list string) (qf : QueryFlags) : error + QueryFlags :=
  match lines with
  | [] => inr qf
  | line :: rest =>
    match parse_line line qf with
    | inl err => inl err
    | inr qf' => parse_lines rest qf'
    end
  end.

Definition ParseQueryFlags (queryStr : string) : error + QueryFlags :=
  parse_lines (split newline (TrimSuffix queryStr newline)) newQueryFlags.
End flags.

(** ** Data privacy *)

Definition DataAccessFull : string := "Full".
Definition DataAccessRestricted : string := "Restricted".
Definition DataAccessPIIRestricted : string := "PIIRestricted".

Record vizierCachedDataPrivacy := mkDataPrivacy { dataAccess : string }.

(** The value of the flag [data_access] is an argument. *)
Definition CreateDataPrivacyManager (dataAccessStr : string) : error + vizierCachedDataPrivacy :=
  if bool_decide (dataAccessStr ∈ [DataAccessFull; DataAccessRestricted; DataAccessPIIRestricted])
  then inr (mkDataPrivacy dataAccessStr)
  else inl (ErrMsg ("Invalid DataAccess: '" +:+ dataAccessStr +:+ "'")).

Definition RedactionOptions (dp : vizierCachedDataPrivacy) : option distributedpb.RedactionOptions :=
  if decide (dataAccess dp = DataAccessFull) then None
  else Some (distributedpb.mkRedactionOptions (bool_decide (dataAccess dp = DataAccessRestricted))
               (bool_decide (dataAccess dp = DataAccessPIIRestricted))).

(** ** Types of flags *)

(** A set flag has the type its default is parsed to. *)
Definition value_fits (defVal : flag_value) (v : option flag_value) : Prop :=
  match defVal, v with
  | VInt _, Some (VInt64 z) => (- 2 ^ 63 ≤ z < 2 ^ 63)%Z
  | VBool _, Some (VBool _) => True
  | _, _ => False
  end.

Definition flags_fit (f : QueryFlags) : Prop :=
  ∀ key v, flags f !! key = Some v → ∃ defVal, defaultQueryFlags !! key = Some defVal ∧ value_fits defVal v.

(** The flags with their defaults. *)
Lemma default_cases key defVal :
  defaultQueryFlags !! key = Some defVal →
  (key = "explain" ∨ key = "analyze") ∧ defVal = VBool false ∨
  key = "max_output_rows_per_table" ∧ defVal = VInt 10000.
Proof.
  unfold defaultQueryFlags. rewrite !lookup_insert_Some, lookup_singleton_Some. naive_solver.
Qed.

Lemma digits_val_nonneg s acc v : (0 ≤ acc)%Z → digits_val s acc = Some v → (0 ≤ v)%Z.
Proof.
  revert acc. induction s as [|c s IH]; intros acc Hacc Hv; [by injection Hv as <-|].
  rewrite digits_val_cons in Hv. destruct (is_digit c) eqn:Hc; [|done].
  apply is_digit_range in Hc. eapply IH; [|exact Hv]. lia.
Qed.

Lemma ParseInt_range s z : ParseInt s 64 = inr z → (- 2 ^ 63 ≤ z < 2 ^ 63)%Z.
Proof.
  unfold ParseInt. destruct s as [|a s]; [done|]. change (64 - 1)%Z with 63%Z.
  assert (∀ neg body, match body with
    | EmptyString => inl ErrSyntax
    | _ => match digits_val body 0 with
           | None => inl ErrSyntax
           | Some v => if (neg : bool) then if (v <=? 2 ^ 63)%Z then inr (- v)%Z else inl ErrRange
                       else if (v <? 2 ^ 63)%Z then inr v else inl ErrRange
           end
    end = inr z → (- 2 ^ 63 ≤ z < 2 ^ 63)%Z) as Hgo.
  { intros neg [|b body]; [done|]. destruct (digits_val _ 0) as [v|] eqn:Hv; [|done].
    apply digits_val_nonneg in Hv; [|done]. destruct neg.
    - destruct (Z.leb_spec v (2 ^ 63)); [|done]. intros [= <-]. lia.
    - destruct (Z.ltb_spec v (2 ^ 63)); [|done]. intros [= <-]. lia. }
  repeat case_decide; [apply (Hgo true s)|apply (Hgo false s)|apply (Hgo false (String a s))].
Qed.

Section typing.
Context `{!CastLib}.

Lemma set_fits key value f f' : flags_fit f → set key value f = inr f' → flags_fit f'.
Proof.
  intros Hf. unfold set. destruct (defaultQueryFlags !! key) as [d|] eqn:Hd; [|done].
  destruct (typed_value d value) as [|v] eqn:Hv; [done|]. intros [= <-] k w.
  cbn [flags]. rewrite lookup_insert_Some. intros [[<- <-]|[_ Hk]]; [|by apply Hf].
  exists d. split; [done|]. apply default_cases in Hd as [[_ ->]|[_ ->]]; cbn in Hv.
  - by destruct (ParseBool value); [|injection Hv as <-].
  - destruct (ParseInt value 64) eqn:Hp; [done|]. injection Hv as <-. by eapply ParseInt_range.
Qed.

Lemma parse_line_fits line f f' : flags_fit f → parse_line line f = inr f' → flags_fit f'.
Proof.
  intros Hf. unfold parse_line. destruct (HasPrefix _ _); [|by intros [= <-]].
  destruct (split " " line) as [|? [|c [|]]]; try done.
  destruct (split "=" c) as [|k [|v [|]]]; try done. by apply set_fits.
Qed.

Lemma parse_lines_fits lines f f' : flags_fit f → parse_lines lines f = inr f' → flags_fit f'.
Proof.
  revert f. induction lines as [|line lines IH]; intros f Hf; cbn; [by intros [= <-]|].
  destruct (parse_line line f) eqn:Hl; [done|]. by eapply IH, parse_line_fits.
Qed.

(** C34: whatever the script, the flags of a parsed script have the types of their
    defaults (a set [int] flag holds an [int64] in range, a set [bool] flag a
    [bool], and no other flag is set), so that the options of the plan are read
    without a failing cast. *)
Theorem parsed_flags_typed queryStr qf :
  ParseQueryFlags queryStr = inr qf → flags_fit qf.
Proof. apply parse_lines_fits. intros k v. cbn. by rewrite lookup_empty. Qed.
End typing.

(** ** The flags a script sets *)

(** A script as a list of lines, settings among other code. *)
Inductive script_line : Type := Setting (key value : string) | Code (line : string).

Definition print_line (l : script_line) : string :=
  match l with
  | Setting key value => plConfigPrefix +:+ key +:+ "=" +:+ value
  | Code line => line
  end.

Definition print_script (ls : list script_line) : string := join newline_str (print_line <$> ls).

(** Bytes that end a setting early. *)
Definition plain (s : string) : bool := no_sep " " s && no_sep "=" s && no_sep newline s.

Definition line_wf (l : script_line) : bool :=
  match l with
  | Setting key value => plain key && plain value
  | Code line => negb (HasPrefix line plConfigPrefix) && no_sep newline line
  end.

(** The value of a flag after the settings of a script: the last one. *)
Fixpoint last_setting (key : string) (ls : list script_line) : option string :=
  match ls with
  | [] => None
  | Setting k v :: rest =>
    match last_setting key rest with
    | Some v' => Some v'
    | None => if decide (k = key) then Some v else None
    end
  | Code _ :: rest => last_setting key rest
  end.

(** A setting of a known flag to a value that parses. *)
Definition setting_ok (l : script_line) : bool :=
  match l with
  | Setting k v =>
    if decide (k = "explain" ∨ k = "analyze") then if ParseBool v is inr _ then true else false
    else if decide (k = "max_output_rows_per_table") then if ParseInt v 64 is inr _ then true else false
    else false
  | Code _ => true
  end.

(** The options the settings of a script ask for. *)
Definition bool_option (key : string) (ls : list script_line) : bool :=
  match last_setting key ls with
  | Some v => match ParseBool v with inr b => b | inl _ => false end
  | None => false
  end.

Definition rows_option (ls : list script_line) : Z :=
  match last_setting "max_output_rows_per_table" ls with
  | Some v => match ParseInt v 64 with inr z => z | inl _ => 0 end
  | None => 10000
  end.

Lemma TrimSuffix_cases s c : (∃ t, s = t +:+ String c "" ∧ TrimSuffix s c = t) ∨ TrimSuffix s c = s.
Proof.
  induction s as [|a s IH]; [by right|]. destruct s as [|b s].
  - cbn. case_decide; subst; [left; by exists ""|by right].
  - change (TrimSuffix (String a (String b s)) c) with (String a (TrimSuffix (String b s) c)).
    destruct IH as [(t & Hs & Ht)|IH]; [left|right; by rewrite IH].
    exists (String a t). by rewrite Hs, Ht in *.
Qed.

Lemma split_lines lines :
  lines ≠ [] → Forall (λ l, no_sep newline l = true) lines → split newline (join newline_str lines) = lines.
Proof.
  intros Hne Hl. induction Hl as [|l lines Hl Hls IH]; [done|]. destruct lines as [|l' lines].
  - by apply split_no_sep.
  - rewrite join_cons2. unfold newline_str at 1. rewrite str_app_cons, str_app_empty, split_app_sep.
    by rewrite IH, (split_no_sep _ l) by done.
Qed.

Section settings.
Context `{!CastLib}.

(** A trailing newline adds an empty line, which sets nothing. *)
Lemma parse_lines_empty lines f : parse_lines (lines ++ [""]) f = parse_lines lines f.
Proof.
  revert f. induction lines as [|l lines IH]; intros f; [done|]. cbn.
  destruct (parse_line l f); [done|apply IH].
Qed.

Lemma ParseQueryFlags_lines s : ParseQueryFlags s = parse_lines (split newline s) newQueryFlags.
Proof.
  unfold ParseQueryFlags. destruct (TrimSuffix_cases s newline) as [(t & -> & ->)| ->]; [|done].
  by rewrite split_app_sep, parse_lines_empty.
Qed.

Lemma parse_setting key value f :
  plain key && plain value = true → parse_line (print_line (Setting key value)) f = set key value f.
Proof.
  unfold plain. rewrite !andb_true_iff. intros [[[Hk1 Hk2] Hk3] [[Hv1 Hv2] Hv3]]. unfold parse_line, print_line.
  rewrite HasPrefix_app. change (plConfigPrefix +:+ key +:+ "=" +:+ value) with ("#px:set" +:+ String " " (key +:+ "=" +:+ value)).
  rewrite split_app_sep, (split_no_sep _ (key +:+ _)) by (rewrite !no_sep_app, Hk1, Hv1; done).
  change (split " " "#px:set" ++ [key +:+ "=" +:+ value]) with ["#px:set"; key +:+ String "=" value].
  cbv iota beta. by rewrite split_app_sep, !split_no_sep by done.
Qed.

(** What a setting stores. *)
Definition stored (key value : string) : option flag_value :=
  match defaultQueryFlags !! key with
  | Some d => match typed_value d value with inr v => v | inl _ => None end
  | None => None
  end.

Lemma setting_bool key v :
  key = "explain" ∨ key = "analyze" → setting_ok (Setting key v) = true →
  ∃ b, ParseBool v = inr b ∧ stored key v = Some (VBool b).
Proof.
  intros Hk. unfold setting_ok, stored. rewrite decide_True by done.
  assert (defaultQueryFlags !! key = Some (VBool false)) as -> by (by destruct Hk; subst key).
  unfold typed_value. destruct (ParseBool v); [done|]. eauto.
Qed.

Lemma setting_rows v :
  setting_ok (Setting "max_output_rows_per_table" v) = true →
  ∃ z, ParseInt v 64 = inr z ∧ stored "max_output_rows_per_table" v = Some (VInt64 z).
Proof.
  unfold setting_ok, stored. rewrite decide_False, decide_True by naive_solver.
  change (defaultQueryFlags !! _) with (Some (VInt 10000)). unfold typed_value. destruct (ParseInt v 64); [done|]. eauto.
Qed.

Lemma set_ok key value f :
  setting_ok (Setting key value) = true → set key value f = inr (mkQueryFlags (<[key := stored key value]> (flags f))).
Proof.
  intros Hok. unfold set, stored. unfold setting_ok in Hok. destruct (decide _) as [Hk|Hk].
  - assert (defaultQueryFlags !! key = Some (VBool false)) as -> by (by destruct Hk; subst key).
    unfold typed_value. by destruct (ParseBool value).
  - destruct (decide _) as [-> |]; [|done].
    change (defaultQueryFlags !! _) with (Some (VInt 10000)). unfold typed_value. by destruct (ParseInt value 64).
Qed.

Lemma parse_script ls f :
  Forall (λ l, line_wf l = true) ls → Forall (λ l, setting_ok l = true) ls →
  ∃ f', parse_lines (print_line <$> ls) f = inr f' ∧
    ∀ key, flags f' !! key = match last_setting key ls with
                             | Some v => Some (stored key v)
                             | None => flags f !! key
                             end.
Proof.
  intros Hwf Hok. revert f. induction ls as [|l ls IH]; intros f; [by exists f|].
  apply Forall_cons in Hwf as [Hl Hwf], Hok as [Ho Hok]. cbn [fmap list_fmap parse_lines].
  destruct l as [k v|line].
  - rewrite parse_setting, set_ok by done. destruct (IH Hwf Hok (mkQueryFlags (<[k := stored k v]> (flags f)))) as (f' & Hp & Hf').
    exists f'. split; [done|]. intros key. rewrite Hf'. cbn [last_setting flags].
    destruct (last_setting key ls); [done|]. destruct (decide (k = key)) as [-> |];
      [by rewrite lookup_insert_eq|by rewrite lookup_insert_ne].
  - cbn in Hl. apply andb_true_iff in Hl as [Hp Hn]. unfold parse_line at 1. cbn [print_line].
    apply negb_true_iff in Hp. rewrite Hp. by apply IH.
Qed.

Lemma no_newline_line l : line_wf l = true → no_sep newline (print_line l) = true.
Proof.
  destruct l as [k v|line]; cbn [line_wf print_line].
  - unfold plain. rewrite !andb_true_iff, !no_sep_app. intros [[_ Hk] [_ Hv]]. by rewrite Hk, Hv.
  - by intros [_ ?]%andb_true_iff.
Qed.

Lemma last_setting_ok key ls v :
  Forall (λ l, setting_ok l = true) ls → last_setting key ls = Some v → setting_ok (Setting key v) = true.
Proof.
  induction 1 as [|l ls Hl Hls IH]; [done|]. cbn [last_setting]. destruct l as [k w|]; [|done].
  destruct (last_setting key ls); [by intros [= <-]; apply IH|].
  destruct (decide (k = key)) as [-> |]; [by intros [= <-]|done].
Qed.

Context `{!CastSpec}.

Lemma bool_option_read key ls :
  key = "explain" ∨ key = "analyze" → Forall (λ l, setting_ok l = true) ls →
  ToBool match match last_setting key ls with Some v => Some (stored key v) | None => flags newQueryFlags !! key end with
         | Some v => v
         | None => defaultQueryFlags !! key
         end = bool_option key ls.
Proof.
  intros Hk Hok. unfold bool_option. destruct (last_setting key ls) as [v|] eqn:Hl.
  - apply last_setting_ok, setting_bool in Hl as (b & -> & ->); [apply ToBool_bool|exact Hk|exact Hok].
  - destruct Hk; subst key; apply ToBool_bool.
Qed.

(** C33: the settings of a script, among any other code, give exactly the options of
    its plan: of each flag the last setting counts, and a flag that is not set has
    its default. *)
Theorem script_plan_options ls :
  Forall (λ l, line_wf l = true) ls → Forall (λ l, setting_ok l = true) ls →
  ∃ qf, ParseQueryFlags (print_script ls) = inr qf ∧
    GetPlanOptions qf = planpb.mkPlanOptions (bool_option "explain" ls) (bool_option "analyze" ls) (rows_option ls).
Proof.
  intros Hwf Hok. destruct (parse_script ls newQueryFlags Hwf Hok) as (qf & Hp & Hqf). exists qf. split.
  - rewrite ParseQueryFlags_lines. destruct ls as [|l ls]; [done|]. unfold print_script.
    rewrite split_lines; [done|done|]. apply Forall_fmap.
    eapply Forall_impl; [exact Hwf|]. intros. by apply no_newline_line.
  - unfold GetPlanOptions, GetBool, GetInt64, get, bool_option, rows_option. rewrite !Hqf.
    f_equal.
    + apply bool_option_read; [by left|exact Hok].
    + apply bool_option_read; [by right|exact Hok].
    + destruct (last_setting _ ls) as [v|] eqn:Hl; [|by apply ToInt64_int].
      apply last_setting_ok, setting_rows in Hl as (z & -> & ->); [apply ToInt64_int64|exact Hok].
Qed.
End settings.

(** ** Examples *)

(** A cast that keeps values of the type asked for and gives zero otherwise. *)
Module Plain.
#[export] Instance cast : CastLib := {|
  ToInt64 v := match v with Some (VInt z) | Some (VInt64 z) => z | _ => 0%Z end;
  ToBool v := match v with Some (VBool b) => b | _ => false end;
  ToString v := match v with Some (VString s) => s | _ => "" end;
  ToFloat64 v := match v with Some (VFloat64 z) => z | _ => 0%Z end;
  ParseFloat _ := inl ErrSyntax
|}.

#[export] Instance cast_spec : CastSpec.
Proof. by constructor. Qed.
End Plain.

Definition example_script : list script_line :=
  [Code "import px"; Setting "analyze" "false"; Setting "max_output_rows_per_table" "9999"; Code "";
   Setting "analyze" "true"; Code "px.display(px.DataFrame('process_stats'))"; Code ""].

Lemma script_plan_options_witness :
  ∃ qf, ParseQueryFlags (H := Plain.cast) (print_script example_script) = inr qf ∧
    GetPlanOptions (H := Plain.cast) qf = planpb.mkPlanOptions false true 9999.
Proof.
  apply (@script_plan_options Plain.cast Plain.cast_spec example_script); repeat constructor.
Defined.

Lemma parsed_flags_typed_witness :
  flags_fit (mkQueryFlags {["analyze" := Some (VBool true)]}).
Proof.
  apply (parsed_flags_typed (H := Plain.cast) ("#px:set analyze=1" +:+ newline_str)). vm_compute. reflexivity.
Defined.

(** Settings the parser refuses: a third word, no equals sign, an unknown flag, and
    a carriage return before the end of the line. *)
Example refused_settings :
  ParseQueryFlags (H := Plain.cast) "#px:set analyze=true extra" = inl err_malformed ∧
  ParseQueryFlags (H := Plain.cast) "#px:set analyze,true" = inl err_malformed ∧
  ParseQueryFlags (H := Plain.cast) "#px:set ABCD=efgh" = inl (err_invalid_flag "ABCD") ∧
  ParseQueryFlags (H := Plain.cast) ("#px:set analyze=true" +:+ String "013" newline_str) = inl ErrSyntax.
Proof. by vm_compute. Qed.

(** Every level the broker accepts is redacted exactly as its name says. *)
Lemma redaction_levels str dp :
  CreateDataPrivacyManager str = inr dp →
  RedactionOptions dp = None ∧ str = DataAccessFull ∨
  RedactionOptions dp = Some (distributedpb.mkRedactionOptions true false) ∧ str = DataAccessRestricted ∨
  RedactionOptions dp = Some (distributedpb.mkRedactionOptions false true) ∧ str = DataAccessPIIRestricted.
Proof.
  unfold CreateDataPrivacyManager. case_bool_decide as Hs; [|done]. intros [= <-].
  rewrite !elem_of_cons, elem_of_nil in Hs. destruct Hs as [-> |[-> |[-> |[]]]]; vm_compute; tauto.
Qed.
