(* ===== verification/PlannerMessages.v ===== *)
(** * The planner's interface

    The messages the query broker exchanges with the planner
    ([carnot/planner/distributedpb/distributed_plan.proto],
    [carnot/planner/plannerpb/service.proto]) and with the metadata service about
    tracepoints ([metadata/metadatapb/service.proto]), and the interfaces of the
    two: the planner is C++ code behind [Planner], the metadata service a gRPC
    client behind [MetadataClient]. *)

From S2P Require Import Prelude GoLib Uuid Messages TracepointStore TracepointServer Tracker QueryMessages QueryProto.

Module planner.
(** [distributedpb.DistributedState], without the pointers of the tracker. *)
Record DistributedState := mkDistributedState { CarnotInfo : list Messages.CarnotInfo; SchemaInfo : list Messages.SchemaInfo }.

(** What the planner is told besides the script.  The address and target name of
    the results, the redaction and the debug attributes are set for queries only. *)
Record LogicalPlannerState := mkLogicalPlannerState {
  lps_DistributedState : DistributedState;
  lps_PlanOptions : planpb.PlanOptions;
  lps_ResultAddress : string;
  lps_ResultSSLTargetName : string;
  lps_RedactionOptions : option distributedpb.RedactionOptions;
  lps_OTelEndpointConfig : option distributedpb.OTelEndpointConfig;
  lps_PluginConfig : option distributedpb.PluginConfig;
  lps_DebugInfo : list (string * string)
}.

(** [plannerpb.CompileMutation]: the oneof. *)
Inductive CompileMutation : Type :=
| Trace (deployment : TracepointDeployment)
| DeleteTracepoint (name : string)
| ConfigUpdate (key value agentPodName : string).

Record CompileMutationsResponse := mkCompileMutationsResponse {
  cm_Status : option Status; cm_Mutations : list (option CompileMutation)
}.

Record LogicalPlannerResult := mkLogicalPlannerResult {
  pl_Status : option Status; pl_Plan : option distributedpb.DistributedPlan
}.

Record GenerateOTelScriptResponse := mkGenerateOTelScriptResponse { os_Status : option Status; os_OTelScript : string }.
End planner.

(** The interface [Planner] of [server.go]: a request with the state set on it. *)
Class Planner := {
  Plan : PlannerRequest → planner.LogicalPlannerState → error + planner.LogicalPlannerResult;
  CompileMutations : PlannerRequest → planner.LogicalPlannerState → error + planner.CompileMutationsResponse;
  planner_GenerateOTelScript : planner.DistributedState → string → error + planner.GenerateOTelScriptResponse
}.

Module metadatapb.
Record TracepointRequest := mkTracepointRequest {
  Deployment : TracepointDeployment; Name : string; TTL : option (Z * Z)
}.

Record TracepointStatus := mkTracepointStatus { ts_Status : option Status; ts_ID : option UUIDpb; ts_Name : string }.

Record RegisterTracepointResponse := mkRegisterTracepointResponse {
  Tracepoints : list TracepointStatus; RegisterStatus : option Status
}.

Record UpdateConfigRequest := mkUpdateConfigRequest { Key : string; Value : string; AgentPodName : string }.
End metadatapb.

(** [MetadataTracepointServiceClient] and [MetadataConfigServiceClient]; a call may
    change the state [W] of the metadata service, also when it fails. *)
Class MetadataClient (W : Type) := {
  md_RegisterTracepoint : list metadatapb.TracepointRequest → M W metadatapb.RegisterTracepointResponse;
  md_RemoveTracepoint : list string → M W (option Status);
  md_GetTracepointInfo : list UUIDpb → M W (list TracepointState);
  md_UpdateConfig : metadatapb.UpdateConfigRequest → M W (option Status)
}.

(** What the executor relies on: a registration is answered with one status per
    request, in order. *)
Class MetadataClientSpec (W : Type) `{!MetadataClient W} : Prop := {
  md_names reqs w resp w' :
    md_RegisterTracepoint reqs w = (Ret resp, w') →
    metadatapb.ts_Name <$> metadatapb.Tracepoints resp = metadatapb.Name <$> reqs
}.

(** [s != nil && s.ErrCode != statuspb.OK]. *)
Definition bad_status (s : option Status) : bool :=
  match s with Some s => negb (st_ErrCode s =? statuspb.OK)%Z | None => false end.

(** The configuration of a converted request as the planner's state has it. *)
Definition otel_config (c : option plannerpb.Configs) : option distributedpb.OTelEndpointConfig :=
  c ← c; o ← plannerpb.OTel c;
  Some (distributedpb.mkOTelEndpointConfig (plannerpb.URL o) (plannerpb.Headers o) (plannerpb.Insecure o) (plannerpb.Timeout o)).
