(* ===== verification/MutationExecutor.v ===== *)
(** * The mutation executor

    [query_broker/controllers/mutation_executor.go]: the mutations of a script
    (deploying and deleting tracepoints, updating the configuration of an agent)
    are compiled by the planner and sent to the metadata service. *)

From S2P Require Import Prelude GoLib Uuid Messages TracepointStore TracepointServer QueryMessages QueryProto PlannerMessages.

(** [errors.go]. *)
Definition ErrTracepointRegistrationFailed : error := ErrMsg "failed to register tracepoints".
Definition ErrTracepointDeletionFailed : error := ErrMsg "failed to delete tracepoints".
Definition ErrConfigUpdateFailed : error := ErrMsg "failed to update config".
Definition err_name_used (name : string) : error := ErrMsg ("tracepoint with name '" +:+ name +:+ "', already used").

Module mutation.
(** [TracepointInfo] of the executor. *)
Record TracepointInfo `{U : UUIDLib} := mkTracepointInfo { Name : string; ID : uuid; InfoStatus : option Status }.
Arguments mkTracepointInfo {U}.

Record MutationExecutorImpl `{U : UUIDLib} := mkMutationExecutor {
  activeTracepoints : gmap string TracepointInfo;
  outputTables : list string;
  distributedState : planner.DistributedState
}.
Arguments mkMutationExecutor {U}.

(** The requests the loop over the mutations collects, and the output tables. *)
Record requests := mkRequests {
  registerReqs : list metadatapb.TracepointRequest;
  deleteNames : list string;
  configReqs : list metadatapb.UpdateConfigRequest;
  tables : gset string
}.
End mutation.
Import mutation.

Definition NewMutationExecutor `{U : UUIDLib} (ds : planner.DistributedState) : MutationExecutorImpl := mkMutationExecutor ∅ [] ds.

Section executor.
Context `{U : UUIDLib} `{!Planner} {W : Type} `{!MetadataClient W}.

(** Iteration orders of the map of output tables and of the active tracepoints. *)
Context (tables_order : gset string → list string).
Context (tps_order : gmap string TracepointInfo → list (string * TracepointInfo)).

(** The executor and the metadata service it calls. *)
Definition state : Type := MutationExecutorImpl * W.
Definition md_call {A} (m : M W A) : M state A := zoom snd (λ w s, (s.1, w)) m.
Definition on_active (g : gmap string TracepointInfo → gmap string TracepointInfo) : M state unit :=
  modify (λ s, (mkMutationExecutor (g (activeTracepoints s.1)) (outputTables s.1) (distributedState s.1), s.2)).

Definition planner_state (req : vizierpb.ExecuteScriptRequest) (converted : PlannerRequest) (planOpts : planpb.PlanOptions)
    (ds : planner.DistributedState) : planner.LogicalPlannerState :=
  planner.mkLogicalPlannerState ds planOpts "" "" None (otel_config (pr_Configs converted))
    (c ← vizierpb.RequestConfigs req; p ← vizierpb.Plugin c;
     Some (distributedpb.mkPluginConfig (vizierpb.StartTimeNs p) (vizierpb.EndTimeNs p))) [].

(** The loop over the programs of a trace. *)
Fixpoint program_tables (programs : list (option TracepointProgram)) (out : gset string) : M state (gset string) :=
  match programs with
  | [] => mret out
  | p :: programs => p ← deref p; program_tables programs ({[tpp_TableName p]} ∪ out)
  end.

(** The loop over the mutations. *)
Fixpoint collect (muts : list (option planner.CompileMutation)) (r : requests) : M state requests :=
  match muts with
  | [] => mret r
  | Some (planner.Trace trace) :: muts =>
    let name := td_Name trace in
    let reqs := registerReqs r ++ [metadatapb.mkTracepointRequest trace name (td_TTL trace)] in
    s ← get_state;
    match activeTracepoints s.1 !! name with
    | Some _ => fail (err_name_used name)
    | None =>
      tables' ← program_tables (td_Programs trace) (tables r);
      _ ← on_active <[name := mkTracepointInfo name uuid_Nil None]>;
      collect muts (mkRequests reqs (deleteNames r) (configReqs r) tables')
    end
  | Some (planner.DeleteTracepoint name) :: muts =>
    collect muts (mkRequests (registerReqs r) (deleteNames r ++ [name]) (configReqs r) (tables r))
  | Some (planner.ConfigUpdate key value pod) :: muts =>
    collect muts (mkRequests (registerReqs r) (deleteNames r)
      (configReqs r ++ [metadatapb.mkUpdateConfigRequest key value pod]) (tables r))
  | None :: muts => collect muts r
  end.

(** [m.activeTracepoints[tp.Name].ID = id] and the same for the status: the pointer
    of a name that is not in the map is nil. *)
Definition update_info (tp : metadatapb.TracepointStatus) : M state unit :=
  s ← get_state;
  info ← deref (activeTracepoints s.1 !! metadatapb.ts_Name tp);
  on_active <[metadatapb.ts_Name tp :=
    mkTracepointInfo (Name info) (UUIDFromProtoOrNil (metadatapb.ts_ID tp)) (metadatapb.ts_Status tp)]>.

(** The status that comes with the errors of a bad status is left out: the callers
    look at the error first. *)
Definition register_tracepoints (reqs : list metadatapb.TracepointRequest) : M state unit :=
  match reqs with
  | [] => mret tt
  | _ =>
    res ← try (md_call (md_RegisterTracepoint reqs));
    match res with
    | inl _ => fail ErrTracepointRegistrationFailed
    | inr resp =>
      if bad_status (metadatapb.RegisterStatus resp) then fail ErrTracepointRegistrationFailed
      else forM_ (metadatapb.Tracepoints resp) update_info
    end
  end.

Definition delete_tracepoints (names : list string) : M state unit :=
  match names with
  | [] => mret tt
  | _ =>
    res ← try (md_call (md_RemoveTracepoint names));
    match res with
    | inl _ => fail ErrTracepointDeletionFailed
    | inr status =>
      if bad_status status then fail ErrTracepointDeletionFailed
      else forM_ names (λ name, on_active (delete name))
    end
  end.

Definition update_config (req : metadatapb.UpdateConfigRequest) : M state unit :=
  res ← try (md_call (md_UpdateConfig req));
  match res with
  | inl _ => fail ErrConfigUpdateFailed
  | inr status => if bad_status status then fail ErrConfigUpdateFailed else mret tt
  end.

(** [authToken] is what [authcontext.FromContext] gives; a status is returned for a
    script that does not compile. *)
Definition Execute (authToken : error + string) (req : vizierpb.ExecuteScriptRequest) (planOpts : planpb.PlanOptions)
    : M state (option Status) :=
  let convertedReq := VizierQueryRequestToPlannerMutationRequest req in
  s ← get_state;
  mutations ← lift_sum (CompileMutations convertedReq (planner_state req convertedReq planOpts (distributedState s.1)));
  if bad_status (planner.cm_Status mutations) then mret (planner.cm_Status mutations)
  else
    _ ← lift_sum authToken;
    match planner.cm_Mutations mutations with
    | [] => mret None
    | muts =>
      r ← collect muts (mkRequests [] [] [] ∅);
      _ ← register_tracepoints (registerReqs r);
      _ ← delete_tracepoints (deleteNames r);
      _ ← forM_ (configReqs r) update_config;
      _ ← modify (λ s, (mkMutationExecutor (activeTracepoints s.1) (tables_order (tables r)) (distributedState s.1), s.2));
      mret None
    end.

Definition isSchemaReady (m : MutationExecutorImpl) : bool :=
  let schemaNames : gset string := list_to_set (si_Name <$> planner.SchemaInfo (distributedState m)) in
  forallb (λ s, bool_decide (s ∈ schemaNames)) (outputTables m).

Definition mutation_state (tp : TracepointState) : vizierpb.MutationState :=
  vizierpb.mkMutationState (uuid_String (UUIDFromProtoOrNil (tst_ID tp)))
    (convertLifeCycleStateToVizierLifeCycleState (tst_State tp)) (tst_Name tp).

Definition MutationInfo (authToken : error + string) : M state vizierpb.MutationInfo :=
  s ← get_state;
  let ids := (λ tp, ProtoFromUUID (ID tp.2)) <$> tps_order (activeTracepoints s.1) in
  _ ← lift_sum authToken;
  tps ← md_call (md_GetTracepointInfo ids);
  let states := mutation_state <$> tps in
  let tpReady := forallb (λ tp, bool_decide (tst_State tp = RUNNING_STATE)) tps in
  if negb tpReady then
    mret (vizierpb.mkMutationInfo (vizierpb.mkStatus codes.Unavailable "probe installation in progress" []) states)
  else if negb (isSchemaReady s.1) then
    mret (vizierpb.mkMutationInfo (vizierpb.mkStatus codes.Unavailable "Schema is not ready yet" []) states)
  else mret (vizierpb.mkMutationInfo (vizierpb.mkStatus 0 "" []) states).
End executor.

(** ** What a list of mutations asks for *)

Definition traces (muts : list (option planner.CompileMutation)) : list TracepointDeployment :=
  omap (λ m, match m with Some (planner.Trace t) => Some t | _ => None end) muts.

Definition deletions (muts : list (option planner.CompileMutation)) : list string :=
  omap (λ m, match m with Some (planner.DeleteTracepoint name) => Some name | _ => None end) muts.

Definition config_updates (muts : list (option planner.CompileMutation)) : list metadatapb.UpdateConfigRequest :=
  omap (λ m, match m with
             | Some (planner.ConfigUpdate k v pod) => Some (metadatapb.mkUpdateConfigRequest k v pod)
             | _ => None
             end) muts.

Definition trace_request (t : TracepointDeployment) : metadatapb.TracepointRequest :=
  metadatapb.mkTracepointRequest t (td_Name t) (td_TTL t).

(** The output tables of the programs of a trace, all of which are present. *)
Definition trace_tables (t : TracepointDeployment) : gset string := list_to_set (tpp_TableName <$> omap id (td_Programs t)).
Definition programs_present (t : TracepointDeployment) : Prop := Forall is_Some (td_Programs t).

Section facts.
Context `{U : UUIDLib} `{!Planner} {W : Type} `{!MetadataClient W}.
Implicit Types (muts : list (option planner.CompileMutation)) (s : state (W := W)).

Definition with_active (g : gmap string TracepointInfo → gmap string TracepointInfo) s : state :=
  (mkMutationExecutor (g (activeTracepoints s.1)) (outputTables s.1) (distributedState s.1), s.2).

Lemma with_active_compose g h s : with_active h (with_active g s) = with_active (h ∘ g) s.
Proof. done. Qed.

Lemma with_active_id s : with_active id s = s.
Proof. by destruct s as [[a o d] w]. Qed.

Lemma program_tables_run ps out s :
  Forall is_Some ps → program_tables ps out s = (Ret (list_to_set (tpp_TableName <$> omap id ps) ∪ out), s).
Proof.
  intros Hps. revert out. induction Hps as [|p ps [q ->] Hps IH]; intros out; cbn [program_tables].
  - cbn. by rewrite (left_id_L ∅ (∪)).
  - rewrite (bind_ret _ _ _ q s eq_refl), IH. cbn. do 2 f_equal. set_solver.
Qed.

Definition fresh_info (t : TracepointDeployment) : string * TracepointInfo :=
  (td_Name t, mkTracepointInfo (td_Name t) uuid_Nil None).

Definition all_tables muts : gset string := ⋃ (trace_tables <$> traces muts).

Definition add_requests (r : requests) muts : requests :=
  mkRequests (registerReqs r ++ (trace_request <$> traces muts)) (deleteNames r ++ deletions muts)
    (configReqs r ++ config_updates muts) (all_tables muts ∪ tables r).

Lemma add_requests_cons r m muts :
  add_requests (add_requests r [m]) muts = add_requests r (m :: muts).
Proof.
  unfold add_requests, traces, deletions, config_updates, all_tables. cbn [registerReqs deleteNames configReqs tables].
  destruct m as [[]|]; cbn; rewrite <-?(assoc_L (++)), ?app_nil_r; cbn; f_equal; set_solver.
Qed.

(** The loop over mutations with new and distinct names. *)
Lemma collect_run muts r s :
  NoDup (td_Name <$> traces muts) → Forall programs_present (traces muts) →
  (∀ t, t ∈ traces muts → activeTracepoints s.1 !! td_Name t = None) →
  collect muts r s =
    (Ret (add_requests r muts), with_active (λ a, list_to_map (fresh_info <$> traces muts) ∪ a) s).
Proof.
  revert r s. induction muts as [|m muts IH]; intros r s Hnd Hp Hnew.
  { destruct r as [rr dn cr tb], s as [[a o d] w]. unfold add_requests, with_active. cbn.
    by rewrite !app_nil_r, !(left_id_L ∅ (∪)). }
  rewrite <-add_requests_cons. destruct m as [[t|name|k v pod]|]; cbn [collect].
  - change (traces (_ :: muts)) with (t :: traces muts) in *. cbn [fmap list_fmap] in Hnd.
    apply NoDup_cons in Hnd as [Ht Hnd]. apply Forall_cons in Hp as [Ht' Hp].
    rewrite get_bind, Hnew by (by left). rewrite (bind_ret _ _ _ _ _ (program_tables_run _ _ _ Ht')).
    unfold on_active. rewrite modify_bind. rewrite IH; [|done..|].
    + f_equal; [by f_equal; unfold add_requests, all_tables; cbn; rewrite (right_id_L ∅ (∪)), !app_nil_r|].
      unfold with_active. cbn [fst snd activeTracepoints outputTables distributedState]. do 2 f_equal.
      cbn [fmap list_fmap list_to_map foldr fst snd fresh_info]. rewrite <-insert_union_l, insert_union_r; [done|].
      apply not_elem_of_list_to_map_1. by rewrite <-list_fmap_compose.
    + cbn. intros t' Ht2. rewrite lookup_insert_ne; [by apply Hnew; right|].
      intros He. apply Ht. rewrite He. by apply list_elem_of_fmap_2.
  - rewrite IH by done. unfold add_requests, all_tables. cbn. by rewrite (left_id_L ∅ (∪)), !app_nil_r.
  - rewrite IH by done. unfold add_requests, all_tables. cbn. by rewrite (left_id_L ∅ (∪)), !app_nil_r.
  - rewrite IH by done. unfold add_requests, all_tables. cbn. by rewrite (left_id_L ∅ (∪)), !app_nil_r.
Qed.
(** What the executor knows of a registered tracepoint. *)
Definition reg_info (tp : metadatapb.TracepointStatus) : string * TracepointInfo :=
  (metadatapb.ts_Name tp,
   mkTracepointInfo (metadatapb.ts_Name tp) (UUIDFromProtoOrNil (metadatapb.ts_ID tp)) (metadatapb.ts_Status tp)).

Lemma update_infos_run resp s :
  NoDup (metadatapb.ts_Name <$> resp) →
  (∀ tp, tp ∈ resp → ∃ info, activeTracepoints s.1 !! metadatapb.ts_Name tp = Some info ∧ Name info = metadatapb.ts_Name tp) →
  forM_ resp update_info s = (Ret tt, with_active (λ a, list_to_map (reg_info <$> resp) ∪ a) s).
Proof.
  revert s. induction resp as [|tp resp IH]; intros s Hnd Hin.
  { cbn. destruct s as [[a o d] w]. unfold with_active. cbn. by rewrite (left_id_L ∅ (∪)). }
  cbn [fmap list_fmap] in Hnd. apply NoDup_cons in Hnd as [Ht Hnd]. cbn [forM_].
  destruct (Hin tp) as (info & Hi & Hn); [by left|].
  rewrite (bind_ret _ _ s tt (with_active <[metadatapb.ts_Name tp := (reg_info tp).2]> s));
    [|unfold update_info, reg_info; by rewrite get_bind, Hi, (bind_ret (deref (Some info)) _ s info s eq_refl), Hn].
  rewrite IH; [|done|].
  - unfold with_active. cbn [fst snd activeTracepoints outputTables distributedState fmap list_fmap list_to_map foldr].
    rewrite <-insert_union_l, insert_union_r; [done|].
    apply not_elem_of_list_to_map_1. by rewrite <-list_fmap_compose.
  - cbn. intros tp' Htp. rewrite lookup_insert_ne; [by apply Hin; right|].
    intros He. apply Ht. rewrite He. by apply list_elem_of_fmap_2.
Qed.

Lemma deletes_run names s :
  forM_ names (λ name, on_active (delete name)) s = (Ret tt, with_active (filter (λ kv, kv.1 ∉ names)) s).
Proof.
  revert s. induction names as [|name names IH]; intros s; cbn [forM_].
  - destruct s as [[a o d] w]. unfold with_active. cbn. do 4 f_equal. symmetry. apply map_filter_id. set_solver.
  - rewrite (bind_ret _ _ s tt (with_active (delete name) s) eq_refl), IH. unfold with_active. cbn. do 3 f_equal. apply map_eq. intros k.
    rewrite !map_lookup_filter. destruct (decide (k = name)) as [-> |Hk].
    + rewrite lookup_delete_eq. destruct (activeTracepoints s.1 !! name); [|done]. cbn.
      rewrite option_guard_False; [done|set_solver].
    + rewrite lookup_delete_ne by done. destruct (activeTracepoints s.1 !! k); [|done]. cbn.
      apply option_guard_iff. set_solver.
Qed.

(** The calls of a list of mutations to the metadata service, all of which succeed:
    from [w] to [w'], with the answer [resp] to the registration. *)
Definition registered muts (w : W) (resp : list metadatapb.TracepointStatus) (w' : W) : Prop :=
  match trace_request <$> traces muts with
  | [] => resp = [] ∧ w' = w
  | reqs => ∃ status, md_RegisterTracepoint reqs w = (Ret (metadatapb.mkRegisterTracepointResponse resp status), w') ∧
              bad_status status = false
  end.

Definition removed muts (w w' : W) : Prop :=
  match deletions muts with
  | [] => w' = w
  | names => ∃ status, md_RemoveTracepoint names w = (Ret status, w') ∧ bad_status status = false
  end.

Fixpoint configured (reqs : list metadatapb.UpdateConfigRequest) (w w' : W) : Prop :=
  match reqs with
  | [] => w' = w
  | req :: reqs => ∃ status w1, md_UpdateConfig req w = (Ret status, w1) ∧ bad_status status = false ∧ configured reqs w1 w'
  end.
(** The executor after mutations that were applied: the tracepoints it registered
    and did not delete. *)
Definition applied muts (resp : list metadatapb.TracepointStatus) : gmap string TracepointInfo :=
  filter (λ kv, kv.1 ∉ deletions muts) (list_to_map (reg_info <$> resp)).

Lemma md_call_ret {A} (m : M W A) s a w : m s.2 = (Ret a, w) → md_call m s = (Ret a, (s.1, w)).
Proof. intros Hm. unfold md_call, zoom. by rewrite Hm. Qed.

Lemma map_union_same_dom (m1 m2 : gmap string TracepointInfo) : dom m2 ⊆ dom m1 → m1 ∪ m2 = m1.
Proof.
  intros Hd. apply map_eq. intros k. rewrite lookup_union. destruct (m1 !! k) eqn:H1; [by destruct (m2 !! k)|].
  apply not_elem_of_dom in H1. destruct (m2 !! k) eqn:H2; [|done]. apply elem_of_dom_2 in H2. set_solver.
Qed.

Lemma dom_names {X} (f : X → string * TracepointInfo) l : dom (list_to_map (f <$> l) : gmap string TracepointInfo) = list_to_set (fst ∘ f <$> l).
Proof. by rewrite dom_list_to_map_L, <-list_fmap_compose. Qed.

Lemma register_run muts resp s w' :
  registered muts s.2 resp w' → metadatapb.ts_Name <$> resp = td_Name <$> traces muts →
  NoDup (td_Name <$> traces muts) → activeTracepoints s.1 = list_to_map (fresh_info <$> traces muts) →
  register_tracepoints (trace_request <$> traces muts) s =
    (Ret tt, with_active (λ _, list_to_map (reg_info <$> resp)) (s.1, w')).
Proof.
  intros Hreg Hnames Hnd Ha. unfold registered in Hreg. unfold register_tracepoints.
  destruct (trace_request <$> traces muts) as [|req reqs] eqn:Er.
  - destruct Hreg as [-> ->]. apply fmap_nil_inv in Er. rewrite Er in Ha. destruct s as [[a o d] w]. cbn in *. by subst a.
  - destruct Hreg as (status & Hcall & Hst).
    rewrite (bind_ret _ _ _ _ _ (try_ret _ _ _ _ (md_call_ret _ s _ _ Hcall))). cbn [metadatapb.RegisterStatus metadatapb.Tracepoints].
    rewrite Hst, update_infos_run.
    + unfold with_active. cbn. rewrite Ha, map_union_same_dom; [done|].
      rewrite !dom_names. change (fst ∘ reg_info) with metadatapb.ts_Name. change (fst ∘ fresh_info) with td_Name. by rewrite Hnames.
    + by rewrite Hnames.
    + intros tp Htp. cbn. rewrite Ha. exists (mkTracepointInfo (metadatapb.ts_Name tp) uuid_Nil None). split; [|done].
      apply (list_elem_of_fmap_2 metadatapb.ts_Name) in Htp. rewrite Hnames in Htp.
      apply list_elem_of_fmap in Htp as (t & -> & Ht). apply elem_of_list_to_map.
      * by rewrite <-list_fmap_compose.
      * by apply (list_elem_of_fmap_2 fresh_info).
Qed.

Lemma delete_run muts s w' :
  removed muts s.2 w' →
  delete_tracepoints (deletions muts) s = (Ret tt, with_active (filter (λ kv, kv.1 ∉ deletions muts)) (s.1, w')).
Proof.
  unfold removed, delete_tracepoints. destruct (deletions muts) as [|n names] eqn:Ed.
  - intros ->. pose proof (deletes_run [] s) as Hd. destruct s as [e w]. exact Hd.
  - intros (status & Hcall & Hst). rewrite (bind_ret _ _ _ _ _ (try_ret _ _ _ _ (md_call_ret _ s _ _ Hcall))), Hst.
    apply deletes_run.
Qed.

Lemma configs_run reqs s w' : configured reqs s.2 w' → forM_ reqs update_config s = (Ret tt, (s.1, w')).
Proof.
  revert s. induction reqs as [|req reqs IH]; intros s; cbn.
  - intros ->. by destruct s.
  - intros (status & w1 & Hcall & Hst & Hrest). rewrite (bind_ret _ _ s tt (s.1, w1)); [by apply (IH (s.1, w1))|].
    unfold update_config. rewrite (bind_ret _ _ _ _ _ (try_ret _ _ _ _ (md_call_ret _ s _ _ Hcall))). by rewrite Hst.
Qed.

Lemma collect_app pre post r s : collect (pre ++ post) r s = (collect pre r ≫= collect post) s.
Proof.
  revert r s. induction pre as [|m pre IH]; intros r s; [done|]. destruct m as [[t|n|k v p]|]; cbn [app collect]; try apply IH.
  unfold mbind, M_bind, get_state. destruct (activeTracepoints s.1 !! td_Name t); [done|].
  destruct (program_tables (td_Programs t) (tables r) s) as [[T|e|c] s1]; [|done..].
  destruct (on_active _ s1) as [[[]|e|c] s2]; [|done..]. apply IH.
Qed.

(** The first trace whose name an earlier one has. *)
Lemma first_duplicate muts :
  ¬ NoDup (td_Name <$> traces muts) →
  ∃ pre t post, muts = pre ++ Some (planner.Trace t) :: post ∧
    NoDup (td_Name <$> traces pre) ∧ td_Name t ∈ td_Name <$> traces pre.
Proof.
  induction muts as [|m muts IH] using rev_ind; intros Hd; [by destruct Hd; constructor|].
  destruct (decide (NoDup (td_Name <$> traces muts))) as [Hnd|Hnd].
  - unfold traces in Hd. rewrite omap_app in Hd. fold (traces muts) in Hd.
    destruct m as [[t|n|k v p]|]; cbn in Hd; rewrite ?app_nil_r in Hd; try done.
    exists muts, t, []. split; [done|]. split; [done|].
    destruct (decide (td_Name t ∈ td_Name <$> traces muts)) as [|Hn]; [done|]. destruct Hd.
    rewrite fmap_app. apply NoDup_app. split; [done|]. split; [set_solver|]. apply NoDup_singleton.
  - destruct (IH Hnd) as (pre & t & post & -> & Hp & Ht). exists pre, t, (post ++ [m]).
    by rewrite <-app_assoc.
Qed.

Lemma collect_refused muts r ds (w : W) :
  ¬ NoDup (td_Name <$> traces muts) → Forall programs_present (traces muts) →
  ∃ name e, name ∈ td_Name <$> traces muts ∧ collect muts r (NewMutationExecutor ds, w) = (Err (err_name_used name), (e, w)).
Proof.
  intros Hd Hp. destruct (first_duplicate muts Hd) as (pre & t & post & -> & Hnd & Ht). unfold traces in Hp |- *.
  rewrite omap_app in Hp |- *. apply Forall_app in Hp as [Hp _]. exists (td_Name t).
  exists (mkMutationExecutor (list_to_map (fresh_info <$> traces pre)) [] ds). split; [rewrite fmap_app; set_solver|].
  rewrite collect_app, (bind_ret _ _ _ _ _ (collect_run pre _ (NewMutationExecutor ds, w) Hnd Hp (λ t _, lookup_empty _))).
  cbn [collect]. rewrite get_bind. unfold with_active. cbn [fst snd activeTracepoints outputTables distributedState NewMutationExecutor].
  rewrite (right_id_L ∅ (∪)). destruct (list_to_map (fresh_info <$> traces pre) !! td_Name t) eqn:Hl; [done|].
  apply not_elem_of_list_to_map_2 in Hl. rewrite <-list_fmap_compose in Hl. by destruct Hl.
Qed.

Context (tables_order : gset string → list string) (Htables : ∀ T, tables_order T ≡ₚ elements T).

(** The mutations the planner finds in a script. *)
Definition compiled (req : vizierpb.ExecuteScriptRequest) (planOpts : planpb.PlanOptions) (ds : planner.DistributedState) muts : Prop :=
  let converted := VizierQueryRequestToPlannerMutationRequest req in
  ∃ status, CompileMutations converted (planner_state req converted planOpts ds) = inr (planner.mkCompileMutationsResponse status muts) ∧
    bad_status status = false.

Lemma Execute_compiled token req planOpts ds muts (w : W) :
  compiled req planOpts ds muts →
  Execute tables_order (inr token) req planOpts (NewMutationExecutor ds, w) =
    match muts with
    | [] => (Ret None, (NewMutationExecutor ds, w))
    | _ => (r ← collect muts (mkRequests [] [] [] ∅);
            _ ← register_tracepoints (registerReqs r);
            _ ← delete_tracepoints (deleteNames r);
            _ ← forM_ (configReqs r) update_config;
            _ ← modify (λ s, (mkMutationExecutor (activeTracepoints s.1) (tables_order (tables r)) (distributedState s.1), s.2));
            mret None) (NewMutationExecutor ds, w)
    end.
Proof.
  intros (status & Hc & Hst). unfold Execute. rewrite get_bind. cbn [fst NewMutationExecutor distributedState].
  rewrite (bind_ret _ _ _ _ _ (lift_sum_ret _ _ _ Hc)). cbn [planner.cm_Status planner.cm_Mutations].
  rewrite Hst, (bind_ret _ _ _ _ _ (lift_sum_ret (inr token) _ _ eq_refl)). by destruct muts.
Qed.

Lemma Execute_applied token req planOpts ds muts resp (w w1 w2 w3 : W) :
  compiled req planOpts ds muts →
  NoDup (td_Name <$> traces muts) → Forall programs_present (traces muts) →
  registered muts w resp w1 → metadatapb.ts_Name <$> resp = td_Name <$> traces muts →
  removed muts w1 w2 → configured (config_updates muts) w2 w3 →
  ∃ out, Execute tables_order (inr token) req planOpts (NewMutationExecutor ds, w) =
      (Ret None, (mkMutationExecutor (applied muts resp) out ds, w3)) ∧
    out ≡ₚ elements (all_tables muts).
Proof.
  intros Hc Hnd Hp Hreg Hnames Hrem Hconf. rewrite (Execute_compiled _ _ _ _ _ _ Hc). destruct muts as [|m muts].
  { cbn in *. destruct Hreg as [-> ->]. subst. exists []. by rewrite elements_empty. }
  set (ms := m :: muts) in *. rewrite (bind_ret _ _ _ _ _ (collect_run ms _ (NewMutationExecutor ds, w) Hnd Hp (λ t _, lookup_empty _))).
  unfold with_active. cbn [fst snd activeTracepoints outputTables distributedState NewMutationExecutor].
  rewrite (right_id_L ∅ (∪)). cbn [add_requests registerReqs deleteNames configReqs tables app].
  set (e := mkMutationExecutor (list_to_map (fresh_info <$> traces ms)) [] ds).
  rewrite (bind_ret _ _ _ _ _ (register_run ms resp (e, w) w1 Hreg Hnames Hnd eq_refl)).
  rewrite (bind_ret _ _ _ _ _ (delete_run ms (with_active (λ _, list_to_map (reg_info <$> resp)) (e, w1)) w2 Hrem)).
  rewrite (bind_ret _ _ _ _ _ (configs_run _ (mkMutationExecutor (applied ms resp) [] ds, w2) w3 Hconf)).
  eexists. split; [reflexivity|]. rewrite Htables. by rewrite (right_id_L ∅ (∪)).
Qed.

(** C31: the mutations of a script with distinct trace names, when the metadata
    service accepts the calls, are all applied: the traces are registered in one
    call, then the deletions are sent in one call, then each configuration update
    in order; the executor keeps the registered tracepoints that were not
    deleted, with the identifiers the service gave them, and the output tables
    of the traces. *)
Theorem mutations_applied token req planOpts ds muts resp (w w1 w2 w3 : W) :
  compiled req planOpts ds muts →
  NoDup (td_Name <$> traces muts) → Forall programs_present (traces muts) →
  registered muts w resp w1 → metadatapb.ts_Name <$> resp = td_Name <$> traces muts →
  removed muts w1 w2 → configured (config_updates muts) w2 w3 →
  ∃ out, Execute tables_order (inr token) req planOpts (NewMutationExecutor ds, w) =
      (Ret None, (mkMutationExecutor (applied muts resp) out ds, w3)) ∧
    out ≡ₚ elements (all_tables muts).
Proof. apply Execute_applied. Qed.
(** a script that uses a trace name twice is refused before any call to the
    metadata service. *)
Theorem duplicate_trace_refused token req planOpts ds muts (w : W) :
  compiled req planOpts ds muts → ¬ NoDup (td_Name <$> traces muts) → Forall programs_present (traces muts) →
  ∃ name e, name ∈ td_Name <$> traces muts ∧
    Execute tables_order (inr token) req planOpts (NewMutationExecutor ds, w) = (Err (err_name_used name), (e, w)).
Proof.
  intros Hc Hd Hp. rewrite (Execute_compiled _ _ _ _ _ _ Hc).
  destruct (collect_refused muts (mkRequests [] [] [] ∅) ds w Hd Hp) as (name & e & Hin & Hr).
  exists name, e. split; [done|]. destruct muts as [|m muts]; [by apply elem_of_nil in Hin|]. by apply bind_err.
Qed.

Context (tps_order : gmap string TracepointInfo → list (string * TracepointInfo)).

(** The names of the tables the planner knows. *)
Definition known_tables (ds : planner.DistributedState) : list string := si_Name <$> planner.SchemaInfo ds.

Lemma forallb_decide {X} (P : X → Prop) `{∀ x, Decision (P x)} l :
  forallb (λ x, bool_decide (P x)) l = true ↔ ∀ x, x ∈ l → P x.
Proof.
  rewrite forallb_forall. setoid_rewrite <-list_elem_of_In. by setoid_rewrite bool_decide_eq_true.
Qed.

Lemma isSchemaReady_spec (e : MutationExecutorImpl) :
  isSchemaReady e = true ↔ ∀ table, table ∈ outputTables e → table ∈ known_tables (distributedState e).
Proof.
  unfold isSchemaReady. rewrite forallb_decide. by setoid_rewrite elem_of_list_to_set.
Qed.

Lemma MutationInfo_run token (e : MutationExecutorImpl) (w w' : W) tps :
  md_GetTracepointInfo ((λ tp, ProtoFromUUID (ID tp.2)) <$> tps_order (activeTracepoints e)) w = (Ret tps, w') →
  ∃ info, MutationInfo tps_order (inr token) (e, w) = (Ret info, (e, w')) ∧
    vizierpb.States info = mutation_state <$> tps ∧
    (vizierpb.Code (vizierpb.MutationStatus info) = codes.OK ∨
     vizierpb.Code (vizierpb.MutationStatus info) = codes.Unavailable) ∧
    (vizierpb.Code (vizierpb.MutationStatus info) = codes.OK ↔
       (∀ tp, tp ∈ tps → tst_State tp = RUNNING_STATE) ∧
       (∀ table, table ∈ outputTables e → table ∈ known_tables (distributedState e))).
Proof.
  intros Hcall. unfold MutationInfo. rewrite get_bind, (bind_ret _ _ _ _ _ (lift_sum_ret (inr token) _ _ eq_refl)).
  rewrite (bind_ret _ _ _ _ _ (md_call_ret _ (e, w) _ _ Hcall)). cbn [fst].
  pose proof (forallb_decide (λ tp, tst_State tp = RUNNING_STATE) tps) as Hrun. pose proof (isSchemaReady_spec e) as Hsch.
  destruct (forallb _ tps), (isSchemaReady e); cbn;
    eexists; (split; [reflexivity|]); cbn;
    (split; [done|]); (split; [by auto|]); rewrite <-Hrun, <-Hsch; done || (split; [done|by intros []]).
Qed.

(** the executor reports exactly the states the metadata service gives, and
    the status OK exactly when every reported tracepoint runs and every output
    table is known to the planner; any other answer is [Unavailable]. *)
Theorem mutation_ready token (e : MutationExecutorImpl) (w w' : W) tps :
  md_GetTracepointInfo ((λ tp, ProtoFromUUID (ID tp.2)) <$> tps_order (activeTracepoints e)) w = (Ret tps, w') →
  ∃ info, MutationInfo tps_order (inr token) (e, w) = (Ret info, (e, w')) ∧
    vizierpb.States info = mutation_state <$> tps ∧
    (vizierpb.Code (vizierpb.MutationStatus info) = codes.OK ∨
     vizierpb.Code (vizierpb.MutationStatus info) = codes.Unavailable) ∧
    (vizierpb.Code (vizierpb.MutationStatus info) = codes.OK ↔
       (∀ tp, tp ∈ tps → tst_State tp = RUNNING_STATE) ∧
       (∀ table, table ∈ outputTables e → table ∈ known_tables (distributedState e))).
Proof. apply MutationInfo_run. Qed.
End facts.
