(* ===== verification/MutationServer.v ===== *)
(** * Mutations on the metadata service

    The mutation executor of the query broker composed with the tracepoint
    endpoints of the metadata service: the service implements the interface
    [MetadataClient] of the executor, the executor never panics on it, and what
    the status of a mutation depends on. *)

From S2P Require Import Prelude GoLib Datastore Uuid Messages StoreLib K8sStore TracepointStore Tracepoint TracepointServer QueryMessages QueryProto PlannerMessages MutationExecutor.
Import mutation.

(** ** The executor does not panic *)

Section no_panic.
Context `{U : UUIDLib} `{!Planner} {W : Type} `{!MetadataClient W} `{!MetadataClientSpec W}.
Context (tables_order : gset string → list string).

(** A call that returns or fails. *)
Definition safe {S A} (m : M S A) : Prop := ∀ s c, (m s).1 ≠ Crash c.

Lemma safe_ret {S A} (a : A) : safe (mret a : M S A).
Proof. by intros s c. Qed.
Lemma safe_fail {S A} e : safe (fail e : M S A).
Proof. by intros s c. Qed.
Lemma safe_bind {S A B} (m : M S A) (k : A → M S B) : safe m → (∀ a, safe (k a)) → safe (m ≫= k).
Proof.
  intros Hm Hk s c. unfold mbind, M_bind. specialize (Hm s c). destruct (m s) as [[a|e|c'] s']; [apply Hk|done|].
  cbn in *. congruence.
Qed.
Lemma safe_try {S A} (m : M S A) : safe m → safe (try m).
Proof. intros Hm s c. unfold try. specialize (Hm s c). destruct (m s) as [[a|e|c'] s']; [done|done|]. cbn in *. congruence. Qed.
Lemma safe_zoom {S T A} (g : S → T) f (m : M T A) : safe m → safe (zoom g f m).
Proof. intros Hm s c. unfold zoom. specialize (Hm (g s) c). by destruct (m (g s)). Qed.
Lemma safe_forM_ {S A} (l : list A) (body : A → M S unit) : (∀ x, safe (body x)) → safe (forM_ l body).
Proof. intros Hb. induction l; cbn; [apply safe_ret|by apply safe_bind]. Qed.
Lemma safe_modify {S} (f : S → S) : safe (modify f).
Proof. by intros s c. Qed.
Create HintDb safe.
#[local] Hint Resolve safe_ret safe_fail safe_bind safe_try safe_zoom safe_forM_ safe_modify : safe.

Context (Hreg : ∀ reqs, safe (md_RegisterTracepoint (W := W) reqs)) (Hrem : ∀ names, safe (md_RemoveTracepoint (W := W) names)).
Context (Hconf : ∀ req, safe (md_UpdateConfig (W := W) req)).

Lemma safe_delete names : safe (delete_tracepoints (W := W) names).
Proof.
  unfold delete_tracepoints. destruct names; [auto with safe|]. apply safe_bind; [unfold md_call; auto with safe|].
  intros [e|status]; [auto with safe|]. destruct (bad_status _); [auto with safe|]. apply safe_forM_. intros. apply safe_modify.
Qed.

Lemma safe_config req : safe (update_config (W := W) req).
Proof.
  unfold update_config. apply safe_bind; [unfold md_call; auto with safe|].
  intros [e|status]; [auto with safe|]. destruct (bad_status _); auto with safe.
Qed.

Lemma register_no_crash muts (s : state) c :
  NoDup (td_Name <$> traces muts) → activeTracepoints s.1 = list_to_map (fresh_info <$> traces muts) →
  (register_tracepoints (trace_request <$> traces muts) s).1 ≠ Crash c.
Proof.
  intros Hnd Ha. destruct (trace_request <$> traces muts) as [|req reqs] eqn:Er; [done|].
  unfold register_tracepoints. cbv iota.
  destruct (md_RegisterTracepoint (req :: reqs) s.2) as [[resp|e|c'] w] eqn:Hc.
  - pose proof (md_names _ _ _ _ Hc) as Hnames. rewrite <-Er, <-list_fmap_compose in Hnames.
    change (metadatapb.Name ∘ trace_request) with td_Name in Hnames.
    destruct (bad_status (metadatapb.RegisterStatus resp)) eqn:Hb.
    + rewrite (bind_ret _ _ _ _ _ (try_ret _ _ _ _ (md_call_ret _ s _ _ Hc))). by rewrite Hb.
    + pose proof (register_run muts (metadatapb.Tracepoints resp) s w) as Hrun. rewrite Er in Hrun.
      unfold register_tracepoints in Hrun. rewrite Hrun; [done| |done..].
      unfold registered. rewrite Er. exists (metadatapb.RegisterStatus resp). by destruct resp.
  - rewrite (bind_ret _ _ _ (inl e) (s.1, w)); [done|]. apply try_err. unfold md_call, zoom. by rewrite Hc.
  - destruct (Hreg (req :: reqs) s.2 c'). by rewrite Hc.
Qed.

(** The planner leaves no program out of its traces. *)
Definition complete_traces : Prop :=
  ∀ p st resp, CompileMutations p st = inr resp → Forall programs_present (traces (planner.cm_Mutations resp)).

(** whatever the planner and the metadata service answer, the executor returns:
    no entry of its map of tracepoints is missing when the answer to a
    registration is stored. *)
Theorem execute_never_panics authToken req planOpts ds (w : W) c :
  complete_traces →
  (Execute tables_order authToken req planOpts (NewMutationExecutor ds, w)).1 ≠ Crash c.
Proof.
  intros Hp. unfold Execute. rewrite get_bind. cbn [fst].
  destruct (CompileMutations _ _) as [e|resp] eqn:Hcomp; [done|]. apply Hp in Hcomp as Hpp.
  rewrite (bind_ret _ _ _ _ _ (lift_sum_ret (inr resp) _ _ eq_refl)). destruct (bad_status _); [done|].
  destruct authToken as [e|token]; [done|]. rewrite (bind_ret _ _ _ _ _ (lift_sum_ret (inr token) _ _ eq_refl)).
  destruct (planner.cm_Mutations resp) as [|m muts] eqn:Em; [done|]. set (ms := m :: muts) in *.
  destruct (decide (NoDup (td_Name <$> traces ms))) as [Hnd|Hnd].
  - pose proof (collect_run ms (mkRequests [] [] [] ∅) (NewMutationExecutor ds, w) Hnd Hpp (λ t _, lookup_empty _)) as Hcol.
    rewrite (bind_ret _ _ _ _ _ Hcol). clear Hcol.
    unfold with_active. cbn [fst snd activeTracepoints outputTables distributedState NewMutationExecutor].
    rewrite (right_id_L ∅ (∪)). cbn [add_requests registerReqs deleteNames configReqs tables app].
    unfold mbind at 1, M_bind at 1.
    pose proof (register_no_crash ms (mkMutationExecutor (list_to_map (fresh_info <$> traces ms)) [] ds, w) c Hnd eq_refl) as Hr.
    destruct (register_tracepoints _ _) as [[[]|e|c'] s']; [|done|cbn in *; congruence].
    apply safe_bind; [apply safe_delete|]. intros []. apply safe_bind; [apply safe_forM_, safe_config|]. intros [].
    apply safe_bind; auto with safe.
  - destruct (collect_refused ms (mkRequests [] [] [] ∅) ds w Hnd Hpp) as (name & e & _ & Hr).
    by rewrite (bind_err _ _ _ _ _ Hr).
Qed.
End no_panic.

(** ** The metadata service as the client's other end *)

Section server_client.
Context {St : Type} `{!Datastore St} `{U : UUIDLib} {Ag : Type} `{!AgentMessenger Ag} `{!AgentManagerAPI Ag}.
Context `{!Proto TracepointStore.TracepointInfo} `{!Proto AgentTracepointStatus} `{!Proto UUIDpb} `{!Proto TracepointMessage}.
Context (sha256_hex : string → string).
Context (lo : gmap string string → list (string * string)) (po : gmap string Z → list (string * Z)).
Context (ro : gmap string (list Agent * list uuid) → list (string * (list Agent * list uuid))).

(** The time and the identifier of the n-th request of a call, and
    [types.DurationFromProto]. *)
Context (fresh : nat → gotime * (error + uuid)) (DurationFromProto : option (Z * Z) → error + Z).

Definition code_status (code : Z) : option Status := Some (mkStatus code "" None).

(** The endpoints of [server.go] behind the gRPC client. *)
Definition server_client : MetadataClient (Manager St Ag) := {|
  md_RegisterTracepoint reqs :=
    rs ← RegisterTracepoints sha256_hex lo po ro
           ((λ r, mkTracepointRequest (metadatapb.Deployment r) (metadatapb.Name r) (DurationFromProto (metadatapb.TTL r))) <$> reqs)
           (fresh <$> seq 0 (length reqs));
    mret (metadatapb.mkRegisterTracepointResponse
      ((λ r, metadatapb.mkTracepointStatus (code_status (rs_ErrCode r)) (Some (rs_ID r)) (rs_Name r)) <$> rs) (code_status code_OK));
  md_RemoveTracepoint names := code ← RemoveTracepoint names; mret (code_status code);
  md_GetTracepointInfo ids := GetTracepointInfos (Some <$> ids);
  md_UpdateConfig r :=
    code ← UpdateConfig (metadatapb.AgentPodName r) (metadatapb.Key r) (metadatapb.Value r); mret (code_status code)
|}.

Lemma RegisterTracepoints_names reqs news mg rs mg' :
  length news = length reqs →
  RegisterTracepoints sha256_hex lo po ro reqs news mg = (Ret rs, mg') → rs_Name <$> rs = trq_Name <$> reqs.
Proof.
  revert news mg rs. induction reqs as [|r reqs IH]; intros [|[now new] news] mg rs Hlen Hr; try done.
  { by injection Hr as <- <-. }
  injection Hlen as Hlen. cbn [RegisterTracepoints] in Hr.
  apply bind_Ret_inv in Hr as (ttl & mg1 & _ & Hr). apply bind_Ret_inv in Hr as (dep & mg2 & _ & Hr).
  apply bind_Ret_inv in Hr as ([id [e|]] & mg3 & _ & Hr).
  - apply bind_Ret_inv in Hr as (rest & mg4 & Hrest & Hr). injection Hr as <- <-. cbn. f_equal. by eapply IH.
  - apply bind_Ret_inv in Hr as (agents & mg4 & _ & Hr). apply bind_Ret_inv in Hr as (u & mg5 & _ & Hr).
    apply bind_Ret_inv in Hr as (rest & mg6 & Hrest & Hr). injection Hr as <- <-. cbn. f_equal. by eapply IH.
Qed.

(** The service keeps the promise the executor relies on. *)
Lemma server_client_spec : @MetadataClientSpec _ server_client.
Proof.
  split. intros reqs mg resp mg' Hr. apply bind_Ret_inv in Hr as (rs & mg1 & Hrs & Hr). injection Hr as <- _.
  apply RegisterTracepoints_names in Hrs; [|by rewrite !length_fmap, length_seq].
  cbn [metadatapb.Tracepoints]. rewrite <-!list_fmap_compose in *. exact Hrs.
Qed.
End server_client.

(** ** What the status of a mutation depends on *)

(** A tracepoint that some agent runs and none has terminated. *)
Definition is_running `{U : UUIDLib} (A : tp_abs) (id : uuid) : Prop :=
  (∃ agent s, states_of A id !! agent = Some s ∧ ats_State s = RUNNING_STATE) ∧
  (∀ agent s, states_of A id !! agent = Some s → ats_State s ≠ TERMINATED_STATE).

(** Every tracepoint has its programs, and every reported failure its status. *)
Definition readable `{U : UUIDLib} (A : tp_abs) : Prop :=
  (∀ id tp dep, ta_tps A !! id = Some tp → tp_Tracepoint tp = Some dep → Forall is_Some (td_Programs dep)) ∧
  (∀ id agent s, states_of A id !! agent = Some s → ats_State s = FAILED_STATE → is_Some (ats_Status s)).

Section status.
Context {St : Type} `{!Datastore St} {view : St → gmap string string} {ok : St → Prop}.
Context `{!DatastoreSpec St view ok} `{U : UUIDLib} `{!UUIDSpec U}.
Context {Ag : Type} `{!AgentMessenger Ag} `{!AgentManagerAPI Ag}.
Context `{!Proto TracepointStore.TracepointInfo} `{!Proto AgentTracepointStatus} `{!Proto UUIDpb} `{!Proto TracepointMessage}.
Context `{!ProtoSpec TracepointStore.TracepointInfo} `{!ProtoSpec AgentTracepointStatus} `{!ProtoSpec UUIDpb}.
Abbreviation tp_rep := (tp_rep (view := view) (ok := ok)).
Implicit Types (mg : Manager St Ag) (A : tp_abs).

Lemma table_names_run programs mg :
  Forall is_Some programs → ∃ names, table_names programs mg = (Ret names, mg).
Proof.
  induction 1 as [|p ps [q ->] Hps [names IH]]; [by exists []|]. cbn [table_names].
  rewrite (bind_ret _ _ _ q mg eq_refl), (bind_ret _ _ _ _ _ IH). by eexists.
Qed.

Lemma overall_running l :
  overall l = RUNNING_STATE ↔
    (∃ s, s ∈ l ∧ ats_State s = RUNNING_STATE) ∧ (∀ s, s ∈ l → ats_State s ≠ TERMINATED_STATE).
Proof.
  unfold overall. rewrite !filter_cons, filter_nil.
  assert (∀ st, in_state st l ≠ [] ↔ ∃ s, s ∈ l ∧ ats_State s = st) as Hin.
  { intros st. unfold in_state. split.
    - destruct (filter _ l) as [|s k] eqn:E; [done|]. intros _. exists s.
      assert (s ∈ s :: k) as Hs by (by left). rewrite <-E in Hs. apply list_elem_of_filter in Hs as [? ?]. done.
    - intros (s & Hs & Hst) He. assert (s ∈ filter (λ s, ats_State s = st) l) as Hf by (by apply list_elem_of_filter).
      rewrite He in Hf. by apply elem_of_nil in Hf. }
  destruct (decide (in_state TERMINATED_STATE l ≠ [])) as [Ht|Ht].
  - cbn. split; [done|]. intros [_ Hn]. apply Hin in Ht as (s & Hs & He). by destruct (Hn s Hs).
  - rewrite Hin in Ht. destruct (decide (in_state RUNNING_STATE l ≠ [])) as [Hr|Hr]; cbn.
    + rewrite Hin in Hr. split; [|done]. intros _. split; [done|]. intros s Hs He. apply Ht. by exists s.
    + rewrite Hin in Hr. split; [|by intros [? _]]. repeat case_decide; cbn; done.
Qed.
Lemma state_running mg A id :
  tp_rep (ts mg) A → readable A →
  ∃ states st, ts_call (GetTracepointStates id) mg = (Ret states, mg) ∧
    getTracepointStateFromAgentTracepointStates states mg = (Ret st, mg) ∧ (st.1 = RUNNING_STATE ↔ is_running A id).
Proof.
  intros HR [_ Hst]. destruct (GetTracepointStates_spec (ts mg) A id HR) as (l & Hl & Hperm).
  assert (∀ s, s ∈ l ↔ ∃ agent, states_of A id !! agent = Some s) as Hin.
  { intros s. rewrite Hperm, list_elem_of_fmap. split.
    - intros ([a s'] & -> & Hin). exists a. by apply elem_of_map_to_list in Hin.
    - intros [a Ha]. exists (a, s). by rewrite elem_of_map_to_list. }
  exists (Some <$> l). rewrite tracepoint_state_priority.
  - eexists. split; [by apply ts_call_read|]. split; [reflexivity|]. transitivity (overall l = RUNNING_STATE); [by destruct l|].
    rewrite overall_running. unfold is_running. setoid_rewrite Hin. naive_solver.
  - intros s Hs. apply Hin in Hs as [agent Ha]. by eapply Hst.
Qed.

(** The loop over stored tracepoints reports one state for each. *)
Lemma tracepoint_states_run reqIDs i l mg A :
  tp_rep (ts mg) A → readable A → Forall (λ tp, ∃ id, ta_tps A !! id = Some tp) l →
  ∃ sts, tracepoint_states reqIDs i (Some <$> l) mg = (Ret sts, mg) ∧
    Forall2 (λ tp st, ∀ id, ta_tps A !! id = Some tp → tst_State st = RUNNING_STATE ↔ is_running A id) l sts.
Proof.
  intros HR HA Hl. revert i. induction Hl as [|tp l [id Hid] Hl IH]; intros i; [by exists []|].
  destruct (IH (i + 1)) as (sts & Hrest & Hall). destruct (rep_tps _ _ (proj2 HR)) as [_ Hinfo].
  assert (∀ id, ta_tps A !! id = Some tp → UUIDFromProtoOrNil (tp_ID tp) = id) as Hown.
  { intros id' Hid'. destruct (Hinfo id' tp Hid') as (Htp & Hgood & _). unfold UUIDFromProtoOrNil.
    by rewrite Htp, UUIDFromProto_ProtoFromUUID. }
  destruct (Hinfo id tp Hid) as (_ & _ & [dep Hdep]).
  destruct (state_running mg A id HR HA) as (states & st & H1 & H2 & Hiff).
  destruct (table_names_run (td_Programs dep) mg) as [names Hnames]; [by eapply (proj1 HA)|].
  change (Some <$> tp :: l) with (Some tp :: (Some <$> l)). cbn [tracepoint_states]. rewrite (Hown id Hid).
  rewrite (bind_ret _ _ _ _ _ H1), (bind_ret _ _ _ _ _ H2), Hdep, (bind_ret _ _ _ dep mg eq_refl).
  rewrite (bind_ret _ _ _ _ _ Hnames), (bind_ret _ _ _ _ _ Hrest). eexists. split; [reflexivity|].
  constructor; [|done]. intros id' Hid'. cbn. by rewrite Hiff, <-(Hown id Hid), (Hown id' Hid').
Qed.

Context `{!Planner}.
Context (sha256_hex : string → string).
Context (lo : gmap string string → list (string * string)) (po : gmap string Z → list (string * Z)).
Context (ro : gmap string (list Agent * list uuid) → list (string * (list Agent * list uuid))).
Context (fresh : nat → gotime * (error + uuid)) (DurationFromProto : option (Z * Z) → error + Z).
Context (tables_order : gset string → list string) (Htables : ∀ T, tables_order T ≡ₚ elements T).
Context (tps_order : gmap string TracepointInfo → list (string * TracepointInfo)) (Htps : ∀ m, tps_order m ≡ₚ map_to_list m).

#[local] Instance client : MetadataClient (Manager St Ag) := server_client sha256_hex lo po ro fresh DurationFromProto.

(** a script that deploys no tracepoint, but updates a configuration or deletes
    tracepoints, is reported ready only when every tracepoint in the store runs,
    also those other scripts have deployed: the executor asks for no identifier,
    and the service then answers for all. *)
Theorem undeployed_mutation_waits_for_all token req planOpts ds muts mg mg2 mg3 A :
  compiled req planOpts ds muts → traces muts = [] →
  removed muts mg mg2 → configured (config_updates muts) mg2 mg3 →
  tp_rep (ts mg3) A → readable A →
  ∃ e info, Execute tables_order (inr token) req planOpts (NewMutationExecutor ds, mg) = (Ret None, (e, mg3)) ∧
    MutationInfo tps_order (inr token) (e, mg3) = (Ret info, (e, mg3)) ∧
    (vizierpb.Code (vizierpb.MutationStatus info) = codes.OK ↔ ∀ id, is_Some (ta_tps A !! id) → is_running A id).
Proof.
  intros Hc Htr Hrem Hconf HR HA.
  destruct (Execute_applied tables_order Htables token req planOpts ds muts [] mg mg mg2 mg3 Hc) as (out & HE & Hout);
    [by rewrite Htr; constructor|by rewrite Htr|by unfold registered; rewrite Htr|by rewrite Htr|done|done|].
  assert (out = []) as ->. { apply Permutation_nil_r. rewrite Hout. unfold all_tables. by rewrite Htr. }
  assert (applied muts [] = ∅) as Ha by apply map_filter_empty. rewrite Ha in HE.
  destruct (GetTracepoints_spec (ts mg3) A HR) as (l & Hl & Hperm).
  assert (∀ tp, tp ∈ l ↔ ∃ id, ta_tps A !! id = Some tp) as Hin.
  { intros tp. rewrite Hperm, list_elem_of_fmap. split.
    - intros ([id tp'] & -> & Hin). exists id. by apply elem_of_map_to_list in Hin.
    - intros [id Hid]. exists (id, tp). by rewrite elem_of_map_to_list. }
  destruct (tracepoint_states_run [] 0 l mg3 A HR HA) as (sts & Hsts & Hall); [apply Forall_forall; intros tp; by apply Hin|].
  assert (tps_order ∅ = []) as Hnone. { apply Permutation_nil_r. by rewrite Htps, map_to_list_empty. }
  destruct (MutationInfo_run tps_order token (mkMutationExecutor ∅ [] ds) mg3 mg3 sts) as (info & HM & _ & _ & Hiff).
  { cbn [activeTracepoints]. rewrite Hnone. cbn. unfold GetTracepointInfos. cbn.
    by rewrite (bind_ret _ _ _ _ _ (ts_call_read _ mg3 _ Hl)). }
  eexists _, info. split; [exact HE|]. split; [exact HM|]. rewrite Hiff. cbn [outputTables]. split.
  - intros [Hrun _] id [tp Hid]. assert (tp ∈ l) as Htp by (apply Hin; eauto).
    apply list_elem_of_lookup in Htp as [k Hk]. destruct (Forall2_lookup_l _ _ _ _ _ Hall Hk) as (st & Hst & Hiff').
    apply (Hiff' id Hid). apply Hrun. by eapply list_elem_of_lookup_2.
  - intros Hrun. split; [|by intros ? ?%elem_of_nil]. intros st Hst. apply list_elem_of_lookup in Hst as [k Hk].
    destruct (Forall2_lookup_r _ _ _ _ _ Hall Hk) as (tp & Htp & Hiff'). apply list_elem_of_lookup_2 in Htp.
    apply Hin in Htp as [id Hid]. apply (Hiff' id Hid). by apply Hrun.
Qed.
End status.
