(* ===== verification/MutationRuns.v ===== *)
(** * Examples of mutations

    The theorems on the mutation executor at concrete scripts: with a metadata
    service that keeps the calls it gets, and with the model of the service on a
    datastore in memory. *)

From S2P Require Import Prelude GoLib Datastore Uuid Messages StoreLib K8sStore TracepointStore Tracepoint TracepointServer QueryMessages QueryProto PlannerMessages MutationExecutor MutationServer.
Import mutation MemTracepoint.

Module MutationRuns.
(** A planner that finds the same mutations in every script. *)
Definition finds (muts : list (option planner.CompileMutation)) : Planner := {|
  Plan _ _ := inl (ErrMsg "no plan");
  CompileMutations _ _ := inr (planner.mkCompileMutationsResponse None muts);
  planner_GenerateOTelScript _ _ := inl (ErrMsg "no script")
|}.

(** The calls a service gets. *)
Inductive call : Type :=
| Registered (names : list string)
| Removed (names : list string)
| Configured (key value pod : string)
| Asked (n : nat).

(** A service that accepts every call, and reports every tracepoint as running. *)
#[export] Instance log_client : MetadataClient (list call) := {|
  md_RegisterTracepoint reqs w :=
    (Ret (metadatapb.mkRegisterTracepointResponse
      ((λ r, metadatapb.mkTracepointStatus (code_status code_OK) (Some (ProtoFromUUID uuid_1)) (metadatapb.Name r)) <$> reqs)
      (code_status code_OK)), w ++ [Registered (metadatapb.Name <$> reqs)]);
  md_RemoveTracepoint names w := (Ret (code_status code_OK), w ++ [Removed names]);
  md_GetTracepointInfo ids w :=
    (Ret ((λ id, mkTracepointState (Some id) RUNNING_STATE [] "" RUNNING_STATE []) <$> ids), w ++ [Asked (length ids)]);
  md_UpdateConfig r w :=
    (Ret (code_status code_OK), w ++ [Configured (metadatapb.Key r) (metadatapb.Value r) (metadatapb.AgentPodName r)])
|}.

#[export] Instance log_client_spec : MetadataClientSpec (list call).
Proof. split. intros reqs w resp w' [= <- _]. cbn. by rewrite <-list_fmap_compose. Qed.

Definition script : vizierpb.ExecuteScriptRequest := vizierpb.mkRequest "import pxtrace" [] true "" None "".
Definition options : planpb.PlanOptions := planpb.mkPlanOptions false false 10000.
Definition no_agents : planner.DistributedState := planner.mkDistributedState [] [].

Definition trace (name table : string) : TracepointDeployment :=
  mkTracepointDeployment name None None [Some (mkTracepointProgram table (Some "spec") None [])].

Definition three_mutations : list (option planner.CompileMutation) :=
  [Some (planner.Trace (trace "a" "table_a")); Some (planner.DeleteTracepoint "old");
   Some (planner.ConfigUpdate "gprof" "true" "pl/vizier-pem-1")].

Lemma mutations_applied_witness :
  ∃ out, Execute (H := finds three_mutations) (W := list call) elements (inr "token") script options
      (NewMutationExecutor no_agents, []) =
    (Ret None, (mkMutationExecutor {["a" := mkTracepointInfo "a" uuid_1 (code_status code_OK)]} out no_agents,
      [Registered ["a"]; Removed ["old"]; Configured "gprof" "true" "pl/vizier-pem-1"])) ∧
    out ≡ₚ ["table_a"].
Proof.
  set (resp := [metadatapb.mkTracepointStatus (code_status code_OK) (Some (ProtoFromUUID uuid_1)) "a"]).
  destruct (mutations_applied (H := finds three_mutations) (W := list call) elements (λ T, Permutation_refl _) "token" script
    options no_agents three_mutations resp [] [Registered ["a"]] [Registered ["a"]; Removed ["old"]]
    [Registered ["a"]; Removed ["old"]; Configured "gprof" "true" "pl/vizier-pem-1"]) as (out & HE & Hout).
  - by exists None.
  - apply NoDup_singleton.
  - repeat constructor. by eexists.
  - by exists (code_status code_OK).
  - done.
  - by exists (code_status code_OK).
  - exists (code_status code_OK), [Registered ["a"]; Removed ["old"]; Configured "gprof" "true" "pl/vizier-pem-1"]. done.
  - exists out. split; [|exact Hout]. rewrite HE. replace (applied three_mutations resp) with
      ({["a" := mkTracepointInfo "a" uuid_1 (code_status code_OK)]} : gmap string TracepointInfo); [done|].
    unfold applied. rewrite map_filter_id; [done|]. intros k v Hk.
    apply elem_of_list_to_map_2, list_elem_of_fmap in Hk as (tp & [= -> ->] & Htp). apply list_elem_of_singleton in Htp as ->.
    cbn. by intros ?%list_elem_of_singleton.
Defined.

Lemma duplicate_trace_refused_witness :
  let muts := [Some (planner.Trace (trace "a" "t")); Some (planner.Trace (trace "a" "u"))] in
  ∃ name e, name ∈ ["a"; "a"] ∧
    Execute (H := finds muts) (W := list call) elements (inr "token") script options (NewMutationExecutor no_agents, []) =
      (Err (err_name_used name), (e, [])).
Proof.
  intros muts. apply (duplicate_trace_refused (H := finds muts) (W := list call) elements "token" script options no_agents muts []).
  - by exists None.
  - intros [Ha _]%NoDup_cons. apply Ha. by left.
  - repeat constructor; by eexists.
Defined.

(** An executor whose tracepoint runs, but whose table is not known yet. *)
Definition waiting : MutationExecutorImpl :=
  mkMutationExecutor {["a" := mkTracepointInfo "a" uuid_1 None]} ["table_a"] no_agents.

Lemma mutation_ready_witness :
  ∃ info, MutationInfo (W := list call) map_to_list (inr "token") (waiting, []) = (Ret info, (waiting, [Asked 1])) ∧
    vizierpb.Code (vizierpb.MutationStatus info) = codes.Unavailable.
Proof.
  set (running := mkTracepointState (Some (ProtoFromUUID uuid_1)) RUNNING_STATE [] "" RUNNING_STATE []).
  assert (md_GetTracepointInfo ((λ tp : string * TracepointInfo, ProtoFromUUID (ID tp.2)) <$> map_to_list (activeTracepoints waiting)) [] =
    (Ret [running], [Asked 1])) as Hcall by (by unfold waiting; cbn [activeTracepoints]; rewrite map_to_list_singleton).
  destruct (mutation_ready (W := list call) map_to_list "token" waiting [] [Asked 1] [running] Hcall)
    as (info & HM & _ & [Hok|Hun] & Hiff); [|by exists info].
  exfalso. apply Hiff in Hok as [_ Hok]. specialize (Hok "table_a" ltac:(by left)). by apply elem_of_nil in Hok.
Defined.

Lemma execute_never_panics_witness :
  (Execute (H := finds three_mutations) (W := list call) elements (inr "token") script options
     (NewMutationExecutor no_agents, [])).1 ≠ Crash NilDeref.
Proof.
  apply (execute_never_panics (H := finds three_mutations) (W := list call) elements); [by intros ???..|].
  intros p st resp [= <-]. repeat constructor. by eexists.
Defined.

(** The messenger of the agents, with their configuration. *)
#[export] Instance outbox_api : AgentManagerAPI outbox :=
  {| ag_GetActiveAgents l := (inr [], l); ag_UpdateConfig ns pod k v l := (None, l ++ [(None, k)]) |}.

Definition config_only : list (option planner.CompileMutation) :=
  [Some (planner.ConfigUpdate "gprof" "true" "pl/vizier-pem-1")].

Definition client_of : MetadataClient (Manager MemStore.Mem.St outbox) :=
  server_client (λ s, s) map_to_list map_to_list map_to_list (λ _, (noon, inr uuid_2)) (λ _, inr 60%Z).

(** The configuration of an agent is updated, but the mutation is not ready, because
    a tracepoint of another script is pending. *)
Lemma undeployed_mutation_waits_for_all_witness :
  ∃ mg mg' e info,
    Execute (H := finds config_only) (MetadataClient0 := client_of) elements (inr "token") script options
      (NewMutationExecutor no_agents, mg) = (Ret None, (e, mg')) ∧
    MutationInfo (MetadataClient0 := client_of) map_to_list (inr "token") (e, mg') = (Ret info, (e, mg')) ∧
    vizierpb.Code (vizierpb.MutationStatus info) ≠ codes.OK.
Proof.
  destruct one_rep as [mg HR]. exists mg.
  set (mg' := mkTpManager (ts mg) (agtMgr mg ++ [(None, "gprof")]) : Manager MemStore.Mem.St outbox). exists mg'.
  destruct (undeployed_mutation_waits_for_all (H := finds config_only) (view := MemStore.Mem.view) (ok := MemStore.Mem.ok)
    (λ s, s) map_to_list map_to_list map_to_list (λ _, (noon, inr uuid_2)) (λ _, inr 60%Z)
    elements (λ T, Permutation_refl _) map_to_list (λ m, Permutation_refl _)
    "token" script options no_agents config_only mg mg mg' abs_one) as (e & info & HE & HM & Hiff).
  - by exists None.
  - done.
  - done.
  - exists (code_status code_OK), mg'. by split_and!.
  - exact HR.
  - split.
    + intros id tp dep Hid Hdep. change (ta_tps abs_one) with ({[uuid_1 := new_info uuid_1 "tp" dep_1]} : gmap uuid TracepointStore.TracepointInfo) in Hid.
      apply lookup_singleton_Some in Hid as [<- <-].
      injection Hdep as <-. repeat constructor. by eexists.
    + intros id agent s Hs. unfold states_of in Hs. cbn in Hs. by rewrite lookup_empty in Hs.
  - exists e, info. split; [exact HE|]. split; [exact HM|]. intros Hok.
    destruct (proj1 Hiff Hok uuid_1) as [(agent & s & Hs & _) _]; [by exists (new_info uuid_1 "tp" dep_1); apply lookup_singleton_eq|].
    unfold states_of in Hs. cbn in Hs. by rewrite lookup_empty in Hs.
Defined.
End MutationRuns.
