(* ===== verification/QueryExecutor.v ===== *)
(** * The query executor

    [query_broker/controllers/query_executor.go] and [launch_query.go]: a script
    is compiled, its result tables are announced to the client, the query is
    registered with the result forwarder and launched on its agents.

    What a run depends on besides the request is an argument: the tracker's
    state, the redaction, the fresh identifiers, the orders of map iterations,
    and when the context ends.  [ctx_done] says for the responses sent so far
    whether the next send finds the context done, and with which error. *)

From S2P Require Import Prelude GoLib Uuid Messages TracepointStore TracepointServer QueryMessages QueryProto PlannerMessages.
From S2P Require Import MutationExecutor QueryFlags MessageBus ActiveQuery ResultForwarder.

(** [messagespb.ExecuteQueryRequest], in a [VizierMessage]. *)
Record ExecuteQueryRequest := mkExecuteQueryRequest { eq_QueryID : UUIDpb; eq_Plan : option planpb.Plan; eq_Analyze : bool }.

Abbreviation plan_map := (gmap uuid (option planpb.Plan)).

(** ** Launching *)

Section launch.
Context `{U : UUIDLib} `{!NatsConn} `{!Proto ExecuteQueryRequest}.

Definition nats_publish (topic msg : string) : M nconn unit := λ c,
  let '(err, c') := nc_Publish topic msg c in (match err with Some e => Err e | None => Ret tt end, c').

Definition broadcastToAgent (queryIDPB : UUIDpb) (analyze : bool) (agentID : uuid) (logicalPlan : option planpb.Plan)
    : M nconn unit :=
  msgAsBytes ← lift_sum (Marshal (mkExecuteQueryRequest queryIDPB logicalPlan analyze));
  nats_publish (AgentUUIDTopic agentID) msgAsBytes.

(** The goroutines of the group, in the order in which they publish; all of them
    run, and the group keeps the first error. *)
Fixpoint broadcast_all (queryIDPB : UUIDpb) (analyze : bool) (plans : list (uuid * option planpb.Plan)) (first : option error)
    : M nconn (option error) :=
  match plans with
  | [] => mret first
  | (agentID, plan) :: plans =>
    res ← try (broadcastToAgent queryIDPB analyze agentID plan);
    broadcast_all queryIDPB analyze plans
      (match first, res with None, inl e => Some e | _, _ => first end)
  end.

Definition err_no_plans (queryID : uuid) : error := ErrMsg ("Received no agent plans for query " +:+ uuid_String queryID).

(** [lo] is the order in which the goroutines publish. *)
Definition LaunchQuery (lo : plan_map → list (uuid * option planpb.Plan)) (queryID : uuid) (planMap : plan_map) (analyze : bool)
    : M nconn unit :=
  if (size planMap =? 0)%nat then fail (err_no_plans queryID)
  else
    err ← broadcast_all (ProtoFromUUID queryID) analyze (lo planMap) None;
    match err with Some e => fail e | None => mret tt end.
End launch.

(** ** The executor *)

(** [QueryExecutorImpl] and what it works on: [x_sent] is what the consumer has taken
    from [resultCh], [x_news] how many fresh identifiers were drawn. *)
Record executor `{U : UUIDLib} `{!NatsConn} {W : Type} := mkExecutor {
  x_compilationTimeNs : Z;
  x_numPEMsQueried : Z;
  x_sent : list response;
  x_news : nat;
  x_md : W;
  x_forwarder : QueryResultForwarder;
  x_nats : nconn
}.
Arguments executor {U} {_} W.
Arguments mkExecutor {U} {_} {W}.

(** The orders in which the executor's maps are ranged over. *)
Record orders `{U : UUIDLib} := mkOrders {
  o_qb : gmap string (option planpb.Plan) → list (string * option planpb.Plan);
  o_plans : plan_map → list (uuid * option planpb.Plan);
  o_schemas : gmap string Relation → list (string * Relation);
  o_launch : plan_map → list (uuid * option planpb.Plan);
  o_tables : gset string → list string;
  o_tps : gmap string mutation.TracepointInfo → list (string * mutation.TracepointInfo)
}.
Arguments mkOrders {U}.

Section executor.
Context `{U : UUIDLib} `{!Proto compilerpb.CompilerErrorGroup} `{!Proto ExecuteQueryRequest}.
Context `{!Planner} `{!CastLib} `{!NatsConn} {W : Type} `{!MetadataClient W}.

(** The configuration of the broker. *)
Context (resultAddress resultSSLTargetName cloud_addr : string).

Context (ord : orders) (fresh : nat → error + uuid) (ctx_done : list response → option error).
Context (agentInfo : option planner.DistributedState) (redaction : error + option distributedpb.RedactionOptions).
Context (authToken : error + string) (plan_ns : Z).

(** The fields that [Run] sets. *)
Context (queryID : uuid) (queryName : string).

Abbreviation st := (executor W).

Definition with_md (w : W) (s : st) : st :=
  mkExecutor (x_compilationTimeNs s) (x_numPEMsQueried s) (x_sent s) (x_news s) w (x_forwarder s) (x_nats s).
Definition with_forwarder (f : QueryResultForwarder) (s : st) : st :=
  mkExecutor (x_compilationTimeNs s) (x_numPEMsQueried s) (x_sent s) (x_news s) (x_md s) f (x_nats s).
Definition with_nats (n : nconn) (s : st) : st :=
  mkExecutor (x_compilationTimeNs s) (x_numPEMsQueried s) (x_sent s) (x_news s) (x_md s) (x_forwarder s) n.
Definition add_sent (r : response) (s : st) : st :=
  mkExecutor (x_compilationTimeNs s) (x_numPEMsQueried s) (x_sent s ++ [r]) (x_news s) (x_md s) (x_forwarder s) (x_nats s).
Definition with_news (n : nat) (s : st) : st :=
  mkExecutor (x_compilationTimeNs s) (x_numPEMsQueried s) (x_sent s) n (x_md s) (x_forwarder s) (x_nats s).
Definition with_compilation (t : Z) (s : st) : st :=
  mkExecutor t (x_numPEMsQueried s) (x_sent s) (x_news s) (x_md s) (x_forwarder s) (x_nats s).
Definition with_pems (n : Z) (s : st) : st :=
  mkExecutor (x_compilationTimeNs s) n (x_sent s) (x_news s) (x_md s) (x_forwarder s) (x_nats s).

(** [uuid.NewV4]. *)
Definition NewV4 : M st uuid :=
  s ← get_state;
  id ← lift_sum (fresh (x_news s));
  _ ← modify (with_news (S (x_news s)));
  mret id.

Definition sendResponse (resp : response) : M st unit :=
  s ← get_state;
  match ctx_done (x_sent s) with
  | Some err => fail err
  | None => modify (add_sent resp)
  end.

Definition getPlanOpts (queryStr : string) : M st planpb.PlanOptions :=
  flags ← lift_sum (ParseQueryFlags queryStr);
  mret (GetPlanOptions flags).

(** [return StatusToError(s)]. *)
Definition return_error {A} (err : option error) (a : A) : M st A :=
  match err with Some e => fail e | None => mret a end.

(** A call of the mutation executor [e]. *)
Definition on_mutation {A} (e : mutation.MutationExecutorImpl) (m : M (state (W := W)) A)
    : M st (A * mutation.MutationExecutorImpl) := λ s,
  let '(o, (e', w)) := m (e, x_md s) in
  (match o with Ret a => Ret (a, e') | Err err => Err err | Crash c => Crash c end, with_md w s).

Definition runMutation (req : vizierpb.ExecuteScriptRequest) (planOpts : planpb.PlanOptions) (ds : planner.DistributedState)
    : M st unit :=
  res ← on_mutation (NewMutationExecutor ds) (Execute (o_tables ord) authToken req planOpts);
  let '(status, mutationExec) := res in
  match status with
  | Some status =>
    resp ← pure_call (StatusToVizierResponse queryID status);
    _ ← sendResponse resp;
    return_error (StatusToError status) tt
  | None =>
    info ← on_mutation mutationExec (MutationInfo (o_tps ord) authToken);
    let mutationInfo := info.1 in
    _ ← sendResponse (vizierpb.mkResponse (uuid_String queryID) None None (Some mutationInfo));
    if negb (vizierpb.Code (vizierpb.MutationStatus mutationInfo) =? codes.OK)%Z
    then return_error (VizierStatusToError (vizierpb.MutationStatus mutationInfo)) tt
    else mret tt
  end.

(** The state the planner compiles a query with. *)
Definition query_planner_state (req : PlannerRequest) (planOpts : planpb.PlanOptions) (ds : planner.DistributedState)
    (redactOptions : option distributedpb.RedactionOptions) : planner.LogicalPlannerState :=
  planner.mkLogicalPlannerState ds planOpts resultAddress resultSSLTargetName redactOptions (otel_config (pr_Configs req))
    (c ← pr_Configs req; p ← plannerpb.Plugin c;
     Some (distributedpb.mkPluginConfig (plannerpb.StartTimeNs p) (plannerpb.EndTimeNs p)))
    [("px.cloud.address", cloud_addr)].

(** A nil plan with no error is what a bad status without an error code would give. *)
Definition compilePlan (req : PlannerRequest) (planOpts : planpb.PlanOptions) (ds : planner.DistributedState)
    : M st (option distributedpb.DistributedPlan) :=
  match agentInfo with
  | None => fail (GrpcStatus codes.Unavailable "not ready yet")
  | Some _ =>
    match redaction with
    | inl _ => fail (GrpcStatus codes.Internal "error setting up the compiler")
    | inr redactOptions =>
      plannerResultPB ← lift_sum (Plan req (query_planner_state req planOpts ds redactOptions));
      _ ← modify (with_compilation plan_ns);
      status ← deref (planner.pl_Status plannerResultPB);
      if negb (st_ErrCode status =? statuspb.OK)%Z then
        resp ← pure_call (StatusToVizierResponse queryID status);
        _ ← sendResponse resp;
        return_error (StatusToError status) None
      else mret (planner.pl_Plan plannerResultPB)
    end
  end.

Fixpoint agent_plans (plans : list (string * option planpb.Plan)) (planMap : plan_map) : M st plan_map :=
  match plans with
  | [] => mret planMap
  | (carnotID, agentPlan) :: plans =>
    u ← lift_sum (uuid_FromString carnotID);
    agent_plans plans (<[u := agentPlan]> planMap)
  end.

Definition buildAgentPlanMap (plan : option distributedpb.DistributedPlan) : M st plan_map :=
  plan ← deref plan;
  planMap ← agent_plans (o_qb ord (distributedpb.QbAddressToPlan plan)) ∅;
  _ ← modify (with_pems (Z.of_nat (size planMap) - 1));
  mret planMap.

Fixpoint node_tables (nodes : list planpb.PlanNode) (out : gmap string string) : M st (gmap string string) :=
  match nodes with
  | [] => mret out
  | node :: nodes =>
    op ← deref (planpb.NodeOp node);
    if (planpb.OpType op =? planpb.GRPC_SINK_OPERATOR)%Z then
      match planpb.GetOutputTable op with
      | Some output => id ← NewV4; node_tables nodes (<[planpb.TableName output := uuid_String id]> out)
      | None => node_tables nodes out
      end
    else node_tables nodes out
  end.

Fixpoint fragment_tables (fragments : list planpb.PlanFragment) (out : gmap string string) : M st (gmap string string) :=
  match fragments with
  | [] => mret out
  | f :: fragments => out ← node_tables (planpb.FragmentNodes f) out; fragment_tables fragments out
  end.

Fixpoint plan_tables (plans : list (uuid * option planpb.Plan)) (out : gmap string string) : M st (gmap string string) :=
  match plans with
  | [] => mret out
  | (_, plan) :: plans =>
    plan ← deref plan;
    out ← fragment_tables (planpb.Nodes plan) out;
    plan_tables plans out
  end.

Definition buildTableMap (planMap : plan_map) : M st (gmap string string) := plan_tables (o_plans ord planMap) ∅.

Definition sendTableRelationResponses (tableNameToIDMap : gmap string string) (planMap : plan_map) : M st unit :=
  rs ← TableRelationResponses (o_plans ord) (o_schemas ord) queryID tableNameToIDMap planMap;
  forM_ rs sendResponse.

Definition buildQueryPlanOpts (plan : distributedpb.DistributedPlan) (planMap : plan_map) (planOpts : planpb.PlanOptions)
    : M st (option QueryPlanOpts) :=
  if negb (planpb.Explain planOpts) then mret None
  else
    queryPlanTableID ← NewV4;
    _ ← sendResponse (QueryPlanRelationResponse queryID (uuid_String queryPlanTableID));
    mret (Some (mkQueryPlanOpts (uuid_String queryPlanTableID) plan planMap)).

Definition prepareScript (req : vizierpb.ExecuteScriptRequest) : M st unit :=
  planOpts ← getPlanOpts (vizierpb.QueryStr req);
  ds ← deref agentInfo;
  _ ← (if vizierpb.Mutation req then runMutation req planOpts ds else mret tt);
  plan ← compilePlan (VizierQueryRequestToPlannerQueryRequest req) planOpts ds;
  planMap ← buildAgentPlanMap plan;
  plan ← deref plan;
  tableNameToIDMap ← buildTableMap planMap;
  _ ← sendTableRelationResponses tableNameToIDMap planMap;
  queryPlanOpts ← buildQueryPlanOpts plan planMap planOpts;
  s ← get_state;
  _ ← zoom x_forwarder with_forwarder
        (RegisterQuery queryID (mkQueryInfo tableNameToIDMap (x_compilationTimeNs s) queryPlanOpts queryName));
  zoom x_nats with_nats (LaunchQuery (o_launch ord) queryID planMap (planpb.Analyze planOpts)).

(** The part of [runScript] up to the call of the forwarder's [StreamResults], which
    registers a consumer that then runs on its own. *)
Definition runScript (req : vizierpb.ExecuteScriptRequest) : M st nat :=
  _ ← (if decide (vizierpb.RequestQueryID req = "") then prepareScript req else mret tt);
  zoom x_forwarder with_forwarder (StreamResults queryID).
End executor.

(** What [Run] sets: the identifier is the one of a resumed query or a fresh one. *)
Definition Run `{U : UUIDLib} (newV4 : error + uuid) (req : vizierpb.ExecuteScriptRequest) : error + uuid * string :=
  match (if decide (vizierpb.RequestQueryID req ≠ "") then uuid_FromString (vizierpb.RequestQueryID req) else newV4) with
  | inl err => inl err
  | inr queryID => inr (queryID, if decide (vizierpb.QueryName req = "") then "unnamed" else vizierpb.QueryName req)
  end.

(** ** Launching reaches every agent *)

Section launch_facts.
Context `{U : UUIDLib} `{!NatsConn} `{!Proto ExecuteQueryRequest}.
Implicit Types (c : nconn) (plans : list (uuid * option planpb.Plan)).

(** What one agent's goroutine publishes, and what becomes of the connection. *)
Definition attempt (queryID : uuid) (analyze : bool) (p : uuid * option planpb.Plan) c : option error * nconn :=
  match Marshal (mkExecuteQueryRequest (ProtoFromUUID queryID) p.2 analyze) with
  | inl e => (Some e, c)
  | inr msg => nc_Publish (AgentUUIDTopic p.1) msg c
  end.

(** All attempts, with their errors. *)
Fixpoint attempts (queryID : uuid) (analyze : bool) plans c : list error * nconn :=
  match plans with
  | [] => ([], c)
  | p :: plans =>
    let '(err, c1) := attempt queryID analyze p c in
    let '(errs, c2) := attempts queryID analyze plans c1 in
    (match err with Some e => e :: errs | None => errs end, c2)
  end.

Lemma broadcast_run queryID analyze id plan c :
  try (broadcastToAgent (ProtoFromUUID queryID) analyze id plan) c =
    (Ret (match (attempt queryID analyze (id, plan) c).1 with Some e => inl e | None => inr tt end),
     (attempt queryID analyze (id, plan) c).2).
Proof.
  unfold try, broadcastToAgent, attempt. cbn [fst snd]. destruct (Marshal _) as [e|msg]; [done|].
  rewrite (bind_ret _ _ _ _ _ (lift_sum_ret (inr msg) _ _ eq_refl)). unfold nats_publish. by destruct (nc_Publish _ _ _) as [[e|] c'].
Qed.

Lemma broadcast_all_run queryID analyze plans first c :
  broadcast_all (ProtoFromUUID queryID) analyze plans first c =
    (Ret (match first with Some e => Some e | None => head (attempts queryID analyze plans c).1 end),
     (attempts queryID analyze plans c).2).
Proof.
  revert first c. induction plans as [|[id plan] plans IH]; intros first c; cbn [broadcast_all attempts]; [by destruct first|].
  rewrite (bind_ret _ _ _ _ _ (broadcast_run queryID analyze id plan c)), IH.
  destruct (attempt queryID analyze (id, plan) c) as [[e|] c1]; cbn [fst snd];
    destruct (attempts queryID analyze plans c1) as [errs c2]; by destruct first.
Qed.

(** a query with plans is sent to every one of its agents, whether or not the
    sends to others fail, and the launch fails exactly when a send failed, with the
    first error; a query without plans is not sent at all and fails. *)
Theorem launch_reaches_every_agent lo queryID planMap analyze c :
  (∀ m : plan_map, lo m ≡ₚ map_to_list m) →
  ∃ plans, plans ≡ₚ map_to_list planMap ∧
    LaunchQuery lo queryID planMap analyze c =
      (match map_to_list planMap, (attempts queryID analyze plans c).1 with
       | [], _ => Err (err_no_plans queryID)
       | _, e :: _ => Err e
       | _, [] => Ret tt
       end, (attempts queryID analyze plans c).2).
Proof.
  intros Hlo. exists (lo planMap). split; [done|]. unfold LaunchQuery. destruct (size planMap =? 0) eqn:Hs.
  - apply Nat.eqb_eq, map_size_empty_inv in Hs. subst. rewrite map_to_list_empty.
    assert (lo ∅ = []) as ->; [|done]. apply Permutation_nil_r. by rewrite Hlo, map_to_list_empty.
  - rewrite (bind_ret _ _ _ _ _ (broadcast_all_run _ _ _ _ _)).
    destruct (map_to_list planMap) eqn:Hm; [by apply map_to_list_empty_iff in Hm as ->|].
    by destruct (attempts queryID analyze (lo planMap) c) as [[|e errs] c'].
Qed.
End launch_facts.
