(* ===== verification/QueryPrepare.v ===== *)
(** * Preparing a query

    What the executor has done when a script is prepared: every result table is
    announced once, under the identifier with which the result forwarder will send
    its rows, and each agent has its plan.  What it leaves behind when it fails. *)

From S2P Require Import Prelude GoLib Uuid Messages TracepointStore TracepointServer QueryMessages QueryProto PlannerMessages.
From S2P Require Import MutationExecutor QueryFlags MessageBus ActiveQuery ResultForwarder QueryExecutor.

(** ** The result tables of a plan *)

(** The output tables of the sinks among some nodes. *)
Definition sink_of (node : planpb.PlanNode) : option planpb.ResultTable :=
  op ← planpb.NodeOp node;
  if (planpb.OpType op =? planpb.GRPC_SINK_OPERATOR)%Z then planpb.GetOutputTable op else None.

Definition plan_nodes (plan : planpb.Plan) : list planpb.PlanNode := planpb.Nodes plan ≫= planpb.FragmentNodes.
Definition plan_sinks (plan : planpb.Plan) : list planpb.ResultTable := omap sink_of (plan_nodes plan).

(** Every column of a table has its types. *)
Definition table_wf (t : planpb.ResultTable) : Prop :=
  length (planpb.ColumnNames t) ≤ length (planpb.ColumnTypes t) ∧
  length (planpb.ColumnNames t) ≤ length (planpb.ColumnSemanticTypes t).

(** A plan as the planner makes it: every node has an operator. *)
Definition plan_wf (plan : planpb.Plan) : Prop :=
  Forall (λ node, is_Some (planpb.NodeOp node)) (plan_nodes plan) ∧ Forall table_wf (plan_sinks plan).

Definition names (ts : list planpb.ResultTable) : gset string := list_to_set (planpb.TableName <$> ts).

Lemma sinks_cons node nodes op :
  planpb.NodeOp node = Some op →
  omap sink_of (node :: nodes) =
    match (if (planpb.OpType op =? planpb.GRPC_SINK_OPERATOR)%Z then planpb.GetOutputTable op else None) with
    | Some t => t :: omap sink_of nodes
    | None => omap sink_of nodes
    end.
Proof. intros Hop. cbn. unfold sink_of at 1. by rewrite Hop. Qed.

Section schemas.
Context {S : Type} `{U : UUIDLib}.
Implicit Types (s : S) (out : gmap string Relation).

Lemma sink_columns_run i cols t s :
  i + length cols ≤ length (planpb.ColumnTypes t) → i + length cols ≤ length (planpb.ColumnSemanticTypes t) →
  ∃ rel, sink_columns i cols t s = (Ret rel, s).
Proof.
  revert i. induction cols as [|c cols IH]; intros i Ht Hs; cbn [sink_columns length] in *; [by eexists|].
  destruct (lookup_lt_is_Some_2 (planpb.ColumnTypes t) i) as [ty Hty]; [lia|].
  destruct (lookup_lt_is_Some_2 (planpb.ColumnSemanticTypes t) i) as [st Hst]; [lia|].
  destruct (IH (i + 1)) as [rel Hrel]; [lia..|]. unfold index. rewrite Hty, Hst.
  rewrite (bind_ret _ _ s ty s eq_refl), (bind_ret _ _ s st s eq_refl), (bind_ret _ _ _ _ _ Hrel). by eexists.
Qed.

Lemma schema_of_nodes_run nodes out s :
  Forall (λ node, is_Some (planpb.NodeOp node)) nodes → Forall table_wf (omap sink_of nodes) →
  ∃ out', schema_of_nodes nodes out s = (Ret out', s) ∧ dom out' = names (omap sink_of nodes) ∪ dom out.
Proof.
  intros Hops. revert out. induction Hops as [|node nodes [op Hop] Hops IH]; intros out Hwf; cbn [schema_of_nodes].
  { exists out. split; [done|]. cbn. set_solver. }
  rewrite Hop, (bind_ret _ _ s op s eq_refl). revert Hwf. rewrite (sinks_cons _ _ _ Hop).
  destruct (planpb.OpType op =? _)%Z; cbn [negb]; [|by apply IH].
  destruct (planpb.GetOutputTable op) as [t|]; [|by apply IH]. intros [[Ht Hs] Hwf]%Forall_cons.
  destruct (sink_columns_run 0 (planpb.ColumnNames t) t s Ht Hs) as [rel Hrel]. rewrite (bind_ret _ _ _ _ _ Hrel).
  destruct (IH (<[planpb.TableName t := mkRelation rel ""]> out) Hwf) as (out' & Hr & Hd). exists out'. split; [done|].
  rewrite Hd, dom_insert_L. unfold names. cbn. set_solver.
Qed.
Lemma schema_of_fragments_run fs out s :
  let nodes := fs ≫= planpb.FragmentNodes in
  Forall (λ node, is_Some (planpb.NodeOp node)) nodes → Forall table_wf (omap sink_of nodes) →
  ∃ out', schema_of_fragments fs out s = (Ret out', s) ∧ dom out' = names (omap sink_of nodes) ∪ dom out.
Proof.
  revert out. induction fs as [|f fs IH]; intros out; cbn; intros Hops Hwf; [exists out; split; [done|cbn; set_solver]|].
  rewrite omap_app in Hwf |- *. apply Forall_app in Hops as [Ho Hops], Hwf as [Hw Hwf].
  destruct (schema_of_nodes_run _ out s Ho Hw) as (out1 & H1 & Hd1). rewrite (bind_ret _ _ _ _ _ H1).
  destruct (IH out1 Hops Hwf) as (out2 & H2 & Hd2). exists out2. split; [done|].
  rewrite Hd2, Hd1. unfold names. rewrite fmap_app, list_to_set_app_L. set_solver.
Qed.

(** The tables of all plans. *)
Definition plans_sinks (plans : list (uuid * option planpb.Plan)) : list planpb.ResultTable :=
  omap snd plans ≫= plan_sinks.

Definition plans_wf (plans : list (uuid * option planpb.Plan)) : Prop :=
  Forall (λ p, ∃ plan, p.2 = Some plan ∧ plan_wf plan) plans.

Lemma schema_of_plans_run plans out s :
  plans_wf plans →
  ∃ out', schema_of_plans plans out s = (Ret out', s) ∧ dom out' = names (plans_sinks plans) ∪ dom out.
Proof.
  intros Hwf. revert out. induction Hwf as [|[id p] plans (plan & Hp & Ho & Hw) Hwf IH]; intros out; cbn [schema_of_plans].
  { exists out. split; [done|]. cbn. set_solver. }
  cbn in Hp. subst p.
  rewrite (bind_ret _ _ s plan s eq_refl). destruct (schema_of_fragments_run _ out s Ho Hw) as (out1 & H1 & Hd1).
  rewrite (bind_ret _ _ _ _ _ H1). destruct (IH out1) as (out2 & H2 & Hd2). exists out2. split; [done|].
  rewrite Hd2, Hd1. unfold plans_sinks, names. cbn. rewrite fmap_app, list_to_set_app_L. set_solver.
Qed.

Lemma names_perm plans plans' : plans ≡ₚ plans' → names (plans_sinks plans) = names (plans_sinks plans').
Proof. intros Hp. unfold names, plans_sinks. by rewrite Hp. Qed.

(** The announcement of a table: its name and its identifier. *)
Definition announcement (r : response) : option (string * string) :=
  match vizierpb.Result r with
  | Some (vizierpb.MetaData m) => Some (vizierpb.Name m, vizierpb.ID m)
  | _ => None
  end.

Lemma relation_responses_run queryID (tables : gmap string string) schemas :
  Forall (λ kv, is_Some (tables !! kv.1)) schemas →
  ∃ rs, relation_responses queryID tables schemas = inr rs ∧
    announcement <$> rs = (λ kv, Some (kv.1, default "" (tables !! kv.1))) <$> schemas.
Proof.
  induction 1 as [|[name schema] schemas [id Hid] Hs (rs & IH & Ha)]; [by exists []|]. cbn in Hid |- *. rewrite Hid, IH.
  eexists. split; [reflexivity|]. cbn. by rewrite Ha.
Qed.
End schemas.

Lemma keys_perm {A B} (m : gmap string A) (m' : gmap string B) : dom m = dom m' → (map_to_list m).*1 ≡ₚ (map_to_list m').*1.
Proof.
  intros Hd. apply NoDup_Permutation; [apply NoDup_fst_map_to_list..|].
  assert (∀ {X} (n : gmap string X) k, k ∈ (map_to_list n).*1 ↔ k ∈ dom n) as Hk.
  { intros X n k. rewrite list_elem_of_fmap, elem_of_dom. split.
    - intros ([k' x] & -> & Hx). apply elem_of_map_to_list in Hx. by exists x.
    - intros [x Hx]. exists (k, x). split; [done|]. by apply elem_of_map_to_list. }
  intros k. by rewrite !Hk, Hd.
Qed.

Lemma tables_announced (schemas : gmap string Relation) (tables : gmap string string) :
  dom schemas = dom tables →
  (λ kv, Some (kv.1, default "" (tables !! kv.1))) <$> map_to_list schemas ≡ₚ Some <$> map_to_list tables.
Proof.
  intros Hd. transitivity ((λ k, Some (k, default "" (tables !! k))) <$> (map_to_list tables).*1).
  - rewrite <-(keys_perm schemas tables Hd), <-list_fmap_compose. done.
  - apply reflexive_eq. rewrite <-list_fmap_compose. apply list_fmap_ext. intros i [k v] Hi. cbn.
    apply list_elem_of_lookup_2, elem_of_map_to_list in Hi. by rewrite Hi.
Qed.

(** ** Identifiers for the tables *)

Section tables.
Context `{U : UUIDLib} `{!UUIDSpec U} `{!NatsConn} {W : Type}.
Context (fresh : nat → error + uuid) (bound : nat).

(** The first identifiers that are drawn can be drawn, and differ. *)
Definition fresh_upto : Prop :=
  (∀ n, n < bound → ∃ u, fresh n = inr u) ∧
  (∀ i j u, i < bound → j < bound → fresh i = inr u → fresh j = inr u → i = j).
Context (Hfresh : fresh_upto).
Implicit Types (s : executor W) (out : gmap string string).

(** Different tables have different identifiers, all of them drawn before [n]. *)
Record drawn (n : nat) out : Prop := {
  drawn_fresh t id : out !! t = Some id → ∃ k u, k < n ∧ fresh k = inr u ∧ id = uuid_String u;
  drawn_distinct t t' id : out !! t = Some id → out !! t' = Some id → t = t'
}.

Lemma drawn_empty n : drawn n ∅.
Proof. split; [intros ?? Hl|intros ??? Hl]; by rewrite lookup_empty in Hl. Qed.

Lemma drawn_insert n out t u :
  n < bound → drawn n out → fresh n = inr u → drawn (S n) (<[t := uuid_String u]> out).
Proof.
  intros Hn [Hf Hd] Hu.
  assert (∀ t', out !! t' = Some (uuid_String u) → False) as Hnew.
  { intros t' Ht'. destruct (Hf _ _ Ht') as (k & v & Hk & Hv & E). apply uuid_String_inj in E. subst v.
    pose proof (proj2 Hfresh k n u ltac:(lia) Hn Hv Hu). lia. }
  split.
  - intros t' id. rewrite lookup_insert_Some. intros [[_ <-]|[_ Ht']]; [exists n, u; by split_and!; [lia|..]|].
    destruct (Hf _ _ Ht') as (k & v & Hk & ?). exists k, v. split; [lia|done].
  - intros t1 t2 id. rewrite !lookup_insert_Some. intros [[<- <-]|[Hn1 H1]] [[<- E]|[Hn2 H2]]; try done.
    + by destruct (Hnew t2).
    + subst id. by destruct (Hnew t1).
    + by eapply Hd.
Qed.

(** The loops over nodes, fragments and plans draw an identifier per sink. *)
Definition draws (m : M (executor W) (gmap string string)) (ts : list planpb.ResultTable) out s : Prop :=
  x_news s + length ts ≤ bound →
  ∃ out', m s = (Ret out', with_news (x_news s + length ts) s) ∧ dom out' = names ts ∪ dom out ∧
    (drawn (x_news s) out → drawn (x_news s + length ts) out').

Lemma draws_ret out s : draws (mret out) [] out s.
Proof. intros _. exists out. cbn. rewrite Nat.add_0_r. split; [by destruct s|]. split; [cbn; set_solver|done]. Qed.

Lemma draws_bind m k ts ts' out s :
  draws m ts out s → (∀ out' n, draws (k out') ts' out' (with_news n s)) → draws (m ≫= k) (ts ++ ts') out s.
Proof.
  unfold draws. rewrite length_app. intros Hm Hk Hb. destruct Hm as (out1 & Hr1 & Hd1 & Hi1); [lia|].
  destruct (Hk out1 (x_news s + length ts)) as (out2 & Hr2 & Hd2 & Hi2); cbn [x_news with_news] in *; [lia|].
  exists out2. rewrite (bind_ret _ _ _ _ _ Hr1), Hr2, <-Nat.add_assoc in *. split; [done|].
  split; [|auto]. rewrite Hd2, Hd1. unfold names. rewrite fmap_app, list_to_set_app_L. set_solver.
Qed.

Lemma node_tables_run nodes out s :
  Forall (λ node, is_Some (planpb.NodeOp node)) nodes → draws (node_tables fresh nodes out) (omap sink_of nodes) out s.
Proof.
  intros Hops. revert out s. induction Hops as [|node nodes [op Hop] Hops IH]; intros out s; [apply draws_ret|].
  rewrite (sinks_cons _ _ _ Hop). unfold draws. cbn [node_tables]. rewrite Hop, (bind_ret _ _ s op s eq_refl).
  destruct (planpb.OpType op =? _)%Z; [|apply IH]. destruct (planpb.GetOutputTable op) as [t|]; [|apply IH].
  cbn [length]. intros Hb. destruct (proj1 Hfresh (x_news s)) as [u Hu]; [lia|].
  rewrite (bind_ret _ _ s u (with_news (S (x_news s)) s));
    [|unfold NewV4; by rewrite get_bind, (bind_ret _ _ _ _ _ (lift_sum_ret _ _ _ Hu))].
  destruct (IH (<[planpb.TableName t := uuid_String u]> out) (with_news (S (x_news s)) s)) as (out' & Hr & Hd & Hi);
    cbn [x_news with_news] in *; [lia|].
  exists out'. rewrite Nat.add_succ_r in *. split; [done|]. split.
  - rewrite Hd, dom_insert_L. unfold names. cbn. set_solver.
  - intros Ho. apply Hi. by apply drawn_insert; [lia|..].
Qed.

Lemma fragment_tables_run fs out s :
  let nodes := fs ≫= planpb.FragmentNodes in
  Forall (λ node, is_Some (planpb.NodeOp node)) nodes → draws (fragment_tables fresh fs out) (omap sink_of nodes) out s.
Proof.
  revert out s. induction fs as [|f fs IH]; intros out s; cbn; intros Hops; [apply draws_ret|].
  rewrite omap_app. apply Forall_app in Hops as [Ho Hops]. apply draws_bind; [by apply node_tables_run|]. intros. by apply IH.
Qed.

Lemma plan_tables_run plans out s : plans_wf plans → draws (plan_tables fresh plans out) (plans_sinks plans) out s.
Proof.
  intros Hwf. revert out s. induction Hwf as [|[id p] plans (plan & Hp & Ho & Hw) Hwf IH]; intros out s; [apply draws_ret|].
  cbn in Hp. subst p. unfold draws. cbn [plan_tables]. rewrite (bind_ret _ _ s plan s eq_refl).
  apply (draws_bind _ _ (plan_sinks plan) (plans_sinks plans)); [by apply fragment_tables_run|]. intros. by apply IH.
Qed.
End tables.

(** ** A prepared script *)

Section prepare.
Context `{U : UUIDLib} `{!UUIDSpec U} `{!Proto compilerpb.CompilerErrorGroup} `{!Proto ExecuteQueryRequest}.
Context `{!Planner} `{!CastLib} `{!NatsConn} {W : Type} `{!MetadataClient W}.
Context (resultAddress resultSSLTargetName cloud_addr : string).
Context (ord : orders) (fresh : nat → error + uuid) (ctx_done : list response → option error).
Context (agentInfo : option planner.DistributedState) (redaction : error + option distributedpb.RedactionOptions).
Context (authToken : error + string) (plan_ns : Z) (queryID : uuid) (queryName : string).
Implicit Types (s : executor W) (planMap : plan_map).

(** Go's maps may be ranged over in any order. *)
Record orders_ok : Prop := {
  ok_qb m : o_qb ord m ≡ₚ map_to_list m;
  ok_plans m : o_plans ord m ≡ₚ map_to_list m;
  ok_schemas m : o_schemas ord m ≡ₚ map_to_list m;
  ok_launch m : o_launch ord m ≡ₚ map_to_list m
}.
Context (Hord : orders_ok).

Lemma agent_plans_run plans planMap s :
  NoDup plans.*1 → (∀ id, id ∈ plans.*1 → planMap !! id = None) →
  agent_plans ((λ p, (uuid_String p.1, p.2)) <$> plans) planMap s = (Ret (list_to_map plans ∪ planMap), s).
Proof.
  revert planMap. induction plans as [|[id p] plans IH]; intros planMap Hnd Hnew; cbn [agent_plans fmap list_fmap fst snd].
  { cbn. by rewrite (left_id_L ∅ (∪)). }
  cbn in Hnd. apply NoDup_cons in Hnd as [Hid Hnd].
  rewrite (bind_ret _ _ _ _ _ (lift_sum_ret _ _ _ (uuid_FromString_String id))), IH; [|done|].
  - cbn. rewrite <-insert_union_l, insert_union_r; [done|]. by apply not_elem_of_list_to_map_1.
  - intros id' Hid'. rewrite lookup_insert_ne by set_solver. apply Hnew. cbn. by right.
Qed.

Lemma buildAgentPlanMap_run plan planMap s :
  distributedpb.QbAddressToPlan plan = kmap uuid_String planMap →
  buildAgentPlanMap ord (Some plan) s = (Ret planMap, with_pems (Z.of_nat (size planMap) - 1) s).
Proof.
  intros Hq. unfold buildAgentPlanMap. rewrite (bind_ret _ _ s plan s eq_refl), Hq.
  assert (o_qb ord (kmap uuid_String planMap) ≡ₚ (λ p, (uuid_String p.1, p.2)) <$> map_to_list planMap) as Hp.
  { rewrite (ok_qb Hord), map_to_list_kmap; [|intros u v; apply uuid_String_inj]. by apply reflexive_eq, list_fmap_ext; intros _ [id p] _. }
  apply Permutation_map_inv in Hp as (plans & Hl & Hp). rewrite Hl.
  rewrite (bind_ret _ _ s planMap s); [done|]. change (map ?f plans) with (f <$> plans). rewrite agent_plans_run.
  - rewrite (right_id_L ∅ (∪)). do 2 f_equal. rewrite <-(list_to_map_proper (map_to_list planMap) plans).
    + by apply list_to_map_to_list.
    + apply NoDup_fst_map_to_list.
    + done.
  - rewrite <-Hp. apply NoDup_fst_map_to_list.
  - intros. by apply lookup_empty.
Qed.
(** The state after more responses. *)
Definition add_all (rs : list response) s : executor W :=
  mkExecutor (x_compilationTimeNs s) (x_numPEMsQueried s) (x_sent s ++ rs) (x_news s) (x_md s) (x_forwarder s) (x_nats s).

Lemma send_all_run rs s : (∀ l, ctx_done l = None) → forM_ rs (sendResponse ctx_done) s = (Ret tt, add_all rs s).
Proof.
  intros Hctx. revert s. induction rs as [|r rs IH]; intros s; cbn [forM_].
  - destruct s. unfold add_all. cbn. by rewrite app_nil_r.
  - rewrite (bind_ret _ _ s tt (add_sent r s)); [|unfold sendResponse; by rewrite get_bind, Hctx].
    rewrite IH. unfold add_all. cbn. by rewrite <-(assoc_L (++)).
Qed.

Context {log : nconn → list (string * string)} {up : nconn → Prop} `{!NatsSpec _ log up} `{!ProtoSpec ExecuteQueryRequest}.

(** What an agent is sent. *)
Definition publication (analyze : bool) (p : uuid * option planpb.Plan) : string * string :=
  (AgentUUIDTopic p.1, enc (mkExecuteQueryRequest (ProtoFromUUID queryID) p.2 analyze)).

Lemma attempts_up analyze plans c :
  up c → ∃ c', attempts queryID analyze plans c = ([], c') ∧ up c' ∧ log c' = log c ++ (publication analyze <$> plans).
Proof.
  revert c. induction plans as [|p plans IH]; intros c Hup; cbn [attempts]; [exists c; by rewrite app_nil_r|].
  unfold attempt. rewrite Marshal_enc.
  destruct (nats_Publish c (AgentUUIDTopic p.1) (enc (mkExecuteQueryRequest (ProtoFromUUID queryID) p.2 analyze)) Hup) as (c1 & -> & Hup1 & Hl1).
  destruct (IH c1 Hup1) as (c2 & -> & Hup2 & Hl2). exists c2. split; [done|]. split; [done|].
  rewrite Hl2, Hl1, <-(assoc_L (++)). done.
Qed.

Lemma LaunchQuery_up planMap analyze c :
  planMap ≠ ∅ → up c →
  ∃ c', LaunchQuery (o_launch ord) queryID planMap analyze c = (Ret tt, c') ∧
    ∃ pubs, log c' = log c ++ pubs ∧ pubs ≡ₚ publication analyze <$> map_to_list planMap.
Proof.
  intros Hne Hup. destruct (attempts_up analyze (o_launch ord planMap) c Hup) as (c' & Ha & _ & Hl). exists c'. split.
  - unfold LaunchQuery. rewrite (proj2 (Nat.eqb_neq _ _)) by (by intros ?%map_size_empty_inv).
    rewrite (bind_ret _ _ _ _ _ (broadcast_all_run _ _ _ _ _)), Ha. done.
  - eexists. split; [exact Hl|]. by rewrite (ok_launch Hord).
Qed.

Lemma sendTableRelationResponses_run planMap tables s :
  (∀ l, ctx_done l = None) → plans_wf (map_to_list planMap) → dom tables = names (plans_sinks (map_to_list planMap)) →
  ∃ rs, sendTableRelationResponses ord ctx_done queryID tables planMap s = (Ret tt, add_all rs s) ∧
    announcement <$> rs ≡ₚ Some <$> map_to_list tables.
Proof.
  intros Hctx Hwf Hdom. unfold sendTableRelationResponses, TableRelationResponses, OutputSchemaFromPlan.
  assert (plans_wf (o_plans ord planMap)) as Hwf' by (unfold plans_wf; by rewrite (ok_plans Hord)).
  destruct (schema_of_plans_run (o_plans ord planMap) ∅ s Hwf') as (schemas & Hs & Hd).
  assert (dom schemas = dom tables) as Hdom'.
  { rewrite Hd, Hdom, dom_empty_L, (right_id_L ∅ (∪)). apply names_perm, (ok_plans Hord). }
  destruct (relation_responses_run queryID tables (o_schemas ord schemas)) as (rs & Hr & Ha).
  { rewrite (ok_schemas Hord). apply Forall_forall. intros [k v] Hk. apply elem_of_map_to_list in Hk. cbn.
    apply elem_of_dom. rewrite <-Hdom'. by eapply elem_of_dom_2. }
  exists rs. rewrite (bind_ret _ _ s rs s); [|by rewrite (bind_ret _ _ _ _ _ Hs), Hr].
  split; [by apply send_all_run|]. rewrite Ha, (ok_schemas Hord).
  by apply tables_announced.
Qed.
Abbreviation prepare := (prepareScript resultAddress resultSSLTargetName cloud_addr ord fresh ctx_done agentInfo redaction
  authToken plan_ns queryID queryName).

(** A script without mutations that the planner compiles to [plan], whose agents
    have the plans of [planMap]. *)
Definition compiles (req : vizierpb.ExecuteScriptRequest) (planOpts : planpb.PlanOptions)
    (plan : distributedpb.DistributedPlan) planMap : Prop :=
  vizierpb.Mutation req = false ∧
  (∃ flags, ParseQueryFlags (vizierpb.QueryStr req) = inr flags ∧ GetPlanOptions flags = planOpts) ∧
  (∃ ds redact status, agentInfo = Some ds ∧ redaction = inr redact ∧ st_ErrCode status = statuspb.OK ∧
     let preq := VizierQueryRequestToPlannerQueryRequest req in
     Plan preq (query_planner_state resultAddress resultSSLTargetName cloud_addr preq planOpts ds redact) =
       inr (planner.mkLogicalPlannerResult (Some status) (Some plan))) ∧
  distributedpb.QbAddressToPlan plan = kmap uuid_String planMap ∧ plans_wf (map_to_list planMap).

(** The state when a compiled script gets to its agents' plans. *)
Definition planned planMap s : executor W := with_pems (Z.of_nat (size planMap) - 1) (with_compilation plan_ns s).

Lemma prepare_compiled req planOpts plan planMap s :
  compiles req planOpts plan planMap →
  prepare req s =
    (tableNameToIDMap ← buildTableMap ord fresh planMap;
     _ ← sendTableRelationResponses ord ctx_done queryID tableNameToIDMap planMap;
     queryPlanOpts ← buildQueryPlanOpts fresh ctx_done queryID plan planMap planOpts;
     s ← get_state;
     _ ← zoom x_forwarder with_forwarder
           (RegisterQuery queryID (mkQueryInfo tableNameToIDMap (x_compilationTimeNs s) queryPlanOpts queryName));
     zoom x_nats with_nats (LaunchQuery (o_launch ord) queryID planMap (planpb.Analyze planOpts))) (planned planMap s).
Proof.
  intros (Hm & (flags & Hf & Ho) & (ds & redact & status & Hi & Hr & Hst & Hp) & Hq & Hwf). unfold prepareScript.
  rewrite (bind_ret _ _ s planOpts s); [|unfold getPlanOpts; rewrite (bind_ret _ _ _ _ _ (lift_sum_ret _ _ _ Hf)), Ho; done].
  rewrite Hi, Hm, (bind_ret _ _ s ds s eq_refl), (bind_ret _ _ s tt s eq_refl).
  rewrite (bind_ret _ _ s (Some plan) (with_compilation plan_ns s)).
  - by rewrite (bind_ret _ _ _ _ _ (buildAgentPlanMap_run plan planMap _ Hq)), (bind_ret (deref (Some plan)) _ _ plan _ eq_refl).
  - unfold compilePlan. rewrite Hr, (bind_ret _ _ _ _ _ (lift_sum_ret _ _ _ Hp)), modify_bind.
    cbn [planner.pl_Status planner.pl_Plan]. rewrite (bind_ret (deref (Some status)) _ _ status _ eq_refl), Hst. done.
Qed.

Lemma buildTableMap_run planMap s :
  fresh_upto fresh (x_news s + length (plans_sinks (map_to_list planMap)) + 1) → plans_wf (map_to_list planMap) →
  ∃ tables, buildTableMap ord fresh planMap s = (Ret tables, with_news (x_news s + length (plans_sinks (map_to_list planMap))) s) ∧
    dom tables = names (plans_sinks (map_to_list planMap)) ∧
    drawn fresh (x_news s + length (plans_sinks (map_to_list planMap))) tables.
Proof.
  intros Hfresh Hwf. unfold buildTableMap.
  assert (plans_wf (o_plans ord planMap)) as Hwf' by (unfold plans_wf; by rewrite (ok_plans Hord)).
  assert (length (plans_sinks (o_plans ord planMap)) = length (plans_sinks (map_to_list planMap))) as Hlen
    by (unfold plans_sinks; by rewrite (ok_plans Hord)).
  destruct (plan_tables_run fresh _ Hfresh _ ∅ s Hwf') as (tables & Hr & Hd & Hi); [lia|]. rewrite Hlen in *.
  exists tables. split; [done|]. split; [|apply Hi, drawn_empty].
  rewrite Hd, dom_empty_L, (right_id_L ∅ (∪)). apply names_perm, (ok_plans Hord).
Qed.

Lemma buildQueryPlanOpts_run plan planMap planOpts s :
  (∃ u, fresh (x_news s) = inr u) → (∀ l, ctx_done l = None) →
  ∃ opts rs n, buildQueryPlanOpts fresh ctx_done queryID plan planMap planOpts s = (Ret opts, add_all rs (with_news n s)) ∧
    opts = (if planpb.Explain planOpts then (λ a, mkQueryPlanOpts a.2 plan planMap) <$> head (omap announcement rs) else None) ∧
    (omap announcement rs).*1 = (if planpb.Explain planOpts then ["__query_plan__"] else []).
Proof.
  intros [u Hu] Hctx. unfold buildQueryPlanOpts. destruct (planpb.Explain planOpts); cbn [negb].
  - exists (Some (mkQueryPlanOpts (uuid_String u) plan planMap)).
    exists [QueryPlanRelationResponse queryID (uuid_String u)], (S (x_news s)). split; [|done].
    rewrite (bind_ret _ _ s u (with_news (S (x_news s)) s));
      [|unfold NewV4; by rewrite get_bind, (bind_ret _ _ _ _ _ (lift_sum_ret _ _ _ Hu))].
    rewrite (bind_ret _ _ _ tt (add_sent (QueryPlanRelationResponse queryID (uuid_String u)) (with_news (S (x_news s)) s)));
      [done|unfold sendResponse; by rewrite get_bind, Hctx].
  - exists None, [], (x_news s). split; [|done]. destruct s. unfold add_all. cbn. by rewrite app_nil_r.
Qed.

(** C4: a script that compiles is prepared, when its context lasts, its identifiers
    are fresh and the connection is up: every result table of its plans is announced
    once, under an identifier of its own (with the table of the query plan after
    them if the plan is to be explained), and only then is the query registered,
    with exactly the announced identifiers; every agent of the plan is sent its own
    plan. *)
Theorem script_prepared req planOpts plan planMap s :
  compiles req planOpts plan planMap → planMap ≠ ∅ →
  (∀ l, ctx_done l = None) → fresh_upto fresh (x_news s + length (plans_sinks (map_to_list planMap)) + 1) →
  activeQueries (x_forwarder s) !! queryID = None → up (x_nats s) →
  ∃ tables opts relations explained s',
    prepare req s = (Ret tt, s') ∧
    dom tables = names (plans_sinks (map_to_list planMap)) ∧
    (∀ t t' id, tables !! t = Some id → tables !! t' = Some id → t = t') ∧
    x_sent s' = x_sent s ++ relations ++ explained ∧
    announcement <$> relations ≡ₚ Some <$> map_to_list tables ∧
    (omap announcement explained).*1 = (if planpb.Explain planOpts then ["__query_plan__"] else []) ∧
    opts = (if planpb.Explain planOpts then (λ a, mkQueryPlanOpts a.2 plan planMap) <$> head (omap announcement explained) else None) ∧
    RegisterQuery queryID (mkQueryInfo tables plan_ns opts queryName) (x_forwarder s) = (Ret tt, x_forwarder s') ∧
    ∃ pubs, log (x_nats s') = log (x_nats s) ++ pubs ∧ pubs ≡ₚ publication (planpb.Analyze planOpts) <$> map_to_list planMap.
Proof.
  intros Hc Hne Hctx Hfresh Hq Hup. rewrite (prepare_compiled _ _ _ _ _ Hc). destruct Hc as (_ & _ & _ & _ & Hwf).
  destruct (buildTableMap_run planMap (planned planMap s) Hfresh Hwf) as (tables & Hb & Hdom & Hdrawn).
  set (n := _ + _) in Hb, Hdrawn. rewrite (bind_ret _ _ _ _ _ Hb).
  destruct (sendTableRelationResponses_run planMap tables (with_news n (planned planMap s)) Hctx Hwf Hdom) as (rs & Hs & Ha).
  rewrite (bind_ret _ _ _ _ _ Hs).
  destruct (buildQueryPlanOpts_run plan planMap planOpts (add_all rs (with_news n (planned planMap s)))
    (proj1 Hfresh n ltac:(subst n; cbn; lia)) Hctx)
    as (opts & ex & n' & He & Hopts & Hex).
  rewrite (bind_ret _ _ _ _ _ He), get_bind. cbn [x_compilationTimeNs add_all with_news planned with_pems with_compilation].
  set (info := mkQueryInfo tables plan_ns opts queryName).
  assert (∃ f', RegisterQuery queryID info (x_forwarder s) = (Ret tt, f')) as [f' Hreg].
  { unfold RegisterQuery. rewrite get_bind, Hq. by eexists. }
  destruct (LaunchQuery_up planMap (planpb.Analyze planOpts) (x_nats s) Hne Hup) as (c' & Hl & Hpubs).
  erewrite bind_ret; [|unfold zoom; cbn [x_forwarder add_all with_news planned with_pems with_compilation]; rewrite Hreg; reflexivity].
  unfold zoom. cbn [x_nats add_all with_news planned with_pems with_compilation with_forwarder]. rewrite Hl.
  exists tables, opts, rs, ex. eexists. split; [reflexivity|]. split; [done|]. split; [by apply (drawn_distinct _ _ _ Hdrawn)|].
  split; [cbn; by rewrite <-(assoc_L (++))|]. done.
Qed.
(** *** Failures *)

(** A call that neither registers nor sends. *)
Definition keeps {A} (m : M (executor W) A) : Prop :=
  ∀ s, x_forwarder (m s).2 = x_forwarder s ∧ x_nats (m s).2 = x_nats s.

Lemma keeps_ret {A} (a : A) : keeps (mret a).
Proof. done. Qed.
Lemma keeps_fail {A} e : keeps (A := A) (fail e).
Proof. done. Qed.
Lemma keeps_deref {A} (p : option A) : keeps (deref p).
Proof. by destruct p. Qed.
Lemma keeps_index {A} (l : list A) i : keeps (index l i).
Proof. unfold index. by destruct (l !! i). Qed.
Lemma keeps_lift {A} (r : error + A) : keeps (lift_sum r).
Proof. by destruct r. Qed.
Lemma keeps_bind {A B} (m : M (executor W) A) (k : A → M (executor W) B) : keeps m → (∀ a, keeps (k a)) → keeps (m ≫= k).
Proof.
  intros Hm Hk s. unfold mbind, M_bind. destruct (Hm s) as [Hf Hn]. destruct (m s) as [[a|e|c] s1]; [|done..].
  destruct (Hk a s1) as [Hf' Hn']. cbn in *. by rewrite Hf', Hn'.
Qed.
Lemma keeps_get {A} (k : executor W → M (executor W) A) : (∀ s, keeps (k s)) → keeps (get_state ≫= k).
Proof. intros Hk s. apply Hk. Qed.
Lemma keeps_forM_ {A} (l : list A) body : (∀ x, keeps (body x)) → keeps (forM_ l body).
Proof. intros Hb. induction l; cbn; [apply keeps_ret|by apply keeps_bind]. Qed.
Lemma keeps_pure {A} (m : M unit A) : keeps (pure_call m).
Proof. done. Qed.
Lemma keeps_send r : keeps (sendResponse ctx_done r).
Proof. apply keeps_get. intros s. by destruct (ctx_done _). Qed.
Lemma keeps_NewV4 : keeps (NewV4 fresh).
Proof. apply keeps_get. intros s. apply keeps_bind; [apply keeps_lift|]. done. Qed.
Lemma keeps_return_error {A} err (a : A) : keeps (return_error err a).
Proof. by destruct err. Qed.
Lemma keeps_on_mutation {A} e (m : M (MutationExecutor.state (W := W)) A) : keeps (on_mutation e m).
Proof. intros s. unfold on_mutation. by destruct (m (e, x_md s)) as [o [e' w]]. Qed.

Create HintDb keeps.
#[local] Hint Resolve keeps_ret keeps_fail keeps_deref keeps_index keeps_lift keeps_bind keeps_get keeps_forM_ keeps_pure
  keeps_send keeps_NewV4 keeps_return_error keeps_on_mutation : keeps.

Lemma keeps_mutation req planOpts ds : keeps (runMutation ord ctx_done authToken queryID req planOpts ds).
Proof.
  apply keeps_bind; [auto with keeps|]. intros [[status|] e]; [auto with keeps|].
  apply keeps_bind; [auto with keeps|]. intros info. apply keeps_bind; [auto with keeps|]. intros _. destruct (negb _); auto with keeps.
Qed.

Lemma keeps_compile req planOpts ds :
  keeps (compilePlan resultAddress resultSSLTargetName cloud_addr ctx_done agentInfo redaction plan_ns queryID req planOpts ds).
Proof.
  unfold compilePlan. destruct agentInfo; [|auto with keeps]. destruct redaction; [auto with keeps|].
  apply keeps_bind; [auto with keeps|]. intros res. apply keeps_bind; [done|]. intros _.
  apply keeps_bind; [auto with keeps|]. intros status. destruct (negb _); auto with keeps.
Qed.

Lemma keeps_plan_map plan : keeps (buildAgentPlanMap ord plan).
Proof.
  apply keeps_bind; [auto with keeps|]. intros p. apply keeps_bind; [|done].
  generalize (∅ : plan_map). induction (o_qb ord _) as [|[id pl] l IH]; intros m; cbn; auto with keeps.
Qed.

Lemma keeps_tables planMap : keeps (buildTableMap ord fresh planMap).
Proof.
  assert (∀ nodes out, keeps (node_tables fresh nodes out)) as Hn.
  { induction nodes as [|node nodes IH]; intros out; cbn [node_tables]; [auto with keeps|].
    apply keeps_bind; [auto with keeps|]. intros op. destruct (_ =? _)%Z; [|apply IH]. destruct (planpb.GetOutputTable op); auto with keeps. }
  assert (∀ fs out, keeps (fragment_tables fresh fs out)) as Hf by (induction fs; intros; cbn; auto with keeps).
  unfold buildTableMap. generalize (∅ : gmap string string). induction (o_plans ord planMap) as [|[id p] l IH]; intros out; cbn; auto 10 with keeps.
Qed.

Lemma keeps_relations tables planMap : keeps (sendTableRelationResponses ord ctx_done queryID tables planMap).
Proof.
  assert (∀ cols i t, keeps (sink_columns i cols t)) as Hc by (induction cols; intros; cbn; auto 10 with keeps).
  assert (∀ nodes out, keeps (schema_of_nodes nodes out)) as Hn.
  { induction nodes as [|node nodes IH]; intros out; cbn [schema_of_nodes]; [auto with keeps|].
    apply keeps_bind; [auto with keeps|]. intros op. destruct (negb _); [apply IH|]. destruct (planpb.GetOutputTable op); auto with keeps. }
  assert (∀ fs out, keeps (schema_of_fragments fs out)) as Hf by (induction fs; intros; cbn; auto with keeps).
  assert (∀ l out, keeps (schema_of_plans l out)) as Hp by (induction l as [|[id p] l IH]; intros; cbn; auto 10 with keeps).
  unfold sendTableRelationResponses, TableRelationResponses, OutputSchemaFromPlan. auto 10 with keeps.
Qed.

Lemma keeps_plan_opts plan planMap planOpts : keeps (buildQueryPlanOpts fresh ctx_done queryID plan planMap planOpts).
Proof. unfold buildQueryPlanOpts. destruct (negb _); auto 10 with keeps. Qed.

(** A failure of a sequence comes from the first call or from the rest. *)
Lemma bind_Err_inv {A B} (m : M (executor W) A) (k : A → M (executor W) B) s e s' :
  (m ≫= k) s = (Err e, s') → m s = (Err e, s') ∨ ∃ a s1, m s = (Ret a, s1) ∧ k a s1 = (Err e, s').
Proof. unfold mbind, M_bind. destruct (m s) as [[a|e1|c] s1]; [eauto|intros [= -> ->]; by left|done]. Qed.

(** Nothing was registered with the result forwarder or sent to the agents.  Responses
    may have been sent to the client (the status of a compiler error, the tables), and
    mutations may have been applied. *)
Definition nothing_launched s s' : Prop := x_forwarder s' = x_forwarder s ∧ x_nats s' = x_nats s.

Definition left_traces s (e : error) s' : Prop :=
  nothing_launched s s' ∨
  (∃ info planMap analyze,
     RegisterQuery queryID info (x_forwarder s) = (Ret tt, x_forwarder s') ∧
     activeQueries (x_forwarder s') !! queryID = Some (length (aqueries (x_forwarder s))) ∧
     LaunchQuery (o_launch ord) queryID planMap analyze (x_nats s) = (Err e, x_nats s')).

Lemma keeps_step {A} (m : M (executor W) A) (k : A → M (executor W) unit) s e s' :
  keeps m → (m ≫= k) s = (Err e, s') → (∀ a s1, k a s1 = (Err e, s') → left_traces s1 e s') → left_traces s e s'.
Proof.
  intros Hm Hk HP. destruct (Hm s) as [Hf Hn]. apply bind_Err_inv in Hk as [Hk|(a & s1 & Hk & Hr)].
  - left. by rewrite Hk in Hf, Hn.
  - rewrite Hk in Hf, Hn. cbn in Hf, Hn. apply HP in Hr. unfold left_traces, nothing_launched in *. by rewrite Hf, Hn in Hr.
Qed.

(** Go on after the next call. *)
Tactic Notation "after_call" tactic(keep) :=
  match goal with H : mbind _ _ ?s = _ |- _ => eapply keeps_step in H; [exact H|keep|]; clear s H end.

(** C40: a script whose preparation fails has not been registered with the result
    forwarder and nothing was sent to the agents, or its launch has failed: then the
    query is registered, and stays so when the error is returned.  Of what was sent to
    the client and of mutations applied before the failure nothing is said. *)
Theorem failed_preparation req s e s' :
  prepare req s = (Err e, s') →
  nothing_launched s s' ∨
  (∃ info planMap analyze,
     RegisterQuery queryID info (x_forwarder s) = (Ret tt, x_forwarder s') ∧
     activeQueries (x_forwarder s') !! queryID = Some (length (aqueries (x_forwarder s))) ∧
     LaunchQuery (o_launch ord) queryID planMap analyze (x_nats s) = (Err e, x_nats s')).
Proof.
  change (prepare req s = (Err e, s') → left_traces s e s'). unfold prepareScript. intros Hp.
  after_call (unfold getPlanOpts; auto with keeps). intros planOpts s Hp.
  after_call (auto with keeps). intros ds s Hp.
  after_call (destruct (vizierpb.Mutation req); [apply keeps_mutation|auto with keeps]). intros _ s Hp.
  after_call (apply keeps_compile). intros plan s Hp.
  after_call (apply keeps_plan_map). intros planMap s Hp.
  after_call (auto with keeps). intros p s Hp.
  after_call (apply keeps_tables). intros tables s Hp.
  after_call (apply keeps_relations). intros _ s Hp.
  after_call (apply keeps_plan_opts). intros opts s Hp.
  rewrite get_bind in Hp. set (info := mkQueryInfo _ _ _ _) in Hp.
  apply bind_Err_inv in Hp as [Hp|([] & s1 & Hr & Hp)].
  - left. unfold zoom, RegisterQuery in Hp. rewrite get_bind in Hp. destruct (_ !! queryID); [by injection Hp as _ <-|done].
  - right. exists info, planMap, (planpb.Analyze planOpts). unfold zoom in Hr, Hp.
    destruct (RegisterQuery queryID info (x_forwarder s)) as [o f] eqn:Hreg. injection Hr as -> <-. cbn in Hp.
    destruct (LaunchQuery _ _ _ _ _) as [o c] eqn:Hl. injection Hp as -> <-. cbn. split; [done|]. split; [|done].
    unfold RegisterQuery in Hreg. rewrite get_bind in Hreg. destruct (_ !! queryID); [done|]. injection Hreg as <-. apply lookup_insert_eq.
Qed.
End prepare.
