(* ===== verification/PrepareRuns.v ===== *)
(** * Examples of prepared scripts

    The theorems on the query executor at a concrete plan of one agent with one
    result table. *)

From S2P Require Import Prelude GoLib Uuid Messages TracepointStore TracepointServer QueryMessages QueryProto PlannerMessages.
From S2P Require Import MutationExecutor QueryFlags MessageBus ActiveQuery ResultForwarder QueryExecutor QueryPrepare MutationRuns ForwarderRuns.
Import MemUuid MemProto MemNats Plain Runs MutationRuns.

Module PrepareRuns.
(** The messages of a plan are countable, hence can be encoded. *)
Ltac by_fields f g := refine (inj_countable' f g _); by intros [].
#[export] Instance DAGNode_eq_dec : EqDecision planpb.DAGNode.
Proof. solve_decision. Defined.
#[export] Instance DAGNode_countable : Countable planpb.DAGNode.
Proof. by_fields (λ d, (planpb.dag_Id d, planpb.SortedChildren d)) (λ '(a, b), planpb.mkDAGNode a b). Defined.
#[export] Instance ResultTable_eq_dec : EqDecision planpb.ResultTable.
Proof. solve_decision. Defined.
#[export] Instance ResultTable_countable : Countable planpb.ResultTable.
Proof.
  by_fields (λ t, (planpb.TableName t, planpb.ColumnTypes t, planpb.ColumnNames t, planpb.ColumnSemanticTypes t))
    (λ '(a, b, c, d), planpb.mkResultTable a b c d).
Defined.
#[export] Instance sink_destination_eq_dec : EqDecision planpb.sink_destination.
Proof. solve_decision. Defined.
#[export] Instance sink_destination_countable : Countable planpb.sink_destination.
Proof.
  by_fields (λ d, match d with planpb.GRPCSourceID id => inl id | planpb.OutputTable t => inr t end)
    (λ x, match x with inl id => planpb.GRPCSourceID id | inr t => planpb.OutputTable t end).
Defined.
#[export] Instance op_eq_dec : EqDecision planpb.op.
Proof. solve_decision. Defined.
#[export] Instance op_countable : Countable planpb.op.
Proof.
  by_fields (λ o, match o with planpb.GRPCSinkOp d => Some d | planpb.other_op => None end)
    (λ x, match x with Some d => planpb.GRPCSinkOp d | None => planpb.other_op end).
Defined.
#[export] Instance Operator_eq_dec : EqDecision planpb.Operator.
Proof. solve_decision. Defined.
#[export] Instance Operator_countable : Countable planpb.Operator.
Proof. by_fields (λ o, (planpb.OpType o, planpb.Op o)) (λ '(a, b), planpb.mkOperator a b). Defined.
#[export] Instance PlanNode_eq_dec : EqDecision planpb.PlanNode.
Proof. solve_decision. Defined.
#[export] Instance PlanNode_countable : Countable planpb.PlanNode.
Proof. by_fields (λ o, (planpb.Id o, planpb.NodeOp o)) (λ '(a, b), planpb.mkPlanNode a b). Defined.
#[export] Instance PlanFragment_eq_dec : EqDecision planpb.PlanFragment.
Proof. solve_decision. Defined.
#[export] Instance PlanFragment_countable : Countable planpb.PlanFragment.
Proof. by_fields (λ o, (planpb.Dag o, planpb.FragmentNodes o)) (λ '(a, b), planpb.mkPlanFragment a b). Defined.
#[export] Instance Plan_eq_dec : EqDecision planpb.Plan.
Proof. solve_decision. Defined.
#[export] Instance Plan_countable : Countable planpb.Plan.
Proof. by_fields planpb.Nodes planpb.mkPlan. Defined.
#[export] Instance ExecuteQueryRequest_eq_dec : EqDecision ExecuteQueryRequest.
Proof. solve_decision. Defined.
#[export] Instance ExecuteQueryRequest_countable : Countable ExecuteQueryRequest.
Proof. by_fields (λ r, (eq_QueryID r, eq_Plan r, eq_Analyze r)) (λ '(a, b, c), mkExecuteQueryRequest a b c). Defined.

(** A plan with one result table, for one agent. *)
Definition http_table : planpb.ResultTable := planpb.mkResultTable "http" [typespb.INT64] ["latency"] [typespb.ST_DURATION_NS].
Definition sink : planpb.PlanNode :=
  planpb.mkPlanNode 1 (Some (planpb.mkOperator planpb.GRPC_SINK_OPERATOR (Some (planpb.GRPCSinkOp (Some (planpb.OutputTable http_table)))))).
Definition one_plan : planpb.Plan := planpb.mkPlan [planpb.mkPlanFragment None [sink]].
Definition one_agent : plan_map := {[uuid_1 := Some one_plan]}.

Definition plan_for (m : plan_map) : distributedpb.DistributedPlan := distributedpb.mkDistributedPlan (kmap uuid_String m) ∅ None.

(** A planner that makes this plan of every script. *)
Definition plans (m : plan_map) : Planner := {|
  Plan _ _ := inr (planner.mkLogicalPlannerResult (Some (mkStatus 0 "" None)) (Some (plan_for m)));
  CompileMutations _ _ := inl (ErrMsg "no mutations");
  planner_GenerateOTelScript _ _ := inl (ErrMsg "no script")
|}.

Definition any_order : orders := mkOrders map_to_list map_to_list map_to_list map_to_list elements map_to_list.
Lemma any_order_ok : orders_ok any_order.
Proof. by split. Qed.

Definition two_ids (n : nat) : error + @uuid mem_uuid_lib :=
  match n with 0 => inr uuid_1 | 1 => inr uuid_2 | _ => inl (ErrMsg "no entropy") end.

Lemma uuids_differ : uuid_1 ≠ uuid_2.
Proof. intros E. by apply (f_equal uuid_Bytes) in E. Qed.

Definition idle : executor (list call) := mkExecutor 0 0 [] 0 [] NewQueryResultForwarder ([] : @nconn mem_conn).

Definition show_script : vizierpb.ExecuteScriptRequest := vizierpb.mkRequest "import px" [] false "" None "".

Lemma launch_reaches_every_agent_witness :
  ∃ l, l ≡ₚ map_to_list one_agent ∧
    LaunchQuery map_to_list uuid_2 one_agent false ([] : @nconn mem_conn) = (Ret tt, (attempts uuid_2 false l ([] : @nconn mem_conn)).2).
Proof.
  destruct (launch_reaches_every_agent map_to_list uuid_2 one_agent false ([] : @nconn mem_conn) (λ m, Permutation_refl _)) as (l & Hp & Hl).
  exists l. split; [exact Hp|]. rewrite Hl. destruct (attempts_up (log := mem_log) (up := mem_up) uuid_2 false l [] I) as (c & -> & _).
  unfold one_agent. by rewrite map_to_list_singleton.
Defined.

Abbreviation prepare_one m := (prepareScript (H := plans m) (W := list call) "qb:50300" "" "cloud:443" any_order two_ids (λ _, None)
  (Some no_agents) (inr None) (inr "token") 5 uuid_2 "script").

Lemma one_agent_compiles m :
  plans_wf (map_to_list m) →
  compiles (H := plans m) "qb:50300" "" "cloud:443" (Some no_agents) (inr None) show_script (planpb.mkPlanOptions false false 10000) (plan_for m) m.
Proof.
  intros Hwf. split; [done|]. split; [|split; [|done]].
  - exists newQueryFlags. by split.
  - by exists no_agents, None, (mkStatus 0 "" None).
Qed.

Lemma one_agent_wf : plans_wf (map_to_list one_agent).
Proof.
  unfold one_agent, plans_wf. rewrite map_to_list_singleton. apply Forall_singleton. exists one_plan. split; [done|]. split.
  - apply Forall_singleton. by eexists.
  - apply Forall_singleton. split; cbn; lia.
Qed.

Lemma script_prepared_witness :
  ∃ tables s', prepare_one one_agent show_script idle = (Ret tt, s') ∧ dom tables = {["http"]} ∧
    omap announcement (x_sent s') ≡ₚ map_to_list tables ∧
    RegisterQuery uuid_2 (mkQueryInfo tables 5 None "script") NewQueryResultForwarder = (Ret tt, x_forwarder s').
Proof.
  destruct (script_prepared (H := plans one_agent) (W := list call) (log := mem_log) (up := mem_up) "qb:50300" "" "cloud:443" any_order two_ids
    (λ _, None) (Some no_agents) (inr None) (inr "token") 5 uuid_2 "script" any_order_ok show_script _ _ one_agent idle
    (one_agent_compiles one_agent one_agent_wf))
    as (tables & opts & rel & ex & s' & Hp & Hd & _ & Hs & Ha & He & Ho & Hr & _); [done|done| |done|done|].
  - unfold one_agent. rewrite map_to_list_singleton. cbn. split.
    + intros [|[|n]] Hn; [by eexists..|lia].
    + intros [|[|i]] [|[|j]] u Hi Hj; try lia; cbn; intros [= <-]; try done; intros [= E]; by destruct uuids_differ.
  - exists tables, s'. split; [exact Hp|]. split.
    { rewrite Hd. unfold one_agent. rewrite map_to_list_singleton. set_solver. }
    cbn in He, Ho. subst opts. split; [|exact Hr]. rewrite Hs. cbn [x_sent idle app].
    apply fmap_nil_inv in He. rewrite omap_app, He, app_nil_r.
    assert (∀ l, omap announcement l = omap id (announcement <$> l)) as -> by (intros l; induction l; cbn; [done|by destruct (announcement _); f_equal]).
    rewrite Ha. clear. induction (map_to_list tables); cbn; [done|by constructor].
Defined.

Lemma none_wf : plans_wf (map_to_list (∅ : plan_map)).
Proof. rewrite map_to_list_empty. constructor. Qed.

(** A plan for no agent: the query is registered, and the launch fails. *)
Lemma failed_preparation_witness :
  ∃ s', prepare_one ∅ show_script idle = (Err (err_no_plans uuid_2), s') ∧
    ((x_forwarder s' = x_forwarder idle ∧ x_nats s' = x_nats idle) ∨
     (∃ info planMap analyze,
       RegisterQuery uuid_2 info (x_forwarder idle) = (Ret tt, x_forwarder s') ∧
       activeQueries (x_forwarder s') !! uuid_2 = Some 0 ∧
       LaunchQuery map_to_list uuid_2 planMap analyze (x_nats idle) = (Err (err_no_plans uuid_2), x_nats s'))).
Proof.
  assert (∃ s', prepare_one ∅ show_script idle = (Err (err_no_plans uuid_2), s')) as [s' Hp].
  { eexists. rewrite (prepare_compiled (H := plans ∅) (W := list call) _ _ _ any_order two_ids (λ _, None) _ _ (inr "token") 5 uuid_2 "script"
      any_order_ok _ _ _ _ _ (one_agent_compiles ∅ none_wf)).
    rewrite (bind_ret _ _ _ ∅ (planned 5 ∅ idle)); [|unfold buildTableMap; cbn [o_plans any_order]; by rewrite map_to_list_empty].
    rewrite (bind_ret _ _ _ tt (planned 5 ∅ idle));
      [|unfold sendTableRelationResponses, TableRelationResponses, OutputSchemaFromPlan; cbn [o_plans o_schemas any_order];
        rewrite map_to_list_empty; unfold mbind, M_bind, mret, M_ret; cbn [schema_of_plans]; unfold mret, M_ret;
        rewrite map_to_list_empty; done].
    rewrite (bind_ret _ _ _ None (planned 5 ∅ idle)); [rewrite get_bind|done].
    rewrite (bind_ret _ _ _ tt (with_forwarder (RegisterQuery uuid_2 (mkQueryInfo ∅ 5 None "script") NewQueryResultForwarder).2 (planned 5 ∅ idle)));
      reflexivity. }
  exists s'. split; [exact Hp|].
  exact (failed_preparation (H := plans ∅) (W := list call) _ _ _ any_order _ _ _ _ _ _ _ _ show_script idle _ s' Hp).
Defined.
End PrepareRuns.
