(* ===== verification/QueryRun.v ===== *)
(** * Running a query

    The goroutines of [query_executor.go]: the script sends its responses on an
    unbuffered channel to the consumer, under the context of an error group.  The
    code of the script is left open: whenever it runs, it may offer any response
    on the channel or return with any error, as often and as long as it likes (the
    loop of [StreamResults] goes on for as long as agents send).  A consumer is
    what its [Consume] returns. *)

From S2P Require Import Prelude GoLib Uuid Messages QueryMessages ActiveQuery.

(** The consumer waits for a response, is in [Consume], or has returned. *)
Inductive consumer_state : Type := CWaiting | CConsuming (r : response) | CDone (err : option error).

(** The script runs, waits in a select for its response to be taken or for its
    context, or has returned. *)
Inductive script_state : Type := SRunning | SSending (r : response) | SDone (err : option error).

Record query_run := mkQueryRun {
  r_script : script_state;
  r_consumer : consumer_state;
  r_closed : bool;                (* resultCh *)
  r_ctx : option error;           (* the error of a done context *)
  r_streamDone : bool;            (* the forwarder has cancelled the context of StreamResults *)
  r_group : option error;         (* the first error of the group *)
  r_offered : list response;      (* what the script has tried to send *)
  r_sent : list response;         (* what was taken from the channel *)
  r_consumed : list response      (* what Consume was called with *)
}.

Definition ErrCanceled : error := ErrMsg "context canceled".

Definition script_to (x : script_state) (s : query_run) : query_run :=
  mkQueryRun x (r_consumer s) (r_closed s) (r_ctx s) (r_streamDone s) (r_group s) (r_offered s) (r_sent s) (r_consumed s).
Definition consumer_to (x : consumer_state) (s : query_run) : query_run :=
  mkQueryRun (r_script s) x (r_closed s) (r_ctx s) (r_streamDone s) (r_group s) (r_offered s) (r_sent s) (r_consumed s).
Definition close_results (s : query_run) : query_run :=
  mkQueryRun (r_script s) (r_consumer s) true (r_ctx s) (r_streamDone s) (r_group s) (r_offered s) (r_sent s) (r_consumed s).
Definition ctx_done (e : error) (s : query_run) : query_run :=
  mkQueryRun (r_script s) (r_consumer s) (r_closed s) (match r_ctx s with Some c => Some c | None => Some e end)
    (r_streamDone s) (r_group s) (r_offered s) (r_sent s) (r_consumed s).
Definition stream_done (s : query_run) : query_run :=
  mkQueryRun (r_script s) (r_consumer s) (r_closed s) (r_ctx s) true (r_group s) (r_offered s) (r_sent s) (r_consumed s).
Definition log_offered (r : response) (s : query_run) : query_run :=
  mkQueryRun (r_script s) (r_consumer s) (r_closed s) (r_ctx s) (r_streamDone s) (r_group s) (r_offered s ++ [r]) (r_sent s) (r_consumed s).
Definition log_sent (r : response) (s : query_run) : query_run :=
  mkQueryRun (r_script s) (r_consumer s) (r_closed s) (r_ctx s) (r_streamDone s) (r_group s) (r_offered s) (r_sent s ++ [r]) (r_consumed s).
Definition log_consumed (r : response) (s : query_run) : query_run :=
  mkQueryRun (r_script s) (r_consumer s) (r_closed s) (r_ctx s) (r_streamDone s) (r_group s) (r_offered s) (r_sent s) (r_consumed s ++ [r]).

(** A goroutine of the group returns: the first error is kept and ends the context. *)
Definition group_return (err : option error) (s : query_run) : query_run :=
  match err, r_group s with
  | Some e, None =>
    let s := ctx_done ErrCanceled s in
    mkQueryRun (r_script s) (r_consumer s) (r_closed s) (r_ctx s) (r_streamDone s) (Some e) (r_offered s) (r_sent s) (r_consumed s)
  | _, _ => s
  end.

(** [defer close(resultCh)], then the return of [runScript]. *)
Definition script_return (err : option error) (s : query_run) : query_run :=
  group_return err (close_results (script_to (SDone err) s)).

Definition consumer_return (err : option error) (s : query_run) : query_run := group_return err (consumer_to (CDone err) s).

Section run.
(** [Consume] may fail; what it does may depend on what it was called with before. *)
Context (consume : list response → response → option error).

(** The steps: the script offers a response, hands it over (the channel is
    unbuffered), gives a send up when its context is done ([sendResponse] then makes
    it return, [handleRequest] goes on), or returns; the consumer consumes, sees the
    closed channel or the end of the context; the caller cancels the query, and the
    forwarder the context of [StreamResults], which is derived from it. *)
Inductive run_step : query_run → query_run → Prop :=
| step_offer s r : r_script s = SRunning → run_step s (log_offered r (script_to (SSending r) s))
| step_hand_over s r :
    r_script s = SSending r → r_consumer s = CWaiting →
    run_step s (log_sent r (consumer_to (CConsuming r) (script_to SRunning s)))
| step_send_given_up s r :
    r_script s = SSending r → (r_ctx s ≠ None ∨ r_streamDone s = true) → run_step s (script_to SRunning s)
| step_script_returns s err : r_script s = SRunning → run_step s (script_return err s)
| step_consume s r :
    r_consumer s = CConsuming r →
    run_step s (match consume (r_consumed s) r with
                | Some err => consumer_return (Some err) (log_consumed r s)
                | None => consumer_to CWaiting (log_consumed r s)
                end)
| step_consumer_closed s : r_consumer s = CWaiting → r_closed s = true → run_step s (consumer_return None s)
| step_consumer_cancelled s e : r_consumer s = CWaiting → r_ctx s = Some e → run_step s (consumer_return (Some e) s)
| step_cancel s e : r_ctx s = None → run_step s (ctx_done e s)
| step_stream_cancel s : r_streamDone s = false → run_step s (stream_done s).

Definition started : query_run := mkQueryRun SRunning CWaiting false None false None [] [] [].

Inductive reachable_run : query_run → Prop :=
| run_started : reachable_run started
| run_next s s' : reachable_run s → run_step s s' → reachable_run s'.

(** [Wait] returns when both goroutines have. *)
Definition waited (s : query_run) : option (option error) :=
  match r_script s, r_consumer s with SDone _, CDone _ => Some (r_group s) | _, _ => None end.

(** The response that was handed over and not yet passed to [Consume], and the one
    that was offered and not yet handed over. *)
Definition in_hand (s : query_run) : list response := match r_consumer s with CConsuming r => [r] | _ => [] end.
Definition pending (s : query_run) : list response := match r_script s with SSending r => [r] | _ => [] end.

(** What the consumer was called with, it has accepted. *)
Definition accepted (rs : list response) : Prop := ∀ i r, rs !! i = Some r → consume (take i rs) r = None.

Lemma accepted_snoc rs r : accepted rs → consume rs r = None → accepted (rs ++ [r]).
Proof.
  intros Hrs Hr i r' Hi. apply lookup_app_Some in Hi as [Hi|[Hle Hi]].
  - rewrite take_app_le by (apply lookup_lt_Some in Hi; lia). by apply Hrs.
  - apply list_lookup_singleton_Some in Hi as [Hz <-]. replace i with (length rs) by lia. by rewrite take_app_length.
Qed.

(** The three logs of the responses. *)
Record stream_inv (s : query_run) : Prop := {
  inv_sent : r_sent s = r_consumed s ++ in_hand s;
  inv_accepted : r_group s = None → accepted (r_consumed s);
  inv_offered : r_ctx s = None → r_streamDone s = false → r_offered s = r_sent s ++ pending s
}.

(** The channel is closed when the script has returned; an error of a goroutine is
    an error of the group, which ends the context. *)
Record group_inv (s : query_run) : Prop := {
  inv_closed : r_closed s = true ↔ ∃ err, r_script s = SDone err;
  inv_consumer_closed : r_consumer s = CDone None → r_closed s = true;
  inv_script e : r_script s = SDone (Some e) → r_group s ≠ None;
  inv_consumer e : r_consumer s = CDone (Some e) → r_group s ≠ None;
  inv_ctx : r_group s ≠ None → r_ctx s ≠ None
}.

Ltac each_step Hs :=
  destruct Hs as [s r Hq|s r Hq Hw|s r Hq Hx|s err Hq|s r Hw|s Hw Hcl|s e Hw He|s e He|s Hd].

Lemma stream_inv_return err s : stream_inv s → stream_inv (group_return err s).
Proof.
  intros [Hs Ha Ho]. unfold group_return. destruct err; [|by split]. destruct (r_group s) eqn:Eg; split; cbn; try done.
  - by rewrite Eg.
  - by destruct (r_ctx s).
Qed.

Lemma stream_inv_step s s' : stream_inv s → run_step s s' → stream_inv s'.
Proof.
  intros [Hs Ha Ho] Hstep. each_step Hstep; unfold in_hand, pending in *.
  - split; unfold in_hand, pending; cbn; [done..|]. intros E1 E2. by rewrite Ho, Hq, app_nil_r.
  - rewrite Hq in Ho. rewrite Hw in Hs. split; unfold in_hand, pending; cbn; [|done|].
    + by rewrite Hs, <-app_assoc.
    + intros E1 E2. by rewrite Ho, app_nil_r.
  - split; unfold in_hand, pending; cbn; [done..|]. intros E1 E2. by destruct Hx as [?|Hx]; [|rewrite Hx in E2].
  - apply stream_inv_return. rewrite Hq in Ho. by split.
  - rewrite Hw in Hs. destruct (consume _ _) as [e|] eqn:Ec.
    + unfold consumer_return, group_return. cbn. destruct (r_group s) eqn:Eg; split; unfold in_hand, pending; cbn;
        rewrite ?app_nil_r, ?Eg; try done. by destruct (r_ctx s).
    + split; unfold in_hand, pending; cbn; rewrite ?app_nil_r; [done| |done].
      intros Hg. apply accepted_snoc; auto.
  - apply stream_inv_return. rewrite Hw in Hs. by split.
  - apply stream_inv_return. rewrite Hw in Hs. by split.
  - split; unfold in_hand, pending; cbn; [done..|]. by rewrite He.
  - by split; unfold in_hand, pending; cbn.
Qed.

(** The return of a goroutine, [err] being what it returns. *)
Lemma group_inv_return err s :
  (r_closed s = true ↔ ∃ err, r_script s = SDone err) → (r_consumer s = CDone None → r_closed s = true) →
  (∀ e, r_script s = SDone (Some e) → r_group s ≠ None ∨ err = Some e) →
  (∀ e, r_consumer s = CDone (Some e) → r_group s ≠ None ∨ err = Some e) →
  (r_group s ≠ None → r_ctx s ≠ None) → group_inv (group_return err s).
Proof.
  intros H1 H2 H3 H4 H5. unfold group_return. destruct err as [e|]; [destruct (r_group s) eqn:Eg|].
  - split; cbn; rewrite ?Eg; done.
  - split; cbn; try done. by destruct (r_ctx s).
  - split; [done..|intros e E; by destruct (H3 e E)|intros e E; by destruct (H4 e E)|done].
Qed.

Lemma group_inv_step s s' : group_inv s → run_step s s' → group_inv s'.
Proof.
  intros [H1 H2 H3 H4 H5] Hs.
  assert (∀ x, r_script s = x → (∀ err, x ≠ SDone err) → r_closed s = false) as Hopen.
  { intros x Hx Hn. destruct (r_closed s); [|done]. destruct (proj1 H1 eq_refl) as [err E]. destruct (Hn err). by rewrite <-Hx. }
  each_step Hs.
  - specialize (Hopen _ Hq ltac:(done)). split; cbn; rewrite ?Hopen in *; try done. split; [done|by intros [err ?]].
  - specialize (Hopen _ Hq ltac:(done)). split; cbn; rewrite ?Hopen in *; try done. split; [done|by intros [err ?]].
  - specialize (Hopen _ Hq ltac:(done)). split; cbn; rewrite ?Hopen in *; try done. split; [done|by intros [err ?]].
  - apply group_inv_return; cbn; [by split; [exists err|]|done|by intros e [= ->]; right|by left; eapply H4|done].
  - destruct (consume _ _) as [e|].
    + apply group_inv_return; cbn; [done|done|by left; eapply H3|by intros ? [= ->]; right|done].
    + by split.
  - apply group_inv_return; cbn; [done..|by left; eapply H3|done|done].
  - apply group_inv_return; cbn; [done|done|by left; eapply H3|by intros ? [= ->]; right|done].
  - split; cbn; [done..|]. by rewrite He.
  - by split.
Qed.

Lemma reachable_inv s : reachable_run s → stream_inv s ∧ group_inv s.
Proof.
  induction 1 as [|s s' _ [H1 H2] Hs].
  - split; split; cbn; try done. split; [done|by intros [err ?]].
  - split; [by eapply stream_inv_step|by eapply group_inv_step].
Qed.

(** C10: when the run of a query returns without an error, the script has returned no
    error, the client's consumer has been called with exactly the responses that the
    script sent, in their order, and has accepted each of them; and as long as neither
    the caller nor the forwarder has cancelled the query, these are all the responses
    that the script had for it. *)
Theorem run_without_error_complete s :
  reachable_run s → waited s = Some None →
  r_script s = SDone None ∧ r_consumed s = r_sent s ∧ accepted (r_consumed s) ∧
  (r_ctx s = None → r_streamDone s = false → r_sent s = r_offered s).
Proof.
  intros Hs Hw. destruct (reachable_inv s Hs) as [[Hse Ha Ho] [_ _ Hgs Hgc _]].
  unfold waited, in_hand, pending in *.
  destruct (r_script s) as [| |[e|]] eqn:Es; try done; destruct (r_consumer s) as [| |err'] eqn:Ec; try done;
    injection Hw as Hg; [by destruct (Hgs e)|].
  rewrite app_nil_r in *. split_and!; auto. intros E1 E2. by rewrite Ho.
Qed.

Lemma group_return_pcs err s : r_script (group_return err s) = r_script s ∧ r_consumer (group_return err s) = r_consumer s.
Proof. unfold group_return. by destruct err, (r_group s). Qed.

(** What the goroutines still have to do for the responses offered so far. *)
Definition run_size (s : query_run) : nat :=
  (match r_script s with SSending _ => 3 | SRunning => 1 | SDone _ => 0 end) +
  (match r_consumer s with CWaiting => 1 | CConsuming _ => 2 | CDone _ => 0 end) +
  (match r_ctx s with None => 1 | Some _ => 0 end) + (if r_streamDone s then 0 else 1).

Lemma run_size_return err s : run_size (group_return err s) ≤ run_size s.
Proof. unfold group_return, run_size. destruct err, (r_group s); cbn; try lia. destruct (r_ctx s); lia. Qed.

Lemma run_step_size s s' :
  run_step s s' → run_size s' < run_size s ∨ ∃ r, s' = log_offered r (script_to (SSending r) s).
Proof.
  intros Hs. each_step Hs; [right; by exists r|left..]; unfold script_return, consumer_return;
    try (eapply Nat.le_lt_trans; [apply run_size_return|]);
    try (destruct (consume _ _); [eapply Nat.le_lt_trans; [apply run_size_return|]|]);
    unfold run_size; cbn; rewrite ?Hq, ?Hw, ?He, ?Hd; cbn; try lia.
  all: destruct (r_ctx s), (r_streamDone s); lia.
Qed.

(** C27: the goroutines of a query never wait for each other for ever: every step but
    the offering of a further response makes less of what is left to do, and as long
    as [Wait] has not returned and the script is not running its own code, one of the
    two goroutines has such a step of its own.  So a script that offers no further
    response and returns has ended the query after a bounded number of steps. *)
Theorem query_run_never_stuck s :
  reachable_run s →
  (∀ s', run_step s s' → run_size s' < run_size s ∨ ∃ r, s' = log_offered r (script_to (SSending r) s)) ∧
  (waited s = None → r_script s ≠ SRunning →
   ∃ s', run_step s s' ∧ run_size s' < run_size s ∧ (r_script s', r_consumer s') ≠ (r_script s, r_consumer s)).
Proof.
  intros Hs. split; [apply run_step_size|]. intros Hw Hrun.
  destruct (reachable_inv s Hs) as [_ [Hcl Hcc Hgs Hgc Hgx]]. unfold waited in Hw.
  assert (∀ s', run_step s s' → (r_script s', r_consumer s') ≠ (r_script s, r_consumer s) → (∀ r, r_script s' ≠ SSending r) →
    ∃ s', run_step s s' ∧ run_size s' < run_size s ∧ (r_script s', r_consumer s') ≠ (r_script s, r_consumer s)) as Hex.
  { intros s' H1 H2 H3. exists s'. split_and!; [done| |done]. destruct (run_step_size _ _ H1) as [|[r ->]]; [done|]. by destruct (H3 r). }
  destruct (r_consumer s) as [|r|err] eqn:Ec.
  - destruct (r_script s) as [|r|err] eqn:Es; [done|..].
    + by apply (Hex _ (step_hand_over s r Es Ec)).
    + assert (r_closed s = true) as Ecl by (apply Hcl; by exists err).
      apply (Hex _ (step_consumer_closed s Ec Ecl)); cbn; [done|by rewrite Es].
  - exists (match consume (r_consumed s) r with
            | Some err => consumer_return (Some err) (log_consumed r s)
            | None => consumer_to CWaiting (log_consumed r s)
            end). pose proof (step_consume s r Ec) as Hc. split; [done|].
    destruct (run_step_size _ _ Hc) as [Hsz|[r' E]].
    + split; [done|]. destruct (consume _ _); [|done]. unfold consumer_return. by rewrite (proj2 (group_return_pcs _ _)).
    + apply (f_equal r_consumer) in E. change (r_consumer (log_offered r' _)) with (r_consumer s) in E. rewrite Ec in E.
      destruct (consume _ _); [|done]. unfold consumer_return in E. by rewrite (proj2 (group_return_pcs _ _)) in E.
  - destruct (r_script s) as [|r|err'] eqn:Es; [done| |done].
    assert (r_ctx s ≠ None) as Ex.
    { destruct err as [e|]; [by apply Hgx, (Hgc e)|]. rewrite (Hcc eq_refl) in Hcl. by destruct Hcl as [[? ?] _]. }
    by apply (Hex _ (step_send_given_up s r Es (or_introl Ex))).
Qed.
End run.
