(* ===== verification/QueryServer.v ===== *)
(** * The query broker's server

    [query_broker/controllers/server.go]: the streams on which the agents send
    their results, the consumers of a query's responses and the health check. *)

From S2P Require Import Prelude GoLib Uuid Messages QueryMessages QueryProto PlannerMessages ActiveQuery QueryRun.

(** ** Streams of results *)

(** What the server uses of the interface [QueryResultForwarder]; the context that
    [GetProducerCtx] returns is seen in [CtxDone] below. *)
Class Forwarder `{U : UUIDLib} (F : Type) := {
  fw_GetProducerCtx : uuid → M F unit;
  fw_ForwardQueryResult : msg → M F unit;
  fw_ProducerCancelStream : uuid → error → M F unit
}.

(** What a turn of the loop finds: a context that is done, or what [Recv] returns. *)
Inductive recv_event : Type := CtxDone | RecvEOF | RecvErr (err : error) | RecvMsg (m : msg).

(** [carnotpb.TransferResultChunkResponse]. *)
Record TransferResultChunkResponse := mkChunkResponse { Success : bool; ResponseMessage : string }.

(** The variables of [TransferResultChunk]. *)
Record transfer `{U : UUIDLib} := mkTransfer { t_queryID : uuid; t_tableName : string; t_sentEos : bool }.
Arguments mkTransfer {U}.

Section transfer.
Context `{U : UUIDLib} {F : Type} `{!Forwarder F}.
Implicit Types (t : transfer) (m : msg).

(** The response, and the cancellation of the query; the error of the send itself is
    left out. *)
Definition sendAndClose t (success cancelForwarderClient : bool) (message : string) : M F TransferResultChunkResponse :=
  _ ← (if negb success && negb (bool_decide (t_queryID t = uuid_Nil)) && cancelForwarderClient
       then fw_ProducerCancelStream (t_queryID t) (ErrMsg message) else mret tt);
  mret (mkChunkResponse success message).

Definition err_closed t : string :=
  "Agent stream was unexpectedly closed for table " +:+ t_tableName t +:+ " of query " +:+ uuid_String (t_queryID t)
  +:+ " before the results completed".

Definition handleAgentStreamClosed t : M F TransferResultChunkResponse :=
  if negb (bool_decide (t_tableName t = "")) && negb (t_sentEos t)
  then sendAndClose t false false (err_closed t)
  else sendAndClose t true false "".

Definition set_query (id : uuid) t : transfer := mkTransfer id (t_tableName t) (t_sentEos t).

(** Whether a result ends its table. *)
Definition ends_table (r : carnotpb.SinkResult) : bool :=
  match carnotpb.RowBatch r with Some batch => schemapb.Eos batch | None => false end.

(** The bookkeeping after a message was forwarded: the new variables, or the
    message of the second table. *)
Definition track_table t m : string + transfer :=
  match carnotpb.Result m with
  | Some (carnotpb.QueryResult r) =>
    let name := if bool_decide (t_tableName t = "") then carnotpb.GetTableName r else t_tableName t in
    if negb (bool_decide (name = carnotpb.GetTableName r)) then
      inl ("Received results from multiple tables for query " +:+ uuid_String (t_queryID t)
           +:+ " in the same TransferResultChunk stream: " +:+ name +:+ " and " +:+ carnotpb.GetTableName r)
    else inr (mkTransfer (t_queryID t) name (t_sentEos t || ends_table r))
  | _ => inr t
  end.

Definition err_two_queries (a b : uuid) : string :=
  "Received results from multiple queries in the same TransferResultChunk stream: " +:+ uuid_String a +:+ " and " +:+ uuid_String b.

(** One message: the stream goes on with new variables, or ends with a response. *)
Definition transfer_message t m : M F (TransferResultChunkResponse + transfer) :=
  match UUIDFromProto (carnotpb.QueryID m) with
  | inl err => r ← sendAndClose t false true (error_string err); mret (inl r)
  | inr qid =>
    let isNew := bool_decide (t_queryID t = uuid_Nil) in
    let t := if isNew then set_query qid t else t in
    ctx ← try (if isNew then fw_GetProducerCtx qid else mret tt);
    match ctx with
    | inl err => r ← sendAndClose t false true (error_string err); mret (inl r)
    | inr _ =>
      if negb (bool_decide (t_queryID t = qid)) then
        r ← sendAndClose t false true (err_two_queries (t_queryID t) qid); mret (inl r)
      else
        fwd ← try (fw_ForwardQueryResult m);
        match fwd with
        | inl err => r ← sendAndClose t false true (error_string err); mret (inl r)
        | inr _ =>
          match track_table t m with
          | inl message => r ← sendAndClose t false true message; mret (inl r)
          | inr t' => mret (inr t')
          end
        end
    end
  end.

(** The loop, on the events it meets; without a further event it waits. *)
Fixpoint transfer_loop (events : list recv_event) t : M F (option TransferResultChunkResponse) :=
  match events with
  | [] => mret None
  | CtxDone :: _ | RecvEOF :: _ => r ← handleAgentStreamClosed t; mret (Some r)
  | RecvErr err :: _ =>
    r ← (match status_FromError (Some err) with
         | Some (code, _) =>
           if (code =? codes.Unavailable)%Z
           then sendAndClose t false false ("Agent stream disconnected for query " +:+ uuid_String (t_queryID t))
           else sendAndClose t false true (error_string err)
         | None => sendAndClose t false true (error_string err)
         end);
    mret (Some r)
  | RecvMsg m :: events =>
    res ← transfer_message t m;
    match res with
    | inl r => mret (Some r)
    | inr t' => transfer_loop events t'
    end
  end.

Definition TransferResultChunk (events : list recv_event) : M F (option TransferResultChunkResponse) :=
  transfer_loop events (mkTransfer uuid_Nil "" false).

(** *** Confirmed streams *)

(** Messages that the stream took one after the other. *)
Fixpoint takes t (ms : list msg) (f : F) t' (f' : F) : Prop :=
  match ms with
  | [] => t' = t ∧ f' = f
  | m :: ms => ∃ t1 f1, transfer_message t m f = (Ret (inr t1), f1) ∧ takes t1 ms f1 t' f'
  end.

Lemma sendAndClose_success t cancel message f r f' :
  sendAndClose t false cancel message f = (Ret r, f') → Success r = false.
Proof. intros Hr. apply bind_Ret_inv in Hr as (u & f1 & _ & Hr). by injection Hr as <- _. Qed.

Lemma transfer_message_fails t m f r f' : transfer_message t m f = (Ret (inl r), f') → Success r = false.
Proof.
  unfold transfer_message. intros Hr.
  destruct (UUIDFromProto _) as [e|qid]; [|apply bind_Ret_inv in Hr as ([e|[]] & f1 & _ & Hr)];
    [| |destruct (negb _); [|apply bind_Ret_inv in Hr as ([e|[]] & f2 & _ & Hr); [|destruct (track_table _ _)]]];
    try done; apply bind_Ret_inv in Hr as (r' & f3 & Hs & Hr); injection Hr as -> ->; by eapply sendAndClose_success.
Qed.
(** The forwarder is given the messages in order. *)
Fixpoint forwards (ms : list msg) (f f' : F) : Prop :=
  match ms with
  | [] => f' = f
  | m :: ms => ∃ f1, fw_ForwardQueryResult m f = (Ret tt, f1) ∧ forwards ms f1 f'
  end.

(** What a message does to the variables of the stream. *)
Definition tracked t m t' : Prop :=
  match carnotpb.Result m with
  | Some (carnotpb.QueryResult r) =>
    t_tableName t' = carnotpb.GetTableName r ∧ (t_tableName t = "" ∨ t_tableName t = t_tableName t') ∧
    t_sentEos t' = t_sentEos t || ends_table r
  | _ => t_tableName t' = t_tableName t ∧ t_sentEos t' = t_sentEos t
  end.

Lemma track_table_inr t m t' : track_table t m = inr t' → t_queryID t' = t_queryID t ∧ tracked t m t'.
Proof.
  unfold track_table, tracked. destruct (carnotpb.Result m) as [[r| | |]|]; try by intros [= <-].
  decide_bool (t_tableName t = "") as Hn; [decide_bool (carnotpb.GetTableName r = carnotpb.GetTableName r) as He; [|done]
    |decide_bool (t_tableName t = carnotpb.GetTableName r) as He]; cbn; try done; intros [= <-]; cbn; auto.
Qed.

Lemma try_inr_inv {A} (c : M F A) f a f' : try c f = (Ret (inr a), f') → c f = (Ret a, f').
Proof. unfold try. by destruct (c f) as [[x|e|x] f1]; intros [= ? ?]; subst. Qed.

(** A message is taken when its query is the one of the stream and it is forwarded. *)
Lemma transfer_message_takes t m f t' f' :
  transfer_message t m f = (Ret (inr t'), f') →
  ∃ f1, UUIDFromProto (carnotpb.QueryID m) = inr (t_queryID t') ∧
    (if bool_decide (t_queryID t = uuid_Nil) then fw_GetProducerCtx (t_queryID t') f = (Ret tt, f1)
     else t_queryID t = t_queryID t' ∧ f1 = f) ∧
    fw_ForwardQueryResult m f1 = (Ret tt, f') ∧ tracked t m t'.
Proof.
  unfold transfer_message. intros Hr. destruct (UUIDFromProto _) as [e|qid] eqn:Eq; [by apply bind_Ret_inv in Hr as (? & ? & _ & ?)|].
  apply bind_Ret_inv in Hr as (ctx & f1 & Hctx & Hr). destruct ctx as [e|[]]; [by apply bind_Ret_inv in Hr as (? & ? & _ & ?)|].
  set (t1 := if bool_decide (t_queryID t = uuid_Nil) then set_query qid t else t) in Hr.
  assert (t_tableName t1 = t_tableName t ∧ t_sentEos t1 = t_sentEos t) as [Et Es] by (by subst t1; destruct (bool_decide _)).
  destruct (decide (t_queryID t1 = qid)) as [Hq|Hq];
    [rewrite bool_decide_eq_true_2 in Hr by done|rewrite bool_decide_eq_false_2 in Hr by done; by apply bind_Ret_inv in Hr as (? & ? & _ & ?)].
  cbn [negb] in Hr.
  apply bind_Ret_inv in Hr as (fwd & f2 & Hfwd & Hr). destruct fwd as [e|[]]; [by apply bind_Ret_inv in Hr as (? & ? & _ & ?)|].
  destruct (track_table t1 m) as [e|t2] eqn:Htr; [by apply bind_Ret_inv in Hr as (? & ? & _ & ?)|]. injection Hr as -> ->.
  apply track_table_inr in Htr as [Hid Htr]. exists f1. rewrite Hid, Hq. split; [done|]. split; [|split].
  - apply try_inr_inv in Hctx. subst t1. destruct (bool_decide (t_queryID t = uuid_Nil)); [done|]. injection Hctx as <-. done.
  - by apply try_inr_inv.
  - unfold tracked in *. by rewrite Et, Es in Htr.
Qed.

Lemma takes_queryID t ms f t' f' :
  takes t ms f t' f' → t_queryID t ≠ uuid_Nil →
  t_queryID t' = t_queryID t ∧ Forall (λ m, UUIDFromProto (carnotpb.QueryID m) = inr (t_queryID t)) ms ∧ forwards ms f f'.
Proof.
  revert t f. induction ms as [|m ms IH]; intros t f; cbn; [by intros [-> ->]|].
  intros (t1 & f1 & Hm & Hms) Hn. apply transfer_message_takes in Hm as (f0 & Hid & Hctx & Hfw & _).
  rewrite bool_decide_eq_false_2 in Hctx by done. destruct Hctx as [Heq ->]. rewrite <-Heq in Hid.
  destruct (IH t1 f1 Hms) as (H1 & H2 & H3); [by rewrite <-Heq|]. rewrite <-Heq in *. split; [done|]. split; [by constructor|]. by exists f1.
Qed.

(** The table of the results that were taken, and whether its end was. *)
Lemma takes_table t ms f t' f' :
  takes t ms f t' f' →
  (∀ m r, m ∈ ms → carnotpb.Result m = Some (carnotpb.QueryResult r) → carnotpb.GetTableName r = "" ∨ carnotpb.GetTableName r = t_tableName t') ∧
  (t_tableName t = "" ∨ t_tableName t = t_tableName t') ∧
  (t_sentEos t' = true → t_sentEos t = true ∨ ∃ m r, m ∈ ms ∧ carnotpb.Result m = Some (carnotpb.QueryResult r) ∧ ends_table r = true).
Proof.
  revert t f. induction ms as [|m ms IH]; intros t f; cbn.
  { intros [-> ->]. split_and!; [by intros ?? ?%elem_of_nil|by right|by left]. }
  intros (t1 & f1 & Hm & Hms). apply transfer_message_takes in Hm as (_ & _ & _ & _ & Htr).
  destruct (IH t1 f1 Hms) as (Hall & Hname & Heos). unfold tracked in Htr. split_and!.
  - intros m' r [-> |Hin]%elem_of_cons Hr; [|by eapply Hall]. rewrite Hr in Htr. by destruct Htr as (<- & _).
  - destruct (carnotpb.Result m) as [[r| | |]|]; [|by destruct Htr as [<- _]..].
    destruct Htr as (_ & [E|E] & _); [by left|by rewrite E].
  - intros He. destruct (Heos He) as [Ht1|(m' & r & Hin & Hr & Hend)]; [|right; exists m', r; by split_and!; [right|..]].
    destruct (carnotpb.Result m) as [[r| | |]|] eqn:Em; [|by left; destruct Htr as [_ <-]..].
    destruct Htr as (_ & _ & Hs). rewrite Ht1 in Hs. symmetry in Hs. apply orb_true_iff in Hs as [|Hend]; [by left|].
    right. exists m, r. by split_and!; [left|..].
Qed.
(** What ends a stream from the agent's side. *)
Definition closes (e : recv_event) : Prop := e = CtxDone ∨ e = RecvEOF.

Lemma transfer_loop_app ms e rest t f t' f' :
  takes t ms f t' f' → transfer_loop ((RecvMsg <$> ms) ++ e :: rest) t f = transfer_loop (e :: rest) t' f'.
Proof.
  revert t f. induction ms as [|m ms IH]; intros t f; [by intros [-> ->]|]. intros (t1 & f1 & Hm & Hms).
  change ((RecvMsg <$> m :: ms) ++ e :: rest) with (RecvMsg m :: ((RecvMsg <$> ms) ++ e :: rest)). cbn [transfer_loop].
  rewrite (bind_ret _ _ _ _ _ Hm). by apply IH.
Qed.

(** A confirmed stream took all its messages and was then closed in time. *)
Lemma transfer_loop_success events t f r f' :
  transfer_loop events t f = (Ret (Some r), f') → Success r = true →
  ∃ ms e rest t', events = (RecvMsg <$> ms) ++ e :: rest ∧ closes e ∧ takes t ms f t' f' ∧
    (t_tableName t' = "" ∨ t_sentEos t' = true).
Proof.
  revert t f. induction events as [|ev events IH]; intros t f Hr Hok; [done|].
  assert (∀ ev, closes ev → (r0 ← handleAgentStreamClosed t; mret (Some r0)) f = (Ret (Some r), f') → 
    ∃ ms e rest t', ev :: events = (RecvMsg <$> ms) ++ e :: rest ∧ closes e ∧ takes t ms f t' f' ∧ (t_tableName t' = "" ∨ t_sentEos t' = true)) as Hclose.
  { intros ev' Hev Hc. apply bind_Ret_inv in Hc as (r1 & f1 & Hs & Hc). injection Hc as -> ->. unfold handleAgentStreamClosed in Hs.
    destruct (negb _ && negb _) eqn:Hopen; [by apply sendAndClose_success in Hs; congruence|].
    exists [], ev', events, t. split; [done|]. split; [done|]. split.
    - cbn. unfold sendAndClose in Hs. by injection Hs as _ <-.
    - destruct (t_sentEos t); [by right|left]. rewrite andb_true_r in Hopen. apply negb_false_iff, bool_decide_eq_true in Hopen. done. }
  destruct ev as [| |err|m]; cbn [transfer_loop] in Hr.
  - by apply Hclose; [left|].
  - by apply Hclose; [right|].
  - apply bind_Ret_inv in Hr as (r1 & f1 & Hs & Hr). injection Hr as -> ->.
    assert (Success r = false); [|congruence].
    destruct (status_FromError (Some err)) as [[code ?]|]; [destruct (code =? _)%Z|]; by eapply sendAndClose_success.
  - apply bind_Ret_inv in Hr as ([r1|t1] & f1 & Hm & Hr).
    + injection Hr as -> ->. apply transfer_message_fails in Hm. congruence.
    + destruct (IH t1 f1 Hr Hok) as (ms & e & rest & t' & -> & He & Hms & Ht). exists (m :: ms), e, rest, t'.
      split; [done|]. split; [done|]. split; [by exists t1, f1|done].
Qed.

Context `{!UUIDSpec U}.

Lemma UUIDFromProto_not_Nil pb u :
  (∀ p, pb = Some p → UUIDpb_wf p) → UUIDFromProto pb = inr u → u ≠ uuid_Nil.
Proof.
  intros Hwf Hu ->. destruct pb as [p|]; [|done]. destruct (UUIDFromProto_inr p uuid_Nil (Hwf p eq_refl) Hu) as [[Hh _] <-].
  apply Hh. cbn. by rewrite uuid_Nil_Bytes.
Qed.

(** C30: when the broker confirms a stream of results, the agent has closed it after
    messages of one query, which the forwarder has accepted all and in order; all
    results among them that name a table name the same one, and if there is such a
    table then a result of it, or one without a table, was marked as the end of a
    stream.  A stream without a message, or in which no result names a table, is
    confirmed without an end. *)
Theorem confirmed_stream_forwarded events f r f' :
  (∀ m p, RecvMsg m ∈ events → carnotpb.QueryID m = Some p → UUIDpb_wf p) →
  TransferResultChunk events f = (Ret (Some r), f') → Success r = true →
  ∃ ms e rest table, events = (RecvMsg <$> ms) ++ e :: rest ∧ closes e ∧
    (ms = [] ∧ f' = f ∨
     ∃ id f0, fw_GetProducerCtx id f = (Ret tt, f0) ∧ forwards ms f0 f' ∧
       Forall (λ m, UUIDFromProto (carnotpb.QueryID m) = inr id) ms) ∧
    (∀ m q, m ∈ ms → carnotpb.Result m = Some (carnotpb.QueryResult q) →
       carnotpb.GetTableName q = "" ∨ carnotpb.GetTableName q = table) ∧
    (table = "" ∨ ∃ m q, m ∈ ms ∧ carnotpb.Result m = Some (carnotpb.QueryResult q) ∧ ends_table q = true ∧
       (carnotpb.GetTableName q = "" ∨ carnotpb.GetTableName q = table)).
Proof.
  intros Hwf Hr Hok. destruct (transfer_loop_success _ _ _ _ _ Hr Hok) as (ms & e & rest & t' & -> & He & Hms & Ht).
  destruct (takes_table _ _ _ _ _ Hms) as (Hall & _ & Heos). exists ms, e, rest, (t_tableName t'). split; [done|]. split; [done|]. split.
  - destruct ms as [|m ms]; [left; by destruct Hms as [_ ->]|right]. destruct Hms as (t1 & f1 & Hm & Hms).
    apply transfer_message_takes in Hm as (f0 & Hid & Hctx & Hfw & _). cbn in Hctx. rewrite bool_decide_eq_true_2 in Hctx by done.
    assert (t_queryID t1 ≠ uuid_Nil) as Hn.
    { eapply UUIDFromProto_not_Nil; [|exact Hid]. intros p Hp. apply (Hwf m p); [cbn; by left|done]. }
    destruct (takes_queryID _ _ _ _ _ Hms Hn) as (_ & Hids & Hfws).
    exists (t_queryID t1), f0. split; [done|]. split; [by exists f1|by constructor].
  - split; [exact Hall|]. destruct Ht as [?|Ht]; [by left|]. destruct (Heos Ht) as [|(m & q & Hm & Hq & He')]; [done|].
    right. exists m, q. split_and!; [done..|]. by eapply Hall.
Qed.

(** an agent that closes its stream before the end of its table gets a failure,
    but the query is not cancelled: the forwarder is left as the messages have left
    it. *)
Theorem early_close_not_cancelled ms f t' f' :
  takes (mkTransfer uuid_Nil "" false) ms f t' f' → t_tableName t' ≠ "" → t_sentEos t' = false →
  TransferResultChunk ((RecvMsg <$> ms) ++ [RecvEOF]) f = (Ret (Some (mkChunkResponse false (err_closed t'))), f').
Proof.
  intros Hms Hn He. unfold TransferResultChunk. rewrite (transfer_loop_app _ _ _ _ _ _ _ Hms). cbn [transfer_loop].
  unfold handleAgentStreamClosed. rewrite bool_decide_eq_false_2, He by done. cbn [negb andb].
  unfold sendAndClose. by rewrite andb_false_r.
Qed.
End transfer.

(** ** Consumers *)

(** [executeServerConsumer]: the stream to the client. *)
Definition executeServer_Consume {C} (srv_Send : response → M C unit) (result : response) : M C unit := srv_Send result.

(** [jwe.Encrypt] with the key and the algorithms of the request, and the message code
    of a batch. *)
Section encrypt.
Context `{!Proto vizierpb.RowBatchData} (Encrypt : string → error + string).

Definition encrypt_Consume {C} (c_Consume : response → M C unit) (result : response) : M C unit :=
  match vizierpb.Result result with
  | Some (vizierpb.Data data) =>
    match vizierpb.Batch data with
    | Some batch =>
      b ← lift_sum (Marshal batch);
      eb ← lift_sum (Encrypt b);
      c_Consume (vizierpb.mkResponse (vizierpb.QueryID result) (vizierpb.ResponseStatus result)
        (Some (vizierpb.Data (vizierpb.mkQueryData None eb (vizierpb.ExecutionStats data)))) (vizierpb.ResponseMutationInfo result))
    | None => c_Consume result
    end
  | _ => c_Consume result
  end.
End encrypt.

(** [healthcheckConsumer], with its counters at their width. *)
Definition to_int (bits z : Z) : Z := ((z + 2 ^ (bits - 1)) mod 2 ^ bits - 2 ^ (bits - 1))%Z.

Record healthcheckConsumer := mkHealthcheckConsumer { receivedRowBatches : Z; receivedRows : Z }.

Definition healthcheck_Consume (result : response) (h : healthcheckConsumer) : healthcheckConsumer :=
  match vizierpb.Result result with
  | Some (vizierpb.Data data) =>
    match vizierpb.Batch data with
    | Some rb => mkHealthcheckConsumer (to_int 32 (receivedRowBatches h + 1)) (to_int 64 (receivedRows h + vizierpb.NumRows rb))
    | None => h
    end
  | _ => h
  end.

(** The end of [CheckHealth], after a query with these responses that [Wait] has
    returned the error of. *)
Definition CheckHealth (queryID : string) (waited : option error) (results : list response) : option error :=
  let consumer := foldl (λ h r, healthcheck_Consume r h) (mkHealthcheckConsumer 0 0) results in
  match waited with
  | Some err => Some err
  | None =>
    if (receivedRowBatches consumer =? 0)%Z || (receivedRows consumer =? 0)%Z
    then Some (ErrMsg ("results not returned on health check for query ID " +:+ queryID))
    else if (1 <? receivedRows consumer)%Z
    then Some (ErrMsg ("bad results on healthcheck for query ID " +:+ queryID))
    else None
  end.

(** The status that [HealthCheck] sends for the last result of the check. *)
Definition health_code (hcResult : option error) : Z :=
  match hcResult with Some _ => codes.Unavailable | None => codes.OK end.

(** ** OTel scripts *)

Definition GenerateOTelScript {S} `{!Planner} `{!Proto compilerpb.CompilerErrorGroup} (agentInfo : option planner.DistributedState)
    (pxlScript : string) : M S (vizierpb.Status * string) :=
  match agentInfo with
  | None => fail (GrpcStatus codes.Unavailable "not ready yet")
  | Some ds =>
    resp ← lift_sum (planner_GenerateOTelScript ds pxlScript);
    status ← deref (planner.os_Status resp);
    st ← StatusToVizierStatus status;
    mret (st, planner.os_OTelScript resp)
  end.

(** The batches of the responses. *)
Definition batch_of_response (r : response) : option vizierpb.RowBatchData :=
  match vizierpb.Result r with Some (vizierpb.Data d) => vizierpb.Batch d | _ => None end.

Definition row_total (results : list response) : Z :=
  foldr Z.add 0%Z (vizierpb.NumRows <$> omap batch_of_response results).

Lemma to_int_small bits z : (0 < bits → - 2 ^ (bits - 1) ≤ z < 2 ^ (bits - 1) → to_int bits z = z)%Z.
Proof.
  intros Hb Hz. unfold to_int. assert (2 ^ bits = 2 * 2 ^ (bits - 1))%Z as E by (rewrite <-Z.pow_succ_r by lia; f_equal; lia).
  rewrite Z.mod_small by lia. lia.
Qed.

Lemma healthcheck_counts results h :
  Forall (λ rb, 0 ≤ vizierpb.NumRows rb)%Z (omap batch_of_response results) →
  (0 ≤ receivedRowBatches h)%Z → (receivedRowBatches h + Z.of_nat (length (omap batch_of_response results)) < 2 ^ 31)%Z →
  (0 ≤ receivedRows h)%Z → (receivedRows h + row_total results < 2 ^ 63)%Z →
  foldl (λ h r, healthcheck_Consume r h) h results =
    mkHealthcheckConsumer (receivedRowBatches h + Z.of_nat (length (omap batch_of_response results))) (receivedRows h + row_total results).
Proof.
  revert h. induction results as [|r results IH]; intros h; unfold row_total; cbn [omap list_omap foldl].
  { intros _ _ _ _ _. destruct h. cbn. f_equal; lia. }
  assert (healthcheck_Consume r h = match batch_of_response r with
    | Some rb => mkHealthcheckConsumer (to_int 32 (receivedRowBatches h + 1)) (to_int 64 (receivedRows h + vizierpb.NumRows rb))
    | None => h
    end) as -> by (unfold healthcheck_Consume, batch_of_response; by destruct (vizierpb.Result r) as [[]|]).
  destruct (batch_of_response r) as [rb|]; [|by apply IH]. cbn [length fmap list_fmap foldr]. intros [Hn Hall]%Forall_cons Hb Hbs Hr Hrs.
  assert (0 ≤ row_total results)%Z as Hpos.
  { unfold row_total. clear -Hall. induction Hall; cbn; lia. }
  fold (row_total results) in *. rewrite IH; cbn [receivedRowBatches receivedRows]; [|done|..];
    rewrite ?to_int_small by (change (32 - 1)%Z with 31%Z; change (64 - 1)%Z with 63%Z; lia); try lia.
  f_equal; lia.
Qed.

(** the health check passes exactly when its query ended without an error and
    returned one row in all. *)
Theorem health_check_exact queryID waited results :
  Forall (λ rb, 0 ≤ vizierpb.NumRows rb)%Z (omap batch_of_response results) →
  (Z.of_nat (length (omap batch_of_response results)) < 2 ^ 31)%Z → (row_total results < 2 ^ 63)%Z →
  CheckHealth queryID waited results = None ↔ waited = None ∧ row_total results = 1%Z.
Proof.
  intros Hn Hb Hr. unfold CheckHealth. rewrite healthcheck_counts by (cbn; done || lia). cbn [receivedRowBatches receivedRows].
  rewrite !Z.add_0_l. destruct waited; [by split; [|intros []]|].
  assert (0 ≤ row_total results ∧ (omap batch_of_response results = [] → row_total results = 0))%Z as [Hpos Hnone].
  { unfold row_total. clear -Hn. split; [induction Hn; cbn; lia|by intros ->]. }
  destruct (Z.eqb_spec (Z.of_nat (length (omap batch_of_response results))) 0) as [E|E]; cbn [orb].
  { assert (omap batch_of_response results = []) as E' by (apply nil_length_inv; lia). rewrite Hnone by done. by split; [|intros []]. }
  destruct (Z.eqb_spec (row_total results) 0); [by split; [|intros [_ ?]; lia]|]. destruct (Z.ltb_spec 1 (row_total results)); [|split; [intros _; split; [done|lia]|done]].
  split; [done|]. intros [_ ?]. lia.
Qed.
