(* ===== verification/ServerRuns.v ===== *)
(** * Examples of streams and runs

    The theorems on the query broker's goroutines and streams at concrete
    inputs. *)

From S2P Require Import Prelude GoLib Uuid Messages QueryMessages QueryProto PlannerMessages ActiveQuery QueryRun QueryServer ForwarderRuns.
Import MemUuid.

Module ServerRuns.
(** A script of one response and a consumer that accepts it. *)
Definition hello : response := vizierpb.mkResponse "id" None None None.
Definition accept (before : list response) (r : response) : option error := None.

(** The run after a step of the script or the consumer, with the responses sent so far. *)
Definition run_at (p : script_state) (c : consumer_state) (closed : bool) (offered consumed : list response) : query_run :=
  mkQueryRun p c closed None false None offered offered consumed.
Definition finished : query_run := run_at (SDone None) (CDone None) true [hello] [hello].

Lemma finished_reachable : reachable_run accept finished.
Proof.
  eapply run_next; [|by apply (step_consumer_closed accept (run_at (SDone None) CWaiting true [hello] [hello]))].
  eapply run_next; [|by apply (step_script_returns accept (run_at SRunning CWaiting false [hello] [hello]) None)].
  eapply run_next; [|by apply (step_consume accept (run_at SRunning (CConsuming hello) false [hello] []) hello)].
  eapply run_next; [|by apply (step_hand_over accept (log_offered hello (script_to (SSending hello) started)) hello)].
  eapply run_next; [apply run_started|]. by apply step_offer.
Qed.

Lemma run_without_error_complete_witness :
  r_consumed finished = [hello] ∧ accepted accept [hello] ∧ r_offered finished = [hello].
Proof.
  destruct (run_without_error_complete accept finished finished_reachable eq_refl) as (_ & Hc & Ha & Ho).
  split_and!; [exact Hc|exact Ha|]. exact (eq_sym (Ho eq_refl eq_refl)).
Defined.

(** A query that its caller cancels may end without an error although a response was
    given up: [StreamResults] returns the error of the query, which is not set, and the
    consumer sees the closed channel. *)
Example cancelled_run_without_error :
  ∃ s, reachable_run accept s ∧ waited s = Some None ∧ r_offered s = [hello] ∧ r_consumed s = [].
Proof.
  set (at_ := λ p c closed, mkQueryRun p c closed (Some ErrCanceled) false None [hello] [] []).
  exists (at_ (SDone None) (CDone None) true). split; [|done].
  eapply run_next; [|by apply (step_consumer_closed accept (at_ (SDone None) CWaiting true))].
  eapply run_next; [|by apply (step_script_returns accept (at_ SRunning CWaiting false) None)].
  eapply run_next; [|apply (step_send_given_up accept (at_ (SSending hello) CWaiting false) hello); [done|by left]].
  eapply run_next; [|by apply (step_cancel accept (log_offered hello (script_to (SSending hello) started)) ErrCanceled)].
  eapply run_next; [apply run_started|]. by apply step_offer.
Qed.

(** A script whose response the consumer has not taken yet. *)
Definition blocked : query_run := log_offered hello (script_to (SSending hello) started).

Lemma query_run_never_stuck_witness :
  ∃ s', run_step accept blocked s' ∧ run_size s' < run_size blocked ∧ (r_script s', r_consumer s') ≠ (SSending hello, CWaiting).
Proof.
  assert (reachable_run accept blocked) as Hr by (eapply run_next; [apply run_started|by apply step_offer]).
  destruct (query_run_never_stuck accept blocked Hr) as [_ Hgo]. apply (Hgo eq_refl). discriminate.
Defined.

(** A forwarder that keeps the messages and the cancellations. *)
#[export] Instance log_forwarder : Forwarder (list msg * nat) := {|
  fw_GetProducerCtx _ f := (Ret tt, f);
  fw_ForwardQueryResult m f := (Ret tt, (f.1 ++ [m], f.2));
  fw_ProducerCancelStream _ _ f := (Ret tt, (f.1, S f.2))
|}.

Definition rows : msg := Runs.batch "http" false.
Definition last_rows : msg := Runs.batch "http" true.

Lemma confirmed_stream_forwarded_witness :
  ∃ ms e rest table, [RecvMsg rows; RecvMsg last_rows; RecvEOF] = (RecvMsg <$> ms) ++ e :: rest ∧ closes e ∧
    (ms = [] ∧ ([rows; last_rows], 0) = ([], 0) ∨
     ∃ id f0, fw_GetProducerCtx id ([], 0) = (Ret tt, f0) ∧ forwards ms f0 ([rows; last_rows], 0) ∧
       Forall (λ m, UUIDFromProto (carnotpb.QueryID m) = inr id) ms) ∧
    (∀ m q, m ∈ ms → carnotpb.Result m = Some (carnotpb.QueryResult q) →
       carnotpb.GetTableName q = "" ∨ carnotpb.GetTableName q = table) ∧
    (table = "" ∨ ∃ m q, m ∈ ms ∧ carnotpb.Result m = Some (carnotpb.QueryResult q) ∧ ends_table q = true ∧
       (carnotpb.GetTableName q = "" ∨ carnotpb.GetTableName q = table)).
Proof.
  apply (confirmed_stream_forwarded [RecvMsg rows; RecvMsg last_rows; RecvEOF] ([], 0) (mkChunkResponse true "")).
  - intros m p Hm Hp. assert (p = ProtoFromUUID uuid_1) as ->; [|apply ProtoFromUUID_wf].
    rewrite !elem_of_cons, elem_of_nil in Hm. destruct Hm as [Hm|[Hm|[Hm|[]]]]; [injection Hm as ->..|done];
      change (Some (ProtoFromUUID uuid_1) = Some p) in Hp; congruence.
  - reflexivity.
  - reflexivity.
Defined.

Lemma early_close_not_cancelled_witness :
  TransferResultChunk [RecvMsg rows; RecvEOF] ([], 0) =
    (Ret (Some (mkChunkResponse false (err_closed (mkTransfer uuid_1 "http" false)))), ([rows], 0)).
Proof.
  apply (early_close_not_cancelled [rows] ([], 0) (mkTransfer uuid_1 "http" false) ([rows], 0)).
  - exists (mkTransfer uuid_1 "http" false), ([rows], 0). done.
  - done.
  - done.
Defined.

Definition one_row : response :=
  vizierpb.mkResponse "id" None (Some (vizierpb.Data (vizierpb.mkQueryData (Some (vizierpb.mkRowBatchData "t" [] 1 true true)) "" None))) None.

Lemma health_check_exact_witness : CheckHealth "id" None [hello; one_row] = None ↔ None (A := error) = None ∧ (1 = 1)%Z.
Proof. apply (health_check_exact "id" None [hello; one_row]); [by repeat constructor|cbn; lia|cbn; lia]. Defined.
End ServerRuns.
