(* ===== verification/ScriptSource.v ===== *)
(** * Where cron scripts come from

    [query_broker/script_runner]: the sources of cron scripts.  A source gives an
    initial set of scripts and sends updates on a channel.  [cloud_source.go] keeps
    the scripts of the metadata service in step with the cloud over NATS;
    [config_map_source.go] reads scripts from config maps.  [shared/scripts] has the
    checksum by which the two sets of scripts are compared. *)

From S2P Require Import Prelude GoLib Uuid Messages MessageBus CronScript.
From Stdlib Require Import Ascii.

(** ** Messages *)

(** [google.protobuf.Any]: the name of a message and its bytes. *)
Definition Any : Type := string * string.

(** [types.MarshalAny] and [types.UnmarshalAny]. *)
Class AnyProto (T : Type) := {
  MarshalAny : T → error + Any;
  UnmarshalAny : option Any → error + T
}.

Class AnyProtoSpec (T : Type) `{!AnyProto T} : Prop := {
  any_roundtrip x : ∃ a, MarshalAny x = inr a ∧ UnmarshalAny (Some a) = inr x
}.

Module cvmsgspb.
Record C2VMessage := mkC2VMessage { c2v_VizierID : string; c2v_Msg : option Any }.
Record V2CMessage := mkV2CMessage {
  v2c_VizierID : string; v2c_ClusterUID : string; v2c_SessionID : Z; v2c_Msg : option Any
}.

Inductive update_msg : Type :=
| UpsertReq (Script : option CronScript)
| DeleteReq (ScriptID : option UUIDpb).

Record CronScriptUpdate := mkCronScriptUpdate { Msg : option update_msg; RequestID : string; Timestamp : Z }.

Record GetCronScriptsChecksumRequest := mkChecksumRequest { checksum_Topic : string }.
Record GetCronScriptsChecksumResponse := mkChecksumResponse { Checksum : string }.
Record GetCronScriptsRequest := mkScriptsRequest { scripts_Topic : string }.
Record GetCronScriptsResponse := mkScriptsResponse { Scripts : gmap string CronScript }.
Inductive RegisterOrUpdateCronScriptResponse : Type := mkUpsertResponse.
Inductive DeleteCronScriptResponse : Type := mkDeleteResponse.
End cvmsgspb.
Import cvmsgspb.

(** The channel of updates; its elements are pointers. *)
Definition update_chan : Type := list (option CronScriptUpdate).

(** ** Topics *)

Definition CronScriptChecksumRequestChannel : string := V2CTopic "GetCronScriptsCheckSumRequest".
Definition CronScriptChecksumResponseChannel : string := C2VTopic "GetCronScriptsCheckSumResponse".
Definition GetCronScriptsRequestChannel : string := V2CTopic "GetCronScriptsRequest".
Definition GetCronScriptsResponseChannel : string := C2VTopic "GetCronScriptsResponse".
Definition CronScriptUpdatesChannel : string := C2VTopic "CronScriptsUpdates".
Definition CronScriptUpdatesResponseChannel : string := V2CTopic "CronScriptsUpdatesResponse".

(** ** The metadata service, as its client sees it *)

Class CronScriptStoreClient (W : Type) := {
  cs_GetScripts : M W (gmap string CronScript);
  cs_SetScripts : gmap string CronScript → M W unit;
  cs_AddOrUpdateScript : CronScript → M W unit;
  cs_DeleteScript : option UUIDpb → M W unit;
  cs_RecordExecutionResult : RecordExecutionResultRequest → M W unit
}.

(** What the service promises: [cs_up] is an invariant under which its calls
    succeed, [cs_scripts] the scripts it holds, each under its own identifier. *)
Class CronScriptStoreSpec `{U : UUIDLib} (W : Type) `{!CronScriptStoreClient W} (cs_up : W → Prop)
    (cs_scripts : W → gmap uuid CronScript → Prop) : Prop := {
  cs_own_id w S : cs_scripts w S → map_Forall (λ id c, script_id c = id) S;
  cs_GetScripts_spec w S : cs_up w → cs_scripts w S →
    wp cs_GetScripts (λ m w', cs_up w' ∧ cs_scripts w' S ∧ m = kmap uuid_String S) w;
  cs_SetScripts_spec w S m : cs_up w → cs_scripts w S →
    (∀ k c, m !! k = Some c → k = uuid_String (script_id c)) →
    wp (cs_SetScripts m) (λ _ w', cs_up w' ∧ ∃ S', cs_scripts w' S' ∧ m = kmap uuid_String S') w;
  cs_AddOrUpdateScript_spec w S c : cs_up w → cs_scripts w S →
    wp (cs_AddOrUpdateScript c) (λ _ w', cs_up w' ∧ cs_scripts w' (<[script_id c := c]> S)) w;
  cs_DeleteScript_spec w S id : cs_up w → cs_scripts w S →
    wp (cs_DeleteScript id) (λ _ w', cs_up w' ∧ cs_scripts w' (delete (UUIDFromProtoOrNil id) S)) w
}.

(** ** The checksum of a set of scripts *)

Fixpoint xor_bytes (a b : string) : string :=
  match a, b with
  | String x a, String y b => String (ascii_of_N (N.lxor (N_of_ascii x) (N_of_ascii y))) (xor_bytes a b)
  | _, _ => ""
  end.

Definition xorByteArray (a b : string) : error + string :=
  if negb (String.length a =? String.length b)%nat then inl (ErrMsg "Byte arrays must be the same length")
  else inr (xor_bytes a b).

Section checksum.
Context (sha256 : string → string) (json_Marshal : CronScript → error + string).

Fixpoint checksum_loop (scripts : list CronScript) (checksum : string) : error + string :=
  match scripts with
  | [] => inr checksum
  | s :: scripts =>
    match json_Marshal s with
    | inl err => inl err
    | inr scriptStr =>
      match xorByteArray checksum (sha256 scriptStr) with
      | inl err => inl err
      | inr checksum => checksum_loop scripts checksum
      end
    end
  end.

(** [scripts] are the values of the map, in its order of iteration. *)
Definition ChecksumFromScriptMap (scripts : list CronScript) : error + string := checksum_loop scripts (sha256 "").
End checksum.

(** ** The source of the cloud *)

(** What waiting for a response ends with. *)
Inductive nats_reply : Type := CtxCancelled | Response (data : string) | TimedOut.

(** The rest of what the source uses of [nats.Conn]: subscriptions, and the receive
    on a subscribed channel, the context or the timer. *)
Class NatsClient `{N : NatsConn} := {
  nc_Subscribe : string → M nconn unit;
  nc_Unsubscribe : string → M nconn unit;
  nc_Wait : string → M nconn nats_reply
}.

Section cloud.
Context `{U : UUIDLib} `{N : NatsConn} `{!NatsClient} {W : Type} `{!CronScriptStoreClient W}.
Context `{!Proto C2VMessage} `{!Proto V2CMessage} `{!AnyProto CronScriptUpdate}.
Context `{!AnyProto GetCronScriptsChecksumRequest} `{!AnyProto GetCronScriptsChecksumResponse}.
Context `{!AnyProto GetCronScriptsRequest} `{!AnyProto GetCronScriptsResponse}.
Context `{!AnyProto RegisterOrUpdateCronScriptResponse} `{!AnyProto DeleteCronScriptResponse}.

(** The function that [stop] holds is known by whether it was set. *)
Record CloudSource := mkCloudSource { cs_stop : bool; scriptLastUpdateTime : gmap uuid Z }.

Definition NewCloudSource : CloudSource := mkCloudSource false ∅.

(** The source with the clients it holds, and the channel it sends on. *)
Record cloud_state := mkCloud { source : CloudSource; md : W; nc : nconn; updatesCh : update_chan }.

Definition md_do {A} (m : M W A) : M cloud_state A := zoom md (λ w s, mkCloud (source s) w (nc s) (updatesCh s)) m.
Definition nc_do {A} (m : M nconn A) : M cloud_state A := zoom nc (λ c s, mkCloud (source s) (md s) c (updatesCh s)) m.
Definition Publish (topic data : string) : M cloud_state unit :=
  nc_do (λ c, match nc_Publish topic data c with (None, c') => (Ret tt, c') | (Some e, c') => (Err e, c') end).
Definition on_source (f : CloudSource → CloudSource) : M cloud_state unit :=
  modify (λ s, mkCloud (f (source s)) (md s) (nc s) (updatesCh s)).
(** A send that finds room; the updater waits until it does. *)
Definition send_update (u : option CronScriptUpdate) : M cloud_state unit :=
  modify (λ s, mkCloud (source s) (md s) (nc s) (updatesCh s ++ [u])).

Definition unmarshalC2V {T} `{!AnyProto T} (data : string) : error + T :=
  match Unmarshal (A := C2VMessage) data with
  | inl err => inl err
  | inr c2vMsg => UnmarshalAny (c2v_Msg c2vMsg)
  end.

Definition marshalV2C {T} `{!AnyProto T} (msg : T) : error + string :=
  match MarshalAny msg with
  | inl err => inl err
  | inr msgBody => Marshal (mkV2CMessage "" "" 0 (Some msgBody))
  end.

Definition executeInOrder (sID : uuid) (timestamp : Z) (exec : M cloud_state unit) : M cloud_state unit :=
  s ← get_state;
  if (default 0 (scriptLastUpdateTime (source s) !! sID) <? timestamp)%Z then
    _ ← exec;
    on_source (λ src, mkCloudSource (cs_stop src) (<[sID := timestamp]> (scriptLastUpdateTime src)))
  else mret tt.

(** The response to an update. *)
Definition respond {T} `{!AnyProto T} (resp : T) (requestID : string) : M cloud_state unit :=
  match marshalV2C resp with
  | inl _ => mret tt
  | inr data => logged (Publish (CronScriptUpdatesResponseChannel +:+ ":" +:+ requestID) data)
  end.

(** What is done for an update that is in order. *)
Definition exec_upsert (u : CronScriptUpdate) (script : CronScript) : M cloud_state unit :=
  _ ← send_update (Some u);
  _ ← logged (md_do (cs_AddOrUpdateScript script));
  respond mkUpsertResponse (RequestID u).

Definition exec_delete (u : CronScriptUpdate) (scriptID : option UUIDpb) : M cloud_state unit :=
  _ ← send_update (Some u);
  _ ← logged (md_do (cs_DeleteScript scriptID));
  respond mkDeleteResponse (RequestID u).

Definition handle_update (u : CronScriptUpdate) : M cloud_state unit :=
  match Msg u with
  | Some (UpsertReq script) =>
    script ← deref script;
    executeInOrder (UUIDFromProtoOrNil (cr_ID script)) (Timestamp u) (exec_upsert u script)
  | Some (DeleteReq scriptID) =>
    executeInOrder (UUIDFromProtoOrNil scriptID) (Timestamp u) (exec_delete u scriptID)
  | None => mret tt
  end.

Definition natsUpdater (data : string) : M cloud_state unit :=
  match unmarshalC2V (T := CronScriptUpdate) data with
  | inl _ => mret tt
  | inr u => handle_update u
  end.

(** The result of the wait loop, and the subscription ended on every path. *)
Definition natsReplyAndResponse {Req Res} `{!AnyProto Req} `{!AnyProto Res} (req : Req) (requestTopic responseTopic : string)
    : M cloud_state Res :=
  _ ← nc_do (nc_Subscribe responseTopic);
  res ← try (
    reqData ← lift_sum (marshalV2C req);
    _ ← Publish requestTopic reqData;
    reply ← nc_do (nc_Wait responseTopic);
    match reply with
    | CtxCancelled => fail (ErrMsg "Cancelled")
    | Response data => lift_sum (unmarshalC2V (T := Res) data)
    | TimedOut => fail (ErrMsg "Failed to get response")
    end);
  _ ← logged (nc_do (nc_Unsubscribe responseTopic));
  lift_sum res.

(** [topicID] is the fresh UUID of a request. *)
Definition getCloudScripts (topicID : uuid) : M cloud_state (gmap string CronScript) :=
  res ← natsReplyAndResponse (Res := GetCronScriptsResponse) (mkScriptsRequest (uuid_String topicID))
    GetCronScriptsRequestChannel (GetCronScriptsResponseChannel +:+ ":" +:+ uuid_String topicID);
  mret (Scripts res).

Context (sha256 : string → string) (json_Marshal : CronScript → error + string).
Context (mo : gmap string CronScript → list (string * CronScript)).

Definition compareScriptState (topicID : uuid) (existingScripts : gmap string CronScript) : M cloud_state bool :=
  existingChecksum ← lift_sum (ChecksumFromScriptMap sha256 json_Marshal (mo existingScripts).*2);
  res ← natsReplyAndResponse (Res := GetCronScriptsChecksumResponse) (mkChecksumRequest (uuid_String topicID))
    CronScriptChecksumRequestChannel (CronScriptChecksumResponseChannel +:+ ":" +:+ uuid_String topicID);
  mret (bool_decide (existingChecksum = Checksum res)).

(** The subscription to the updates is made first, so that updates may be handled
    between the calls of [Start]: [arrivals n] are those handled at the n-th of these
    points. *)
Definition deliver (msgs : list string) : M cloud_state unit := forM_ msgs natsUpdater.

Definition fetchInitialScripts (topic1 topic2 : uuid) (arrivals : nat → list string) : M cloud_state (gmap string CronScript) :=
  initialScripts ← md_do cs_GetScripts;
  _ ← deliver (arrivals 1);
  res ← try (compareScriptState topic1 initialScripts);
  _ ← deliver (arrivals 2);
  let upToDate := match res with inr b => b | inl _ => false end in
  if negb upToDate then
    res ← try (getCloudScripts topic2);
    match res with
    | inl _ => mret initialScripts
    | inr cloudScripts =>
      _ ← deliver (arrivals 3);
      _ ← md_do (cs_SetScripts cloudScripts);
      mret cloudScripts
    end
  else mret initialScripts.

Definition Start (topic1 topic2 : uuid) (arrivals : nat → list string) : M cloud_state (gmap string CronScript) :=
  _ ← nc_do (nc_Subscribe CronScriptUpdatesChannel);
  _ ← deliver (arrivals 0);
  res ← try (fetchInitialScripts topic1 topic2 arrivals);
  match res with
  | inl err => _ ← logged (nc_do (nc_Unsubscribe CronScriptUpdatesChannel)); fail err
  | inr initialScripts =>
    _ ← on_source (λ src, mkCloudSource true (scriptLastUpdateTime src));
    mret initialScripts
  end.

(** Calling a nil function value panics. *)
Definition Stop : M cloud_state unit :=
  s ← get_state;
  if cs_stop (source s) then logged (nc_do (nc_Unsubscribe CronScriptUpdatesChannel)) else panic NilDeref.
End cloud.
Arguments CloudSource {U}.
Arguments cloud_state {U N} W.
