(* ===== verification/ConfigMapSource.v ===== *)
(** * Cron scripts from config maps

    [config_map_source.go]: a source that reads scripts from the config maps of the
    cluster, which an informer watches; and [sources.go], the choice of sources. *)

From S2P Require Import Prelude GoLib Uuid Messages CronScript ScriptSource.
Import cvmsgspb.

(** The fields the code reads, and the version that every change of a stored object
    changes. *)
Record ConfigMap := mkConfigMap { cm_UID : string; cm_ResourceVersion : string; cm_Data : gmap string string }.

#[export] Instance ConfigMap_eq_dec : EqDecision ConfigMap.
Proof. solve_decision. Defined.

(** What an informer hands to its handlers. *)
Inductive k8s_object : Type := ConfigMapObj (cm : ConfigMap) | OtherObj (kind : string).

#[export] Instance k8s_object_eq_dec : EqDecision k8s_object.
Proof. solve_decision. Defined.

Inductive cm_event : Type :=
| AddEvent (obj : k8s_object)
| UpdateEvent (oldObj newObj : k8s_object)
| DeleteEvent (obj : k8s_object).

(** [stop] is nil, or it closes a channel that is still open or already closed. *)
Record ConfigMapSource := mkConfigMapSource { cm_stop : option bool; isInitialized : bool; cm_updatesCh : update_chan }.

Definition NewConfigMapSource : ConfigMapSource := mkConfigMapSource None false [].

Section config_map.
(** [yaml.Unmarshal] of a [cronYAML]: its frequency. *)
Context `{U : UUIDLib} (cron_yaml : string → error + Z).

Definition configmapToCronScript (configmap : ConfigMap) : error + (string * CronScript) :=
  let id := cm_UID configmap in
  let data key := default "" (cm_Data configmap !! key) in
  match cron_yaml (data "cron.yaml") with
  | inl err => inl err
  | inr frequency =>
    inr (id, mkCronScript (Some (ProtoFromUUIDStrOrNil id)) (data "script.pxl") "" (data "configs.yaml") frequency)
  end.

Definition makeDelete (now : gotime) (configmap : ConfigMap) : option CronScriptUpdate :=
  match configmapToCronScript configmap with
  | inl _ => None
  | inr (_, script) => Some (mkCronScriptUpdate (Some (DeleteReq (cr_ID script))) "" (Unix now))
  end.

Definition makeUpdate (now : gotime) (configmap : ConfigMap) : option CronScriptUpdate :=
  match configmapToCronScript configmap with
  | inl _ => None
  | inr (_, script) => Some (mkCronScriptUpdate (Some (UpsertReq (Some script))) "" (Unix now))
  end.

Definition cm_send (u : option CronScriptUpdate) : M ConfigMapSource unit :=
  modify (λ s, mkConfigMapSource (cm_stop s) (isInitialized s) (cm_updatesCh s ++ [u])).

(** A type assertion to [*corev1.ConfigMap]. *)
Definition as_configmap (obj : k8s_object) : M ConfigMapSource ConfigMap :=
  match obj with
  | ConfigMapObj cm => mret cm
  | OtherObj _ => panic (PanicMsg "interface conversion")
  end.

Definition configMapEventHandlers (now : gotime) (e : cm_event) : M ConfigMapSource unit :=
  match e with
  | AddEvent obj =>
    configmap ← as_configmap obj;
    s ← get_state;
    if negb (isInitialized s) then mret tt else cm_send (makeUpdate now configmap)
  | UpdateEvent oldObj newObj =>
    if bool_decide (oldObj = newObj) then mret tt
    else
      configmap ← as_configmap newObj;
      cm_send (makeUpdate now configmap)
  | DeleteEvent obj =>
    configmap ← as_configmap obj;
    cm_send (makeDelete now configmap)
  end.

Fixpoint initial_loop (configMaps : list ConfigMap) (scripts : gmap string CronScript) : gmap string CronScript :=
  match configMaps with
  | [] => scripts
  | configMap :: configMaps =>
    match configmapToCronScript configMap with
    | inl _ => initial_loop configMaps scripts
    | inr (id, cronScript) => initial_loop configMaps (<[id := cronScript]> scripts)
    end
  end.

(** [lister] is what listing the informer's cache returns. *)
Definition getInitialScripts (lister : error + list ConfigMap) : error + gmap string CronScript :=
  match lister with
  | inl err => inl err
  | inr configMaps => inr (initial_loop configMaps ∅)
  end.

Definition handle_all (events : list (gotime * cm_event)) : M ConfigMapSource unit :=
  forM_ events (λ te, configMapEventHandlers te.1 te.2).

(** The informer runs its handlers in a goroutine of its own: [before] are the events
    it handles before its cache is listed, [between] those until the flag is set. *)
Definition cm_Start (addErr : option error) (before between : list (gotime * cm_event)) (lister : error + list ConfigMap)
    : M ConfigMapSource (gmap string CronScript) :=
  match addErr with
  | Some err => fail err
  | None =>
    _ ← handle_all before;
    match getInitialScripts lister with
    | inl err => fail err
    | inr initialScripts =>
      _ ← handle_all between;
      _ ← modify (λ s, mkConfigMapSource (cm_stop s) true (cm_updatesCh s));
      _ ← modify (λ s, mkConfigMapSource (Some false) (isInitialized s) (cm_updatesCh s));
      mret initialScripts
    end
  end.

Definition cm_Stop : M ConfigMapSource unit :=
  s ← get_state;
  match cm_stop s with
  | None => panic NilDeref
  | Some true => panic CloseOfClosedChannel
  | Some false => modify (λ s, mkConfigMapSource (Some true) (isInitialized s) (cm_updatesCh s))
  end.
End config_map.

(** ** The choice of sources *)

Definition CloudSourceName : string := "cloud".
Definition ConfigMapSourceName : string := "configmaps".
Definition DefaultSources : list string := [CloudSourceName].

Inductive source_kind : Type := ACloudSource | AConfigMapSource.

(** [inCluster]: whether [rest.InClusterConfig] finds a configuration. *)
Fixpoint Sources {S} (inCluster : bool) (sourceNames : list string) : M S (list source_kind) :=
  match sourceNames with
  | [] => mret []
  | selectedName :: sourceNames =>
    if bool_decide (selectedName = CloudSourceName) then
      sources ← Sources inCluster sourceNames; mret (ACloudSource :: sources)
    else if bool_decide (selectedName = ConfigMapSourceName) then
      if negb inCluster then panic LogFatal
      else sources ← Sources inCluster sourceNames; mret (AConfigMapSource :: sources)
    else Sources inCluster sourceNames
  end.
