(* ===== verification/ScriptRunner.v ===== *)
(** * The script runner

    [script_runner.go]: the runners of the cron scripts.  [ScriptRunner] keeps one
    runner per script and replaces it when its source sends an update; a runner has a
    goroutine that runs its script at every tick and records the result with the
    metadata service. *)

From S2P Require Import Prelude GoLib Uuid Messages QueryMessages QueryProto CronScript ScriptSource.
Import cvmsgspb.

(** ** A runner *)

(** [shared/scripts/configs.go]. *)
Module scripts.
Record OtelEndpointConfig := mkOtelEndpointConfig { URL : string; Headers : gmap string string; Insecure : bool }.
Record Config := mkConfig { OtelEndpoint : option OtelEndpointConfig }.
End scripts.

(** The goroutines of a runner: [start] was not called yet, the loop waits with its
    ticker (a tick may be ready in the ticker's channel), or they have returned. *)
Inductive runner_phase : Type := Spawned | Ticking (scriptPeriod : Z) (tick : bool) | Returned.

Record runner `{U : UUIDLib} := mkRunner {
  r_cronScript : CronScript;
  r_config : scripts.Config;
  r_lastRun : gotime;
  r_done : bool;
  r_once : bool;
  r_scriptID : uuid;
  r_phase : runner_phase
}.
Arguments mkRunner {U}.

(** The zero [time.Time]: the first of January of the year 1, in UTC. *)
Definition zero_time : gotime := mkTime (- unixToInternal * nanos) None.

Definition to_int32 (z : Z) : Z := ((z + 2 ^ 31) mod 2 ^ 32 - 2 ^ 31)%Z.

(** [t.UnixNano()]. *)
Definition UnixNano (t : gotime) : Z := to_int64 (t_ns t).

(** [strings.Contains]. *)
Fixpoint Contains (s sub : string) : bool :=
  HasPrefix s sub || match s with EmptyString => false | String _ s => Contains s sub end.

Definition defaultOTelTimeoutS : Z := 5.

(** The client of the query service; the end of a stream is [io.EOF]. *)
Class VizierClient (W : Type) := {
  vz_ExecuteScript : vizierpb.ExecuteScriptRequest → M W (list (error + vizierpb.ExecuteScriptResponse))
}.

Module runner.
Section runner.
Context `{U : UUIDLib} {W : Type} `{!VizierClient W} `{!CronScriptStoreClient W} `{!AnyProto compilerpb.CompilerErrorGroup}.
(** [yaml.Unmarshal] of a configuration, which may be partly filled when it fails,
    and [types.TimestampProto]. *)
Context (yaml_config : string → option error * scripts.Config) (TimestampProto : gotime → error + CronScript.Timestamp).

Definition newRunner (script : CronScript) (id : uuid) : runner :=
  mkRunner script (yaml_config (cr_Configs script)).2 zero_time false false id Spawned.

(** The details of a status of this system always hold a compiler error. *)
Definition VizierStatusToStatus (s : vizierpb.Status) : error + Status :=
  match vizierpb.ErrorDetails s with
  | [] => inr (mkStatus (vizierpb.Code s) (vizierpb.StatusMessage s) None)
  | details =>
    let errorPb := compilerpb.mkCompilerErrorGroup
      ((λ e, Some (compilerpb.mkLineColError (vizierpb.Line e) (vizierpb.Column e) (vizierpb.Message e))) <$> details) in
    match MarshalAny errorPb with
    | inl err => inl err
    | inr ctxAny => inr (mkStatus (vizierpb.Code s) (vizierpb.StatusMessage s) (Some ctxAny))
    end
  end.

(** The request of a run that starts where the last one began. *)
Definition otel_endpoint (r : runner) : option vizierpb.OTelEndpointConfig :=
  c ← scripts.OtelEndpoint (r_config r);
  Some (vizierpb.mkOTelEndpointConfig (scripts.URL c) (scripts.Headers c) (scripts.Insecure c) defaultOTelTimeoutS).

Definition startTime (r : runner) : gotime := time_Add (r_lastRun r) (- nanos).
Definition endTime (r : runner) (scriptPeriod : Z) : gotime := time_Add (startTime r) scriptPeriod.

Definition script_request (r : runner) (scriptPeriod : Z) : vizierpb.ExecuteScriptRequest :=
  vizierpb.mkRequest (cr_Script (r_cronScript r)) [] (Contains (cr_Script (r_cronScript r)) "pxlog") ""
    (Some (vizierpb.mkConfigs (otel_endpoint r)
      (Some (vizierpb.mkPluginConfig (UnixNano (startTime r)) (UnixNano (endTime r scriptPeriod))))))
    ("cron_" +:+ uuid_String (r_scriptID r)).

(** The status recorded for an error of [Recv]: its code and message, those of an
    unknown error when it is not one of gRPC. *)
Definition stream_status (err : error) : Status :=
  match status_FromError (Some err) with
  | Some (code, msg) => mkStatus (to_int32 code) msg None
  | None => mkStatus codes.Unknown (error_string err) None
  end.

(** The request that records a result; the timestamp is missing when it cannot be
    converted. *)
Definition record_request (r : runner) (outcome : ExecutionOutcome) : RecordExecutionResultRequest :=
  mkRecordRequest (Some (ProtoFromUUID (r_scriptID r)))
    (match TimestampProto (startTime r) with inr ts => Some ts | inl _ => None end) outcome.

Definition stats_of (stats : vizierpb.QueryExecutionStats) : ExecutionStats :=
  mkExecutionStats (vizierpb.ExecutionTimeNs (vizierpb.Timing stats)) (vizierpb.CompilationTimeNs (vizierpb.Timing stats))
    (vizierpb.BytesProcessed stats) (vizierpb.RecordsProcessed stats).

(** The loop over the responses. *)
Fixpoint recv_loop (r : runner) (stream : list (error + vizierpb.ExecuteScriptResponse)) : M W unit :=
  match stream with
  | [] => mret tt
  | inl err :: _ => logged (cs_RecordExecutionResult (record_request r (OutcomeError (Some (stream_status err)))))
  | inr resp :: stream =>
    match vizierpb.ResponseStatus resp with
    | Some vzStatus =>
      let st := match VizierStatusToStatus vzStatus with inr st => Some st | inl _ => None end in
      logged (cs_RecordExecutionResult (record_request r (OutcomeError st)))
    | None =>
      match vizierpb.Result resp with
      | Some (vizierpb.Data data) =>
        match vizierpb.ExecutionStats data with
        | None => recv_loop r stream
        | Some stats => logged (cs_RecordExecutionResult (record_request r (OutcomeStats (Some (stats_of stats)))))
        end
      | _ => recv_loop r stream
      end
    end
  end.

Definition with_lastRun (now : gotime) (r : runner) : runner :=
  mkRunner (r_cronScript r) (r_config r) now (r_done r) (r_once r) (r_scriptID r) (r_phase r).
Definition with_phase (ph : runner_phase) (r : runner) : runner :=
  mkRunner (r_cronScript r) (r_config r) (r_lastRun r) (r_done r) (r_once r) (r_scriptID r) ph.

Definition state : Type := runner * W.
Definition client {A} (m : M W A) : M state A := zoom snd (λ w s, (s.1, w)) m.

(** [now] is the time of the call of [time.Now]. *)
Definition runScript (scriptPeriod : Z) (now : gotime) : M state unit :=
  s ← get_state;
  let r := s.1 in
  _ ← modify (λ s : state, (with_lastRun now s.1, s.2));
  res ← try (client (vz_ExecuteScript (script_request r scriptPeriod)));
  match res with
  | inl _ => mret tt
  | inr stream => client (recv_loop r stream)
  end.

(** [time.NewTicker] panics unless its period is positive. *)
Definition start (now : gotime) : M runner unit :=
  r ← get_state;
  let FrequencyS := cr_FrequencyS (r_cronScript r) in
  if (FrequencyS <=? 0)%Z then modify (with_phase Returned)
  else
    let scriptPeriod := to_int64 (FrequencyS * nanos) in
    if (scriptPeriod <=? 0)%Z then panic (PanicMsg "non-positive interval for NewTicker")
    else
      _ ← modify (with_lastRun now);
      modify (with_phase (Ticking scriptPeriod false)).

Definition stop : M runner unit :=
  r ← get_state;
  if r_once r then mret tt
  else if r_done r then panic CloseOfClosedChannel
  else modify (λ r, mkRunner (r_cronScript r) (r_config r) (r_lastRun r) true true (r_scriptID r) (r_phase r)).
End runner.
End runner.

(** ** The runners of all scripts *)

Section script_runner.
Context `{U : UUIDLib} (yaml_config : string → option error * scripts.Config).

(** [runnerMap] holds pointers to the runners, all of which are in [runners]. *)
Record ScriptRunner := mkScriptRunner {
  runnerMap : gmap uuid nat;
  runners : list runner;
  sr_cancelled : bool;
  sr_once : bool
}.

(** [New]. *)
Definition New : ScriptRunner := mkScriptRunner ∅ [] false false.

(** A call on the runner a pointer refers to. *)
Definition on_runner (p : nat) (m : M runner unit) : M ScriptRunner unit := λ s,
  match runners s !! p with
  | None => (Crash NilDeref, s)
  | Some r => let '(o, r') := m r in
    (o, mkScriptRunner (runnerMap s) (<[p := r']> (runners s)) (sr_cancelled s) (sr_once s))
  end.

Definition on_map (f : gmap uuid nat → gmap uuid nat) : M ScriptRunner unit :=
  modify (λ s, mkScriptRunner (f (runnerMap s)) (runners s) (sr_cancelled s) (sr_once s)).

(** A new runner, whose [start] is called in a goroutine of its own. *)
Definition spawn (r : runner) : M ScriptRunner nat := λ s,
  (Ret (length (runners s)), mkScriptRunner (runnerMap s) (runners s ++ [r]) (sr_cancelled s) (sr_once s)).

(** Stopping the runner of a script and taking it off the map. *)
Definition stop_registered (id : uuid) : M ScriptRunner unit :=
  s ← get_state;
  match runnerMap s !! id with
  | Some v => _ ← on_runner v runner.stop; on_map (delete id)
  | None => mret tt
  end.

Definition upsertScript (id : uuid) (script : CronScript) : M ScriptRunner unit :=
  _ ← stop_registered id;
  r ← spawn (runner.newRunner yaml_config script id);
  on_map <[id := r]>.

Definition deleteScript (id : uuid) : M ScriptRunner unit := stop_registered id.

(** The body of the loop of [processUpdates]. *)
Definition processUpdate (update : option CronScriptUpdate) : M ScriptRunner unit :=
  update ← deref update;
  match Msg update with
  | Some (UpsertReq script) =>
    script ← deref script;
    upsertScript (UUIDFromProtoOrNil (cr_ID script)) script
  | Some (DeleteReq scriptID) => deleteScript (UUIDFromProtoOrNil scriptID)
  | None => mret tt
  end.

(** The scripts a source starts with, in the order of the iteration of their map;
    [uuid.FromStringOrNil] reads their keys. *)
Definition FromStringOrNil (s : string) : uuid := match uuid_FromString s with inr u => u | inl _ => uuid_Nil end.

Definition upsert_initial (initialScripts : list (string * CronScript)) : M ScriptRunner unit :=
  forM_ initialScripts (λ idscript, upsertScript (FromStringOrNil idscript.1) idscript.2).
End script_runner.

(** The interface [Source], as the operations of one source on a state [S], which
    includes the channel of updates. *)
Record Source (S : Type) := mkSource { source_Start : M S (gmap string CronScript); source_Stop : M S unit }.
Arguments mkSource {S}.
Arguments source_Start {S}.
Arguments source_Stop {S}.

Section sync.
Context `{U : UUIDLib} (yaml_config : string → option error * scripts.Config) {S : Type} (sources : list (Source S)).
Context (mo : gmap string CronScript → list (string * CronScript)) (ro : gmap uuid nat → list (uuid * nat)).

(** The part of [SyncScripts] before it calls [processUpdates]. *)
Definition sync_sources : M (ScriptRunner * S) unit :=
  forM_ sources (λ src,
    initialScripts ← zoom snd (λ w s, (s.1, w)) (source_Start src);
    zoom fst (λ sr s, (sr, s.2)) (upsert_initial yaml_config (mo initialScripts))).

(** [once.Do] counts a call as done also when it panics. *)
Definition Stop : M (ScriptRunner * S) unit :=
  s ← get_state;
  if sr_once s.1 then mret tt
  else
    _ ← modify (λ s : ScriptRunner * S, (mkScriptRunner (runnerMap s.1) (runners s.1) true true, s.2));
    _ ← forM_ sources (λ src, zoom snd (λ w s, (s.1, w)) (source_Stop src));
    s ← get_state;
    forM_ (ro (runnerMap s.1)) (λ idp, zoom fst (λ sr s, (sr, s.2)) (on_runner idp.2 runner.stop)).
End sync.
