(* ===== verification/RunnerSteps.v ===== *)
(** * The runners of the scripts, concurrently

    The goroutine of [SyncScripts], the sources that send updates, [Stop] and the
    goroutines of the runners as one transition system; at most one runner of a
    script is not stopped.  Then what a runner does: the windows of time its runs ask
    for, and the result a run records. *)

From S2P Require Import Prelude GoLib Uuid Messages QueryMessages QueryProto CronScript ScriptSource ScriptRunner.
Import cvmsgspb.

(** ** The operations on the map of runners *)

Section operations.
Context `{U : UUIDLib} (yaml_config : string → option error * scripts.Config).
Implicit Types (sr : ScriptRunner) (r : runner) (id : uuid) (p : nat) (c : CronScript).

(** The scripts the registered runners run. *)
Definition cronScripts sr : gmap uuid CronScript :=
  omap (λ p, r_cronScript <$> runners sr !! p) (runnerMap sr).

Record runners_ok sr : Prop := {
  registered_id id p : runnerMap sr !! id = Some p → ∃ r, runners sr !! p = Some r ∧ r_scriptID r = id;
  live_registered p r : runners sr !! p = Some r → r_done r = false → runnerMap sr !! r_scriptID r = Some p;
  once_done p r : runners sr !! p = Some r → r_once r = r_done r;
  registered_live id p r : sr_once sr = false → runnerMap sr !! id = Some p → runners sr !! p = Some r → r_done r = false
}.

Lemma New_ok : runners_ok New.
Proof. split; intros *; cbn; rewrite ?lookup_empty, ?lookup_nil; done. Qed.

Lemma registered_inj sr id id' p :
  runners_ok sr → runnerMap sr !! id = Some p → runnerMap sr !! id' = Some p → id = id'.
Proof.
  intros Hok H H'. apply (registered_id sr Hok) in H as (r & Hr & <-). apply (registered_id sr Hok) in H' as (r' & Hr' & <-).
  congruence.
Qed.

Lemma cronScripts_lookup sr id p r :
  runnerMap sr !! id = Some p → runners sr !! p = Some r → cronScripts sr !! id = Some (r_cronScript r).
Proof. intros Hp Hr. unfold cronScripts. rewrite lookup_omap, Hp. cbn. by rewrite Hr. Qed.

Definition with_runner p r sr : ScriptRunner :=
  mkScriptRunner (runnerMap sr) (<[p := r]> (runners sr)) (sr_cancelled sr) (sr_once sr).

(** Changes of a runner that keep what identifies it. *)
Record same_runner r r' : Prop := {
  same_script : r_cronScript r' = r_cronScript r;
  same_id : r_scriptID r' = r_scriptID r;
  same_once : r_once r = r_done r → r_once r' = r_done r'
}.

Lemma with_runner_scripts sr p r r' :
  runners sr !! p = Some r → same_runner r r' → cronScripts (with_runner p r' sr) = cronScripts sr.
Proof.
  intros Hr Hs. apply map_eq. intros id. unfold cronScripts. rewrite !lookup_omap. cbn [with_runner runnerMap runners].
  destruct (runnerMap sr !! id) as [q|]; [|done]. cbn. destruct (decide (q = p)) as [->|Hne].
  - rewrite list_lookup_insert_eq by (by eapply lookup_lt_Some). rewrite Hr. cbn. by rewrite (same_script _ _ Hs).
  - by rewrite list_lookup_insert_ne.
Qed.

(** A runner that was live, or the invariant once [Stop] was called, may change. *)
Lemma with_runner_ok sr p r r' :
  runners_ok sr → runners sr !! p = Some r → same_runner r r' →
  (r_done r = true → r_done r' = true) → (sr_once sr = false → r_done r' = r_done r) →
  runners_ok (with_runner p r' sr).
Proof.
  intros Hok Hr Hs Hd Hd'. assert (p < length (runners sr)) as Hp by (by eapply lookup_lt_Some).
  split; cbn [with_runner runnerMap runners sr_once].
  - intros id q Hq. destruct (registered_id sr Hok id q Hq) as (x & Hx & <-). destruct (decide (q = p)) as [->|Hne].
    + exists r'. rewrite list_lookup_insert_eq by done. split; [done|]. rewrite (same_id _ _ Hs). congruence.
    + exists x. by rewrite list_lookup_insert_ne.
  - intros q x Hx Hdx. destruct (decide (q = p)) as [->|Hne].
    + rewrite list_lookup_insert_eq in Hx by done. injection Hx as <-. rewrite (same_id _ _ Hs).
      apply (live_registered sr Hok); [done|]. destruct (r_done r); [|done]. rewrite Hd in Hdx by done. done.
    + rewrite list_lookup_insert_ne in Hx by done. by apply (live_registered sr Hok).
  - intros q x Hx. destruct (decide (q = p)) as [->|Hne].
    + rewrite list_lookup_insert_eq in Hx by done. injection Hx as <-. apply (same_once _ _ Hs), (once_done sr Hok p r Hr).
    + rewrite list_lookup_insert_ne in Hx by done. by eapply (once_done sr Hok).
  - intros id q x Ho Hq Hx. destruct (decide (q = p)) as [->|Hne].
    + rewrite list_lookup_insert_eq in Hx by done. injection Hx as <-. rewrite Hd' by done. by eapply (registered_live sr Hok).
    + rewrite list_lookup_insert_ne in Hx by done. by eapply (registered_live sr Hok).
Qed.

(** A runner after [stop]. *)
Definition stopped r : runner :=
  mkRunner (r_cronScript r) (r_config r) (r_lastRun r) true true (r_scriptID r) (r_phase r).

Lemma stop_run r : r_once r = r_done r → ∃ r', runner.stop r = (Ret tt, r') ∧ r_done r' = true ∧ same_runner r r' ∧ (r' = r ∨ r' = stopped r).
Proof.
  intros E. unfold runner.stop. rewrite get_bind. destruct (r_once r) eqn:Eo.
  - exists r. split_and!; [done|congruence|by split|by left].
  - rewrite <-E. exists (stopped r). split_and!; [done|done|by split|by right].
Qed.

Lemma stop_registered_run sr id :
  runners_ok sr →
  ∃ sr', stop_registered id sr = (Ret tt, sr') ∧ runners_ok sr' ∧ cronScripts sr' = delete id (cronScripts sr) ∧
    runnerMap sr' = delete id (runnerMap sr) ∧ length (runners sr') = length (runners sr) ∧ sr_once sr' = sr_once sr ∧
    sr_cancelled sr' = sr_cancelled sr.
Proof.
  intros Hok. unfold stop_registered. rewrite get_bind. destruct (runnerMap sr !! id) as [p|] eqn:Hp.
  - destruct (registered_id sr Hok id p Hp) as (r & Hr & Hid).
    destruct (stop_run r (once_done sr Hok p r Hr)) as (r' & Es & Hd & Hs & _).
    assert (p < length (runners sr)) as Hlt by (by eapply lookup_lt_Some).
    unfold on_runner, mbind, M_bind. rewrite Hr, Es. eexists. split; [done|]. cbn [runnerMap runners].
    split_and!; [| |done|by rewrite length_insert|done|done].
    + split; cbn [runnerMap runners sr_once].
      * intros id' q [Hne Hq]%lookup_delete_Some. destruct (registered_id sr Hok id' q Hq) as (x & Hx & <-). exists x.
        rewrite list_lookup_insert_ne; [done|]. intros ->. apply Hne. congruence.
      * intros q x Hx Hdx. destruct (decide (q = p)) as [->|Hne].
        { rewrite list_lookup_insert_eq in Hx by done. congruence. }
        rewrite list_lookup_insert_ne in Hx by done. pose proof (live_registered sr Hok q x Hx Hdx) as Hq.
        apply lookup_delete_Some. split; [|done]. intros ->. congruence.
      * intros q x Hx. destruct (decide (q = p)) as [->|Hne].
        { rewrite list_lookup_insert_eq in Hx by done. injection Hx as <-.
          apply (same_once _ _ Hs), (once_done sr Hok p r Hr). }
        rewrite list_lookup_insert_ne in Hx by done. by eapply (once_done sr Hok).
      * intros id' q x Ho [Hne Hq]%lookup_delete_Some Hx. assert (q ≠ p) by (intros ->; by eapply Hne, registered_inj).
        rewrite list_lookup_insert_ne in Hx by done. by eapply (registered_live sr Hok).
    + pose proof (with_runner_scripts sr p r r' Hr Hs) as E. apply map_eq. intros id'.
      destruct (decide (id' = id)) as [->|Hne].
      * rewrite lookup_delete_eq. unfold cronScripts. rewrite lookup_omap. cbn [runnerMap]. by rewrite lookup_delete_eq.
      * rewrite lookup_delete_ne, <-E by done. unfold cronScripts. rewrite !lookup_omap. cbn [runnerMap runners with_runner].
        by rewrite lookup_delete_ne.
  - exists sr. split_and!; [done|done| |by rewrite delete_id|done|done|done].
    rewrite delete_id; [done|]. unfold cronScripts. by rewrite lookup_omap, Hp.
Qed.

(** An update of a script: its runner is replaced by a new one. *)
Lemma upsertScript_run sr id c :
  runners_ok sr →
  ∃ sr', upsertScript yaml_config id c sr = (Ret tt, sr') ∧ runners_ok sr' ∧ cronScripts sr' = <[id := c]> (cronScripts sr) ∧
    sr_once sr' = sr_once sr ∧ sr_cancelled sr' = sr_cancelled sr ∧
    runnerMap sr' !! id = Some (length (runners sr)) ∧
    runners sr' !! length (runners sr) = Some (runner.newRunner yaml_config c id).
Proof.
  intros Hok. destruct (stop_registered_run sr id Hok) as (sr1 & E1 & Hok1 & HS1 & Hm1 & Hl1 & Ho1 & Hc1).
  unfold upsertScript. run_with E1. eexists. split; [done|]. cbn [runnerMap runners sr_once sr_cancelled].
  set (r := runner.newRunner yaml_config c id). set (n := length (runners sr1)).
  assert (∀ q x, runners sr1 !! q = Some x → q ≠ n) as Hn by (intros q x Hx%lookup_lt_Some; subst n; lia).
  split_and!; [| |done|done|by rewrite lookup_insert_eq, <-Hl1|rewrite <-Hl1; by apply list_lookup_middle].
  - split; cbn [runnerMap runners sr_once].
    + intros id' q. destruct (decide (id = id')) as [<-|Hne].
      * rewrite lookup_insert_eq. intros [= <-]. exists r. split; [by apply list_lookup_middle|done].
      * rewrite lookup_insert_ne by done. intros Hq. destruct (registered_id sr1 Hok1 id' q Hq) as (x & Hx & E).
        exists x. by rewrite lookup_app_l by (by eapply lookup_lt_Some).
    + intros q x [Hx|[Hge Hx]]%lookup_app_Some Hd.
      * pose proof (live_registered sr1 Hok1 q x Hx Hd) as Hq. rewrite lookup_insert_ne; [done|].
        intros E. rewrite <-E, Hm1, lookup_delete_eq in Hq. done.
      * apply list_lookup_singleton_Some in Hx as [Hq <-]. cbn. rewrite lookup_insert_eq. f_equal. subst n.
        lia.
    + intros q x [Hx|[_ Hx]]%lookup_app_Some; [by eapply (once_done sr1 Hok1)|].
      by apply list_lookup_singleton_Some in Hx as [_ <-].
    + intros id' q x Ho Hq [Hx|[_ Hx]]%lookup_app_Some; [|by apply list_lookup_singleton_Some in Hx as [_ <-]].
      destruct (decide (id = id')) as [<-|Hne].
      * rewrite lookup_insert_eq in Hq. injection Hq as <-. by apply Hn in Hx.
      * rewrite lookup_insert_ne in Hq by done. by eapply (registered_live sr1 Hok1).
  - apply map_eq. intros id'. destruct (decide (id = id')) as [<-|Hne].
    + rewrite lookup_insert_eq. unfold cronScripts. rewrite lookup_omap. cbn [runnerMap runners].
      rewrite lookup_insert_eq. cbn. rewrite (list_lookup_middle (runners sr1) [] r) by done. done.
    + rewrite lookup_insert_ne by done. assert (cronScripts sr1 !! id' = cronScripts sr !! id') as <- by (by rewrite HS1, lookup_delete_ne).
      unfold cronScripts. rewrite !lookup_omap. cbn [runnerMap runners]. rewrite lookup_insert_ne by done.
      destruct (runnerMap sr1 !! id') as [q|] eqn:Hq; [|done]. cbn.
      destruct (registered_id sr1 Hok1 id' q Hq) as (x & Hx & _). by rewrite lookup_app_l by (by eapply lookup_lt_Some).
Qed.
End operations.

(** ** The transition system *)

(** The goroutine of [SyncScripts]: the initial scripts of a source still to be
    started, the loop of [processUpdates], or the call has returned. *)
Inductive main_phase : Type := Syncing (todo : list (string * CronScript)) | Looping | Done.

Section system.
Context `{U : UUIDLib} {W : Type} `{!VizierClient W} `{!CronScriptStoreClient W} `{!AnyProto compilerpb.CompilerErrorGroup}.
Context (yaml_config : string → option error * scripts.Config) (TimestampProto : gotime → error + CronScript.Timestamp).
Context (sources : list (Source W)) (ro : gmap uuid nat → list (uuid * nat)).

Record system := mkSystem { sy_runner : ScriptRunner; sy_chan : update_chan; sy_main : main_phase; sy_world : W }.

(** The capacity of the channel of updates. *)
Definition updates_capacity : nat := 4096.

Definition set_runner (s : system) (p : nat) (r : runner) : system :=
  mkSystem (with_runner p r (sy_runner s)) (sy_chan s) (sy_main s) (sy_world s).

Inductive system_step : system → system → Prop :=
| StepSend sr ch ph w u w' :
    length ch < updates_capacity →
    system_step (mkSystem sr ch ph w) (mkSystem sr (ch ++ [u]) ph w')
| StepSourceStarted sr ch w todo w' :
    system_step (mkSystem sr ch (Syncing []) w) (mkSystem sr ch (Syncing todo) w')
| StepInitial sr ch k c todo w sr' :
    upsertScript yaml_config (FromStringOrNil k) c sr = (Ret tt, sr') →
    system_step (mkSystem sr ch (Syncing ((k, c) :: todo)) w) (mkSystem sr' ch (Syncing todo) w)
| StepSynced sr ch w : system_step (mkSystem sr ch (Syncing []) w) (mkSystem sr ch Looping w)
| StepSourceFailed sr ch w w' : system_step (mkSystem sr ch (Syncing []) w) (mkSystem sr ch Done w')
| StepUpdate sr u ch w sr' :
    processUpdate yaml_config u sr = (Ret tt, sr') →
    system_step (mkSystem sr (u :: ch) Looping w) (mkSystem sr' ch Looping w)
| StepCancelled sr ch w :
    sr_cancelled sr = true → system_step (mkSystem sr ch Looping w) (mkSystem sr ch Done w)
| StepStop sr ch ph w sr' w' :
    Stop sources ro (sr, w) = (Ret tt, (sr', w')) →
    system_step (mkSystem sr ch ph w) (mkSystem sr' ch ph w')
| StepStart s p r now r' :
    runners (sy_runner s) !! p = Some r → r_phase r = Spawned → runner.start now r = (Ret tt, r') →
    system_step s (set_runner s p r')
| StepTick s p r period tick :
    runners (sy_runner s) !! p = Some r → r_phase r = Ticking period tick →
    system_step s (set_runner s p (runner.with_phase (Ticking period true) r))
| StepRun sr ch ph w p r period now r' w' :
    runners sr !! p = Some r → r_phase r = Ticking period true →
    runner.runScript TimestampProto period now (runner.with_phase (Ticking period false) r, w) = (Ret tt, (r', w')) →
    system_step (mkSystem sr ch ph w) (set_runner (mkSystem sr ch ph w') p r')
| StepReturn s p r period tick :
    runners (sy_runner s) !! p = Some r → r_phase r = Ticking period tick → r_done r = true →
    system_step s (set_runner s p (runner.with_phase Returned r)).

Inductive reachable_system : system → Prop :=
| system_new w : reachable_system (mkSystem New [] (Syncing []) w)
| system_next s s' : reachable_system s → system_step s s' → reachable_system s'.

(** ** The invariant *)

(** What a runner does to itself. *)
Lemma start_same now r r' : runner.start now r = (Ret tt, r') → same_runner r r' ∧ r_done r' = r_done r.
Proof.
  unfold runner.start. rewrite get_bind. destruct (_ <=? 0)%Z; [|destruct (_ <=? 0)%Z; [done|]]; intros [= <-]; by split.
Qed.

Lemma runScript_runner period now r w o r' w' :
  runner.runScript TimestampProto period now (r, w) = (o, (r', w')) → r' = runner.with_lastRun now r.
Proof.
  unfold runner.runScript. rewrite get_bind. cbn [fst snd]. rewrite modify_bind. cbn [fst snd].
  unfold mbind, M_bind, try, runner.client, zoom. cbn [fst snd].
  destruct (vz_ExecuteScript _ w) as [[stream|e|c] w1]; [|by intros [= _ <- _]..].
  cbn [fst snd]. destruct (runner.recv_loop TimestampProto r stream w1) as [o1 w2]. by intros [= _ <- _].
Qed.

Lemma on_runner_stop_ok sr p :
  runners_ok sr → is_Some (runners sr !! p) → sr_once sr = true →
  ∃ sr', on_runner p runner.stop sr = (Ret tt, sr') ∧ runners_ok sr' ∧ sr_once sr' = true ∧ runnerMap sr' = runnerMap sr ∧
    length (runners sr') = length (runners sr).
Proof.
  intros Hok [r Hr] Ho. destruct (stop_run r (once_done sr Hok p r Hr)) as (r' & Es & Hd & Hs & _).
  unfold on_runner. rewrite Hr, Es. eexists. split; [done|]. split_and!; [|done|done|apply length_insert].
  apply (with_runner_ok sr p r r'); [done..|]. congruence.
Qed.

Lemma stop_all_ok (l : list (uuid * nat)) sr w sr' w' :
  runners_ok sr → sr_once sr = true → Forall (λ idp, idp.2 < length (runners sr)) l →
  forM_ l (λ idp, zoom fst (λ sr s, (sr, s.2)) (on_runner idp.2 runner.stop)) (sr, w : W) = (Ret tt, (sr', w')) →
  runners_ok sr' ∧ sr_once sr' = true.
Proof.
  intros Hok Ho Hl. revert sr Hok Ho Hl. induction l as [|[id p] l IH]; intros sr Hok Ho Hl; cbn [forM_].
  { intros [= <- _]. done. }
  apply Forall_cons in Hl as [Hp Hl]. cbn [snd] in *.
  destruct (on_runner_stop_ok sr p Hok (lookup_lt_is_Some_2 _ _ Hp) Ho) as (sr1 & E1 & Hok1 & Ho1 & _ & Hlen).
  rewrite (bind_ret _ _ _ tt (sr1, w)) by (unfold zoom; cbn [fst snd]; by rewrite E1).
  apply IH; [done|done|]. eapply Forall_impl; [exact Hl|]. intros x. by rewrite Hlen.
Qed.

Lemma sources_stop_frame (l : list (Source W)) (sr : ScriptRunner) w o sr' w' :
  forM_ l (λ src, zoom snd (λ w s, (s.1, w)) (source_Stop src)) (sr, w) = (o, (sr', w')) → sr' = sr.
Proof.
  revert w. induction l as [|src l IH]; intros w; cbn [forM_]; [by intros [= _ <- _]|].
  unfold mbind, M_bind, zoom. cbn [fst snd]. destruct (source_Stop src w) as [[[]|e|c] w1]; [apply IH|by intros [= _ <- _]..].
Qed.

Lemma Stop_ok sr w sr' w' :
  (∀ m, ro m ≡ₚ map_to_list m) → runners_ok sr → Stop sources ro (sr, w) = (Ret tt, (sr', w')) → runners_ok sr' ∧ sr_once sr' = true.
Proof.
  intros Hro Hok. unfold Stop. rewrite get_bind. cbn [fst]. destruct (sr_once sr) eqn:Ho; [by intros [= <- _]|].
  rewrite modify_bind. cbn [fst snd]. set (sr1 := mkScriptRunner _ _ _ _).
  assert (runners_ok sr1) as Hok1 by (destruct Hok as [H1 H2 H3 H4]; by split).
  intros ([] & [sr2 w2] & E1 & E2)%bind_Ret_inv. apply sources_stop_frame in E1 as ->. rewrite get_bind in E2. cbn [fst] in E2.
  eapply stop_all_ok; [exact Hok1|done| |exact E2]. apply Forall_forall. intros [id p] Hin. rewrite Hro in Hin.
  apply elem_of_map_to_list in Hin. destruct (registered_id sr1 Hok1 id p Hin) as (r & Hr & _). cbn. by eapply lookup_lt_Some.
Qed.

Lemma processUpdate_ok u sr sr' :
  runners_ok sr → processUpdate yaml_config u sr = (Ret tt, sr') → runners_ok sr'.
Proof.
  intros Hok. unfold processUpdate, deref, mbind, M_bind. destruct u as [u|]; [|done].
  unfold mret, M_ret. cbv beta iota. destruct (Msg u) as [[[c|]|sid]|].
  - destruct (upsertScript_run yaml_config sr (UUIDFromProtoOrNil (cr_ID c)) c Hok) as (sr1 & E & Hok1 & _).
    intros E'. rewrite E in E'. congruence.
  - done.
  - destruct (stop_registered_run sr (UUIDFromProtoOrNil sid) Hok) as (sr1 & E & Hok1 & _). intros E'.
    unfold deleteScript in E'. rewrite E in E'. congruence.
  - congruence.
Qed.

Lemma set_runner_ok s p r r' :
  runners_ok (sy_runner s) → runners (sy_runner s) !! p = Some r → same_runner r r' → r_done r' = r_done r →
  runners_ok (sy_runner (set_runner s p r')).
Proof. intros Hok Hr Hs Hd. apply (with_runner_ok _ p r r'); [done|done|done| |]; congruence. Qed.

Lemma reachable_runners_ok s : (∀ m, ro m ≡ₚ map_to_list m) → reachable_system s → runners_ok (sy_runner s).
Proof.
  intros Hro. induction 1 as [w|s s' _ IH Hstep]; [apply New_ok|].
  destruct Hstep as [ | |sr ch k c todo w sr' E| | |sr u ch w sr' E| |sr ch ph w sr' w' E|s p r now r' Hr Hph E
    |s p r period tick Hr Hph|sr ch ph w p r period now r' w' Hr Hph E|s p r period tick Hr Hph Hd]; try exact IH; cbn in IH.
  - destruct (upsertScript_run yaml_config sr (FromStringOrNil k) c IH) as (sr1 & E1 & Hok1 & _). cbn. congruence.
  - by eapply processUpdate_ok.
  - by eapply Stop_ok.
  - apply start_same in E as [Hs Hd]. by eapply set_runner_ok.
  - eapply set_runner_ok; [done|done|by split|done].
  - apply runScript_runner in E as ->. eapply (set_runner_ok (mkSystem sr ch ph w')); [done|done|by split|done].
  - eapply set_runner_ok; [done|done|by split|done].
Qed.

(** C13: at every moment at most one runner of a script is not stopped, and it is the
    registered one: an update stops the old runner before the new one starts, whatever
    the other goroutines do. *)
Theorem one_live_runner s p q r r' :
  (∀ m, ro m ≡ₚ map_to_list m) → reachable_system s →
  runners (sy_runner s) !! p = Some r → runners (sy_runner s) !! q = Some r' →
  r_done r = false → r_done r' = false → r_scriptID r = r_scriptID r' →
  p = q ∧ runnerMap (sy_runner s) !! r_scriptID r = Some p.
Proof.
  intros Hro Hs Hp Hq Hd Hd' Hid. pose proof (reachable_runners_ok s Hro Hs) as Hok.
  pose proof (live_registered _ Hok p r Hp Hd) as H1. pose proof (live_registered _ Hok q r' Hq Hd') as H2.
  rewrite <-Hid in H2. split; [congruence|done].
Qed.
(** the loop of [SyncScripts] may take a waiting update although [Stop] has
    returned: the update starts a runner, which no later call of [Stop] stops. *)
Theorem update_after_stop s u c ch :
  (∀ m, ro m ≡ₚ map_to_list m) → reachable_system s →
  sr_once (sy_runner s) = true → sy_main s = Looping → sy_chan s = Some u :: ch → Msg u = Some (UpsertReq (Some c)) →
  ∃ s' p r, system_step s s' ∧ runners (sy_runner s') !! p = Some r ∧
    r_cronScript r = c ∧ r_done r = false ∧ r_phase r = Spawned ∧
    Stop sources ro (sy_runner s', sy_world s') = (Ret tt, (sy_runner s', sy_world s')).
Proof.
  intros Hro Hs Ho Hm Hch Hu. pose proof (reachable_runners_ok s Hro Hs) as Hok.
  destruct s as [sr ch0 ph w]. cbn in Ho, Hm, Hch, Hok. subst.
  destruct (upsertScript_run yaml_config sr (UUIDFromProtoOrNil (cr_ID c)) c Hok)
    as (sr' & E & _ & _ & Ho' & _ & _ & Hr).
  exists (mkSystem sr' ch Looping w), (length (runners sr)), (runner.newRunner yaml_config c (UUIDFromProtoOrNil (cr_ID c))).
  split_and!; [|exact Hr|done|done|done|].
  - apply StepUpdate. unfold processUpdate, deref, mbind, M_bind, mret, M_ret. cbv beta iota. by rewrite Hu.
  - unfold Stop. rewrite get_bind. cbn [fst sy_runner]. by rewrite Ho', Ho.
Qed.
End system.

(** ** The period of a runner *)

(** a frequency of up to 9223372036 seconds starts the loop with exactly that period;
    one second more overflows the multiplication by [time.Second], and the ticker
    panics. *)
Theorem frequency_bounds `{U : UUIDLib} (now : gotime) (r : runner) :
  let F := cr_FrequencyS (r_cronScript r) in
  (F ≤ 0 → runner.start now r = (Ret tt, runner.with_phase Returned r))%Z ∧
  (0 < F ≤ 9223372036 →
    runner.start now r = (Ret tt, runner.with_phase (Ticking (F * nanos) false) (runner.with_lastRun now r)))%Z ∧
  (9223372036 < F ≤ 18446744073 →
    runner.start now r = (Crash (PanicMsg "non-positive interval for NewTicker"), r))%Z.
Proof.
  intros F. unfold runner.start, nanos. rewrite get_bind. fold F. unfold to_int64. split_and!; intros HF.
  - by rewrite (proj2 (Z.leb_le F 0)) by lia.
  - rewrite (proj2 (Z.leb_gt F 0)) by lia. rewrite !Z.mod_small by lia.
    rewrite (proj2 (Z.leb_gt _ 0)) by lia. rewrite !modify_bind. unfold modify. do 4 f_equal. lia.
  - rewrite (proj2 (Z.leb_gt F 0)) by lia.
    assert ((F * 1000000000 + 2 ^ 63) mod 2 ^ 64 = F * 1000000000 + 2 ^ 63 - 2 ^ 64)%Z as ->.
    { symmetry. apply (Z.mod_unique _ _ 1); lia. }
    by rewrite (proj2 (Z.leb_le _ 0)) by lia.
Qed.

(** ** What a run asks for and what it records *)
Section runs.
Context `{U : UUIDLib} {W : Type} `{!VizierClient W} `{!CronScriptStoreClient W} `{!AnyProto compilerpb.CompilerErrorGroup}.
Context (TimestampProto : gotime → error + CronScript.Timestamp).
Implicit Types (r : runner) (w : W).

(** What one message of the stream says of the run, if it decides it. *)
Definition decisive (m : error + vizierpb.ExecuteScriptResponse) : option ExecutionOutcome :=
  match m with
  | inl err => Some (OutcomeError (Some (runner.stream_status err)))
  | inr resp =>
    match vizierpb.ResponseStatus resp with
    | Some st => Some (OutcomeError (match runner.VizierStatusToStatus st with inr st => Some st | inl _ => None end))
    | None =>
      match vizierpb.Result resp with
      | Some (vizierpb.Data data) => (λ stats, OutcomeStats (Some (runner.stats_of stats))) <$> vizierpb.ExecutionStats data
      | _ => None
      end
    end
  end.

Lemma recv_loop_first r stream w :
  runner.recv_loop TimestampProto r stream w =
    match head (omap decisive stream) with
    | Some o => logged (cs_RecordExecutionResult (runner.record_request TimestampProto r o)) w
    | None => (Ret tt, w)
    end.
Proof.
  induction stream as [|[err|resp] stream IH]; [done|done|]. cbn [runner.recv_loop omap list_omap decisive].
  destruct (vizierpb.ResponseStatus resp) as [st|]; [done|].
  destruct (vizierpb.Result resp) as [[data|meta]|]; [|exact IH..].
  destruct (vizierpb.ExecutionStats data) as [stats|]; [done|exact IH].
Qed.

Lemma runScript_stream period now r w stream w1 :
  vz_ExecuteScript (runner.script_request r period) w = (Ret stream, w1) →
  runner.runScript TimestampProto period now (r, w) =
    let '(o, w2) := match head (omap decisive stream) with
      | Some o => logged (cs_RecordExecutionResult (runner.record_request TimestampProto r o)) w1
      | None => (Ret tt, w1)
      end in (o, (runner.with_lastRun now r, w2)).
Proof.
  intros E. unfold runner.runScript. rewrite get_bind. cbn [fst]. rewrite modify_bind. cbn [fst snd].
  rewrite (bind_ret _ _ _ (inr stream) (runner.with_lastRun now r, w1)).
  2: { unfold try, runner.client, zoom. cbn [fst snd]. by rewrite E. }
  unfold runner.client, zoom. cbn [fst snd]. by rewrite recv_loop_first.
Qed.

(** a run whose query was accepted records exactly one result, that of the first
    message of its stream that is an error, a status or the statistics of the query,
    under the start of its window; a stream that ends without one records none. *)
Theorem run_records_first period now r w stream w1 :
  vz_ExecuteScript (runner.script_request r period) w = (Ret stream, w1) →
  (∀ req v c, (cs_RecordExecutionResult req v : outcome unit * W).1 ≠ Crash c) →
  runner.runScript TimestampProto period now (r, w) =
    (Ret tt, (runner.with_lastRun now r,
      match head (omap decisive stream) with
      | Some o => (cs_RecordExecutionResult (runner.record_request TimestampProto r o) w1).2
      | None => w1
      end)).
Proof.
  intros E Hc. rewrite (runScript_stream _ _ _ _ _ _ E). destruct (head _) as [o|]; [|done].
  specialize (Hc (runner.record_request TimestampProto r o) w1). unfold logged, mbind, M_bind, try.
  destruct (cs_RecordExecutionResult _ w1) as [[[]|e|c] w2]; [done|done|]. by destruct (Hc c).
Qed.

(** A client that keeps the requests it was sent, and whose calls return. *)
Class RequestLog (sent : W → list vizierpb.ExecuteScriptRequest) : Prop := {
  log_execute req w : match vz_ExecuteScript req w with
    | (Crash _, _) => False
    | (_, w') => sent w' = sent w ++ [req]
    end;
  log_record req w : match cs_RecordExecutionResult req w with
    | (Crash _, _) => False
    | (_, w') => sent w' = sent w
    end
}.

(** The runs of one runner, at the given times. *)
Definition run_all (period : Z) (nows : list gotime) : M (runner.state (W := W)) unit :=
  forM_ nows (runner.runScript TimestampProto period).

(** The window of a request. *)
Definition window (req : vizierpb.ExecuteScriptRequest) : option (Z * Z) :=
  c ← vizierpb.RequestConfigs req; p ← vizierpb.Plugin c; Some (vizierpb.StartTimeNs p, vizierpb.EndTimeNs p).

Lemma logged_record (sent : W → list vizierpb.ExecuteScriptRequest) `{!RequestLog sent} req w :
  ∃ w', logged (cs_RecordExecutionResult req) w = (Ret tt, w') ∧ sent w' = sent w.
Proof.
  pose proof (log_record req w) as H. unfold logged, mbind, M_bind, try.
  destruct (cs_RecordExecutionResult req w) as [[[]|e|c] w']; [by exists w'..|done].
Qed.

Lemma runScript_sent (sent : W → list vizierpb.ExecuteScriptRequest) `{!RequestLog sent} period now r w :
  ∃ w', runner.runScript TimestampProto period now (r, w) = (Ret tt, (runner.with_lastRun now r, w')) ∧
    sent w' = sent w ++ [runner.script_request r period].
Proof.
  pose proof (log_execute (runner.script_request r period) w) as H.
  unfold runner.runScript. rewrite get_bind. cbn [fst]. rewrite modify_bind. cbn [fst snd].
  unfold mbind, M_bind, try, runner.client, zoom. cbn [fst snd].
  destruct (vz_ExecuteScript (runner.script_request r period) w) as [[stream|e|c] w1]; [|by exists w1|done].
  cbn [fst snd]. rewrite recv_loop_first. destruct (head _) as [o|]; [|by exists w1].
  destruct (logged_record sent (runner.record_request TimestampProto r o) w1) as (w2 & -> & E2). exists w2. split; [done|]. congruence.
Qed.

(** Each window begins where the last one ended. *)
Fixpoint contiguous (ws : list (Z * Z)) : bool :=
  match ws with
  | a :: ((b :: _) as ws) => (a.2 =? b.1)%Z && contiguous ws
  | _ => true
  end.

(** Times that are one period apart. *)
Fixpoint on_schedule (period : Z) (ts : list Z) : bool :=
  match ts with
  | a :: ((b :: _) as ts) => (b - a =? period)%Z && on_schedule period ts
  | _ => true
  end.

(** The window of a run whose predecessor began at [t]. *)
Definition window_from (period t : Z) : Z * Z := (t - nanos, t - nanos + period)%Z.

Lemma contiguous_on_schedule period ts : contiguous (window_from period <$> ts) = on_schedule period ts.
Proof.
  induction ts as [|a [|b ts] IH]; [done|done|]. rewrite !fmap_cons in *. cbn [contiguous on_schedule] in *. rewrite IH. f_equal.
  unfold window_from. cbn. apply bool_ext. rewrite !Z.eqb_eq. lia.
Qed.

Lemma request_window r period t :
  (- 2 ^ 63 ≤ t_ns (r_lastRun r) - nanos < 2 ^ 63)%Z → (- 2 ^ 63 ≤ t_ns (r_lastRun r) - nanos + period < 2 ^ 63)%Z →
  t = t_ns (r_lastRun r) → window (runner.script_request r period) = Some (window_from period t).
Proof.
  intros H1 H2 ->. unfold window, window_from, runner.script_request. cbn.
  unfold runner.endTime, runner.startTime, UnixNano, to_int64, time_Add. cbn [t_ns]. f_equal. f_equal; unfold nanos in *; rewrite Z.mod_small; lia.
Qed.

(** the runs of a script ask for one window of time each, a period long, from a
    second before the previous run began.  So the windows cover time without a gap
    and without an overlap exactly when the runs begin one period apart; a run that
    is late leaves out what it is late by. *)
Theorem windows_tile (sent : W → list vizierpb.ExecuteScriptRequest) `{!RequestLog sent} period nows r w :
  Forall (λ t, - 2 ^ 63 ≤ t - nanos < 2 ^ 63 ∧ - 2 ^ 63 ≤ t - nanos + period < 2 ^ 63)%Z (t_ns <$> r_lastRun r :: nows) →
  ∃ s' reqs, run_all period nows (r, w) = (Ret tt, s') ∧ sent s'.2 = sent w ++ reqs ∧
    let ws := window_from period <$> take (length nows) (t_ns <$> r_lastRun r :: nows) in
    window <$> reqs = Some <$> ws ∧
    contiguous ws = on_schedule period (take (length nows) (t_ns <$> r_lastRun r :: nows)).
Proof.
  intros Hr. assert (∃ s' reqs, run_all period nows (r, w) = (Ret tt, s') ∧ sent s'.2 = sent w ++ reqs ∧
    window <$> reqs = Some <$> (window_from period <$> take (length nows) (t_ns <$> r_lastRun r :: nows))) as (s' & reqs & H1 & H2 & H3);
    [|exists s', reqs; split_and!; [done|done|]; cbv zeta; split; [done|apply contiguous_on_schedule]].
  revert r w Hr. induction nows as [|now nows IH]; intros r w Hr; [by exists (r, w), []; rewrite app_nil_r|].
  apply Forall_cons in Hr as [[Ha Hb] Hr]. destruct (runScript_sent sent period now r w) as (w1 & E1 & Hs1).
  destruct (IH (runner.with_lastRun now r) w1 Hr) as (s' & reqs & E2 & Hs2 & Hw).
  exists s', (runner.script_request r period :: reqs). split_and!.
  - unfold run_all in *. cbn [forM_]. run_with E1. exact E2.
  - rewrite Hs2, Hs1, <-app_assoc. done.
  - cbn [length]. rewrite (fmap_cons _ (r_lastRun r)), firstn_cons, !fmap_cons. f_equal; [by apply request_window|exact Hw].
Qed.
End runs.
