(* ===== verification/ScriptSync.v ===== *)
(** * The scripts of the cloud, the store and the runners

    The metadata service of [CronScript] implements the interface of the script
    runner.  The cloud source keeps its scripts and those of the runners in step with
    the updates of the cloud, in whatever order they arrive; how far that holds while
    the source starts. *)

From S2P Require Import Prelude GoLib Datastore Uuid Messages StoreLib MessageBus CronScript ScriptSource ScriptRunner RunnerSteps.
Import cvmsgspb.

(** ** The metadata service behind the client *)

#[export] Instance uuid_String_Inj `{U : UUIDLib} `{!UUIDSpec U} : Inj (=) (=) uuid_String.
Proof. intros u v. apply uuid_String_inj. Qed.

Section store.
Context {St : Type} `{!Datastore St} {view : St → gmap string string} {ok : St → Prop}.
Context `{!DatastoreSpec St view ok} `{U : UUIDLib} `{!UUIDSpec U}.
Context `{!Proto CronScript} `{!Proto CronScriptResult} `{!ProtoSpec CronScript} `{!ProtoSpec CronScriptResult}.
Context (ro : gset uuid → list uuid) (mo : gmap string CronScript → list (string * CronScript)).
Context (Hro : ∀ X, ro X ≡ₚ elements X) (Hmo : ∀ m, mo m ≡ₚ map_to_list m).

Definition store_client : CronScriptStoreClient St := {|
  cs_GetScripts := GetScripts;
  cs_SetScripts := SetScripts ro mo;
  cs_AddOrUpdateScript := AddOrUpdateScript;
  cs_DeleteScript := DeleteScript;
  cs_RecordExecutionResult := RecordExecutionResult
|}.

Lemma set_all_elem l id c : NoDup (script_id <$> l) → set_all l ∅ !! id = Some c ↔ c ∈ l ∧ script_id c = id.
Proof.
  intros Hnd. rewrite set_all_lookup by done. destruct (list_find (λ c, script_id c = id) l) as [[i c']|] eqn:E.
  - apply list_find_Some in E as (Hi & Hc' & _). split.
    + intros [= ->]. split; [by eapply list_elem_of_lookup_2|done].
    + intros [Hc Hid]. f_equal. apply list_elem_of_lookup in Hc as [j Hj].
      assert (i = j) as ->; [|congruence]. eapply (NoDup_lookup _ i j (script_id c')); [exact Hnd|by rewrite list_lookup_fmap, Hi|].
      rewrite list_lookup_fmap, Hj. cbn. congruence.
  - apply list_find_None in E. rewrite lookup_empty. split; [done|]. intros [Hc Hid].
    by destruct (proj1 (Forall_forall _ _) E c Hc).
Qed.

Lemma own_ids_NoDup (S : gmap uuid CronScript) l :
  map_Forall (λ id c, script_id c = id) S → l ≡ₚ (map_to_list S).*2 → NoDup (script_id <$> l).
Proof.
  intros Hown Hl. rewrite Hl. assert (script_id <$> (map_to_list S).*2 = (map_to_list S).*1) as ->; [|apply NoDup_fst_map_to_list].
  rewrite <-list_fmap_compose. apply list_fmap_ext. intros i [id c] Hi. cbn. apply Hown.
  apply elem_of_map_to_list. by eapply list_elem_of_lookup_2.
Qed.

Lemma set_all_own (S : gmap uuid CronScript) l :
  map_Forall (λ id c, script_id c = id) S → l ≡ₚ (map_to_list S).*2 → set_all l ∅ = S.
Proof.
  intros Hown Hl. apply map_eq. intros id. apply option_eq. intros c.
  rewrite set_all_elem by (by eapply own_ids_NoDup). rewrite Hl, list_elem_of_fmap. split.
  - intros [([id' c'] & -> & Hin%elem_of_map_to_list) <-]. cbn. by rewrite (Hown _ _ Hin).
  - intros Hc. split; [|by apply Hown]. exists (id, c). split; [done|]. by apply elem_of_map_to_list.
Qed.

Lemma script_map_run l (S : gmap uuid CronScript) (s : St) :
  script_map (Some <$> l) (kmap uuid_String S) s = (Ret (kmap uuid_String (set_all l S)), s).
Proof.
  revert S. induction l as [|c l IH]; intros S; [done|]. rewrite fmap_cons. cbn [script_map]. unfold deref.
  rewrite (bind_ret _ _ _ c s eq_refl). rewrite <-(kmap_insert uuid_String). apply IH.
Qed.

Lemma kmap_own_ids (m : gmap string CronScript) l :
  (∀ k c, m !! k = Some c → k = uuid_String (script_id c)) → l ≡ₚ map_to_list m →
  NoDup (script_id <$> l.*2) ∧ m = kmap uuid_String (set_all l.*2 ∅).
Proof.
  intros Hk Hl. assert (NoDup (script_id <$> l.*2)) as Hnd.
  { apply (NoDup_fmap_1 uuid_String). assert (uuid_String <$> (script_id <$> l.*2) = l.*1) as ->; [|rewrite Hl; apply NoDup_fst_map_to_list].
    rewrite <-!list_fmap_compose. apply list_fmap_ext. intros i [k c] Hi. cbn. symmetry. apply Hk.
    apply elem_of_map_to_list. rewrite <-Hl. by eapply list_elem_of_lookup_2. }
  split; [done|]. apply map_eq. intros k. apply option_eq. intros c. rewrite (lookup_kmap_Some uuid_String).
  setoid_rewrite set_all_elem; [|done]. split.
  - intros Hc. exists (script_id c). split; [by apply Hk|]. split; [|done]. rewrite Hl. apply list_elem_of_fmap.
    exists (k, c). split; [done|]. by apply elem_of_map_to_list.
  - intros (id & -> & Hc & <-). rewrite Hl in Hc. apply list_elem_of_fmap in Hc as ([k' c'] & -> & Hin%elem_of_map_to_list).
    cbn. by rewrite <-(Hk _ _ Hin).
Qed.

(** The service keeps the promises of the interface. *)
Lemma store_client_spec : CronScriptStoreSpec (CronScriptStoreClient0 := store_client) St ok (λ s S, scripts_rep (view s) S).
Proof.
  split; cbn [cs_GetScripts cs_SetScripts cs_AddOrUpdateScript cs_DeleteScript store_client].
  - by intros w S [_ H].
  - intros w S Hok HS. destruct (GetCronScripts_spec w S Hok HS) as (l & E & Hl). unfold wp, GetScripts. run_with E.
    pose proof (script_map_run l ∅ w) as Er. rewrite kmap_empty in Er. rewrite Er. split_and!; [done|done|].
    by rewrite (set_all_own S l (proj2 HS) Hl).
  - intros w S m Hok HS Hk. unfold SetScripts. destruct (kmap_own_ids m (mo m) Hk (Hmo m)) as [Hnd Em].
    eapply wp_mono; [by apply (SetCronScripts_run ro _ w S)|]. intros [] w' (Hok' & HS' & _). split; [done|]. by eexists.
  - intros w S c Hok HS. eapply wp_mono; [by apply UpsertCronScript_spec|]. intros [] w' (Hok' & HS' & _). done.
  - intros w S id Hok HS. eapply wp_mono; [by apply DeleteCronScript_spec|]. intros [] w' (Hok' & HS' & _). done.
Qed.
End store.

(** ** The updates that are in order *)

Section updates.
Context `{U : UUIDLib}.
Implicit Types (u v : CronScriptUpdate) (us : list CronScriptUpdate) (T : gmap uuid Z) (S : gmap uuid CronScript) (id : uuid).

(** The script an update is about, and its effect on a set of scripts. *)
Definition update_id u : option uuid :=
  match Msg u with
  | Some (UpsertReq (Some c)) => Some (script_id c)
  | Some (DeleteReq sid) => Some (UUIDFromProtoOrNil sid)
  | _ => None
  end.

Definition apply_update S u : gmap uuid CronScript :=
  match Msg u with
  | Some (UpsertReq (Some c)) => <[script_id c := c]> S
  | Some (DeleteReq sid) => delete (UUIDFromProtoOrNil sid) S
  | _ => S
  end.

Definition apply_updates S us : gmap uuid CronScript := foldl apply_update S us.

(** An update the code can handle: an upsert has a script. *)
Definition has_script u : Prop := Msg u ≠ Some (UpsertReq None).

(** The updates that are later than all earlier ones of the same script. *)
Definition last_time T id : Z := default 0%Z (T !! id).

Fixpoint accepted T us : list CronScriptUpdate :=
  match us with
  | [] => []
  | u :: us =>
    match update_id u with
    | Some id => if (last_time T id <? Timestamp u)%Z then u :: accepted (<[id := Timestamp u]> T) us else accepted T us
    | None => accepted T us
    end
  end.

Fixpoint times T us : gmap uuid Z :=
  match us with
  | [] => T
  | u :: us =>
    match update_id u with
    | Some id => if (last_time T id <? Timestamp u)%Z then times (<[id := Timestamp u]> T) us else times T us
    | None => times T us
    end
  end.

Lemma accepted_app T us us' : accepted T (us ++ us') = accepted T us ++ accepted (times T us) us'.
Proof.
  revert T. induction us as [|u us IH]; intros T; [done|]. cbn [app accepted times].
  destruct (update_id u) as [id|]; [|apply IH]. destruct (_ <? _)%Z; [|apply IH]. cbn [app]. by rewrite IH.
Qed.

Lemma apply_update_lookup S u id :
  apply_update S u !! id = if decide (update_id u = Some id) then apply_update ∅ u !! id else S !! id.
Proof.
  unfold apply_update, update_id. destruct (Msg u) as [[[c|]|sid]|]; try (by rewrite decide_False).
  - case_decide as E; [injection E as <-; by rewrite !lookup_insert_eq|]. rewrite lookup_insert_ne; [done|]. intros ?. by apply E; f_equal.
  - case_decide as E; [injection E as <-; by rewrite !lookup_delete_eq|]. rewrite lookup_delete_ne; [done|]. intros ?. by apply E; f_equal.
Qed.

(** A script is what the last update of it says. *)
Definition about id us : list CronScriptUpdate := filter (λ u, update_id u = Some id) us.

Lemma apply_updates_lookup S us id :
  apply_updates S us !! id = match last (about id us) with Some u => apply_update ∅ u !! id | None => S !! id end.
Proof.
  unfold apply_updates, about. induction us as [|u us IH] using rev_ind; [done|].
  rewrite foldl_snoc, apply_update_lookup, filter_app, filter_cons. case_decide as E.
  - by rewrite filter_nil, last_snoc.
  - by rewrite filter_nil, app_nil_r, IH.
Qed.

(** Applying updates again changes nothing. *)
Lemma apply_updates_twice S us us' :
  apply_updates (apply_updates S us) (us ++ us') = apply_updates (apply_updates S us) us'.
Proof.
  apply map_eq. intros id. rewrite !apply_updates_lookup. unfold about. rewrite filter_app, last_app.
  by destruct (last (filter (λ u, update_id u = Some id) us')), (last (filter (λ u, update_id u = Some id) us)).
Qed.

Lemma last_time_insert T id id' t : last_time (<[id := t]> T) id' = if decide (id = id') then t else last_time T id'.
Proof. unfold last_time. case_decide as E; [subst; by rewrite lookup_insert_eq|by rewrite lookup_insert_ne]. Qed.

Lemma accepted_none T us id v :
  about id (accepted T us) = [] → v ∈ us → update_id v = Some id → (Timestamp v ≤ last_time T id)%Z.
Proof.
  intros Hnil Hv Hid. revert T Hnil Hv. induction us as [|u us IH]; intros T Hnil Hv; [by apply not_elem_of_nil in Hv|].
  cbn [accepted] in Hnil. apply elem_of_cons in Hv as [<-|Hv].
  - rewrite Hid in Hnil. destruct (Z.ltb_spec (last_time T id) (Timestamp v)) as [_|]; [|done].
    unfold about in Hnil. by rewrite filter_cons, decide_True in Hnil.
  - destruct (update_id u) as [id'|] eqn:Eu; [|by apply IH]. destruct (Z.ltb_spec (last_time T id') (Timestamp u)) as [_|]; [|by apply IH].
    unfold about in Hnil. rewrite filter_cons in Hnil. case_decide as E; [done|].
    specialize (IH _ Hnil Hv). rewrite last_time_insert, decide_False in IH by congruence. done.
Qed.

(** The last accepted update of a script is its latest update. *)
Lemma accepted_latest T us id u :
  last (about id (accepted T us)) = Some u →
  u ∈ us ∧ update_id u = Some id ∧ (last_time T id < Timestamp u)%Z ∧
  ∀ v, v ∈ us → update_id v = Some id → (Timestamp v ≤ Timestamp u)%Z.
Proof.
  revert T. induction us as [|v us IH]; intros T; [done|]. cbn [accepted].
  destruct (update_id v) as [id'|] eqn:Ev.
  2: { intros (H1 & H2 & H3 & H4)%IH. split_and!; [by right|done|done|]. intros x [->|Hx]%elem_of_cons; [congruence|auto]. }
  destruct (Z.ltb_spec (last_time T id') (Timestamp v)) as [Hlt|Hge].
  2: { intros (H1 & H2 & H3 & H4)%IH. split_and!; [by right|done|done|].
    intros x [->|Hx]%elem_of_cons Hid; [|auto]. assert (id' = id) as -> by congruence. lia. }
  unfold about. rewrite filter_cons. fold (about id (accepted (<[id':=Timestamp v]> T) us)). case_decide as E.
  - assert (id' = id) as -> by congruence. rewrite last_cons.
    destruct (last (about id (accepted (<[id:=Timestamp v]> T) us))) as [x|] eqn:El; intros [= ->].
    + apply IH in El as (H1 & H2 & H3 & H4). rewrite last_time_insert, decide_True in H3 by done.
      split_and!; [by right|done|lia|]. intros x [->|Hx]%elem_of_cons Hid; [lia|auto].
    + split_and!; [by left|done|done|]. intros x [->|Hx]%elem_of_cons Hid; [lia|]. apply last_None in El.
      pose proof (accepted_none _ _ _ _ El Hx Hid) as Hle. by rewrite last_time_insert, decide_True in Hle.
  - intros (H1 & H2 & H3 & H4)%IH. rewrite last_time_insert, decide_False in H3 by congruence.
    split_and!; [by right|done|done|]. intros x [->|Hx]%elem_of_cons; [congruence|auto].
Qed.

Lemma accepted_Forall (P : CronScriptUpdate → Prop) T us : Forall P us → Forall P (accepted T us).
Proof.
  intros Hus. revert T. induction Hus as [|u us Hu _ IH]; intros T; [done|]. cbn [accepted].
  destruct (update_id u) as [id|]; [|done]. destruct (_ <? _)%Z; [|done]. by constructor.
Qed.

(** Two updates of a script with the same timestamp are the same update. *)
Definition distinct_times us : Prop :=
  ∀ u v, u ∈ us → v ∈ us → update_id u = update_id v → is_Some (update_id u) → Timestamp u = Timestamp v → u = v.

(** So the order of the updates does not matter. *)
Lemma accepted_perm S T us us' :
  us ≡ₚ us' → distinct_times us → apply_updates S (accepted T us) = apply_updates S (accepted T us').
Proof.
  intros Hp Hd. apply map_eq. intros id. rewrite !apply_updates_lookup.
  destruct (last (about id (accepted T us))) as [u|] eqn:E, (last (about id (accepted T us'))) as [u'|] eqn:E'.
  - apply accepted_latest in E as (H1 & H2 & H3 & H4). apply accepted_latest in E' as (H1' & H2' & H3' & H4').
    rewrite <-Hp in H1'. assert (u' ∈ us') as H5 by (by rewrite <-Hp). assert (u ∈ us') as H6 by (by rewrite <-Hp).
    replace u' with u; [done|]. apply Hd; [done|done|congruence|by rewrite H2|].
    specialize (H4 u' H1' H2'). specialize (H4' u H6 H2). lia.
  - apply accepted_latest in E as (H1 & H2 & H3 & _). apply last_None in E'. rewrite Hp in H1.
    pose proof (accepted_none _ _ _ _ E' H1 H2). lia.
  - apply accepted_latest in E' as (H1 & H2 & H3 & _). apply last_None in E. rewrite <-Hp in H1.
    pose proof (accepted_none _ _ _ _ E H1 H2). lia.
  - done.
Qed.
End updates.

(** Inserting the entries of a map one by one, in any order, gives the map. *)
Lemma foldl_insert_all `{Countable K} {V} (m : gmap K V) (l : list (K * V)) :
  l ≡ₚ map_to_list m → foldl (λ m kv, <[kv.1 := kv.2]> m) ∅ l = m.
Proof.
  intros Hl. transitivity (list_to_map (reverse l) : gmap K V).
  - clear. induction l as [|[k v] l IH] using rev_ind; [done|]. by rewrite foldl_app, IH, reverse_snoc.
  - rewrite <-(list_to_map_to_list m). apply list_to_map_proper; rewrite reverse_Permutation; [|done].
    rewrite Hl. apply NoDup_fst_map_to_list.
Qed.

(** ** The runners follow the channel *)

Section drain.
Context `{U : UUIDLib} (yaml_config : string → option error * scripts.Config).

(** The loop of [processUpdates] on the updates of the channel. *)
Definition drain (ch : update_chan) : M ScriptRunner unit := forM_ ch (processUpdate yaml_config).

Lemma processUpdate_run u sr :
  has_script u → runners_ok sr →
  ∃ sr', processUpdate yaml_config (Some u) sr = (Ret tt, sr') ∧ runners_ok sr' ∧ cronScripts sr' = apply_update (cronScripts sr) u.
Proof.
  intros Hu Hok. unfold processUpdate, deref, mbind, M_bind, mret, M_ret, apply_update. cbv beta iota.
  destruct (Msg u) as [[[c|]|sid]|] eqn:E.
  - destruct (upsertScript_run yaml_config sr (UUIDFromProtoOrNil (cr_ID c)) c Hok) as (sr' & E' & Hok' & HS & _). by exists sr'.
  - done.
  - destruct (stop_registered_run sr (UUIDFromProtoOrNil sid) Hok) as (sr' & E' & Hok' & HS & _). by exists sr'.
  - by exists sr.
Qed.

Lemma drain_run us sr :
  Forall has_script us → runners_ok sr →
  ∃ sr', drain (Some <$> us) sr = (Ret tt, sr') ∧ runners_ok sr' ∧ cronScripts sr' = apply_updates (cronScripts sr) us.
Proof.
  intros Hus. revert sr. induction Hus as [|u us Hu _ IH]; intros sr Hok; [by exists sr|].
  destruct (processUpdate_run u sr Hu Hok) as (sr1 & E1 & Hok1 & HS1). destruct (IH sr1 Hok1) as (sr2 & E2 & Hok2 & HS2).
  exists sr2. split_and!; [|done|by rewrite HS2, HS1]. unfold drain in *. rewrite fmap_cons. cbn [forM_]. by run_with E1.
Qed.

Lemma upsert_initial_run `{!UUIDSpec U} (l : list (string * CronScript)) sr :
  runners_ok sr →
  ∃ sr', upsert_initial yaml_config l sr = (Ret tt, sr') ∧ runners_ok sr' ∧
    cronScripts sr' = foldl (λ S kc, <[FromStringOrNil kc.1 := kc.2]> S) (cronScripts sr) l.
Proof.
  revert sr. induction l as [|[k c] l IH]; intros sr Hok; [by exists sr|].
  destruct (upsertScript_run yaml_config sr (FromStringOrNil k) c Hok) as (sr1 & E1 & Hok1 & HS1 & _).
  destruct (IH sr1 Hok1) as (sr2 & E2 & Hok2 & HS2). exists sr2. split_and!; [|done|by rewrite HS2, HS1].
  unfold upsert_initial in *. cbn [forM_ fst snd]. by run_with E1.
Qed.

(** The runners that are started for a set of scripts run exactly these. *)
Lemma upsert_initial_scripts `{!UUIDSpec U} (S : gmap uuid CronScript) (l : list (string * CronScript)) :
  l ≡ₚ map_to_list (kmap uuid_String S : gmap string CronScript) →
  ∃ sr, upsert_initial yaml_config l New = (Ret tt, sr) ∧ runners_ok sr ∧ cronScripts sr = S.
Proof.
  intros Hl. destruct (upsert_initial_run l New New_ok) as (sr & E & Hok & HS). exists sr. split_and!; [done|done|]. rewrite HS.
  assert (∃ l', l = prod_map uuid_String id <$> l' ∧ l' ≡ₚ map_to_list S) as (l' & -> & Hl').
  { assert (l ≡ₚ prod_map uuid_String id <$> map_to_list S) as Hl'.
    { rewrite Hl. unfold kmap. rewrite map_to_list_to_map; [done|]. rewrite <-list_fmap_compose.
      change (NoDup (uuid_String ∘ fst <$> map_to_list S)). rewrite list_fmap_compose. apply NoDup_fmap_2; [apply _|]. apply NoDup_fst_map_to_list. }
    apply Permutation_map_inv in Hl' as (l' & -> & Hl'). by exists l'. }
  rewrite <-(foldl_insert_all S l' Hl'). clear -UUIDSpec0. change (cronScripts New) with (∅ : gmap uuid CronScript).
  generalize (∅ : gmap uuid CronScript). induction l' as [|[u c] l' IH]; intros m; [done|]. cbn [fmap list_fmap foldl prod_map fst snd].
  unfold FromStringOrNil at 2. rewrite uuid_FromString_String. apply IH.
Qed.
End drain.

(** ** The cloud source *)

(** The calls on the connection return, with an error or without. *)
Class NatsClientSafe `{N : NatsConn} `{!NatsClient} : Prop := {
  safe_Subscribe topic c x : (nc_Subscribe topic c).1 ≠ Crash x;
  safe_Unsubscribe topic c x : (nc_Unsubscribe topic c).1 ≠ Crash x;
  safe_Wait topic c x : (nc_Wait topic c).1 ≠ Crash x
}.

Section cloud.
Context `{U : UUIDLib} `{!UUIDSpec U} `{N : NatsConn} `{!NatsClient} `{!NatsClientSafe} {W : Type} `{!CronScriptStoreClient W}.
Context {up : W → Prop} {holds : W → gmap uuid CronScript → Prop} `{!CronScriptStoreSpec W up holds}.
Context `{!Proto C2VMessage} `{!Proto V2CMessage} `{!AnyProto CronScriptUpdate}.
Context `{!AnyProto GetCronScriptsChecksumRequest} `{!AnyProto GetCronScriptsChecksumResponse}.
Context `{!AnyProto GetCronScriptsRequest} `{!AnyProto GetCronScriptsResponse}.
Context `{!AnyProto RegisterOrUpdateCronScriptResponse} `{!AnyProto DeleteCronScriptResponse}.
Implicit Types (s : cloud_state W) (u : CronScriptUpdate) (S : gmap uuid CronScript) (T : gmap uuid Z).

(** The state of the source, with the scripts of the service. *)
Record cloud_rep s S T (stop : bool) (ch : update_chan) : Prop := {
  rep_up : up (md s);
  rep_holds : holds (md s) S;
  rep_source : source s = mkCloudSource stop T;
  rep_chan : updatesCh s = ch
}.

(** A call that touches the connection only, and returns. *)
Definition nc_only {A} (m : M (cloud_state W) A) : Prop :=
  ∀ s, ∃ o c, m s = (o, mkCloud (source s) (md s) c (updatesCh s)) ∧ ∀ x, o ≠ Crash x.

Lemma nc_only_ret {A} (a : A) : nc_only (mret a).
Proof. intros [src w c ch]. by exists (Ret a), c. Qed.
Lemma nc_only_fail {A} e : nc_only (fail e : M (cloud_state W) A).
Proof. intros [src w c ch]. by exists (Err e), c. Qed.
Lemma nc_only_bind {A B} (m : M (cloud_state W) A) (k : A → M (cloud_state W) B) :
  nc_only m → (∀ a, nc_only (k a)) → nc_only (m ≫= k).
Proof.
  intros Hm Hk s. destruct (Hm s) as (o & c & E & Ho). unfold mbind, M_bind. rewrite E. destruct o as [a|e|x].
  - destruct (Hk a (mkCloud (source s) (md s) c (updatesCh s))) as (o' & c' & E' & Ho'). exists o', c'. done.
  - by exists (Err e), c.
  - by destruct (Ho x).
Qed.
Lemma nc_only_try {A} (m : M (cloud_state W) A) : nc_only m → nc_only (try m).
Proof.
  intros Hm s. destruct (Hm s) as (o & c & E & Ho). unfold try. rewrite E.
  destruct o as [a|e|x]; [by exists (Ret (inr a)), c|by exists (Ret (inl e)), c|by destruct (Ho x)].
Qed.
Lemma nc_only_lift {A} (r : error + A) : nc_only (lift_sum r).
Proof. destruct r; [apply nc_only_fail|apply nc_only_ret]. Qed.
Lemma nc_only_do {A} (m : M nconn A) : (∀ c x, (m c).1 ≠ Crash x) → nc_only (nc_do m).
Proof.
  intros Hm s. unfold nc_do, zoom. specialize (Hm (nc s)). destruct (m (nc s)) as [o c]. exists o, c. split; [done|].
  intros x ->. by apply (Hm x).
Qed.
Lemma nc_only_Publish topic data : nc_only (Publish topic data).
Proof. apply nc_only_do. intros c x. by destruct (nc_Publish topic data c) as [[e|] c']. Qed.
Lemma nc_only_logged (m : M (cloud_state W) unit) : nc_only m → nc_only (logged m).
Proof. intros Hm. apply nc_only_bind; [by apply nc_only_try|intros _; apply nc_only_ret]. Qed.
Create HintDb nc_only.
#[local] Hint Resolve nc_only_ret nc_only_fail nc_only_bind nc_only_try nc_only_lift nc_only_Publish nc_only_logged : nc_only.

Lemma nc_only_request {Req Res} `{!AnyProto Req} `{!AnyProto Res} (req : Req) t t' :
  nc_only (natsReplyAndResponse (Res := Res) req t t').
Proof.
  unfold natsReplyAndResponse. apply nc_only_bind; [apply nc_only_do, safe_Subscribe|intros _].
  apply nc_only_bind.
  - apply nc_only_try, nc_only_bind; [auto with nc_only|intros d]. apply nc_only_bind; [auto with nc_only|intros _].
    apply nc_only_bind; [apply nc_only_do, safe_Wait|]. intros []; auto with nc_only.
  - intros r. apply nc_only_bind; [apply nc_only_logged, nc_only_do, safe_Unsubscribe|auto with nc_only].
Qed.

(** What such a call keeps. *)
Lemma nc_only_rep {A} (m : M (cloud_state W) A) s S T stop ch :
  nc_only m → cloud_rep s S T stop ch → wp (try m) (λ _ s', cloud_rep s' S T stop ch) s.
Proof.
  intros Hm [H1 H2 H3 H4]. destruct (Hm s) as (o & c & E & Ho). unfold wp, try. rewrite E.
  destruct o as [a|e|x]; [by split..|by destruct (Ho x)].
Qed.

Lemma respond_rep {X} `{!AnyProto X} (resp : X) rid s S T stop ch :
  cloud_rep s S T stop ch → wp (respond resp rid) (λ _ s', cloud_rep s' S T stop ch) s.
Proof.
  intros Hs. unfold respond. destruct (marshalV2C resp) as [e|d]; [done|]. unfold logged. apply wp_bind.
  eapply wp_mono; [apply nc_only_rep; [apply nc_only_Publish|exact Hs]|]. by intros.
Qed.

(** ** One update *)

Lemma md_do_rep (m : M W unit) s S S' T stop ch :
  cloud_rep s S T stop ch → wp m (λ _ w, up w ∧ holds w S') (md s) →
  wp (logged (md_do m)) (λ _ s', cloud_rep s' S' T stop ch) s.
Proof.
  intros [H1 H2 H3 H4] Hm. apply wp_logged, wp_zoom. eapply wp_mono; [exact Hm|]. intros [] w [? ?]. by split.
Qed.

Lemma executeInOrder_run id t exec s S S' T stop ch ch' :
  cloud_rep s S T stop ch →
  (∀ s, cloud_rep s S T stop ch → wp exec (λ _ s', cloud_rep s' S' T stop ch') s) →
  wp (executeInOrder id t exec) (λ _ s',
    if (last_time T id <? t)%Z then cloud_rep s' S' (<[id := t]> T) stop ch' else cloud_rep s' S T stop ch) s.
Proof.
  intros Hs Hexec. unfold executeInOrder. apply wp_bind, wp_get_state. rewrite (rep_source _ _ _ _ _ Hs).
  cbn [scriptLastUpdateTime]. fold (last_time T id). destruct (_ <? _)%Z; [|by apply wp_ret]. apply wp_bind.
  eapply wp_mono; [by apply Hexec|]. intros [] s' [H1 H2 H3 H4]. apply wp_modify. split; [done|done|cbn|done].
  by rewrite H3.
Qed.

Lemma handle_update_run u s S T stop ch :
  has_script u → cloud_rep s S T stop ch →
  wp (handle_update u) (λ _ s',
    cloud_rep s' (apply_updates S (accepted T [u])) (times T [u]) stop (ch ++ (Some <$> accepted T [u]))) s.
Proof.
  intros Hu Hs. unfold handle_update, accepted, times, update_id. assert (∀ u' s', cloud_rep s' S T stop ch →
    wp (send_update (Some u')) (λ _ s', cloud_rep s' S T stop (ch ++ [Some u'])) s') as Hsend.
  { intros u' s' [H1 H2 H3 H4]. apply wp_modify. split; [done..|cbn]. by rewrite H4. }
  destruct (Msg u) as [[[c|]|sid]|] eqn:E; [|by destruct Hu| |apply wp_ret; by rewrite app_nil_r].
  - apply wp_bind, wp_deref. eapply wp_mono.
    + apply (executeInOrder_run _ _ _ s S (<[script_id c := c]> S) T stop ch (ch ++ [Some u]) Hs). intros s' Hs'.
      apply wp_bind. eapply wp_mono; [by apply Hsend|]. intros [] s1 Hs1. apply wp_bind.
      eapply wp_mono; [eapply md_do_rep; [exact Hs1|by apply cs_AddOrUpdateScript_spec; apply Hs1]|].
      intros [] s2 Hs2. by apply respond_rep.
    + cbn beta. intros [] s'. change (script_id c) with (UUIDFromProtoOrNil (cr_ID c)).
      destruct (_ <? _)%Z; [|by rewrite app_nil_r]. cbn. unfold apply_update. by rewrite E.
  - eapply wp_mono.
    + apply (executeInOrder_run _ _ _ s S (delete (UUIDFromProtoOrNil sid) S) T stop ch (ch ++ [Some u]) Hs). intros s' Hs'.
      apply wp_bind. eapply wp_mono; [by apply Hsend|]. intros [] s1 Hs1. apply wp_bind.
      eapply wp_mono; [eapply md_do_rep; [exact Hs1|by apply cs_DeleteScript_spec; apply Hs1]|].
      intros [] s2 Hs2. by apply respond_rep.
    + cbn beta. intros [] s'. destruct (_ <? _)%Z; [|by rewrite app_nil_r]. cbn. unfold apply_update. by rewrite E.
Qed.

(** ** Many updates *)

(** The updates that the messages hold. *)
Definition decoded (msgs : list string) : list CronScriptUpdate :=
  omap (λ d, match unmarshalC2V (T := CronScriptUpdate) d with inr u => Some u | inl _ => None end) msgs.

Lemma times_app T us us' : times T (us ++ us') = times (times T us) us'.
Proof.
  revert T. induction us as [|u us IH]; intros T; [done|]. cbn [app times].
  destruct (update_id u) as [id|]; [|apply IH]. by destruct (_ <? _)%Z.
Qed.

Lemma deliver_run msgs s S T stop ch :
  Forall has_script (decoded msgs) → cloud_rep s S T stop ch →
  wp (deliver msgs) (λ _ s',
    cloud_rep s' (apply_updates S (accepted T (decoded msgs))) (times T (decoded msgs)) stop
      (ch ++ (Some <$> accepted T (decoded msgs)))) s.
Proof.
  revert s S T ch. induction msgs as [|d msgs IH]; intros s S T ch Hm Hs.
  { apply wp_ret. by rewrite app_nil_r. }
  cbn [deliver forM_]. apply wp_bind. unfold natsUpdater at 1. unfold decoded in *. cbn [omap list_omap] in *.
  destruct (unmarshalC2V d) as [e|u]; [apply wp_ret; by apply IH|].
  apply Forall_cons in Hm as [Hu Hm]. eapply wp_mono; [by apply handle_update_run|]. intros [] s1 Hs1.
  eapply wp_mono; [by apply IH|]. intros [] s2 Hs2. set (us := omap _ msgs) in *.
  rewrite <-app_assoc, <-fmap_app, <-accepted_app, <-times_app in Hs2. unfold apply_updates in Hs2. rewrite <-foldl_app, <-accepted_app in Hs2. exact Hs2.
Qed.
(** C11: the order in which the updates of the cloud arrive does not matter: whenever two
    updates of a script differ in their timestamps, every order leaves the same scripts
    in the metadata service, and the runners, once they have taken the updates off the
    channel, run exactly these. *)
Theorem delivery_order_irrelevant yaml_config msgs msgs' s S T stop sr :
  msgs ≡ₚ msgs' → Forall has_script (decoded msgs) → distinct_times (decoded msgs) →
  cloud_rep s S T stop [] → runners_ok sr → cronScripts sr = S →
  ∃ s1 s2 sr1 sr2 S', deliver msgs s = (Ret tt, s1) ∧ deliver msgs' s = (Ret tt, s2) ∧
    drain yaml_config (updatesCh s1) sr = (Ret tt, sr1) ∧ drain yaml_config (updatesCh s2) sr = (Ret tt, sr2) ∧
    holds (md s1) S' ∧ holds (md s2) S' ∧ cronScripts sr1 = S' ∧ cronScripts sr2 = S'.
Proof.
  intros Hp Hu Hd Hs Hok HS. assert (decoded msgs ≡ₚ decoded msgs') as Hp' by (unfold decoded; by rewrite Hp).
  assert (Forall has_script (decoded msgs')) as Hu' by (by rewrite <-Hp').
  destruct (proj1 (wp_run _ _ _) (deliver_run msgs s S T stop [] Hu Hs)) as ([] & s1 & E1 & [_ H1 _ C1]).
  destruct (proj1 (wp_run _ _ _) (deliver_run msgs' s S T stop [] Hu' Hs)) as ([] & s2 & E2 & [_ H2 _ C2]).
  rewrite app_nil_l in C1, C2. destruct (drain_run yaml_config (accepted T (decoded msgs)) sr) as (sr1 & D1 & _ & S1); [|done|].
  { by apply accepted_Forall. }
  destruct (drain_run yaml_config (accepted T (decoded msgs')) sr) as (sr2 & D2 & _ & S2); [|done|].
  { by apply accepted_Forall. }
  exists s1, s2, sr1, sr2, (apply_updates S (accepted T (decoded msgs))). rewrite C1, C2, S1, S2, HS.
  rewrite (accepted_perm S T _ _ Hp' Hd) in *. done.
Qed.

(** ** Starting *)

Context (sha256 : string → string) (json_Marshal : CronScript → error + string).
Context (mo : gmap string CronScript → list (string * CronScript)) (Hmo : ∀ m, mo m ≡ₚ map_to_list m).
Context (topic1 topic2 : uuid).
Abbreviation compare := (compareScriptState sha256 json_Marshal mo topic1).
Abbreviation fetch := (fetchInitialScripts sha256 json_Marshal mo topic1 topic2).

(** The keys of the scripts the cloud sends are their identifiers. *)
Definition keyed_by_id : Prop :=
  ∀ s m s', getCloudScripts topic2 s = (Ret m, s') → ∀ k c, m !! k = Some c → k = uuid_String (script_id c).

Lemma nc_only_compare m : nc_only (compare m).
Proof. apply nc_only_bind; [apply nc_only_lift|intros x]. apply nc_only_bind; [apply nc_only_request|intros y; apply nc_only_ret]. Qed.

Lemma nc_only_getCloudScripts : nc_only (getCloudScripts topic2).
Proof. apply nc_only_bind; [apply nc_only_request|intros y; apply nc_only_ret]. Qed.

(** [fetchInitialScripts] up to the comparison of the checksums, and [Start] up to
    there: the stored scripts, read after the first updates, have the checksum that the
    cloud answers with. *)
Definition asked (arrivals : nat → list string) : M (cloud_state W) bool :=
  m ← md_do cs_GetScripts;
  _ ← deliver (arrivals 1);
  compare m.
Definition up_to_date (arrivals : nat → list string) (s : cloud_state W) : Prop :=
  ((_ ← nc_do (nc_Subscribe CronScriptUpdatesChannel);
    _ ← deliver (arrivals 0);
    asked arrivals) s).1 = Ret true.

(** Why scripts were kept (the checksums agree, or the cloud did not answer) or
    saved. *)
Definition kept (compared : Prop) : Prop := compared ∨ ∃ s0, ∀ m, (getCloudScripts topic2 s0).1 ≠ Ret m.
Definition saved (compared : Prop) (init : gmap string CronScript) : Prop :=
  (¬ compared) ∧ ∃ s0, (getCloudScripts topic2 s0).1 = Ret init.

(** The scripts [fetchInitialScripts] returns are those of the service, to which only
    the updates since were applied, or those of the cloud, which it saved. *)
Lemma fetch_run arrivals s S T stop ch :
  keyed_by_id → (∀ n, Forall has_script (decoded (arrivals n))) → cloud_rep s S T stop ch →
  wp (fetch arrivals) (λ init s',
    (let us := decoded (arrivals 1) ++ decoded (arrivals 2) in
     kept ((asked arrivals s).1 = Ret true) ∧ init = kmap uuid_String S ∧
     cloud_rep s' (apply_updates S (accepted T us)) (times T us) stop (ch ++ (Some <$> accepted T us))) ∨
    (let us := decoded (arrivals 1) ++ decoded (arrivals 2) ++ decoded (arrivals 3) in
     saved ((asked arrivals s).1 = Ret true) init ∧
     ∃ C, init = kmap uuid_String C ∧ cloud_rep s' C (times T us) stop (ch ++ (Some <$> accepted T us)))) s.
Proof.
  intros Hk Hu Hs. unfold fetchInitialScripts. apply wp_bind, wp_zoom.
  eapply wp_mono; [apply wp_with_run, cs_GetScripts_spec; apply Hs|]. intros m w (Em & Hup & Hh & ->). cbn beta.
  assert (cloud_rep (mkCloud (source s) w (nc s) (updatesCh s)) S T stop ch) as Hs0 by (destruct Hs; by split).
  set (s0 := mkCloud _ _ _ _) in *. apply wp_bind. eapply wp_mono; [by apply wp_with_run, deliver_run|].
  intros [] s1 [Ed Hs1]. cbn beta.
  assert ((asked arrivals s).1 = (compare (kmap uuid_String S) s1).1) as Hasked.
  { unfold asked, md_do. rewrite (bind_ret _ _ _ _ _ (zoom_ret _ _ _ _ _ _ Em)). fold s0. by rewrite (bind_ret _ _ _ _ _ Ed). }
  apply wp_bind. unfold try at 1. pose proof (nc_only_rep _ s1 _ _ _ _ (nc_only_compare (kmap uuid_String S)) Hs1) as Hcmp.
  unfold wp, try in Hcmp. unfold wp at 1. destruct (compare (kmap uuid_String S) s1) as [oc s2] eqn:Ec.
  assert (∃ r, (match oc with Ret a => (Ret (inr a), s2) | Err e => (Ret (inl e), s2) | Crash c => (Crash c, s2) end) =
    (Ret r, s2) ∧ cloud_rep s2 (apply_updates S (accepted T (decoded (arrivals 1)))) (times T (decoded (arrivals 1))) stop
      (ch ++ (Some <$> accepted T (decoded (arrivals 1)))) ∧ (r = inr true ↔ oc = Ret true)) as (r & -> & Hs2 & Hr).
  { destruct oc as [a|e|x]; [exists (inr a)|exists (inl e)|done]; (split_and!; [done|done|naive_solver]). }
  clear Hcmp. apply wp_bind. eapply wp_mono; [by apply deliver_run|]. intros [] s3 Hs3. cbn beta.
  unfold apply_updates in Hs3. rewrite <-app_assoc, <-fmap_app, <-accepted_app, <-times_app, <-foldl_app, <-accepted_app in Hs3.
  assert (r = inr true ∨ r ≠ inr true) as [->|Hne] by (destruct r as [|[]]; auto).
  { cbn [negb]. apply wp_ret. left. split; [|done]. left. rewrite Hasked. by apply Hr. }
  assert (negb (match r with inr b => b | inl _ => false end) = true) as -> by (destruct r as [|[]]; done).
  apply wp_bind. pose proof (nc_only_rep _ s3 _ _ _ _ nc_only_getCloudScripts Hs3) as Hget.
  unfold wp, try in Hget. unfold wp at 1, try at 1. destruct (getCloudScripts topic2 s3) as [og s4] eqn:Eg.
  destruct og as [m|e|x]; [|apply wp_ret; left; split; [|done]; right; exists s3; by rewrite Eg|done].
  apply wp_bind. eapply wp_mono; [eapply deliver_run; [apply Hu|exact Hget]|]. intros [] s5 Hs5. cbn beta.
  apply wp_bind, wp_zoom. eapply wp_mono; [eapply cs_SetScripts_spec; [apply Hs5|apply Hs5|by apply (Hk _ _ _ Eg)]|].
  intros [] w' (Hup' & C & HC & ->). cbn beta. apply wp_ret. right. split.
  { split; [rewrite Hasked; cbn; by rewrite <-Hr|]. exists s3. by rewrite Eg. }
  exists C. split; [done|]. destruct Hs5 as [_ _ H3 H4]. split; [done|done|..]; cbn.
  - by rewrite H3, app_assoc, <-times_app.
  - by rewrite H4, <-app_assoc, <-fmap_app, <-accepted_app, app_assoc.
Qed.

Lemma Start_run arrivals s S T stop ch c' :
  keyed_by_id → (∀ n, Forall has_script (decoded (arrivals n))) → cloud_rep s S T stop ch →
  nc_Subscribe CronScriptUpdatesChannel (nc s) = (Ret tt, c') →
  wp (Start sha256 json_Marshal mo topic1 topic2 arrivals) (λ init s', ∃ C early,
    init = kmap uuid_String C ∧
    ((∃ late us, kept (up_to_date arrivals s) ∧ early ++ late = accepted T us ∧ Forall has_script us ∧ C = apply_updates S early ∧
       cloud_rep s' (apply_updates C late) (times T us) true (ch ++ (Some <$> early ++ late))) ∨
     (∃ us, saved (up_to_date arrivals s) init ∧ early = accepted T us ∧
       us = decoded (arrivals 0) ++ decoded (arrivals 1) ++ decoded (arrivals 2) ++ decoded (arrivals 3) ∧
       cloud_rep s' C (times T us) true (ch ++ (Some <$> early))))) s.
Proof.
  intros Hk Hu Hs Hsub. unfold Start. apply wp_bind, wp_zoom. unfold wp at 1. rewrite Hsub.
  assert (cloud_rep (mkCloud (source s) (md s) c' (updatesCh s)) S T stop ch) as Hs0 by (destruct Hs; by split).
  apply wp_bind. eapply wp_mono; [by apply wp_with_run, deliver_run|]. intros [] s1 [Ed Hs1]. cbn beta.
  assert (up_to_date arrivals s ↔ (asked arrivals s1).1 = Ret true) as Hup.
  { unfold up_to_date, nc_do. rewrite (bind_ret _ _ _ _ _ (zoom_ret _ _ _ _ _ _ Hsub)). by rewrite (bind_ret _ _ _ _ _ Ed). }
  apply wp_bind, wp_try. eapply wp_mono; [by apply (fetch_run arrivals s1)|]. intros init s2 Hs2. cbn beta iota.
  apply wp_bind, wp_modify, wp_ret.
  assert (∀ S T ch, cloud_rep s2 S T stop ch →
    cloud_rep (mkCloud (mkCloudSource true (scriptLastUpdateTime (source s2))) (md s2) (nc s2) (updatesCh s2)) S T true ch) as Hset.
  { intros S' T' ch' [H1 H2 H3 H4]. split; [done|done|cbn; by rewrite H3|done]. }
  destruct Hs2 as [(Hc & -> & Hs2)|[Hc (C & -> & Hs2)]]; apply Hset in Hs2.
  - rewrite <-app_assoc, <-fmap_app, <-times_app in Hs2.
    eexists _, (accepted T (decoded (arrivals 0))). split; [done|]. left.
    eexists _, (decoded (arrivals 0) ++ decoded (arrivals 1) ++ decoded (arrivals 2)).
    split_and!; [unfold kept; by rewrite Hup|by rewrite accepted_app| |done|exact Hs2]. rewrite !Forall_app. eauto.
  - rewrite <-app_assoc, <-fmap_app, <-times_app, <-accepted_app in Hs2.
    exists C, (accepted T (decoded (arrivals 0) ++ decoded (arrivals 1) ++ decoded (arrivals 2) ++ decoded (arrivals 3))).
    split; [done|]. right. eexists. split; [|done]. unfold saved. by rewrite Hup.
Qed.

(** The updates handled after the start, and the runners that were started with the
    initial scripts and then took every update off the channel. *)
Lemma follow_run yaml_config later s1 C early T ch init :
  Forall has_script (decoded later) → Forall has_script early →
  cloud_rep s1 C T true (Some <$> early) → init = kmap uuid_String ch →
  ∃ s2 sr sr', deliver later s1 = (Ret tt, s2) ∧ upsert_initial yaml_config (mo init) New = (Ret tt, sr) ∧
    drain yaml_config (updatesCh s2) sr = (Ret tt, sr') ∧ holds (md s2) (apply_updates C (accepted T (decoded later))) ∧
    cronScripts sr' = apply_updates ch (early ++ accepted T (decoded later)).
Proof.
  intros Hl He Hs ->. destruct (proj1 (wp_run _ _ _) (deliver_run later s1 _ _ _ _ Hl Hs)) as ([] & s2 & E2 & [_ H2 _ C2]).
  destruct (upsert_initial_scripts yaml_config ch (mo (kmap uuid_String ch)) (Hmo _)) as (sr & E3 & Hok & HS).
  destruct (drain_run yaml_config (early ++ accepted T (decoded later)) sr) as (sr' & E4 & _ & HS'); [|done|].
  { apply Forall_app. split; [done|by apply accepted_Forall]. }
  exists s2, sr, sr'. rewrite C2, <-fmap_app. split_and!; [done..|]. by rewrite HS', HS.
Qed.

(** C5: after the cloud source has started and handled any updates, the runners, which
    started the initial scripts and took the updates off the channel, run exactly the
    scripts in the metadata service: if no update arrived while the source started, or,
    whatever arrived, if the checksum of the stored scripts, read after the first
    updates, was the one the cloud answered with. *)
Theorem start_agrees yaml_config arrivals later s S T stop c' :
  keyed_by_id → (∀ n, Forall has_script (decoded (arrivals n))) → Forall has_script (decoded later) →
  cloud_rep s S T stop [] → nc_Subscribe CronScriptUpdatesChannel (nc s) = (Ret tt, c') →
  ((∀ n, n ≤ 3 → arrivals n = []) ∨ up_to_date arrivals s) →
  ∃ init s1 s2 sr sr' S', Start sha256 json_Marshal mo topic1 topic2 arrivals s = (Ret init, s1) ∧
    deliver later s1 = (Ret tt, s2) ∧ upsert_initial yaml_config (mo init) New = (Ret tt, sr) ∧
    drain yaml_config (updatesCh s2) sr = (Ret tt, sr') ∧ holds (md s2) S' ∧ cronScripts sr' = S'.
Proof.
  intros Hk Hu Hl Hs Hsub Hcase.
  destruct (proj1 (wp_run _ _ _) (Start_run arrivals s S T stop [] c' Hk Hu Hs Hsub))
    as (init & s1 & E1 & C & early & -> & [(late & us & _ & Eus & Hus & -> & Hs1)|(us & [Hne _] & -> & Eus & Hs1)]).
  - rewrite app_nil_l in Hs1. apply (accepted_Forall _ T) in Hus. rewrite <-Eus in Hus.
    destruct (follow_run yaml_config later s1 _ _ _ (apply_updates S early) _ Hl Hus Hs1 eq_refl) as (s2 & sr & sr' & E2 & E3 & E4 & H2 & HS).
    eexists _, s1, s2, sr, sr', _. split_and!; [done..|]. rewrite HS, <-app_assoc, apply_updates_twice.
    unfold apply_updates. by rewrite foldl_app.
  - destruct Hcase as [Hq|Hc]; [|done].
    rewrite (Hq 0), (Hq 1), (Hq 2), (Hq 3) in Eus by lia. cbn in Eus. subst us. cbn [accepted times] in Hs1.
    rewrite app_nil_l in Hs1.
    destruct (follow_run yaml_config later s1 C [] T C _ Hl (Forall_nil_2 _) Hs1 eq_refl) as (s2 & sr & sr' & E2 & E3 & E4 & H2 & HS).
    eexists _, s1, s2, sr, sr', _. split_and!; done.
Qed.

(** an update that arrives after the cloud was asked for its scripts and before they
    are saved is overwritten in the metadata service by the older script, while its
    runner is started: the two disagree. *)
Theorem update_lost_in_store yaml_config arrivals s S T stop c' C u c :
  (∀ s, ∃ s', getCloudScripts topic2 s = (Ret (kmap uuid_String C), s')) → map_Forall (λ id c, script_id c = id) C →
  (¬ up_to_date arrivals s) → cloud_rep s S T stop [] →
  nc_Subscribe CronScriptUpdatesChannel (nc s) = (Ret tt, c') →
  (∀ n, n ≠ 3 → arrivals n = []) → decoded (arrivals 3) = [u] → Msg u = Some (UpsertReq (Some c)) →
  (last_time T (script_id c) < Timestamp u)%Z → C !! script_id c ≠ Some c →
  ∃ s1 sr sr', Start sha256 json_Marshal mo topic1 topic2 arrivals s = (Ret (kmap uuid_String C), s1) ∧
    upsert_initial yaml_config (mo (kmap uuid_String C)) New = (Ret tt, sr) ∧
    drain yaml_config (updatesCh s1) sr = (Ret tt, sr') ∧
    holds (md s1) C ∧ cronScripts sr' !! script_id c = Some c ∧ cronScripts sr' ≠ C.
Proof.
  intros Hget Hown Hcmp Hs Hsub Ha Hd Hm Ht Hne.
  assert (keyed_by_id) as Hk.
  { intros s0 m s' E k x Hx. destruct (Hget s0) as (s0' & E'). rewrite E' in E. injection E as <- _.
    apply (lookup_kmap_Some uuid_String) in Hx as (id & -> & Hx). by rewrite (Hown _ _ Hx). }
  assert (has_script u) as Hu by (unfold has_script; by rewrite Hm).
  assert (∀ n, Forall has_script (decoded (arrivals n))) as Hus.
  { intros n. destruct (decide (n = 3)) as [->|Hn]; [by rewrite Hd; repeat constructor|by rewrite Ha]. }
  destruct (proj1 (wp_run _ _ _) (Start_run arrivals s S T stop [] c' Hk Hus Hs Hsub))
    as (init & s1 & E1 & C' & early & -> & [(late & us & [Hc|[s0 Hc]] & _)|(us & [_ [s0 Hc]] & -> & -> & Hs1)]).
  { by destruct Hcmp. }
  { destruct (Hget s0) as (s0' & E). destruct (Hc (kmap uuid_String C)). by rewrite E. }
  assert (C' = C) as ->.
  { destruct (Hget s0) as (s0' & E). rewrite E in Hc. cbn in Hc. injection Hc as Hc. by apply (kmap_inj uuid_String) in Hc. }
  rewrite (Ha 0), (Ha 1), (Ha 2), Hd in Hs1 by done. cbn [decoded omap list_omap app] in Hs1.
  cbn [accepted times] in Hs1. unfold update_id in Hs1. rewrite Hm, (proj2 (Z.ltb_lt _ _) Ht) in Hs1.
  destruct (follow_run yaml_config [] s1 C [u] _ C _ (Forall_nil_2 _) (Forall_cons_2 _ _ _ Hu (Forall_nil_2 _)) Hs1 eq_refl)
    as (s2 & sr & sr' & [= <-] & E3 & E4 & H2 & HS). cbn in HS. unfold apply_update in HS. rewrite Hm in HS.
  exists s1, sr, sr'. split_and!; [done..| |].
  - by rewrite HS, lookup_insert_eq.
  - rewrite HS. intros E. apply Hne. by rewrite <-E, lookup_insert_eq.
Qed.
End cloud.
