(* ===== verification/SourceFacts.v ===== *)
(** * Facts on the sources of scripts

    The checksum does not depend on the order of a map; a source that could not start
    cannot be stopped; the runners follow the config maps of the cluster, with the
    cases in which they do not; the status a run records. *)

From S2P Require Import Prelude GoLib Uuid Messages QueryMessages QueryProto MessageBus CronScript ScriptSource ConfigMapSource ScriptRunner RunnerSteps ScriptSync.
From Stdlib Require Import Ascii.
Import cvmsgspb.

(** ** The checksum *)

Definition xor_ascii (x y : ascii) : ascii := ascii_of_N (N.lxor (N_of_ascii x) (N_of_ascii y)).

Lemma N_of_xor_ascii x y : N_of_ascii (xor_ascii x y) = N.lxor (N_of_ascii x) (N_of_ascii y).
Proof.
  apply N_ascii_embedding. pose proof (N_ascii_bounded x) as Hx. pose proof (N_ascii_bounded y) as Hy.
  change 256%N with (2 ^ 8)%N in *. destruct (decide (N.lxor (N_of_ascii x) (N_of_ascii y) = 0%N)) as [->|Hne]; [done|].
  apply N.log2_lt_pow2; [lia|]. pose proof (N.log2_lxor (N_of_ascii x) (N_of_ascii y)) as Hl.
  assert (∀ a, (a < 2 ^ 8)%N → (N.log2 a < 8)%N) as Hlog.
  { intros a Ha. destruct (decide (a = 0%N)) as [->|]; [done|]. apply N.log2_lt_pow2; lia. }
  pose proof (Hlog _ Hx). pose proof (Hlog _ Hy). lia.
Qed.

Lemma xor_ascii_swap x y z : xor_ascii (xor_ascii x y) z = xor_ascii (xor_ascii x z) y.
Proof. unfold xor_ascii at 1 3. rewrite !N_of_xor_ascii. f_equal. rewrite !N.lxor_assoc. f_equal. apply N.lxor_comm. Qed.

Lemma xor_bytes_cons x y a b : xor_bytes (String x a) (String y b) = String (xor_ascii x y) (xor_bytes a b).
Proof. done. Qed.

Lemma length_xor_bytes a b : String.length a = String.length b → String.length (xor_bytes a b) = String.length a.
Proof.
  revert b. induction a as [|x a IH]; intros [|y b] Hl; try done. rewrite xor_bytes_cons. cbn in *. rewrite IH; lia.
Qed.

Lemma xor_bytes_swap a b c :
  String.length a = String.length b → String.length a = String.length c →
  xor_bytes (xor_bytes a b) c = xor_bytes (xor_bytes a c) b.
Proof.
  revert b c. induction a as [|x a IH]; intros [|y b] [|z c] Hb Hc; try done. rewrite !xor_bytes_cons, xor_ascii_swap. f_equal.
  cbn in *. apply IH; lia.
Qed.

Section checksum.
Context (sha256 : string → string) (json_Marshal : CronScript → error + string).
Context (sha256_length : ∀ s, String.length (sha256 s) = 32).

Definition json_of (c : CronScript) : string := match json_Marshal c with inr s => s | inl _ => "" end.

Lemma checksum_loop_fold l acc :
  Forall (λ c, ∃ s, json_Marshal c = inr s) l → String.length acc = 32 →
  checksum_loop sha256 json_Marshal l acc = inr (foldl (λ a c, xor_bytes a (sha256 (json_of c))) acc l).
Proof using sha256_length.
  intros Hl. revert acc. induction Hl as [|c l [s Hs] _ IH]; intros acc Ha; [done|]. cbn [checksum_loop foldl].
  unfold json_of at 2. rewrite Hs. unfold xorByteArray. rewrite Ha, sha256_length. cbn [negb Nat.eqb]. apply IH.
  rewrite length_xor_bytes; [done|]. by rewrite sha256_length.
Qed.

Lemma checksum_fold_perm l l' acc :
  l ≡ₚ l' → String.length acc = 32 →
  foldl (λ a c, xor_bytes a (sha256 (json_of c))) acc l = foldl (λ a c, xor_bytes a (sha256 (json_of c))) acc l'.
Proof using sha256_length.
  intros Hp. revert acc. induction Hp as [|c l l' _ IH|c c' l|l l' l'' _ IH1 _ IH2]; intros acc Ha; cbn [foldl]; [done| | |].
  - apply IH. rewrite length_xor_bytes; [done|]. by rewrite sha256_length.
  - by rewrite xor_bytes_swap by (by rewrite sha256_length).
  - by rewrite IH1, IH2.
Qed.

(** the checksum of a set of scripts is the same for every order in which its map is
    iterated, so the checksums of the cloud and of the cluster can be compared. *)
Theorem checksum_order_irrelevant (l l' : list CronScript) :
  l ≡ₚ l' → Forall (λ c, ∃ s, json_Marshal c = inr s) l →
  ∃ sum, ChecksumFromScriptMap sha256 json_Marshal l = inr sum ∧ ChecksumFromScriptMap sha256 json_Marshal l' = inr sum ∧
    String.length sum = 32.
Proof using sha256_length.
  intros Hp Hl. unfold ChecksumFromScriptMap. assert (Forall (λ c, ∃ s, json_Marshal c = inr s) l') as Hl' by (by rewrite <-Hp).
  rewrite !checksum_loop_fold by (done || apply sha256_length). eexists. split; [done|].
  rewrite (checksum_fold_perm l l' _ Hp (sha256_length _)). split; [done|]. clear -sha256_length.
  assert (∀ acc, String.length acc = 32 →
    String.length (foldl (λ a c, xor_bytes a (sha256 (json_of c))) acc l') = 32) as H; [|by apply H, sha256_length].
  induction l' as [|c l' IH]; intros acc Ha; [done|]. cbn [foldl]. apply IH. rewrite length_xor_bytes; [done|]. by rewrite sha256_length.
Qed.
End checksum.

(** ** The status a run records *)

Section status.
Context `{U : UUIDLib} `{!Proto compilerpb.CompilerErrorGroup} `{!AnyProto compilerpb.CompilerErrorGroup}.

(** the status of a failed query is sent to the runner with a code of gRPC, which the
    runner records as if it were a code of the system: the codes up to
    PERMISSION_DENIED are recorded as they were, an internal error is recorded as a failed
    precondition, and an unimplemented operation and a failed precondition as
    success. *)
Theorem recorded_code {S} (st : Status) (v : vizierpb.Status) (st' : Status) (s s' : S) :
  StatusToVizierStatus st s = (Ret v, s') → runner.VizierStatusToStatus v = inr st' →
  st_Msg st' = st_Msg st ∧ st_ErrCode st' = statusCodeToGRPCCode (st_ErrCode st) ∧
  (st_ErrCode st ∈ statuspb.Codes → st_ErrCode st ≠ statuspb.DO_NOT_USE_ →
    (st_ErrCode st' = st_ErrCode st ↔ st_ErrCode st ≤ statuspb.PERMISSION_DENIED)%Z) ∧
  (st_ErrCode st = statuspb.INTERNAL → st_ErrCode st' = statuspb.FAILED_PRECONDITION) ∧
  (st_ErrCode st = statuspb.UNIMPLEMENTED ∨ st_ErrCode st = statuspb.FAILED_PRECONDITION → st_ErrCode st' = statuspb.OK).
Proof.
  intros (details & s1 & _ & [= <- _])%bind_Ret_inv Hv.
  assert (st_Msg st' = st_Msg st ∧ st_ErrCode st' = statusCodeToGRPCCode (st_ErrCode st)) as [Hm Hc].
  { unfold runner.VizierStatusToStatus in Hv. cbn [vizierpb.ErrorDetails vizierpb.Code vizierpb.StatusMessage] in Hv.
    destruct details; [by injection Hv as <-|]. destruct (MarshalAny _); [done|]. by injection Hv as <-. }
  split_and!; [done|done| | |]; rewrite Hc.
  - unfold statuspb.Codes. rewrite !elem_of_cons, elem_of_nil. intros Hk Hd.
    repeat destruct Hk as [->|Hk]; try done; vm_compute; intuition (try done; try lia).
  - by intros ->.
  - by intros [->| ->].
Qed.
End status.

(** ** Stopping a source that did not start *)

Section stop.
Context `{U : UUIDLib} `{N : NatsConn} `{!NatsClient} {W : Type} `{!CronScriptStoreClient W}.
Context `{!Proto C2VMessage} `{!Proto V2CMessage} `{!AnyProto CronScriptUpdate}.
Context `{!AnyProto GetCronScriptsChecksumRequest} `{!AnyProto GetCronScriptsChecksumResponse}.
Context `{!AnyProto GetCronScriptsRequest} `{!AnyProto GetCronScriptsResponse}.
Context `{!AnyProto RegisterOrUpdateCronScriptResponse} `{!AnyProto DeleteCronScriptResponse}.
Context (sha256 : string → string) (json_Marshal : CronScript → error + string).
Context (mo : gmap string CronScript → list (string * CronScript)) (topic1 topic2 : uuid).
Implicit Types s : cloud_state W.

(** A call that does not set [stop]. *)
Definition keeps_stop {A} (m : M (cloud_state W) A) : Prop := ∀ s, cs_stop (source (m s).2) = cs_stop (source s).

Lemma stop_kept_ret {A} (a : A) : keeps_stop (mret a).
Proof. done. Qed.
Lemma stop_kept_fail {A} e : keeps_stop (fail e : M (cloud_state W) A).
Proof. done. Qed.
Lemma stop_kept_panic {A} c : keeps_stop (panic c : M (cloud_state W) A).
Proof. done. Qed.
Lemma stop_kept_get : keeps_stop get_state.
Proof. done. Qed.
Lemma stop_kept_bind {A B} (m : M (cloud_state W) A) (k : A → M (cloud_state W) B) :
  keeps_stop m → (∀ a, keeps_stop (k a)) → keeps_stop (m ≫= k).
Proof.
  intros Hm Hk s. unfold mbind, M_bind. specialize (Hm s). destruct (m s) as [[a|e|c] s']; [|done|done].
  cbn in Hm. by rewrite (Hk a s').
Qed.
Lemma stop_kept_try {A} (m : M (cloud_state W) A) : keeps_stop m → keeps_stop (try m).
Proof. intros Hm s. unfold try. specialize (Hm s). by destruct (m s) as [[a|e|c] s']. Qed.
Lemma stop_kept_lift {A} (r : error + A) : keeps_stop (lift_sum r).
Proof. by destruct r. Qed.
Lemma stop_kept_deref {A} (p : option A) : keeps_stop (deref p).
Proof. by destruct p. Qed.
Lemma stop_kept_md {A} (m : M W A) : keeps_stop (md_do m).
Proof. intros s. unfold md_do, zoom. by destruct (m (md s)). Qed.
Lemma stop_kept_nc {A} (m : M nconn A) : keeps_stop (nc_do m).
Proof. intros s. unfold nc_do, zoom. by destruct (m (nc s)). Qed.
Lemma stop_kept_logged (m : M (cloud_state W) unit) : keeps_stop m → keeps_stop (logged m).
Proof. intros Hm. apply stop_kept_bind; [by apply stop_kept_try|done]. Qed.
Lemma stop_kept_forM {A} (l : list A) (body : A → M (cloud_state W) unit) : (∀ x, keeps_stop (body x)) → keeps_stop (forM_ l body).
Proof. intros Hb. induction l; cbn; [done|by apply stop_kept_bind]. Qed.
Create HintDb stop_kept.
#[local] Hint Resolve stop_kept_ret stop_kept_fail stop_kept_panic stop_kept_get stop_kept_try stop_kept_lift stop_kept_deref stop_kept_md stop_kept_nc stop_kept_logged stop_kept_forM : stop_kept.

Lemma stop_kept_respond {X} `{!AnyProto X} (resp : X) rid : keeps_stop (respond resp rid).
Proof. unfold respond, Publish. destruct (marshalV2C resp); auto with stop_kept. Qed.

Lemma stop_kept_executeInOrder id t exec : keeps_stop exec → keeps_stop (executeInOrder id t exec).
Proof.
  intros He. apply stop_kept_bind; [apply stop_kept_get|intros s]. destruct (_ <? _)%Z; [|apply stop_kept_ret].
  by apply stop_kept_bind.
Qed.

Lemma stop_kept_deliver msgs : keeps_stop (deliver msgs).
Proof.
  apply stop_kept_forM. intros d. unfold natsUpdater. destruct (unmarshalC2V d) as [e|u]; [auto with stop_kept|].
  unfold handle_update. destruct (Msg u) as [[script|sid]|]; [|..|auto with stop_kept].
  - apply stop_kept_bind; [auto with stop_kept|]. intros c. apply stop_kept_executeInOrder. apply stop_kept_bind; [done|intros _].
    apply stop_kept_bind; [auto with stop_kept|intros _; apply stop_kept_respond].
  - apply stop_kept_executeInOrder. apply stop_kept_bind; [done|intros _].
    apply stop_kept_bind; [auto with stop_kept|intros _; apply stop_kept_respond].
Qed.

Lemma stop_kept_request {Req Res} `{!AnyProto Req} `{!AnyProto Res} (req : Req) t t' :
  keeps_stop (natsReplyAndResponse (Res := Res) req t t').
Proof.
  unfold natsReplyAndResponse, Publish. apply stop_kept_bind; [apply stop_kept_nc|intros _]. apply stop_kept_bind.
  - apply stop_kept_try, stop_kept_bind; [auto with stop_kept|intros d]. apply stop_kept_bind; [apply stop_kept_nc|intros _].
    apply stop_kept_bind; [apply stop_kept_nc|]. intros []; auto with stop_kept.
  - intros r. apply stop_kept_bind; [apply stop_kept_logged, stop_kept_nc|intros _; apply stop_kept_lift].
Qed.

Lemma stop_kept_fetch arrivals : keeps_stop (fetchInitialScripts sha256 json_Marshal mo topic1 topic2 arrivals).
Proof.
  unfold fetchInitialScripts. apply stop_kept_bind; [apply stop_kept_md|intros m]. apply stop_kept_bind; [apply stop_kept_deliver|intros _].
  apply stop_kept_bind.
  { apply stop_kept_try, stop_kept_bind; [apply stop_kept_lift|intros x]. apply stop_kept_bind; [apply stop_kept_request|done]. }
  intros r. apply stop_kept_bind; [apply stop_kept_deliver|intros _]. destruct (negb _); [|done].
  apply stop_kept_bind; [apply stop_kept_try, stop_kept_bind; [apply stop_kept_request|done]|]. intros [e|C]; [done|].
  apply stop_kept_bind; [apply stop_kept_deliver|intros _]. by apply stop_kept_bind; [apply stop_kept_md|].
Qed.

(** when a new cloud source fails to start, the call of [Stop] that shuts the broker down
    panics on it: the function that it calls was never set.  The runners are then not
    stopped either. *)
Theorem failed_start_stop_panics (arrivals : nat → list string) s s' e ro (sr : ScriptRunner) :
  cs_stop (source s) = false → Start sha256 json_Marshal mo topic1 topic2 arrivals s = (Err e, s') → sr_once sr = false →
  let src := mkSource (Start sha256 json_Marshal mo topic1 topic2 arrivals) ScriptSource.Stop in
  Stop [src] ro (sr, s') = (Crash NilDeref, (mkScriptRunner (runnerMap sr) (runners sr) true true, s')).
Proof.
  intros Hs E Ho src. assert (cs_stop (source s') = false) as Hs'.
  { unfold Start in E. unfold mbind at 1, M_bind at 1 in E. pose proof (stop_kept_nc (nc_Subscribe CronScriptUpdatesChannel) s) as H1.
    destruct (nc_do _ s) as [[[]|e1|c1] s1]; [|cbn in *; congruence|done].
    unfold mbind at 1, M_bind at 1 in E. pose proof (stop_kept_deliver (arrivals 0) s1) as H2.
    destruct (deliver _ s1) as [[[]|e2|c2] s2]; [|cbn in *; congruence|done].
    unfold mbind at 1, M_bind at 1, try at 1 in E. pose proof (stop_kept_fetch arrivals s2) as H3.
    destruct (fetchInitialScripts _ _ _ _ _ _ s2) as [[init|e3|c3] s3]; [done| |done].
    unfold mbind at 1, M_bind at 1 in E.
    pose proof (stop_kept_logged _ (stop_kept_nc (nc_Unsubscribe CronScriptUpdatesChannel)) s3) as H4.
    destruct (logged _ s3) as [[[]|e4|c4] s4]; unfold fail in E; cbn in *; congruence. }
  unfold Stop. rewrite get_bind. cbn [fst]. rewrite Ho, modify_bind. cbn [fst snd].
  unfold mbind at 1, M_bind at 1. cbn [forM_]. unfold mbind at 1, M_bind at 1, zoom at 1. cbn [fst snd source_Stop src].
  unfold ScriptSource.Stop. rewrite get_bind, Hs'. done.
Qed.
End stop.

(** ** Config maps *)

Section config_maps.
Context `{U : UUIDLib} `{!UUIDSpec U} (cron_yaml : string → error + Z) (yaml_config : string → option error * scripts.Config).
Implicit Types (cm : ConfigMap) (C : gmap uuid ConfigMap) (s : ConfigMapSource).

(** The events that bring a config map to the source. *)
Definition events_about (old : k8s_object) cm : list cm_event :=
  [AddEvent (ConfigMapObj cm); UpdateEvent old (ConfigMapObj cm); DeleteEvent (ConfigMapObj cm)].

(** a config map whose [cron.yaml] cannot be read makes the source send a nil update,
    on which the loop of the script runner panics; so does changing or deleting it. *)
Theorem malformed_config_map_panics cm old err now s us sr :
  configmapToCronScript cron_yaml cm = inl err → isInitialized s = true → old ≠ ConfigMapObj cm →
  cm_updatesCh s = Some <$> us → Forall has_script us → runners_ok sr →
  Forall (λ e, ∃ s', configMapEventHandlers cron_yaml now e s = (Ret tt, s') ∧
      (drain yaml_config (cm_updatesCh s') sr).1 = Crash NilDeref)
    (events_about old cm).
Proof.
  intros He Hi Hold Hch Hus Hok.
  assert (∀ s', cm_updatesCh s' = (Some <$> us) ++ [None] → (drain yaml_config (cm_updatesCh s') sr).1 = Crash NilDeref) as Hd.
  { intros s' ->. revert sr Hok. clear -Hus. induction Hus as [|u us Hu _ IH]; intros sr Hok; [done|].
    destruct (processUpdate_run yaml_config u sr Hu Hok) as (sr1 & E1 & Hok1 & _). unfold drain in *. cbn [fmap list_fmap app forM_].
    rewrite (bind_ret _ _ _ _ _ E1). by apply IH. }
  repeat constructor; eexists; (split; [|apply Hd]).
  - unfold configMapEventHandlers, as_configmap, mbind, M_bind, mret, M_ret, get_state. rewrite Hi. cbn [negb]. done.
  - cbn. unfold makeUpdate. by rewrite He, Hch.
  - unfold configMapEventHandlers. rewrite bool_decide_eq_false_2 by done. done.
  - cbn. unfold makeUpdate. by rewrite He, Hch.
  - done.
  - cbn. unfold makeDelete. by rewrite He, Hch.
Qed.

(** A config map that the cluster names by the UUID [u], and whose script can be read. *)
Definition good_map (u : uuid) cm : Prop :=
  cm_UID cm = uuid_String u ∧ good_uuid_pb (ProtoFromUUID u) ∧ ∃ c, configmapToCronScript cron_yaml cm = inr (cm_UID cm, c).

Definition script_of cm : option CronScript :=
  match configmapToCronScript cron_yaml cm with inr (_, c) => Some c | inl _ => None end.

(** The scripts of the config maps of the cluster. *)
Definition cache_scripts C : gmap uuid CronScript := omap script_of C.

Definition object_id (o : k8s_object) : uuid :=
  match o with ConfigMapObj cm => FromStringOrNil (cm_UID cm) | OtherObj _ => uuid_Nil end.

(** What an event of the informer says of its cache, and the events it sends. *)
Definition cache_event C (e : cm_event) : gmap uuid ConfigMap :=
  match e with
  | AddEvent (ConfigMapObj cm) | UpdateEvent _ (ConfigMapObj cm) => <[FromStringOrNil (cm_UID cm) := cm]> C
  | DeleteEvent (ConfigMapObj cm) => delete (FromStringOrNil (cm_UID cm)) C
  | _ => C
  end.

Definition good_event C (e : cm_event) : Prop :=
  match e with
  | AddEvent (ConfigMapObj cm) | DeleteEvent (ConfigMapObj cm) => ∃ u, good_map u cm
  | UpdateEvent (ConfigMapObj old) (ConfigMapObj cm) => ∃ u, good_map u cm ∧ cm_UID old = cm_UID cm ∧ C !! u = Some old
  | _ => False
  end.

Inductive good_events : gmap uuid ConfigMap → list (gotime * cm_event) → Prop :=
| good_events_nil C : good_events C []
| good_events_cons C now e es : good_event C e → good_events (cache_event C e) es → good_events C ((now, e) :: es).

Lemma good_map_id u cm : good_map u cm → FromStringOrNil (cm_UID cm) = u.
Proof. intros [-> _]. unfold FromStringOrNil. by rewrite uuid_FromString_String. Qed.

Lemma good_map_script u cm :
  good_map u cm → ∃ c, configmapToCronScript cron_yaml cm = inr (cm_UID cm, c) ∧ script_of cm = Some c ∧ script_id c = u ∧
    UUIDFromProtoOrNil (cr_ID c) = u.
Proof.
  intros (Hu & Hg & c & Hc). exists c. split; [done|]. unfold script_of. rewrite Hc. split; [done|].
  assert (UUIDFromProtoOrNil (cr_ID c) = u); [|done]. unfold configmapToCronScript in Hc.
  destruct (cron_yaml _); [done|]. injection Hc as <-. cbn [cr_ID]. unfold ProtoFromUUIDStrOrNil. rewrite Hu, uuid_FromString_String.
  unfold UUIDFromProtoOrNil. by rewrite UUIDFromProto_ProtoFromUUID.
Qed.

Lemma handle_event_run C now e s us :
  good_event C e → isInitialized s = true → cm_updatesCh s = Some <$> us →
  ∃ s' us', configMapEventHandlers cron_yaml now e s = (Ret tt, s') ∧ isInitialized s' = true ∧
    cm_updatesCh s' = Some <$> us ++ us' ∧ Forall has_script us' ∧
    apply_updates (cache_scripts C) us' = cache_scripts (cache_event C e).
Proof.
  intros He Hi Hch. assert (∀ cm u, good_map u cm → apply_updates (cache_scripts C) (omap id [makeUpdate cron_yaml now cm]) =
    cache_scripts (<[FromStringOrNil (cm_UID cm) := cm]> C) ∧ ∃ x, makeUpdate cron_yaml now cm = Some x ∧ has_script x) as Hup.
  { intros cm u Hg. destruct (good_map_script u cm Hg) as (c & Hc & Hsc & Hid & _). unfold makeUpdate. rewrite Hc. split.
    - cbn. rewrite (good_map_id u cm Hg), Hid. unfold cache_scripts. by rewrite (omap_insert_Some _ _ _ _ c).
    - eexists. split; [done|]. unfold has_script. done. }
  destruct e as [[cm|]|[old|] [cm|]|[cm|]]; cbn in He; try done.
  - destruct He as [u Hg]. destruct (Hup cm u Hg) as [Ha (x & Hx & Hs)]. rewrite Hx in Ha.
    eexists _, [x]. split.
    + unfold configMapEventHandlers, as_configmap, mbind, M_bind, mret, M_ret, get_state. rewrite Hi. cbn [negb]. done.
    + split_and!; [exact Hi| |by repeat constructor|exact Ha]. cbn. by rewrite Hx, Hch, fmap_app.
  - destruct He as (u & Hg & Hold & HC). destruct (Hup cm u Hg) as [Ha (x & Hx & Hs)]. rewrite Hx in Ha.
    unfold configMapEventHandlers. case_bool_decide as Heq.
    + injection Heq as ->. exists s, []. split_and!; [done|done|by rewrite app_nil_r|done|]. cbn.
      rewrite (good_map_id u cm Hg), insert_id by done. done.
    + eexists _, [x]. split; [done|]. split_and!; [exact Hi| |by repeat constructor|exact Ha]. cbn. by rewrite Hx, Hch, fmap_app.
  - destruct He as [u Hg]. destruct (good_map_script u cm Hg) as (c & Hc & Hsc & _ & Hid).
    eexists _, [mkCronScriptUpdate (Some (DeleteReq (cr_ID c))) "" (Unix now)].
    split; [done|]. split_and!; [exact Hi| |by repeat constructor|].
    + cbn. unfold makeDelete. by rewrite Hc, Hch, fmap_app.
    + cbn. unfold apply_update. cbn. rewrite Hid, (good_map_id u cm Hg). unfold cache_scripts. by rewrite omap_delete.
Qed.
Lemma handle_all_run C es s us :
  good_events C es → isInitialized s = true → cm_updatesCh s = Some <$> us →
  ∃ s' us', handle_all cron_yaml es s = (Ret tt, s') ∧ cm_updatesCh s' = Some <$> us ++ us' ∧ Forall has_script us' ∧
    apply_updates (cache_scripts C) us' = cache_scripts (foldl cache_event C es.*2).
Proof.
  intros Hes. revert s us. induction Hes as [C|C now e es He _ IH]; intros s us Hi Hch.
  { exists s, []. by rewrite app_nil_r. }
  destruct (handle_event_run C now e s us He Hi Hch) as (s1 & us1 & E1 & Hi1 & Hch1 & Hs1 & Ha1).
  destruct (IH s1 _ Hi1 Hch1) as (s2 & us2 & E2 & Hch2 & Hs2 & Ha2). exists s2, (us1 ++ us2). split_and!.
  - unfold handle_all in *. cbn [forM_ fst snd]. by run_with E1.
  - by rewrite Hch2, <-app_assoc.
  - by apply Forall_app.
  - unfold apply_updates in *. by rewrite foldl_app, Ha1.
Qed.

Lemma initial_loop_run (l : list (uuid * ConfigMap)) C :
  Forall (λ ucm, good_map ucm.1 ucm.2) l →
  initial_loop cron_yaml l.*2 (kmap uuid_String (cache_scripts C)) =
    kmap uuid_String (cache_scripts (foldl (λ m kv, <[kv.1 := kv.2]> m) C l)).
Proof.
  intros Hl. revert C. induction Hl as [|[u cm] l Hg _ IH]; intros C; [done|]. cbn [fmap list_fmap fst snd initial_loop foldl] in *.
  destruct (good_map_script u cm Hg) as (c & -> & Hsc & _). destruct Hg as (-> & _). rewrite <-IH. f_equal.
  rewrite <-(kmap_insert uuid_String). f_equal. unfold cache_scripts. by rewrite (omap_insert_Some _ _ _ _ c).
Qed.

Lemma getInitialScripts_run C cms :
  map_Forall good_map C → cms ≡ₚ (map_to_list C).*2 →
  getInitialScripts cron_yaml (inr cms) = inr (kmap uuid_String (cache_scripts C)).
Proof.
  intros HC Hcms. apply Permutation_map_inv in Hcms as (l & -> & Hl). apply Permutation_sym in Hl.
  unfold getInitialScripts. f_equal. change (∅ : gmap string CronScript) with (kmap uuid_String (cache_scripts ∅) : gmap string CronScript).
  change (map snd l) with (l.*2). rewrite initial_loop_run, (foldl_insert_all C l Hl); [done|].
  rewrite Hl. apply Forall_forall. intros [u cm] Hin%elem_of_map_to_list. by apply HC.
Qed.

(** C26: once the source of config maps has started, without an event during its start, the
    runners follow the cluster: after any events of the informer that carry config maps (no
    tombstone objects) whose scripts can be read, and with each update the cached old map of
    the same UID, the runners that started the initial scripts and took the
    updates off the channel run exactly the scripts of the config maps that exist. *)
Theorem config_maps_followed mo C cms es :
  (∀ m, mo m ≡ₚ map_to_list m) → map_Forall good_map C → cms ≡ₚ (map_to_list C).*2 → good_events C es →
  ∃ init s s' sr sr', cm_Start cron_yaml None [] [] (inr cms) NewConfigMapSource = (Ret init, s) ∧
    handle_all cron_yaml es s = (Ret tt, s') ∧ upsert_initial yaml_config (mo init) New = (Ret tt, sr) ∧
    drain yaml_config (cm_updatesCh s') sr = (Ret tt, sr') ∧
    cronScripts sr' = cache_scripts (foldl cache_event C es.*2).
Proof.
  intros Hmo HC Hcms Hes. set (s := mkConfigMapSource (Some false) true []).
  destruct (handle_all_run C es s [] Hes eq_refl eq_refl) as (s' & us & E & Hch & Hus & Ha).
  destruct (upsert_initial_scripts yaml_config (cache_scripts C) (mo (kmap uuid_String (cache_scripts C))) (Hmo _)) as (sr & Es & Hok & HS).
  destruct (drain_run yaml_config us sr Hus Hok) as (sr' & Ed & _ & HS').
  exists (kmap uuid_String (cache_scripts C)), s, s', sr, sr'. split_and!; [|done|done|by rewrite Hch|by rewrite HS', HS].
  unfold cm_Start, handle_all. cbn [forM_]. rewrite (bind_ret _ _ _ tt NewConfigMapSource eq_refl).
  by rewrite (getInitialScripts_run C cms HC Hcms).
Qed.

(** a config map that is created after the informer's cache was listed and before the
    source is marked as started is never run: its event is dropped, and the later
    resynchronisations of the informer change nothing. *)
Theorem config_map_missed cm now now' cms :
  cm_UID cm ∉ cm_UID <$> cms →
  ∃ init s, cm_Start cron_yaml None [] [(now, AddEvent (ConfigMapObj cm))] (inr cms) NewConfigMapSource = (Ret init, s) ∧
    init !! cm_UID cm = None ∧ cm_updatesCh s = [] ∧
    configMapEventHandlers cron_yaml now' (UpdateEvent (ConfigMapObj cm) (ConfigMapObj cm)) s = (Ret tt, s).
Proof.
  intros Hn. exists (initial_loop cron_yaml cms ∅), (mkConfigMapSource (Some false) true []).
  split_and!; [done| |done|unfold configMapEventHandlers; by rewrite bool_decide_eq_true_2].
  assert (∀ m, m !! cm_UID cm = None → initial_loop cron_yaml cms m !! cm_UID cm = None) as H; [|by apply H].
  induction cms as [|x cms IH]; intros m Hm; [done|]. rewrite fmap_cons in Hn. apply not_elem_of_cons in Hn as [Hne Hn].
  cbn [initial_loop]. unfold configmapToCronScript. destruct (cron_yaml _); [by apply IH|]. apply IH; [done|].
  by rewrite lookup_insert_ne.
Qed.
End config_maps.
