(* ===== verification/ScriptRuns.v ===== *)
(** * Runs of the script runner

    The results of the runs in the metadata service, and concrete instances of the
    theorems on the script runner and its sources. *)

From S2P Require Import Prelude GoLib Datastore Uuid Messages StoreLib MemStore MessageBus QueryMessages QueryProto CronScript.
From S2P Require Import ScriptSource ConfigMapSource ScriptRunner RunnerSteps ScriptSync SourceFacts.
From Stdlib Require Import Ascii.
Import cvmsgspb.

(** ** The results in the metadata service *)

Section results.
Context {St : Type} `{!Datastore St} {view : St → gmap string string} {ok : St → Prop}.
Context `{!DatastoreSpec St view ok} `{U : UUIDLib} `{!UUIDSpec U}.
Context `{!Proto CronScript} `{!Proto CronScriptResult} `{!ProtoSpec CronScript} `{!ProtoSpec CronScriptResult}.
Context (ro : gset uuid → list uuid) (mo : gmap string CronScript → list (string * CronScript)).
Context {V : Type} `{!VizierClient V} `{!AnyProto compilerpb.CompilerErrorGroup}.
Context (TimestampProto : gotime → error + CronScript.Timestamp).

(** A runner with the metadata service and a query service of its own. *)
Definition with_vizier : VizierClient (St * V) := {|
  vz_ExecuteScript req := zoom snd (λ v s, (s.1, v)) (vz_ExecuteScript req)
|}.

Definition with_store : CronScriptStoreClient (St * V) :=
  let call {A} (m : M St A) : M (St * V) A := zoom fst (λ w s, (w, s.2)) m in {|
  cs_GetScripts := call (cs_GetScripts (CronScriptStoreClient := store_client ro mo));
  cs_SetScripts m := call (cs_SetScripts (CronScriptStoreClient := store_client ro mo) m);
  cs_AddOrUpdateScript c := call (cs_AddOrUpdateScript (CronScriptStoreClient := store_client ro mo) c);
  cs_DeleteScript id := call (cs_DeleteScript (CronScriptStoreClient := store_client ro mo) id);
  cs_RecordExecutionResult req := call (cs_RecordExecutionResult (CronScriptStoreClient := store_client ro mo) req)
|}.

(** The query service accepts every query, and its streams tell how the query went. *)
Definition answers : Prop :=
  ∀ req (v : V), ∃ stream v' o, vz_ExecuteScript req v = (Ret stream, v') ∧ head (omap decisive stream) = Some o.

Definition run_scripts (period : Z) (nows : list gotime) : M (runner * (St * V)) unit :=
  run_all (VizierClient0 := with_vizier) (CronScriptStoreClient0 := with_store) TimestampProto period nows.
(** The result of a run whose predecessor began at [t]. *)
Definition result_at (id : uuid) (t : gotime) (res : CronScriptResult) : Prop :=
  cres_ScriptID res = Some (ProtoFromUUID id) ∧
  cres_Timestamp res = match TimestampProto (time_Add t (- nanos)) with inr ts => Some ts | inl _ => None end.

Lemma run_stored period now r s v R idx :
  answers → good_uuid_pb (ProtoFromUUID (r_scriptID r)) →
  ok s → slots_rep (view s) (r_scriptID r) R → index_is (view s) (r_scriptID r) idx → idx < 10 →
  ∃ s' v' res, runner.runScript (VizierClient0 := with_vizier) (CronScriptStoreClient0 := with_store) TimestampProto period now (r, (s, v)) =
      (Ret tt, (runner.with_lastRun now r, (s', v'))) ∧
    result_at (r_scriptID r) (r_lastRun r) res ∧ ok s' ∧
    slots_rep (view s') (r_scriptID r) (ring_step (R, idx) res).1 ∧ index_is (view s') (r_scriptID r) (ring_step (R, idx) res).2.
Proof.
  intros Ha Hg Hok HR Hi Hidx. destruct (Ha (runner.script_request r period) v) as (stream & v' & o & Ev & Eo).
  assert (UUIDFromProtoOrNil (Some (ProtoFromUUID (r_scriptID r))) = r_scriptID r) as Hid.
  { unfold UUIDFromProtoOrNil. by rewrite UUIDFromProto_ProtoFromUUID. }
  set (req := runner.record_request TimestampProto r o). set (res := result_of req).
  assert (cres_ScriptID res = Some (ProtoFromUUID (r_scriptID r)) ∧ cres_Timestamp res = rr_Timestamp req) as [Hsid Hts].
  { unfold res, result_of, req, runner.record_request. cbn [rr_Result rr_ScriptID rr_Timestamp]. by destruct o as [|e|[st|]]. }
  pose proof (RecordCronScriptResult_spec s res R idx) as Hspec. cbv zeta in Hspec. rewrite Hsid, Hid in Hspec.
  destruct (proj1 (wp_run _ _ _) (Hspec Hok HR Hi Hidx)) as ([] & s' & Es & Hok' & HR' & Hi').
  exists s', v', res. split; [|split; [by split|done]].
  rewrite (runScript_stream (VizierClient0 := with_vizier) (CronScriptStoreClient0 := with_store) _ _ _ _ _ stream (s, v'))
    by (cbn; unfold zoom; cbn; by rewrite Ev).
  rewrite Eo. unfold logged, mbind, M_bind, try. cbn [cs_RecordExecutionResult with_store store_client]. unfold zoom. cbn [fst snd].
  unfold RecordExecutionResult. fold req. fold res. by rewrite Es.
Qed.

(** however often a script is run, the metadata service holds the results of its last
    ten runs, each under the start of the window of its run. *)
Theorem last_ten_runs_stored period nows r s v idx :
  answers → good_uuid_pb (ProtoFromUUID (r_scriptID r)) →
  ok s → slots_rep (view s) (r_scriptID r) ∅ → index_is (view s) (r_scriptID r) idx → idx < 10 →
  ∃ s' v' r' results l, run_scripts period nows (r, (s, v)) = (Ret tt, (r', (s', v'))) ∧
    Forall2 (result_at (r_scriptID r)) (take (length nows) (r_lastRun r :: nows)) results ∧
    GetCronScriptResults (r_scriptID r) s' = (Ret (Some <$> l), s') ∧ l ≡ₚ drop (length results - 10) results.
Proof.
  intros Ha Hg Hok HR Hi Hidx.
  assert (∀ R idx, slots_rep (view s) (r_scriptID r) R → index_is (view s) (r_scriptID r) idx → idx < 10 →
    ∃ s' v' r' results, run_scripts period nows (r, (s, v)) = (Ret tt, (r', (s', v'))) ∧
    Forall2 (result_at (r_scriptID r)) (take (length nows) (r_lastRun r :: nows)) results ∧ ok s' ∧
    slots_rep (view s') (r_scriptID r) (foldl ring_step (R, idx) results).1) as Hrun.
  { clear idx HR Hi Hidx. revert r s v Hg Hok.
    induction nows as [|now nows IH]; intros r s v Hg Hok R idx HR Hi Hidx; [by exists s, v, r, []|].
    destruct (run_stored period now r s v R idx Ha Hg Hok HR Hi Hidx) as (s1 & v1 & res & E1 & Hres & Hok1 & HR1 & Hi1).
    destruct (IH (runner.with_lastRun now r) s1 v1 Hg Hok1 _ _ HR1 Hi1) as (s2 & v2 & r2 & results & E2 & Hall & Hok2 & HR2).
    { apply Nat.mod_upper_bound. lia. }
    exists s2, v2, r2, (res :: results). split_and!; [|by constructor|done|].
    - unfold run_scripts, run_all in *. cbn [forM_]. by run_with E1.
    - cbn [foldl]. by rewrite (surjective_pairing (ring_step (R, idx) res)). }
  destruct (Hrun ∅ idx HR Hi Hidx) as (s' & v' & r' & results & E & Hall & Hok' & HR').
  destruct (GetCronScriptResults_spec s' (r_scriptID r) _ Hok' HR') as (l & El & Hl).
  exists s', v', r', results, l. split_and!; [done|done|done|]. by rewrite Hl, ring_values.
Qed.
End results.

(** ** Concrete instances *)
Module ScriptRuns.
Export MemCron MemNats.

(** *** Encodings *)

#[export] Instance C2VMessage_eq_dec : EqDecision C2VMessage.
Proof. intros [] []. unfold Decision. solve_decision. Defined.
#[export] Instance C2VMessage_countable : Countable C2VMessage.
Proof. record_countable (λ m, (c2v_VizierID m, c2v_Msg m)) (λ '(a, b), mkC2VMessage a b). Defined.
#[export] Instance V2CMessage_eq_dec : EqDecision V2CMessage.
Proof. intros [] []. unfold Decision. solve_decision. Defined.
#[export] Instance V2CMessage_countable : Countable V2CMessage.
Proof.
  record_countable (λ m, (v2c_VizierID m, v2c_ClusterUID m, v2c_SessionID m, v2c_Msg m))
    (λ '(a, b, c, d), mkV2CMessage a b c d).
Defined.
#[export] Instance update_msg_eq_dec : EqDecision update_msg.
Proof. solve_decision. Defined.
#[export] Instance update_msg_countable : Countable update_msg.
Proof.
  refine (inj_countable' (λ m, match m with UpsertReq c => inl c | DeleteReq i => inr i end)
    (λ x, match x with inl c => UpsertReq c | inr i => DeleteReq i end) _). by intros [].
Defined.
#[export] Instance CronScriptUpdate_eq_dec : EqDecision CronScriptUpdate.
Proof. solve_decision. Defined.
#[export] Instance CronScriptUpdate_countable : Countable CronScriptUpdate.
Proof. record_countable (λ m, (Msg m, RequestID m, Timestamp m)) (λ '(a, b, c), mkCronScriptUpdate a b c). Defined.

(** A message packed under a name. *)
Definition any_named (name : string) {T} `{!Proto T} : AnyProto T := {|
  MarshalAny x := match Marshal x with inr b => inr (name, b) | inl e => inl e end;
  UnmarshalAny a := match a with
    | None => inl (ErrMsg "message is nil")
    | Some (n, b) => if bool_decide (n = name) then Unmarshal b else inl (ErrMsg "mismatched message type")
    end
|}.

#[export] Instance update_any : AnyProto CronScriptUpdate := any_named "CronScriptUpdate".
#[export] Instance checksum_request_any : AnyProto GetCronScriptsChecksumRequest :=
  {| MarshalAny r := inr ("ChecksumRequest", checksum_Topic r); UnmarshalAny a := inl (ErrMsg "request") |}.
#[export] Instance scripts_request_any : AnyProto GetCronScriptsRequest :=
  {| MarshalAny r := inr ("ScriptsRequest", scripts_Topic r); UnmarshalAny a := inl (ErrMsg "request") |}.
#[export] Instance upsert_response_any : AnyProto RegisterOrUpdateCronScriptResponse :=
  {| MarshalAny r := inr ("UpsertResponse", ""); UnmarshalAny a := inr mkUpsertResponse |}.
#[export] Instance delete_response_any : AnyProto DeleteCronScriptResponse :=
  {| MarshalAny r := inr ("DeleteResponse", ""); UnmarshalAny a := inr mkDeleteResponse |}.

(** The messages of the cloud: an update, and its answers. *)
Definition c2v (name : string) (b : string) : string := enc (mkC2VMessage "" (Some (name, b))).
Definition update_message (u : CronScriptUpdate) : string := c2v "CronScriptUpdate" (enc u).

(** A cloud that answers every request with the scripts [C], and with the checksum
    [sum] if there is one. *)
Section answers.
Context (sum : option string) (C : gmap string CronScript).
Definition checksum_answer : AnyProto GetCronScriptsChecksumResponse := {|
  MarshalAny r := inr ("ChecksumResponse", Checksum r);
  UnmarshalAny a := match sum with Some s => inr (mkChecksumResponse s) | None => inl (ErrMsg "mismatched message type") end
|}.
Definition scripts_answer : AnyProto GetCronScriptsResponse := {|
  MarshalAny r := inl (ErrMsg "not sent");
  UnmarshalAny a := inr (mkScriptsResponse C)
|}.
End answers.

#[export] Instance mem_nats : NatsClient (N := mem_conn) := {|
  nc_Subscribe t l := (Ret tt, l);
  nc_Unsubscribe t l := (Ret tt, l);
  nc_Wait t l := (Ret (Response (c2v "answer" "")), l)
|}.
#[export] Instance mem_nats_safe : NatsClientSafe.
Proof. by split. Qed.

Definition md_client : CronScriptStoreClient St := store_client elements map_to_list.
Definition md_client_spec : CronScriptStoreSpec (CronScriptStoreClient0 := md_client) St ok (λ s S, scripts_rep (view s) S) :=
  store_client_spec elements map_to_list (λ X, Permutation_refl _) (λ m, Permutation_refl _).

Lemma decoded_update u : decoded [update_message u] = [u].
Proof.
  unfold decoded. cbn [omap list_omap]. unfold unmarshalC2V, update_message, c2v. rewrite Unmarshal_enc.
  cbn [c2v_Msg UnmarshalAny update_any any_named]. rewrite bool_decide_eq_true_2 by done. by rewrite Unmarshal_enc.
Qed.

(** *** The cloud source *)

(** A newer version of the first script, and the deletion of the second. *)
Definition script_1' : CronScript := mkCronScript (Some (ProtoFromUUID uuid_1)) "px.debug()" "" "" 30.
Definition upsert_at (t : Z) (c : CronScript) : CronScriptUpdate := mkCronScriptUpdate (Some (UpsertReq (Some c))) "r" t.
Definition delete_at (t : Z) (id : uuid) : CronScriptUpdate :=
  mkCronScriptUpdate (Some (DeleteReq (Some (ProtoFromUUID id)))) "r" t.

Definition three_updates : list CronScriptUpdate := [upsert_at 1 script_1; upsert_at 3 script_1'; delete_at 2 uuid_2].
Definition three_messages : list string := update_message <$> three_updates.

Lemma decoded_updates us : decoded (update_message <$> us) = us.
Proof.
  induction us as [|u us IH]; [done|]. pose proof (decoded_update u) as E. unfold decoded in *. cbn [fmap list_fmap omap list_omap] in *.
  destruct (unmarshalC2V (update_message u)) as [e|v]; [done|]. injection E as ->. by rewrite IH.
Qed.

Definition no_config (s : string) : option error * scripts.Config := (None, scripts.mkConfig None).

Definition empty_cloud : cloud_state (N := mem_conn) St := mkCloud NewCloudSource (store ∅) [] [].

Lemma empty_cloud_rep :
  cloud_rep (up := ok) (holds := λ s S, scripts_rep (view s) S) empty_cloud ∅ ∅ false [].
Proof. split; [apply store_ok|apply scripts_empty|done|done]. Qed.

(** The updates of two scripts, in the order they were sent and in another. *)
Lemma delivery_order_irrelevant_witness :
  ∃ s1 s2 sr1 sr2 S', deliver (CronScriptStoreClient0 := md_client) three_messages empty_cloud = (Ret tt, s1) ∧
    deliver (CronScriptStoreClient0 := md_client) (reverse three_messages) empty_cloud = (Ret tt, s2) ∧
    drain no_config (updatesCh s1) New = (Ret tt, sr1) ∧ drain no_config (updatesCh s2) New = (Ret tt, sr2) ∧
    scripts_rep (view (md s1)) S' ∧ scripts_rep (view (md s2)) S' ∧ cronScripts sr1 = S' ∧ cronScripts sr2 = S'.
Proof.
  apply (delivery_order_irrelevant (CronScriptStoreClient0 := md_client) (up := ok) (holds := λ s S, scripts_rep (view s) S)
    (CronScriptStoreSpec0 := md_client_spec) no_config three_messages (reverse three_messages) empty_cloud ∅ ∅ false New).
  - symmetry. apply reverse_Permutation.
  - unfold three_messages. rewrite decoded_updates. repeat constructor; done.
  - unfold three_messages. rewrite decoded_updates. intros u v Hu Hv _ _ Ht. unfold three_updates in Hu, Hv.
    rewrite !elem_of_cons, elem_of_nil in Hu, Hv.
    destruct Hu as [->|[->|[->|[]]]], Hv as [->|[->|[->|[]]]]; done.
  - apply empty_cloud_rep.
  - apply New_ok.
  - done.
Defined.
Lemma scripts_answered (C : gmap string CronScript) (topic : uuid) (s : cloud_state (N := mem_conn) St) :
  ∃ s', getCloudScripts (AnyProto4 := scripts_answer C) topic s = (Ret C, s').
Proof.
  unfold getCloudScripts, natsReplyAndResponse, Publish, nc_do, zoom, logged, try, lift_sum, marshalV2C. unfold mbind, M_bind. cbn -[c2v].
  unfold unmarshalC2V, c2v. rewrite Unmarshal_enc. cbn. by eexists.
Qed.

Lemma answered_by_id (C : gmap uuid CronScript) topic :
  map_Forall (λ id c, script_id c = id) C →
  keyed_by_id (W := St) (AnyProto4 := scripts_answer (kmap uuid_String C)) topic.
Proof.
  intros Hown s m s' E k c Hc. destruct (scripts_answered (kmap uuid_String C) topic s) as (s'' & E').
  rewrite E' in E. assert (m = kmap uuid_String C) as -> by congruence.
  apply (lookup_kmap_Some uuid_String) in Hc as (id & -> & Hc). by rewrite (Hown _ _ Hc).
Qed.

Definition cloud_scripts : gmap uuid CronScript := {[uuid_1 := script_1]}.
Definition short_hash (s : string) : string := repeat_str "x" 32.
Definition script_json (c : CronScript) : error + string := inr (cr_Script c).

Lemma cloud_scripts_own : map_Forall (λ id c, script_id c = id) cloud_scripts.
Proof. apply map_Forall_singleton. vm_compute. done. Qed.

(** A hash that tells scripts apart, and the checksum of a store with one script. *)
Definition pad_hash (s : string) : string := String.substring 0 32 (s +:+ repeat_str "x" 32).
Definition one_script_sum : string :=
  match ChecksumFromScriptMap pad_hash script_json [script_1] with inr sum => sum | inl _ => "" end.
(** Updates that arrive while the source starts: before the stored scripts are read,
    before they are compared, and after. *)
Definition early_updates (n : nat) : list string :=
  match n with
  | 0 => [update_message (upsert_at 1 script_1)]
  | 1 => [update_message (upsert_at 3 script_1')]
  | 2 => [update_message (delete_at 2 uuid_2)]
  | _ => []
  end.

Lemma early_updates_up_to_date :
  up_to_date (CronScriptStoreClient0 := md_client) (AnyProto2 := checksum_answer (Some one_script_sum))
    pad_hash script_json map_to_list uuid_1 early_updates empty_cloud.
Proof. vm_compute. reflexivity. Qed.

(** The store is empty and the cloud has one script, which is saved; then updates
    arrive.  And: updates arrive while the source starts, and the scripts read were up
    to date. *)
Lemma start_agrees_witness :
  (∃ init s1 s2 sr sr' S',
    Start (CronScriptStoreClient0 := md_client) (AnyProto2 := checksum_answer None)
      (AnyProto4 := scripts_answer (kmap uuid_String cloud_scripts)) short_hash script_json map_to_list uuid_1 uuid_2 (λ _, []) empty_cloud =
      (Ret init, s1) ∧
    deliver (CronScriptStoreClient0 := md_client) three_messages s1 = (Ret tt, s2) ∧
    upsert_initial no_config (map_to_list init) New = (Ret tt, sr) ∧
    drain no_config (updatesCh s2) sr = (Ret tt, sr') ∧ scripts_rep (view (md s2)) S' ∧ cronScripts sr' = S') ∧
  (∃ init s1 s2 sr sr' S',
    Start (CronScriptStoreClient0 := md_client) (AnyProto2 := checksum_answer (Some one_script_sum))
      (AnyProto4 := scripts_answer (kmap uuid_String cloud_scripts)) pad_hash script_json map_to_list uuid_1 uuid_2 early_updates empty_cloud =
      (Ret init, s1) ∧
    deliver (CronScriptStoreClient0 := md_client) three_messages s1 = (Ret tt, s2) ∧
    upsert_initial no_config (map_to_list init) New = (Ret tt, sr) ∧
    drain no_config (updatesCh s2) sr = (Ret tt, sr') ∧ scripts_rep (view (md s2)) S' ∧ cronScripts sr' = S').
Proof.
  split.
  - apply (start_agrees (CronScriptStoreClient0 := md_client) (up := ok) (holds := λ s S, scripts_rep (view s) S)
      (CronScriptStoreSpec0 := md_client_spec) (AnyProto2 := checksum_answer None)
      (AnyProto4 := scripts_answer (kmap uuid_String cloud_scripts)) short_hash script_json map_to_list (λ m, Permutation_refl _)
      uuid_1 uuid_2 no_config (λ _, []) three_messages empty_cloud ∅ ∅ false []).
    + apply answered_by_id, cloud_scripts_own.
    + done.
    + unfold three_messages. rewrite decoded_updates. repeat constructor; done.
    + apply empty_cloud_rep.
    + done.
    + by left.
  - apply (start_agrees (CronScriptStoreClient0 := md_client) (up := ok) (holds := λ s S, scripts_rep (view s) S)
      (CronScriptStoreSpec0 := md_client_spec) (AnyProto2 := checksum_answer (Some one_script_sum))
      (AnyProto4 := scripts_answer (kmap uuid_String cloud_scripts)) pad_hash script_json map_to_list (λ m, Permutation_refl _)
      uuid_1 uuid_2 no_config early_updates three_messages empty_cloud ∅ ∅ false []).
    + apply answered_by_id, cloud_scripts_own.
    + intros [|[|[|n]]]; unfold early_updates; rewrite ?decoded_update; repeat constructor; done.
    + unfold three_messages. rewrite decoded_updates. repeat constructor; done.
    + apply empty_cloud_rep.
    + done.
    + right. exact early_updates_up_to_date.
Defined.

(** The cloud has the old version of the script, and the new version arrives while the
    old one is about to be saved. *)
Lemma update_lost_in_store_witness :
  ∃ s1 sr sr',
    Start (CronScriptStoreClient0 := md_client) (AnyProto2 := checksum_answer None)
      (AnyProto4 := scripts_answer (kmap uuid_String cloud_scripts)) short_hash script_json map_to_list uuid_1 uuid_2
      (λ n, if decide (n = 3) then [update_message (upsert_at 1 script_1')] else []) empty_cloud =
      (Ret (kmap uuid_String cloud_scripts), s1) ∧
    upsert_initial no_config (map_to_list (kmap uuid_String cloud_scripts)) New = (Ret tt, sr) ∧
    drain no_config (updatesCh s1) sr = (Ret tt, sr') ∧ scripts_rep (view (md s1)) cloud_scripts ∧
    cronScripts sr' !! script_id script_1' = Some script_1' ∧ cronScripts sr' ≠ cloud_scripts.
Proof.
  apply (update_lost_in_store (CronScriptStoreClient0 := md_client) (up := ok) (holds := λ s S, scripts_rep (view s) S)
    (CronScriptStoreSpec0 := md_client_spec) (AnyProto2 := checksum_answer None)
    (AnyProto4 := scripts_answer (kmap uuid_String cloud_scripts)) short_hash script_json map_to_list (λ m, Permutation_refl _)
    uuid_1 uuid_2 no_config _ empty_cloud ∅ ∅ false [] cloud_scripts (upsert_at 1 script_1')).
  - intros s. apply scripts_answered.
  - apply cloud_scripts_own.
  - vm_compute. discriminate.
  - apply empty_cloud_rep.
  - done.
  - intros n Hn. by rewrite decide_False.
  - rewrite decide_True by done. apply decoded_update.
  - done.
  - vm_compute. done.
  - vm_compute. done.
Defined.

(** *** Runners *)

#[export] Instance group_any : AnyProto compilerpb.CompilerErrorGroup :=
  {| MarshalAny g := inr (CompilerErrorGroup_name, ""); UnmarshalAny a := inl (ErrMsg "not read") |}.

(** A query service that logs the requests and answers with the statistics of a query,
    and a metadata service that does nothing. *)
Definition stats_response : vizierpb.ExecuteScriptResponse :=
  data_response "q" None (Some (vizierpb.mkQueryExecutionStats (vizierpb.mkQueryTimingInfo 5 6) 7 8)).

#[export] Instance log_vizier : VizierClient (list vizierpb.ExecuteScriptRequest) :=
  {| vz_ExecuteScript req l := (Ret [inr (data_response "q" None None); inr stats_response], l ++ [req]) |}.
#[export] Instance null_store : CronScriptStoreClient (list vizierpb.ExecuteScriptRequest) := {|
  cs_GetScripts := mret ∅; cs_SetScripts m := mret tt; cs_AddOrUpdateScript c := mret tt;
  cs_DeleteScript id := mret tt; cs_RecordExecutionResult req := mret tt
|}.
#[export] Instance log_requests : RequestLog (W := list vizierpb.ExecuteScriptRequest) (λ l, l).
Proof. by split. Qed.

Definition to_timestamp (t : gotime) : error + CronScript.Timestamp := inr (mkTimestamp (Unix t) (t_ns t mod nanos)).

Definition at_second (t : Z) : gotime := mkTime (t * nanos) None.
Definition runner_1 : runner := runner.with_lastRun (at_second 100) (runner.newRunner no_config script_1 uuid_1).

(** A script that runs every ten seconds, the third time five seconds late. *)
Lemma windows_tile_witness :
  ∃ s' reqs, run_all to_timestamp (10 * nanos) (at_second <$> [110; 120; 135; 145]%Z) (runner_1, []) = (Ret tt, s') ∧
    s'.2 = reqs ∧
    window <$> reqs = Some <$> ((λ p, (p.1 * nanos, p.2 * nanos)) <$> [(99, 109); (109, 119); (119, 129); (134, 144)])%Z ∧
    contiguous ((λ p, (p.1 * nanos, p.2 * nanos)) <$> [(99, 109); (109, 119); (119, 129); (134, 144)])%Z = false.
Proof.
  destruct (windows_tile to_timestamp (λ l, l) (10 * nanos) (at_second <$> [110; 120; 135; 145]%Z) runner_1 [])
    as (s' & reqs & E & Hs & Hw & _); [|exists s', reqs; split_and!; [exact E|exact Hs|exact Hw|done]].
  repeat constructor; vm_compute; done.
Defined.

(** The first script is started, and then replaced by its new version. *)
Lemma one_live_runner_witness :
  ∃ (s : system (W := list vizierpb.ExecuteScriptRequest)) p r,
    reachable_system (W := list vizierpb.ExecuteScriptRequest) no_config to_timestamp [] map_to_list s ∧
    runners (sy_runner s) !! p = Some r ∧ r_cronScript r = script_1' ∧ r_done r = false ∧
    runnerMap (sy_runner s) !! r_scriptID r = Some p.
Proof.
  set (k := uuid_String uuid_1). set (u := upsert_at 1 script_1').
  destruct (upsertScript_run no_config New (FromStringOrNil k) script_1 New_ok) as (sr1 & E1 & Hok1 & _).
  destruct (upsertScript_run no_config sr1 (UUIDFromProtoOrNil (cr_ID script_1')) script_1' Hok1)
    as (sr2 & E2 & _ & _ & _ & _ & _ & Hr).
  assert (reachable_system (W := list vizierpb.ExecuteScriptRequest) no_config to_timestamp [] map_to_list
    (mkSystem sr2 [] Looping [])) as Hs.
  { eapply system_next; [|exact (StepUpdate no_config to_timestamp [] map_to_list sr1 (Some u) [] [] sr2 E2)].
    eapply system_next; [|exact (StepSend no_config to_timestamp [] map_to_list sr1 [] Looping [] (Some u) [] ltac:(apply Nat.ltb_lt; done))].
    eapply system_next; [|exact (StepSynced no_config to_timestamp [] map_to_list sr1 [] [])].
    eapply system_next; [|exact (StepInitial no_config to_timestamp [] map_to_list New [] k script_1 [] [] sr1 E1)].
    eapply system_next; [exact (system_new no_config to_timestamp [] map_to_list [])|].
    exact (StepSourceStarted no_config to_timestamp [] map_to_list New [] [] [(k, script_1)] []). }
  exists (mkSystem sr2 [] Looping []), (length (runners sr1)), (runner.newRunner no_config script_1' (UUIDFromProtoOrNil (cr_ID script_1'))).
  split_and!; [exact Hs|exact Hr|done|done|].
  exact (proj2 (one_live_runner (W := list vizierpb.ExecuteScriptRequest) no_config to_timestamp [] map_to_list _ _ _ _ _
    (λ m, Permutation_refl _) Hs Hr Hr eq_refl eq_refl eq_refl)).
Defined.

(** A service on a store, with a query service that gives statistics. *)
#[export] Instance stats_vizier : VizierClient unit :=
  {| vz_ExecuteScript req v := (Ret [inr (data_response "q" None None); inr stats_response], v) |}.

Lemma last_ten_runs_stored_witness :
  ∃ s' v' r' results l,
    run_scripts elements map_to_list to_timestamp (10 * nanos) (at_second <$> [110; 120; 130; 140; 150; 160; 170; 180; 190; 200; 210; 220]%Z)
      (runner_1, (store ∅, tt)) = (Ret tt, (r', (s', v'))) ∧
    length results = 12 ∧ GetCronScriptResults uuid_1 s' = (Ret (Some <$> l), s') ∧ l ≡ₚ drop 2 results.
Proof.
  destruct (last_ten_runs_stored (view := view) (ok := ok) elements map_to_list to_timestamp (10 * nanos)
    (at_second <$> [110; 120; 130; 140; 150; 160; 170; 180; 190; 200; 210; 220]%Z) runner_1 (store ∅) tt 0)
    as (s' & v' & r' & results & l & E & Hall & El & Hl).
  - intros req v. by eexists _, _, _.
  - by vm_compute.
  - apply store_ok.
  - apply slots_empty.
  - apply index_empty.
  - lia.
  - apply Forall2_length in Hall. rewrite <-Hall in Hl. exists s', v', r', results, l. split_and!; [exact E|by rewrite <-Hall|exact El|exact Hl].
Defined.

(** *** Config maps *)

Definition read_cron (s : string) : error + Z := ParseInt s 64.

Definition config_map (id : uuid) (version script cron : string) : ConfigMap :=
  mkConfigMap (uuid_String id) version {["script.pxl" := script; "cron.yaml" := cron]}.

Lemma malformed_config_map_panics_witness :
  let cm := config_map uuid_1 "2" "px.display()" "every day" in
  ∃ s', configMapEventHandlers read_cron (at_second 1) (AddEvent (ConfigMapObj cm)) (mkConfigMapSource (Some false) true []) = (Ret tt, s') ∧
    (drain no_config (cm_updatesCh s') New).1 = Crash NilDeref.
Proof.
  intros cm. pose proof (malformed_config_map_panics read_cron no_config cm (OtherObj "") ErrSyntax (at_second 1)
    (mkConfigMapSource (Some false) true []) [] New) as H.
  do 6 (specialize (H ltac:(first [apply New_ok|constructor|done|vm_compute; done]))). by apply Forall_cons in H as [H _].
Defined.

(** Two config maps, of which one is changed and one deleted. *)
Lemma config_maps_followed_witness :
  let cm1 := config_map uuid_1 "1" "px.display()" "10" in
  let cm1' := config_map uuid_1 "3" "px.debug()" "30" in
  let cm2 := config_map uuid_2 "2" "px.display()" "60" in
  let C : gmap uuid ConfigMap := {[uuid_1 := cm1; uuid_2 := cm2]} in
  let es := [(at_second 1, UpdateEvent (ConfigMapObj cm1) (ConfigMapObj cm1')); (at_second 2, DeleteEvent (ConfigMapObj cm2))] in
  ∃ init s s' sr sr', cm_Start read_cron None [] [] (inr (map_to_list C).*2) NewConfigMapSource = (Ret init, s) ∧
    handle_all read_cron es s = (Ret tt, s') ∧ upsert_initial no_config (map_to_list init) New = (Ret tt, sr) ∧
    drain no_config (cm_updatesCh s') sr = (Ret tt, sr') ∧
    cronScripts sr' = cache_scripts read_cron (foldl cache_event C es.*2).
Proof.
  intros cm1 cm1' cm2 C es.
  assert (∀ id script v cron n, id = uuid_1 ∨ id = uuid_2 → read_cron cron = inr n → good_map read_cron id (config_map id v script cron)) as Hg.
  { intros id script v cron n Hid Hn. split_and!; [done| |].
    - destruct Hid as [->| ->]; by vm_compute.
    - unfold configmapToCronScript. cbn [cm_Data config_map]. rewrite lookup_insert_ne, lookup_singleton_eq by done. cbn.
      rewrite Hn. by eexists. }
  apply (config_maps_followed read_cron no_config map_to_list C _ es).
  - done.
  - apply map_Forall_insert_2; [by apply (Hg _ _ _ _ 10%Z); [left|]|]. apply map_Forall_singleton. by apply (Hg _ _ _ _ 60%Z); [right|].
  - done.
  - constructor; [|constructor; [|constructor]].
    + exists uuid_1. split_and!; [by apply (Hg _ _ _ _ 30%Z); [left|]|done|]. apply lookup_insert_eq.
    + exists uuid_2. by apply (Hg _ _ _ _ 60%Z); [right|].
Defined.
End ScriptRuns.
