(* ===== verification/BridgeMessages.v ===== *)
(** * Messages between the cluster and the cloud

    The messages of [shared/cvmsgspb/cvmsgs.proto] and
    [cloud/vzconn/vzconnpb/service.proto] that the cloud connector and the
    passthrough proxy exchange, and the debug messages of
    [api/proto/vizierpb/vizierapi.proto]. *)

From S2P Require Import Prelude GoLib Uuid Messages K8sMessages QueryMessages ScriptSource.

Module debugpb.
Record HealthCheckRequest := mkHealthCheckRequest { hc_ClusterID : string }.
Record HealthCheckResponse := mkHealthCheckResponse { hc_Status : option vizierpb.Status }.
Record GenerateOTelScriptRequest := mkOTelRequest { otel_ClusterID : string; otel_PxlScript : string }.
Record GenerateOTelScriptResponse := mkOTelResponse { otel_Status : option vizierpb.Status; OTelScript : string }.
Record DebugLogRequest := mkDebugLogRequest { PodName : string; Previous : bool; Container : string }.
Record DebugLogResponse := mkDebugLogResponse { Data : string }.
Inductive PodPhase : Type := PHASE_UNKNOWN | PENDING | RUNNING | SUCCEEDED | FAILED.
Inductive ContainerState : Type :=
| CONTAINER_STATE_UNKNOWN | CONTAINER_STATE_RUNNING | CONTAINER_STATE_TERMINATED | CONTAINER_STATE_WAITING.
Record ContainerStatus := mkContainerStatus {
  cs_Name : string; cs_ContainerState : ContainerState; cs_Message : string; cs_Reason : string;
  cs_StartTimestampNS : Z; cs_RestartCount : Z
}.
Record VizierPodStatus := mkVizierPodStatus {
  vps_Name : string; vps_Phase : PodPhase; vps_Message : string; vps_Reason : string; vps_CreatedAt : Z;
  vps_ContainerStatuses : list ContainerStatus; vps_RestartCount : Z
}.
Record DebugPodsRequest := mkDebugPodsRequest { dp_ClusterID : string }.
Record DebugPodsResponse := mkDebugPodsResponse {
  ControlPlanePods : list VizierPodStatus; DataPlanePods : list VizierPodStatus
}.
End debugpb.

Module cloudpb.
(** [types.Timestamp]. *)
Record Timestamp := mkTimestamp { Seconds : Z; Nanos : Z }.

Record ContainerStatus := mkContainerStatus {
  cs_Name : string; cs_State : ContainerState; cs_Message : string; cs_Reason : string;
  cs_CreatedAt : Timestamp; cs_RestartCount : Z
}.
Record K8SEvent := mkK8SEvent { ke_Message : string; ke_FirstTime : Timestamp; ke_LastTime : Timestamp }.
(** [reason] is not set by the cloud connector. *)
Record PodStatus := mkPodStatus {
  ps_Name : string; ps_Status : PodPhase; ps_StatusMessage : string; ps_Containers : list ContainerStatus;
  ps_CreatedAt : Timestamp; ps_Events : list K8SEvent; ps_RestartCount : Z
}.

Record VizierClusterInfo := mkVizierClusterInfo { ClusterUID : string; ClusterName : string; VizierVersion : string }.
Record RegisterVizierRequest := mkRegisterVizierRequest {
  rv_VizierID : UUIDpb; JwtKey : string; ClusterInfo : option VizierClusterInfo
}.
Inductive RegistrationStatus : Type := ST_UNKNOWN | ST_OK | ST_FAILED_NOT_FOUND.
Record RegisterVizierAck := mkRegisterVizierAck { ack_Status : RegistrationStatus; ack_VizierName : string }.

Inductive VizierStatus : Type :=
| VZ_ST_UNKNOWN | VZ_ST_HEALTHY | VZ_ST_UNHEALTHY | VZ_ST_DISCONNECTED | VZ_ST_UPDATING | VZ_ST_CONNECTED
| VZ_ST_UPDATE_FAILED | VZ_ST_DEGRADED.
#[global] Instance VizierStatus_eq_dec : EqDecision VizierStatus.
Proof. solve_decision. Defined.

(** A nil and an empty map of statuses are told apart. *)
Definition pod_statuses : Type := option (gmap string PodStatus).
Record VizierHeartbeat := mkVizierHeartbeat {
  hb_VizierID : UUIDpb; hb_Time : Z; hb_SequenceNumber : Z; hb_PodStatuses : pod_statuses;
  hb_UnhealthyDataPlanePodStatuses : pod_statuses; hb_PodStatusesLastUpdated : Z; hb_Status : VizierStatus;
  hb_NumNodes : Z; hb_NumInstrumentedNodes : Z; hb_DisableAutoUpdate : bool; hb_StatusMessage : string;
  hb_K8sClusterVersion : string; hb_OperatorVersion : string
}.

Record UpdateOrInstallVizierRequest := mkUpdateRequest { up_Version : string; up_Token : string; up_RedeployEtcd : bool }.
Record UpdateOrInstallVizierResponse := mkUpdateResponse { UpdateStarted : bool }.

(** The request of a [C2VAPIStreamRequest]. *)
Inductive c2v_msg : Type :=
| ExecReq (r : option vizierpb.ExecuteScriptRequest)
| HcReq (r : option debugpb.HealthCheckRequest)
| CancelReq
| DebugLogReq (r : option debugpb.DebugLogRequest)
| DebugPodsReq (r : option debugpb.DebugPodsRequest)
| GenerateOTelScriptReq (r : option debugpb.GenerateOTelScriptRequest).
Record C2VAPIStreamRequest := mkC2VAPIStreamRequest { c2v_RequestID : string; c2v_Token : string; c2v_Req : option c2v_msg }.

Inductive v2c_msg : Type :=
| ExecResp (r : vizierpb.ExecuteScriptResponse)
| HcResp (r : debugpb.HealthCheckResponse)
| Status (s : vizierpb.Status)
| DebugLogResp (r : debugpb.DebugLogResponse)
| DebugPodsResp (r : debugpb.DebugPodsResponse)
| GenerateOTelScriptResp (r : debugpb.GenerateOTelScriptResponse).
Record V2CAPIStreamResponse := mkV2CAPIStreamResponse { v2c_RequestID : string; v2c_Resp : option v2c_msg }.

(** [messagespb.MetricsMessage]. *)
Record MetricsMessage := mkMetricsMessage { PromMetricsText : string; mm_PodName : string }.
End cloudpb.

Module vzconnpb.
Record V2CBridgeMessage := mkV2CBridgeMessage { bm_Topic : string; SessionId : Z; bm_Msg : option Any }.
Record C2VBridgeMessage := mkC2VBridgeMessage { cm_Topic : string; cm_Msg : option Any }.
Record RegisterVizierDeploymentRequest := mkRegisterDeploymentRequest { K8sClusterUID : string; K8sClusterName : string }.
Record RegisterVizierDeploymentResponse := mkRegisterDeploymentResponse { rd_VizierID : option UUIDpb; rd_VizierName : string }.
End vzconnpb.
