(* ===== verification/VizierInfo.v ===== *)
(** * What the cloud connector knows of its cluster

    [cloud_connector/bridge/vzinfo.go]: the statuses of the pods that go into the
    heartbeats, the logs and pods for debugging, the update job and the secrets, all
    through the clients of the Kubernetes API, which are parameters. *)

From S2P Require Import Prelude GoLib Uuid Messages K8sMessages K8sHandler K8sConvert QueryMessages BridgeMessages.
From Stdlib Require Import Ascii.

(** ** Objects of the API *)

Module batchv1.
Record EnvVar := mkEnvVar { env_Name : string; env_Value : string }.
Record Container := mkContainer { c_Name : string; c_Image : string; c_Env : list EnvVar }.
(** [CompletionTime] is nil, the zero time or a time. *)
Record Job := mkJob {
  job_Name : string; job_OwnerReferences : list metav1.OwnerReference; job_Containers : list Container;
  job_CompletionTime : option Z; job_Failed : Z; job_Succeeded : Z
}.
End batchv1.
Import batchv1.

(** [corev1.Secret]; an assignment to a nil map panics. *)
Record Secret := mkSecret { sec_Name : string; sec_Data : option (gmap string string) }.

(** [corev1.Event]. *)
Record k8s_event := mkEvent { e_Message : string; e_FirstTimestamp : Z; e_LastTimestamp : Z }.

(** [operator/apis/px.dev/v1alpha1/vizier_types.go]. *)
Module v1alpha1.
Definition VizierPhaseNone : string := "".
Definition VizierPhaseDisconnected : string := "Disconnected".
Definition VizierPhaseHealthy : string := "Healthy".
Definition VizierPhaseUpdating : string := "Updating".
Definition VizierPhaseUnhealthy : string := "Unhealthy".
Definition VizierPhaseDegraded : string := "Degraded".
Definition ReconciliationPhaseUpdating : string := "Updating".
Record VizierStatus := mkVizierStatus {
  vs_Message : string; vs_VizierPhase : string; vs_ReconciliationPhase : string; vs_OperatorVersion : string
}.
Record Vizier := mkVizier { vz_Version : string; vz_Status : VizierStatus }.
End v1alpha1.

(** The clients, and what they have done to the cluster. *)
Class Clientset (W : Type) := {
  InClusterConfig : M W unit;
  NewForConfig : M W unit;
  versioned_NewForConfig : M W unit;
  NewDiscoveryClientForConfig : M W unit;
  ServerVersion : M W string;
  Namespaces_GetUID : string → M W string;
  Pods_GetLogs : string → string → bool → string → M W string;
  Pods_List : string → string → M W (list v1.Pod);
  Pods_Update : string → v1.Pod → M W unit;
  Events_List : string → string → M W (list k8s_event);
  Nodes_List : M W (list v1.Node);
  Secrets_Delete : string → string → M W unit;
  Secrets_Create : string → Secret → M W unit;
  Secrets_Get : string → string → M W Secret;
  Secrets_Update : string → Secret → M W unit;
  Jobs_Create : string → Job → M W Job;
  Jobs_Delete : string → string → M W unit;
  Jobs_Get : string → string → M W Job;
  Jobs_List : string → M W (list Job);
  (** The objects of a watch until its channel is closed; one that is not a job is [None]. *)
  Jobs_Watch : string → string → M W (list (option Job));
  Viziers_List : string → M W (list v1alpha1.Vizier);
  Viziers_Update : string → v1alpha1.Vizier → M W unit
}.

(** ** State *)

Record K8sState := mkK8sState {
  ControlPlanePodStatuses : cloudpb.pod_statuses;
  UnhealthyDataPlanePodStatuses : cloudpb.pod_statuses;
  K8sClusterVersion : string;
  NumNodes : Z;
  NumInstrumentedNodes : Z;
  LastUpdated : Z
}.

Record K8sVizierInfo := mkK8sVizierInfo {
  ns : string;
  clusterVersion : string;
  clusterName : string;
  controlPlanePodStatuses : cloudpb.pod_statuses;
  unhealthyDataPlanePodStatuses : cloudpb.pod_statuses;
  k8sStateLastUpdated : Z;
  numNodes : Z;
  numInstrumentedNodes : Z
}.

(** ** Conversions *)

Definition nanosPerSecond : Z := 1000 * 1000 * 1000.

(** Division and remainder truncate towards zero. *)
Definition nanosToTimestampProto (nanos : Z) : cloudpb.Timestamp :=
  cloudpb.mkTimestamp (Z.quot nanos nanosPerSecond) (to_int32 (Z.rem nanos nanosPerSecond)).

Definition convertPodPhase (p : PodPhase) : debugpb.PodPhase :=
  match p with
  | PENDING => debugpb.PENDING | RUNNING => debugpb.RUNNING | SUCCEEDED => debugpb.SUCCEEDED
  | FAILED => debugpb.FAILED | PHASE_UNKNOWN => debugpb.PHASE_UNKNOWN | TERMINATED => debugpb.PHASE_UNKNOWN
  end.

Definition convertContainerState (p : ContainerState) : debugpb.ContainerState :=
  match p with
  | CONTAINER_STATE_RUNNING => debugpb.CONTAINER_STATE_RUNNING
  | CONTAINER_STATE_TERMINATED => debugpb.CONTAINER_STATE_TERMINATED
  | CONTAINER_STATE_WAITING => debugpb.CONTAINER_STATE_WAITING
  | CONTAINER_STATE_UNKNOWN => debugpb.CONTAINER_STATE_UNKNOWN
  end.

(** [utils/shared/k8s/selector.go]. *)
Definition VizierLabelSelector : metav1.LabelSelector :=
  metav1.mkLabelSelector ∅ [metav1.mkRequirement "app" "In" ["pixie-operator"; "pl-monitoring"]].

Definition publicImageRepo : string := "ghcr.io/k8sstormcenter".
Definition privateImageRepo : string := "ghcr.io/k8sstormcenter".

(** [strings.Replace(s, old, new, 1)] for a prefix [old]. *)
Definition replace_prefix (s old new : string) : string := new +:+ String.substring (String.length old) (String.length s - String.length old) s.

Section vzinfo.
Context {W : Type} `{!Clientset W}.
Context (FormatLabelSelector : metav1.LabelSelector → string) (version_string : string).
(** The decoder of YAML ([None]: an object other than a job), and the number of
    prerelease parts of a semantic version. *)
Context (decode : string → error + option Job) (semver_Parse : string → error + nat).

Record vz_state := mkVzState { vi : K8sVizierInfo; cluster : W }.

Definition k8s {A} (m : M W A) : M vz_state A := zoom cluster (λ w s, mkVzState (vi s) w) m.
Definition the_ns : M vz_state string := s ← get_state; mret (ns (vi s)).

Definition getK8sVersion : M W string :=
  _ ← InClusterConfig;
  _ ← NewDiscoveryClientForConfig;
  ServerVersion.

Definition NewK8sVizierInfo (clusterName ns : string) : M W K8sVizierInfo :=
  _ ← InClusterConfig;
  _ ← NewForConfig;
  _ ← versioned_NewForConfig;
  mret (mkK8sVizierInfo ns "" clusterName None None zero_time 0 0).

Definition GetClusterUID : M vz_state string := k8s (Namespaces_GetUID "kube-system").

Definition GetVizierClusterInfo : M vz_state cloudpb.VizierClusterInfo :=
  clusterUID ← GetClusterUID;
  s ← get_state;
  mret (cloudpb.mkVizierClusterInfo clusterUID (clusterName (vi s)) version_string).

Definition GetVizierPodLogs (podName : string) (previous : bool) (container : string) : M vz_state string :=
  ns ← the_ns;
  k8s (Pods_GetLogs ns podName previous container).

(** [podPb.Status] is followed before it is compared with nil. *)
Definition toVizierPodStatus {S} (p : v1.Pod) : M S debugpb.VizierPodStatus :=
  let podPb := PodToProto p in
  md ← deref (pod_Metadata podPb);
  st ← deref (pod_Status podPb);
  mret (debugpb.mkVizierPodStatus (md_Namespace md +:+ "/" +:+ md_Name md) (convertPodPhase (pst_Phase st))
          (pst_Message st) (pst_Reason st) (md_CreationTimestampNS md)
          ((λ c, debugpb.mkContainerStatus (cst_Name c) (convertContainerState (cst_ContainerState c)) (cst_Message c)
                   (cst_Reason c) (cst_StartTimestampNS c) (cst_RestartCount c)) <$> pst_ContainerStatuses st)
          (pst_RestartCount st)).

Fixpoint mapM_ {S A B} (f : A → M S B) (l : list A) : M S (list B) :=
  match l with [] => mret [] | x :: l => y ← f x; ys ← mapM_ f l; mret (y :: ys) end.

(** The error of the second listing is returned at the end. *)
Definition GetVizierPods : M vz_state (list debugpb.VizierPodStatus * list debugpb.VizierPodStatus) :=
  ns ← the_ns;
  let select plane := FormatLabelSelector (metav1.mkLabelSelector (<["plane" := plane]> (metav1.MatchLabels VizierLabelSelector))
                                             (metav1.MatchExpressions VizierLabelSelector)) in
  rawControlPodsList ← k8s (Pods_List ns (select "control"));
  rawDataPodsList ← try (k8s (Pods_List ns (select "data")));
  controlPods ← mapM_ toVizierPodStatus rawControlPodsList;
  match rawDataPodsList with
  | inr pods => dataPods ← mapM_ toVizierPodStatus pods; mret (controlPods, dataPods)
  | inl err => fail err
  end.

(** The last five events. *)
Definition last_events (items : list k8s_event) : list cloudpb.K8SEvent :=
  (λ e, cloudpb.mkK8SEvent (e_Message e) (nanosToTimestampProto (UnixNano (e_FirstTimestamp e)))
          (nanosToTimestampProto (UnixNano (e_LastTimestamp e)))) <$> drop (length items - 5) items.

Definition containers_of (st : PodStatus) : list cloudpb.ContainerStatus :=
  (λ c, cloudpb.mkContainerStatus (cst_Name c) (cst_ContainerState c) (cst_Message c) (cst_Reason c)
          (nanosToTimestampProto (cst_StartTimestampNS c)) (cst_RestartCount c)) <$> pst_ContainerStatuses st.

Fixpoint getPodStatuses (podList : list v1.Pod) (podMap : gmap string cloudpb.PodStatus)
    : M vz_state (gmap string cloudpb.PodStatus) :=
  match podList with
  | [] => mret podMap
  | p :: podList =>
    let podPb := PodToProto p in
    let '(status, msg, containers) :=
      match pod_Status podPb with
      | Some st => (pst_Phase st, pst_Reason st, containers_of st)
      | None => (PHASE_UNKNOWN, "", [])
      end in
    md ← deref (pod_Metadata podPb);
    let name := md_Name md in
    ns ← the_ns;
    evs ← k8s (Events_List ns name);
    st ← deref (pod_Status podPb);
    getPodStatuses podList (<[name := cloudpb.mkPodStatus name status msg containers
      (nanosToTimestampProto (md_CreationTimestampNS md)) (last_events evs) (pst_RestartCount st)]> podMap)
  end.

Definition getControlPlanePodStatuses : M vz_state (gmap string cloudpb.PodStatus) :=
  ns ← the_ns;
  cpPodsList ← k8s (Pods_List ns "plane=control");
  getPodStatuses cpPodsList ∅.

Definition is_running (p : v1.Pod) : bool := bool_decide (v1.pst_Phase (v1.pod_Status p) = v1.PodRunning).

Definition pod_name (p : v1.Pod) : string := metav1.om_Name (v1.pod_Meta p).

(** [sort.Slice] by name. *)
Fixpoint insert_pod (p : v1.Pod) (l : list v1.Pod) : list v1.Pod :=
  match l with
  | [] => [p]
  | q :: l => if str_ltb (pod_name q) (pod_name p) then q :: insert_pod p l else p :: q :: l
  end.
Definition sort_pods (l : list v1.Pod) : list v1.Pod := foldr insert_pod [] l.

Definition maxUnhealthyDataPlanePods : nat := 10.

(** The loop that adds unhealthy PEMs to the sample. *)
Fixpoint add_pems (unhealthyPEMPods unhealthyDataPlanePods : list v1.Pod) : list v1.Pod :=
  match unhealthyPEMPods with
  | [] => unhealthyDataPlanePods
  | p :: ps =>
    if (length unhealthyDataPlanePods <=? maxUnhealthyDataPlanePods)%nat then unhealthyDataPlanePods
    else add_pems ps (unhealthyDataPlanePods ++ [p])
  end.

Definition getDataPlaneState : M vz_state (Z * Z * gmap string cloudpb.PodStatus) :=
  nodesList ← k8s Nodes_List;
  ns ← the_ns;
  kelvinPodsList ← k8s (Pods_List ns "name=kelvin");
  let unhealthyDataPlanePods := List.filter (λ p, negb (is_running p)) kelvinPodsList in
  pemPodsList ← k8s (Pods_List ns "name=vizier-pem");
  let healthyPemCount := length (List.filter is_running pemPodsList) in
  let unhealthyPEMPods := List.filter (λ p, negb (is_running p)) pemPodsList in
  statuses ← getPodStatuses (add_pems (sort_pods unhealthyPEMPods) unhealthyDataPlanePods) ∅;
  mret (to_int32 (Z.of_nat (length nodesList)), to_int32 (Z.of_nat healthyPemCount), statuses).

Definition update_info (f : K8sVizierInfo → K8sVizierInfo) : M vz_state unit := modify (λ s, mkVzState (f (vi s)) (cluster s)).

(** The errors are logged; [now] is the time after the calls. *)
Definition UpdateK8sState (now : Z) : M vz_state unit :=
  logged (
    controlPlanePods ← getControlPlanePodStatuses;
    dp ← getDataPlaneState;
    clusterVersion ← k8s getK8sVersion;
    update_info (λ v, mkK8sVizierInfo (ns v) clusterVersion (clusterName v) (Some controlPlanePods) (Some dp.2)
                        now dp.1.1 dp.1.2)).

(** The clone holds the same pointers; the statuses are not changed once built. *)
Definition copyPodStatus (podStatuses : cloudpb.pod_statuses) : cloudpb.pod_statuses :=
  match podStatuses with
  | None => None
  | Some m => Some (foldr (λ '(k, v) (clone : gmap string cloudpb.PodStatus), <[k := v]> clone) ∅ (map_to_list m))
  end.

Definition GetK8sState : M vz_state K8sState :=
  s ← get_state;
  let v := vi s in
  mret (mkK8sState (copyPodStatus (controlPlanePodStatuses v)) (copyPodStatus (unhealthyDataPlanePodStatuses v))
          (clusterVersion v) (numNodes v) (numInstrumentedNodes v) (k8sStateLastUpdated v)).

(** ** The update job *)

(** [semver.MustParse]. *)
Definition MustParse {S} (v : string) : M S nat :=
  match semver_Parse v with inr pre => mret pre | inl e => panic (PanicMsg (error_string e)) end.

Definition tag_image {S} (image val : string) : M S string :=
  imgPath ← index (split ":" image) 0;
  pre ← MustParse val;
  let imgPath := if (0 <? pre)%nat && HasPrefix imgPath publicImageRepo
                 then replace_prefix imgPath publicImageRepo privateImageRepo else imgPath in
  mret (imgPath +:+ ":" +:+ val).

Definition substitute {S} (imageTag envSubtitutions : gmap string string) (c : Container) : M S Container :=
  image ← match imageTag !! c_Name c with Some val => tag_image (c_Image c) val | None => mret (c_Image c) end;
  mret (mkContainer (c_Name c) image
          ((λ e, match envSubtitutions !! env_Name e with Some val => mkEnvVar (env_Name e) val | None => e end) <$> c_Env c)).

Definition ParseJobYAML {S} (yamlStr : string) (imageTag envSubtitutions : gmap string string) : M S Job :=
  obj ← lift_sum (decode yamlStr);
  match obj with
  | None => fail (ErrMsg "YAML could not be decoded to job")
  | Some job =>
    containers ← mapM_ (substitute imageTag envSubtitutions) (job_Containers job);
    mret (mkJob (job_Name job) (job_OwnerReferences job) containers (job_CompletionTime job) (job_Failed job) (job_Succeeded job))
  end.

Definition LaunchJob (j : Job) : M vz_state Job := ns ← the_ns; k8s (Jobs_Create ns j).

Definition CreateSecret (name : string) (literals : gmap string string) : M vz_state unit :=
  ns ← the_ns;
  _ ← logged (k8s (Secrets_Delete ns name));
  k8s (Secrets_Create ns (mkSecret name (Some literals))).

Definition DeleteJob (name : string) : M vz_state unit := ns ← the_ns; k8s (Jobs_Delete ns name).
Definition GetJob (name : string) : M vz_state Job := ns ← the_ns; k8s (Jobs_Get ns name).

(** The jobs of a cron job that have succeeded. *)
Definition cleanable (cronJob : string) (j : Job) : bool :=
  match job_OwnerReferences j with
  | [] => false
  | o :: _ => bool_decide (metav1.Name o = cronJob) && (job_Succeeded j =? 1)%Z
  end.

Definition cleanup_tick (cronJob : string) : M vz_state unit :=
  ns ← the_ns;
  jobs ← try (k8s (Jobs_List ns));
  match jobs with
  | inl _ => mret tt
  | inr jobs => forM_ jobs (λ j, if cleanable cronJob j then logged (k8s (Jobs_Delete ns (job_Name j))) else mret tt)
  end.

(** [ticks] ticks of the ticker before [quitCh] is closed. *)
Fixpoint CleanupCronJob (cronJob : string) (ticks : nat) : M vz_state unit :=
  match ticks with
  | O => mret tt
  | S n => _ ← cleanup_tick cronJob; CleanupCronJob cronJob n
  end.

(** The loop over the events of the watch. *)
Fixpoint job_result (events : list (option Job)) : bool :=
  match events with
  | [] => true
  | Some o :: events =>
    if match job_CompletionTime o with Some t => negb (t =? zero_time)%Z | None => false end then true
    else if (0 <? job_Failed o)%Z then false
    else job_result events
  | None :: events => job_result events
  end.

Definition WaitForJobCompletion (name : string) : M vz_state bool :=
  ns ← the_ns;
  events ← k8s (Jobs_Watch ns name);
  mret (job_result events).

(** ** Identity of the cluster *)

Definition set_data {S} (k v : string) (s : Secret) : M S Secret :=
  match sec_Data s with
  | Some d => mret (mkSecret (sec_Name s) (Some (<[k := v]> d)))
  | None => panic (PanicMsg "assignment to entry in nil map")
  end.

Definition UpdateClusterID (id : string) : M vz_state unit :=
  ns ← the_ns;
  s ← k8s (Secrets_Get ns "pl-cluster-secrets");
  s ← set_data "cluster-id" id s;
  k8s (Secrets_Update ns s).

Definition UpdateClusterName (id : string) : M vz_state unit :=
  ns ← the_ns;
  s ← k8s (Secrets_Get ns "pl-cluster-secrets");
  s ← set_data "cluster-name" id s;
  k8s (Secrets_Update ns s).

Definition annotate (id : string) (p : v1.Pod) : v1.Pod :=
  let o := v1.pod_Meta p in
  v1.mkPod (metav1.mkObjectMeta (metav1.om_Name o) (metav1.om_Namespace o) (metav1.om_UID o) (metav1.om_ResourceVersion o)
              (Some (<["cluster-id" := id]> (default ∅ (metav1.om_Labels o)))) (metav1.om_CreationTimestamp o)
              (metav1.om_DeletionTimestamp o) (metav1.om_OwnerReferences o)
              (Some (<["cluster-id" := id]> (default ∅ (metav1.om_Annotations o)))))
    (v1.pod_Spec p) (v1.pod_Status p).

Definition UpdateClusterIDAnnotation (id : string) : M vz_state unit :=
  ns ← the_ns;
  ccPodsList ← k8s (Pods_List ns "name=vizier-cloud-connector");
  match ccPodsList with
  | [] => mret tt
  | ccPod :: _ => k8s (Pods_Update ns (annotate id ccPod))
  end.

(** ** The Vizier resource *)

Definition GetVizierCRD : M vz_state v1alpha1.Vizier :=
  ns ← the_ns;
  viziers ← k8s (Viziers_List ns);
  match viziers with
  | vz :: _ => mret vz
  | [] => fail (ErrMsg "No vizier CRD found")
  end.

Definition UpdateCRDVizierVersion (version : string) : M vz_state bool :=
  vz ← GetVizierCRD;
  if bool_decide (v1alpha1.vz_Version vz = version) then mret false
  else
    ns ← the_ns;
    _ ← k8s (Viziers_Update ns (v1alpha1.mkVizier version (v1alpha1.vz_Status vz)));
    mret true.
End vzinfo.

(** ** The sample of unhealthy pods *)

(** The loop stops at once unless more than ten pods are in the sample already; then
    it adds all PEMs. *)
Lemma add_pems_spec pems pods :
  add_pems pems pods = if (length pods <=? maxUnhealthyDataPlanePods)%nat then pods else pods ++ pems.
Proof.
  revert pods. induction pems as [|p pems IH]; intros pods; cbn [add_pems].
  { rewrite app_nil_r. by destruct (_ <=? _)%nat. }
  destruct (length pods <=? maxUnhealthyDataPlanePods)%nat eqn:E; [done|].
  rewrite IH, length_app. apply Nat.leb_gt in E. rewrite (proj2 (Nat.leb_gt _ _)) by (cbn; lia). by rewrite <- app_assoc.
Qed.

Lemma insert_pod_perm p l : insert_pod p l ≡ₚ p :: l.
Proof. induction l as [|q l IH]; [done|]. cbn. destruct (str_ltb _ _); [|done]. rewrite IH. constructor. Qed.

Lemma sort_pods_perm l : sort_pods l ≡ₚ l.
Proof. induction l as [|p l IH]; [done|]. cbn [sort_pods foldr]. rewrite insert_pod_perm. by constructor. Qed.

Lemma copyPodStatus_id m : copyPodStatus m = m.
Proof.
  destruct m as [m|]; [|done]. cbn. f_equal.
  rewrite <- (list_to_map_to_list m) at 2. induction (map_to_list m) as [|[k v] l IH]; [done|]. cbn. by rewrite IH.
Qed.

(** ** Timestamps *)

Definition timestamp_nanos (t : cloudpb.Timestamp) : Z := (cloudpb.Seconds t * nanosPerSecond + cloudpb.Nanos t)%Z.

Lemma timestamp_roundtrip n : timestamp_nanos (nanosToTimestampProto n) = n ∧ (Z.abs (cloudpb.Nanos (nanosToTimestampProto n)) < nanosPerSecond)%Z.
Proof.
  unfold timestamp_nanos, nanosToTimestampProto. cbn [cloudpb.Seconds cloudpb.Nanos].
  assert (Hr : (Z.abs (Z.rem n nanosPerSecond) < nanosPerSecond)%Z) by (pose proof (Z.rem_bound_abs n nanosPerSecond); unfold nanosPerSecond in *; lia).
  assert (Hi : to_int32 (Z.rem n nanosPerSecond) = Z.rem n nanosPerSecond).
  { unfold to_int32. unfold nanosPerSecond in *. rewrite Z.mod_small; lia. }
  rewrite Hi. split; [|done]. pose proof (Z.quot_rem' n nanosPerSecond). lia.
Qed.

(** ** The state of the cluster *)

(** Clients whose read calls succeed: what they return is a function of the cluster. *)
Class ReadsSpec (W : Type) `{!Clientset W} (pods : W → string → string → list v1.Pod) (events : W → string → string → list k8s_event)
    (nodes : W → list v1.Node) (version : W → string) : Prop := {
  reads_pods w ns sel : Pods_List ns sel w = (Ret (pods w ns sel), w);
  reads_events w ns name : Events_List ns name w = (Ret (events w ns name), w);
  reads_nodes w : Nodes_List w = (Ret (nodes w), w);
  reads_version w : getK8sVersion w = (Ret (version w), w)
}.

Section reads.
Context {W : Type} `{!Clientset W} {pods events nodes version} `{!ReadsSpec W pods events nodes version}.
Implicit Types s : vz_state (W := W).

Lemma k8s_read {A} (m : M W A) a s : m (cluster s) = (Ret a, cluster s) → k8s m s = (Ret a, s).
Proof. intros H. unfold k8s, zoom. rewrite H. by destruct s. Qed.

(** The status of one pod. *)
Definition status_of (s : vz_state (W := W)) (p : v1.Pod) : cloudpb.PodStatus :=
  let md := ObjectMetadataToProto (v1.pod_Meta p) in
  let st := status_in_message (md_DeletionTimestampNS md) (v1.pod_Status p) in
  cloudpb.mkPodStatus (pod_name p) (pst_Phase st) (pst_Reason st) (containers_of st)
    (nanosToTimestampProto (md_CreationTimestampNS md)) (last_events (events (cluster s) (ns (vi s)) (pod_name p))) (pst_RestartCount st).

Lemma getPodStatuses_run l m s :
  getPodStatuses l m s = (Ret (foldl (λ m p, <[pod_name p := status_of s p]> m) m l), s).
Proof using ReadsSpec0.
  revert m. induction l as [|p l IH]; intros m; [done|]. cbn [getPodStatuses foldl]. rewrite pod_status_in_message.
  cbn [PodToProto pod_Metadata pod_Status]. run_steps. unfold the_ns.
  rewrite (bind_ret (get_state ≫= _) _ s (ns (vi s)) s eq_refl).
  rewrite (bind_ret _ _ _ _ _ (k8s_read _ _ s (reads_events _ _ _))). run_steps. rewrite IH. done.
Qed.

Definition statuses_of s (l : list v1.Pod) : gmap string cloudpb.PodStatus := foldl (λ m p, <[pod_name p := status_of s p]> m) ∅ l.

Lemma statuses_dom s l : dom (statuses_of s l) = list_to_set (pod_name <$> l).
Proof.
  unfold statuses_of. assert (∀ m : gmap string cloudpb.PodStatus, dom (foldl (λ m p, <[pod_name p := status_of s p]> m) m l) = list_to_set (pod_name <$> l) ∪ dom m) as H.
  { induction l as [|p l IH]; intros m; cbn; [set_solver|]. rewrite IH, dom_insert_L. set_solver. }
  rewrite H, dom_empty_L. set_solver.
Qed.

(** The pods whose statuses are sampled. *)
Definition sampled s : list v1.Pod :=
  let kelvins := List.filter (λ p, negb (is_running p)) (pods (cluster s) (ns (vi s)) "name=kelvin") in
  if (length kelvins <=? maxUnhealthyDataPlanePods)%nat then kelvins
  else kelvins ++ sort_pods (List.filter (λ p, negb (is_running p)) (pods (cluster s) (ns (vi s)) "name=vizier-pem")).

Lemma getDataPlaneState_run s :
  getDataPlaneState s =
    (Ret (to_int32 (Z.of_nat (length (nodes (cluster s)))),
          to_int32 (Z.of_nat (length (List.filter is_running (pods (cluster s) (ns (vi s)) "name=vizier-pem")))),
          statuses_of s (sampled s)), s).
Proof using ReadsSpec0.
  unfold getDataPlaneState, the_ns. run_with (k8s_read _ _ s (reads_nodes _)).
  rewrite (bind_ret (get_state ≫= _) _ s (ns (vi s)) s eq_refl).
  run_with (k8s_read _ _ s (reads_pods (cluster s) (ns (vi s)) "name=kelvin")).
  run_with (k8s_read _ _ s (reads_pods (cluster s) (ns (vi s)) "name=vizier-pem")).
  rewrite (bind_ret _ _ _ _ _ (getPodStatuses_run _ _ _)). rewrite add_pems_spec. done.
Qed.

(** What a refresh leaves to be read. *)
Definition state_of (now : Z) s : K8sState :=
  mkK8sState (Some (statuses_of s (pods (cluster s) (ns (vi s)) "plane=control"))) (Some (statuses_of s (sampled s)))
    (version (cluster s)) (to_int32 (Z.of_nat (length (nodes (cluster s)))))
    (to_int32 (Z.of_nat (length (List.filter is_running (pods (cluster s) (ns (vi s)) "name=vizier-pem"))))) now.

Lemma UpdateK8sState_run now s :
  ∃ s', UpdateK8sState now s = (Ret tt, s') ∧ GetK8sState s' = (Ret (state_of now s), s') ∧ cluster s' = cluster s ∧ ns (vi s') = ns (vi s).
Proof using ReadsSpec0.
  eexists. split.
  - unfold UpdateK8sState, logged. etrans; [eapply (try_bind_ret _ _ s tt)|reflexivity].
    assert (E : getControlPlanePodStatuses s = (Ret (statuses_of s (pods (cluster s) (ns (vi s)) "plane=control")), s)).
    { unfold getControlPlanePodStatuses, the_ns. rewrite (bind_ret (get_state ≫= _) _ s (ns (vi s)) s eq_refl).
      run_with (k8s_read _ _ s (reads_pods (cluster s) (ns (vi s)) "plane=control")). by rewrite getPodStatuses_run. }
    run_with E. run_with (getDataPlaneState_run s). run_with (k8s_read _ _ s (reads_version _)). reflexivity.
  - unfold GetK8sState. rewrite get_bind, !copyPodStatus_id. done.
Qed.

(** A refresh of the state reports the unhealthy Kelvins and, unless there are more
    than ten of them, no unhealthy PEM, however many there are. *)
Theorem unhealthy_pems_not_reported now s :
  (length (List.filter (λ p, negb (is_running p)) (pods (cluster s) (ns (vi s)) "name=kelvin")) <= maxUnhealthyDataPlanePods)%nat →
  ∃ s' st, UpdateK8sState now s = (Ret tt, s') ∧ GetK8sState s' = (Ret st, s') ∧
    dom <$> UnhealthyDataPlanePodStatuses st = Some
      (list_to_set (pod_name <$> List.filter (λ p, negb (is_running p)) (pods (cluster s) (ns (vi s)) "name=kelvin")) : gset string).
Proof using ReadsSpec0.
  intros Hk. destruct (UpdateK8sState_run now s) as (s' & E & Eg & _). exists s', (state_of now s). split_and!; [done..|].
  cbn. rewrite statuses_dom. unfold sampled. by rewrite (proj2 (Nat.leb_le _ _) Hk).
Qed.
End reads.

(** A refresh that fails changes nothing that is read. *)
Section atomic.
Context {W : Type} `{!Clientset W}.

Definition keeps_info {A} (m : M (vz_state (W := W)) A) : Prop := ∀ s, vi (m s).2 = vi s.

Lemma keeps_info_bind {A B} (m : M vz_state A) (k : A → M vz_state B) :
  keeps_info m → (∀ a, keeps_info (k a)) → keeps_info (m ≫= k).
Proof.
  intros Hm Hk s. unfold mbind, M_bind. specialize (Hm s). destruct (m s) as [[a|e|c] s1]; cbn in *; [|done..].
  by rewrite Hk.
Qed.
Lemma keeps_k8s {A} (m : M W A) : keeps_info (k8s m).
Proof. intros s. unfold k8s, zoom. by destruct (m (cluster s)) as [[?|?|?] ?]. Qed.
Lemma keeps_ns : keeps_info the_ns.
Proof. by intros s. Qed.
Lemma keeps_info_ret {A} (a : A) : keeps_info (mret a).
Proof. by intros s. Qed.
Lemma keeps_info_deref {A} (p : option A) : keeps_info (deref p).
Proof. intros s. by destruct p. Qed.
Create HintDb keeps.
Hint Resolve keeps_k8s keeps_ns keeps_info_ret keeps_info_deref : keeps.

Lemma keeps_getPodStatuses l m : keeps_info (getPodStatuses l m).
Proof.
  revert m. induction l as [|p l IH]; intros m; [apply keeps_info_ret|]. cbn [getPodStatuses].
  destruct (match pod_Status (PodToProto p) with Some _ => _ | None => _ end) as [[status msg] containers].
  repeat (apply keeps_info_bind; [auto with keeps|intros]). apply IH.
Qed.
Hint Resolve keeps_getPodStatuses : keeps.

Lemma keeps_getControlPlane : keeps_info getControlPlanePodStatuses.
Proof. repeat (apply keeps_info_bind; [auto with keeps|intros]). auto with keeps. Qed.

Lemma keeps_getDataPlane : keeps_info getDataPlaneState.
Proof. repeat (apply keeps_info_bind; [auto with keeps|intros]). auto with keeps. Qed.
Hint Resolve keeps_getControlPlane keeps_getDataPlane : keeps.

(** Either nothing changes, or everything does at once, with the time. *)
Lemma k8s_state_atomic now (s s' : vz_state (W := W)) o :
  UpdateK8sState now s = (o, s') → vi s' = vi s ∨ (o = Ret tt ∧ k8sStateLastUpdated (vi s') = now).
Proof.
  unfold UpdateK8sState, logged. intros H.
  set (m := (cp ← getControlPlanePodStatuses; dp ← getDataPlaneState; cv ← k8s getK8sVersion; mret (cp, dp, cv)) : M (vz_state (W := W)) _).
  assert (Hm : keeps_info m) by (repeat (apply keeps_info_bind; [auto with keeps|intros]); auto with keeps).
  specialize (Hm s). unfold m, try, mbind, M_bind, mret, M_ret in *. clear m.
  destruct (getControlPlanePodStatuses s) as [[cp|?|?] s1]; cbn in *; simplify_eq; try (by left).
  destruct (getDataPlaneState s1) as [[dp|?|?] s2]; cbn in *; simplify_eq; try (by left).
  destruct (k8s getK8sVersion s2) as [[cv|?|?] s3]; cbn in *; simplify_eq; try (by left). by right.
Qed.
End atomic.

(** ** A cluster in memory *)

Module MemK8s.
Record mem_cluster := mkCluster {
  mc_pods : gmap string (list v1.Pod); mc_logs : gmap string string; mc_secrets : gmap string Secret;
  mc_jobs : gmap string Job; mc_watch : list (option Job); mc_viziers : list v1alpha1.Vizier
}.

Definition set_secrets (m : gmap string Secret) (w : mem_cluster) : mem_cluster :=
  mkCluster (mc_pods w) (mc_logs w) m (mc_jobs w) (mc_watch w) (mc_viziers w).
Definition set_jobs (m : gmap string Job) (w : mem_cluster) : mem_cluster :=
  mkCluster (mc_pods w) (mc_logs w) (mc_secrets w) m (mc_watch w) (mc_viziers w).
Definition set_viziers (l : list v1alpha1.Vizier) (w : mem_cluster) : mem_cluster :=
  mkCluster (mc_pods w) (mc_logs w) (mc_secrets w) (mc_jobs w) (mc_watch w) l.

Definition found {A} (what : string) (o : option A) : M mem_cluster A :=
  match o with Some x => mret x | None => fail (ErrMsg (what +:+ " not found")) end.

#[export] Instance mem_clientset : Clientset mem_cluster := {|
  InClusterConfig := mret tt;
  NewForConfig := mret tt;
  versioned_NewForConfig := mret tt;
  NewDiscoveryClientForConfig := mret tt;
  ServerVersion := mret "v1.30";
  Namespaces_GetUID _ := mret "uid";
  Pods_GetLogs _ name _ _ := w ← get_state; found "pod" (mc_logs w !! name);
  Pods_List _ sel := w ← get_state; mret (default [] (mc_pods w !! sel));
  Pods_Update _ _ := mret tt;
  Events_List _ _ := mret [];
  Nodes_List := mret [];
  Secrets_Delete _ name := w ← get_state; _ ← found "secret" (mc_secrets w !! name); put_state (set_secrets (delete name (mc_secrets w)) w);
  Secrets_Create _ s := modify (λ w, set_secrets (<[sec_Name s := s]> (mc_secrets w)) w);
  Secrets_Get _ name := w ← get_state; found "secret" (mc_secrets w !! name);
  Secrets_Update _ s := modify (λ w, set_secrets (<[sec_Name s := s]> (mc_secrets w)) w);
  Jobs_Create _ j := _ ← modify (λ w, set_jobs (<[job_Name j := j]> (mc_jobs w)) w); mret j;
  Jobs_Delete _ name := modify (λ w, set_jobs (delete name (mc_jobs w)) w);
  Jobs_Get _ name := w ← get_state; found "job" (mc_jobs w !! name);
  Jobs_List _ := w ← get_state; mret (map_to_list (mc_jobs w)).*2;
  Jobs_Watch _ _ := w ← get_state; mret (mc_watch w);
  Viziers_List _ := w ← get_state; mret (mc_viziers w);
  Viziers_Update _ vz := modify (set_viziers [vz])
|}.

#[export] Instance mem_reads : ReadsSpec mem_cluster (λ w _ sel, default [] (mc_pods w !! sel)) (λ _ _ _, []) (λ _, []) (λ _, "v1.30").
Proof. by split. Qed.

Definition meta_2 (name : string) : metav1.ObjectMeta := metav1.mkObjectMeta name "pl" name "1" None 7 None [] None.
Definition pod_2 (name : string) (phase : v1.PodPhase) : v1.Pod :=
  v1.mkPod (meta_2 name) (v1.mkPodSpec ∅ "node" "" "" "" v1.DNSClusterFirst None)
    (v1.mkPodStatus "" "" "10.0.0.1" "10.1.0.1" phase [] v1.PodQOSBurstable []).

(** One Kelvin and one PEM, both failing. *)
Definition cluster_1 : mem_cluster :=
  mkCluster (<["name=kelvin" := [pod_2 "kelvin" v1.PodFailed]]> (<["name=vizier-pem" := [pod_2 "pem" v1.PodFailed]]> ∅))
    (<["kelvin" := "started"]> ∅) ∅ ∅ [] [].
Definition vz_1 : vz_state := mkVzState (mkK8sVizierInfo "pl" "" "c" None None zero_time 0 0) cluster_1.

Lemma unhealthy_pems_not_reported_witness :
  ∃ s' st, UpdateK8sState 9 vz_1 = (Ret tt, s') ∧ GetK8sState s' = (Ret st, s') ∧
    dom <$> UnhealthyDataPlanePodStatuses st = Some ({["kelvin"]} : gset string).
Proof.
  destruct (unhealthy_pems_not_reported 9 vz_1) as (s' & st & H1 & H2 & H3); [vm_compute; lia|].
  exists s', st. split_and!; [exact H1|exact H2|]. rewrite H3. vm_compute. reflexivity.
Defined.
End MemK8s.
