(* ===== verification/Bridge.v ===== *)
(** * The bridge between the cluster and the cloud

    [cloud_connector/bridge/server.go]: the cloud connector carries messages between
    the NATS of the cluster and a gRPC stream to the cloud, sends heartbeats, starts
    updates and answers debug requests.  This file has the state and the operations;
    the goroutines that run them are in [BridgeSteps]. *)

From S2P Require Import Prelude GoLib Uuid Messages MessageBus K8sMessages K8sConvert QueryMessages ScriptSource BridgeMessages VizierInfo.
From Stdlib Require Import Ascii.
Import cvmsgspb vzconnpb cloudpb.

(** ** Constants *)

Definition logChunkSize : nat := 500.
Definition operatorMessage : string :=
  "You are running the non-operator version of Pixie. The operator version of Pixie has additional features that help you manage Pixie and keep it up-to-date. To update to the operator-controlled version of Pixie, follow instructions on docs.px.dev to redeploy Pixie with the CLI or Helm Chart. Using the operator version of Pixie is optional and will not affect functionality or data. Note that the operator version of Pixie is not available for air gapped systems.".
Definition HeartbeatTopic : string := "heartbeat".
Definition passthroughReplySubjectPrefix : string := "v2c.reply-".
Definition vizStatusCheckFailInterval : Z := 10 * nanos.
Definition upgradeJobName : string := "vizier-upgrade-job".
Definition VizierMetricsChannel : string := "VZMetrics".
Definition MetricsTopic : string := "Metrics".
Definition ErrRegistrationTimeout : error := ErrMsg "Registration timeout".
(** The capacity of the channels. *)
Definition chan_capacity : nat := 5000.

(** ** What the bridge uses *)

(** The interfaces [VizierInfo], [VizierOperatorInfo] and [VizierHealthChecker], over
    the state [I] of the cluster, and the connection [C] to the cloud. *)
Class VizierInfo (I : Type) := {
  vzi_GetVizierClusterInfo : M I VizierClusterInfo;
  vzi_GetK8sState : M I K8sState;
  vzi_ParseJobYAML : string → gmap string string → gmap string string → M I batchv1.Job;
  vzi_LaunchJob : batchv1.Job → M I batchv1.Job;
  vzi_CreateSecret : string → gmap string string → M I unit;
  vzi_WaitForJobCompletion : string → M I bool;
  vzi_DeleteJob : string → M I unit;
  vzi_GetJob : string → M I batchv1.Job;
  vzi_UpdateClusterID : string → M I unit;
  vzi_UpdateClusterName : string → M I unit;
  vzi_UpdateClusterIDAnnotation : string → M I unit;
  vzi_GetVizierPodLogs : string → bool → string → M I string;
  vzi_GetVizierPods : M I (list debugpb.VizierPodStatus * list debugpb.VizierPodStatus)
}.
Class VizierOperatorInfo (I : Type) := {
  vzo_UpdateCRDVizierVersion : string → M I bool;
  vzo_GetVizierCRD : M I v1alpha1.Vizier
}.
(** The status is nil or an error. *)
Class VizierHealthChecker (I : Type) := { vzh_GetStatus : M I (Z * option error) }.

(** [vzconnpb.VZConnServiceClient] and the stream of [NATSBridge]. *)
Class VZConnServiceClient (C : Type) := {
  vzc_RegisterVizierDeployment : string → RegisterVizierDeploymentRequest → M C RegisterVizierDeploymentResponse;
  vzc_NATSBridge : M C unit;
  stream_Send : V2CBridgeMessage → M C unit
}.

(** ** State *)

(** [vzConnClient] is known by whether it is set; [natsCh] and the other inputs of the
    bridge are the events it handles.  [updaters] counts the goroutines that wait for
    an update job. *)
Record Bridge {uuid : Type} := mkBridge {
  vizierID : uuid;
  assignedClusterName : string;
  jwtSigningKey : string;
  sessionID : Z;
  deployKey : string;
  vzConnClient : bool;
  hbSeqNum : Z;
  grpcOutCh : list V2CBridgeMessage;
  grpcInCh : list (option C2VBridgeMessage);
  ptOutCh : list V2CBridgeMessage;
  pendingGRPCOutMsg : option V2CBridgeMessage;
  quitCh : bool;
  updateRunning : bool;
  updateFailed : bool;
  droppedMessagesBeforeResume : Z;
  updaters : nat
}.
#[global] Arguments Bridge : clear implicits.
#[global] Arguments mkBridge {_}.

Section bridge.
Context `{U : UUIDLib} `{N : NatsConn} {I C : Type}.
Context `{!VizierInfo I} `{!VizierOperatorInfo I} `{!VizierHealthChecker I} `{!VZConnServiceClient C}.
Context `{!Proto C2VMessage} `{!Proto V2CMessage} `{!Proto MetricsMessage}.
Context `{!AnyProto UpdateOrInstallVizierRequest} `{!AnyProto UpdateOrInstallVizierResponse}.
Context `{!AnyProto V2CAPIStreamResponse} `{!AnyProto C2VAPIStreamRequest} `{!AnyProto VizierHeartbeat}.
Context `{!AnyProto RegisterVizierRequest} `{!AnyProto RegisterVizierAck}.
Context {WriteRequest : Type} `{!AnyProto WriteRequest}.
Context (ParsePrometheusTextToWriteReq : string → string → string → error + WriteRequest).
(** The YAML of the update job, the flag of the deployment, and [k8sErrors.IsNotFound]. *)
Context (UpdaterJobYAML : string) (disable_auto_update : bool) (IsNotFound : error → bool).

(** The bridge, its connection to NATS, its cluster and its connection to the cloud. *)
Record bstate := mkBState { br : Bridge uuid; bnc : nconn; ext : I; conn : C }.

Definition on_ext {A} (m : M I A) : M bstate A := zoom ext (λ i s, mkBState (br s) (bnc s) i (conn s)) m.
Definition on_conn {A} (m : M C A) : M bstate A := zoom conn (λ c s, mkBState (br s) (bnc s) (ext s) c) m.
Definition on_br (f : Bridge uuid → Bridge uuid) : M bstate unit := modify (λ s, mkBState (f (br s)) (bnc s) (ext s) (conn s)).
Definition bPublish (topic data : string) : M bstate unit := λ s,
  match nc_Publish topic data (bnc s) with
  | (None, c) => (Ret tt, mkBState (br s) c (ext s) (conn s))
  | (Some e, c) => (Err e, mkBState (br s) c (ext s) (conn s))
  end.

Definition New (vizierID : uuid) (assignedClusterName jwtSigningKey deployKey : string) (sessionID : Z) (client : bool) : Bridge uuid :=
  mkBridge vizierID assignedClusterName jwtSigningKey sessionID deployKey client 0 [] [] [] None false false false 0 0.

(** Field updates. *)
Definition set_vizierID (v : uuid) (b : Bridge uuid) : Bridge uuid :=
  mkBridge v (assignedClusterName b) (jwtSigningKey b) (sessionID b) (deployKey b) (vzConnClient b) (hbSeqNum b) (grpcOutCh b)
    (grpcInCh b) (ptOutCh b) (pendingGRPCOutMsg b) (quitCh b) (updateRunning b) (updateFailed b) (droppedMessagesBeforeResume b) (updaters b).
Definition set_name (v : string) (b : Bridge uuid) : Bridge uuid :=
  mkBridge (vizierID b) v (jwtSigningKey b) (sessionID b) (deployKey b) (vzConnClient b) (hbSeqNum b) (grpcOutCh b)
    (grpcInCh b) (ptOutCh b) (pendingGRPCOutMsg b) (quitCh b) (updateRunning b) (updateFailed b) (droppedMessagesBeforeResume b) (updaters b).
Definition set_client (v : bool) (b : Bridge uuid) : Bridge uuid :=
  mkBridge (vizierID b) (assignedClusterName b) (jwtSigningKey b) (sessionID b) (deployKey b) v (hbSeqNum b) (grpcOutCh b)
    (grpcInCh b) (ptOutCh b) (pendingGRPCOutMsg b) (quitCh b) (updateRunning b) (updateFailed b) (droppedMessagesBeforeResume b) (updaters b).
Definition set_hbSeqNum (v : Z) (b : Bridge uuid) : Bridge uuid :=
  mkBridge (vizierID b) (assignedClusterName b) (jwtSigningKey b) (sessionID b) (deployKey b) (vzConnClient b) v (grpcOutCh b)
    (grpcInCh b) (ptOutCh b) (pendingGRPCOutMsg b) (quitCh b) (updateRunning b) (updateFailed b) (droppedMessagesBeforeResume b) (updaters b).
Definition set_queues (out pt : list V2CBridgeMessage) (pending : option V2CBridgeMessage) (dropped : Z) (b : Bridge uuid) : Bridge uuid :=
  mkBridge (vizierID b) (assignedClusterName b) (jwtSigningKey b) (sessionID b) (deployKey b) (vzConnClient b) (hbSeqNum b) out
    (grpcInCh b) pt pending (quitCh b) (updateRunning b) (updateFailed b) dropped (updaters b).
Definition set_grpcInCh (v : list (option C2VBridgeMessage)) (b : Bridge uuid) : Bridge uuid :=
  mkBridge (vizierID b) (assignedClusterName b) (jwtSigningKey b) (sessionID b) (deployKey b) (vzConnClient b) (hbSeqNum b) (grpcOutCh b)
    v (ptOutCh b) (pendingGRPCOutMsg b) (quitCh b) (updateRunning b) (updateFailed b) (droppedMessagesBeforeResume b) (updaters b).
Definition set_quit (v : bool) (b : Bridge uuid) : Bridge uuid :=
  mkBridge (vizierID b) (assignedClusterName b) (jwtSigningKey b) (sessionID b) (deployKey b) (vzConnClient b) (hbSeqNum b) (grpcOutCh b)
    (grpcInCh b) (ptOutCh b) (pendingGRPCOutMsg b) v (updateRunning b) (updateFailed b) (droppedMessagesBeforeResume b) (updaters b).
Definition set_update (running failed : bool) (waiting : nat) (b : Bridge uuid) : Bridge uuid :=
  mkBridge (vizierID b) (assignedClusterName b) (jwtSigningKey b) (sessionID b) (deployKey b) (vzConnClient b) (hbSeqNum b) (grpcOutCh b)
    (grpcInCh b) (ptOutCh b) (pendingGRPCOutMsg b) (quitCh b) running failed (droppedMessagesBeforeResume b) waiting.
Definition store_running (v : bool) (b : Bridge uuid) : Bridge uuid := set_update v (updateFailed b) (updaters b) b.
(** [go s.WaitForUpdater()]. *)
Definition go_WaitForUpdater (b : Bridge uuid) : Bridge uuid := set_update (updateRunning b) (updateFailed b) (S (updaters b)) b.

(** ** Updates and registration *)

Definition WaitForUpdater : M bstate unit :=
  r ← try (on_ext (vzi_WaitForJobCompletion upgradeJobName));
  match r with
  | inl _ => on_br (store_running false)
  | inr ok =>
    _ ← on_br (λ b, set_update (updateRunning b) (negb ok) (updaters b) b);
    _ ← logged (on_ext (vzi_DeleteJob upgradeJobName));
    on_br (store_running false)
  end.

Definition RegisterDeployment : M bstate unit :=
  s ← get_state;
  clusterInfo ← on_ext vzi_GetVizierClusterInfo;
  resp ← on_conn (vzc_RegisterVizierDeployment (deployKey (br s))
                   (mkRegisterDeploymentRequest (ClusterUID clusterInfo) (ClusterName clusterInfo)));
  let id := UUIDFromProtoOrNil (rd_VizierID resp) in
  _ ← on_br (λ b, set_name (rd_VizierName resp) (set_vizierID id b));
  _ ← on_ext (vzi_UpdateClusterID (uuid_String id));
  on_ext (vzi_UpdateClusterName (rd_VizierName resp)).

(** [fmt.Sprintf("%v")] of a boolean. *)
Definition bool_string (b : bool) : string := if b then "true" else "false".

(** The update by a job, when the cluster has no Vizier resource. *)
Definition launch_update (pb : UpdateOrInstallVizierRequest) : M bstate unit :=
  job ← on_ext (vzi_ParseJobYAML UpdaterJobYAML {["updater" := up_Version pb]}
                  (<["PL_VIZIER_VERSION" := up_Version pb]> {["PL_REDEPLOY_ETCD" := bool_string (up_RedeployEtcd pb)]}));
  _ ← on_ext (vzi_CreateSecret "pl-update-job-secrets" {["cloud-token" := up_Token pb]});
  _ ← on_ext (vzi_LaunchJob job);
  _ ← on_br (store_running true);
  on_br go_WaitForUpdater.

Definition handleUpdateMessage (msg : option Any) : M bstate unit :=
  pb ← lift_sum (UnmarshalAny (T := UpdateOrInstallVizierRequest) msg);
  updating ← try (on_ext (vzo_UpdateCRDVizierVersion (up_Version pb)));
  _ ← match updating with
      | inr updating => if (updating : bool) then on_br (store_running true) else mret tt
      | inl _ => launch_update pb
      end;
  reqAnyMsg ← lift_sum (MarshalAny (mkUpdateResponse true));
  b ← lift_sum (Marshal (mkV2CMessage "" "" 0 (Some reqAnyMsg)));
  bPublish (V2CTopic "VizierUpdateResponse") b.

(** ** Debug requests *)

Definition reply_topic (reqID : string) : string := "v2c.reply-" +:+ reqID.

(** A response wrapped in a [V2CMessage], as bytes. *)
Definition wrap_response (resp : V2CAPIStreamResponse) : error + string :=
  match MarshalAny resp with
  | inl err => inl err
  | inr reqAnyMsg => Marshal (mkV2CMessage "" "" 0 (Some reqAnyMsg))
  end.

Definition status_response (reqID : string) (code : Z) (message : string) : V2CAPIStreamResponse :=
  mkV2CAPIStreamResponse reqID (Some (Status (vizierpb.mkStatus code message []))).

Definition sendPTStatusMessage (reqID : string) (code : Z) (message : string) : M bstate unit :=
  match wrap_response (status_response reqID code message) with
  | inl _ => mret tt
  | inr b => logged (bPublish (reply_topic reqID) b)
  end.

Fixpoint send_responses (reqID : string) (resps : list V2CAPIStreamResponse) : M bstate unit :=
  match resps with
  | [] => mret tt
  | resp :: resps =>
    b ← lift_sum (wrap_response resp);
    _ ← bPublish (reply_topic reqID) b;
    send_responses reqID resps
  end.

Definition sendDebugStreamResponse (reqID : string) (resps : list V2CAPIStreamResponse) : M bstate unit :=
  _ ← send_responses reqID resps;
  sendPTStatusMessage reqID codes.OK "".

(** [logs[i*logChunkSize : min(len(logs), (i+1)*logChunkSize)]]. *)
Definition log_chunk (logs : string) (i : nat) : string :=
  String.substring (i * logChunkSize) (Nat.min (String.length logs) ((i + 1) * logChunkSize) - i * logChunkSize) logs.

(** [for i*logChunkSize <= len(logs)]; the fuel bounds the iterations. *)
Fixpoint chunk_loop {S} (fuel i : nat) (logs : string) : M S (list string) :=
  if (i * logChunkSize <=? String.length logs)%nat then
    match fuel with
    | O => panic Hang
    | Datatypes.S fuel => rest ← chunk_loop fuel (i + 1) logs; mret (log_chunk logs i :: rest)
    end
  else mret [].

(** Enough for every log. *)
Definition chunk_fuel (logs : string) : nat := Datatypes.S (String.length logs / logChunkSize).

Definition chunk_response (reqID data : string) : V2CAPIStreamResponse :=
  mkV2CAPIStreamResponse reqID (Some (DebugLogResp (debugpb.mkDebugLogResponse data))).

(** [status.Errorf]. *)
Definition status_Errorf (code : Z) (msg : string) : error := GrpcStatus code msg.

Definition handleDebugLogRequest (reqID : string) (req : option debugpb.DebugLogRequest) : M bstate unit :=
  match req with
  | None =>
    let err := status_Errorf codes.Internal "DebugLogRequest is unexpectedly nil" in
    _ ← sendPTStatusMessage reqID codes.Internal (error_string err);
    fail err
  | Some req =>
    logs ← try (on_ext (vzi_GetVizierPodLogs (debugpb.PodName req) (debugpb.Previous req) (debugpb.Container req)));
    match logs with
    | inl err => _ ← sendPTStatusMessage reqID codes.NotFound (error_string err); fail err
    | inr logs =>
      chunks ← chunk_loop (chunk_fuel logs) 0 logs;
      sendDebugStreamResponse reqID (chunk_response reqID <$> chunks)
    end
  end.

Definition handleDebugPodsRequest (reqID : string) (req : option debugpb.DebugPodsRequest) : M bstate unit :=
  match req with
  | None =>
    let err := status_Errorf codes.Internal "DebugPodsRequest is unexpectedly nil" in
    _ ← sendPTStatusMessage reqID codes.Internal (error_string err);
    fail err
  | Some _ =>
    pods ← on_ext vzi_GetVizierPods;
    sendDebugStreamResponse reqID
      [mkV2CAPIStreamResponse reqID (Some (DebugPodsResp (debugpb.mkDebugPodsResponse pods.1 pods.2)))]
  end.

(** ** Outgoing messages *)

Definition bridge_message (b : Bridge uuid) (topic : string) (msg : option Any) : V2CBridgeMessage :=
  mkV2CBridgeMessage topic (sessionID b) msg.

(** A full queue drops the message. *)
Definition publishBridgeCh (topic : string) (msg : option Any) : M bstate unit :=
  on_br (λ b,
    if (length (grpcOutCh b) <? chan_capacity)%nat
    then set_queues (grpcOutCh b ++ [bridge_message b topic msg]) (ptOutCh b) (pendingGRPCOutMsg b) 0 b
    else set_queues (grpcOutCh b) (ptOutCh b) (pendingGRPCOutMsg b) (int64 (droppedMessagesBeforeResume b + 1)) b).

(** A full queue blocks the caller. *)
Definition publishPTBridgeCh (topic : string) (msg : option Any) : M bstate unit :=
  s ← get_state;
  if (length (ptOutCh (br s)) <? chan_capacity)%nat
  then on_br (λ b, set_queues (grpcOutCh b) (ptOutCh b ++ [bridge_message b topic msg]) (pendingGRPCOutMsg b)
                     (droppedMessagesBeforeResume b) b)
  else panic Hang.

Definition publishProtoToBridgeCh {T} `{!AnyProto T} (topic : string) (msg : T) : M bstate unit :=
  anyMsg ← lift_sum (MarshalAny msg);
  publishBridgeCh topic (Some anyMsg).

Definition publishBridgeSync {T} `{!AnyProto T} (topic : string) (msg : T) : M bstate unit :=
  anyMsg ← lift_sum (MarshalAny msg);
  s ← get_state;
  on_conn (stream_Send (bridge_message (br s) topic (Some anyMsg))).

Definition handleMetricsMessage (msg : MetricsMessage) : M bstate unit :=
  s ← get_state;
  promWriteReq ← lift_sum (ParsePrometheusTextToWriteReq (PromMetricsText msg) (uuid_String (vizierID (br s))) (mm_PodName msg));
  anyMsg ← lift_sum (MarshalAny promWriteReq);
  publishBridgeCh VizierMetricsChannel (Some anyMsg).

(** The closure [sendMsg] of the writer. *)
Definition set_pending (p : option V2CBridgeMessage) (b : Bridge uuid) : Bridge uuid :=
  set_queues (grpcOutCh b) (ptOutCh b) p (droppedMessagesBeforeResume b) b.

Definition sendMsg (m : option V2CBridgeMessage) : M bstate unit :=
  s ← get_state;
  sent ← match pendingGRPCOutMsg (br s) with
         | None => mret true
         | Some p =>
           r ← try (on_conn (stream_Send p));
           match r with
           | inl _ => mret false
           | inr _ => _ ← on_br (set_pending None); mret true
           end
         end;
  if (sent : bool) then
    match m with
    | None => mret tt
    | Some m =>
      r ← try (on_conn (stream_Send m));
      match r with
      | inl _ => on_br (set_pending (Some m))
      | inr _ => mret tt
      end
    end
  else mret tt.

(** ** Registration of the stream *)

(** What the wait for the acknowledgement ends with; the message comes from
    [grpcInCh]. *)
Inductive handshake_event : Type := StreamContextDone | RegistrationTimeout | FromGrpcInCh.

Definition recv_grpcIn : M bstate (option C2VBridgeMessage) :=
  s ← get_state;
  match grpcInCh (br s) with
  | [] => panic Hang
  | m :: rest => _ ← on_br (set_grpcInCh rest); mret m
  end.

Definition registered (ack : RegisterVizierAck) : M bstate unit :=
  s ← get_state;
  if bool_decide (assignedClusterName (br s) = "") then
    _ ← logged (on_ext (vzi_UpdateClusterName (ack_VizierName ack)));
    on_br (set_name (ack_VizierName ack))
  else mret tt.

Definition doRegistrationHandshake (e : handshake_event) : M bstate unit :=
  info ← try (on_ext vzi_GetVizierClusterInfo);
  let clusterInfo := match info with inr i => Some i | inl _ => None end in
  s ← get_state;
  _ ← publishBridgeSync "register" (mkRegisterVizierRequest (ProtoFromUUID (vizierID (br s))) (jwtSigningKey (br s)) clusterInfo);
  match e with
  | StreamContextDone => fail (ErrMsg "registration unsuccessful: stream closed before complete")
  | RegistrationTimeout => fail ErrRegistrationTimeout
  | FromGrpcInCh =>
    resp ← recv_grpcIn;
    resp ← deref resp;
    registerAck ← lift_sum (UnmarshalAny (T := RegisterVizierAck) (cm_Msg resp));
    match ack_Status registerAck with
    | ST_FAILED_NOT_FOUND => fail (ErrMsg "registration not found, cluster unknown in pixie-cloud")
    | ST_OK => registered registerAck
    | ST_UNKNOWN => panic NilDeref
    end
  end.

(** ** Heartbeats *)

Definition crdPhaseToHeartbeatStatus (phase : string) : VizierStatus :=
  if decide (phase = v1alpha1.VizierPhaseDisconnected) then VZ_ST_DISCONNECTED
  else if decide (phase = v1alpha1.VizierPhaseHealthy) then VZ_ST_HEALTHY
  else if decide (phase = v1alpha1.VizierPhaseUpdating) then VZ_ST_UPDATING
  else if decide (phase = v1alpha1.VizierPhaseUnhealthy) then VZ_ST_UNHEALTHY
  else if decide (phase = v1alpha1.VizierPhaseDegraded) then VZ_ST_DEGRADED
  else VZ_ST_UNKNOWN.

(** [now] is the time when the status is compared. *)
Definition currentStatus (now : Z) : M bstate VizierStatus :=
  s ← get_state;
  if updateRunning (br s) && negb (updateFailed (br s)) then mret VZ_ST_UPDATING
  else if updateFailed (br s) then mret VZ_ST_UPDATE_FAILED
  else
    st ← on_ext vzh_GetStatus;
    if (vizStatusCheckFailInterval <? now - st.1)%Z then mret VZ_ST_UNKNOWN
    else mret (match st.2 with Some _ => VZ_ST_UNHEALTHY | None => VZ_ST_HEALTHY end).

(** The status, message and operator version of a heartbeat, and whether the Vizier
    resource was seen. *)
Definition heartbeat_status (vz : option v1alpha1.Vizier) (status : VizierStatus) (crdSeen : bool)
    : VizierStatus * string * string * bool :=
  match vz with
  | Some vz =>
    let st := v1alpha1.vz_Status vz in
    let vzStatus := crdPhaseToHeartbeatStatus (v1alpha1.vs_VizierPhase st) in
    let status := if bool_decide (vzStatus ≠ VZ_ST_UNKNOWN) then vzStatus else status in
    let status := if bool_decide (v1alpha1.vs_ReconciliationPhase st = v1alpha1.ReconciliationPhaseUpdating)
                  then VZ_ST_UPDATING else status in
    (status, v1alpha1.vs_Message st, v1alpha1.vs_OperatorVersion st, true)
  | None =>
    if bool_decide (status = VZ_ST_HEALTHY) && negb crdSeen then (VZ_ST_DEGRADED, operatorMessage, "", crdSeen)
    else (status, "", "", crdSeen)
  end.

(** The message [sendHeartbeat] builds. *)
Definition make_heartbeat (crdSeen : bool) (now now_unix : Z) : M bstate (VizierHeartbeat * bool) :=
  state ← on_ext vzi_GetK8sState;
  vz ← try (on_ext vzo_GetVizierCRD);
  let vz := match vz with inr vz => Some vz | inl _ => None end in
  status ← currentStatus now;
  let '(status, msg, operatorVersion, crdSeen) := heartbeat_status vz status crdSeen in
  s ← get_state;
  let seq := hbSeqNum (br s) in
  mret (mkVizierHeartbeat (ProtoFromUUID (vizierID (br s))) now_unix seq
          (if (Z.rem seq 12 =? 0)%Z then ControlPlanePodStatuses state else None)
          (UnhealthyDataPlanePodStatuses state) (UnixNano (LastUpdated state)) status (NumNodes state)
          (NumInstrumentedNodes state) disable_auto_update msg (K8sClusterVersion state) operatorVersion, crdSeen).

(** The bridge takes the heartbeat from [hbCh]; the sender then counts it. *)
Definition receive_heartbeat (hbMsg : VizierHeartbeat) : M bstate unit :=
  _ ← on_br (λ b, set_hbSeqNum (int64 (hbSeqNum b + 1)) b);
  publishProtoToBridgeCh HeartbeatTopic hbMsg.

(** The goroutine that sends heartbeats, with the bridge taking each: one at once and
    one per tick, at the given times. *)
Fixpoint generateHeartbeats (ticks : list (Z * Z)) (crdSeen : bool) : M bstate (list VizierHeartbeat) :=
  match ticks with
  | [] => mret []
  | (now, now_unix) :: ticks =>
    hb ← make_heartbeat crdSeen now now_unix;
    _ ← receive_heartbeat hb.1;
    hbs ← generateHeartbeats ticks hb.2;
    mret (hb.1 :: hbs)
  end.

(** ** The bridge *)

Definition parseV2CNatsMsg (subject data : string) : error + (V2CMessage * string) :=
  let v2cPrefix := V2CTopic "" in
  let topic := if HasPrefix subject v2cPrefix
               then String.substring (String.length v2cPrefix) (String.length subject - String.length v2cPrefix) subject
               else subject in
  match Unmarshal (A := V2CMessage) data with
  | inl err => inl err
  | inr v2cMsg => inr (v2cMsg, topic)
  end.

(** A message of NATS on the way to the cloud. *)
Definition handle_nats (subject data : string) : M bstate unit :=
  if negb (HasPrefix subject (V2CTopic "")) then fail (ErrMsg ("invalid subject: " +:+ subject))
  else
    parsed ← lift_sum (parseV2CNatsMsg subject data);
    let '(v2cMsg, topic) := parsed in
    if HasPrefix subject passthroughReplySubjectPrefix
    then publishPTBridgeCh topic (v2c_Msg v2cMsg)
    else publishBridgeCh topic (v2c_Msg v2cMsg).

(** A message of the cloud that goes on to NATS. *)
Definition forward_to_nats (bridgeMsg : C2VBridgeMessage) : M bstate unit :=
  s ← get_state;
  b ← lift_sum (Marshal (mkC2VMessage (uuid_String (vizierID (br s))) (cm_Msg bridgeMsg)));
  bPublish (C2VTopic (cm_Topic bridgeMsg)) b.

(** A message of the cloud; [false] ends the bridge. *)
Definition handle_grpc (bridgeMsg : option C2VBridgeMessage) : M bstate bool :=
  match bridgeMsg with
  | None => mret false
  | Some bridgeMsg =>
    if bool_decide (cm_Topic bridgeMsg = "VizierUpdate") then
      _ ← logged (handleUpdateMessage (cm_Msg bridgeMsg)); mret true
    else if bool_decide (cm_Topic bridgeMsg = "VizierPassthroughRequest") then
      pb ← lift_sum (UnmarshalAny (T := C2VAPIStreamRequest) (cm_Msg bridgeMsg));
      match c2v_Req pb with
      | Some (DebugLogReq r) => _ ← logged (handleDebugLogRequest (c2v_RequestID pb) r); mret true
      | Some (DebugPodsReq r) => _ ← logged (handleDebugPodsRequest (c2v_RequestID pb) r); mret true
      | _ => _ ← forward_to_nats bridgeMsg; mret true
      end
    else _ ← forward_to_nats bridgeMsg; mret true
  end.

Definition handle_nats_metrics (data : string) : M bstate unit :=
  match Unmarshal (A := MetricsMessage) data with
  | inl _ => mret tt
  | inr metricsMsg => logged (handleMetricsMessage metricsMsg)
  end.

(** What the loop of [HandleNATSBridging] receives. *)
Inductive bridge_input : Type :=
| Quit
| FromNats (subject data : string)
| FromGrpc
| FromHeartbeats (hbMsg : VizierHeartbeat)
| FromNatsMetrics (data : string)
| FromMetrics (msg : MetricsMessage).

(** One round of the loop: whether it goes on. *)
Definition HandleNATSBridging (i : bridge_input) : M bstate bool :=
  match i with
  | Quit => mret false
  | FromNats subject data => _ ← handle_nats subject data; mret true
  | FromGrpc => m ← recv_grpcIn; handle_grpc m
  | FromHeartbeats hbMsg => _ ← receive_heartbeat hbMsg; mret true
  | FromNatsMetrics data => _ ← handle_nats_metrics data; mret true
  | FromMetrics msg => _ ← logged (handleMetricsMessage msg); mret true
  end.

(** ** Streams *)

(** One attempt to register: the goroutines it starts read and write the stream. *)
Definition register_attempt (e : handshake_event) : M bstate unit :=
  s ← get_state;
  if quitCh (br s) then mret tt
  else
    _ ← on_conn vzc_NATSBridge;
    doRegistrationHandshake e.

(** [backoff.Retry] over the attempts, until one succeeds or the time is up. *)
Fixpoint retry_register (es : list handshake_event) (last : error) : M bstate unit :=
  match es with
  | [] => fail last
  | e :: es =>
    r ← try (register_attempt e);
    match r with inr _ => mret tt | inl err => retry_register es err end
  end.

(** ** The debug service *)

(** The stream [srv] of a client takes a response or is broken. *)
Context {Srv : Type} (srv_Send : debugpb.DebugLogResponse → M Srv unit)
  (srv_SendPods : debugpb.DebugPodsResponse → M Srv unit).

Definition on_srv {A} (m : M Srv A) : M (bstate * Srv) A := zoom snd (λ v s, (s.1, v)) m.
Definition on_bstate {A} (m : M bstate A) : M (bstate * Srv) A := zoom fst (λ b s, (b, s.2)) m.

(** [i] is never increased. *)
Fixpoint debug_loop (fuel i : nat) (logs : string) : M (bstate * Srv) unit :=
  if (i * logChunkSize <=? String.length logs)%nat then
    match fuel with
    | O => panic Hang
    | Datatypes.S fuel => _ ← on_srv (srv_Send (debugpb.mkDebugLogResponse (log_chunk logs i))); debug_loop fuel i logs
    end
  else mret tt.

Definition DebugLog (fuel : nat) (req : debugpb.DebugLogRequest) : M (bstate * Srv) unit :=
  logs ← on_bstate (on_ext (vzi_GetVizierPodLogs (debugpb.PodName req) (debugpb.Previous req) (debugpb.Container req)));
  debug_loop fuel 0 logs.

Definition DebugPods (req : debugpb.DebugPodsRequest) : M (bstate * Srv) unit :=
  pods ← on_bstate (on_ext vzi_GetVizierPods);
  on_srv (srv_SendPods (debugpb.mkDebugPodsResponse pods.1 pods.2)).

(** ** Status, start and stop *)

(** [vzstatus.VizierReason]. *)
Definition CloudConnectorFailedToConnect : string := "CloudConnectFailed".
Definition CloudConnectorRegistering : string := "CloudConnectorRegistering".

Definition GetStatus (b : Bridge uuid) : string :=
  if negb (vzConnClient b) then CloudConnectorFailedToConnect
  else if bool_decide (vizierID b = uuid_Nil) then CloudConnectorRegistering
  else "".

Definition Stop (b : Bridge uuid) : Bridge uuid := set_quit true b.

(** One tick of the watchdog, with the sequence number of the last one. *)
Definition WatchDog (lastHbSeq : Z) : M bstate Z :=
  s ← get_state;
  if (hbSeqNum (br s) =? lastHbSeq)%Z then panic LogFatal else mret (hbSeqNum (br s)).

(** [log.Fatal] on an error. *)
Definition or_fatal {A} (m : M bstate A) : M bstate A :=
  r ← try m;
  match r with inr a => mret a | inl _ => panic LogFatal end.

(** What [RunStream] does before its loop: [connect] and [connectNats] stand for the
    connections with their retries. *)
Definition run_setup (connect : M bstate unit) (connectNats : M bstate unit) (subscribe : string → M bstate unit) : M bstate unit :=
  _ ← on_br (store_running false);
  s ← get_state;
  _ ← (if negb (vzConnClient (br s)) then _ ← or_fatal connect; on_br (set_client true) else mret tt);
  _ ← or_fatal connectNats;
  _ ← or_fatal (subscribe (V2CTopic "*"));
  _ ← or_fatal (subscribe MetricsTopic);
  job ← try (on_ext (vzi_GetJob upgradeJobName));
  _ ← match job with
      | inr _ => _ ← on_br (store_running true); on_br go_WaitForUpdater
      | inl err => if IsNotFound err then mret tt else panic LogFatal
      end;
  s ← get_state;
  _ ← (if bool_decide (vizierID (br s) = uuid_Nil) then or_fatal RegisterDeployment else mret tt);
  s ← get_state;
  logged (on_ext (vzi_UpdateClusterIDAnnotation (uuid_String (vizierID (br s))))).
End bridge.

(** ** Logs in chunks *)

Lemma substring_split s n k m : String.substring n (k + m) s = String.substring n k s +:+ String.substring (n + k) m s.
Proof.
  revert n k. induction s as [|c s IH]; intros n k.
  - by destruct n as [|n], k as [|k], m as [|m].
  - destruct n as [|n]; [destruct k as [|k]; [done|]|]; cbn; [by rewrite (IH 0%nat k)|apply (IH n k)].
Qed.

Lemma substring_length s n m : (String.length (String.substring n m s) <= m)%nat.
Proof.
  revert n m. induction s as [|c s IH]; intros n m; [destruct n, m; cbn; lia|].
  destruct n as [|n]; [destruct m as [|m]; cbn; [lia|specialize (IH 0%nat m); lia]|apply IH].
Qed.

Definition join_chunks (l : list string) : string := foldr String.append "" l.

Lemma substring_none s n : String.substring n 0 s = "".
Proof. revert n. induction s as [|c s IH]; intros [|n]; [done..|apply IH]. Qed.

(** A chunk and what follows it. *)
Lemma log_chunk_rest logs i : (i * logChunkSize <= String.length logs)%nat →
  log_chunk logs i +:+ String.substring ((i + 1) * logChunkSize) (String.length logs - (i + 1) * logChunkSize) logs =
  String.substring (i * logChunkSize) (String.length logs - i * logChunkSize) logs.
Proof.
  unfold log_chunk. generalize (String.length logs) as len, logChunkSize as c. intros len c Hi.
  destruct (decide ((i + 1) * c <= len)%nat) as [H|H].
  - replace (len - i * c)%nat with ((Nat.min len ((i + 1) * c) - i * c) + (len - (i + 1) * c))%nat by lia.
    rewrite substring_split. do 2 f_equal. lia.
  - replace (len - (i + 1) * c)%nat with 0%nat by lia. rewrite substring_none, Nat.min_l by lia.
    by rewrite str_app_nil_r.
Qed.

(** The chunks from [i] on. *)
Lemma chunk_loop_run {S} logs fuel i (s : S) :
  (i + fuel = String.length logs / logChunkSize + 1)%nat →
  ∃ chunks, chunk_loop fuel i logs s = (Ret chunks, s) ∧ length chunks = fuel ∧
    Forall (λ c, String.length c <= logChunkSize)%nat chunks ∧
    join_chunks chunks = String.substring (i * logChunkSize) (String.length logs - i * logChunkSize) logs.
Proof.
  assert (Hd : ∀ i, (i <= String.length logs / logChunkSize)%nat ↔ (i * logChunkSize <= String.length logs)%nat).
  { intros j. rewrite (Nat.mul_comm j). split; intros H; [|by apply Nat.div_le_lower_bound].
    etrans; [by apply Nat.mul_le_mono_l|]. by apply Nat.Div0.mul_div_le. }
  revert i. induction fuel as [|fuel IH]; intros i Hi; cbn [chunk_loop].
  - rewrite (proj2 (Nat.leb_gt _ _)) by (apply Nat.nle_gt; rewrite <- Hd; lia). exists []. split_and!; [done..|].
    cbn [join_chunks foldr]. replace (String.length logs - i * logChunkSize)%nat with 0%nat; [by rewrite substring_none|].
    assert (¬ (i * logChunkSize <= String.length logs)%nat) by (rewrite <- Hd; lia). lia.
  - assert (Hle : (i * logChunkSize <= String.length logs)%nat) by (apply Hd; lia). rewrite (proj2 (Nat.leb_le _ _) Hle).
    destruct (IH (i + 1)%nat) as (chunks & E & Hlen & Hsz & Hj); [lia|]. run_with E. eexists. split; [done|]. split_and!.
    + cbn. by rewrite Hlen.
    + constructor; [|done]. unfold log_chunk. etrans; [apply substring_length|lia].
    + cbn [join_chunks foldr]. fold (join_chunks chunks). rewrite Hj. by apply log_chunk_rest.
Qed.

Lemma chunks_of_log {S} logs (s : S) :
  ∃ chunks, chunk_loop (chunk_fuel logs) 0 logs s = (Ret chunks, s) ∧ length chunks = chunk_fuel logs ∧
    Forall (λ c, String.length c <= logChunkSize)%nat chunks ∧ join_chunks chunks = logs.
Proof.
  destruct (chunk_loop_run logs (chunk_fuel logs) 0 s) as (chunks & E & Hl & Hs & Hj); [unfold chunk_fuel; lia|].
  exists chunks. split_and!; [done..|]. rewrite Hj, Nat.sub_0_r. apply substring_all.
Qed.
