(* ===== verification/BridgeFacts.v ===== *)
(** * What the operations of the bridge do

    Debug logs reach the client in chunks; the debug service that never ends; the
    registration of a stream; updates and the status in the heartbeats. *)

From S2P Require Import Prelude GoLib Uuid Messages MessageBus K8sMessages K8sConvert QueryMessages ScriptSource BridgeMessages VizierInfo Bridge.
Import cvmsgspb vzconnpb cloudpb.

Section facts.
Context `{U : UUIDLib} `{N : NatsConn} {log up} `{NS : !NatsSpec N log up} {I C : Type}.
Context `{!VizierInfo I} `{!VizierOperatorInfo I} `{!VizierHealthChecker I} `{!VZConnServiceClient C}.
Context `{!Proto V2CMessage} `{!ProtoSpec V2CMessage}.
Context `{!AnyProto V2CAPIStreamResponse} `{!AnyProtoSpec V2CAPIStreamResponse}.
Implicit Types s : bstate (U := U) (N := N) (I := I) (C := C).

(** What the cloud reads from the bytes of a response. *)
Definition read_response (data : string) : error + V2CAPIStreamResponse :=
  match Unmarshal (A := V2CMessage) data with
  | inl err => inl err
  | inr m => UnmarshalAny (v2c_Msg m)
  end.

Lemma wrap_read resp : ∃ b, wrap_response resp = inr b ∧ read_response b = inr resp.
Proof using ProtoSpec0 AnyProtoSpec0.
  destruct (any_roundtrip resp) as (a & Ea & Ea'). exists (enc (mkV2CMessage "" "" 0 (Some a))).
  unfold wrap_response, read_response. by rewrite Ea, Marshal_enc, Unmarshal_enc.
Qed.

(** [s'] is [s] after the messages [ms] were published. *)
Definition published_more (s s' : bstate (U := U) (N := N) (I := I) (C := C)) (ms : list (string * string)) : Prop :=
  br s' = br s ∧ ext s' = ext s ∧ conn s' = conn s ∧ up (bnc s') ∧ log (bnc s') = log (bnc s) ++ ms.

Lemma published_trans s1 s2 s3 ms ms' :
  published_more s1 s2 ms → published_more s2 s3 ms' → published_more s1 s3 (ms ++ ms').
Proof. intros (H1 & H2 & H2' & _ & H3) (H4 & H5 & H5' & H6 & H7). split_and!; [congruence..|done|]. by rewrite H7, H3, app_assoc. Qed.

Lemma bPublish_run topic data s : up (bnc s) → ∃ s', bPublish topic data s = (Ret tt, s') ∧ published_more s s' [(topic, data)].
Proof using NS.
  intros Hup. destruct (nats_Publish (bnc s) topic data Hup) as (c' & E & Hup' & Hlog).
  unfold bPublish. rewrite E. eexists. by split_and!.
Qed.

(** The messages on the topic of a request, as the cloud reads them. *)
Definition replies (reqID : string) (resps : list V2CAPIStreamResponse) (ms : list (string * string)) : Prop :=
  Forall2 (λ resp m, m.1 = reply_topic reqID ∧ read_response m.2 = inr resp) resps ms.

Lemma send_responses_run reqID resps s : up (bnc s) →
  ∃ s' ms, send_responses reqID resps s = (Ret tt, s') ∧ published_more s s' ms ∧ replies reqID resps ms.
Proof using NS ProtoSpec0 AnyProtoSpec0.
  revert s. induction resps as [|resp resps IH]; intros s Hup.
  { exists s, []. split; [done|]. split; [|constructor]. split; [done|]. split_and!; [done..|by rewrite app_nil_r]. }
  destruct (wrap_read resp) as (b & Eb & Er). cbn [send_responses]. rewrite Eb. run_with (lift_sum_ret (inr b) b s eq_refl).
  destruct (bPublish_run (reply_topic reqID) b s Hup) as (s1 & E1 & H1). run_with E1.
  destruct (IH s1) as (s2 & ms & E2 & H2 & Hr); [apply H1|]. exists s2, ((reply_topic reqID, b) :: ms).
  split_and!; [done|by eapply (published_trans s s1 s2 [_])|]. by constructor.
Qed.

Lemma send_status_run reqID code msg s : up (bnc s) →
  ∃ s' ms, sendPTStatusMessage reqID code msg s = (Ret tt, s') ∧ published_more s s' ms ∧
    replies reqID [status_response reqID code msg] ms.
Proof using NS ProtoSpec0 AnyProtoSpec0.
  intros Hup. destruct (wrap_read (status_response reqID code msg)) as (b & Eb & Er). unfold sendPTStatusMessage. rewrite Eb.
  destruct (bPublish_run (reply_topic reqID) b s Hup) as (s1 & E1 & H1). exists s1, [(reply_topic reqID, b)].
  unfold logged. rewrite (try_bind_ret _ _ _ _ _ E1). split_and!; [done|apply H1..|]. by repeat constructor.
Qed.

(** The logs the cluster gives without being changed. *)
Definition pod_logs (req : debugpb.DebugLogRequest) (i : I) (logs : string) : Prop :=
  vzi_GetVizierPodLogs (debugpb.PodName req) (debugpb.Previous req) (debugpb.Container req) i = (Ret logs, i).

Lemma on_ext_read {A} (m : M I A) a s : m (ext s) = (Ret a, ext s) → on_ext m s = (Ret a, s).
Proof. intros H. unfold on_ext, zoom. rewrite H. by destruct s. Qed.

(** The answer to a request for the log of a pod is the log in order, in chunks of at
    most 500 bytes, followed by the status OK, all on the topic of the request. *)
Theorem debug_log_delivered reqID req logs s :
  up (bnc s) → pod_logs req (ext s) logs →
  ∃ s' ms chunks, handleDebugLogRequest reqID (Some req) s = (Ret tt, s') ∧ published_more s s' ms ∧
    replies reqID ((chunk_response reqID <$> chunks) ++ [status_response reqID codes.OK ""]) ms ∧
    join_chunks chunks = logs ∧ Forall (λ c, String.length c <= logChunkSize)%nat chunks.
Proof using NS ProtoSpec0 AnyProtoSpec0.
  intros Hup Hl. unfold handleDebugLogRequest. rewrite (try_bind_ret _ _ _ _ _ (on_ext_read _ _ s Hl)).
  destruct (chunks_of_log logs s) as (chunks & Ec & _ & Hsz & Hj). run_with Ec. unfold sendDebugStreamResponse.
  destruct (send_responses_run reqID (chunk_response reqID <$> chunks) s Hup) as (s1 & ms & E1 & H1 & R1). run_with E1.
  destruct (send_status_run reqID codes.OK "" s1) as (s2 & ms' & E2 & H2 & R2); [apply H1|].
  exists s2, (ms ++ ms'), chunks. split_and!; [done|by eapply published_trans| |done|done]. by apply Forall2_app.
Qed.

(** A request whose logs cannot be read is answered with a status. *)
Lemma debug_log_not_found reqID req err i' s :
  up (bnc s) → vzi_GetVizierPodLogs (debugpb.PodName req) (debugpb.Previous req) (debugpb.Container req) (ext s) = (Err err, i') →
  ∃ s' ms, handleDebugLogRequest reqID (Some req) s = (Err err, s') ∧ log (bnc s') = log (bnc s) ++ ms ∧
    replies reqID [status_response reqID codes.NotFound (error_string err)] ms.
Proof using NS ProtoSpec0 AnyProtoSpec0.
  intros Hup Hl. unfold handleDebugLogRequest.
  assert (E : on_ext (vzi_GetVizierPodLogs (debugpb.PodName req) (debugpb.Previous req) (debugpb.Container req)) s = (Err err, mkBState (br s) (bnc s) i' (conn s))).
  { unfold on_ext, zoom. by rewrite Hl. }
  rewrite (try_bind_err _ _ _ _ _ E).
  destruct (send_status_run reqID codes.NotFound (error_string err) (mkBState (br s) (bnc s) i' (conn s)) Hup) as (s2 & ms & E2 & (_ & _ & _ & _ & Hlog) & R2).
  exists s2, ms. by run_with E2.
Qed.

(** The pods cannot be listed: the request gets no answer at all. *)
Lemma debug_pods_unanswered reqID req err i' s :
  vzi_GetVizierPods (ext s) = (Err err, i') →
  ∃ s', handleDebugPodsRequest reqID (Some req) s = (Err err, s') ∧ bnc s' = bnc s.
Proof.
  intros Hl. unfold handleDebugPodsRequest.
  assert (E : on_ext vzi_GetVizierPods s = (Err err, mkBState (br s) (bnc s) i' (conn s))) by (unfold on_ext, zoom; by rewrite Hl).
  eexists. split; [exact (bind_err _ _ _ _ _ E)|done].
Qed.

(** ** The debug service *)

Section srv.
Context {Srv : Type} (srv_Send : debugpb.DebugLogResponse → M Srv unit).
Context (received : Srv → list debugpb.DebugLogResponse).
Context (send_ok : ∀ r v, ∃ v', srv_Send r v = (Ret tt, v') ∧ received v' = received v ++ [r]).

Lemma debug_loop_run logs fuel s v :
  ∃ v', debug_loop srv_Send fuel 0 logs (s, v) = (Crash Hang, (s, v')) ∧
    received v' = received v ++ replicate fuel (debugpb.mkDebugLogResponse (log_chunk logs 0)).
Proof using send_ok.
  revert v. induction fuel as [|fuel IH]; intros v; cbn [debug_loop Nat.mul Nat.leb replicate].
  { exists v. split; [done|]. by rewrite app_nil_r. }
  destruct (send_ok (debugpb.mkDebugLogResponse (log_chunk logs 0)) v) as (v1 & E & Hr).
  assert (E' : on_srv (srv_Send (debugpb.mkDebugLogResponse (log_chunk logs 0))) (s, v) = (Ret tt, (s, v1))).
  { unfold on_srv, zoom. cbn. by rewrite E. }
  run_with E'. destruct (IH v1) as (v2 & E2 & H2). exists v2. split; [done|]. by rewrite H2, Hr, <- app_assoc.
Qed.

(** The debug service never ends the stream of a log as long as its client receives:
    however long it runs, it has sent the first chunk again and again. *)
Theorem debug_log_never_ends req logs s v fuel :
  pod_logs req (ext s) logs →
  ∃ v', DebugLog srv_Send fuel req (s, v) = (Crash Hang, (s, v')) ∧
    received v' = received v ++ replicate fuel (debugpb.mkDebugLogResponse (log_chunk logs 0)).
Proof using send_ok.
  intros Hl. unfold DebugLog.
  assert (E : on_bstate (Srv := Srv) (on_ext (vzi_GetVizierPodLogs (debugpb.PodName req) (debugpb.Previous req) (debugpb.Container req))) (s, v) = (Ret logs, (s, v))).
  { unfold on_bstate, zoom. cbn. by rewrite (on_ext_read _ _ s Hl). }
  run_with E. apply debug_loop_run.
Qed.
End srv.

(** ** Registration *)

Context `{!AnyProto RegisterVizierRequest} `{!AnyProtoSpec RegisterVizierRequest} `{!AnyProto RegisterVizierAck}.

(** The stream takes the request to register. *)
Definition stream_takes (i : C) : Prop := ∀ m, ∃ i', stream_Send m i = (Ret tt, i').

Definition first_received (s : bstate (U := U) (N := N) (I := I) (C := C)) (m : C2VBridgeMessage) (rest : list (option C2VBridgeMessage)) : Prop :=
  grpcInCh (br s) = Some m :: rest.

(** How the handshake ends when a message is received, by what is read from it. *)
Definition handshake_result (r : error + RegisterVizierAck) (o : outcome unit) : Prop :=
  match r with
  | inl err => o = Err err
  | inr ack =>
    match ack_Status ack with
    | ST_OK => o = Ret tt
    | ST_FAILED_NOT_FOUND => o = Err (ErrMsg "registration not found, cluster unknown in pixie-cloud")
    | ST_UNKNOWN => o = Crash NilDeref
    end
  end.

Lemma sync_run {T} `{!AnyProto T} `{!AnyProtoSpec T} topic (msg : T) s :
  stream_takes (conn s) → ∃ c', publishBridgeSync topic msg s = (Ret tt, mkBState (br s) (bnc s) (ext s) c').
Proof.
  intros Hs. destruct (any_roundtrip msg) as (a & Ea & _). unfold publishBridgeSync. rewrite Ea.
  run_with (lift_sum_ret (inr a) a s eq_refl). rewrite get_bind. destruct (Hs (bridge_message (br s) topic (Some a))) as (c' & E). exists c'.
  unfold on_conn, zoom. by rewrite E.
Qed.

(** Whatever naming the cluster does, the handshake ends well. *)
Lemma registered_run ack s : (∀ n, ∃ o i', vzi_UpdateClusterName n (ext s) = (o, i') ∧ ∀ c, o ≠ Crash c) →
  ∃ s', registered ack s = (Ret tt, s') ∧ grpcInCh (br s') = grpcInCh (br s).
Proof.
  intros Hn. unfold registered. rewrite get_bind. case_bool_decide; [|by eexists].
  destruct (Hn (ack_VizierName ack)) as (o & i' & E & Hc).
  assert (E' : ∃ s1, logged (on_ext (vzi_UpdateClusterName (ack_VizierName ack))) s = (Ret tt, s1) ∧ br s1 = br s).
  { unfold logged, try, on_ext, zoom, mbind, M_bind. rewrite E. destruct o; [by eexists..|]. by destruct (Hc c). }
  destruct E' as (s1 & E1 & Hb). run_with E1. eexists. split; [done|]. cbn. by rewrite Hb.
Qed.

(** The registration of a stream takes the next message from the cloud, whatever it is:
    one that is no acknowledgement fails the registration and is lost, an
    acknowledgement decides, and one whose status is unknown panics. *)
Theorem handshake_takes_next_message s info i1 m rest :
  vzi_GetVizierClusterInfo (ext s) = (Ret info, i1) → stream_takes (conn s) → first_received s m rest →
  (∀ n, ∃ o i', vzi_UpdateClusterName n i1 = (o, i') ∧ ∀ c, o ≠ Crash c) →
  ∃ o s', doRegistrationHandshake FromGrpcInCh s = (o, s') ∧ handshake_result (UnmarshalAny (cm_Msg m)) o ∧
    grpcInCh (br s') = rest.
Proof using AnyProtoSpec1.
  intros Hi Hs Hm Hn. unfold doRegistrationHandshake.
  assert (E1 : on_ext vzi_GetVizierClusterInfo s = (Ret info, mkBState (br s) (bnc s) i1 (conn s))) by (unfold on_ext, zoom; by rewrite Hi).
  rewrite (try_bind_ret _ _ _ _ _ E1), get_bind.
  destruct (sync_run "register" (mkRegisterVizierRequest (ProtoFromUUID (vizierID (br s))) (jwtSigningKey (br s)) (Some info)) (mkBState (br s) (bnc s) i1 (conn s)) Hs) as (c' & E2).
  run_with E2.
  set (s2 := mkBState (br s) (bnc s) i1 c'). set (s3 := mkBState (set_grpcInCh rest (br s)) (bnc s) i1 c').
  assert (E3 : recv_grpcIn s2 = (Ret (Some m), s3)).
  { unfold recv_grpcIn. rewrite get_bind. cbn. by rewrite Hm. }
  run_with E3. rewrite deref_bind. unfold handshake_result.
  destruct (UnmarshalAny (cm_Msg m)) as [err|ack]; [by exists (Err err), s3|].
  run_with (lift_sum_ret (inr ack) ack s3 eq_refl). destruct (ack_Status ack); [by eexists _, s3| |by eexists _, s3].
  destruct (registered_run ack s3 Hn) as (s4 & E4 & Hg). exists (Ret tt), s4. by rewrite E4.
Qed.

(** ** Status *)

(** After a failed update, the next update is not reported as running. *)
Lemma update_after_failure_not_reported now s :
  updateFailed (br s) = true → currentStatus now s = (Ret VZ_ST_UPDATE_FAILED, s).
Proof. intros H. unfold currentStatus. rewrite get_bind, H. by rewrite andb_false_r. Qed.

Lemma status_while_updating now s :
  updateRunning (br s) = true → updateFailed (br s) = false → currentStatus now s = (Ret VZ_ST_UPDATING, s).
Proof. intros H1 H2. unfold currentStatus. by rewrite get_bind, H1, H2. Qed.

(** Otherwise the status is that of the health check, unless it is more than ten
    seconds old. *)
Lemma status_of_checker now s t err i' :
  updateRunning (br s) = false → updateFailed (br s) = false → vzh_GetStatus (ext s) = (Ret (t, err), i') →
  (currentStatus now s).1 = Ret (if (vizStatusCheckFailInterval <? now - t)%Z then VZ_ST_UNKNOWN
                                 else match err with Some _ => VZ_ST_UNHEALTHY | None => VZ_ST_HEALTHY end).
Proof.
  intros H1 H2 Hs. unfold currentStatus. rewrite get_bind, H1, H2. cbn [andb].
  assert (E : on_ext vzh_GetStatus s = (Ret (t, err), mkBState (br s) (bnc s) i' (conn s))) by (unfold on_ext, zoom; by rewrite Hs).
  run_with E. cbn [fst snd]. by destruct (_ <? _)%Z.
Qed.

(** ** Heartbeats *)

Context `{!AnyProto VizierHeartbeat} `{!AnyProtoSpec VizierHeartbeat} (disable_auto_update : bool).
(** The calls for a heartbeat return and keep what the cluster must satisfy for that. *)
Context (ok : I → Prop)
  (k8s_state_returns : ∀ i, ok i → ∃ st i', vzi_GetK8sState i = (Ret st, i') ∧ ok i')
  (crd_returns : ∀ i, ok i → ∃ o i', vzo_GetVizierCRD i = (o, i') ∧ (∀ c, o ≠ Crash c) ∧ ok i')
  (status_returns : ∀ i, ok i → ∃ t i', vzh_GetStatus i = (Ret t, i') ∧ ok i').

(** The bridge is as it was. *)
Definition same_bridge s s' : Prop := br s' = br s ∧ ok (ext s').

Lemma currentStatus_run now s : ok (ext s) → ∃ st s', currentStatus now s = (Ret st, s') ∧ same_bridge s s'.
Proof using status_returns.
  intros Hok. unfold currentStatus. rewrite get_bind. destruct (updateRunning (br s) && negb (updateFailed (br s))); [by eexists _, s|].
  destruct (updateFailed (br s)); [by eexists _, s|]. destruct (status_returns (ext s) Hok) as (t & i' & E & Hok').
  assert (E' : on_ext vzh_GetStatus s = (Ret t, mkBState (br s) (bnc s) i' (conn s))) by (unfold on_ext, zoom; by rewrite E).
  run_with E'. destruct (_ <? _)%Z; eexists _, _; by split.
Qed.

Lemma make_heartbeat_run crdSeen now now_unix s : ok (ext s) →
  ∃ hb s', make_heartbeat disable_auto_update crdSeen now now_unix s = (Ret hb, s') ∧ same_bridge s s' ∧
    hb_SequenceNumber hb.1 = hbSeqNum (br s) ∧ (is_Some (hb_PodStatuses hb.1) → Z.rem (hbSeqNum (br s)) 12 = 0%Z).
Proof using k8s_state_returns crd_returns status_returns.
  intros Hok. destruct (k8s_state_returns (ext s) Hok) as (st & i1 & E1 & Hok1). destruct (crd_returns i1 Hok1) as (o & i2 & E2 & Ho & Hok2).
  set (s1 := mkBState (br s) (bnc s) i1 (conn s)). set (s2 := mkBState (br s) (bnc s) i2 (conn s)).
  destruct (currentStatus_run now s2 Hok2) as (status & s3 & E3 & H3 & Hok3).
  assert (E1' : on_ext vzi_GetK8sState s = (Ret st, s1)) by (unfold on_ext, zoom; by rewrite E1).
  assert (E2' : ∃ vz, try (on_ext vzo_GetVizierCRD) s1 = (Ret vz, s2)).
  { unfold try, on_ext, zoom. cbn. rewrite E2. destruct o; [by eexists..|]. by destruct (Ho c). }
  destruct E2' as (vz & E2'). unfold make_heartbeat. run_with E1'. run_with E2'. run_with E3.
  destruct (heartbeat_status _ status crdSeen) as [[[status' msg] ov] seen]. rewrite get_bind. eexists _, s3.
  unfold same_bridge in *. cbn in H3. split; [done|]. split; [done|]. rewrite H3. split; [done|]. cbn.
  destruct (Z.eqb_spec (Z.rem (hbSeqNum (br s)) 12) 0); [done|]. by intros [? ?].
Qed.

Lemma receive_heartbeat_run hb s : (0 <= hbSeqNum (br s))%Z → (hbSeqNum (br s) + 1 < 2 ^ 63)%Z →
  ∃ s', receive_heartbeat hb s = (Ret tt, s') ∧ hbSeqNum (br s') = (hbSeqNum (br s) + 1)%Z ∧ ext s' = ext s.
Proof using AnyProtoSpec2.
  intros H0 Hb. destruct (any_roundtrip hb) as (a & Ea & _). unfold receive_heartbeat, publishProtoToBridgeCh.
  unfold on_br at 1. rewrite modify_bind, Ea. run_with (lift_sum_ret (inr a) a (mkBState (set_hbSeqNum (int64 (hbSeqNum (br s) + 1)) (br s)) (bnc s) (ext s) (conn s)) eq_refl).
  eexists. split; [done|]. cbn [br]. rewrite int64_id by (unfold in_int64; lia).
  destruct (_ <? _)%nat; done.
Qed.

(** The heartbeats are numbered without gaps, across streams, and only every twelfth
    has the statuses of the control plane. *)
Theorem heartbeats_numbered ticks crdSeen s :
  ok (ext s) → (0 <= hbSeqNum (br s))%Z → (hbSeqNum (br s) + Z.of_nat (length ticks) < 2 ^ 63)%Z →
  ∃ hbs s', generateHeartbeats disable_auto_update ticks crdSeen s = (Ret hbs, s') ∧
    hb_SequenceNumber <$> hbs = seqZ (hbSeqNum (br s)) (Z.of_nat (length ticks)) ∧
    Forall (λ hb, is_Some (hb_PodStatuses hb) → Z.rem (hb_SequenceNumber hb) 12 = 0%Z) hbs ∧
    hbSeqNum (br s') = (hbSeqNum (br s) + Z.of_nat (length ticks))%Z.
Proof using k8s_state_returns crd_returns status_returns AnyProtoSpec2.
  revert crdSeen s. induction ticks as [|[now now_unix] ticks IH]; intros crdSeen s Hok H0 Hb.
  { eexists [], s. split_and!; [done..|constructor|cbn; lia]. }
  cbn [length] in *. cbn [generateHeartbeats].
  destruct (make_heartbeat_run crdSeen now now_unix s Hok) as ([hb seen] & s1 & E1 & [Hs1 Hok1] & Hseq & Hp). run_with E1. cbn [fst snd] in *.
  destruct (receive_heartbeat_run hb s1) as (s2 & E2 & Hs2 & He2); [rewrite Hs1; lia..|]. run_with E2.
  rewrite Hs1 in Hs2. destruct (IH seen s2) as (hbs & s3 & E3 & Hn & Hf & Hend); [by rewrite He2|lia..|]. run_with E3.
  exists (hb :: hbs), s3. split; [done|]. split_and!.
  - cbn [fmap list_fmap]. rewrite Hseq. change (list_fmap _ _ hb_SequenceNumber hbs) with (hb_SequenceNumber <$> hbs). rewrite Hn, Hs2.
    rewrite (seqZ_cons _ (Z.of_nat (S (length ticks)))) by lia. f_equal. f_equal; lia.
  - constructor; [|done]. by rewrite Hseq.
  - lia.
Qed.
End facts.
