(* ===== verification/BridgeSteps.v ===== *)
(** * The goroutines of the bridge

    The loop of [HandleNATSBridging], the reader and the writer of the stream, and
    the stream itself, as one transition system.  [StartStream] waits for all its
    goroutines before it returns, so that a new call starts with none of the old
    ones.  Within a call a registration that fails is tried again after a pause of
    at least 15 seconds on a new stream with a new writer.  The relation has one
    writer at a time: it assumes that the writer of the failed attempt, whose context
    was cancelled, has ended before the next attempt starts its own, which the code
    does not enforce. *)

From S2P Require Import Prelude GoLib Uuid Messages MessageBus K8sMessages K8sConvert QueryMessages ScriptSource BridgeMessages VizierInfo Bridge.
Import cvmsgspb vzconnpb cloudpb.

(** The messages that the streams have accepted, in order: those for which [Send] has
    returned nil.  An accepted message may still be lost with its stream: [Send] of
    grpc-go does not wait until the message is received, and nothing is assumed of
    that. *)
Class StreamSpec (C : Type) `{!VZConnServiceClient C} (handed : C → list V2CBridgeMessage) : Prop := {
  stream_spec c m : (∃ c', stream_Send m c = (Ret tt, c') ∧ handed c' = handed c ++ [m]) ∨
                    (∃ e c', stream_Send m c = (Err e, c') ∧ handed c' = handed c);
  opened_spec c o c' : vzc_NATSBridge c = (o, c') → handed c' = handed c
}.

(** The writer: before [sendMsg(nil)], at its two selects, or ended. *)
Inductive wphase : Type := WTop | WSel1 | WSel2 | WExited.
(** The bridge: waiting for the outcome of the registration, for an input, at work on
    one, or ended. *)
Inductive bphase : Type := BRegistering | BWaiting | BHandling (i : bridge_input) | BEnded.
Inductive source : Type := PT | Out.
#[export] Instance source_eq_dec : EqDecision source.
Proof. solve_decision. Defined.

Section steps.
Context `{U : UUIDLib} `{N : NatsConn} {I C : Type}.
Context `{!VizierInfo I} `{!VizierOperatorInfo I} `{!VizierHealthChecker I} `{!VZConnServiceClient C}.
Context `{!Proto C2VMessage} `{!Proto V2CMessage} `{!Proto MetricsMessage}.
Context `{!AnyProto UpdateOrInstallVizierRequest} `{!AnyProto UpdateOrInstallVizierResponse}.
Context `{!AnyProto V2CAPIStreamResponse} `{!AnyProto C2VAPIStreamRequest} `{!AnyProto VizierHeartbeat}.
Context `{!AnyProto RegisterVizierRequest} `{!AnyProto RegisterVizierAck}.
Context {WriteRequest : Type} `{!AnyProto WriteRequest}.
Context (parse_prom : string → string → string → error + WriteRequest) (job_yaml : string).
Context {handed : C → list V2CBridgeMessage} `{!StreamSpec C handed}.
Abbreviation bstate := (bstate (U := U) (N := N) (I := I) (C := C)).
Abbreviation handle := (HandleNATSBridging parse_prom job_yaml).

(** [ctx_done] and [done_closed] are the context of the stream and [done].  What the
    queues have been given, what the writer has taken (and from where, and whether it
    gave the message up) and what it has sent are recorded. *)
Record sys := mkSys {
  bs : bstate; ctx_done : bool; done_closed : bool; wr : wphase; bridging : bphase;
  given : source → list V2CBridgeMessage; taken : list (source * V2CBridgeMessage * bool);
  wsent : list V2CBridgeMessage
}.

Definition queue (x : source) (b : bstate) : list V2CBridgeMessage :=
  match x with PT => ptOutCh (br b) | Out => grpcOutCh (br b) end.

(** What was appended. *)
Definition newer {A} (l l' : list A) : list A := drop (length l) l'.

Definition with_given (b' : bstate) (s : sys) : source → list V2CBridgeMessage :=
  λ x, given s x ++ newer (queue x (bs s)) (queue x b').

Definition pop (x : source) (rest : list V2CBridgeMessage) (b : bstate) : bstate :=
  mkBState (match x with
            | PT => set_queues (grpcOutCh (br b)) rest (pendingGRPCOutMsg (br b)) (droppedMessagesBeforeResume (br b)) (br b)
            | Out => set_queues rest (ptOutCh (br b)) (pendingGRPCOutMsg (br b)) (droppedMessagesBeforeResume (br b)) (br b)
            end) (bnc b) (ext b) (conn b).

(** [sendMsg] gives its message up when a message is pending and cannot be sent. *)
Definition gave_up (b b' : bstate) : bool :=
  match pendingGRPCOutMsg (br b) with
  | Some _ => bool_decide (length (handed (conn b')) = length (handed (conn b)))
  | None => false
  end.

Definition sent_more (b b' : bstate) (s : sys) : list V2CBridgeMessage := wsent s ++ newer (handed (conn b)) (handed (conn b')).

(** The writer takes [m] from the queue [x]. *)
Definition take_message (x : source) (m : V2CBridgeMessage) (rest : list V2CBridgeMessage) (s : sys) : sys :=
  let b := pop x rest (bs s) in
  let b' := (sendMsg (Some m) b).2 in
  mkSys b' (ctx_done s) (done_closed s) WTop (bridging s) (given s) (taken s ++ [(x, m, gave_up b b')]) (sent_more b b' s).

Definition ended (s : sys) : Prop := quitCh (br (bs s)) = true ∨ ctx_done s = true ∨ done_closed s = true.

Inductive bstep : sys → sys → Prop :=
(* The writer. *)
| w_pending s : wr s = WTop →
    bstep s (mkSys (sendMsg None (bs s)).2 (ctx_done s) (done_closed s) WSel1 (bridging s) (given s) (taken s)
               (sent_more (bs s) (sendMsg None (bs s)).2 s))
| w_exit s : wr s = WSel1 ∨ wr s = WSel2 → ended s →
    bstep s (mkSys (bs s) (ctx_done s) (done_closed s) WExited (bridging s) (given s) (taken s) (wsent s))
| w_take_pt s m rest : wr s = WSel1 ∨ wr s = WSel2 → ptOutCh (br (bs s)) = m :: rest → bstep s (take_message PT m rest s)
| w_default s : wr s = WSel1 → ¬ ended s → ptOutCh (br (bs s)) = [] →
    bstep s (mkSys (bs s) (ctx_done s) (done_closed s) WSel2 (bridging s) (given s) (taken s) (wsent s))
| w_take_out s m rest : wr s = WSel2 → grpcOutCh (br (bs s)) = m :: rest → bstep s (take_message Out m rest s)
(* The reader. *)
| r_recv s m : ctx_done s = false → (length (grpcInCh (br (bs s))) < chan_capacity)%nat →
    bstep s (mkSys (mkBState (set_grpcInCh (grpcInCh (br (bs s)) ++ [Some m]) (br (bs s))) (bnc (bs s)) (ext (bs s)) (conn (bs s)))
               (ctx_done s) (done_closed s) (wr s) (bridging s) (given s) (taken s) (wsent s))
(* The bridge. *)
| b_receive s i : bridging s = BWaiting →
    match i with Quit => ended s | FromGrpc => grpcInCh (br (bs s)) ≠ [] | _ => True end →
    bstep s (mkSys (bs s) (ctx_done s) (done_closed s) (wr s) (BHandling i) (given s) (taken s) (wsent s))
| b_handle s i o b' : bridging s = BHandling i → handle i (bs s) = (o, b') → (∀ c, o ≠ Crash c) →
    bstep s (mkSys b' (ctx_done s) (done_closed s) (wr s) (match o with Ret true => BWaiting | _ => BEnded end)
               (with_given b' s) (taken s) (wsent s))
| b_return s : bridging s = BEnded →
    bstep s (mkSys (bs s) true true (wr s) BEnded (given s) (taken s) (wsent s))
(* The stream breaks, starts again, and is registered. *)
| s_break s : bstep s (mkSys (bs s) true (done_closed s) (wr s) (bridging s) (given s) (taken s) (wsent s))
| s_start s c' : bridging s = BEnded → wr s = WExited → quitCh (br (bs s)) = false → vzc_NATSBridge (conn (bs s)) = (Ret tt, c') →
    bstep s (mkSys (mkBState (br (bs s)) (bnc (bs s)) (ext (bs s)) c') false false WTop BRegistering (given s) (taken s) (wsent s))
| s_register s e o b' : bridging s = BRegistering → doRegistrationHandshake e (bs s) = (o, b') → (∀ c, o ≠ Crash c) →
    bstep s (mkSys b' (match o with Ret _ => ctx_done s | _ => true end) (done_closed s) (wr s)
               (match o with Ret _ => BWaiting | _ => BEnded end) (given s) (taken s) (wsent s))
| s_stop s :
    bstep s (mkSys (mkBState (Stop (br (bs s))) (bnc (bs s)) (ext (bs s)) (conn (bs s)))
               (ctx_done s) (done_closed s) (wr s) (bridging s) (given s) (taken s) (wsent s)).

(** Before the first stream. *)
Definition start (b : bstate) : sys := mkSys b true true WExited BEnded (λ x, queue x b) [] [].

(** ** What is conserved *)

Definition taken_from (x : source) (l : list (source * V2CBridgeMessage * bool)) : list V2CBridgeMessage :=
  (filter (λ t, t.1.1 = x) l).*1.*2.
Definition kept (l : list (source * V2CBridgeMessage * bool)) : list V2CBridgeMessage :=
  (filter (λ t, t.2 = false) l).*1.*2.
Definition pending_list (b : bstate) : list V2CBridgeMessage := option_list (pendingGRPCOutMsg (br b)).

Record conserved (s : sys) : Prop := mkConserved {
  cn_queue x : taken_from x (taken s) ++ queue x (bs s) = given s x;
  cn_sent : wsent s ++ pending_list (bs s) = kept (taken s);
  cn_capacity x : (length (queue x (bs s)) <= chan_capacity)%nat
}.

(** ** Frames *)

(** A call that leaves the queues and the pending message alone. *)
Definition same_out (b b' : bstate) : Prop :=
  grpcOutCh (br b') = grpcOutCh (br b) ∧ ptOutCh (br b') = ptOutCh (br b) ∧ pendingGRPCOutMsg (br b') = pendingGRPCOutMsg (br b).
Definition frames {A} (m : M bstate A) : Prop := ∀ b, same_out b (m b).2.

Lemma frames_bind {A B} (m : M bstate A) (k : A → M bstate B) : frames m → (∀ a, frames (k a)) → frames (m ≫= k).
Proof.
  intros Hm Hk b. unfold mbind, M_bind. specialize (Hm b). destruct (m b) as [[a|e|c] b1]; cbn in *; [|done..].
  specialize (Hk a b1). destruct Hm as (H1 & H2 & H3), Hk as (H4 & H5 & H6). split_and!; congruence.
Qed.
Lemma frames_ret {A} (a : A) : frames (mret a).
Proof. by intros b. Qed.
Lemma frames_fail {A} e : frames (A := A) (fail e).
Proof. by intros b. Qed.
Lemma frames_panic {A} c : frames (A := A) (panic c).
Proof. by intros b. Qed.
Lemma frames_get : frames get_state.
Proof. by intros b. Qed.
Lemma frames_deref {A} (p : option A) : frames (deref p).
Proof. intros b. by destruct p. Qed.
Lemma frames_lift {A} (r : error + A) : frames (lift_sum r).
Proof. intros b. by destruct r. Qed.
Lemma frames_try {A} (m : M bstate A) : frames m → frames (try m).
Proof. intros Hm b. unfold try. specialize (Hm b). by destruct (m b) as [[a|e|c] b1]. Qed.
Lemma frames_logged (m : M bstate unit) : frames m → frames (logged m).
Proof. intros Hm. apply frames_bind; [by apply frames_try|]. intros. apply frames_ret. Qed.
Lemma frames_ext {A} (m : M I A) : frames (on_ext m).
Proof. intros b. unfold on_ext, zoom. by destruct (m (ext b)) as [[?|?|?] ?]. Qed.
Lemma frames_conn {A} (m : M C A) : frames (on_conn m).
Proof. intros b. unfold on_conn, zoom. by destruct (m (conn b)) as [[?|?|?] ?]. Qed.
Lemma frames_publish t d : frames (bPublish t d).
Proof. intros b. unfold bPublish. by destruct (nc_Publish t d (bnc b)) as [[e|] c]. Qed.
Lemma frames_br (f : Bridge uuid → Bridge uuid) :
  (∀ b, grpcOutCh (f b) = grpcOutCh b ∧ ptOutCh (f b) = ptOutCh b ∧ pendingGRPCOutMsg (f b) = pendingGRPCOutMsg b) → frames (on_br f).
Proof. intros Hf b. apply Hf. Qed.

Create HintDb frames.
Hint Resolve frames_ret frames_fail frames_panic frames_get frames_deref frames_lift frames_ext frames_conn frames_publish : frames.

Ltac frame := repeat (intros; first
  [ apply frames_bind; [|intros] | apply frames_try | apply frames_logged
  | apply frames_br; intros; split_and!; reflexivity | progress auto with frames
  | case_match ]).

Lemma frames_chunks fuel i logs : frames (chunk_loop fuel i logs).
Proof. revert i. induction fuel as [|fuel IH]; intros i; cbn [chunk_loop]; destruct (_ <=? _)%nat; auto with frames; frame. Qed.
Lemma frames_responses reqID resps : frames (send_responses reqID resps).
Proof. induction resps as [|r resps IH]; cbn [send_responses]; frame. Qed.
Lemma frames_status reqID code msg : frames (sendPTStatusMessage reqID code msg).
Proof. unfold sendPTStatusMessage. frame. Qed.
Hint Resolve frames_chunks frames_responses frames_status : frames.

Lemma frames_debug_response reqID resps : frames (sendDebugStreamResponse reqID resps).
Proof. unfold sendDebugStreamResponse. frame. Qed.
Hint Resolve frames_debug_response : frames.

Lemma frames_debug_log reqID req : frames (handleDebugLogRequest reqID req).
Proof. unfold handleDebugLogRequest. frame. Qed.
Lemma frames_debug_pods reqID req : frames (handleDebugPodsRequest reqID req).
Proof. unfold handleDebugPodsRequest. frame. Qed.
Lemma frames_update msg : frames (handleUpdateMessage job_yaml msg).
Proof. unfold handleUpdateMessage, launch_update. frame. Qed.
Lemma frames_forward m : frames (forward_to_nats m).
Proof. unfold forward_to_nats. frame. Qed.
Lemma frames_recv : frames recv_grpcIn.
Proof. unfold recv_grpcIn. frame. Qed.
Hint Resolve frames_debug_log frames_debug_pods frames_update frames_forward frames_recv : frames.

Lemma frames_grpc m : frames (handle_grpc job_yaml m).
Proof. unfold handle_grpc. frame. Qed.

Lemma frames_handshake e : frames (doRegistrationHandshake e).
Proof. unfold doRegistrationHandshake, publishBridgeSync, registered. frame. Qed.

(** A call that only appends to the queues, within their capacity. *)
Definition grows (b b' : bstate) : Prop :=
  pendingGRPCOutMsg (br b') = pendingGRPCOutMsg (br b) ∧
  ∀ x, (∃ l, queue x b' = queue x b ++ l) ∧ (length (queue x b) <= chan_capacity → length (queue x b') <= chan_capacity)%nat.
Definition appends {A} (m : M bstate A) : Prop := ∀ b, grows b (m b).2.

Lemma grows_refl b : grows b b.
Proof. split; [done|]. intros x. split; [|done]. exists []. by rewrite app_nil_r. Qed.

Lemma same_out_grows b b' : same_out b b' → grows b b'.
Proof.
  intros (H1 & H2 & H3). split; [done|]. intros x. assert (queue x b' = queue x b) as -> by (by destruct x).
  split; [|done]. exists []. by rewrite app_nil_r.
Qed.

Lemma grows_trans b1 b2 b3 : grows b1 b2 → grows b2 b3 → grows b1 b3.
Proof.
  intros [H1 H2] [H3 H4]. split; [congruence|]. intros x. destruct (H2 x) as [[l El] Hl], (H4 x) as [[l' El'] Hl']. split; [|auto].
  exists (l ++ l'). by rewrite El', El, app_assoc.
Qed.

Lemma appends_frames {A} (m : M bstate A) : frames m → appends m.
Proof. intros H b. apply same_out_grows, H. Qed.

Lemma appends_bind {A B} (m : M bstate A) (k : A → M bstate B) : appends m → (∀ a, appends (k a)) → appends (m ≫= k).
Proof.
  intros Hm Hk b. unfold mbind, M_bind. specialize (Hm b). destruct (m b) as [[a|e|c] b1]; cbn in *; [|done..].
  eapply grows_trans; [done|apply Hk].
Qed.

Lemma appends_logged (m : M bstate unit) : appends m → appends (logged m).
Proof.
  intros Hm b. specialize (Hm b). unfold logged, try, mbind, M_bind. destruct (m b) as [[a|e|c] b1]; exact Hm.
Qed.

Lemma appends_out topic msg : appends (publishBridgeCh topic msg).
Proof.
  intros b. unfold publishBridgeCh, on_br, modify. cbn [snd]. destruct (length (grpcOutCh (br b)) <? chan_capacity)%nat eqn:E; (split; [done|]);
    intros [|]; cbn; (split; [|intros H]); try done; try (exists []; by rewrite app_nil_r).
  - by eexists.
  - rewrite length_app. apply Nat.ltb_lt in E. cbn. lia.
Qed.

Lemma appends_pt topic msg : appends (publishPTBridgeCh topic msg).
Proof.
  intros b. unfold publishPTBridgeCh. rewrite get_bind. destruct (length (ptOutCh (br b)) <? chan_capacity)%nat eqn:E; [|apply grows_refl].
  split; [done|]. intros [|]; cbn; (split; [|intros H]); try done; try (exists []; by rewrite app_nil_r).
  - by eexists.
  - rewrite length_app. apply Nat.ltb_lt in E. cbn. lia.
Qed.

Lemma appends_proto {T} `{!AnyProto T} topic (msg : T) : appends (publishProtoToBridgeCh topic msg).
Proof. apply appends_bind; [apply appends_frames; auto with frames|intros; apply appends_out]. Qed.

Lemma appends_metrics msg : appends (handleMetricsMessage parse_prom msg).
Proof.
  unfold handleMetricsMessage. do 3 (apply appends_bind; [apply appends_frames; auto with frames|intros]). apply appends_out.
Qed.

Lemma appends_handle i : appends (handle i).
Proof.
  destruct i; cbn [HandleNATSBridging]; try (apply appends_bind; [|intros; apply appends_frames; auto with frames]).
  - apply appends_frames; auto with frames.
  - unfold handle_nats. destruct (negb _); [apply appends_frames; auto with frames|].
    apply appends_bind; [apply appends_frames; auto with frames|]. intros [m t]. destruct (HasPrefix _ _); [apply appends_pt|apply appends_out].
  - apply appends_frames; auto with frames.
  - apply frames_grpc.
  - apply appends_bind; [apply appends_frames; frame|]. intros. apply appends_proto.
  - unfold handle_nats_metrics. case_match; [apply appends_frames; auto with frames|apply appends_logged, appends_metrics].
  - apply appends_logged, appends_metrics.
Qed.

Lemma newer_app {A} (l l' : list A) : newer l (l ++ l') = l'.
Proof. unfold newer. apply drop_app_length. Qed.

Lemma on_conn_ret {A} (m : M C A) (b : bstate) a c' : m (conn b) = (Ret a, c') → on_conn m b = (Ret a, mkBState (br b) (bnc b) (ext b) c').
Proof. intros E. unfold on_conn, zoom. by rewrite E. Qed.
Lemma on_conn_err {A} (m : M C A) (b : bstate) e c' : m (conn b) = (Err e, c') → on_conn m b = (Err e, mkBState (br b) (bnc b) (ext b) c').
Proof. intros E. unfold on_conn, zoom. by rewrite E. Qed.

(** The second half of [sendMsg]. *)
Lemma send_new_run m b : pendingGRPCOutMsg (br b) = None →
  ∃ b' new, (match m with
             | None => mret tt
             | Some m => r ← try (on_conn (stream_Send m)); match r with inl _ => on_br (set_pending (Some m)) | inr _ => mret tt end
             end : M bstate unit) b = (Ret tt, b') ∧
    (∀ x, queue x b' = queue x b) ∧ handed (conn b') = handed (conn b) ++ new ∧ new ++ pending_list b' = option_list m.
Proof using StreamSpec0.
  intros Hp. destruct m as [m|].
  - destruct (stream_spec (conn b) m) as [(c' & E & Hc)|(e & c' & E & Hc)].
    + rewrite (try_bind_ret _ _ _ _ _ (on_conn_ret _ b _ _ E)). eexists _, [m]. split; [done|]. split; [by intros []|].
      split; [done|]. unfold pending_list. cbn. by rewrite Hp.
    + rewrite (try_bind_err _ _ _ _ _ (on_conn_err _ b _ _ E)). eexists _, []. split; [done|]. split; [by intros []|].
      split; [cbn; by rewrite app_nil_r|done].
  - exists b, []. split; [done|]. split; [done|]. split; [by rewrite app_nil_r|]. unfold pending_list. by rewrite Hp.
Qed.

(** A message that is not given up is sent after the pending one, or is pending. *)
Lemma sendMsg_run m b : ∃ b' new, sendMsg m b = (Ret tt, b') ∧ (∀ x, queue x b' = queue x b) ∧
  handed (conn b') = handed (conn b) ++ new ∧
  new ++ pending_list b' = pending_list b ++ (if gave_up b b' then [] else option_list m).
Proof using StreamSpec0.
  unfold sendMsg. rewrite get_bind. unfold gave_up, pending_list at 2. destruct (pendingGRPCOutMsg (br b)) as [p|] eqn:Ep.
  - destruct (stream_spec (conn b) p) as [(c' & E & Hc)|(e & c' & E & Hc)].
    + assert (E1 : (r ← try (on_conn (stream_Send p)); match r with inl _ => mret false | inr _ => _ ← on_br (set_pending None); mret true end : M bstate bool) b
        = (Ret true, mkBState (set_pending None (br b)) (bnc b) (ext b) c')).
      { by rewrite (try_bind_ret _ _ _ _ _ (on_conn_ret _ b _ _ E)). }
      run_with E1. destruct (send_new_run m (mkBState (set_pending None (br b)) (bnc b) (ext b) c') eq_refl) as (b' & new & E2 & Hq & Hc' & Hn).
      exists b', (p :: new). split; [done|]. split; [intros x; rewrite Hq; by destruct x|].
      cbn in Hc'. rewrite Hc in Hc'. split; [by rewrite Hc', <- app_assoc|].
      rewrite bool_decide_false; [cbn; by rewrite Hn|]. rewrite Hc', !length_app. cbn. lia.
    + assert (E1 : (r ← try (on_conn (stream_Send p)); match r with inl _ => mret false | inr _ => _ ← on_br (set_pending None); mret true end : M bstate bool) b
        = (Ret false, mkBState (br b) (bnc b) (ext b) c')).
      { by rewrite (try_bind_err _ _ _ _ _ (on_conn_err _ b _ _ E)). }
      run_with E1. eexists _, []. split; [done|]. split; [by intros []|]. split; [cbn; by rewrite app_nil_r|].
      rewrite bool_decide_true by (cbn; by rewrite Hc). unfold pending_list. cbn. by rewrite Ep.
  - run_steps. destruct (send_new_run m b Ep) as (b' & new & E2 & Hq & Hc' & Hn). by exists b', new.
Qed.

Lemma taken_from_snoc x l x' m g : taken_from x (l ++ [(x', m, g)]) = taken_from x l ++ (if decide (x' = x) then [m] else []).
Proof. unfold taken_from. rewrite filter_app, !fmap_app. f_equal. rewrite filter_cons. cbn. by case_decide. Qed.

Lemma kept_snoc l x m g : kept (l ++ [(x, m, g)]) = kept l ++ (if g then [] else [m]).
Proof. unfold kept. rewrite filter_app, !fmap_app. f_equal. rewrite filter_cons. cbn. by destruct g. Qed.

Lemma queue_pop x y rest b : queue y (pop x rest b) = if decide (x = y) then rest else queue y b.
Proof. by destruct x, y. Qed.

Lemma conserved_take x m rest s : conserved s → queue x (bs s) = m :: rest → conserved (take_message x m rest s).
Proof using StreamSpec0.
  intros [Hq Hs Hc] E. unfold take_message. set (b := pop x rest (bs s)).
  destruct (sendMsg_run (Some m) b) as (b' & new & E1 & Hq' & Hcl & Hn). rewrite E1. cbn [snd]. split; cbn [taken bs wsent given].
  - intros y. rewrite taken_from_snoc, Hq'. unfold b. rewrite queue_pop. specialize (Hq y).
    destruct (decide (x = y)) as [->|Hne]; [|by rewrite app_nil_r]. rewrite E in Hq. by rewrite <- app_assoc.
  - unfold sent_more. rewrite Hcl, newer_app, <- app_assoc, Hn, kept_snoc, <- Hs.
    assert (pending_list b = pending_list (bs s)) as -> by (unfold b; by destruct x). by rewrite app_assoc.
  - intros y. rewrite Hq'. unfold b. rewrite queue_pop. specialize (Hc y). destruct (decide (x = y)) as [->|]; [|done].
    rewrite E in Hc. cbn in Hc. lia.
Qed.

(** A step that leaves the record alone. *)
Lemma conserved_same s s' : conserved s → (∀ x, queue x (bs s') = queue x (bs s)) →
  pendingGRPCOutMsg (br (bs s')) = pendingGRPCOutMsg (br (bs s)) →
  given s' = given s → taken s' = taken s → wsent s' = wsent s → conserved s'.
Proof.
  intros [Hq Hs Hc] H1 H2 H3 H4 H5. split.
  - intros x. by rewrite H4, H1, H3.
  - unfold pending_list. rewrite H5, H2, H4. exact Hs.
  - intros x. by rewrite H1.
Qed.

Lemma conserved_step s s' : conserved s → bstep s s' → conserved s'.
Proof using StreamSpec0.
  intros Hc Hs. destruct Hs as [s Hw|s Hw He|s m rest Hw E|s Hw He E|s m rest Hw E|s m Hd Hl|s i Hb Hi|s i o b' Hb E Ho|s Hb|s|s c' Hb Hw Hq E|s e o b' Hb E Ho|s];
    try (by eapply conserved_same; [exact Hc|intros []; reflexivity|reflexivity..]).
  - destruct (sendMsg_run None (bs s)) as (b' & new & E1 & Hq' & Hcl & Hn). rewrite E1. cbn [snd].
    destruct Hc as [Hq Hs Hcap]. split; cbn [taken bs wsent given].
    + intros x. by rewrite Hq'.
    + unfold sent_more. rewrite Hcl, newer_app, <- app_assoc, Hn. destruct (gave_up _ _); cbn; by rewrite app_nil_r.
    + intros x. by rewrite Hq'.
  - by apply (conserved_take PT).
  - by apply (conserved_take Out).
  - pose proof (appends_handle i (bs s)) as [Hp Hg]. rewrite E in Hp, Hg. cbn in Hp, Hg. destruct Hc as [Hq Hs Hcap]. split; cbn [taken bs wsent given].
    + intros x. destruct (Hg x) as [[l El] _]. unfold with_given. rewrite El, newer_app, <- (Hq x), app_assoc. done.
    + unfold pending_list. rewrite Hp. exact Hs.
    + intros x. by apply Hg.
  - pose proof (frames_handshake e (bs s)) as (H1 & H2 & H3). rewrite E in H1, H2, H3. cbn in *.
    eapply conserved_same; [exact Hc|intros []; cbn; congruence|cbn; congruence|reflexivity..].
Qed.

Lemma conserved_start b : (∀ x, length (queue x b) <= chan_capacity)%nat → pendingGRPCOutMsg (br b) = None → conserved (start b).
Proof. intros Hl Hp. split; cbn; [done| |done]. unfold pending_list. by rewrite Hp. Qed.

(** C12: Whatever the bridge, the reader and the writer do and however often the stream
    breaks, the writer takes the messages of each queue in the order in which they were
    put there, and the streams accept the messages it does not give up (what [Send]
    returns nil for, which is not yet their receipt) in the order in which it took
    them, each once, but for the last one, which may be pending.  One writer runs at a
    time: the writer of a failed registration has ended before the registration is
    tried again. *)
Theorem bridge_conserves b s :
  (∀ x, length (queue x b) <= chan_capacity)%nat → pendingGRPCOutMsg (br b) = None → rtc bstep (start b) s →
  (∀ x, taken_from x (taken s) ++ queue x (bs s) = given s x) ∧
  wsent s ++ option_list (pendingGRPCOutMsg (br (bs s))) = kept (taken s) ∧
  ∀ x, (length (queue x (bs s)) <= chan_capacity)%nat.
Proof using StreamSpec0.
  intros Hl Hp Hr. pose proof (conserved_start b Hl Hp) as H0. assert (conserved s) as [? ? ?]; [|done].
  revert H0. induction Hr as [|s1 s2 s3 Hs _ IH]; [done|]. intros H1. apply IH. by eapply conserved_step.
Qed.

(** ** A good stream *)

(** As long as the stream takes every message, none is given up or pending. *)
Definition nothing_lost (s : sys) : Prop := pendingGRPCOutMsg (br (bs s)) = None ∧ Forall (λ t, t.2 = false) (taken s).

Lemma sendMsg_good m b : (∀ c m, ∃ c', stream_Send m c = (Ret tt, c')) → pendingGRPCOutMsg (br b) = None →
  pendingGRPCOutMsg (br (sendMsg m b).2) = None ∧ gave_up b (sendMsg m b).2 = false.
Proof.
  intros Hg Hp. unfold gave_up, sendMsg. rewrite get_bind, Hp. run_steps. split; [|done]. destruct m as [m|]; [|done].
  destruct (Hg (conn b) m) as (c' & E). by rewrite (try_bind_ret _ _ _ _ _ (on_conn_ret _ b _ _ E)).
Qed.

Lemma nothing_lost_step s s' : (∀ c m, ∃ c', stream_Send m c = (Ret tt, c')) → nothing_lost s → bstep s s' → nothing_lost s'.
Proof.
  intros Hg [Hp Ht] Hs. destruct Hs as [s Hw|s Hw He|s m rest Hw E|s Hw He E|s m rest Hw E|s m Hd Hl|s i Hb Hi|s i o b' Hb E Ho|s Hb|s|s c' Hb Hw Hq E|s e o b' Hb E Ho|s];
    try by split.
  - split; [|done]. by apply sendMsg_good.
  - destruct (sendMsg_good (Some m) (pop PT rest (bs s)) Hg Hp) as [H1 H2]. split; [done|]. cbn. apply Forall_app. split; [done|].
    constructor; [done|constructor].
  - destruct (sendMsg_good (Some m) (pop Out rest (bs s)) Hg Hp) as [H1 H2]. split; [done|]. cbn. apply Forall_app. split; [done|].
    constructor; [done|constructor].
  - pose proof (appends_handle i (bs s)) as [Hp' _]. rewrite E in Hp'. split; [cbn in *; congruence|done].
  - pose proof (frames_handshake e (bs s)) as (_ & _ & H3). rewrite E in H3. split; [cbn in *; congruence|done].
Qed.

(** ** A broken stream *)

Definition broken : Prop := ∀ c m, ∃ e c', stream_Send m c = (Err e, c') ∧ handed c' = handed c.

Lemma sendMsg_broken m p (b : bstate) : broken → pendingGRPCOutMsg (br b) = Some p →
  ∃ c', sendMsg m b = (Ret tt, mkBState (br b) (bnc b) (ext b) c') ∧ handed c' = handed (conn b).
Proof.
  intros Hb Hp. destruct (Hb (conn b) p) as (e & c' & E & Hc). exists c'. split; [|done].
  unfold sendMsg. rewrite get_bind, Hp.
  assert (E1 : (r ← try (on_conn (stream_Send p)); match r with inl _ => mret false | inr _ => _ ← on_br (set_pending None); mret true end : M bstate bool) b
    = (Ret false, mkBState (br b) (bnc b) (ext b) c')).
  { by rewrite (try_bind_err _ _ _ _ _ (on_conn_err _ b _ _ E)). }
  by run_with E1.
Qed.

Lemma sendMsg_broken_first m (b : bstate) : broken → pendingGRPCOutMsg (br b) = None →
  ∃ c', sendMsg (Some m) b = (Ret tt, mkBState (set_pending (Some m) (br b)) (bnc b) (ext b) c') ∧ handed c' = handed (conn b).
Proof.
  intros Hb Hp. destruct (Hb (conn b) m) as (e & c' & E & Hc). exists c'. split; [|done].
  unfold sendMsg. rewrite get_bind, Hp. run_steps. by rewrite (try_bind_err _ _ _ _ _ (on_conn_err _ b _ _ E)).
Qed.

Lemma newer_same {A} (l l' : list A) : l' = l → newer l l' = [].
Proof. intros ->. unfold newer. apply drop_ge. lia. Qed.

(** With a message pending, each round takes a message and gives it up. *)
Lemma broken_round s p m rest : broken → wr s = WTop → pendingGRPCOutMsg (br (bs s)) = Some p → ptOutCh (br (bs s)) = m :: rest →
  ∃ s', rtc bstep s s' ∧ wr s' = WTop ∧ pendingGRPCOutMsg (br (bs s')) = Some p ∧ ptOutCh (br (bs s')) = rest ∧
    taken s' = taken s ++ [(PT, m, true)] ∧ wsent s' = wsent s.
Proof.
  intros Hb Hw Hp Hq. destruct (sendMsg_broken None p (bs s) Hb Hp) as (c1 & E1 & Hc1).
  pose proof (w_pending s Hw) as S1. rewrite E1 in S1. cbn [snd] in S1.
  set (s1 := mkSys (mkBState (br (bs s)) (bnc (bs s)) (ext (bs s)) c1) _ _ WSel1 _ _ _ _) in S1.
  pose proof (w_take_pt s1 m rest (or_introl eq_refl) Hq) as S2.
  destruct (sendMsg_broken (Some m) p (pop PT rest (bs s1)) Hb Hp) as (c2 & E2 & Hc2).
  exists (take_message PT m rest s1). split; [by eapply rtc_l; [exact S1|]; eapply rtc_l; [exact S2|]|].
  unfold take_message. rewrite E2. cbn. split_and!; [done..| |].
  - do 3 f_equal. unfold gave_up. cbn. rewrite Hp, Hc2. by apply bool_decide_true.
  - unfold sent_more. cbn. by rewrite !newer_same, !app_nil_r by done.
Qed.

(** On a stream that takes no more messages the writer may go on taking messages from
    its queue: the first one stays pending, and all others are given up, although the
    channels are meant to keep them for the next stream. *)
Theorem broken_stream_loses_messages s m ms :
  broken → wr s = WTop → pendingGRPCOutMsg (br (bs s)) = None → ptOutCh (br (bs s)) = m :: ms →
  ∃ s', rtc bstep s s' ∧ ptOutCh (br (bs s')) = [] ∧ pendingGRPCOutMsg (br (bs s')) = Some m ∧ wsent s' = wsent s ∧
    taken s' = taken s ++ (PT, m, false) :: ((λ m, (PT, m, true)) <$> ms).
Proof.
  intros Hb Hw Hp Hq.
  assert (E0 : sendMsg None (bs s) = (Ret tt, bs s)) by (unfold sendMsg; by rewrite get_bind, Hp).
  pose proof (w_pending s Hw) as S1. rewrite E0 in S1. cbn [snd] in S1.
  set (s1 := mkSys (bs s) _ _ WSel1 _ _ _ _) in S1.
  pose proof (w_take_pt s1 m ms (or_introl eq_refl) Hq) as S2.
  destruct (sendMsg_broken_first m (pop PT ms (bs s1)) Hb Hp) as (c2 & E2 & Hc2).
  assert (Hgen : ∀ ms s2, wr s2 = WTop → pendingGRPCOutMsg (br (bs s2)) = Some m → ptOutCh (br (bs s2)) = ms →
    ∃ s', rtc bstep s2 s' ∧ ptOutCh (br (bs s')) = [] ∧ pendingGRPCOutMsg (br (bs s')) = Some m ∧ wsent s' = wsent s2 ∧
      taken s' = taken s2 ++ ((λ m, (PT, m, true)) <$> ms)).
  { clear -Hb. intros ms. induction ms as [|m' ms IH]; intros s2 Hw Hp Hq.
    - exists s2. split_and!; [done..|by rewrite app_nil_r].
    - destruct (broken_round s2 m m' ms Hb Hw Hp Hq) as (s3 & Hr & Hw3 & Hp3 & Hq3 & Ht3 & Hs3).
      destruct (IH s3 Hw3 Hp3 Hq3) as (s4 & Hr4 & H1 & H2 & H3 & H4). exists s4. split_and!; [by etrans|done..|by rewrite H3, Hs3|].
      rewrite H4, Ht3, <- app_assoc. done. }
  destruct (Hgen ms (take_message PT m ms s1)) as (s' & Hr & H1 & H2 & H3 & H4).
  - done.
  - unfold take_message. by rewrite E2.
  - unfold take_message. by rewrite E2.
  - exists s'. split_and!; [eapply rtc_l; [exact S1|]; eapply rtc_l; [exact S2|done]|done..| |].
    + rewrite H3. unfold take_message. rewrite E2. cbn. unfold sent_more. cbn. by rewrite !newer_same, !app_nil_r by done.
    + rewrite H4. unfold take_message. rewrite E2. cbn. rewrite <- app_assoc. cbn. do 3 f_equal. unfold gave_up. cbn. by rewrite Hp.
Qed.

(** ** Back-pressure *)

(** The bridge is at work on a reply of the passthrough proxy, the queue of replies is
    full, and the writer has ended. *)
Record stuck (reqID data : string) (s : sys) : Prop := mkStuck {
  sk_writer : wr s = WExited;
  sk_bridge : bridging s = BHandling (FromNats (reply_topic reqID) data);
  sk_full : length (ptOutCh (br (bs s))) = chan_capacity
}.

Lemma full_queue_blocks reqID data m (b : bstate) : Unmarshal (A := V2CMessage) data = inr m → length (ptOutCh (br b)) = chan_capacity →
  (handle (FromNats (reply_topic reqID) data) b).1 = Crash Hang.
Proof.
  intros Hm Hl. cbn [HandleNATSBridging]. unfold handle_nats, parseV2CNatsMsg.
  assert (HasPrefix (reply_topic reqID) (V2CTopic "") = true) as -> by (by destruct reqID).
  assert (HasPrefix (reply_topic reqID) passthroughReplySubjectPrefix = true) as -> by (by destruct reqID).
  rewrite Hm. cbn [negb]. unfold mbind, M_bind, lift_sum. cbn -[chan_capacity]. unfold publishPTBridgeCh. rewrite get_bind.
  rewrite Hl, Nat.ltb_irrefl. done.
Qed.

Lemma stuck_step reqID data m s s' : Unmarshal (A := V2CMessage) data = inr m → stuck reqID data s → bstep s s' → stuck reqID data s'.
Proof.
  intros Hm [Hw Hb Hl] Hs.
  destruct Hs as [s Hw'|s Hw' He|s m' rest Hw' E|s Hw' He E|s m' rest Hw' E|s m' Hd Hl'|s i Hb' Hi|s i o b' Hb' E Ho|s Hb'|s|s c' Hb' Hw' Hq E|s e o b' Hb' E Ho|s];
    try congruence; try (destruct Hw'; congruence); try by split.
  assert (i = FromNats (reply_topic reqID) data) as -> by congruence.
  pose proof (full_queue_blocks reqID data m (bs s) Hm Hl) as H. rewrite E in H. cbn in H. by destruct (Ho Hang).
Qed.

(** A bridge that is at work on a reply when the writer has ended and the queue of
    replies is full never goes on, not even when the connector is stopped: [Stop]
    waits for it forever, and no new stream is started. *)
Theorem full_queue_blocks_forever reqID data m s s' :
  Unmarshal (A := V2CMessage) data = inr m → stuck reqID data s → rtc bstep s s' →
  bridging s' = BHandling (FromNats (reply_topic reqID) data) ∧ wr s' = WExited.
Proof.
  intros Hm Hs Hr. assert (stuck reqID data s') as [? ? _]; [|done].
  revert Hs. induction Hr as [|s1 s2 s3 H1 _ IH]; [done|]. intros Hs. apply IH. by eapply stuck_step.
Qed.

(** ** Before the registration *)

(** A message that waits in a queue may be sent on a new stream before the stream is
    registered. *)
Lemma sent_before_registration (b : bstate) m rest c1 c2 :
  pendingGRPCOutMsg (br b) = None → quitCh (br b) = false → ptOutCh (br b) = m :: rest →
  vzc_NATSBridge (conn b) = (Ret tt, c1) → stream_Send m c1 = (Ret tt, c2) →
  ∃ s, rtc bstep (start b) s ∧ bridging s = BRegistering ∧ handed (conn (bs s)) = handed (conn b) ++ [m].
Proof using StreamSpec0.
  intros Hp Hq Hpt Eo Es. set (b1 := mkBState (br b) (bnc b) (ext b) c1).
  pose proof (s_start (start b) c1 eq_refl eq_refl Hq Eo) as S0. set (s0 := mkSys b1 false false WTop BRegistering (given (start b)) (taken (start b)) (wsent (start b))) in S0.
  assert (E0 : sendMsg None (bs s0) = (Ret tt, b1)) by (unfold sendMsg; rewrite get_bind; change (br (bs s0)) with (br b); by rewrite Hp).
  pose proof (w_pending s0 eq_refl) as S1. rewrite E0 in S1. cbn [snd] in S1.
  match type of S1 with bstep _ ?x => set (s1 := x) in S1 end.
  pose proof (w_take_pt s1 m rest (or_introl eq_refl) Hpt) as S2.
  exists (take_message PT m rest s1). split; [eapply rtc_l; [exact S0|]; eapply rtc_l; [exact S1|]; by eapply rtc_l; [exact S2|]|].
  split; [done|]. unfold take_message. cbn.
  destruct (sendMsg_run (Some m) (pop PT rest b1)) as (b' & new & E1 & _ & Hcl & _). rewrite E1. cbn.
  assert (Hs : sendMsg (Some m) (pop PT rest b1) = (Ret tt, mkBState (br (pop PT rest b1)) (bnc b) (ext b) c2)).
  { unfold sendMsg. rewrite get_bind. change (pendingGRPCOutMsg (br (pop PT rest b1))) with (pendingGRPCOutMsg (br b)). rewrite Hp. run_steps.
    by rewrite (try_bind_ret _ _ _ _ _ (on_conn_ret _ (pop PT rest b1) _ _ Es)). }
  rewrite Hs in E1. injection E1 as <-. cbn.
  destruct (stream_spec c1 m) as [(c' & E & Hc)|(e & c' & E & _)]; rewrite Es in E; [|done]. injection E as <-.
  by rewrite Hc, (opened_spec _ _ _ Eo).
Qed.
End steps.
