(* ===== verification/VizHealth.v ===== *)
(** * The health checker

    [cloud_connector/vizhealth/checker.go]: a goroutine keeps a stream of health
    checks to the query broker open, a second one receives the responses, and a
    watchdog clears the last response when none have come in.  The bridge asks for the
    status when it makes a heartbeat. *)

From S2P Require Import Prelude GoLib Uuid Messages QueryMessages BridgeMessages Bridge.

(** The goroutine that opens streams: at the top of its loop, with a stream open,
    between two attempts, or ended. *)
Inductive run_phase : Type := AtTop | StreamOpen | RunEnded.

(** [receiving] counts the goroutines that receive from a stream; [failCount],
    [hcCount] and [lastHCCount] are the variables of [run]. *)
Record Checker := mkChecker {
  latestHCResp : option debugpb.HealthCheckResponse;
  latestHCRespTime : Z;
  hc_quit : bool;
  failCount : Z;
  hcCount : Z;
  lastHCCount : Z;
  run_at : run_phase;
  receiving : nat
}.

Definition NewChecker : Checker := mkChecker None (- unixToInternal * nanos) false 0 0 (-1) AtTop 0.

Definition updateHCResp (resp : option debugpb.HealthCheckResponse) (now : Z) (c : Checker) : Checker :=
  mkChecker resp now (hc_quit c) (failCount c) (hcCount c) (lastHCCount c) (run_at c) (receiving c).

Definition set_failCount (n : Z) (c : Checker) : Checker :=
  mkChecker (latestHCResp c) (latestHCRespTime c) (hc_quit c) n (hcCount c) (lastHCCount c) (run_at c) (receiving c).
Definition set_phase (p : run_phase) (r : nat) (c : Checker) : Checker :=
  mkChecker (latestHCResp c) (latestHCRespTime c) (hc_quit c) (failCount c) (hcCount c) (lastHCCount c) p r.
Definition set_counts (n last : Z) (c : Checker) : Checker :=
  mkChecker (latestHCResp c) (latestHCRespTime c) (hc_quit c) (failCount c) n last (run_at c) (receiving c).

Definition handleFailure (now : Z) (c : Checker) : Checker :=
  let c := set_failCount (failCount c + 1) c in
  if (1 <? failCount c)%Z then updateHCResp None now c else c.

(** The steps of the goroutines, with the time. *)
Inductive hc_event : Type :=
| TryConnect (ok : bool)                                   (* the top of the loop *)
| Recv (hc : option debugpb.HealthCheckResponse)           (* [None] for an error or a nil response *)
| StreamDone                                               (* the context of the stream is done *)
| WatchdogTick
| QuitRun.

(** The step, if it can happen. *)
Definition run (e : hc_event) (now : Z) (c : Checker) : option Checker :=
  match e, run_at c with
  | TryConnect ok, AtTop =>
    if hc_quit c then None
    else
      let c := set_failCount (failCount c + 1) c in
      if (ok : bool) then Some (set_phase StreamOpen (S (receiving c)) (set_failCount 0 c))
      else Some (handleFailure now c)
  | Recv hc, _ =>
    match receiving c with
    | O => None
    | S n =>
      match hc with
      | None => Some (handleFailure now (set_phase (run_at c) n c))
      | Some hc => Some (updateHCResp (Some hc) now (set_counts (hcCount c + 1) (lastHCCount c) c))
      end
    end
  | StreamDone, StreamOpen => Some (handleFailure now (set_phase AtTop (receiving c) c))
  | WatchdogTick, _ =>
    if hc_quit c then None
    else
      let current := hcCount c in
      let c' := if (lastHCCount c =? current)%Z then updateHCResp None now c else c in
      Some (set_counts current current c')
  | QuitRun, (AtTop | StreamOpen) => if hc_quit c then Some (set_phase RunEnded (receiving c) c) else None
  | _, _ => None
  end.

(** [Stop] closes [quitCh] and, once [run] has ended, clears the response. *)
Definition close_quit (c : Checker) : Checker :=
  mkChecker (latestHCResp c) (latestHCRespTime c) true (failCount c) (hcCount c) (lastHCCount c) (run_at c) (receiving c).
Definition Stop_checker (now : Z) (c : Checker) : Checker := updateHCResp None now c.

Definition checker_GetStatus : M Checker (Z * option error) :=
  c ← get_state;
  let checkTime := latestHCRespTime c in
  match latestHCResp c with
  | None => mret (checkTime, Some (ErrMsg "missing vizier healthcheck response"))
  | Some resp =>
    st ← deref (debugpb.hc_Status resp);
    if (vizierpb.Code st =? 0)%Z then mret (checkTime, None)
    else mret (checkTime, Some (ErrMsg ("vizier healthcheck is failing: " +:+ vizierpb.StatusMessage st)))
  end.

#[export] Instance checker_health : VizierHealthChecker Checker := {| vzh_GetStatus := checker_GetStatus |}.

Fixpoint run_events (es : list (hc_event * Z)) (c : Checker) : option Checker :=
  match es with
  | [] => Some c
  | (e, now) :: es => match run e now c with Some c' => run_events es c' | None => None end
  end.

(** ** The response is cleared by one failure *)

(** [failCount] is never negative. *)
Definition hc_inv (c : Checker) : Prop := (0 <= failCount c)%Z.

Lemma handleFailure_inv now c : hc_inv c → hc_inv (handleFailure now c).
Proof. unfold hc_inv, handleFailure. cbn. intros H. destruct (_ <? _)%Z; cbn; lia. Qed.

Lemma run_inv e now c c' : hc_inv c → run e now c = Some c' → hc_inv c'.
Proof.
  unfold hc_inv. intros H E. destruct e as [ok|hc| | |], (run_at c); cbn in E; repeat case_match; simplify_eq; cbn; try lia;
    try (apply handleFailure_inv; unfold hc_inv; cbn; lia); done.
Qed.

(** One failure is enough to clear the last response: a failed attempt to connect, or
    one broken stream, which is counted by the goroutine that receives and by the one
    that waits for the end of the stream, in whichever order they see it. *)
Theorem one_failure_clears c now now' :
  hc_inv c →
  (run_at c = AtTop → hc_quit c = false → ∃ c', run (TryConnect false) now c = Some c' ∧ latestHCResp c' = None) ∧
  (run_at c = StreamOpen → receiving c ≠ 0%nat →
    (∃ c', run_events [(Recv None, now); (StreamDone, now')] c = Some c' ∧ latestHCResp c' = None) ∧
    (∃ c', run_events [(StreamDone, now); (Recv None, now')] c = Some c' ∧ latestHCResp c' = None)).
Proof.
  unfold hc_inv. intros H. split.
  - intros Ht Hq. unfold run. rewrite Ht, Hq. eexists. split; [done|]. unfold handleFailure. cbn [failCount set_failCount].
    rewrite (proj2 (Z.ltb_lt _ _)) by lia. done.
  - destruct c as [l t q f h lh ra rc]. cbn in *. intros -> Hr. destruct rc as [|rc]; [done|]. unfold handleFailure. cbn.
    split; destruct (1 <? f + 1)%Z; cbn; eexists; (split; [reflexivity|]); unfold handleFailure; cbn;
      rewrite (proj2 (Z.ltb_lt _ _)) by lia; done.
Qed.

(** While responses come in, the watchdog keeps the last one. *)
Lemma watchdog_keeps c now hc now' :
  hc_quit c = false → receiving c ≠ 0%nat → (lastHCCount c <= hcCount c)%Z →
  ∃ c', run_events [(Recv (Some hc), now); (WatchdogTick, now')] c = Some c' ∧ latestHCResp c' = Some hc ∧ latestHCRespTime c' = now.
Proof.
  destruct c as [l t q f h lh ra rc]. cbn in *. intros -> Hr Hl. destruct rc as [|rc]; [done|]. destruct ra; cbn;
    rewrite (proj2 (Z.eqb_neq _ _)) by lia; by eexists.
Qed.

Lemma one_failure_clears_witness :
  ∃ c', run (TryConnect false) 5 (updateHCResp (Some (debugpb.mkHealthCheckResponse (Some (vizierpb.mkStatus 0 "" [])))) 4 NewChecker) = Some c' ∧
    latestHCResp c' = None.
Proof.
  destruct (one_failure_clears (updateHCResp (Some (debugpb.mkHealthCheckResponse (Some (vizierpb.mkStatus 0 "" [])))) 4 NewChecker) 5 6) as [H _].
  - unfold hc_inv. cbn. lia.
  - apply H; reflexivity.
Defined.
