(* ===== verification/BridgeProto.v ===== *)
(** * Encodings of the messages of the bridge

    Every message can be written as a string and read back, which shows that what the
    theorems assume of the generated message code can hold. *)

From S2P Require Import Prelude GoLib Uuid Messages MessageBus K8sMessages QueryMessages ScriptSource BridgeMessages.
Import MemProto MemK8sProto cvmsgspb.


#[export] Instance vizierpb_col_data_dec : EqDecision vizierpb.col_data.
Proof. solve_decision. Defined.
#[export] Instance vizierpb_col_data_count : Countable vizierpb.col_data.
Proof.
  record_countable (λ x, match x with vizierpb.BooleanData y => inl (y) | vizierpb.Int64Data y => inr (inl (y)) | vizierpb.Uint128Data y => inr (inr (inl (y))) | vizierpb.Time64NsData y => inr (inr (inr (inl (y)))) | vizierpb.Float64Data y => inr (inr (inr (inr (inl (y))))) | vizierpb.StringData y => inr (inr (inr (inr (inr (y))))) end)
    (λ x, match x with inl (y) => vizierpb.BooleanData y | inr (inl (y)) => vizierpb.Int64Data y | inr (inr (inl (y))) => vizierpb.Uint128Data y | inr (inr (inr (inl (y)))) => vizierpb.Time64NsData y | inr (inr (inr (inr (inl (y))))) => vizierpb.Float64Data y | inr (inr (inr (inr (inr (y))))) => vizierpb.StringData y end).
Defined.
#[export] Instance vizierpb_RowBatchData_dec : EqDecision vizierpb.RowBatchData.
Proof. solve_decision. Defined.
#[export] Instance vizierpb_RowBatchData_count : Countable vizierpb.RowBatchData.
Proof. record_countable (λ x, (vizierpb.TableID x, vizierpb.Cols x, vizierpb.NumRows x, vizierpb.Eow x, vizierpb.Eos x)) (λ '(a, b, c, d, e), vizierpb.mkRowBatchData a b c d e). Defined.
#[export] Instance vizierpb_ColumnInfo_dec : EqDecision vizierpb.ColumnInfo.
Proof. solve_decision. Defined.
#[export] Instance vizierpb_ColumnInfo_count : Countable vizierpb.ColumnInfo.
Proof. record_countable (λ x, (vizierpb.ColumnName x, vizierpb.ColumnType x, vizierpb.ColumnDesc x, vizierpb.ColumnSemanticType x)) (λ '(a, b, c, d), vizierpb.mkColumnInfo a b c d). Defined.
#[export] Instance vizierpb_QueryMetadata_dec : EqDecision vizierpb.QueryMetadata.
Proof. solve_decision. Defined.
#[export] Instance vizierpb_QueryMetadata_count : Countable vizierpb.QueryMetadata.
Proof. record_countable (λ x, (vizierpb.Relation x, vizierpb.Name x, vizierpb.ID x)) (λ '(a, b, c), vizierpb.mkQueryMetadata a b c). Defined.
#[export] Instance vizierpb_QueryTimingInfo_dec : EqDecision vizierpb.QueryTimingInfo.
Proof. solve_decision. Defined.
#[export] Instance vizierpb_QueryTimingInfo_count : Countable vizierpb.QueryTimingInfo.
Proof. record_countable (λ x, (vizierpb.ExecutionTimeNs x, vizierpb.CompilationTimeNs x)) (λ '(a, b), vizierpb.mkQueryTimingInfo a b). Defined.
#[export] Instance vizierpb_QueryExecutionStats_dec : EqDecision vizierpb.QueryExecutionStats.
Proof. solve_decision. Defined.
#[export] Instance vizierpb_QueryExecutionStats_count : Countable vizierpb.QueryExecutionStats.
Proof. record_countable (λ x, (vizierpb.Timing x, vizierpb.BytesProcessed x, vizierpb.RecordsProcessed x)) (λ '(a, b, c), vizierpb.mkQueryExecutionStats a b c). Defined.
#[export] Instance vizierpb_QueryData_dec : EqDecision vizierpb.QueryData.
Proof. solve_decision. Defined.
#[export] Instance vizierpb_QueryData_count : Countable vizierpb.QueryData.
Proof. record_countable (λ x, (vizierpb.Batch x, vizierpb.EncryptedBatch x, vizierpb.ExecutionStats x)) (λ '(a, b, c), vizierpb.mkQueryData a b c). Defined.
#[export] Instance vizierpb_CompilerError_dec : EqDecision vizierpb.CompilerError.
Proof. solve_decision. Defined.
#[export] Instance vizierpb_CompilerError_count : Countable vizierpb.CompilerError.
Proof. record_countable (λ x, (vizierpb.Line x, vizierpb.Column x, vizierpb.Message x)) (λ '(a, b, c), vizierpb.mkCompilerError a b c). Defined.
#[export] Instance vizierpb_Status_dec : EqDecision vizierpb.Status.
Proof. solve_decision. Defined.
#[export] Instance vizierpb_Status_count : Countable vizierpb.Status.
Proof. record_countable (λ x, (vizierpb.Code x, vizierpb.StatusMessage x, vizierpb.ErrorDetails x)) (λ '(a, b, c), vizierpb.mkStatus a b c). Defined.
#[export] Instance vizierpb_MutationState_dec : EqDecision vizierpb.MutationState.
Proof. solve_decision. Defined.
#[export] Instance vizierpb_MutationState_count : Countable vizierpb.MutationState.
Proof. record_countable (λ x, (vizierpb.StateID x, vizierpb.State x, vizierpb.StateName x)) (λ '(a, b, c), vizierpb.mkMutationState a b c). Defined.
#[export] Instance vizierpb_MutationInfo_dec : EqDecision vizierpb.MutationInfo.
Proof. solve_decision. Defined.
#[export] Instance vizierpb_MutationInfo_count : Countable vizierpb.MutationInfo.
Proof. record_countable (λ x, (vizierpb.MutationStatus x, vizierpb.States x)) (λ '(a, b), vizierpb.mkMutationInfo a b). Defined.
#[export] Instance vizierpb_result_dec : EqDecision vizierpb.result.
Proof. solve_decision. Defined.
#[export] Instance vizierpb_result_count : Countable vizierpb.result.
Proof.
  record_countable (λ x, match x with vizierpb.Data y => inl (y) | vizierpb.MetaData y => inr (y) end)
    (λ x, match x with inl (y) => vizierpb.Data y | inr (y) => vizierpb.MetaData y end).
Defined.
#[export] Instance vizierpb_ExecuteScriptResponse_dec : EqDecision vizierpb.ExecuteScriptResponse.
Proof. solve_decision. Defined.
#[export] Instance vizierpb_ExecuteScriptResponse_count : Countable vizierpb.ExecuteScriptResponse.
Proof. record_countable (λ x, (vizierpb.QueryID x, vizierpb.ResponseStatus x, vizierpb.Result x, vizierpb.ResponseMutationInfo x)) (λ '(a, b, c, d), vizierpb.mkResponse a b c d). Defined.
#[export] Instance vizierpb_FuncToExecute_dec : EqDecision vizierpb.FuncToExecute.
Proof. solve_decision. Defined.
#[export] Instance vizierpb_FuncToExecute_count : Countable vizierpb.FuncToExecute.
Proof. record_countable (λ x, (vizierpb.FuncName x, vizierpb.ArgValues x, vizierpb.OutputTablePrefix x)) (λ '(a, b, c), vizierpb.mkFuncToExecute a b c). Defined.
#[export] Instance vizierpb_OTelEndpointConfig_dec : EqDecision vizierpb.OTelEndpointConfig.
Proof. solve_decision. Defined.
#[export] Instance vizierpb_OTelEndpointConfig_count : Countable vizierpb.OTelEndpointConfig.
Proof. record_countable (λ x, (vizierpb.URL x, vizierpb.Headers x, vizierpb.Insecure x, vizierpb.Timeout x)) (λ '(a, b, c, d), vizierpb.mkOTelEndpointConfig a b c d). Defined.
#[export] Instance vizierpb_PluginConfig_dec : EqDecision vizierpb.PluginConfig.
Proof. solve_decision. Defined.
#[export] Instance vizierpb_PluginConfig_count : Countable vizierpb.PluginConfig.
Proof. record_countable (λ x, (vizierpb.StartTimeNs x, vizierpb.EndTimeNs x)) (λ '(a, b), vizierpb.mkPluginConfig a b). Defined.
#[export] Instance vizierpb_Configs_dec : EqDecision vizierpb.Configs.
Proof. solve_decision. Defined.
#[export] Instance vizierpb_Configs_count : Countable vizierpb.Configs.
Proof. record_countable (λ x, (vizierpb.OTel x, vizierpb.Plugin x)) (λ '(a, b), vizierpb.mkConfigs a b). Defined.
#[export] Instance vizierpb_ExecuteScriptRequest_dec : EqDecision vizierpb.ExecuteScriptRequest.
Proof. solve_decision. Defined.
#[export] Instance vizierpb_ExecuteScriptRequest_count : Countable vizierpb.ExecuteScriptRequest.
Proof. record_countable (λ x, (vizierpb.QueryStr x, vizierpb.ExecFuncs x, vizierpb.Mutation x, vizierpb.RequestQueryID x, vizierpb.RequestConfigs x, vizierpb.QueryName x)) (λ '(a, b, c, d, e, f), vizierpb.mkRequest a b c d e f). Defined.
#[export] Instance debugpb_HealthCheckRequest_dec : EqDecision debugpb.HealthCheckRequest.
Proof. solve_decision. Defined.
#[export] Instance debugpb_HealthCheckRequest_count : Countable debugpb.HealthCheckRequest.
Proof. record_countable debugpb.hc_ClusterID debugpb.mkHealthCheckRequest. Defined.
#[export] Instance debugpb_HealthCheckResponse_dec : EqDecision debugpb.HealthCheckResponse.
Proof. solve_decision. Defined.
#[export] Instance debugpb_HealthCheckResponse_count : Countable debugpb.HealthCheckResponse.
Proof. record_countable debugpb.hc_Status debugpb.mkHealthCheckResponse. Defined.
#[export] Instance debugpb_GenerateOTelScriptRequest_dec : EqDecision debugpb.GenerateOTelScriptRequest.
Proof. solve_decision. Defined.
#[export] Instance debugpb_GenerateOTelScriptRequest_count : Countable debugpb.GenerateOTelScriptRequest.
Proof. record_countable (λ x, (debugpb.otel_ClusterID x, debugpb.otel_PxlScript x)) (λ '(a, b), debugpb.mkOTelRequest a b). Defined.
#[export] Instance debugpb_GenerateOTelScriptResponse_dec : EqDecision debugpb.GenerateOTelScriptResponse.
Proof. solve_decision. Defined.
#[export] Instance debugpb_GenerateOTelScriptResponse_count : Countable debugpb.GenerateOTelScriptResponse.
Proof. record_countable (λ x, (debugpb.otel_Status x, debugpb.OTelScript x)) (λ '(a, b), debugpb.mkOTelResponse a b). Defined.
#[export] Instance debugpb_DebugLogRequest_dec : EqDecision debugpb.DebugLogRequest.
Proof. solve_decision. Defined.
#[export] Instance debugpb_DebugLogRequest_count : Countable debugpb.DebugLogRequest.
Proof. record_countable (λ x, (debugpb.PodName x, debugpb.Previous x, debugpb.Container x)) (λ '(a, b, c), debugpb.mkDebugLogRequest a b c). Defined.
#[export] Instance debugpb_DebugLogResponse_dec : EqDecision debugpb.DebugLogResponse.
Proof. solve_decision. Defined.
#[export] Instance debugpb_DebugLogResponse_count : Countable debugpb.DebugLogResponse.
Proof. record_countable debugpb.Data debugpb.mkDebugLogResponse. Defined.
#[export] Instance debugpb_PodPhase_dec : EqDecision debugpb.PodPhase.
Proof. solve_decision. Defined.
#[export] Instance debugpb_PodPhase_count : Countable debugpb.PodPhase.
Proof.
  record_countable (λ x, match x with debugpb.PHASE_UNKNOWN => inl (tt) | debugpb.PENDING => inr (inl (tt)) | debugpb.RUNNING => inr (inr (inl (tt))) | debugpb.SUCCEEDED => inr (inr (inr (inl (tt)))) | debugpb.FAILED => inr (inr (inr (inr (tt)))) end)
    (λ x, match x with inl (tt) => debugpb.PHASE_UNKNOWN | inr (inl (tt)) => debugpb.PENDING | inr (inr (inl (tt))) => debugpb.RUNNING | inr (inr (inr (inl (tt)))) => debugpb.SUCCEEDED | inr (inr (inr (inr (tt)))) => debugpb.FAILED end).
Defined.
#[export] Instance debugpb_ContainerState_dec : EqDecision debugpb.ContainerState.
Proof. solve_decision. Defined.
#[export] Instance debugpb_ContainerState_count : Countable debugpb.ContainerState.
Proof.
  record_countable (λ x, match x with debugpb.CONTAINER_STATE_UNKNOWN => inl (tt) | debugpb.CONTAINER_STATE_RUNNING => inr (inl (tt)) | debugpb.CONTAINER_STATE_TERMINATED => inr (inr (inl (tt))) | debugpb.CONTAINER_STATE_WAITING => inr (inr (inr (tt))) end)
    (λ x, match x with inl (tt) => debugpb.CONTAINER_STATE_UNKNOWN | inr (inl (tt)) => debugpb.CONTAINER_STATE_RUNNING | inr (inr (inl (tt))) => debugpb.CONTAINER_STATE_TERMINATED | inr (inr (inr (tt))) => debugpb.CONTAINER_STATE_WAITING end).
Defined.
#[export] Instance debugpb_ContainerStatus_dec : EqDecision debugpb.ContainerStatus.
Proof. solve_decision. Defined.
#[export] Instance debugpb_ContainerStatus_count : Countable debugpb.ContainerStatus.
Proof. record_countable (λ x, (debugpb.cs_Name x, debugpb.cs_ContainerState x, debugpb.cs_Message x, debugpb.cs_Reason x, debugpb.cs_StartTimestampNS x, debugpb.cs_RestartCount x)) (λ '(a, b, c, d, e, f), debugpb.mkContainerStatus a b c d e f). Defined.
#[export] Instance debugpb_VizierPodStatus_dec : EqDecision debugpb.VizierPodStatus.
Proof. solve_decision. Defined.
#[export] Instance debugpb_VizierPodStatus_count : Countable debugpb.VizierPodStatus.
Proof. record_countable (λ x, (debugpb.vps_Name x, debugpb.vps_Phase x, debugpb.vps_Message x, debugpb.vps_Reason x, debugpb.vps_CreatedAt x, debugpb.vps_ContainerStatuses x, debugpb.vps_RestartCount x)) (λ '(a, b, c, d, e, f, g), debugpb.mkVizierPodStatus a b c d e f g). Defined.
#[export] Instance debugpb_DebugPodsRequest_dec : EqDecision debugpb.DebugPodsRequest.
Proof. solve_decision. Defined.
#[export] Instance debugpb_DebugPodsRequest_count : Countable debugpb.DebugPodsRequest.
Proof. record_countable debugpb.dp_ClusterID debugpb.mkDebugPodsRequest. Defined.
#[export] Instance debugpb_DebugPodsResponse_dec : EqDecision debugpb.DebugPodsResponse.
Proof. solve_decision. Defined.
#[export] Instance debugpb_DebugPodsResponse_count : Countable debugpb.DebugPodsResponse.
Proof. record_countable (λ x, (debugpb.ControlPlanePods x, debugpb.DataPlanePods x)) (λ '(a, b), debugpb.mkDebugPodsResponse a b). Defined.
#[export] Instance cloudpb_Timestamp_dec : EqDecision cloudpb.Timestamp.
Proof. solve_decision. Defined.
#[export] Instance cloudpb_Timestamp_count : Countable cloudpb.Timestamp.
Proof. record_countable (λ x, (cloudpb.Seconds x, cloudpb.Nanos x)) (λ '(a, b), cloudpb.mkTimestamp a b). Defined.
#[export] Instance cloudpb_ContainerStatus_dec : EqDecision cloudpb.ContainerStatus.
Proof. solve_decision. Defined.
#[export] Instance cloudpb_ContainerStatus_count : Countable cloudpb.ContainerStatus.
Proof. record_countable (λ x, (cloudpb.cs_Name x, cloudpb.cs_State x, cloudpb.cs_Message x, cloudpb.cs_Reason x, cloudpb.cs_CreatedAt x, cloudpb.cs_RestartCount x)) (λ '(a, b, c, d, e, f), cloudpb.mkContainerStatus a b c d e f). Defined.
#[export] Instance cloudpb_K8SEvent_dec : EqDecision cloudpb.K8SEvent.
Proof. solve_decision. Defined.
#[export] Instance cloudpb_K8SEvent_count : Countable cloudpb.K8SEvent.
Proof. record_countable (λ x, (cloudpb.ke_Message x, cloudpb.ke_FirstTime x, cloudpb.ke_LastTime x)) (λ '(a, b, c), cloudpb.mkK8SEvent a b c). Defined.
#[export] Instance cloudpb_PodStatus_dec : EqDecision cloudpb.PodStatus.
Proof. solve_decision. Defined.
#[export] Instance cloudpb_PodStatus_count : Countable cloudpb.PodStatus.
Proof. record_countable (λ x, (cloudpb.ps_Name x, cloudpb.ps_Status x, cloudpb.ps_StatusMessage x, cloudpb.ps_Containers x, cloudpb.ps_CreatedAt x, cloudpb.ps_Events x, cloudpb.ps_RestartCount x)) (λ '(a, b, c, d, e, f, g), cloudpb.mkPodStatus a b c d e f g). Defined.
#[export] Instance cloudpb_VizierClusterInfo_dec : EqDecision cloudpb.VizierClusterInfo.
Proof. solve_decision. Defined.
#[export] Instance cloudpb_VizierClusterInfo_count : Countable cloudpb.VizierClusterInfo.
Proof. record_countable (λ x, (cloudpb.ClusterUID x, cloudpb.ClusterName x, cloudpb.VizierVersion x)) (λ '(a, b, c), cloudpb.mkVizierClusterInfo a b c). Defined.
#[export] Instance cloudpb_RegisterVizierRequest_dec : EqDecision cloudpb.RegisterVizierRequest.
Proof. solve_decision. Defined.
#[export] Instance cloudpb_RegisterVizierRequest_count : Countable cloudpb.RegisterVizierRequest.
Proof. record_countable (λ x, (cloudpb.rv_VizierID x, cloudpb.JwtKey x, cloudpb.ClusterInfo x)) (λ '(a, b, c), cloudpb.mkRegisterVizierRequest a b c). Defined.
#[export] Instance cloudpb_RegistrationStatus_dec : EqDecision cloudpb.RegistrationStatus.
Proof. solve_decision. Defined.
#[export] Instance cloudpb_RegistrationStatus_count : Countable cloudpb.RegistrationStatus.
Proof.
  record_countable (λ x, match x with cloudpb.ST_UNKNOWN => inl (tt) | cloudpb.ST_OK => inr (inl (tt)) | cloudpb.ST_FAILED_NOT_FOUND => inr (inr (tt)) end)
    (λ x, match x with inl (tt) => cloudpb.ST_UNKNOWN | inr (inl (tt)) => cloudpb.ST_OK | inr (inr (tt)) => cloudpb.ST_FAILED_NOT_FOUND end).
Defined.
#[export] Instance cloudpb_RegisterVizierAck_dec : EqDecision cloudpb.RegisterVizierAck.
Proof. solve_decision. Defined.
#[export] Instance cloudpb_RegisterVizierAck_count : Countable cloudpb.RegisterVizierAck.
Proof. record_countable (λ x, (cloudpb.ack_Status x, cloudpb.ack_VizierName x)) (λ '(a, b), cloudpb.mkRegisterVizierAck a b). Defined.
#[export] Instance cloudpb_VizierStatus_dec : EqDecision cloudpb.VizierStatus.
Proof. solve_decision. Defined.
#[export] Instance cloudpb_VizierStatus_count : Countable cloudpb.VizierStatus.
Proof.
  record_countable (λ x, match x with cloudpb.VZ_ST_UNKNOWN => inl (tt) | cloudpb.VZ_ST_HEALTHY => inr (inl (tt)) | cloudpb.VZ_ST_UNHEALTHY => inr (inr (inl (tt))) | cloudpb.VZ_ST_DISCONNECTED => inr (inr (inr (inl (tt)))) | cloudpb.VZ_ST_UPDATING => inr (inr (inr (inr (inl (tt))))) | cloudpb.VZ_ST_CONNECTED => inr (inr (inr (inr (inr (inl (tt)))))) | cloudpb.VZ_ST_UPDATE_FAILED => inr (inr (inr (inr (inr (inr (inl (tt))))))) | cloudpb.VZ_ST_DEGRADED => inr (inr (inr (inr (inr (inr (inr (tt))))))) end)
    (λ x, match x with inl (tt) => cloudpb.VZ_ST_UNKNOWN | inr (inl (tt)) => cloudpb.VZ_ST_HEALTHY | inr (inr (inl (tt))) => cloudpb.VZ_ST_UNHEALTHY | inr (inr (inr (inl (tt)))) => cloudpb.VZ_ST_DISCONNECTED | inr (inr (inr (inr (inl (tt))))) => cloudpb.VZ_ST_UPDATING | inr (inr (inr (inr (inr (inl (tt)))))) => cloudpb.VZ_ST_CONNECTED | inr (inr (inr (inr (inr (inr (inl (tt))))))) => cloudpb.VZ_ST_UPDATE_FAILED | inr (inr (inr (inr (inr (inr (inr (tt))))))) => cloudpb.VZ_ST_DEGRADED end).
Defined.
#[export] Instance cloudpb_VizierHeartbeat_dec : EqDecision cloudpb.VizierHeartbeat.
Proof. solve_decision. Defined.
#[export] Instance cloudpb_VizierHeartbeat_count : Countable cloudpb.VizierHeartbeat.
Proof. record_countable (λ x, (cloudpb.hb_VizierID x, cloudpb.hb_Time x, cloudpb.hb_SequenceNumber x, cloudpb.hb_PodStatuses x, cloudpb.hb_UnhealthyDataPlanePodStatuses x, cloudpb.hb_PodStatusesLastUpdated x, cloudpb.hb_Status x, cloudpb.hb_NumNodes x, cloudpb.hb_NumInstrumentedNodes x, cloudpb.hb_DisableAutoUpdate x, cloudpb.hb_StatusMessage x, cloudpb.hb_K8sClusterVersion x, cloudpb.hb_OperatorVersion x)) (λ '(a, b, c, d, e, f, g, h, i, j, k, l, m), cloudpb.mkVizierHeartbeat a b c d e f g h i j k l m). Defined.
#[export] Instance cloudpb_UpdateOrInstallVizierRequest_dec : EqDecision cloudpb.UpdateOrInstallVizierRequest.
Proof. solve_decision. Defined.
#[export] Instance cloudpb_UpdateOrInstallVizierRequest_count : Countable cloudpb.UpdateOrInstallVizierRequest.
Proof. record_countable (λ x, (cloudpb.up_Version x, cloudpb.up_Token x, cloudpb.up_RedeployEtcd x)) (λ '(a, b, c), cloudpb.mkUpdateRequest a b c). Defined.
#[export] Instance cloudpb_UpdateOrInstallVizierResponse_dec : EqDecision cloudpb.UpdateOrInstallVizierResponse.
Proof. solve_decision. Defined.
#[export] Instance cloudpb_UpdateOrInstallVizierResponse_count : Countable cloudpb.UpdateOrInstallVizierResponse.
Proof. record_countable cloudpb.UpdateStarted cloudpb.mkUpdateResponse. Defined.
#[export] Instance cloudpb_c2v_msg_dec : EqDecision cloudpb.c2v_msg.
Proof. solve_decision. Defined.
#[export] Instance cloudpb_c2v_msg_count : Countable cloudpb.c2v_msg.
Proof.
  record_countable (λ x, match x with cloudpb.ExecReq y => inl (y) | cloudpb.HcReq y => inr (inl (y)) | cloudpb.CancelReq => inr (inr (inl (tt))) | cloudpb.DebugLogReq y => inr (inr (inr (inl (y)))) | cloudpb.DebugPodsReq y => inr (inr (inr (inr (inl (y))))) | cloudpb.GenerateOTelScriptReq y => inr (inr (inr (inr (inr (y))))) end)
    (λ x, match x with inl (y) => cloudpb.ExecReq y | inr (inl (y)) => cloudpb.HcReq y | inr (inr (inl (tt))) => cloudpb.CancelReq | inr (inr (inr (inl (y)))) => cloudpb.DebugLogReq y | inr (inr (inr (inr (inl (y))))) => cloudpb.DebugPodsReq y | inr (inr (inr (inr (inr (y))))) => cloudpb.GenerateOTelScriptReq y end).
Defined.
#[export] Instance cloudpb_C2VAPIStreamRequest_dec : EqDecision cloudpb.C2VAPIStreamRequest.
Proof. solve_decision. Defined.
#[export] Instance cloudpb_C2VAPIStreamRequest_count : Countable cloudpb.C2VAPIStreamRequest.
Proof. record_countable (λ x, (cloudpb.c2v_RequestID x, cloudpb.c2v_Token x, cloudpb.c2v_Req x)) (λ '(a, b, c), cloudpb.mkC2VAPIStreamRequest a b c). Defined.
#[export] Instance cloudpb_v2c_msg_dec : EqDecision cloudpb.v2c_msg.
Proof. solve_decision. Defined.
#[export] Instance cloudpb_v2c_msg_count : Countable cloudpb.v2c_msg.
Proof.
  record_countable (λ x, match x with cloudpb.ExecResp y => inl (y) | cloudpb.HcResp y => inr (inl (y)) | cloudpb.Status y => inr (inr (inl (y))) | cloudpb.DebugLogResp y => inr (inr (inr (inl (y)))) | cloudpb.DebugPodsResp y => inr (inr (inr (inr (inl (y))))) | cloudpb.GenerateOTelScriptResp y => inr (inr (inr (inr (inr (y))))) end)
    (λ x, match x with inl (y) => cloudpb.ExecResp y | inr (inl (y)) => cloudpb.HcResp y | inr (inr (inl (y))) => cloudpb.Status y | inr (inr (inr (inl (y)))) => cloudpb.DebugLogResp y | inr (inr (inr (inr (inl (y))))) => cloudpb.DebugPodsResp y | inr (inr (inr (inr (inr (y))))) => cloudpb.GenerateOTelScriptResp y end).
Defined.
#[export] Instance cloudpb_V2CAPIStreamResponse_dec : EqDecision cloudpb.V2CAPIStreamResponse.
Proof. solve_decision. Defined.
#[export] Instance cloudpb_V2CAPIStreamResponse_count : Countable cloudpb.V2CAPIStreamResponse.
Proof. record_countable (λ x, (cloudpb.v2c_RequestID x, cloudpb.v2c_Resp x)) (λ '(a, b), cloudpb.mkV2CAPIStreamResponse a b). Defined.
#[export] Instance cloudpb_MetricsMessage_dec : EqDecision cloudpb.MetricsMessage.
Proof. solve_decision. Defined.
#[export] Instance cloudpb_MetricsMessage_count : Countable cloudpb.MetricsMessage.
Proof. record_countable (λ x, (cloudpb.PromMetricsText x, cloudpb.mm_PodName x)) (λ '(a, b), cloudpb.mkMetricsMessage a b). Defined.
#[export] Instance C2VMessage_dec : EqDecision C2VMessage.
Proof. solve_decision. Defined.
#[export] Instance C2VMessage_count : Countable C2VMessage.
Proof. record_countable (λ x, (c2v_VizierID x, c2v_Msg x)) (λ '(a, b), mkC2VMessage a b). Defined.
#[export] Instance V2CMessage_dec : EqDecision V2CMessage.
Proof. solve_decision. Defined.
#[export] Instance V2CMessage_count : Countable V2CMessage.
Proof. record_countable (λ x, (v2c_VizierID x, v2c_ClusterUID x, v2c_SessionID x, v2c_Msg x)) (λ '(a, b, c, d), mkV2CMessage a b c d). Defined.

(** A message packed under a name. *)
Definition any_under (name : string) {T} `{!Proto T} : AnyProto T := {|
  MarshalAny x := match Marshal x with inr b => inr (name, b) | inl e => inl e end;
  UnmarshalAny a := match a with
    | None => inl (ErrMsg "message is nil")
    | Some (n, b) => if bool_decide (n = name) then Unmarshal b else inl (ErrMsg "mismatched message type")
    end
|}.

Lemma any_under_spec name {T} `{!Proto T} `{!ProtoSpec T} : @AnyProtoSpec T (any_under name).
Proof.
  split. intros x. destruct (proto_roundtrip x) as (b & E & E'). exists (name, b). cbn. rewrite E. split; [done|].
  by rewrite bool_decide_eq_true_2.
Qed.

#[export] Instance update_req_any : AnyProto cloudpb.UpdateOrInstallVizierRequest := any_under "UpdateOrInstallVizierRequest".
#[export] Instance update_req_any_spec : AnyProtoSpec cloudpb.UpdateOrInstallVizierRequest.
Proof. apply any_under_spec, count_proto_spec. Qed.
#[export] Instance update_resp_any : AnyProto cloudpb.UpdateOrInstallVizierResponse := any_under "UpdateOrInstallVizierResponse".
#[export] Instance update_resp_any_spec : AnyProtoSpec cloudpb.UpdateOrInstallVizierResponse.
Proof. apply any_under_spec, count_proto_spec. Qed.
#[export] Instance response_any : AnyProto cloudpb.V2CAPIStreamResponse := any_under "V2CAPIStreamResponse".
#[export] Instance response_any_spec : AnyProtoSpec cloudpb.V2CAPIStreamResponse.
Proof. apply any_under_spec, count_proto_spec. Qed.
#[export] Instance request_any : AnyProto cloudpb.C2VAPIStreamRequest := any_under "C2VAPIStreamRequest".
#[export] Instance request_any_spec : AnyProtoSpec cloudpb.C2VAPIStreamRequest.
Proof. apply any_under_spec, count_proto_spec. Qed.
#[export] Instance heartbeat_any : AnyProto cloudpb.VizierHeartbeat := any_under "VizierHeartbeat".
#[export] Instance heartbeat_any_spec : AnyProtoSpec cloudpb.VizierHeartbeat.
Proof. apply any_under_spec, count_proto_spec. Qed.
#[export] Instance register_any : AnyProto cloudpb.RegisterVizierRequest := any_under "RegisterVizierRequest".
#[export] Instance register_any_spec : AnyProtoSpec cloudpb.RegisterVizierRequest.
Proof. apply any_under_spec, count_proto_spec. Qed.
#[export] Instance ack_any : AnyProto cloudpb.RegisterVizierAck := any_under "RegisterVizierAck".
#[export] Instance ack_any_spec : AnyProtoSpec cloudpb.RegisterVizierAck.
Proof. apply any_under_spec, count_proto_spec. Qed.
(** Metrics are written as they are. *)
#[export] Instance string_any : AnyProto string := any_under "WriteRequest".
