(* ===== verification/BridgeRuns.v ===== *)
(** * The bridge as it is deployed

    [cloud_connector/cloud_connector_server.go] gives the bridge one [K8sVizierInfo] as both its
    [VizierInfo] and its [VizierOperatorInfo], and the health checker.  The first part
    shows that they are what the theorems on the bridge ask for; the second runs the
    bridge on a small cluster and on a stream in memory. *)

From S2P Require Import Prelude GoLib Uuid Messages MessageBus K8sMessages K8sConvert QueryMessages ScriptSource BridgeMessages VizierInfo Bridge BridgeFacts BridgeSteps VizHealth BridgeProto.
Import MemProto cvmsgspb vzconnpb cloudpb.

(** ** The parts of the deployment *)

(** The cluster and what the connector knows of it, and the checker. *)
Record deployed {W : Type} := mkDeployed { info : vz_state (W := W); checker : Checker }.
#[global] Arguments deployed : clear implicits.

Section deployed.
Context {W : Type} `{!Clientset W}.
Context (FormatLabelSelector : metav1.LabelSelector → string) (version_string : string).
Context (decode : string → error + option batchv1.Job) (semver_Parse : string → error + nat).

Definition on_info {A} (m : M vz_state A) : M (deployed W) A := zoom info (λ i s, mkDeployed W i (checker s)) m.
Definition on_checker {A} (m : M Checker A) : M (deployed W) A := zoom checker (λ c s, mkDeployed W (info s) c) m.

Definition deployed_info : VizierInfo (deployed W) := {|
  vzi_GetVizierClusterInfo := on_info (GetVizierClusterInfo version_string);
  vzi_GetK8sState := on_info GetK8sState;
  vzi_ParseJobYAML y tags env := ParseJobYAML decode semver_Parse y tags env;
  vzi_LaunchJob j := on_info (LaunchJob j);
  vzi_CreateSecret n l := on_info (CreateSecret n l);
  vzi_WaitForJobCompletion n := on_info (WaitForJobCompletion n);
  vzi_DeleteJob n := on_info (DeleteJob n);
  vzi_GetJob n := on_info (GetJob n);
  vzi_UpdateClusterID id := on_info (UpdateClusterID id);
  vzi_UpdateClusterName n := on_info (UpdateClusterName n);
  vzi_UpdateClusterIDAnnotation id := on_info (UpdateClusterIDAnnotation id);
  vzi_GetVizierPodLogs n p c := on_info (GetVizierPodLogs n p c);
  vzi_GetVizierPods := on_info (GetVizierPods FormatLabelSelector)
|}.
#[local] Existing Instance deployed_info.

#[export] Instance deployed_operator : VizierOperatorInfo (deployed W) := {|
  vzo_UpdateCRDVizierVersion v := on_info (UpdateCRDVizierVersion v);
  vzo_GetVizierCRD := on_info GetVizierCRD
|}.

#[export] Instance deployed_health : VizierHealthChecker (deployed W) := {| vzh_GetStatus := on_checker vzh_GetStatus |}.

(** The last response of the query broker has a status. *)
Definition checker_ok (c : Checker) : Prop := ∀ resp, latestHCResp c = Some resp → is_Some (debugpb.hc_Status resp).
Definition deployed_ok (d : deployed W) : Prop := checker_ok (checker d).

Lemma deployed_k8s_state d : deployed_ok d → ∃ st d', vzi_GetK8sState d = (Ret st, d') ∧ deployed_ok d'.
Proof.
  intros Hd. cbn. unfold on_info, zoom. destruct (GetK8sState (info d)) as [o i] eqn:E. unfold GetK8sState in E. rewrite get_bind in E.
  injection E as <- <-. by eexists _, _.
Qed.

Lemma deployed_status d : deployed_ok d → ∃ t d', vzh_GetStatus d = (Ret t, d') ∧ deployed_ok d'.
Proof.
  intros Hd. unfold deployed_ok, checker_ok in Hd. cbn. unfold on_checker, zoom, checker_GetStatus. rewrite get_bind.
  destruct (latestHCResp (checker d)) as [resp|] eqn:E.
  - destruct (Hd resp eq_refl) as [st Est]. rewrite Est. rewrite deref_bind. destruct (_ =? 0)%Z; eexists _, _; split; try done;
      intros r Hr; cbn in Hr; rewrite E in Hr; injection Hr as <-; by rewrite Est.
  - eexists _, _. split; [done|]. intros r Hr. cbn in Hr. by rewrite E in Hr.
Qed.

(** A client whose list of resources does not panic. *)
Context (list_returns : ∀ ns (w : W) c, (Viziers_List ns w).1 ≠ Crash c).

Lemma deployed_crd d : deployed_ok d → ∃ o d', vzo_GetVizierCRD d = (o, d') ∧ (∀ c, o ≠ Crash c) ∧ deployed_ok d'.
Proof using list_returns.
  intros Hd. cbn. unfold on_info, zoom. destruct (GetVizierCRD (info d)) as [o i] eqn:E. eexists _, _. split; [done|]. split; [|done].
  intros c ->. unfold GetVizierCRD, the_ns, k8s, zoom in E. cbn in E. unfold mbind, M_bind in E. cbn in E.
  pose proof (list_returns (ns (vi (info d))) (cluster (info d))) as Hl. destruct (Viziers_List _ _) as [[l|e|c'] w]; cbn in *.
  - by destruct l.
  - done.
  - by destruct (Hl c').
Qed.

End deployed.

(** ** Runs *)

Module BridgeRuns.
Import MemNats MemUuid MemK8s.

(** A stream that takes every message. *)
Record good_stream := mkGood { g_cloud : list V2CBridgeMessage }.
#[export] Instance good_client : VZConnServiceClient good_stream := {|
  vzc_RegisterVizierDeployment _ _ := mret (mkRegisterDeploymentResponse None "vz");
  vzc_NATSBridge := mret tt;
  stream_Send m := modify (λ c, mkGood (g_cloud c ++ [m]))
|}.
#[export] Instance good_spec : StreamSpec good_stream g_cloud.
Proof. split; [intros c m; left; by eexists|]. intros c o c' E. by injection E as _ <-. Qed.

(** A stream that takes none. *)
Record dead_stream := mkDead { d_cloud : list V2CBridgeMessage }.
#[export] Instance dead_client : VZConnServiceClient dead_stream := {|
  vzc_RegisterVizierDeployment _ _ := mret (mkRegisterDeploymentResponse None "vz");
  vzc_NATSBridge := mret tt;
  stream_Send m := fail (ErrMsg "EOF")
|}.

#[export] Instance run_info : VizierInfo (deployed mem_cluster) :=
  deployed_info (λ _, "app in (pixie-operator)") "0.14" (λ _, inl (ErrMsg "no yaml")) (λ _, inr 0%nat).

Definition d_1 : deployed mem_cluster := mkDeployed mem_cluster vz_1 NewChecker.
Definition b_1 : Bridge uuid := New uuid_Nil "" "key" "deploy" 3 true.
Definition s_1 : bstate (U := mem_uuid_lib) (N := mem_conn) (I := deployed mem_cluster) (C := good_stream) :=
  mkBState b_1 [] d_1 (mkGood []).

Definition log_req : debugpb.DebugLogRequest := debugpb.mkDebugLogRequest "kelvin" false "".

Lemma debug_log_delivered_witness :
  ∃ s' ms chunks, handleDebugLogRequest "r" (Some log_req) s_1 = (Ret tt, s') ∧ published_more (log := mem_log) (up := mem_up) s_1 s' ms ∧
    replies "r" ((chunk_response "r" <$> chunks) ++ [status_response "r" codes.OK ""]) ms ∧ join_chunks chunks = "started".
Proof.
  destruct (debug_log_delivered (log := mem_log) (up := mem_up) "r" log_req "started" s_1) as (s' & ms & chunks & H1 & H2 & H3 & H4 & _).
  - exact Logic.I.
  - reflexivity.
  - by exists s', ms, chunks.
Defined.

(** A client that receives everything. *)
Definition client_Send (r : debugpb.DebugLogResponse) : M (list debugpb.DebugLogResponse) unit := modify (λ l, l ++ [r]).
Lemma client_send_ok r (v : list debugpb.DebugLogResponse) : ∃ v', client_Send r v = (Ret tt, v') ∧ v' = v ++ [r].
Proof. by eexists. Qed.

Lemma debug_log_never_ends_witness :
  ∃ v', DebugLog client_Send 4 log_req (s_1, []) = (Crash Hang, (s_1, v')) ∧
    v' = [] ++ replicate 4 (debugpb.mkDebugLogResponse (log_chunk "started" 0)).
Proof. apply (debug_log_never_ends client_Send id client_send_ok log_req "started" s_1 [] 4). reflexivity. Defined.

(** A script that the cloud sent on the last stream is waiting. *)
Definition stale : C2VBridgeMessage := mkC2VBridgeMessage "VizierPassthroughRequest" None.
Definition s_2 : bstate (U := mem_uuid_lib) (N := mem_conn) (I := deployed mem_cluster) (C := good_stream) :=
  mkBState (set_grpcInCh [Some stale] b_1) [] d_1 (mkGood []).

Lemma handshake_takes_next_message_witness :
  ∃ o s', doRegistrationHandshake FromGrpcInCh s_2 = (o, s') ∧
    handshake_result (UnmarshalAny (T := RegisterVizierAck) (cm_Msg stale)) o ∧ grpcInCh (br s') = [].
Proof.
  apply (handshake_takes_next_message s_2 (mkVizierClusterInfo "uid" "c" "0.14") d_1 stale []).
  - reflexivity.
  - intros m. eexists. reflexivity.
  - reflexivity.
  - intros n. eexists _, _. split; [reflexivity|]. intros c. discriminate.
Defined.

Lemma run_k8s_state (d : deployed mem_cluster) : deployed_ok d → ∃ st d', vzi_GetK8sState d = (Ret st, d') ∧ deployed_ok d'.
Proof. apply deployed_k8s_state. Qed.

Lemma mem_list_returns ns (w : mem_cluster) c : (Viziers_List ns w).1 ≠ Crash c.
Proof. done. Qed.

Lemma heartbeats_numbered_witness :
  ∃ hbs s', generateHeartbeats false [(5, 5); (6, 6)]%Z false s_1 = (Ret hbs, s') ∧ hb_SequenceNumber <$> hbs = [0; 1]%Z.
Proof.
  destruct (heartbeats_numbered false deployed_ok run_k8s_state
    (deployed_crd mem_list_returns) deployed_status [(5, 5); (6, 6)]%Z false s_1) as (hbs & s' & E & Hn & _).
  - intros resp Hr. discriminate.
  - vm_compute. discriminate.
  - vm_compute. reflexivity.
  - exists hbs, s'. split; [exact E|exact Hn].
Defined.

(** A message is waiting; the first stream is opened and the writer looks for a
    pending message. *)
Definition m_1 : V2CBridgeMessage := mkV2CBridgeMessage "reply-r" 3 None.
Definition m_2 : V2CBridgeMessage := mkV2CBridgeMessage "reply-s" 3 None.
Definition b_2 : Bridge uuid := set_queues [] [m_1; m_2] None 0 b_1.
Definition parse_prom (text vizier pod : string) : error + string := inr text.

Lemma bridge_conserves_witness :
  let b := mkBState b_2 [] d_1 (mkGood []) : bstate (U := mem_uuid_lib) (N := mem_conn) (I := deployed mem_cluster) (C := good_stream) in
  ∃ s, rtc (bstep (handed := g_cloud) parse_prom "") (start b) s ∧ taken_from PT (taken s) ++ queue PT (bs s) = [m_1; m_2] ∧
    wsent s = [m_1].
Proof.
  intros b. set (s1 := mkSys b false false WTop BRegistering (λ x, queue x b) [] []).
  set (s2 := mkSys b false false WSel1 BRegistering (λ x, queue x b) [] []).
  set (s3 := take_message (handed := g_cloud) PT m_1 [m_2] s2).
  assert (Hr : rtc (bstep (handed := g_cloud) parse_prom "") (start b) s3).
  { eapply rtc_l; [by apply (s_start parse_prom "" (start b) (mkGood []))|].
    eapply rtc_l; [by apply (w_pending parse_prom "" s1)|].
    eapply rtc_l; [by apply (w_take_pt parse_prom "" s2 m_1 [m_2]); [left|]|]. reflexivity. }
  destruct (bridge_conserves parse_prom "" b s3) as (H1 & H2 & _).
  - intros []; vm_compute; lia.
  - reflexivity.
  - exact Hr.
  - exists s3. split_and!; [exact Hr|exact (H1 PT)|reflexivity].
Defined.

Definition s_3 : sys (U := mem_uuid_lib) (N := mem_conn) (I := deployed mem_cluster) (C := dead_stream) :=
  mkSys (mkBState b_2 [] d_1 (mkDead [])) false false WTop BWaiting (λ x, queue x (mkBState b_2 [] d_1 (mkDead []))) [] [].

Lemma broken_stream_loses_messages_witness :
  ∃ s', rtc (bstep (handed := d_cloud) parse_prom "") s_3 s' ∧ ptOutCh (br (bs s')) = [] ∧
    pendingGRPCOutMsg (br (bs s')) = Some m_1 ∧ wsent s' = [] ∧ taken s' = [(PT, m_1, false); (PT, m_2, true)].
Proof.
  apply (broken_stream_loses_messages (handed := d_cloud) parse_prom "" s_3 m_1 [m_2]).
  - intros c m. by eexists _, _.
  - reflexivity.
  - reflexivity.
  - reflexivity.
Defined.

(** The queue of replies is full, the writer has ended. *)
Definition full : Bridge uuid := set_queues [] (replicate chan_capacity m_1) None 0 b_1.
Definition reply_2 : string := enc (mkV2CMessage "" "" 0 None).
Definition s_4 : sys (U := mem_uuid_lib) (N := mem_conn) (I := deployed mem_cluster) (C := good_stream) :=
  mkSys (mkBState full [] d_1 (mkGood [])) true false WExited (BHandling (FromNats (reply_topic "r") reply_2)) (λ _, []) [] [].
Definition stopped (s : sys (U := mem_uuid_lib) (N := mem_conn) (I := deployed mem_cluster) (C := good_stream)) :
    sys (U := mem_uuid_lib) (N := mem_conn) (I := deployed mem_cluster) (C := good_stream) :=
  mkSys (mkBState (Stop (br (bs s))) (bnc (bs s)) (ext (bs s)) (conn (bs s))) (ctx_done s) (done_closed s) (wr s) (bridging s)
    (given s) (taken s) (wsent s).

Lemma full_queue_blocks_forever_witness :
  bridging (stopped s_4) = BHandling (FromNats (reply_topic "r") reply_2) ∧ wr (stopped s_4) = WExited.
Proof.
  apply (full_queue_blocks_forever (handed := g_cloud) parse_prom "" "r" reply_2 (mkV2CMessage "" "" 0 None) s_4).
  - apply Unmarshal_enc.
  - split; [reflexivity|reflexivity|]. apply length_replicate.
  - apply rtc_once. exact (s_stop (handed := g_cloud) parse_prom "" s_4).
Defined.
End BridgeRuns.
