(* ===== verification/PTProxy.v ===== *)
(** * The passthrough proxy

    [query_broker/ptproxy/pt_proxy.go]: the query broker receives the requests of the
    cloud that the bridge forwards on NATS, makes them on its own API, and publishes
    the responses on the topic of the request, from which the bridge sends them to the
    cloud.  This file has the operations and what a request is answered with; the
    goroutines that run them are in [ProxySteps]. *)

From S2P Require Import Prelude GoLib Uuid Messages MessageBus K8sMessages QueryMessages ScriptSource BridgeMessages.
Import cvmsgspb cloudpb.

Definition PassthroughRequestChannel : string := "c2v.VizierPassthroughRequest".
(** The capacity of [subCh]. *)
Definition subCh_capacity : nat := 4096.

(** A context: its outgoing metadata, and whether it is cancelled. *)
Record context := mkContext { authorization : string; canceled : bool }.

Record RequestState := mkRequestState { requestID : string; startTime : Z; req_ctx : context }.

(** [vizierpb.VizierServiceClient]: a stream is known by its number, and what it gives
    depends on its context as it is at that moment. *)
Class VizierServiceClient (V : Type) := {
  vzc_ExecuteScript : context → option vizierpb.ExecuteScriptRequest → M V nat;
  exec_Recv : nat → context → M V vizierpb.ExecuteScriptResponse;
  vzc_HealthCheck : context → option debugpb.HealthCheckRequest → M V nat;
  hc_Recv : nat → context → M V debugpb.HealthCheckResponse;
  vzc_GenerateOTelScript : context → option debugpb.GenerateOTelScriptRequest → M V debugpb.GenerateOTelScriptResponse
}.

(** [Stream] and its two implementations. *)
Inductive Stream : Type :=
| ExecuteScriptStream (reqID : string) (stream : nat)
| HealthCheckStream (reqID : string) (stream : nat).

(** [status.Code]. *)
Definition status_Code (err : error) : Z := match err with GrpcStatus code _ => code | _ => codes.Unknown end.

Definition formatStatusMessage (reqID : string) (code : Z) (message : string) : V2CAPIStreamResponse :=
  mkV2CAPIStreamResponse reqID (Some (Status (vizierpb.mkStatus code message []))).

Definition too_large (reqID : string) : V2CAPIStreamResponse :=
  formatStatusMessage reqID codes.Internal
    ("Large data batch rejected " +:+
     "by passthrough proxy limits. The Pixie team is currently working on this. In the meantime, please add a head() to your query to avoid the problem.").

(** [fmt.Sprintf] with the verb s of [reflect.TypeOf(msg.Msg)]. *)
Definition type_string (m : option c2v_msg) : string :=
  match m with
  | None => "%!s(<nil>)"
  | Some m => "*cvmsgspb.C2VAPIStreamRequest_" +:+
    match m with
    | ExecReq _ => "ExecReq" | HcReq _ => "HcReq" | CancelReq => "CancelReq" | DebugLogReq _ => "DebugLogReq"
    | DebugPodsReq _ => "DebugPodsReq" | GenerateOTelScriptReq _ => "GenerateOTelScriptReq"
    end
  end.

(** The status at the end of a stream. *)
Definition final_status (reqID : string) (err : error) : V2CAPIStreamResponse :=
  if bool_decide (err = ErrEOF) then formatStatusMessage reqID codes.OK ""
  else if bool_decide (err = ErrContextCanceled) || (status_Code err =? codes.Canceled)%Z then formatStatusMessage reqID codes.Canceled ""
  else formatStatusMessage reqID (status_Code err) (error_string err).

Section proxy.
Context `{N : NatsConn} {V : Type} `{!VizierServiceClient V}.
Context `{!Proto C2VMessage} `{!Proto V2CMessage} `{!AnyProto V2CAPIStreamResponse} `{!AnyProto C2VAPIStreamRequest}.

(** [requests] holds pointers into [states]: the state of a request is shared by the
    map and by the goroutine that runs the request. *)
Record pstate := mkPState { requests : gmap string nat; states : list RequestState; pnc : nconn; vz : V }.

Definition NewPassThroughProxy (nc : nconn) (v : V) : pstate := mkPState ∅ [] nc v.

Definition on_vz {A} (m : M V A) : M pstate A := zoom vz (λ v s, mkPState (requests s) (states s) (pnc s) v) m.
(** The error of [Publish]. *)
Definition pPublish (topic data : string) : M pstate (option error) := λ s,
  let '(e, c) := nc_Publish topic data (pnc s) in (Ret e, mkPState (requests s) (states s) c (vz s)).
Definition state_at (a : nat) : M pstate RequestState := s ← get_state; deref (states s !! a).

(** ** Sending *)

(** The call repeats itself with the status when the message is too large: the fuel
    bounds how often. *)
Fixpoint sendMessage (fuel : nat) (reqID : string) (msg : V2CAPIStreamResponse) : M pstate unit :=
  match MarshalAny msg with
  | inl _ => mret tt
  | inr reqAnyMsg =>
    match Marshal (mkV2CMessage "" "" 0 (Some reqAnyMsg)) with
    | inl _ => mret tt
    | inr b =>
      err ← pPublish ("v2c.reply-" +:+ reqID) b;
      match err with
      | Some ErrMaxPayload => match fuel with O => panic Hang | S fuel => sendMessage fuel reqID (too_large reqID) end
      | _ => mret tt
      end
    end
  end.

(** The status fits or no status ever does. *)
Definition send_fuel : nat := 1.
Abbreviation send := (sendMessage send_fuel).

(** ** The streams *)

Definition GetExecReq (req : C2VAPIStreamRequest) : option vizierpb.ExecuteScriptRequest :=
  match c2v_Req req with Some (ExecReq r) => r | _ => None end.
Definition GetHcReq (req : C2VAPIStreamRequest) : option debugpb.HealthCheckRequest :=
  match c2v_Req req with Some (HcReq r) => r | _ => None end.
Definition GetGenerateOTelScriptReq (req : C2VAPIStreamRequest) : option debugpb.GenerateOTelScriptRequest :=
  match c2v_Req req with Some (GenerateOTelScriptReq r) => r | _ => None end.

Definition exec_StartStream (ctx : context) (reqID : string) (req : C2VAPIStreamRequest) : M V Stream :=
  stream ← vzc_ExecuteScript ctx (GetExecReq req); mret (ExecuteScriptStream reqID stream).
Definition hc_StartStream (ctx : context) (reqID : string) (req : C2VAPIStreamRequest) : M V Stream :=
  stream ← vzc_HealthCheck ctx (GetHcReq req); mret (HealthCheckStream reqID stream).

Definition Recv (e : Stream) (ctx : context) : M V V2CAPIStreamResponse :=
  match e with
  | ExecuteScriptStream reqID stream => msg ← exec_Recv stream ctx; mret (mkV2CAPIStreamResponse reqID (Some (ExecResp msg)))
  | HealthCheckStream reqID stream => msg ← hc_Recv stream ctx; mret (mkV2CAPIStreamResponse reqID (Some (HcResp msg)))
  end.

(** ** Running a request *)

(** What is left of [runRequest]: the loop over a stream, or the deferred cleanup. *)
Inductive run_phase : Type := Receiving (stream : Stream) | Cleaning.

Definition cleanupRequest (a : nat) : M pstate unit :=
  reqState ← state_at a;
  modify (λ s, mkPState (delete (requestID reqState) (requests s)) (states s) (pnc s) (vz s)).

Definition start_stream (start : M V Stream) : M pstate run_phase :=
  r ← try (on_vz start);
  match r with inl _ => mret Cleaning | inr stream => mret (Receiving stream) end.

(** [runRequest] up to its loop. *)
Definition start_request (a : nat) (msg : C2VAPIStreamRequest) : M pstate run_phase :=
  reqState ← state_at a;
  let reqID := requestID reqState in
  let ctx := req_ctx reqState in
  match c2v_Req msg with
  | Some (ExecReq _) => start_stream (exec_StartStream ctx reqID msg)
  | Some (HcReq _) => start_stream (hc_StartStream ctx reqID msg)
  | Some (GenerateOTelScriptReq _) =>
    r ← try (on_vz (vzc_GenerateOTelScript ctx (GetGenerateOTelScriptReq msg)));
    match r with
    | inl err => _ ← send reqID (formatStatusMessage reqID (status_Code err) (error_string err)); mret Cleaning
    | inr resp =>
      _ ← send reqID (mkV2CAPIStreamResponse reqID (Some (GenerateOTelScriptResp resp)));
      _ ← send reqID (formatStatusMessage reqID codes.OK "");
      mret Cleaning
    end
  | m => _ ← send reqID (formatStatusMessage reqID codes.InvalidArgument ("Unknown request type " +:+ type_string m)); mret Cleaning
  end.

(** One round of the loop. *)
Definition recv_round (a : nat) (stream : Stream) : M pstate run_phase :=
  reqState ← state_at a;
  let reqID := requestID reqState in
  r ← try (on_vz (Recv stream (req_ctx reqState)));
  match r with
  | inl err => _ ← send reqID (final_status reqID err); mret Cleaning
  | inr msg => _ ← send reqID msg; mret (Receiving stream)
  end.

Fixpoint run_loop (fuel : nat) (a : nat) (p : run_phase) : M pstate unit :=
  match p with
  | Cleaning => mret tt
  | Receiving stream =>
    match fuel with
    | O => panic Hang
    | S fuel => p ← recv_round a stream; run_loop fuel a p
    end
  end.

Definition runRequest (fuel : nat) (a : nat) (msg : C2VAPIStreamRequest) : M pstate unit :=
  p ← start_request a msg;
  _ ← run_loop fuel a p;
  cleanupRequest a.

(** ** Requests *)

(** The state of a new request, when a goroutine is started for it. *)
Definition handleRequest (now : Z) (req : C2VAPIStreamRequest) : M pstate (option nat) :=
  s ← get_state;
  match requests s !! c2v_RequestID req with
  | Some _ => mret None
  | None =>
    let reqState := mkRequestState (c2v_RequestID req) now (mkContext ("bearer " +:+ c2v_Token req) false) in
    let a := length (states s) in
    _ ← put_state (mkPState (<[c2v_RequestID req := a]> (requests s)) (states s ++ [reqState]) (pnc s) (vz s));
    mret (Some a)
  end.

Definition cancel_state (r : RequestState) : RequestState :=
  mkRequestState (requestID r) (startTime r) (mkContext (authorization (req_ctx r)) true).
(** [cancel] of the state at an address. *)
Definition cancel (a : nat) (s : pstate) : pstate := mkPState (requests s) (alter cancel_state a (states s)) (pnc s) (vz s).

Definition handleCancel (req : C2VAPIStreamRequest) : M pstate (option nat) :=
  s ← get_state;
  _ ← match requests s !! c2v_RequestID req with
      | Some a => modify (cancel a)
      | None => mret tt
      end;
  mret None.

(** A request with the state of the goroutine started for it. *)
Definition handleMessage (now : Z) (data : string) : M pstate (option (nat * C2VAPIStreamRequest)) :=
  c2vMsg ← lift_sum (Unmarshal (A := C2VMessage) data);
  req ← lift_sum (UnmarshalAny (T := C2VAPIStreamRequest) (c2v_Msg c2vMsg));
  started ← match c2v_Req req with
            | Some CancelReq => handleCancel req
            | _ => handleRequest now req
            end;
  mret ((λ a, (a, req)) <$> started).

(** [HandleMessage] logs the error. *)
Definition HandleMessage (now : Z) (data : string) : M pstate (option (nat * C2VAPIStreamRequest)) :=
  r ← try (handleMessage now data);
  match r with inl _ => mret None | inr started => mret started end.

(** The end of [Run]: every request is cancelled. *)
Definition cleanup (s : pstate) : pstate := foldr cancel s (map_to_list (requests s)).*2.

End proxy.

(** ** What is published *)

(** A connection that takes messages of up to [max] bytes, as NATS does. *)
Class PayloadSpec (N : NatsConn) (log : nconn → list (string * string)) (up : nconn → Prop) (max : nat) : Prop := {
  payload_ok c topic msg : up c → (String.length msg <= max)%nat →
    ∃ c', nc_Publish topic msg c = (None, c') ∧ up c' ∧ log c' = log c ++ [(topic, msg)];
  payload_large c topic msg : up c → (max < String.length msg)%nat →
    ∃ c', nc_Publish topic msg c = (Some ErrMaxPayload, c') ∧ up c' ∧ log c' = log c
}.

Section answers.
Context `{N : NatsConn} {log up max} `{PS : !PayloadSpec N log up max} {V : Type} `{!VizierServiceClient V}.
Context `{!Proto V2CMessage} `{!ProtoSpec V2CMessage} `{!AnyProto V2CAPIStreamResponse} `{!AnyProtoSpec V2CAPIStreamResponse}.
Implicit Types s : pstate (N := N) (V := V).

(** The bytes of a response. *)
Definition message_bytes (resp : V2CAPIStreamResponse) : error + string :=
  match MarshalAny resp with inl err => inl err | inr a => Marshal (mkV2CMessage "" "" 0 (Some a)) end.

(** What a reader of the topic makes of the bytes. *)
Definition read_reply (data : string) : error + V2CAPIStreamResponse :=
  match Unmarshal (A := V2CMessage) data with inl err => inl err | inr m => UnmarshalAny (v2c_Msg m) end.

Lemma message_read resp : ∃ b, message_bytes resp = inr b ∧ read_reply b = inr resp.
Proof using ProtoSpec0 AnyProtoSpec0.
  destruct (any_roundtrip resp) as (a & Ea & Ea'). exists (enc (mkV2CMessage "" "" 0 (Some a))).
  unfold message_bytes, read_reply. by rewrite Ea, Marshal_enc, Unmarshal_enc.
Qed.

Definition fits (resp : V2CAPIStreamResponse) : Prop := ∃ b, message_bytes resp = inr b ∧ (String.length b <= max)%nat.
#[export] Instance fits_dec resp : Decision (fits resp).
Proof.
  unfold fits. destruct (message_bytes resp) as [e|b] eqn:E; [right; intros (b & H & _); discriminate|].
  destruct (decide (String.length b <= max)%nat) as [H|H]; [left; by exists b|right; intros (b' & E' & H')]. congruence.
Defined.

(** A response that is too large is replaced. *)
Definition sent_as (reqID : string) (resp : V2CAPIStreamResponse) : V2CAPIStreamResponse :=
  if decide (fits resp) then resp else too_large reqID.

(** The replies on the topic of a request. *)
Definition answers (reqID : string) (resps : list V2CAPIStreamResponse) (ms : list (string * string)) : Prop :=
  Forall2 (λ resp m, m.1 = "v2c.reply-" +:+ reqID ∧ read_reply m.2 = inr resp) resps ms.

(** [s'] is [s] after [ms] was published. *)
Definition published s s' (ms : list (string * string)) : Prop :=
  requests s' = requests s ∧ states s' = states s ∧ up (pnc s') ∧ log (pnc s') = log (pnc s) ++ ms.

Lemma published_nil s : up (pnc s) → published s s [].
Proof. intros H. split_and!; [done..|by rewrite app_nil_r]. Qed.
Lemma published_app s1 s2 s3 ms ms' : published s1 s2 ms → published s2 s3 ms' → published s1 s3 (ms ++ ms').
Proof. intros (H1 & H2 & _ & H3) (H4 & H5 & H6 & H7). split_and!; [congruence..|done|]. by rewrite H7, H3, app_assoc. Qed.

Lemma sendMessage_bytes fuel reqID resp b s : message_bytes resp = inr b →
  sendMessage fuel reqID resp s =
    (err ← pPublish ("v2c.reply-" +:+ reqID) b;
     match err with
     | Some ErrMaxPayload => match fuel with O => panic Hang | S fuel => sendMessage fuel reqID (too_large reqID) end
     | _ => mret tt
     end) s.
Proof.
  unfold message_bytes. intros E. destruct fuel; cbn [sendMessage]; destruct (MarshalAny resp) as [e|a]; try done; rewrite E; done.
Qed.

Lemma send_fits fuel reqID resp s : up (pnc s) → fits resp →
  ∃ s' m, sendMessage fuel reqID resp s = (Ret tt, s') ∧ published s s' [m] ∧ vz s' = vz s ∧ answers reqID [resp] [m].
Proof using PS ProtoSpec0 AnyProtoSpec0.
  intros Hup (b & Eb & Hb). destruct (message_read resp) as (b' & Eb' & Er). rewrite Eb in Eb'. injection Eb' as <-.
  destruct (payload_ok (pnc s) ("v2c.reply-" +:+ reqID) b Hup Hb) as (c' & E & Hup' & Hlog).
  rewrite (sendMessage_bytes _ _ _ _ _ Eb). eexists _, _. unfold mbind, M_bind, pPublish. rewrite E. split; [done|].
  split; [by split_and!|]. split; [done|]. by repeat constructor.
Qed.

(** One message is published for every message, if the status fits. *)
Lemma send_run fuel reqID resp s : up (pnc s) → fits (too_large reqID) →
  ∃ s' m, sendMessage (S fuel) reqID resp s = (Ret tt, s') ∧ published s s' [m] ∧ vz s' = vz s ∧ answers reqID [sent_as reqID resp] [m].
Proof using PS ProtoSpec0 AnyProtoSpec0.
  intros Hup Hl. unfold sent_as. case_decide as Hf; [by apply send_fits|].
  destruct (message_read resp) as (b & Eb & Er). assert (Hb : (max < String.length b)%nat).
  { destruct (decide (String.length b <= max)%nat); [|lia]. destruct Hf. by exists b. }
  destruct (payload_large (pnc s) ("v2c.reply-" +:+ reqID) b Hup Hb) as (c' & E & Hup' & Hlog).
  rewrite (sendMessage_bytes _ _ _ _ _ Eb). unfold mbind, M_bind, pPublish. rewrite E.
  destruct (send_fits fuel reqID (too_large reqID) (mkPState (requests s) (states s) c' (vz s)) Hup' Hl) as (s' & m & E' & (H1 & H2 & H3 & H4) & Hv & Ha).
  exists s', m. split; [exact E'|]. split; [|done]. split_and!; [done..|]. cbn in H4. by rewrite H4, Hlog.
Qed.

(** If not even the status fits, the proxy sends it again and again. *)
Lemma send_never_ends fuel reqID resp s : up (pnc s) → ¬ fits resp → ¬ fits (too_large reqID) →
  (sendMessage fuel reqID resp s).1 = Crash Hang.
Proof using PS ProtoSpec0 AnyProtoSpec0.
  intros Hup Hf Hl. revert resp s Hup Hf. induction fuel as [|fuel IH]; intros resp s Hup Hf;
    destruct (message_read resp) as (b & Eb & Er);
    (assert (Hb : (max < String.length b)%nat) by (destruct (decide (String.length b <= max)%nat); [destruct Hf; by exists b|lia]));
    destruct (payload_large (pnc s) ("v2c.reply-" +:+ reqID) b Hup Hb) as (c' & E & Hup' & Hlog);
    rewrite (sendMessage_bytes _ _ _ _ _ Eb); unfold mbind, M_bind, pPublish; rewrite E; [done|]. by apply IH.
Qed.

(** ** Answers *)

(** What a stream gives, one call of [Recv] after the other, and the error it ends
    with. *)
Inductive stream_gives (st : Stream) (c : context) : V → list V2CAPIStreamResponse → error → V → Prop :=
| gives_end v e v' : Recv st c v = (Err e, v') → stream_gives st c v [] e v'
| gives_msg v m v1 ms e v' : Recv st c v = (Ret m, v1) → stream_gives st c v1 ms e v' → stream_gives st c v (m :: ms) e v'.

Lemma state_at_run a r s : states s !! a = Some r → state_at a s = (Ret r, s).
Proof. intros E. unfold state_at. rewrite get_bind, E. done. Qed.

Lemma on_vz_run {A} (m : M V A) o v' s : m (vz s) = (o, v') → on_vz m s = (o, mkPState (requests s) (states s) (pnc s) v').
Proof. intros E. unfold on_vz, zoom. by rewrite E. Qed.

Lemma recv_round_msg a r st m v1 s : up (pnc s) → fits (too_large (requestID r)) → states s !! a = Some r →
  Recv st (req_ctx r) (vz s) = (Ret m, v1) →
  ∃ s' pm, recv_round a st s = (Ret (Receiving st), s') ∧ published s s' [pm] ∧ vz s' = v1 ∧ answers (requestID r) [sent_as (requestID r) m] [pm].
Proof using PS ProtoSpec0 AnyProtoSpec0.
  intros Hup Hl Ha E. unfold recv_round. run_with (state_at_run a r s Ha).
  rewrite (try_bind_ret _ _ _ _ _ (on_vz_run _ _ _ s E)).
  destruct (send_run 0 (requestID r) m (mkPState (requests s) (states s) (pnc s) v1) Hup Hl) as (s' & pm & E' & H & Hv & Hans).
  exists s', pm. run_with E'. by split_and!.
Qed.

Lemma recv_round_end a r st e v1 s : up (pnc s) → fits (too_large (requestID r)) → states s !! a = Some r →
  Recv st (req_ctx r) (vz s) = (Err e, v1) →
  ∃ s' pm, recv_round a st s = (Ret Cleaning, s') ∧ published s s' [pm] ∧ vz s' = v1 ∧
    answers (requestID r) [sent_as (requestID r) (final_status (requestID r) e)] [pm].
Proof using PS ProtoSpec0 AnyProtoSpec0.
  intros Hup Hl Ha E. unfold recv_round. run_with (state_at_run a r s Ha).
  rewrite (try_bind_err _ _ _ _ _ (on_vz_run _ _ _ s E)).
  destruct (send_run 0 (requestID r) (final_status (requestID r) e) (mkPState (requests s) (states s) (pnc s) v1) Hup Hl) as (s' & pm & E' & H & Hv & Hans).
  exists s', pm. run_with E'. by split_and!.
Qed.

Lemma run_loop_run a r st v resps e v' :
  stream_gives st (req_ctx r) v resps e v' → ∀ s fuel, vz s = v → up (pnc s) → fits (too_large (requestID r)) → states s !! a = Some r →
  (length resps < fuel)%nat →
  ∃ s' ms, run_loop fuel a (Receiving st) s = (Ret tt, s') ∧ published s s' ms ∧ vz s' = v' ∧
    answers (requestID r) (sent_as (requestID r) <$> resps ++ [final_status (requestID r) e]) ms.
Proof using PS ProtoSpec0 AnyProtoSpec0.
  induction 1 as [v e v' E|v m v1 ms e v' E Hg IH]; intros s fuel <- Hup Hl Ha Hf; (destruct fuel as [|fuel]; [cbn in Hf; lia|]); cbn [run_loop].
  - destruct (recv_round_end a r st e v' s Hup Hl Ha E) as (s' & pm & E' & H & Hv & Hans). exists s', [pm]. run_with E'.
    by destruct fuel.
  - destruct (recv_round_msg a r st m v1 s Hup Hl Ha E) as (s1 & pm & E' & H & Hv & Hans). run_with E'.
    pose proof H as (_ & Hst & Hup1 & _).
    destruct (IH s1 fuel) as (s' & ms' & E2 & H2 & Hv2 & Hans2); [done..|by rewrite Hst|cbn in Hf; lia|].
    exists s', (pm :: ms'). split; [exact E2|]. split; [exact (published_app s s1 s' [pm] ms' H H2)|]. split; [done|].
    cbn [app fmap list_fmap]. constructor; [by inversion Hans|done].
Qed.

(** The stream of a request. *)
Definition request_stream (msg : C2VAPIStreamRequest) (c : context) (reqID : string) : option (M V Stream) :=
  match c2v_Req msg with
  | Some (ExecReq _) => Some (exec_StartStream c reqID msg)
  | Some (HcReq _) => Some (hc_StartStream c reqID msg)
  | _ => None
  end.

(** The answer to a request for a stream is each response of the stream in order and one
    status, which says how the stream ended, all on the topic of the request; a response
    that NATS does not take is replaced by a status, and the ID is free again. *)
Lemma request_answered a r msg start st v1 resps e v2 s fuel :
  up (pnc s) → fits (too_large (requestID r)) → states s !! a = Some r →
  request_stream msg (req_ctx r) (requestID r) = Some start → start (vz s) = (Ret st, v1) →
  stream_gives st (req_ctx r) v1 resps e v2 → (length resps < fuel)%nat →
  ∃ s' ms, runRequest fuel a msg s = (Ret tt, s') ∧ log (pnc s') = log (pnc s) ++ ms ∧
    answers (requestID r) (sent_as (requestID r) <$> resps ++ [final_status (requestID r) e]) ms ∧
    requests s' = delete (requestID r) (requests s).
Proof using PS ProtoSpec0 AnyProtoSpec0.
  intros Hup Hl Ha Hst Es Hg Hf. unfold runRequest.
  assert (E1 : start_request a msg s = (Ret (Receiving st), mkPState (requests s) (states s) (pnc s) v1)).
  { unfold start_request. run_with (state_at_run a r s Ha). unfold request_stream in Hst.
    destruct (c2v_Req msg) as [[]|]; try done; injection Hst as <-; unfold start_stream;
      by rewrite (try_bind_ret _ _ _ _ _ (on_vz_run _ _ _ s Es)). }
  run_with E1. destruct (run_loop_run a r st v1 resps e v2 Hg (mkPState (requests s) (states s) (pnc s) v1) fuel) as (s2 & ms & E2 & (H1 & H2 & H3 & H4) & Hv & Hans);
    [done..|]. run_with E2. unfold cleanupRequest. cbn in H1, H2, H4.
  run_with (state_at_run a r s2 ltac:(by rewrite H2)). eexists _, ms. split; [done|]. cbn. by rewrite H1.
Qed.

(** A stream that cannot be started: the request is never answered. *)
Lemma start_failure_unanswered a r msg start e v1 s fuel :
  states s !! a = Some r → request_stream msg (req_ctx r) (requestID r) = Some start → start (vz s) = (Err e, v1) →
  ∃ s', runRequest fuel a msg s = (Ret tt, s') ∧ pnc s' = pnc s ∧ requests s' = delete (requestID r) (requests s).
Proof.
  intros Ha Hst Es. unfold runRequest. set (s1 := mkPState (requests s) (states s) (pnc s) v1).
  assert (E1 : start_request a msg s = (Ret Cleaning, s1)).
  { unfold start_request. run_with (state_at_run a r s Ha). unfold request_stream in Hst.
    destruct (c2v_Req msg) as [[]|]; try done; injection Hst as <-; unfold start_stream;
      by rewrite (try_bind_err _ _ _ _ _ (on_vz_run _ _ _ s Es)). }
  run_with E1. assert (E2 : run_loop fuel a Cleaning s1 = (Ret tt, s1)) by (by destruct fuel). run_with E2.
  unfold cleanupRequest. run_with (state_at_run a r s1 Ha). by eexists.
Qed.
End answers.
