(* ===== verification/ProxySteps.v ===== *)
(** * The goroutines of the passthrough proxy

    [Run] starts a goroutine for every message of NATS, and every request has a
    goroutine of its own: here they are one transition system.  The requests of one ID
    run one after the other, and what each publishes is not mixed with the others. *)

From S2P Require Import Prelude GoLib Uuid Messages MessageBus K8sMessages QueryMessages ScriptSource BridgeMessages PTProxy.
Import cvmsgspb cloudpb.

(** The goroutine of a request: before the switch of [runRequest], or after it. *)
Inductive gophase : Type := Starting | At (p : run_phase).

Section steps.
Context `{N : NatsConn} {log up max} `{PS : !PayloadSpec N log up max} {V : Type} `{!VizierServiceClient V}.
Context `{!Proto C2VMessage} `{!Proto V2CMessage} `{!ProtoSpec V2CMessage}.
Context `{!AnyProto V2CAPIStreamResponse} `{!AnyProtoSpec V2CAPIStreamResponse} `{!AnyProto C2VAPIStreamRequest}.
Abbreviation pstate := (pstate (N := N) (V := V)).
Implicit Types s : pstate.

(** [subCh]; the messages whose goroutines have not run; the goroutines of requests by
    the address of their state; whether [Run] runs.  [outbox] records what each request
    has published. *)
Record psys := mkPSys {
  ps : pstate; subCh : list string; handlers : list string; runs : gmap nat (C2VAPIStreamRequest * gophase);
  running : bool; outbox : list (nat * (string * string))
}.

(** What a call published. *)
Definition fresh s s' : list (string * string) := drop (length (log (pnc s))) (log (pnc s')).
Definition more (a : nat) (s' : pstate) (x : psys) : list (nat * (string * string)) := outbox x ++ ((λ m, (a, m)) <$> fresh (ps x) s').

Inductive pstep : psys → psys → Prop :=
| p_deliver x data : running x = true → (length (subCh x) < subCh_capacity)%nat →
    pstep x (mkPSys (ps x) (subCh x ++ [data]) (handlers x) (runs x) true (outbox x))
| p_take x data rest : running x = true → subCh x = data :: rest →
    pstep x (mkPSys (ps x) rest (handlers x ++ [data]) (runs x) true (outbox x))
| p_handle x now h1 data h2 started s' : handlers x = h1 ++ data :: h2 → HandleMessage now data (ps x) = (Ret started, s') →
    pstep x (mkPSys s' (subCh x) (h1 ++ h2)
               (match started with Some (a, req) => <[a := (req, Starting)]> (runs x) | None => runs x end) (running x) (outbox x))
| p_start x a req p s' : runs x !! a = Some (req, Starting) → start_request a req (ps x) = (Ret p, s') →
    pstep x (mkPSys s' (subCh x) (handlers x) (<[a := (req, At p)]> (runs x)) (running x) (more a s' x))
| p_recv x a req st p s' : runs x !! a = Some (req, At (Receiving st)) → recv_round a st (ps x) = (Ret p, s') →
    pstep x (mkPSys s' (subCh x) (handlers x) (<[a := (req, At p)]> (runs x)) (running x) (more a s' x))
| p_clean x a req s' : runs x !! a = Some (req, At Cleaning) → cleanupRequest a (ps x) = (Ret tt, s') →
    pstep x (mkPSys s' (subCh x) (handlers x) (delete a (runs x)) (running x) (outbox x))
| p_quit x : running x = true →
    pstep x (mkPSys (cleanup (ps x)) [] (handlers x) (runs x) false (outbox x)).

Definition proxy_start (c : nconn) (v : V) : psys := mkPSys (NewPassThroughProxy c v) [] [] ∅ true [].

(** ** The invariant *)

Definition id_at s (a : nat) : option string := requestID <$> states s !! a.

(** Two messages of one ID are in the order of their requests. *)
Definition in_order s (x y : nat * (string * string)) : Prop := id_at s x.1 = id_at s y.1 → (x.1 <= y.1)%nat.

Record pinv (x : psys) : Prop := mkPInv {
  pi_up : up (pnc (ps x));
  pi_requests id a : requests (ps x) !! id = Some a → is_Some (runs x !! a) ∧ id_at (ps x) a = Some id;
  pi_runs a : is_Some (runs x !! a) → ∃ id, id_at (ps x) a = Some id ∧ requests (ps x) !! id = Some a;
  pi_topic a m : (a, m) ∈ outbox x → ∃ id, id_at (ps x) a = Some id ∧ m.1 = "v2c.reply-" +:+ id;
  pi_latest id a b m : requests (ps x) !! id = Some a → (b, m) ∈ outbox x → id_at (ps x) b = Some id → (b <= a)%nat;
  pi_sorted : StronglySorted (in_order (ps x)) (outbox x)
}.

(** ** Calls that publish for one request *)

(** [s'] is [s] after messages on the topic [id] were published. *)
Definition published_on (id : string) s s' : Prop :=
  requests s' = requests s ∧ states s' = states s ∧ up (pnc s') ∧
  ∃ ms, log (pnc s') = log (pnc s) ++ ms ∧ Forall (λ m, m.1 = "v2c.reply-" +:+ id) ms.

Lemma published_on_refl id s : up (pnc s) → published_on id s s.
Proof. intros H. split_and!; [done..|]. exists []. by rewrite app_nil_r. Qed.

Lemma published_on_trans id s1 s2 s3 : published_on id s1 s2 → published_on id s2 s3 → published_on id s1 s3.
Proof.
  intros (H1 & H2 & _ & ms & H3 & H4) (H5 & H6 & H7 & ms' & H8 & H9). split_and!; [congruence..|done|].
  exists (ms ++ ms'). rewrite H8, H3, app_assoc. split; [done|]. by apply Forall_app.
Qed.

(** When it returns, a call has only published for [id]. *)
Definition sends {A} (id : string) (m : M pstate A) : Prop :=
  ∀ s a s', up (pnc s) → m s = (Ret a, s') → published_on id s s'.

Lemma sends_bind {A B} id (m : M pstate A) (k : A → M pstate B) : sends id m → (∀ a, sends id (k a)) → sends id (m ≫= k).
Proof.
  intros Hm Hk s b s' Hup E. unfold mbind, M_bind in E. destruct (m s) as [[a|e|c] s1] eqn:E1; try done.
  pose proof (Hm _ _ _ Hup E1) as H1. eapply published_on_trans; [exact H1|]. eapply Hk; [apply H1|exact E].
Qed.

Lemma sends_ret {A} id (a : A) : sends id (mret a).
Proof. intros s b s' Hup E. injection E as <- <-. by apply published_on_refl. Qed.

Lemma sends_vz {A} id (m : M V A) : sends id (try (on_vz m)).
Proof.
  intros s a s' Hup E. unfold try, on_vz, zoom in E. destruct (m (vz s)) as [[?|?|?] v]; simplify_eq;
    (split_and!; [done..|]); exists []; by rewrite app_nil_r.
Qed.

Lemma sends_message id resp : sends id (sendMessage send_fuel id resp).
Proof using PS ProtoSpec0 AnyProtoSpec0.
  intros s a s' Hup E. destruct (decide (fits (max := max) resp)) as [Hf|Hf]; [|destruct (decide (fits (max := max) (too_large id))) as [Hl|Hl]].
  - destruct (send_fits send_fuel id resp s Hup Hf) as (s1 & m & E1 & (H1 & H2 & H3 & H4) & _ & Ha). assert (s1 = s') as -> by congruence.
    split_and!; [done..|]. exists [m]. split; [done|]. inversion Ha as [|? ? ? ? [Ht _]]. by constructor.
  - destruct (send_run 0 id resp s Hup Hl) as (s1 & m & E1 & (H1 & H2 & H3 & H4) & _ & Ha). unfold send_fuel in E. assert (s1 = s') as -> by congruence.
    split_and!; [done..|]. exists [m]. split; [done|]. inversion Ha as [|? ? ? ? [Ht _]]. by constructor.
  - pose proof (send_never_ends send_fuel id resp s Hup Hf Hl) as H. by rewrite E in H.
Qed.

Create HintDb sends.
Hint Resolve sends_ret sends_vz sends_message : sends.
Ltac sends := repeat (intros; first [apply sends_bind; [|intros] | solve [auto with sends] | case_match]).

Lemma sends_start a r req s p s' : up (pnc s) → states s !! a = Some r → start_request a req s = (Ret p, s') → published_on (requestID r) s s'.
Proof using PS ProtoSpec0 AnyProtoSpec0.
  intros Hup Ha E. unfold start_request in E. rewrite (bind_ret _ _ _ _ _ (state_at_run a r s Ha)) in E.
  eapply (sends_bind (requestID r) (mret tt) (λ _, _)); [auto with sends|intros _|exact Hup|exact E]. unfold start_stream. sends.
Qed.

Lemma sends_recv a r st s p s' : up (pnc s) → states s !! a = Some r → recv_round a st s = (Ret p, s') → published_on (requestID r) s s'.
Proof using PS ProtoSpec0 AnyProtoSpec0.
  intros Hup Ha E. unfold recv_round in E. rewrite (bind_ret _ _ _ _ _ (state_at_run a r s Ha)) in E.
  eapply (sends_bind (requestID r) (mret tt) (λ _, _)); [auto with sends|intros _|exact Hup|exact E]. sends.
Qed.

(** ** Steps *)

Lemma id_cancel a s b : id_at (cancel a s) b = id_at s b.
Proof.
  unfold id_at, cancel. cbn. destruct (decide (a = b)) as [->|Hne]; [|by rewrite list_lookup_alter_ne].
  rewrite list_lookup_alter_eq. by destruct (states s !! b).
Qed.

(** A state with its requests, IDs and connection unchanged. *)
Definition same_requests s s' : Prop := requests s' = requests s ∧ (∀ b, id_at s' b = id_at s b) ∧ pnc s' = pnc s.

Lemma cancel_same a s : same_requests s (cancel a s).
Proof. split_and!; [done| |done]. intros b. apply id_cancel. Qed.

Lemma cleanup_same s : same_requests s (cleanup s).
Proof.
  unfold cleanup. generalize (map_to_list (requests s)).*2. intros l. induction l as [|a l (H1 & H2 & H3)]; [done|].
  split_and!; [done| |done]. intros b. cbn [foldr]. by rewrite id_cancel.
Qed.

Lemma in_order_ext s s' l : (∀ b, id_at s' b = id_at s b) → StronglySorted (in_order s) l → StronglySorted (in_order s') l.
Proof.
  intros He. induction 1 as [|x l Hl IH Hx]; constructor; [done|]. eapply Forall_impl; [exact Hx|].
  intros y Hy. unfold in_order. rewrite !He. exact Hy.
Qed.

Lemma pinv_same x s' sub h r : pinv x → same_requests (ps x) s' → pinv (mkPSys s' sub h (runs x) r (outbox x)).
Proof.
  intros [H1 H2 H3 H4 H5 H6] (E1 & E2 & E3). split; cbn.
  - by rewrite E3.
  - intros id a. rewrite E1, E2. apply H2.
  - intros a. setoid_rewrite E2. rewrite E1. apply H3.
  - intros a m. setoid_rewrite E2. apply H4.
  - intros id a b m. rewrite E1, E2. apply H5.
  - by eapply in_order_ext.
Qed.

(** Nothing is started, or a goroutine for a new state. *)
Definition handled (s : pstate) (started : option nat) (s' : pstate) : Prop :=
  (started = None ∧ same_requests s s') ∨
  (∃ r, started = Some (length (states s)) ∧ requests s !! requestID r = None ∧ canceled (req_ctx r) = false ∧
    s' = mkPState (<[requestID r := length (states s)]> (requests s)) (states s ++ [r]) (pnc s) (vz s)).

Lemma proxy_cancel_run req s : ∃ started s', handleCancel req s = (Ret started, s') ∧ handled s started s'.
Proof.
  unfold handleCancel. rewrite get_bind. destruct (requests s !! _) as [a|]; eexists _, _; (split; [reflexivity|]); left; (split; [done|]);
    [apply cancel_same|done].
Qed.

Lemma proxy_request_run now req s : ∃ started s', handleRequest now req s = (Ret started, s') ∧ handled s started s'.
Proof.
  unfold handleRequest. rewrite get_bind. destruct (requests s !! c2v_RequestID req) as [a|] eqn:E; eexists _, _; (split; [reflexivity|]).
  - by left.
  - right. exists (mkRequestState (c2v_RequestID req) now (mkContext ("bearer " +:+ c2v_Token req) false)). by split_and!.
Qed.

(** What the goroutine of a message does. *)
Lemma HandleMessage_cases now data s started s' : HandleMessage now data s = (Ret started, s') →
  handled s (fst <$> started) s'.
Proof.
  assert (Hnone : handled s None s) by (by left).
  unfold HandleMessage, handleMessage, try, mbind, M_bind, lift_sum, fail, mret, M_ret.
  destruct (Unmarshal (A := C2VMessage) data) as [e|m]; [intros E; cbn in E; by simplify_eq|]. cbn beta iota.
  destruct (UnmarshalAny (c2v_Msg m)) as [e|req]; [intros E; cbn in E; by simplify_eq|].
  assert (Hd : ∃ st s1, (match c2v_Req req with Some CancelReq => handleCancel req | _ => handleRequest now req end) s = (Ret st, s1) ∧ handled s st s1).
  { destruct (c2v_Req req) as [[]|]; auto using proxy_cancel_run, proxy_request_run. }
  destruct Hd as (st & s1 & E1 & H1). cbn. rewrite E1. cbn. intros E. injection E as <- <-. by destruct st.
Qed.

Lemma id_snoc s r nc v q b : (b < length (states s))%nat → id_at (mkPState q (states s ++ [r]) nc v) b = id_at s b.
Proof. intros H. unfold id_at. cbn. by rewrite lookup_app_l. Qed.

Lemma id_lt s b id : id_at s b = Some id → (b < length (states s))%nat.
Proof. unfold id_at. destruct (states s !! b) eqn:E; [|done]. intros _. by eapply lookup_lt_Some. Qed.

(** A new request: its address is larger than those of all requests so far. *)
Lemma pinv_new x r req sub h rn : pinv x → requests (ps x) !! requestID r = None →
  pinv (mkPSys (mkPState (<[requestID r := length (states (ps x))]> (requests (ps x))) (states (ps x) ++ [r]) (pnc (ps x)) (vz (ps x)))
          sub h (<[length (states (ps x)) := (req, Starting)]> (runs x)) rn (outbox x)).
Proof.
  intros [H1 H2 H3 H4 H5 H6] Hr. set (n := length (states (ps x))). set (s' := mkPState _ _ _ _).
  assert (Hreq : requests s' = <[requestID r := n]> (requests (ps x))) by done.
  assert (Hold : ∀ b id, id_at (ps x) b = Some id → id_at s' b = Some id) by (intros b id Hb; unfold s'; rewrite id_snoc; [done|by eapply id_lt]).
  assert (Hnew : id_at s' n = Some (requestID r)) by (unfold id_at, s'; cbn; by rewrite lookup_app_r, Nat.sub_diag by done).
  assert (Hin : ∀ b m, (b, m) ∈ outbox x → id_at s' b = id_at (ps x) b ∧ (b < n)%nat).
  { intros b m Hb. destruct (H4 b m Hb) as (id & Hid & _). split; [rewrite Hid; by apply Hold|by eapply id_lt]. }
  split; cbn [ps runs outbox pnc requests].
  - done.
  - intros id a. rewrite Hreq. destruct (decide (id = requestID r)) as [->|Hne].
    + rewrite lookup_insert_eq. intros [= <-]. by rewrite lookup_insert_eq.
    + rewrite lookup_insert_ne by done. intros Ha. destruct (H2 id a Ha) as [Hrun Hid]. split; [|by apply Hold].
      rewrite lookup_insert_ne; [done|]. apply id_lt in Hid. fold n in Hid. lia.
  - intros a. rewrite Hreq. destruct (decide (a = n)) as [->|Hne].
    + intros _. exists (requestID r). by rewrite lookup_insert_eq.
    + rewrite lookup_insert_ne by done. intros Ha. destruct (H3 a Ha) as (id & Hid & Hq). exists id. split; [by apply Hold|].
      rewrite lookup_insert_ne; [done|]. intros Heq. rewrite <- Heq in Hq. congruence.
  - intros a m Ha. destruct (H4 a m Ha) as (id & Hid & Ht). exists id. split; [by apply Hold|done].
  - intros id a b m Ha Hb Hid. rewrite Hreq in Ha. destruct (Hin b m Hb) as [Hsame Hlt]. rewrite Hsame in Hid.
    destruct (decide (id = requestID r)) as [->|Hne].
    + rewrite lookup_insert_eq in Ha. injection Ha as <-. lia.
    + rewrite lookup_insert_ne in Ha by done. by eapply H5.
  - clear -H6 Hin. induction H6 as [|y l Hl IH Hy]; constructor.
    + apply IH. intros b m Hb. apply (Hin b m). by right.
    + rewrite Forall_forall in Hy |- *. intros z Hz. unfold in_order. destruct y as [b m], z as [b' m']. cbn.
      destruct (Hin b m) as [-> _]; [left|]. destruct (Hin b' m') as [-> _]; [by right|]. apply (Hy _ Hz).
Qed.

(** The goroutine of a request publishes. *)
Lemma pinv_publish x a req ph ph' id s' sub h rn : pinv x → runs x !! a = Some (req, ph) → id_at (ps x) a = Some id →
  published_on id (ps x) s' → pinv (mkPSys s' sub h (<[a := (req, ph')]> (runs x)) rn (more a s' x)).
Proof.
  intros [H1 H2 H3 H4 H5 H6] Ha Hid (E1 & E2 & Hup & ms & Hlog & Ht).
  assert (Hids : ∀ b, id_at s' b = id_at (ps x) b) by (intros b; unfold id_at; by rewrite E2).
  assert (Hmore : more a s' x = outbox x ++ ((λ m, (a, m)) <$> ms)) by (unfold more, fresh; by rewrite Hlog, drop_app_length).
  assert (Hq : requests (ps x) !! id = Some a) by (destruct (H3 a) as (id' & Hid' & Hq); [by eexists|]; congruence).
  assert (Hruns : ∀ b, is_Some (<[a := (req, ph')]> (runs x) !! b) ↔ is_Some (runs x !! b)).
  { intros b. destruct (decide (a = b)) as [->|Hne]; [|by rewrite lookup_insert_ne]. rewrite lookup_insert_eq, Ha. split; by eexists. }
  assert (Hin : ∀ b m, (b, m) ∈ more a s' x → (b, m) ∈ outbox x ∨ (b = a ∧ m ∈ ms)).
  { intros b m. rewrite Hmore, elem_of_app, list_elem_of_fmap. intros [?|(m' & [= -> ->] & ?)]; auto. }
  split; cbn [ps runs outbox].
  - done.
  - intros id' b. rewrite E1, Hids, Hruns. apply H2.
  - intros b. rewrite Hruns, E1. setoid_rewrite Hids. apply H3.
  - intros b m Hb. setoid_rewrite Hids. apply Hin in Hb as [Hb|[-> Hb]]; [by apply (H4 b m)|]. exists id. split; [done|].
    rewrite Forall_forall in Ht. by apply Ht.
  - intros id' b c m. rewrite E1, Hids. intros Hb Hc. apply Hin in Hc as [Hc|[-> Hc]]; [by eapply H5|].
    rewrite Hid. intros [= <-]. assert (b = a) as -> by congruence. lia.
  - rewrite Hmore. eapply in_order_ext; [exact Hids|]. apply StronglySorted_app_2; [|done|].
    + intros [b m] y Hb Hy. apply list_elem_of_fmap in Hy as (m' & -> & Hm'). unfold in_order. cbn. rewrite Hid. by eapply H5.
    + clear. induction ms as [|m ms IH]; constructor; [done|]. apply Forall_fmap, Forall_true. intros m' _. done.
Qed.

(** The goroutine of a request ends. *)
Lemma pinv_clean x a req ph id v nc sub h rn : pinv x → runs x !! a = Some (req, ph) → id_at (ps x) a = Some id → nc = pnc (ps x) →
  pinv (mkPSys (mkPState (delete id (requests (ps x))) (states (ps x)) nc v) sub h (delete a (runs x)) rn (outbox x)).
Proof.
  intros [H1 H2 H3 H4 H5 H6] Ha Hid ->. set (s' := mkPState _ _ _ _).
  assert (Hids : ∀ b, id_at s' b = id_at (ps x) b) by done.
  assert (Hq : requests (ps x) !! id = Some a) by (destruct (H3 a) as (id' & Hid' & Hq); [by eexists|]; congruence).
  split; cbn [ps runs outbox].
  - done.
  - intros id' b Hb. cbn in Hb. apply lookup_delete_Some in Hb as [Hne Hb]. destruct (H2 id' b Hb) as [Hr Hi]. split; [|done].
    rewrite lookup_delete_ne; [done|]. intros ->. congruence.
  - intros b [[req' ph'] Hb]. apply lookup_delete_Some in Hb as [Hne Hb]. destruct (H3 b) as (id' & Hi & Hr); [by eexists|].
    exists id'. split; [done|]. cbn. rewrite lookup_delete_ne; [done|]. intros ->. congruence.
  - done.
  - intros id' b c m Hb. cbn in Hb. apply lookup_delete_Some in Hb as [Hne Hb]. by eapply H5.
  - done.
Qed.

Lemma pinv_step x x' : pinv x → pstep x x' → pinv x'.
Proof using PS ProtoSpec0 AnyProtoSpec0.
  intros Hi Hs. pose proof (pi_up x Hi) as Hup.
  assert (Hr : ∀ a e, runs x !! a = Some e → ∃ r, states (ps x) !! a = Some r ∧ id_at (ps x) a = Some (requestID r)).
  { intros a e Ha. destruct (pi_runs x Hi a) as (id & Hid & _); [by eexists|]. unfold id_at in *.
    destruct (states (ps x) !! a) as [r|]; [|done]. by exists r. }
  destruct Hs as [x data Hrun Hl|x data rest Hrun E|x now h1 data h2 started s' E Eh|x a req p s' Ha E|x a req st p s' Ha E|x a req s' Ha E|x Hrun].
  - by apply pinv_same.
  - by apply pinv_same.
  - destruct (HandleMessage_cases _ _ _ _ _ Eh) as [[Hn Hsame]|(r & Hn & Hq & _ & ->)]; destruct started as [[a req]|]; try done.
    + by apply pinv_same.
    + cbn in Hn. injection Hn as ->. by apply pinv_new.
  - destruct (Hr a _ Ha) as (r & Hst & Hid). eapply pinv_publish; [done..|]. by eapply sends_start.
  - destruct (Hr a _ Ha) as (r & Hst & Hid). eapply pinv_publish; [done..|]. by eapply sends_recv.
  - destruct (Hr a _ Ha) as (r & Hst & Hid). unfold cleanupRequest in E. rewrite (bind_ret _ _ _ _ _ (state_at_run a r _ Hst)) in E.
    injection E as <-. by eapply pinv_clean.
  - apply pinv_same; [done|]. apply cleanup_same.
Qed.

(** C16: Whatever the goroutines do, the requests that are registered are those that run, no
    two requests of one ID run at the same time, every request publishes on the topic of its ID
    only, and what a request of an ID publishes comes after all that earlier requests of
    this ID have published. *)
Theorem one_run_per_request c v x :
  up c → rtc pstep (proxy_start c v) x →
  (∀ id, is_Some (requests (ps x) !! id) ↔ ∃ a, is_Some (runs x !! a) ∧ id_at (ps x) a = Some id) ∧
  (∀ a b, is_Some (runs x !! a) → is_Some (runs x !! b) → id_at (ps x) a = id_at (ps x) b → a = b) ∧
  (∀ a m, (a, m) ∈ outbox x → ∃ id, id_at (ps x) a = Some id ∧ m.1 = "v2c.reply-" +:+ id) ∧
  StronglySorted (in_order (ps x)) (outbox x).
Proof using PS ProtoSpec0 AnyProtoSpec0.
  intros Hup Hr. assert (Hi : pinv x).
  { assert (H0 : pinv (proxy_start c v)) by (split; cbn; [done|intros ? ? ?%lookup_empty_Some; done|intros ? [? ?%lookup_empty_Some]; done|by intros ? ? ?%elem_of_nil|by intros ? ? ? ? ?%lookup_empty_Some|constructor]).
    revert H0. induction Hr as [|x1 x2 x3 Hs _ IH]; [done|]. intros H. apply IH. by eapply pinv_step. }
  destruct Hi as [H1 H2 H3 H4 H5 H6]. split_and!; [|..|done|done].
  - intros id. split.
    + intros [a Ha]. exists a. by apply H2.
    + intros (a & Ha & Hid). destruct (H3 a Ha) as (id' & Hid' & Hq). rewrite Hid in Hid'. injection Hid' as <-. by eexists.
  - intros a b Ha Hb E. destruct (H3 a Ha) as (id & Hid & Hq), (H3 b Hb) as (id' & Hid' & Hq'). congruence.
Qed.

(** ** Cancellation *)

(** Cancelling an ID cancels the context of the request that runs under it. *)
Lemma cancel_reaches_run x req a : pinv x → is_Some (runs x !! a) → id_at (ps x) a = Some (c2v_RequestID req) →
  ∃ s' r, handleCancel req (ps x) = (Ret None, s') ∧ states s' !! a = Some r ∧ canceled (req_ctx r) = true.
Proof.
  intros Hi Ha Hid. destruct (pi_runs x Hi a Ha) as (id & Hid' & Hq). rewrite Hid in Hid'. injection Hid' as <-.
  unfold id_at in Hid. destruct (states (ps x) !! a) as [r|] eqn:E; [|done].
  exists (cancel a (ps x)), (cancel_state r). unfold handleCancel. rewrite get_bind, Hq. split; [done|].
  unfold cancel. cbn. by rewrite list_lookup_alter_eq, E.
Qed.

(** The message [data] holds [req]. *)
Definition decodes (data : string) (req : C2VAPIStreamRequest) : Prop :=
  ∃ m, Unmarshal (A := C2VMessage) data = inr m ∧ UnmarshalAny (c2v_Msg m) = inr req.

Lemma HandleMessage_cancel now data req s : decodes data req → c2v_Req req = Some CancelReq → requests s !! c2v_RequestID req = None →
  HandleMessage now data s = (Ret None, s).
Proof.
  intros (m & E1 & E2) Hc Hq. unfold HandleMessage, handleMessage, handleCancel, try, mbind, M_bind, lift_sum, fail, mret, M_ret. rewrite E1. cbn beta iota.
  rewrite E2, Hc. cbn. by rewrite Hq.
Qed.

Lemma HandleMessage_request now data req s : decodes data req → c2v_Req req ≠ Some CancelReq → requests s !! c2v_RequestID req = None →
  HandleMessage now data s =
    (Ret (Some (length (states s), req)),
     mkPState (<[c2v_RequestID req := length (states s)]> (requests s))
       (states s ++ [mkRequestState (c2v_RequestID req) now (mkContext ("bearer " +:+ c2v_Token req) false)]) (pnc s) (vz s)).
Proof.
  intros (m & E1 & E2) Hc Hq. unfold HandleMessage, handleMessage, handleRequest, try, mbind, M_bind, lift_sum, fail, mret, M_ret. rewrite E1. cbn beta iota.
  rewrite E2. destruct (c2v_Req req) as [[]|]; try done; cbn; by rewrite Hq.
Qed.

(** A request and its cancellation that were received in this order: when the goroutine
    of the cancellation runs first, the request runs and is not cancelled. *)
Lemma cancel_overtakes x d_req d_cancel req creq rest :
  running x = true → subCh x = d_req :: d_cancel :: rest → handlers x = [] → decodes d_req req → decodes d_cancel creq →
  c2v_RequestID creq = c2v_RequestID req → c2v_Req creq = Some CancelReq → c2v_Req req ≠ Some CancelReq →
  requests (ps x) !! c2v_RequestID req = None →
  ∃ x' a r, rtc pstep x x' ∧ subCh x' = rest ∧ handlers x' = [] ∧ runs x' !! a = Some (req, Starting) ∧
    states (ps x') !! a = Some r ∧ requestID r = c2v_RequestID req ∧ canceled (req_ctx r) = false.
Proof.
  intros Hrun Hs Hh Hd Hd' Hid Hc Hr Hq.
  pose proof (p_take x d_req (d_cancel :: rest) Hrun Hs) as S1. rewrite Hh in S1. set (x1 := mkPSys _ _ _ _ _ _) in S1.
  pose proof (p_take x1 d_cancel rest eq_refl eq_refl) as S2. set (x2 := mkPSys _ _ _ _ _ _) in S2.
  pose proof (p_handle x2 0 [d_req] d_cancel [] None (ps x) eq_refl (HandleMessage_cancel 0 d_cancel creq (ps x) Hd' Hc ltac:(by rewrite Hid))) as S3.
  set (x3 := mkPSys _ _ _ _ _ _) in S3.
  pose proof (p_handle x3 0 [] d_req [] _ _ eq_refl (HandleMessage_request 0 d_req req (ps x) Hd Hr Hq)) as S4.
  eexists _, (length (states (ps x))), _. split; [eapply rtc_l; [exact S1|]; eapply rtc_l; [exact S2|]; eapply rtc_l; [exact S3|]; eapply rtc_once; exact S4|].
  cbn. split_and!; [done|done|apply lookup_insert_eq|by rewrite lookup_app_r, Nat.sub_diag by done|done|done].
Qed.
End steps.
