(* ===== verification/Passthrough.v ===== *)
(** * A request from the cloud and back

    The bridge of the cloud connector and the passthrough proxy of the query broker
    together: a request that arrives on the stream of the cloud is published on NATS,
    run by the proxy, and its responses are queued for the stream. *)

From S2P Require Import Prelude GoLib Uuid Messages MessageBus K8sMessages K8sConvert QueryMessages ScriptSource BridgeMessages VizierInfo Bridge PTProxy ProxySteps.
Import cvmsgspb vzconnpb cloudpb.

Section passthrough.
Context `{U : UUIDLib} `{N : NatsConn} {log up max} `{PS : !PayloadSpec N log up max} {I C V : Type}.
Context `{!VizierInfo I} `{!VizierOperatorInfo I} `{!VZConnServiceClient C} `{!VizierServiceClient V}.
Context `{!Proto C2VMessage} `{!ProtoSpec C2VMessage} `{!Proto V2CMessage} `{!ProtoSpec V2CMessage} `{!Proto MetricsMessage}.
Context `{!AnyProto UpdateOrInstallVizierRequest} `{!AnyProto UpdateOrInstallVizierResponse}.
Context `{!AnyProto V2CAPIStreamResponse} `{!AnyProtoSpec V2CAPIStreamResponse} `{!AnyProto C2VAPIStreamRequest} `{!AnyProto VizierHeartbeat}.
Context {WriteRequest : Type} `{!AnyProto WriteRequest}.
Context (parse_prom : string → string → string → error + WriteRequest) (job_yaml : string).
Abbreviation bstate := (bstate (U := U) (N := N) (I := I) (C := C)).
Abbreviation pstate := (pstate (N := N) (V := V)).
Abbreviation handle := (HandleNATSBridging parse_prom job_yaml).

(** The bridge receives the messages of NATS, one after the other. *)
Fixpoint feed (ms : list (string * string)) : M bstate unit :=
  match ms with
  | [] => mret tt
  | (topic, data) :: ms => _ ← handle (FromNats topic data); feed ms
  end.

(** The responses in a queue, under the topic of their request. *)
Definition queued (reqID : string) (resps : list V2CAPIStreamResponse) (qs : list V2CBridgeMessage) : Prop :=
  Forall2 (λ resp q, bm_Topic q = "reply-" +:+ reqID ∧ UnmarshalAny (bm_Msg q) = inr resp) resps qs.

(** A reply of the proxy goes to the queue of replies, without the prefix of its
    topic. *)
Lemma reply_queued reqID resp data (b : bstate) :
  read_reply data = inr resp → (length (ptOutCh (br b)) < chan_capacity)%nat →
  ∃ b' q, handle (FromNats ("v2c.reply-" +:+ reqID) data) b = (Ret true, b') ∧ ptOutCh (br b') = ptOutCh (br b) ++ [q] ∧
    grpcInCh (br b') = grpcInCh (br b) ∧ queued reqID [resp] [q].
Proof.
  unfold read_reply. intros Hr Hl. destruct (Unmarshal data) as [e|m] eqn:Em; [done|].
  assert (Ep : parseV2CNatsMsg ("v2c.reply-" +:+ reqID) data = inr (m, "reply-" +:+ reqID)).
  { unfold parseV2CNatsMsg. assert (HasPrefix ("v2c.reply-" +:+ reqID) (V2CTopic "") = true) as -> by (by destruct reqID).
    rewrite Em. do 2 f_equal. exact (substring_all ("reply-" +:+ reqID)). }
  cbn [HandleNATSBridging]. unfold handle_nats.
  assert (HasPrefix ("v2c.reply-" +:+ reqID) (V2CTopic "") = true) as -> by (by destruct reqID).
  assert (HasPrefix ("v2c.reply-" +:+ reqID) passthroughReplySubjectPrefix = true) as -> by (by destruct reqID).
  cbn [negb]. rewrite Ep.
  assert (E : publishPTBridgeCh ("reply-" +:+ reqID) (v2c_Msg m) b =
    (Ret tt, mkBState (set_queues (grpcOutCh (br b)) (ptOutCh (br b) ++ [bridge_message (br b) ("reply-" +:+ reqID) (v2c_Msg m)])
                         (pendingGRPCOutMsg (br b)) (droppedMessagesBeforeResume (br b)) (br b)) (bnc b) (ext b) (conn b))).
  { unfold publishPTBridgeCh. by rewrite get_bind, (proj2 (Nat.ltb_lt _ _) Hl). }
  eexists _, _. unfold mbind at 1, M_bind at 1. unfold mbind at 1, M_bind at 1. cbn [lift_sum mret M_ret]. rewrite E.
  split; [reflexivity|]. by repeat constructor.
Qed.

Lemma replies_queued reqID resps ms (b : bstate) :
  answers reqID resps ms → (length (ptOutCh (br b)) + length resps <= chan_capacity)%nat →
  ∃ b' qs, feed ms b = (Ret tt, b') ∧ ptOutCh (br b') = ptOutCh (br b) ++ qs ∧ queued reqID resps qs.
Proof.
  intros Ha. revert b. induction Ha as [|resp [t d] resps ms [Ht Hr] Ha IH]; intros b Hl.
  { exists b, []. split; [done|]. rewrite app_nil_r. split; [done|constructor]. }
  cbn in Ht. subst t. cbn [length] in Hl. destruct (reply_queued reqID resp d b Hr) as (b1 & q & E1 & Hq1 & _ & Ha1); [lia|].
  cbn [feed]. run_with E1. destruct (IH b1) as (b2 & qs & E2 & Hq2 & Ha2); [rewrite Hq1, length_app; cbn; lia|].
  exists b2, (q :: qs). split; [done|]. rewrite Hq2, Hq1, <- app_assoc. split; [done|]. constructor; [by inversion Ha1|done].
Qed.

(** The request goes to NATS. *)
Lemma request_forwarded m pb rest (b : bstate) :
  up (bnc b) → grpcInCh (br b) = Some m :: rest → cm_Topic m = "VizierPassthroughRequest" → UnmarshalAny (cm_Msg m) = inr pb →
  is_Some (request_stream (V := V) pb (mkContext "" false) "") →
  (String.length (enc (mkC2VMessage (uuid_String (vizierID (br b))) (cm_Msg m))) <= max)%nat →
  ∃ b' data, handle FromGrpc b = (Ret true, b') ∧ br b' = set_grpcInCh rest (br b) ∧ up (bnc b') ∧
    log (bnc b') = log (bnc b) ++ [(PassthroughRequestChannel, data)] ∧ decodes data pb.
Proof using PS ProtoSpec0.
  intros Hup Hm Ht Hpb Hs Hsz. set (data := enc (mkC2VMessage (uuid_String (vizierID (br b))) (cm_Msg m))).
  set (b1 := mkBState (set_grpcInCh rest (br b)) (bnc b) (ext b) (conn b)).
  assert (E1 : recv_grpcIn b = (Ret (Some m), b1)) by (unfold recv_grpcIn; by rewrite get_bind, Hm).
  destruct (payload_ok (bnc b) PassthroughRequestChannel data Hup Hsz) as (c' & Ec & Hup' & Hlog).
  assert (E2 : forward_to_nats m b1 = (Ret tt, mkBState (br b1) c' (ext b) (conn b))).
  { unfold forward_to_nats. rewrite get_bind. change (uuid_String (vizierID (br b1))) with (uuid_String (vizierID (br b))).
    rewrite Marshal_enc, Ht. fold data. run_with (lift_sum_ret (inr data) data b1 eq_refl). unfold bPublish.
    change (C2VTopic "VizierPassthroughRequest") with PassthroughRequestChannel. change (bnc b1) with (bnc b). by rewrite Ec. }
  eexists _, data. cbn [HandleNATSBridging]. run_with E1. unfold handle_grpc. rewrite Ht. cbn [bool_decide]. rewrite bool_decide_false by done.
  rewrite bool_decide_true by done. rewrite Hpb. run_with (lift_sum_ret (inr pb) pb b1 eq_refl).
  assert (E3 : (match c2v_Req pb with
     | Some (DebugLogReq r) => _ ← logged (handleDebugLogRequest (c2v_RequestID pb) r); mret true
     | Some (DebugPodsReq r) => _ ← logged (handleDebugPodsRequest (c2v_RequestID pb) r); mret true
     | _ => _ ← forward_to_nats m; mret true end : M bstate bool) b1 = (Ret true, mkBState (br b1) c' (ext b) (conn b))).
  { unfold request_stream in Hs. destruct (c2v_Req pb) as [[]|]; try (by destruct Hs); by run_with E2. }
  rewrite E3. split; [done|]. split; [done|]. split; [done|]. split; [done|]. eexists. split; [apply Unmarshal_enc|done].
Qed.

(** The state of a request that is started. *)
Definition started (pb : C2VAPIStreamRequest) (now : Z) : RequestState :=
  mkRequestState (c2v_RequestID pb) now (mkContext ("bearer " +:+ c2v_Token pb) false).

(** A request for a script or a health check that the cloud sends on the stream of the
    bridge, whose ID is not in use, comes to the proxy, which runs it; and the queue for
    the stream gets each response in order and one status that says how the stream
    ended, under the topic of the request.  The proxy then knows as many requests as
    before. *)
Lemma passthrough_round_trip m pb rest (b : bstate) (p : pstate) now start st v1 resps e v2 fuel :
  up (bnc b) → up (pnc p) → grpcInCh (br b) = Some m :: rest → cm_Topic m = "VizierPassthroughRequest" →
  UnmarshalAny (cm_Msg m) = inr pb → (String.length (enc (mkC2VMessage (uuid_String (vizierID (br b))) (cm_Msg m))) <= max)%nat →
  requests p !! c2v_RequestID pb = None → fits (max := max) (too_large (c2v_RequestID pb)) →
  request_stream pb (req_ctx (started pb now)) (c2v_RequestID pb) = Some start → start (vz p) = (Ret st, v1) →
  stream_gives st (req_ctx (started pb now)) v1 resps e v2 → (length resps < fuel)%nat →
  (length (ptOutCh (br b)) + S (length resps) <= chan_capacity)%nat →
  ∃ b1 data a p1 p2 ms b2 qs,
    handle FromGrpc b = (Ret true, b1) ∧ log (bnc b1) = log (bnc b) ++ [(PassthroughRequestChannel, data)] ∧
    HandleMessage now data p = (Ret (Some (a, pb)), p1) ∧ runRequest fuel a pb p1 = (Ret tt, p2) ∧ log (pnc p2) = log (pnc p) ++ ms ∧
    answers (c2v_RequestID pb) (sent_as (max := max) (c2v_RequestID pb) <$> resps ++ [final_status (c2v_RequestID pb) e]) ms ∧
    feed ms b1 = (Ret tt, b2) ∧ ptOutCh (br b2) = ptOutCh (br b) ++ qs ∧
    queued (c2v_RequestID pb) (sent_as (max := max) (c2v_RequestID pb) <$> resps ++ [final_status (c2v_RequestID pb) e]) qs ∧
    requests p2 = requests p.
Proof using PS ProtoSpec0 ProtoSpec1 AnyProtoSpec0.
  intros Hupb Hupp Hm Ht Hpb Hsz Hq Hl Hst Es Hg Hf Hroom.
  destruct (request_forwarded m pb rest b) as (b1 & data & E1 & Hb1 & Hup1 & Hlog1 & Hd); try done.
  { unfold request_stream in *. destruct (c2v_Req pb) as [[]|]; try done; by eexists. }
  assert (Hnc : c2v_Req pb ≠ Some CancelReq) by (intros H; unfold request_stream in Hst; by rewrite H in Hst).
  pose proof (HandleMessage_request now data pb p Hd Hnc Hq) as E2. set (p1 := mkPState _ _ _ _) in E2.
  destruct (request_answered (max := max) (length (states p)) (started pb now) pb start st v1 resps e v2 p1 fuel) as (p2 & ms & E3 & Hlog3 & Hans & Hreq);
    try done.
  { unfold p1. cbn. by rewrite lookup_app_r, Nat.sub_diag by done. }
  destruct (replies_queued (c2v_RequestID pb) _ ms b1 Hans) as (b2 & qs & E4 & Hpt & Hqs).
  { rewrite Hb1, length_fmap, length_app. cbn. lia. }
  exists b1, data, (length (states p)), p1, p2, ms, b2, qs. rewrite Hb1 in Hpt. split_and!; try done.
  rewrite Hreq. unfold p1. cbn. by rewrite delete_insert_id.
Qed.
End passthrough.
