(* ===== verification/PassthroughRuns.v ===== *)
(** * Runs of the bridge and the passthrough proxy

    A cluster in memory, a connection to NATS with a limit on the size of messages, and a
    query broker that answers every script with what it has left. *)

From S2P Require Import Prelude GoLib Uuid Messages MessageBus K8sMessages K8sConvert QueryMessages ScriptSource BridgeMessages VizierInfo Bridge VizHealth BridgeProto BridgeRuns PTProxy ProxySteps Passthrough.
Import MemProto cvmsgspb vzconnpb cloudpb.

(** A connection that takes messages of up to [limit] bytes. *)
Module LimitedNats.
Definition limited (limit : nat) : NatsConn :=
  {| nconn := list (string * string);
     nc_Publish t m l := if (String.length m <=? limit)%nat then (None, l ++ [(t, m)]) else (Some ErrMaxPayload, l) |}.
Definition l_log limit (c : @nconn (limited limit)) : list (string * string) := c.
Definition l_up limit (c : @nconn (limited limit)) : Prop := True.

Lemma limited_spec limit : PayloadSpec (limited limit) (l_log limit) (l_up limit) limit.
Proof.
  split; intros c t m _ H; cbn.
  - rewrite (proj2 (Nat.leb_le _ _) H). by eexists.
  - rewrite (proj2 (Nat.leb_gt _ _) H). by eexists.
Qed.
End LimitedNats.

Module PassthroughRuns.
Import MemUuid MemK8s BridgeRuns LimitedNats.

(** The responses a query broker has left. *)
Record broker := mkBroker { left_over : list vizierpb.ExecuteScriptResponse }.
#[export] Instance broker_client : VizierServiceClient broker := {|
  vzc_ExecuteScript _ _ := mret 0%nat;
  exec_Recv _ c :=
    if canceled c then fail (GrpcStatus codes.Canceled "context canceled")
    else
      s ← get_state;
      match left_over s with
      | [] => fail ErrEOF
      | r :: rest => _ ← put_state (mkBroker rest); mret r
      end;
  vzc_HealthCheck _ _ := fail (GrpcStatus codes.Unavailable "no connection");
  hc_Recv _ _ := fail ErrEOF;
  vzc_GenerateOTelScript _ _ := fail (GrpcStatus codes.Unavailable "no connection")
|}.

Definition resp_1 : vizierpb.ExecuteScriptResponse := vizierpb.mkResponse "q" None None None.
Definition pb_1 : C2VAPIStreamRequest := mkC2VAPIStreamRequest "r" "token" (Some (ExecReq None)).
Definition msg_1 : C2VBridgeMessage := mkC2VBridgeMessage "VizierPassthroughRequest" (Some ("C2VAPIStreamRequest", enc pb_1)).
Definition c2v_1 : C2VMessage := mkC2VMessage (uuid_String (vizierID b_1)) (cm_Msg msg_1).
Definition status_1 : V2CMessage := mkV2CMessage "" "" 0 (Some ("V2CAPIStreamResponse", enc (too_large "r"))).
(** Large enough for the request and for the status. *)
Definition limit_1 : nat := Nat.max (String.length (enc c2v_1)) (String.length (enc status_1)).

#[export] Instance nats_1 : NatsConn := limited limit_1.
#[export] Instance nats_1_spec : PayloadSpec nats_1 (l_log limit_1) (l_up limit_1) limit_1 := limited_spec limit_1.

Definition s_5 : bstate (U := mem_uuid_lib) (N := nats_1) (I := deployed mem_cluster) (C := good_stream) :=
  mkBState (set_grpcInCh [Some msg_1] b_1) [] d_1 (mkGood []).
Definition p_1 : pstate (N := nats_1) (V := broker) := NewPassThroughProxy [] (mkBroker [resp_1]).

Lemma msg_1_read : UnmarshalAny (T := C2VAPIStreamRequest) (cm_Msg msg_1) = inr pb_1.
Proof. cbn [cm_Msg msg_1]. unfold UnmarshalAny, request_any, any_under. rewrite bool_decide_eq_true_2 by done. apply Unmarshal_enc. Qed.

Lemma status_1_fits : fits (max := limit_1) (too_large "r").
Proof.
  exists (enc status_1). split; [|apply Nat.le_max_r]. unfold message_bytes, MarshalAny, response_any, any_under. rewrite Marshal_enc.
  apply Marshal_enc.
Qed.

Lemma broker_gives : stream_gives (ExecuteScriptStream "r" 0) (req_ctx (started pb_1 7)) (mkBroker [resp_1])
  [mkV2CAPIStreamResponse "r" (Some (ExecResp resp_1))] ErrEOF (mkBroker []).
Proof. eapply gives_msg; [reflexivity|]. apply gives_end. reflexivity. Qed.

Definition data_1 : string := enc c2v_1.
Lemma data_1_decodes : decodes data_1 pb_1.
Proof. exists c2v_1. split; [apply Unmarshal_enc|exact msg_1_read]. Qed.

(** A request is received, handled and started. *)
Lemma one_run_per_request_witness :
  ∃ x, rtc (pstep (log := l_log limit_1)) (proxy_start [] (mkBroker [resp_1])) x ∧ is_Some (requests (ps x) !! "r") ∧
    (is_Some (requests (ps x) !! "r") ↔ ∃ a, is_Some (runs x !! a) ∧ id_at (ps x) a = Some "r").
Proof.
  set (x0 := proxy_start (N := nats_1) [] (mkBroker [resp_1])).
  set (x1 := mkPSys (ps x0) [data_1] [] ∅ true []).
  set (x2 := mkPSys (ps x0) [] [data_1] ∅ true []).
  set (p1 := mkPState (N := nats_1) (<["r" := 0%nat]> ∅) [mkRequestState "r" 7 (mkContext ("bearer " +:+ "token") false)] [] (mkBroker [resp_1])).
  set (x3 := mkPSys p1 [] [] (<[0%nat := (pb_1, Starting)]> ∅) true []).
  assert (Hr : rtc (pstep (log := l_log limit_1)) x0 x3).
  { eapply rtc_l; [apply (p_deliver x0 data_1); [reflexivity|apply Nat.ltb_lt; reflexivity]|].
    eapply rtc_l; [apply (p_take x1 data_1 []); reflexivity|].
    apply rtc_once. apply (p_handle x2 7 [] data_1 [] (Some (0%nat, pb_1)) p1); [reflexivity|].
    apply (HandleMessage_request 7 data_1 pb_1 (ps x0)); [exact data_1_decodes|discriminate|reflexivity]. }
  exists x3. split; [exact Hr|]. split; [by eexists|].
  apply (one_run_per_request (max := limit_1) (up := l_up limit_1) [] (mkBroker [resp_1]) x3); [exact Logic.I|exact Hr].
Defined.
End PassthroughRuns.
