(* ===== verification/CloudBridge.v ===== *)
(** * The cloud end of the bridge

    [cloud/vzconn/bridge/bridge.go], [grpc.go] and [metrics.go], and the topics of
    [cloud/shared/vzshard/vzshard.go]: the service that every Vizier connects to
    registers it and carries messages between its stream and the NATS of the cloud. *)

From S2P Require Import Prelude GoLib Uuid Messages MessageBus K8sMessages QueryMessages ScriptSource BridgeMessages.
From Stdlib Require Import Ascii.
Import cvmsgspb vzconnpb cloudpb.

(** ** Topics *)

Module vzshard.
Section shard.
Context `{U : UUIDLib}.

Fixpoint hex_digits (fuel : nat) (n : N) (acc : string) : string :=
  match fuel with
  | O => acc
  | S fuel =>
    let acc := String (hex_digit (n mod 16)) acc in
    if (n / 16 =? 0)%N then acc else hex_digits fuel (n / 16) acc
  end.

(** [fmt.Sprintf] with the verb 02x. *)
Definition shardIntToHex (i : Z) : string :=
  let digits := hex_digits (S (N.to_nat (N.log2 (Z.to_N (Z.abs i))))) (Z.to_N (Z.abs i)) "" in
  if (i <? 0)%Z then "-" +:+ digits
  else if (String.length digits <? 2)%nat then "0" +:+ digits else digits.

(** The shards between the flags [minShard] and [maxShard]; [make] panics on a negative
    length. *)
Definition GenerateShardRange {S} (minShard maxShard : Z) : M S (list string) :=
  if (maxShard - minShard + 1 <? 0)%Z then panic (PanicMsg "makeslice: len out of range")
  else mret (shardIntToHex <$> seqZ minShard (maxShard - minShard + 1)).

(** The last byte. *)
Definition VizierIDToShard (vizierID : uuid) : string := Sprintf_x (String.substring 15 1 (uuid_Bytes vizierID)).

Definition C2VTopic (topic : string) (vizierID : uuid) : string := "c2v." +:+ uuid_String vizierID +:+ "." +:+ topic.
Definition C2VDurableTopic (topic : string) (vizierID : uuid) : string := C2VTopic ("Durable" +:+ topic) vizierID.
Definition V2CTopic (topic : string) (vizierID : uuid) : string :=
  "v2c." +:+ VizierIDToShard vizierID +:+ "." +:+ uuid_String vizierID +:+ "." +:+ topic.
Definition V2CDurableTopic (topic : string) (vizierID : uuid) : string := V2CTopic ("Durable" +:+ topic) vizierID.
End shard.
End vzshard.

(** [strings.Contains]. *)
Fixpoint strings_Contains (s sub : string) : bool :=
  HasPrefix s sub || match s with EmptyString => false | String _ s => strings_Contains s sub end.

(** [msgbus.Streamer]. *)
Class Streamer (T : Type) := { st_Publish : string → string → M T unit }.
(** The server side of a stream of [NATSBridge]. *)
Class NATSBridgeServer (R : Type) := { srv_Send : C2VBridgeMessage → M R unit }.
(** The Vizier manager, and the deployments it knows. *)
Class VZMgrServiceClient (W : Type) := {
  vzmgr_VizierConnected : RegisterVizierRequest → M W RegisterVizierAck;
  vzmgr_RegisterVizierDeployment : string → string → string → M W (option UUIDpb * string)
}.

(** ** Errors *)

(** The errors of the package, which are compared by identity, and others. *)
Inductive bridge_error : Type :=
| ErrMissingRegistrationMessage
| ErrBadRegistrationMessage
| ErrRegistrationFailedUnknown
| ErrRegistrationFailedNotFound
| ErrRequestChannelClosed
| OtherError (err : error).

Definition bridge_error_string (err : bridge_error) : string :=
  match err with
  | ErrMissingRegistrationMessage => "Expected registration message"
  | ErrBadRegistrationMessage => "Malformed registration message"
  | ErrRegistrationFailedUnknown => "registration failed unknown"
  | ErrRegistrationFailedNotFound => "registration failed not found"
  | ErrRequestChannelClosed => "request channel already closed"
  | OtherError err => error_string err
  end.

(** The case of [ErrMissingRegistrationMessage] is empty and does not fall through. *)
Definition convertToGRPCErr (err : bridge_error) : error :=
  match err with
  | OtherError ErrContextCanceled => GrpcStatus codes.Canceled (bridge_error_string err)
  | ErrBadRegistrationMessage => GrpcStatus codes.InvalidArgument (bridge_error_string err)
  | ErrRegistrationFailedUnknown => GrpcStatus codes.Unknown (bridge_error_string err)
  | ErrRegistrationFailedNotFound => GrpcStatus codes.NotFound (bridge_error_string err)
  | ErrRequestChannelClosed => GrpcStatus codes.Canceled (bridge_error_string err)
  | _ => GrpcStatus codes.Unknown (bridge_error_string err)
  end.

(** ** The controller of a stream *)

(** The capacity of its channels. *)
Definition controller_capacity : nat := 4096.

Section controller.
Context `{U : UUIDLib} `{N : NatsConn} {T R W : Type}.
Context `{!Streamer T} `{!NATSBridgeServer R} `{!VZMgrServiceClient W}.
Context `{!Proto C2VMessage} `{!Proto V2CMessage} `{!AnyProto RegisterVizierRequest} `{!AnyProto RegisterVizierAck}.

(** [streamID] tells the controllers of a cluster apart. *)
Record NATSBridgeController := mkController {
  streamID : uuid;
  clusterID : uuid;
  c_grpcOutCh : list C2VBridgeMessage;
  c_grpcInCh : list V2CBridgeMessage;
  c_quitCh : bool;
  c_subCh : list (string * string)
}.

(** The controller, its connections and the other side. *)
Record cstate := mkCState { ctl : NATSBridgeController; cnc : nconn; streamer : T; srv : R; mgr : W }.

Definition on_ctl (f : NATSBridgeController → NATSBridgeController) : M cstate unit :=
  modify (λ s, mkCState (f (ctl s)) (cnc s) (streamer s) (srv s) (mgr s)).
Definition on_srv {A} (m : M R A) : M cstate A := zoom srv (λ r s, mkCState (ctl s) (cnc s) (streamer s) r (mgr s)) m.
Definition on_mgr {A} (m : M W A) : M cstate A := zoom mgr (λ w s, mkCState (ctl s) (cnc s) (streamer s) (srv s) w) m.
Definition on_streamer {A} (m : M T A) : M cstate A := zoom streamer (λ t s, mkCState (ctl s) (cnc s) t (srv s) (mgr s)) m.
Definition cPublish (topic data : string) : M cstate unit := λ s,
  match nc_Publish topic data (cnc s) with
  | (None, c) => (Ret tt, mkCState (ctl s) c (streamer s) (srv s) (mgr s))
  | (Some e, c) => (Err e, mkCState (ctl s) c (streamer s) (srv s) (mgr s))
  end.

Definition NewNATSBridgeController (streamID clusterID : uuid) : NATSBridgeController :=
  mkController streamID clusterID [] [] false [].

Definition set_channels (out : list C2VBridgeMessage) (inn : list V2CBridgeMessage) (sub : list (string * string))
    (c : NATSBridgeController) : NATSBridgeController :=
  mkController (streamID c) (clusterID c) out inn (c_quitCh c) sub.

Definition getRemoteSubject (c : NATSBridgeController) (topic : string) : string :=
  let prefix := "c2v." +:+ uuid_String (clusterID c) +:+ "." in
  if HasPrefix topic prefix then String.substring (String.length prefix) (String.length topic - String.length prefix) topic
  else "".

(** A full channel blocks. *)
Definition sendNATSMessageToGRPC (subject data : string) : M cstate unit :=
  c2vMsg ← lift_sum (Unmarshal (A := C2VMessage) data);
  s ← get_state;
  let outMsg := mkC2VBridgeMessage (getRemoteSubject (ctl s) subject) (c2v_Msg c2vMsg) in
  if (length (c_grpcOutCh (ctl s)) <? controller_capacity)%nat
  then on_ctl (λ c, set_channels (c_grpcOutCh c ++ [outMsg]) (c_grpcInCh c) (c_subCh c) c)
  else panic Hang.

Definition sendMessageToMessageBus (msg : V2CBridgeMessage) : M cstate unit :=
  s ← get_state;
  b ← lift_sum (Marshal (mkV2CMessage (uuid_String (clusterID (ctl s))) "" (SessionId msg) (bm_Msg msg)));
  let topic := vzshard.V2CTopic (bm_Topic msg) (clusterID (ctl s)) in
  if strings_Contains topic "Durable" then on_streamer (st_Publish topic b) else cPublish topic b.

(** What the loop of [_run] takes; the count of bytes of a message reads its contents. *)
Inductive run_input : Type := FromSub (subject data : string) | FromGRPC (msg : V2CBridgeMessage).

Definition run_round (i : run_input) : M cstate unit :=
  match i with
  | FromSub subject data => sendNATSMessageToGRPC subject data
  | FromGRPC msg => _ ← deref (bm_Msg msg); sendMessageToMessageBus msg
  end.

(** ** Registration *)

(** The credentials of a cluster are signed, or not. *)
Definition handleRegisterMessage (creds : error + string) (msg : RegisterVizierRequest) : M cstate (option bridge_error) :=
  match creds with
  | inl err => mret (Some (OtherError err))
  | inr _ =>
    vzmgrResp ← try (on_mgr (vzmgr_VizierConnected msg));
    match vzmgrResp with
    | inl err => mret (Some (OtherError err))
    | inr vzmgrResp =>
      match MarshalAny vzmgrResp with
      | inl err => mret (Some (OtherError err))
      | inr respAsAny =>
        sendErr ← try (on_srv (srv_Send (mkC2VBridgeMessage "registerAck" (Some respAsAny))));
        match ack_Status vzmgrResp with
        | ST_OK => match sendErr with inl err => mret (Some (OtherError err)) | inr _ => mret None end
        | ST_FAILED_NOT_FOUND => mret (Some ErrRegistrationFailedNotFound)
        | ST_UNKNOWN => mret (Some ErrRegistrationFailedUnknown)
        end
      end
    end
  end.

(** [NATSBridge] up to the start of a controller: its first message, the new stream ID. *)
Definition NATSBridge (first : error + V2CBridgeMessage) (creds : error + string) (streamID : uuid) : M cstate (option error) :=
  match first with
  | inl err => mret (Some (convertToGRPCErr (OtherError err)))
  | inr msg =>
    if negb (bool_decide (bm_Topic msg = "register")) then mret (Some (convertToGRPCErr ErrMissingRegistrationMessage))
    else
      match UnmarshalAny (T := RegisterVizierRequest) (bm_Msg msg) with
      | inl _ => mret (Some (convertToGRPCErr ErrBadRegistrationMessage))
      | inr registerMsg =>
        err ← handleRegisterMessage creds registerMsg;
        match err with
        | Some err => mret (Some (convertToGRPCErr err))
        | None =>
          _ ← on_ctl (λ _, NewNATSBridgeController streamID (UUIDFromProtoOrNil (Some (rv_VizierID registerMsg))));
          mret None
        end
      end
  end.

(** [RegisterVizierDeployment]: the metadata of the call, if any, and the token. *)
Definition RegisterVizierDeployment (md : option (list string)) (token : error + string) (req : RegisterVizierDeploymentRequest)
    : M cstate RegisterVizierDeploymentResponse :=
  match md with
  | None => fail (GrpcStatus codes.NotFound "Could not get metadata from incoming md")
  | Some [] => fail (GrpcStatus codes.Unauthenticated "Deploy key not included")
  | Some (deployKey :: _) =>
    _ ← lift_sum token;
    resp ← on_mgr (vzmgr_RegisterVizierDeployment (K8sClusterUID req) (K8sClusterName req) deployKey);
    mret (mkRegisterDeploymentResponse resp.1 resp.2)
  end.

(** ** Metrics *)

(** The controllers by their cluster; a controller is known by its stream. *)
Definition Register (b : NATSBridgeController) (m : gmap string NATSBridgeController) : gmap string NATSBridgeController :=
  <[uuid_String (clusterID b) := b]> m.
Definition Unregister (b : NATSBridgeController) (m : gmap string NATSBridgeController) : gmap string NATSBridgeController :=
  let cid := uuid_String (clusterID b) in
  match m !! cid with
  | Some val => if bool_decide (streamID val = streamID b) then delete cid m else m
  | None => m
  end.

Definition cut_before (sep : ascii) : string → string :=
  fix go s := match s with EmptyString => EmptyString | String a s => if Ascii.eqb a sep then EmptyString else String a (go s) end.
Definition cleanVizierToCloudMessageKind (s : string) : string :=
  if HasPrefix s "reply-" then "reply" else cut_before ":" s.
Definition cleanCloudToVizierMessageKind (s : string) : string :=
  (fix go s acc := match s with
   | EmptyString => acc
   | String a s => if Ascii.eqb a "." then go s s else go s acc
   end) s s.

(** The values of the three gauges: the messages of the cloud on NATS, and what is
    published as the queues to and from the Vizier. *)
Definition Collect (b : NATSBridgeController) : nat * nat * nat :=
  (length (c_subCh b), length (c_grpcInCh b), length (c_grpcOutCh b)).
End controller.

(** ** Facts *)

(** Every Vizier is in a shard, under the default flags. *)
Lemma shard_of_byte (a : ascii) : Sprintf_x (String a "") = vzshard.shardIntToHex (Z.of_N (N_of_ascii a)).
Proof. destruct a as [[] [] [] [] [] [] [] []]; vm_compute; reflexivity. Qed.

Lemma substring_last s n : String.length s = S n → ∃ a, String.substring n 1 s = String a "".
Proof.
  revert n. induction s as [|a s IH]; intros n H; [done|]. destruct n as [|n]; cbn in *.
  - exists a. by destruct s.
  - apply IH. lia.
Qed.

Lemma vizier_in_shard `{U : UUIDLib} `{US : !UUIDSpec U} (v : uuid) {S} (s : S) :
  ∃ shards, vzshard.GenerateShardRange 0 255 s = (Ret shards, s) ∧ vzshard.VizierIDToShard v ∈ shards.
Proof.
  eexists. split; [reflexivity|]. unfold vzshard.VizierIDToShard. destruct (substring_last (uuid_Bytes v) 15) as (a & ->); [apply uuid_Bytes_length|].
  rewrite shard_of_byte. apply list_elem_of_fmap_2, elem_of_seqZ.
  pose proof (N_ascii_bounded a). split; [lia|]. change (0 + (255 - 0 + 1))%Z with 256%Z. lia.
Qed.

Section facts.
Context `{U : UUIDLib} `{US : !UUIDSpec U}.

(** The topic of the cloud for a Vizier is the topic the Vizier gets. *)
Lemma remote_subject (c : NATSBridgeController (U := U)) topic : getRemoteSubject c (vzshard.C2VTopic topic (clusterID c)) = topic.
Proof.
  unfold getRemoteSubject, vzshard.C2VTopic. set (p := "c2v." +:+ uuid_String (clusterID c) +:+ ".").
  assert (E : "c2v." +:+ uuid_String (clusterID c) +:+ "." +:+ topic = p +:+ topic) by (unfold p; by rewrite !str_app_assoc).
  rewrite E, HasPrefix_app. clear E. generalize p as q. intros q. rewrite length_str_app. replace (String.length q + String.length topic - String.length q)%nat with (String.length topic) by lia.
  induction q as [|a q IH]; [apply substring_all|apply IH].
Qed.

(** A character that a string does not have. *)
Lemma contains_char a sub s : all_chars (λ b, negb (Ascii.eqb b a)) s = true → strings_Contains s (String a sub) = false.
Proof.
  induction s as [|b s IH]; [done|]. cbn. intros [H1 H2]%andb_prop. unfold HasPrefix. cbn.
  destruct (ascii_dec a b) as [->|Hne]; [by rewrite Ascii.eqb_refl in H1|]. by apply IH.
Qed.

Lemma all_chars_impl (p q : ascii → bool) s : (∀ a, p a = true → q a = true) → all_chars p s = true → all_chars q s = true.
Proof. intros H. induction s as [|a s IH]; [done|]. cbn. intros [H1 H2]%andb_prop. by rewrite H, IH. Qed.

Lemma uuid_char_not_D a : uuid_char a = true → negb (Ascii.eqb a "D") = true.
Proof. destruct a as [[] [] [] [] [] [] [] []]; cbn; done. Qed.

(** Replies do not go to the durable topics. *)
Lemma reply_not_durable (c r : uuid) : strings_Contains (vzshard.V2CTopic ("reply-" +:+ uuid_String r) c) "Durable" = false.
Proof.
  apply contains_char. unfold vzshard.V2CTopic. rewrite !MemUuid.all_chars_app. cbn [all_chars Ascii.eqb Bool.eqb negb andb].
  unfold vzshard.VizierIDToShard. rewrite !(all_chars_impl uuid_char _ _ uuid_char_not_D) by first [apply MemUuid.all_chars_hex|apply uuid_String_chars].
  reflexivity.
Qed.
End facts.

(** A stream whose first message is not the registration is refused, and not as an
    invalid argument. *)
Lemma first_message_must_register `{U : UUIDLib} `{N : NatsConn} {T R W} `{!NATSBridgeServer R} `{!VZMgrServiceClient W}
    `{!AnyProto RegisterVizierRequest} `{!AnyProto RegisterVizierAck} msg creds id (s : cstate (U := U) (N := N) (T := T) (R := R) (W := W)) :
  bm_Topic msg ≠ "register" → NATSBridge (inr msg) creds id s = (Ret (Some (GrpcStatus codes.Unknown "Expected registration message")), s).
Proof. intros H. cbn. by rewrite bool_decide_eq_false_2. Qed.

(** A message without contents from a Vizier panics. *)
Lemma empty_message_panics `{U : UUIDLib} `{N : NatsConn} {T R W} `{!Streamer T} `{!Proto V2CMessage} `{!Proto C2VMessage} msg
    (s : cstate (U := U) (N := N) (T := T) (R := R) (W := W)) :
  bm_Msg msg = None → run_round (FromGRPC msg) s = (Crash NilDeref, s).
Proof. intros H. cbn. by rewrite H. Qed.
