(* ===== verification/CloudProxy.v ===== *)
(** * The passthrough proxy of the cloud

    [cloud/api/ptproxy/request_proxyer.go] and [vizier_pt_proxy.go]: the API of the cloud
    sends the requests of its clients to the cluster and streams the replies to
    them. *)

From S2P Require Import Prelude GoLib Uuid Messages MessageBus K8sMessages QueryMessages ScriptSource BridgeMessages CloudBridge.
Import cvmsgspb cloudpb.

Definition ErrNotAvailable : error := GrpcStatus codes.Unavailable "cluster is not in a healthy state".
Definition ErrCredentialFetch : error := GrpcStatus codes.Internal "failed to fetch creds for cluster".
Definition ErrPermissionDenied : error := GrpcStatus codes.PermissionDenied "permission denied for access to cluster".

(** [vzmgrClient] and [scriptmgrClient], over the services of the cloud. *)
Class vzmgrClient (W : Type) := {
  vzmgr_GetVizierInfo : UUIDpb → M W VizierStatus;
  vzmgr_GetVizierConnectionInfo : UUIDpb → M W string
}.
Class scriptmgrClient (W : Type) := { sm_CheckScriptExists : string → M W bool }.
(** [grpcStream]: the client. *)
Class grpcStream (K : Type) := { srv_SendMsg : v2c_msg → M K unit }.

(** [status.Code]. *)
Definition grpc_code (err : error) : Z := match err with GrpcStatus code _ => code | _ => codes.Unknown end.

Section proxyer.
Context `{U : UUIDLib} `{N : NatsConn} {W K : Type} `{!vzmgrClient W} `{!scriptmgrClient W} `{!grpcStream K}.
Context `{!Proto C2VMessage} `{!Proto V2CMessage} `{!AnyProto V2CAPIStreamResponse} `{!AnyProto C2VAPIStreamRequest}.

Record requestProxyer := mkRequestProxyer { clusterID : uuid; requestID : uuid; signedVizierToken : string }.

(** The connection to the NATS of the cloud, the other services, and the client. *)
Record xstate := mkXState { xnc : nconn; services : W; client : K }.

Definition on_services {A} (m : M W A) : M xstate A := zoom services (λ w s, mkXState (xnc s) w (client s)) m.
Definition on_client {A} (m : M K A) : M xstate A := zoom client (λ k s, mkXState (xnc s) (services s) k) m.
Definition xPublish (topic data : string) : M xstate unit := λ s,
  match nc_Publish topic data (xnc s) with
  | (None, c) => (Ret tt, mkXState c (services s) (client s))
  | (Some e, c) => (Err e, mkXState c (services s) (client s))
  end.

(** ** Setting up a request *)

(** The goroutine that checks the status. *)
Definition check_status (debugMode : bool) (clusterIDProto : UUIDpb) : M xstate unit :=
  resp ← try (on_services (vzmgr_GetVizierInfo clusterIDProto));
  match resp with
  | inl err => if (grpc_code err =? codes.Unauthenticated)%Z then fail ErrPermissionDenied else fail err
  | inr status =>
    if debugMode then (if bool_decide (status = VZ_ST_DISCONNECTED) then fail ErrNotAvailable else mret tt)
    else (if bool_decide (status ≠ VZ_ST_HEALTHY) && bool_decide (status ≠ VZ_ST_DEGRADED) then fail ErrNotAvailable else mret tt)
  end.

(** Both goroutines run, in either order; the error is the first one.  The key is read
    when [Wait] has returned, or before it: the language leaves the order open. *)
Definition validateRequestAndFetchCreds (p : requestProxyer) (debugMode status_first read_late : bool)
    : M xstate (string * option error) :=
  let clusterIDProto := ProtoFromUUID (clusterID p) in
  let status := try (check_status debugMode clusterIDProto) in
  let key := try (on_services (vzmgr_GetVizierConnectionInfo clusterIDProto)) in
  r ← (if status_first then a ← status; b ← key; mret (a, b) else b ← key; a ← status; mret (a, b));
  let '(a, b) := r in
  let signingKey := match b with inr k => k | inl _ => "" end in
  let err := match a, b with
             | inl ea, inl eb => Some (if status_first then ea else eb)
             | inl ea, inr _ => Some ea
             | inr _, inl eb => Some eb
             | inr _, inr _ => None
             end in
  mret (if read_late then signingKey else "", err).

(** The ID of the request, the token of the client and the subscription can fail. *)
Record setup := mkSetup {
  new_id : error + uuid; creds : error + string; subscribed : bool; status_first : bool; read_late : bool
}.

Definition newRequestProxyer (debugMode : bool) (cluster_id : string) (e : setup) : M xstate requestProxyer :=
  requestID ← lift_sum (new_id e);
  _ ← lift_sum (creds e);
  match uuid_FromString cluster_id with
  | inl _ => fail (GrpcStatus codes.InvalidArgument "missing/malformed cluster_id")
  | inr clusterID =>
    r ← validateRequestAndFetchCreds (mkRequestProxyer clusterID requestID "") debugMode (status_first e) (read_late e);
    match r.2 with
    | Some err => if bool_decide (err = ErrNotAvailable) then fail err else fail ErrCredentialFetch
    | None =>
      if subscribed e then mret (mkRequestProxyer clusterID requestID r.1)
      else fail (GrpcStatus codes.Internal "Failed to listen for message")
    end
  end.

(** ** Messages *)

Definition getSendTopic (p : requestProxyer) : string := vzshard.C2VTopic "VizierPassthroughRequest" (clusterID p).
Definition getRecvTopic (p : requestProxyer) : string := vzshard.V2CTopic ("reply-" +:+ uuid_String (requestID p)) (clusterID p).

(** The request of the client is put into it. *)
Definition prepareVizierRequest (p : requestProxyer) (req : c2v_msg) : C2VAPIStreamRequest :=
  mkC2VAPIStreamRequest (uuid_String (requestID p)) (signedVizierToken p) (Some req).

Definition marshallAsC2VMsg (p : requestProxyer) (msg : C2VAPIStreamRequest) : error + string :=
  match MarshalAny msg with
  | inl err => inl err
  | inr anyPB => Marshal (mkC2VMessage (uuid_String (clusterID p)) (Some anyPB))
  end.

Definition sendMessageToVizier (p : requestProxyer) (req : C2VAPIStreamRequest) : M xstate unit :=
  b ← lift_sum (marshallAsC2VMsg p req);
  xPublish (getSendTopic p) b.

Definition sendCancelMessageToVizier (p : requestProxyer) : M xstate unit :=
  sendMessageToVizier p (prepareVizierRequest p CancelReq).

(** [fmt.Errorf] around an error. *)
Definition wrapped (what : string) (err : error) : error := ErrMsg (what +:+ ": " +:+ error_string err).

Definition forward (what : string) (m : v2c_msg) : M xstate unit :=
  r ← try (on_client (srv_SendMsg m));
  match r with inl err => fail (wrapped ("Failed to send " +:+ what +:+ " message") err) | inr _ => mret tt end.

(** [codes.Code] of a number. *)
Definition codes_Code (z : Z) : Z := z mod 2 ^ 32.

(** The end of the stream is [io.EOF]. *)
Definition processNatsMsg (data : string) : M xstate unit :=
  match Unmarshal (A := V2CMessage) data with
  | inl err => fail (wrapped "Failed to unmarshall v2cMessage" err)
  | inr v2c =>
    match UnmarshalAny (T := V2CAPIStreamResponse) (v2c_Msg v2c) with
    | inl err => fail (wrapped "Failed to unmarshall v2cAPIStreamResponse" err)
    | inr resp =>
      match v2c_Resp resp with
      | Some (ExecResp _ as m) => forward "ExecResp" m
      | Some (HcResp _ as m) => forward "HcResp" m
      | Some (GenerateOTelScriptResp _ as m) => forward "GenerateOTelScriptResp" m
      | Some (DebugLogResp _ as m) => forward "DebugLogResp" m
      | Some (DebugPodsResp _ as m) => forward "DebugPodsResp" m
      | Some (Status st) =>
        if (codes_Code (vizierpb.Code st) =? codes.OK)%Z then fail ErrEOF
        else fail (GrpcStatus (codes_Code (vizierpb.Code st)) (vizierpb.StatusMessage st))
      | None => fail (GrpcStatus codes.Internal "Got invalid message")
      end
    end
  end.

(** What the loop of [run] receives: the end of the context, or a message of NATS. *)
Inductive proxy_event : Type := CtxDone (err : error) | NatsMsg (data : option string).

(** The loop, over what it receives; [None] when it waits for more. *)
Fixpoint run (p : requestProxyer) (es : list proxy_event) : M xstate (option (option error)) :=
  match es with
  | [] => mret None
  | CtxDone err :: _ =>
    r ← try (sendCancelMessageToVizier p);
    match r with inl e => mret (Some (Some e)) | inr _ => mret (Some (Some err)) end
  | NatsMsg None :: _ => mret (Some None)
  | NatsMsg (Some data) :: es =>
    r ← try (processNatsMsg data);
    match r with
    | inr _ => run p es
    | inl ErrEOF => mret (Some None)
    | inl err => _ ← logged (sendCancelMessageToVizier p); mret (Some (Some err))
    end
  end.

(** ** The API *)

Context (sha256_hex : string → string) (scriptModificationDisabled : bool).

Definition isScriptModified (token : error + string) (script : string) : M xstate bool :=
  _ ← lift_sum token;
  exists_ ← on_services (sm_CheckScriptExists (sha256_hex script));
  mret (negb exists_).

(** A request to the cluster and its replies; the result when it has ended. *)
Definition proxy_request (p : requestProxyer) (req : c2v_msg) (es : list proxy_event) : M xstate (option (option error)) :=
  _ ← sendMessageToVizier p (prepareVizierRequest p req);
  run p es.

Definition ExecuteScript (cluster_id : string) (req : vizierpb.ExecuteScriptRequest) (e : setup) (token : error + string)
    (es : list proxy_event) : M xstate (option (option error)) :=
  rp ← newRequestProxyer false cluster_id e;
  _ ← (if scriptModificationDisabled then
         modified ← isScriptModified token (vizierpb.QueryStr req);
         if (modified : bool) then fail (GrpcStatus codes.InvalidArgument "Script modification has been disabled") else mret tt
       else mret tt);
  proxy_request rp (ExecReq (Some req)) es.

Definition HealthCheck (cluster_id : string) (req : debugpb.HealthCheckRequest) (e : setup) (es : list proxy_event) : M xstate (option (option error)) :=
  rp ← newRequestProxyer false cluster_id e;
  proxy_request rp (HcReq (Some req)) es.

Definition DebugLog (cluster_id : string) (req : debugpb.DebugLogRequest) (e : setup) (es : list proxy_event) : M xstate (option (option error)) :=
  rp ← newRequestProxyer true cluster_id e;
  proxy_request rp (DebugLogReq (Some req)) es.

Definition DebugPods (cluster_id : string) (req : debugpb.DebugPodsRequest) (e : setup) (es : list proxy_event) : M xstate (option (option error)) :=
  rp ← newRequestProxyer true cluster_id e;
  proxy_request rp (DebugPodsReq (Some req)) es.
End proxyer.

(** [generateOTelScriptStream], which keeps the last response; the type assertion
    panics on any other message. *)
#[export] Instance generateOTelScriptStream : grpcStream (option debugpb.GenerateOTelScriptResponse) := {|
  srv_SendMsg data := match data with
                      | GenerateOTelScriptResp r => put_state (Some r)
                      | _ => panic (PanicMsg "interface conversion")
                      end
|}.

(** The response when the request has ended. *)
Definition GenerateOTelScript `{U : UUIDLib} `{N : NatsConn} {W : Type} `{!vzmgrClient W}
    `{!Proto C2VMessage} `{!Proto V2CMessage} `{!AnyProto V2CAPIStreamResponse} `{!AnyProto C2VAPIStreamRequest}
    (cluster_id : string) (req : debugpb.GenerateOTelScriptRequest) (e : setup) (es : list proxy_event)
    : M (xstate (N := N) (W := W) (K := option debugpb.GenerateOTelScriptResponse)) (option (error + option debugpb.GenerateOTelScriptResponse)) :=
  rp ← newRequestProxyer true cluster_id e;
  err ← proxy_request rp (GenerateOTelScriptReq (Some req)) es;
  s ← get_state;
  mret ((λ err, match err with Some err => inl err | None => inr (client s) end) <$> err).

(** ** What a client gets *)

(** A client that takes every message. *)
Class ClientSpec (K : Type) `{!grpcStream K} (received : K → list v2c_msg) : Prop := {
  client_takes m k : ∃ k', srv_SendMsg m k = (Ret tt, k') ∧ received k' = received k ++ [m]
}.

Definition is_status (m : v2c_msg) : bool := match m with Status _ => true | _ => false end.

Section facts.
Context `{U : UUIDLib} `{N : NatsConn} {W K : Type} `{!vzmgrClient W} `{!grpcStream K} {received : K → list v2c_msg} `{!ClientSpec K received}.
Context `{!Proto C2VMessage} `{!Proto V2CMessage} `{!AnyProto V2CAPIStreamResponse} `{!AnyProto C2VAPIStreamRequest}.
Abbreviation xstate := (xstate (N := N) (W := W) (K := K)).
Implicit Types s : xstate.

(** What is read from the bytes of a reply. *)
Definition reads (data : string) (resp : V2CAPIStreamResponse) : Prop :=
  ∃ m, Unmarshal (A := V2CMessage) data = inr m ∧ UnmarshalAny (v2c_Msg m) = inr resp.

Lemma process_payload data resp m s : reads data resp → v2c_Resp resp = Some m → is_status m = false →
  ∃ k, processNatsMsg data s = (Ret tt, mkXState (xnc s) (services s) k) ∧ received k = received (client s) ++ [m].
Proof using ClientSpec0.
  intros (v & E1 & E2) Hm Hs. destruct (client_takes m (client s)) as (k & Ek & Hk). exists k. split; [|done].
  assert (E : ∀ what, forward what m s = (Ret tt, mkXState (xnc s) (services s) k)).
  { intros what. unfold forward. assert (E' : on_client (srv_SendMsg m) s = (Ret tt, mkXState (xnc s) (services s) k)) by (unfold on_client, zoom; by rewrite Ek).
    by rewrite (try_bind_ret _ _ _ _ _ E'). }
  unfold processNatsMsg. rewrite E1, E2, Hm. destruct m; try apply E. done.
Qed.

Lemma process_status data resp st s : reads data resp → v2c_Resp resp = Some (Status st) →
  processNatsMsg data s =
    (Err (if (codes_Code (vizierpb.Code st) =? codes.OK)%Z then ErrEOF else GrpcStatus (codes_Code (vizierpb.Code st)) (vizierpb.StatusMessage st)), s).
Proof. intros (v & E1 & E2) Hm. unfold processNatsMsg. rewrite E1, E2, Hm. by destruct (_ =? _)%Z. Qed.

Lemma run_payloads p datas resps ms es s :
  Forall2 reads datas resps → v2c_Resp <$> resps = Some <$> ms → Forall (λ m, is_status m = false) ms →
  ∃ k, run p ((λ d, NatsMsg (Some d)) <$> datas ++ es) s = run p ((λ d, NatsMsg (Some d)) <$> es) (mkXState (xnc s) (services s) k) ∧
    received k = received (client s) ++ ms.
Proof using ClientSpec0.
  intros Hr. revert ms s. induction Hr as [|d resp datas resps Hd _ IH]; intros [|m ms] s Hm Hs; try done.
  { exists (client s). split; [by destruct s|]. by rewrite app_nil_r. }
  cbn in Hm. injection Hm as Hm Hms. inversion Hs as [|? ? Hm' Hs']; subst.
  destruct (process_payload d resp m s Hd Hm Hm') as (k1 & E1 & Hk1).
  destruct (IH ms (mkXState (xnc s) (services s) k1) Hms Hs') as (k2 & E2 & Hk2). exists k2.
  cbn [app fmap list_fmap run]. rewrite (try_bind_ret _ _ _ _ _ E1). split; [exact E2|]. rewrite Hk2. cbn. by rewrite Hk1, <- app_assoc.
Qed.

(** How a request ends when its status comes. *)
Definition request_result (st : vizierpb.Status) : option error :=
  if (codes_Code (vizierpb.Code st) =? codes.OK)%Z then None
  else Some (GrpcStatus (codes_Code (vizierpb.Code st)) (vizierpb.StatusMessage st)).

Lemma cancel_sent p s : ∃ s', logged (sendCancelMessageToVizier p) s = (Ret tt, s') ∧ client s' = client s.
Proof.
  unfold logged, sendCancelMessageToVizier, sendMessageToVizier, try, mbind, M_bind, lift_sum, xPublish.
  destruct (marshallAsC2VMsg _ _) as [e|b]; cbn; [by eexists|]. by destruct (nc_Publish _ _ _) as [[e|] c]; eexists.
Qed.

Lemma run_status p data resp st s : reads data resp → v2c_Resp resp = Some (Status st) →
  ∃ s', run p [NatsMsg (Some data)] s = (Ret (Some (request_result st)), s') ∧ client s' = client s.
Proof.
  intros Hd Hm. cbn [run]. rewrite (try_bind_err _ _ _ _ _ (process_status data resp st s Hd Hm)). unfold request_result.
  destruct (_ =? _)%Z; [by eexists|]. destruct (cancel_sent p s) as (s' & E & Hc). run_with E. by eexists.
Qed.

(** The client is never told that it has no permission: the error is replaced. *)
Lemma permission_denied_hidden debugMode cluster_id e s o s' :
  newRequestProxyer debugMode cluster_id e s = (o, s') → new_id e ≠ inl ErrPermissionDenied → creds e ≠ inl ErrPermissionDenied →
  o ≠ Err ErrPermissionDenied.
Proof.
  intros E Hn Hc ->. unfold newRequestProxyer in E. destruct (new_id e) as [err|id]; [apply Hn; f_equal; by injection E|].
  destruct (creds e) as [err|tok]; [apply Hc; f_equal; by injection E|]. cbn in E. unfold mbind at 1, M_bind at 1 in E. cbn in E.
  unfold mbind at 1, M_bind at 1 in E. cbn in E.
  destruct (uuid_FromString cluster_id) as [err|c]; [done|]. unfold mbind at 1, M_bind at 1 in E.
  destruct (validateRequestAndFetchCreds _ _ _ _ s) as [[[key err]|err|c'] s1] eqn:Ev; try done.
  - cbn in E. destruct err as [err|].
    + case_bool_decide; [|done]. by subst.
    + by destruct (subscribed e).
  - unfold validateRequestAndFetchCreds, try, mbind, M_bind in Ev. destruct (status_first e); cbn in Ev; repeat case_match; simplify_eq.
Qed.
End facts.
