(* ===== verification/CloudSteps.v ===== *)
(** * The goroutines of the cloud end of the bridge

    [Run] of [cloud/vzconn/bridge/bridge.go] starts a reader, a writer and the loop
    [_run] in an error group and waits for all three, as one transition system. *)

From S2P Require Import Prelude GoLib Uuid Messages MessageBus K8sMessages QueryMessages ScriptSource BridgeMessages CloudBridge.
Import cvmsgspb vzconnpb cloudpb.

(** The reader: at its select, in [Recv], with a message for [grpcInCh], or ended. *)
Inductive reader_phase : Type := RSelect | RRecv | RHave (m : V2CBridgeMessage) | RDone.
Inductive loop_phase : Type := Looping | LoopDone.

Section steps.
Context `{U : UUIDLib} `{N : NatsConn} {T R W : Type}.
Context `{!Streamer T} `{!NATSBridgeServer R}.
Context `{!Proto C2VMessage} `{!Proto V2CMessage}.
(** What the other services of the cloud publish for the Vizier. *)
Context (delivers : string → string → Prop).
Abbreviation cstate := (cstate (U := U) (N := N) (T := T) (R := R) (W := W)).

(** [srv_closed] is the context of the stream, [eg_err] the first error of the group,
    with which its context is cancelled. *)
Record rsys := mkRSys {
  rs : cstate; srv_closed : bool; eg_err : option error; reader : reader_phase; writer : loop_phase; runner : loop_phase
}.

Definition first_error (e : error) (x : rsys) : option error := match eg_err x with Some e' => Some e' | None => Some e end.
Definition with_channels out inn sub (s : cstate) : cstate :=
  mkCState (set_channels out inn sub (ctl s)) (cnc s) (streamer s) (srv s) (mgr s).

Inductive rstep : rsys → rsys → Prop :=
| r_closed x : reader x = RSelect → srv_closed x = true →
    rstep x (mkRSys (rs x) true (eg_err x) RDone (writer x) (runner x))
| r_ctx x e : reader x = RSelect → eg_err x = Some e →
    rstep x (mkRSys (rs x) (srv_closed x) (eg_err x) RDone (writer x) (runner x))
| r_default x : reader x = RSelect → srv_closed x = false → eg_err x = None →
    rstep x (mkRSys (rs x) (srv_closed x) (eg_err x) RRecv (writer x) (runner x))
| r_recv x m : reader x = RRecv →
    rstep x (mkRSys (rs x) (srv_closed x) (eg_err x) (RHave m) (writer x) (runner x))
| r_eof x : reader x = RRecv →
    rstep x (mkRSys (rs x) (srv_closed x) (eg_err x) RDone (writer x) (runner x))
| r_err x e : reader x = RRecv →
    rstep x (mkRSys (rs x) (srv_closed x) (first_error e x) RDone (writer x) (runner x))
| r_push x m : reader x = RHave m → (length (c_grpcInCh (ctl (rs x))) < controller_capacity)%nat →
    rstep x (mkRSys (with_channels (c_grpcOutCh (ctl (rs x))) (c_grpcInCh (ctl (rs x)) ++ [m]) (c_subCh (ctl (rs x))) (rs x))
               (srv_closed x) (eg_err x) RSelect (writer x) (runner x))
| wr_closed x : writer x = Looping → srv_closed x = true →
    rstep x (mkRSys (rs x) true (eg_err x) (reader x) LoopDone (runner x))
| wr_ctx x e : writer x = Looping → eg_err x = Some e →
    rstep x (mkRSys (rs x) (srv_closed x) (eg_err x) (reader x) LoopDone (runner x))
| wr_send x m rest s' : writer x = Looping → c_grpcOutCh (ctl (rs x)) = m :: rest →
    on_srv (srv_Send m) (with_channels rest (c_grpcInCh (ctl (rs x))) (c_subCh (ctl (rs x))) (rs x)) = (Ret tt, s') →
    rstep x (mkRSys s' (srv_closed x) (eg_err x) (reader x) Looping (runner x))
| wr_fail x m rest e s' : writer x = Looping → c_grpcOutCh (ctl (rs x)) = m :: rest →
    on_srv (srv_Send m) (with_channels rest (c_grpcInCh (ctl (rs x))) (c_subCh (ctl (rs x))) (rs x)) = (Err e, s') →
    rstep x (mkRSys s' (srv_closed x) (first_error e x) (reader x) LoopDone (runner x))
| u_ctx x e : runner x = Looping → eg_err x = Some e →
    rstep x (mkRSys (rs x) (srv_closed x) (eg_err x) (reader x) (writer x) LoopDone)
| u_sub x t d rest o s' : runner x = Looping → c_subCh (ctl (rs x)) = (t, d) :: rest →
    run_round (FromSub t d) (with_channels (c_grpcOutCh (ctl (rs x))) (c_grpcInCh (ctl (rs x))) rest (rs x)) = (o, s') → (∀ c, o ≠ Crash c) →
    rstep x (mkRSys s' (srv_closed x) (match o with Err e => first_error e x | _ => eg_err x end) (reader x) (writer x)
               (match o with Err _ => LoopDone | _ => Looping end))
| u_in x m rest o s' : runner x = Looping → c_grpcInCh (ctl (rs x)) = m :: rest →
    run_round (FromGRPC m) (with_channels (c_grpcOutCh (ctl (rs x))) rest (c_subCh (ctl (rs x))) (rs x)) = (o, s') → (∀ c, o ≠ Crash c) →
    rstep x (mkRSys s' (srv_closed x) (match o with Err e => first_error e x | _ => eg_err x end) (reader x) (writer x)
               (match o with Err _ => LoopDone | _ => Looping end))
| e_deliver x t d : delivers t d → (length (c_subCh (ctl (rs x))) < controller_capacity)%nat →
    rstep x (mkRSys (with_channels (c_grpcOutCh (ctl (rs x))) (c_grpcInCh (ctl (rs x))) (c_subCh (ctl (rs x)) ++ [(t, d)]) (rs x))
               (srv_closed x) (eg_err x) (reader x) (writer x) (runner x))
| e_close x : rstep x (mkRSys (rs x) true (eg_err x) (reader x) (writer x) (runner x)).

Definition run_start (s : cstate) : rsys := mkRSys s false None RSelect Looping Looping.

(** [Wait] returns. *)
Definition returned (x : rsys) : Prop := reader x = RDone ∧ writer x = LoopDone ∧ runner x = LoopDone.

(** What [Run] returns then; a cancelled stream is no error. *)
Definition run_result (x : rsys) : option error :=
  match eg_err x with
  | Some (GrpcStatus code _) => if (code =? codes.Canceled)%Z then None else eg_err x
  | err => err
  end.

(** When a goroutine has failed, the others can end. *)
Lemma run_ends_after_error x e : eg_err x = Some e → reader x = RSelect ∨ reader x = RDone → ∃ x', rtc rstep x x' ∧ returned x' ∧ run_result x' = run_result x.
Proof.
  intros He Hr. assert (Hres : ∀ x', eg_err x' = Some e → run_result x' = run_result x) by (intros x' He'; unfold run_result; by rewrite He, He').
  assert (H1 : ∃ x1, rtc rstep x x1 ∧ reader x1 = RDone ∧ eg_err x1 = Some e).
  { destruct Hr as [Hr|Hr]; [|by exists x]. eexists. split; [apply rtc_once; by eapply r_ctx|done]. }
  destruct H1 as (x1 & S1 & Hr1 & He1).
  assert (H2 : ∃ x2, rtc rstep x1 x2 ∧ reader x2 = RDone ∧ writer x2 = LoopDone ∧ eg_err x2 = Some e).
  { destruct (writer x1) eqn:Hw; [|by exists x1]. eexists. split; [apply rtc_once; by eapply wr_ctx|done]. }
  destruct H2 as (x2 & S2 & Hr2 & Hw2 & He2).
  destruct (runner x2) eqn:Hu.
  - eexists. split; [etrans; [exact S1|]; etrans; [exact S2|]; apply rtc_once; by eapply u_ctx|]. split; [done|by apply Hres].
  - exists x2. split; [by etrans|]. split; [done|by apply Hres].
Qed.

(** ** A stream that is closed between two calls of [Recv] *)

Definition decodable (d : string) : Prop := ∃ m, Unmarshal (A := C2VMessage) d = inr m.

(** The reader and the writer have seen the end of the stream, and nothing has failed. *)
Record orphaned (x : rsys) : Prop := mkOrphaned {
  or_reader : reader x = RDone;
  or_writer : writer x = LoopDone;
  or_runner : runner x = Looping;
  or_err : eg_err x = None;
  or_in : c_grpcInCh (ctl (rs x)) = [];
  or_sub : Forall (λ m, decodable m.2) (c_subCh (ctl (rs x)))
}.

Lemma send_decodable t d (s : cstate) o s' : decodable d → sendNATSMessageToGRPC t d s = (o, s') → (∀ c, o ≠ Crash c) →
  o = Ret tt ∧ c_grpcInCh (ctl s') = c_grpcInCh (ctl s) ∧ c_subCh (ctl s') = c_subCh (ctl s).
Proof.
  intros [m Em] E Ho. unfold sendNATSMessageToGRPC in E. rewrite Em in E. rewrite (bind_ret _ _ _ _ _ (lift_sum_ret (inr m) m s eq_refl)), get_bind in E.
  destruct (_ <? _)%nat; injection E as <- <-; [done|]. by destruct (Ho Hang).
Qed.

Lemma orphaned_step x x' : (∀ t d, delivers t d → decodable d) → orphaned x → rstep x x' → orphaned x'.
Proof.
  intros Hd [H1 H2 H3 H4 H5 H6] Hs.
  destruct Hs as [x Hr Hc|x e Hr He|x Hr Hc He|x m Hr|x Hr|x e Hr|x m Hr Hl|x Hw Hc|x e Hw He|x m rest s' Hw E Es|x m rest e s' Hw E Es|x e Hu He|x t d rest o s' Hu E Er Ho|x m rest o s' Hu E Er Ho|x t d Ht Hl|x];
    try congruence; try by split.
  - rewrite E in H6. inversion H6 as [|? ? Hdec Hrest]; subst. destruct (send_decodable _ _ _ _ _ Hdec Er Ho) as (-> & Hin & Hsub).
    split; try done; cbn; [by rewrite Hin|by rewrite Hsub].
  - split; try done. cbn. apply Forall_app. split; [done|]. constructor; [|constructor]. by eapply Hd.
Qed.

(** The stream of a Vizier may end in such a way that [Run] never returns: when its
    context is done while the reader is not in [Recv], the reader and the writer end
    without an error, and the loop goes on for ever, with its subscription, as long as
    the messages it is given can be read. *)
Theorem closed_bridge_never_returns (s : cstate) :
  (∀ t d, delivers t d → decodable d) → c_grpcInCh (ctl s) = [] → c_subCh (ctl s) = [] →
  ∃ x, rtc rstep (run_start s) x ∧ srv_closed x = true ∧
    ∀ x', rtc rstep x x' → runner x' = Looping ∧ ¬ returned x' ∧ reader x' = RDone ∧ writer x' = LoopDone.
Proof.
  intros Hd Hin Hsub. set (x0 := run_start s).
  set (x1 := mkRSys s true None RSelect Looping Looping). set (x2 := mkRSys s true None RDone Looping Looping).
  exists (mkRSys s true None RDone LoopDone Looping). split.
  { eapply rtc_l; [exact (e_close x0)|]. eapply rtc_l; [exact (r_closed x1 eq_refl eq_refl)|]. apply rtc_once. exact (wr_closed x2 eq_refl eq_refl). }
  split; [done|].
  assert (H0 : orphaned (mkRSys s true None RDone LoopDone Looping)) by (split; try done; cbn; by rewrite Hsub).
  intros x' Hr. assert (Hx : orphaned x').
  { revert H0. induction Hr as [|y1 y2 y3 Hs _ IH]; [done|]. intros H. apply IH. by eapply orphaned_step. }
  destruct Hx as [H1 H2 H3 _ _ _]. split_and!; [done| |done|done]. intros (_ & _ & H). congruence.
Qed.
End steps.
