(* ===== verification/EndToEnd.v ===== *)
(** * A script from a client of the cloud to a cluster and back

    All parts a request passes: the passthrough proxy of the cloud
    ([cloud/api/ptproxy]), the cloud end of the bridge ([cloud/vzconn/bridge]), the
    cloud connector ([cloud_connector/bridge]) and the passthrough proxy of the query
    broker ([query_broker/ptproxy]). *)

From S2P Require Import Prelude GoLib Uuid Messages MessageBus K8sMessages K8sConvert QueryMessages ScriptSource BridgeMessages CloudBridge CloudProxy VizierInfo Bridge PTProxy ProxySteps Passthrough.
Import cvmsgspb vzconnpb cloudpb.

(** A message without contents cannot be read. *)
Class AnyNil (T : Type) `{!AnyProto T} : Prop := { any_nil x : UnmarshalAny (T := T) None ≠ inr x }.

Section end_to_end.
Context `{U : UUIDLib} `{US : !UUIDSpec U}.
(** The NATS of the cluster and that of the cloud. *)
Context (N NC : NatsConn) {log up max} `{PS : !PayloadSpec N log up max} {clog cup} `{NS : !NatsSpec NC clog cup}.
Context {I C V T R W K : Type}.
Context `{!VizierInfo I} `{!VizierOperatorInfo I} `{!VZConnServiceClient C} `{!VizierServiceClient V}.
Context `{!CloudBridge.Streamer T} `{!CloudProxy.grpcStream K} {received : K → list v2c_msg} `{CS : !CloudProxy.ClientSpec K received}.
Context `{!Proto C2VMessage} `{!ProtoSpec C2VMessage} `{!Proto V2CMessage} `{!ProtoSpec V2CMessage} `{!Proto MetricsMessage}.
Context `{!AnyProto UpdateOrInstallVizierRequest} `{!AnyProto UpdateOrInstallVizierResponse}.
Context `{!AnyProto V2CAPIStreamResponse} `{!AnyProtoSpec V2CAPIStreamResponse} `{!AnyNil V2CAPIStreamResponse}.
Context `{!AnyProto C2VAPIStreamRequest} `{!AnyProtoSpec C2VAPIStreamRequest} `{!AnyProto VizierHeartbeat}.
Context {WriteRequest : Type} `{!AnyProto WriteRequest}.
Context (parse_prom : string → string → string → error + WriteRequest) (job_yaml : string).

Abbreviation xstate := (CloudProxy.xstate (N := NC) (W := W) (K := K)).
Abbreviation cstate := (CloudBridge.cstate (U := U) (N := NC) (T := T) (R := R) (W := W)).
Abbreviation bstate := (bstate (U := U) (N := N) (I := I) (C := C)).
Abbreviation pstate := (pstate (N := N) (V := V)).

(** The four parts. *)
Record world := mkWorld { w_api : xstate; w_vzconn : cstate; w_bridge : bstate; w_broker : pstate }.

Definition on_api {A} (m : M xstate A) : M world A := zoom w_api (λ x w, mkWorld x (w_vzconn w) (w_bridge w) (w_broker w)) m.
Definition on_vzconn {A} (m : M cstate A) : M world A := zoom w_vzconn (λ c w, mkWorld (w_api w) c (w_bridge w) (w_broker w)) m.
Definition on_bridge {A} (m : M bstate A) : M world A := zoom w_bridge (λ b w, mkWorld (w_api w) (w_vzconn w) b (w_broker w)) m.
Definition on_broker {A} (m : M pstate A) : M world A := zoom w_broker (λ p w, mkWorld (w_api w) (w_vzconn w) (w_bridge w) p) m.

(** What a call published on a topic, on the connection [conn] of one of the parts. *)
Definition heard {S A} (conn_log : S → list (string * string)) (topic : string) (m : M S A) : M S (list string) := λ s,
  match m s with
  | (Ret _, s') => (Ret (filter (λ m, m.1 = topic) (drop (length (conn_log s)) (conn_log s'))).*2, s')
  | (Err e, s') => (Err e, s')
  | (Crash c, s') => (Crash c, s')
  end.

Fixpoint each {S A} (f : A → M S unit) (l : list A) : M S unit :=
  match l with [] => mret tt | a :: l => _ ← f a; each f l end.

(** The stream carries what the cloud end has queued, and what the bridge has. *)
Definition to_vizier : M world unit := modify (λ w,
  let out := CloudBridge.c_grpcOutCh (CloudBridge.ctl (w_vzconn w)) in
  mkWorld (w_api w)
    (CloudBridge.mkCState (CloudBridge.set_channels [] (CloudBridge.c_grpcInCh (CloudBridge.ctl (w_vzconn w)))
       (CloudBridge.c_subCh (CloudBridge.ctl (w_vzconn w))) (CloudBridge.ctl (w_vzconn w)))
       (CloudBridge.cnc (w_vzconn w)) (CloudBridge.streamer (w_vzconn w)) (CloudBridge.srv (w_vzconn w)) (CloudBridge.mgr (w_vzconn w)))
    (mkBState (set_grpcInCh (grpcInCh (br (w_bridge w)) ++ (Some <$> out)) (br (w_bridge w))) (bnc (w_bridge w)) (ext (w_bridge w)) (conn (w_bridge w)))
    (w_broker w)).

Definition to_cloud : M world (list V2CBridgeMessage) := λ w,
  let b := br (w_bridge w) in
  (Ret (ptOutCh b),
   mkWorld (w_api w) (w_vzconn w)
     (mkBState (set_queues (grpcOutCh b) [] (pendingGRPCOutMsg b) (droppedMessagesBeforeResume b) b) (bnc (w_bridge w)) (ext (w_bridge w)) (conn (w_bridge w)))
     (w_broker w)).

(** A message for the proxy of the query broker, and the request it starts. *)
Definition serve (fuel : nat) (now : Z) (data : string) : M pstate unit :=
  started ← HandleMessage now data;
  match started with Some (a, req) => runRequest fuel a req | None => mret tt end.

(** The way of a request: what the broker hears of it. *)
Definition forth (rp : CloudProxy.requestProxyer (U := U)) (req : c2v_msg) : M world (list string) :=
  let send_topic := CloudProxy.getSendTopic rp in
  requests ← on_api (heard (λ x, clog (CloudProxy.xnc x)) send_topic (CloudProxy.sendMessageToVizier rp (CloudProxy.prepareVizierRequest rp req)));
  _ ← on_vzconn (each (λ d, CloudBridge.run_round (CloudBridge.FromSub send_topic d)) requests);
  _ ← to_vizier;
  on_bridge (heard (λ b, log (bnc b)) PassthroughRequestChannel (HandleNATSBridging parse_prom job_yaml FromGrpc)).

(** The way of its replies: what [run] hears of them. *)
Definition back (rp : CloudProxy.requestProxyer (U := U)) (replies : list string) : M world (list string) :=
  _ ← on_bridge (feed parse_prom job_yaml ((λ d, (reply_topic (uuid_String (CloudProxy.requestID rp)), d)) <$> replies));
  replies ← to_cloud;
  on_vzconn (heard (λ c, clog (CloudBridge.cnc c)) (CloudProxy.getRecvTopic rp) (each (λ q, CloudBridge.run_round (CloudBridge.FromGRPC q)) replies)).

(** The request and all its replies. *)
Definition exchange (fuel : nat) (now : Z) (rp : CloudProxy.requestProxyer (U := U)) (req : c2v_msg) : M world (option (option error)) :=
  requests ← forth rp req;
  replies ← on_broker (heard (λ p, log (pnc p)) (reply_topic (uuid_String (CloudProxy.requestID rp))) (each (serve fuel now) requests));
  replies ← back rp replies;
  on_api (CloudProxy.run rp ((λ d, CloudProxy.NatsMsg (Some d)) <$> replies)).

(** ** What the parts do *)

Lemma heard_run {S A} (l : S → list (string * string)) topic (m : M S A) s a s' ms :
  m s = (Ret a, s') → l s' = l s ++ ms → heard l topic m s = (Ret (filter (λ m, m.1 = topic) ms).*2, s').
Proof. intros E Hl. unfold heard. by rewrite E, Hl, drop_app_length. Qed.

Lemma zoom_run {S T' A} (g : S → T') f (m : M T' A) s o t : m (g s) = (o, t) → zoom g f m s = (o, f t s).
Proof. intros E. unfold zoom. by rewrite E. Qed.

Lemma each_one {S A} (f : A → M S unit) a s s' : f a s = (Ret tt, s') → each f [a] s = (Ret tt, s').
Proof. intros E. cbn. by run_with E. Qed.

(** The request as the cluster will read it. *)
Definition request_message (rp : CloudProxy.requestProxyer (U := U)) (any : Any) : C2VBridgeMessage :=
  mkC2VBridgeMessage "VizierPassthroughRequest" (Some any).

Lemma api_sends rp pr (x : xstate) : cup (CloudProxy.xnc x) →
  ∃ any c' d, MarshalAny pr = inr any ∧ UnmarshalAny (Some any) = inr pr ∧
    CloudProxy.sendMessageToVizier rp pr x = (Ret tt, CloudProxy.mkXState c' (CloudProxy.services x) (CloudProxy.client x)) ∧
    cup c' ∧ clog c' = clog (CloudProxy.xnc x) ++ [(CloudProxy.getSendTopic rp, d)] ∧
    Unmarshal (A := C2VMessage) d = inr (mkC2VMessage (uuid_String (CloudProxy.clusterID rp)) (Some any)).
Proof using NS AnyProtoSpec1 ProtoSpec0.
  intros Hup. destruct (any_roundtrip pr) as (any & Ea & Ea'). set (d := enc (mkC2VMessage (uuid_String (CloudProxy.clusterID rp)) (Some any))).
  destruct (nats_Publish (CloudProxy.xnc x) (CloudProxy.getSendTopic rp) d Hup) as (c' & Ec & Hup' & Hl).
  exists any, c', d. split_and!; [done|done| |done|done|apply Unmarshal_enc].
  unfold CloudProxy.sendMessageToVizier, CloudProxy.marshallAsC2VMsg. rewrite Ea, Marshal_enc. fold d.
  run_with (lift_sum_ret (inr d) d x eq_refl). unfold CloudProxy.xPublish. by rewrite Ec.
Qed.

Lemma vzconn_takes rp d any (c : cstate) :
  Unmarshal (A := C2VMessage) d = inr (mkC2VMessage (uuid_String (CloudProxy.clusterID rp)) (Some any)) →
  CloudBridge.clusterID (CloudBridge.ctl c) = CloudProxy.clusterID rp → CloudBridge.c_grpcOutCh (CloudBridge.ctl c) = [] →
  CloudBridge.run_round (CloudBridge.FromSub (CloudProxy.getSendTopic rp) d) c =
    (Ret tt, CloudBridge.mkCState (CloudBridge.set_channels [request_message rp any] (CloudBridge.c_grpcInCh (CloudBridge.ctl c))
               (CloudBridge.c_subCh (CloudBridge.ctl c)) (CloudBridge.ctl c))
             (CloudBridge.cnc c) (CloudBridge.streamer c) (CloudBridge.srv c) (CloudBridge.mgr c)).
Proof using US.
  intros Ed Hc Ho. cbn [CloudBridge.run_round]. unfold CloudBridge.sendNATSMessageToGRPC. rewrite Ed.
  run_with (lift_sum_ret (inr (mkC2VMessage (uuid_String (CloudProxy.clusterID rp)) (Some any))) _ c eq_refl).
  rewrite get_bind, Ho. cbn [length]. unfold CloudProxy.getSendTopic. rewrite <- Hc, CloudBridge.remote_subject.
  change (0 <? CloudBridge.controller_capacity)%nat with true. cbn iota. unfold CloudBridge.on_ctl, modify. cbn. by rewrite Ho.
Qed.

(** The replies go to the topic of the request on the NATS of the cloud. *)
Lemma vzconn_replies rp resps qs (c : cstate) : queued (uuid_String (CloudProxy.requestID rp)) resps qs → cup (CloudBridge.cnc c) →
  CloudBridge.clusterID (CloudBridge.ctl c) = CloudProxy.clusterID rp →
  ∃ c' ms, each (λ q, CloudBridge.run_round (CloudBridge.FromGRPC q)) qs c = (Ret tt, c') ∧ clog (CloudBridge.cnc c') = clog (CloudBridge.cnc c) ++ ms ∧
    Forall (λ m, m.1 = CloudProxy.getRecvTopic rp) ms ∧ Forall2 CloudProxy.reads ms.*2 resps.
Proof using US NS ProtoSpec1 AnyNil0.
  intros Hq. revert c. induction Hq as [|resp q resps qs [Ht Hr] _ IH]; intros c Hup Hc.
  { exists c, []. split; [done|]. rewrite app_nil_r. split; [done|]. split; constructor. }
  destruct (bm_Msg q) as [any|] eqn:Eq; [|by destruct (any_nil resp)].
  set (v2c := mkV2CMessage (uuid_String (CloudProxy.clusterID rp)) "" (SessionId q) (Some any)).
  destruct (nats_Publish (CloudBridge.cnc c) (CloudProxy.getRecvTopic rp) (enc v2c) Hup) as (n' & En & Hup' & Hl).
  set (c1 := CloudBridge.mkCState (CloudBridge.ctl c) n' (CloudBridge.streamer c) (CloudBridge.srv c) (CloudBridge.mgr c)).
  assert (E1 : CloudBridge.run_round (CloudBridge.FromGRPC q) c = (Ret tt, c1)).
  { cbn [CloudBridge.run_round]. rewrite Eq, deref_bind. unfold CloudBridge.sendMessageToMessageBus. rewrite get_bind, Hc, Eq. fold v2c.
    rewrite Marshal_enc. run_with (lift_sum_ret (inr (enc v2c)) _ c eq_refl). rewrite Ht. fold (CloudProxy.getRecvTopic rp).
    assert (CloudBridge.strings_Contains (CloudProxy.getRecvTopic rp) "Durable" = false) as -> by apply CloudBridge.reply_not_durable.
    unfold CloudBridge.cPublish. by rewrite En. }
  destruct (IH c1 Hup' Hc) as (c2 & ms & E2 & Hl2 & Ht2 & Hr2). exists c2, ((CloudProxy.getRecvTopic rp, enc v2c) :: ms).
  cbn [each]. run_with E1. split; [done|]. cbn in Hl2. rewrite Hl2, Hl, <- app_assoc. split; [done|]. split; [by constructor|].
  cbn [fmap list_fmap snd]. constructor; [|done]. exists v2c. split; [apply Unmarshal_enc|]. done.
Qed.

Lemma answers_topic id resps ms : answers id resps ms → filter (λ m, m.1 = reply_topic id) ms = ms ∧ (λ d, (reply_topic id, d)) <$> ms.*2 = ms.
Proof.
  induction 1 as [|resp [t d] resps ms [Ht _] _ [IH1 IH2]]; [done|]. cbn in Ht. subst t. split.
  - rewrite filter_cons_True by done. by rewrite IH1.
  - cbn. f_equal. exact IH2.
Qed.

(** What a stream gives are payloads. *)
Lemma gives_payloads st ctx v resps e v' : stream_gives st ctx v resps e v' →
  ∃ ms, v2c_Resp <$> resps = Some <$> ms ∧ Forall (λ m, CloudProxy.is_status m = false) ms.
Proof.
  induction 1 as [v e v' E|v m v1 resps e v' E _ (ms & IH1 & IH2)]; [by exists []|].
  assert (Hm : ∃ pm, v2c_Resp m = Some pm ∧ CloudProxy.is_status pm = false).
  { unfold Recv, mbind, M_bind in E. destruct st as [r n|r n].
    - destruct (exec_Recv n ctx v) as [[?|?|?] ?]; try done. injection E as <- _. by eexists.
    - destruct (hc_Recv n ctx v) as [[?|?|?] ?]; try done. injection E as <- _. by eexists. }
  destruct Hm as (pm & Hpm & Hs). exists (pm :: ms). split; [|by constructor]. cbn. rewrite Hpm. by f_equal.
Qed.

(** The status of the end of a stream. *)
Definition end_status (e : error) : vizierpb.Status :=
  if bool_decide (e = ErrEOF) then vizierpb.mkStatus codes.OK "" []
  else if bool_decide (e = ErrContextCanceled) || (status_Code e =? codes.Canceled)%Z then vizierpb.mkStatus codes.Canceled "" []
  else vizierpb.mkStatus (status_Code e) (error_string e) [].
Lemma final_status_resp id e : v2c_Resp (final_status id e) = Some (Status (end_status e)).
Proof. unfold final_status, end_status. case_bool_decide; [done|]. by destruct (_ || _). Qed.

Lemma sent_as_fits id resps : Forall (fits (max := max)) resps → sent_as (max := max) id <$> resps = resps.
Proof. induction 1 as [|r resps Hr _ IH]; [done|]. cbn. unfold sent_as at 1. rewrite decide_True by done. by f_equal. Qed.

(** The client gets the replies. *)
Lemma api_receives rp datas resps id e (x : xstate) ms :
  Forall2 CloudProxy.reads datas (resps ++ [final_status id e]) → v2c_Resp <$> resps = Some <$> ms → Forall (λ m, CloudProxy.is_status m = false) ms →
  ∃ x', CloudProxy.run rp ((λ d, CloudProxy.NatsMsg (Some d)) <$> datas) x = (Ret (Some (CloudProxy.request_result (end_status e))), x') ∧
    received (CloudProxy.client x') = received (CloudProxy.client x) ++ ms.
Proof using CS.
  intros Hr Hm Hs. apply Forall2_app_inv_r in Hr as (ds & ds' & Hr1 & Hr2 & ->). inversion Hr2 as [|d ? ds'' ? Hd Hn]; subst. inversion Hn; subst.
  destruct (CloudProxy.run_payloads rp ds resps ms [d] x Hr1 Hm Hs) as (k & E & Hk). rewrite E.
  destruct (CloudProxy.run_status rp d (final_status id e) (end_status e) (CloudProxy.mkXState (CloudProxy.xnc x) (CloudProxy.services x) k) Hd (final_status_resp id e)) as (x' & E' & Hc).
  exists x'. split; [exact E'|]. by rewrite Hc.
Qed.

(** The request arrives, if the bridge forwards it. *)
Lemma forth_run rp req (x : xstate) (c : cstate) (b : bstate) (p : pstate) :
  cup (CloudProxy.xnc x) → CloudBridge.clusterID (CloudBridge.ctl c) = CloudProxy.clusterID rp →
  CloudBridge.c_grpcOutCh (CloudBridge.ctl c) = [] → grpcInCh (br b) = [] →
  ∃ any x1, MarshalAny (CloudProxy.prepareVizierRequest rp req) = inr any ∧
    UnmarshalAny (Some any) = inr (CloudProxy.prepareVizierRequest rp req) ∧ CloudProxy.client x1 = CloudProxy.client x ∧
    ∀ r b1 data, HandleNATSBridging parse_prom job_yaml FromGrpc (mkBState (set_grpcInCh [Some (request_message rp any)] (br b)) (bnc b) (ext b) (conn b)) = (Ret r, b1) →
      log (bnc b1) = log (bnc b) ++ [(PassthroughRequestChannel, data)] →
      forth rp req (mkWorld x c b p) = (Ret [data], mkWorld x1 c b1 p).
Proof using US NS AnyProtoSpec1 ProtoSpec0.
  intros H1 H3 H4 H6. set (pb := CloudProxy.prepareVizierRequest rp req).
  destruct (api_sends rp pb x H1) as (any & nx & d & Ea & Ea' & E1 & _ & Hl1 & Ed).
  set (x1 := CloudProxy.mkXState nx (CloudProxy.services x) (CloudProxy.client x)) in E1.
  exists any, x1. split_and!; [done..|]. intros r b1 data E3 Hl3. unfold forth. fold pb.
  pose proof (vzconn_takes rp d any c Ed H3 H4) as E2. set (c1 := CloudBridge.mkCState _ _ _ _ _) in E2.
  set (b0 := mkBState _ _ _ _) in E3.
  assert (F1 : on_api (heard (λ x, clog (CloudProxy.xnc x)) (CloudProxy.getSendTopic rp) (CloudProxy.sendMessageToVizier rp pb)) (mkWorld x c b p)
    = (Ret [d], mkWorld x1 c b p)).
  { unfold on_api. erewrite zoom_run by (by eapply heard_run). cbn. by rewrite decide_True. }
  run_with F1. clear F1.
  assert (F2 : on_vzconn (each (λ d, CloudBridge.run_round (CloudBridge.FromSub (CloudProxy.getSendTopic rp) d)) [d]) (mkWorld x1 c b p)
    = (Ret tt, mkWorld x1 c1 b p)).
  { unfold on_vzconn. by erewrite zoom_run by (by apply each_one). }
  run_with F2. clear F2.
  assert (F3 : to_vizier (mkWorld x1 c1 b p) = (Ret tt, mkWorld x1 c b0 p)).
  { unfold to_vizier, modify, b0. cbn. rewrite H6. destruct c as [[] ? ? ? ?]. cbn in H4. by subst. }
  run_with F3. unfold on_bridge. erewrite zoom_run by (by eapply heard_run). cbn. by rewrite decide_True.
Qed.

(** The replies come back. *)
Lemma back_run rp resps rs qs (x : xstate) (c : cstate) (b b2 : bstate) (p : pstate) :
  let id := uuid_String (CloudProxy.requestID rp) in
  cup (CloudBridge.cnc c) → CloudBridge.clusterID (CloudBridge.ctl c) = CloudProxy.clusterID rp →
  answers id resps rs → feed parse_prom job_yaml rs b = (Ret tt, b2) → ptOutCh (br b2) = qs → queued id resps qs →
  ∃ c' b' ds, back rp rs.*2 (mkWorld x c b p) = (Ret ds, mkWorld x c' b' p) ∧ Forall2 CloudProxy.reads ds resps.
Proof using US NS ProtoSpec1 AnyNil0.
  intros id H2 H3 Hans E6 Hpt Hqs. destruct (answers_topic _ _ _ Hans) as [_ Hr]. unfold back. fold id. rewrite Hr.
  assert (F6 : on_bridge (feed parse_prom job_yaml rs) (mkWorld x c b p) = (Ret tt, mkWorld x c b2 p)) by exact (zoom_run w_bridge _ _ (mkWorld x c b p) _ _ E6).
  run_with F6. unfold to_cloud at 1. unfold mbind, M_bind. cbn [w_api w_vzconn w_bridge w_broker]. rewrite Hpt. set (b3 := mkBState _ _ _ _).
  destruct (vzconn_replies rp _ qs c Hqs H2 H3) as (c2 & ms & E8 & Hl8 & Ht8 & Hr8). exists c2, b3, ms.*2. split; [|done].
  unfold on_vzconn. erewrite zoom_run by (by eapply heard_run). by rewrite filter_all.
Qed.

(** The parts when nothing else is going on: their connections are up, the queues are
    empty, the stream is that of the cluster, and the ID of the request is not in
    use. *)
Record ready (rp : CloudProxy.requestProxyer (U := U)) (req : c2v_msg) (w : world) : Prop := mkReady {
  rd_api : cup (CloudProxy.xnc (w_api w));
  rd_vzconn : cup (CloudBridge.cnc (w_vzconn w));
  rd_cluster : CloudBridge.clusterID (CloudBridge.ctl (w_vzconn w)) = CloudProxy.clusterID rp;
  rd_out : CloudBridge.c_grpcOutCh (CloudBridge.ctl (w_vzconn w)) = [];
  rd_bridge : up (bnc (w_bridge w));
  rd_in : grpcInCh (br (w_bridge w)) = [];
  rd_pt : ptOutCh (br (w_bridge w)) = [];
  rd_broker : up (pnc (w_broker w));
  rd_id : requests (w_broker w) !! uuid_String (CloudProxy.requestID rp) = None;
  rd_fits any : MarshalAny (CloudProxy.prepareVizierRequest rp req) = inr any →
    (String.length (enc (mkC2VMessage (uuid_String (vizierID (br (w_bridge w)))) (Some any))) <= max)%nat
}.

(** C6: In a run in which nothing else is going on (the connections are up, the queues
    empty, the stream is that of the cluster, the ID of the request is not in use), in
    which one part works after the other, and if every message fits the limit of NATS
    and the replies fit the channels: a client of the cloud that asks for a script or a
    health check of a cluster gets exactly what the query broker of the cluster streams,
    in order, and then the end of the stream: no error at its regular end, and its code
    and message otherwise.  Nothing of the request is left in the query broker. *)
Theorem script_round_trip rp req w now start st v1 resps e v2 fuel :
  let pb := CloudProxy.prepareVizierRequest rp req in
  ready rp req w → fits (max := max) (too_large (c2v_RequestID pb)) →
  Forall (fits (max := max)) (resps ++ [final_status (c2v_RequestID pb) e]) →
  request_stream pb (req_ctx (started pb now)) (c2v_RequestID pb) = Some start → start (vz (w_broker w)) = (Ret st, v1) →
  stream_gives st (req_ctx (started pb now)) v1 resps e v2 → (length resps < fuel)%nat → (S (length resps) <= chan_capacity)%nat →
  ∃ w' ms, exchange fuel now rp req w = (Ret (Some (CloudProxy.request_result (end_status e))), w') ∧
    v2c_Resp <$> resps = Some <$> ms ∧
    received (CloudProxy.client (w_api w')) = received (CloudProxy.client (w_api w)) ++ ms ∧
    requests (w_broker w') = requests (w_broker w).
Proof using US PS NS CS ProtoSpec0 ProtoSpec1 AnyProtoSpec0 AnyNil0 AnyProtoSpec1.
  intros pb [H1 H2 H3 H4 H5 H6 H7 H8 H9 H10] Hl Hfits Hst Es Hg Hf Hroom. destruct w as [x c b p]. cbn [w_api w_vzconn w_bridge w_broker] in *.
  destruct (gives_payloads _ _ _ _ _ _ Hg) as (ms & Hms & Hns).
  destruct (forth_run rp req x c b p H1 H3 H4 H6) as (any & x1 & Ea & Ea' & Hx1 & E1). fold pb in Ea, Ea'.
  set (b0 := mkBState (set_grpcInCh [Some (request_message rp any)] (br b)) (bnc b) (ext b) (conn b)) in E1.
  destruct (passthrough_round_trip parse_prom job_yaml (request_message rp any) pb [] b0 p now start st v1 resps e v2 fuel)
    as (b1 & data & a & p1 & p2 & rs & b2 & qs & E3 & Hl3 & E4 & E5 & Hl5 & Hans & E6 & Hpt & Hqs & Hreq); try done.
  { by apply H10. }
  { change (ptOutCh (br b0)) with (ptOutCh (br b)). by rewrite H7. }
  change (ptOutCh (br b0)) with (ptOutCh (br b)) in Hpt. rewrite H7 in Hpt. rewrite sent_as_fits in Hqs, Hans by done.
  change (c2v_RequestID pb) with (uuid_String (CloudProxy.requestID rp)) in *.
  unfold exchange. run_with (E1 _ _ _ E3 Hl3).
  set (served := on_broker _). assert (F5 : served (mkWorld x1 c b1 p) = (Ret rs.*2, mkWorld x1 c b1 p2)).
  { unfold served, on_broker. erewrite zoom_run; [|eapply heard_run; [apply each_one; unfold serve; run_with E4; exact E5|exact Hl5]].
    by rewrite (proj1 (answers_topic _ _ _ Hans)). }
  run_with F5. destruct (back_run rp _ rs qs x1 c b1 b2 p2 H2 H3 Hans E6 Hpt Hqs) as (c2 & b3 & ds & E7 & Hr). run_with E7.
  destruct (api_receives rp ds resps _ e x1 ms Hr Hms Hns) as (x2 & E9 & Hk). rewrite Hx1 in Hk.
  exists (mkWorld x2 c2 b3 p2), ms. split; [exact (zoom_run w_api _ _ (mkWorld x1 c2 b3 p2) _ _ E9)|done].
Qed.
End end_to_end.
