(* ===== verification/EndToEndRuns.v ===== *)
(** * Runs of the whole way

    The cluster and the query broker of the runs before, and the services of the cloud in
    memory: one script goes to the cluster and its result comes back, and one stream ends
    without the end of [Run]. *)

From S2P Require Import Prelude GoLib Uuid Messages MessageBus K8sMessages K8sConvert QueryMessages ScriptSource BridgeMessages CloudBridge CloudProxy CloudSteps VizierInfo Bridge VizHealth BridgeProto BridgeRuns PTProxy ProxySteps Passthrough PassthroughRuns EndToEnd.
Import MemProto cvmsgspb vzconnpb cloudpb.

Module EndToEndRuns.
Import MemNats MemUuid MemK8s BridgeRuns LimitedNats PassthroughRuns.

Lemma any_under_nil name {T} `{!Proto T} : @AnyNil T (any_under name).
Proof. by split. Qed.
#[export] Instance response_any_nil : AnyNil V2CAPIStreamResponse.
Proof. apply any_under_nil. Qed.

(** A client, a durable bus and a stream that take every message. *)
Record recorder {A} := mkRecorder { recorded : list A }.
#[global] Arguments recorder : clear implicits.
Definition record_one {A} (a : A) : M (recorder A) unit := modify (λ r, mkRecorder A (recorded r ++ [a])).
#[export] Instance rec_client : CloudProxy.grpcStream (recorder v2c_msg) := {| CloudProxy.srv_SendMsg := record_one |}.
#[export] Instance rec_client_spec : CloudProxy.ClientSpec (recorder v2c_msg) recorded.
Proof. split. intros m k. by eexists. Qed.
#[export] Instance rec_streamer : Streamer (recorder (string * string)) := {| st_Publish t d := record_one (t, d) |}.
#[export] Instance rec_server : NATSBridgeServer (recorder C2VBridgeMessage) := {| srv_Send := record_one |}.

(** The request. *)
Definition rp_1 : CloudProxy.requestProxyer (U := mem_uuid_lib) := CloudProxy.mkRequestProxyer uuid_Nil uuid_Nil "token".
Definition id_1 : string := uuid_String uuid_Nil.
Definition pb_2 : C2VAPIStreamRequest := CloudProxy.prepareVizierRequest rp_1 (ExecReq None).
Definition c2v_2 : C2VMessage := mkC2VMessage (uuid_String (vizierID b_1)) (Some ("C2VAPIStreamRequest", enc pb_2)).
Definition exec_1 : V2CAPIStreamResponse := mkV2CAPIStreamResponse id_1 (Some (ExecResp resp_1)).
Definition v2c_of (resp : V2CAPIStreamResponse) : V2CMessage := mkV2CMessage "" "" 0 (Some ("V2CAPIStreamResponse", enc resp)).
Definition limit_2 : nat :=
  String.length (enc c2v_2) + String.length (enc (v2c_of (too_large id_1))) + String.length (enc (v2c_of exec_1)) +
  String.length (enc (v2c_of (final_status id_1 ErrEOF))).
Definition nats_2 : NatsConn := limited limit_2.
#[export] Instance nats_2_spec : PayloadSpec nats_2 (l_log limit_2) (l_up limit_2) limit_2 := limited_spec limit_2.

Lemma v2c_fits resp : (String.length (enc (v2c_of resp)) <= limit_2)%nat → fits (max := limit_2) resp.
Proof.
  intros H. exists (enc (v2c_of resp)). split; [|done]. unfold message_bytes, MarshalAny, response_any, any_under. rewrite Marshal_enc. apply Marshal_enc.
Qed.

Definition c_1 : cstate (U := mem_uuid_lib) (N := mem_conn) (T := recorder (string * string)) (R := recorder C2VBridgeMessage) (W := unit) :=
  mkCState (N := mem_conn) (NewNATSBridgeController uuid_Nil uuid_Nil) [] (mkRecorder _ []) (mkRecorder _ []) tt.

Abbreviation world_1 := (world (U := mem_uuid_lib) nats_2 mem_conn (I := deployed mem_cluster) (C := good_stream) (V := broker)
  (T := recorder (string * string)) (R := recorder C2VBridgeMessage) (W := unit) (K := recorder v2c_msg)).
Definition w_1 : world_1 :=
  mkWorld nats_2 mem_conn
    (CloudProxy.mkXState (N := mem_conn) [] tt (mkRecorder _ [])) c_1
    (mkBState (N := nats_2) b_1 [] d_1 (mkGood [])) (NewPassThroughProxy (N := nats_2) [] (mkBroker [resp_1])).

Definition parse_none (_ _ _ : string) : error + string := inl (ErrMsg "no metrics").

Lemma w_1_ready : ready nats_2 mem_conn (up := l_up limit_2) (max := limit_2) (cup := mem_up) rp_1 (ExecReq None) w_1.
Proof.
  split; try done. intros any Ea. unfold MarshalAny, request_any, any_under in Ea. rewrite Marshal_enc in Ea. injection Ea as <-.
  change (String.length (enc c2v_2) <= limit_2)%nat. unfold limit_2. lia.
Qed.

Lemma some_one {A} (a : A) ms : [Some a] = Some <$> ms → ms = [a].
Proof. destruct ms as [|b [|? ?]]; intros H; try discriminate. by injection H as <-. Qed.

Lemma script_round_trip_witness :
  ∃ w', exchange nats_2 mem_conn (log := l_log limit_2) (clog := mem_log) parse_none "" 2 7 rp_1 (ExecReq None) w_1 = (Ret (Some None), w') ∧
    recorded (CloudProxy.client (w_api _ _ w')) = [ExecResp resp_1].
Proof.
  destruct (script_round_trip nats_2 mem_conn (log := l_log limit_2) (up := l_up limit_2) (max := limit_2) (clog := mem_log) (cup := mem_up)
    (received := recorded) parse_none "" rp_1 (ExecReq None) w_1 7
    (exec_StartStream (req_ctx (started pb_2 7)) id_1 pb_2) (ExecuteScriptStream id_1 0) (mkBroker [resp_1]) [exec_1] ErrEOF (mkBroker []) 2)
    as (w' & ms & E & Hms & Hr & _).
  - exact w_1_ready.
  - apply v2c_fits. unfold limit_2. change (c2v_RequestID _) with id_1. lia.
  - change (c2v_RequestID _) with id_1. cbn [app]. constructor; [|constructor; [|constructor]]; apply v2c_fits; unfold limit_2; lia.
  - reflexivity.
  - reflexivity.
  - eapply gives_msg; [reflexivity|]. apply gives_end. reflexivity.
  - cbn. lia.
  - apply Nat.leb_le. reflexivity.
  - exists w'. split; [exact E|]. etrans; [exact Hr|]. exact (some_one _ _ Hms).
Defined.

Lemma closed_bridge_never_returns_witness :
  ∃ x, rtc (rstep (λ t d, t = "c2v." ∧ d = enc c2v_2)) (run_start c_1) x ∧ srv_closed x = true ∧
    ∀ x', rtc (rstep (λ t d, t = "c2v." ∧ d = enc c2v_2)) x x' → runner x' = Looping ∧ ¬ returned x' ∧ reader x' = RDone ∧ writer x' = LoopDone.
Proof.
  apply closed_bridge_never_returns; [|reflexivity..]. intros t d [_ ->]. exists c2v_2. apply Unmarshal_enc.
Defined.
End EndToEndRuns.
