(* ===== verification/ActiveSet.v ===== *)
(** * Adaptive export: the active set and its filters

    [adaptive_export/internal/activeset/activeset.go] and, of [internal/streaming],
    [filter.go] and [notifier.go]: the pods with a recent anomaly are kept in a set, and
    the scanners of the tables get a filter for every change of the set.

    Times are nanoseconds.  A channel is the queue of its messages; a channel that is
    written without blocking drops its oldest message when it is full. *)

From S2P Require Import Prelude GoLib Uuid.

(** ** Pods *)

Record Key := mkKey { k_Namespace : string; k_Pod : string }.
#[export] Instance Key_eq_dec : EqDecision Key.
Proof. solve_decision. Defined.
#[export] Instance Key_countable : Countable Key.
Proof. refine (inj_countable' (λ k, (k_Namespace k, k_Pod k)) (λ p, mkKey p.1 p.2) _). by intros []. Defined.

Definition Render (k : Key) : string :=
  if bool_decide (k_Namespace k = "") then k_Pod k else k_Namespace k +:+ "/" +:+ k_Pod k.

(** ** Channels with a limit *)

Record chan {A : Type} := mkChan { ch_cap : nat; ch_buf : list A }.
#[global] Arguments chan : clear implicits.
#[global] Arguments mkChan {A}.

(** The nested selects of a broadcast, when no one receives between them. *)
Definition send_newest {A} (a : A) (c : chan A) : chan A :=
  if (length (ch_buf c) <? ch_cap c)%nat then mkChan (ch_cap c) (ch_buf c ++ [a])
  else
    let rest := drop 1 (ch_buf c) in
    if (length rest <? ch_cap c)%nat then mkChan (ch_cap c) (rest ++ [a]) else mkChan (ch_cap c) rest.

(** ** The set *)

Record Delta := mkDelta { Added : list Key; Removed : list Key; d_Version : Z }.

(** [subs] are the channels of the subscribers, in their order, by their identity. *)
Record aset := mkASet { members : gmap Key Z; version : Z; subs : list (nat * chan Delta); next_chan : nat }.

Definition New : aset := mkASet ∅ 0 [] 0.

Definition set_members (m : gmap Key Z) (v : Z) (s : aset) : aset := mkASet m v (subs s) (next_chan s).
Definition set_subs (l : list (nat * chan Delta)) (s : aset) : aset := mkASet (members s) (version s) l (next_chan s).

(** The part of each operation under the lock of the members, with the change to
    broadcast. *)
Definition upsert_locked (k : Key) (tEnd : Z) : M aset (option Delta) :=
  s ← get_state;
  match members s !! k with
  | Some prev =>
    if negb (prev <? tEnd)%Z then mret None
    else _ ← put_state (set_members (<[k := tEnd]> (members s)) (version s) s); mret None
  | None =>
    let v := to_uint64 (version s + 1) in
    _ ← put_state (set_members (<[k := tEnd]> (members s)) v s);
    mret (Some (mkDelta [k] [] v))
  end.

Definition remove_locked (k : Key) : M aset (option Delta) :=
  s ← get_state;
  match members s !! k with
  | None => mret None
  | Some _ =>
    let v := to_uint64 (version s + 1) in
    _ ← put_state (set_members (delete k (members s)) v s);
    mret (Some (mkDelta [] [k] v))
  end.

(** The order in which a map is read. *)
Definition key_order := gmap Key Z → list (Key * Z).

Definition prune_locked (ro : key_order) (at_ : Z) : M aset (list Key * option Delta) :=
  s ← get_state;
  let removed := (filter (λ m, m.2 <= at_)%Z (ro (members s))).*1 in
  match removed with
  | [] => mret ([], None)
  | _ =>
    let v := to_uint64 (version s + 1) in
    _ ← put_state (set_members (foldr delete (members s) removed) v s);
    mret (removed, Some (mkDelta [] removed v))
  end.

Definition broadcast (d : Delta) : M aset unit :=
  modify (λ s, set_subs ((λ c, (c.1, send_newest d c.2)) <$> subs s) s).
Definition broadcast_some (d : option Delta) : M aset unit := match d with Some d => broadcast d | None => mret tt end.

Definition Upsert (k : Key) (tEnd : Z) : M aset unit := d ← upsert_locked k tEnd; broadcast_some d.
Definition Remove (k : Key) : M aset unit := d ← remove_locked k; broadcast_some d.
Definition PruneExpired (ro : key_order) (at_ : Z) : M aset (list Key) :=
  r ← prune_locked ro at_;
  _ ← broadcast_some r.2;
  mret r.1.

Definition Snapshot (ro : key_order) : M aset (list Key * Z) := s ← get_state; mret ((ro (members s)).*1, version s).
Definition Size : M aset nat := s ← get_state; mret (size (members s)).

Definition Subscribe (buffer : Z) : M aset nat :=
  s ← get_state;
  let cap := if (buffer <? 1)%Z then 1%nat else Z.to_nat buffer in
  _ ← put_state (mkASet (members s) (version s) (subs s ++ [(next_chan s, mkChan cap [])]) (S (next_chan s)));
  mret (next_chan s).

Definition SubscribeAndSnapshot (ro : key_order) (buffer : Z) : M aset (list Key * nat * Z) :=
  s ← get_state;
  ch ← Subscribe buffer;
  mret ((ro (members s)).*1, ch, version s).

(** The channel is closed, what it holds stays readable for its owner. *)
Definition Unsubscribe (ch : nat) : M aset unit := modify (λ s, set_subs (filter (λ c, c.1 ≠ ch) (subs s)) s).

(** ** Filters *)

Inductive FilterMode : Type := FilterModeAllowlist | FilterModeUnfiltered.
Record Filter := mkFilter { f_Mode : FilterMode; f_Pods : list Key; f_Version : Z }.

Record UpdaterConfig := mkUpdaterConfig { Debounce : Z; MaxAllowlistSize : Z; SubscribeBuffer : Z }.
Definition second : Z := 1000000000.
Definition updater_defaulted (c : UpdaterConfig) : UpdaterConfig :=
  mkUpdaterConfig (if (Debounce c <=? 0)%Z then second else Debounce c)
    (if (MaxAllowlistSize c =? 0)%Z then 500 else MaxAllowlistSize c)
    (if (SubscribeBuffer c <=? 0)%Z then 32 else SubscribeBuffer c).

(** The filter of a snapshot. *)
Definition filter_of (cfg : UpdaterConfig) (keys : list Key) (v : Z) : Filter :=
  if (0 <? MaxAllowlistSize cfg)%Z && (MaxAllowlistSize cfg <? Z.of_nat (length keys))%Z
  then mkFilter FilterModeUnfiltered [] v
  else mkFilter FilterModeAllowlist keys v.

Definition computeFilter (cfg : UpdaterConfig) (ro : key_order) : M aset Filter :=
  r ← Snapshot ro;
  mret (filter_of cfg r.1 r.2).

(** ** The notifier *)

Inductive notifyEvent : Type := NotifyUpsert (k : Key) (tEnd : Z) | NotifyRemove (k : Key).

Record AttributionNotifier := mkNotifier { n_in : chan notifyEvent; n_dropped : Z; n_filtered : Z }.

Definition NewAttributionNotifier (bufferSize : Z) : AttributionNotifier :=
  mkNotifier (mkChan (if (bufferSize <=? 0)%Z then 1024 else Z.to_nat bufferSize)%nat []) 0 0.

(** [send], when no one else sends or receives meanwhile. *)
Definition n_send (e : notifyEvent) (n : AttributionNotifier) : AttributionNotifier :=
  let c := n_in n in
  if (length (ch_buf c) <? ch_cap c)%nat then mkNotifier (mkChan (ch_cap c) (ch_buf c ++ [e])) (n_dropped n) (n_filtered n)
  else
    let dropped := match ch_buf c with [] => n_dropped n | _ => (n_dropped n + 1)%Z end in
    let rest := drop 1 (ch_buf c) in
    if (length rest <? ch_cap c)%nat then mkNotifier (mkChan (ch_cap c) (rest ++ [e])) dropped (n_filtered n)
    else mkNotifier (mkChan (ch_cap c) rest) (dropped + 1) (n_filtered n).

Definition with_pod (k : Key) (e : notifyEvent) (n : AttributionNotifier) : AttributionNotifier :=
  if bool_decide (k_Pod k = "") then mkNotifier (n_in n) (n_dropped n) (n_filtered n + 1) else n_send e n.
Definition Submit (k : Key) (tEnd : Z) : AttributionNotifier → AttributionNotifier := with_pod k (NotifyUpsert k tEnd).
Definition SubmitRemove (k : Key) : AttributionNotifier → AttributionNotifier := with_pod k (NotifyRemove k).
Definition SubmitFromController (namespace pod : string) (tEnd : Z) := Submit (mkKey namespace pod) tEnd.
Definition RemoveFromController (namespace pod : string) := SubmitRemove (mkKey namespace pod).

(** What the goroutine of the notifier does with an event. *)
Definition apply_event (e : notifyEvent) : M aset unit :=
  match e with NotifyUpsert k tEnd => Upsert k tEnd | NotifyRemove k => Remove k end.
