(* ===== verification/FilterSteps.v ===== *)
(** * Adaptive export: the filters follow the set

    The goroutines that change the active set, the one of the [FilterUpdater] and its
    subscribers, as one transition system: [Run], [broadcast] and [Subscribe] of
    [internal/streaming/filter.go] over the operations of [activeset.go]. *)

From S2P Require Import Prelude GoLib Uuid ActiveSet.

(** The updater at its select, or between [computeFilter] and [broadcast]; or ended. *)
Inductive updater_phase : Type := Selecting | Emitting (f : Filter) | Stopped.

(** A subscriber of filters: its channel and the filter it uses. *)
Record scanner := mkScanner { filters : chan Filter; currentFilter : option Filter }.

(** [unsent] are the changes whose goroutine has not broadcast them yet; [deltaCh] is the
    subscription of the updater. *)
Record fsys := mkFSys {
  set : aset; unsent : list Delta; deltaCh : nat; timer : bool; phase : updater_phase; scanners : list scanner
}.

(** A send that drops the oldest message when it finds the channel full; others may
    receive between its attempts, so that a message may be dropped without need. *)
Inductive sends {A} (a : A) : chan A → chan A → Prop :=
| sends_room c : (length (ch_buf c) < ch_cap c)%nat → sends a c (mkChan (ch_cap c) (ch_buf c ++ [a]))
| sends_drop c b rest : ch_buf c = b :: rest → (length rest < ch_cap c)%nat → sends a c (mkChan (ch_cap c) (rest ++ [a])).

Definition sends_all {A} (a : A) (l l' : list (nat * chan A)) : Prop :=
  Forall2 (λ c c', c.1 = c'.1 ∧ sends a c.2 c'.2) l l'.

Section steps.
Context (cfg : UpdaterConfig).

(** A filter of the set as it is, in some order. *)
Definition current (s : aset) (f : Filter) : Prop :=
  ∃ keys, keys ≡ₚ elements (dom (members s)) ∧ f = filter_of cfg keys (version s).

(** The operations of the set, up to the end of their lock. *)
Inductive changes : aset → option Delta → aset → Prop :=
| ch_upsert s k tEnd d s' : upsert_locked k tEnd s = (Ret d, s') → changes s d s'
| ch_remove s k d s' : remove_locked k s = (Ret d, s') → changes s d s'
| ch_prune s ro at_ l d s' : ro (members s) ≡ₚ map_to_list (members s) → prune_locked ro at_ s = (Ret (l, d), s') → changes s d s'.

Definition delta_chan (x : fsys) : option (chan Delta) := list_to_map (M := gmap nat _) (subs (set x)) !! deltaCh x.
Definition set_chan (ch : nat) (c : chan Delta) (s : aset) : aset :=
  set_subs ((λ p, if bool_decide (p.1 = ch) then (p.1, c) else p) <$> subs s) s.

Definition newest (r : scanner) : option Filter := match last (ch_buf (filters r)) with Some f => Some f | None => currentFilter r end.

Inductive fstep : fsys → fsys → Prop :=
| f_change x d s' : changes (set x) d s' →
    fstep x (mkFSys s' (unsent x ++ option_list d) (deltaCh x) (timer x) (phase x) (scanners x))
| f_broadcast x l1 d l2 subs' : unsent x = l1 ++ d :: l2 → sends_all d (subs (set x)) subs' →
    fstep x (mkFSys (set_subs subs' (set x)) (l1 ++ l2) (deltaCh x) (timer x) (phase x) (scanners x))
| f_delta x c d rest : phase x = Selecting → delta_chan x = Some c → ch_buf c = d :: rest →
    fstep x (mkFSys (set_chan (deltaCh x) (mkChan (ch_cap c) rest) (set x)) (unsent x) (deltaCh x) true Selecting (scanners x))
| f_fire x f : phase x = Selecting → timer x = true → current (set x) f →
    fstep x (mkFSys (set x) (unsent x) (deltaCh x) false (Emitting f) (scanners x))
| f_emit x f rs : phase x = Emitting f → Forall2 (λ r r', currentFilter r' = currentFilter r ∧ sends f (filters r) (filters r')) (scanners x) rs →
    fstep x (mkFSys (set x) (unsent x) (deltaCh x) (timer x) Selecting rs)
| f_subscribe x f : phase x ≠ Stopped → current (set x) f →
    fstep x (mkFSys (set x) (unsent x) (deltaCh x) (timer x) (phase x) (scanners x ++ [mkScanner (mkChan 4 [f]) None]))
| f_receive x l1 r l2 f rest : scanners x = l1 ++ r :: l2 → ch_buf (filters r) = f :: rest →
    fstep x (mkFSys (set x) (unsent x) (deltaCh x) (timer x) (phase x) (l1 ++ mkScanner (mkChan (ch_cap (filters r)) rest) (Some f) :: l2))
| f_stop x s' : phase x = Selecting → Unsubscribe (deltaCh x) (set x) = (Ret tt, s') →
    fstep x (mkFSys s' (unsent x) (deltaCh x) false Stopped (scanners x)).

(** [NewUpdater] on a set, with the changes that are under way. *)
Definition updater_start (s : aset) (ds : list Delta) : fsys :=
  match Subscribe (SubscribeBuffer cfg) s with
  | (Ret ch, s') => mkFSys s' ds ch false Selecting []
  | (_, s') => mkFSys s' ds 0 false Stopped []
  end.

(** ** Quiet states *)

(** Nothing is left to do for a change that was made. *)
Definition quiet (x : fsys) : Prop :=
  unsent x = [] ∧ (∀ c, delta_chan x = Some c → ch_buf c = []) ∧ timer x = false ∧ phase x = Selecting.

(** ** The invariant *)

Definition chan_ok {A} (c : chan A) : Prop := (1 <= ch_cap c)%nat ∧ (length (ch_buf c) <= ch_cap c)%nat.
(** The channels of a set are told apart by their numbers. *)
Record set_ok (s : aset) : Prop := mkSetOk {
  so_nodup : NoDup (subs s).*1;
  so_fresh : Forall (λ i, i < next_chan s)%nat (subs s).*1;
  so_chans : Forall chan_ok (subs s).*2
}.

Definition work (x : fsys) : Prop := unsent x ≠ [] ∨ (∃ c, delta_chan x = Some c ∧ ch_buf c ≠ []) ∨ timer x = true.
Definition up_to_date (s : aset) (r : scanner) : Prop := ∃ f, newest r = Some f ∧ current s f.

Record finv (x : fsys) : Prop := mkFInv {
  fi_set : set_ok (set x);
  fi_sub : phase x ≠ Stopped → deltaCh x ∈ (subs (set x)).*1;
  fi_scanners : Forall (λ r, chan_ok (filters r)) (scanners x);
  fi_cur : phase x ≠ Stopped → work x ∨ match phase x with Emitting f => current (set x) f | _ => Forall (up_to_date (set x)) (scanners x) end
}.

Lemma sends_ok {A} (a : A) c c' : sends a c c' → chan_ok c → chan_ok c' ∧ last (ch_buf c') = Some a.
Proof.
  intros Hs [H1 H2]. destruct Hs as [c H|c b rest E H]; (split; [split; [done|]|apply last_snoc]); cbn; rewrite length_app; cbn; lia.
Qed.

Lemma send_newest_sends {A} (a : A) c : chan_ok c → sends a c (send_newest a c).
Proof.
  intros [H1 H2]. unfold send_newest. destruct (length (ch_buf c) <? ch_cap c)%nat eqn:E.
  - apply Nat.ltb_lt in E. by constructor.
  - apply Nat.ltb_ge in E. destruct (ch_buf c) as [|b rest] eqn:Eb; cbn [length] in *; [lia|].
    change (drop 1 (b :: rest)) with rest. rewrite (proj2 (Nat.ltb_lt _ _)) by lia. econstructor; [exact Eb|lia].
Qed.

(** A change of the set is one of its pods, which is broadcast, or none. *)
Lemma changes_spec s d s' : changes s d s' →
  subs s' = subs s ∧ next_chan s' = next_chan s ∧ (d = None → dom (members s') = dom (members s) ∧ version s' = version s).
Proof.
  destruct 1 as [s k tEnd d s' E|s k d s' E|s ro at_ l d s' Hro E].
  - unfold upsert_locked in E. rewrite get_bind in E. destruct (members s !! k) as [prev|] eqn:Ek.
    + destruct (negb _); injection E as <- <-; [done|]. split_and!; [done..|]. intros _. cbn. split; [|done].
      rewrite dom_insert_L. apply elem_of_dom_2 in Ek. set_solver.
    + by injection E as <- <-.
  - unfold remove_locked in E. rewrite get_bind in E. by destruct (members s !! k); injection E as <- <-.
  - unfold prune_locked in E. rewrite get_bind in E. by destruct ((filter _ _).*1); injection E as _ <- <-.
Qed.

Lemma current_same s s' f : dom (members s') = dom (members s) → version s' = version s → current s f → current s' f.
Proof. intros Hd Hv (keys & Hk & ->). exists keys. by rewrite Hd, Hv. Qed.

Lemma delta_chan_elem x c : NoDup (subs (set x)).*1 → delta_chan x = Some c ↔ (deltaCh x, c) ∈ subs (set x).
Proof. intros H. unfold delta_chan. symmetry. by apply elem_of_list_to_map. Qed.

Lemma delta_chan_some x : NoDup (subs (set x)).*1 → deltaCh x ∈ (subs (set x)).*1 → ∃ c, delta_chan x = Some c.
Proof.
  intros Hn Hd. apply list_elem_of_fmap in Hd as ([i c] & Hi & Hc). cbn in Hi. subst i. exists c. by apply delta_chan_elem.
Qed.

Lemma sends_all_ok {A} (a : A) l l' : sends_all a l l' → l'.*1 = l.*1 ∧ (Forall chan_ok l.*2 → Forall chan_ok l'.*2) ∧
  (∀ i c', (i, c') ∈ l' → ∃ c, (i, c) ∈ l ∧ sends a c c').
Proof.
  induction 1 as [|[i c] [i' c'] l l' [Hi Hs] _ (IH1 & IH2 & IH3)]; [split_and!; [done..|by intros ? ? ?%not_elem_of_nil]|]. cbn in Hi, Hs. subst i'. cbn. split; [by f_equal|]. split.
  - intros Hf. inversion Hf; subst. constructor; [by eapply sends_ok|by apply IH2].
  - intros j c'' [E|Hj]%elem_of_cons.
    + injection E as -> ->. exists c. split; [by left|done].
    + destruct (IH3 _ _ Hj) as (c0 & H0 & Hs0). exists c0. split; [by right|done].
Qed.

Lemma set_chan_ids ch c s : (subs (set_chan ch c s)).*1 = (subs s).*1.
Proof. cbn. rewrite <- list_fmap_compose. apply list_fmap_ext. intros i p _. cbn. by case_bool_decide. Qed.

Lemma set_chan_ok ch c s : set_ok s → chan_ok c → set_ok (set_chan ch c s).
Proof.
  intros [H1 H2 H3] Hc. split; rewrite ?set_chan_ids; try done. cbn. rewrite Forall_fmap, Forall_fmap. rewrite Forall_fmap in H3.
  eapply Forall_impl; [exact H3|]. intros p Hp. cbn. by case_bool_decide.
Qed.

Lemma newest_received n r f rest : ch_buf (filters r) = f :: rest → newest (mkScanner (mkChan n rest) (Some f)) = newest r.
Proof.
  intros E. unfold newest. rewrite E. destruct rest as [|g rest]; [done|]. rewrite last_cons_cons. cbn [filters ch_buf].
  destruct (last (g :: rest)) eqn:El; [done|]. by apply last_None in El.
Qed.

Lemma set_ok_sub l s : sublist l (subs s) → set_ok s → set_ok (set_subs l s).
Proof.
  intros Hl [H1 H2 H3]. split; cbn.
  - eapply sublist_NoDup; [done|by apply fmap_sublist].
  - rewrite Forall_forall in H2 |- *. intros i Hi. apply H2. by eapply (sublist_subseteq _ _ (fmap_sublist fst _ _ Hl)).
  - rewrite Forall_forall in H3 |- *. intros c Hc. apply H3. by eapply (sublist_subseteq _ _ (fmap_sublist snd _ _ Hl)).
Qed.

Lemma finv_step x x' : finv x → fstep x x' → finv x'.
Proof.
  intros [H1 H2 H3 H4] Hs. destruct Hs as [x d s' Hc|x l1 d l2 subs' E Ha|x c d rest Hp Hd Eb|x f Hp Ht Hf|x f rs Hp Hr|x f Hp Hf|x l1 r l2 f rest E Eb|x s' Hp E].
  - destruct (changes_spec _ _ _ Hc) as (Hs1 & Hs2 & Hs3). destruct H1 as [Ha Hb Hd]. split; cbn; rewrite ?Hs1; try done; [by split; rewrite ?Hs1, ?Hs2|].
    intros Hp. destruct d as [d|]; [left; left; cbn; by destruct (unsent x)|]. destruct (Hs3 eq_refl) as [Hs4 Hs5].
    destruct (H4 Hp) as [Hw|Hw].
    + left. unfold work, delta_chan. cbn. rewrite Hs1. cbn. rewrite app_nil_r. exact Hw.
    + right. destruct (phase x); try by eapply current_same.
      all: eapply Forall_impl; [exact Hw|]; intros r (f & Hn & Hf); exists f; split; [done|by eapply current_same].
  - destruct (sends_all_ok _ _ _ Ha) as (Hi & Hok & Hin). destruct H1 as [Hn Hfr Hch]. split; cbn; [split; cbn; rewrite ?Hi; auto|by rewrite Hi|done|].
    intros Hp. left. right. left.
    set (x' := mkFSys _ _ _ _ _ _). destruct (delta_chan_some x') as [c' Hc']; [cbn; by rewrite Hi|cbn; rewrite Hi; by apply H2|].
    exists c'. split; [done|]. apply delta_chan_elem in Hc'; [|cbn; by rewrite Hi]. destruct (Hin _ _ Hc') as (c & Hc & Hs).
    intros E'. destruct Hs as [c0 ?|c0 ? ? ? ?]; cbn in E'; by destruct (app_cons_not_nil _ _ _ (eq_sym E')).
  - split; cbn -[set_chan]; [|rewrite set_chan_ids; intros _; apply H2; by rewrite Hp|done|by left; right; right].
    apply set_chan_ok; [done|]. destruct H1 as [Hn _ Hch]. apply delta_chan_elem in Hd; [|done].
    rewrite Forall_fmap, Forall_forall in Hch. destruct (Hch _ Hd) as [Hc1 Hc2]. split; [done|]. cbn in *. rewrite Eb in Hc2. cbn in Hc2. lia.
  - split; cbn; [done|intros _; apply H2; by rewrite Hp|done|by right].
  - split; cbn; [done|intros _; apply H2; by rewrite Hp| |].
    + apply Forall_forall. intros r' Hr'. apply list_elem_of_lookup in Hr' as (i & Hi). destruct (Forall2_lookup_r _ _ _ _ _ Hr Hi) as (r & Hi' & _ & Hs).
      rewrite Forall_lookup in H3. by eapply sends_ok; [exact Hs|eapply H3].
    + intros _. rewrite Hp in H4. destruct (H4 ltac:(done)) as [Hw|Hw]; [by left|]. right. apply Forall_forall. intros r' Hr'.
      apply list_elem_of_lookup in Hr' as (i & Hi). destruct (Forall2_lookup_r _ _ _ _ _ Hr Hi) as (r & Hi' & _ & Hs). rewrite Forall_lookup in H3.
      exists f. split; [|done]. unfold newest. by rewrite (proj2 (sends_ok _ _ _ Hs (H3 _ _ Hi'))).
  - split; cbn; [done|done| |].
    + apply Forall_app. split; [done|]. constructor; [|constructor]. split; cbn; lia.
    + intros _. destruct (H4 Hp) as [Hw|Hw]; [by left|]. right. destruct (phase x); try done; (apply Forall_app; split; [done|]; constructor; [|constructor]; by exists f).
  - rewrite E in H3. apply Forall_app in H3 as [H3a H3b]. inversion H3b as [|? ? [Hr1 Hr2] H3c]; subst. split; cbn; [done|done| |].
    + apply Forall_app. split; [done|]. constructor; [|done]. split; [done|]. cbn. rewrite Eb in Hr2. cbn in Hr2. lia.
    + intros Hp. destruct (H4 Hp) as [Hw|Hw]; [by left|]. right. destruct (phase x); try done; (rewrite E in Hw; apply Forall_app in Hw as [Hw1 Hw2];
        inversion Hw2 as [|? ? (g & Hg & Hcur) Hw3]; subst; apply Forall_app; split; [done|]; constructor; [|done]; exists g; split; [|done];
        by rewrite (newest_received _ r f rest Eb)).
  - unfold Unsubscribe, modify in E. injection E as <-. split; cbn -[set_subs]; [by apply set_ok_sub; [apply sublist_filter|]|by intros []|done|by intros []].
Qed.

Lemma finv_steps x x' : finv x → rtc fstep x x' → finv x'.
Proof. intros Hx Hr. induction Hr as [|x1 x2 x3 Hs _ IH]; [done|]. by eapply IH, finv_step. Qed.

(** ** Settling *)

(** [x'] comes from [x] without a change of the set or of its subscribers. *)
Definition settled (x x' : fsys) : Prop :=
  rtc fstep x x' ∧ members (set x') = members (set x) ∧ version (set x') = version (set x) ∧
  deltaCh x' = deltaCh x ∧ length (scanners x') = length (scanners x).

Lemma settled_refl x : settled x x.
Proof. by split_and!. Qed.
Lemma settled_trans x1 x2 x3 : settled x1 x2 → settled x2 x3 → settled x1 x3.
Proof. intros (S1 & ? & ? & ? & ?) (S2 & ? & ? & ? & ?). split; [by etrans|]. split_and!; congruence. Qed.

Lemma settle_emit x f : finv x → phase x = Emitting f →
  ∃ x', settled x x' ∧ phase x' = Selecting ∧ unsent x' = unsent x ∧ set x' = set x ∧ timer x' = timer x.
Proof.
  intros [_ _ H3 _] Hp. set (rs := (λ r, mkScanner (send_newest f (filters r)) (currentFilter r)) <$> scanners x).
  exists (mkFSys (set x) (unsent x) (deltaCh x) (timer x) Selecting rs). split; [|done]. split; [|by unfold rs; cbn; rewrite length_fmap].
  apply rtc_once. eapply f_emit; [done|]. unfold rs. apply Forall2_fmap_r, Forall_Forall2_diag. eapply Forall_impl; [exact H3|].
  intros r Hr. cbn. split; [done|by apply send_newest_sends].
Qed.

Lemma settle_broadcast x : finv x → phase x = Selecting → ∃ x', settled x x' ∧ phase x' = Selecting ∧ unsent x' = [].
Proof.
  remember (unsent x) as ds eqn:Hd. revert x Hd. induction ds as [|d ds IH]; intros x Hd Hx Hp; [exists x; split; [apply settled_refl|done]|].
  set (subs' := (λ c, (c.1, send_newest d c.2)) <$> subs (set x)).
  set (x1 := mkFSys (set_subs subs' (set x)) ds (deltaCh x) (timer x) (phase x) (scanners x)).
  assert (Hs : fstep x x1).
  { apply (f_broadcast x [] d ds); [done|]. unfold sends_all, subs'. apply Forall2_fmap_r, Forall_Forall2_diag.
    pose proof (so_chans _ (fi_set _ Hx)) as Hc. rewrite Forall_fmap in Hc. eapply Forall_impl; [exact Hc|].
    intros c Hok. cbn. split; [done|by apply send_newest_sends]. }
  destruct (IH x1 eq_refl) as (x' & Hx' & Hp'); [by eapply finv_step|done|]. exists x'. split; [|done].
  eapply settled_trans; [|exact Hx']. split; [by apply rtc_once|done].
Qed.

Lemma settle_deltas x : finv x → phase x = Selecting → unsent x = [] →
  ∃ x', settled x x' ∧ phase x' = Selecting ∧ unsent x' = [] ∧ ∀ c, delta_chan x' = Some c → ch_buf c = [].
Proof.
  intros Hx Hp Hu. destruct (delta_chan_some x) as [c Hc]; [apply Hx|apply Hx; by rewrite Hp|].
  remember (ch_buf c) as ds eqn:Hd. revert x c Hx Hp Hu Hc Hd. induction ds as [|d ds IH]; intros x c Hx Hp Hu Hc Hd.
  { exists x. split; [apply settled_refl|]. split_and!; [done..|]. intros c' Hc'. congruence. }
  set (x1 := mkFSys (set_chan (deltaCh x) (mkChan (ch_cap c) ds) (set x)) (unsent x) (deltaCh x) true Selecting (scanners x)).
  assert (Hs : fstep x x1) by (eapply f_delta; done).
  destruct (IH x1 (mkChan (ch_cap c) ds)) as (x' & Hx' & Hp'); [by eapply finv_step|done|done| |done|].
  { apply delta_chan_elem; [apply (fi_set x1); by eapply finv_step|]. cbn. apply list_elem_of_fmap. exists (deltaCh x, c).
    rewrite bool_decide_true by done. split; [done|]. apply delta_chan_elem; [apply Hx|done]. }
  exists x'. split; [|done]. eapply settled_trans; [|exact Hx']. split; [by apply rtc_once|done].
Qed.

Lemma can_settle x : finv x → phase x ≠ Stopped → ∃ x', settled x x' ∧ quiet x'.
Proof.
  intros Hx Hp. assert (H1 : ∃ x1, settled x x1 ∧ phase x1 = Selecting).
  { destruct (phase x) as [|f|] eqn:E; [exists x; split; [apply settled_refl|done]| |done].
    destruct (settle_emit x f Hx E) as (x1 & H1 & H2 & _). by exists x1. }
  destruct H1 as (x1 & S1 & Hp1). destruct (settle_broadcast x1) as (x2 & S2 & Hp2 & Hu2); [eapply finv_steps; [done|apply S1]|done|].
  assert (Hx2 : finv x2) by (eapply finv_steps; [eapply finv_steps; [exact Hx|apply S1]|apply S2]).
  destruct (settle_deltas x2 Hx2 Hp2 Hu2) as (x3 & S3 & Hp3 & Hu3 & Hd3). assert (Hx3 : finv x3) by (eapply finv_steps; [exact Hx2|apply S3]).
  assert (S13 : settled x x3) by (eapply settled_trans; [exact S1|eapply settled_trans; [exact S2|exact S3]]).
  destruct (timer x3) eqn:Ht; [|by exists x3].
  set (f := filter_of cfg (elements (dom (members (set x3)))) (version (set x3))).
  set (x4 := mkFSys (set x3) (unsent x3) (deltaCh x3) false (Emitting f) (scanners x3)).
  assert (Hs : fstep x3 x4) by (apply f_fire; [done..|]; by eexists).
  destruct (settle_emit x4 f) as (x5 & S5 & Hp5 & Hu5 & Hs5 & Ht5); [by eapply finv_step|done|].
  exists x5. split.
  - eapply settled_trans; [exact S13|]. eapply settled_trans; [|exact S5]. split; [by apply rtc_once|done].
  - split_and!; [by rewrite Hu5| |done|done]. unfold delta_chan. rewrite Hs5. destruct S5 as (_ & _ & _ & -> & _). exact Hd3.
Qed.

Lemma finv_start s ds : set_ok s → finv (updater_start s ds).
Proof.
  intros [H1 H2 H3]. set (c := mkChan (A := Delta) (if (SubscribeBuffer cfg <? 1)%Z then 1%nat else Z.to_nat (SubscribeBuffer cfg)) []).
  change (updater_start s ds) with (mkFSys (mkASet (members s) (version s) (subs s ++ [(next_chan s, c)]) (S (next_chan s))) ds (next_chan s) false Selecting []).
  split; cbn -[fmap]; [|intros _; rewrite fmap_app; apply elem_of_app; right; by left|done|by right].
  split; cbn -[fmap]; rewrite fmap_app.
  - apply NoDup_app. split; [done|]. split; [|apply NoDup_singleton]. intros i Hi Hin. apply list_elem_of_singleton in Hin. cbn in Hin. subst.
    rewrite Forall_forall in H2. specialize (H2 _ Hi). lia.
  - apply Forall_app. split; [|by constructor; [cbn; lia|constructor]]. eapply Forall_impl; [exact H2|]. cbn. lia.
  - apply Forall_app. split; [done|]. constructor; [|constructor]. unfold c. split; cbn; [|lia]. destruct (_ <? 1)%Z eqn:E; [lia|]. apply Z.ltb_ge in E. lia.
Qed.

(** C14: Whatever the goroutines of the adaptive export do, when no change of the active
    set is under way the last filter that was given to each scanner is the one of the set
    as it is, even when deltas and filters were dropped from full channels; and such a
    state can always be reached without another change. *)
Theorem filters_follow_set s ds x : set_ok s → rtc fstep (updater_start s ds) x → phase x ≠ Stopped →
  (quiet x → ∀ r, r ∈ scanners x → ∃ f, newest r = Some f ∧ current (set x) f) ∧
  (∃ x', rtc fstep x x' ∧ quiet x' ∧ members (set x') = members (set x) ∧ length (scanners x') = length (scanners x)).
Proof.
  intros Hs Hr Hp. assert (Hx : finv x) by (eapply finv_steps; [by apply finv_start|exact Hr]). split.
  - intros (Hu & Hd & Ht & Hp'). destruct (fi_cur _ Hx Hp) as [[H|[(c & Hc & H)|H]]|H]; [done|by destruct H; apply Hd|congruence|].
    rewrite Hp', Forall_forall in H. exact H.
  - destruct (can_settle x Hx Hp) as (x' & (H1 & H2 & _ & _ & H3) & Hq). by exists x'.
Qed.
End steps.
