(* ===== verification/ExportPxl.v ===== *)
(** * Adaptive export: anomalies and scripts

    Of [adaptive_export/internal]: the identity of an anomaly ([anomaly/hash.go]), its
    extraction from a row ([kubescape/extract.go]) and the PxL scripts of the export
    ([pxl/tables.go], [pxl/queryfor.go], [pxl/compile.go] and [buildPxL] of
    [streaming/scanner.go]).  SHA-256, the JSON library, the reader of PxL literals and
    RE2 are parameters. *)

From S2P Require Import Prelude GoLib Uuid ActiveSet.
From Stdlib Require Import Ascii.

(** ** Anomalies *)

Record Target := mkTarget { t_PID : Z; t_Comm : string; t_Pod : string; t_Namespace : string }.

(** [binary.LittleEndian]. *)
Fixpoint le_bytes (n : nat) (z : Z) : string :=
  match n with
  | O => EmptyString
  | S n => String (ascii_of_N (Z.to_N (z mod 256))) (le_bytes n (z / 256))
  end.
Fixpoint le_val (s : string) : Z :=
  match s with EmptyString => 0 | String a s => (Z.of_N (N_of_ascii a) + 256 * le_val s)%Z end.

Definition writeLenPrefixed (s : string) : string := le_bytes 4 (to_uint32 (Z.of_nat (String.length s))) +:+ s.

(** What is hashed. *)
Definition canonical (t : Target) : string :=
  be_bytes 8 (t_PID t) +:+ writeLenPrefixed (t_Comm t) +:+ writeLenPrefixed (t_Pod t) +:+ writeLenPrefixed (t_Namespace t).

Definition Hash (sha256 : string → string) (t : Target) : string := Sprintf_x (String.substring 0 16 (sha256 (canonical t))).

(** ** Rows *)

Record Row := mkRow { r_EventTime : Z; r_RuleID : string; r_Hostname : string; K8sDetails : string; ProcessDetails : string }.
Record Event := mkEvent { ev_Target : Target; ev_EventTime : Z; ev_RuleID : string; ev_Hostname : string }.

Definition ErrIncompleteEvent (what : string) : error := ErrMsg ("kubescape: incomplete event: " +:+ what).

(** The JSON library reads the pod and its namespace, and the PID and the command. *)
Section extract.
Context (json_k8s : string → error + (string * string)) (json_process : string → error + (Z * string)).

Definition Extract (r : Row) : error + Event :=
  if bool_decide (r_RuleID r = "") then inl (ErrIncompleteEvent "RuleID empty")
  else if (r_EventTime r =? 0)%Z then inl (ErrIncompleteEvent "EventTime zero")
  else
    match (if bool_decide (K8sDetails r = "") then inr ("", "") else json_k8s (K8sDetails r)) with
    | inl err => inl (ErrIncompleteEvent ("parse RuntimeK8sDetails: " +:+ error_string err))
    | inr (pod, namespace) =>
      match json_process (ProcessDetails r) with
      | inl err => inl (ErrIncompleteEvent ("parse RuntimeProcessDetails: " +:+ error_string err))
      | inr (pid, comm) =>
        if bool_decide (comm = "") then inl (ErrIncompleteEvent "processTree.comm empty")
        else if (pid =? 0)%Z then inl (ErrIncompleteEvent "processTree.pid zero")
        else inr (mkEvent (mkTarget pid comm pod namespace) (r_EventTime r) (r_RuleID r) (r_Hostname r))
      end
    end.
End extract.

(** ** Tables *)

Definition builtinTables : list string :=
  ["http_events"; "http2_messages.beta"; "dns_events"; "redis_events"; "mysql_events"; "pgsql_events"; "cql_events";
   "mongodb_events"; "kafka_events.beta"; "amqp_events"; "mux_events"; "tls_events"; "conn_stats"; "dc_snoop";
   "creds_change"; "stack_trace"; "dx_vfs_events"; "dx_unlink"; "dx_dlookup"; "dx_mprotect"; "dx_bpf"; "dx_ptrace"].
Definition IsBuiltin (name : string) : bool := bool_decide (name ∈ builtinTables).

Definition darkVectorTables : list string :=
  ["dc_snoop"; "creds_change"; "dx_vfs_events"; "dx_unlink"; "dx_dlookup"; "dx_mprotect"; "dx_bpf"; "dx_ptrace"].
Definition IsDarkVector (table : string) : bool := bool_decide (table ∈ darkVectorTables).
Definition darkVectorHasComm (table : string) : bool := bool_decide (table ∈ darkVectorTables).

(** ** Scripts *)

(** [strings.NewReplacer] for single bytes. *)
Fixpoint replace_bytes (f : ascii → string) (s : string) : string :=
  match s with EmptyString => EmptyString | String a s => f a +:+ replace_bytes f s end.

Definition backslash : ascii := "092".
Definition quote : ascii := "039".
Definition newline : string := String "010" EmptyString.

(** [escapePxL] of package [pxl]. *)
Definition pxlEscaper (a : ascii) : string :=
  if decide (a = backslash) then String backslash (String backslash EmptyString)
  else if decide (a = quote) then String backslash (String quote EmptyString)
  else if decide (a = "010"%char) then String backslash "n"
  else if decide (a = "013"%char) then String backslash "r"
  else if decide (a = "009"%char) then String backslash "t"
  else if decide (a = "000"%char) then String backslash "0"
  else String a EmptyString.
Definition escapePxL : string → string := replace_bytes pxlEscaper.

(** [escapePxL] of package [streaming]. *)
Definition streamEscaper (a : ascii) : string :=
  if decide (a = backslash) then String backslash (String backslash EmptyString)
  else if decide (a = quote) then String backslash (String quote EmptyString)
  else String a EmptyString.
Definition stream_escapePxL : string → string := replace_bytes streamEscaper.

Definition is_meta (a : ascii) : bool :=
  bool_decide (a ∈ ["."; "|"; "("; ")"; "+"; "*"; "?"; "["; "]"; "{"; "}"; "^"; "$"]%char).
Definition regexEscaper (a : ascii) : string := if is_meta a then String backslash (String a EmptyString) else String a EmptyString.

(** [regexp.QuoteMeta] escapes the backslash too. *)
Definition QuoteMeta : string → string := replace_bytes (λ a, if decide (a = backslash) then String backslash (String backslash EmptyString) else regexEscaper a).

Definition line (s : string) : string := s +:+ newline.
Definition quoted (s : string) : string := String quote (s +:+ String quote EmptyString).

Definition pxSetMaxRows : string := line "#px:set max_output_rows_per_table=1000000".
Definition darkProcStatsWindow : string := "-2m".

Definition pixieSourceFor (table : string) : string := if bool_decide (table = "stack_trace") then "stack_traces.beta" else table.

Definition PodEnrichPxL (table : string) : string :=
  if IsDarkVector table then
    line ("proc = px.DataFrame(table=" +:+ quoted "process_stats" +:+ ", start_time=" +:+ quoted darkProcStatsWindow +:+ ")") +:+
    line ("proc.pod = proc.ctx[" +:+ quoted "pod" +:+ "]") +:+
    line ("proc.namespace = proc.ctx[" +:+ quoted "namespace" +:+ "]") +:+
    line "proc.pid = px.upid_to_pid(proc.upid)" +:+
    line ("proc = proc.groupby([" +:+ quoted "pod" +:+ ", " +:+ quoted "namespace" +:+ ", " +:+ quoted "pid" +:+ "]).agg()") +:+
    line ("df = df.merge(proc, how=" +:+ quoted "left" +:+ ", left_on=[" +:+ quoted "pid" +:+ "], right_on=[" +:+ quoted "pid" +:+
          "], suffixes=[" +:+ quoted "" +:+ ", " +:+ quoted "_x" +:+ "])")
  else
    line "df.namespace = px.upid_to_namespace(df.upid)" +:+
    line "df.pod = px.upid_to_pod_name(df.upid)".

Definition darkExcludeCommsDefault : list string :=
  ["pem"; "kelvin"; "containerd"; "containerd-shim"; "runc"; "node-agent"; "runc:[2:INIT]"; "runc:[1:CHILD]";
   "vizier-query-broker"; "vizier-metadata"; "nats-server"; "k3s-server"; "k3s-agent"; "systemd"; "systemd-journal";
   "SystemLogFlush"; "kubelet"; "AsyncInsertQ"; "BgSchPool"; "Collector"; "AsyncMetrics"; "MergeMutate"; "MergeTreeIndex";
   "CgrpMemUsgObsr"; "coredns"; "metadata"; "storage"; "operator"; "iptables"; "iptables-save"; "iptables-restor";
   "ip6tables"; "ConfigReloader"; "clickhouse-oper"; "Formatter"; "(setup.sh)"; "cmd"; "vector-worker"; "metrics-server";
   "local-path-prov"; "portmap"; "(udev-worker)"; "systemd-resolve"; "systemd-timesyn"].

(** [strings.TrimSpace], for bytes. *)
Definition is_space (a : ascii) : bool := bool_decide (a ∈ ["009"; "010"; "011"; "012"; "013"; "032"]%char).
Fixpoint trim_left (s : string) : string :=
  match s with EmptyString => EmptyString | String a rest => if is_space a then trim_left rest else s end.
Fixpoint rev_str (s acc : string) : string := match s with EmptyString => acc | String a s => rev_str s (String a acc) end.
Definition TrimSpace (s : string) : string := rev_str (trim_left (rev_str (trim_left s) "")) "".

(** The commands that are left out, from the variable [DC_SNOOP_EXCLUDE_COMMS] or the
    default. *)
Definition dark_comms (env : string) : list string :=
  let v := TrimSpace env in
  if bool_decide (v = "") then darkExcludeCommsDefault else filter (λ c, c ≠ "") (TrimSpace <$> split "," v).
Definition darkCommExclusion (env : string) (table : string) : string :=
  if darkVectorHasComm table
  then foldr (λ c s, line ("df = df[df.comm != " +:+ quoted (escapePxL c) +:+ "]") +:+ s) "" (dark_comms env)
  else "".

(** The filter on the pod of a target. *)
Definition pod_filter (t : Target) : string :=
  (if bool_decide (t_Namespace t = "") then "" else line ("df = df[df.namespace == " +:+ quoted (escapePxL (t_Namespace t)) +:+ "]")) +:+
  (if bool_decide (t_Pod t = "") then ""
   else if bool_decide (t_Namespace t = "")
   then line ("df = df[px.regex_match(" +:+ quoted ("^[^/]+/" +:+ escapePxL (QuoteMeta (t_Pod t)) +:+ "$") +:+ ", df.pod)]")
   else line ("df = df[df.pod == " +:+ quoted (escapePxL (t_Namespace t +:+ "/" +:+ t_Pod t)) +:+ "]")).

Definition stack_trace_columns : string :=
  line ("df.namespace = df.ctx[" +:+ quoted "namespace" +:+ "]") +:+
  line ("df.pod = df.ctx[" +:+ quoted "pod" +:+ "]") +:+
  line ("df.container = df.ctx[" +:+ quoted "container" +:+ "]") +:+
  line "df.hostname = px.upid_to_node_name(df.upid)" +:+
  line "df.event_time = df.time_".

(** [time.Sub] saturates; durations and [UnixNano] wrap. *)
Definition to_int64 (z : Z) : Z := ((z + 2 ^ 63) mod 2 ^ 64 - 2 ^ 63)%Z.
Definition time_Sub (t u : Z) : Z := Z.max (- 2 ^ 63) (Z.min (2 ^ 63 - 1) (t - u)).

(** The relative start for a time that ago. *)
Definition rel_start (ago : Z) : string :=
  let pad := to_int64 (ago + 30 * second) in
  let pad := if (pad <? 30 * second)%Z then (30 * second)%Z else pad in
  "-" +:+ FormatInt (Z.quot pad second) +:+ "s".

Definition data_frame (source rel : string) : string :=
  line ("df = px.DataFrame(table=" +:+ quoted source +:+ ", start_time=" +:+ quoted rel +:+ ")").
Definition bounds (lower upper : string) : string :=
  line ("df = df[df.time_ >= px.int64_to_time(" +:+ lower +:+ ")]") +:+
  line ("df = df[df.time_ <  px.int64_to_time(" +:+ upper +:+ ")]").
Definition display (table : string) : string := line ("px.display(df, " +:+ quoted table +:+ ")").

Definition ErrUnknownTable (table : string) : error := ErrMsg ("pxl: unknown pixie table: " +:+ table).

Definition QueryFor (env : string) (table : string) (t : Target) (sliceStart sliceEnd now : Z) : error + string :=
  if negb (IsBuiltin table) then inl (ErrUnknownTable table)
  else inr
    (pxSetMaxRows +:+ line "import px" +:+ data_frame (pixieSourceFor table) (rel_start (time_Sub now sliceStart)) +:+
     bounds (FormatInt (to_int64 sliceStart)) (FormatInt (to_int64 sliceEnd)) +:+
     (if bool_decide (table = "stack_trace") then stack_trace_columns +:+ pod_filter t
      else if IsDarkVector table then darkCommExclusion env table +:+ PodEnrichPxL table
      else PodEnrichPxL table +:+ pod_filter t) +:+
     display table).

Definition CompilePassthrough (table : string) (window : Z) : error + string :=
  if negb (IsBuiltin table) then inl (ErrUnknownTable table)
  else inr
    (pxSetMaxRows +:+ line "import px" +:+ data_frame table (rel_start window) +:+ bounds "%d" "%d" +:+ PodEnrichPxL table +:+ display table).

(** [fmt.Sprintf] for a format whose only verbs are of the form %d. *)
Fixpoint Sprintf_ds (fmt : string) (args : list Z) : string :=
  match fmt with
  | EmptyString => EmptyString
  | String a rest =>
    if decide (a = "%"%char) then
      match rest with
      | EmptyString => "%!(NOVERB)"
      | String _ rest =>
        match args with
        | z :: args => FormatInt z +:+ Sprintf_ds rest args
        | [] => "%!d(MISSING)" +:+ Sprintf_ds rest []
        end
      end
    else String a (Sprintf_ds rest args)
  end.
Definition Render_template (tmpl : string) (sliceStart sliceEnd : Z) : string :=
  Sprintf_ds tmpl [to_int64 sliceStart; to_int64 sliceEnd].


(** ** Identity *)

(** Targets that can occur: the PID has 64 bits, the strings less than 4 GiB. *)
Definition target_ok (t : Target) : Prop :=
  (0 <= t_PID t < 2 ^ 64)%Z ∧ Forall (λ s, Z.of_nat (String.length s) < 2 ^ 32)%Z [t_Comm t; t_Pod t; t_Namespace t].

Lemma le_val_bytes n z : (0 <= z < 256 ^ Z.of_nat n)%Z → le_val (le_bytes n z) = z.
Proof.
  revert z. induction n as [|n IH]; intros z Hz; [cbn; lia|]. rewrite Nat2Z.inj_succ, Z.pow_succ_r in Hz by lia. cbn [le_bytes le_val].
  pose proof (Z.mod_pos_bound z 256 ltac:(lia)). rewrite N_ascii_embedding by lia. rewrite Z2N.id by lia. rewrite IH; [pose proof (Z.div_mod z 256); lia|].
  split; [apply Z.div_pos; lia|]. apply Z.div_lt_upper_bound; lia.
Qed.

Lemma length_le_bytes n z : String.length (le_bytes n z) = n.
Proof. revert z. induction n as [|n IH]; intros z; [done|]. cbn. by rewrite IH. Qed.

Lemma len_prefixed_inj s1 s2 t1 t2 : (Z.of_nat (String.length s1) < 2 ^ 32)%Z → (Z.of_nat (String.length s2) < 2 ^ 32)%Z →
  writeLenPrefixed s1 +:+ t1 = writeLenPrefixed s2 +:+ t2 → s1 = s2 ∧ t1 = t2.
Proof.
  intros H1 H2. unfold writeLenPrefixed, to_uint32. rewrite !Z.mod_small by lia. rewrite !str_app_assoc. intros E.
  apply str_app_inj_len in E as [E1 E2]; [|by rewrite !length_le_bytes]. apply (f_equal le_val) in E1.
  change (2 ^ 32)%Z with (256 ^ Z.of_nat 4)%Z in *. rewrite !le_val_bytes in E1 by lia. apply str_app_inj_len; [lia|done].
Qed.

(** Two workloads are hashed from the same bytes only if they are the same: the
    lengths in front of the fields keep them apart, whatever the fields hold. *)
Lemma canonical_injective t1 t2 : target_ok t1 → target_ok t2 → canonical t1 = canonical t2 → t1 = t2.
Proof.
  destruct t1 as [p1 c1 d1 n1], t2 as [p2 c2 d2 n2]. intros [H1 F1] [H2 F2].
  cbn [t_PID t_Comm t_Pod t_Namespace] in *. rewrite !Forall_cons in F1, F2.
  destruct F1 as (? & ? & ? & _), F2 as (? & ? & ? & _). unfold canonical. cbn [t_PID t_Comm t_Pod t_Namespace]. intros E.
  apply str_app_inj_len in E as [Ep E]; [|by rewrite !length_be_bytes].
  apply (f_equal (λ s, be_val s 0)) in Ep. rewrite !be_val_be_bytes in Ep. change (8 * Z.of_nat 8)%Z with 64%Z in Ep. rewrite !Z.mod_small in Ep by lia.
  apply len_prefixed_inj in E as [-> E]; [|done..]. apply len_prefixed_inj in E as [-> E]; [|done..].
  rewrite <- (str_app_nil_r (writeLenPrefixed n1)), <- (str_app_nil_r (writeLenPrefixed n2)) in E.
  apply len_prefixed_inj in E as [-> _]; [|done..]. by replace p1 with p2 by lia.
Qed.

(** ** Templates *)

Lemma Sprintf_ds_text s t args : no_sep "%" s = true → Sprintf_ds (s +:+ t) args = s +:+ Sprintf_ds t args.
Proof.
  induction s as [|a s IH]; [done|]. cbn [no_sep]. intros [Ha Hs]%andb_true_iff. apply bool_decide_eq_true in Ha.
  rewrite !str_app_cons. cbn [Sprintf_ds]. by rewrite decide_False, IH.
Qed.

Lemma Sprintf_ds_only s : no_sep "%" s = true → ∀ args, Sprintf_ds s args = s.
Proof. intros H args. rewrite <- (str_app_nil_r s) at 1. rewrite Sprintf_ds_text by done. apply str_app_nil_r. Qed.

Lemma dec_go_no_percent fuel n acc : (0 <= n)%Z → no_sep "%" acc = true → no_sep "%" (dec_go fuel n acc) = true.
Proof.
  revert n acc. induction fuel as [|fuel IH]; intros n acc Hn Ha; [done|]. cbn [dec_go].
  assert (H : no_sep "%" (String (digit (n mod 10)) acc) = true).
  { cbn [no_sep]. apply andb_true_iff. split; [|done]. apply bool_decide_eq_true. intros E.
    pose proof (is_digit_digit (n mod 10) ltac:(apply Z.mod_pos_bound; lia)) as Hd. rewrite E in Hd. vm_compute in Hd. discriminate. }
  destruct (n <? 10)%Z; [done|]. apply IH; [apply Z.div_pos; lia|done].
Qed.

Lemma FormatInt_no_percent z : no_sep "%" (FormatInt z) = true.
Proof.
  unfold FormatInt, FormatUint. destruct (z <? 0)%Z eqn:E; [apply Z.ltb_lt in E; rewrite no_sep_app; apply andb_true_iff; split; [done|]|apply Z.ltb_ge in E];
    apply dec_go_no_percent; (lia || done).
Qed.

Lemma builtin_no_percent table : IsBuiltin table = true → no_sep "%" table = true.
Proof.
  intros H. apply bool_decide_eq_true in H. revert table H. apply Forall_forall. vm_compute. repeat constructor.
Qed.

Lemma enrich_no_percent table : no_sep "%" (PodEnrichPxL table) = true.
Proof. unfold PodEnrichPxL. destruct (IsDarkVector table); vm_compute; reflexivity. Qed.

Lemma Sprintf_ds_verb t z args : Sprintf_ds ("%d" +:+ t) (z :: args) = FormatInt z +:+ Sprintf_ds t args.
Proof. reflexivity. Qed.

(** A template is filled in at its two bounds. *)
Lemma render_template pre post lo hi : no_sep "%" pre = true → no_sep "%" post = true →
  Render_template (pre +:+ bounds "%d" "%d" +:+ post) lo hi = pre +:+ bounds (FormatInt (to_int64 lo)) (FormatInt (to_int64 hi)) +:+ post.
Proof.
  intros H1 H2. unfold Render_template, bounds, line. rewrite Sprintf_ds_text by done. f_equal. rewrite !str_app_assoc.
  rewrite Sprintf_ds_text, Sprintf_ds_verb by done. do 2 f_equal. do 3 (rewrite Sprintf_ds_text by done; f_equal).
  rewrite Sprintf_ds_verb. do 3 (rewrite ?Sprintf_ds_text by done; f_equal). by apply Sprintf_ds_only.
Qed.

(** C29: The template that the firehose compiles once for a table of the socket tracer,
    filled in with the bounds of a window, is the script that would be made anew for an
    empty target and that window. *)
Theorem template_is_query env table window now :
  IsBuiltin table = true → IsDarkVector table = false → table ≠ "stack_trace" → (- 2 ^ 63 <= window < 2 ^ 63)%Z →
  ∃ tmpl, CompilePassthrough table window = inr tmpl ∧
    QueryFor env table (mkTarget 0 "" "" "") (now - window) now now = inr (Render_template tmpl (now - window) now).
Proof.
  intros Hb Hd Hst Hw. unfold CompilePassthrough, QueryFor. rewrite Hb. cbn [negb]. eexists. split; [reflexivity|]. f_equal.
  rewrite Hd. rewrite bool_decide_false by done. unfold pixieSourceFor. rewrite bool_decide_false by done.
  change (pod_filter (mkTarget 0 "" "" "")) with "". rewrite str_app_nil_r.
  unfold time_Sub. replace (now - (now - window))%Z with window by lia. rewrite Z.min_r, Z.max_r by lia.
  set (pre := pxSetMaxRows +:+ line "import px" +:+ data_frame table (rel_start window)).
  set (post := PodEnrichPxL table +:+ display table).
  transitivity (pre +:+ bounds (FormatInt (to_int64 (now - window))) (FormatInt (to_int64 now)) +:+ post); [by unfold pre; rewrite !str_app_assoc|].
  rewrite <- render_template; [by unfold pre; rewrite !str_app_assoc| |].
  - unfold pre, data_frame, rel_start, line, quoted. pose proof (builtin_no_percent table Hb) as Ht.
    repeat (rewrite ?no_sep_app, ?str_app_cons; cbn [no_sep]). rewrite Ht, FormatInt_no_percent. reflexivity.
  - unfold post, display, line, quoted. pose proof (builtin_no_percent table Hb) as Ht. rewrite no_sep_app, enrich_no_percent.
    repeat (rewrite ?no_sep_app, ?str_app_cons; cbn [no_sep]). rewrite Ht. reflexivity.
Qed.

(** For the stack traces and the tracepoints the two differ. *)
Lemma template_differs :
  Forall (λ table, ∃ tmpl q, CompilePassthrough table (30 * second) = inr tmpl ∧
    QueryFor "" table (mkTarget 0 "" "" "") 0 (30 * second) (30 * second) = inr q ∧ Render_template tmpl 0 (30 * second) ≠ q)
  ["stack_trace"; "dc_snoop"].
Proof.
  repeat constructor; (eexists _, _; split; [reflexivity|]; split; [reflexivity|]; vm_compute; discriminate).
Qed.

(** ** Literals *)

(** The marks from the space to the tilde. *)
Definition printable (a : ascii) : bool := let n := N_of_ascii a in ((32 <=? n) && (n <? 127))%N.

Definition prepend (s : string) (r : option (string * string)) : option (string * string) := (λ p, (s +:+ p.1, p.2)) <$> r.

Definition short_escapes : list (ascii * ascii) :=
  [(backslash, backslash); (quote, quote); ("n", "010"); ("r", "013"); ("t", "009")]%char.

(** What is used of the reader of PxL, which is third-party code, on a literal between
    double quotes: [read s] is the value of the literal and what follows it, [s] being the
    text after the opening quote.  As in Python, a printable mark stands for itself, a
    short escape for its mark, a backslash before a mark that needs no escape stays, and a
    literal ends on its line. *)
Class LiteralReader (read : string → option (string * string)) : Prop := {
  read_end t : read (String quote t) = Some (EmptyString, t);
  read_char a t : printable a = true → a ≠ quote → a ≠ backslash → read (String a t) = prepend (String a EmptyString) (read t);
  read_escape b c t : (b, c) ∈ short_escapes → read (String backslash (String b t)) = prepend (String c EmptyString) (read t);
  read_unknown b t : is_meta b = true →
    read (String backslash (String b t)) = prepend (String backslash (String b EmptyString)) (read t);
  read_line_end t : read (String "010" t) = None
}.

(** A text of a regular expression of RE2 that stands for one word: marks that stand for
    themselves, and special marks after a backslash. *)
Inductive regex_literal : string → string → Prop :=
| rl_nil : regex_literal EmptyString EmptyString
| rl_char a s w : printable a = true → is_meta a = false → a ≠ backslash → regex_literal s w → regex_literal (String a s) (String a w)
| rl_escaped a s w : is_meta a = true → regex_literal s w → regex_literal (String backslash (String a s)) (String a w).

(** What is used of RE2: a group of alternatives between the anchors matches as a whole
    exactly the words that one of them stands for. *)
Class RegexMatch (full_match : string → string → Prop) : Prop := {
  match_alternatives texts words w : texts ≠ [] → Forall2 regex_literal texts words →
    full_match ("^(" +:+ join "|" texts +:+ ")$") w ↔ w ∈ words
}.



Lemma meta_not a : is_meta a = true → a ≠ quote ∧ a ≠ backslash.
Proof. destruct a as [[] [] [] [] [] [] [] []]; vm_compute; try discriminate; intros _; split; congruence. Qed.


Section literals.
Context {read : string → option (string * string)} `{!LiteralReader read}.

Lemma read_pxl_char a t : printable a = true ∨ a ∈ ["010"; "013"; "009"]%char →
  read (pxlEscaper a +:+ t) = prepend (String a EmptyString) (read t).
Proof using LiteralReader0.
  intros Ha. unfold pxlEscaper.
  repeat (case_decide; [subst; rewrite ?str_app_cons, ?str_app_empty; (apply read_escape; set_solver) || (destruct Ha as [Ha|Ha]; [by vm_compute in Ha|set_solver])|]).
  rewrite str_app_cons, str_app_empty. apply read_char; [|done..]. destruct Ha as [?|Ha]; [done|]. set_solver.
Qed.

(** A name that is put into a script is read back as it is, and the literal ends where
    it was closed, whatever quotes, backslashes and line ends the name has. *)
Lemma escaped_name_is_literal s rest :
  Forall (λ a, printable a = true ∨ a ∈ ["010"; "013"; "009"]%char) (String.list_ascii_of_string s) →
  read (escapePxL s +:+ String quote rest) = Some (s, rest).
Proof using LiteralReader0.
  induction s as [|a s IH]; [intros _; apply read_end|]. cbn [String.list_ascii_of_string]. rewrite Forall_cons. intros [Ha Hs].
  change (escapePxL (String a s)) with (pxlEscaper a +:+ escapePxL s). rewrite str_app_assoc, read_pxl_char, IH by done. done.
Qed.

(** The scanner does not escape line ends. *)
Lemma scanner_line_end_breaks_literal t : read (stream_escapePxL (String "010" EmptyString) +:+ t) = None.
Proof using LiteralReader0. apply read_line_end. Qed.





(** ** The allowlist *)


Context {full_match : string → string → Prop} `{!RegexMatch full_match}.

End literals.
