(* ===== verification/ExportTrigger.v ===== *)
(** * Adaptive export: the trigger

    [adaptive_export/internal/trigger/clickhouse.go] with the interface of
    [watermark.go]: the trigger polls the anomalies of its node from ClickHouse and sends
    each to the controller.  Its cursor is the time of the last row, together with the
    fingerprints of the rows it has sent for that time.  ClickHouse, the JSON library and
    SHA-256 are parameters. *)

From S2P Require Import Prelude GoLib Uuid ActiveSet ExportPxl.
From Stdlib Require Import Ascii.

(** The unit of an event's time is guessed from its size. *)
Definition normalizeEventTimeNanos (et : Z) : Z :=
  if (et <? 10 ^ 10)%Z then to_uint64 (et * 10 ^ 9)
  else if (et <? 10 ^ 13)%Z then to_uint64 (et * 10 ^ 6)
  else et.

(** [WatermarkStore]. *)
Class WatermarkStore (W : Type) := {
  wm_Load : string → string → M W (option Z);
  wm_Save : string → string → Z → M W unit
}.

(** A store that does not panic. *)
Class WatermarkReturns (W : Type) `{!WatermarkStore W} : Prop := { save_returns h t z w c : (wm_Save h t z w).1 ≠ Crash c }.

(** [Database], [Endpoint] and the timeouts only occur in the queries. *)
Record tconfig := mkTConfig {
  tc_Table : string; tc_Hostname : string; InitialWatermark : Z; has_store : bool; WatermarkSaveInterval : Z; PollLimit : Z
}.

(** The rows of a response and the largest of their times; a response may end early. *)
Record response := mkResponse { rows : list Row; maxSeen : Z; partial : option error }.

(** [parseJSONEachRow], after the lines that cannot be read are skipped. *)
Definition parsed (l : list Row) (err : option error) : response :=
  mkResponse l (foldl (λ m r, Z.max m (normalizeEventTimeNanos (r_EventTime r))) 0%Z l) err.

Section trigger.
Context {W : Type} `{!WatermarkStore W} (cfg : tconfig).
Context (json_k8s : string → error + (string * string)) (json_process : string → error + (Z * string)) (sha256 : string → string).
Abbreviation extract := (Extract json_k8s json_process).

Definition nul : string := String "000" EmptyString.
Definition rowFingerprint (r : Row) : string :=
  Sprintf_x (sha256 (FormatUint (r_EventTime r) +:+ nul +:+ r_RuleID r +:+ nul +:+ r_Hostname r +:+ nul +:+ K8sDetails r +:+ nul +:+ ProcessDetails r)).

Record trig := mkTrig {
  watermark : Z; seenAtBoundary : gset string; dirty : bool; lastSaved : Z; lastSaveTime : option Z; wstore : W; out : list Event
}.

Definition set_cursor (w : Z) (seen : gset string) (d : bool) (s : trig) : trig := mkTrig w seen d (lastSaved s) (lastSaveTime s) (wstore s) (out s).
Definition on_store {A} (m : M W A) : M trig A :=
  zoom wstore (λ w s, mkTrig (watermark s) (seenAtBoundary s) (dirty s) (lastSaved s) (lastSaveTime s) w (out s)) m.

(** [New], and the start of [run]. *)
Definition with_defaults (c : tconfig) : error + tconfig :=
  if (PollLimit c <? 0)%Z then inl (ErrMsg "trigger: PollLimit must be >= 0")
  else inr (mkTConfig (tc_Table c) (tc_Hostname c) (InitialWatermark c) (has_store c)
    (if (WatermarkSaveInterval c <=? 0)%Z then 5 * second else WatermarkSaveInterval c) (if (PollLimit c =? 0)%Z then 10000 else PollLimit c)).

Definition load_watermark (w : W) : trig :=
  let '(loaded, w') := if has_store cfg then
                         match wm_Load (tc_Hostname cfg) (tc_Table cfg) w with (Ret (Some wm), w') => (wm, w') | (_, w') => (InitialWatermark cfg, w') end
                       else (InitialWatermark cfg, w) in
  let wm := normalizeEventTimeNanos loaded in
  mkTrig wm ∅ false wm None w' [].

(** The clock is read before a save and after it. *)
Definition flushWatermark (before after : Z) : M trig unit :=
  s ← get_state;
  if negb (dirty s) || negb (has_store cfg) || (watermark s =? lastSaved s)%Z then mret tt
  else if match lastSaveTime s with Some t => (before - t <? WatermarkSaveInterval cfg)%Z | None => false end then mret tt
  else
    r ← try (on_store (wm_Save (tc_Hostname cfg) (tc_Table cfg) (watermark s)));
    match r with
    | inl _ => mret tt
    | inr _ => modify (λ s, mkTrig (watermark s) (seenAtBoundary s) false (watermark s) (Some after) (wstore s) (out s))
    end.

(** The save at the end of [run]. *)
Definition final_save : M trig unit :=
  s ← get_state;
  if has_store cfg && dirty s then logged (on_store (wm_Save (tc_Hostname cfg) (tc_Table cfg) (watermark s))) else mret tt.

Definition saveEveryN : nat := 256.

(** The loop over the rows: the fingerprints for the next poll and the number of rows
    skipped, or [None] when the context is done. *)
Fixpoint scan (clock : nat → Z * Z) (cancelled : nat → bool) (max : Z) (i : nat) (l : list Row) (next : gset string) (skipped : nat)
    : M trig (option (gset string * nat)) :=
  match l with
  | [] => mret (Some (next, skipped))
  | row :: l =>
    s ← get_state;
    let fp := rowFingerprint row in
    let evn := normalizeEventTimeNanos (r_EventTime row) in
    if (evn =? watermark s)%Z && bool_decide (fp ∈ seenAtBoundary s) then scan clock cancelled max (S i) l next (S skipped)
    else
      match extract row with
      | inl _ => scan clock cancelled max (S i) l next skipped
      | inr ev =>
        _ ← (if (watermark s <? evn)%Z then modify (set_cursor evn (seenAtBoundary s) true) else mret tt);
        if cancelled i then mret None
        else
          _ ← modify (λ s, mkTrig (watermark s) (seenAtBoundary s) (dirty s) (lastSaved s) (lastSaveTime s) (wstore s) (out s ++ [ev]));
          let next := if (evn =? max)%Z then {[fp]} ∪ next else next in
          _ ← (if (0 <? i)%nat && (i mod saveEveryN =? 0)%nat then flushWatermark (clock i).1 (clock i).2 else mret tt);
          scan clock cancelled max (S i) l next skipped
      end
  end.

(** The cursor once the rows were scanned, with the escape from a full response of rows of
    one time. *)
Definition set_after (max : Z) (n : nat) (next : gset string) (skipped : nat) (s : trig) : trig :=
  if (watermark s <? max)%Z then set_cursor max next true s
  else if (max =? watermark s)%Z then
    if (0 <? skipped)%nat && bool_decide (next = ∅) && (PollLimit cfg <=? Z.of_nat n)%Z
    then set_cursor (to_uint64 (watermark s + 1)) ∅ true s
    else set_cursor (watermark s) (next ∪ seenAtBoundary s) (dirty s) s
  else s.

Definition pollOnce (resp : response) (clock : nat → Z * Z) (cancelled : nat → bool) : M trig unit :=
  match partial resp, rows resp with
  | Some _, [] => mret tt
  | _, _ =>
    r ← scan clock cancelled (maxSeen resp) 0 (rows resp) ∅ 0;
    match r with
    | None => mret tt
    | Some (next, skipped) =>
      _ ← modify (set_after (maxSeen resp) (length (rows resp)) next skipped);
      flushWatermark (clock (length (rows resp))).1 (clock (length (rows resp))).2
    end
  end.

(** ** What is delivered *)

Abbreviation norm := (λ r, normalizeEventTimeNanos (r_EventTime r)).
Definition complete (r : Row) : Prop := ∃ ev, extract r = inr ev.

(** What a poll reads: rows of the table at or after the watermark, the first ones in the
    order of their times; the order of rows of one time is open, and the response may have
    been cut off. *)
Record fetched (table : list Row) (wm : Z) (l rest : list Row) : Prop := mkFetched {
  fe_perm : filter (λ r, wm <= norm r)%Z table ≡ₚ l ++ rest;
  fe_sorted : StronglySorted (λ r r', norm r <= norm r')%Z l;
  fe_first r r' : r ∈ l → r' ∈ rest → (norm r <= norm r')%Z
}.

(** The cursor has passed a row. *)
Definition passed (s : trig) (r : Row) : Prop :=
  (norm r < watermark s)%Z ∨ norm r = watermark s ∧ rowFingerprint r ∈ seenAtBoundary s.

(** [log] are the rows that were sent, from the watermark [wm0] on. *)
Record sent_exactly (wm0 : Z) (table log : list Row) (s : trig) : Prop := mkSent {
  se_out : Forall2 (λ r ev, extract r = inr ev) log (out s);
  se_nodup : NoDup log;
  se_wm : (wm0 <= watermark s)%Z;
  se_log r : r ∈ log → r ∈ table ∧ (wm0 <= norm r)%Z;
  se_seen : ∀ fp, fp ∈ seenAtBoundary s → ∃ r, r ∈ log ∧ rowFingerprint r = fp;
  se_passed r : r ∈ table → complete r → (wm0 <= norm r)%Z → r ∈ log ↔ passed s r
}.

(** Fingerprints tell the rows of the table apart. *)
Definition distinct (table : list Row) : Prop := NoDup (rowFingerprint <$> table).

Lemma distinct_inj table r r' : distinct table → r ∈ table → r' ∈ table → rowFingerprint r = rowFingerprint r' → r = r'.
Proof.
  intros Hd (i & Hi)%list_elem_of_lookup (j & Hj)%list_elem_of_lookup E. unfold distinct in Hd.
  assert (i = j) as ->; [|congruence]. eapply NoDup_lookup; [exact Hd|by rewrite list_lookup_fmap, Hi|by rewrite list_lookup_fmap, Hj, E].
Qed.

(** The cursor and what was sent. *)
Definition same_cursor (s s' : trig) : Prop := watermark s' = watermark s ∧ seenAtBoundary s' = seenAtBoundary s ∧ out s' = out s.

Context `{!WatermarkReturns W}.

Lemma flush_keeps b a s : ∃ s', flushWatermark b a s = (Ret tt, s') ∧ same_cursor s s'.
Proof.
  unfold flushWatermark. rewrite get_bind. destruct (negb _ || _ || _); [by exists s|].
  destruct (match lastSaveTime s with Some _ => _ | None => _ end); [by exists s|].
  unfold mbind, M_bind, try, on_store, zoom. pose proof (save_returns (tc_Hostname cfg) (tc_Table cfg) (watermark s) (wstore s)) as Hs.
  destruct (wm_Save _ _ _ _) as [[[]|e|c] w]; cbn in *; [by eexists|by eexists|by destruct (Hs c)].
Qed.
Lemma maybe_flush (b : bool) x y s : ∃ s', (if b then flushWatermark x y else mret tt) s = (Ret tt, s') ∧ same_cursor s s'.
Proof. destruct b; [apply flush_keeps|by exists s]. Qed.

(** ** The loop over the rows *)

(** The rows that are sent: those that were not yet and are complete. *)
Definition fresh (seen : gset string) (r : Row) : bool :=
  bool_decide (rowFingerprint r ∉ seen) && match extract r with inr _ => true | inl _ => false end.
Definition to_send (seen : gset string) (l : list Row) : list Row := filter (λ r, fresh seen r = true) l.

(** The state after the rows [new] were sent. *)
Record scanned (max : Z) (s s' : trig) (new : list Row) (next next' : gset string) : Prop := mkScanned {
  sc_seen : seenAtBoundary s' = seenAtBoundary s;
  sc_out : ∃ evs, out s' = out s ++ evs ∧ Forall2 (λ r ev, extract r = inr ev) new evs;
  sc_le : (watermark s <= watermark s')%Z;
  sc_max r : r ∈ new → (norm r <= watermark s')%Z;
  sc_wm : watermark s' = watermark s ∨ ∃ r, r ∈ new ∧ norm r = watermark s';
  sc_next fp : fp ∈ next' ↔ fp ∈ next ∨ ∃ r, r ∈ new ∧ norm r = max ∧ rowFingerprint r = fp
}.

Lemma scanned_cons max s s1 s2 r ev new next next' :
  extract r = inr ev → same_cursor (mkTrig (Z.max (watermark s) (norm r)) (seenAtBoundary s) true 0 None (wstore s) (out s ++ [ev])) s1 →
  scanned max s1 s2 new (if (norm r =? max)%Z then {[rowFingerprint r]} ∪ next else next) next' →
  scanned max s s2 (r :: new) next next'.
Proof.
  intros Ee (Hw & Hs & Ho) [H1 (evs & H2 & H2') H3 H4 H5 H6]. cbn in Hw, Hs, Ho. split.
  - congruence.
  - exists (ev :: evs). rewrite H2, Ho, <- app_assoc. split; [done|by constructor].
  - lia.
  - intros r' [->|Hr]%elem_of_cons; [lia|by apply H4].
  - destruct H5 as [H5|(r' & Hr' & H5)]; [|right; exists r'; split; [by right|done]].
    destruct (decide (norm r <= watermark s)%Z); [left; lia|]. right. exists r. split; [by left|]. lia.
  - intros fp. rewrite H6. destruct (norm r =? max)%Z eqn:Em.
    + apply Z.eqb_eq in Em. set_solver.
    + apply Z.eqb_neq in Em. set_solver.
Qed.

Lemma scan_run clock max l : StronglySorted (λ r r', norm r <= norm r')%Z l → ∀ i next skipped s,
  (∀ r, r ∈ l → watermark s <= norm r)%Z → (∀ r, r ∈ l → rowFingerprint r ∈ seenAtBoundary s → norm r = watermark s) →
  ∃ s' next' skipped', scan clock (λ _, false) max i l next skipped s = (Ret (Some (next', skipped')), s') ∧
    scanned max s s' (to_send (seenAtBoundary s) l) next next'.
Proof.
  induction 1 as [|r l Hs IH Hf]; intros i next skipped s Hle Hseen.
  { exists s, next, skipped. split; [done|]. split; try done; [exists []; by rewrite app_nil_r|set_solver|by left|set_solver]. }
  cbn [scan]. rewrite get_bind. unfold to_send. rewrite Forall_forall in Hf.
  assert (Hle' : ∀ r', r' ∈ l → (watermark s <= norm r')%Z) by (intros r' Hr'; apply Hle; by right).
  assert (Hseen' : ∀ r', r' ∈ l → rowFingerprint r' ∈ seenAtBoundary s → norm r' = watermark s) by (intros r' Hr'; apply Hseen; by right).
  destruct (decide (rowFingerprint r ∈ seenAtBoundary s)) as [Hin|Hin].
  { rewrite (Hseen r ltac:(by left) Hin), Z.eqb_refl, bool_decide_true by done. cbn [andb].
    rewrite filter_cons_False by (unfold fresh; rewrite bool_decide_false by auto; done). by apply IH. }
  rewrite (bool_decide_false (rowFingerprint r ∈ _)) by done. rewrite andb_false_r.
  destruct (extract r) as [e|ev] eqn:Ee.
  { rewrite filter_cons_False by (unfold fresh; rewrite Ee, andb_false_r; done). by apply IH. }
  rewrite filter_cons_True by (unfold fresh; rewrite Ee, bool_decide_true by done; done).
  set (s0 := if (watermark s <? norm r)%Z then set_cursor (norm r) (seenAtBoundary s) true s else s).
  assert (E0 : (if (watermark s <? norm r)%Z then modify (set_cursor (norm r) (seenAtBoundary s) true) else mret tt) s = (Ret tt, s0))
    by (unfold s0; by destruct (_ <? _)%Z).
  run_with E0. cbn iota. rewrite modify_bind.
  set (s1 := mkTrig (watermark s0) (seenAtBoundary s0) (dirty s0) (lastSaved s0) (lastSaveTime s0) (wstore s0) (out s0 ++ [ev])).
  destruct (maybe_flush ((0 <? i)%nat && (i mod saveEveryN =? 0)%nat) (clock i).1 (clock i).2 s1) as (s2 & E2 & Hw2 & Hs2 & Ho2).
  run_with E2.
  assert (Hw : watermark s0 = Z.max (watermark s) (norm r) ∧ seenAtBoundary s0 = seenAtBoundary s ∧ out s0 = out s).
  { unfold s0. destruct (_ <? _)%Z eqn:El; [apply Z.ltb_lt in El|apply Z.ltb_ge in El]; split_and!; try done; cbn; lia. }
  destruct Hw as (Hw0 & Hs0 & Ho0). cbn in Hw2, Hs2, Ho2. pose proof (Hle r ltac:(by left)).
  destruct (IH (S i) (if (norm r =? max)%Z then {[rowFingerprint r]} ∪ next else next) skipped s2) as (s' & next' & skipped' & E' & Hsc).
  - intros r' Hr'. specialize (Hf r' Hr'). lia.
  - rewrite Hs2, Hs0. intros r' Hr' Hin'. specialize (Hf r' Hr'). specialize (Hseen' r' Hr' Hin'). cbn beta in *. lia.
  - exists s', next', skipped'. split; [exact E'|]. rewrite Hs2, Hs0 in Hsc. eapply scanned_cons; [exact Ee| |exact Hsc].
    split_and!; cbn; congruence.
Qed.
(** ** A poll *)

Lemma to_send_elem seen l r : r ∈ to_send seen l ↔ r ∈ l ∧ complete r ∧ rowFingerprint r ∉ seen.
Proof.
  unfold to_send. rewrite list_elem_of_filter. unfold fresh, complete. rewrite andb_true_iff, bool_decide_eq_true.
  destruct (extract r) as [e|ev]; naive_solver.
Qed.

(** The largest time of a response. *)
Lemma fold_max m l : let M := foldl (λ m r, Z.max m (norm r)) m l in
  (m <= M)%Z ∧ (∀ r, r ∈ l → norm r <= M)%Z ∧ (M = m ∨ ∃ r, r ∈ l ∧ norm r = M).
Proof.
  revert m. induction l as [|r l IH]; intros m; cbn [foldl]; [split_and!; [lia|set_solver|by left]|].
  destruct (IH (Z.max m (norm r))) as (H1 & H2 & H3). set (M := foldl _ _ l) in *. split_and!; [lia| |].
  - intros r' [->|Hr]%elem_of_cons; [lia|by apply H2].
  - destruct H3 as [H3|(r' & Hr' & H3)]; [|right; exists r'; split; [by right|done]].
    destruct (decide (norm r <= m)%Z); [left; lia|right; exists r; split; [by left|lia]].
Qed.

Lemma parsed_max l err : l ≠ [] → (∀ r, r ∈ l → 0 <= norm r)%Z →
  (∀ r, r ∈ l → norm r <= maxSeen (parsed l err))%Z ∧ ∃ r, r ∈ l ∧ norm r = maxSeen (parsed l err).
Proof.
  intros Hl H0. destruct (fold_max 0 l) as (H1 & H2 & H3). cbn [maxSeen parsed]. split; [done|]. destruct H3 as [H3|H3]; [|done].
  destruct l as [|r l]; [done|]. exists r. split; [by left|]. specialize (H2 r ltac:(by left)). specialize (H0 r ltac:(by left)). lia.
Qed.

(** Fewer rows than the limit have the same time. *)
Definition small (table : list Row) : Prop := ∀ t, (Z.of_nat (length (filter (λ r, norm r = t) table)) < PollLimit cfg)%Z.

(** The cursor after a poll that sends [new]. *)
Record polled (l new : list Row) (s s' : trig) : Prop := mkPolled {
  po_out : ∃ evs, out s' = out s ++ evs ∧ Forall2 (λ r ev, extract r = inr ev) new evs;
  po_le : (watermark s <= watermark s')%Z;
  po_nil : l = [] → watermark s' = watermark s;
  po_max r : r ∈ l → (norm r <= watermark s')%Z;
  po_at : l ≠ [] → ∃ r, r ∈ l ∧ norm r = watermark s';
  po_next r : r ∈ new → norm r = watermark s' → rowFingerprint r ∈ seenAtBoundary s';
  po_seen fp : fp ∈ seenAtBoundary s' → fp ∈ seenAtBoundary s ∨ ∃ r, r ∈ new ∧ rowFingerprint r = fp;
  po_keep : watermark s' = watermark s → seenAtBoundary s ⊆ seenAtBoundary s'
}.

Lemma polled_cursor l new s s' s'' : polled l new s s' → same_cursor s' s'' → polled l new s s''.
Proof. intros [] (Hw & Hs & Ho). by split; rewrite ?Hw, ?Hs, ?Ho. Qed.

Lemma set_after_polled max l next skipped s s' :
  scanned max s s' (to_send (seenAtBoundary s) l) ∅ next → (∀ r, r ∈ l → watermark s <= norm r)%Z →
  l ≠ [] → (∀ r, r ∈ l → norm r <= max)%Z → (∃ r, r ∈ l ∧ norm r = max) →
  (∀ t, Z.of_nat (length (filter (λ r, norm r = t) l)) < PollLimit cfg)%Z →
  polled l (to_send (seenAtBoundary s) l) s (set_after max (length l) next skipped s').
Proof.
  intros [H1 H2 H3 H4 H5 H6] Hle Hl Hmax (rm & Hrm & Em) Hsm. set (new := to_send _ _) in *.
  assert (Hn : ∀ r, r ∈ new → r ∈ l) by (intros r Hr; by apply to_send_elem in Hr as [? _]).
  assert (Hw : (watermark s' <= max)%Z) by (destruct H5 as [->|(r & Hr & <-)]; [specialize (Hle rm Hrm); lia|by apply Hmax, Hn]).
  unfold set_after. destruct (watermark s' <? max)%Z eqn:E1.
  - apply Z.ltb_lt in E1. split; cbn; try done; [lia|by exists rm| | |lia].
    + intros r Hr Hm. apply H6. right. by exists r.
    + intros fp Hfp. apply H6 in Hfp as [?%not_elem_of_empty|(r & Hr & _ & <-)]; [done|]. right. by exists r.
  - apply Z.ltb_ge in E1. assert (max = watermark s') as Emw by lia. rewrite (proj2 (Z.eqb_eq _ _) Emw).
    destruct (_ && _ && _) eqn:Ep.
    + exfalso. apply andb_true_iff in Ep as [[_ Hne]%andb_true_iff Hlim]. apply bool_decide_eq_true in Hne. apply Z.leb_le in Hlim.
      assert (Hws : watermark s' = watermark s).
      { destruct H5 as [?|(r & Hr & Hm)]; [done|]. assert (rowFingerprint r ∈ next) as Hin by (apply H6; right; exists r; split_and!; [done|lia|done]).
        rewrite Hne in Hin. by apply not_elem_of_empty in Hin. }
      specialize (Hsm max). rewrite filter_all in Hsm; [lia|]. apply Forall_forall. intros r Hr. specialize (Hle r Hr). specialize (Hmax r Hr). lia.
    + split; cbn; try done; [intros r Hr; rewrite <- Emw; by apply Hmax|exists rm; split; [done|lia]| | |].
      * intros r Hr Hm. apply elem_of_union. left. apply H6. right. exists r. split_and!; [done|lia|done].
      * intros fp [Hfp|Hfp]%elem_of_union; [|left; by rewrite <- H1]. apply H6 in Hfp as [?%not_elem_of_empty|(r & Hr & _ & <-)]; [done|]. right. by exists r.
      * intros _. rewrite H1. set_solver.
Qed.
Lemma poll_run l err clock s : StronglySorted (λ r r', norm r <= norm r')%Z l →
  (∀ r, r ∈ l → watermark s <= norm r ∧ 0 <= norm r)%Z → (0 <= watermark s)%Z → (∀ r, r ∈ l → rowFingerprint r ∈ seenAtBoundary s → norm r = watermark s) →
  (∀ t, Z.of_nat (length (filter (λ r, norm r = t) l)) < PollLimit cfg)%Z →
  ∃ s', pollOnce (parsed l err) clock (λ _, false) s = (Ret tt, s') ∧ polled l (to_send (seenAtBoundary s) l) s s'.
Proof.
  intros Hsort Hle H0 Hseen Hsm.
  assert (Hstop : l = [] → polled l (to_send (seenAtBoundary s) l) s s).
  { intros ->. split; try done; [exists []; by rewrite app_nil_r|set_solver|set_solver|intros fp; by left]. }
  set (max := maxSeen (parsed l err)).
  destruct (scan_run clock max l Hsort 0 ∅ 0 s) as (s1 & next & skipped & E1 & Hsc); [intros r Hr; by apply Hle|done|].
  set (s2 := set_after max (length l) next skipped s1).
  destruct (flush_keeps (clock (length l)).1 (clock (length l)).2 s2) as (s3 & E3 & Hc3).
  assert (Hgo : polled l (to_send (seenAtBoundary s) l) s s3).
  { eapply polled_cursor; [|exact Hc3]. unfold s2. destruct (decide (l = [])) as [->|Hl].
    - cbn in E1. injection E1 as <- <- <-. unfold set_after. change max with 0%Z. rewrite (proj2 (Z.ltb_ge _ _)) by done.
      cbn [Nat.ltb Nat.leb andb]. destruct (_ =? _)%Z; [|by apply Hstop].
      destruct (Hstop eq_refl). split; cbn; try done; [set_solver|intros fp; set_solver|set_solver].
    - destruct (parsed_max l err Hl) as [Hm1 Hm2]; [intros r Hr; by apply Hle|]. apply set_after_polled; try done. intros r Hr. by apply Hle. }
  assert (Egoes : (r ← scan clock (λ _, false) max 0 l ∅ 0;
    match r with
    | None => mret tt
    | Some (next, skipped) => _ ← modify (set_after max (length l) next skipped); flushWatermark (clock (length l)).1 (clock (length l)).2
    end) s = (Ret tt, s3)) by (run_with E1; rewrite modify_bind; exact E3).
  unfold pollOnce. cbn [partial rows parsed]. destruct err as [e|]; [destruct l as [|r l]; [by exists s; split; [|apply Hstop]|]|]; by exists s3.
Qed.

(** ** Runs *)

Lemma sent_complete wm0 table log s r : sent_exactly wm0 table log s → r ∈ log → complete r.
Proof.
  intros Hs (i & Hi)%list_elem_of_lookup. destruct (Forall2_lookup_l _ _ _ _ _ (se_out _ _ _ _ Hs) Hi) as (ev & _ & E). by exists ev.
Qed.

(** A row with a fingerprint that was noted has been sent, and its time is the
    watermark or before. *)
Lemma seen_sent wm0 table log s r : sent_exactly wm0 table log s → distinct table → r ∈ table → rowFingerprint r ∈ seenAtBoundary s → r ∈ log.
Proof.
  intros Hs Hd Hr Hin. destruct (se_seen _ _ _ _ Hs _ Hin) as (r0 & Hr0 & E). destruct (se_log _ _ _ _ Hs _ Hr0) as [Ht _].
  by rewrite <- (distinct_inj table r0 r Hd Ht Hr E).
Qed.

Lemma distinct_nodup table : distinct table → NoDup table.
Proof. intros H. by eapply NoDup_fmap_1. Qed.

(** What a response has to do with the table. *)
Lemma fetched_elem table wm l rest r : fetched table wm l rest → r ∈ l ∨ r ∈ rest ↔ r ∈ table ∧ (wm <= norm r)%Z.
Proof. intros [Hp _ _]. rewrite <- elem_of_app, <- Hp, list_elem_of_filter. tauto. Qed.

Lemma fetched_small table wm l rest : fetched table wm l rest → small table → ∀ t, (Z.of_nat (length (filter (λ r, norm r = t) l)) < PollLimit cfg)%Z.
Proof.
  intros [Hp _ _] Hs t. eapply Z.le_lt_trans; [|apply (Hs t)]. apply Nat2Z.inj_le.
  transitivity (length (filter (λ r, norm r = t) (filter (λ r, wm <= norm r)%Z table))).
  - rewrite Hp, filter_app, length_app. lia.
  - clear. induction table as [|r table IH]; [done|]. rewrite !filter_cons. repeat case_decide; rewrite ?filter_cons; repeat case_decide; cbn; try done; lia.
Qed.

Section one_poll.
Context (wm0 : Z) (table log l rest : list Row) (s s' : trig).
Context (Hd : distinct table) (Hs : sent_exactly wm0 table log s) (Hf : fetched table (watermark s) l rest).
Abbreviation new := (to_send (seenAtBoundary s) l).

Lemma fetched_in r : r ∈ l → r ∈ table ∧ (watermark s <= norm r)%Z.
Proof using Hf. intros Hr. apply (fetched_elem _ _ _ _ _ Hf). by left. Qed.

Lemma fetched_boundary r : r ∈ l → rowFingerprint r ∈ seenAtBoundary s → norm r = watermark s.
Proof using Hd Hs Hf.
  intros Hr Hfp. destruct (fetched_in r Hr) as [Hr1 Hr2]. pose proof (seen_sent _ _ _ _ _ Hs Hd Hr1 Hfp) as Hrl.
  destruct (se_log _ _ _ _ Hs r Hrl) as [_ Hr3]. apply (se_passed _ _ _ _ Hs) in Hrl; [|done|by eapply sent_complete|done].
  destruct Hrl as [?|[? _]]; lia.
Qed.

Lemma new_nodup : NoDup (log ++ new).
Proof using Hd Hs Hf.
  apply NoDup_app. split; [apply Hs|]. split.
  - intros r Hr Hr'. apply to_send_elem in Hr' as (Hr1 & Hc & Hfp). destruct (fetched_in r Hr1) as [Ht Hw].
    destruct (se_log _ _ _ _ Hs r Hr) as [_ Hr3]. apply (se_passed _ _ _ _ Hs) in Hr; [|done..]. destruct Hr as [?|[_ ?]]; [lia|done].
  - apply NoDup_filter. pose proof (NoDup_filter (λ r, watermark s <= norm r)%Z _ (distinct_nodup _ Hd)) as H.
    rewrite (fe_perm _ _ _ _ Hf) in H. by apply NoDup_app in H as [? _].
Qed.

Lemma seen_after fp : polled l new s s' → fp ∈ seenAtBoundary s' → ∃ r, r ∈ log ++ new ∧ rowFingerprint r = fp.
Proof using Hs.
  intros Hp Hfp. destruct (po_seen _ _ _ _ Hp fp Hfp) as [Hfp'|(r & Hr & <-)]; [|exists r; split; [apply elem_of_app; by right|done]].
  destruct (se_seen _ _ _ _ Hs fp Hfp') as (r & Hr & <-). exists r. split; [apply elem_of_app; by left|done].
Qed.

Lemma log_after r : r ∈ log ++ new → r ∈ table ∧ (wm0 <= norm r)%Z.
Proof using Hs Hf.
  intros [Hr|Hr]%elem_of_app; [by apply (se_log _ _ _ _ Hs)|]. apply to_send_elem in Hr as (Hr1 & _). destruct (fetched_in r Hr1).
  pose proof (se_wm _ _ _ _ Hs). split; [done|lia].
Qed.

Lemma passed_after r : polled l new s s' → r ∈ table → complete r → (wm0 <= norm r)%Z → r ∈ log ++ new ↔ passed s' r.
Proof using Hd Hs Hf.
  intros Hp Ht Hc Hw. pose proof Hp as [_ P1 P2 P3 P4 P5 P6 P7]. split.
  - intros [Hr|Hr]%elem_of_app.
    + apply (se_passed _ _ _ _ Hs) in Hr; [|done..]. destruct Hr as [Hr|[Hr Hfp]]; [left; lia|].
      destruct (decide (watermark s' = watermark s)) as [E|E]; [right; split; [lia|by apply P7]|left; lia].
    + destruct (decide (norm r = watermark s')) as [E|E]; [right; auto|]. left. apply to_send_elem in Hr as [Hr _]. specialize (P3 r Hr). lia.
  - intros Hpa. destruct (decide (norm r < watermark s)%Z) as [Hlt|Hge].
    { apply elem_of_app. left. apply (se_passed _ _ _ _ Hs); [done..|by left]. }
    assert (Hback : rowFingerprint r ∈ seenAtBoundary s' → r ∈ log ++ new).
    { intros Hfp. destruct (seen_after _ Hp Hfp) as (r0 & Hr0 & E). destruct (log_after _ Hr0) as [Ht0 _]. by rewrite <- (distinct_inj _ r0 r Hd Ht0 Ht E). }
    destruct Hpa as [Hlt|[_ Hfp]]; [|by apply Hback].
    destruct (proj2 (fetched_elem _ _ _ _ r Hf)) as [Hr|Hr]; [split; [done|lia]| |].
    + apply elem_of_app. destruct (decide (rowFingerprint r ∈ seenAtBoundary s)); [left; by eapply seen_sent|right; by apply to_send_elem].
    + exfalso. destruct (decide (l = [])) as [El|El]; [rewrite (P2 El) in Hlt; lia|]. destruct (P4 El) as (r0 & Hr0 & E0).
      pose proof (fe_first _ _ _ _ Hf _ _ Hr0 Hr). cbn beta in *. lia.
Qed.
End one_poll.

(** A poll sends what the cursor passes. *)
Lemma poll_sent wm0 table log s l rest err clock :
  (0 <= wm0)%Z → Forall (λ r, 0 <= norm r)%Z table → distinct table → small table → sent_exactly wm0 table log s → fetched table (watermark s) l rest →
  ∃ s' new, pollOnce (parsed l err) clock (λ _, false) s = (Ret tt, s') ∧ sent_exactly wm0 table (log ++ new) s' ∧
    polled l new s s' ∧ ∀ r, r ∈ l → complete r → r ∈ log ++ new.
Proof.
  intros H0 Ht Hd Hsm Hs Hf. rewrite Forall_forall in Ht. pose proof (se_wm _ _ _ _ Hs) as Hwm.
  destruct (poll_run l err clock s) as (s' & E & Hp).
  { apply Hf. }
  { intros r Hr. destruct (fetched_in _ _ _ _ Hf r Hr) as [Hr1 Hr2]. auto. }
  { lia. }
  { intros r Hr. by eapply fetched_boundary. }
  { by eapply fetched_small. }
  exists s', (to_send (seenAtBoundary s) l). split; [done|]. split; [|split; [done|]].
  2:{ intros r Hr Hc. apply elem_of_app. destruct (fetched_in _ _ _ _ Hf r Hr) as [Hr1 _].
      destruct (decide (rowFingerprint r ∈ seenAtBoundary s)); [left; by eapply seen_sent|right; by apply to_send_elem]. }
  destruct (po_out _ _ _ _ Hp) as (evs & Hout & Hevs). split.
  - rewrite Hout. apply Forall2_app; [apply Hs|done].
  - by eapply new_nodup.
  - pose proof (po_le _ _ _ _ Hp). lia.
  - intros r. by eapply log_after.
  - intros fp. by eapply seen_after.
  - intros r. by eapply passed_after.
Qed.

(** Rows are inserted while the trigger runs, not before its cursor; a poll reads a
    response. *)
Inductive tstep : list Row * trig → list Row * trig → Prop :=
| t_insert table new s : Forall (λ r, watermark s <= norm r)%Z new → tstep (table, s) (table ++ new, s)
| t_poll table s l rest err clock s' : fetched table (watermark s) l rest →
    pollOnce (parsed l err) clock (λ _, false) s = (Ret tt, s') → tstep (table, s) (table, s').

(** The table keeps its rows, and so does what was said of them. *)
Definition good_table (table : list Row) : Prop := Forall (λ r, 0 <= norm r)%Z table ∧ distinct table ∧ small table.

Lemma good_table_prefix table new : good_table (table ++ new) → good_table table.
Proof.
  intros (H1 & H2 & H3). split_and!.
  - by apply Forall_app in H1 as [? _].
  - unfold distinct in *. rewrite fmap_app in H2. by apply NoDup_app in H2 as [? _].
  - intros t. specialize (H3 t). rewrite filter_app, length_app in H3. lia.
Qed.

Lemma insert_sent wm0 table new log s : distinct (table ++ new) → Forall (λ r, watermark s <= norm r)%Z new →
  sent_exactly wm0 table log s → sent_exactly wm0 (table ++ new) log s.
Proof.
  intros Hd Hn Hs. pose proof Hs as [Ho Hnd Hwm Hlog Hseen Hpass]. rewrite Forall_forall in Hn. split; try done.
  - intros r Hr. destruct (Hlog r Hr). split; [apply elem_of_app; by left|done].
  - intros r [Hr|Hr]%elem_of_app Hc Hw; [by apply Hpass|]. unfold distinct in Hd. rewrite fmap_app in Hd. apply NoDup_app in Hd as (Hd & Hdis & _).
    assert (Hfp : ∀ r', r' ∈ log → rowFingerprint r' ≠ rowFingerprint r).
    { intros r' Hr' E. destruct (Hlog r' Hr') as [Ht _]. apply (Hdis (rowFingerprint r')); [by apply list_elem_of_fmap_2|].
      rewrite E. by apply list_elem_of_fmap_2. }
    split; [intros Hrl; by destruct (Hfp r Hrl)|]. intros [Hlt|[_ Hin]]; [specialize (Hn r Hr); lia|].
    destruct (Hseen _ Hin) as (r' & Hr' & E). by destruct (Hfp r' Hr').
Qed.

Lemma start_sent table w : let s := load_watermark w in sent_exactly (watermark s) table [] s.
Proof.
  unfold load_watermark. destruct (if has_store cfg then _ else _) as [loaded w']. cbn. split; cbn; try done; [by apply NoDup_nil_2|set_solver|].
  intros r Hr Hc Hw. split; [by intros ?%not_elem_of_nil|]. intros [H|[_ H]]; cbn in H; [lia|set_solver].
Qed.

Lemma table_grows x y : rtc tstep x y → ∃ new, y.1 = x.1 ++ new.
Proof.
  induction 1 as [x|x y z Hs _ (new & ->)]; [exists []; by rewrite app_nil_r|]. destruct Hs as [table new' s _|table s l rest err clock s' _ _]; cbn.
  - exists (new' ++ new). by rewrite app_assoc.
  - by exists new.
Qed.

Lemma steps_sent wm0 x y : (0 <= wm0)%Z → rtc tstep x y → good_table y.1 → ∀ log, sent_exactly wm0 x.1 log x.2 →
  ∃ new, sent_exactly wm0 y.1 (log ++ new) y.2.
Proof.
  intros H0 Hr Hg. induction Hr as [x|x y z Hs Hr IH]; intros log Hlog; [exists []; by rewrite app_nil_r|].
  assert (Hgy : good_table y.1) by (destruct (table_grows _ _ Hr) as (new & E); rewrite E in Hg; by eapply good_table_prefix).
  destruct Hs as [table new s Hn|table s l rest err clock s' Hf E]; cbn in *.
  - apply IH; [done|]. apply insert_sent; [apply Hgy|done|done].
  - destruct Hgy as (Hg1 & Hg2 & Hg3). destruct (poll_sent wm0 table log s l rest err clock) as (s1 & new & E' & Hs1 & _ & _); [done..|].
    assert (s1 = s') as -> by congruence. destruct (IH Hg (log ++ new) Hs1) as (new' & Hnew). exists (new ++ new'). by rewrite app_assoc.
Qed.

(** C15: If the fingerprints tell the rows apart, fewer rows than the limit of a poll
    have the same time, and no row is inserted before the cursor: every complete row
    that is inserted at or after the cursor the trigger started with is sent to the
    controller once the cursor has passed it, no row is sent twice, and when a poll that
    reads a whole response does not move the cursor, every complete row was sent. *)
Theorem rows_sent_once table0 w table s :
  let s0 := load_watermark w in
  (0 <= watermark s0)%Z → rtc tstep (table0, s0) (table, s) → good_table table →
  ∃ log, Forall2 (λ r ev, extract r = inr ev) log (out s) ∧ NoDup log ∧
    (∀ r, r ∈ log → r ∈ table ∧ (watermark s0 <= norm r)%Z) ∧
    (∀ r, r ∈ table → complete r → (watermark s0 <= norm r < watermark s)%Z → r ∈ log) ∧
    ∀ l rest clock s', fetched table (watermark s) l rest → rest = [] ∨ Z.of_nat (length l) = PollLimit cfg →
      pollOnce (parsed l None) clock (λ _, false) s = (Ret tt, s') → watermark s' = watermark s →
      ∃ new, Forall2 (λ r ev, extract r = inr ev) (log ++ new) (out s') ∧ ∀ r, r ∈ table → complete r → (watermark s0 <= norm r)%Z → r ∈ log ++ new.
Proof.
  intros s0 H0 Hr Hg. destruct (steps_sent (watermark s0) _ _ H0 Hr Hg [] (start_sent table0 w)) as (log & Hlog). cbn in Hlog.
  exists log. pose proof Hlog as [Ho Hn Hwm Hin Hseen Hpass]. split_and!; [done..| |].
  { intros r Ht Hc [Hw Hw']. apply Hpass; [done..|by left]. }
  intros l rest clock s' Hf Hfull E Hsame. pose proof Hg as (Hg1 & Hg2 & Hg3).
  destruct (poll_sent (watermark s0) table log s l rest None clock) as (s1 & new & E' & Hs1 & Hp & Hall); [done..|]. assert (s1 = s') as -> by congruence.
  exists new. split; [apply Hs1|]. intros r Ht Hc Hw. destruct (decide (norm r < watermark s)%Z) as [Hlt|Hge].
  { apply (se_passed _ _ _ _ Hs1); [done..|]. left. lia. }
  destruct (proj2 (fetched_elem _ _ _ _ r Hf)) as [Hl|Hl]; [split; [done|lia]|by apply Hall|]. exfalso.
  destruct Hfull as [->|Hfull]; [by apply not_elem_of_nil in Hl|]. pose proof (fetched_small _ _ _ _ Hf Hg3 (watermark s)) as Hsm.
  rewrite filter_all in Hsm; [lia|]. apply Forall_forall. intros r0 Hr0. destruct (fetched_in _ _ _ _ Hf r0 Hr0) as [_ Hr1].
  pose proof (po_max _ _ _ _ Hp r0 Hr0). cbn beta in *. lia.
Qed.
End trigger.
