(* ===== verification/ExportRuns.v ===== *)
(** * Runs of the adaptive export

    A set with one pod and a scanner, and a trigger on a table with one row. *)

From S2P Require Import Prelude GoLib Uuid ActiveSet FilterSteps ExportPxl ExportTrigger.
From Stdlib Require Import Ascii.

Module ExportRuns.

(** ** Filters *)

Definition cfg_1 : UpdaterConfig := updater_defaulted (mkUpdaterConfig 0 0 0).
Definition pod_1 : Key := mkKey "default" "web-0".
Definition x_0 : fsys := updater_start cfg_1 New [].
Definition x_1 : fsys := mkFSys (set x_0) [] 0 false Selecting [mkScanner (mkChan 4 [filter_of cfg_1 [] 0]) None].
Definition set_2 : aset := mkASet {[pod_1 := 10%Z]} 1 (subs (set x_0)) (next_chan (set x_0)).
Definition x_2 : fsys := mkFSys set_2 [mkDelta [pod_1] [] 1] 0 false Selecting (scanners x_1).

Lemma New_set_ok : set_ok New.
Proof. split; [apply NoDup_nil_2|constructor|constructor]. Qed.

Lemma x_2_reached : rtc (fstep cfg_1) x_0 x_2.
Proof.
  eapply rtc_l; [apply (f_subscribe cfg_1 x_0 (filter_of cfg_1 [] 0)); [discriminate|]; by exists []|].
  apply rtc_once. apply (f_change cfg_1 x_1 (Some (mkDelta [pod_1] [] 1)) set_2). by apply (ch_upsert _ pod_1 10).
Qed.

(** The pod is new and its filter not yet made; a quiet state can be reached. *)
Lemma filters_follow_set_witness :
  ∃ x', rtc (fstep cfg_1) x_2 x' ∧ quiet x' ∧ members (set x') = {[pod_1 := 10%Z]} ∧ length (scanners x') = 1%nat.
Proof.
  destruct (filters_follow_set cfg_1 New [] x_2 New_set_ok x_2_reached ltac:(discriminate)) as [_ (x' & H1 & H2 & H3 & H4)]. by exists x'.
Defined.

(** ** Scripts *)

Lemma template_is_query_witness : ∃ tmpl, CompilePassthrough "http_events" (30 * second) = inr tmpl ∧
  QueryFor "" "http_events" (mkTarget 0 "" "" "") (100 * second - 30 * second) (100 * second) (100 * second) =
    inr (Render_template tmpl (100 * second - 30 * second) (100 * second)).
Proof.
  apply (template_is_query "" "http_events" (30 * second) (100 * second)); [reflexivity|reflexivity|discriminate|split; [|reflexivity]].
  apply Z.leb_le. reflexivity.
Defined.

(** A reader of literals, and a matcher for groups of literal alternatives. *)
Definition unescape (b : ascii) : option string :=
  if is_meta b then Some (String backslash (String b EmptyString))
  else (λ bc, String bc.2 EmptyString) <$> head (filter (λ bc, bc.1 = b) short_escapes).

Fixpoint read_literal (s : string) : option (string * string) :=
  match s with
  | EmptyString => None
  | String a s =>
    if decide (a = quote) then Some (EmptyString, s)
    else if decide (a = "010"%char) then None
    else if decide (a = backslash) then
      match s with
      | EmptyString => None
      | String b s => match unescape b with Some c => prepend c (read_literal s) | None => None end
      end
    else prepend (String a EmptyString) (read_literal s)
  end.

#[export] Instance literal_reader : LiteralReader read_literal.
Proof.
  split.
  - done.
  - intros a t Hp Hq Hb. cbn. rewrite !decide_False; [done|done| |done]. intros ->. by vm_compute in Hp.
  - intros b c t H. unfold short_escapes in H. rewrite !elem_of_cons, elem_of_nil in H.
    destruct H as [[= -> ->]|[[= -> ->]|[[= -> ->]|[[= -> ->]|[[= -> ->]|[]]]]]]; reflexivity.
  - intros b t Hm. cbn [read_literal]. rewrite !decide_False, decide_True by done. unfold unescape. by rewrite Hm.
  - done.
Qed.

(** The words of a group after its opening parenthesis. *)
Definition first_text (s : string) (r : option (list string)) : option (list string) :=
  (λ ws, match ws with w :: ws => (s +:+ w) :: ws | [] => [] end) <$> r.

Fixpoint regex_words (s : string) : option (list string) :=
  match s with
  | EmptyString => None
  | String a s =>
    if decide (a = backslash) then
      match s with
      | EmptyString => None
      | String b s => if is_meta b then first_text (String b EmptyString) (regex_words s) else None
      end
    else if decide (a = "|"%char) then (λ ws, EmptyString :: ws) <$> regex_words s
    else if decide (a = ")"%char) then if bool_decide (s = "$") then Some [EmptyString] else None
    else if is_meta a then None
    else first_text (String a EmptyString) (regex_words s)
  end.

Definition words_of (pattern : string) : option (list string) :=
  match pattern with
  | String "^" (String "(" s) => regex_words s
  | _ => None
  end.
Definition full_match (pattern w : string) : Prop := ∃ ws, words_of pattern = Some ws ∧ w ∈ ws.

Lemma first_text_text s t r : first_text s (first_text t r) = first_text (s +:+ t) r.
Proof. destruct r as [[|w ws]|]; [done| |done]. cbn. by rewrite str_app_assoc. Qed.

Lemma regex_literal_words s w t : regex_literal s w → regex_words (s +:+ t) = first_text w (regex_words t).
Proof.
  induction 1 as [|a s w Hp Hm Hb _ IH|a s w Hm _ IH].
  - rewrite str_app_empty. by destruct (regex_words t) as [[]|].
  - rewrite str_app_cons. cbn [regex_words].
    assert (a ≠ "|"%char ∧ a ≠ ")"%char) as [H1 H2] by (split; intros ->; discriminate).
    rewrite !decide_False by done. rewrite Hm, IH. apply first_text_text.
  - rewrite !str_app_cons. cbn [regex_words]. rewrite decide_True, Hm, IH by done. apply first_text_text.
Qed.

Lemma alternatives_words s texts w words : Forall2 regex_literal (s :: texts) (w :: words) →
  regex_words (join "|" (s :: texts) +:+ ")$") = Some (w :: words).
Proof.
  revert s w words. induction texts as [|s' texts IH]; intros s w words Hl; apply Forall2_cons in Hl as [Hs Hl].
  - apply Forall2_nil_inv_l in Hl as ->. change (join "|" [s]) with s. rewrite (regex_literal_words s w) by done.
    change (regex_words ")$") with (Some [EmptyString]). unfold first_text. cbn [fmap option_fmap option_map]. by rewrite str_app_nil_r.
  - destruct words as [|w' words]; [by inversion Hl|]. rewrite join_cons2, !str_app_assoc, (regex_literal_words s w) by done.
    rewrite str_app_cons, str_app_empty. cbn [regex_words]. rewrite decide_False, decide_True by done. rewrite (IH s' w' words) by done.
    unfold first_text. cbn [fmap option_fmap option_map]. by rewrite str_app_nil_r.
Qed.

#[export] Instance regex_match : RegexMatch full_match.
Proof.
  split. intros [|s texts] [|w0 words] w Hne Hl; [done|by inversion Hl..|].
  assert (words_of ("^(" +:+ join "|" (s :: texts) +:+ ")$") = Some (w0 :: words)) as E.
  { rewrite !str_app_cons, str_app_empty. exact (alternatives_words s texts w0 words Hl). }
  unfold full_match. rewrite E. split; [by intros (ws & [= <-] & Hw)|by exists (w0 :: words)].
Qed.


(** ** The trigger *)

#[export] Instance mem_store : WatermarkStore (list Z) := {|
  wm_Load _ _ := s ← get_state; mret (last s);
  wm_Save _ _ z := modify (λ l, l ++ [z])
|}.
#[export] Instance mem_store_returns : WatermarkReturns (list Z).
Proof. by split. Qed.

Definition tcfg_1 : tconfig := mkTConfig "kubescape_logs" "node" 0 true (5 * second) 10000.
Definition json_pod (_ : string) : error + (string * string) := inr ("web-0", "default").
Definition json_proc (_ : string) : error + (Z * string) := inr (7%Z, "sh").
Definition sha (s : string) : string := s.
Definition row_1 : Row := mkRow 1700000000 "R1" "node" "{}" "{}".
Definition t_0 : trig (W := list Z) := load_watermark tcfg_1 [].
Definition t_1 : trig (W := list Z) := (pollOnce tcfg_1 json_pod json_proc sha (parsed [row_1] None) (λ _, (0, 0)%Z) (λ _, false) t_0).2.

Lemma row_1_fetched : fetched [row_1] (watermark t_0) [row_1] [].
Proof. split; [done|repeat constructor|]. by intros r r' _ ?%not_elem_of_nil. Qed.

Lemma t_1_reached : rtc (tstep tcfg_1 json_pod json_proc sha) ([row_1], t_0) ([row_1], t_1).
Proof. apply rtc_once. apply (t_poll _ _ _ _ [row_1] t_0 [row_1] [] None (λ _, (0, 0)%Z) t_1); [exact row_1_fetched|]. vm_compute. reflexivity. Qed.

Lemma row_1_good : good_table tcfg_1 sha [row_1].
Proof.
  split_and!.
  - constructor; [by apply Z.leb_le|constructor].
  - apply NoDup_singleton.
  - intros t. rewrite filter_cons. case_decide; reflexivity.
Qed.

Lemma rows_sent_once_witness : ∃ log, Forall2 (λ r ev, Extract json_pod json_proc r = inr ev) log (out t_1) ∧ NoDup log ∧ length (out t_1) = 1%nat ∧
  (∀ r, r ∈ log → r ∈ [row_1]).
Proof.
  destruct (rows_sent_once tcfg_1 json_pod json_proc sha [row_1] [] [row_1] t_1) as (log & H1 & H2 & H3 & _).
  - apply Z.leb_le. reflexivity.
  - exact t_1_reached.
  - exact row_1_good.
  - exists log. split_and!; [exact H1|exact H2|reflexivity|]. intros r Hr. by apply H3.
Defined.
End ExportRuns.
